(* ===== verification/_CoqProject ===== *)
-Q . S2P
Prelude.v
GoStrings.v
GoSets.v
GoSlices.v
GoSort.v
Hosts.v
GoNet.v
Spiffe.v
ConfigKeys.v
PushRequest.v
PushQueue.v
Watch.v
XdsProtocol.v
Delta.v
Service.v
XdsCache.v
EndpointShards.v
ServiceIndex.v
EndpointBuilder.v
Eds.v
ApiTypes.v
Authentication.v
PolicyIndex.v
Debounce.v
Ads.v
XdsGen.v
ConfigSnapshot.v
SecurityFilters.v
GrpcRoutes.v
GrpcClusters.v
GrpcListeners.v
GrpcGen.v
StandardStream.v
Translate.v
ConfigModel.v
ConfigStore.v
ServiceEntries.v
ServiceRegistries.v
PodCache.v
KubeRegistry.v
Krt.v
KrtCollection.v
KrtSystem.v
KrtStatic.v
KrtJoin.v
KrtHandlers.v
LeaderElection.v
OperatorValues.v
NamespaceFilter.v
TaskQueue.v
DelayQueue.v
SecretCache.v
SdsService.v
InherentXds.v
LabelSyntax.v
Telemetry.v
Validation.v
Admission.v
SubjectAltNames.v
PkiUtil.v
CertAuthority.v
GatewayControllers.v
RegistrationAuthority.v
