(* ===== verification/Prelude.v ===== *)
(** * The control plane of dubbo-kubernetes

    dubbod watches a cluster, keeps a model of its services, endpoints and
    policies, serves it to workloads over xDS, and issues the certificates the
    workloads authenticate with.  This library models the path of a change
    through it, from a configuration or a pod to the stream of a client, and the
    path of a credential from the authority to a proxy, and proves that both keep
    their promises.  Paths below are under [src/]; [model/], [xds/],
    [networking/], [serviceregistry/], [config/], [leaderelection/] and
    [bootstrap/] stand for directories of [dubbod/discovery/pkg/], [security/]
    for [dubbod/security/pkg/].

    ** The program

    Configurations reach the server through an admission webhook and validators
    ([pkg/webhooks/server], [pkg/config/validation]) and live in stores
    ([config/memory], [config/aggregate]); services and endpoints come from
    registries ([serviceregistry/kube], [serviceentry], [aggregate]), which
    filter namespaces ([pkg/kube/namespace]) and run tasks from queues
    ([pkg/queue]); derived collections ([pkg/kube/krt]) recompute what depends
    on what changed.  A registry reports the endpoints of a service to the
    endpoint index ([model/endpointshards.go]), which decides whether the change
    needs a push and clears what the cache ([model/xds_cache.go],
    [typed_xds_cache.go]) holds for it.  The change becomes a push request
    ([model/push_context.go]) on a channel; the debouncer ([xds/discovery.go])
    merges what arrives close together, brings the configuration snapshot
    ([model/config_snapshot.go]) up to date and starts a push, which selects
    connections ([xds/ads.go]) and queues the request for each
    ([xds/pushqueue.go]).  The handler of a connection takes it from there: for
    every watched type it generates resources ([xds/eds.go],
    [xds/endpoints], [networking/grpcgen]), limits them to what the client asked
    for and sends them ([xds/xdsgen.go]), and records the response in the watch
    of the type, by which the protocol ([pkg/xds/server.go], [xds/delta.go])
    tells acknowledgements from requests; an adapter ([xds/standard_ads.go])
    speaks the standard xDS API.

    Certificates are issued by the authority ([security/pki],
    [security/server/ca]), to the agent of a workload, which caches and rotates
    them ([security/nodeagent/cache]) and serves them to the proxy
    ([security/nodeagent/sds]), or to a controller that keeps them in a Secret of
    the pod ([bootstrap/inherent_xds_controller.go]).  An elected replica
    runs the controllers ([leaderelection/]).

    ** The files

    Shared ground:
    - [Prelude]: outcomes of Go code ([res]: a value, an error, a panic), machine
      integers, times, nilable maps and sets, tactics and shared lemmas.
    - [GoStrings], [GoSets], [GoSlices], [GoSort], [GoNet]: the parts of the Go
      library and of [pkg/util/sets], [pkg/slices] the rest uses, with IEEE
      numbers where the code compares them.
    - [Hosts], [LabelSyntax]: [pkg/config/host], [labels], [protocol]; label
      syntax by derivatives of the regular expressions of the source.
    - [ConfigKeys], [ApiTypes], [ConfigModel]: kinds, keys, API messages,
      configurations and schemas.

    Requests and streams:
    - [PushRequest], [PushQueue], [Debounce]: requests and their merge, the queue
      and the debounce loop as step relations.
    - [Watch], [XdsProtocol], [Delta]: the [Watcher] interface as a class with
      laws, [ShouldRespond] proved against any watcher, the incremental protocol.
    - [Ads], [XdsGen]: admission and selection of connections; the handlers in a
      state and error monad.
    - [StandardStream], [Translate]: the adapter of the standard API.

    Content:
    - [Service], [XdsCache], [EndpointShards], [EndpointBuilder], [Eds]: endpoints
      from the index to the assignment, over an LRU given as a class with laws.
    - [Spiffe], [Authentication], [ServiceIndex], [PolicyIndex],
      [ConfigSnapshot]: identities, precedence of policies, the snapshot.
    - [SecurityFilters], [GrpcRoutes], [GrpcClusters], [GrpcListeners],
      [GrpcGen]: the generators of [networking/grpcgen].
    - [Telemetry]: [pkg/config/telemetry] and the observability of gateways.

    Sources of configuration:
    - [ConfigStore], [ServiceEntries], [ServiceRegistries], [PodCache],
      [KubeRegistry]: stores and registries.
    - [Validation], [Admission]: validators, registered schemas, the webhook.
    - [GatewayControllers]: gateways, their classes, references to secrets, status
      and the deployments made for them ([config/kube/gateway]).
    - [Krt], [KrtCollection], [KrtSystem], [KrtStatic], [KrtJoin],
      [KrtHandlers]: derived, static and joined collections and their handlers.
    - [NamespaceFilter], [TaskQueue], [DelayQueue], [LeaderElection],
      [OperatorValues]: filters, queues, leader election, the values of the
      operator.

    Credentials:
    - [SubjectAltNames], [PkiUtil], [CertAuthority]: the names of a certificate in
      ASN.1, templates and bundles, the authority and its service.  [Crypto] is
      the record of the library's operations, [CryptoLaws] what it promises.
    - [SecretCache], [SdsService]: the agent's cache and its service.
    - [InherentXds]: the controller of workload credentials.
    - [RegistrationAuthority]: certificates signed by the cluster ([security/pki/ra],
      [security/k8s/chiron]), and the bundle of the server, its watchers and its
      renewal ([keycertbundle/], [bootstrap/cert_controller.go]).

    ** What is proved

    - No update is lost: [debounce_no_lost_update], [debounce_progress],
      [pushqueue_no_lost_update], [skipped_clients_need_nothing],
      [derived_converges], [join_handlers_converge], [waiting_slice_not_lost],
      [tasks_in_order], [delayed_tasks_safe].
    - Nothing stale is served: [cache_no_stale_after_clear],
      [eds_generation_is_fresh], [reconcile_refines_full],
      [reconcile_syncs], [discovery_namespaces_converge],
      [gateway_status_settles].
    - The exchange with a client is right and ends: [ShouldRespond_refines_table],
      [exchange_converges], [acknowledged_push_is_silent],
      [push_nesting_bounded], [standard_stream_latest], [sds_follows_protocol].
    - The content is right: [outbound_listener_closure],
      [outbound_route_configuration], [listeners_follow_mtls_mode],
      [cluster_mtls_iff_strict], [authorization_filters_refine_policies],
      [effective_mtls_mode], [translation_conforms], [most_specific_wins].
    - Stores keep what they are given and only what is valid:
      [memory_store_refines], [aggregate_is_a_store], [store_keeps_only_valid],
      [one_mesh_telemetry], [labels_accepted], [accepted_entry_routable].
    - Only the entitled are served: [unauthorized_gets_nothing],
      [verify_peer_cert_isolation], [issued_certificate_bound],
      [granted_lifetime_bounded], [foreign_credentials_untouched],
      [secret_reference_granted], [unmanaged_objects_untouched],
      [ra_signs_for_caller_only], [at_most_one_leader].
    - Credentials outlive restarts and not themselves:
      [authority_is_the_stored_one], [authority_survives_restart],
      [san_roundtrip], [rotation_never_missing], [rotation_reaches_proxy],
      [renewal_before_expiry], [signing_request_removed],
      [bundle_change_never_missed].

    Several of these hold under conditions that their comments name and that the
    code does not check: services of one host name have the same ports
    ([outbound_listener_closure]); a collection is fetched from by key or index
    always or never ([derived_converges]); the mutual TLS mode is that of the
    policies without a selector, the only ones the generators consult
    ([listeners_follow_mtls_mode], [cluster_mtls_iff_strict]); telemetry objects
    are created one review at a time, or each review has seen the objects before it
    ([one_mesh_telemetry]); a change names what it changes
    ([reconcile_refines_full]); a leader that released the lock is excepted
    ([at_most_one_leader]); lifetimes and clocks are bounded
    ([issued_certificate_bound], [rotation_never_missing]).  For the first four
    and for the released lock there is an example or a run without the condition
    that fails.

    Theorems and examples under headings such as Findings show where the code
    does not do what its comments or its other half say.

    ** Choices

    Integers are [Z] with the wrap-around written where the code can overflow
    (counters, weights, tokens, durations).  A nil map or set is [None]: reading
    it is reading an empty one, writing to it panics.  Where the order in which Go
    iterates over a map can be seen, it is a parameter, a permutation of the
    elements ([RangeOrder] and the like), and statements hold for every order;
    where it cannot, it is the order of a finite map.  Locks make each modelled
    operation atomic: interleavings are sequences of operations.  What is not
    under [src/] is a parameter, with its documented behaviour as laws where a
    proof needs it, and an instance that satisfies them: the LRU library,
    protobuf messages and their descriptors, hash functions, the clock, streams,
    informers and the API server, label requirements, parsing of numbers and of
    URLs, JSON decoders, the file system and its watcher, PEM, X.509 and keys.

    Recursions that are not structural get fuel: [Split] the length of the
    string, which bounds the separators; PEM loops and the loop over the names of
    a certificate one more than the length of the text, each round consuming some
    ([extract_ids_values] for the latter); aliases of services one more than their
    number; translation of messages one more than their bytes; heap operations
    the length of the heap.  [pushXds] calls itself at most once in depth; it is
    defined with depth two and [push_nesting_bounded] shows that more changes
    nothing.  Regular expressions are matched by structural recursion.

    ** What is not modelled

    The goroutines that read from a stream or a channel and feed the handlers
    ([Stream], [Receive], [StreamDeltas], [receiveDelta], [doSendPushes], the
    [Run] loops): the handlers are modelled, their scheduling is a sequence of
    steps.  Start-up ([bootstrap/server.go]: flags, listeners and wiring); the
    informer-backed store of custom resources ([config/kube/crdclient]) and the
    wiring of the gateway controllers, whose work is calls to the API server; the
    injection webhook ([pkg/kube/inject]) and the rendering of the operator and of
    dubboctl, which fill templates of Kubernetes objects; the xDS client
    ([pkg/adsc]); debug pages and metrics; generated clients and types. *)

From Stdlib Require Export Ascii.
From stdpp Require Export base gmap sets list strings sorting.
From Stdlib Require Export ZArith Lia.

(** * Shared vocabulary *)

(** ** Automation *)

(** Simplification lemmas about the modelled operations are collected in
    [dubbo]; [dubbo_simpl] rewrites with them. *)
Create HintDb dubbo.
Ltac dubbo_simpl := autorewrite with dubbo.

Declare Scope go_scope.
Delimit Scope go_scope with go.
Open Scope Z_scope.
Open Scope go_scope.

(** Case analysis on the conditions of translated code: the scrutinee of an
    [if] or a [match] in the goal, or in a hypothesis. *)
Ltac branch :=
  repeat (case_match || case_decide || case_bool_decide); simplify_eq/=.

Ltac branch_in H :=
  repeat match type of H with
  | context [match ?x with _ => _ end] => destruct x eqn:?
  end; simplify_eq/=.

(** Turn boolean tests of the code into propositions. *)
Ltac breflect :=
  repeat match goal with
  | H : _ && _ = true |- _ => apply andb_true_iff in H as [? ?]
  | H : _ || _ = false |- _ => apply orb_false_iff in H as [? ?]
  | H : _ && _ = false |- _ => apply andb_false_iff in H
  | H : _ || _ = true |- _ => apply orb_true_iff in H
  | H : negb _ = true |- _ => apply negb_true_iff in H
  | H : negb _ = false |- _ => apply negb_false_iff in H
  | H : bool_decide _ = true |- _ => apply bool_decide_eq_true in H
  | H : bool_decide _ = false |- _ => apply bool_decide_eq_false in H
  | H : (_ =? _) = true |- _ => apply Z.eqb_eq in H
  | H : (_ =? _) = false |- _ => apply Z.eqb_neq in H
  | H : (_ <? _) = true |- _ => apply Z.ltb_lt in H
  | H : (_ <? _) = false |- _ => apply Z.ltb_ge in H
  | H : (_ <=? _) = true |- _ => apply Z.leb_le in H
  | H : (_ <=? _) = false |- _ => apply Z.leb_gt in H
  end.

(** ** Outcomes of Go code

    A Go function that can fail returns an [error] value, and any statement
    can panic (a nil dereference, a write to a nil map, a failed type
    assertion).  [res] separates the two: [Err] is returned to the caller,
    [Panic] unwinds past it. *)

Inductive grpc_code : Type :=
  | OK | Unknown | InvalidArgument | PermissionDenied | ResourceExhausted
  | Unimplemented | Unavailable | Unauthenticated | DeadlineExceeded | Internal.

#[global] Instance grpc_code_eq_dec : EqDecision grpc_code.
Proof. solve_decision. Defined.

(** A Go [error]: the gRPC status code it carries ([Unknown] for a plain
    error) and its message. *)
Record gerror : Type := mk_error { err_code : grpc_code; err_msg : string }.

#[global] Instance gerror_eq_dec : EqDecision gerror.
Proof. solve_decision. Defined.

Inductive res (A : Type) : Type :=
  | Ok (a : A)
  | Err (e : gerror)
  | Panic (why : string).
Arguments Ok {_} _.
Arguments Err {_} _.
Arguments Panic {_} _.

#[global] Instance res_ret : MRet res := fun A a => Ok a.
#[global] Instance res_bind : MBind res := fun A B f m =>
  match m with Ok a => f a | Err e => Err e | Panic w => Panic w end.
#[global] Instance res_fmap : FMap res := fun A B f m =>
  match m with Ok a => Ok (f a) | Err e => Err e | Panic w => Panic w end.

Lemma res_bind_ok {A B} (m : res A) (f : A -> res B) b :
  m ≫= f = Ok b <-> exists a, m = Ok a /\ f a = Ok b.
Proof. destruct m; simpl; naive_solver. Qed.

(** A result that is a value, and the value. *)
Definition is_ok {A} (m : res A) : bool := match m with Ok _ => true | _ => false end.
Definition from_ok {A} (d : A) (m : res A) : A := match m with Ok a => a | _ => d end.

Lemma is_ok_from_ok {A} (d : A) (m : res A) : is_ok m = true -> m = Ok (from_ok d m).
Proof. by destruct m. Qed.

Lemma res_bind_assoc {A B C} (m : res A) (f : A -> res B) (g : B -> res C) :
  (m ≫= f) ≫= g = m ≫= (fun a => f a ≫= g).
Proof. by destruct m. Qed.

(** ** Machine integers

    Go's [int] is 64 bits wide on the platforms the control plane is built
    for; integers are [Z] with the wrap-around written out. *)

Definition two63 : Z := 9223372036854775808.
Definition two64 : Z := 18446744073709551616.
Definition two32 : Z := 4294967296.

Definition wrap_s64 (z : Z) : Z := (z + two63) mod two64 - two63.
Definition wrap_u64 (z : Z) : Z := z mod two64.

Definition in_s64 (z : Z) : Prop := - two63 <= z < two63.
Definition in_u64 (z : Z) : Prop := 0 <= z < two64.

Lemma wrap_s64_range z : in_s64 (wrap_s64 z).
Proof.
  unfold in_s64, wrap_s64, two63, two64.
  pose proof (Z.mod_pos_bound (z + 9223372036854775808) 18446744073709551616).
  lia.
Qed.

Lemma wrap_s64_id z : in_s64 z -> wrap_s64 z = z.
Proof.
  unfold in_s64, wrap_s64, two63, two64; intros.
  rewrite Z.mod_small; lia.
Qed.

Lemma wrap_u64_id z : in_u64 z -> wrap_u64 z = z.
Proof. unfold in_u64, wrap_u64; intros; by apply Z.mod_small. Qed.

Lemma wrap_s64_add_l a b : wrap_s64 (wrap_s64 a + b) = wrap_s64 (a + b).
Proof.
  unfold wrap_s64. f_equal.
  replace ((a + two63) mod two64 - two63 + b + two63)
    with ((a + two63) mod two64 + b) by lia.
  rewrite Z.add_mod_idemp_l by done. f_equal; lia.
Qed.

Lemma wrap_s64_add_r a b : wrap_s64 (a + wrap_s64 b) = wrap_s64 (a + b).
Proof. rewrite Z.add_comm, wrap_s64_add_l. f_equal; lia. Qed.

(** ** Time

    A [time.Time] is its distance in nanoseconds from the zero time (January
    1 of year 1, UTC); the monotonic reading does not occur in the modelled
    code's decisions.  [UnixNano] is an [int64]. *)

Definition Time : Type := Z.
Definition time_zero : Time := 0.
Definition IsZero (t : Time) : bool := t =? time_zero.
Definition unix_epoch : Time := 62135596800 * 1000000000.
Definition UnixNano (t : Time) : Z := wrap_s64 (t - unix_epoch).

(** ** Pointers

    An object compared by identity (a connection, a push context) is known by
    its address; [option ptr] is a nilable pointer. *)

Definition ptr : Type := positive.

(** ** Nilable maps and sets

    A nil Go map reads as the empty map and panics on a write; code that tests
    [m == nil] distinguishes the two, so a nilable map is an [option]. *)

Definition nset (A : Type) `{Countable A} : Type := option (gset A).

Definition nset_elems `{Countable A} (s : nset A) : gset A := default ∅ s.
Definition nset_len `{Countable A} (s : nset A) : nat := size (nset_elems s).

Definition nmap (K V : Type) `{Countable K} : Type := option (gmap K V).
Definition nmap_get `{Countable K} {V} (m : nmap K V) : gmap K V := default ∅ m.

(** ** Generic lemmas *)

Lemma size_empty_iff_L `{Countable A} (s : gset A) : size s = 0%nat <-> s = ∅.
Proof.
  split; [|intros ->; apply size_empty].
  intros ?; apply leibniz_equiv; by apply size_empty_inv.
Qed.

Lemma difference_empty_iff_L `{Countable A} (s t : gset A) : s ∖ t = ∅ <-> s ⊆ t.
Proof.
  split; [|set_solver]. intros E x Hx. destruct (decide (x ∈ t)); [done|set_solver].
Qed.

Lemma fold_left_app_single {A B} (f : A -> B -> A) l x a :
  fold_left f (l ++ [x]) a = f (fold_left f l a) x.
Proof. by rewrite fold_left_app. Qed.

(** A loop that only ever adds to a set adds exactly what it visits. *)
Lemma fold_insert_set `{Countable A} (l : list A) (s : gset A) :
  fold_left (fun acc x => {[x]} ∪ acc) l s = s ∪ list_to_set l.
Proof.
  revert s; induction l as [|x l IH]; intros s; simpl; [set_solver|].
  rewrite IH. set_solver.
Qed.

Lemma existsb_elem {A} (f : A -> bool) (l : list A) :
  existsb f l = true <-> exists x, x ∈ l /\ f x = true.
Proof. rewrite existsb_exists. by setoid_rewrite list_elem_of_In. Qed.

Lemma forallb_elem {A} (f : A -> bool) (l : list A) :
  forallb f l = true <-> forall x, x ∈ l -> f x = true.
Proof. rewrite forallb_forall. by setoid_rewrite list_elem_of_In. Qed.

(** A loop that returns at the first element satisfying [f] does not depend
    on the order in which the elements are visited. *)
Lemma existsb_perm {A} (f : A -> bool) (l k : list A) :
  l ≡ₚ k -> existsb f l = existsb f k.
Proof.
  intros Hp. apply eq_true_iff_eq. rewrite !existsb_elem.
  by setoid_rewrite Hp.
Qed.

Lemma forallb_perm {A} (f : A -> bool) (l k : list A) :
  l ≡ₚ k -> forallb f l = forallb f k.
Proof.
  intros Hp. apply eq_true_iff_eq. rewrite !forallb_elem.
  by setoid_rewrite Hp.
Qed.

Lemma omap_perm {A B} (f : A -> option B) (l k : list A) :
  l ≡ₚ k -> omap f l ≡ₚ omap f k.
Proof. by intros ->. Qed.

Lemma size_list_to_set_le `{Countable A} (l : list A) :
  (size (list_to_set l : gset A) <= length l)%nat.
Proof.
  induction l as [|x l IH]; cbn [list_to_set length]; [by rewrite size_empty|].
  rewrite size_union_alt, size_singleton.
  assert (size (list_to_set l ∖ {[x]} : gset A) <= size (list_to_set l : gset A))%nat
    by (apply subseteq_size; set_solver). lia.
Qed.

Lemma find_app {A} (f : A -> bool) (a b : list A) :
  List.find f (a ++ b) = match List.find f a with Some x => Some x | None => List.find f b end.
Proof. induction a as [|x a IH]; simpl; [done|]. by destruct (f x). Qed.
