(* ===== verification/GoStrings.v ===== *)
(** * The parts of Go's [strings] and [strconv] the control plane uses

    A Go string is a byte string, modelled by [string].  The functions here
    follow the documented behaviour of the Go standard library functions of
    the same name; they are the vocabulary of the key formats
    ([model.BuildSubsetKey], node ids, host names). *)

From S2P Require Import Prelude.
Open Scope string_scope.
#[global] Arguments String.append !_ _ / : simpl nomatch.
Open Scope Z_scope.

(** ** [strings] *)

Fixpoint str_drop (n : nat) (s : string) : string :=
  match n, s with
  | O, _ => s
  | S n, String _ s' => str_drop n s'
  | S _, EmptyString => EmptyString
  end.

Definition HasPrefix (s pre : string) : bool := String.prefix pre s.

(** [strings.Cut], found part only: the text around the first occurrence of
    [sep]. *)
Fixpoint cut_at (s sep : string) : option (string * string) :=
  if String.prefix sep s then Some ("", str_drop (String.length sep) s)
  else match s with
       | EmptyString => None
       | String c s' =>
           match cut_at s' sep with
           | Some (b, a) => Some (String c b, a)
           | None => None
           end
       end.

Definition Cut (s sep : string) : string * string * bool :=
  match cut_at s sep with
  | Some (b, a) => (b, a, true)
  | None => (s, "", false)
  end.

Definition str_contains (s sep : string) : bool :=
  match cut_at s sep with Some _ => true | None => false end.

(** [strings.Split] for a separator that is not empty; the fuel is the length
    of the text, which every cut shortens. *)
Fixpoint split_fuel (fuel : nat) (s sep : string) : list string :=
  match fuel with
  | O => [s]
  | S fuel =>
      match cut_at s sep with
      | Some (b, a) => b :: split_fuel fuel a sep
      | None => [s]
      end
  end.

Definition Split (s sep : string) : list string :=
  split_fuel (String.length s) s sep.

(** [strings.LastIndex] for a one-byte separator ([None] for -1). *)
Fixpoint LastIndex (s : string) (c : ascii) : option nat :=
  match s with
  | EmptyString => None
  | String d s' =>
      match LastIndex s' c with
      | Some i => Some (S i)
      | None => if Ascii.eqb d c then Some O else None
      end
  end.

Fixpoint str_join (l : list string) (sep : string) : string :=
  match l with
  | [] => ""
  | [x] => x
  | x :: l' => x +:+ sep +:+ str_join l' sep
  end.

(** ** [strconv] *)

Definition digit_char (d : Z) : ascii := Ascii.ascii_of_nat (48 + Z.to_nat d).

Fixpoint dec_aux (fuel : nat) (n : Z) (acc : string) : string :=
  match fuel with
  | O => acc
  | S fuel =>
      let acc' := String (digit_char (n mod 10)) acc in
      if n <? 10 then acc' else dec_aux fuel (n / 10) acc'
  end.

(** [strconv.Itoa] on a 64-bit integer: at most 19 digits, so 20 units of
    fuel print every value. *)
Definition Itoa (n : Z) : string :=
  if n <? 0 then String "-" (dec_aux 20 (- n) "") else dec_aux 20 n "".

Definition char_digit (c : ascii) : option Z :=
  let n := Z.of_nat (Ascii.nat_of_ascii c) in
  if (48 <=? n) && (n <=? 57) then Some (n - 48) else None.

Fixpoint parse_digits (acc : Z) (s : string) : option Z :=
  match s with
  | EmptyString => Some acc
  | String c s' =>
      match char_digit c with
      | Some d => parse_digits (acc * 10 + d) s'
      | None => None
      end
  end.

Definition clamp_s64 (z : Z) : Z := Z.max (- two63) (Z.min z (two63 - 1)).

(** The value [strconv.Atoi] returns next to its error, which is what a caller
    that drops the error uses: 0 for a malformed number, the nearest bound for
    one out of range. *)
Definition Atoi_value (s : string) : Z :=
  let digits neg t :=
    match t with
    | EmptyString => 0
    | _ => match parse_digits 0 t with
           | Some z => clamp_s64 (if neg : bool then - z else z)
           | None => 0
           end
    end in
  match s with
  | String "-" t => digits true t
  | String "+" t => digits false t
  | t => digits false t
  end.

(** [strconv.Atoi] succeeds. *)
Definition Atoi_ok (s : string) : bool :=
  let digits neg t :=
    match t with
    | EmptyString => false
    | _ => match parse_digits 0 t with
           | Some z => let v := if neg : bool then - z else z in
                       (- two63 <=? v) && (v <? two63)
           | None => false
           end
    end in
  match s with
  | String "-" t => digits true t
  | String "+" t => digits false t
  | t => digits false t
  end.

(** Byte-wise [<] on strings. *)
Definition str_ltb (a b : string) : bool :=
  match String.compare a b with Lt => true | _ => false end.

(** ** Lemmas *)

Fixpoint no_char (c : ascii) (s : string) : bool :=
  match s with
  | EmptyString => true
  | String d s' => negb (Ascii.eqb d c) && no_char c s'
  end.

Lemma str_app_assoc (a b c : string) : (a +:+ b) +:+ c = a +:+ (b +:+ c).
Proof. induction a; simpl; congruence. Qed.

Lemma str_length_app a b :
  String.length (a +:+ b) = (String.length a + String.length b)%nat.
Proof. induction a; simpl; auto. Qed.

Lemma str_app_nil_r (a : string) : a +:+ "" = a.
Proof. induction a; simpl; congruence. Qed.

Lemma str_app_cons (a : string) c b : (a +:+ String c "") +:+ b = a +:+ String c b.
Proof. by rewrite str_app_assoc. Qed.

Lemma no_char_app c a b : no_char c (a +:+ b) = no_char c a && no_char c b.
Proof. induction a; simpl; [done|]. rewrite IHa. by rewrite andb_assoc. Qed.

Lemma prefix_nil s : String.prefix "" s = true.
Proof. by destruct s. Qed.

Lemma prefix_single c d s :
  String.prefix (String c "") (String d s) = Ascii.eqb c d.
Proof.
  simpl. destruct (Ascii.ascii_dec c d) as [->|Hne].
  - rewrite Ascii.eqb_refl. apply prefix_nil.
  - symmetry; by apply Ascii.eqb_neq.
Qed.

Lemma cut_at_app a c b :
  no_char c a = true -> cut_at (a +:+ String c b) (String c "") = Some (a, b).
Proof.
  induction a as [|d a IH]; intros Ha.
  - change ("" +:+ String c b) with (String c b).
    cbn [cut_at]. by rewrite prefix_single, Ascii.eqb_refl.
  - simpl in Ha; breflect.
    change (String d a +:+ String c b) with (String d (a +:+ String c b)).
    cbn [cut_at]. rewrite prefix_single, IH by done.
    rewrite Ascii.eqb_sym. by rewrite H.
Qed.

(** A prefix without the separator, and the rest, are recovered. *)
Lemma sep_inj c a1 b1 a2 b2 :
  no_char c a1 = true -> no_char c a2 = true ->
  a1 +:+ String c b1 = a2 +:+ String c b2 -> a1 = a2 /\ b1 = b2.
Proof.
  intros H1 H2 E. pose proof (cut_at_app a1 c b1 H1) as C1. rewrite E, (cut_at_app a2 c b2 H2) in C1.
  by simplify_eq.
Qed.

Lemma cut_at_none a c : no_char c a = true -> cut_at a (String c "") = None.
Proof.
  induction a as [|d a IH]; intros Ha; [done|].
  simpl in Ha; breflect. cbn [cut_at].
  rewrite prefix_single, IH by done. rewrite Ascii.eqb_sym. by rewrite H.
Qed.

Lemma cut_at_none_inv a c : cut_at a (String c "") = None -> no_char c a = true.
Proof.
  induction a as [|d a IH]; [done|].
  cbn [cut_at no_char]. rewrite prefix_single, Ascii.eqb_sym.
  destruct (Ascii.eqb d c); simpl; [done|].
  destruct (cut_at a (String c "")) as [[??]|] eqn:E; [done|auto].
Qed.

Lemma cut_at_some s c a b :
  cut_at s (String c "") = Some (a, b) ->
  s = a +:+ String c b /\ no_char c a = true.
Proof.
  revert a; induction s as [|d s IH]; intros a; [done|].
  cbn [cut_at]. rewrite prefix_single, Ascii.eqb_sym.
  destruct (Ascii.eqb d c) eqn:E.
  - intros ?; simplify_eq/=. apply Ascii.eqb_eq in E as ->. by destruct b.
  - destruct (cut_at s (String c "")) as [[a' b']|] eqn:E'; [|done].
    intros ?; simplify_eq. destruct (IH a') as [-> Hn]; [done|].
    simpl. by rewrite E, Hn.
Qed.

Lemma LastIndex_none s c : no_char c s = true -> LastIndex s c = None.
Proof.
  induction s as [|d s IH]; simpl; [done|]. intros H; breflect.
  rewrite IH by done. by rewrite H.
Qed.

Lemma LastIndex_none_inv s c : LastIndex s c = None -> no_char c s = true.
Proof.
  induction s as [|d s IH]; simpl; [done|].
  destruct (LastIndex s c); [done|]. destruct (Ascii.eqb d c); [done|]. auto.
Qed.

Lemma LastIndex_app a c b :
  no_char c b = true -> LastIndex (a +:+ String c b) c = Some (String.length a).
Proof.
  intros Hb. induction a as [|d a IH]; simpl.
  - by rewrite LastIndex_none, Ascii.eqb_refl.
  - by rewrite IH.
Qed.

Lemma str_drop_app a b : str_drop (String.length a) (a +:+ b) = b.
Proof. by induction a. Qed.

Lemma str_drop_app_succ a c b :
  str_drop (S (String.length a)) (a +:+ String c b) = b.
Proof. induction a; simpl; [by destruct b|done]. Qed.

Lemma split_fuel_single n s c :
  no_char c s = true -> split_fuel n s (String c "") = [s].
Proof. intros. destruct n; simpl; [done|]. by rewrite cut_at_none. Qed.

Lemma split_fuel_cons n a c b :
  no_char c a = true ->
  split_fuel (S n) (a +:+ String c b) (String c "") = a :: split_fuel n b (String c "").
Proof. intros. cbn [split_fuel]. by rewrite cut_at_app. Qed.

(** Joining the parts of a split gives the text back. *)
Lemma split_fuel_join n s c :
  str_join (split_fuel n s (String c "")) (String c "") = s.
Proof.
  revert s; induction n as [|n IH]; intros s; [done|]. cbn [split_fuel].
  destruct (cut_at s (String c "")) as [[a b]|] eqn:E; [|done].
  apply cut_at_some in E as [-> _]. specialize (IH b).
  destruct (split_fuel n b (String c "")) as [|y l] eqn:El; cbn [str_join].
  - destruct n; cbn in El; [done|].
    by destruct (cut_at b (String c "")) as [[??]|].
  - change (match l with [] => y | _ :: _ => y +:+ String c "" +:+ str_join l (String c "") end)
      with (str_join (y :: l) (String c "")) in *.
    f_equal. simpl. f_equal. apply IH.
Qed.

Lemma char_digit_char d : 0 <= d < 10 -> char_digit (digit_char d) = Some d.
Proof.
  intros Hd. assert (d = 0 \/ d = 1 \/ d = 2 \/ d = 3 \/ d = 4 \/ d = 5 \/ d = 6
    \/ d = 7 \/ d = 8 \/ d = 9) as Hc by lia.
  by destruct_or! Hc; subst.
Qed.

Lemma parse_dec_aux fuel n acc :
  0 <= n < 10 ^ Z.of_nat fuel ->
  parse_digits 0 (dec_aux fuel n acc) = parse_digits n acc.
Proof.
  revert n acc; induction fuel as [|fuel IH]; intros n acc Hn.
  { simpl in *. by replace n with 0 by lia. }
  rewrite Nat2Z.inj_succ, Z.pow_succ_r in Hn by lia.
  cbn [dec_aux]. destruct (Z.ltb_spec n 10).
  - rewrite Z.mod_small by lia. cbn [parse_digits].
    rewrite char_digit_char by lia. f_equal; lia.
  - rewrite IH.
    + cbn [parse_digits]. rewrite char_digit_char by (apply Z.mod_pos_bound; lia).
      f_equal. pose proof (Z.div_mod n 10). lia.
    + split; [apply Z.div_pos; lia|]. apply Z.div_lt_upper_bound; lia.
Qed.

Definition is_digit (c : ascii) : bool := bool_decide (is_Some (char_digit c)).

Fixpoint all_digits (s : string) : bool :=
  match s with
  | EmptyString => true
  | String c s' => is_digit c && all_digits s'
  end.

Lemma dec_aux_digits fuel n acc :
  0 <= n -> all_digits acc = true -> all_digits (dec_aux fuel n acc) = true.
Proof.
  revert n acc; induction fuel as [|fuel IH]; intros n acc Hn Ha; [done|].
  cbn [dec_aux]. assert (all_digits (String (digit_char (n mod 10)) acc) = true).
  { cbn [all_digits]. rewrite Ha, andb_true_r. unfold is_digit.
    apply bool_decide_eq_true. rewrite char_digit_char; [by eexists|].
    apply Z.mod_pos_bound; lia. }
  destruct (Z.ltb_spec n 10); [done|]. apply IH; [apply Z.div_pos; lia|done].
Qed.

Lemma dec_aux_nonempty fuel n acc :
  exists c s, dec_aux (S fuel) n acc = String c s.
Proof.
  revert n acc; induction fuel as [|fuel IH]; intros n acc; cbn [dec_aux].
  - destruct (n <? 10); eauto.
  - destruct (n <? 10); [eauto|]. apply IH.
Qed.

Lemma no_char_digits c s :
  all_digits s = true -> is_digit c = false -> no_char c s = true.
Proof.
  induction s as [|d s IH]; simpl; [done|]. intros H Hc; breflect.
  rewrite IH by done. rewrite andb_true_r. apply negb_true_iff, Ascii.eqb_neq.
  intros ->. congruence.
Qed.

(** A printed number contains no character that is neither a digit nor the
    sign. *)
Lemma no_char_Itoa c z :
  is_digit c = false -> c <> "-"%char -> no_char c (Itoa z) = true.
Proof.
  intros Hc Hm. unfold Itoa. destruct (Z.ltb_spec z 0).
  - cbn [no_char]. rewrite no_char_digits; [|by apply dec_aux_digits; [lia|]|done].
    rewrite andb_true_r. apply negb_true_iff, Ascii.eqb_neq. congruence.
  - apply no_char_digits; [|done]. by apply dec_aux_digits.
Qed.

Lemma Itoa_Atoi z : in_s64 z -> Atoi_value (Itoa z) = z.
Proof.
  unfold in_s64, two63. intros Hz.
  assert (Hclamp : clamp_s64 z = z) by (unfold clamp_s64, two63; lia).
  unfold Itoa. destruct (Z.ltb_spec z 0).
  - unfold Atoi_value.
    destruct (dec_aux_nonempty 19 (- z) "") as (c & s & E). rewrite E, <- E.
    rewrite parse_dec_aux by (simpl; lia). simpl.
    by rewrite Z.opp_involutive.
  - destruct (dec_aux_nonempty 19 z "") as (c & s & E).
    assert (Hd : all_digits (dec_aux 20 z "") = true) by (by apply dec_aux_digits).
    assert (Hp : parse_digits 0 (dec_aux 20 z "") = Some z)
      by (rewrite parse_dec_aux; [done|simpl; lia]).
    rewrite E in *. cbn [all_digits] in Hd. breflect.
    unfold Atoi_value. rewrite Hp, Hclamp.
    assert (c <> "-"%char) by (intros ->; done).
    assert (c <> "+"%char) by (intros ->; done).
    destruct c as [[] [] [] [] [] [] [] []]; done.
Qed.

(** A printed number is read back without an error. *)
Lemma Itoa_ok z : in_s64 z -> Atoi_ok (Itoa z) = true.
Proof.
  unfold in_s64. intros Hz. assert (Hr : ((- two63 <=? z) && (z <? two63)) = true).
  { apply andb_true_iff. rewrite Z.leb_le, Z.ltb_lt. done. }
  unfold two63 in *. unfold Itoa. destruct (Z.ltb_spec z 0).
  - unfold Atoi_ok.
    destruct (dec_aux_nonempty 19 (- z) "") as (c & s & E). rewrite E, <- E.
    rewrite parse_dec_aux by (simpl; lia). simpl.
    by rewrite Z.opp_involutive.
  - destruct (dec_aux_nonempty 19 z "") as (c & s & E).
    assert (Hd : all_digits (dec_aux 20 z "") = true) by (by apply dec_aux_digits).
    assert (Hp : parse_digits 0 (dec_aux 20 z "") = Some z)
      by (rewrite parse_dec_aux; [done|simpl; lia]).
    rewrite E in *. cbn [all_digits] in Hd. apply andb_true_iff in Hd as [? ?].
    unfold Atoi_ok, two63. rewrite Hp, Hr.
    assert (c <> "-"%char) by (intros ->; done).
    assert (c <> "+"%char) by (intros ->; done).
    destruct c as [[] [] [] [] [] [] [] []]; done.
Qed.

(** [++] is list concatenation from here on; strings use [+:+]. *)
Open Scope list_scope.
