(* ===== verification/GoSets.v ===== *)
(** * [pkg/util/sets]: the generic set of the control plane

    [sets.Set] is a Go map to the empty struct, so it can be nil: [nset].
    Methods that only read accept nil; a write to a nil set panics.  Loops
    range over the elements in the (unspecified) order of [elements]; the
    lemmas give each loop its set-theoretic meaning, which does not depend on
    that order. *)

From S2P Require Import Prelude.

Module GoSet.
Section ops.
Context {T : Type} `{Countable T}.
Implicit Types (s t : nset T) (x : T) (items : list T).

(** A map write [s[item] = struct{}{}]. *)
Definition write s x : res (nset T) :=
  match s with
  | Some e => Ok (Some ({[x]} ∪ e))
  | None => Panic "assignment to entry in nil map"
  end.

Definition NewWithLength : nset T := Some ∅.

Fixpoint InsertAll s items : res (nset T) :=
  match items with
  | [] => Ok s
  | item :: items => s ← write s item; InsertAll s items
  end.

Definition New items : nset T :=
  match InsertAll NewWithLength items with Ok s => s | _ => None end.

Definition Insert s x : res (nset T) := write s x.

Definition Delete s x : nset T := (fun e => e ∖ {[x]}) <$> s.

Definition DeleteAll s items : nset T := fold_left Delete items s.

Definition Contains s x : bool := bool_decide (x ∈ nset_elems s).
Definition Len s : nat := nset_len s.
Definition IsEmpty s : bool := bool_decide (nset_len s = 0%nat).

Definition UnsortedList s : list T := elements (nset_elems s).

Definition Merge s s2 : res (nset T) := InsertAll s (UnsortedList s2).

Definition Copy s : nset T := New (UnsortedList s).

Definition Union s s2 : res (nset T) := InsertAll (Copy s) (UnsortedList s2).

Definition Difference s s2 : nset T :=
  New (base.filter (fun k => Contains s2 k = false) (UnsortedList s)).

Definition DifferenceInPlace s s2 : nset T :=
  fold_left (fun acc k => if Contains s2 k then Delete acc k else acc)
    (UnsortedList s) s.

Definition Diff s other : list T * list T :=
  (base.filter (fun k => Contains other k = false) (UnsortedList s),
   base.filter (fun k => Contains s k = false) (UnsortedList other)).

Definition Intersection s s2 : nset T :=
  New (base.filter (fun k => Contains s2 k = true) (UnsortedList s)).

Definition IntersectInPlace s s2 : nset T :=
  fold_left (fun acc k => if Contains s2 k then acc else Delete acc k)
    (UnsortedList s) s.

Definition SupersetOf s s2 : bool :=
  match s2 with
  | None => true
  | Some _ =>
      if (Len s <? Len s2)%nat then false
      else forallb (Contains s) (UnsortedList s2)
  end.

Definition ContainsAll s s2 : bool := SupersetOf s s2.

Definition Equals s other : bool :=
  if negb (Len s =? Len other)%nat then false
  else forallb (Contains other) (UnsortedList s).

(** [InsertContains] and [DeleteContains] update the receiver and report
    whether the item was present. *)
Definition InsertContains s x : res (nset T * bool) :=
  if Contains s x then Ok (s, true)
  else s' ← write s x; Ok (s', false).

Definition DeleteContains s x : nset T * bool :=
  if Contains s x then (Delete s x, true) else (s, false).

End ops.

(** A map of sets: [InsertOrNew] and [DeleteCleanupLast].  The sets a map of
    sets holds are never nil, since [InsertOrNew] is what creates them. *)
Section maps_of_sets.
Context {K T : Type} `{Countable K, Countable T}.
Implicit Types (m : gmap K (gset T)) (k : K) (v : T).

Definition InsertOrNew m k v : gmap K (gset T) :=
  match m !! k with
  | None => <[k := nset_elems (New [v])]> m
  | Some s => <[k := {[v]} ∪ s]> m
  end.

Definition DeleteCleanupLast m k v : gmap K (gset T) :=
  let s := Delete (m !! k) v in
  let m' := match s with Some e => <[k := e]> m | None => m end in
  if IsEmpty s then delete k m' else m'.

End maps_of_sets.

(** ** Meaning of the loops *)
Section lemmas.
Context {T : Type} `{Countable T}.
Implicit Types (s t : nset T) (x : T) (items : list T).

Lemma InsertAll_some e items :
  InsertAll (Some e) items = Ok (Some (e ∪ list_to_set items)).
Proof.
  revert e; induction items as [|x items IH]; intros e; simpl.
  - do 2 f_equal. set_solver.
  - rewrite IH. do 2 f_equal. set_solver.
Qed.

Lemma InsertAll_nil_iff s items :
  (exists w, InsertAll s items = Panic w) <-> s = None /\ items <> [].
Proof.
  destruct s as [e|]; [rewrite InsertAll_some; naive_solver|].
  destruct items; simpl; naive_solver.
Qed.

Lemma New_eq items : New items = Some (list_to_set items).
Proof.
  unfold New, NewWithLength. rewrite InsertAll_some. f_equal. set_solver.
Qed.

Lemma Contains_spec s x : Contains s x = true <-> x ∈ nset_elems s.
Proof. apply bool_decide_eq_true. Qed.

Lemma Contains_false s x : Contains s x = false <-> x ∉ nset_elems s.
Proof. apply bool_decide_eq_false. Qed.

Lemma UnsortedList_elem s x : x ∈ UnsortedList s <-> x ∈ nset_elems s.
Proof. apply elem_of_elements. Qed.

Lemma Copy_eq s : Copy s = Some (nset_elems s).
Proof. unfold Copy, UnsortedList. rewrite New_eq. by rewrite list_to_set_elements_L. Qed.

Lemma Merge_some e t : Merge (Some e) t = Ok (Some (e ∪ nset_elems t)).
Proof.
  unfold Merge, UnsortedList. by rewrite InsertAll_some, list_to_set_elements_L.
Qed.

(** Merging into nil writes, and so panics, exactly when there is something
    to merge. *)
Lemma Merge_nil_panic t :
  (exists w, Merge None t = Panic w) <-> nset_elems t <> ∅.
Proof.
  unfold Merge, UnsortedList. rewrite InsertAll_nil_iff.
  rewrite (elements_empty_iff (nset_elems t)). set_solver.
Qed.

Lemma Union_eq s t : Union s t = Ok (Some (nset_elems s ∪ nset_elems t)).
Proof.
  unfold Union, UnsortedList. by rewrite Copy_eq, InsertAll_some, list_to_set_elements_L.
Qed.

Lemma Difference_eq s t : Difference s t = Some (nset_elems s ∖ nset_elems t).
Proof.
  unfold Difference. rewrite New_eq. f_equal. apply set_eq; intros x.
  rewrite elem_of_list_to_set, list_elem_of_filter, Contains_false, UnsortedList_elem.
  set_solver.
Qed.

Lemma Intersection_eq s t : Intersection s t = Some (nset_elems s ∩ nset_elems t).
Proof.
  unfold Intersection. rewrite New_eq. f_equal. apply set_eq; intros x.
  rewrite elem_of_list_to_set, list_elem_of_filter, Contains_spec, UnsortedList_elem.
  set_solver.
Qed.

(** Deleting while ranging: the loop visits the elements the set had when it
    started. *)
Lemma delete_loop (p : T -> bool) items e :
  fold_left (fun acc k => if p k then Delete acc k else acc) items (Some e)
  = Some (e ∖ list_to_set (base.filter (fun k => p k = true) items)).
Proof.
  revert e; induction items as [|x items IH]; intros e; simpl.
  - f_equal; set_solver.
  - rewrite filter_cons. destruct (p x) eqn:E; simpl; rewrite IH; f_equal; set_solver.
Qed.

Lemma delete_loop_nil (p : T -> bool) items :
  fold_left (fun acc k => if p k then Delete acc k else acc) items None = None.
Proof. induction items as [|x items IH]; simpl; [done|]. by destruct (p x). Qed.

Lemma DifferenceInPlace_eq s t :
  DifferenceInPlace s t = (fun e => e ∖ nset_elems t) <$> s.
Proof.
  unfold DifferenceInPlace. destruct s as [e|]; [|apply delete_loop_nil].
  rewrite delete_loop. simpl. f_equal. apply set_eq; intros x.
  rewrite !elem_of_difference, elem_of_list_to_set, list_elem_of_filter,
    Contains_spec, UnsortedList_elem. simpl. set_solver.
Qed.

Lemma IntersectInPlace_eq s t :
  IntersectInPlace s t = (fun e => e ∩ nset_elems t) <$> s.
Proof.
  unfold IntersectInPlace.
  assert (forall l acc, fold_left (fun acc k => if Contains t k then acc else Delete acc k) l acc
    = fold_left (fun acc k => if negb (Contains t k) then Delete acc k else acc) l acc) as ->.
  { induction l as [|x l IH]; intros; simpl; [done|]. rewrite IH. by destruct (Contains t x). }
  destruct s as [e|]; [|apply (delete_loop_nil (fun k => negb (Contains t k)))].
  rewrite (delete_loop (fun k => negb (Contains t k))). simpl. f_equal.
  apply set_eq; intros x.
  rewrite elem_of_difference, elem_of_list_to_set, list_elem_of_filter,
    negb_true_iff, Contains_false, UnsortedList_elem. simpl.
  destruct (decide (x ∈ nset_elems t)); set_solver.
Qed.

Lemma forallb_contains s t :
  forallb (Contains s) (UnsortedList t) = true <-> nset_elems t ⊆ nset_elems s.
Proof.
  rewrite forallb_elem. setoid_rewrite Contains_spec.
  setoid_rewrite UnsortedList_elem. set_solver.
Qed.

(** The length test of [SupersetOf] is only a shortcut. *)
Lemma SupersetOf_spec s t : SupersetOf s t = true <-> nset_elems t ⊆ nset_elems s.
Proof.
  unfold SupersetOf. destruct t as [e|]; [|simpl; set_solver].
  destruct (Nat.ltb_spec (Len s) (Len (Some e))) as [Hlt|].
  - split; [done|]. intros Hsub. apply subseteq_size in Hsub.
    unfold Len, nset_len in Hlt. lia.
  - apply forallb_contains.
Qed.

(** Comparing the sizes and one inclusion is enough for equality. *)
Lemma Equals_spec s t : Equals s t = true <-> nset_elems s = nset_elems t.
Proof.
  unfold Equals, Len, nset_len.
  destruct (Nat.eqb_spec (size (nset_elems s)) (size (nset_elems t))) as [Hsz|Hsz]; simpl.
  - rewrite forallb_contains. split; [|by intros ->].
    intros Hsub. apply set_subseteq_size_eq; [done|lia].
  - split; [done|]. by intros E; rewrite E in Hsz.
Qed.

Lemma IsEmpty_spec s : IsEmpty s = true <-> nset_elems s = ∅.
Proof. unfold IsEmpty, nset_len. by rewrite bool_decide_eq_true, size_empty_iff_L. Qed.

Lemma nset_len_pos s : (0 < nset_len s)%nat <-> nset_elems s <> ∅.
Proof. unfold nset_len. rewrite <- size_empty_iff_L. lia. Qed.

Lemma InsertContains_some e x :
  InsertContains (Some e) x = Ok (Some ({[x]} ∪ e), bool_decide (x ∈ e)).
Proof.
  unfold InsertContains, Contains. simpl.
  destruct (decide (x ∈ e)).
  - rewrite !bool_decide_eq_true_2 by done. do 3 f_equal. set_solver.
  - by rewrite !bool_decide_eq_false_2.
Qed.

Lemma DeleteContains_some e x :
  DeleteContains (Some e) x = (Some (e ∖ {[x]}), bool_decide (x ∈ e)).
Proof.
  unfold DeleteContains, Contains. simpl.
  destruct (decide (x ∈ e)).
  - by rewrite !bool_decide_eq_true_2.
  - rewrite !bool_decide_eq_false_2 by done. do 2 f_equal. set_solver.
Qed.

End lemmas.

Section maps_of_sets_lemmas.
Context {K T : Type} `{Countable K, Countable T}.
Implicit Types (m : gmap K (gset T)) (k : K) (v : T).

(** What a key of a map of sets holds; an absent key holds nothing. *)
Definition members m k : gset T := default ∅ (m !! k).

(** No key is kept with an empty set. *)
Definition tidy m : Prop := forall k s, m !! k = Some s -> s <> ∅.

Lemma members_InsertOrNew m k v k' :
  members (InsertOrNew m k v) k' =
  if decide (k = k') then {[v]} ∪ members m k' else members m k'.
Proof.
  unfold InsertOrNew, members. rewrite New_eq. simpl.
  destruct (decide (k = k')) as [->|Hne].
  - destruct (m !! k') eqn:E; rewrite lookup_insert_eq; simpl; set_solver.
  - destruct (m !! k) eqn:E; by rewrite lookup_insert_ne.
Qed.

Lemma members_DeleteCleanupLast m k v k' :
  members (DeleteCleanupLast m k v) k' =
  if decide (k = k') then members m k' ∖ {[v]} else members m k'.
Proof.
  unfold DeleteCleanupLast, members.
  destruct (m !! k) as [e|] eqn:E; simpl.
  - destruct (IsEmpty (Some (e ∖ {[v]}))) eqn:Hemp; destruct (decide (k = k')) as [->|Hne].
    + apply IsEmpty_spec in Hemp. simpl in Hemp.
      rewrite lookup_delete_eq, E. simpl. set_solver.
    + by rewrite lookup_delete_ne, lookup_insert_ne.
    + by rewrite lookup_insert_eq, E.
    + by rewrite lookup_insert_ne.
  - rewrite (proj2 (IsEmpty_spec None)) by done.
    destruct (decide (k = k')) as [->|Hne].
    + rewrite lookup_delete_eq, E. simpl. set_solver.
    + by rewrite lookup_delete_ne.
Qed.

Lemma tidy_InsertOrNew m k v : tidy m -> tidy (InsertOrNew m k v).
Proof.
  intros Ht k' s. unfold InsertOrNew. rewrite New_eq. simpl.
  destruct (m !! k) eqn:E; rewrite lookup_insert; case_decide; intros ?; simplify_eq;
    try (by eapply Ht); set_solver.
Qed.

Lemma tidy_DeleteCleanupLast m k v : tidy m -> tidy (DeleteCleanupLast m k v).
Proof.
  intros Ht k' s. unfold DeleteCleanupLast.
  destruct (IsEmpty (Delete (m !! k) v)) eqn:Hemp.
  - rewrite lookup_delete. case_decide; [done|].
    destruct (m !! k) as [e|] eqn:E; simpl; [rewrite lookup_insert_ne by done|]; apply Ht.
  - destruct (m !! k) as [e|] eqn:E; simpl in *; [|done].
    rewrite lookup_insert. case_decide; [|apply Ht]. intros ?; simplify_eq.
    intros He. apply not_true_iff_false in Hemp. apply Hemp. by apply IsEmpty_spec.
Qed.

End maps_of_sets_lemmas.
End GoSet.

#[export] Hint Rewrite @GoSet.New_eq @GoSet.Copy_eq @GoSet.Merge_some
  @GoSet.Difference_eq @GoSet.Intersection_eq @GoSet.DifferenceInPlace_eq : dubbo.
