(* ===== verification/GoSlices.v ===== *)
(** * [pkg/slices] and [pkg/maps]

    The slice helpers of the control plane.  Helpers that work in place are
    translated as loops over the backing array (stdpp's list lookup and
    update; the loops never index out of range), and proved to compute the
    list function their comment describes.  Helpers that only forward to the
    Go standard library ([Sort], [Clone], [Insert], ...) are used through
    their meaning and have no definition here. *)

From S2P Require Import Prelude.

Module Slices.

Section comparisons.
Context {E : Type} `{Countable E}.

Definition Equal (s1 s2 : list E) : bool := bool_decide (s1 = s2).

(** [EqualUnordered]: equal lengths, and every element of [s2] occurs in
    [s1]. *)
Definition EqualUnordered (s1 s2 : list E) : bool :=
  if negb (length s1 =? length s2)%nat then false
  else
    let first : gset E := list_to_set s1 in
    forallb (fun c => bool_decide (c ∈ first)) s2.
End comparisons.

Section transforms.
Context {E O : Type}.

Fixpoint EqualFunc (s1 s2 : list E) (eq : E -> E -> bool) : bool :=
  match s1, s2 with
  | [], [] => true
  | a :: s1, b :: s2 => if eq a b then EqualFunc s1 s2 eq else false
  | _, _ => false
  end.

Definition Filter (s : list E) (f : E -> bool) : list E :=
  fold_left (fun matched v => if f v then matched ++ [v] else matched) s [].

Definition Map (s : list E) (f : E -> O) : list O :=
  fold_left (fun n e => n ++ [f e]) s [].

Fixpoint MapErr_loop (s : list E) (f : E -> res O) (n : list O) : res (list O) :=
  match s with
  | [] => Ok n
  | e :: s => o ← f e; MapErr_loop s f (n ++ [o])
  end.
Definition MapErr (s : list E) (f : E -> res O) : res (list O) := MapErr_loop s f [].

Definition MapFilter (s : list E) (f : E -> option O) : list O :=
  fold_left (fun n e => match f e with Some o => n ++ [o] | None => n end) s [].

Definition Dereference (s : list (option E)) : list E :=
  fold_left (fun n v => match v with Some e => n ++ [e] | None => n end) s [].

Definition Flatten (s : option (list (list E))) : option (list E) :=
  match s with
  | None => None
  | Some s => Some (fold_left (fun n v => n ++ v) s [])
  end.

Definition First (s : list E) : option E := head s.

Fixpoint FindFunc (s : list E) (f : E -> bool) : option E :=
  match s with
  | [] => None
  | e :: s => if f e then Some e else FindFunc s f
  end.
End transforms.

Section grouping.
Context {T K : Type} `{Countable K}.

Definition Group (data : list T) (f : T -> K) : gmap K (list T) :=
  fold_left (fun m e => <[f e := default [] (m !! f e) ++ [e]]> m) data ∅.

Definition GroupUnique (data : list T) (f : T -> K) : gmap K T :=
  fold_left (fun m e => <[f e := e]> m) data ∅.
End grouping.

(** ** In-place helpers *)
Section in_place.
Context {E : Type} (empty : E).
Implicit Types (s arr : list E).

(** [s[i], s[j] = s[j], s[i]] *)
Definition swap arr (i j : nat) : list E :=
  match arr !! i, arr !! j with
  | Some x, Some y => <[j := x]> (<[i := y]> arr)
  | _, _ => arr
  end.

(** [for i, j := 0, len(r)-1; i < len(r)/2; i, j = i+1, j-1]; [todo] is the
    number of iterations left. *)
Fixpoint Reverse_loop (todo i j : nat) arr : list E :=
  match todo with
  | O => arr
  | S todo => Reverse_loop todo (i + 1) (j - 1) (swap arr i j)
  end.
Definition Reverse (r : list E) : list E :=
  Reverse_loop (length r / 2) 0 (length r - 1) r.

(** [for i := n; i < len(s); i++ { s[i] = empty }] *)
Fixpoint clear_tail (todo n : nat) arr : list E :=
  match todo with
  | O => arr
  | S todo => clear_tail todo (n + 1) (<[n := empty]> arr)
  end.

Fixpoint FilterInPlace_loop (f : E -> bool) (todo i n : nat) arr : nat * list E :=
  match todo with
  | O => (n, arr)
  | S todo =>
      match arr !! i with
      | Some val =>
          if f val then FilterInPlace_loop f todo (i + 1) (n + 1) (<[n := val]> arr)
          else FilterInPlace_loop f todo (i + 1) n arr
      | None => (n, arr)
      end
  end.

(** The returned slice and the backing array it was cut from. *)
Definition FilterInPlace s (f : E -> bool) : list E * list E :=
  let '(n, arr) := FilterInPlace_loop f (length s) 0 0 s in
  let arr := clear_tail (length s - n) n arr in
  (take n arr, arr).

Context `{EqDecision E}.

Fixpoint Dup_loop (todo i n : nat) arr : nat * list E :=
  match todo with
  | O => (n, arr)
  | S todo =>
      match arr !! i, arr !! (i - 1)%nat with
      | Some val, Some prev =>
          if bool_decide (val <> prev) then Dup_loop todo (i + 1) (n + 1) (<[n := val]> arr)
          else Dup_loop todo (i + 1) n arr
      | _, _ => (n, arr)
      end
  end.

Definition FilterDuplicatesPresorted s : list E * list E :=
  if (length s <=? 1)%nat then (s, s)
  else
    let '(n, arr) := Dup_loop (length s - 1) 1 1 s in
    let arr := clear_tail (length s - n) n arr in
    (take n arr, arr).

(** Drop every element equal to its predecessor. *)
Fixpoint dedup_from (prev : E) s : list E :=
  match s with
  | [] => []
  | x :: s => if bool_decide (x <> prev) then x :: dedup_from x s else dedup_from x s
  end.
Definition dedup s : list E :=
  match s with [] => [] | x :: s => x :: dedup_from x s end.

End in_place.

(** ** Meaning *)

Lemma Filter_eq {E} (s : list E) f : Filter s f = List.filter f s.
Proof.
  unfold Filter.
  enough (forall acc, fold_left (fun matched v => if f v then matched ++ [v] else matched) s acc
    = acc ++ List.filter f s) as ->; [done|].
  induction s as [|v s IH]; intros acc; simpl; [by rewrite app_nil_r|].
  rewrite IH. destruct (f v); [by rewrite <- app_assoc|done].
Qed.

Lemma Map_eq {E O} (s : list E) (f : E -> O) : Map s f = map f s.
Proof.
  unfold Map. enough (forall acc, fold_left (fun n e => n ++ [f e]) s acc = acc ++ map f s) as ->;
    [done|]. induction s as [|v s IH]; intros acc; simpl; [by rewrite app_nil_r|].
  by rewrite IH, <- app_assoc.
Qed.

Lemma MapFilter_eq {E O} (s : list E) (f : E -> option O) : MapFilter s f = omap f s.
Proof.
  unfold MapFilter.
  enough (forall acc, fold_left (fun n e => match f e with Some o => n ++ [o] | None => n end) s acc
    = acc ++ omap f s) as ->; [done|].
  induction s as [|v s IH]; intros acc; simpl; [by rewrite app_nil_r|].
  rewrite IH. destruct (f v); [by rewrite <- app_assoc|done].
Qed.

Lemma EqualFunc_spec {E} (s1 s2 : list E) eq :
  EqualFunc s1 s2 eq = true <-> Forall2 (fun a b => eq a b = true) s1 s2.
Proof.
  revert s2; induction s1 as [|a s1 IH]; intros [|b s2]; simpl.
  - naive_solver.
  - split; [done|by inversion 1].
  - split; [done|by inversion 1].
  - rewrite Forall2_cons. destruct (eq a b) eqn:E'; [rewrite IH; tauto|naive_solver].
Qed.

Lemma Group_lookup {T K} `{Countable K} (data : list T) (f : T -> K) k :
  default [] (Group data f !! k) = List.filter (fun e => bool_decide (f e = k)) data.
Proof.
  unfold Group.
  enough (forall m, default [] (fold_left
      (fun m e => <[f e := default [] (m !! f e) ++ [e]]> m) data m !! k)
    = default [] (m !! k) ++ List.filter (fun e => bool_decide (f e = k)) data) as ->.
  { by rewrite lookup_empty. }
  induction data as [|e data IH]; intros m; simpl; [by rewrite app_nil_r|].
  rewrite IH, lookup_insert. destruct (decide (f e = k)) as [->|].
  - rewrite bool_decide_eq_true_2 by done. simpl. by rewrite <- app_assoc.
  - by rewrite bool_decide_eq_false_2.
Qed.

Section in_place_lemmas.
Context {E : Type} (empty : E).
Implicit Types (s arr rest junk : list E).

Lemma insert_middle (a : list E) x b y : <[length a := y]> (a ++ x :: b) = a ++ y :: b.
Proof. by rewrite insert_app_r_alt, Nat.sub_diag by lia. Qed.

(** The state of a compaction loop: what was kept, cells already read, and
    the part of the array not read yet. *)
Lemma FilterInPlace_loop_eq f rest keep junk :
  exists junk', FilterInPlace_loop f (length rest) (length keep + length junk) (length keep)
    (keep ++ junk ++ rest)
  = (length (keep ++ List.filter f rest), (keep ++ List.filter f rest) ++ junk') /\
  length junk' = (length junk + (length rest - length (List.filter f rest)))%nat.
Proof.
  revert keep junk; induction rest as [|v rest IH]; intros keep junk; simpl.
  { exists junk. rewrite !app_nil_r. split; [done|lia]. }
  assert (Hl : (keep ++ junk ++ v :: rest) !! (length keep + length junk)%nat = Some v).
  { rewrite app_assoc, <- length_app. apply list_lookup_middle. by rewrite length_app. }
  pose proof (filter_length_le f rest) as Hle.
  rewrite Hl. destruct (f v).
  - assert (exists junk', <[length keep := v]> (keep ++ junk ++ v :: rest)
      = (keep ++ [v]) ++ junk' ++ rest /\ length junk' = length junk) as (junk' & -> & Hj).
    { destruct junk as [|j junk]; simpl.
      - exists []. rewrite insert_middle. by rewrite <- app_assoc.
      - exists (junk ++ [v]). rewrite insert_middle, <- !app_assoc. simpl.
        split; [done|]. rewrite length_app. simpl. lia. }
    destruct (IH (keep ++ [v]) junk') as (junk'' & Heq & Hlen).
    rewrite !length_app, Hj in Heq. simpl in Heq.
    replace (length keep + 1 + length junk)%nat with (length keep + length junk + 1)%nat in Heq by lia.
    rewrite Heq. exists junk''. simpl. rewrite <- !app_assoc. simpl.
    split; [f_equal; rewrite !length_app; simpl; lia|lia].
  - destruct (IH keep (junk ++ [v])) as (junk'' & Heq & Hlen).
    rewrite length_app in Heq, Hlen. simpl in Heq, Hlen. rewrite <- app_assoc in Heq. simpl in Heq.
    replace (length keep + (length junk + 1))%nat with (length keep + length junk + 1)%nat in Heq by lia.
    rewrite Heq. exists junk''. split; [done|lia].
Qed.

Lemma clear_tail_eq keep junk :
  clear_tail empty (length junk) (length keep) (keep ++ junk)
  = keep ++ replicate (length junk) empty.
Proof.
  revert keep; induction junk as [|j junk IH]; intros keep; simpl; [done|].
  rewrite insert_middle. specialize (IH (keep ++ [empty])).
  rewrite length_app, <- !app_assoc in IH. simpl in IH. by rewrite IH.
Qed.

(** The compaction returns the kept elements in order and leaves zero values
    behind. *)
Lemma FilterInPlace_eq s f :
  FilterInPlace empty s f
  = (List.filter f s,
     List.filter f s ++ replicate (length s - length (List.filter f s)) empty).
Proof.
  unfold FilterInPlace. destruct (FilterInPlace_loop_eq f s [] []) as (junk & Heq & Hlen).
  simpl in Heq, Hlen. rewrite Heq, <- Hlen, clear_tail_eq.
  by rewrite take_app_length.
Qed.

Context `{EqDecision E}.

Lemma dedup_from_length (p : E) (l : list E) : (length (dedup_from p l) <= length l)%nat.
Proof.
  revert p; induction l as [|y l IH]; intros p; simpl; [done|].
  case_bool_decide; simpl; specialize (IH y); lia.
Qed.

Lemma Dup_loop_eq rest keep junk prev :
  (keep ++ junk) !! (length keep + length junk - 1)%nat = Some prev ->
  (0 < length keep)%nat ->
  exists junk', Dup_loop (length rest) (length keep + length junk) (length keep)
    (keep ++ junk ++ rest)
  = (length (keep ++ dedup_from prev rest), (keep ++ dedup_from prev rest) ++ junk') /\
  length junk' = (length junk + (length rest - length (dedup_from prev rest)))%nat.
Proof.
  revert keep junk prev; induction rest as [|v rest IH]; intros keep junk prev Hprev Hpos; simpl.
  { exists junk. rewrite !app_nil_r. split; [done|lia]. }
  assert (Hl : (keep ++ junk ++ v :: rest) !! (length keep + length junk)%nat = Some v).
  { rewrite app_assoc, <- length_app. apply list_lookup_middle. by rewrite length_app. }
  assert (Hp : (keep ++ junk ++ v :: rest) !! (length keep + length junk - 1)%nat = Some prev).
  { rewrite app_assoc. by apply lookup_app_l_Some. }
  pose proof (dedup_from_length v rest) as Hle. rewrite Hl, Hp. case_bool_decide.
  - assert (exists junk', <[length keep := v]> (keep ++ junk ++ v :: rest)
      = (keep ++ [v]) ++ junk' ++ rest /\ length junk' = length junk /\
      ((keep ++ [v]) ++ junk') !! (length keep + length junk)%nat = Some v)
      as (junk' & -> & Hj & Hlast).
    { destruct junk as [|j junk]; simpl.
      - exists []. rewrite insert_middle, <- app_assoc. split; [done|]. split; [done|].
        rewrite app_nil_r, Nat.add_0_r. by apply list_lookup_middle.
      - exists (junk ++ [v]). rewrite insert_middle, <- !app_assoc. simpl.
        split; [done|]. split; [rewrite length_app; simpl; lia|].
        change (keep ++ v :: junk ++ [v]) with (keep ++ (v :: junk) ++ [v]).
        rewrite app_assoc. apply list_lookup_middle. by rewrite length_app. }
    destruct (IH (keep ++ [v]) junk' v) as (junk'' & Heq & Hlen).
    { rewrite length_app, Hj. simpl.
      by replace (length keep + 1 + length junk - 1)%nat with (length keep + length junk)%nat by lia. }
    { rewrite length_app; simpl; lia. }
    rewrite !length_app, Hj in Heq. simpl in Heq.
    replace (length keep + 1 + length junk)%nat with (length keep + length junk + 1)%nat in Heq by lia.
    rewrite Heq. exists junk''. simpl. rewrite <- !app_assoc. simpl.
    split; [f_equal; rewrite !length_app; simpl; lia|lia].
  - assert (v = prev) as -> by (destruct (decide (v = prev)); naive_solver).
    destruct (IH keep (junk ++ [prev]) prev) as (junk'' & Heq & Hlen).
    { rewrite length_app. simpl.
      replace (length keep + (length junk + 1) - 1)%nat with (length keep + length junk)%nat by lia.
      rewrite app_assoc, <- length_app. by apply list_lookup_middle. }
    { done. }
    rewrite length_app in Heq, Hlen. simpl in Heq, Hlen. rewrite <- app_assoc in Heq. simpl in Heq.
    replace (length keep + (length junk + 1))%nat with (length keep + length junk + 1)%nat in Heq by lia.
    rewrite Heq. exists junk''. split; [done|lia].
Qed.

Lemma FilterDuplicatesPresorted_eq s :
  fst (FilterDuplicatesPresorted empty s) = dedup s.
Proof.
  unfold FilterDuplicatesPresorted. destruct s as [|x s]; [done|].
  destruct s as [|y s]; [done|]. cbn [length Nat.leb].
  destruct (Dup_loop_eq (y :: s) [x] [] x) as (junk & Heq & Hlen); [done|simpl; lia|].
  replace (S (S (length s)) - 1)%nat with (length (y :: s)) by (simpl; lia).
  change (length [x] + length [])%nat with 1%nat in Heq. change (length [x]) with 1%nat in Heq.
  change ([x] ++ [] ++ y :: s) with (x :: y :: s) in Heq. rewrite Heq.
  assert (Hj : (S (S (length s)) - length ([x] ++ dedup_from x (y :: s)))%nat = length junk).
  { rewrite Hlen, length_app. cbn [length]. lia. }
  rewrite Hj, clear_tail_eq. simpl fst. by rewrite take_app_length.
Qed.

End in_place_lemmas.

Section reverse_lemmas.
Context {E : Type}.
Implicit Types (s arr : list E).

(** After [i] swaps the outer [i] cells on both sides are mirrored. *)
Definition mirrored s (i : nat) arr : Prop :=
  length arr = length s /\
  forall k, (k < length s)%nat ->
    arr !! k = if decide (k < i \/ length s - i <= k)%nat
               then s !! (length s - 1 - k)%nat else s !! k.

Lemma swap_mirrored s i arr :
  (i < length s / 2)%nat -> mirrored s i arr ->
  mirrored s (i + 1) (swap arr i (length s - 1 - i)).
Proof.
  intros Hi [Hlen Harr]. pose proof (Nat.div_mod_eq (length s) 2) as Hd.
  set (j := (length s - 1 - i)%nat).
  assert (Hij : (i < j < length s)%nat) by (subst j; lia).
  pose proof (Harr i ltac:(lia)) as Ei. rewrite decide_False in Ei by lia.
  pose proof (Harr j ltac:(lia)) as Ej. rewrite decide_False in Ej by (subst j; lia).
  destruct (lookup_lt_is_Some_2 s i) as [x Hx]; [lia|].
  destruct (lookup_lt_is_Some_2 s j) as [y Hy]; [lia|].
  rewrite Hx in Ei. rewrite Hy in Ej. unfold swap. rewrite Ei, Ej.
  split; [by rewrite !length_insert|]. intros k Hk.
  destruct (decide (k = j)) as [->|Hkj].
  { rewrite list_lookup_insert_eq by (rewrite length_insert; lia).
    rewrite decide_True by (subst j; lia). subst j.
    by replace (length s - 1 - (length s - 1 - i))%nat with i by lia. }
  rewrite list_lookup_insert_ne by done.
  destruct (decide (k = i)) as [->|Hki].
  { rewrite list_lookup_insert_eq by lia. by rewrite decide_True by lia. }
  rewrite list_lookup_insert_ne, (Harr k Hk) by done.
  subst j. repeat case_decide; try done; lia.
Qed.

Lemma Reverse_loop_mirrored todo s i arr :
  (i + todo <= length s / 2)%nat -> mirrored s i arr ->
  mirrored s (i + todo) (Reverse_loop todo i (length s - 1 - i) arr).
Proof.
  revert i arr; induction todo as [|todo IH]; intros i arr Hle Hm; simpl.
  { by rewrite Nat.add_0_r. }
  replace (i + S todo)%nat with (i + 1 + todo)%nat by lia.
  replace (length s - 1 - i - 1)%nat with (length s - 1 - (i + 1))%nat by lia.
  apply IH; [lia|]. apply swap_mirrored; [lia|done].
Qed.

Lemma Reverse_eq s : Reverse s = reverse s.
Proof.
  unfold Reverse. pose proof (Reverse_loop_mirrored (length s / 2) s 0 s) as Hm.
  rewrite Nat.sub_0_r, Nat.add_0_l in Hm.
  destruct Hm as [Hlen Harr]; [lia| |].
  { split; [done|]. intros k Hk. by rewrite decide_False by lia. }
  apply list_eq_same_length with (length s); [by rewrite length_reverse|done|].
  intros k x y Hk Hx Hy. rewrite Harr in Hx by done.
  rewrite reverse_lookup in Hy by done.
  pose proof (Nat.div_mod_eq (length s) 2). pose proof (Nat.mod_upper_bound (length s) 2).
  case_decide.
  - replace (length s - 1 - k)%nat with (length s - S k)%nat in Hx by lia. congruence.
  - replace (length s - S k)%nat with k in Hy by lia. congruence.
Qed.
End reverse_lemmas.

(** ** Properties *)

(** The in-place helpers compute the list they describe:
    [FilterInPlace] returns the elements satisfying the predicate in order and
    zeroes the rest of the array, [FilterDuplicatesPresorted] drops the
    elements equal to their predecessor, and [Reverse]'s swaps reverse. *)
Theorem in_place_helpers_correct {E : Type} `{EqDecision E} (empty : E) (s : list E) (f : E -> bool) :
  FilterInPlace empty s f
    = (List.filter f s, List.filter f s ++ replicate (length s - length (List.filter f s)) empty) /\
  fst (FilterDuplicatesPresorted empty s) = dedup s /\
  Reverse s = reverse s.
Proof.
  split; [apply FilterInPlace_eq|]. split; [apply FilterDuplicatesPresorted_eq|apply Reverse_eq].
Qed.

(** [EqualUnordered] decides equality up to order only when its second
    argument has no duplicates; in general it accepts lists that are not
    permutations of each other, and it is not symmetric. *)
Theorem EqualUnordered_spec {E : Type} `{Countable E} (s1 s2 : list E) :
  (NoDup s2 -> EqualUnordered s1 s2 = true <-> s1 ≡ₚ s2) /\
  (exists a b : list nat, EqualUnordered a b = true /\ EqualUnordered b a = false).
Proof.
  split; [|by exists [1%nat; 2%nat], [1%nat; 1%nat]].
  intros Hnd. unfold EqualUnordered.
  destruct (Nat.eqb_spec (length s1) (length s2)) as [Hlen|Hlen]; simpl.
  - rewrite forallb_elem. setoid_rewrite bool_decide_eq_true.
    setoid_rewrite elem_of_list_to_set. split.
    + intros Hsub. symmetry. apply submseteq_length_Permutation; [|lia].
      by apply NoDup_submseteq.
    + intros Hp x Hx. by rewrite Hp.
  - split; [done|]. intros Hp. by apply Permutation_length in Hp.
Qed.

Lemma EqualUnordered_spec_witness :
  EqualUnordered ["b"; "a"] ["a"; "b"] = true <-> ["b"; "a"] ≡ₚ ["a"; "b"].
Proof.
  apply (EqualUnordered_spec ["b"; "a"] ["a"; "b"]). by apply (bool_decide_unpack _).
Defined.

End Slices.
