(* ===== verification/GoSort.v ===== *)
(** * Sorting

    The stable sort of Go's [slices] package, behind [SortStableFunc],
    [SortFunc] and [Sort] of [pkg/slices/slices.go], and the orders the control
    plane sorts with: strings, and lexicographic combinations of comparisons.

    A comparison returns a [comparison]; the order it induces is a total
    preorder, which is the class [CmpLaws]. *)

From S2P Require Import Prelude GoStrings.

(** ** Comparisons *)

Class CmpLaws {A : Type} (cmp : A -> A -> comparison) : Prop := {
  cmp_refl a : cmp a a = Eq;
  cmp_antisym a b : cmp a b = CompOpp (cmp b a);
  cmp_trans a b c : cmp a b <> Gt -> cmp b c <> Gt -> cmp a c <> Gt
}.

Arguments cmp_refl {A} cmp {_} a.
Arguments cmp_antisym {A} cmp {_} a b.
Arguments cmp_trans {A} cmp {_} a b c _ _.

Definition cmp_leb {A} (cmp : A -> A -> comparison) (a b : A) : bool :=
  match cmp a b with Gt => false | _ => true end.

(** [if r := first; r != 0 { return r }; return second] *)
Definition cmp_then (c d : comparison) : comparison :=
  match c with Eq => d | _ => c end.

Definition cmp_lex {A} (c d : A -> A -> comparison) (x y : A) : comparison :=
  cmp_then (c x y) (d x y).

Definition cmp_on {A B} (f : A -> B) (c : B -> B -> comparison) (x y : A) : comparison :=
  c (f x) (f y).

Section laws.
Context {A : Type} (cmp : A -> A -> comparison) `{!CmpLaws cmp}.

Lemma cmp_eq_trans a b c : cmp a b = Eq -> cmp b c = Eq -> cmp a c = Eq.
Proof.
  intros H1 H2. pose proof (cmp_trans cmp a b c) as Ht. pose proof (cmp_trans cmp c b a) as Ht'.
  rewrite (cmp_antisym cmp c b), (cmp_antisym cmp b a), H1, H2 in Ht'. rewrite H1, H2 in Ht.
  rewrite (cmp_antisym cmp c a) in Ht'. destruct (cmp a c); naive_solver.
Qed.

Lemma cmp_eq_l a b c : cmp a b = Eq -> cmp a c = cmp b c.
Proof.
  intros H1. pose proof (cmp_trans cmp a b c) as H2. pose proof (cmp_trans cmp b a c) as H3.
  pose proof (cmp_trans cmp c a b) as H4. pose proof (cmp_trans cmp c b a) as H5.
  rewrite (cmp_antisym cmp b a), H1 in H3, H5. rewrite H1 in H2, H4.
  rewrite (cmp_antisym cmp c a), (cmp_antisym cmp c b) in H4, H5.
  destruct (cmp a c), (cmp b c); naive_solver.
Qed.

Lemma cmp_lt_trans a b c : cmp a b = Lt -> cmp b c <> Gt -> cmp a c = Lt.
Proof.
  intros H1 H2. pose proof (cmp_trans cmp a b c) as H3. pose proof (cmp_trans cmp b c a) as H4.
  rewrite H1 in H3. destruct (cmp a c) eqn:E; [|done|naive_solver].
  rewrite (cmp_antisym cmp c a), E in H4. rewrite (cmp_antisym cmp b a), H1 in H4. naive_solver.
Qed.

Lemma cmp_leb_total a b : cmp_leb cmp a b = true \/ cmp_leb cmp b a = true.
Proof. unfold cmp_leb. rewrite (cmp_antisym cmp b a). destruct (cmp a b); auto. Qed.

Lemma cmp_leb_spec a b : cmp_leb cmp a b = true <-> cmp a b <> Gt.
Proof. unfold cmp_leb. destruct (cmp a b); naive_solver. Qed.

Lemma cmp_leb_false a b : cmp_leb cmp a b = false -> cmp_leb cmp b a = true.
Proof. destruct (cmp_leb_total a b); congruence. Qed.

Lemma cmp_leb_trans a b c :
  cmp_leb cmp a b = true -> cmp_leb cmp b c = true -> cmp_leb cmp a c = true.
Proof. rewrite !cmp_leb_spec. apply (cmp_trans cmp). Qed.

End laws.

#[global] Instance cmp_lex_laws {A} (c d : A -> A -> comparison) `{!CmpLaws c, !CmpLaws d} :
  CmpLaws (cmp_lex c d).
Proof.
  split; unfold cmp_lex, cmp_then.
  - intros a. by rewrite (cmp_refl c), (cmp_refl d).
  - intros a b. rewrite (cmp_antisym c a b). destruct (c b a); simpl; try done. apply (cmp_antisym d).
  - intros x y z Hxy Hyz. destruct (c x y) eqn:E1; [| |done].
    + rewrite (cmp_eq_l c _ _ z E1). destruct (c y z) eqn:E2; [|done|done].
      by apply (cmp_trans d x y z).
    + rewrite (cmp_lt_trans c x y z E1); [done|]. by destruct (c y z).
Qed.

#[global] Instance cmp_on_laws {A B} (f : A -> B) (c : B -> B -> comparison) `{!CmpLaws c} :
  CmpLaws (cmp_on f c).
Proof.
  split; unfold cmp_on.
  - intros. apply (cmp_refl c).
  - intros. apply (cmp_antisym c).
  - intros a b d. apply (cmp_trans c).
Qed.

#[global] Instance Z_compare_laws : CmpLaws Z.compare.
Proof.
  split.
  - apply Z.compare_refl.
  - intros a b. apply Z.compare_antisym.
  - intros a b c. change (a <= b -> b <= c -> a <= c). lia.
Qed.

(** Byte-wise comparison of strings. *)
Lemma ascii_compare_lt_trans a b c :
  Ascii.compare a b = Lt -> Ascii.compare b c = Lt -> Ascii.compare a c = Lt.
Proof. unfold Ascii.compare. rewrite !N.compare_lt_iff. lia. Qed.

Lemma ascii_compare_eq a b : Ascii.compare a b = Eq -> a = b.
Proof. by apply Ascii.compare_eq_iff. Qed.

Lemma ascii_compare_refl a : Ascii.compare a a = Eq.
Proof. unfold Ascii.compare. apply N.compare_refl. Qed.

Lemma str_compare_cons c s d t :
  String.compare (String c s) (String d t)
  = match Ascii.compare c d with Eq => String.compare s t | r => r end.
Proof. done. Qed.

#[global] Instance string_compare_laws : CmpLaws String.compare.
Proof.
  split.
  - induction a as [|c a IH]; [done|]. by rewrite str_compare_cons, ascii_compare_refl.
  - intros a b. apply String.compare_antisym.
  - induction a as [|x a IH]; intros [|y b] [|z c]; try done.
    rewrite !str_compare_cons.
    destruct (Ascii.compare x y) eqn:E1; [| |done].
    + apply ascii_compare_eq in E1 as ->. destruct (Ascii.compare y z); [apply IH|done|done].
    + intros _. destruct (Ascii.compare y z) eqn:E2; [| |done].
      * apply ascii_compare_eq in E2 as ->. by rewrite E1.
      * by rewrite (ascii_compare_lt_trans _ _ _ E1 E2).
Qed.

(** ** The sort *)
Section sort.
Context {A : Type} (cmp : A -> A -> comparison).

Fixpoint sort_insert (x : A) (l : list A) : list A :=
  match l with
  | [] => [x]
  | y :: l' => if cmp_leb cmp x y then x :: l else y :: sort_insert x l'
  end.

Fixpoint SortStableFunc (l : list A) : list A :=
  match l with
  | [] => []
  | x :: l => sort_insert x (SortStableFunc l)
  end.

Lemma sort_insert_perm x l : sort_insert x l ≡ₚ x :: l.
Proof.
  induction l as [|y l IH]; simpl; [done|]. destruct (cmp_leb cmp x y); [done|].
  rewrite IH. apply perm_swap.
Qed.

Lemma Sort_perm l : SortStableFunc l ≡ₚ l.
Proof. induction l as [|x l IH]; simpl; [done|]. by rewrite sort_insert_perm, IH. Qed.

Context `{!CmpLaws cmp}.

(** Sorted in the strong sense: every element is at most each later one. *)
Lemma sort_insert_sorted x l :
  StronglySorted (fun a b => cmp_leb cmp a b = true) l ->
  StronglySorted (fun a b => cmp_leb cmp a b = true) (sort_insert x l).
Proof.
  induction 1 as [|y l Hs IH Hy]; simpl; [repeat constructor|].
  destruct (cmp_leb cmp x y) eqn:E.
  - constructor; [by constructor|]. constructor; [done|].
    eapply Forall_impl; [exact Hy|]. intros z Hz. by eapply cmp_leb_trans.
  - constructor; [done|]. rewrite sort_insert_perm. constructor; [|done].
    by apply cmp_leb_false.
Qed.

Lemma Sort_sorted l : StronglySorted (fun a b => cmp_leb cmp a b = true) (SortStableFunc l).
Proof. induction l; simpl; [constructor|]. by apply sort_insert_sorted. Qed.

(** Elements that compare equal keep their order. *)
Lemma sort_insert_stable x l (z : A) :
  List.filter (fun y => match cmp z y with Eq => true | _ => false end) (sort_insert x l)
  = List.filter (fun y => match cmp z y with Eq => true | _ => false end) (x :: l).
Proof.
  induction l as [|y l IH]; simpl; [done|]. destruct (cmp_leb cmp x y) eqn:E; [done|].
  simpl. rewrite IH. simpl. destruct (cmp z x) eqn:E1, (cmp z y) eqn:E2; try done.
  unfold cmp_leb in E. rewrite <- (cmp_eq_l cmp _ _ y E1), E2 in E. done.
Qed.

Lemma Sort_stable l (z : A) :
  List.filter (fun y => match cmp z y with Eq => true | _ => false end) (SortStableFunc l)
  = List.filter (fun y => match cmp z y with Eq => true | _ => false end) l.
Proof.
  induction l as [|x l IH]; simpl; [done|]. rewrite sort_insert_stable. simpl. by rewrite IH.
Qed.

(** The first element of the sorted list that satisfies a predicate is the
    least element that does. *)
Lemma Sort_find_least (p : A -> bool) l x :
  List.find p (SortStableFunc l) = Some x ->
  x ∈ l /\ p x = true /\ forall y, y ∈ l -> p y = true -> cmp_leb cmp x y = true.
Proof.
  intros Hf. assert (Hgen : forall k, StronglySorted (fun a b => cmp_leb cmp a b = true) k ->
    List.find p k = Some x ->
    x ∈ k /\ p x = true /\ forall y, y ∈ k -> p y = true -> cmp_leb cmp x y = true).
  { clear Hf. induction 1 as [|a k Hs IH Ha]; simpl; [done|]. destruct (p a) eqn:Ep.
    - intros [= ->]. split; [set_solver|]. split; [done|].
      intros y [->|Hy]%elem_of_cons _; [unfold cmp_leb; by rewrite (cmp_refl cmp)|].
      rewrite Forall_forall in Ha. by apply Ha.
    - intros Hx. destruct (IH Hx) as (? & ? & Hmin). split; [set_solver|]. split; [done|].
      intros y [->|Hy]%elem_of_cons Hp; [congruence|auto]. }
  destruct (Hgen _ (Sort_sorted l) Hf) as (Hin & Hp & Hmin).
  split; [by rewrite <- (Sort_perm l)|]. split; [done|].
  intros y Hy. apply Hmin. by rewrite (Sort_perm l).
Qed.

(** Sorting a sorted list changes nothing. *)
Lemma Sort_id l : StronglySorted (fun a b => cmp_leb cmp a b = true) l -> SortStableFunc l = l.
Proof.
  induction 1 as [|x l Hs IH Hx]; simpl; [done|]. rewrite IH.
  destruct l as [|y l]; simpl; [done|]. apply Forall_cons in Hx as [-> _]. done.
Qed.

Lemma Sort_idemp l : SortStableFunc (SortStableFunc l) = SortStableFunc l.
Proof. apply Sort_id, Sort_sorted. Qed.

Lemma Sort_length l : length (SortStableFunc l) = length l.
Proof. apply Permutation_length, Sort_perm. Qed.

End sort.

(** [sort.Strings], [slices.Sort] on strings. *)
Definition sort_strings (l : list string) : list string := SortStableFunc String.compare l.

Lemma elem_of_sort {A} (cmp : A -> A -> comparison) l x : x ∈ SortStableFunc cmp l <-> x ∈ l.
Proof. by rewrite Sort_perm. Qed.

(** A comparison that tells distinct elements apart: what it sorts does not
    depend on the order of the input, nor on the stability of the sort. *)
Lemma Sort_perm_eq {A} (cmp : A -> A -> comparison) `{!CmpLaws cmp} l k :
  (forall a b, cmp a b = Eq -> a = b) -> l ≡ₚ k -> SortStableFunc cmp l = SortStableFunc cmp k.
Proof.
  intros Heq Hp.
  assert (AntiSymm (=) (fun a b => cmp_leb cmp a b = true)) as Ha.
  { intros a b. unfold cmp_leb. rewrite (cmp_antisym cmp b a).
    destruct (cmp a b) eqn:E; simpl; try done. intros _ _. by apply Heq. }
  apply (StronglySorted_unique (fun a b => cmp_leb cmp a b = true));
    [apply Sort_sorted|apply Sort_sorted|]; auto.
  by rewrite !Sort_perm.
Qed.

Lemma string_compare_eq a b : String.compare a b = Eq -> a = b.
Proof. apply String.compare_eq_iff. Qed.

Lemma sort_strings_perm l k : l ≡ₚ k -> sort_strings l = sort_strings k.
Proof. apply Sort_perm_eq; [apply _|]. apply string_compare_eq. Qed.
