(* ===== verification/Hosts.v ===== *)
(** * Host names, labels and protocols

    [pkg/config/host/name.go], [pkg/config/labels/instance.go] (the matching
    part) and [pkg/config/protocol/instance.go]. *)

From S2P Require Import Prelude GoStrings.

(** ** [host.Name] *)

Module host.

Definition Name : Type := string.

Definition IsWildCarded (n : Name) : bool :=
  match n with String "*" _ => true | _ => false end.

Definition HasSuffix (s suf : string) : bool :=
  (String.length suf <=? String.length s)%nat
  && String.eqb (str_drop (String.length s - String.length suf) s) suf.

(** [s[1:]] *)
Definition tail (s : string) : string := str_drop 1 s.

Definition Matches (n o : Name) : bool :=
  let hWildcard := IsWildCarded n in
  let oWildcard := IsWildCarded o in
  if hWildcard then
    if oWildcard then
      if (String.length n <? String.length o)%nat then HasSuffix (tail o) (tail n)
      else HasSuffix (tail n) (tail o)
    else HasSuffix o (tail n)
  else if oWildcard then HasSuffix n (tail o)
  else String.eqb n o.

Definition SubsetOf (n o : Name) : bool :=
  let hWildcard := IsWildCarded n in
  let oWildcard := IsWildCarded o in
  if hWildcard then
    if oWildcard then
      if (String.length n <? String.length o)%nat then false
      else HasSuffix (tail n) (tail o)
    else false
  else if oWildcard then HasSuffix n (tail o)
  else String.eqb n o.

(** The concrete host names a possibly wildcarded name stands for. *)
Definition covers (n : Name) (h : string) : Prop :=
  if IsWildCarded n then HasSuffix h (tail n) = true else h = n.

End host.

(** ** [labels.Instance] *)

Module labels.

Notation Instance := (nmap string string).

Definition SubsetOf (i that : Instance) : bool :=
  let a := nmap_get i in
  let b := nmap_get that in
  if (size a =? 0)%nat then true
  else if (size b =? 0)%nat || (size b <? size a)%nat then false
  else forallb (fun '(k, v1) => bool_decide (b !! k = Some v1)) (map_to_list a).

Definition Match (i that : Instance) : bool :=
  if (size (nmap_get i) =? 0)%nat then false else SubsetOf i that.

Definition Equals (i that : Instance) : bool :=
  bool_decide (nmap_get i = nmap_get that).

End labels.

(** ** [protocol.Instance] *)

Module protocol.

Definition Instance : Type := string.
Definition HTTP : Instance := "HTTP".
Definition TCP : Instance := "TCP".
Definition UDP : Instance := "UDP".
Definition GRPC : Instance := "GRPC".
Definition GRPCWeb : Instance := "GRPC-Web".
Definition HTTP2 : Instance := "HTTP2".
Definition HTTPS : Instance := "HTTPS".
Definition TLS : Instance := "TLS".
Definition Unsupported : Instance := "UnsupportedProtocol".

(** [strings.ToLower] on ASCII; no other letter lowers to one of a protocol
    name. *)
Definition lower_char (c : ascii) : ascii :=
  let n := Ascii.nat_of_ascii c in
  if ((65 <=? n)%nat && (n <=? 90)%nat) then Ascii.ascii_of_nat (n + 32) else c.
Fixpoint ToLower (s : string) : string :=
  match s with
  | EmptyString => EmptyString
  | String c s => String (lower_char c) (ToLower s)
  end.

Definition Parse (s : string) : Instance :=
  let l := ToLower s in
  if String.eqb l "http" then HTTP else
  if String.eqb l "tcp" then TCP else
  if String.eqb l "udp" then UDP else
  if String.eqb l "grpc" then GRPC else
  if String.eqb l "grpc-web" then GRPCWeb else
  if String.eqb l "http2" then HTTP2 else
  if String.eqb l "https" then HTTPS else
  if String.eqb l "tls" then TLS else Unsupported.

Definition supported : list Instance := [HTTP; TCP; UDP; GRPC; GRPCWeb; HTTP2; HTTPS; TLS].

End protocol.

(** ** Suffixes *)

Lemma str_split_at n s :
  (n <= String.length s)%nat -> exists p, s = p +:+ str_drop n s /\ String.length p = n.
Proof.
  revert s; induction n as [|n IH]; intros s Hn; [by exists ""|].
  destruct s as [|c s]; simpl in *; [lia|].
  destruct (IH s) as (p & E & Hp); [lia|]. exists (String c p). simpl. by rewrite <- E, Hp.
Qed.

Lemma HasSuffix_spec s suf : host.HasSuffix s suf = true <-> exists p, s = p +:+ suf.
Proof.
  unfold host.HasSuffix. rewrite andb_true_iff, Nat.leb_le, String.eqb_eq. split.
  - intros [Hle E]. destruct (str_split_at (String.length s - String.length suf) s)
      as (p & E' & _); [lia|]. exists p. by rewrite <- E.
  - intros [p ->]. rewrite str_length_app. split; [lia|].
    replace (String.length p + String.length suf - String.length suf)%nat
      with (String.length p) by lia. apply str_drop_app.
Qed.

Lemma str_app_inj_r p q a b :
  p +:+ a = q +:+ b -> String.length a = String.length b -> a = b.
Proof.
  intros E Hl. assert (Hpq : String.length p = String.length q).
  { apply (f_equal String.length) in E. rewrite !str_length_app in E. lia. }
  apply (f_equal (str_drop (String.length p))) in E.
  rewrite str_drop_app in E. rewrite Hpq in E. by rewrite str_drop_app in E.
Qed.

Lemma HasSuffix_trans a b c :
  host.HasSuffix a b = true -> host.HasSuffix b c = true -> host.HasSuffix a c = true.
Proof.
  rewrite !HasSuffix_spec. intros [p ->] [q ->]. exists (p +:+ q). by rewrite str_app_assoc.
Qed.

Lemma HasSuffix_refl a : host.HasSuffix a a = true.
Proof. apply HasSuffix_spec. by exists "". Qed.

(** Two suffixes of one string: the shorter is a suffix of the longer. *)
Lemma HasSuffix_chain h a b :
  host.HasSuffix h a = true -> host.HasSuffix h b = true ->
  (String.length b <= String.length a)%nat -> host.HasSuffix a b = true.
Proof.
  rewrite !HasSuffix_spec. intros [p ->] [q E] Hl.
  destruct (str_split_at (String.length a - String.length b) a) as (r & Ea & Hr); [lia|].
  exists r. rewrite Ea at 1. f_equal. rewrite Ea in E.
  rewrite <- str_app_assoc in E. eapply str_app_inj_r; [exact E|].
  apply (f_equal String.length) in Ea. rewrite str_length_app in Ea. lia.
Qed.

Lemma wildcard_tail_length n :
  host.IsWildCarded n = true -> String.length n = S (String.length (host.tail n)).
Proof. destruct n as [|c n]; [done|]. intros _. by destruct n. Qed.

(** A wildcard stands for names that start with any letter. *)
Lemma covers_extend n c :
  host.IsWildCarded n = true -> host.covers n (String c (host.tail n)).
Proof.
  intros Hw. unfold host.covers. rewrite Hw. apply HasSuffix_spec. by exists (String c "").
Qed.

Lemma concrete_extend c s : c <> "*"%char -> host.IsWildCarded (String c s) = false.
Proof. intros Hc. simpl. destruct c as [[] [] [] [] [] [] [] []]; done. Qed.

(** ** Properties *)

(** [SubsetOf] is exactly inclusion: [n] is a subset of [o] when every
    concrete host name that [n] stands for is one that [o] stands for. *)
Theorem host_SubsetOf_spec n o :
  host.SubsetOf n o = true <->
  (forall h, host.IsWildCarded h = false -> host.covers n h -> host.covers o h).
Proof.
  unfold host.SubsetOf. destruct (host.IsWildCarded n) eqn:Hn, (host.IsWildCarded o) eqn:Ho.
  - rewrite (wildcard_tail_length n), (wildcard_tail_length o) by done.
    unfold host.covers. rewrite Hn, Ho. split.
    + destruct (Nat.ltb_spec (S (String.length (host.tail n))) (S (String.length (host.tail o))));
        [done|]. intros Hs h _ Hc. by eapply HasSuffix_trans.
    + intros Hall.
      assert (Hsuf : host.HasSuffix (host.tail n) (host.tail o) = true).
      { pose proof (Hall (String "x" (host.tail n)) eq_refl) as Hx.
        pose proof (Hall (String "y" (host.tail n)) eq_refl) as Hy.
        rewrite !HasSuffix_spec in Hx, Hy.
        destruct Hx as [p Hp]; [by exists "x"|]. destruct p as [|c p]; [|simpl in Hp].
        2: { injection Hp as _ Hp. apply HasSuffix_spec. by exists p. }
        destruct Hy as [q Hq]; [by exists "y"|]. destruct q as [|c q]; [|simpl in Hq].
        2: { injection Hq as _ Hq. apply HasSuffix_spec. by exists q. }
        simpl in Hp, Hq. congruence. }
      rewrite Hsuf. destruct (Nat.ltb_spec (S (String.length (host.tail n)))
        (S (String.length (host.tail o)))); [|done].
      apply HasSuffix_spec in Hsuf as [p Hp]. apply (f_equal String.length) in Hp.
      rewrite str_length_app in Hp. lia.
  - split; [done|]. intros Hall. unfold host.covers in Hall. rewrite Hn, Ho in Hall.
    pose proof (Hall (String "x" (host.tail n)) eq_refl ltac:(apply HasSuffix_spec; by exists "x")) as Hx.
    pose proof (Hall (String "y" (host.tail n)) eq_refl ltac:(apply HasSuffix_spec; by exists "y")) as Hy.
    congruence.
  - unfold host.covers. rewrite Hn, Ho. split; [by intros ? h _ ->|]. intros Hall. by apply Hall.
  - unfold host.covers. rewrite Hn, Ho, String.eqb_eq. split; [by intros -> h _ ->|].
    intros Hall. by apply Hall.
Qed.

(** [Matches] is exactly overlap: two names match when some concrete
    host name is covered by both. *)
Theorem host_Matches_spec n o :
  host.Matches n o = true <->
  (exists h, host.IsWildCarded h = false /\ host.covers n h /\ host.covers o h).
Proof.
  unfold host.Matches. destruct (host.IsWildCarded n) eqn:Hn, (host.IsWildCarded o) eqn:Ho.
  - rewrite (wildcard_tail_length n), (wildcard_tail_length o) by done.
    destruct (Nat.ltb_spec (S (String.length (host.tail n))) (S (String.length (host.tail o))));
      split.
    + intros Hs. exists (String "x" (host.tail o)). split; [done|].
      split; [|by apply covers_extend]. unfold host.covers. rewrite Hn.
      eapply HasSuffix_trans; [|exact Hs]. apply HasSuffix_spec. by exists "x".
    + unfold host.covers. rewrite Hn, Ho. intros (h & _ & H1 & H2).
      eapply HasSuffix_chain; [done|done|lia].
    + intros Hs. exists (String "x" (host.tail n)). split; [done|].
      split; [by apply covers_extend|]. unfold host.covers. rewrite Ho.
      eapply HasSuffix_trans; [|exact Hs]. apply HasSuffix_spec. by exists "x".
    + unfold host.covers. rewrite Hn, Ho. intros (h & _ & H1 & H2).
      eapply HasSuffix_chain; [done|done|lia].
  - unfold host.covers. rewrite Hn, Ho. naive_solver.
  - unfold host.covers. rewrite Hn, Ho. naive_solver.
  - unfold host.covers. rewrite Hn, Ho, String.eqb_eq. naive_solver.
Qed.

(** Label selection: [SubsetOf] holds exactly when every label of the
    selector is carried with the same value, the length tests being shortcuts
    only; [Match] additionally refuses the empty selector. *)
Theorem labels_SubsetOf_spec (i that : labels.Instance) :
  (labels.SubsetOf i that = true <-> nmap_get i ⊆ nmap_get that) /\
  (labels.Match i that = true <-> nmap_get i <> ∅ /\ nmap_get i ⊆ nmap_get that).
Proof.
  assert (Hsub : labels.SubsetOf i that = true <-> nmap_get i ⊆ nmap_get that).
  { unfold labels.SubsetOf. destruct (Nat.eqb_spec (size (nmap_get i)) 0) as [E|E].
    { apply map_size_empty_iff in E. rewrite E. split; [|done]. intros _. apply map_empty_subseteq. }
    assert (Hsz : nmap_get i ⊆ nmap_get that -> (size (nmap_get i) <= size (nmap_get that))%nat)
      by apply map_subseteq_size.
    destruct (Nat.eqb_spec (size (nmap_get that)) 0); simpl; [split; [done|intros Hs%Hsz; lia]|].
    destruct (Nat.ltb_spec (size (nmap_get that)) (size (nmap_get i))); [split; [done|intros Hs%Hsz; lia]|].
    rewrite forallb_elem, map_subseteq_spec. split.
    - intros Hall k v Hk. specialize (Hall (k, v)). rewrite elem_of_map_to_list in Hall.
      specialize (Hall Hk). by apply bool_decide_eq_true in Hall.
    - intros Hall [k v] Hk%elem_of_map_to_list. apply bool_decide_eq_true. by apply Hall. }
  split; [done|]. unfold labels.Match.
  destruct (Nat.eqb_spec (size (nmap_get i)) 0) as [E|E]; rewrite map_size_empty_iff in E.
  - naive_solver.
  - rewrite Hsub. naive_solver.
Qed.

(** [protocol.Parse] recognises every supported protocol by its own name. *)
Lemma protocol_Parse_supported p : p ∈ protocol.supported -> protocol.Parse p = p.
Proof. unfold protocol.supported. intros Hp. by repeat (apply elem_of_cons in Hp as [->|Hp]; [done|]); apply not_elem_of_nil in Hp. Qed.
