(* ===== verification/GoNet.v ===== *)
(** * More of the Go library: trimming, case, addresses, map iteration

    [strings.TrimPrefix], [TrimSuffix], [TrimSpace], [ToUpper], [EqualFold] and
    [net.SplitHostPort], which the generators parse names with, the order
    of [range] over a map, and [filepath.Clean]. *)

From Stdlib Require Import SpecFloat.
From S2P Require Import Prelude GoStrings Hosts.

(** ** [strings] *)

Definition str_take (n : nat) (s : string) : string := String.substring 0 n s.

Definition TrimPrefix (s pre : string) : string :=
  if HasPrefix s pre then str_drop (String.length pre) s else s.

Definition TrimSuffix (s suf : string) : string :=
  if host.HasSuffix s suf then str_take (String.length s - String.length suf) s else s.

(** White space and letters are those of ASCII: the texts the control plane
    trims and folds are names and enumerations of the Kubernetes API, which are
    ASCII. *)
Definition is_space (c : ascii) : bool :=
  let n := Ascii.nat_of_ascii c in ((9 <=? n)%nat && (n <=? 13)%nat) || (n =? 32)%nat.

Fixpoint trim_left (s : string) : string :=
  match s with
  | String c s' => if is_space c then trim_left s' else s
  | EmptyString => EmptyString
  end.

Fixpoint trim_right (s : string) : string :=
  match s with
  | EmptyString => EmptyString
  | String c s' =>
      match trim_right s' with
      | EmptyString => if is_space c then EmptyString else String c EmptyString
      | s' => String c s'
      end
  end.

Definition TrimSpace (s : string) : string := trim_right (trim_left s).

Definition upper_char (c : ascii) : ascii :=
  let n := Ascii.nat_of_ascii c in
  if ((97 <=? n)%nat && (n <=? 122)%nat) then Ascii.ascii_of_nat (n - 32) else c.
Fixpoint ToUpper (s : string) : string :=
  match s with
  | EmptyString => EmptyString
  | String c s => String (upper_char c) (ToUpper s)
  end.

Definition EqualFold (s t : string) : bool :=
  String.eqb (protocol.ToLower s) (protocol.ToLower t).

(** [strings.ReplaceAll] of one byte by another. *)
Fixpoint ReplaceAll (s : string) (old new : ascii) : string :=
  match s with
  | EmptyString => EmptyString
  | String c s => String (if Ascii.eqb c old then new else c) (ReplaceAll s old new)
  end.

(** ** [net.SplitHostPort]

    [None] for the errors: every caller tests the error and drops it. *)

Definition head_is (c : ascii) (s : string) : bool :=
  match s with String d _ => Ascii.eqb d c | EmptyString => false end.

Fixpoint IndexByte (s : string) (c : ascii) : option nat :=
  match s with
  | EmptyString => None
  | String d s' => if Ascii.eqb d c then Some O else S <$> IndexByte s' c
  end.

(** The bracketed and the plain form give the host and the positions after
    which no bracket may occur. *)
Definition split_host (hostport : string) (i : nat) : option (string * nat * nat) :=
  if head_is "[" hostport then
    match IndexByte hostport "]" with
    | None => None
    | Some e =>
        if (S e =? String.length hostport)%nat then None
        else if (S e =? i)%nat then Some (String.substring 1 (e - 1) hostport, 1%nat, S e)
        else None
    end
  else
    let host := str_take i hostport in
    if negb (no_char ":" host) then None else Some (host, 0%nat, 0%nat).

Definition SplitHostPort (hostport : string) : option (string * string) :=
  match LastIndex hostport ":" with
  | None => None
  | Some i =>
      match split_host hostport i with
      | None => None
      | Some (host, j, k) =>
          if negb (no_char "[" (str_drop j hostport)) then None
          else if negb (no_char "]" (str_drop k hostport)) then None
          else Some (host, str_drop (S i) hostport)
      end
  end.

(** ** [range] over a map

    Go visits each entry of a map once, in an order it does not specify.  A
    definition that depends on the order takes it as a parameter; a theorem
    about it holds for every order. *)
Class RangeOrder : Type := {
  range : forall {K V : Type} `{Countable K}, gmap K V -> list (K * V);
  range_perm : forall {K V : Type} `{Countable K} (m : gmap K V), range m ≡ₚ map_to_list m
}.

(** Some order. *)
Definition key_order : RangeOrder := {|
  range K V _ _ m := map_to_list m;
  range_perm K V _ _ m := reflexivity (map_to_list m)
|}.

(** Another one. *)
Definition reverse_order : RangeOrder := {|
  range K V _ _ m := reverse (map_to_list m);
  range_perm K V _ _ m := reverse_Permutation (map_to_list m)
|}.

(** ** Lemmas *)

Section range.
Context `{RangeOrder} {K V : Type} `{Countable K}.
Implicit Types m : gmap K V.

Lemma elem_of_range m k v : (k, v) ∈ range m <-> m !! k = Some v.
Proof. rewrite range_perm. apply elem_of_map_to_list. Qed.

Lemma NoDup_range m : NoDup (range m).
Proof. rewrite range_perm. apply NoDup_map_to_list. Qed.

Lemma NoDup_range_fst m : NoDup (range m).*1.
Proof. rewrite range_perm. apply NoDup_fst_map_to_list. Qed.

Lemma range_empty : range (∅ : gmap K V) = [].
Proof. apply Permutation_nil_r. by rewrite range_perm, map_to_list_empty. Qed.

Lemma list_to_map_range m : list_to_map (range m) = m.
Proof.
  rewrite <- (list_to_map_to_list m) at 2.
  apply list_to_map_proper; [apply NoDup_range_fst|apply range_perm].
Qed.

End range.

Lemma str_take_app a b : str_take (String.length a) (a +:+ b) = a.
Proof.
  unfold str_take. induction a as [|c a IH]; simpl; [by destruct b|]. by rewrite IH.
Qed.

Lemma prefix_app a b : String.prefix a (a +:+ b) = true.
Proof.
  induction a as [|c a IH]; simpl; [by destruct b|]. by destruct (Ascii.ascii_dec c c).
Qed.

Lemma HasPrefix_app_inv s pre : HasPrefix s pre = true -> s = pre +:+ str_drop (String.length pre) s.
Proof.
  unfold HasPrefix. revert s; induction pre as [|c pre IH]; intros s; [done|].
  destruct s as [|d s]; simpl; [done|]. destruct (Ascii.ascii_dec c d) as [->|]; [|done].
  intros Hp. by rewrite <- IH.
Qed.

Lemma TrimPrefix_app pre s : TrimPrefix (pre +:+ s) pre = s.
Proof. unfold TrimPrefix, HasPrefix. by rewrite prefix_app, str_drop_app. Qed.

Lemma head_is_no_char c s : no_char c s = true -> head_is c s = false.
Proof. destruct s as [|d s]; simpl; [done|]. intros; breflect. done. Qed.

(** [net.SplitHostPort] undoes [host + ":" + port] when neither part has a colon
    or a bracket. *)
Lemma SplitHostPort_join h p :
  forallb (fun c => no_char c h && no_char c p) [":"; "["; "]"]%char = true ->
  SplitHostPort (h +:+ ":" +:+ p) = Some (h, p).
Proof.
  simpl. intros Hc. breflect.
  unfold SplitHostPort. rewrite (LastIndex_app h ":" p) by done.
  unfold split_host. rewrite head_is_no_char; last by rewrite no_char_app; simpl; apply andb_true_iff.
  rewrite str_take_app, H. cbn [negb]. change (str_drop 0 ?s) with s.
  rewrite (str_drop_app_succ h ":" p), !no_char_app. simpl.
  by rewrite H0, H4, H1, H3.
Qed.

Lemma LastIndex_split s c i :
  LastIndex s c = Some i ->
  s = str_take i s +:+ String c (str_drop (S i) s) /\ no_char c (str_drop (S i) s) = true.
Proof.
  revert i; induction s as [|d s IH]; intros i; simpl; [done|].
  destruct (LastIndex s c) as [j|] eqn:Ej.
  - intros [= <-]. destruct (IH j eq_refl) as [E Hn]. split; [|done].
    unfold str_take in *. simpl. by f_equal.
  - destruct (Ascii.eqb_spec d c); [|done]. intros [= <-]. subst d.
    apply LastIndex_none_inv in Ej. unfold str_take. simpl. by destruct s.
Qed.

(** Without brackets, the text of a successful split is the two parts joined by
    its only colon. *)
Lemma SplitHostPort_plain s h p :
  SplitHostPort s = Some (h, p) -> head_is "[" s = false ->
  s = h +:+ ":" +:+ p /\ no_char ":" h = true /\ no_char ":" p = true.
Proof.
  unfold SplitHostPort, split_host. intros E Hb.
  destruct (LastIndex s ":") as [i|] eqn:Ei; [|done]. rewrite Hb in E.
  destruct (no_char ":" (str_take i s)) eqn:Eh; [|done]. cbn [negb] in E.
  branch_in E. destruct (LastIndex_split s _ i Ei) as [E1 E2]. done.
Qed.

(** A loop over a map that keeps some of the entries, with new values. *)
Lemma fold_insert_omap `{Countable K} {V W} (f : K -> V -> option W) (l : list (K * V)) (acc : gmap K W) k :
  NoDup l.*1 -> (forall x, x ∈ l.*1 -> acc !! x = None) ->
  fold_left (fun acc '(k, v) => match f k v with Some w => <[k := w]> acc | None => acc end) l acc !! k
  = match acc !! k with
    | Some w => Some w
    | None => (list_to_map l : gmap K V) !! k ≫= f k
    end.
Proof.
  revert acc; induction l as [|[k' v] l IH]; intros acc Hnd Hacc; simpl.
  { rewrite lookup_empty. simpl. by destruct (acc !! k). }
  apply NoDup_cons in Hnd as [Hk' Hnd]. assert (acc !! k' = None) as Hk'0 by (apply Hacc; set_solver).
  rewrite IH; [|done|].
  - destruct (decide (k' = k)) as [<-|Hne].
    + rewrite Hk'0, lookup_insert_eq. simpl.
      assert ((list_to_map l : gmap K V) !! k' = None) as Hl by by apply not_elem_of_list_to_map.
      destruct (f k' v); [by rewrite lookup_insert_eq|]. by rewrite Hk'0, Hl.
    + rewrite (lookup_insert_ne (list_to_map l)) by done.
      destruct (f k' v); [by rewrite lookup_insert_ne|done].
  - intros x Hx. destruct (f k' v); [|apply Hacc; set_solver].
    rewrite lookup_insert_ne; [apply Hacc; set_solver|]. intros ->. done.
Qed.

Lemma range_insert_omap `{RangeOrder} `{Countable K} {V W} (f : K -> V -> option W) (m : gmap K V) k :
  fold_left (fun acc '(k, v) => match f k v with Some w => <[k := w]> acc | None => acc end)
    (range m) (∅ : gmap K W) !! k = m !! k ≫= f k.
Proof.
  rewrite fold_insert_omap; [|apply NoDup_range_fst|set_solver].
  by rewrite lookup_empty, list_to_map_range.
Qed.

(** ** [m[key(x)] = append(m[key(x)], val(x))] *)
Section group.
Context {A B K : Type} `{Countable K} (key : A -> K) (val : A -> B).

Definition group_by (l : list A) (m : gmap K (list B)) : gmap K (list B) :=
  fold_left (fun m x => <[key x := default [] (m !! key x) ++ [val x]]> m) l m.

Lemma group_by_lookup l m k :
  group_by l m !! k =
  match map val (List.filter (fun x => bool_decide (key x = k)) l) with
  | [] => m !! k
  | vs => Some (default [] (m !! k) ++ vs)
  end.
Proof.
  unfold group_by. revert m; induction l as [|x l IH]; intros m; simpl; [done|].
  rewrite IH. case_bool_decide as Hk; simpl.
  - subst k. rewrite lookup_insert_eq. simpl.
    destruct (map val _); [done|]. by rewrite <- app_assoc.
  - rewrite lookup_insert_ne by done. done.
Qed.

Lemma group_by_default l m k :
  default [] (group_by l m !! k)
  = default [] (m !! k) ++ map val (List.filter (fun x => bool_decide (key x = k)) l).
Proof.
  rewrite group_by_lookup. destruct (map val _) eqn:E; simpl; [|done]. by rewrite app_nil_r.
Qed.

End group.

(** ** [filepath] *)

(** [filepath.Clean], for slashes: the elements, without empty ones and dots, and with
    what two dots take back. *)
Fixpoint clean_elems (rooted : bool) (acc : list string) (elems : list string) : list string :=
  match elems with
  | [] => rev acc
  | e :: elems =>
      if String.eqb e "" || String.eqb e "." then clean_elems rooted acc elems
      else if String.eqb e ".." then
        match acc with
        | a :: acc' => if String.eqb a ".." then clean_elems rooted (e :: acc) elems else clean_elems rooted acc' elems
        | [] => clean_elems rooted (if rooted then [] else [".."]) elems
        end
      else clean_elems rooted (e :: acc) elems
  end.
Definition Clean (path : string) : string :=
  let rooted := HasPrefix path "/" in
  let s := (if rooted then "/" else "") +:+ str_join (clean_elems rooted [] (Split path "/")) "/" in
  if String.eqb s "" then "." else s.

(** [filepath.Dir] *)
Definition Dir (path : string) : string :=
  Clean (match LastIndex path "/" with Some i => str_take (S i) path | None => "" end).

(** ** Floating point *)

(** The binary64 number of an integer, and its conversion back, which truncates. *)
Definition float64 (z : Z) : spec_float := binary_normalize 53 1024 z 0 false.
Definition truncate (f : spec_float) : Z :=
  match f with
  | S754_finite s m e => (if s then -1 else 1) * Z.shiftl (Zpos m) e
  | _ => 0
  end.

(** [int64(d.Seconds())] of a duration in nanoseconds *)
Definition whole_seconds (d : Z) : Z :=
  truncate (SFadd 53 1024 (float64 (Z.quot d 1000000000)) (SFdiv 53 1024 (float64 (Z.rem d 1000000000)) (float64 1000000000))).
