(* ===== verification/Spiffe.v ===== *)
(** * SPIFFE identities

    [pkg/spiffe/spiffe.go]: the identities of workloads, their text, the
    expansion with the aliases of a trust domain, and the verifier that checks
    a peer's certificate against the roots of its own trust domain.  Parsing
    and verifying certificates ([crypto/x509], [encoding/pem]) are parameters;
    fetching bundles over HTTPS is not modelled. *)

From S2P Require Import Prelude GoStrings GoSets GoNet.

Definition URIPrefix : string := "spiffe://".
Definition ServiceAccountSegment : string := "sa".
Definition NamespaceSegment : string := "ns".

Module Identity.
Record t : Type := mk { TrustDomain : string; Namespace : string; ServiceAccount : string }.
#[global] Instance eq_dec : EqDecision t.
Proof. solve_decision. Defined.

Definition String (i : t) : string :=
  URIPrefix +:+ TrustDomain i +:+ "/ns/" +:+ Namespace i +:+ "/sa/" +:+ ServiceAccount i.
End Identity.
Notation Identity := Identity.t.

Definition not_spiffe : gerror := mk_error Unknown "identity is not a spiffe format".

Definition ParseIdentity (s : string) : res Identity :=
  if negb (HasPrefix s URIPrefix) then Err not_spiffe else
  match Split (str_drop (String.length URIPrefix) s) "/" with
  | [td; a; ns; b; sa] =>
      if negb (String.eqb a NamespaceSegment) || negb (String.eqb b ServiceAccountSegment)
      then Err not_spiffe
      else Ok (Identity.mk td ns sa)
  | _ => Err not_spiffe
  end.

Definition GetTrustDomainFromURISAN (uriSan : string) : res string :=
  match ParseIdentity uriSan with
  | Ok parsed => Ok (Identity.TrustDomain parsed)
  | Err e => Err (mk_error Unknown ("failed to parse URI SAN " +:+ uriSan +:+ ". Error: " +:+ err_msg e))
  | Panic w => Panic w
  end.

(** The identities one identity stands for; one that is not of the format is
    kept alone. *)
Definition expand_one (trustDomainAliases : list string) (id : string) : list string :=
  id ::
  (if negb (HasPrefix id URIPrefix) then []
   else match ParseIdentity id with
        | Ok m => map (fun td => Identity.String
                    (Identity.mk td (Identity.Namespace m) (Identity.ServiceAccount m))) trustDomainAliases
        | _ => []
        end).

Definition ExpandWithTrustDomains (spiffeIdentities : nset string) (trustDomainAliases : list string)
  : nset string :=
  if (length trustDomainAliases =? 0)%nat then spiffeIdentities
  else Some (fold_left (fun out x => {[x]} ∪ out)
               (concat (map (expand_one trustDomainAliases) (GoSet.UnsortedList spiffeIdentities))) ∅).

Definition sanitizeTrustDomain (td : string) : string := ReplaceAll td "@" ".".

(** The URI is returned with the error. *)
Definition genSpiffeURI (td ns serviceAccount : string) : string * option gerror :=
  (URIPrefix +:+ sanitizeTrustDomain td +:+ "/ns/" +:+ ns +:+ "/sa/" +:+ serviceAccount,
   if String.eqb ns "" || String.eqb serviceAccount ""
   then Some (mk_error Unknown "namespace or service account empty for SPIFFE uri") else None).

Definition MustGenSpiffeURI (trustDomain ns serviceAccount : string) : string :=
  fst (genSpiffeURI trustDomain ns serviceAccount).

(** ** The verifier of peer certificates *)
Section verifier.
Context {Cert : Type} (URIs : Cert -> list string)
        (ParseCertificate : string -> res Cert)
        (* [Verify pool intermediates cert], for client authentication *)
        (Verify : list Cert -> list Cert -> Cert -> res unit)
        (* the certificates of the blocks of a PEM text *)
        (ParsePEM : string -> res (list Cert)).

Record PeerCertVerifier : Type := mkVerifier {
  generalCertPool : list Cert;
  certPools : gmap string (list Cert)
}.

Definition NewPeerCertVerifier : PeerCertVerifier := mkVerifier [] ∅.

(** Certificates are added one by one to both pools. *)
Definition AddMapping (v : PeerCertVerifier) (trustDomain : string) (certs : list Cert) : PeerCertVerifier :=
  mkVerifier (generalCertPool v ++ certs)
    (<[trustDomain := default [] (certPools v !! trustDomain) ++ certs]> (certPools v)).

Definition AddMappingFromPEM (v : PeerCertVerifier) (trustDomain rootCertBytes : string)
  : res PeerCertVerifier :=
  match ParsePEM rootCertBytes with
  | Ok rootCAs => Ok (AddMapping v trustDomain rootCAs)
  | Err e => Err (mk_error Unknown ("parse certificate from rootPEM got error: " +:+ err_msg e))
  | Panic w => Panic w
  end.

Definition AddMappings `{RangeOrder} (v : PeerCertVerifier) (certMap : gmap string (list Cert))
  : PeerCertVerifier :=
  fold_left (fun v '(trustDomain, certs) => AddMapping v trustDomain certs) (range certMap) v.

Fixpoint parse_all (rawCerts : list string) : res (list Cert) :=
  match rawCerts with
  | [] => Ok []
  | raw :: rawCerts => cert ← ParseCertificate raw; certs ← parse_all rawCerts; Ok (cert :: certs)
  end.

(** Without a certificate there is nothing to verify: other authenticators may
    apply. *)
Definition VerifyPeerCert (v : PeerCertVerifier) (rawCerts : list string) : res unit :=
  certs ← parse_all rawCerts;
  match certs with
  | [] => Ok tt
  | peerCert :: intCertPool =>
      match URIs peerCert with
      | [uri] =>
          trustDomain ← GetTrustDomainFromURISAN uri;
          match certPools v !! trustDomain with
          | None => Err (mk_error Unknown ("no cert pool found for trust domain " +:+ trustDomain))
          | Some rootCertPool => Verify rootCertPool intCertPool peerCert
          end
      | _ => Err (mk_error Unknown "peer certificate does not contain 1 URI type SAN")
      end
  end.

End verifier.
Arguments PeerCertVerifier : clear implicits.

(** ** Lemmas *)

Lemma length_split_fuel_pos n s c : split_fuel n s c <> [].
Proof. destruct n; simpl; [done|]. by destruct (cut_at s c) as [[??]|]. Qed.

(** Text of five parts without the separator splits into them. *)
Lemma Split_five c a1 a2 a3 a4 a5 :
  forallb (no_char c) [a1; a2; a3; a4; a5] = true ->
  Split (a1 +:+ String c (a2 +:+ String c (a3 +:+ String c (a4 +:+ String c a5)))) (String c "")
  = [a1; a2; a3; a4; a5].
Proof.
  simpl. intros Hn. breflect. unfold Split.
  remember (String.length (a1 +:+ _)) as n eqn:En.
  rewrite !str_length_app in En. cbn [String.length] in En. rewrite !str_length_app in En.
  cbn [String.length] in En. rewrite !str_length_app in En. cbn [String.length] in En.
  rewrite str_length_app in En. cbn [String.length] in En.
  destruct n as [|[|[|[|n]]]]; [lia..|].
  rewrite !split_fuel_cons by done. by rewrite split_fuel_single.
Qed.

Lemma ParseIdentity_ok s i : ParseIdentity s = Ok i -> Identity.String i = s.
Proof.
  unfold ParseIdentity. destruct (HasPrefix s URIPrefix) eqn:Hp; [|done]. cbn [negb].
  pose proof (split_fuel_join (String.length (str_drop (String.length URIPrefix) s))
                (str_drop (String.length URIPrefix) s) "/") as Hj. fold (Split (str_drop (String.length URIPrefix) s) "/") in Hj.
  destruct (Split _ _) as [|td [|a [|ns [|b [|sa [|? ?]]]]]]; try done.
  destruct (String.eqb_spec a NamespaceSegment) as [->|]; [|done].
  destruct (String.eqb_spec b ServiceAccountSegment) as [->|]; [|done].
  intros [= <-]. rewrite (HasPrefix_app_inv s URIPrefix Hp), <- Hj. done.
Qed.

(** The parts of an identity that its text can be read back from. *)
Definition identity_ok (i : Identity) : bool :=
  forallb (no_char "/") [Identity.TrustDomain i; Identity.Namespace i; Identity.ServiceAccount i].

Lemma ParseIdentity_String i : identity_ok i = true -> ParseIdentity (Identity.String i) = Ok i.
Proof.
  unfold identity_ok. simpl. intros Hn. breflect. unfold ParseIdentity, Identity.String.
  unfold HasPrefix. rewrite prefix_app, str_drop_app. cbn [negb].
  pose proof (Split_five "/" (Identity.TrustDomain i) "ns" (Identity.Namespace i) "sa"
                (Identity.ServiceAccount i)) as Hs.
  simpl in Hs. rewrite H, H0, H1 in Hs. specialize (Hs eq_refl). simpl. rewrite Hs. by destruct i.
Qed.

Lemma ExpandWithTrustDomains_eq ids aliases :
  aliases <> [] ->
  nset_elems (ExpandWithTrustDomains ids aliases)
  = list_to_set (concat (map (expand_one aliases) (elements (nset_elems ids)))).
Proof.
  intros Ha. unfold ExpandWithTrustDomains. destruct aliases; [done|].
  cbn [length Nat.eqb nset_elems default]. rewrite fold_insert_set. set_solver.
Qed.

(** ** Properties *)

(** An identity and its text determine each other: the text of an identity
    parses to it when no part has a slash, and a text that parses is the text of
    what it parses to, so nothing of it is ignored. *)
Theorem spiffe_identity_roundtrip :
  (forall i, identity_ok i = true -> ParseIdentity (Identity.String i) = Ok i) /\
  (forall s i, ParseIdentity s = Ok i -> Identity.String i = s).
Proof. split; [apply ParseIdentity_String|apply ParseIdentity_ok]. Qed.

(** Expansion with the aliases of the trust domain adds, for each identity
    that parses, the identity with each alias in place of its trust domain, and
    nothing else: namespace and service account are kept, and what is not a
    SPIFFE identity stands for itself alone. *)
Theorem expand_with_trust_domains_spec ids aliases x :
  x ∈ nset_elems (ExpandWithTrustDomains ids aliases) <->
  x ∈ nset_elems ids \/
  (exists m td, Identity.String m ∈ nset_elems ids /\ ParseIdentity (Identity.String m) = Ok m
     /\ td ∈ aliases
     /\ x = Identity.String (Identity.mk td (Identity.Namespace m) (Identity.ServiceAccount m))).
Proof.
  destruct (decide (aliases = [])) as [->|Ha]; [unfold ExpandWithTrustDomains; simpl; set_solver|].
  rewrite ExpandWithTrustDomains_eq, elem_of_list_to_set, list_elem_of_In, in_concat by done.
  setoid_rewrite in_map_iff. setoid_rewrite <- list_elem_of_In. setoid_rewrite elem_of_elements. split.
  - intros (l & (id & <- & Hid) & Hx). unfold expand_one in Hx.
    apply elem_of_cons in Hx as [->|Hx]; [by left|].
    destruct (HasPrefix id URIPrefix); simpl in Hx; [|by apply elem_of_nil in Hx].
    destruct (ParseIdentity id) as [m| |] eqn:E; try by apply elem_of_nil in Hx.
    apply list_elem_of_fmap in Hx as (td & -> & Htd). right. exists m, td.
    by rewrite (ParseIdentity_ok _ _ E).
  - intros [Hx|(m & td & Hm & Hp & Htd & ->)].
    + exists (expand_one aliases x). split; [by eexists|]. unfold expand_one. apply elem_of_cons; auto.
    + exists (expand_one aliases (Identity.String m)). split; [by eexists|].
      unfold expand_one. rewrite Hp.
      assert (HasPrefix (Identity.String m) URIPrefix = true) as -> by apply prefix_app.
      apply elem_of_cons; right. simpl. apply list_elem_of_fmap. by exists td.
Qed.

Section isolation.
Context {Cert : Type} (ParseCertificate : string -> res Cert).

(** The roots a sequence of mappings gives a trust domain. *)
Definition roots_of (maps : list (string * list Cert)) (td : string) : list Cert :=
  concat (map snd (List.filter (fun e => String.eqb (fst e) td) maps)).

Definition add_mappings (v : PeerCertVerifier Cert) (maps : list (string * list Cert)) : PeerCertVerifier Cert :=
  fold_left (fun v '(td, certs) => AddMapping v td certs) maps v.

Lemma certPools_add_mappings maps v td :
  default [] (certPools (add_mappings v maps) !! td)
  = default [] (certPools v !! td) ++ roots_of maps td.
Proof.
  revert v; induction maps as [|[d certs] maps IH]; intros v; simpl; [by rewrite app_nil_r|].
  rewrite IH. unfold roots_of. simpl.
  destruct (String.eqb_spec d td) as [->|Hne]; simpl.
  - rewrite lookup_insert_eq. simpl. by rewrite app_assoc.
  - by rewrite lookup_insert_ne.
Qed.

Lemma parse_all_cons raw c raws certs :
  parse_all ParseCertificate (raw :: raws) = Ok (c :: certs) ->
  ParseCertificate raw = Ok c /\ parse_all ParseCertificate raws = Ok certs.
Proof.
  simpl. destruct (ParseCertificate raw); simpl; [|done..].
  destruct (parse_all _ raws); simpl; naive_solver.
Qed.

End isolation.

(** C27 A peer that presents a certificate is accepted only on the strength of
    the roots of its own trust domain: whatever roots were added for whatever
    domains, the certificate has exactly one URI, the URI is a SPIFFE identity,
    and the chain verifies against the roots added for the trust domain of that
    identity and no others. *)
Theorem verify_peer_cert_isolation {Cert} (URIs : Cert -> list string) ParseCertificate Verify
    (maps : list (string * list Cert)) raw raws :
  VerifyPeerCert URIs ParseCertificate Verify (add_mappings NewPeerCertVerifier maps) (raw :: raws) = Ok tt ->
  exists cert ints uri id,
    ParseCertificate raw = Ok cert /\ parse_all ParseCertificate raws = Ok ints /\
    URIs cert = [uri] /\ ParseIdentity uri = Ok id /\
    Verify (roots_of maps (Identity.TrustDomain id)) ints cert = Ok tt.
Proof.
  unfold VerifyPeerCert. intros Hv. apply res_bind_ok in Hv as (certs & Hp & Hv).
  destruct certs as [|cert ints].
  { simpl in Hp. destruct (ParseCertificate raw); simpl in Hp; [|done..].
    by destruct (parse_all ParseCertificate raws). }
  apply parse_all_cons in Hp as [Hraw Hraws].
  destruct (URIs cert) as [|uri [|? ?]] eqn:Hu; try done.
  apply res_bind_ok in Hv as (td & Htd & Hv).
  unfold GetTrustDomainFromURISAN in Htd. destruct (ParseIdentity uri) as [id| |] eqn:Hid; simplify_eq.
  pose proof (certPools_add_mappings maps NewPeerCertVerifier (Identity.TrustDomain id)) as Hpool.
  destruct (certPools _ !! _) as [pool|]; [|done].
  change (pool = roots_of maps (Identity.TrustDomain id)) in Hpool.
  exists cert, ints, uri, id. by rewrite <- Hpool.
Qed.

Definition sample_uris (c : string) : list string := [c].
Definition sample_verify (roots ints : list string) (c : string) : res unit :=
  if bool_decide ("root-a" ∈ roots) then Ok tt else Err not_spiffe.

Lemma verify_peer_cert_isolation_witness :
  exists cert ints uri id,
    Ok "spiffe://a/ns/x/sa/y" = @Ok string cert /\ Ok [] = @Ok (list string) ints /\
    sample_uris cert = [uri] /\ ParseIdentity uri = Ok id /\
    sample_verify (roots_of [("a", ["root-a"]); ("b", ["root-b"])] (Identity.TrustDomain id)) ints cert = Ok tt.
Proof.
  apply (verify_peer_cert_isolation sample_uris (fun s => Ok s) sample_verify
           [("a", ["root-a"]); ("b", ["root-b"])] "spiffe://a/ns/x/sa/y" []).
  vm_compute. reflexivity.
Defined.
