(* ===== verification/ConfigKeys.v ===== *)
(** * Configuration keys

    [pkg/config/schema/kind] (the resource kinds, their names and the parser
    of a name), and the [ConfigKey] of
    [dubbod/discovery/pkg/model/push_context.go] and
    [dubbod/discovery/pkg/model/config.go]: the key under which a changed
    resource travels through push requests and cache invalidation. *)

From S2P Require Import Prelude GoStrings GoSets.

Module kind.

(** [kind.Kind] is a [uint8] enumerated by [iota]; the constructors are in the
    order of the constants. *)
Inductive Kind : Type :=
  | Unknown
  | Address
  | AuthorizationPolicy
  | BackendTLSPolicy
  | CircuitBreakerPolicy
  | ConfigMap
  | CustomResourceDefinition
  | DNSName
  | DaemonSet
  | Deployment
  | EndpointSlice
  | Endpoints
  | FaultInjectionPolicy
  | GatewayClass
  | HTTPRoute
  | KubernetesGateway
  | Lease
  | MeshConfig
  | MutatingWebhookConfiguration
  | Namespace
  | Node
  | PeerAuthentication
  | Pod
  | PodDisruptionBudget
  | ReferenceGrant
  | RequestAuthentication
  | Secret
  | Service
  | ServiceAccount
  | ServiceEntry
  | StatefulSet
  | Telemetry
  | ValidatingWebhookConfiguration
  | WorkloadEntry.

#[global] Instance Kind_eq_dec : EqDecision Kind.
Proof. solve_decision. Defined.

(** The numeric value of a constant. *)
Definition Kind_byte (k : Kind) : nat :=
  match k with
  | Unknown => 0
  | Address => 1
  | AuthorizationPolicy => 2
  | BackendTLSPolicy => 3
  | CircuitBreakerPolicy => 4
  | ConfigMap => 5
  | CustomResourceDefinition => 6
  | DNSName => 7
  | DaemonSet => 8
  | Deployment => 9
  | EndpointSlice => 10
  | Endpoints => 11
  | FaultInjectionPolicy => 12
  | GatewayClass => 13
  | HTTPRoute => 14
  | KubernetesGateway => 15
  | Lease => 16
  | MeshConfig => 17
  | MutatingWebhookConfiguration => 18
  | Namespace => 19
  | Node => 20
  | PeerAuthentication => 21
  | Pod => 22
  | PodDisruptionBudget => 23
  | ReferenceGrant => 24
  | RequestAuthentication => 25
  | Secret => 26
  | Service => 27
  | ServiceAccount => 28
  | ServiceEntry => 29
  | StatefulSet => 30
  | Telemetry => 31
  | ValidatingWebhookConfiguration => 32
  | WorkloadEntry => 33
  end.

Definition all_kinds : list Kind :=
  [Unknown; Address; AuthorizationPolicy; BackendTLSPolicy;
   CircuitBreakerPolicy; ConfigMap; CustomResourceDefinition; DNSName;
   DaemonSet; Deployment; EndpointSlice; Endpoints;
   FaultInjectionPolicy; GatewayClass; HTTPRoute; KubernetesGateway;
   Lease; MeshConfig; MutatingWebhookConfiguration; Namespace;
   Node; PeerAuthentication; Pod; PodDisruptionBudget;
   ReferenceGrant; RequestAuthentication; Secret; Service;
   ServiceAccount; ServiceEntry; StatefulSet; Telemetry;
   ValidatingWebhookConfiguration; WorkloadEntry].

Lemma all_kinds_byte k : all_kinds !! Kind_byte k = Some k.
Proof. by destruct k. Qed.

#[global] Instance Kind_countable : Countable Kind.
Proof.
  refine (inj_countable Kind_byte (fun n => all_kinds !! n) all_kinds_byte).
Defined.

Definition String (k : Kind) : string :=
  match k with
  | Address => "Address"
  | AuthorizationPolicy => "AuthorizationPolicy"
  | BackendTLSPolicy => "BackendTLSPolicy"
  | CircuitBreakerPolicy => "CircuitBreakerPolicy"
  | ConfigMap => "ConfigMap"
  | CustomResourceDefinition => "CustomResourceDefinition"
  | DNSName => "DNSName"
  | DaemonSet => "DaemonSet"
  | Deployment => "Deployment"
  | EndpointSlice => "EndpointSlice"
  | Endpoints => "Endpoints"
  | FaultInjectionPolicy => "FaultInjectionPolicy"
  | GatewayClass => "GatewayClass"
  | HTTPRoute => "HTTPRoute"
  | KubernetesGateway => "KubernetesGateway"
  | Lease => "Lease"
  | MeshConfig => "MeshConfig"
  | MutatingWebhookConfiguration => "MutatingWebhookConfiguration"
  | Namespace => "Namespace"
  | Node => "Node"
  | PeerAuthentication => "PeerAuthentication"
  | Pod => "Pod"
  | PodDisruptionBudget => "PodDisruptionBudget"
  | ReferenceGrant => "ReferenceGrant"
  | RequestAuthentication => "RequestAuthentication"
  | Secret => "Secret"
  | Service => "Service"
  | ServiceAccount => "ServiceAccount"
  | ServiceEntry => "ServiceEntry"
  | StatefulSet => "StatefulSet"
  | Telemetry => "Telemetry"
  | ValidatingWebhookConfiguration => "ValidatingWebhookConfiguration"
  | WorkloadEntry => "WorkloadEntry"
  | _ => "Unknown"
  end.

Definition FromString (s : string) : Kind :=
  if String.eqb s "Address" then Address else
  if String.eqb s "AuthorizationPolicy" then AuthorizationPolicy else
  if String.eqb s "BackendTLSPolicy" then BackendTLSPolicy else
  if String.eqb s "CircuitBreakerPolicy" then CircuitBreakerPolicy else
  if String.eqb s "ConfigMap" then ConfigMap else
  if String.eqb s "CustomResourceDefinition" then CustomResourceDefinition else
  if String.eqb s "DNSName" then DNSName else
  if String.eqb s "DaemonSet" then DaemonSet else
  if String.eqb s "Deployment" then Deployment else
  if String.eqb s "EndpointSlice" then EndpointSlice else
  if String.eqb s "Endpoints" then Endpoints else
  if String.eqb s "FaultInjectionPolicy" then FaultInjectionPolicy else
  if String.eqb s "GatewayClass" then GatewayClass else
  if String.eqb s "HTTPRoute" then HTTPRoute else
  if String.eqb s "KubernetesGateway" then KubernetesGateway else
  if String.eqb s "Lease" then Lease else
  if String.eqb s "MeshConfig" then MeshConfig else
  if String.eqb s "MutatingWebhookConfiguration" then MutatingWebhookConfiguration else
  if String.eqb s "Namespace" then Namespace else
  if String.eqb s "Node" then Node else
  if String.eqb s "PeerAuthentication" then PeerAuthentication else
  if String.eqb s "Pod" then Pod else
  if String.eqb s "PodDisruptionBudget" then PodDisruptionBudget else
  if String.eqb s "ReferenceGrant" then ReferenceGrant else
  if String.eqb s "RequestAuthentication" then RequestAuthentication else
  if String.eqb s "Secret" then Secret else
  if String.eqb s "Service" then Service else
  if String.eqb s "ServiceAccount" then ServiceAccount else
  if String.eqb s "ServiceEntry" then ServiceEntry else
  if String.eqb s "StatefulSet" then StatefulSet else
  if String.eqb s "Telemetry" then Telemetry else
  if String.eqb s "ValidatingWebhookConfiguration" then ValidatingWebhookConfiguration else
  if String.eqb s "WorkloadEntry" then WorkloadEntry else
  Unknown.

End kind.
Import kind (Kind).

(** ** [ConfigKey] *)

Module ConfigKey.

Record t : Type := mk { Kind : kind.Kind; Name : string; Namespace : string }.

#[global] Instance eq_dec : EqDecision t.
Proof. solve_decision. Defined.

#[global] Instance countable : Countable t.
Proof.
  refine (inj_countable' (fun k => (Kind k, Name k, Namespace k))
    (fun '(a, b, c) => mk a b c) _).
  by intros [].
Defined.

(** The zero value of the struct. *)
Definition zero : t := mk kind.Unknown "" "".

Definition String (key : t) : string :=
  kind.String (Kind key) +:+ "/" +:+ Namespace key +:+ "/" +:+ Name key.

(** The bytes [HashCode] feeds to its digest, in the order of the writes. *)
Definition hash_input (key : t) : string :=
  String.String (Ascii.ascii_of_nat (kind.Kind_byte (Kind key)))
    ("/" +:+ Namespace key +:+ "/" +:+ Name key).

(** The digest is xxhash, a library: [sum64] stands for the value it gives to
    what was written. *)
Definition HashCode (sum64 : string -> Z) (key : t) : Z := sum64 (hash_input key).

End ConfigKey.

Notation ConfigKey := ConfigKey.t.

Definition HasConfigsOfKind (configs : nset ConfigKey) (k : Kind) : bool :=
  existsb (fun c => bool_decide (ConfigKey.Kind c = k)) (GoSet.UnsortedList configs).

Lemma HasConfigsOfKind_spec configs k :
  HasConfigsOfKind configs k = true <->
  exists c, c ∈ nset_elems configs /\ ConfigKey.Kind c = k.
Proof.
  unfold HasConfigsOfKind. rewrite existsb_elem.
  setoid_rewrite GoSet.UnsortedList_elem. by setoid_rewrite bool_decide_eq_true.
Qed.

(** [kind.FromString] is the inverse of [Kind.String]: every kind is
    recovered from its printed name. *)
Theorem kind_string_roundtrip k : kind.FromString (kind.String k) = k.
Proof. by destruct k. Qed.

Lemma Kind_byte_lt k : (kind.Kind_byte k < 256)%nat.
Proof. destruct k; simpl; lia. Qed.

Lemma Kind_byte_inj k k' : kind.Kind_byte k = kind.Kind_byte k' -> k = k'.
Proof.
  intros E. pose proof (kind.all_kinds_byte k) as E1.
  pose proof (kind.all_kinds_byte k') as E2. congruence.
Qed.

(** The separators in [ConfigKey.HashCode] do what its comment says:
    two keys whose namespaces hold no slash and that feed the digest the same
    bytes are the same key, so only the digest itself can collide. *)
Theorem hash_input_injective (a b : ConfigKey) :
  no_char "/" (ConfigKey.Namespace a) = true ->
  no_char "/" (ConfigKey.Namespace b) = true ->
  ConfigKey.hash_input a = ConfigKey.hash_input b -> a = b.
Proof.
  destruct a as [ka na nsa], b as [kb nb nsb]. simpl. intros Ha Hb E.
  unfold ConfigKey.hash_input in E. simpl in E. injection E as Ek E.
  apply (f_equal Ascii.nat_of_ascii) in Ek.
  rewrite !Ascii.nat_ascii_embedding in Ek by apply Kind_byte_lt.
  apply Kind_byte_inj in Ek as ->.
  apply (f_equal (fun s => cut_at s "/")) in E.
  rewrite !(cut_at_app _ "/") in E by done. by simplify_eq.
Qed.

Lemma hash_input_injective_witness :
  ConfigKey.hash_input (ConfigKey.mk kind.Service "a" "ns")
  = ConfigKey.hash_input (ConfigKey.mk kind.Service "a" "ns") ->
  ConfigKey.mk kind.Service "a" "ns" = ConfigKey.mk kind.Service "a" "ns".
Proof. apply hash_input_injective; reflexivity. Defined.
