(* ===== verification/PushRequest.v ===== *)
(** * Push requests

    [dubbod/discovery/pkg/model/push_context.go]: the request that carries a
    change from the registries to the connections, its trigger statistics, and
    the merge the debouncer and the push queue apply to it.  A request is a
    value here: [Merge] writes to the receiver, which its callers do not share,
    and [CopyMerge] copies what it returns. *)

From S2P Require Import Prelude GoStrings GoSets ConfigKeys.

(** ** Trigger reasons *)

Definition TriggerReason : Type := string.
Definition UnknownTrigger : TriggerReason := "unknown".
Definition ProxyRequest : TriggerReason := "proxyrequest".
Definition GlobalUpdate : TriggerReason := "global".
Definition HeadlessEndpointUpdate : TriggerReason := "headlessendpoint".
Definition EndpointUpdate : TriggerReason := "endpoint".
Definition ProxyUpdate : TriggerReason := "proxy".
Definition ConfigUpdate : TriggerReason := "config".
Definition DependentResource : TriggerReason := "depdendentresource".

(** [ReasonStats] is a nilable map from reasons to [int] counters. *)
Module ReasonStats.

Notation t := (nmap TriggerReason Z).

(** [r[reason]], 0 when absent. *)
Definition get (r : t) (reason : TriggerReason) : Z :=
  default 0 (nmap_get r !! reason).

(** [r[reason] += count] on a map that is not nil. *)
Definition bump (r : gmap TriggerReason Z) (reason : TriggerReason) (count : Z)
  : gmap TriggerReason Z :=
  <[reason := wrap_s64 (default 0 (r !! reason) + count)]> r.

Definition Has (r : t) (reason : TriggerReason) : bool := 0 <? get r reason.

Definition Add (r : t) (reason : TriggerReason) : res t :=
  match r with
  | Some m => Ok (Some (bump m reason 1))
  | None => Panic "assignment to entry in nil map"
  end.

Fixpoint AddAll (r : t) (reasons : list TriggerReason) : res t :=
  match reasons with
  | [] => Ok r
  | reason :: reasons => r ← Add r reason; AddAll r reasons
  end.

Definition NewReasonStats (reasons : list TriggerReason) : t :=
  match AddAll (Some ∅) reasons with Ok r => r | _ => None end.

Definition Merge (r other : t) : res t :=
  match r, map_to_list (nmap_get other) with
  | r, [] => Ok r
  | None, _ => Panic "assignment to entry in nil map"
  | Some m, l => Ok (Some (fold_left (fun m '(reason, count) => bump m reason count) l m))
  end.

Definition Len (r : t) : nat := size (nmap_get r).

Definition Copy (r : t) : t :=
  if (Len r =? 0)%nat then None else Some (nmap_get r).

Definition Count (r : t) : Z :=
  fold_left (fun acc '(_, count) => wrap_s64 (acc + count)) (map_to_list (nmap_get r)) 0.

(** The pointwise sum a merge computes. *)
Definition sum (a b : gmap TriggerReason Z) : gmap TriggerReason Z :=
  merge (fun x y => match x, y with
    | x, None => x
    | x, Some c => Some (wrap_s64 (default 0 x + c)) end) a b.

Lemma lookup_sum a b k :
  sum a b !! k = match b !! k with
    | None => a !! k
    | Some c => Some (wrap_s64 (default 0 (a !! k) + c)) end.
Proof. unfold sum. rewrite lookup_merge. by destruct (a !! k), (b !! k). Qed.

Lemma bump_loop l m :
  NoDup l.*1 ->
  fold_left (fun m '(reason, count) => bump m reason count) l m
  = sum m (list_to_map l).
Proof.
  revert m; induction l as [|[k c] l IH]; intros m; simpl.
  - intros _. apply map_eq; intros i. by rewrite lookup_sum, lookup_empty.
  - intros [Hk Hnd]%NoDup_cons. rewrite IH by done. apply map_eq; intros i.
    rewrite !lookup_sum. unfold bump.
    destruct (decide (k = i)) as [->|Hne].
    + rewrite !lookup_insert_eq. by rewrite not_elem_of_list_to_map_1.
    + by rewrite !lookup_insert_ne.
Qed.

Lemma reasons_Merge_some m other : Merge (Some m) other = Ok (Some (sum m (nmap_get other))).
Proof.
  unfold Merge.
  assert (E : fold_left (fun m '(reason, count) => bump m reason count)
      (map_to_list (nmap_get other)) m = sum m (nmap_get other)).
  { rewrite bump_loop by apply NoDup_fst_map_to_list. by rewrite list_to_map_to_list. }
  destruct (map_to_list (nmap_get other)) as [|p l]; by rewrite <- E.
Qed.

Lemma sum_empty_r a : sum a ∅ = a.
Proof. apply map_eq; intros i. by rewrite lookup_sum, lookup_empty. Qed.

Lemma sum_assoc a b c : sum (sum a b) c = sum a (sum b c).
Proof.
  apply map_eq; intros i. rewrite !lookup_sum.
  destruct (a !! i), (b !! i), (c !! i); simpl; try done; f_equal;
    rewrite ?wrap_s64_add_l, ?wrap_s64_add_r; f_equal; lia.
Qed.

Lemma Len_zero r : Len r = 0%nat <-> nmap_get r = ∅.
Proof. apply map_size_empty_iff. Qed.

End ReasonStats.

(** ** Requests *)

Record ResourceDelta : Type := mkDelta {
  Subscribed : nset string;
  Unsubscribed : nset string
}.

Definition emptyResourceDelta : ResourceDelta := mkDelta None None.

Definition ResourceDelta_IsEmpty (rd : ResourceDelta) : bool :=
  (nset_len (Subscribed rd) =? 0)%nat && (nset_len (Unsubscribed rd) =? 0)%nat.

(** [Push] is the address of a [PushContext]. *)
Record PushRequest : Type := mkRequest {
  Reason : ReasonStats.t;
  ConfigsUpdated : nset ConfigKey;
  AddressesUpdated : nset string;
  Forced : bool;
  Full : bool;
  Push : option ptr;
  Start : Time;
  Delta : ResourceDelta
}.

#[global] Instance ResourceDelta_eq_dec : EqDecision ResourceDelta.
Proof. solve_decision. Defined.
#[global] Instance PushRequest_eq_dec : EqDecision PushRequest.
Proof. solve_decision. Defined.

(** [&PushRequest{}] *)
Definition zeroRequest : PushRequest :=
  mkRequest None None None false false None time_zero emptyResourceDelta.

Definition copyResourceDelta (delta : ResourceDelta) : ResourceDelta :=
  {| Subscribed := match Subscribed delta with
       | Some _ => GoSet.Copy (Subscribed delta) | None => None end;
     Unsubscribed := match Unsubscribed delta with
       | Some _ => GoSet.Copy (Unsubscribed delta) | None => None end |}.

Definition mergeResourceDelta (first second : ResourceDelta) : res ResourceDelta :=
  let out := copyResourceDelta first in
  sub ← (if (0 <? nset_len (Subscribed second))%nat then
           match Subscribed out with
           | None => Ok (GoSet.Copy (Subscribed second))
           | Some _ => GoSet.Merge (Subscribed out) (Subscribed second)
           end
         else Ok (Subscribed out));
  unsub ← (if (0 <? nset_len (Unsubscribed second))%nat then
             match Unsubscribed out with
             | None => Ok (GoSet.Copy (Unsubscribed second))
             | Some _ => GoSet.Merge (Unsubscribed out) (Unsubscribed second)
             end
           else Ok (Unsubscribed out));
  Ok {| Subscribed := sub; Unsubscribed := unsub |}.

(** [func (pr *PushRequest) Merge(other *PushRequest)]: nil receivers and
    arguments are [None]. *)
Definition Merge (pr other : option PushRequest) : res (option PushRequest) :=
  match pr, other with
  | None, _ => Ok other
  | _, None => Ok pr
  | Some pr, Some other =>
      reason ← (if (0 <? ReasonStats.Len (Reason other))%nat then
                  let r := match Reason pr with None => Some ∅ | Some m => Some m end in
                  ReasonStats.Merge r (Reason other)
                else Ok (Reason pr));
      let full := Full pr || Full other in
      let forced := Forced pr || Forced other in
      let push := match Push other with Some p => Some p | None => Push pr end in
      let start := if IsZero (Start pr) then Start other else Start pr in
      configs ← match ConfigsUpdated pr with
                | None => Ok match ConfigsUpdated other with
                             | Some _ => GoSet.Copy (ConfigsUpdated other)
                             | None => None end
                | Some _ => GoSet.Merge (ConfigsUpdated pr) (ConfigsUpdated other)
                end;
      addresses ← match AddressesUpdated pr with
                  | None => Ok match AddressesUpdated other with
                               | Some _ => GoSet.Copy (AddressesUpdated other)
                               | None => None end
                  | Some _ => GoSet.Merge (AddressesUpdated pr) (AddressesUpdated other)
                  end;
      delta ← mergeResourceDelta (Delta pr) (Delta other);
      Ok (Some {| Reason := reason; ConfigsUpdated := configs;
                  AddressesUpdated := addresses; Forced := forced; Full := full;
                  Push := push; Start := start; Delta := delta |})
  end.

Definition Copy (pr : option PushRequest) : option PushRequest :=
  match pr with
  | None => None
  | Some pr =>
      Some {| Reason := ReasonStats.Copy (Reason pr);
              ConfigsUpdated := match ConfigsUpdated pr with
                | Some _ => GoSet.Copy (ConfigsUpdated pr) | None => None end;
              AddressesUpdated := match AddressesUpdated pr with
                | Some _ => GoSet.Copy (AddressesUpdated pr) | None => None end;
              Forced := Forced pr; Full := Full pr; Push := Push pr;
              Start := Start pr; Delta := copyResourceDelta (Delta pr) |}
  end.

Definition CopyMerge (pr other : option PushRequest) : res (option PushRequest) :=
  match pr, other with
  | None, _ => Ok (Copy other)
  | _, None => Ok (Copy pr)
  | Some _, Some _ => let merged := Copy pr in Merge merged other
  end.

Definition IsProxyUpdate (pr : PushRequest) : bool :=
  ReasonStats.Has (Reason pr) ProxyUpdate.

Definition IsRequest (pr : PushRequest) : bool :=
  (ReasonStats.Len (Reason pr) =? 1)%nat && ReasonStats.Has (Reason pr) ProxyRequest.

Definition PushReason (pr : PushRequest) : string :=
  if IsRequest pr then " request" else "".

(** [ConfigChange], what the configuration side sees of a request. *)
Module ConfigChange.
Record t : Type := mk {
  ConfigsUpdated : nset ConfigKey;
  AddressesUpdated : nset string;
  Full : bool;
  Forced : bool;
  EndpointsChanged : bool;
  Global : bool
}.
End ConfigChange.

Definition toConfigChange (req : option PushRequest) : option ConfigChange.t :=
  match req with
  | None => None
  | Some req =>
      Some {| ConfigChange.ConfigsUpdated := ConfigsUpdated req;
              ConfigChange.AddressesUpdated := AddressesUpdated req;
              ConfigChange.Full := Full req;
              ConfigChange.Forced := Forced req;
              ConfigChange.EndpointsChanged :=
                ReasonStats.Has (Reason req) EndpointUpdate
                || ReasonStats.Has (Reason req) HeadlessEndpointUpdate;
              ConfigChange.Global := ReasonStats.Has (Reason req) GlobalUpdate |}
  end.

(** ** The merge as an operation on values *)

Section set_join.
Context {T : Type} `{Countable T}.

(** Sets of a request join, nil being the absent set. *)
Definition join (a b : nset T) : nset T :=
  match a, b with
  | None, b => b
  | a, None => a
  | Some a, Some b => Some (a ∪ b)
  end.

(** Sets of a delta join, an empty addition being ignored. *)
Definition join_delta (a b : nset T) : nset T :=
  if (0 <? nset_len b)%nat then Some (nset_elems a ∪ nset_elems b) else a.

Lemma join_assoc a b c : join (join a b) c = join a (join b c).
Proof. destruct a, b, c; simpl; try done. by rewrite assoc_L by apply _. Qed.

Lemma nset_elems_join a b : nset_elems (join a b) = nset_elems a ∪ nset_elems b.
Proof. destruct a, b; simpl; set_solver. Qed.

Lemma nset_elems_join_delta a b :
  nset_elems (join_delta a b) = nset_elems a ∪ nset_elems b.
Proof.
  unfold join_delta. destruct (Nat.ltb_spec 0 (nset_len b)) as [|Hb]; simpl; [done|].
  unfold nset_len in Hb. assert (nset_elems b = ∅) as ->; [|set_solver].
  apply size_empty_iff_L; lia.
Qed.

Lemma join_delta_len a b :
  (0 <? nset_len (join_delta a b))%nat = (0 <? nset_len a)%nat || (0 <? nset_len b)%nat.
Proof.
  apply eq_true_iff_eq. rewrite orb_true_iff, !Nat.ltb_lt, !GoSet.nset_len_pos.
  rewrite nset_elems_join_delta.
  destruct (decide (nset_elems a = ∅)); set_solver.
Qed.

Lemma join_delta_assoc a b c :
  join_delta (join_delta a b) c = join_delta a (join_delta b c).
Proof.
  unfold join_delta at 1 3. rewrite join_delta_len, !nset_elems_join_delta.
  destruct (0 <? nset_len c)%nat eqn:Hc; destruct (0 <? nset_len b)%nat eqn:Hb; simpl.
  - f_equal; set_solver.
  - f_equal; set_solver.
  - unfold join_delta. rewrite Hb.
    apply Nat.ltb_ge in Hc. f_equal.
    assert (nset_elems c = ∅) as ->; [apply size_empty_iff_L; unfold nset_len in Hc; lia|].
    set_solver.
  - unfold join_delta. by rewrite Hb.
Qed.
End set_join.

(** Two requests merged: triggers add up, flags and change sets accumulate,
    the later push context and the earlier start time win. *)
Definition merge_requests (a b : PushRequest) : PushRequest :=
  {| Reason := if (0 <? ReasonStats.Len (Reason b))%nat
               then Some (ReasonStats.sum (nmap_get (Reason a)) (nmap_get (Reason b)))
               else ReasonStats.Copy (Reason a);
     ConfigsUpdated := join (ConfigsUpdated a) (ConfigsUpdated b);
     AddressesUpdated := join (AddressesUpdated a) (AddressesUpdated b);
     Forced := Forced a || Forced b;
     Full := Full a || Full b;
     Push := match Push b with Some p => Some p | None => Push a end;
     Start := if IsZero (Start a) then Start b else Start a;
     Delta := {| Subscribed := join_delta (Subscribed (Delta a)) (Subscribed (Delta b));
                 Unsubscribed := join_delta (Unsubscribed (Delta a)) (Unsubscribed (Delta b)) |} |}.

Lemma copy_set_id `{Countable T} (s : nset T) :
  match s with Some _ => GoSet.Copy s | None => None end = s.
Proof. destruct s; [apply GoSet.Copy_eq|done]. Qed.

Lemma copyResourceDelta_id d : copyResourceDelta d = d.
Proof. destruct d. unfold copyResourceDelta; simpl. by rewrite !copy_set_id. Qed.

(** Copying keeps every field of a request, an empty statistics map becoming
    nil. *)
Lemma request_Copy_eq pr :
  Copy (Some pr) = Some {| Reason := ReasonStats.Copy (Reason pr);
    ConfigsUpdated := ConfigsUpdated pr; AddressesUpdated := AddressesUpdated pr;
    Forced := Forced pr; Full := Full pr; Push := Push pr; Start := Start pr;
    Delta := Delta pr |}.
Proof. unfold Copy. by rewrite !copy_set_id, copyResourceDelta_id. Qed.

Lemma join_delta_code `{Countable T} (a b : nset T) :
  (if (0 <? nset_len b)%nat then
     match a with None => Ok (GoSet.Copy b) | Some _ => GoSet.Merge a b end
   else Ok a) = Ok (join_delta a b).
Proof.
  unfold join_delta. destruct (0 <? nset_len b)%nat; [|done].
  destruct a as [a|]; [apply GoSet.Merge_some|].
  rewrite GoSet.Copy_eq. simpl. do 2 f_equal. set_solver.
Qed.

Lemma mergeResourceDelta_eq a b :
  mergeResourceDelta a b
  = Ok {| Subscribed := join_delta (Subscribed a) (Subscribed b);
          Unsubscribed := join_delta (Unsubscribed a) (Unsubscribed b) |}.
Proof.
  unfold mergeResourceDelta. rewrite copyResourceDelta_id.
  by rewrite !join_delta_code.
Qed.

Lemma join_code `{Countable T} (a b : nset T) :
  match a with
  | None => Ok match b with Some _ => GoSet.Copy b | None => None end
  | Some _ => GoSet.Merge a b
  end = Ok (join a b).
Proof.
  rewrite copy_set_id. destruct a as [a|]; [|by destruct b].
  rewrite GoSet.Merge_some. destruct b; simpl; [done|]. do 2 f_equal. set_solver.
Qed.

Lemma nmap_get_Copy r : nmap_get (ReasonStats.Copy r) = nmap_get r.
Proof.
  unfold ReasonStats.Copy. destruct (Nat.eqb_spec (ReasonStats.Len r) 0) as [E|]; [|done].
  by apply ReasonStats.Len_zero in E.
Qed.

Lemma reason_code (r other : ReasonStats.t) :
  (if (0 <? ReasonStats.Len other)%nat then
     ReasonStats.Merge (match r with None => Some ∅ | Some m => Some m end) other
   else Ok r)
  = Ok (if (0 <? ReasonStats.Len other)%nat
        then Some (ReasonStats.sum (nmap_get r) (nmap_get other)) else r).
Proof.
  destruct (0 <? ReasonStats.Len other)%nat; [|done].
  destruct r; by rewrite ReasonStats.reasons_Merge_some.
Qed.

(** [Merge] of two requests, with the receiver's statistics kept as they are
    when there is nothing to add. *)
Lemma Merge_eq a b :
  Merge (Some a) (Some b) =
  Ok (Some {| Reason := if (0 <? ReasonStats.Len (Reason b))%nat
                then Some (ReasonStats.sum (nmap_get (Reason a)) (nmap_get (Reason b)))
                else Reason a;
     ConfigsUpdated := join (ConfigsUpdated a) (ConfigsUpdated b);
     AddressesUpdated := join (AddressesUpdated a) (AddressesUpdated b);
     Forced := Forced a || Forced b; Full := Full a || Full b;
     Push := match Push b with Some p => Some p | None => Push a end;
     Start := if IsZero (Start a) then Start b else Start a;
     Delta := {| Subscribed := join_delta (Subscribed (Delta a)) (Subscribed (Delta b));
                 Unsubscribed := join_delta (Unsubscribed (Delta a)) (Unsubscribed (Delta b)) |} |}).
Proof.
  unfold Merge. cbv zeta. rewrite reason_code. cbn [mbind res_bind].
  rewrite !join_code. cbn [mbind res_bind]. by rewrite mergeResourceDelta_eq.
Qed.

(** [CopyMerge] never panics: it computes [merge_requests]. *)
Lemma CopyMerge_eq a b : CopyMerge (Some a) (Some b) = Ok (Some (merge_requests a b)).
Proof.
  unfold CopyMerge. rewrite request_Copy_eq, Merge_eq. unfold merge_requests. simpl.
  by rewrite nmap_get_Copy.
Qed.

Lemma merged_len a b :
  (0 <? ReasonStats.Len (Reason (merge_requests a b)))%nat
  = (0 <? ReasonStats.Len (Reason a))%nat || (0 <? ReasonStats.Len (Reason b))%nat.
Proof.
  unfold merge_requests; simpl.
  assert (Hpos : forall r, (0 <? ReasonStats.Len r)%nat = true <-> nmap_get r <> ∅).
  { intros r. rewrite Nat.ltb_lt, <- ReasonStats.Len_zero. lia. }
  apply eq_true_iff_eq. rewrite orb_true_iff, !Hpos.
  destruct (0 <? ReasonStats.Len (Reason b))%nat eqn:Hb; simpl.
  - apply Hpos in Hb. split; [by right|]. intros _ E. apply Hb.
    apply map_eq; intros i. rewrite lookup_empty.
    pose proof (ReasonStats.lookup_sum (nmap_get (Reason a)) (nmap_get (Reason b)) i) as Hl.
    rewrite E, lookup_empty in Hl. by destruct (nmap_get (Reason b) !! i).
  - rewrite nmap_get_Copy. split; [by left|]. intros [?|Hb']; [done|].
    apply Hpos in Hb'. congruence.
Qed.

Lemma merged_reason a b :
  nmap_get (Reason (merge_requests a b))
  = ReasonStats.sum (nmap_get (Reason a)) (nmap_get (Reason b)).
Proof.
  unfold merge_requests; simpl.
  destruct (Nat.ltb_spec 0 (ReasonStats.Len (Reason b))); simpl; [done|].
  rewrite nmap_get_Copy. assert (nmap_get (Reason b) = ∅) as ->
    by (apply ReasonStats.Len_zero; lia). by rewrite ReasonStats.sum_empty_r.
Qed.

Lemma merge_requests_assoc a b c :
  merge_requests (merge_requests a b) c = merge_requests a (merge_requests b c).
Proof.
  pose proof (merged_len b c) as Hbc.
  unfold merge_requests at 1 3. f_equal.
  - rewrite Hbc, !merged_reason, ReasonStats.sum_assoc.
    destruct (0 <? ReasonStats.Len (Reason c))%nat eqn:Hc; rewrite ?orb_true_r; [done|].
    rewrite orb_false_r. unfold merge_requests at 1; simpl.
    assert (nmap_get (Reason c) = ∅) as ->
      by (apply ReasonStats.Len_zero; apply Nat.ltb_ge in Hc; lia).
    rewrite ReasonStats.sum_empty_r.
    destruct (0 <? ReasonStats.Len (Reason b))%nat eqn:Hb.
    + unfold ReasonStats.Copy. pose proof (merged_len a b) as Hl. rewrite Hb, orb_true_r in Hl.
      unfold merge_requests in Hl; simpl in Hl. rewrite Hb in Hl. apply Nat.ltb_lt in Hl.
      destruct (Nat.eqb_spec (ReasonStats.Len (Some
        (ReasonStats.sum (nmap_get (Reason a)) (nmap_get (Reason b))))) 0); [lia|done].
    + unfold ReasonStats.Copy at 1.
      destruct (Nat.eqb_spec (ReasonStats.Len (ReasonStats.Copy (Reason a))) 0) as [E|E].
      * apply ReasonStats.Len_zero in E. rewrite nmap_get_Copy in E.
        unfold ReasonStats.Copy. by apply ReasonStats.Len_zero in E as ->.
      * rewrite nmap_get_Copy. unfold ReasonStats.Copy in *.
        by destruct (ReasonStats.Len (Reason a) =? 0)%nat.
  - apply join_assoc.
  - apply join_assoc.
  - simpl. by rewrite orb_assoc.
  - simpl. by rewrite orb_assoc.
  - simpl. by destruct (Push a), (Push b), (Push c).
  - simpl. destruct (IsZero (Start a)) eqn:Ha; [done|]. by rewrite Ha.
  - simpl. by rewrite !join_delta_assoc.
Qed.

(** Merging loses nothing: [CopyMerge] of two requests returns a
    request (no panic) that is full or forced when either is, carries the
    changed configurations, addresses and resource deltas of both, adds up
    every trigger counter, and uses the later push context and the earlier
    start time. *)
Theorem CopyMerge_accumulates a b :
  exists m, CopyMerge (Some a) (Some b) = Ok (Some m) /\
  Full m = Full a || Full b /\ Forced m = Forced a || Forced b /\
  nset_elems (ConfigsUpdated m) = nset_elems (ConfigsUpdated a) ∪ nset_elems (ConfigsUpdated b) /\
  nset_elems (AddressesUpdated m) = nset_elems (AddressesUpdated a) ∪ nset_elems (AddressesUpdated b) /\
  nset_elems (Subscribed (Delta m))
    = nset_elems (Subscribed (Delta a)) ∪ nset_elems (Subscribed (Delta b)) /\
  nset_elems (Unsubscribed (Delta m))
    = nset_elems (Unsubscribed (Delta a)) ∪ nset_elems (Unsubscribed (Delta b)) /\
  (forall r, nmap_get (Reason b) !! r <> None ->
     ReasonStats.get (Reason m) r
     = wrap_s64 (ReasonStats.get (Reason a) r + ReasonStats.get (Reason b) r)) /\
  (forall r, nmap_get (Reason b) !! r = None ->
     ReasonStats.get (Reason m) r = ReasonStats.get (Reason a) r) /\
  Push m = match Push b with Some p => Some p | None => Push a end /\
  Start m = if IsZero (Start a) then Start b else Start a.
Proof.
  exists (merge_requests a b). rewrite CopyMerge_eq.
  repeat split; try (simpl; rewrite ?nset_elems_join, ?nset_elems_join_delta; done);
    intros r Hr; unfold ReasonStats.get; rewrite merged_reason, ReasonStats.lookup_sum.
  - by destruct (nmap_get (Reason b) !! r).
  - by rewrite Hr.
Qed.

(** Merging is associative on requests, so how a sequence of updates is
    grouped on its way to a connection (in the debouncer, then in the queue)
    does not change the request that is pushed. *)
Theorem CopyMerge_assoc a b c :
  (ab ← CopyMerge (Some a) (Some b); CopyMerge ab (Some c))
  = (bc ← CopyMerge (Some b) (Some c); CopyMerge (Some a) bc).
Proof.
  rewrite !CopyMerge_eq. cbn [mbind res_bind]. by rewrite !CopyMerge_eq, merge_requests_assoc.
Qed.
