(* ===== verification/PushQueue.v ===== *)
(** * The push queue

    [dubbod/discovery/pkg/xds/pushqueue.go].  The queue holds at most one entry
    per connection; a request for a connection that is waiting is merged into
    its entry, and a request for a connection that is being pushed to is kept
    aside until [MarkDone].  Each method runs under the queue's lock, so a
    method call is one step; [Dequeue] waits on the condition variable while
    its guard is false, which is the step not being enabled. *)

From S2P Require Import Prelude GoStrings GoSets ConfigKeys PushRequest.

Record PushQueue : Type := mkQueue {
  pending : gmap ptr (option PushRequest);
  queue : list ptr;
  processing : gmap ptr (option PushRequest);
  shuttingDown : bool
}.

Definition NewPushQueue : PushQueue := mkQueue ∅ [] ∅ false.

Definition Enqueue (p : PushQueue) (con : ptr) (pushRequest : option PushRequest)
  : res PushQueue :=
  if shuttingDown p then Ok p else
  match processing p !! con with
  | Some request =>
      merged ← CopyMerge request pushRequest;
      Ok {| pending := pending p; queue := queue p;
            processing := <[con := merged]> (processing p);
            shuttingDown := shuttingDown p |}
  | None =>
      match pending p !! con with
      | Some request =>
          merged ← CopyMerge request pushRequest;
          Ok {| pending := <[con := merged]> (pending p); queue := queue p;
                processing := processing p; shuttingDown := shuttingDown p |}
      | None =>
          Ok {| pending := <[con := pushRequest]> (pending p);
                queue := queue p ++ [con];
                processing := processing p; shuttingDown := shuttingDown p |}
      end
  end.

(** The guard of the wait loop. *)
Definition dequeue_ready (p : PushQueue) : bool :=
  negb ((length (queue p) =? 0)%nat && negb (shuttingDown p)).

(** The part after the wait: the connection and its request, or [None] when
    the queue is shut down and drained. *)
Definition Dequeue (p : PushQueue) : PushQueue * option (ptr * option PushRequest) :=
  match queue p with
  | [] => (p, None)
  | con :: rest =>
      let request := default None (pending p !! con) in
      ({| pending := delete con (pending p); queue := rest;
          processing := <[con := None]> (processing p);
          shuttingDown := shuttingDown p |}, Some (con, request))
  end.

Definition MarkDone (p : PushQueue) (con : ptr) : PushQueue :=
  let request := default None (processing p !! con) in
  let processing' := delete con (processing p) in
  match request with
  | Some r =>
      {| pending := <[con := Some r]> (pending p); queue := queue p ++ [con];
         processing := processing'; shuttingDown := shuttingDown p |}
  | None =>
      {| pending := pending p; queue := queue p; processing := processing';
         shuttingDown := shuttingDown p |}
  end.

Definition ShutDown (p : PushQueue) : PushQueue :=
  {| pending := pending p; queue := queue p; processing := processing p;
     shuttingDown := true |}.

Record pushQueueStats : Type := mkStats { Pending : nat; Queued : nat; Processing : nat }.

Definition Stats (p : option PushQueue) : pushQueueStats :=
  match p with
  | None => mkStats 0 0 0
  | Some p => mkStats (size (pending p)) (length (queue p)) (size (processing p))
  end.

(** ** Traces *)

(** One call of a method, with what it returned. *)
Inductive label : Type :=
  | LEnqueue (con : ptr) (r : PushRequest)
  | LDequeue (con : ptr) (r : option PushRequest)
  | LDrained
  | LDone (con : ptr)
  | LShutDown.

Inductive step : PushQueue -> label -> PushQueue -> Prop :=
  | step_enqueue p con r p' :
      Enqueue p con (Some r) = Ok p' -> step p (LEnqueue con r) p'
  | step_dequeue p con r p' :
      dequeue_ready p = true -> Dequeue p = (p', Some (con, r)) ->
      step p (LDequeue con r) p'
  | step_drained p p' :
      dequeue_ready p = true -> Dequeue p = (p', None) -> step p LDrained p'
  | step_done p con : step p (LDone con) (MarkDone p con)
  | step_shutdown p : step p LShutDown (ShutDown p).

Inductive steps : PushQueue -> list label -> PushQueue -> Prop :=
  | steps_nil p : steps p [] p
  | steps_snoc p tr q l q' : steps p tr q -> step q l q' -> steps p (tr ++ [l]) q'.

(** The requests a trace handed to the queue for a connection, in order; calls
    after a shutdown are refused. *)
Fixpoint accepted (open : bool) (con : ptr) (tr : list label) : list PushRequest :=
  match tr with
  | [] => []
  | LShutDown :: tr => accepted false con tr
  | LEnqueue c r :: tr =>
      (if open && bool_decide (c = con) then [r] else []) ++ accepted open con tr
  | _ :: tr => accepted open con tr
  end.

Fixpoint is_open (open : bool) (tr : list label) : bool :=
  match tr with
  | [] => open
  | LShutDown :: tr => is_open false tr
  | _ :: tr => is_open open tr
  end.

(** The requests the queue handed out for a connection, in order. *)
Fixpoint delivered (con : ptr) (tr : list label) : list (option PushRequest) :=
  match tr with
  | [] => []
  | LDequeue c r :: tr => (if bool_decide (c = con) then [r] else []) ++ delivered con tr
  | _ :: tr => delivered con tr
  end.

(** The queue after the calls of a trace, when every call could return what the
    trace says. *)
Definition exec (p : PushQueue) (l : label) : option PushQueue :=
  match l with
  | LEnqueue con r => match Enqueue p con (Some r) with Ok p' => Some p' | _ => None end
  | LDequeue con r =>
      if dequeue_ready p then
        match Dequeue p with
        | (p', Some (c, o)) => if decide (c = con /\ o = r) then Some p' else None
        | _ => None
        end
      else None
  | LDrained =>
      if dequeue_ready p then match Dequeue p with (p', None) => Some p' | _ => None end
      else None
  | LDone con => Some (MarkDone p con)
  | LShutDown => Some (ShutDown p)
  end.

Fixpoint run (p : PushQueue) (tr : list label) : option PushQueue :=
  match tr with
  | [] => Some p
  | l :: tr => p' ← exec p l; run p' tr
  end.

(** ** What a connection is owed *)

(** The single request a batch of requests amounts to. *)
Definition merge_batch (batch : list PushRequest) : option PushRequest :=
  match batch with
  | [] => None
  | r :: rs => Some (fold_left merge_requests rs r)
  end.

(** A request stands for a batch when it is the merge of the batch, up to an
    empty statistics map being nil. *)
Definition stands_for (batch : list PushRequest) (o : option PushRequest) : Prop :=
  exists r m, o = Some r /\ merge_batch batch = Some m /\ Copy (Some r) = Copy (Some m).

(** The queue's view of one connection: idle; waiting with the requests of
    [batch] merged; being pushed to with nothing new; being pushed to with the
    requests of [batch] kept aside. *)
Inductive conn_view (p : PushQueue) (con : ptr) : list PushRequest -> Prop :=
  | view_idle :
      pending p !! con = None -> processing p !! con = None -> con ∉ queue p ->
      conn_view p con []
  | view_waiting batch o :
      pending p !! con = Some o -> stands_for batch o ->
      processing p !! con = None -> con ∈ queue p -> conn_view p con batch
  | view_busy :
      pending p !! con = None -> processing p !! con = Some None -> con ∉ queue p ->
      conn_view p con []
  | view_busy_owed batch o :
      pending p !! con = None -> processing p !! con = Some o -> stands_for batch o ->
      con ∉ queue p -> conn_view p con batch.

(** A connection still has work in the queue. *)
Definition outstanding (p : PushQueue) (con : ptr) : bool :=
  match pending p !! con, processing p !! con with
  | Some (Some _), _ | _, Some (Some _) => true
  | _, _ => false
  end.

(** ** Lemmas *)

Lemma exec_step p l p' : exec p l = Some p' -> step p l p'.
Proof.
  destruct l; simpl; intros H; branch_in H; simplify_eq; try (by constructor).
  all: match goal with H : _ /\ _ |- _ => destruct H; subst end; by constructor.
Qed.

Lemma run_steps_from p0 pre p tr p' :
  steps p0 pre p -> run p tr = Some p' -> steps p0 (pre ++ tr) p'.
Proof.
  revert pre p; induction tr as [|l tr IH]; intros pre p Hs; simpl.
  { intros [= <-]. by rewrite app_nil_r. }
  intros (q & Hq%exec_step & Hr)%bind_Some. rewrite cons_middle, app_assoc.
  eapply IH; [|done]. by econstructor.
Qed.

Lemma run_steps p tr p' : run p tr = Some p' -> steps p tr p'.
Proof. apply (run_steps_from p []). constructor. Qed.

Definition copy_merge (a b : option PushRequest) : option PushRequest :=
  match a, b with
  | None, _ => Copy b
  | _, None => Copy a
  | Some a, Some b => Some (merge_requests a b)
  end.

Lemma CopyMerge_total a b : CopyMerge a b = Ok (copy_merge a b).
Proof. destruct a as [a|], b as [b|]; try done. apply CopyMerge_eq. Qed.

Lemma Copy_fields a b :
  Copy (Some a) = Copy (Some b) ->
  ReasonStats.Copy (Reason a) = ReasonStats.Copy (Reason b) /\
  ConfigsUpdated a = ConfigsUpdated b /\ AddressesUpdated a = AddressesUpdated b /\
  Forced a = Forced b /\ Full a = Full b /\ Push a = Push b /\ Start a = Start b /\
  Delta a = Delta b.
Proof. rewrite !request_Copy_eq. intros H; injection H as H1 H2 H3 H4 H5 H6 H7 H8. done. Qed.

(** Merging looks at its receiver only up to a copy. *)
Lemma merge_requests_copy a a' b :
  Copy (Some a) = Copy (Some a') -> merge_requests a b = merge_requests a' b.
Proof.
  intros (Hr & H1 & H2 & H3 & H4 & H5 & H6 & H7)%Copy_fields.
  pose proof (f_equal nmap_get Hr) as Hr'. rewrite !nmap_get_Copy in Hr'.
  unfold merge_requests. by rewrite Hr, Hr', H1, H2, H3, H4, H5, H6, H7.
Qed.

Lemma Copy_idemp o : Copy (Copy o) = Copy o.
Proof.
  destruct o as [r|]; [|done]. rewrite !request_Copy_eq. simpl. do 2 f_equal.
  unfold ReasonStats.Copy at 1.
  destruct (Nat.eqb_spec (ReasonStats.Len (ReasonStats.Copy (Reason r))) 0) as [E|E].
  - apply ReasonStats.Len_zero in E. rewrite nmap_get_Copy in E.
    unfold ReasonStats.Copy. by apply ReasonStats.Len_zero in E as ->.
  - rewrite nmap_get_Copy. unfold ReasonStats.Copy in *.
    by destruct (ReasonStats.Len (Reason r) =? 0)%nat.
Qed.

Lemma stands_for_single r : stands_for [r] (Some r).
Proof. by exists r, r. Qed.

Lemma stands_for_copy r : stands_for [r] (Copy (Some r)).
Proof.
  rewrite request_Copy_eq. eexists _, r. split; [done|]. split; [done|].
  rewrite <- request_Copy_eq. by rewrite Copy_idemp.
Qed.

Lemma stands_for_snoc batch o r :
  stands_for batch o -> stands_for (batch ++ [r]) (copy_merge o (Some r)).
Proof.
  intros (a & m & -> & Hm & Hc). destruct batch as [|b batch]; [done|].
  simpl in Hm. injection Hm as <-. eexists _, _. split; [done|].
  split; [simpl; by rewrite fold_left_app|].
  cbn [copy_merge fold_left]. by rewrite (merge_requests_copy _ _ _ Hc).
Qed.

Lemma stands_for_nonempty batch o : stands_for batch o -> batch <> [] /\ exists r, o = Some r.
Proof. intros (r & m & -> & Hm & _). split; [by destruct batch|eauto]. Qed.

#[export] Hint Resolve stands_for_single stands_for_copy stands_for_snoc : dubbo.

(** Two queues that agree on a connection have the same view of it. *)
Lemma conn_view_frame p p' con batch :
  conn_view p con batch ->
  pending p' !! con = pending p !! con -> processing p' !! con = processing p !! con ->
  (con ∈ queue p' <-> con ∈ queue p) -> conn_view p' con batch.
Proof.
  intros Hv Hpe Hpr Hq. destruct Hv.
  - apply view_idle; [congruence..|tauto].
  - eapply view_waiting; [by rewrite Hpe|done|congruence|tauto].
  - apply view_busy; [congruence..|tauto].
  - eapply view_busy_owed; [by rewrite Hpe|by rewrite Hpr|done|tauto].
Qed.

(** The batch each connection is owed after a step. *)
Definition owed_after (open : bool) (l : label) (con : ptr) (batch : list PushRequest)
  : list PushRequest :=
  match l with
  | LEnqueue c r => if open && bool_decide (c = con) then batch ++ [r] else batch
  | LDequeue c _ => if bool_decide (c = con) then [] else batch
  | _ => batch
  end.

Lemma Enqueue_view p c r p' con batch :
  Enqueue p c (Some r) = Ok p' -> conn_view p con batch ->
  conn_view p' con (owed_after (negb (shuttingDown p)) (LEnqueue c r) con batch).
Proof.
  unfold Enqueue, owed_after. destruct (shuttingDown p); simpl; [by intros [= <-]|].
  intros HE Hv. case_bool_decide as Hc.
  - subst con. destruct Hv as [Hpe Hpr Hq|batch o Hpe Hs Hpr Hq|Hpe Hpr Hq|batch o Hpe Hpr Hs Hq];
      rewrite Hpr, ?Hpe, ?CopyMerge_total in HE; simpl in HE; simplify_eq.
    + eapply view_waiting; simpl; [by rewrite lookup_insert_eq|auto with dubbo|done|set_solver].
    + eapply view_waiting; simpl; [by rewrite lookup_insert_eq|by apply stands_for_snoc|done|done].
    + eapply view_busy_owed; simpl; [done|by rewrite lookup_insert_eq|apply stands_for_copy|done].
    + eapply view_busy_owed; simpl; [done|by rewrite lookup_insert_eq|by apply stands_for_snoc|done].
  - eapply conn_view_frame; [done|..];
      destruct (processing p !! c); [|destruct (pending p !! c)| |destruct (pending p !! c)
        | |destruct (pending p !! c)];
      rewrite ?CopyMerge_total in HE; simpl in HE; simplify_eq/=;
      rewrite ?lookup_insert_ne by done; try done; set_solver.
Qed.

Lemma Dequeue_view p c o p' con batch :
  Dequeue p = (p', Some (c, o)) -> NoDup (queue p) -> conn_view p con batch ->
  conn_view p' con (owed_after true (LDequeue c o) con batch) /\
  (c = con -> stands_for batch o).
Proof.
  unfold Dequeue, owed_after. destruct (queue p) as [|c' rest] eqn:Hqe; [done|].
  intros ? Hnd Hv; simplify_eq. apply NoDup_cons in Hnd as [Hnin Hnd].
  case_bool_decide as Hc.
  - subst con. destruct Hv as [Hpe Hpr Hq|batch o Hpe Hs Hpr Hq|Hpe Hpr Hq|batch o Hpe Hpr Hs Hq];
      rewrite Hqe in Hq; try set_solver.
    rewrite Hpe. split; [|done].
    apply view_busy; simpl; [by rewrite lookup_delete_eq|by rewrite lookup_insert_eq|done].
  - split; [|done]. eapply conn_view_frame; [done|..]; simpl.
    + by rewrite lookup_delete_ne.
    + by rewrite lookup_insert_ne.
    + rewrite Hqe. set_solver.
Qed.

Lemma MarkDone_view p c con batch :
  conn_view p con batch -> conn_view (MarkDone p c) con batch.
Proof.
  intros Hv. destruct (decide (c = con)) as [->|Hne].
  - unfold MarkDone.
    destruct Hv as [Hpe Hpr Hq|batch o Hpe Hs Hpr Hq|Hpe Hpr Hq|batch o Hpe Hpr Hs Hq];
      rewrite Hpr; simpl.
    + apply view_idle; simpl; [done|by rewrite lookup_delete_eq|done].
    + eapply view_waiting; simpl; [done|done|by rewrite lookup_delete_eq|done].
    + apply view_idle; simpl; [done|by rewrite lookup_delete_eq|done].
    + destruct Hs as (r & m & -> & ? & ?). eapply view_waiting; simpl;
        [by rewrite lookup_insert_eq|by eexists _, _|by rewrite lookup_delete_eq|set_solver].
  - unfold MarkDone. destruct (default None (processing p !! c));
      (eapply conn_view_frame; [done|..]; simpl);
      rewrite ?lookup_insert_ne, ?lookup_delete_ne by done; try done; set_solver.
Qed.

(** ** The invariant of the queue *)

Record inv (p : PushQueue) : Prop := {
  inv_nodup : NoDup (queue p);
  inv_queued : forall con, con ∈ queue p <-> is_Some (pending p !! con);
  inv_exclusive : forall con, con ∈ queue p -> processing p !! con = None
}.

Lemma inv_new : inv NewPushQueue.
Proof.
  split; simpl; [constructor| |]; intros con.
  - rewrite lookup_empty. split; [set_solver|by intros [? ?]].
  - set_solver.
Qed.

Lemma NoDup_snoc {A} (l : list A) x : NoDup l -> x ∉ l -> NoDup (l ++ [x]).
Proof.
  intros ??. apply NoDup_app. split; [done|]. split; [set_solver|]. apply NoDup_singleton.
Qed.

Lemma Enqueue_inv p con o p' : Enqueue p con o = Ok p' -> inv p -> inv p'.
Proof.
  unfold Enqueue. intros HE [Hnd Hq Hex]. destruct (shuttingDown p); [by simplify_eq|].
  destruct (processing p !! con) eqn:Hpr.
  { rewrite CopyMerge_total in HE. simpl in HE. simplify_eq. split; simpl; try done.
    intros c Hc. rewrite lookup_insert_ne; [by apply Hex|]. intros ->. apply Hex in Hc. congruence. }
  destruct (pending p !! con) eqn:Hpe; [rewrite CopyMerge_total in HE|];
    simpl in HE; simplify_eq; split; simpl; try done.
  - intros c. rewrite lookup_insert. case_decide; [|by apply Hq]. subst.
    rewrite Hq. rewrite Hpe. naive_solver.
  - apply NoDup_snoc; [done|]. rewrite Hq, Hpe. by intros [? ?].
  - intros c. rewrite elem_of_app, list_elem_of_singleton, lookup_insert, Hq.
    case_decide; naive_solver.
  - intros c. rewrite elem_of_app, list_elem_of_singleton. naive_solver.
Qed.

Lemma Dequeue_inv p p' o : Dequeue p = (p', o) -> inv p -> inv p'.
Proof.
  unfold Dequeue. intros HD [Hnd Hq Hex].
  destruct (queue p) as [|con rest] eqn:Hqe; [by simplify_eq; split; rewrite ?Hqe|].
  simplify_eq. apply NoDup_cons in Hnd as [Hnin Hnd]. split; simpl; [done|..].
  - intros c. rewrite lookup_delete. case_decide as Hc.
    + subst. split; [done|by intros [? ?]].
    + rewrite <- Hq. set_solver.
  - intros c Hc. rewrite lookup_insert_ne by (intros ->; done). apply Hex. set_solver.
Qed.

Lemma MarkDone_inv p con : inv p -> inv (MarkDone p con).
Proof.
  intros [Hnd Hq Hex]. unfold MarkDone.
  destruct (processing p !! con) as [[r|]|] eqn:Hpr; simpl; split; simpl; try done;
    try (intros c Hc; rewrite lookup_delete; case_decide; [done|by apply Hex]).
  - apply NoDup_snoc; [done|]. intros Hin. apply Hex in Hin. congruence.
  - intros c. rewrite elem_of_app, list_elem_of_singleton, lookup_insert, Hq.
    case_decide; naive_solver.
  - intros c. rewrite elem_of_app, list_elem_of_singleton, lookup_delete.
    case_decide; [done|]. naive_solver.
Qed.

Lemma step_inv p l p' : step p l p' -> inv p -> inv p'.
Proof.
  destruct 1; eauto using Enqueue_inv, Dequeue_inv, MarkDone_inv.
  intros [???]; by split.
Qed.

Lemma steps_inv p tr p' : steps p tr p' -> inv p -> inv p'.
Proof. induction 1; eauto using step_inv. Qed.

Lemma shuttingDown_step p l p' :
  step p l p' -> negb (shuttingDown p') = is_open (negb (shuttingDown p)) [l].
Proof.
  destruct 1 as [p con r p' HE|p con r p' _ HD|p p' _ HD|p con|p]; simpl.
  - unfold Enqueue in HE. destruct (shuttingDown p) eqn:E;
      [simplify_eq; by rewrite E|].
    destruct (processing p !! con); [|destruct (pending p !! con)];
      rewrite ?CopyMerge_total in HE; simpl in HE; simplify_eq/=; by rewrite ?E.
  - unfold Dequeue in HD. destruct (queue p); by simplify_eq.
  - unfold Dequeue in HD. destruct (queue p); by simplify_eq.
  - unfold MarkDone. by destruct (default None (processing p !! con)).
  - done.
Qed.

Lemma is_open_app o tr tr' : is_open o (tr ++ tr') = is_open (is_open o tr) tr'.
Proof. revert o; induction tr as [|[]]; intros; simpl; auto. Qed.

Lemma accepted_app o con tr tr' :
  accepted o con (tr ++ tr') = accepted o con tr ++ accepted (is_open o tr) con tr'.
Proof.
  revert o; induction tr as [|[]]; intros o; simpl; auto.
  by rewrite IHtr, app_assoc.
Qed.

Lemma delivered_app con tr tr' :
  delivered con (tr ++ tr') = delivered con tr ++ delivered con tr'.
Proof. induction tr as [|[]]; simpl; auto. by rewrite IHtr, app_assoc. Qed.

Lemma shuttingDown_steps p tr p' :
  steps p tr p' -> negb (shuttingDown p') = is_open (negb (shuttingDown p)) tr.
Proof.
  induction 1; [done|]. rewrite is_open_app, <- IHsteps. by apply shuttingDown_step.
Qed.

(** What has been accepted for a connection splits into the batches that were
    handed out and the batch it is still owed. *)
Lemma steps_view p tr con :
  steps NewPushQueue tr p ->
  exists batches rest,
    accepted true con tr = concat batches ++ rest /\
    Forall2 stands_for batches (delivered con tr) /\ conn_view p con rest.
Proof.
  intros Hs. remember NewPushQueue as p0 eqn:E0. induction Hs as [p|p tr q l q' Hs IH Hl]; subst.
  { exists [], []. split; [done|]. split; [constructor|].
    apply view_idle; simpl; [apply lookup_empty..|set_solver]. }
  destruct (IH eq_refl) as (batches & rest & Hacc & Hdel & Hv).
  pose proof (steps_inv _ _ _ Hs inv_new) as Hinv.
  pose proof (shuttingDown_steps _ _ _ Hs) as Hopen. simpl in Hopen.
  rewrite accepted_app, delivered_app, Hacc, <- Hopen.
  destruct Hl as [q c r q' HE|q c o q' _ HD|q q' _ HD|q c|q]; simpl.
  - exists batches, (owed_after (negb (shuttingDown q)) (LEnqueue c r) con rest).
    rewrite !app_nil_r. split; [|split; [done|by eapply Enqueue_view]].
    unfold owed_after. destruct (negb (shuttingDown q) && _);
      by rewrite ?app_nil_r, <- ?app_assoc.
  - destruct (Dequeue_view _ _ _ _ con rest HD (inv_nodup _ Hinv) Hv) as [Hv' Hst].
    unfold owed_after in Hv'. rewrite !app_nil_r. case_bool_decide as Hc.
    + exists (batches ++ [rest]), []. split; [rewrite concat_app; simpl; by rewrite !app_nil_r|].
      split; [|done]. apply Forall2_app; [done|]. constructor; [auto|constructor].
    + exists batches, rest. by rewrite app_nil_r.
  - exists batches, rest. rewrite !app_nil_r. split; [done|]. split; [done|].
    unfold Dequeue in HD. by destruct (queue q) eqn:?; simplify_eq.
  - exists batches, rest. rewrite !app_nil_r. eauto using MarkDone_view.
  - exists batches, rest. rewrite !app_nil_r. split; [done|]. split; [done|].
    by eapply conn_view_frame.
Qed.

Lemma conn_view_outstanding p con batch :
  conn_view p con batch -> outstanding p con = true <-> batch <> [].
Proof.
  unfold outstanding.
  destruct 1 as [Hpe Hpr _|batch o Hpe Hs Hpr _|Hpe Hpr _|batch o Hpe Hpr Hs _];
    rewrite Hpe, Hpr; try (split; done).
  - destruct (stands_for_nonempty _ _ Hs) as [? [r ->]]. naive_solver.
  - destruct (stands_for_nonempty _ _ Hs) as [? [r ->]]. naive_solver.
Qed.

(** ** Properties *)

(** C1 No update is lost or repeated: in any run of the queue, the
    requests accepted for a connection are, in order, the concatenation of the
    batches that were handed out for it (each push being the merge of its
    batch) and a remainder, which is empty exactly when the queue holds no
    work for the connection. *)
Theorem pushqueue_no_lost_update tr p con :
  steps NewPushQueue tr p ->
  exists batches rest,
    accepted true con tr = concat batches ++ rest /\
    Forall2 stands_for batches (delivered con tr) /\
    (rest <> [] <-> outstanding p con = true).
Proof.
  intros Hs. destruct (steps_view p tr con Hs) as (batches & rest & ? & ? & Hv).
  exists batches, rest. split; [done|]. split; [done|].
  symmetry. by apply conn_view_outstanding.
Qed.

(** Reachable queues are well formed: a connection is queued at most
    once, is queued exactly when it has a pending request, and is never queued
    while a push to it is in progress. *)
Theorem pushqueue_invariant tr p :
  steps NewPushQueue tr p ->
  NoDup (queue p) /\
  (forall con, con ∈ queue p <-> is_Some (pending p !! con)) /\
  (forall con, con ∈ queue p -> processing p !! con = None).
Proof. intros Hs. destruct (steps_inv _ _ _ Hs inv_new). done. Qed.

Fixpoint dequeues (tr : list label) : nat :=
  match tr with
  | [] => 0
  | LDequeue _ _ :: tr => S (dequeues tr)
  | _ :: tr => dequeues tr
  end.

Lemma dequeues_app tr tr' : dequeues (tr ++ tr') = (dequeues tr + dequeues tr')%nat.
Proof. induction tr as [|[]]; simpl; auto. Qed.

Lemma step_position p l p' i con :
  step p l p' -> queue p !! i = Some con ->
  match l with
  | LDequeue c _ => match i with O => c = con | S j => queue p' !! j = Some con end
  | _ => queue p' !! i = Some con
  end.
Proof.
  destruct 1 as [p c r p' HE|p c r p' _ HD|p p' _ HD|p c|p]; intros Hi.
  - unfold Enqueue in HE. destruct (shuttingDown p); [by simplify_eq|].
    destruct (processing p !! c); [|destruct (pending p !! c)];
      rewrite ?CopyMerge_total in HE; simpl in HE; simplify_eq/=; try done.
    apply lookup_app_l_Some, Hi.
  - unfold Dequeue in HD. destruct (queue p); [done|]. simplify_eq/=.
    by destruct i; simplify_eq/=.
  - unfold Dequeue in HD. by destruct (queue p); simplify_eq.
  - unfold MarkDone. destruct (default None (processing p !! c)); simpl; [|done].
    apply lookup_app_l_Some, Hi.
  - done.
Qed.

Lemma steps_position p tr p' i con :
  steps p tr p' -> queue p !! i = Some con ->
  (exists r, LDequeue con r ∈ tr) \/
  (dequeues tr <= i)%nat /\ queue p' !! (i - dequeues tr)%nat = Some con.
Proof.
  intros Hs Hi. induction Hs as [p|p tr q l q' Hs IH Hl].
  { right. simpl. rewrite Nat.sub_0_r. split; [lia|done]. }
  destruct (IH Hi) as [[r Hr]|[Hle Hpos]]; [left; exists r; set_solver|].
  rewrite dequeues_app. pose proof (step_position _ _ _ _ _ Hl Hpos) as Hp.
  destruct l as [| c r | | |]; simpl; try (right; rewrite Nat.add_0_r; done).
  destruct (i - dequeues tr)%nat as [|j] eqn:Ej; [left; exists r; subst; set_solver|].
  right. split; [lia|]. by replace (i - (dequeues tr + 1))%nat with j by lia.
Qed.

(** The queue is fair: a connection at position [i] is handed out within
    the next [i + 1] dequeues, whatever is enqueued or finished in between. *)
Theorem pushqueue_fifo p tr p' i con :
  steps p tr p' -> queue p !! i = Some con -> (i < dequeues tr)%nat ->
  exists r, LDequeue con r ∈ tr.
Proof. intros Hs Hi Hlt. destruct (steps_position _ _ _ _ _ Hs Hi) as [?|[??]]; [done|lia]. Qed.

(** *** A run with two connections: the second request for the first connection
    arrives while its push is in progress. *)

Definition sample_request (k : string) : PushRequest :=
  mkRequest None (Some {[ConfigKey.mk kind.Service k "ns"]}) None false false None 0
    emptyResourceDelta.

Definition sample_trace : list label :=
  [LEnqueue 1%positive (sample_request "a"); LEnqueue 2%positive (sample_request "b");
   LDequeue 1%positive (Some (sample_request "a"));
   LEnqueue 1%positive (sample_request "c"); LDone 1%positive;
   LDequeue 2%positive (Some (sample_request "b"))].

Definition sample_queue : PushQueue := default NewPushQueue (run NewPushQueue sample_trace).

Lemma pushqueue_no_lost_update_witness :
  exists batches rest,
    accepted true 1%positive sample_trace = concat batches ++ rest /\
    Forall2 stands_for batches (delivered 1%positive sample_trace) /\
    (rest <> [] <-> outstanding sample_queue 1%positive = true).
Proof. apply pushqueue_no_lost_update, run_steps. vm_compute. reflexivity. Defined.

Lemma pushqueue_invariant_witness :
  queue sample_queue = [1%positive] /\ NoDup (queue sample_queue).
Proof.
  split; [vm_compute; reflexivity|].
  eapply pushqueue_invariant, (run_steps _ sample_trace). vm_compute. reflexivity.
Defined.

Lemma pushqueue_fifo_witness : exists r, LDequeue 2%positive r ∈ drop 2 sample_trace.
Proof.
  eapply (pushqueue_fifo (default NewPushQueue (run NewPushQueue (take 2 sample_trace)))
    (drop 2 sample_trace) sample_queue 1).
  - apply run_steps. vm_compute. reflexivity.
  - vm_compute. reflexivity.
  - vm_compute. lia.
Defined.
