(* ===== verification/Watch.v ===== *)
(** * Subscriptions of a connection

    [pkg/model/xds.go] (resource types), [pkg/xds/server.go] ([WatchedResource],
    the [Watcher] interface, [ShouldRespond], [Send]'s bookkeeping) and the
    watch methods of [model.Proxy] in
    [dubbod/discovery/pkg/model/context.go], which implement [Watcher].

    [ShouldRespond] is the state-of-the-world protocol: it classifies a
    request as a NACK, an ACK, an initial request, a changed subscription or a
    stale message, and updates the watch.  It is translated against the
    [Watcher] interface, and its meaning is the table [classify]/[effect]. *)

From S2P Require Import Prelude GoStrings GoSets ConfigKeys PushRequest.

(** ** Resource types *)

Definition APITypePrefix : string := "type.googleapis.com/".
Definition ClusterType : string := APITypePrefix +:+ "cluster.v1.Cluster".
Definition EndpointType : string := APITypePrefix +:+ "endpoint.v1.ClusterLoadAssignment".
Definition ListenerType : string := APITypePrefix +:+ "listener.v1.Listener".
Definition RouteType : string := APITypePrefix +:+ "route.v1.RouteConfiguration".
Definition SecretType : string :=
  APITypePrefix +:+ "extensions.transport_sockets.tls.v1.Secret".

Definition GetShortType (typeURL : string) : string :=
  if String.eqb typeURL ClusterType then "CDS" else
  if String.eqb typeURL ListenerType then "LDS" else
  if String.eqb typeURL RouteType then "RDS" else
  if String.eqb typeURL EndpointType then "EDS" else
  if String.eqb typeURL SecretType then "SDS" else typeURL.

Definition GetMetricType (typeURL : string) : string :=
  if String.eqb typeURL ClusterType then "cds" else
  if String.eqb typeURL ListenerType then "lds" else
  if String.eqb typeURL RouteType then "rds" else
  if String.eqb typeURL EndpointType then "eds" else
  if String.eqb typeURL SecretType then "sds" else typeURL.

Definition IsWildcardTypeURL (typeURL : string) : bool :=
  if String.eqb typeURL SecretType || String.eqb typeURL EndpointType
     || String.eqb typeURL RouteType then false
  else if String.eqb typeURL ClusterType || String.eqb typeURL ListenerType then true
  else true.

(** ** Wire messages *)

(** [anypb.Any] and [discovery.Resource]. *)
Record Any : Type := mkAny { any_TypeUrl : string; any_Value : string }.
Record Resource : Type := mkResource { res_Name : string; res_Resource : Any }.
Definition Resources : Type := list Resource.

Definition ResourcesToAny (r : Resources) : list Any := map res_Resource r.

(** [discovery.DiscoveryRequest]; [ErrorDetail] keeps the message of the
    reported status, [Node] the node id. *)
Record DiscoveryRequest : Type := mkDiscoveryRequest {
  VersionInfo : string;
  req_Node : option string;
  req_ResourceNames : list string;
  req_TypeUrl : string;
  ResponseNonce : string;
  ErrorDetail : option string
}.

Record WatchedResource : Type := mkWatched {
  TypeUrl : string;
  ResourceNames : nset string;
  Wildcard : bool;
  NonceSent : string;
  NonceAcked : string;
  AlwaysRespond : bool;
  LastSendTime : Time;
  LastError : string;
  LastResources : Resources
}.

(** [&WatchedResource{TypeUrl: url, ResourceNames: names}] *)
Definition new_watch (url : string) (names : nset string) : WatchedResource :=
  mkWatched url names false "" "" false time_zero "" [].

(** Field assignments. *)
Definition set_LastError (e : string) (w : WatchedResource) : WatchedResource :=
  mkWatched (TypeUrl w) (ResourceNames w) (Wildcard w) (NonceSent w) (NonceAcked w)
    (AlwaysRespond w) (LastSendTime w) e (LastResources w).
Definition set_NonceAcked (n : string) (w : WatchedResource) : WatchedResource :=
  mkWatched (TypeUrl w) (ResourceNames w) (Wildcard w) (NonceSent w) n
    (AlwaysRespond w) (LastSendTime w) (LastError w) (LastResources w).
Definition set_NonceSent (n : string) (w : WatchedResource) : WatchedResource :=
  mkWatched (TypeUrl w) (ResourceNames w) (Wildcard w) n (NonceAcked w)
    (AlwaysRespond w) (LastSendTime w) (LastError w) (LastResources w).
Definition set_AlwaysRespond (b : bool) (w : WatchedResource) : WatchedResource :=
  mkWatched (TypeUrl w) (ResourceNames w) (Wildcard w) (NonceSent w) (NonceAcked w)
    b (LastSendTime w) (LastError w) (LastResources w).
Definition set_ResourceNames (s : nset string) (w : WatchedResource) : WatchedResource :=
  mkWatched (TypeUrl w) s (Wildcard w) (NonceSent w) (NonceAcked w)
    (AlwaysRespond w) (LastSendTime w) (LastError w) (LastResources w).
Definition set_LastSendTime (t : Time) (w : WatchedResource) : WatchedResource :=
  mkWatched (TypeUrl w) (ResourceNames w) (Wildcard w) (NonceSent w) (NonceAcked w)
    (AlwaysRespond w) t (LastError w) (LastResources w).

(** ** The [Watcher] interface *)

(** The methods of [xds.Watcher].  An update function receives the watch (nil
    when there is none) and returns the new one (nil to delete it); it runs
    inside the method, may panic, and may assign variables of its caller, which
    are its second result. *)
Class Watcher (W : Type) : Type := {
  GetWatchedResource : W -> string -> option WatchedResource;
  DeleteWatchedResource : W -> string -> W;
  NewWatchedResource : W -> string -> list string -> res W;
  UpdateWatchedResource {A : Type} :
    W -> string -> (option WatchedResource -> res (option WatchedResource * A)) ->
    res (W * A)
}.

(** An update whose function assigns no variable of its caller. *)
Definition UpdateWatch {W : Type} `{Watcher W} (w : W) (url : string)
    (f : option WatchedResource -> res (option WatchedResource)) : res W :=
  '(w, _) ← UpdateWatchedResource w url (fun wr => o ← f wr; Ok (o, tt));
  Ok w.

(** What a watcher promises once it is ready: each method acts on the watch of
    its type only. *)
Class WatcherLaws (W : Type) `{Watcher W} : Type := {
  watcher_ready : W -> Prop;
  get_delete w url url' :
    GetWatchedResource (DeleteWatchedResource w url) url'
    = if decide (url = url') then None else GetWatchedResource w url';
  ready_delete w url : watcher_ready w -> watcher_ready (DeleteWatchedResource w url);
  new_law w url names : watcher_ready w ->
    exists w', NewWatchedResource w url names = Ok w' /\ watcher_ready w' /\
    forall url', GetWatchedResource w' url'
      = if decide (url = url') then Some (new_watch url (GoSet.New names))
        else GetWatchedResource w url';
  update_law {A} w url f o (a : A) :
    watcher_ready w -> f (GetWatchedResource w url) = Ok (o, a) ->
    exists w', UpdateWatchedResource w url f = Ok (w', a) /\ watcher_ready w' /\
    forall url', GetWatchedResource w' url'
      = if decide (url = url') then o else GetWatchedResource w url';
  update_panic_law {A} w url (f : _ -> res (_ * A)) why :
    f (GetWatchedResource w url) = Panic why ->
    UpdateWatchedResource w url f = Panic why
}.

(** ** [ShouldRespond] *)

Definition shouldUnsubscribe (request : DiscoveryRequest) : bool :=
  (length (req_ResourceNames request) =? 0)%nat && negb (IsWildcardTypeURL (req_TypeUrl request)).

Definition nil_deref {A} : res A := Panic "invalid memory address or nil pointer dereference".

Section ShouldRespond.
Context {W : Type} `{Watcher W}.

Definition ShouldRespond (w : W) (request : DiscoveryRequest)
  : res (W * (bool * ResourceDelta)) :=
  let url := req_TypeUrl request in
  let nonce := ResponseNonce request in
  match ErrorDetail request with
  | Some msg =>
      w ← UpdateWatch w url (fun wr =>
            match wr with
            | Some wr => Ok (Some (set_LastError msg wr))
            | None => nil_deref
            end);
      Ok (w, (false, emptyResourceDelta))
  | None =>
  let previousInfo := GetWatchedResource w url in
  if shouldUnsubscribe request then
    match previousInfo with
    | Some p =>
        if negb (String.eqb nonce "") && String.eqb nonce (NonceSent p) then
          w ← UpdateWatch w url (fun wr =>
                match wr with
                | None => Ok None
                | Some wr => Ok (Some (set_AlwaysRespond false
                                        (set_NonceAcked nonce (set_LastError "" wr))))
                end);
          Ok (w, (false, emptyResourceDelta))
        else Ok (DeleteWatchedResource w url, (false, emptyResourceDelta))
    | None => Ok (DeleteWatchedResource w url, (false, emptyResourceDelta))
    end
  else
  match previousInfo with
  | None =>
      if String.eqb nonce "" then
        w ← NewWatchedResource w url (req_ResourceNames request);
        Ok (w, (true, emptyResourceDelta))
      else
        w ← NewWatchedResource w url (req_ResourceNames request);
        Ok (w, (false, emptyResourceDelta))
  | Some p =>
  if String.eqb nonce "" then
    w ← NewWatchedResource w url (req_ResourceNames request);
    Ok (w, (true, emptyResourceDelta))
  else if negb (String.eqb nonce (NonceSent p)) then
    let newResources := GoSet.New (req_ResourceNames request) in
    let previousResourcesCopy := GoSet.Copy (ResourceNames p) in
    if negb (GoSet.Equals newResources previousResourcesCopy)
       && (0 <? nset_len newResources)%nat then
      let added := GoSet.Difference newResources previousResourcesCopy in
      w ← UpdateWatch w url (fun wr =>
            match wr with
            | None => Ok None
            | Some wr => Ok (Some (set_ResourceNames newResources (set_LastError "" wr)))
            end);
      if (nset_len added =? 0)%nat then Ok (w, (true, mkDelta added None))
      else Ok (w, (true, mkDelta added None))
    else Ok (w, (false, emptyResourceDelta))
  else
    '(w1, (previousResources, cur, alwaysRespond)) ←
      UpdateWatchedResource (A := nset string * nset string * bool) w url (fun wr =>
        match wr with
        | None => nil_deref
        | Some wr =>
            let cur := GoSet.New (req_ResourceNames request) in
            Ok (Some (set_AlwaysRespond false (set_ResourceNames cur
                        (set_NonceAcked nonce (set_LastError "" wr)))),
                (ResourceNames wr, cur, AlwaysRespond wr))
        end);
    let removed := GoSet.Difference previousResources cur in
    let added := GoSet.Difference cur previousResources in
    if (length (req_ResourceNames request) =? 0)%nat
       && (0 <? nset_len previousResources)%nat && negb (String.eqb (NonceSent p) "") then
      w2 ← UpdateWatch w1 url (fun wr =>
             match wr with
             | None => Ok None
             | Some wr => Ok (Some (set_ResourceNames previousResources wr))
             end);
      Ok (w2, (false, emptyResourceDelta))
    else if alwaysRespond : bool then Ok (w1, (true, emptyResourceDelta))
    else if (nset_len removed =? 0)%nat && (nset_len added =? 0)%nat then
      Ok (w1, (false, emptyResourceDelta))
    else if negb (IsWildcardTypeURL url) && (nset_len added =? 0)%nat then
      Ok (w1, (false, emptyResourceDelta))
    else Ok (w1, (true, mkDelta added None))
  end
  end.

(** The bookkeeping of [Send] once the stream accepted the response; [now] is
    the clock. *)
Definition Send_update (now : Time) (w : W) (url nonce : string) : res W :=
  if negb (String.eqb nonce "") then
    UpdateWatch w url (fun wr =>
      let wr := match wr with None => new_watch url None | Some wr => wr end in
      Ok (Some (set_LastSendTime now (set_NonceSent nonce wr))))
  else Ok w.

End ShouldRespond.

(** ** What the protocol decides *)

Inductive verdict : Type :=
  | Nack (msg : string)
  | AckPreserve          (* ACK without names of a type that needs names *)
  | Unsubscribe
  | Init
  | UnknownNonce         (* a nonce, but no watch *)
  | StaleChange          (* old nonce, new subscription *)
  | Expired
  | WildcardAck          (* ACK without names after named resources *)
  | Warming
  | Ack
  | Shrink               (* names dropped from a type that needs names *)
  | Change.

Definition names_of (request : DiscoveryRequest) : gset string :=
  list_to_set (req_ResourceNames request).
Definition watched_names (p : WatchedResource) : gset string := nset_elems (ResourceNames p).

Definition classify (prev : option WatchedResource) (request : DiscoveryRequest) : verdict :=
  let nonce := ResponseNonce request in
  let names := names_of request in
  match ErrorDetail request, prev with
  | Some msg, _ => Nack msg
  | None, None =>
      if decide (names = ∅ /\ IsWildcardTypeURL (req_TypeUrl request) = false) then Unsubscribe
      else if decide (nonce = "") then Init else UnknownNonce
  | None, Some p =>
      if decide (names = ∅ /\ IsWildcardTypeURL (req_TypeUrl request) = false) then
        if decide (nonce <> "" /\ nonce = NonceSent p) then AckPreserve else Unsubscribe
      else if decide (nonce = "") then Init
      else if decide (nonce = NonceSent p) then
        if decide (names = ∅ /\ watched_names p <> ∅) then WildcardAck
        else if AlwaysRespond p then Warming
        else if decide (names = watched_names p) then Ack
        else if decide (IsWildcardTypeURL (req_TypeUrl request) = false
                        /\ names ⊆ watched_names p) then Shrink
        else Change
      else if decide (names <> watched_names p /\ names <> ∅) then StaleChange
      else Expired
  end.

(** Whether the server answers, and what the answer is limited to. *)
Definition responds (v : verdict) : bool :=
  match v with Init | StaleChange | Warming | Change => true | _ => false end.

Definition acked (nonce : string) (p : WatchedResource) : WatchedResource :=
  set_AlwaysRespond false (set_NonceAcked nonce (set_LastError "" p)).

(** The watch after the request; [None] where the code dereferences nil. *)
Definition effect (v : verdict) (prev : option WatchedResource) (request : DiscoveryRequest)
  : option (option WatchedResource) :=
  let fresh := new_watch (req_TypeUrl request) (Some (names_of request)) in
  let acked := acked (ResponseNonce request) in
  match v, prev with
  | Nack msg, Some p => Some (Some (set_LastError msg p))
  | Nack _, None => None
  | (AckPreserve | WildcardAck), Some p => Some (Some (acked p))
  | Unsubscribe, _ => Some None
  | (Init | UnknownNonce), _ => Some (Some fresh)
  | StaleChange, Some p =>
      Some (Some (set_ResourceNames (Some (names_of request)) (set_LastError "" p)))
  | Expired, Some p => Some (Some p)
  | (Warming | Ack | Shrink | Change), Some p =>
      Some (Some (set_ResourceNames (Some (names_of request)) (acked p)))
  | _, None => None
  end.

Definition delta_of (v : verdict) (prev : option WatchedResource) (request : DiscoveryRequest)
  : ResourceDelta :=
  match v, prev with
  | (StaleChange | Change), Some p => mkDelta (Some (names_of request ∖ watched_names p)) None
  | _, _ => emptyResourceDelta
  end.

(** ** [model.Proxy] as a watcher

    [node.WatchedResources] is a map that is nil until the connection is
    initialised; each method holds the proxy's lock. *)
Module ProxyWatch.

Notation watches := (nmap string WatchedResource).

Definition GetWatchedResource (node : watches) (typeURL : string) : option WatchedResource :=
  nmap_get node !! typeURL.

Definition DeleteWatchedResource (node : watches) (typeURL : string) : watches :=
  delete typeURL <$> node.

(** [node.WatchedResources[typeURL] = r] *)
Definition write (node : watches) (typeURL : string) (r : WatchedResource) : res watches :=
  match node with
  | Some m => Ok (Some (<[typeURL := r]> m))
  | None => Panic "assignment to entry in nil map"
  end.

Definition NewWatchedResource (node : watches) (typeURL : string) (names : list string)
  : res watches := write node typeURL (new_watch typeURL (GoSet.New names)).

Definition UpdateWatchedResource {A} (node : watches) (typeURL : string)
    (updateFn : option WatchedResource -> res (option WatchedResource * A)) : res (watches * A) :=
  let r := nmap_get node !! typeURL in
  '(r, a) ← updateFn r;
  match r with
  | Some r => node ← write node typeURL r; Ok (node, a)
  | None => Ok (delete typeURL <$> node, a)
  end.

Definition ShallowCloneWatchedResources (node : watches) : watches := node.

End ProxyWatch.

#[global] Instance proxy_watcher : Watcher (nmap string WatchedResource) := {
  GetWatchedResource := ProxyWatch.GetWatchedResource;
  DeleteWatchedResource := ProxyWatch.DeleteWatchedResource;
  NewWatchedResource := ProxyWatch.NewWatchedResource;
  UpdateWatchedResource := @ProxyWatch.UpdateWatchedResource
}.

(** An initialised proxy keeps the promises of the interface. *)
#[global] Instance proxy_watcher_laws : WatcherLaws (nmap string WatchedResource).
Proof.
  refine {| watcher_ready := fun w => is_Some w |}; cbn.
  - intros w url url'. unfold ProxyWatch.GetWatchedResource, ProxyWatch.DeleteWatchedResource.
    destruct w as [m|]; simpl; [by rewrite lookup_delete|].
    rewrite lookup_empty. by case_decide.
  - intros w url [m ->]. by eexists.
  - intros w url names [m ->]. eexists. split; [done|]. split; [by eexists|].
    intros url'. unfold ProxyWatch.GetWatchedResource. simpl. by rewrite lookup_insert.
  - intros A w url f o a [m ->] Hf. unfold ProxyWatch.UpdateWatchedResource.
    unfold ProxyWatch.GetWatchedResource in Hf. rewrite Hf. simpl.
    destruct o as [r|]; simpl; (eexists; split; [done|]); (split; [by eexists|]); intros url';
      unfold ProxyWatch.GetWatchedResource; simpl;
      [by rewrite lookup_insert|by rewrite lookup_delete].
  - intros A w url f why Hf. unfold ProxyWatch.UpdateWatchedResource.
    unfold ProxyWatch.GetWatchedResource in Hf. by rewrite Hf.
Defined.

(** ** [ShouldRespond] decides as the table says *)

Section refinement.
Context {W : Type} `{WatcherLaws W}.

Lemma UpdateWatch_ok (w : W) url f o :
  watcher_ready w -> f (GetWatchedResource w url) = Ok o ->
  exists w', UpdateWatch w url f = Ok w' /\ watcher_ready w' /\
  forall url', GetWatchedResource w' url'
    = if decide (url = url') then o else GetWatchedResource w url'.
Proof.
  intros Hr Hf. destruct (update_law w url (fun wr => o ← f wr; Ok (o, tt)) o tt)
    as (w' & Hw & Hr' & Hg); [done|by rewrite Hf|].
  exists w'. split; [|done]. unfold UpdateWatch. by rewrite Hw.
Qed.

Lemma UpdateWatch_panic (w : W) url f why :
  f (GetWatchedResource w url) = Panic why -> UpdateWatch w url f = Panic why.
Proof.
  intros Hf. unfold UpdateWatch. erewrite update_panic_law; [done|]. by rewrite Hf.
Qed.

Lemma names_nil request : names_of request = ∅ <-> req_ResourceNames request = [].
Proof.
  unfold names_of. destruct (req_ResourceNames request) as [|x l]; simpl; [done|].
  split; [set_solver|done].
Qed.

Lemma shouldUnsubscribe_iff request :
  shouldUnsubscribe request
  = bool_decide (names_of request = ∅ /\ IsWildcardTypeURL (req_TypeUrl request) = false).
Proof.
  unfold shouldUnsubscribe. apply eq_true_iff_eq.
  rewrite andb_true_iff, negb_true_iff, bool_decide_eq_true, names_nil, Nat.eqb_eq.
  by rewrite length_zero_iff_nil.
Qed.

Lemma stale_test request p :
  negb (GoSet.Equals (GoSet.New (req_ResourceNames request)) (GoSet.Copy (ResourceNames p)))
    && (0 <? nset_len (GoSet.New (req_ResourceNames request)))%nat
  = bool_decide (names_of request <> watched_names p /\ names_of request <> ∅).
Proof.
  apply eq_true_iff_eq. rewrite andb_true_iff, negb_true_iff, bool_decide_eq_true.
  rewrite <- not_true_iff_false, GoSet.Equals_spec, Nat.ltb_lt, GoSet.nset_len_pos.
  by rewrite GoSet.New_eq, GoSet.Copy_eq.
Qed.

Lemma len_zero (s : nset string) : (nset_len s =? 0)%nat = bool_decide (nset_elems s = ∅).
Proof.
  apply eq_true_iff_eq. by rewrite Nat.eqb_eq, bool_decide_eq_true, <- size_empty_iff_L.
Qed.

Lemma same_test request p :
  (nset_len (GoSet.Difference (ResourceNames p) (GoSet.New (req_ResourceNames request))) =? 0)%nat
  && (nset_len (GoSet.Difference (GoSet.New (req_ResourceNames request)) (ResourceNames p)) =? 0)%nat
  = bool_decide (names_of request = watched_names p).
Proof.
  rewrite !len_zero, !GoSet.Difference_eq, !GoSet.New_eq. apply eq_true_iff_eq.
  rewrite andb_true_iff, !bool_decide_eq_true. simpl.
  rewrite !difference_empty_iff_L. unfold watched_names, names_of.
  split; [intros [??]; apply set_eq; set_solver|by intros ->].
Qed.

Lemma added_test request p :
  (nset_len (GoSet.Difference (GoSet.New (req_ResourceNames request)) (ResourceNames p)) =? 0)%nat
  = bool_decide (names_of request ⊆ watched_names p).
Proof.
  rewrite len_zero, GoSet.Difference_eq, GoSet.New_eq. apply eq_true_iff_eq.
  rewrite !bool_decide_eq_true. simpl. by rewrite difference_empty_iff_L.
Qed.

Lemma wildcard_ack_test request p :
  ResponseNonce request <> "" -> ResponseNonce request = NonceSent p ->
  (length (req_ResourceNames request) =? 0)%nat && (0 <? nset_len (ResourceNames p))%nat
    && negb (String.eqb (NonceSent p) "")
  = bool_decide (names_of request = ∅ /\ watched_names p <> ∅).
Proof.
  intros Hn <-. apply eq_true_iff_eq.
  rewrite !andb_true_iff, negb_true_iff, String.eqb_neq, bool_decide_eq_true,
    Nat.eqb_eq, Nat.ltb_lt, GoSet.nset_len_pos, names_nil, length_zero_iff_nil.
  naive_solver.
Qed.

(** What it means for [ShouldRespond] to implement the table on a watcher. *)
Definition implements (w : W) (request : DiscoveryRequest) : Prop :=
  let prev := GetWatchedResource w (req_TypeUrl request) in
  let v := classify prev request in
  match effect v prev request with
  | None => exists why, ShouldRespond w request = Panic why
  | Some o =>
      exists w', ShouldRespond w request = Ok (w', (responds v, delta_of v prev request)) /\
      watcher_ready w' /\
      forall url', GetWatchedResource w' url'
        = if decide (req_TypeUrl request = url') then o else GetWatchedResource w url'
  end.

Lemma keep_update (w w' : W) url o :
  GetWatchedResource w url = o ->
  (forall url', GetWatchedResource w' url' = GetWatchedResource w url') ->
  forall url', GetWatchedResource w' url'
    = if decide (url = url') then o else GetWatchedResource w url'.
Proof. intros Ho Hw url'. case_decide; [by subst; rewrite Hw|done]. Qed.

(** Nonce match: the branch after the stale-nonce test. *)
Lemma implements_matching w request p :
  watcher_ready w -> ErrorDetail request = None ->
  GetWatchedResource w (req_TypeUrl request) = Some p ->
  shouldUnsubscribe request = false ->
  ResponseNonce request <> "" -> ResponseNonce request = NonceSent p ->
  implements w request.
Proof.
  intros Hready He Hp Hu Hn Heq. unfold implements, ShouldRespond. rewrite He, Hp, Hu.
  unfold classify. rewrite He.
  rewrite shouldUnsubscribe_iff in Hu. apply bool_decide_eq_false in Hu.
  rewrite (decide_False _ _ Hu), (decide_False _ _ Hn), (decide_True _ _ Heq).
  rewrite (proj2 (String.eqb_neq _ _) Hn), (proj2 (String.eqb_eq _ _) Heq). cbn [negb].
  match goal with |- context [UpdateWatchedResource w ?u ?f] =>
    destruct (update_law w u f
      (Some (set_AlwaysRespond false (set_ResourceNames (GoSet.New (req_ResourceNames request))
         (set_NonceAcked (ResponseNonce request) (set_LastError "" p)))))
      (ResourceNames p, GoSet.New (req_ResourceNames request), AlwaysRespond p))
      as (w1 & -> & Hr1 & Hg1); [done|by rewrite Hp|] end.
  cbn [mbind res_bind]. rewrite same_test, added_test, wildcard_ack_test by done.
  case_bool_decide as Hwa; [rewrite decide_True by done|rewrite decide_False by done].
  - match goal with |- context [UpdateWatch w1 ?u ?f] =>
      destruct (UpdateWatch_ok w1 u f (Some (acked (ResponseNonce request) p)))
        as (w2 & -> & Hr2 & Hg2); [done| |] end.
    { rewrite Hg1, decide_True by done. by destruct p. }
    simpl. exists w2. split; [done|]. split; [done|]. intros url'.
    rewrite Hg2, Hg1. by case_decide.
  - assert (Hdone : forall (b : bool) (d : ResourceDelta), exists w', Ok (w1, (b, d)) = Ok (w', (b, d)) /\ watcher_ready w' /\
      forall url', GetWatchedResource w' url' = if decide (req_TypeUrl request = url')
        then Some (set_ResourceNames (Some (names_of request)) (acked (ResponseNonce request) p))
        else GetWatchedResource w url').
    { intros b d. exists w1. split; [done|]. split; [done|]. intros url'. rewrite Hg1.
      case_decide; [|done]. by rewrite GoSet.New_eq. }
    destruct (AlwaysRespond p); [apply Hdone|].
    case_bool_decide; [rewrite decide_True by done; apply Hdone|rewrite decide_False by done].
    destruct (IsWildcardTypeURL (req_TypeUrl request)); cbn [negb andb].
    + rewrite decide_False by naive_solver. rewrite GoSet.Difference_eq, GoSet.New_eq. apply Hdone.
    + case_bool_decide; [rewrite decide_True by done; apply Hdone|].
      rewrite decide_False by naive_solver. rewrite GoSet.Difference_eq, GoSet.New_eq. apply Hdone.
Qed.

Lemma implements_new (w : W) request (b : bool) :
  watcher_ready w ->
  exists w', (w' ← NewWatchedResource w (req_TypeUrl request) (req_ResourceNames request);
              Ok (w', (b, emptyResourceDelta))) = Ok (w', (b, emptyResourceDelta)) /\
  watcher_ready w' /\
  forall url', GetWatchedResource w' url'
    = if decide (req_TypeUrl request = url')
      then Some (new_watch (req_TypeUrl request) (Some (names_of request)))
      else GetWatchedResource w url'.
Proof.
  intros Hr. destruct (new_law w (req_TypeUrl request) (req_ResourceNames request) Hr)
    as (w' & -> & Hr' & Hg). exists w'. split; [done|]. split; [done|].
  intros url'. by rewrite Hg, GoSet.New_eq.
Qed.

Lemma implements_delete (w : W) url (b : bool) :
  watcher_ready w ->
  exists w', Ok (DeleteWatchedResource w url, (b, emptyResourceDelta))
    = Ok (w', (b, emptyResourceDelta)) /\ watcher_ready w' /\
  forall url', GetWatchedResource w' url'
    = if decide (url = url') then None else GetWatchedResource w url'.
Proof. intros. eexists. split; [done|]. split; [by apply ready_delete|apply get_delete]. Qed.

(** An update that keeps the other watches and sets this one to [o]. *)
Lemma implements_update (w : W) url f o (r : bool * ResourceDelta) :
  watcher_ready w -> f (GetWatchedResource w url) = Ok o ->
  exists w', (w' ← UpdateWatch w url f; Ok (w', r)) = Ok (w', r) /\ watcher_ready w' /\
  forall url', GetWatchedResource w' url'
    = if decide (url = url') then o else GetWatchedResource w url'.
Proof.
  intros Hr Hf. destruct (UpdateWatch_ok w url f o Hr Hf) as (w' & -> & ? & ?). by exists w'.
Qed.

Lemma ShouldRespond_implements w request : watcher_ready w -> implements w request.
Proof.
  intros Hready.
  destruct (ErrorDetail request) as [msg|] eqn:He.
  { unfold implements, ShouldRespond, classify. rewrite He.
    destruct (GetWatchedResource w (req_TypeUrl request)) as [p|] eqn:Hp; simpl.
    - apply implements_update; [done|]. by rewrite Hp.
    - unfold nil_deref. eexists. erewrite UpdateWatch_panic; [done|]. by rewrite Hp. }
  destruct (GetWatchedResource w (req_TypeUrl request)) as [p|] eqn:Hp.
  2: { unfold implements, ShouldRespond, classify. rewrite He, Hp, shouldUnsubscribe_iff.
       case_bool_decide; [rewrite decide_True by done; by apply implements_delete|].
       rewrite decide_False by done.
       destruct (String.eqb_spec (ResponseNonce request) "");
         [rewrite decide_True by done|rewrite decide_False by done]; by apply implements_new. }
  destruct (decide (ResponseNonce request <> "" /\ ResponseNonce request = NonceSent p
    /\ shouldUnsubscribe request = false)) as [(?&?&?)|Hnm]; [by eapply implements_matching|].
  unfold implements, ShouldRespond, classify. rewrite He, Hp.
  destruct (shouldUnsubscribe request) eqn:Hu; rewrite shouldUnsubscribe_iff in Hu.
  - apply bool_decide_eq_true in Hu. rewrite (decide_True _ _ Hu).
    destruct (String.eqb_spec (ResponseNonce request) "") as [Hn|Hn]; cbn [negb andb].
    { rewrite decide_False by naive_solver. by apply implements_delete. }
    destruct (String.eqb_spec (ResponseNonce request) (NonceSent p)) as [Hm|Hm]; cbn [andb].
    + rewrite decide_True by done. apply implements_update; [done|]. by rewrite Hp.
    + rewrite decide_False by naive_solver. by apply implements_delete.
  - apply bool_decide_eq_false in Hu. rewrite (decide_False _ _ Hu).
    destruct (String.eqb_spec (ResponseNonce request) "") as [Hn|Hn].
    { rewrite decide_True by done. by apply implements_new. }
    rewrite decide_False by done.
    destruct (String.eqb_spec (ResponseNonce request) (NonceSent p)) as [Hm|Hm]; cbn [negb];
      [naive_solver|]. rewrite (decide_False _ _ Hm), stale_test.
    case_bool_decide as Hs; [rewrite decide_True by done|rewrite decide_False by done].
    + rewrite GoSet.Copy_eq, GoSet.Difference_eq, GoSet.New_eq.
      destruct (_ =? 0)%nat; (apply implements_update; [done|]; by rewrite Hp).
    + exists w. split; [done|]. split; [done|]. by apply keep_update.
Qed.

End refinement.
