(* ===== verification/XdsProtocol.v ===== *)
(** * Properties of the state-of-the-world protocol

    What [xds.ShouldRespond] and [xds.Send] guarantee to the two ends of a
    stream, proved for every implementation of the [Watcher] interface from
    the decision table of [Watch]. *)

From S2P Require Import Prelude GoStrings GoSets ConfigKeys PushRequest Watch.

(** A request for the tests and witnesses. *)
Definition sample_request (url nonce : string) (names : list string) (err : option string)
  : DiscoveryRequest := mkDiscoveryRequest "" None names url nonce err.

Section protocol.
Context {W : Type} `{WatcherLaws W}.
Implicit Types (w : W) (request : DiscoveryRequest).

(** [AlwaysRespond] is set on no watch: the code only ever clears it. *)
Definition quiet w : Prop :=
  forall url p, GetWatchedResource w url = Some p -> AlwaysRespond p = false.

(** ** Consequences of the table *)

Lemma ShouldRespond_cases w request o :
  watcher_ready w ->
  let prev := GetWatchedResource w (req_TypeUrl request) in
  effect (classify prev request) prev request = Some o ->
  exists w', ShouldRespond w request
      = Ok (w', (responds (classify prev request), delta_of (classify prev request) prev request)) /\
    watcher_ready w' /\
    forall url', GetWatchedResource w' url'
      = if decide (req_TypeUrl request = url') then o else GetWatchedResource w url'.
Proof.
  intros Hr prev He. pose proof (ShouldRespond_implements w request Hr) as Hi.
  unfold implements in Hi. fold prev in Hi. by rewrite He in Hi.
Qed.

Lemma effect_none prev request :
  effect (classify prev request) prev request = None <->
  prev = None /\ ErrorDetail request <> None.
Proof.
  unfold classify. destruct (ErrorDetail request) as [m|] eqn:E, prev as [p|].
  - simpl. naive_solver.
  - simpl. naive_solver.
  - split; [|naive_solver]. destruct (AlwaysRespond p); repeat case_decide; done.
  - split; [|naive_solver]. repeat case_decide; done.
Qed.

Lemma Send_update_ok now w url nonce :
  watcher_ready w -> nonce <> "" ->
  exists w', Send_update now w url nonce = Ok w' /\ watcher_ready w' /\
  forall url', GetWatchedResource w' url' =
    if decide (url = url') then
      Some (set_LastSendTime now (set_NonceSent nonce
        (default (new_watch url None) (GetWatchedResource w url))))
    else GetWatchedResource w url'.
Proof.
  intros Hr Hn. unfold Send_update. rewrite (proj2 (String.eqb_neq _ _) Hn). cbn [negb].
  apply UpdateWatch_ok; [done|]. by destruct (GetWatchedResource w url).
Qed.

Lemma effect_quiet request prev o p :
  (forall q, prev = Some q -> AlwaysRespond q = false) ->
  effect (classify prev request) prev request = Some (Some p) -> o = Some p ->
  AlwaysRespond p = false.
Proof.
  intros Hq He _.
  destruct (classify prev request), prev as [q|]; simpl in He; simplify_eq/=; auto.
Qed.

(** An acknowledgement: the nonce of the last response, and the watched names
    or none. *)
Lemma classify_ack p request :
  ErrorDetail request = None -> ResponseNonce request <> "" ->
  ResponseNonce request = NonceSent p -> AlwaysRespond p = false ->
  names_of request = watched_names p \/ names_of request = ∅ ->
  classify (Some p) request = Ack \/ classify (Some p) request = AckPreserve \/
  classify (Some p) request = WildcardAck.
Proof.
  intros He Hn Hm Ha Hnames. unfold classify. rewrite He, Ha.
  destruct (decide (names_of request = ∅ /\ IsWildcardTypeURL (req_TypeUrl request) = false)).
  { rewrite decide_True by done. auto. }
  rewrite (decide_False _ _ Hn), (decide_True _ _ Hm).
  case_decide as Hw; [auto|]. rewrite decide_True; [auto|].
  destruct Hnames as [?|Hemp]; [done|]. rewrite Hemp.
  destruct (decide (watched_names p = ∅)); [done|naive_solver].
Qed.

(** ** Properties *)

(** [ShouldRespond] implements the protocol's decision table on every
    watcher: the request's verdict, computed from the watch of its type alone,
    determines whether the server responds, the delta of the response and the
    new watch, and the watches of all other types are untouched. *)
Theorem ShouldRespond_refines_table w request :
  watcher_ready w ->
  let prev := GetWatchedResource w (req_TypeUrl request) in
  let v := classify prev request in
  match effect v prev request with
  | None => exists why, ShouldRespond w request = Panic why
  | Some o =>
      exists w', ShouldRespond w request = Ok (w', (responds v, delta_of v prev request)) /\
      watcher_ready w' /\
      forall url', GetWatchedResource w' url'
        = if decide (req_TypeUrl request = url') then o else GetWatchedResource w url'
  end.
Proof. intros Hr. apply (ShouldRespond_implements w request Hr). Qed.

(** A request makes [ShouldRespond] panic exactly when it reports
    an error for a type the connection does not watch: the update function
    dereferences the missing watch. *)
Theorem ShouldRespond_panics_iff w request :
  watcher_ready w ->
  (exists why, ShouldRespond w request = Panic why) <->
  GetWatchedResource w (req_TypeUrl request) = None /\ ErrorDetail request <> None.
Proof.
  intros Hr. pose proof (ShouldRespond_implements w request Hr) as Hi. unfold implements in Hi.
  set (prev := GetWatchedResource w (req_TypeUrl request)) in *.
  rewrite <- effect_none. destruct (effect (classify prev request) prev request).
  - destruct Hi as (w' & -> & _). split; [by intros [? ?]|done].
  - done.
Qed.

(** An acknowledged response is not answered: once a response with nonce
    [n] has been sent, a request carrying [n] with the watched names (or with
    no names) is an ACK, so the server does not respond, records the nonce as
    acknowledged and keeps the subscription. *)
Theorem ack_is_not_answered now w url n w1 p request :
  watcher_ready w -> quiet w -> n <> "" ->
  Send_update now w url n = Ok w1 -> GetWatchedResource w1 url = Some p ->
  req_TypeUrl request = url -> ResponseNonce request = n -> ErrorDetail request = None ->
  names_of request = watched_names p \/ names_of request = ∅ ->
  exists w2 p', ShouldRespond w1 request = Ok (w2, (false, emptyResourceDelta)) /\
    GetWatchedResource w2 url = Some p' /\ NonceAcked p' = n /\ LastError p' = "" /\
    watched_names p' = watched_names p.
Proof.
  intros Hr Hq Hn Hsend Hp Hurl Hnonce Herr Hnames. subst url.
  destruct (Send_update_ok now w (req_TypeUrl request) n Hr Hn) as (w1' & E & Hr1 & Hg).
  rewrite Hsend in E. injection E as <-.
  rewrite Hg, decide_True in Hp by done. injection Hp as <-.
  set (p := set_LastSendTime _ _) in *.
  assert (Hquiet : AlwaysRespond p = false).
  { subst p. cbn. destruct (GetWatchedResource w (req_TypeUrl request)) eqn:E; [|done].
    by eapply Hq. }
  assert (Hget : GetWatchedResource w1 (req_TypeUrl request) = Some p)
    by (by rewrite Hg, decide_True).
  destruct (classify_ack p request) as [Hc|[Hc|Hc]]; try done; try (by rewrite Hnonce).
  all: edestruct (ShouldRespond_cases w1 request) as (w2 & HS & _ & Hg2); [done| |];
    rewrite Hget, Hc in *; [done|]; simpl in HS;
    eexists w2, _; (split; [done|]);
    rewrite Hg2, decide_True by done; (split; [done|]); cbn; (split; [done|]); (split; [done|]).
  - unfold classify in Hc. rewrite Herr, Hquiet in Hc.
    repeat (case_decide; try done). 
  - done.
  - done.
Qed.

Lemma ShouldRespond_quiet w request w' r :
  watcher_ready w -> quiet w -> ShouldRespond w request = Ok (w', r) -> quiet w'.
Proof.
  intros Hr Hq HS url p Hp.
  pose proof (ShouldRespond_implements w request Hr) as Hi. unfold implements in Hi.
  set (prev := GetWatchedResource w (req_TypeUrl request)) in *.
  destruct (effect (classify prev request) prev request) as [o|] eqn:He.
  - destruct Hi as (w'' & E & _ & Hg). rewrite HS in E. injection E as <- _.
    rewrite Hg in Hp. case_decide; [|by eapply Hq]. subst o.
    eapply effect_quiet; [|done|done]. intros q Hpq. by eapply Hq.
  - destruct Hi as [? E]. by rewrite HS in E.
Qed.

Lemma responds_watch prev request o :
  responds (classify prev request) = true ->
  effect (classify prev request) prev request = Some o ->
  exists p, o = Some p /\ watched_names p = names_of request.
Proof.
  destruct (classify prev request) eqn:E, prev as [p|]; simpl; intros ??; simplify_eq;
    try (eexists; split; [done|]; done).
Qed.

(** An exchange ends: when a request is answered and the client
    acknowledges the answer by repeating its subscription with the nonce it
    received, the server does not answer again. *)
Theorem exchange_converges now w request n w1 d w2 :
  watcher_ready w -> quiet w -> n <> "" ->
  ShouldRespond w request = Ok (w1, (true, d)) ->
  Send_update now w1 (req_TypeUrl request) n = Ok w2 ->
  exists w3, ShouldRespond w2
    (mkDiscoveryRequest (VersionInfo request) (req_Node request) (req_ResourceNames request)
       (req_TypeUrl request) n None) = Ok (w3, (false, emptyResourceDelta)).
Proof.
  intros Hr Hq Hn HS Hsend.
  pose proof (ShouldRespond_quiet _ _ _ _ Hr Hq HS) as Hq1.
  pose proof (ShouldRespond_implements w request Hr) as Hi. unfold implements in Hi.
  set (prev := GetWatchedResource w (req_TypeUrl request)) in *.
  destruct (effect (classify prev request) prev request) as [o|] eqn:He.
  2: { destruct Hi as [? E]. by rewrite HS in E. }
  destruct Hi as (w' & E & Hr1 & Hg). rewrite HS in E. injection E as <- Hresp _.
  destruct (responds_watch _ _ _ (eq_sym Hresp) He) as (p & -> & Hnames).
  destruct (Send_update_ok now w1 (req_TypeUrl request) n Hr1 Hn) as (w2' & E & Hr2 & Hg2).
  rewrite Hsend in E. injection E as <-.
  assert (Hp : GetWatchedResource w1 (req_TypeUrl request) = Some p)
    by (by rewrite Hg, decide_True).
  set (ack := mkDiscoveryRequest _ _ _ _ _ _).
  assert (Hget : GetWatchedResource w2 (req_TypeUrl ack)
    = Some (set_LastSendTime now (set_NonceSent n p))).
  { simpl. by rewrite Hg2, decide_True, Hp. }
  destruct (classify_ack (set_LastSendTime now (set_NonceSent n p)) ack) as [Hc|[Hc|Hc]];
    [done|done|done|exact (Hq1 _ _ Hp)|by left|..].
  all: edestruct (ShouldRespond_cases w2 ack) as (w3 & HS3 & _ & _); [done| |];
    rewrite Hget, Hc in *; [done|]; by exists w3.
Qed.

(** A message that carries an outdated nonce and does not change the
    subscription is ignored: no response and no change to any watch. *)
Theorem stale_nonce_ignored w request p :
  watcher_ready w -> GetWatchedResource w (req_TypeUrl request) = Some p ->
  ErrorDetail request = None -> ResponseNonce request <> "" ->
  ResponseNonce request <> NonceSent p ->
  names_of request = watched_names p -> names_of request <> ∅ ->
  exists w', ShouldRespond w request = Ok (w', (false, emptyResourceDelta)) /\
  forall url, GetWatchedResource w' url = GetWatchedResource w url.
Proof.
  intros Hr Hp He Hn Hm Hnames Hne.
  assert (Hc : classify (Some p) request = Expired).
  { unfold classify. rewrite He. rewrite decide_False by naive_solver.
    rewrite (decide_False _ _ Hn), (decide_False _ _ Hm), decide_False by naive_solver. done. }
  edestruct (ShouldRespond_cases w request) as (w' & HS & _ & Hg); [done| |];
    rewrite Hp, Hc in *; [done|].
  exists w'. split; [done|]. intros url. rewrite Hg. case_decide; [by subst|done].
Qed.

(** A client that presents a nonce the server does not know (a
    reconnect to another replica) is not answered, and stays unanswered however
    often it repeats the request: only a request without nonce is. *)
Theorem unknown_nonce_unanswered w request :
  watcher_ready w -> GetWatchedResource w (req_TypeUrl request) = None ->
  ErrorDetail request = None -> ResponseNonce request <> "" -> names_of request <> ∅ ->
  exists w1 w2, ShouldRespond w request = Ok (w1, (false, emptyResourceDelta)) /\
    ShouldRespond w1 request = Ok (w2, (false, emptyResourceDelta)) /\
    (forall url, GetWatchedResource w2 url = GetWatchedResource w1 url) /\
    GetWatchedResource w1 (req_TypeUrl request)
      = Some (new_watch (req_TypeUrl request) (Some (names_of request))).
Proof.
  intros Hr Hp He Hn Hne.
  assert (Hc : classify None request = UnknownNonce).
  { unfold classify. rewrite He, !decide_False by naive_solver. done. }
  edestruct (ShouldRespond_cases w request) as (w1 & HS & Hr1 & Hg); [done| |];
    rewrite Hp, Hc in *; [done|].
  set (p := new_watch (req_TypeUrl request) (Some (names_of request))) in *.
  assert (Hp1 : GetWatchedResource w1 (req_TypeUrl request) = Some p)
    by (by rewrite Hg, decide_True).
  assert (Hc1 : classify (Some p) request = Expired).
  { unfold classify. rewrite He, decide_False by naive_solver. rewrite (decide_False _ _ Hn).
    rewrite !decide_False; [done|naive_solver|done]. }
  edestruct (ShouldRespond_cases w1 request) as (w2 & HS2 & _ & Hg2); [done| |];
    rewrite Hp1, Hc1 in *; [done|].
  exists w1, w2. split; [done|]. split; [done|]. split; [|done].
  intros url. rewrite Hg2. case_decide; [by subst|done].
Qed.

End protocol.

(** ** The properties on an initialised proxy *)

Definition sample_watches : gmap string WatchedResource :=
  {[ EndpointType := set_NonceSent "n1" (new_watch EndpointType (Some {[ "a" ]})) ]}.
Definition sample_proxy : nmap string WatchedResource := Some sample_watches.

Lemma sample_ready : watcher_ready sample_proxy.
Proof. by exists sample_watches. Qed.

Lemma sample_quiet : quiet sample_proxy.
Proof.
  intros url p. change (GetWatchedResource sample_proxy url) with (sample_watches !! url).
  unfold sample_watches. rewrite lookup_singleton. case_decide; [|done]. intros [= <-]. done.
Qed.

Lemma sample_get :
  GetWatchedResource sample_proxy EndpointType
  = Some (set_NonceSent "n1" (new_watch EndpointType (Some {[ "a" ]}))).
Proof. apply lookup_singleton_eq. Qed.

Definition sample_change : DiscoveryRequest := sample_request EndpointType "n1" ["a"; "b"] None.

Lemma ShouldRespond_refines_table_witness :
  exists w', ShouldRespond sample_proxy sample_change
    = Ok (w', (true, delta_of Change (GetWatchedResource sample_proxy EndpointType) sample_change)).
Proof.
  pose proof (ShouldRespond_refines_table sample_proxy sample_change sample_ready) as H.
  cbv zeta in H. change (req_TypeUrl sample_change) with EndpointType in H.
  assert (Hc : classify (GetWatchedResource sample_proxy EndpointType) sample_change = Change)
    by (rewrite sample_get; vm_compute; reflexivity).
  rewrite Hc, sample_get in H. simpl in H. destruct H as (w' & H & _).
  exists w'. rewrite sample_get. exact H.
Defined.

Lemma ShouldRespond_panics_iff_witness :
  exists why, ShouldRespond sample_proxy (sample_request RouteType "" [] (Some "bad")) = Panic why.
Proof. apply ShouldRespond_panics_iff; [apply sample_ready|]. split; [by vm_compute|done]. Defined.

Lemma ack_is_not_answered_witness :
  exists w1 w2 p', Send_update 7 sample_proxy EndpointType "n2" = Ok w1 /\
    ShouldRespond w1 (sample_request EndpointType "n2" ["a"] None)
      = Ok (w2, (false, emptyResourceDelta)) /\
    GetWatchedResource w2 EndpointType = Some p' /\ NonceAcked p' = "n2".
Proof.
  destruct (Send_update_ok 7 sample_proxy EndpointType "n2" sample_ready)
    as (w1 & E & _ & Hg); [done|].
  specialize (Hg EndpointType). rewrite decide_True, sample_get in Hg by done.
  destruct (ack_is_not_answered 7 sample_proxy EndpointType "n2" w1 _
    (sample_request EndpointType "n2" ["a"] None) sample_ready sample_quiet
    ltac:(done) E Hg eq_refl eq_refl eq_refl) as (w2 & p' & H1 & H2 & H3 & _).
  { left. apply set_eq. intros x. cbn. set_solver. }
  by exists w1, w2, p'.
Defined.

Definition sample_init : DiscoveryRequest := sample_request EndpointType "" ["b"] None.

Lemma exchange_converges_witness :
  exists w1 d w2 w3,
    ShouldRespond sample_proxy sample_init = Ok (w1, (true, d)) /\
    Send_update 7 w1 EndpointType "n2" = Ok w2 /\
    ShouldRespond w2 (sample_request EndpointType "n2" ["b"] None)
      = Ok (w3, (false, emptyResourceDelta)).
Proof.
  assert (Hc : classify (GetWatchedResource sample_proxy EndpointType) sample_init = Init)
    by (rewrite sample_get; vm_compute; reflexivity).
  edestruct (ShouldRespond_cases sample_proxy sample_init) as (w1 & E & Hr & _);
    [apply sample_ready|change (req_TypeUrl sample_init) with EndpointType; rewrite Hc; done|].
  change (req_TypeUrl sample_init) with EndpointType in E. rewrite Hc in E. simpl in E.
  destruct (Send_update_ok 7 w1 EndpointType "n2" Hr) as (w2 & E2 & _ & _); [done|].
  destruct (exchange_converges 7 sample_proxy sample_init
    "n2" w1 emptyResourceDelta w2 sample_ready sample_quiet) as [w3 H3]; [done|done|done|].
  by exists w1, emptyResourceDelta, w2, w3.
Defined.

Lemma stale_nonce_ignored_witness :
  exists w', ShouldRespond sample_proxy (sample_request EndpointType "n0" ["a"] None)
    = Ok (w', (false, emptyResourceDelta)).
Proof.
  destruct (stale_nonce_ignored sample_proxy (sample_request EndpointType "n0" ["a"] None) _
    sample_ready sample_get eq_refl) as (w' & H & _); [done|done|..|by exists w'].
  - apply set_eq. intros x. cbn. set_solver.
  - cbn. set_solver.
Defined.

Lemma unknown_nonce_unanswered_witness :
  exists w1 w2, ShouldRespond sample_proxy (sample_request RouteType "x" ["r"] None)
      = Ok (w1, (false, emptyResourceDelta)) /\
    ShouldRespond w1 (sample_request RouteType "x" ["r"] None)
      = Ok (w2, (false, emptyResourceDelta)).
Proof.
  destruct (unknown_nonce_unanswered sample_proxy (sample_request RouteType "x" ["r"] None)
    sample_ready) as (w1 & w2 & H1 & H2 & _); [by apply lookup_singleton_ne|done|done| |].
  - cbn. set_solver.
  - by exists w1, w2.
Defined.
