(* ===== verification/Delta.v ===== *)
(** * The incremental protocol

    [dubbod/discovery/pkg/xds/delta.go]: the subscription arithmetic of a delta
    request, [shouldRespondDelta] and the bookkeeping of [sendDelta]. *)

From S2P Require Import Prelude GoStrings GoSets ConfigKeys PushRequest Watch.

(** [discovery.DeltaDiscoveryRequest]; [d_ErrorDetail] keeps the message. *)
Record DeltaDiscoveryRequest : Type := mkDeltaRequest {
  d_TypeUrl : string;
  d_ResponseNonce : string;
  d_ErrorDetail : option string;
  ResourceNamesSubscribe : list string;
  ResourceNamesUnsubscribe : list string;
  InitialResourceVersions : gmap string string
}.

(** The two insertion loops: [if !res.InsertContains(r) { changed = true }]. *)
Fixpoint insert_loop (names : list string) (acc : nset string * bool)
  : res (nset string * bool) :=
  match names with
  | [] => Ok acc
  | r :: names =>
      let '(s, changed) := acc in
      '(s, had) ← GoSet.InsertContains s r;
      insert_loop names (s, changed || negb had)
  end.

(** The deletion loop: [if res.DeleteContains(r) { changed = true }]. *)
Definition delete_loop (names : list string) (acc : nset string * bool) : nset string * bool :=
  fold_left (fun '(s, changed) r =>
    let '(s, had) := GoSet.DeleteContains s r in (s, changed || had)) names acc.

Definition deltaWatchedResources (existing : nset string) (request : DeltaDiscoveryRequest)
  : res (nset string * bool * bool) :=
  let res0 := match existing with None => GoSet.New [] | Some s => Some s end in
  acc ← insert_loop (ResourceNamesSubscribe request) (res0, false);
  acc ← insert_loop (map_to_list (InitialResourceVersions request)).*1 acc;
  let '(s, changed) := delete_loop (ResourceNamesUnsubscribe request) acc in
  let '(s, wildcard) :=
    if GoSet.Contains s "*" then (GoSet.Delete s "*", true) else (s, false) in
  let wildcard :=
    if (length (ResourceNamesSubscribe request) =? 0)%nat then true else wildcard in
  Ok (s, wildcard, changed).

(** [shouldRespondDelta] on the watches of the connection's proxy. *)
Definition shouldRespondDelta (proxy : ProxyWatch.watches) (request : DeltaDiscoveryRequest)
  : res (ProxyWatch.watches * bool) :=
  let url := d_TypeUrl request in
  let nonce := d_ResponseNonce request in
  match d_ErrorDetail request with
  | Some msg =>
      proxy ← UpdateWatch proxy url (fun wr =>
        match wr with Some wr => Ok (Some (set_LastError msg wr)) | None => nil_deref end);
      Ok (proxy, false)
  | None =>
  match GetWatchedResource proxy url with
  | None =>
      '(names, wildcard, _) ← deltaWatchedResources None request;
      proxy ← ProxyWatch.write proxy url
        (mkWatched url names wildcard "" "" false time_zero "" []);
      Ok (proxy, true)
  | Some previousInfo =>
      if negb (String.eqb nonce "") && negb (String.eqb nonce (NonceSent previousInfo)) then
        Ok (proxy, false)
      else
        let spontaneousReq := String.eqb nonce "" in
        '(proxy, (alwaysRespond, subChanged)) ←
          UpdateWatchedResource (A := bool * bool) proxy url (fun wr =>
            match wr with
            | None => nil_deref
            | Some wr =>
                '(names, _, subChanged) ← deltaWatchedResources (ResourceNames wr) request;
                let wr := set_ResourceNames names wr in
                let wr := if spontaneousReq then wr
                          else set_NonceAcked nonce (set_LastError "" wr) in
                Ok (Some (set_AlwaysRespond false wr), (AlwaysRespond wr, subChanged))
            end);
        if negb subChanged then
          if alwaysRespond : bool then Ok (proxy, true) else Ok (proxy, false)
        else Ok (proxy, true)
  end
  end.

(** The bookkeeping of [sendDelta] once the stream accepted the response. *)
Definition sendDelta_update (now : Time) (proxy : ProxyWatch.watches) (url nonce : string)
    (newResourceNames : nset string) : res ProxyWatch.watches :=
  UpdateWatch proxy url (fun wr =>
    let wr := match wr with None => new_watch url None | Some wr => wr end in
    let wr := match newResourceNames with
              | Some _ => set_ResourceNames newResourceNames wr | None => wr end in
    Ok (Some (set_LastSendTime now (set_NonceSent nonce wr)))).

(** ** Subscription arithmetic *)

Definition subscribed (request : DeltaDiscoveryRequest) : gset string :=
  list_to_set (ResourceNamesSubscribe request) ∪ dom (InitialResourceVersions request).
Definition unsubscribed (request : DeltaDiscoveryRequest) : gset string :=
  list_to_set (ResourceNamesUnsubscribe request).

(** The names watched after a request, and whether the request changed them. *)
Definition next_names (e : gset string) (request : DeltaDiscoveryRequest) : gset string :=
  ((e ∪ subscribed request) ∖ unsubscribed request) ∖ {[ "*" ]}.
Definition sub_changed (e : gset string) (request : DeltaDiscoveryRequest) : bool :=
  bool_decide (~ subscribed request ⊆ e
    \/ unsubscribed request ∩ (e ∪ subscribed request) <> ∅).
Definition wants_wildcard (e : gset string) (request : DeltaDiscoveryRequest) : bool :=
  bool_decide (ResourceNamesSubscribe request = []
    \/ "*" ∈ (e ∪ subscribed request) ∖ unsubscribed request).

Lemma insert_loop_eq names e c :
  insert_loop names (Some e, c)
  = Ok (Some (e ∪ list_to_set names), c || bool_decide (~ list_to_set names ⊆ e)).
Proof.
  revert e c; induction names as [|r names IH]; intros e c; cbn [insert_loop].
  - rewrite bool_decide_eq_false_2 by set_solver. rewrite orb_false_r. simpl.
    do 3 f_equal. set_solver.
  - rewrite GoSet.InsertContains_some. cbn [mbind res_bind]. rewrite IH. simpl. do 2 f_equal.
    + f_equal. set_solver.
    + rewrite <- orb_assoc. f_equal. apply eq_true_iff_eq.
      rewrite orb_true_iff, negb_true_iff, bool_decide_eq_false, !bool_decide_eq_true.
      destruct (decide (r ∈ e)); set_solver.
Qed.

Lemma delete_loop_eq names e c :
  delete_loop names (Some e, c)
  = (Some (e ∖ list_to_set names), c || bool_decide (list_to_set names ∩ e <> ∅)).
Proof.
  unfold delete_loop. revert e c; induction names as [|r names IH]; intros e c; simpl.
  - rewrite bool_decide_eq_false_2 by set_solver. rewrite orb_false_r. do 2 f_equal. set_solver.
  - rewrite GoSet.DeleteContains_some. rewrite IH. f_equal.
    + f_equal. set_solver.
    + rewrite <- orb_assoc. f_equal. apply eq_true_iff_eq.
      rewrite orb_true_iff, !bool_decide_eq_true.
      destruct (decide (r ∈ e)); [set_solver|].
      assert (list_to_set names ∩ (e ∖ {[r]}) = ({[r]} ∪ list_to_set names) ∩ e) as ->
        by set_solver. set_solver.
Qed.

Lemma initial_names (m : gmap string string) :
  list_to_set (map_to_list m).*1 = (dom m : gset string).
Proof.
  apply set_eq; intros x. rewrite elem_of_list_to_set, list_elem_of_fmap, elem_of_dom. split.
  - intros ([k v] & -> & Hkv). apply elem_of_map_to_list in Hkv. by eexists.
  - intros [v Hv]. exists (x, v). split; [done|]. by apply elem_of_map_to_list.
Qed.

Lemma deltaWatchedResources_eq existing request :
  deltaWatchedResources existing request
  = Ok (Some (next_names (nset_elems existing) request),
        wants_wildcard (nset_elems existing) request,
        sub_changed (nset_elems existing) request).
Proof.
  set (e := nset_elems existing).
  unfold deltaWatchedResources.
  assert (match existing with None => GoSet.New [] | Some s => Some s end = Some e) as ->
    by (by destruct existing).
  rewrite insert_loop_eq. cbn [mbind res_bind].
  rewrite insert_loop_eq. cbn [mbind res_bind]. rewrite delete_loop_eq, initial_names.
  fold (unsubscribed request). cbn [orb].
  assert (Hall : e ∪ list_to_set (ResourceNamesSubscribe request)
    ∪ dom (InitialResourceVersions request) = e ∪ subscribed request)
    by (unfold subscribed; set_solver).
  rewrite Hall.
  assert (Hch : bool_decide (~ list_to_set (ResourceNamesSubscribe request) ⊆ e)
      || bool_decide (~ dom (InitialResourceVersions request)
           ⊆ e ∪ list_to_set (ResourceNamesSubscribe request))
      || bool_decide (unsubscribed request ∩ (e ∪ subscribed request) <> ∅)
    = sub_changed e request).
  { unfold sub_changed. apply eq_true_iff_eq. rewrite !orb_true_iff, !bool_decide_eq_true.
    unfold subscribed at 2.
    destruct (decide (list_to_set (ResourceNamesSubscribe request) ⊆ e)); [|set_solver].
    destruct (decide (dom (InitialResourceVersions request)
      ⊆ e ∪ list_to_set (ResourceNamesSubscribe request))); set_solver. }
  rewrite Hch. set (rest := (e ∪ subscribed request) ∖ unsubscribed request).
  assert (Hw : forall b, (if (length (ResourceNamesSubscribe request) =? 0)%nat then true else b)
    = bool_decide (ResourceNamesSubscribe request = []) || b).
  { intros b. by destruct (ResourceNamesSubscribe request). }
  unfold GoSet.Contains. simpl nset_elems.
  destruct (decide ("*" ∈ rest)) as [Hs|Hs];
    [rewrite (bool_decide_eq_true_2 _ Hs)|rewrite (bool_decide_eq_false_2 _ Hs)].
  - cbv beta iota zeta. rewrite Hw. do 3 f_equal. unfold wants_wildcard.
    rewrite orb_true_r. symmetry. apply bool_decide_eq_true. by right.
  - cbv beta iota zeta. rewrite Hw, orb_false_r. do 3 f_equal.
    + unfold next_names. fold rest. f_equal. set_solver.
    + unfold wants_wildcard. apply bool_decide_ext. fold rest. naive_solver.
Qed.

Lemma next_names_no_star e request : "*" ∉ next_names e request.
Proof. unfold next_names. set_solver. Qed.

(** ** [shouldRespondDelta] *)

Definition delta_watch (request : DeltaDiscoveryRequest) : WatchedResource :=
  mkWatched (d_TypeUrl request) (Some (next_names ∅ request)) (wants_wildcard ∅ request)
    "" "" false time_zero "" [].

(** The watch after a delta request that is neither an error nor expired. *)
Definition delta_next (p : WatchedResource) (request : DeltaDiscoveryRequest) : WatchedResource :=
  let p' := set_ResourceNames (Some (next_names (watched_names p) request)) p in
  set_AlwaysRespond false
    (if String.eqb (d_ResponseNonce request) "" then p'
     else set_NonceAcked (d_ResponseNonce request) (set_LastError "" p')).

Definition expired (p : WatchedResource) (request : DeltaDiscoveryRequest) : bool :=
  negb (String.eqb (d_ResponseNonce request) "")
  && negb (String.eqb (d_ResponseNonce request) (NonceSent p)).

Section on_map.
Implicit Types (m : gmap string WatchedResource) (request : DeltaDiscoveryRequest).

Lemma shouldRespondDelta_nack m request msg :
  d_ErrorDetail request = Some msg ->
  shouldRespondDelta (Some m) request =
  match m !! d_TypeUrl request with
  | Some p => Ok (Some (<[d_TypeUrl request := set_LastError msg p]> m), false)
  | None => nil_deref
  end.
Proof.
  intros He. unfold shouldRespondDelta. rewrite He. cbn.
  unfold ProxyWatch.UpdateWatchedResource; simpl. by destruct (m !! d_TypeUrl request).
Qed.

Lemma shouldRespondDelta_init m request :
  d_ErrorDetail request = None -> m !! d_TypeUrl request = None ->
  shouldRespondDelta (Some m) request
  = Ok (Some (<[d_TypeUrl request := delta_watch request]> m), true).
Proof.
  intros He Hm. unfold shouldRespondDelta. rewrite He.
  change (GetWatchedResource (Some m) (d_TypeUrl request)) with (m !! d_TypeUrl request).
  rewrite Hm, deltaWatchedResources_eq. done.
Qed.

Lemma shouldRespondDelta_watched m request p :
  d_ErrorDetail request = None -> m !! d_TypeUrl request = Some p ->
  shouldRespondDelta (Some m) request =
  if expired p request then Ok (Some m, false)
  else Ok (Some (<[d_TypeUrl request := delta_next p request]> m),
           sub_changed (watched_names p) request || AlwaysRespond p).
Proof.
  intros He Hm. unfold shouldRespondDelta. rewrite He.
  change (GetWatchedResource (Some m) (d_TypeUrl request)) with (m !! d_TypeUrl request).
  rewrite Hm. unfold expired. destruct (negb _ && negb _); [done|].
  cbn [UpdateWatchedResource proxy_watcher]. unfold ProxyWatch.UpdateWatchedResource. simpl.
  rewrite Hm, deltaWatchedResources_eq. simpl. fold (watched_names p).
  unfold delta_next. destruct (String.eqb (d_ResponseNonce request) ""); simpl;
    destruct (sub_changed (watched_names p) request); simpl; by destruct (AlwaysRespond p).
Qed.
End on_map.

(** ** Properties *)

(** The subscription loops compute the set the protocol prescribes: the
    new names are the old ones plus the subscribed and initially known ones,
    minus the unsubscribed ones and the wildcard marker; the change flag is
    raised exactly when a name was really added or removed. *)
Theorem delta_subscription_arithmetic existing request :
  exists names wildcard changed,
    deltaWatchedResources existing request = Ok (Some names, wildcard, changed) /\
    (forall n, n ∈ names <->
       (n ∈ nset_elems existing \/ n ∈ ResourceNamesSubscribe request
        \/ is_Some (InitialResourceVersions request !! n))
       /\ n ∉ ResourceNamesUnsubscribe request /\ n <> "*") /\
    (changed = false -> forall n, n ∈ names <-> n ∈ nset_elems existing /\ n <> "*").
Proof.
  rewrite deltaWatchedResources_eq. eexists _, _, _. split; [done|]. split.
  - intros n. unfold next_names, subscribed, unsubscribed.
    rewrite !elem_of_difference, !elem_of_union, !elem_of_list_to_set, elem_of_dom,
      not_elem_of_singleton. tauto.
  - unfold sub_changed. intros Hc%bool_decide_eq_false n. unfold next_names.
    assert (subscribed request ⊆ nset_elems existing)
      by (destruct (decide (subscribed request ⊆ nset_elems existing)); [done|exfalso; tauto]).
    assert (unsubscribed request ∩ (nset_elems existing ∪ subscribed request) = ∅) as Hu
      by (destruct (decide (unsubscribed request ∩ (nset_elems existing ∪ subscribed request) = ∅));
          [done|exfalso; tauto]).
    split; [set_solver|]. intros [Hin Hs].
    assert (n ∉ unsubscribed request) by set_solver. set_solver.
Qed.

(** A delta response that was sent is acknowledged silently: after
    [sendDelta] with nonce [n], a request that carries [n] and changes no
    subscription is not answered, and the watch records the nonce as
    acknowledged and keeps the names that were sent. *)
Theorem delta_ack_is_not_answered now m url n names p request m1 :
  n <> "" ->
  m !! url = Some p -> AlwaysRespond p = false ->
  sendDelta_update now (Some m) url n names = Ok (Some m1) ->
  d_TypeUrl request = url -> d_ResponseNonce request = n -> d_ErrorDetail request = None ->
  ResourceNamesSubscribe request = [] -> ResourceNamesUnsubscribe request = [] ->
  InitialResourceVersions request = ∅ ->
  exists m2 p', shouldRespondDelta (Some m1) request = Ok (Some m2, false) /\
    m2 !! url = Some p' /\ NonceAcked p' = n /\
    watched_names p'
      = (match names with Some s => s | None => watched_names p end) ∖ {[ "*" ]}.
Proof.
  intros Hn Hp Ha Hsend Hurl Hnonce He Hs Hu Hi.
  set (p1 := set_LastSendTime now (set_NonceSent n
    (match names with Some _ => set_ResourceNames names p | None => p end))).
  assert (Hm1 : m1 = <[url := p1]> m).
  { unfold sendDelta_update, UpdateWatch in Hsend. cbn in Hsend.
    unfold ProxyWatch.UpdateWatchedResource in Hsend. simpl in Hsend. rewrite Hp in Hsend.
    simpl in Hsend. by injection Hsend as <-. }
  assert (Hget : m1 !! d_TypeUrl request = Some p1)
    by (by rewrite Hm1, Hurl, lookup_insert_eq).
  assert (Hsub : subscribed request = ∅) by (unfold subscribed; rewrite Hs, Hi; set_solver).
  assert (Huns : unsubscribed request = ∅) by (unfold unsubscribed; by rewrite Hu).
  assert (Hexp : expired p1 request = false).
  { unfold expired. rewrite Hnonce. subst p1. simpl. rewrite String.eqb_refl.
    by rewrite andb_false_r. }
  assert (Hch : sub_changed (watched_names p1) request = false).
  { unfold sub_changed. rewrite Hsub, Huns. apply bool_decide_eq_false. set_solver. }
  assert (Ha1 : AlwaysRespond p1 = false) by (subst p1; by destruct names).
  rewrite (shouldRespondDelta_watched m1 request p1 He Hget), Hexp, Hch, Ha1.
  eexists _, _. split; [done|]. rewrite Hurl, lookup_insert_eq. split; [done|].
  unfold delta_next. rewrite Hnonce, (proj2 (String.eqb_neq _ _) Hn).
  split; [done|]. unfold watched_names at 1. simpl. unfold next_names.
  rewrite Hsub, Huns. subst p1. destruct names; simpl; set_solver.
Qed.

Lemma delta_ack_is_not_answered_witness :
  exists m1 m2 p', sendDelta_update 5 (Some {[ RouteType := new_watch RouteType None ]})
      RouteType "n1" (Some {[ "r" ]}) = Ok (Some m1) /\
    shouldRespondDelta (Some m1) (mkDeltaRequest RouteType "n1" None [] [] ∅) = Ok (Some m2, false) /\
    m2 !! RouteType = Some p'.
Proof.
  eexists. edestruct (delta_ack_is_not_answered 5 {[ RouteType := new_watch RouteType None ]}
    RouteType "n1" (Some {[ "r" ]}) (new_watch RouteType None)
    (mkDeltaRequest RouteType "n1" None [] [] ∅)) as (m2 & p' & H1 & H2 & _); try done.
  exists m2, p'. split; [|split; [apply H1|apply H2]]. done.
Defined.

(** A delta NACK for a type that is not watched panics, and nothing
    else does: [shouldRespondDelta] dereferences the missing watch. *)
Theorem shouldRespondDelta_panics_iff m request :
  (exists why, shouldRespondDelta (Some m) request = Panic why) <->
  m !! d_TypeUrl request = None /\ d_ErrorDetail request <> None.
Proof.
  destruct (d_ErrorDetail request) as [msg|] eqn:He.
  - rewrite (shouldRespondDelta_nack _ _ _ He).
    destruct (m !! d_TypeUrl request); unfold nil_deref; naive_solver.
  - destruct (m !! d_TypeUrl request) as [p|] eqn:Hm.
    + rewrite (shouldRespondDelta_watched _ _ _ He Hm). destruct (expired p request); naive_solver.
    + rewrite (shouldRespondDelta_init _ _ He Hm). naive_solver.
Qed.
