(* ===== verification/Service.v ===== *)
(** * Services and endpoints

    [dubbod/discovery/pkg/model/service.go]: the service and endpoint records
    the registries produce, the comparisons that decide whether a change is
    worth a push, and the subset keys under which clusters are named. *)

From S2P Require Import Prelude GoStrings GoSets GoSlices Hosts.

(** ** Data *)

Inductive Resolution : Type := ClientSideLB | DNSLB | Passthrough | DNSRoundRobinLB | Alias.

#[global] Instance Resolution_eq_dec : EqDecision Resolution.
Proof. solve_decision. Defined.

(** [HealthStatus] is an [int32]: the zero value is none of the constants. *)
Definition HealthStatus : Type := Z.
Definition Healthy : HealthStatus := 1.
Definition UnHealthy : HealthStatus := 2.
Definition Draining : HealthStatus := 3.
Definition Terminating : HealthStatus := 4.

Definition TrafficDirection : Type := string.
Definition TrafficDirectionInbound : TrafficDirection := "inbound".
Definition TrafficDirectionOutbound : TrafficDirection := "outbound".
Definition trafficDirectionOutboundSrvPrefix : string := TrafficDirectionOutbound +:+ "_".
Definition trafficDirectionInboundSrvPrefix : string := TrafficDirectionInbound +:+ "_".

Module Port.
Record t : Type := mk { Name : string; Number : Z; Protocol : protocol.Instance }.
#[global] Instance eq_dec : EqDecision t.
Proof. solve_decision. Defined.
End Port.
Notation Port := Port.t.

(** A list of pointers to ports. *)
Definition PortList : Type := list (option Port).

Record NamespacedHostname : Type := mkNamespacedHostname {
  nh_Hostname : host.Name; nh_Namespace : string }.
#[global] Instance NamespacedHostname_eq_dec : EqDecision NamespacedHostname.
Proof. solve_decision. Defined.

Record K8sAttributes : Type := mkK8s {
  Type_ : string; ExternalName : string; NodeLocal : bool; ObjectName : string;
  PublishNotReadyAddresses : bool }.
#[global] Instance K8sAttributes_eq_dec : EqDecision K8sAttributes.
Proof. solve_decision. Defined.

Module Attributes.
Record t : Type := mk {
  Labels : labels.Instance;
  LabelSelectors : labels.Instance;
  ExportTo : nset string;
  Aliases : list NamespacedHostname;
  PassthroughTargetPorts : nmap Z Z;
  Name : string;
  Namespace : string;
  ServiceRegistry : string;
  K8s : K8sAttributes }.
End Attributes.
Notation ServiceAttributes := Attributes.t.

Module Service.
Record t : Type := mk {
  Attributes : ServiceAttributes;
  Hostname : host.Name;
  Ports : PortList;
  ServiceAccounts : list string;
  Addresses : list string;
  CreationTime : Time;
  DefaultAddress : string;
  ResourceVersion : string;
  Resolution : Resolution;
  AutoAllocatedIPv4Address : string;
  AutoAllocatedIPv6Address : string;
  MeshExternal : bool }.
End Service.
Notation Service := Service.t.

(** A service a workload implements: the service and its port, nil when
    unknown, and the port the workload listens on. *)
Record ServiceTarget : Type := mkServiceTarget {
  st_Service : option Service;
  st_ServicePort : option Port;
  st_TargetPort : Z
}.

(** [DiscoverabilityPolicy] is an interface with the single method [String],
    which is all the code asks of it: nil, or the text it gives. *)
Module Endpoint.
Record t : Type := mk {
  ServiceAccount : string;
  Addresses : list string;
  ServicePortName : string;
  Labels : labels.Instance;
  Network : string;
  Locality : string;
  LbWeight : Z;
  HealthStatus : HealthStatus;
  SendUnhealthyEndpoints : bool;
  DiscoverabilityPolicy : option string;
  LegacyClusterPortKey : Z;
  EndpointPort : Z;
  WorkloadName : string;
  Namespace : string;
  HostName : string;
  SubDomain : string;
  NodeName : string }.
#[global] Instance eq_dec : EqDecision t.
Proof. solve_decision. Defined.
End Endpoint.
Notation DubboEndpoint := Endpoint.t.

(** ** Endpoints *)

Definition FirstAddressOrNil (ep : option DubboEndpoint) : string :=
  match ep with
  | None => ""
  | Some ep => match Endpoint.Addresses ep with [] => "" | a :: _ => a end
  end.

(** [Key] reads the fields of its receiver, which panics on nil; callers hold
    an endpoint. *)
Definition Endpoint_Key (ep : DubboEndpoint) : string :=
  FirstAddressOrNil (Some ep) +:+ "/" +:+ Endpoint.WorkloadName ep
    +:+ "/" +:+ Endpoint.ServicePortName ep.

(** [maps.Equal] ignores whether a map is nil or empty. *)
Definition maps_Equal `{Countable K, EqDecision V} (a b : nmap K V) : bool :=
  bool_decide (nmap_get a = nmap_get b).

Definition sets_maps_Equal (a b : nset string) : bool :=
  bool_decide (nset_elems a = nset_elems b).

Definition Endpoint_Equals (ep other : option DubboEndpoint) : bool :=
  match ep, other with
  | None, None => true
  | None, Some _ | Some _, None => false
  | Some ep, Some other =>
      let eq :=
        String.eqb (Endpoint.ServicePortName ep) (Endpoint.ServicePortName other) &&
        String.eqb (Endpoint.ServiceAccount ep) (Endpoint.ServiceAccount other) &&
        String.eqb (Endpoint.WorkloadName ep) (Endpoint.WorkloadName other) &&
        String.eqb (Endpoint.Network ep) (Endpoint.Network other) &&
        String.eqb (Endpoint.Locality ep) (Endpoint.Locality other) &&
        (Endpoint.LbWeight ep =? Endpoint.LbWeight other) &&
        Bool.eqb (Endpoint.SendUnhealthyEndpoints ep) (Endpoint.SendUnhealthyEndpoints other) in
      if negb eq then false else
      if negb (Slices.EqualUnordered (Endpoint.Addresses ep) (Endpoint.Addresses other)) then false else
      if negb (maps_Equal (Endpoint.Labels ep) (Endpoint.Labels other)) then false else
      let epp := default "" (Endpoint.DiscoverabilityPolicy ep) in
      let op := default "" (Endpoint.DiscoverabilityPolicy other) in
      if negb (String.eqb epp op) then false else
      if negb (Endpoint.HealthStatus ep =? Endpoint.HealthStatus other) then false else
      if negb (Endpoint.EndpointPort ep =? Endpoint.EndpointPort other) then false else
      true
  end.

#[global] Arguments Endpoint_Equals : simpl never.

(** ** Services *)

(** A copy has its own maps and slices; the values are the same ([ExportTo]
    goes through the set's own copy). *)
Definition Attributes_DeepCopy (s : ServiceAttributes) : ServiceAttributes :=
  {| Attributes.Labels := Attributes.Labels s;
     Attributes.LabelSelectors := Attributes.LabelSelectors s;
     Attributes.ExportTo := match Attributes.ExportTo s with
       | Some _ => GoSet.Copy (Attributes.ExportTo s) | None => None end;
     Attributes.Aliases := Attributes.Aliases s;
     Attributes.PassthroughTargetPorts := Attributes.PassthroughTargetPorts s;
     Attributes.Name := Attributes.Name s;
     Attributes.Namespace := Attributes.Namespace s;
     Attributes.ServiceRegistry := Attributes.ServiceRegistry s;
     Attributes.K8s := Attributes.K8s s |}.

Definition Attributes_Equals (s other : option ServiceAttributes) : bool :=
  match s, other with
  | None, None => true
  | None, Some _ | Some _, None => false
  | Some s, Some other =>
      if negb (maps_Equal (Attributes.Labels s) (Attributes.Labels other)) then false else
      if negb (maps_Equal (Attributes.LabelSelectors s) (Attributes.LabelSelectors other)) then false else
      if negb (sets_maps_Equal (Attributes.ExportTo s) (Attributes.ExportTo other)) then false else
      if negb (bool_decide (Attributes.Aliases s = Attributes.Aliases other)) then false else
      String.eqb (Attributes.Name s) (Attributes.Name other) &&
      String.eqb (Attributes.Namespace s) (Attributes.Namespace other) &&
      String.eqb (Attributes.ServiceRegistry s) (Attributes.ServiceRegistry other) &&
      bool_decide (Attributes.K8s s = Attributes.K8s other)
  end.

(** The loop over the ports rebuilds each of them. *)
Definition Service_DeepCopy (s : Service) : Service :=
  {| Service.Attributes := Attributes_DeepCopy (Service.Attributes s);
     Service.Hostname := Service.Hostname s;
     Service.Ports := map (fun port : option Port => match port with
       | Some p => Some (Port.mk (Port.Name p) (Port.Number p) (Port.Protocol p))
       | None => None end) (Service.Ports s);
     Service.ServiceAccounts := Service.ServiceAccounts s;
     Service.Addresses := Service.Addresses s;
     Service.CreationTime := Service.CreationTime s;
     Service.DefaultAddress := Service.DefaultAddress s;
     Service.ResourceVersion := Service.ResourceVersion s;
     Service.Resolution := Service.Resolution s;
     Service.AutoAllocatedIPv4Address := Service.AutoAllocatedIPv4Address s;
     Service.AutoAllocatedIPv6Address := Service.AutoAllocatedIPv6Address s;
     Service.MeshExternal := Service.MeshExternal s |}.

Definition Service_Key (s : option Service) : string :=
  match s with
  | None => ""
  | Some s => Attributes.Namespace (Service.Attributes s) +:+ "/" +:+ Service.Hostname s
  end.

Definition Port_Equals (p other : option Port) : bool :=
  match p, other with
  | None, None => true
  | None, Some _ | Some _, None => false
  | Some p, Some other =>
      String.eqb (Port.Name p) (Port.Name other) && (Port.Number p =? Port.Number other)
      && String.eqb (Port.Protocol p) (Port.Protocol other)
  end.

Definition PortList_Equals (ports other : PortList) : bool :=
  Slices.EqualFunc ports other Port_Equals.

Definition Service_Equals (s other : option Service) : bool :=
  match s, other with
  | None, None => true
  | None, Some _ | Some _, None => false
  | Some s, Some other =>
      if negb (Attributes_Equals (Some (Service.Attributes s)) (Some (Service.Attributes other)))
      then false else
      if negb (PortList_Equals (Service.Ports s) (Service.Ports other)) then false else
      if negb (Slices.Equal (Service.ServiceAccounts s) (Service.ServiceAccounts other)) then false else
      if negb (Slices.Equal (Service.Addresses s) (Service.Addresses other)) then false else
      String.eqb (Service.DefaultAddress s) (Service.DefaultAddress other) &&
      String.eqb (Service.AutoAllocatedIPv4Address s) (Service.AutoAllocatedIPv4Address other) &&
      String.eqb (Service.AutoAllocatedIPv6Address s) (Service.AutoAllocatedIPv6Address other) &&
      String.eqb (Service.Hostname s) (Service.Hostname other) &&
      bool_decide (Service.Resolution s = Service.Resolution other) &&
      Bool.eqb (Service.MeshExternal s) (Service.MeshExternal other)
  end.

Definition SupportsUnhealthyEndpoints (s : option Service) : bool :=
  match s with
  | None => false
  | Some s => PublishNotReadyAddresses (Attributes.K8s (Service.Attributes s))
  end.

(** [nodeUsesAutoallocatedIPs] is false for every node. *)
Definition nodeUsesAutoallocatedIPs : bool := false.

Definition getAllAddressesForProxy (s : Service) : list string :=
  let addresses := Service.Addresses s in
  let addresses :=
    if (length addresses =? 0)%nat && nodeUsesAutoallocatedIPs then
      let a4 := Service.AutoAllocatedIPv4Address s in
      let a6 := Service.AutoAllocatedIPv6Address s in
      let addresses := if negb (String.eqb a4 "") then addresses ++ [a4] else addresses in
      if negb (String.eqb a6 "") then addresses ++ [a6] else addresses
    else addresses in
  if (0 <? length addresses)%nat then addresses
  else if (0 <? String.length (Service.DefaultAddress s))%nat then [Service.DefaultAddress s]
  else [].

Definition GetAddressForProxy (s : Service) : string :=
  match getAllAddressesForProxy s with [] => "0.0.0.0" | a :: _ => a end.

Definition GetExtraAddressesForProxy (s : Service) : list string :=
  let addresses := getAllAddressesForProxy s in
  if (1 <? length addresses)%nat then drop 1 addresses else [].

(** Dereferencing a nil port panics. *)
Fixpoint GetByPort (ports : PortList) (num : Z) : res (option Port * bool) :=
  match ports with
  | [] => Ok (None, false)
  | None :: _ => Panic "nil pointer dereference"
  | Some port :: ports =>
      if Port.Number port =? num then Ok (Some port, true) else GetByPort ports num
  end.

(** ** Subset keys *)

Definition BuildSubsetKey (direction : TrafficDirection) (subsetName : string)
    (hostname : host.Name) (port : Z) : string :=
  direction +:+ "|" +:+ Itoa port +:+ "|" +:+ subsetName +:+ "|" +:+ hostname.

Definition ParseSubsetKey (s : string) : TrafficDirection * string * host.Name * Z :=
  let sep := if HasPrefix s trafficDirectionOutboundSrvPrefix
                || HasPrefix s trafficDirectionInboundSrvPrefix then "_." else "|" in
  match Cut s sep with
  | (_, _, false) => ("", "", "", 0)
  | (direction, s, true) =>
      match Cut s sep with
      | (_, _, false) => (direction, "", "", 0)
      | (p, s, true) =>
          let port := Atoi_value p in
          match Cut s sep with
          | (_, _, false) => (direction, "", "", port)
          | (subsetName, s, true) =>
              if str_contains s sep then (direction, subsetName, "", port)
              else (direction, subsetName, s, port)
          end
      end
  end.

Definition ParseSubsetKeyHostname (s : string) : string :=
  match LastIndex s "|" with
  | None => let '(_, _, hn, _) := ParseSubsetKey s in hn
  | Some idx => str_drop (S idx) s
  end.

(** ** Lemmas *)

(** What [Service.Equals] compares: a service without its creation time, its
    resource version and its passthrough ports, maps and sets being read
    without distinguishing nil from empty. *)
Definition compared (s : Service) :=
  let a := Service.Attributes s in
  (nmap_get (Attributes.Labels a), nmap_get (Attributes.LabelSelectors a),
   nset_elems (Attributes.ExportTo a), Attributes.Aliases a,
   (Attributes.Name a, Attributes.Namespace a, Attributes.ServiceRegistry a, Attributes.K8s a),
   (Service.Ports s, Service.ServiceAccounts s, Service.Addresses s),
   (Service.DefaultAddress s, Service.AutoAllocatedIPv4Address s,
    Service.AutoAllocatedIPv6Address s, Service.Hostname s, Service.Resolution s,
    Service.MeshExternal s)).

Lemma Port_Equals_spec p q : Port_Equals p q = true <-> p = q.
Proof.
  destruct p as [[]|], q as [[]|]; simpl; try (split; done).
  rewrite !andb_true_iff, !String.eqb_eq, Z.eqb_eq. naive_solver.
Qed.

Lemma PortList_Equals_spec a b : PortList_Equals a b = true <-> a = b.
Proof.
  unfold PortList_Equals. revert b; induction a as [|p a IH]; intros [|q b]; simpl;
    try (split; done).
  destruct (Port_Equals p q) eqn:E.
  - apply Port_Equals_spec in E as ->. rewrite IH. naive_solver.
  - split; [done|]. intros [= <- _].
    assert (Port_Equals p p = true) by by apply Port_Equals_spec. congruence.
Qed.

Lemma if_negb_false (b c : bool) : (if negb b then false else c) = b && c.
Proof. by destruct b. Qed.

Lemma Service_Equals_compared s t :
  Service_Equals (Some s) (Some t) = true <-> compared s = compared t.
Proof.
  unfold Service_Equals, Attributes_Equals, maps_Equal, sets_maps_Equal, Slices.Equal.
  rewrite !if_negb_false, !andb_true_iff, PortList_Equals_spec, !bool_decide_eq_true,
    !String.eqb_eq, Bool.eqb_true_iff.
  unfold compared. split.
  - intros; destruct_and?. congruence.
  - intros E. injection E; intros. repeat split; assumption.
Qed.

Lemma Attributes_DeepCopy_eq a : Attributes_DeepCopy a = a.
Proof. destruct a as [l ls e al p n ns r k]. unfold Attributes_DeepCopy; simpl. f_equal. destruct e; [|done]. by rewrite GoSet.Copy_eq. Qed.

Lemma Service_DeepCopy_eq s : Service_DeepCopy s = s.
Proof.
  destruct s as [a h p sa ad ct da rv r a4 a6 m]. unfold Service_DeepCopy; simpl.
  rewrite Attributes_DeepCopy_eq. f_equal.
  induction p as [|[[n i q]|] p IH]; simpl; by f_equal.
Qed.

(** What [DubboEndpoint.Equals] compares besides the addresses. *)
Definition ep_compared (ep : DubboEndpoint) :=
  (Endpoint.ServicePortName ep, Endpoint.ServiceAccount ep, Endpoint.WorkloadName ep,
   Endpoint.Network ep, Endpoint.Locality ep, Endpoint.LbWeight ep,
   Endpoint.SendUnhealthyEndpoints ep, nmap_get (Endpoint.Labels ep),
   default "" (Endpoint.DiscoverabilityPolicy ep), Endpoint.HealthStatus ep,
   Endpoint.EndpointPort ep).

Lemma Endpoint_Equals_compared ep other :
  Endpoint_Equals (Some ep) (Some other) = true <->
  ep_compared ep = ep_compared other /\
  Slices.EqualUnordered (Endpoint.Addresses ep) (Endpoint.Addresses other) = true.
Proof.
  unfold Endpoint_Equals, maps_Equal.
  cbv zeta. rewrite !if_negb_false, !andb_true_iff, bool_decide_eq_true, !String.eqb_eq,
    !Z.eqb_eq, Bool.eqb_true_iff.
  unfold ep_compared. split.
  - intros; destruct_and?. split; [|done]. congruence.
  - intros [E ?]. injection E; intros. repeat split; assumption.
Qed.

Lemma EqualUnordered_refl {A : Type} `{Countable A} (l : list A) :
  Slices.EqualUnordered l l = true.
Proof.
  unfold Slices.EqualUnordered. rewrite Nat.eqb_refl. simpl. apply forallb_elem.
  intros x Hx. apply bool_decide_eq_true. by apply elem_of_list_to_set.
Qed.

Lemma Endpoint_Equals_refl ep : Endpoint_Equals (Some ep) (Some ep) = true.
Proof. apply Endpoint_Equals_compared. split; [done|]. apply EqualUnordered_refl. Qed.

(** *** Parsing subset keys *)

Fixpoint count_char (c : ascii) (s : string) : nat :=
  match s with
  | EmptyString => 0
  | String d s => ((if Ascii.eqb d c then 1 else 0) + count_char c s)%nat
  end.

Lemma count_char_zero c s : no_char c s = true <-> count_char c s = 0%nat.
Proof.
  induction s as [|d s IH]; simpl; [done|].
  destruct (Ascii.eqb d c); simpl; [split; done|]. done.
Qed.

Lemma count_char_cut c a b :
  no_char c a = true -> count_char c (a +:+ String c b) = S (count_char c b).
Proof.
  induction a as [|d a IH]; simpl; intros Ha; [by rewrite Ascii.eqb_refl|].
  breflect. rewrite IH by done. by rewrite H.
Qed.

(** The text after the last separator. *)
Definition after_last (c : ascii) (s : string) : option string :=
  (fun i => str_drop (S i) s) <$> LastIndex s c.

Lemma after_last_none c s : no_char c s = true -> after_last c s = None.
Proof. intros. unfold after_last. by rewrite LastIndex_none. Qed.

Lemma after_last_cut c a b :
  after_last c (a +:+ String c b) =
  Some (match after_last c b with Some t => t | None => b end).
Proof.
  unfold after_last. induction a as [|d a IH].
  - cbn [String.append LastIndex].
    change ("" +:+ String c b) with (String c b). cbn [LastIndex].
    destruct (LastIndex b c); [done|]. rewrite Ascii.eqb_refl. simpl. by destruct b.
  - change (String d a +:+ String c b) with (String d (a +:+ String c b)).
    cbn [LastIndex]. destruct (LastIndex (a +:+ String c b) c) as [i|] eqn:E; [|done].
    simpl in IH |- *. by injection IH as <-.
Qed.

Lemma Cut_bar_found s b a : cut_at s "|" = Some (b, a) -> Cut s "|" = (b, a, true).
Proof. unfold Cut. by intros ->. Qed.

Lemma ParseSubsetKeyHostname_eq s :
  ParseSubsetKeyHostname s =
  match after_last "|" s with
  | Some t => t
  | None => let '(_, _, hn, _) := ParseSubsetKey s in hn
  end.
Proof. unfold ParseSubsetKeyHostname, after_last. by destruct (LastIndex s "|"). Qed.

Lemma BuildSubsetKey_bars d ss h p :
  BuildSubsetKey d ss h p
  = d +:+ String "|" (Itoa p +:+ String "|" (ss +:+ String "|" h)).
Proof. reflexivity. Qed.

Definition hostname_of (k : TrafficDirection * string * host.Name * Z) : host.Name :=
  let '(_, _, hn, _) := k in hn.

(** [s] is in the DNS SRV form. *)
Definition is_srv (s : string) : bool :=
  HasPrefix s trafficDirectionOutboundSrvPrefix || HasPrefix s trafficDirectionInboundSrvPrefix.

(** The host name the full parser returns, by the number of separators. *)
Lemma ParseSubsetKey_hostname s :
  is_srv s = false ->
  hostname_of (ParseSubsetKey s) =
  if (count_char "|" s =? 3)%nat then default "" (after_last "|" s) else "".
Proof.
  unfold is_srv, ParseSubsetKey. intros ->. cbv zeta. unfold Cut, str_contains.
  destruct (cut_at s "|") as [[a b]|] eqn:E1.
  2:{ apply cut_at_none_inv, count_char_zero in E1. by rewrite E1. }
  apply cut_at_some in E1 as [-> Ha]. rewrite count_char_cut, after_last_cut by done.
  destruct (cut_at b "|") as [[a' b']|] eqn:E2.
  2:{ apply cut_at_none_inv, count_char_zero in E2. by rewrite E2. }
  apply cut_at_some in E2 as [-> Ha']. rewrite count_char_cut, after_last_cut by done.
  destruct (cut_at b' "|") as [[a'' c]|] eqn:E3.
  2:{ apply cut_at_none_inv, count_char_zero in E3. by rewrite E3. }
  apply cut_at_some in E3 as [-> Ha'']. rewrite count_char_cut, after_last_cut by done.
  destruct (cut_at c "|") as [[c1 c2]|] eqn:E4.
  - apply cut_at_some in E4 as [-> Hc1]. by rewrite count_char_cut.
  - apply cut_at_none_inv in E4. rewrite (after_last_none _ _ E4).
    apply count_char_zero in E4. by rewrite E4.
Qed.

Lemma ParseSubsetKey_Build direction subsetName hostname port :
  direction = TrafficDirectionInbound \/ direction = TrafficDirectionOutbound ->
  no_char "|" subsetName = true -> no_char "|" hostname = true -> in_s64 port ->
  ParseSubsetKey (BuildSubsetKey direction subsetName hostname port)
    = (direction, subsetName, hostname, port) /\
  ParseSubsetKeyHostname (BuildSubsetKey direction subsetName hostname port) = hostname.
Proof.
  intros Hd Hs Hh Hp. assert (Hport : no_char "|" (Itoa port) = true) by by apply no_char_Itoa.
  assert (Hdir : no_char "|" direction = true) by by destruct Hd as [-> | ->].
  rewrite BuildSubsetKey_bars. split.
  - unfold ParseSubsetKey. assert (Hsrv : forall t, HasPrefix (direction +:+ String "|" t) trafficDirectionOutboundSrvPrefix
      || HasPrefix (direction +:+ String "|" t) trafficDirectionInboundSrvPrefix = false)
      by by destruct Hd as [-> | ->].
    rewrite Hsrv. cbv zeta. unfold Cut, str_contains.
    rewrite (cut_at_app direction) by done. rewrite (cut_at_app (Itoa port)) by done.
    rewrite (cut_at_app subsetName) by done. rewrite cut_at_none by done.
    by rewrite Itoa_Atoi.
  - rewrite ParseSubsetKeyHostname_eq.
    rewrite (after_last_cut "|" direction), (after_last_cut "|" (Itoa port)),
      (after_last_cut "|" subsetName). by rewrite after_last_none.
Qed.

(** ** Properties *)

(** Cluster names survive a round trip: the parts of a subset key
    built by [BuildSubsetKey] are recovered by [ParseSubsetKey], and the fast
    host-name parser recovers the host name, whenever the subset and the host
    name hold no bar and the port is a machine integer. *)
Theorem subset_key_roundtrip direction subsetName hostname port :
  direction = TrafficDirectionInbound \/ direction = TrafficDirectionOutbound ->
  no_char "|" subsetName = true -> no_char "|" hostname = true -> in_s64 port ->
  ParseSubsetKey (BuildSubsetKey direction subsetName hostname port)
    = (direction, subsetName, hostname, port) /\
  ParseSubsetKeyHostname (BuildSubsetKey direction subsetName hostname port) = hostname.
Proof. apply ParseSubsetKey_Build. Qed.

Lemma subset_key_roundtrip_witness :
  ParseSubsetKey (BuildSubsetKey "outbound" "v1" "demo.ns.svc.cluster.local" 20880)
    = ("outbound", "v1", "demo.ns.svc.cluster.local", 20880).
Proof.
  apply subset_key_roundtrip; [by right|done|done|unfold in_s64, two63; lia].
Defined.

(** The fast host-name parser is a specialisation of the full one
    on well-formed names only: on a name that is not in the SRV form the two
    agree exactly when the name has no bar or three bars, or nothing follows
    its last bar. *)
Theorem fast_hostname_agrees s :
  is_srv s = false ->
  ParseSubsetKeyHostname s = hostname_of (ParseSubsetKey s) <->
  count_char "|" s = 0%nat \/ count_char "|" s = 3%nat \/ after_last "|" s = Some "".
Proof.
  intros Hs. rewrite ParseSubsetKeyHostname_eq.
  destruct (after_last "|" s) as [t|] eqn:E.
  - assert (count_char "|" s <> 0%nat).
    { intros H0%count_char_zero. by rewrite after_last_none in E. }
    rewrite ParseSubsetKey_hostname by done. rewrite E.
    destruct (Nat.eqb_spec (count_char "|" s) 3); simpl; naive_solver.
  - split; [|done]. intros _. left. apply count_char_zero.
    unfold after_last in E. apply LastIndex_none_inv. by destruct (LastIndex s "|").
Qed.

Lemma fast_hostname_agrees_witness :
  ParseSubsetKeyHostname "outbound|host" <> hostname_of (ParseSubsetKey "outbound|host").
Proof.
  intros H%(fast_hostname_agrees "outbound|host"); [|done]. by destruct_or! H.
Defined.

(** [Service.Equals] is exactly equality of the compared part of a
    service (and so an equivalence, unlike [DubboEndpoint.Equals]), nil being
    equal to nil only, and a deep copy equals its original. *)
Theorem Service_Equals_spec (a b : option Service) :
  (Service_Equals a b = true <-> compared <$> a = compared <$> b) /\
  Service_Equals (Service_DeepCopy <$> a) a = true.
Proof.
  split.
  - destruct a as [s|], b as [t|]; simpl; try (split; done).
    change (Service_Equals (Some s) (Some t) = true <-> Some (compared s) = Some (compared t)).
    rewrite Service_Equals_compared. split; [intros E; by rewrite E|apply (inj Some)].
  - destruct a as [s|]; [|done]. cbn [fmap option_fmap option_map].
    rewrite Service_DeepCopy_eq. by apply Service_Equals_compared.
Qed.
