(* ===== verification/XdsCache.v ===== *)
(** * The xDS cache

    [dubbod/discovery/pkg/model/typed_xds_cache.go] and [xds_cache.go]: an LRU
    store of generated resources with an index from the configurations they
    were generated from to their keys, so that a configuration change removes
    what depended on it.  The store is the library [simplelru]: a class of
    operations with the documented behaviour as its laws.  The clock is an
    argument of the operations that read it. *)

From S2P Require Import Prelude GoStrings GoSets ConfigKeys PushRequest.

(** ** [simplelru.LRUCache]

    [contents] is what the store holds.  [Add] and [Remove] return, next to
    the new store, the entries for which the eviction callback was called. *)
Class LRUCache (K V L : Type) := {
  lru_new : L;
  lru_get : L -> K -> option V * L;
  lru_add : L -> K -> V -> L * list (K * V);
  lru_remove : L -> K -> L * list (K * V);
  lru_keys : L -> list K
}.

(** The documented behaviour: a read changes only the recency; an addition
    stores the entry, and every other entry either stays or is dropped with a
    call of the callback; a removal drops the entry with a call of the
    callback; the keys are those of the entries. *)
Class LRULaws (K V L : Type) `{Countable K, LRUCache K V L} := {
  contents : L -> gmap K V;
  contents_new : contents lru_new = ∅;
  contents_get l k : lru_get l k = (contents l !! k, snd (lru_get l k));
  contents_get_state l k : contents (snd (lru_get l k)) = contents l;
  contents_add_new l k v : contents (fst (lru_add l k v)) !! k = Some v;
  contents_add_other l k v k' : k <> k' ->
    contents (fst (lru_add l k v)) !! k' = contents l !! k' \/
    contents (fst (lru_add l k v)) !! k' = None /\
    exists v', contents l !! k' = Some v' /\ (k', v') ∈ snd (lru_add l k v);
  contents_add_evicted l k v k' v' :
    (k', v') ∈ snd (lru_add l k v) -> contents l !! k' = Some v';
  contents_remove l k : contents (fst (lru_remove l k)) = delete k (contents l);
  contents_remove_evicted l k v :
    (k, v) ∈ snd (lru_remove l k) <-> contents l !! k = Some v;
  contents_remove_only l k k' v : (k', v) ∈ snd (lru_remove l k) -> k' = k;
  contents_keys l k : k ∈ lru_keys l <-> is_Some (contents l !! k);
  contents_keys_nodup l : NoDup (lru_keys l)
}.

(** ** [lruCache] *)

Definition ConfigHash : Type := Z.
Definition CacheToken : Type := Z.

Record cacheValue (R : Type) : Type := mkCacheValue {
  value : option R;
  cv_token : CacheToken;
  dependentConfigs : list ConfigHash
}.
Arguments mkCacheValue {_} _ _ _.
Arguments value {_} _.
Arguments cv_token {_} _.
Arguments dependentConfigs {_} _.

Record lruCache (K R L : Type) `{Countable K} : Type := mkLru {
  store : L;
  token : CacheToken;
  configIndex : gmap ConfigHash (gset K);
  evictQueue : list (K * list ConfigHash);
  evictedOnClear : bool
}.
Arguments mkLru {_ _ _ _ _} _ _ _ _ _.
Arguments store {_ _ _ _ _} _.
Arguments token {_ _ _ _ _} _.
Arguments configIndex {_ _ _ _ _} _.
Arguments evictQueue {_ _ _ _ _} _.
Arguments evictedOnClear {_ _ _ _ _} _.

(** [CacheToken(t.UnixNano())]: the conversion from [int64] to [uint64]. *)
Definition time_token (t : Time) : CacheToken := wrap_u64 (UnixNano t).

Section lru.
Context {K R L : Type} `{Countable K} `{!LRUCache K (cacheValue R) L}.
Context (HashCode : ConfigKey -> ConfigHash).
Notation cache := (lruCache K R L).
Implicit Types (l : cache) (k : K).

Definition newTypedXdsCache : cache := mkLru lru_new 0 ∅ [] false.

(** The callback the store was created with. *)
Definition onEvict (q : list (K * list ConfigHash)) (k : K) (v : cacheValue R) :=
  q ++ [(k, dependentConfigs v)].

Definition callbacks q (evicted : list (K * cacheValue R)) :=
  fold_left (fun q kv => onEvict q (fst kv) (snd kv)) evicted q.

Definition set_store l s : cache :=
  mkLru s (token l) (configIndex l) (evictQueue l) (evictedOnClear l).
Definition set_index l ix : cache :=
  mkLru (store l) (token l) ix (evictQueue l) (evictedOnClear l).

Definition get l k (tok : CacheToken) : cache * option R :=
  let '(cv, s) := lru_get (store l) k in
  let l := set_store l s in
  match cv with
  | None => (l, None)
  | Some cv =>
      match value cv with
      | None => (l, None)
      | Some v => if tok <=? cv_token cv then (l, Some v) else (l, None)
      end
  end.

Definition Get l k : cache * option R := get l k 0.

Definition clearConfigIndex l k (dependents : list ConfigHash) : cache :=
  let '(c, s) := lru_get (store l) k in
  let l := set_store l s in
  match c with
  | Some c =>
      let newDependents := dependentConfigs c in
      let d := GoSet.DifferenceInPlace (GoSet.New dependents) (GoSet.New newDependents) in
      set_index l (fold_left (fun ix cfg => GoSet.DeleteCleanupLast ix cfg k)
        (GoSet.UnsortedList d) (configIndex l))
  | None =>
      set_index l (fold_left (fun ix cfg => GoSet.DeleteCleanupLast ix cfg k)
        dependents (configIndex l))
  end.

Definition Flush l : cache :=
  let l := fold_left (fun l kc => clearConfigIndex l (fst kc) (snd kc)) (evictQueue l) l in
  mkLru (store l) (token l) (configIndex l) [] (evictedOnClear l).

Definition updateConfigIndex (ix : gmap ConfigHash (gset K)) k (dependents : list ConfigHash) :=
  fold_left (fun ix cfg => GoSet.InsertOrNew ix cfg k) dependents ix.

(** [entry.DependentConfigs()] is [deps]. *)
Definition Add l k (deps : list ConfigHash) (pushReq : option PushRequest) (v : option R)
  : cache :=
  match pushReq with
  | None => l
  | Some pushReq =>
      if IsZero (Start pushReq) then l else
      let tok := time_token (Start pushReq) in
      if tok <? token l then l else
      let '(cur, s) := lru_get (store l) k in
      let l := set_store l s in
      let write :=
        let '(s, evicted) := lru_add s k (mkCacheValue v tok deps) in
        let q := callbacks (evictQueue l) evicted in
        let ix := updateConfigIndex (configIndex l) k deps in
        let q := match cur with Some c => q ++ [(k, dependentConfigs c)] | None => q end in
        mkLru s tok ix q (evictedOnClear l) in
      match cur with
      | Some c => if tok <=? cv_token c then l else write
      | None => write
      end
  end.

Definition remove_key l k : cache :=
  let '(s, evicted) := lru_remove (store l) k in
  mkLru s (token l) (configIndex l) (callbacks (evictQueue l) evicted) (evictedOnClear l).

(** One iteration of the loop of [Clear]. *)
Definition clear_config l (ckey : ConfigKey) : cache :=
  let hc := HashCode ckey in
  let referenced := GoSet.members (configIndex l) hc in
  let l := fold_left remove_key (elements referenced) l in
  set_index l (delete hc (configIndex l)).

(** [evictedOnClear] is set for the duration of the call only. *)
Definition Clear l (now : Time) (configs : nset ConfigKey) : cache :=
  let l := mkLru (store l) (time_token now) (configIndex l) (evictQueue l) true in
  let l := fold_left clear_config (GoSet.UnsortedList configs) l in
  mkLru (store l) (token l) (configIndex l) (evictQueue l) false.

Definition ClearAll l (now : Time) : cache :=
  mkLru lru_new (time_token now) ∅ [] (evictedOnClear l).

Definition Keys l : list K := lru_keys (store l).

Definition Snapshot l : cache * list (option R) :=
  fold_left (fun '(l, out) k =>
    let '(v, s) := lru_get (store l) k in
    (set_store l s, out ++ [v ≫= value])) (Keys l) (l, []).

(** ** Invariant *)

Context `{!LRULaws K (cacheValue R) L}.

(** A key is recorded under a configuration because its entry depends on it,
    or because an entry that did is waiting to be unindexed. *)
Definition backed l (cfg : ConfigHash) k : Prop :=
  (exists v, contents (store l) !! k = Some v /\ cfg ∈ dependentConfigs v) \/
  (exists deps, (k, deps) ∈ evictQueue l /\ cfg ∈ deps).

Record inv l : Prop := {
  inv_indexed : forall k v cfg,
    contents (store l) !! k = Some v -> cfg ∈ dependentConfigs v ->
    k ∈ GoSet.members (configIndex l) cfg;
  inv_backed : forall k cfg, k ∈ GoSet.members (configIndex l) cfg -> backed l cfg k;
  inv_tidy : GoSet.tidy (configIndex l)
}.

Lemma callbacks_eq q evicted :
  callbacks q evicted = q ++ map (fun kv => (fst kv, dependentConfigs (snd kv))) evicted.
Proof.
  revert q; induction evicted as [|[k v] ev IH]; intros q; simpl; [by rewrite app_nil_r|].
  unfold callbacks in *. rewrite IH. unfold onEvict. simpl. by rewrite <- app_assoc.
Qed.

Lemma elem_of_callbacks q evicted k deps :
  (k, deps) ∈ callbacks q evicted <->
  (k, deps) ∈ q \/ exists v, (k, v) ∈ evicted /\ deps = dependentConfigs v.
Proof.
  rewrite callbacks_eq, elem_of_app, list_elem_of_fmap. split.
  - intros [?|([k' v] & E & ?)]; [by left|]. simplify_eq/=. right; eauto.
  - intros [?|(v & ? & ->)]; [by left|]. right. by exists (k, v).
Qed.

Lemma updateConfigIndex_members ix k deps cfg :
  GoSet.members (updateConfigIndex ix k deps) cfg =
  if decide (cfg ∈ deps) then {[k]} ∪ GoSet.members ix cfg else GoSet.members ix cfg.
Proof.
  unfold updateConfigIndex. revert ix; induction deps as [|c deps IH]; intros ix; simpl.
  { destruct (decide (cfg ∈ [])); [set_solver|done]. }
  rewrite IH, GoSet.members_InsertOrNew.
  repeat case_decide; set_solver.
Qed.

Lemma updateConfigIndex_tidy ix k deps :
  GoSet.tidy ix -> GoSet.tidy (updateConfigIndex ix k deps).
Proof.
  unfold updateConfigIndex. revert ix; induction deps as [|c deps IH]; intros ix Ht; simpl; [done|].
  by apply IH, GoSet.tidy_InsertOrNew.
Qed.

Lemma unindex_members (ix : gmap ConfigHash (gset K)) k cfgs cfg :
  GoSet.members (fold_left (fun ix cfg => GoSet.DeleteCleanupLast ix cfg k) cfgs ix) cfg =
  if decide (cfg ∈ cfgs) then GoSet.members ix cfg ∖ {[k]} else GoSet.members ix cfg.
Proof.
  revert ix; induction cfgs as [|c cfgs IH]; intros ix; simpl.
  { destruct (decide (cfg ∈ [])); [set_solver|done]. }
  rewrite IH, GoSet.members_DeleteCleanupLast. repeat case_decide; set_solver.
Qed.

Lemma unindex_tidy (ix : gmap ConfigHash (gset K)) k cfgs :
  GoSet.tidy ix ->
  GoSet.tidy (fold_left (fun ix cfg => GoSet.DeleteCleanupLast ix cfg k) cfgs ix).
Proof.
  revert ix; induction cfgs as [|c cfgs IH]; intros ix Ht; simpl; [done|].
  by apply IH, GoSet.tidy_DeleteCleanupLast.
Qed.

(** The configurations an entry stops being recorded under: those of [deps]
    the current entry, if any, does not depend on. *)
Lemma clearConfigIndex_members l k deps cfg k' :
  k' ∈ GoSet.members (configIndex (clearConfigIndex l k deps)) cfg <->
  k' ∈ GoSet.members (configIndex l) cfg /\
  ~ (k' = k /\ cfg ∈ deps /\
     forall v, contents (store l) !! k = Some v -> cfg ∉ dependentConfigs v).
Proof.
  unfold clearConfigIndex. rewrite contents_get.
  destruct (contents (store l) !! k) as [c|] eqn:E; simpl; rewrite unindex_members.
  - destruct (decide (cfg ∈ GoSet.UnsortedList _)) as [Hd|Hd];
      rewrite GoSet.UnsortedList_elem, GoSet.DifferenceInPlace_eq, !GoSet.New_eq in Hd;
      simpl in Hd; rewrite elem_of_difference, !elem_of_list_to_set in Hd.
    + rewrite elem_of_difference, elem_of_singleton. naive_solver.
    + split; [|tauto]. intros ?. split; [done|]. intros (-> & ? & Hv). naive_solver.
  - case_decide; [rewrite elem_of_difference, elem_of_singleton|]; naive_solver.
Qed.

Lemma clearConfigIndex_store l k deps :
  contents (store (clearConfigIndex l k deps)) = contents (store l).
Proof.
  unfold clearConfigIndex. rewrite contents_get.
  destruct (contents (store l) !! k); simpl; apply contents_get_state.
Qed.

Lemma clearConfigIndex_frame l k deps :
  token (clearConfigIndex l k deps) = token l /\
  evictQueue (clearConfigIndex l k deps) = evictQueue l.
Proof. unfold clearConfigIndex. destruct (lru_get (store l) k) as [[?|] ?]; done. Qed.

Lemma clearConfigIndex_tidy l k deps :
  GoSet.tidy (configIndex l) -> GoSet.tidy (configIndex (clearConfigIndex l k deps)).
Proof.
  unfold clearConfigIndex. intros. destruct (lru_get (store l) k) as [[?|] ?]; simpl;
    by apply unindex_tidy.
Qed.

Definition flush_queue l (q : list (K * list ConfigHash)) : cache :=
  fold_left (fun l kc => clearConfigIndex l (fst kc) (snd kc)) q l.

Lemma flush_queue_store l q : contents (store (flush_queue l q)) = contents (store l).
Proof.
  unfold flush_queue. revert l; induction q as [|[k d] q IH]; intros l; simpl; [done|].
  by rewrite IH, clearConfigIndex_store.
Qed.

Lemma flush_queue_token l q : token (flush_queue l q) = token l.
Proof.
  unfold flush_queue. revert l; induction q as [|[k d] q IH]; intros l; simpl; [done|].
  rewrite IH. apply clearConfigIndex_frame.
Qed.

Lemma flush_queue_tidy l q :
  GoSet.tidy (configIndex l) -> GoSet.tidy (configIndex (flush_queue l q)).
Proof.
  unfold flush_queue. revert l; induction q as [|[k d] q IH]; intros l Ht; simpl; [done|].
  by apply IH, clearConfigIndex_tidy.
Qed.

Lemma flush_queue_members l q cfg k :
  k ∈ GoSet.members (configIndex (flush_queue l q)) cfg <->
  k ∈ GoSet.members (configIndex l) cfg /\
  ~ ((exists deps, (k, deps) ∈ q /\ cfg ∈ deps) /\
     forall v, contents (store l) !! k = Some v -> cfg ∉ dependentConfigs v).
Proof.
  unfold flush_queue. revert l; induction q as [|[k' d] q IH]; intros l; simpl.
  { split; [|tauto]. intros ?. split; [done|]. intros [(? & ?%not_elem_of_nil & ?) ?]. done. }
  rewrite IH, clearConfigIndex_members, clearConfigIndex_store.
  setoid_rewrite elem_of_cons. split.
  - intros [[Hk H1] H2]. split; [done|]. intros [(deps & [E|Hin] & Hc) Hv]; [|apply H2; eauto].
    simplify_eq. tauto.
  - intros [Hk H1]. split; [split; [done|]|].
    + intros (-> & Hc & Hv). apply H1. split; [|done]. eauto.
    + intros [(deps & ? & ?) Hv]. apply H1. split; [|done]. eauto.
Qed.

(** After a flush the index is exactly the dependencies of the stored
    entries. *)
Lemma Flush_exact l :
  inv l -> forall k cfg,
  k ∈ GoSet.members (configIndex (Flush l)) cfg <->
  exists v, contents (store (Flush l)) !! k = Some v /\ cfg ∈ dependentConfigs v.
Proof.
  intros [Hix Hb Ht] k cfg. unfold Flush; simpl.
  change (fold_left _ (evictQueue l) l) with (flush_queue l (evictQueue l)).
  rewrite flush_queue_members, flush_queue_store. split.
  - intros [Hk Hn]. destruct (Hb _ _ Hk) as [?|Hq]; [done|].
    destruct (contents (store l) !! k) as [v|] eqn:E.
    + destruct (decide (cfg ∈ dependentConfigs v)); [eauto|].
      exfalso. apply Hn. split; [done|]. by intros ? [= <-].
    + exfalso. apply Hn. split; done.
  - intros (v & Hv & Hc). split; [by eapply Hix|]. intros [_ Hn]. by eapply Hn.
Qed.

Lemma Flush_inv l : inv l -> inv (Flush l).
Proof.
  intros Hi. pose proof (Flush_exact l Hi) as Hex. destruct Hi as [Hix Hb Ht]. split.
  - intros k v cfg ??. apply Hex. eauto.
  - intros k cfg Hk. left. by apply Hex.
  - by apply flush_queue_tidy.
Qed.

Lemma new_inv : inv newTypedXdsCache.
Proof.
  split; simpl.
  - intros k v cfg. rewrite contents_new, lookup_empty. done.
  - intros k cfg. unfold GoSet.members. rewrite lookup_empty. set_solver.
  - intros k s. by rewrite lookup_empty.
Qed.

Lemma ClearAll_inv l now : inv (ClearAll l now).
Proof.
  split; simpl.
  - intros k v cfg. rewrite contents_new, lookup_empty. done.
  - intros k cfg. unfold GoSet.members. rewrite lookup_empty. set_solver.
  - intros k s. by rewrite lookup_empty.
Qed.

Lemma set_store_inv l s : contents s = contents (store l) -> inv l -> inv (set_store l s).
Proof.
  intros E [Hix Hb Ht]. split; simpl; [|intros k cfg Hk|done].
  - rewrite E. done.
  - destruct (Hb k cfg Hk) as [(v & ? & ?)|?]; [left; exists v; simpl; by rewrite E|by right].
Qed.

(** *** Additions *)

(** What [Add] does once it has decided to write. *)
Definition write_entry l k deps (tok : CacheToken) (v : option R) : cache :=
  let '(cur, s) := lru_get (store l) k in
  let '(s, evicted) := lru_add s k (mkCacheValue v tok deps) in
  let q := callbacks (evictQueue l) evicted in
  mkLru s tok (updateConfigIndex (configIndex l) k deps)
    (match cur with Some c => q ++ [(k, dependentConfigs c)] | None => q end)
    (evictedOnClear l).

(** [Add] writes, or leaves the cache as it was (up to recency). *)
Inductive add_outcome l k deps (req : option PushRequest) (v : option R) : cache -> Prop :=
  | add_ignored s : contents s = contents (store l) ->
      add_outcome l k deps req v (set_store l s)
  | add_written r : req = Some r -> IsZero (Start r) = false ->
      token l <= time_token (Start r) ->
      (forall c, contents (store l) !! k = Some c -> cv_token c < time_token (Start r)) ->
      add_outcome l k deps req v (write_entry l k deps (time_token (Start r)) v).

Lemma set_store_same l : set_store l (store l) = l.
Proof. by destruct l. Qed.

Lemma Add_cases l k deps req v : add_outcome l k deps req v (Add l k deps req v).
Proof.
  assert (Hsame : add_outcome l k deps req v l).
  { rewrite <- (set_store_same l) at 2. by constructor. }
  unfold Add. destruct req as [r|]; [|done].
  destruct (IsZero (Start r)) eqn:Hz; [done|].
  destruct (Z.ltb_spec (time_token (Start r)) (token l)) as [Hlt|Hge]; [done|].
  pose proof (contents_get (store l) k) as Hg. pose proof (contents_get_state (store l) k) as Hs.
  assert (Hw : (forall c, contents (store l) !! k = Some c -> cv_token c < time_token (Start r)) ->
    add_outcome l k deps (Some r) v (write_entry l k deps (time_token (Start r)) v))
    by (intros; by apply add_written).
  unfold write_entry in Hw. destruct (lru_get (store l) k) as [cur s]. simpl in *.
  injection Hg as Hg. rewrite <- Hg in Hw.
  destruct (lru_add s k _) as [s' evicted]. destruct cur as [c|]; [|by apply Hw].
  destruct (Z.leb_spec (time_token (Start r)) (cv_token c)); [by apply add_ignored|].
  apply Hw. by intros ? [= <-].
Qed.

Lemma write_entry_store l k deps tok v :
  contents (store (write_entry l k deps tok v)) !! k = Some (mkCacheValue v tok deps) /\
  forall k' v', k <> k' -> contents (store (write_entry l k deps tok v)) !! k' = Some v' ->
    contents (store l) !! k' = Some v'.
Proof.
  unfold write_entry. pose proof (contents_get_state (store l) k) as Hs.
  destruct (lru_get (store l) k) as [cur s]; simpl in Hs.
  pose proof (contents_add_new s k (mkCacheValue v tok deps)) as Hnew.
  pose proof (fun k' => contents_add_other s k (mkCacheValue v tok deps) k') as Hother.
  destruct (lru_add s k _) as [s' evicted]. simpl in *. split; [done|].
  intros k' v' Hne Hv'. rewrite <- Hs. destruct (Hother k' Hne) as [E|[E _]]; congruence.
Qed.

Lemma write_entry_inv l k deps tok v : inv l -> inv (write_entry l k deps tok v).
Proof.
  intros [Hix Hb Ht]. destruct (write_entry_store l k deps tok v) as [Hnew Hold]. split.
  - intros k' v' cfg Hk' Hc. destruct (decide (k = k')) as [->|Hne].
    + assert (v' = mkCacheValue v tok deps) as -> by congruence. simpl in Hc.
      unfold write_entry. destruct (lru_get _ _), (lru_add _ _ _). simpl.
      rewrite updateConfigIndex_members. case_decide; [set_solver|done].
    + assert (Hm : k' ∈ GoSet.members (configIndex l) cfg) by (eapply Hix; eauto).
      unfold write_entry. destruct (lru_get _ _), (lru_add _ _ _). simpl.
      rewrite updateConfigIndex_members. case_decide; set_solver.
  - intros k' cfg Hk'. unfold backed, write_entry in *.
    pose proof (contents_get (store l) k) as Hg. pose proof (contents_get_state (store l) k) as Hs.
    destruct (lru_get (store l) k) as [cur s]. simpl in *. injection Hg as ->.
    pose proof (fun k' => contents_add_other s k (mkCacheValue v tok deps) k') as Hother.
    destruct (lru_add s k _) as [s' evicted]. simpl in *.
    rewrite updateConfigIndex_members in Hk'. setoid_rewrite Hs in Hother. clear Hs.
    assert (Hq : forall d, (k', d) ∈ callbacks (evictQueue l) evicted -> cfg ∈ d ->
      exists deps0, (k', deps0) ∈ (match contents (store l) !! k with
        | Some c => callbacks (evictQueue l) evicted ++ [(k, dependentConfigs c)]
        | None => callbacks (evictQueue l) evicted end) /\ cfg ∈ deps0).
    { intros d ??. exists d. split; [|done]. destruct (contents (store l) !! k); set_solver. }
    destruct (decide (k' = k /\ cfg ∈ deps)) as [[-> Hc]|Hnk].
    { left. exists (mkCacheValue v tok deps). done. }
    assert (Hm : k' ∈ GoSet.members (configIndex l) cfg) by (case_decide; set_solver).
    destruct (Hb _ _ Hm) as [(v' & Hv' & Hc)|(d & Hd & Hc)].
    2:{ right. eapply Hq; [|done]. apply elem_of_callbacks. by left. }
    destruct (decide (k = k')) as [->|Hne].
    + right. rewrite Hv'. exists (dependentConfigs v'). set_solver.
    + destruct (Hother k' Hne) as [E|(_ & v'' & E & Hev)]; [left; exists v'; by rewrite E|].
      right. eapply Hq; [|done]. apply elem_of_callbacks. right. exists v''.
      split; [done|]. congruence.
  - unfold write_entry. destruct (lru_get _ _), (lru_add _ _ _). by apply updateConfigIndex_tidy.
Qed.

Lemma Add_inv l k deps req v : inv l -> inv (Add l k deps req v).
Proof.
  intros Hi. destruct (Add_cases l k deps req v); [by apply set_store_inv|by apply write_entry_inv].
Qed.

Lemma Get_inv l k : inv l -> inv (fst (Get l k)).
Proof.
  intros Hi. unfold Get, get. pose proof (contents_get_state (store l) k) as Hs.
  destruct (lru_get (store l) k) as [[cv|] s]; simpl in Hs; [|by apply set_store_inv].
  destruct (value cv); [|by apply set_store_inv].
  destruct (0 <=? cv_token cv); by apply set_store_inv.
Qed.

(** *** Invalidation *)

Lemma remove_keys_store l ks k :
  contents (store (fold_left remove_key ks l)) !! k =
  if decide (k ∈ ks) then None else contents (store l) !! k.
Proof.
  revert l; induction ks as [|k' ks IH]; intros l; simpl.
  { done. }
  rewrite IH. assert (contents (store (remove_key l k')) = delete k' (contents (store l))) as ->.
  { unfold remove_key. pose proof (contents_remove (store l) k').
    by destruct (lru_remove (store l) k'). }
  rewrite lookup_delete. repeat case_decide; set_solver.
Qed.

Lemma remove_keys_queue l ks k d :
  (k, d) ∈ evictQueue (fold_left remove_key ks l) <->
  (k, d) ∈ evictQueue l \/
  k ∈ ks /\ exists v, contents (store l) !! k = Some v /\ d = dependentConfigs v.
Proof.
  revert l; induction ks as [|k' ks IH]; intros l; simpl; [set_solver|].
  assert (Hs : contents (store (remove_key l k')) = delete k' (contents (store l))).
  { unfold remove_key. pose proof (contents_remove (store l) k').
    by destruct (lru_remove (store l) k'). }
  assert (Hq : (k, d) ∈ evictQueue (remove_key l k') <-> (k, d) ∈ evictQueue l \/
    k = k' /\ exists v, contents (store l) !! k = Some v /\ d = dependentConfigs v).
  { unfold remove_key. pose proof (contents_remove_evicted (store l) k') as Hev.
    pose proof (contents_remove_only (store l) k') as Hon.
    destruct (lru_remove (store l) k') as [s ev]. simpl in *.
    rewrite elem_of_callbacks. apply or_iff_compat_l. split.
    - intros (v & Hv & ->). pose proof (Hon _ _ Hv) as ->. split; [done|].
      exists v. split; [by apply Hev|done].
    - intros (-> & v & Hv & ->). exists v. split; [by apply Hev|done]. }
  rewrite IH, Hs, Hq, lookup_delete, elem_of_cons.
  case_decide; naive_solver.
Qed.

Lemma remove_keys_frame l ks :
  configIndex (fold_left remove_key ks l) = configIndex l /\
  token (fold_left remove_key ks l) = token l.
Proof.
  revert l; induction ks as [|k ks IH]; intros l; simpl; [done|].
  destruct (IH (remove_key l k)) as [-> ->]. unfold remove_key.
  by destruct (lru_remove (store l) k).
Qed.

Lemma clear_config_store l ckey k :
  contents (store (clear_config l ckey)) !! k =
  if decide (k ∈ GoSet.members (configIndex l) (HashCode ckey)) then None
  else contents (store l) !! k.
Proof.
  unfold clear_config; simpl. rewrite remove_keys_store.
  repeat case_decide; set_solver.
Qed.

Lemma clear_config_index l ckey :
  configIndex (clear_config l ckey) = delete (HashCode ckey) (configIndex l) /\
  token (clear_config l ckey) = token l.
Proof.
  unfold clear_config; simpl.
  destruct (remove_keys_frame l (elements (GoSet.members (configIndex l) (HashCode ckey)))) as [-> ->].
  done.
Qed.

Lemma members_delete (ix : gmap ConfigHash (gset K)) c cfg :
  GoSet.members (delete c ix) cfg = if decide (c = cfg) then ∅ else GoSet.members ix cfg.
Proof. unfold GoSet.members. rewrite lookup_delete. by case_decide. Qed.

Lemma clear_config_inv l ckey : inv l -> inv (clear_config l ckey).
Proof.
  intros [Hix Hb Ht]. destruct (clear_config_index l ckey) as [Hci _]. split; rewrite ?Hci.
  - intros k v cfg. rewrite clear_config_store, members_delete.
    case_decide as Hk; [done|]. intros Hv Hc. pose proof (Hix _ _ _ Hv Hc).
    case_decide; [by subst|done].
  - intros k cfg. rewrite members_delete. case_decide as Hc; [set_solver|].
    intros Hk. destruct (Hb _ _ Hk) as [(v & Hv & Hcv)|(d & Hd & Hcd)].
    + destruct (decide (k ∈ GoSet.members (configIndex l) (HashCode ckey))) as [Hr|Hr].
      * right. exists (dependentConfigs v). split; [|done]. unfold clear_config; simpl.
        apply remove_keys_queue. right. split; [by apply elem_of_elements|eauto].
      * left. exists v. rewrite clear_config_store. by case_decide.
    + right. exists d. split; [|done]. unfold clear_config; simpl.
      apply remove_keys_queue. by left.
  - intros k s. rewrite lookup_delete. case_decide; [done|apply Ht].
Qed.

Definition clear_loop l (cs : list ConfigKey) : cache := fold_left clear_config cs l.

Lemma clear_loop_inv l cs : inv l -> inv (clear_loop l cs).
Proof.
  unfold clear_loop. revert l; induction cs as [|c cs IH]; intros l Hi; simpl; [done|].
  by apply IH, clear_config_inv.
Qed.

Lemma clear_loop_token l cs : token (clear_loop l cs) = token l.
Proof.
  unfold clear_loop. revert l; induction cs as [|c cs IH]; intros l; simpl; [done|].
  rewrite IH. apply clear_config_index.
Qed.

(** A key is recorded under one of the configurations. *)
Definition referenced l (cs : list ConfigKey) k : bool :=
  existsb (fun c => bool_decide (k ∈ GoSet.members (configIndex l) (HashCode c))) cs.

Lemma referenced_spec l cs k :
  referenced l cs k = true <->
  exists c, c ∈ cs /\ k ∈ GoSet.members (configIndex l) (HashCode c).
Proof. unfold referenced. rewrite existsb_elem. by setoid_rewrite bool_decide_eq_true. Qed.

(** The loop of [Clear] removes the keys recorded under the cleared
    configurations, and nothing else. *)
Lemma clear_loop_store l cs k :
  contents (store (clear_loop l cs)) !! k =
  if referenced l cs k then None else contents (store l) !! k.
Proof.
  unfold clear_loop. revert l; induction cs as [|c cs IH]; intros l; simpl; [done|].
  rewrite IH, clear_config_store. unfold referenced at 2. simpl.
  fold (referenced l cs k).
  destruct (decide (k ∈ GoSet.members (configIndex l) (HashCode c))) as [Hk|Hk].
  { rewrite (bool_decide_eq_true_2 _ Hk). by destruct (referenced (clear_config l c) cs k). }
  rewrite (bool_decide_eq_false_2 _ Hk). cbn [orb].
  assert (referenced (clear_config l c) cs k = referenced l cs k) as ->; [|done].
  apply eq_true_iff_eq. rewrite !referenced_spec.
  destruct (clear_config_index l c) as [-> _]. setoid_rewrite members_delete.
  split; intros (c' & ? & Hc'); exists c'; split; try done.
  - case_decide; set_solver.
  - case_decide as E; [|done]. by rewrite E in Hk.
Qed.

Lemma Clear_inv l now configs : inv l -> inv (Clear l now configs).
Proof.
  intros Hi. assert (inv (mkLru (store l) (time_token now) (configIndex l) (evictQueue l) true))
    as H1 by (destruct Hi; by split).
  apply (clear_loop_inv _ (GoSet.UnsortedList configs)) in H1.
  unfold Clear, clear_loop in *. destruct H1. by split.
Qed.

Lemma Clear_store l now configs k :
  contents (store (Clear l now configs)) !! k =
  if referenced l (GoSet.UnsortedList configs) k then None else contents (store l) !! k.
Proof.
  unfold Clear. simpl. change (fold_left clear_config ?cs ?x) with (clear_loop x cs).
  by rewrite clear_loop_store.
Qed.

Lemma Clear_token l now configs : token (Clear l now configs) = time_token now.
Proof.
  unfold Clear. simpl. change (fold_left clear_config ?cs ?x) with (clear_loop x cs).
  by rewrite clear_loop_token.
Qed.

(** Nothing stored after [Clear] depends on a cleared configuration. *)
Lemma Clear_independent l now configs k v c :
  inv l -> c ∈ nset_elems configs ->
  contents (store (Clear l now configs)) !! k = Some v -> HashCode c ∉ dependentConfigs v.
Proof.
  intros Hi Hc. rewrite Clear_store.
  destruct (referenced l (GoSet.UnsortedList configs) k) eqn:Hr; [done|]. intros Hv Hdep.
  apply not_true_iff_false in Hr. apply Hr, referenced_spec. exists c.
  rewrite GoSet.UnsortedList_elem. split; [done|]. by eapply inv_indexed.
Qed.

Lemma Get_value l k :
  snd (Get l k) = contents (store l) !! k ≫= (fun cv =>
    if 0 <=? cv_token cv then value cv else None).
Proof.
  unfold Get, get. rewrite contents_get. simpl.
  destruct (contents (store l) !! k) as [cv|]; simpl; [|done].
  destruct (value cv); by destruct (0 <=? cv_token cv).
Qed.

(** ** Runs *)

Inductive op : Type :=
  | OAdd (k : K) (deps : list ConfigHash) (req : option PushRequest) (v : option R)
  | OGet (k : K)
  | OFlush
  | OClear (now : Time) (configs : nset ConfigKey)
  | OClearAll (now : Time).

Definition apply_op l (o : op) : cache :=
  match o with
  | OAdd k deps req v => Add l k deps req v
  | OGet k => fst (Get l k)
  | OFlush => Flush l
  | OClear now configs => Clear l now configs
  | OClearAll now => ClearAll l now
  end.

Definition apply_ops l (os : list op) : cache := fold_left apply_op os l.

Lemma apply_op_inv l o : inv l -> inv (apply_op l o).
Proof.
  destruct o; simpl; auto using Add_inv, Get_inv, Flush_inv, Clear_inv, ClearAll_inv.
Qed.

Lemma apply_ops_inv l os : inv l -> inv (apply_ops l os).
Proof.
  unfold apply_ops. revert l; induction os as [|o os IH]; intros l Hi; simpl; [done|].
  by apply IH, apply_op_inv.
Qed.

(** The clock of an operation, when it reads it, has reached the token [t]. *)
Definition clock_reached (t : CacheToken) (o : op) : bool :=
  match o with
  | OClear now _ | OClearAll now => t <=? time_token now
  | _ => true
  end.

(** From a cache whose token is at least [t], entries older than [t] are never
    added: those a run ends with were there at its start. *)
Definition fresh_from l (t : CacheToken) l' : Prop :=
  t <= token l' /\
  forall k v, contents (store l') !! k = Some v ->
    t <= cv_token v \/ contents (store l) !! k = Some v.

Lemma Get_frame l k :
  token (fst (Get l k)) = token l /\ contents (store (fst (Get l k))) = contents (store l).
Proof.
  unfold Get, get. pose proof (contents_get_state (store l) k) as Hs.
  destruct (lru_get (store l) k) as [[cv|] s]; simpl in Hs; [|done].
  destruct (value cv); [|done]. by destruct (0 <=? cv_token cv).
Qed.

Lemma apply_op_fresh l0 t l o :
  fresh_from l0 t l -> clock_reached t o = true -> fresh_from l0 t (apply_op l o).
Proof.
  intros [Ht Hs] Hc. destruct o as [k deps req v|k| |now configs|now]; simpl in *.
  - destruct (Add_cases l k deps req v) as [s E|r -> _ Hge _]; split; simpl; try done.
    + intros k' v'. rewrite E. apply Hs.
    + unfold write_entry. destruct (lru_get _ _), (lru_add _ _ _). simpl. lia.
    + destruct (write_entry_store l k deps (time_token (Start r)) v) as [Hnew Hold].
      intros k' v' Hv'. destruct (decide (k = k')) as [->|Hne]; [|eauto].
      left. assert (v' = mkCacheValue v (time_token (Start r)) deps) as -> by congruence.
      simpl. lia.
  - destruct (Get_frame l k) as [Et Es]. split; rewrite ?Et, ?Es; done.
  - unfold Flush. change (fold_left _ (evictQueue l) l) with (flush_queue l (evictQueue l)).
    split; simpl; [by rewrite flush_queue_token|]. by rewrite flush_queue_store.
  - split; [rewrite Clear_token; lia|]. intros k v. rewrite Clear_store.
    destruct (referenced _ _ _); [done|apply Hs].
  - split; simpl; [lia|]. intros k v. rewrite contents_new, lookup_empty. done.
Qed.

Lemma apply_ops_fresh l0 t l os :
  fresh_from l0 t l -> forallb (clock_reached t) os = true -> fresh_from l0 t (apply_ops l os).
Proof.
  unfold apply_ops. revert l; induction os as [|o os IH]; intros l Hf; simpl; [done|].
  intros [? ?]%andb_true_iff. apply IH; [|done]. by apply apply_op_fresh.
Qed.

End lru.

Arguments op _ _ : clear implicits.

(** ** [XdsCacheImpl]: one typed cache per resource type *)

Definition CDSType : string := "cds".
Definition EDSType : string := "eds".
Definition RDSType : string := "rds".
Definition SDSType : string := "sds".

(** The values of the interface [typedXdsCache]: an [lruCache] or the
    [disabledCache], which is always empty. *)
Inductive typedCache (K R L : Type) `{Countable K} : Type :=
  | TLru (l : lruCache K R L)
  | TDisabled.
Arguments TLru {_ _ _ _ _} _.
Arguments TDisabled {_ _ _ _ _}.

(** The dynamic type of a cache key. *)
Inductive anyKey : Type := KUint64 (k : Z) | KString (k : string).

Record XdsCacheEntry : Type := mkEntry {
  Type_of : string;
  Key_of : anyKey;
  DependentConfigs : list ConfigHash;
  Cacheable : bool
}.

Section impl.
Context {R L LS : Type} `{!LRUCache Z (cacheValue R) L} `{!LRUCache string (cacheValue R) LS}.
Context (HashCode : ConfigKey -> ConfigHash).

Definition typed_Flush {K M} `{Countable K} `{!LRUCache K (cacheValue R) M}
    (c : typedCache K R M) : typedCache K R M :=
  match c with TLru l => TLru (Flush l) | TDisabled => TDisabled end.
Definition typed_Add {K M} `{Countable K} `{!LRUCache K (cacheValue R) M}
    (c : typedCache K R M) k deps req v : typedCache K R M :=
  match c with TLru l => TLru (Add l k deps req v) | TDisabled => TDisabled end.
Definition typed_Get {K M} `{Countable K} `{!LRUCache K (cacheValue R) M}
    (c : typedCache K R M) k : typedCache K R M * option R :=
  match c with
  | TLru l => let '(l, r) := Get l k in (TLru l, r)
  | TDisabled => (TDisabled, None)
  end.
Definition typed_Clear {K M} `{Countable K} `{!LRUCache K (cacheValue R) M}
    (c : typedCache K R M) now configs : typedCache K R M :=
  match c with TLru l => TLru (Clear HashCode l now configs) | TDisabled => TDisabled end.
Definition typed_ClearAll {K M} `{Countable K} `{!LRUCache K (cacheValue R) M}
    (c : typedCache K R M) now : typedCache K R M :=
  match c with TLru l => TLru (ClearAll l now) | TDisabled => TDisabled end.
Definition typed_Keys {K M} `{Countable K} `{!LRUCache K (cacheValue R) M}
    (c : typedCache K R M) : list K :=
  match c with TLru l => Keys l | TDisabled => [] end.

Record XdsCacheImpl : Type := mkImpl {
  cds : typedCache Z R L;
  eds : typedCache Z R L;
  rds : typedCache Z R L;
  sds : typedCache string R LS
}.

(** The two features decide which caches are enabled. *)
Definition NewXdsCache (EnableCDSCaching EnableRDSCaching : bool) : XdsCacheImpl :=
  {| cds := if EnableCDSCaching then TLru newTypedXdsCache else TDisabled;
     eds := TLru newTypedXdsCache;
     rds := if EnableRDSCaching then TLru newTypedXdsCache else TDisabled;
     sds := TLru newTypedXdsCache |}.

(** One tick of [Run]. *)
Definition Run_tick (x : XdsCacheImpl) : XdsCacheImpl :=
  {| cds := typed_Flush (cds x); eds := typed_Flush (eds x);
     rds := typed_Flush (rds x); sds := typed_Flush (sds x) |}.

(** A key of the wrong dynamic type fails the type assertion. *)
Definition Xds_Add (x : XdsCacheImpl) (entry : XdsCacheEntry) req v : res XdsCacheImpl :=
  if negb (Cacheable entry) then Ok x else
  let k := Key_of entry in
  let deps := DependentConfigs entry in
  let t := Type_of entry in
  if String.eqb t CDSType then
    match k with
    | KUint64 key => Ok (mkImpl (typed_Add (cds x) key deps req v) (eds x) (rds x) (sds x))
    | KString _ => Panic "interface conversion" end
  else if String.eqb t EDSType then
    match k with
    | KUint64 key => Ok (mkImpl (cds x) (typed_Add (eds x) key deps req v) (rds x) (sds x))
    | KString _ => Panic "interface conversion" end
  else if String.eqb t SDSType then
    match k with
    | KString key => Ok (mkImpl (cds x) (eds x) (rds x) (typed_Add (sds x) key deps req v))
    | KUint64 _ => Panic "interface conversion" end
  else if String.eqb t RDSType then
    match k with
    | KUint64 key => Ok (mkImpl (cds x) (eds x) (typed_Add (rds x) key deps req v) (sds x))
    | KString _ => Panic "interface conversion" end
  else Ok x.

Definition Xds_Get (x : XdsCacheImpl) (entry : XdsCacheEntry) : res (XdsCacheImpl * option R) :=
  if negb (Cacheable entry) then Ok (x, None) else
  let k := Key_of entry in
  let t := Type_of entry in
  if String.eqb t CDSType then
    match k with
    | KUint64 key => let '(c, r) := typed_Get (cds x) key in Ok (mkImpl c (eds x) (rds x) (sds x), r)
    | KString _ => Panic "interface conversion" end
  else if String.eqb t EDSType then
    match k with
    | KUint64 key => let '(c, r) := typed_Get (eds x) key in Ok (mkImpl (cds x) c (rds x) (sds x), r)
    | KString _ => Panic "interface conversion" end
  else if String.eqb t SDSType then
    match k with
    | KString key => let '(c, r) := typed_Get (sds x) key in Ok (mkImpl (cds x) (eds x) (rds x) c, r)
    | KUint64 _ => Panic "interface conversion" end
  else if String.eqb t RDSType then
    match k with
    | KUint64 key => let '(c, r) := typed_Get (rds x) key in Ok (mkImpl (cds x) (eds x) c (sds x), r)
    | KString _ => Panic "interface conversion" end
  else Ok (x, None).

(** Each typed cache reads the clock itself; the readings are one argument
    each. *)
Definition Xds_Clear (x : XdsCacheImpl) (now : Time * Time * Time * Time) (s : nset ConfigKey)
  : XdsCacheImpl :=
  let '(n1, n2, n3, n4) := now in
  {| cds := typed_Clear (cds x) n1 s;
     eds := if HasConfigsOfKind s kind.PeerAuthentication then typed_ClearAll (eds x) n2
            else typed_Clear (eds x) n2 s;
     rds := typed_Clear (rds x) n3 s;
     sds := typed_Clear (sds x) n4 s |}.

Definition Xds_ClearAll (x : XdsCacheImpl) (now : Time * Time * Time * Time) : XdsCacheImpl :=
  let '(n1, n2, n3, n4) := now in
  {| cds := typed_ClearAll (cds x) n1; eds := typed_ClearAll (eds x) n2;
     rds := typed_ClearAll (rds x) n3; sds := typed_ClearAll (sds x) n4 |}.

Definition Xds_Keys (x : XdsCacheImpl) (t : string) : list anyKey :=
  if String.eqb t CDSType then map KUint64 (typed_Keys (cds x))
  else if String.eqb t EDSType then map KUint64 (typed_Keys (eds x))
  else if String.eqb t SDSType then map KString (typed_Keys (sds x))
  else if String.eqb t RDSType then map KUint64 (typed_Keys (rds x))
  else [].

Context `{!LRULaws Z (cacheValue R) L} `{!LRULaws string (cacheValue R) LS}.

(** What a typed cache stores; the disabled cache stores nothing. *)
Definition typed_contents {K M} `{Countable K} `{LRUCache K (cacheValue R) M}
    `{!LRULaws K (cacheValue R) M} (c : typedCache K R M) : gmap K (cacheValue R) :=
  match c with TLru l => contents (store l) | TDisabled => ∅ end.

Definition typed_inv {K M} `{Countable K} `{LRUCache K (cacheValue R) M}
    `{!LRULaws K (cacheValue R) M} (c : typedCache K R M) : Prop :=
  match c with TLru l => inv l | TDisabled => True end.

Definition impl_inv (x : XdsCacheImpl) : Prop :=
  typed_inv (cds x) /\ typed_inv (eds x) /\ typed_inv (rds x) /\ typed_inv (sds x).

Lemma typed_Clear_independent {K M} `{Countable K} `{LRUCache K (cacheValue R) M}
    `{!LRULaws K (cacheValue R) M} (c : typedCache K R M) now s k v ckey :
  typed_inv c -> ckey ∈ nset_elems s ->
  typed_contents (typed_Clear c now s) !! k = Some v -> HashCode ckey ∉ dependentConfigs v.
Proof.
  destruct c as [l|]; simpl; [|by rewrite lookup_empty]. intros Hi Hc Hv.
  exact (Clear_independent HashCode l now s k v ckey Hi Hc Hv).
Qed.

Lemma typed_Clear_inv {K M} `{Countable K} `{LRUCache K (cacheValue R) M}
    `{!LRULaws K (cacheValue R) M} (c : typedCache K R M) now s :
  typed_inv c -> typed_inv (typed_Clear c now s).
Proof. destruct c; simpl; auto using Clear_inv. Qed.

Lemma typed_ClearAll_contents {K M} `{Countable K} `{LRUCache K (cacheValue R) M}
    `{!LRULaws K (cacheValue R) M} (c : typedCache K R M) now :
  typed_contents (typed_ClearAll c now) = ∅.
Proof. destruct c; simpl; [apply contents_new|done]. Qed.

Lemma typed_ClearAll_inv {K M} `{Countable K} `{LRUCache K (cacheValue R) M}
    `{!LRULaws K (cacheValue R) M} (c : typedCache K R M) now :
  typed_inv (typed_ClearAll c now).
Proof. destruct c; simpl; [apply ClearAll_inv|done]. Qed.

(** No entry of the cache depends on the configuration. *)
Definition independent_of (x : XdsCacheImpl) (ckey : ConfigKey) : Prop :=
  (forall k v, typed_contents (cds x) !! k = Some v -> HashCode ckey ∉ dependentConfigs v) /\
  (forall k v, typed_contents (eds x) !! k = Some v -> HashCode ckey ∉ dependentConfigs v) /\
  (forall k v, typed_contents (rds x) !! k = Some v -> HashCode ckey ∉ dependentConfigs v) /\
  (forall k v, typed_contents (sds x) !! k = Some v -> HashCode ckey ∉ dependentConfigs v).

Lemma Xds_Clear_independent x now s ckey :
  impl_inv x -> ckey ∈ nset_elems s -> independent_of (Xds_Clear x now s) ckey.
Proof.
  destruct now as [[[n1 n2] n3] n4]. intros (Hc & He & Hr & Hs) Hk.
  unfold independent_of, Xds_Clear; simpl. split_and!; intros k v.
  - by eapply typed_Clear_independent.
  - destruct (HasConfigsOfKind s kind.PeerAuthentication).
    + rewrite typed_ClearAll_contents, lookup_empty. done.
    + by eapply typed_Clear_independent.
  - by eapply typed_Clear_independent.
  - by eapply typed_Clear_independent.
Qed.

Lemma Xds_Clear_inv x now s : impl_inv x -> impl_inv (Xds_Clear x now s).
Proof.
  destruct now as [[[n1 n2] n3] n4]. intros (Hc & He & Hr & Hs).
  unfold impl_inv, Xds_Clear; simpl. destruct (HasConfigsOfKind s kind.PeerAuthentication);
    auto 6 using typed_Clear_inv, typed_ClearAll_inv.
Qed.

End impl.
Arguments XdsCacheImpl _ _ _ : clear implicits.

(** ** A store with the documented behaviour

    A map with a capacity: a new key in a full store evicts another entry. *)
Section bounded.
Context {K V : Type} `{Countable K} (capacity : nat).

Definition bounded_add (m : gmap K V) (k : K) (v : V) : gmap K V * list (K * V) :=
  match m !! k, map_to_list m with
  | None, (k', v') :: _ =>
      if (capacity <=? size m)%nat then (<[k := v]> (delete k' m), [(k', v')])
      else (<[k := v]> m, [])
  | _, _ => (<[k := v]> m, [])
  end.

#[local] Instance bounded_lru : LRUCache K V (gmap K V) := {|
  lru_new := ∅;
  lru_get m k := (m !! k, m);
  lru_add := bounded_add;
  lru_remove m k := (delete k m, match m !! k with Some v => [(k, v)] | None => [] end);
  lru_keys m := (map_to_list m).*1
|}.

Lemma bounded_add_cases m k v :
  bounded_add m k v = (<[k := v]> m, []) \/
  exists k' v', m !! k = None /\ m !! k' = Some v' /\
    bounded_add m k v = (<[k := v]> (delete k' m), [(k', v')]).
Proof.
  unfold bounded_add. destruct (m !! k) eqn:E; [by left|].
  destruct (map_to_list m) as [|[k' v'] rest] eqn:El; [by left|].
  destruct (capacity <=? size m)%nat; [|by left]. right. exists k', v'.
  split; [done|]. split; [|done]. apply elem_of_map_to_list. rewrite El. set_solver.
Qed.

#[local] Instance bounded_laws : LRULaws K V (gmap K V).
Proof.
  refine {| contents := fun m : gmap K V => m |}; simpl; try done.
  - intros l k v. destruct (bounded_add_cases l k v) as [->|(k' & v' & _ & _ & ->)]; simpl;
      by rewrite lookup_insert_eq.
  - intros l k v k1 Hne. destruct (bounded_add_cases l k v) as [->|(k' & v' & Hn & Hs & ->)]; simpl;
      rewrite lookup_insert_ne by done; [by left|].
    rewrite lookup_delete. case_decide; [subst; right|by left]. split; [done|].
    exists v'. split; [done|set_solver].
  - intros l k v k1 v1. destruct (bounded_add_cases l k v) as [->|(k' & v' & Hn & Hs & ->)]; simpl;
      [by intros ?%not_elem_of_nil|]. intros E%list_elem_of_singleton. by simplify_eq.
  - intros l k v. destruct (l !! k) eqn:E.
    + rewrite list_elem_of_singleton. naive_solver.
    + split; [by intros ?%not_elem_of_nil|done].
  - intros l k k' v. destruct (l !! k); [|by intros ?%not_elem_of_nil].
    intros E%list_elem_of_singleton. by simplify_eq.
  - intros l k. rewrite list_elem_of_fmap. split.
    + intros ([k' v] & -> & Hv%elem_of_map_to_list). by exists v.
    + intros [v Hv]. exists (k, v). split; [done|]. by apply elem_of_map_to_list.
  - intros l. apply NoDup_fst_map_to_list.
Defined.

End bounded.

(** ** Properties *)

(** The index of the cache is sound and does not leak: after any
    sequence of operations every stored entry is recorded under each
    configuration it depends on, and after a flush the index records exactly
    the dependencies of the stored entries. *)
Theorem cache_index_invariant {K R L : Type} `{Countable K} `{!LRUCache K (cacheValue R) L}
    `{!LRULaws K (cacheValue R) L} (HashCode : ConfigKey -> ConfigHash) (os : list (op K R)) :
  let l : lruCache K R L := apply_ops HashCode newTypedXdsCache os in
  (forall k v cfg, contents (store l) !! k = Some v -> cfg ∈ dependentConfigs v ->
     k ∈ GoSet.members (configIndex l) cfg) /\
  (forall k cfg, k ∈ GoSet.members (configIndex (Flush l)) cfg <->
     exists v, contents (store (Flush l)) !! k = Some v /\ cfg ∈ dependentConfigs v).
Proof.
  intros l. assert (inv l) as Hi by apply apply_ops_inv, new_inv.
  split; [apply (inv_indexed _ Hi)|by apply Flush_exact].
Qed.

(** C7 Nothing generated before an invalidation is served after it: once
    a set of configurations has been cleared at a time [now], whatever the
    later operations (the clock not going back), a value [Get] returns that
    depends on one of them was generated for a request that started at or
    after [now]. *)
Theorem cache_no_stale_after_clear {K R L : Type} `{Countable K} `{!LRUCache K (cacheValue R) L}
    `{!LRULaws K (cacheValue R) L} (HashCode : ConfigKey -> ConfigHash)
    (before after : list (op K R)) (now : Time) (configs : nset ConfigKey) k r :
  forallb (clock_reached (time_token now)) after = true ->
  let l : lruCache K R L := apply_ops HashCode
    (Clear HashCode (apply_ops HashCode newTypedXdsCache before) now configs) after in
  snd (Get l k) = Some r ->
  exists cv, contents (store l) !! k = Some cv /\ value cv = Some r /\
    forall c, c ∈ nset_elems configs -> HashCode c ∈ dependentConfigs cv ->
      time_token now <= cv_token cv.
Proof.
  intros Hclk l Hg. set (l0 := apply_ops HashCode newTypedXdsCache before) in *.
  assert (inv l0) as Hi by apply apply_ops_inv, new_inv.
  rewrite Get_value in Hg. apply bind_Some in Hg as (cv & Hcv & Hv).
  destruct (0 <=? cv_token cv); [|done]. exists cv. split; [done|]. split; [done|].
  intros c Hc Hdep.
  destruct (apply_ops_fresh HashCode (Clear HashCode l0 now configs) (time_token now)
    (Clear HashCode l0 now configs) after) as [_ Hfresh]; [|done|].
  { split; [by rewrite Clear_token|]. intros ? ? E. by right. }
  destruct (Hfresh _ _ Hcv) as [?|Hold]; [done|].
  exfalso. by eapply (Clear_independent HashCode l0 now configs k cv c).
Qed.

(** A configuration change invalidates every typed cache: after
    [XdsCacheImpl.Clear] no entry of any of the four caches depends on a
    cleared configuration, and a change of a peer authentication policy
    empties the endpoint cache. *)
Theorem xds_clear_invalidates {R L LS : Type} `{!LRUCache Z (cacheValue R) L}
    `{!LRUCache string (cacheValue R) LS} `{!LRULaws Z (cacheValue R) L}
    `{!LRULaws string (cacheValue R) LS} (HashCode : ConfigKey -> ConfigHash)
    (x : XdsCacheImpl R L LS) now (s : nset ConfigKey) :
  impl_inv x ->
  impl_inv (Xds_Clear HashCode x now s) /\
  (forall ckey, ckey ∈ nset_elems s -> independent_of HashCode (Xds_Clear HashCode x now s) ckey) /\
  ((exists ckey, ckey ∈ nset_elems s /\ ConfigKey.Kind ckey = kind.PeerAuthentication) ->
     typed_contents (eds (Xds_Clear HashCode x now s)) = ∅).
Proof.
  intros Hi. split; [by apply Xds_Clear_inv|]. split; [intros; by apply Xds_Clear_independent|].
  intros Hpa%HasConfigsOfKind_spec. destruct now as [[[n1 n2] n3] n4]. simpl.
  rewrite Hpa. apply typed_ClearAll_contents.
Qed.

(** *** Witnesses, on a bounded store *)
Section witnesses.
#[local] Existing Instance bounded_lru.
#[local] Existing Instance bounded_laws.
#[local] Instance sample_lru : LRUCache Z (cacheValue string) (gmap Z (cacheValue string)) :=
  bounded_lru 2.
#[local] Instance sample_laws : LRULaws Z (cacheValue string) (gmap Z (cacheValue string)) :=
  bounded_laws 2.
#[local] Instance sample_slru : LRUCache string (cacheValue string) (gmap string (cacheValue string)) :=
  bounded_lru 2.
#[local] Instance sample_slaws : LRULaws string (cacheValue string) (gmap string (cacheValue string)) :=
  bounded_laws 2.

Definition sample_hash (c : ConfigKey) : ConfigHash := Z.of_nat (String.length (ConfigKey.Name c)).
Definition sample_start (t : Time) : option PushRequest :=
  Some (mkRequest None None None false true None (unix_epoch + t) emptyResourceDelta).

Definition sample_before : list (op Z string) :=
  [OAdd 1 [1] (sample_start 10) (Some "a"); OAdd 2 [2] (sample_start 11) (Some "b");
   OAdd 3 [1] (sample_start 12) (Some "c")].
Definition sample_after : list (op Z string) :=
  [OAdd 1 [1] (sample_start 15) (Some "stale"); OAdd 1 [1] (sample_start 25) (Some "fresh"); OFlush].
Definition sample_configs : nset ConfigKey := Some {[ConfigKey.mk kind.Service "s" "ns"]}.
Definition sample_cache : lruCache Z string (gmap Z (cacheValue string)) :=
  apply_ops sample_hash (Clear sample_hash
    (apply_ops sample_hash newTypedXdsCache sample_before) (unix_epoch + 20) sample_configs)
    sample_after.

Lemma cache_index_invariant_witness :
  3 ∈ GoSet.members (configIndex (apply_ops sample_hash newTypedXdsCache sample_before)) 1.
Proof.
  destruct (cache_index_invariant sample_hash sample_before) as [H _].
  assert (E : exists v, contents (store (apply_ops sample_hash newTypedXdsCache sample_before)) !! 3 = Some v /\
    dependentConfigs v = [1]) by (eexists; split; vm_compute; reflexivity).
  destruct E as (v & Hv & Hd). apply (H 3 v 1 Hv). rewrite Hd. by left.
Defined.

Lemma cache_no_stale_after_clear_witness :
  exists cv, contents (store sample_cache) !! 1 = Some cv /\ value cv = Some "fresh" /\
    forall c, c ∈ nset_elems sample_configs -> sample_hash c ∈ dependentConfigs cv ->
      time_token (unix_epoch + 20) <= cv_token cv.
Proof.
  apply (cache_no_stale_after_clear sample_hash sample_before sample_after (unix_epoch + 20)
    sample_configs 1 "fresh"); vm_compute; reflexivity.
Defined.

Lemma xds_clear_invalidates_witness :
  impl_inv (Xds_Clear (L := gmap Z (cacheValue string)) (LS := gmap string (cacheValue string))
    sample_hash (NewXdsCache true true) (20, 20, 20, 20) sample_configs).
Proof.
  apply (xds_clear_invalidates sample_hash).
  repeat split; apply new_inv.
Defined.

End witnesses.
