(* ===== verification/EndpointShards.v ===== *)
(** * The endpoint index

    [dubbod/discovery/pkg/model/endpointshards.go]: the endpoints of every
    service, by registry, and the decision which kind of push a change of them
    needs.  Endpoints are pointers the registries never leave nil; the index
    takes the service's lock and its own lock around each operation, so an
    operation is one step on the value of the index. *)

From S2P Require Import Prelude GoStrings GoSets GoSlices ConfigKeys Service XdsCache.

Inductive PushType : Type := NoPush | IncrementalPush | FullPush.

#[global] Instance PushType_eq_dec : EqDecision PushType.
Proof. solve_decision. Defined.

(** [ShardKey] holds the provider of a registry only. *)
Definition ShardKey : Type := string.

Record EndpointShards : Type := mkShards {
  Shards : gmap ShardKey (list DubboEndpoint);
  ServiceAccounts : gset string
}.

(** What the index needs of the interface [XdsCache]: the invalidation of a
    set of configurations, given the readings of the clock. *)
Definition clock : Type := Time * Time * Time * Time.
Class XdsCacheClear (C : Type) := cache_Clear : C -> clock -> nset ConfigKey -> C.

#[global] Instance impl_clear {R L LS} `{!LRUCache Z (cacheValue R) L}
    `{!LRUCache string (cacheValue R) LS} (HashCode : ConfigKey -> ConfigHash)
  : XdsCacheClear (XdsCacheImpl R L LS) := Xds_Clear HashCode.

(** [DisabledCache]. *)
#[global] Instance disabled_clear : XdsCacheClear unit := fun _ _ _ => tt.

Record EndpointIndex (C : Type) : Type := mkIndex {
  shardsBySvc : gmap string (gmap string EndpointShards);
  cache : C
}.
Arguments mkIndex {_} _ _.
Arguments shardsBySvc {_} _.
Arguments cache {_} _.

(** ** Operations *)

Definition by_key (eps : list DubboEndpoint) : gmap string DubboEndpoint :=
  fold_left (fun m ep => <[Endpoint_Key ep := ep]> m) eps ∅.

(** The loop over the incoming endpoints. *)
Definition compare_endpoint (omap : gmap string DubboEndpoint)
    (st : bool * list DubboEndpoint) (nie : DubboEndpoint) : bool * list DubboEndpoint :=
  let '(needPush, newDubboEndpoints) := st in
  match omap !! Endpoint_Key nie with
  | Some oie =>
      let needPush := if negb needPush && negb (Endpoint_Equals (Some oie) (Some nie))
                      then true else needPush in
      (needPush, newDubboEndpoints ++ [nie])
  | None =>
      let needPush := if negb (Endpoint.HealthStatus nie =? UnHealthy)
                         || Endpoint.SendUnhealthyEndpoints nie then true else needPush in
      (needPush, newDubboEndpoints ++ [nie])
  end.

Definition endpointUpdateRequiresPush (oldDubboEndpoints incomingEndpoints : list DubboEndpoint)
  : list DubboEndpoint * bool :=
  let oldWasEmpty := (length oldDubboEndpoints =? 0)%nat in
  let newIsEmpty := (length incomingEndpoints =? 0)%nat in
  if oldWasEmpty then
    if negb newIsEmpty then (incomingEndpoints, true) else (incomingEndpoints, false)
  else if newIsEmpty then (incomingEndpoints, true)
  else
    let omap := by_key oldDubboEndpoints in
    let nmap := by_key incomingEndpoints in
    let '(needPush, newDubboEndpoints) :=
      fold_left (compare_endpoint omap) incomingEndpoints (false, []) in
    let needPush :=
      if negb needPush then
        existsb (fun oie => bool_decide (nmap !! Endpoint_Key oie = None)) oldDubboEndpoints
      else needPush in
    (newDubboEndpoints, needPush).

(** The accounts named by the endpoints of all shards: the two nested loops. *)
Definition collectShard (acc : gset string) (epShards : list DubboEndpoint) : gset string :=
  fold_left (fun acc ep =>
    if negb (String.eqb (Endpoint.ServiceAccount ep) "")
    then {[Endpoint.ServiceAccount ep]} ∪ acc else acc) epShards acc.

Definition collectServiceAccounts (shards : gmap ShardKey (list DubboEndpoint)) : gset string :=
  fold_left collectShard (map snd (map_to_list shards)) ∅.

Definition updateShardServiceAccount (shards : EndpointShards) : EndpointShards * bool :=
  let oldServiceAccount := ServiceAccounts shards in
  let serviceAccounts := collectServiceAccounts (Shards shards) in
  if negb (GoSet.Equals (Some oldServiceAccount) (Some serviceAccounts)) then
    (mkShards (Shards shards) serviceAccounts, true)
  else (shards, false).

Section index.
Context {C : Type} `{!XdsCacheClear C}.
Notation index := (EndpointIndex C).
Implicit Types (e : index).

(** The set holds one key, with no field set. *)
Definition clearCacheForService e (svc ns : string) (now : clock) : index :=
  mkIndex (shardsBySvc e) (cache_Clear (cache e) now (Some {[ConfigKey.zero]})).

(** The service's shards, the created flag, and the index that holds them. *)
Definition GetOrCreateEndpointShard e (serviceName namespace : string) (now : clock)
  : index * EndpointShards * bool :=
  let svcs := match shardsBySvc e !! serviceName with
              | None => <[serviceName := ∅]> (shardsBySvc e)
              | Some _ => shardsBySvc e end in
  match default ∅ (svcs !! serviceName) !! namespace with
  | Some ep => (mkIndex svcs (cache e), ep, false)
  | None =>
      let ep := mkShards ∅ ∅ in
      let e := mkIndex (<[serviceName := <[namespace := ep]> (default ∅ (svcs !! serviceName))]> svcs)
        (cache e) in
      (clearCacheForService e serviceName namespace now, ep, true)
  end.

(** Writing through the pointer the index holds. *)
Definition store_shards e (serviceName namespace : string) (ep : EndpointShards) : index :=
  mkIndex (<[serviceName := <[namespace := ep]> (default ∅ (shardsBySvc e !! serviceName))]>
    (shardsBySvc e)) (cache e).

Definition deleteServiceInner e (shard : ShardKey) (serviceName namespace : string)
    (preserveKeys : bool) (now : clock) : index :=
  match shardsBySvc e !! serviceName with
  | None => e
  | Some byNs =>
      match byNs !! namespace with
      | None => e
      | Some epShards =>
          let epShards := mkShards (delete shard (Shards epShards)) (ServiceAccounts epShards) in
          let e := store_shards e serviceName namespace epShards in
          let e := clearCacheForService e serviceName namespace now in
          if negb preserveKeys then
            let byNs := default ∅ (shardsBySvc e !! serviceName) in
            let byNs := if (size (Shards epShards) =? 0)%nat then delete namespace byNs else byNs in
            let svcs := <[serviceName := byNs]> (shardsBySvc e) in
            let svcs := if (size byNs =? 0)%nat then delete serviceName svcs else svcs in
            mkIndex svcs (cache e)
          else e
      end
  end.

Definition DeleteServiceShard := deleteServiceInner.

(** [logPushType] only selects log lines. *)
Definition UpdateServiceEndpoints e (shard : ShardKey) (hostname namespace : string)
    (dubboEndpoints : list DubboEndpoint) (now1 now2 : clock) : index * PushType :=
  if (length dubboEndpoints =? 0)%nat then
    (DeleteServiceShard e shard hostname namespace true now1, IncrementalPush)
  else
    let '(e, ep, created) := GetOrCreateEndpointShard e hostname namespace now1 in
    let pushType := if created : bool then FullPush else IncrementalPush in
    let oldDubboEndpoints := default [] (Shards ep !! shard) in
    let oldWasEmpty := (length oldDubboEndpoints =? 0)%nat in
    let newIsEmpty := (length dubboEndpoints =? 0)%nat in
    let transitionFromEmptyToNonEmpty := oldWasEmpty && negb newIsEmpty in
    let '(newDubboEndpoints, needPush) := endpointUpdateRequiresPush oldDubboEndpoints dubboEndpoints in
    let needPush := if transitionFromEmptyToNonEmpty then true else needPush in
    let pushType := if negb (bool_decide (pushType = FullPush)) && negb needPush
                    then NoPush else pushType in
    let ep := mkShards (<[shard := newDubboEndpoints]> (Shards ep)) (ServiceAccounts ep) in
    let '(ep, saUpdated) := updateShardServiceAccount ep in
    let pushType := if saUpdated && negb (bool_decide (pushType = FullPush))
                    then FullPush else pushType in
    let e := store_shards e hostname namespace ep in
    (clearCacheForService e hostname namespace now2, pushType).

Definition ShardsForService e (serviceName namespace : string) : option EndpointShards * bool :=
  match shardsBySvc e !! serviceName with
  | None => (None, false)
  | Some byNs =>
      match byNs !! namespace with Some s => (Some s, true) | None => (None, false) end
  end.

Definition ServicesInNamespace e (namespace : string) : list string :=
  omap (fun '(svcName, byNs) =>
    if bool_decide (is_Some ((byNs : gmap string EndpointShards) !! namespace))
    then Some svcName else None) (map_to_list (shardsBySvc e)).

Definition AllServices e : list string := (map_to_list (shardsBySvc e)).*1.

End index.

(** [CopyEndpoints]: the endpoints of a service by port. *)
Definition endpoint_port (portMap : nmap string Z) (ports : nset Z) (ep : DubboEndpoint) : option Z :=
  if negb (Endpoint.LegacyClusterPortKey ep =? 0) then
    if negb (GoSet.Contains ports (Endpoint.LegacyClusterPortKey ep)) then None
    else Some (Endpoint.LegacyClusterPortKey ep)
  else nmap_get portMap !! Endpoint.ServicePortName ep.

Definition CopyEndpoints (es : EndpointShards) (portMap : nmap string Z) (ports : nset Z)
  : gmap Z (list DubboEndpoint) :=
  fold_left (fun acc v =>
    fold_left (fun acc ep =>
      match endpoint_port portMap ports ep with
      | None => acc
      | Some portNum => <[portNum := default [] (acc !! portNum) ++ [ep]]> acc
      end) v acc) (map snd (map_to_list (Shards es))) ∅.

(** ** Lemmas *)

Lemma by_key_snoc eps ep : by_key (eps ++ [ep]) = <[Endpoint_Key ep := ep]> (by_key eps).
Proof. unfold by_key. by rewrite fold_left_app. Qed.

Lemma by_key_Some eps k ep : by_key eps !! k = Some ep -> ep ∈ eps /\ Endpoint_Key ep = k.
Proof.
  induction eps as [|x eps IH] using rev_ind; [done|].
  rewrite by_key_snoc, lookup_insert. case_decide; [intros ?; simplify_eq; set_solver|].
  intros [? ?]%IH. set_solver.
Qed.

Lemma by_key_None eps k : by_key eps !! k = None <-> forall ep, ep ∈ eps -> Endpoint_Key ep <> k.
Proof.
  induction eps as [|x eps IH] using rev_ind; [split; [set_solver|done]|].
  rewrite by_key_snoc, lookup_insert. case_decide; [split; [done|set_solver]|].
  rewrite IH. set_solver.
Qed.

(** An incoming endpoint that is a reason to push. *)
Definition worth_pushing (old : gmap string DubboEndpoint) (nie : DubboEndpoint) : bool :=
  match old !! Endpoint_Key nie with
  | Some oie => negb (Endpoint_Equals (Some oie) (Some nie))
  | None => negb (Endpoint.HealthStatus nie =? UnHealthy) || Endpoint.SendUnhealthyEndpoints nie
  end.

Lemma compare_loop old eps b acc :
  fold_left (compare_endpoint old) eps (b, acc) = (b || existsb (worth_pushing old) eps, acc ++ eps).
Proof.
  revert b acc; induction eps as [|ep eps IH]; intros b acc; cbn [fold_left existsb].
  { by rewrite orb_false_r, app_nil_r. }
  assert (E : compare_endpoint old (b, acc) ep = (b || worth_pushing old ep, acc ++ [ep])).
  { unfold compare_endpoint, worth_pushing. destruct (old !! Endpoint_Key ep) as [o|].
    - destruct b; cbn [negb andb orb]; [done|].
      by destruct (Endpoint_Equals (Some o) (Some ep)).
    - by destruct b, (negb (Endpoint.HealthStatus ep =? UnHealthy)
        || Endpoint.SendUnhealthyEndpoints ep). }
  by rewrite E, IH, orb_assoc, <- app_assoc.
Qed.

Lemma endpointUpdateRequiresPush_eq old incoming :
  endpointUpdateRequiresPush old incoming =
  (incoming,
   match old, incoming with
   | [], [] => false
   | [], _ | _, [] => true
   | _, _ => existsb (worth_pushing (by_key old)) incoming
             || existsb (fun oie => bool_decide (by_key incoming !! Endpoint_Key oie = None)) old
   end).
Proof.
  unfold endpointUpdateRequiresPush.
  destruct old as [|o old], incoming as [|n incoming]; try done.
  cbn [length Nat.eqb]. rewrite compare_loop. cbn [app orb].
  by destruct (existsb (worth_pushing (by_key (o :: old))) (n :: incoming)).
Qed.

Lemma elem_of_collectShard eps acc a :
  a ∈ collectShard acc eps <->
  a ∈ acc \/ a <> "" /\ exists ep, ep ∈ eps /\ Endpoint.ServiceAccount ep = a.
Proof.
  unfold collectShard. revert acc; induction eps as [|ep eps IH]; intros acc; simpl; [set_solver|].
  rewrite IH. destruct (String.eqb_spec (Endpoint.ServiceAccount ep) ""); simpl; set_solver.
Qed.

Lemma elem_of_collect shards a :
  a ∈ collectServiceAccounts shards <->
  a <> "" /\ exists s eps ep, shards !! s = Some eps /\ ep ∈ eps /\ Endpoint.ServiceAccount ep = a.
Proof.
  unfold collectServiceAccounts.
  assert (Hl : forall ls acc, a ∈ fold_left collectShard ls acc <->
    a ∈ acc \/ a <> "" /\ exists eps ep, eps ∈ ls /\ ep ∈ eps /\ Endpoint.ServiceAccount ep = a).
  { induction ls as [|eps ls IH]; intros acc; simpl; [set_solver|].
    rewrite IH, elem_of_collectShard. setoid_rewrite elem_of_cons. naive_solver. }
  rewrite Hl. setoid_rewrite list_elem_of_fmap. split.
  - intros [?|(Ha & eps & ep & ([s eps'] & -> & Hs%elem_of_map_to_list) & ? & ?)]; [set_solver|].
    eauto 10.
  - intros (Ha & s & eps & ep & Hs & ? & ?). right. split; [done|]. exists eps, ep.
    split; [|done]. exists (s, eps). split; [done|]. by apply elem_of_map_to_list.
Qed.

Lemma collect_mono s1 s2 : s1 ⊆ s2 -> collectServiceAccounts s1 ⊆ collectServiceAccounts s2.
Proof.
  intros Hs a. rewrite !elem_of_collect. intros (? & s & eps & ep & Hl & ? & ?).
  split; [done|]. exists s, eps, ep. split; [by eapply lookup_weaken|done].
Qed.

Lemma updateShardServiceAccount_eq ep :
  updateShardServiceAccount ep =
  (mkShards (Shards ep) (collectServiceAccounts (Shards ep)),
   negb (bool_decide (ServiceAccounts ep = collectServiceAccounts (Shards ep)))).
Proof.
  unfold updateShardServiceAccount.
  destruct (GoSet.Equals (Some (ServiceAccounts ep)) (Some (collectServiceAccounts (Shards ep)))) eqn:E.
  - apply GoSet.Equals_spec in E. simpl in E. simpl. rewrite (bool_decide_eq_true_2 _ E), <- E.
    by destruct ep.
  - simpl. rewrite bool_decide_eq_false_2; [done|]. intros E'.
    apply not_true_iff_false in E. by apply E, GoSet.Equals_spec.
Qed.

Section index_lemmas.
Context {C : Type} `{!XdsCacheClear C}.
Implicit Types (e : EndpointIndex C).

(** The shards the index holds for a service. *)
Definition shards_of e (svc ns : string) : option EndpointShards :=
  shardsBySvc e !! svc ≫= (fun byNs => byNs !! ns).

Lemma shards_of_clear e svc ns now s n :
  shards_of (clearCacheForService e svc ns now) s n = shards_of e s n.
Proof. done. Qed.

Lemma shards_of_store e svc ns ep s n :
  shards_of (store_shards e svc ns ep) s n =
  if decide (svc = s /\ ns = n) then Some ep else shards_of e s n.
Proof.
  unfold shards_of, store_shards; simpl. rewrite lookup_insert.
  destruct (decide (svc = s)) as [->|Hs]; simpl.
  - rewrite lookup_insert. destruct (decide (ns = n)) as [->|Hn].
    + by rewrite decide_True.
    + rewrite decide_False by naive_solver. by destruct (shardsBySvc e !! s).
  - by rewrite decide_False by naive_solver.
Qed.

Lemma GetOrCreate_spec e svc ns now :
  let '(e', ep, created) := GetOrCreateEndpointShard e svc ns now in
  ep = default (mkShards ∅ ∅) (shards_of e svc ns) /\
  created = bool_decide (shards_of e svc ns = None) /\
  (forall s n, shards_of e' s n =
     if decide (svc = s /\ ns = n) then Some ep else shards_of e s n).
Proof.
  unfold GetOrCreateEndpointShard, shards_of.
  destruct (shardsBySvc e !! svc) as [byNs|] eqn:Es; simpl.
  - rewrite Es. simpl. destruct (byNs !! ns) as [ep|] eqn:En; simpl.
    + split; [done|]. split; [done|]. intros s n. case_decide as Hd; [|done].
      destruct Hd as [-> ->]. by rewrite Es.
    + split; [done|]. split; [done|]. intros s n. rewrite lookup_insert.
      destruct (decide (svc = s)) as [->|Hs]; simpl.
      * rewrite lookup_insert, Es. destruct (decide (ns = n)); simpl;
          [by rewrite decide_True|by rewrite decide_False by naive_solver].
      * by rewrite decide_False by naive_solver.
  - rewrite lookup_insert_eq. simpl. rewrite lookup_empty. simpl.
    split; [done|]. split; [done|]. intros s n. rewrite insert_insert_eq, lookup_insert.
    destruct (decide (svc = s)) as [->|Hs]; simpl.
    + rewrite lookup_insert, Es. destruct (decide (ns = n)); simpl;
        [by rewrite decide_True|by rewrite decide_False by naive_solver].
    + by rewrite decide_False by naive_solver.
Qed.

(** What an update leaves behind and the push it asks for, on endpoints that
    are not empty. *)
Lemma Update_nonempty e shard host ns eps now1 now2 :
  eps <> [] ->
  let '(e', t) := UpdateServiceEndpoints e shard host ns eps now1 now2 in
  let old := default (mkShards ∅ ∅) (shards_of e host ns) in
  let shards := <[shard := eps]> (Shards old) in
  let accounts := collectServiceAccounts shards in
  (forall s n, shards_of e' s n =
     if decide (host = s /\ ns = n) then Some (mkShards shards accounts) else shards_of e s n) /\
  t = (if bool_decide (shards_of e host ns = None) then FullPush
       else if negb (bool_decide (ServiceAccounts old = accounts)) then FullPush
       else if snd (endpointUpdateRequiresPush (default [] (Shards old !! shard)) eps)
       then IncrementalPush else NoPush).
Proof.
  intros Hne. unfold UpdateServiceEndpoints.
  destruct (length eps =? 0)%nat eqn:El; [by destruct eps|].
  pose proof (GetOrCreate_spec e host ns now1) as HG.
  destruct (GetOrCreateEndpointShard e host ns now1) as [[e1 ep] created].
  destruct HG as (Hep & -> & HG). rewrite endpointUpdateRequiresPush_eq.
  rewrite updateShardServiceAccount_eq. cbv beta iota zeta. cbn [Shards ServiceAccounts snd negb].
  rewrite <- Hep. split.
  - intros s n. rewrite shards_of_clear, shards_of_store. case_decide; [done|].
    rewrite HG. by case_decide.
  - rewrite endpointUpdateRequiresPush_eq. cbn [snd].
    set (need := match default [] (Shards ep !! shard) with [] => _ | _ :: _ => _ end).
    assert (Hneed : (if (length (default [] (Shards ep !! shard)) =? 0)%nat && true
                     then true else need) = need).
    { subst need. by destruct (default [] (Shards ep !! shard)), eps. }
    rewrite Hneed. clearbody need.
    by destruct (bool_decide (shards_of e host ns = None)), need,
      (bool_decide (ServiceAccounts ep = collectServiceAccounts (<[shard := eps]> (Shards ep)))).
Qed.

Lemma Update_empty e shard host ns now1 now2 :
  let '(e', t) := UpdateServiceEndpoints e shard host ns [] now1 now2 in
  (forall s n, shards_of e' s n =
     if decide (host = s /\ ns = n) then
       (fun ep => mkShards (delete shard (Shards ep)) (ServiceAccounts ep)) <$> shards_of e s n
     else shards_of e s n) /\
  t = IncrementalPush.
Proof.
  unfold UpdateServiceEndpoints. simpl. split; [|done]. intros s n.
  unfold DeleteServiceShard, deleteServiceInner. 
  destruct (shardsBySvc e !! host) as [byNs|] eqn:Es.
  2:{ case_decide as Hd; [|done]. destruct Hd as [-> ->]. unfold shards_of. by rewrite Es. }
  destruct (byNs !! ns) as [ep|] eqn:En.
  - simpl. rewrite shards_of_clear, shards_of_store. case_decide as Hd; [|done].
    destruct Hd as [-> ->]. unfold shards_of. rewrite Es. simpl. by rewrite En.
  - case_decide as Hd; [|done]. destruct Hd as [-> ->]. unfold shards_of. rewrite Es. simpl. by rewrite En.
Qed.

End index_lemmas.

(** ** Runs of the index *)
Section index_runs.
Context {C : Type} `{!XdsCacheClear C}.
Implicit Types (e : EndpointIndex C).

Inductive index_op : Type :=
  | IUpdate (shard : ShardKey) (host ns : string) (eps : list DubboEndpoint) (now1 now2 : clock)
  | IDelete (shard : ShardKey) (host ns : string) (preserveKeys : bool) (now : clock).

Definition apply_index_op e (o : index_op) : EndpointIndex C :=
  match o with
  | IUpdate shard host ns eps now1 now2 => fst (UpdateServiceEndpoints e shard host ns eps now1 now2)
  | IDelete shard host ns preserve now => DeleteServiceShard e shard host ns preserve now
  end.

Definition run_index e (os : list index_op) : EndpointIndex C := fold_left apply_index_op os e.

(** A service's shards are well formed: no shard is kept without endpoints,
    and the recorded accounts include those of the endpoints. *)
Definition shards_ok (ep : EndpointShards) : Prop :=
  (forall sh eps, Shards ep !! sh = Some eps -> eps <> []) /\
  collectServiceAccounts (Shards ep) ⊆ ServiceAccounts ep.

Record index_ok e : Prop := {
  ok_namespaces : forall svc byNs, shardsBySvc e !! svc = Some byNs -> byNs <> ∅;
  ok_shards : forall svc ns ep, shards_of e svc ns = Some ep -> shards_ok ep
}.

Lemma store_shards_namespaces e svc ns ep :
  (forall s byNs, s <> svc -> shardsBySvc e !! s = Some byNs -> byNs <> ∅) ->
  forall s byNs, shardsBySvc (store_shards e svc ns ep) !! s = Some byNs -> byNs <> ∅.
Proof.
  intros Hn s byNs. unfold store_shards; simpl. rewrite lookup_insert.
  case_decide; [|by apply Hn]. intros [= <-]. apply insert_non_empty.
Qed.

Lemma GetOrCreate_namespaces e svc ns now s byNs :
  (forall s byNs, shardsBySvc e !! s = Some byNs -> byNs <> ∅) -> s <> svc ->
  shardsBySvc (fst (fst (GetOrCreateEndpointShard e svc ns now))) !! s = Some byNs -> byNs <> ∅.
Proof.
  intros Hn Hs. unfold GetOrCreateEndpointShard.
  destruct (shardsBySvc e !! svc) as [b|] eqn:Es; simpl; [rewrite Es|rewrite lookup_insert_eq]; simpl.
  - destruct (b !! ns); simpl; [apply Hn|]. rewrite lookup_insert_ne by done. apply Hn.
  - rewrite lookup_empty. simpl. rewrite insert_insert_eq, lookup_insert_ne by done. apply Hn.
Qed.

Lemma delete_shard_ok ep shard :
  shards_ok ep -> shards_ok (mkShards (delete shard (Shards ep)) (ServiceAccounts ep)).
Proof.
  intros [Hne Hacc]. split; simpl.
  - intros sh eps. rewrite lookup_delete. case_decide; [done|apply Hne].
  - etrans; [|done]. apply collect_mono, delete_subseteq.
Qed.

Lemma Update_namespaces e shard host ns eps now1 now2 :
  (forall s byNs, shardsBySvc e !! s = Some byNs -> byNs <> ∅) -> eps <> [] ->
  forall s byNs, shardsBySvc (fst (UpdateServiceEndpoints e shard host ns eps now1 now2)) !! s
    = Some byNs -> byNs <> ∅.
Proof.
  intros Hn Hne. unfold UpdateServiceEndpoints.
  destruct (length eps =? 0)%nat eqn:El; [by destruct eps|].
  pose proof (GetOrCreate_namespaces e host ns now1) as HG.
  destruct (GetOrCreateEndpointShard e host ns now1) as [[e1 ep] created].
  rewrite endpointUpdateRequiresPush_eq, updateShardServiceAccount_eq. cbn [fst snd].
  change (shardsBySvc (clearCacheForService ?x _ _ _)) with (shardsBySvc x).
  apply store_shards_namespaces. intros s byNs Hs. by apply HG.
Qed.

Lemma Delete_ok e shard svc ns preserve now :
  index_ok e -> index_ok (DeleteServiceShard e shard svc ns preserve now).
Proof.
  intros [Hns Hsh]. unfold DeleteServiceShard, deleteServiceInner.
  destruct (shardsBySvc e !! svc) as [byNs|] eqn:Es; [|done].
  destruct (byNs !! ns) as [ep|] eqn:En; [|done].
  assert (Hep : shards_ok (mkShards (delete shard (Shards ep)) (ServiceAccounts ep))).
  { apply delete_shard_ok, (Hsh svc ns). unfold shards_of. rewrite Es. simpl. by rewrite En. }
  set (e1 := store_shards e svc ns _).
  assert (He1 : index_ok e1).
  { split.
    - apply store_shards_namespaces. eauto.
    - intros s n ep'. subst e1. rewrite shards_of_store. case_decide; [by intros [= <-]|eauto]. }
  destruct preserve; simpl; [by destruct He1; split|].
  destruct He1 as [Hns1 Hsh1]. rewrite Es, lookup_insert_eq; simpl.
  set (inner := if (size (delete shard (Shards ep)) =? 0)%nat then _ else _).
  assert (Hin : inner ⊆ <[ns := mkShards (delete shard (Shards ep)) (ServiceAccounts ep)]> byNs).
  { subst inner. destruct (size (delete shard (Shards ep)) =? 0)%nat; [apply delete_subseteq|done]. }
  clearbody inner. split.
  - intros s b. simpl. destruct (Nat.eqb_spec (size inner) 0) as [E|E].
    + rewrite lookup_delete. case_decide; [done|]. rewrite !lookup_insert_ne by done. apply Hns.
    + rewrite lookup_insert. case_decide; [|rewrite lookup_insert_ne by done; apply Hns].
      intros [= <-]. intros ->. by rewrite map_size_empty in E.
  - intros s n ep'. unfold shards_of. simpl. intros (b & Hb & Hep')%bind_Some.
    apply (Hsh1 s n). subst e1. rewrite shards_of_store.
    destruct (decide (svc = s)) as [<-|Hs].
    + assert (b = inner) as ->.
      { destruct (Nat.eqb_spec (size inner) 0); [by rewrite lookup_delete_eq in Hb|].
        rewrite lookup_insert_eq in Hb. congruence. }
      pose proof (lookup_weaken _ _ _ _ Hep' Hin) as Hl. rewrite lookup_insert in Hl.
      case_decide as Hn; [by rewrite decide_True|]. rewrite decide_False by naive_solver.
      unfold shards_of. rewrite Es. simpl. done.
    + rewrite decide_False by naive_solver. unfold shards_of.
      destruct (size inner =? 0)%nat; [rewrite lookup_delete_ne in Hb by done|];
        rewrite !lookup_insert_ne in Hb by done; rewrite Hb; done.
Qed.

Lemma Update_ok e shard host ns eps now1 now2 :
  index_ok e -> index_ok (fst (UpdateServiceEndpoints e shard host ns eps now1 now2)).
Proof.
  intros Hok. destruct (decide (eps = [])) as [->|Hne]; [by apply Delete_ok|].
  destruct Hok as [Hns Hsh]. split; [by apply Update_namespaces|].
  pose proof (Update_nonempty e shard host ns eps now1 now2 Hne) as HU.
  destruct (UpdateServiceEndpoints e shard host ns eps now1 now2) as [e' t].
  destruct HU as [HU _]. simpl. intros s n ep. rewrite HU. case_decide as Hd; [|apply Hsh].
  intros [= <-]. split; simpl; [|done]. intros sh eps'. rewrite lookup_insert.
  case_decide; [by intros [= <-]|].
  destruct (shards_of e host ns) as [old|] eqn:Eo; simpl; [|by rewrite lookup_empty].
  apply (Hsh _ _ _ Eo).
Qed.

Lemma run_index_ok e os : index_ok e -> index_ok (run_index e os).
Proof.
  unfold run_index. revert e; induction os as [|o os IH]; intros e He; simpl; [done|].
  apply IH. destruct o; simpl; auto using Update_ok, Delete_ok.
Qed.

Lemma empty_index_ok (c : C) : index_ok (mkIndex ∅ c).
Proof. split; [done|]. intros svc ns ep. unfold shards_of; simpl. by rewrite lookup_empty. Qed.

End index_runs.

(** ** Properties *)

(** When an endpoint change may go without a push:
    [endpointUpdateRequiresPush] stores the incoming endpoints as they are, and
    answers no exactly when there are no endpoints before and after, or when
    every incoming endpoint equals the old one with its key, or is a newcomer
    that is unhealthy and not to be sent, and no old endpoint is gone. *)
Theorem endpointUpdateRequiresPush_spec old incoming :
  fst (endpointUpdateRequiresPush old incoming) = incoming /\
  (snd (endpointUpdateRequiresPush old incoming) = false <->
   (old = [] /\ incoming = []) \/
   (old <> [] /\ incoming <> [] /\
    (forall nie, nie ∈ incoming -> match by_key old !! Endpoint_Key nie with
       | Some oie => Endpoint_Equals (Some oie) (Some nie) = true
       | None => Endpoint.HealthStatus nie = UnHealthy /\
                 Endpoint.SendUnhealthyEndpoints nie = false end) /\
    (forall oie, oie ∈ old -> exists nie, nie ∈ incoming /\ Endpoint_Key nie = Endpoint_Key oie))).
Proof.
  rewrite endpointUpdateRequiresPush_eq. split; [done|]. simpl.
  destruct old as [|o old], incoming as [|n incoming]; try naive_solver.
  rewrite orb_false_iff, <- !not_true_iff_false, !existsb_elem.
  setoid_rewrite bool_decide_eq_true. split.
  - intros [H1 H2]. right. split; [done|]. split; [done|]. split.
    + intros nie Hn. assert (Hw : worth_pushing (by_key (o :: old)) nie <> true) by naive_solver.
      unfold worth_pushing in Hw. destruct (by_key (o :: old) !! Endpoint_Key nie) as [oie|].
      * by apply not_true_is_false, negb_false_iff in Hw.
      * apply not_true_is_false, orb_false_iff in Hw as [Hh ?]. breflect. done.
    + intros oie Ho. destruct (by_key (n :: incoming) !! Endpoint_Key oie) as [nie|] eqn:E.
      * apply by_key_Some in E as [??]. eauto.
      * exfalso. apply H2. eauto.
  - intros [[? _]|(_ & _ & H1 & H2)]; [done|]. split.
    + intros (nie & Hn & Hw). specialize (H1 nie Hn). unfold worth_pushing in Hw.
      destruct (by_key (o :: old) !! Endpoint_Key nie); [by rewrite H1 in Hw|].
      destruct H1 as [E1 E2]. by rewrite E1, E2 in Hw.
    + intros (oie & Ho & E). rewrite by_key_None in E. destruct (H2 _ Ho) as (nie & ? & ?).
      by apply (E nie).
Qed.

(** What [UpdateServiceEndpoints] does with endpoints: the service's
    shard holds them, its accounts are those of its endpoints, no other
    service changes, and the push is full exactly when the service was unknown
    or its accounts changed, and left out only when the endpoint comparison
    says so. *)
Theorem UpdateServiceEndpoints_spec {C} `{!XdsCacheClear C} (e : EndpointIndex C)
    shard host ns eps now1 now2 :
  eps <> [] ->
  let '(e', t) := UpdateServiceEndpoints e shard host ns eps now1 now2 in
  let old := default (mkShards ∅ ∅) (shards_of e host ns) in
  let shards := <[shard := eps]> (Shards old) in
  let accounts := collectServiceAccounts shards in
  shards_of e' host ns = Some (mkShards shards accounts) /\
  (forall s n, (s, n) <> (host, ns) -> shards_of e' s n = shards_of e s n) /\
  (t = FullPush <-> shards_of e host ns = None \/ ServiceAccounts old <> accounts) /\
  (t = NoPush <-> shards_of e host ns <> None /\ ServiceAccounts old = accounts /\
     snd (endpointUpdateRequiresPush (default [] (Shards old !! shard)) eps) = false).
Proof.
  intros Hne. pose proof (Update_nonempty e shard host ns eps now1 now2 Hne) as HU.
  destruct (UpdateServiceEndpoints e shard host ns eps now1 now2) as [e' t].
  destruct HU as [HU ->]. split; [rewrite HU; by rewrite decide_True|].
  split; [intros s n Hsn; rewrite HU, decide_False by naive_solver; done|].
  repeat case_bool_decide; simpl; split; try naive_solver;
    destruct (snd _); naive_solver.
Qed.

(** A service whose endpoints flap does not cause full pushes: when the
    endpoints of a known service with up-to-date accounts disappear and come
    back, both updates ask for an incremental push and the index ends as it
    was. *)
Theorem flapping_endpoints_no_full_push {C} `{!XdsCacheClear C} (e : EndpointIndex C)
    shard host ns ep eps now1 now2 now3 now4 :
  shards_of e host ns = Some ep -> Shards ep !! shard = Some eps -> eps <> [] ->
  ServiceAccounts ep = collectServiceAccounts (Shards ep) ->
  let '(e1, t1) := UpdateServiceEndpoints e shard host ns [] now1 now2 in
  let '(e2, t2) := UpdateServiceEndpoints e1 shard host ns eps now3 now4 in
  t1 = IncrementalPush /\ t2 = IncrementalPush /\
  forall s n, shards_of e2 s n = shards_of e s n.
Proof.
  intros Hep Hsh Hne Hacc.
  pose proof (Update_empty e shard host ns now1 now2) as H1.
  destruct (UpdateServiceEndpoints e shard host ns [] now1 now2) as [e1 t1]. destruct H1 as [H1 ->].
  pose proof (Update_nonempty e1 shard host ns eps now3 now4 Hne) as H2.
  destruct (UpdateServiceEndpoints e1 shard host ns eps now3 now4) as [e2 t2].
  assert (He1 : shards_of e1 host ns = Some (mkShards (delete shard (Shards ep)) (ServiceAccounts ep))).
  { rewrite H1, decide_True by done. by rewrite Hep. }
  rewrite He1 in H2. cbn [default Shards ServiceAccounts] in H2. simpl in H2.
  assert (Hback : <[shard := eps]> (delete shard (Shards ep)) = Shards ep).
  { rewrite insert_delete_eq. by apply insert_id. }
  rewrite Hback, lookup_delete_eq, <- Hacc in H2. destruct H2 as [H2 ->].
  split; [done|]. split.
  - rewrite bool_decide_eq_true_2 by done. simpl.
    rewrite endpointUpdateRequiresPush_eq. by destruct eps.
  - intros s n. rewrite H2. case_decide as Hd; [|rewrite H1; by case_decide].
    destruct Hd as [-> ->]. rewrite Hep. by destruct ep.
Qed.

(** Every reachable index is well formed: no service is kept
    without a namespace, no shard without endpoints, and the recorded accounts
    of a service include those of its endpoints. *)
Theorem endpoint_index_invariant {C} `{!XdsCacheClear C} (c : C) (os : list index_op) :
  index_ok (run_index (mkIndex ∅ c) os).
Proof. apply run_index_ok, empty_index_ok. Qed.

(** *** Witnesses *)

Definition sample_ep (addr acc : string) (health : Z) : DubboEndpoint :=
  Endpoint.mk acc [addr] "dubbo" None "" "" 1 health false None 0 20880 "w" "ns" "" "" "".

Definition no_clock : clock := (0, 0, 0, 0).

Definition sample_index : EndpointIndex unit :=
  run_index (mkIndex ∅ tt)
    [IUpdate "Kubernetes" "demo" "ns" [sample_ep "10.0.0.1" "sa" Healthy] no_clock no_clock].

Lemma UpdateServiceEndpoints_spec_witness :
  let '(e', t) := UpdateServiceEndpoints sample_index "Kubernetes" "demo" "ns"
    [sample_ep "10.0.0.1" "sa" Healthy; sample_ep "10.0.0.2" "sa" UnHealthy] no_clock no_clock in
  t = NoPush <-> True.
Proof.
  pose proof (UpdateServiceEndpoints_spec sample_index "Kubernetes" "demo" "ns"
    [sample_ep "10.0.0.1" "sa" Healthy; sample_ep "10.0.0.2" "sa" UnHealthy] no_clock no_clock) as H.
  destruct (UpdateServiceEndpoints sample_index "Kubernetes" "demo" "ns"
    [sample_ep "10.0.0.1" "sa" Healthy; sample_ep "10.0.0.2" "sa" UnHealthy] no_clock no_clock) as [e' t].
  destruct H as (_ & _ & _ & ->); [done|]. split; [done|]. intros _.
  split; [vm_compute; done|]. split; vm_compute; reflexivity.
Defined.

Lemma flapping_endpoints_no_full_push_witness :
  let '(e1, t1) := UpdateServiceEndpoints sample_index "Kubernetes" "demo" "ns" [] no_clock no_clock in
  let '(e2, t2) := UpdateServiceEndpoints e1 "Kubernetes" "demo" "ns"
    [sample_ep "10.0.0.1" "sa" Healthy] no_clock no_clock in
  t1 = IncrementalPush /\ t2 = IncrementalPush /\
  forall s n, shards_of e2 s n = shards_of sample_index s n.
Proof.
  eapply (flapping_endpoints_no_full_push sample_index); [vm_compute; reflexivity..|done|].
  vm_compute. reflexivity.
Defined.
