(* ===== verification/ServiceIndex.v ===== *)
(** * The service index of a configuration snapshot

    [initServiceRegistry], [resolveServiceAliases], [initServiceAccounts] and
    the queries on the index in [dubbod/discovery/pkg/model/config_snapshot.go]:
    from the services of the registries to the services a namespace sees. *)

From S2P Require Import Prelude GoStrings GoSets GoSort Hosts GoNet Spiffe ConfigKeys Service EndpointShards.

#[global] Instance NamespacedHostname_countable : Countable NamespacedHostname.
Proof.
  refine (inj_countable' (fun n => (nh_Hostname n, nh_Namespace n))
    (fun '(a, b) => mkNamespacedHostname a b) _). by intros [].
Defined.

Definition Kubernetes : string := "Kubernetes".
Definition NamespaceAll : string := "".

Module visibility.
Definition Private : string := ".".
Definition Public : string := "*".
Definition None : string := "~".
End visibility.

Definition namespace_of (s : Service) : string := Attributes.Namespace (Service.Attributes s).
Definition exportTo_of (s : Service) : gset string :=
  nset_elems (Attributes.ExportTo (Service.Attributes s)).

(** ** Order of services *)

Definition service_compare : Service -> Service -> comparison :=
  cmp_lex (cmp_on Service.CreationTime Z.compare)
    (cmp_lex (cmp_on (fun s => Attributes.Name (Service.Attributes s)) String.compare)
             (cmp_on namespace_of String.compare)).

Definition SortServicesByCreationTime (services : list Service) : list Service :=
  SortStableFunc service_compare services.

(** ** Aliases *)
Section aliases.
Context `{RangeOrder}.

(** The hosts alias services name, by alias; a later service of the same name
    replaces an earlier one. *)
Definition raw_aliases (allServices : list Service) : gmap NamespacedHostname host.Name :=
  fold_left (fun rawAlias s =>
    match Service.Resolution s with
    | Alias => <[mkNamespacedHostname (Service.Hostname s) (namespace_of s)
                 := ExternalName (Attributes.K8s (Service.Attributes s))]> rawAlias
    | _ => rawAlias
    end) allServices ∅.

(** The same without the namespace: where several namespaces have an alias of
    one name, the one visited last wins. *)
Definition unnamespaced_aliases (rawAlias : gmap NamespacedHostname host.Name) : gmap host.Name host.Name :=
  fold_left (fun m '(k, v) => <[nh_Hostname k := v]> m) (range rawAlias) ∅.

(** The [for] loop that follows a chain of aliases.  [None]: out of fuel;
    [Some None]: the chain came back to a name it had seen. *)
Fixpoint follow_alias (fuel : nat) (m : gmap host.Name host.Name) (seen : gset host.Name)
    (referencedService : host.Name) : option (option host.Name) :=
  match fuel with
  | O => None
  | S fuel =>
      match m !! referencedService with
      | None => Some (Some referencedService)
      | Some n =>
          if bool_decide (n ∈ seen) then Some None
          else follow_alias fuel m ({[n]} ∪ seen) n
      end
  end.

(** Each turn adds a value of the map to [seen]: one more than its size is
    enough. *)
Definition alias_fuel (m : gmap host.Name host.Name) : nat := S (size m).

Definition resolve_alias (m : gmap host.Name host.Name) (alias : NamespacedHostname)
    (referencedService : host.Name) : option host.Name :=
  match m !! referencedService with
  | None => Some referencedService
  | Some _ => default None (follow_alias (alias_fuel m) m
                {[nh_Hostname alias; referencedService]} referencedService)
  end.

Definition resolved_aliases (rawAlias : gmap NamespacedHostname host.Name)
  : gmap NamespacedHostname host.Name :=
  let m := unnamespaced_aliases rawAlias in
  fold_left (fun resolved '(alias, ref) =>
    match resolve_alias m alias ref with
    | Some concrete => <[alias := concrete]> resolved
    | None => resolved
    end) (range rawAlias) ∅.

Definition alias_compare : NamespacedHostname -> NamespacedHostname -> comparison :=
  cmp_lex (cmp_on nh_Namespace String.compare) (cmp_on nh_Hostname String.compare).

Definition aliases_by_service (resolved : gmap NamespacedHostname host.Name)
  : gmap host.Name (list NamespacedHostname) :=
  group_by snd fst (range resolved) ∅.

(** The key the code builds for a changed alias has all its fields commented
    out, and so has the key it inserts for the service. *)
Definition propagate_alias_updates (allServices : list Service)
    (resolved : gmap NamespacedHostname host.Name) (configsUpdated : nset ConfigKey) : nset ConfigKey :=
  fold_left (fun configsUpdated '(_, concrete) =>
    if GoSet.Contains configsUpdated ConfigKey.zero then
      fold_left (fun configsUpdated svc =>
        if String.eqb (Service.Hostname svc) concrete
        then (fun e => {[ConfigKey.zero]} ∪ e) <$> configsUpdated
        else configsUpdated) allServices configsUpdated
    else configsUpdated) (range resolved) configsUpdated.

Definition set_aliases (s : Service) (aliases : list NamespacedHostname) : Service :=
  let s := Service_DeepCopy s in
  let a := Service.Attributes s in
  Service.mk
    (Attributes.mk (Attributes.Labels a) (Attributes.LabelSelectors a) (Attributes.ExportTo a) aliases
       (Attributes.PassthroughTargetPorts a) (Attributes.Name a) (Attributes.Namespace a)
       (Attributes.ServiceRegistry a) (Attributes.K8s a))
    (Service.Hostname s) (Service.Ports s) (Service.ServiceAccounts s) (Service.Addresses s)
    (Service.CreationTime s) (Service.DefaultAddress s) (Service.ResourceVersion s)
    (Service.Resolution s) (Service.AutoAllocatedIPv4Address s) (Service.AutoAllocatedIPv6Address s)
    (Service.MeshExternal s).

Definition resolveServiceAliases (allServices : list Service) (configsUpdated : nset ConfigKey)
  : list Service * nset ConfigKey :=
  let resolved := resolved_aliases (raw_aliases allServices) in
  let aliasesForService := SortStableFunc alias_compare <$> aliases_by_service resolved in
  (map (fun s => match aliasesForService !! Service.Hostname s with
                 | Some aliases => set_aliases s aliases
                 | None => s end) allServices,
   propagate_alias_updates allServices resolved configsUpdated).

End aliases.

(** ** The index *)

Record serviceIndex : Type := mkServiceIndex {
  privateByNamespace : gmap string (list Service);
  public : list Service;
  exportedToNamespace : gmap string (list Service);
  HostnameAndNamespace : gmap host.Name (gmap string Service);
  instancesByPort : gmap string (gmap Z (list DubboEndpoint))
}.

Definition newServiceIndex : serviceIndex := mkServiceIndex ∅ [] ∅ ∅ ∅.

(** [m[k] = append(m[k], s)] *)
Definition append_service (m : gmap string (list Service)) (k : string) (s : Service) :=
  <[k := default [] (m !! k) ++ [s]]> m.

(** [portMap] and [ports] of a service; a nil port panics. *)
Fixpoint port_maps (ports : PortList) (portMap : gmap string Z) (nums : gset Z)
  : res (gmap string Z * gset Z) :=
  match ports with
  | [] => Ok (portMap, nums)
  | None :: _ => Panic "nil pointer dereference"
  | Some port :: ports =>
      port_maps ports (<[Port.Name port := Port.Number port]> portMap) ({[Port.Number port]} ∪ nums)
  end.

Definition service_ports (s : Service) : res (gmap string Z * gset Z) :=
  port_maps (Service.Ports s) ∅ ∅.

Section registry.
Context {C : Type} (eix : EndpointIndex C).

(** The endpoints of the service by port, over what an earlier service of the
    same key left. *)
Definition instances_of (s : Service) (portMap : gmap string Z) (ports : gset Z)
    (existing : gmap Z (list DubboEndpoint)) : gmap Z (list DubboEndpoint) :=
  match ShardsForService eix (Service.Hostname s) (namespace_of s) with
  | (Some shards, true) =>
      map_fold (fun port instances m => <[port := instances]> m) existing
        (CopyEndpoints shards (Some portMap) (Some ports))
  | _ => existing
  end.

Definition index_instances (si : serviceIndex) (s : Service) : res serviceIndex :=
  p ← service_ports s;
  Ok (mkServiceIndex (privateByNamespace si) (public si) (exportedToNamespace si)
        (HostnameAndNamespace si)
        (<[Service_Key (Some s) := instances_of s (fst p) (snd p)
             (default ∅ (instancesByPort si !! Service_Key (Some s)))]> (instancesByPort si))).

(** A service of Kubernetes takes the place of one of another registry;
    otherwise the first one stays. *)
Definition index_hostname (si : serviceIndex) (s : Service) : serviceIndex :=
  let byNs := default ∅ (HostnameAndNamespace si !! Service.Hostname s) in
  let ns := namespace_of s in
  let keep :=
    match byNs !! ns with
    | Some existing =>
        String.eqb (Attributes.ServiceRegistry (Service.Attributes existing)) Kubernetes
        || negb (String.eqb (Attributes.ServiceRegistry (Service.Attributes s)) Kubernetes)
    | None => false
    end in
  mkServiceIndex (privateByNamespace si) (public si) (exportedToNamespace si)
    (<[Service.Hostname s := if keep then byNs else <[ns := s]> byNs]> (HostnameAndNamespace si))
    (instancesByPort si).

Definition set_private (si : serviceIndex) m : serviceIndex :=
  mkServiceIndex m (public si) (exportedToNamespace si) (HostnameAndNamespace si) (instancesByPort si).
Definition set_public (si : serviceIndex) l : serviceIndex :=
  mkServiceIndex (privateByNamespace si) l (exportedToNamespace si) (HostnameAndNamespace si)
    (instancesByPort si).
Definition set_exported (si : serviceIndex) m : serviceIndex :=
  mkServiceIndex (privateByNamespace si) (public si) m (HostnameAndNamespace si) (instancesByPort si).

Definition index_visibility (defaults : gset string) (si : serviceIndex) (s : Service) : serviceIndex :=
  let ns := namespace_of s in
  let exportTo := exportTo_of s in
  if (size exportTo =? 0)%nat then
    if bool_decide (visibility.Private ∈ defaults) then
      set_private si (append_service (privateByNamespace si) ns s)
    else if bool_decide (visibility.Public ∈ defaults) then set_public si (public si ++ [s])
    else si
  else if bool_decide (visibility.Public ∈ exportTo) then set_public si (public si ++ [s])
  else if bool_decide (visibility.None ∈ exportTo) then si
  else fold_left (fun si e =>
         if String.eqb e visibility.Private || String.eqb e ns
         then set_private si (append_service (privateByNamespace si) ns s)
         else set_exported si (append_service (exportedToNamespace si) e s))
         (elements exportTo) si.

Fixpoint index_services (defaults : gset string) (si : serviceIndex) (services : list Service)
  : res serviceIndex :=
  match services with
  | [] => Ok si
  | s :: services =>
      si ← index_instances si s;
      index_services defaults (index_visibility defaults (index_hostname si s) s) services
  end.

(** ** Service accounts *)

(** [accounts], nil when there is neither a shard nor an account of the
    service. *)
Definition accounts_of (svc : Service) : nset string :=
  let accounts :=
    match ShardsForService eix (Service.Hostname svc) (namespace_of svc) with
    | (Some shard, true) => GoSet.Copy (Some (EndpointShards.ServiceAccounts shard))
    | _ => None
    end in
  if (0 <? length (Service.ServiceAccounts svc))%nat then
    match accounts with
    | None => GoSet.New (Service.ServiceAccounts svc)
    | Some e => Some (e ∪ list_to_set (Service.ServiceAccounts svc))
    end
  else accounts.

Definition SortedList (s : nset string) : list string := sort_strings (GoSet.UnsortedList s).

Definition initServiceAccounts (trustDomainAliases : list string)
    (m : gmap (host.Name * string) (list string)) (services : list Service)
  : gmap (host.Name * string) (list string) :=
  fold_left (fun m svc =>
    <[(Service.Hostname svc, namespace_of svc)
      := SortedList (ExpandWithTrustDomains (accounts_of svc) trustDomainAliases)]> m) services m.

End registry.

(** The services of the registries, oldest first, with their aliases. *)
Definition registry_services `{RangeOrder} (services : list Service) (configsUpdate : nset ConfigKey)
  : list Service * nset ConfigKey :=
  resolveServiceAliases (SortServicesByCreationTime services) configsUpdate.

(** The set of updates of the caller is written to by [resolveServiceAliases];
    it is returned. *)
Definition initServiceRegistry `{RangeOrder} {C} (eix : EndpointIndex C) (defaults : gset string)
    (trustDomainAliases : list string) (services : list Service) (configsUpdate : nset ConfigKey)
    (si : serviceIndex) (serviceAccounts : gmap (host.Name * string) (list string))
  : res (serviceIndex * gmap (host.Name * string) (list string) * nset ConfigKey) :=
  let r := registry_services services configsUpdate in
  si ← index_services eix defaults si (fst r);
  Ok (si, initServiceAccounts eix trustDomainAliases serviceAccounts (fst r), snd r).

(** ** Queries *)
Section queries.
Context `{RangeOrder}.

(** Any of the namespaces that have the host name. *)
Definition ServiceForHostname (si : serviceIndex) (hostname : host.Name) : option Service :=
  match range (default ∅ (HostnameAndNamespace si !! hostname)) with
  | [] => None
  | (_, service) :: _ => Some service
  end.

Definition servicesExportedToNamespace (si : serviceIndex) (ns : string) : list Service :=
  (if String.eqb ns NamespaceAll then concat (map snd (range (privateByNamespace si)))
   else default [] (privateByNamespace si !! ns) ++ default [] (exportedToNamespace si !! ns))
  ++ public si.

Definition GetAllServices (si : serviceIndex) : list Service := servicesExportedToNamespace si NamespaceAll.

End queries.

(** ** Lemmas: aliases *)

(** The names a chain of aliases goes through, without coming back to the alias
    [h] it starts from. *)
Definition alias_step (m : gmap host.Name host.Name) (h a b : host.Name) : Prop :=
  m !! a = Some b /\ b <> h.

(** [c] is a concrete host at the end of the chain. *)
Definition resolves (m : gmap host.Name host.Name) (h ref c : host.Name) : Prop :=
  rtc (alias_step m h) ref c /\ m !! c = None.

Section chain.
Context (m : gmap host.Name host.Name) (h : host.Name).
Implicit Types (a b c n cur : host.Name) (seen : gset host.Name).

Lemma alias_step_det a b b' : alias_step m h a b -> alias_step m h a b' -> b = b'.
Proof. intros [? _] [? _]. congruence. Qed.

(** On a cycle every name reached leads back. *)
Lemma cycle_returns cur n c :
  alias_step m h cur n -> rtc (alias_step m h) n cur ->
  rtc (alias_step m h) cur c -> rtc (alias_step m h) c cur.
Proof.
  intros Hs Hr. apply (rtc_ind_r (fun c => rtc (alias_step m h) c cur)); [done|].
  intros b c' _ Hc' IH.
  apply rtc_inv in IH as [<-|(x & Hx & Hxc)].
  - by rewrite (alias_step_det _ _ _ Hc' Hs).
  - by rewrite (alias_step_det _ _ _ Hc' Hx).
Qed.

Lemma resolves_step cur n : m !! cur = Some n -> n <> h ->
  forall c, resolves m h cur c <-> resolves m h n c.
Proof.
  intros Hn Hh c. split; intros [Hr Hc]; split; try done.
  - apply rtc_inv in Hr as [->|(x & Hx & Hxc)]; [congruence|].
    by rewrite (alias_step_det cur n x).
  - by apply rtc_l with n.
Qed.

Lemma not_resolves_seen cur n c :
  m !! cur = Some n -> (n = h \/ rtc (alias_step m h) n cur) -> ~ resolves m h cur c.
Proof.
  intros Hn Hcase [Hr Hc]. destruct (decide (n = h)) as [->|Hh].
  - apply rtc_inv in Hr as [->|(x & [Hx ?] & _)]; congruence.
  - destruct Hcase as [|Hcase]; [done|].
    pose proof (cycle_returns cur n c (conj Hn Hh) Hcase Hr) as Hback.
    apply rtc_inv in Hback as [->|(x & [Hx _] & _)]; congruence.
Qed.

(** The loop gives the concrete host of the chain, and [Some None] exactly when
    there is none. *)
Lemma follow_alias_correct fuel seen cur :
  h ∈ seen -> cur ∈ seen ->
  (forall x, x ∈ seen -> x <> h -> rtc (alias_step m h) x cur) ->
  (size (list_to_set (map_to_list m).*2 ∖ seen) < fuel)%nat ->
  exists r, follow_alias fuel m seen cur = Some r /\ forall c, r = Some c <-> resolves m h cur c.
Proof.
  revert seen cur; induction fuel as [|fuel IH]; intros seen cur Hh Hcur Hpath Hf; [lia|].
  simpl. destruct (m !! cur) as [n|] eqn:Hn.
  - case_bool_decide as Hseen.
    + exists None. split; [done|]. intros c. split; [done|]. intros Hr. exfalso.
      apply (not_resolves_seen cur n c Hn); [|done].
      destruct (decide (n = h)); auto.
    + destruct (IH ({[n]} ∪ seen) n) as (r & Hr & Hc).
      * set_solver.
      * set_solver.
      * intros x [->%elem_of_singleton|Hx]%elem_of_union Hxh; [done|].
        apply rtc_r with cur; [auto|]. split; [done|]. set_solver.
      * assert (n ∈ (list_to_set (map_to_list m).*2 : gset host.Name)) as Hval.
        { apply elem_of_list_to_set, list_elem_of_fmap. exists (cur, n).
          by rewrite elem_of_map_to_list. }
        assert (list_to_set (map_to_list m).*2 ∖ ({[n]} ∪ seen)
                ⊂ (list_to_set (map_to_list m).*2 ∖ seen : gset host.Name)) as Hsub by set_solver.
        apply subset_size in Hsub. lia.
      * exists r. split; [done|]. intros c. rewrite Hc. symmetry. apply resolves_step; set_solver.
  - exists (Some cur). split; [done|]. intros c. split.
    + intros [= <-]. by split.
    + intros [Hr _]. apply rtc_inv in Hr as [->|(x & [Hx _] & _)]; congruence.
Qed.

(** The fuel is enough. *)
Lemma alias_fuel_enough seen :
  (size ((list_to_set (map_to_list m).*2 : gset host.Name) ∖ seen) < alias_fuel m)%nat.
Proof.
  unfold alias_fuel.
  assert (list_to_set (map_to_list m).*2 ∖ seen ⊆ (list_to_set (map_to_list m).*2 : gset host.Name))
    as Hs by set_solver.
  apply subseteq_size in Hs.
  assert (size (list_to_set (map_to_list m).*2 : gset host.Name) <= length (map_to_list m).*2)%nat as Hl
    by apply size_list_to_set_le.
  rewrite length_fmap, length_map_to_list in Hl. lia.
Qed.

End chain.

Section alias_maps.
Context `{RangeOrder}.
Implicit Types (raw resolved : gmap NamespacedHostname host.Name) (alias : NamespacedHostname).

(** An alias of some namespace is known without its namespace too, by the host
    one of the namespaces gives it. *)
Lemma unnamespaced_aliases_spec raw hn :
  (forall v, unnamespaced_aliases raw !! hn = Some v ->
     exists alias, nh_Hostname alias = hn /\ raw !! alias = Some v) /\
  (unnamespaced_aliases raw !! hn = None ->
     forall alias, nh_Hostname alias = hn -> raw !! alias = None).
Proof.
  unfold unnamespaced_aliases.
  assert (Hgen : forall l (m : gmap host.Name host.Name), exists m',
    fold_left (fun m '(k, v) => <[nh_Hostname k := v]> m) l m = m' /\
    (forall v, m' !! hn = Some v -> m !! hn = Some v \/
       exists alias, nh_Hostname alias = hn /\ (alias, v) ∈ l) /\
    (m' !! hn = None -> m !! hn = None /\ forall alias v, (alias, v) ∈ l -> nh_Hostname alias <> hn)).
  { induction l as [|[k v] l IH]; intros m; simpl; [set_solver|].
    destruct (IH (<[nh_Hostname k := v]> m)) as (m' & -> & H1 & H2). exists m'. split; [done|].
    rewrite lookup_insert in H1, H2. split.
    - intros w [Hw|?]%H1; [|set_solver]. case_decide; [|by left].
      simplify_eq. right. exists k. set_solver.
    - intros [Hn Hl]%H2. case_decide; [done|]. set_solver. }
  destruct (Hgen (range raw) ∅) as (m' & -> & H1 & H2). split.
  - intros v [Hv|(alias & Ha & Hin)]%H1; [by rewrite lookup_empty in Hv|].
    exists alias. by rewrite <- elem_of_range.
  - intros [_ Hl]%H2 alias Ha. destruct (raw !! alias) as [v|] eqn:E; [|done].
    apply elem_of_range in E. by destruct (Hl alias v).
Qed.

Lemma resolved_aliases_lookup raw alias :
  resolved_aliases raw !! alias
  = raw !! alias ≫= resolve_alias (unnamespaced_aliases raw) alias.
Proof. apply (range_insert_omap (resolve_alias (unnamespaced_aliases raw))). Qed.

Lemma resolve_alias_spec m alias ref c :
  resolve_alias m alias ref = Some c <-> resolves m (nh_Hostname alias) ref c.
Proof.
  unfold resolve_alias. destruct (m !! ref) as [n|] eqn:Hn.
  - destruct (follow_alias_correct m (nh_Hostname alias) (alias_fuel m)
      {[nh_Hostname alias; ref]} ref) as (r & -> & Hr); [set_solver|set_solver| |apply alias_fuel_enough|].
    + intros x Hx Hne. assert (x = ref) as -> by set_solver. done.
    + simpl. apply Hr.
  - split; [intros [= <-]; by split|]. intros [Hr _].
    apply rtc_inv in Hr as [->|(x & [Hx _] & _)]; congruence.
Qed.

Lemma aliases_by_service_lookup resolved c alias :
  alias ∈ default [] (aliases_by_service resolved !! c) <-> resolved !! alias = Some c.
Proof.
  unfold aliases_by_service. rewrite group_by_default, lookup_empty. simpl.
  rewrite list_elem_of_fmap. setoid_rewrite list_elem_of_In. setoid_rewrite filter_In.
  setoid_rewrite bool_decide_eq_true. setoid_rewrite <- list_elem_of_In. split.
  - intros ([a c'] & -> & Hin & <-). by apply elem_of_range.
  - intros Hc. exists (alias, c). by rewrite elem_of_range.
Qed.

End alias_maps.

#[global] Instance alias_compare_laws : CmpLaws alias_compare.
Proof. apply _. Qed.

Lemma alias_compare_eq a b : alias_compare a b = Eq -> a = b.
Proof.
  unfold alias_compare, cmp_lex, cmp_then, cmp_on.
  destruct (String.compare (nh_Namespace a) (nh_Namespace b)) eqn:E1; [|done..].
  intros E2. apply string_compare_eq in E1, E2. destruct a, b; simpl in *; congruence.
Qed.

Lemma propagate_alias_updates_id `{RangeOrder} services resolved cu :
  propagate_alias_updates services resolved cu = cu.
Proof.
  unfold propagate_alias_updates. generalize (range resolved) as l; intros l.
  assert (Hin : forall concrete svcs, GoSet.Contains cu ConfigKey.zero = true ->
    fold_left (fun cu svc => if String.eqb (Service.Hostname svc) concrete
      then (fun e => {[ConfigKey.zero]} ∪ e) <$> cu else cu) svcs cu = cu).
  { intros concrete svcs Hz. apply GoSet.Contains_spec in Hz.
    induction svcs as [|s svcs IH]; simpl; [done|]. destruct (String.eqb _ _); [|done].
    destruct cu as [e|]; [|done]. simpl in *.
    replace ({[ConfigKey.zero]} ∪ e) with e by set_solver. done. }
  induction l as [|[a c] l IH]; simpl; [done|].
  destruct (GoSet.Contains cu ConfigKey.zero) eqn:Hz; [|done]. by rewrite Hin.
Qed.

(** ** Lemmas: the index *)

Definition ports_ok (s : Service) : Prop := Forall is_Some (Service.Ports s).

Lemma port_maps_ok ports m n : Forall is_Some ports -> exists r, port_maps ports m n = Ok r.
Proof.
  intros Hp; revert m n; induction Hp as [|p ports [q ->] Hp IH]; intros m n; simpl; eauto.
Qed.

(** What a namespace is to see of a service. *)
Definition visible (defaults : gset string) (s : Service) (ns : string) : Prop :=
  let own := namespace_of s in
  let e := exportTo_of s in
  if decide (e = ∅) then
    (visibility.Private ∈ defaults /\ ns = own) \/
    (visibility.Private ∉ defaults /\ visibility.Public ∈ defaults)
  else
    visibility.Public ∈ e \/
    (visibility.None ∉ e /\
     ((ns = own /\ visibility.Private ∈ e) \/ (ns ∈ e /\ ns <> visibility.Private))).

Definition sees (si : serviceIndex) (ns : string) (t : Service) : Prop :=
  t ∈ default [] (privateByNamespace si !! ns) \/ t ∈ default [] (exportedToNamespace si !! ns)
  \/ t ∈ public si.

Lemma append_service_elem m k s ns t :
  t ∈ default [] (append_service m k s !! ns) <-> t ∈ default [] (m !! ns) \/ (ns = k /\ t = s).
Proof.
  unfold append_service. rewrite lookup_insert. case_decide; simpl; [|naive_solver].
  subst. rewrite elem_of_app, list_elem_of_singleton. naive_solver.
Qed.

Lemma export_loop s es si ns t :
  sees (fold_left (fun si e =>
    if String.eqb e visibility.Private || String.eqb e (namespace_of s)
    then set_private si (append_service (privateByNamespace si) (namespace_of s) s)
    else set_exported si (append_service (exportedToNamespace si) e s)) es si) ns t <->
  sees si ns t \/ (t = s /\ ((ns = namespace_of s /\ visibility.Private ∈ es)
                           \/ (ns ∈ es /\ ns <> visibility.Private))).
Proof.
  revert si; induction es as [|e es IH]; intros si; simpl; [set_solver|].
  rewrite IH. clear IH. rewrite !elem_of_cons.
  destruct (String.eqb_spec e visibility.Private) as [->|H1];
    [|destruct (String.eqb_spec e (namespace_of s)) as [->|H2]]; unfold sees; simpl;
    rewrite append_service_elem; naive_solver.
Qed.

Lemma index_visibility_sees defaults si s ns t :
  sees (index_visibility defaults si s) ns t <-> sees si ns t \/ (t = s /\ visible defaults s ns).
Proof.
  assert (Hpub : forall si, sees (set_public si (public si ++ [s])) ns t <-> sees si ns t \/ t = s).
  { intros si'. unfold sees; simpl. rewrite elem_of_app, list_elem_of_singleton. tauto. }
  unfold index_visibility, visible.
  destruct (decide (exportTo_of s = ∅)) as [He|He].
  - rewrite He, size_empty. simpl. repeat case_bool_decide.
    + unfold sees; simpl. rewrite append_service_elem. naive_solver.
    + rewrite Hpub. naive_solver.
    + naive_solver.
  - destruct (Nat.eqb_spec (size (exportTo_of s)) 0) as [Hs|_].
    { by apply size_empty_iff_L in Hs. }
    repeat case_bool_decide.
    + rewrite Hpub. naive_solver.
    + naive_solver.
    + rewrite export_loop. setoid_rewrite elem_of_elements. naive_solver.
Qed.

Section index_lemmas.
Context {C : Type} (eix : EndpointIndex C).

Lemma index_instances_ok si s :
  ports_ok s -> exists m, index_instances eix si s = Ok (mkServiceIndex (privateByNamespace si) (public si)
    (exportedToNamespace si) (HostnameAndNamespace si) m).
Proof.
  intros Hp. unfold index_instances, service_ports.
  destruct (port_maps_ok (Service.Ports s) ∅ ∅ Hp) as [r ->]. simpl. by eexists.
Qed.

Lemma index_services_ok defaults si l :
  Forall ports_ok l -> exists si', index_services eix defaults si l = Ok si'.
Proof.
  intros Hl; revert si; induction Hl as [|s l Hs Hl IH]; intros si; simpl; [eauto|].
  destruct (index_instances_ok si s Hs) as [m ->]. simpl. apply IH.
Qed.

Lemma index_services_sees defaults si l si' ns t :
  index_services eix defaults si l = Ok si' ->
  sees si' ns t <-> sees si ns t \/ (t ∈ l /\ visible defaults t ns).
Proof.
  revert si; induction l as [|s l IH]; intros si; simpl; [intros [= ->]; set_solver|].
  unfold index_instances. destruct (service_ports s); simpl; [|done..].
  intros ->%IH. rewrite index_visibility_sees. unfold sees at 1. simpl.
  rewrite elem_of_cons. unfold sees. naive_solver.
Qed.

End index_lemmas.

Definition from_kubernetes (s : Service) : bool :=
  String.eqb (Attributes.ServiceRegistry (Service.Attributes s)) Kubernetes.
Definition named (hn : host.Name) (ns : string) (s : Service) : bool :=
  String.eqb (Service.Hostname s) hn && String.eqb (namespace_of s) ns.

(** Of the services of a name and namespace: the first of Kubernetes, or else
    the first. *)
Definition preferred (hn : host.Name) (ns : string) (l : list Service) : option Service :=
  match List.find (fun s => named hn ns s && from_kubernetes s) l with
  | Some s => Some s
  | None => List.find (named hn ns) l
  end.

Definition indexed (si : serviceIndex) (hn : host.Name) (ns : string) : option Service :=
  HostnameAndNamespace si !! hn ≫= (fun byNs => byNs !! ns).

Lemma index_visibility_hostnames defaults si s :
  HostnameAndNamespace (index_visibility defaults si s) = HostnameAndNamespace si.
Proof.
  unfold index_visibility. repeat case_match; try done.
  generalize (elements (exportTo_of s)) as es. intros es. revert si.
  induction es as [|e es IH]; intros si; simpl; [done|]. rewrite IH. by case_match.
Qed.

Lemma indexed_visibility defaults si s hn ns :
  indexed (index_visibility defaults si s) hn ns = indexed si hn ns.
Proof. unfold indexed. by rewrite index_visibility_hostnames. Qed.

(** How a service changes the entry of a name. *)
Definition prefer (cur : option Service) (s : Service) : option Service :=
  match cur with
  | Some existing => if from_kubernetes existing || negb (from_kubernetes s) then cur else Some s
  | None => Some s
  end.

Lemma index_hostname_lookup si s hn ns :
  indexed (index_hostname si s) hn ns
  = if named hn ns s then prefer (indexed si hn ns) s else indexed si hn ns.
Proof.
  unfold indexed, index_hostname, named. simpl. rewrite lookup_insert.
  destruct (String.eqb_spec (Service.Hostname s) hn) as [<-|Hh]; simpl;
    [|by rewrite decide_False].
  rewrite decide_True by done. simpl.
  set (byNs := HostnameAndNamespace si !! Service.Hostname s).
  assert (Hd : forall k, default ∅ byNs !! k = byNs ≫= (fun m => m !! k)).
  { intros k. destruct byNs; simpl; [done|]. apply lookup_empty. }
  rewrite Hd. destruct (String.eqb_spec (namespace_of s) ns) as [<-|Hn].
  - unfold prefer, from_kubernetes. destruct (byNs ≫= _) as [ex|] eqn:E.
    + case_match; [by rewrite Hd|]. by rewrite lookup_insert_eq.
    + by rewrite lookup_insert_eq.
  - case_match; [apply Hd|]. rewrite lookup_insert_ne by done. apply Hd.
Qed.

Lemma index_services_indexed {C} (eix : EndpointIndex C) defaults si l si' hn ns :
  index_services eix defaults si l = Ok si' ->
  indexed si' hn ns = fold_left prefer (List.filter (named hn ns) l) (indexed si hn ns).
Proof.
  revert si; induction l as [|s l IH]; intros si; simpl; [by intros [= ->]|].
  unfold index_instances. destruct (service_ports s); simpl; [|done..].
  intros ->%IH. rewrite indexed_visibility, index_hostname_lookup. by destruct (named hn ns s).
Qed.

Lemma fold_prefer l cur :
  fold_left prefer l cur
  = match cur with
    | Some e => if from_kubernetes e then Some e
                else match List.find from_kubernetes l with Some s => Some s | None => Some e end
    | None => match List.find from_kubernetes l with Some s => Some s | None => head l end
    end.
Proof.
  revert cur; induction l as [|s l IH]; intros cur; simpl; [by destruct cur as [e|]; [case_match|]|].
  rewrite IH. unfold prefer. destruct cur as [e|]; simpl.
  - destruct (from_kubernetes e) eqn:Ee; simpl; [by rewrite Ee|].
    destruct (from_kubernetes s) eqn:Es; simpl; [by rewrite Es|by rewrite Ee].
  - by destruct (from_kubernetes s).
Qed.

Lemma find_filter {A} (p q : A -> bool) l :
  List.find q (List.filter p l) = List.find (fun x => p x && q x) l.
Proof. induction l as [|x l IH]; simpl; [done|]. destruct (p x); simpl; [by rewrite IH|done]. Qed.

Lemma head_filter {A} (p : A -> bool) l : head (List.filter p l) = List.find p l.
Proof. induction l as [|x l IH]; simpl; [done|]. by destruct (p x). Qed.

Lemma fold_prefer_preferred hn ns l :
  fold_left prefer (List.filter (named hn ns) l) None = preferred hn ns l.
Proof. rewrite fold_prefer, find_filter, head_filter. done. Qed.

Lemma NoDup_fmap_filter_fst {A B} (l : list (A * B)) (p : A * B -> bool) :
  NoDup l.*1 -> NoDup (map fst (List.filter p l)).
Proof.
  induction l as [|x l IH]; simpl; [done|]. intros [Hx Hl]%NoDup_cons. destruct (p x); [|auto].
  simpl. apply NoDup_cons. split; [|auto]. intros Hin. apply Hx.
  apply list_elem_of_fmap in Hin as (y & -> & Hy). apply list_elem_of_In, filter_In in Hy as [Hy _].
  apply list_elem_of_fmap. exists y. by rewrite list_elem_of_In.
Qed.

Lemma ServiceForHostname_indexed `{RangeOrder} si hn s :
  ServiceForHostname si hn = Some s -> exists ns, indexed si hn ns = Some s.
Proof.
  unfold ServiceForHostname, indexed. destruct (range _) as [|[ns s'] r] eqn:E; [done|].
  intros [= ->]. exists ns.
  assert ((ns, s) ∈ range (default ∅ (HostnameAndNamespace si !! hn))) as Hin by (rewrite E; set_solver).
  apply elem_of_range in Hin. destruct (HostnameAndNamespace si !! hn); simpl in *; [done|].
  by rewrite lookup_empty in Hin.
Qed.

Lemma ServiceForHostname_None `{RangeOrder} si hn ns s :
  indexed si hn ns = Some s -> ServiceForHostname si hn <> None.
Proof.
  unfold ServiceForHostname, indexed. intros Hi.
  destruct (HostnameAndNamespace si !! hn) as [byNs|]; simpl in *; [|done].
  apply elem_of_range in Hi. destruct (range byNs) as [|[??] ?]; [by apply elem_of_nil in Hi|done].
Qed.

Lemma set_aliases_ports s l : Service.Ports (set_aliases s l) = Service.Ports s.
Proof.
  simpl. rewrite <- (map_id (Service.Ports s)) at 2. apply map_ext. by intros [[]|].
Qed.

Lemma registry_services_ports `{RangeOrder} services cu :
  Forall ports_ok services -> Forall ports_ok (fst (registry_services services cu)).
Proof.
  intros Hp. simpl. rewrite Forall_map, Forall_forall. intros s Hs.
  apply elem_of_sort in Hs. rewrite Forall_forall in Hp. specialize (Hp s Hs).
  unfold ports_ok in *. case_match; [|done]. by rewrite set_aliases_ports.
Qed.

Lemma initServiceRegistry_Ok `{RangeOrder} {C} (eix : EndpointIndex C) defaults td services cu si acc r :
  initServiceRegistry eix defaults td services cu si acc = Ok r ->
  index_services eix defaults si (fst (registry_services services cu)) = Ok (fst (fst r)).
Proof.
  unfold initServiceRegistry. intros Hr. apply res_bind_ok in Hr as (si' & Hsi & Hr). by simplify_eq/=.
Qed.

(** The aliases of a service, as the chains of the alias services give them. *)
Definition alias_of `{RangeOrder} (allServices : list Service) (s : Service) (alias : NamespacedHostname) : Prop :=
  exists ref, raw_aliases allServices !! alias = Some ref /\
    resolves (unnamespaced_aliases (raw_aliases allServices)) (nh_Hostname alias) ref (Service.Hostname s).

Lemma aliases_of_service `{RangeOrder} services s :
  let resolved := resolved_aliases (raw_aliases services) in
  let l := SortStableFunc alias_compare (default [] (aliases_by_service resolved !! Service.Hostname s)) in
  forall alias, alias ∈ l <-> alias_of services s alias.
Proof.
  intros resolved l alias. unfold l. rewrite elem_of_sort, aliases_by_service_lookup.
  unfold resolved. rewrite resolved_aliases_lookup. unfold alias_of.
  destruct (raw_aliases services !! alias) as [ref|]; simpl; [|naive_solver].
  rewrite resolve_alias_spec. naive_solver.
Qed.

(** ** Properties *)

(** Following a chain of aliases always ends, whatever the aliases name,
    cycles included: the loop runs at most once more than there are aliases. *)
Theorem alias_chain_terminates (m : gmap host.Name host.Name) (h ref : host.Name) fuel :
  (alias_fuel m <= fuel)%nat ->
  exists r, follow_alias fuel m {[h; ref]} ref = Some r.
Proof.
  intros Hf. destruct (follow_alias_correct m h fuel {[h; ref]} ref) as (r & Hr & _).
  - set_solver.
  - set_solver.
  - intros x Hx Hne. assert (x = ref) as -> by set_solver. done.
  - pose proof (alias_fuel_enough m {[h; ref]}). lia.
  - eauto.
Qed.

(** For every order of iteration over the maps, a service gets as aliases,
    sorted and without repetition, exactly the alias services whose chain of
    names ends at its host name: a chain that runs into a cycle gives no alias,
    and nothing else of the service changes. *)
Theorem resolve_service_aliases_spec `{RangeOrder} services cu :
  Forall2 (fun s s' => exists l,
      NoDup l /\ StronglySorted (fun a b => cmp_leb alias_compare a b = true) l /\
      (forall alias, alias ∈ l <-> alias_of services s alias) /\
      s' = match l with [] => s | _ => set_aliases s l end)
    services (fst (resolveServiceAliases services cu)).
Proof.
  unfold resolveServiceAliases. simpl. apply Forall2_fmap_r, Forall_Forall2_diag, Forall_true. intros s.
  set (resolved := resolved_aliases (raw_aliases services)).
  set (byHost := aliases_by_service resolved).
  exists (SortStableFunc alias_compare (default [] (byHost !! Service.Hostname s))).
  assert (Hl : forall l, byHost !! Service.Hostname s = Some l -> l <> []).
  { unfold byHost, aliases_by_service. intros l. rewrite group_by_lookup, lookup_empty.
    destruct (map fst _) eqn:E; [done|]. by intros [= <-]. }
  split; [|split; [apply Sort_sorted; apply _|split; [apply (aliases_of_service services s)|]]].
  - rewrite Sort_perm. unfold byHost, aliases_by_service. rewrite group_by_default, lookup_empty. simpl.
    apply NoDup_fmap_filter_fst, NoDup_range_fst.
  - rewrite lookup_fmap. destruct (byHost !! Service.Hostname s) as [l|] eqn:E; simpl; [|done].
    pose proof (Sort_length alias_compare l) as Hlen.
    destruct (SortStableFunc alias_compare l); [|done]. destruct l; [by destruct (Hl [] eq_refl)|done].
Qed.

(** A namespace is shown exactly the services that are visible to it: the
    private and public defaults apply to services that say nothing, a public
    service is shown everywhere, one exported to nobody nowhere, and one with a
    list of namespaces to these and, where it says so, to its own. *)
Theorem service_visibility `{RangeOrder} {C} (eix : EndpointIndex C) defaults td services cu r ns t :
  initServiceRegistry eix defaults td services cu newServiceIndex ∅ = Ok r -> ns <> NamespaceAll ->
  t ∈ servicesExportedToNamespace (fst (fst r)) ns <->
  t ∈ fst (registry_services services cu) /\ visible defaults t ns.
Proof.
  intros Hr Hns. apply initServiceRegistry_Ok in Hr.
  pose proof (index_services_sees eix defaults newServiceIndex _ _ ns t Hr) as Hs.
  unfold servicesExportedToNamespace. destruct (String.eqb_spec ns NamespaceAll); [done|].
  rewrite !elem_of_app. unfold sees in Hs. simpl in Hs. rewrite !lookup_empty in Hs. simpl in Hs.
  rewrite !elem_of_nil in Hs. split; naive_solver.
Qed.

(** The entry of a host name and namespace is the oldest service of
    Kubernetes that has them, or, when Kubernetes has none, the oldest of any
    registry; a lookup by host name alone finds a service exactly when one has
    the name, and what it finds is the entry of one of its namespaces. *)
Theorem registry_precedence `{RangeOrder} {C} (eix : EndpointIndex C) defaults td services cu r hn :
  initServiceRegistry eix defaults td services cu newServiceIndex ∅ = Ok r ->
  let all := fst (registry_services services cu) in
  (forall ns, indexed (fst (fst r)) hn ns = preferred hn ns all) /\
  (forall s, ServiceForHostname (fst (fst r)) hn = Some s ->
     exists ns, preferred hn ns all = Some s) /\
  (ServiceForHostname (fst (fst r)) hn = None <->
     forall s, s ∈ all -> Service.Hostname s <> hn).
Proof.
  intros Hr all. apply initServiceRegistry_Ok in Hr.
  assert (Hi : forall ns, indexed (fst (fst r)) hn ns = preferred hn ns all).
  { intros ns. rewrite (index_services_indexed _ _ _ _ _ hn ns Hr).
    change (indexed newServiceIndex hn ns) with (@None Service). apply fold_prefer_preferred. }
  split; [done|]. split.
  { intros s [ns Hs]%ServiceForHostname_indexed. exists ns. by rewrite <- Hi. }
  split.
  - intros Hn s Hs Hh. destruct (indexed (fst (fst r)) hn (namespace_of s)) as [s'|] eqn:E.
    + by apply (ServiceForHostname_None _ _ _ _ E).
    + rewrite Hi in E. unfold preferred in E. case_match; [done|].
      apply list_elem_of_In in Hs. apply (List.find_none _ _ E) in Hs.
      unfold named in Hs. by rewrite Hh, !String.eqb_refl in Hs.
  - intros Hno. destruct (ServiceForHostname (fst (fst r)) hn) as [s|] eqn:E; [|done].
    apply ServiceForHostname_indexed in E as [ns E]. rewrite Hi in E.
    assert (Hin : s ∈ all /\ named hn ns s = true).
    { unfold preferred in E. case_match; simplify_eq; rewrite list_elem_of_In.
      - match goal with H : List.find _ _ = _ |- _ => apply find_some in H as [? ?] end. breflect. auto.
      - by apply find_some in E. }
    destruct Hin as [Hin Hnm]. unfold named in Hnm. breflect.
    exfalso. apply (Hno s Hin). by apply String.eqb_eq.
Qed.

(** A change of an alias is meant to mark the service it stands for as changed,
    but the keys are built empty: the set of updates never changes. *)
Theorem alias_updates_not_propagated `{RangeOrder} services cu :
  snd (resolveServiceAliases services cu) = cu.
Proof. apply propagate_alias_updates_id. Qed.

(** *** Witnesses *)

Definition sample_k8s (ext : string) : K8sAttributes := mkK8s "" ext false "" false.
Definition sample_service (name ns registry : string) (t : Time) (exportTo : nset string)
    (res : Resolution) (ext : string) : Service :=
  Service.mk (Attributes.mk None None exportTo [] None name ns registry (sample_k8s ext))
    (name +:+ "." +:+ ns) [Some (Port.mk "dubbo" 20880 protocol.GRPC)] ["spiffe://td/ns/" +:+ ns +:+ "/sa/x"]
    [] t "" "" res "" "" false.

Definition sample_services : list Service :=
  [ sample_service "demo" "a" "External" 1 (Some {["b"]}) ClientSideLB "";
    sample_service "demo" "a" Kubernetes 2 None ClientSideLB "";
    sample_service "alias1" "a" Kubernetes 3 None Alias "alias2.a";
    sample_service "alias2" "a" Kubernetes 4 None Alias "demo.a";
    sample_service "loop" "a" Kubernetes 5 None Alias "loop.a" ].

Definition sample_registry :=
  @initServiceRegistry key_order unit sample_index {[visibility.Public]} ["alt"] sample_services None
    newServiceIndex ∅.

(** The second service has the two aliases that lead to it; the cycle is
    nobody's alias. *)
Example sample_aliases :
  map (fun s => (Service.Hostname s, map nh_Hostname (Attributes.Aliases (Service.Attributes s))))
    (fst (@registry_services key_order sample_services None))
  = [("demo.a", ["alias1.a"; "alias2.a"]); ("demo.a", ["alias1.a"; "alias2.a"]);
     ("alias1.a", []); ("alias2.a", []); ("loop.a", [])].
Proof. vm_compute. reflexivity. Qed.

Lemma alias_chain_terminates_witness :
  exists r, follow_alias 3 (<["a" := "b"]> (<["b" := "a"]> ∅)) {["a"; "b"]} "b" = Some r.
Proof.
  apply (alias_chain_terminates (<["a" := "b"]> (<["b" := "a"]> ∅)) "a" "b" 3).
  vm_compute. lia.
Defined.

Definition sample_registry_value : serviceIndex * gmap (host.Name * string) (list string) * nset ConfigKey :=
  from_ok (newServiceIndex, ∅, None) sample_registry.

Lemma service_visibility_witness :
  let all := fst (@registry_services key_order sample_services None) in
  let t := sample_service "demo" "a" "External" 1 (Some {["b"]}) ClientSideLB "" in
  t ∈ @servicesExportedToNamespace key_order (fst (fst sample_registry_value)) "b" <->
  t ∈ all /\ visible {[visibility.Public]} t "b".
Proof.
  intros all t.
  apply (@service_visibility key_order unit sample_index {[visibility.Public]} ["alt"]
           sample_services None sample_registry_value "b" t); [|done].
  apply is_ok_from_ok. vm_compute. reflexivity.
Defined.

Lemma registry_precedence_witness :
  indexed (fst (fst sample_registry_value)) "demo.a" "a"
  = preferred "demo.a" "a" (fst (@registry_services key_order sample_services None)).
Proof.
  apply (@registry_precedence key_order unit sample_index {[visibility.Public]} ["alt"]
           sample_services None sample_registry_value "demo.a").
  apply is_ok_from_ok. vm_compute. reflexivity.
Defined.
