(* ===== verification/EndpointBuilder.v ===== *)
(** * Building cluster load assignments

    [dubbod/discovery/pkg/xds/endpoints/endpoint_builder.go] and
    [BuildAddress] of [dubbod/discovery/pkg/networking/util/util.go]: how the
    endpoints of a service become the EDS resource of one of its clusters.
    The xDS messages are records with the fields the builder sets; [uint32]
    weights wrap around. *)

From S2P Require Import Prelude GoStrings GoSets GoSort ConfigKeys Hosts Service XdsCache EndpointShards.

(** ** Messages *)

Inductive Address : Type :=
  | SocketAddress (address : string) (portValue : Z)
  | Pipe (path : string).

Inductive core_HealthStatus : Type := HEALTHY | UNHEALTHY | DRAINING.

(** The [network] and [locality] fields of the filter metadata. *)
Record Metadata : Type := mkMetadata { md_network : string; md_locality : string }.

Record LbEndpoint : Type := mkLbEndpoint {
  lb_Address : Address;
  lb_HealthStatus : core_HealthStatus;
  lb_Metadata : option Metadata;
  lb_Weight : Z
}.

Record Locality : Type := mkLocality { Region : string; Zone : string; SubZone : string }.

Record LocalityLbEndpoints : Type := mkLocalityLb {
  llb_Locality : Locality;
  llb_LbEndpoints : list LbEndpoint;
  llb_Weight : Z
}.

Record ClusterLoadAssignment : Type := mkCLA {
  ClusterName : string;
  Endpoints : list LocalityLbEndpoints
}.

Definition wrap_u32 (z : Z) : Z := z mod two32.

(** ** Addresses *)

Definition UnixAddressPrefix : string := "unix://".

(** [strings.TrimPrefix] *)
Definition TrimPrefix (s pre : string) : string :=
  if HasPrefix s pre then str_drop (String.length pre) s else s.

Definition BuildNetworkAddress (bind : string) (port : Z) : option Address :=
  if port =? 0 then None else Some (SocketAddress bind port).

(** [BuildAddress] never returns nil. *)
Definition BuildAddress (bind : string) (port : Z) : Address :=
  match BuildNetworkAddress bind port with
  | Some a => a
  | None => Pipe (TrimPrefix bind UnixAddressPrefix)
  end.

(** ** The builder *)

Record EndpointBuilder : Type := mkBuilder {
  clusterName : string;
  b_hostname : host.Name;
  b_port : Z;
  b_service : option Service
}.

(** The services of the push context are a parameter of its client. *)
Definition NewEndpointBuilder (ServiceForHostname : host.Name -> option Service) (name : string)
  : option EndpointBuilder :=
  let '(_, _, hostname, port) := ParseSubsetKey name in
  if String.eqb hostname "" || (port =? 0) then None
  else Some (mkBuilder name hostname port (ServiceForHostname hostname)).

Definition ServiceFound (b : EndpointBuilder) : bool :=
  match b_service b with Some _ => true | None => false end.

(** [strings.SplitN(value, "/", 3)] and the fields taken from its parts. *)
Definition parseLocality (value : string) : Locality :=
  match cut_at value "/" with
  | None => mkLocality value "" ""
  | Some (region, rest) =>
      match cut_at rest "/" with
      | None => mkLocality region rest ""
      | Some (zone, subzone) => mkLocality region zone subzone
      end
  end.

Definition servicePort (b : EndpointBuilder) (port : Z) : res (option Port) :=
  match b_service b with
  | None => Ok None
  | Some svc =>
      r ← GetByPort (Service.Ports svc) port;
      let '(svcPort, ok) := r in
      Ok (if ok : bool then svcPort else None)
  end.

Definition buildEndpointMetadata (ep : DubboEndpoint) : option Metadata :=
  if String.eqb (Endpoint.Network ep) "" && String.eqb (Endpoint.Locality ep) "" then None
  else Some (mkMetadata (Endpoint.Network ep) (Endpoint.Locality ep)).

Definition buildLbEndpoint (ep : DubboEndpoint) : option LbEndpoint :=
  match Endpoint.Addresses ep with
  | [] => None
  | endpointAddress :: _ =>
      let address := BuildAddress endpointAddress (Endpoint.EndpointPort ep) in
      let h := Endpoint.HealthStatus ep in
      let healthStatus :=
        if h =? UnHealthy then UNHEALTHY
        else if h =? Draining then DRAINING
        else if h =? Terminating then UNHEALTHY
        else HEALTHY in
      let weight := if Endpoint.LbWeight ep =? 0 then 1 else Endpoint.LbWeight ep in
      Some (mkLbEndpoint address healthStatus (buildEndpointMetadata ep) weight)
  end.

Definition buildEmptyClusterLoadAssignment (name : string) : ClusterLoadAssignment := mkCLA name [].

Definition buildDNSClusterLoadAssignment (name address : string) (port : Z) : ClusterLoadAssignment :=
  mkCLA name [mkLocalityLb (mkLocality "" "" "")
    [mkLbEndpoint (BuildAddress address port) HEALTHY None 1] 1].

(** A group of the [localities] map. *)
Record localityEndpoints : Type := mkGroup {
  g_locality : Locality;
  g_endpoints : list LbEndpoint;
  g_weight : Z
}.

Definition add_to_group (localities : gmap string localityEndpoints) (ep : DubboEndpoint)
    (lbEp : LbEndpoint) : gmap string localityEndpoints :=
  let key := Endpoint.Locality ep in
  let group := default (mkGroup (parseLocality key) [] 0) (localities !! key) in
  <[key := mkGroup (g_locality group) (g_endpoints group ++ [lbEp])
             (wrap_u32 (g_weight group + lb_Weight lbEp))]> localities.

(** The port filter: the names are equal, or the endpoint has no port name and
    the service a single port. *)
Definition port_matches (svc : Service) (svcPort : Port) (ep : DubboEndpoint) : bool :=
  if negb (String.eqb (Endpoint.ServicePortName ep) (Port.Name svcPort)) then
    String.eqb (Endpoint.ServicePortName ep) "" && (length (Service.Ports svc) =? 1)%nat
  else true.

(** The body of the loop over the endpoints; the state is the list of all
    endpoints built and the groups. *)
Definition build_step (svc : Service) (svcPort : Port)
    (st : list LbEndpoint * gmap string localityEndpoints) (ep : DubboEndpoint) :=
  let '(lbEndpoints, localities) := st in
  if negb (port_matches svc svcPort ep) then st
  else match buildLbEndpoint ep with
       | None => st
       | Some lbEp => (lbEndpoints ++ [lbEp], add_to_group localities ep lbEp)
       end.

Definition build_loop (svc : Service) (svcPort : Port) (shards : list (list DubboEndpoint)) :=
  fold_left (fun st eps => fold_left (build_step svc svcPort) eps st) shards ([], ∅).

(** The groups, by the sorted names of their localities. *)
Definition group_message (localities : gmap string localityEndpoints) (name : string)
  : LocalityLbEndpoints :=
  let group := default (mkGroup (mkLocality "" "" "") [] 0) (localities !! name) in
  mkLocalityLb (g_locality group) (g_endpoints group) (g_weight group).

(** The two loops over [service.Ports] before the endpoints are read
    dereference every port. *)
Definition ports_deref (ports : PortList) : res unit :=
  if forallb (fun p : option Port => match p with Some _ => true | None => false end) ports
  then Ok tt else Panic "nil pointer dereference".

Definition BuildClusterLoadAssignment {C} (b : EndpointBuilder) (endpointIndex : EndpointIndex C)
  : res ClusterLoadAssignment :=
  match b_service b with
  | None => Ok (buildEmptyClusterLoadAssignment (clusterName b))
  | Some svc =>
      p ← servicePort b (b_port b);
      match p : option Port with
      | None => Ok (buildEmptyClusterLoadAssignment (clusterName b))
      | Some svcPort =>
          let attrs := Service.Attributes svc in
          let externalName := ExternalName (Attributes.K8s attrs) in
          if negb (String.eqb externalName "") then
            Ok (buildDNSClusterLoadAssignment (clusterName b) externalName
                  (wrap_u32 (Port.Number svcPort)))
          else
            match ShardsForService endpointIndex (b_hostname b) (Attributes.Namespace attrs) with
            | (Some shards, true) =>
                _ ← ports_deref (Service.Ports svc);
                let '(lbEndpoints, localities) :=
                  build_loop svc svcPort (map snd (map_to_list (Shards shards))) in
                if (length lbEndpoints =? 0)%nat then
                  Ok (buildEmptyClusterLoadAssignment (clusterName b))
                else
                  let localityNames := sort_strings (map_to_list localities).*1 in
                  Ok (mkCLA (clusterName b) (map (group_message localities) localityNames))
            | _ => Ok (buildEmptyClusterLoadAssignment (clusterName b))
            end
      end
  end.

(** *** The builder as a cache entry

    The cache key is a digest of the cluster name, and [DependentConfigs] the
    digest of a configuration key none of whose fields are set. *)
Definition builder_entry (sum64 : string -> Z) (HashCode : ConfigKey -> ConfigHash)
    (b : EndpointBuilder) : XdsCacheEntry :=
  {| Type_of := "eds";
     Key_of := KUint64 (sum64 (clusterName b));
     DependentConfigs := match b_service b with
       | None => []
       | Some _ => [HashCode ConfigKey.zero] end;
     Cacheable := ServiceFound b |}.

(** ** Lemmas *)

(** The endpoints that make it into the assignment, with their localities. *)
Definition selected (svc : Service) (svcPort : Port) (ep : DubboEndpoint) : option (string * LbEndpoint) :=
  if port_matches svc svcPort ep then pair (Endpoint.Locality ep) <$> buildLbEndpoint ep else None.

(** The endpoints of a locality among those selected, and their weight. *)
Definition in_locality (sel : list (string * LbEndpoint)) (key : string) : list LbEndpoint :=
  map snd (List.filter (fun kl => String.eqb (fst kl) key) sel).

Definition total_weight (eps : list LbEndpoint) : Z := foldr (fun e acc => lb_Weight e + acc) 0 eps.

Definition groups_of (sel : list (string * LbEndpoint)) (localities : gmap string localityEndpoints) : Prop :=
  forall key, localities !! key =
    match in_locality sel key with
    | [] => None
    | eps => Some (mkGroup (parseLocality key) eps (wrap_u32 (total_weight eps)))
    end.

Lemma total_weight_snoc eps e : total_weight (eps ++ [e]) = total_weight eps + lb_Weight e.
Proof. unfold total_weight. induction eps as [|x eps IH]; simpl; lia. Qed.

Lemma in_locality_snoc sel k e key :
  in_locality (sel ++ [(k, e)]) key =
  in_locality sel key ++ (if String.eqb k key then [e] else []).
Proof.
  unfold in_locality. rewrite List.filter_app, map_app. simpl. by destruct (String.eqb k key).
Qed.

Lemma wrap_u32_add_l a b : wrap_u32 (wrap_u32 a + b) = wrap_u32 (a + b).
Proof. unfold wrap_u32. by rewrite Z.add_mod_idemp_l. Qed.

Lemma groups_of_add sel localities ep lbEp :
  groups_of sel localities ->
  groups_of (sel ++ [(Endpoint.Locality ep, lbEp)]) (add_to_group localities ep lbEp).
Proof.
  intros Hg key. unfold add_to_group. rewrite in_locality_snoc, lookup_insert.
  destruct (String.eqb_spec (Endpoint.Locality ep) key) as [->|Hne].
  - rewrite decide_True by done. rewrite (Hg key).
    destruct (in_locality sel key) as [|e0 rest] eqn:E; [simpl; by rewrite Z.add_0_r|].
    cbn [default id from_option g_locality g_endpoints g_weight].
    by rewrite wrap_u32_add_l, <- total_weight_snoc.
  - rewrite decide_False by done. rewrite app_nil_r. apply Hg.
Qed.

Lemma build_step_selected svc svcPort sel lbs localities ep :
  lbs = map snd sel -> groups_of sel localities ->
  exists sel', sel' = sel ++ omap (selected svc svcPort) [ep] /\
    fst (build_step svc svcPort (lbs, localities) ep) = map snd sel' /\
    groups_of sel' (snd (build_step svc svcPort (lbs, localities) ep)).
Proof.
  intros -> Hg. eexists. split; [done|]. unfold build_step, selected; simpl.
  destruct (port_matches svc svcPort ep); simpl; [|by rewrite app_nil_r].
  destruct (buildLbEndpoint ep) as [lb|]; simpl; [|by rewrite app_nil_r].
  rewrite map_app. split; [done|]. by apply groups_of_add.
Qed.

Lemma build_eps_selected svc svcPort eps sel st :
  fst st = map snd sel -> groups_of sel (snd st) ->
  fst (fold_left (build_step svc svcPort) eps st)
    = map snd (sel ++ omap (selected svc svcPort) eps) /\
  groups_of (sel ++ omap (selected svc svcPort) eps) (snd (fold_left (build_step svc svcPort) eps st)).
Proof.
  revert sel st; induction eps as [|ep eps IH]; intros sel [lbs locs] H1 H2.
  { simpl. rewrite app_nil_r. done. }
  destruct (build_step_selected svc svcPort sel lbs locs ep H1 H2) as (sel' & Es & H1' & H2').
  change (ep :: eps) with ([ep] ++ eps). rewrite omap_app, app_assoc, <- Es.
  apply (IH sel'); done.
Qed.

(** The loop computes the selected endpoints and groups them by locality. *)
Lemma build_loop_eq svc svcPort shards :
  let sel := omap (selected svc svcPort) (concat shards) in
  fst (build_loop svc svcPort shards) = map snd sel /\
  groups_of sel (snd (build_loop svc svcPort shards)).
Proof.
  assert (H : forall shards sel st, fst st = map snd sel -> groups_of sel (snd st) ->
    fst (fold_left (fun st eps => fold_left (build_step svc svcPort) eps st) shards st)
      = map snd (sel ++ omap (selected svc svcPort) (concat shards)) /\
    groups_of (sel ++ omap (selected svc svcPort) (concat shards))
      (snd (fold_left (fun st eps => fold_left (build_step svc svcPort) eps st) shards st))).
  { clear shards. induction shards as [|eps shards IH]; intros sel st H1 H2.
    { simpl. by rewrite app_nil_r. }
    destruct (build_eps_selected svc svcPort eps sel st H1 H2) as [H1' H2'].
    cbn [fold_left concat]. rewrite omap_app, app_assoc. by apply IH. }
  apply (H shards [] ([], ∅)); [done|]. intros key. simpl. by rewrite lookup_empty.
Qed.

Lemma in_locality_cons k e sel key :
  in_locality ((k, e) :: sel) key = (if String.eqb k key then [e] else []) ++ in_locality sel key.
Proof. unfold in_locality; simpl. by destruct (String.eqb k key). Qed.

Lemma concat_insert_once {B} (k : string) (e : B) (f : string -> list B) names :
  NoDup names ->
  concat (map (fun key => (if String.eqb k key then [e] else []) ++ f key) names)
  ≡ₚ (if decide (k ∈ names) then [e] else []) ++ concat (map f names).
Proof.
  induction 1 as [|x names Hx Hnd IH]; simpl; [done|]. rewrite IH.
  destruct (String.eqb_spec k x) as [->|Hne].
  - rewrite (decide_False (P := x ∈ names)) by done.
    rewrite decide_True by set_solver. simpl. done.
  - destruct (decide (k ∈ names)).
    + rewrite (decide_True (P := k ∈ x :: names)) by set_solver. simpl.
      by rewrite Permutation_middle.
    + rewrite (decide_False (P := k ∈ x :: names)) by set_solver. done.
Qed.

(** Grouping neither loses nor repeats an endpoint. *)
Lemma groups_perm sel names :
  NoDup names -> (forall kl, kl ∈ sel -> fst kl ∈ names) ->
  concat (map (in_locality sel) names) ≡ₚ map snd sel.
Proof.
  intros Hnd. induction sel as [|[k e] sel IH]; intros Hin.
  { clear Hin. induction names; simpl; [done|]. apply NoDup_cons in Hnd as [_ ?]. by apply IHnames. }
  assert (map (in_locality ((k, e) :: sel)) names
    = map (fun key => (if String.eqb k key then [e] else []) ++ in_locality sel key) names) as ->.
  { apply map_ext. intros. apply in_locality_cons. }
  rewrite concat_insert_once by done. rewrite decide_True by (apply (Hin (k, e)); set_solver).
  simpl. rewrite IH; [done|]. set_solver.
Qed.

Lemma groups_of_names sel localities key :
  groups_of sel localities -> key ∈ (map_to_list localities).*1 <-> in_locality sel key <> [].
Proof.
  intros Hg. rewrite list_elem_of_fmap. split.
  - intros ([k g] & -> & Hk%elem_of_map_to_list). simpl. rewrite Hg in Hk.
    by destruct (in_locality sel k).
  - intros Hne. specialize (Hg key). destruct (in_locality sel key); [done|].
    eexists (key, _). split; [done|]. apply elem_of_map_to_list. exact Hg.
Qed.

Lemma group_message_eq sel localities key :
  groups_of sel localities -> in_locality sel key <> [] ->
  group_message localities key =
  mkLocalityLb (parseLocality key) (in_locality sel key) (wrap_u32 (total_weight (in_locality sel key))).
Proof.
  intros Hg Hne. unfold group_message. rewrite (Hg key). by destruct (in_locality sel key).
Qed.

Lemma selected_in_locality sel k e : (k, e) ∈ sel -> e ∈ in_locality sel k.
Proof.
  intros Hin. unfold in_locality. apply list_elem_of_fmap. exists (k, e). split; [done|].
  apply list_elem_of_In, filter_In. split; [by apply list_elem_of_In|]. apply String.eqb_refl.
Qed.

(** ** Properties *)

(** What EDS says about a cluster of a service with shards: the
    assignment carries the cluster's name; its endpoints are exactly those of
    the selected endpoints of the shards (right port, at least one address),
    none lost or repeated; they are grouped by locality, the localities in
    ascending order, each with the wrapped sum of its endpoints' weights. *)
Theorem cluster_load_assignment_spec {C} (b : EndpointBuilder) (index : EndpointIndex C)
    svc svcPort shards :
  b_service b = Some svc -> servicePort b (b_port b) = Ok (Some svcPort) ->
  ExternalName (Attributes.K8s (Service.Attributes svc)) = "" ->
  ports_deref (Service.Ports svc) = Ok tt ->
  ShardsForService index (b_hostname b) (Attributes.Namespace (Service.Attributes svc))
    = (Some shards, true) ->
  let sel := omap (selected svc svcPort) (concat (map snd (map_to_list (Shards shards)))) in
  exists cla names,
    BuildClusterLoadAssignment b index = Ok cla /\ ClusterName cla = clusterName b /\
    StronglySorted (fun x y => cmp_leb String.compare x y = true) names /\ NoDup names /\
    (forall key, key ∈ names <-> in_locality sel key <> []) /\
    Endpoints cla = map (fun key => mkLocalityLb (parseLocality key) (in_locality sel key)
      (wrap_u32 (total_weight (in_locality sel key)))) names /\
    concat (map llb_LbEndpoints (Endpoints cla)) ≡ₚ map snd sel.
Proof.
  intros Hsvc Hport Hext Hderef Hsh sel. unfold BuildClusterLoadAssignment.
  rewrite Hsvc, Hport. cbn [mbind res_bind]. rewrite Hext, Hsh, Hderef. cbn [String.eqb negb mbind res_bind].
  destruct (build_loop_eq svc svcPort (map snd (map_to_list (Shards shards)))) as [Hlbs Hg].
  fold sel in Hlbs, Hg. destruct (build_loop _ _ _) as [lbs locs]. simpl in Hlbs, Hg.
  set (names := sort_strings (map_to_list locs).*1).
  assert (Hnames : forall key, key ∈ names <-> in_locality sel key <> []).
  { intros key. unfold names, sort_strings. rewrite elem_of_sort. by apply groups_of_names. }
  assert (Hnd : NoDup names).
  { unfold names, sort_strings. rewrite Sort_perm. apply NoDup_fst_map_to_list. }
  assert (Hperm : concat (map (in_locality sel) names) ≡ₚ map snd sel).
  { apply groups_perm; [done|]. intros [k e] Hin. apply Hnames.
    intros E; simpl in E. apply selected_in_locality in Hin. rewrite E in Hin. set_solver. }
  destruct (Nat.eqb_spec (length lbs) 0) as [E|E].
  - exists (buildEmptyClusterLoadAssignment (clusterName b)), [].
    assert (sel = []) as Es by (destruct lbs; [by destruct sel|done]).
    split; [done|]. split; [done|]. split; [constructor|]. split; [constructor|].
    rewrite Es. split; [|done]. intros key. split; [by intros ?%not_elem_of_nil|done].
  - exists (mkCLA (clusterName b) (map (group_message locs) names)), names.
    assert (Eg : map (group_message locs) names = map (fun key => mkLocalityLb (parseLocality key)
      (in_locality sel key) (wrap_u32 (total_weight (in_locality sel key)))) names).
    { apply map_ext_in. intros key Hk%list_elem_of_In. apply group_message_eq; [done|by apply Hnames]. }
    split; [done|]. split; [done|]. split; [apply Sort_sorted; apply _|]. split; [done|].
    split; [done|]. simpl. split; [done|]. rewrite Eg, map_map. done.
Qed.

(** The builder always has an answer for a service without nil
    ports: an assignment with the cluster's own name, and never an absent one,
    even when the service, its port, its shards or its endpoints are
    missing. *)
Lemma BuildClusterLoadAssignment_total {C} (b : EndpointBuilder) (index : EndpointIndex C) :
  (forall svc, b_service b = Some svc -> ports_deref (Service.Ports svc) = Ok tt) ->
  exists cla, BuildClusterLoadAssignment b index = Ok cla /\ ClusterName cla = clusterName b.
Proof.
  intros Hd. unfold BuildClusterLoadAssignment.
  destruct (b_service b) as [svc|] eqn:Es; [|by eexists]. specialize (Hd svc eq_refl).
  assert (Hp : exists p, servicePort b (b_port b) = Ok p).
  { unfold servicePort. rewrite Es. assert (Hg : exists r, GetByPort (Service.Ports svc) (b_port b) = Ok r).
    { unfold ports_deref in Hd. destruct (forallb _ _) eqn:Ef; [|done]. clear Hd Es.
      induction (Service.Ports svc) as [|[p|] ps IH]; simpl in *; [by eexists| |done].
      destruct (Port.Number p =? b_port b); [by eexists|by apply IH]. }
    destruct Hg as [[sp ok] ->]. by eexists. }
  destruct Hp as [[p|] ->]; simpl; [|by eexists].
  destruct (String.eqb _ ""); simpl; [|by eexists].
  destruct (ShardsForService index _ _) as [[sh|] []]; try (by eexists).
  rewrite Hd. simpl. destruct (build_loop _ _ _) as [lbs locs].
  destruct (length lbs =? 0)%nat; by eexists.
Qed.

(** *** Witnesses *)

Definition sample_service : Service :=
  Service.mk (Attributes.mk None None None [] None "demo" "ns" "Kubernetes"
      (mkK8s "" "" false "demo" false))
    "demo" [Some (Port.mk "dubbo" 20880 protocol.TCP)] [] [] 0 "10.1.0.1" "" ClientSideLB "" "" false.

Definition sample_builder : EndpointBuilder :=
  mkBuilder "outbound|20880||demo" "demo" 20880 (Some sample_service).

Lemma cluster_load_assignment_spec_witness :
  exists cla,
    BuildClusterLoadAssignment sample_builder sample_index = Ok cla /\
    concat (map llb_LbEndpoints (Endpoints cla)) ≡ₚ
      [mkLbEndpoint (SocketAddress "10.0.0.1" 20880) HEALTHY None 1].
Proof.
  destruct (cluster_load_assignment_spec sample_builder sample_index sample_service
    (Port.mk "dubbo" 20880 protocol.TCP)
    (mkShards {["Kubernetes" := [sample_ep "10.0.0.1" "sa" Healthy]]} {["sa"]}))
    as (cla & names & H1 & _ & _ & _ & _ & _ & H2); [reflexivity..|vm_compute; reflexivity|].
  exists cla. split; [exact H1|exact H2].
Defined.
