(* ===== verification/Eds.v ===== *)
(** * The endpoint generator

    [dubbod/discovery/pkg/xds/eds.go]: which watched clusters a push
    regenerates, and the resources it sends.  The services of the push context
    and the protobuf encoding are parameters; the cache is the one of
    [XdsCache]. *)

From S2P Require Import Prelude GoStrings GoSets GoSort ConfigKeys PushRequest Hosts Service XdsCache EndpointShards EndpointBuilder Watch.

Definition skippedEdsConfigs : nset kind.Kind := GoSet.New [kind.PeerAuthentication; kind.Secret].

(** [xdsNeedsPush] of [xdsgen.go]: the answer, and whether it is final. *)
Definition xdsNeedsPush (req : option PushRequest) : bool * bool :=
  match req with
  | None => (true, true)
  | Some req => if Forced req then (true, true) else (false, false)
  end.

Definition edsNeedsPush (req : PushRequest) : bool :=
  match xdsNeedsPush (Some req) with
  | (res, true) => res
  | (_, false) =>
      if (match Reason req with Some _ => true | None => false end)
         && ReasonStats.Has (Reason req) ProxyRequest then true
      else existsb (fun config => negb (GoSet.Contains skippedEdsConfigs (ConfigKey.Kind config)))
             (GoSet.UnsortedList (ConfigsUpdated req))
  end.

(** The loop of [edsUpdatedServicesForRequest]; [None] is its early return. *)
Fixpoint updated_services_loop (cfgs : list ConfigKey) (services : gset string) : option (gset string) :=
  match cfgs with
  | [] => Some services
  | cfg :: cfgs =>
      if GoSet.Contains skippedEdsConfigs (ConfigKey.Kind cfg) then updated_services_loop cfgs services
      else if negb (bool_decide (ConfigKey.Kind cfg = kind.Service)) || String.eqb (ConfigKey.Name cfg) ""
      then None
      else updated_services_loop cfgs ({[ConfigKey.Name cfg]} ∪ services)
  end.

Definition edsUpdatedServicesForRequest (req : option PushRequest) : nset string * bool :=
  match req with
  | None => (None, false)
  | Some req =>
      if (nset_len (ConfigsUpdated req) =? 0)%nat then (None, false) else
      match updated_services_loop (GoSet.UnsortedList (ConfigsUpdated req)) ∅ with
      | None => (None, false)
      | Some services => (Some services, (0 <? size services)%nat)
      end
  end.

Definition canSendPartialFullPushes (req : PushRequest) : bool :=
  if Forced req then false
  else let '(_, targetedServices) := edsUpdatedServicesForRequest (Some req) in targetedServices.

Definition shouldUseDeltaEds (req : PushRequest) : bool :=
  if negb (Full req) then false else canSendPartialFullPushes req.

Record XdsLogDetails : Type := mkLog { Incremental : bool; AdditionalInfo : string }.
Definition DefaultXdsLogDetails : XdsLogDetails := mkLog false "".

Section generator.
Context {L LS C : Type} `{!LRUCache Z (cacheValue Resource) L} `{!LRUCache string (cacheValue Resource) LS}.
Context (sum64 : string -> Z) (HashCode : ConfigKey -> ConfigHash).
Context (MessageToAny : ClusterLoadAssignment -> Any).
Notation xcache := (option (XdsCacheImpl Resource L LS)).

(** The state of the loop: the resources so far, the removed names, the
    counters and the cache. *)
Record loop_state : Type := mkLoop {
  l_resources : Resources;
  l_removed : list string;
  l_empty : Z;
  l_cached : Z;
  l_regenerated : Z;
  l_cache : xcache
}.

(** The part of the loop body after the checks on the builder: the cache, the
    generation, the addition to the cache. *)
Definition generate_cluster (EndpointIndex_ : EndpointIndex C) (req : PushRequest) (hostname : string)
    (builder : EndpointBuilder) (serviceWasUpdated : bool) (st : loop_state) : res loop_state :=
  let shouldRegenerate :=
    if negb serviceWasUpdated && negb (Full req)
       && (match ConfigsUpdated req with Some _ => true | None => false end)
    then existsb (fun ckey => String.eqb (ConfigKey.Name ckey) hostname)
           (GoSet.UnsortedList (ConfigsUpdated req))
    else serviceWasUpdated in
  let entry := builder_entry sum64 HashCode builder in
  hit ← match (if negb shouldRegenerate then l_cache st else None) with
        | Some c => r ← Xds_Get c entry;
                    Ok (Some (fst r), snd r) : res (xcache * option Resource)
        | None => Ok (l_cache st, None)
        end;
  match hit : xcache * option Resource with
  | (c, Some cachedEndpoint) =>
      Ok (mkLoop (l_resources st ++ [cachedEndpoint]) (l_removed st) (l_empty st)
            (l_cached st + 1) (l_regenerated st) c)
  | (c, None) =>
      l ← BuildClusterLoadAssignment builder EndpointIndex_;
      let empty := if (length (Endpoints l) =? 0)%nat then l_empty st + 1 else l_empty st in
      let resource := mkResource (ClusterName l) (MessageToAny l) in
      c ← match c with
          | Some x => x ← Xds_Add x entry (Some req) (Some resource); Ok (Some x) : res xcache
          | None => Ok None
          end;
      Ok (mkLoop (l_resources st ++ [resource]) (l_removed st) empty (l_cached st)
            (l_regenerated st + 1) c)
  end.

(** The watched clusters of a targeted push are those of updated services. *)
Definition skip_cluster (targetedServices : bool) (edsUpdatedServices : nset string)
    (hostname : string) : bool :=
  targetedServices && negb (GoSet.Contains edsUpdatedServices hostname).

Definition build_cluster services (index : EndpointIndex C) (req : PushRequest)
    (targeted : bool) (updated : nset string) (st : loop_state) (clusterName : string) : res loop_state :=
  let hostname := ParseSubsetKeyHostname clusterName in
  let serviceWasUpdated := true in
  if skip_cluster targeted updated hostname then Ok st else
  match NewEndpointBuilder services clusterName with
  | None => Ok st
  | Some builder => generate_cluster index req hostname builder serviceWasUpdated st
  end.

Definition build_delta_cluster services (index : EndpointIndex C) (req : PushRequest)
    (targeted : bool) (updated : nset string) (st : loop_state) (clusterName : string) : res loop_state :=
  let hostname := ParseSubsetKeyHostname clusterName in
  let serviceWasUpdated := true in
  let removed := mkLoop (l_resources st) (l_removed st ++ [clusterName]) (l_empty st)
                   (l_cached st) (l_regenerated st) (l_cache st) in
  if skip_cluster targeted updated hostname then Ok st else
  match NewEndpointBuilder services clusterName with
  | None => Ok removed
  | Some builder =>
      if negb (ServiceFound builder) then Ok removed
      else generate_cluster index req hostname builder serviceWasUpdated st
  end.

Fixpoint clusters_loop (body : loop_state -> string -> res loop_state) (names : list string)
    (st : loop_state) : res loop_state :=
  match names with
  | [] => Ok st
  | n :: names => st ← body st n; clusters_loop body names st
  end.

Definition log_details (targeted : bool) (st : loop_state) : XdsLogDetails :=
  mkLog targeted ("empty:" +:+ Itoa (l_empty st) +:+ " cached:" +:+ Itoa (l_cached st)
    +:+ "/" +:+ Itoa (l_cached st + l_regenerated st)).

Definition buildEndpoints services index (cache : xcache) (req : PushRequest) (w : WatchedResource)
  : res (Resources * XdsLogDetails * xcache) :=
  let '(edsUpdatedServices, targetedServices) := edsUpdatedServicesForRequest (Some req) in
  st ← clusters_loop (build_cluster services index req targetedServices edsUpdatedServices)
         (GoSet.UnsortedList (ResourceNames w)) (mkLoop [] [] 0 0 0 cache);
  Ok (l_resources st, log_details targetedServices st, l_cache st).

Definition buildDeltaEndpoints services index (cache : xcache) (req : PushRequest) (w : WatchedResource)
  : res (Resources * list string * XdsLogDetails * xcache) :=
  let '(edsUpdatedServices, targetedServices) := edsUpdatedServicesForRequest (Some req) in
  st ← clusters_loop (build_delta_cluster services index req targetedServices edsUpdatedServices)
         (GoSet.UnsortedList (ResourceNames w)) (mkLoop [] [] 0 0 0 cache);
  Ok (l_resources st, l_removed st, log_details targetedServices st, l_cache st).

(** A slice that starts nil stays nil when nothing is appended. *)
Definition nilable {A} (l : list A) : option (list A) := match l with [] => None | _ => Some l end.

Definition Generate services index (cache : xcache) (w : WatchedResource) (req : PushRequest)
  : res (option Resources * XdsLogDetails * xcache) :=
  if negb (edsNeedsPush req) then Ok (None, DefaultXdsLogDetails, cache)
  else '(resources, logDetails, cache) ← buildEndpoints services index cache req w;
       Ok (nilable resources, logDetails, cache).

Definition GenerateDeltas services index (cache : xcache) (req : PushRequest) (w : WatchedResource)
  : res (option Resources * option (list string) * XdsLogDetails * bool * xcache) :=
  if negb (edsNeedsPush req) then Ok (None, None, DefaultXdsLogDetails, false, cache)
  else if negb (shouldUseDeltaEds req) then
    '(resources, logDetails, cache) ← buildEndpoints services index cache req w;
    Ok (nilable resources, None, logDetails, false, cache)
  else
    '(resources, removed, logs, cache) ← buildDeltaEndpoints services index cache req w;
    Ok (nilable resources, nilable removed, logs, true, cache).

(** ** Lemmas *)

(** What a fresh generation gives for a cluster. *)
Definition fresh_resource (services : host.Name -> option Service) (index : EndpointIndex C)
    (name : string) : option Resource :=
  match NewEndpointBuilder services name with
  | None => None
  | Some b => match BuildClusterLoadAssignment b index with
              | Ok l => Some (mkResource (ClusterName l) (MessageToAny l))
              | _ => None end
  end.

(** The services hold no nil port, which is what keeps the builder from
    panicking. *)
Definition ports_ok (services : host.Name -> option Service) : Prop :=
  forall h svc, services h = Some svc -> ports_deref (Service.Ports svc) = Ok tt.

Lemma NewEndpointBuilder_fields services name b :
  NewEndpointBuilder services name = Some b ->
  clusterName b = name /\ b_service b = services (b_hostname b).
Proof.
  unfold NewEndpointBuilder. destruct (ParseSubsetKey name) as [[[d s] h] p].
  destruct (String.eqb h "" || (p =? 0)); [done|]. by intros [= <-].
Qed.

Lemma Build_ok services (index : EndpointIndex C) name b :
  ports_ok services -> NewEndpointBuilder services name = Some b ->
  exists l, BuildClusterLoadAssignment b index = Ok l /\ ClusterName l = name.
Proof.
  intros Hp Hb. destruct (NewEndpointBuilder_fields _ _ _ Hb) as [Hn Hs].
  rewrite <- Hn. apply (BuildClusterLoadAssignment_total b index). intros svc Hsvc.
  eapply (Hp (b_hostname b)). congruence.
Qed.

Lemma Xds_Add_total c b req v : exists c', Xds_Add (L := L) (LS := LS) c (builder_entry sum64 HashCode b) req v = Ok c'.
Proof. unfold Xds_Add. simpl. destruct (ServiceFound b); simpl; by eexists. Qed.

(** With [serviceWasUpdated] set, the cache is not read. *)
Lemma generate_fresh services index req hostname name b st :
  ports_ok services -> NewEndpointBuilder services name = Some b ->
  exists st', generate_cluster index req hostname b true st = Ok st' /\
    l_removed st' = l_removed st /\
    Some (l_resources st') = (fun r => l_resources st ++ [r]) <$> fresh_resource services index name.
Proof.
  intros Hp Hb. destruct (Build_ok services index name b Hp Hb) as (l & Hl & _).
  unfold generate_cluster, fresh_resource. cbn [negb andb]. rewrite Hb, Hl. cbn [mbind res_bind].
  destruct (l_cache st) as [c|].
  - destruct (Xds_Add_total c b (Some req) (Some (mkResource (ClusterName l) (MessageToAny l)))) as [c' ->].
    cbn [mbind res_bind]. eexists. split; [done|]. done.
  - eexists. split; [done|]. done.
Qed.

(** The clusters of a push: those watched whose service is not left out. *)
Definition pushed_clusters (targeted : bool) (updated : nset string) (names : list string) : list string :=
  List.filter (fun n => negb (skip_cluster targeted updated (ParseSubsetKeyHostname n))) names.

Lemma build_loop_fresh services index req targeted updated names st :
  ports_ok services ->
  exists st', clusters_loop (build_cluster services index req targeted updated) names st = Ok st' /\
    l_resources st' = l_resources st ++
      omap (fresh_resource services index) (pushed_clusters targeted updated names).
Proof.
  intros Hp. revert st; induction names as [|n names IH]; intros st; simpl.
  { eexists. split; [done|]. by rewrite app_nil_r. }
  change (build_cluster services index req targeted updated st n) with
    (if skip_cluster targeted updated (ParseSubsetKeyHostname n) then Ok st else
     match NewEndpointBuilder services n with
     | None => Ok st
     | Some builder => generate_cluster index req (ParseSubsetKeyHostname n) builder true st end).
  destruct (skip_cluster targeted updated (ParseSubsetKeyHostname n)) eqn:Es;
    cbn [negb mbind res_bind]; [apply IH|].
  destruct (NewEndpointBuilder services n) as [b|] eqn:Eb.
  - destruct (generate_fresh services index req (ParseSubsetKeyHostname n) n b st Hp Eb)
      as (st' & -> & _ & Hr). cbn [mbind res_bind]. destruct (IH st') as (st2 & -> & H2).
    exists st2. split; [done|]. rewrite H2. simpl. destruct (fresh_resource services index n) as [r|]; [|done].
    injection Hr as ->. by rewrite <- app_assoc.
  - cbn [mbind res_bind]. destruct (IH st) as (st2 & -> & H2). exists st2. split; [done|]. rewrite H2. simpl.
    unfold fresh_resource. by rewrite Eb.
Qed.

(** The cluster is gone: its name does not parse, or its service is unknown. *)
Definition cluster_gone (services : host.Name -> option Service) (name : string) : bool :=
  match NewEndpointBuilder services name with
  | None => true
  | Some b => negb (ServiceFound b)
  end.

Lemma build_delta_loop_fresh services index req targeted updated names st :
  ports_ok services ->
  exists st', clusters_loop (build_delta_cluster services index req targeted updated) names st = Ok st' /\
    l_resources st' = l_resources st ++ omap (fresh_resource services index)
      (List.filter (fun n => negb (cluster_gone services n)) (pushed_clusters targeted updated names)) /\
    l_removed st' = l_removed st ++
      List.filter (cluster_gone services) (pushed_clusters targeted updated names).
Proof.
  intros Hp. revert st; induction names as [|n names IH]; intros st; simpl.
  { eexists. split; [done|]. by rewrite !app_nil_r. }
  change (build_delta_cluster services index req targeted updated st n) with
    (if skip_cluster targeted updated (ParseSubsetKeyHostname n) then Ok st else
     match NewEndpointBuilder services n with
     | None => Ok (mkLoop (l_resources st) (l_removed st ++ [n]) (l_empty st) (l_cached st)
                     (l_regenerated st) (l_cache st))
     | Some builder => if negb (ServiceFound builder) then
         Ok (mkLoop (l_resources st) (l_removed st ++ [n]) (l_empty st) (l_cached st)
               (l_regenerated st) (l_cache st))
         else generate_cluster index req (ParseSubsetKeyHostname n) builder true st end).
  destruct (skip_cluster targeted updated (ParseSubsetKeyHostname n)) eqn:Es;
    cbn [negb mbind res_bind]; [apply IH|]. cbn [List.filter].
  assert (Hrem : cluster_gone services n = true -> forall st1, st1 =
    mkLoop (l_resources st) (l_removed st ++ [n]) (l_empty st) (l_cached st) (l_regenerated st) (l_cache st) ->
    exists st', clusters_loop (build_delta_cluster services index req targeted updated) names st1 = Ok st' /\
    l_resources st' = l_resources st ++ omap (fresh_resource services index)
      (List.filter (fun n => negb (cluster_gone services n)) (pushed_clusters targeted updated names)) /\
    l_removed st' = l_removed st ++ n ::
      List.filter (cluster_gone services) (pushed_clusters targeted updated names)).
  { intros _ st1 ->. edestruct IH as (st2 & H1 & H2 & H3). rewrite H1. exists st2. split; [done|].
    rewrite H2, H3. simpl.
    by rewrite <- app_assoc. }
  destruct (NewEndpointBuilder services n) as [b|] eqn:Eb.
  - destruct (ServiceFound b) eqn:Ef; cbn [negb].
    + assert (cluster_gone services n = false) as -> by (unfold cluster_gone; by rewrite Eb, Ef).
      destruct (generate_fresh services index req (ParseSubsetKeyHostname n) n b st Hp Eb)
        as (st' & -> & Hrm & Hr). cbn [mbind res_bind]. destruct (IH st') as (st2 & -> & H2 & H3).
      exists st2. split; [done|]. rewrite H2, H3, Hrm. split; [|done]. simpl.
      destruct (fresh_resource services index n) as [r|]; [|done].
      injection Hr as ->. by rewrite <- app_assoc.
    + assert (Hg : cluster_gone services n = true) by (unfold cluster_gone; by rewrite Eb, Ef).
      rewrite Hg. cbn [mbind res_bind]. by apply Hrem.
  - assert (Hg : cluster_gone services n = true) by (unfold cluster_gone; by rewrite Eb).
    rewrite Hg. cbn [mbind res_bind]. by apply Hrem.
Qed.

End generator.

(** *** Targeted pushes *)

(** A configuration that lets a push be targeted: one EDS ignores, or a named
    service. *)
Definition targetable (cfg : ConfigKey) : bool :=
  GoSet.Contains skippedEdsConfigs (ConfigKey.Kind cfg)
  || (bool_decide (ConfigKey.Kind cfg = kind.Service) && negb (String.eqb (ConfigKey.Name cfg) "")).

Definition service_names (cfgs : list ConfigKey) : gset string :=
  list_to_set (map ConfigKey.Name
    (List.filter (fun c => negb (GoSet.Contains skippedEdsConfigs (ConfigKey.Kind c))) cfgs)).

Lemma updated_services_loop_eq cfgs services :
  updated_services_loop cfgs services =
  if forallb targetable cfgs then Some (services ∪ service_names cfgs) else None.
Proof.
  revert services; induction cfgs as [|c cfgs IH]; intros services.
  { simpl. f_equal. unfold service_names; simpl. set_solver. }
  cbn [updated_services_loop forallb]. unfold targetable at 1, service_names. cbn [List.filter].
  destruct (GoSet.Contains skippedEdsConfigs (ConfigKey.Kind c)); simpl; [apply IH|].
  destruct (bool_decide (ConfigKey.Kind c = kind.Service)), (String.eqb (ConfigKey.Name c) "");
    simpl; try done.
  rewrite IH. destruct (forallb targetable cfgs); [|done]. f_equal. unfold service_names. set_solver.
Qed.

Lemma skipped_not_service : GoSet.Contains skippedEdsConfigs kind.Service = false.
Proof. vm_compute. reflexivity. Qed.

Lemma elem_of_service_names cfgs n :
  forallb targetable cfgs = true ->
  n ∈ service_names cfgs <-> exists c, c ∈ cfgs /\ ConfigKey.Kind c = kind.Service /\ ConfigKey.Name c = n.
Proof.
  intros Hall. unfold service_names. rewrite elem_of_list_to_set, list_elem_of_fmap.
  rewrite forallb_elem in Hall. split.
  - intros (c & -> & Hc%list_elem_of_In%filter_In). destruct Hc as [Hc%list_elem_of_In Hs].
    exists c. split; [done|]. specialize (Hall c Hc). unfold targetable in Hall.
    rewrite negb_true_iff in Hs. rewrite Hs in Hall. simpl in Hall. breflect. done.
  - intros (c & Hc & Hk & <-). exists c. split; [done|]. apply list_elem_of_In, filter_In.
    split; [by apply list_elem_of_In|]. by rewrite Hk, skipped_not_service.
Qed.

(** *** The cache of the endpoint index *)
Section eds_cache.
Context {L LS : Type} `{!LRUCache Z (cacheValue Resource) L} `{!LRUCache string (cacheValue Resource) LS}.
Context `{!LRULaws Z (cacheValue Resource) L} `{!LRULaws string (cacheValue Resource) LS}.
Context (sum64 : string -> Z) (HashCode : ConfigKey -> ConfigHash).

(** Every endpoint entry depends on the one key the builder names. *)
Definition eds_from_builders (x : XdsCacheImpl Resource L LS) : Prop :=
  forall k v, typed_contents (eds x) !! k = Some v -> dependentConfigs v = [HashCode ConfigKey.zero].

Lemma typed_Clear_subset {K M} `{Countable K} `{LRUCache K (cacheValue Resource) M}
    `{!LRULaws K (cacheValue Resource) M} (c : typedCache K Resource M) now s k v :
  typed_contents (typed_Clear HashCode c now s) !! k = Some v -> typed_contents c !! k = Some v.
Proof.
  destruct c as [l|]; cbn [typed_Clear typed_contents]; [|done].
  rewrite (Clear_store HashCode l now s k).
  by destruct (referenced HashCode l (GoSet.UnsortedList s) k).
Qed.

Lemma eds_from_builders_clear x now s :
  eds_from_builders x -> eds_from_builders (Xds_Clear HashCode x now s).
Proof.
  intros Hx k v. destruct now as [[[n1 n2] n3] n4]. simpl.
  destruct (HasConfigsOfKind s kind.PeerAuthentication).
  - rewrite typed_ClearAll_contents, lookup_empty. done.
  - intros Hv%typed_Clear_subset. by eapply Hx.
Qed.

Lemma eds_from_builders_add x b req v x' :
  eds_from_builders x -> Xds_Add x (builder_entry sum64 HashCode b) req v = Ok x' ->
  eds_from_builders x'.
Proof.
  intros Hx. unfold Xds_Add. simpl. unfold ServiceFound.
  destruct (b_service b) as [svc|]; simpl; [|by intros [= <-]].
  intros [= <-] k w. simpl. destruct (eds x) as [l|] eqn:El; simpl; [|done].
  unfold eds_from_builders in Hx. rewrite El in Hx. simpl in Hx.
  destruct (Add_cases l (sum64 (clusterName b)) [HashCode ConfigKey.zero] req v)
    as [s E|r _ _ _ _]; [simpl; rewrite E; apply Hx|].
  destruct (write_entry_store l (sum64 (clusterName b)) [HashCode ConfigKey.zero]
    (time_token (Start r)) v) as [Hnew Hold].
  destruct (decide (sum64 (clusterName b) = k)) as [<-|Hne]; [rewrite Hnew; by intros [= <-]|].
  intros Hw. eapply Hx, Hold; done.
Qed.

Lemma clear_zero_empties x now :
  impl_inv x -> eds_from_builders x ->
  typed_contents (eds (Xds_Clear HashCode x now (Some {[ConfigKey.zero]}))) = ∅.
Proof.
  intros Hi Hx. apply map_empty. intros k. apply eq_None_not_Some. intros [v Hv].
  pose proof (eds_from_builders_clear x now (Some {[ConfigKey.zero]}) Hx k v Hv) as Hd.
  destruct (Xds_Clear_independent HashCode x now (Some {[ConfigKey.zero]}) ConfigKey.zero Hi)
    as (_ & Hind & _); [set_solver|].
  apply (Hind k v Hv). rewrite Hd. set_solver.
Qed.

End eds_cache.

Lemma Update_cache {C} `{!XdsCacheClear C} (e : EndpointIndex C) shard host ns eps now1 now2 :
  eps <> [] ->
  exists c, (c = cache e \/ c = cache_Clear (cache e) now1 (Some {[ConfigKey.zero]})) /\
    cache (fst (UpdateServiceEndpoints e shard host ns eps now1 now2))
      = cache_Clear c now2 (Some {[ConfigKey.zero]}).
Proof.
  intros Hne. unfold UpdateServiceEndpoints.
  destruct (length eps =? 0)%nat eqn:El; [by destruct eps|].
  unfold GetOrCreateEndpointShard.
  destruct (default ∅ _ !! ns) as [ep|];
    destruct (endpointUpdateRequiresPush _ _), (updateShardServiceAccount _); simpl; eauto.
Qed.

(** ** Properties *)

(** When an endpoint push may be limited to some services: the
    push is targeted exactly when some changed configuration matters to EDS
    and all that do are named services, and then it covers exactly those
    names. *)
Theorem edsUpdatedServices_spec req :
  let cfgs := nset_elems (ConfigsUpdated req) in
  let '(services, targeted) := edsUpdatedServicesForRequest (Some req) in
  (targeted = true <->
     (forall c, c ∈ cfgs -> targetable c = true) /\
     exists c, c ∈ cfgs /\ ConfigKey.Kind c = kind.Service) /\
  (targeted = true -> forall n, n ∈ nset_elems services <->
     exists c, c ∈ cfgs /\ ConfigKey.Kind c = kind.Service /\ ConfigKey.Name c = n).
Proof.
  cbv zeta. destruct (edsUpdatedServicesForRequest (Some req)) as [services targeted] eqn:Eq.
  setoid_rewrite <- GoSet.UnsortedList_elem. rewrite <- forallb_elem.
  unfold edsUpdatedServicesForRequest in Eq.
  destruct (Nat.eqb_spec (nset_len (ConfigsUpdated req)) 0) as [E|E].
  { injection Eq as <- <-. apply size_empty_iff_L in E. unfold GoSet.UnsortedList.
    rewrite E, elements_empty.
    split; [|done]. split; [done|]. intros [_ (c & Hc%not_elem_of_nil & _)]. done. }
  rewrite updated_services_loop_eq in Eq.
  destruct (forallb targetable (GoSet.UnsortedList (ConfigsUpdated req))) eqn:Hall;
    injection Eq as <- <-; [|split; [naive_solver|done]].
  rewrite union_empty_l_L. split.
  2:{ intros _ n. rewrite (GoSet.UnsortedList_elem (Some _)). simpl. rewrite union_empty_l_L.
      by apply elem_of_service_names. }
  rewrite Nat.ltb_lt. split.
  - intros Hs. split; [done|]. destruct (set_choose_L (service_names
      (GoSet.UnsortedList (ConfigsUpdated req)))) as [n Hn].
    { intros E0. rewrite E0, size_empty in Hs. lia. }
    apply elem_of_service_names in Hn; [|done]. naive_solver.
  - intros [_ (c & Hc & Hk)].
    assert (Hn : ConfigKey.Name c ∈ service_names (GoSet.UnsortedList (ConfigsUpdated req)))
      by (apply elem_of_service_names; eauto).
    assert (size (service_names (GoSet.UnsortedList (ConfigsUpdated req))) <> 0%nat); [|lia].
    rewrite size_empty_iff_L. set_solver.
Qed.

(** C25 What an endpoint push sends: whatever the cache holds, the
    resources are freshly built from the endpoint index for every watched
    cluster the push covers, and a delta push reports as removed exactly the
    covered clusters whose name does not parse or whose service is gone.  (The
    cache is therefore never read.) *)
Theorem eds_generation_is_fresh {L LS C} `{!LRUCache Z (cacheValue Resource) L}
    `{!LRUCache string (cacheValue Resource) LS} sum64 HashCode MessageToAny services
    (index : EndpointIndex C) (cache : option (XdsCacheImpl Resource L LS)) req w :
  ports_ok services ->
  let '(updated, targeted) := edsUpdatedServicesForRequest (Some req) in
  let clusters := pushed_clusters targeted updated (GoSet.UnsortedList (ResourceNames w)) in
  (exists details cache', buildEndpoints sum64 HashCode MessageToAny services index cache req w
     = Ok (omap (fresh_resource MessageToAny services index) clusters, details, cache')) /\
  (exists details cache', buildDeltaEndpoints sum64 HashCode MessageToAny services index cache req w
     = Ok (omap (fresh_resource MessageToAny services index)
             (List.filter (fun n => negb (cluster_gone services n)) clusters),
           List.filter (cluster_gone services) clusters, details, cache')).
Proof.
  intros Hp. unfold buildEndpoints, buildDeltaEndpoints.
  destruct (edsUpdatedServicesForRequest (Some req)) as [updated targeted]. split.
  - destruct (build_loop_fresh sum64 HashCode MessageToAny services index req targeted updated
      (GoSet.UnsortedList (ResourceNames w)) (mkLoop [] [] 0 0 0 cache) Hp) as (st & -> & Hr).
    cbn [mbind res_bind]. rewrite Hr. eauto.
  - destruct (build_delta_loop_fresh sum64 HashCode MessageToAny services index req targeted updated
      (GoSet.UnsortedList (ResourceNames w)) (mkLoop [] [] 0 0 0 cache) Hp) as (st & -> & Hr & Hrm).
    cbn [mbind res_bind]. rewrite Hr, Hrm. eauto.
Qed.

(** Any endpoint update empties the whole endpoint cache: since the
    builder and the index both name the configuration key with no field set,
    entries of every service are invalidated by the update of one, and entries
    added by the builder keep that property. *)
Theorem endpoint_update_clears_eds {L LS} `{!LRUCache Z (cacheValue Resource) L}
    `{!LRUCache string (cacheValue Resource) LS} `{!LRULaws Z (cacheValue Resource) L}
    `{!LRULaws string (cacheValue Resource) LS} sum64 (HashCode : ConfigKey -> ConfigHash)
    (e : EndpointIndex (XdsCacheImpl Resource L LS)) shard host ns eps now1 now2 :
  impl_inv (cache e) -> eds_from_builders HashCode (cache e) -> eps <> [] ->
  (forall b req v x', Xds_Add (cache e) (builder_entry sum64 HashCode b) req v = Ok x' ->
     eds_from_builders HashCode x') /\
  let _ := impl_clear HashCode in
  typed_contents (eds (cache (fst (UpdateServiceEndpoints e shard host ns eps now1 now2)))) = ∅.
Proof.
  intros Hi Hb Hne. split; [intros b req v x'; by apply eds_from_builders_add|]. intros clr.
  destruct (Update_cache e shard host ns eps now1 now2 Hne) as (c & Hc & ->).
  apply clear_zero_empties; destruct Hc as [-> | ->]; try done.
  - by apply Xds_Clear_inv.
  - by apply eds_from_builders_clear.
Qed.

(** *** Witnesses *)
Section witnesses.
#[local] Instance eds_lru : LRUCache Z (cacheValue Resource) (gmap Z (cacheValue Resource)) := bounded_lru 4.
#[local] Instance eds_laws : LRULaws Z (cacheValue Resource) (gmap Z (cacheValue Resource)) := bounded_laws 4.
#[local] Instance eds_slru : LRUCache string (cacheValue Resource) (gmap string (cacheValue Resource)) := bounded_lru 4.
#[local] Instance eds_slaws : LRULaws string (cacheValue Resource) (gmap string (cacheValue Resource)) := bounded_laws 4.

Definition sample_services (h : host.Name) : option Service :=
  if String.eqb h "demo" then Some sample_service else None.
Definition sample_any (l : ClusterLoadAssignment) : Any := mkAny EndpointType (ClusterName l).
Definition sample_eds_request : PushRequest :=
  mkRequest None (Some {[ConfigKey.mk kind.Service "demo" "ns"]}) None false true None
    (unix_epoch + 1) emptyResourceDelta.
Definition sample_eds_watch : WatchedResource :=
  new_watch EndpointType (Some {["outbound|20880||demo"; "outbound|20880||other"]}).

Lemma sample_ports_ok : ports_ok sample_services.
Proof. intros h svc. unfold sample_services. destruct (String.eqb h "demo"); [|done]. by intros [= <-]. Qed.

Definition empty_impl : XdsCacheImpl Resource (gmap Z (cacheValue Resource)) (gmap string (cacheValue Resource)) :=
  NewXdsCache true true.

Lemma eds_generation_is_fresh_witness :
  exists details cache',
    buildEndpoints (fun _ => 7) (fun _ => 0) sample_any sample_services sample_index
      (Some empty_impl) sample_eds_request sample_eds_watch
    = Ok ([mkResource "outbound|20880||demo" (mkAny EndpointType "outbound|20880||demo")],
          details, cache').
Proof.
  pose proof (eds_generation_is_fresh (fun _ => 7) (fun _ => 0) sample_any sample_services sample_index
    (Some empty_impl) sample_eds_request sample_eds_watch sample_ports_ok) as H.
  assert (Eu : edsUpdatedServicesForRequest (Some sample_eds_request) = (Some {["demo"]}, true))
    by (vm_compute; reflexivity).
  rewrite Eu in H. destruct H as [(d & c & H) _]. exists d, c.
  assert (Ec : omap (fresh_resource sample_any sample_services sample_index)
      (pushed_clusters true (Some {["demo"]}) (GoSet.UnsortedList (ResourceNames sample_eds_watch)))
    = [mkResource "outbound|20880||demo" (mkAny EndpointType "outbound|20880||demo")])
    by (vm_compute; reflexivity).
  rewrite Ec in H. exact H.
Defined.

Lemma endpoint_update_clears_eds_witness :
  let _ := impl_clear (L := gmap Z (cacheValue Resource)) (LS := gmap string (cacheValue Resource))
             (fun _ => 0) in
  typed_contents (eds (cache (fst (UpdateServiceEndpoints (mkIndex ∅ empty_impl)
    "Kubernetes" "demo" "ns" [sample_ep "10.0.0.1" "sa" Healthy] no_clock no_clock)))) = ∅.
Proof.
  destruct (endpoint_update_clears_eds (fun _ => 7) (fun _ => 0) (mkIndex ∅ empty_impl)
    "Kubernetes" "demo" "ns" [sample_ep "10.0.0.1" "sa" Healthy] no_clock no_clock) as [_ H];
    [..|exact H].
  - repeat split; apply new_inv.
  - intros k v. unfold empty_impl. simpl. by rewrite lookup_empty.
  - discriminate.
Defined.

End witnesses.
