(* ===== verification/ApiTypes.v ===== *)
(** * Messages of the API modules

    The records of the Gateway API ([sigs.k8s.io/gateway-api]) and of the
    security and networking APIs ([github.com/dubml/api]) with the fields the
    control plane reads.  A pointer field is an [option]; an enum that is a
    string in the API is a string here. *)

From S2P Require Import Prelude Hosts.

(** A selector is a pointer to a message with [MatchLabels]. *)
Notation selector := (option (nmap string string)).

(** [durationpb.Duration] *)
Record Duration : Type := mkDuration { Seconds : Z; Nanos : Z }.
#[global] Instance Duration_eq_dec : EqDecision Duration.
Proof. solve_decision. Defined.

(** ** Gateway API *)

Record ParentReference : Type := mkParentRef {
  pr_Group : option string;
  pr_Kind : option string;
  pr_Namespace : option string;
  pr_Name : string;
  pr_SectionName : option string;
  pr_Port : option Z
}.

Record HTTPPathMatch : Type := mkPathMatch { pm_Type : option string; pm_Value : option string }.
Record HTTPHeaderMatch : Type := mkHeaderMatch {
  hm_Type : option string; hm_Name : string; hm_Value : string }.
Record HTTPRouteMatch : Type := mkRouteMatch {
  rm_Path : option HTTPPathMatch; rm_Headers : list HTTPHeaderMatch }.

Record HTTPBackendRef : Type := mkBackendRef {
  br_Name : string;
  br_Namespace : option string;
  br_Port : option Z;
  br_Weight : option Z
}.

Record HTTPRouteTimeouts : Type := mkTimeouts {
  to_Request : option string; to_BackendRequest : option string }.
Record HTTPRouteRetry : Type := mkRetry {
  rt_Codes : list Z; rt_Attempts : option Z; rt_Backoff : option string }.

Record HTTPRouteRule : Type := mkRule {
  ru_Matches : list HTTPRouteMatch;
  ru_BackendRefs : list HTTPBackendRef;
  ru_Timeouts : option HTTPRouteTimeouts;
  ru_Retry : option HTTPRouteRetry
}.

Record HTTPRouteSpec : Type := mkHTTPRoute {
  hr_ParentRefs : list ParentReference;
  hr_Hostnames : list string;
  hr_Rules : list HTTPRouteRule
}.

Definition PathMatchExact : string := "Exact".
Definition PathMatchPathPrefix : string := "PathPrefix".
Definition PathMatchRegularExpression : string := "RegularExpression".
Definition HeaderMatchExact : string := "Exact".
Definition HeaderMatchRegularExpression : string := "RegularExpression".

(** [LocalPolicyTargetReferenceWithSectionName] *)
Record PolicyTarget : Type := mkPolicyTarget {
  pt_Group : string; pt_Kind : string; pt_Name : string; pt_SectionName : option string }.

Record BackendTLSPolicySpec : Type := mkBackendTLS {
  bt_TargetRefs : list PolicyTarget;
  bt_Hostname : string;
  bt_WellKnownCACertificates : option string
}.

Definition WellKnownCACertificatesSystem : string := "System".

(** ** Networking and security APIs *)

(** [PolicyTargetReference], whose fields are plain strings. *)
Record FaultTarget : Type := mkFaultTarget {
  ft_Group : string; ft_Kind : string; ft_Name : string; ft_SectionName : string }.
Record FaultDelaySpec : Type := mkFaultDelaySpec {
  fd_FixedDelay : option Duration; fd_Percentage : option Z }.
Record FaultAbortSpec : Type := mkFaultAbortSpec {
  fa_HttpStatus : Z; fa_Percentage : option Z }.
Record FaultInjectionPolicy : Type := mkFaultInjection {
  fi_TargetRefs : list (option FaultTarget);
  fi_Delay : option FaultDelaySpec;
  fi_Abort : option FaultAbortSpec
}.

Record JWTHeader : Type := mkJWTHeader { jh_Name : string; jh_Prefix : string }.
Record JWTRule : Type := mkJWTRule {
  jr_Issuer : string;
  jr_Audiences : list string;
  jr_JwksUri : string;
  jr_Jwks : string;
  jr_FromHeaders : list (option JWTHeader);
  jr_FromParams : list string
}.
Record RequestAuthentication : Type := mkRequestAuthentication {
  ra_Selector : selector; ra_JwtRules : list (option JWTRule) }.

(** [AuthorizationPolicy_Action]; the wire may hold another number. *)
Inductive authz_action : Type := ALLOW | DENY | OTHER_ACTION (n : Z).
Record AuthzSource : Type := mkAuthzSource {
  so_Principals : list string; so_RequestPrincipals : list string }.
Record AuthzCondition : Type := mkAuthzCondition {
  co_Key : string; co_Values : list string; co_NotValues : list string }.
(** [From] is a list of pointers to a message that holds a pointer to a
    source. *)
Record AuthzRule : Type := mkAuthzRule {
  rl_From : list (option (option AuthzSource));
  rl_When : list (option AuthzCondition)
}.
Record AuthorizationPolicy : Type := mkAuthorizationPolicy {
  ap_Selector : selector;
  ap_Action : authz_action;
  ap_Rules : list (option AuthzRule)
}.
