(* ===== verification/Authentication.v ===== *)
(** * Authentication policies

    [dubbod/discovery/pkg/model/authentication.go] and
    [sortConfigByCreationTime] of [config.go]: the policies of a snapshot and
    the mutual TLS mode in effect for a workload's port.  The policy messages
    of the API module are records with the fields the code reads; the digest
    of the aggregate version is a parameter. *)

From S2P Require Import Prelude GoStrings GoSort Hosts ApiTypes.

(** ** Configurations *)

(** [PeerAuthentication_MutualTLS_Mode]; an enum of the wire format may hold a
    number the API does not name. *)
Inductive tls_mode : Type := UNSET | DISABLE | PERMISSIVE | STRICT | OTHER_MODE (n : Z).

#[global] Instance tls_mode_eq_dec : EqDecision tls_mode.
Proof. solve_decision. Defined.

Record PeerAuthentication : Type := mkPeer {
  Selector : selector;
  Mtls : option tls_mode;
  PortLevelMtls : nmap Z (option tls_mode)
}.

(** The dynamic type of a configuration's spec.  It is a pointer: [None] is the
    nil pointer where the code tests for it. *)
Inductive Spec : Type :=
  | SpecPeer (p : PeerAuthentication)
  | SpecRequest (r : option RequestAuthentication)
  | SpecAuthz (a : option AuthorizationPolicy)
  | SpecHTTPRoute (r : HTTPRouteSpec)
  | SpecBackendTLS (b : option BackendTLSPolicySpec)
  | SpecFault (f : option FaultInjectionPolicy)
  | SpecOther (body : string).

(** [GetSelector] of a nil message is nil. *)
Definition request_selector (spec : Spec) : selector :=
  match spec with SpecRequest r => r ≫= ra_Selector | _ => None end.
Definition authz_selector (spec : Spec) : selector :=
  match spec with SpecAuthz a => a ≫= ap_Selector | _ => None end.

Module Config.
Record t : Type := mk {
  GroupVersionKind : string;
  Name : string;
  Namespace : string;
  Domain : string;
  CreationTimestamp : Time;
  UID : string;
  ResourceVersion : string;
  Spec : Spec
}.
End Config.
Notation Config := Config.t.

(** The [less] of [sortConfigByCreationTime].  [sort.Slice] may reorder
    configurations that tie; those have the same name and namespace, of which a
    store holds one per kind, so that a stable sort gives the same list. *)
Definition config_compare : Config -> Config -> comparison :=
  cmp_lex (cmp_on Config.CreationTimestamp Z.compare)
    (cmp_lex (cmp_on Config.Name String.compare) (cmp_on Config.Namespace String.compare)).

Definition sortConfigByCreationTime (configs : list Config) : list Config :=
  SortStableFunc config_compare configs.

(** ** Policies *)

Inductive MutualTLSMode : Type := MTLSUnknown | MTLSDisable | MTLSPermissive | MTLSStrict.

#[global] Instance MutualTLSMode_eq_dec : EqDecision MutualTLSMode.
Proof. solve_decision. Defined.

Definition ConvertToMutualTLSMode (mode : tls_mode) : MutualTLSMode :=
  match mode with
  | DISABLE => MTLSDisable
  | PERMISSIVE => MTLSPermissive
  | STRICT => MTLSStrict
  | _ => MTLSUnknown
  end.

Record AuthenticationPolicies : Type := mkPolicies {
  requestAuthentications : gmap string (list Config);
  authorizationPolicies : gmap string (list Config);
  peerAuthentications : gmap string (list Config);
  globalMutualTLSMode : MutualTLSMode;
  rootNamespace : string;
  namespaceMutualTLSMode : nmap string MutualTLSMode;
  aggregateVersion : string
}.

(** [m[ns] = append(m[ns], cfg)] *)
Definition append_to (m : gmap string (list Config)) (ns : string) (cfg : Config) : gmap string (list Config) :=
  <[ns := default [] (m !! ns) ++ [cfg]]> m.

Definition addRequestAuthentication (m : gmap string (list Config)) (configs : list Config) :=
  fold_left (fun m cfg => match Config.Spec cfg with
    | SpecRequest _ => append_to m (Config.Namespace cfg) cfg
    | _ => m end) configs m.

Definition addAuthorizationPolicy (m : gmap string (list Config)) (configs : list Config) :=
  fold_left (fun m cfg => match Config.Spec cfg with
    | SpecAuthz _ => append_to m (Config.Namespace cfg) cfg
    | _ => m end) configs m.

(** [len(selector.MatchLabels) == 0], nil included. *)
Definition selector_empty (s : selector) : bool :=
  match s with None => true | Some labels => (size (nmap_get labels) =? 0)%nat end.

Definition hasPeerAuthSelector (spec : PeerAuthentication) : bool := negb (selector_empty (Selector spec)).

(** A missing label reads as the empty string. *)
Definition selectorMatchesWorkload (s : selector) (workloadLabels : nmap string string) : bool :=
  if selector_empty s then true
  else if (size (nmap_get workloadLabels) =? 0)%nat then false
  else forallb (fun '(k, v) => String.eqb (default "" (nmap_get workloadLabels !! k)) v)
         (map_to_list (nmap_get (default None s))).

Definition peerAuthenticationModeForPort (spec : PeerAuthentication) (port : Z) : MutualTLSMode :=
  let fallback :=
    match Mtls spec with
    | Some m => if negb (bool_decide (m = UNSET)) then ConvertToMutualTLSMode m else MTLSUnknown
    | None => MTLSUnknown
    end in
  if negb (port =? 0) then
    match PortLevelMtls spec with
    | Some levels =>
        match levels !! port with
        | Some (Some m) => if negb (bool_decide (m = UNSET)) then ConvertToMutualTLSMode m else fallback
        | _ => fallback
        end
    | None => fallback
    end
  else fallback.

(** The state of the loop of [addPeerAuthentication]. *)
Record peer_state : Type := mkPeerState {
  ps_found : gmap string tls_mode;
  ps_seen : gmap string Time;
  ps_global : MutualTLSMode;
  ps_peers : gmap string (list Config)
}.

(** One configuration; a spec of another type fails the type assertion. *)
Definition add_peer (root : string) (st : peer_state) (cfg : Config) : res peer_state :=
  match Config.Spec cfg with
  | SpecPeer spec =>
      let ns := Config.Namespace cfg in
      let keep st := mkPeerState (ps_found st) (ps_seen st) (ps_global st)
                       (append_to (ps_peers st) ns cfg) in
      if selector_empty (Selector spec) then
        match ps_seen st !! ns with
        | Some _ => Ok st
        | None =>
            let seen := <[ns := Config.CreationTimestamp cfg]> (ps_seen st) in
            let mode := default UNSET (Mtls spec) in
            if String.eqb ns root then
              Ok (keep (mkPeerState (ps_found st) seen (ConvertToMutualTLSMode mode) (ps_peers st)))
            else Ok (keep (mkPeerState (<[ns := mode]> (ps_found st)) seen (ps_global st) (ps_peers st)))
        end
      else Ok (keep st)
  | _ => Panic "interface conversion"
  end.

Fixpoint add_peers (root : string) (st : peer_state) (configs : list Config) : res peer_state :=
  match configs with
  | [] => Ok st
  | cfg :: configs => st ← add_peer root st cfg; add_peers root st configs
  end.

(** The configurations are sorted again before the loop. *)
Definition addPeerAuthentication (policy : AuthenticationPolicies) (configs : list Config)
  : res AuthenticationPolicies :=
  let configs := sortConfigByCreationTime configs in
  st ← add_peers (rootNamespace policy)
         (mkPeerState ∅ ∅ (globalMutualTLSMode policy) (peerAuthentications policy)) configs;
  let inheritedMTLSMode := ps_global st in
  let byNamespace := (fun mode => if bool_decide (mode = UNSET) then inheritedMTLSMode
                                  else ConvertToMutualTLSMode mode) <$> ps_found st in
  Ok (mkPolicies (requestAuthentications policy) (authorizationPolicies policy) (ps_peers st)
        (ps_global st) (rootNamespace policy) (Some byNamespace) (aggregateVersion policy)).

Definition authPolicyAggregateVersion (md5hex : string -> string) (groups : list (list Config)) : string :=
  md5hex (str_join (map (fun cfg =>
    Config.GroupVersionKind cfg +:+ "." +:+ Config.Namespace cfg +:+ "." +:+ Config.Name cfg
      +:+ "." +:+ Config.UID cfg +:+ "." +:+ Config.ResourceVersion cfg) (concat groups)) ";").

(** The three lists come from the configuration store. *)
Definition initAuthenticationPolicies (md5hex : string -> string) (root : string)
    (requests authz peers : list Config) : res AuthenticationPolicies :=
  let requests := sortConfigByCreationTime requests in
  let authz := sortConfigByCreationTime authz in
  let peers := sortConfigByCreationTime peers in
  let policy := mkPolicies (addRequestAuthentication ∅ requests) (addAuthorizationPolicy ∅ authz)
                  ∅ MTLSUnknown root None "" in
  policy ← addPeerAuthentication policy peers;
  Ok (mkPolicies (requestAuthentications policy) (authorizationPolicies policy)
        (peerAuthentications policy) (globalMutualTLSMode policy) (rootNamespace policy)
        (namespaceMutualTLSMode policy) (authPolicyAggregateVersion md5hex [requests; authz; peers])).

(** A loop that returns the first mode that is known. *)
Fixpoint first_mode (f : PeerAuthentication -> MutualTLSMode) (select : PeerAuthentication -> bool)
    (configs : list Config) : MutualTLSMode :=
  match configs with
  | [] => MTLSUnknown
  | cfg :: configs =>
      match Config.Spec cfg with
      | SpecPeer spec =>
          if select spec then
            match f spec with MTLSUnknown => first_mode f select configs | mode => mode end
          else first_mode f select configs
      | _ => first_mode f select configs
      end
  end.

(** The namespace's list holds peer authentications only ([add_peer]), so the
    type assertions of the two loops succeed. *)
Definition matchingPeerAuthentication (policy : AuthenticationPolicies) (namespace : string)
    (workloadLabels : nmap string string) (port : Z) : MutualTLSMode :=
  let configs := default [] (peerAuthentications policy !! namespace) in
  if (length configs =? 0)%nat then MTLSUnknown else
  match first_mode (fun spec => peerAuthenticationModeForPort spec port)
          (fun spec => hasPeerAuthSelector spec && selectorMatchesWorkload (Selector spec) workloadLabels)
          configs with
  | MTLSUnknown =>
      first_mode (fun spec => peerAuthenticationModeForPort spec port)
        (fun spec => negb (hasPeerAuthSelector spec)) configs
  | mode => mode
  end.

Definition EffectiveMutualTLSMode (policy : option AuthenticationPolicies) (namespace : string)
    (workloadLabels : nmap string string) (port : Z) : MutualTLSMode :=
  match policy with
  | None => MTLSUnknown
  | Some policy =>
      let mesh :=
        let root := rootNamespace policy in
        match (if negb (String.eqb root "") then matchingPeerAuthentication policy root workloadLabels port
               else MTLSUnknown) with
        | MTLSUnknown =>
            if negb (bool_decide (globalMutualTLSMode policy = MTLSUnknown))
            then globalMutualTLSMode policy else MTLSUnknown
        | mode => mode
        end in
      if negb (String.eqb namespace "") then
        match matchingPeerAuthentication policy namespace workloadLabels port with
        | MTLSUnknown =>
            match nmap_get (namespaceMutualTLSMode policy) !! namespace with
            | None | Some MTLSUnknown => mesh
            | Some mode => mode
            end
        | mode => mode
        end
      else mesh
  end.

Definition matchingWorkloadSecurityConfigs (policy : AuthenticationPolicies)
    (configsByNamespace : gmap string (list Config)) (namespace : string)
    (workloadLabels : nmap string string) (sel : Spec -> selector) : list Config :=
  let matches := List.filter (fun cfg => selectorMatchesWorkload (sel (Config.Spec cfg)) workloadLabels) in
  let root := rootNamespace policy in
  (if negb (String.eqb namespace "") then matches (default [] (configsByNamespace !! namespace)) else [])
  ++ (if negb (String.eqb root "") && negb (String.eqb root namespace)
      then matches (default [] (configsByNamespace !! root)) else []).

Definition RequestAuthenticationsForWorkload (policy : option AuthenticationPolicies) (namespace : string)
    (workloadLabels : nmap string string) : list Config :=
  match policy with
  | None => []
  | Some policy => matchingWorkloadSecurityConfigs policy (requestAuthentications policy) namespace
      workloadLabels request_selector
  end.

Definition AuthorizationPoliciesForWorkload (policy : option AuthenticationPolicies) (namespace : string)
    (workloadLabels : nmap string string) : list Config :=
  match policy with
  | None => []
  | Some policy => matchingWorkloadSecurityConfigs policy (authorizationPolicies policy) namespace
      workloadLabels authz_selector
  end.

(** ** Lemmas *)

Definition peer_of (cfg : Config) : option PeerAuthentication :=
  match Config.Spec cfg with SpecPeer p => Some p | _ => None end.

Definition specs_of (configs : list Config) : list PeerAuthentication := omap peer_of configs.

(** A policy for the whole namespace. *)
Definition is_wide (ns : string) (cfg : Config) : bool :=
  String.eqb (Config.Namespace cfg) ns &&
  match peer_of cfg with Some p => selector_empty (Selector p) | None => false end.

(** A policy for some workloads of the namespace. *)
Definition is_workload (ns : string) (cfg : Config) : bool :=
  String.eqb (Config.Namespace cfg) ns &&
  match peer_of cfg with Some p => hasPeerAuthSelector p | None => false end.

(** The first policy for the whole namespace. *)
Definition wide_policy (l : list Config) (ns : string) : option PeerAuthentication :=
  List.find (is_wide ns) l ≫= peer_of.

Definition workload_policies (l : list Config) (ns : string) : list PeerAuthentication :=
  specs_of (List.filter (is_workload ns) l).

Definition wide_mode (l : list Config) (ns : string) : tls_mode :=
  default UNSET (wide_policy l ns ≫= Mtls).

Fixpoint first_known (modes : list MutualTLSMode) : MutualTLSMode :=
  match modes with
  | [] => MTLSUnknown
  | MTLSUnknown :: modes => first_known modes
  | mode :: _ => mode
  end.

Lemma first_known_app a b :
  first_known (a ++ b) = match first_known a with MTLSUnknown => first_known b | mode => mode end.
Proof. induction a as [|[] a IH]; simpl; auto. Qed.

Lemma first_mode_eq f select configs :
  first_mode f select configs = first_known (map f (List.filter select (specs_of configs))).
Proof.
  induction configs as [|cfg configs IH]; simpl; [done|]. unfold specs_of in *. simpl.
  unfold peer_of at 1. destruct (Config.Spec cfg) as [p| | | | | |]; try done.
  simpl. destruct (select p); [|done]. simpl. rewrite IH. by destruct (f p).
Qed.

Lemma specs_of_app a b : specs_of (a ++ b) = specs_of a ++ specs_of b.
Proof. apply omap_app. Qed.

(** What the loop has established after the configurations of [l]. *)
Record peers_done (root : string) (l : list Config) (st : peer_state) : Prop := {
  done_seen : forall ns, ps_seen st !! ns = None <-> List.find (is_wide ns) l = None;
  done_found : forall ns, ps_found st !! ns =
    if decide (ns = root) then None else
    (fun c => default UNSET (peer_of c ≫= Mtls)) <$> List.find (is_wide ns) l;
  done_global : ps_global st = ConvertToMutualTLSMode (wide_mode l root);
  done_workload : forall ns,
    List.filter hasPeerAuthSelector (specs_of (default [] (ps_peers st !! ns))) = workload_policies l ns;
  done_wide : forall ns,
    List.filter (fun p => negb (hasPeerAuthSelector p)) (specs_of (default [] (ps_peers st !! ns)))
    = match wide_policy l ns with Some p => [p] | None => [] end
}.

Lemma add_peers_snoc root st l cfg :
  add_peers root st (l ++ [cfg]) = st' ← add_peers root st l; add_peer root st' cfg.
Proof.
  revert st; induction l as [|c l IH]; intros st; simpl.
  { by destruct (add_peer root st cfg). }
  destruct (add_peer root st c); simpl; [apply IH|done|done].
Qed.

(** Appending a configuration to the list of its namespace. *)
Lemma append_to_specs m ns cfg ns' (sel : PeerAuthentication -> bool) :
  List.filter sel (specs_of (default [] (append_to m ns cfg !! ns'))) =
  List.filter sel (specs_of (default [] (m !! ns'))) ++
  (if String.eqb ns ns' then List.filter sel (specs_of [cfg]) else []).
Proof.
  unfold append_to. rewrite lookup_insert. destruct (String.eqb_spec ns ns') as [->|Hne].
  - rewrite decide_True by done. simpl default. by rewrite specs_of_app, List.filter_app.
  - rewrite decide_False by done. by rewrite app_nil_r.
Qed.

Lemma workload_policies_snoc l cfg ns :
  workload_policies (l ++ [cfg]) ns =
  workload_policies l ns ++ (if is_workload ns cfg then specs_of [cfg] else []).
Proof.
  unfold workload_policies. rewrite List.filter_app, specs_of_app. simpl. by destruct (is_workload ns cfg).
Qed.

Lemma wide_policy_snoc l cfg ns :
  wide_policy (l ++ [cfg]) ns =
  match List.find (is_wide ns) l with
  | Some c => peer_of c
  | None => if is_wide ns cfg then peer_of cfg else None
  end.
Proof.
  unfold wide_policy. rewrite find_app. destruct (List.find (is_wide ns) l); simpl; [done|].
  by destruct (is_wide ns cfg).
Qed.

Section add_peer_step.
Context (root : string) (l : list Config) (st : peer_state) (cfg : Config) (p : PeerAuthentication).
Hypothesis Hdone : peers_done root l st.
Hypothesis Hp : peer_of cfg = Some p.

Lemma is_wide_eq ns : is_wide ns cfg = String.eqb (Config.Namespace cfg) ns && selector_empty (Selector p).
Proof. unfold is_wide. by rewrite Hp. Qed.

Lemma is_workload_eq ns :
  is_workload ns cfg = String.eqb (Config.Namespace cfg) ns && negb (selector_empty (Selector p)).
Proof. unfold is_workload. by rewrite Hp. Qed.

Lemma specs_single : specs_of [cfg] = [p].
Proof. unfold specs_of; simpl. by rewrite Hp. Qed.

(** A policy that does not become the one of its whole namespace leaves that
    part of the state alone. *)
Lemma wide_same :
  (forall ns, is_wide ns cfg = true -> List.find (is_wide ns) l <> None) ->
  forall ns, List.find (is_wide ns) (l ++ [cfg]) = List.find (is_wide ns) l.
Proof.
  intros Hw ns. rewrite find_app. destruct (List.find (is_wide ns) l) eqn:E; [done|]. simpl.
  destruct (is_wide ns cfg) eqn:Ew; [|done]. by destruct (Hw ns Ew).
Qed.

Lemma add_workload :
  selector_empty (Selector p) = false ->
  peers_done root (l ++ [cfg])
    (mkPeerState (ps_found st) (ps_seen st) (ps_global st) (append_to (ps_peers st) (Config.Namespace cfg) cfg)).
Proof.
  intros He. destruct Hdone as [Hs Hf Hg Hwl Hwd].
  assert (Hsame : forall ns, List.find (is_wide ns) (l ++ [cfg]) = List.find (is_wide ns) l).
  { apply wide_same. intros ns. by rewrite is_wide_eq, He, andb_false_r. }
  split; cbn [ps_seen ps_found ps_global ps_peers].
  - intros ns. by rewrite Hsame.
  - intros ns. by rewrite Hsame.
  - unfold wide_mode, wide_policy. by rewrite Hsame.
  - intros ns. rewrite append_to_specs, workload_policies_snoc, Hwl, is_workload_eq, He, specs_single.
    simpl. unfold hasPeerAuthSelector. rewrite He. by destruct (String.eqb _ ns).
  - intros ns. rewrite append_to_specs, Hwd, specs_single. unfold wide_policy. rewrite Hsame.
    simpl. unfold hasPeerAuthSelector. rewrite He. simpl.
    by destruct (String.eqb _ ns); rewrite app_nil_r.
Qed.

Lemma add_ignored_wide t :
  selector_empty (Selector p) = true -> ps_seen st !! Config.Namespace cfg = Some t ->
  peers_done root (l ++ [cfg]) st.
Proof.
  intros He Ht. destruct Hdone as [Hs Hf Hg Hwl Hwd].
  assert (Hsame : forall ns, List.find (is_wide ns) (l ++ [cfg]) = List.find (is_wide ns) l).
  { apply wide_same. intros ns. rewrite is_wide_eq, He, andb_true_r. intros <-%String.eqb_eq.
    rewrite <- Hs. congruence. }
  split.
  - intros ns. by rewrite Hsame.
  - intros ns. by rewrite Hsame.
  - unfold wide_mode, wide_policy. by rewrite Hsame.
  - intros ns. rewrite workload_policies_snoc, is_workload_eq, He, andb_false_r, app_nil_r. apply Hwl.
  - intros ns. rewrite Hwd. unfold wide_policy. by rewrite Hsame.
Qed.

Lemma add_first_wide found global :
  selector_empty (Selector p) = true -> ps_seen st !! Config.Namespace cfg = None ->
  found = (if String.eqb (Config.Namespace cfg) root then ps_found st
           else <[Config.Namespace cfg := default UNSET (Mtls p)]> (ps_found st)) ->
  global = (if String.eqb (Config.Namespace cfg) root
            then ConvertToMutualTLSMode (default UNSET (Mtls p)) else ps_global st) ->
  peers_done root (l ++ [cfg])
    (mkPeerState found (<[Config.Namespace cfg := Config.CreationTimestamp cfg]> (ps_seen st)) global
       (append_to (ps_peers st) (Config.Namespace cfg) cfg)).
Proof.
  intros He Hn -> ->. destruct Hdone as [Hs Hf Hg Hwl Hwd].
  apply Hs in Hn as Hnone.
  assert (Hfind : forall ns, List.find (is_wide ns) (l ++ [cfg]) =
    if String.eqb (Config.Namespace cfg) ns then Some cfg else List.find (is_wide ns) l).
  { intros ns. rewrite find_app. simpl. rewrite is_wide_eq, He, andb_true_r.
    destruct (String.eqb_spec (Config.Namespace cfg) ns) as [<-|]; [by rewrite Hnone|].
    by destruct (List.find (is_wide ns) l). }
  split; cbn [ps_seen ps_found ps_global ps_peers].
  - intros ns. rewrite Hfind, lookup_insert.
    destruct (String.eqb_spec (Config.Namespace cfg) ns); [by rewrite decide_True|].
    rewrite decide_False by done. apply Hs.
  - intros ns. rewrite Hfind. destruct (String.eqb_spec (Config.Namespace cfg) root) as [Er|Er].
    + rewrite Hf. destruct (decide (ns = root)); [done|].
      destruct (String.eqb_spec (Config.Namespace cfg) ns); [congruence|done].
    + rewrite lookup_insert, Hf.
      destruct (String.eqb_spec (Config.Namespace cfg) ns) as [<-|].
      * rewrite decide_True by done. rewrite decide_False by done. simpl. by rewrite Hp.
      * by rewrite decide_False by done.
  - unfold wide_mode, wide_policy. rewrite Hfind.
    destruct (String.eqb (Config.Namespace cfg) root); [simpl; by rewrite Hp|]. exact Hg.
  - intros ns. rewrite append_to_specs, workload_policies_snoc, Hwl, is_workload_eq, He, andb_false_r,
      specs_single, app_nil_r. simpl. unfold hasPeerAuthSelector. rewrite He. simpl.
    by destruct (String.eqb _ ns); rewrite app_nil_r.
  - intros ns. rewrite append_to_specs, Hwd, specs_single. unfold wide_policy. rewrite Hfind.
    simpl. unfold hasPeerAuthSelector. rewrite He. simpl.
    destruct (String.eqb_spec (Config.Namespace cfg) ns) as [<-|]; [|by rewrite app_nil_r].
    rewrite Hnone. simpl. by rewrite Hp.
Qed.

Lemma add_peer_done :
  exists st', add_peer root st cfg = Ok st' /\ peers_done root (l ++ [cfg]) st'.
Proof.
  unfold add_peer. assert (Config.Spec cfg = SpecPeer p) as ->.
  { unfold peer_of in Hp. by destruct (Config.Spec cfg); simplify_eq. }
  destruct (selector_empty (Selector p)) eqn:He; [|eexists; split; [done|by apply add_workload]].
  destruct (ps_seen st !! Config.Namespace cfg) as [t|] eqn:Ht;
    [eexists; split; [done|by eapply add_ignored_wide]|].
  destruct (String.eqb (Config.Namespace cfg) root) eqn:Er; eexists; (split; [done|]);
    cbn [ps_found ps_seen ps_global ps_peers]; apply add_first_wide; by rewrite ?Er.
Qed.

End add_peer_step.

(** All configurations are peer authentications. *)
Definition all_peers (l : list Config) : bool :=
  forallb (fun cfg => match peer_of cfg with Some _ => true | None => false end) l.

Lemma all_peers_perm l k : l ≡ₚ k -> all_peers l = all_peers k.
Proof. apply forallb_perm. Qed.

Lemma add_peers_done root l :
  all_peers l = true ->
  exists st, add_peers root (mkPeerState ∅ ∅ MTLSUnknown ∅) l = Ok st /\ peers_done root l st.
Proof.
  induction l as [|cfg l IH] using rev_ind; intros Hall.
  { eexists. split; [done|]. split; simpl; try done. intros ns. by case_decide. }
  unfold all_peers in Hall. rewrite forallb_app in Hall. apply andb_true_iff in Hall as [Hl Hc].
  simpl in Hc. destruct (peer_of cfg) as [p|] eqn:Hp; [|done].
  destruct (IH Hl) as (st & Hst & Hd). rewrite add_peers_snoc, Hst. simpl.
  by apply (add_peer_done root l st cfg p).
Qed.

Lemma filter_filter {A} (f g : A -> bool) (l : list A) :
  List.filter f (List.filter g l) = List.filter (fun x => g x && f x) l.
Proof.
  induction l as [|x l IH]; simpl; [done|]. destruct (g x); simpl; [|done]. by rewrite IH.
Qed.

(** The policies that apply to a workload through a namespace: those selecting
    it, then the one for the whole namespace. *)
Definition namespace_modes (l : list Config) (ns : string) (labels : nmap string string) (port : Z)
  : list MutualTLSMode :=
  map (fun p => peerAuthenticationModeForPort p port)
    (List.filter (fun p => selectorMatchesWorkload (Selector p) labels) (workload_policies l ns)
     ++ match wide_policy l ns with Some p => [p] | None => [] end).

Lemma matching_eq root l st policy ns labels port :
  peers_done root l st -> peerAuthentications policy = ps_peers st ->
  matchingPeerAuthentication policy ns labels port = first_known (namespace_modes l ns labels port).
Proof.
  intros [Hs Hf Hg Hwl Hwd] Hpp. unfold matchingPeerAuthentication, namespace_modes. rewrite Hpp.
  rewrite !first_mode_eq, <- filter_filter, Hwl, Hwd.
  assert (E : default [] (ps_peers st !! ns) = [] ->
    workload_policies l ns = [] /\ wide_policy l ns = None).
  { intros E. specialize (Hwl ns). specialize (Hwd ns). rewrite E in Hwl, Hwd. simpl in Hwl, Hwd.
    split; [done|]. by destruct (wide_policy l ns). }
  rewrite map_app, first_known_app.
  destruct (default [] (ps_peers st !! ns)); simpl; [|done].
  destruct E as [-> ->]; done.
Qed.

(** ** Properties *)

(** The mutual TLS mode of a workload's port, from the peer
    authentication policies alone (sorted by creation time, name, namespace):
    the first mode that is known among those of the policies selecting the
    workload in its namespace, the oldest policy of its whole namespace, the
    mode its namespace declares or inherits, then the same two for the root
    namespace, then the mesh mode. *)
Theorem effective_mtls_mode md5hex root requests authz peers ns labels port :
  all_peers peers = true ->
  let l := sortConfigByCreationTime peers in
  let global := ConvertToMutualTLSMode (wide_mode l root) in
  let declared :=
    if decide (ns = root) then MTLSUnknown
    else match wide_policy l ns with
         | None => MTLSUnknown
         | Some _ => if decide (wide_mode l ns = UNSET) then global
                     else ConvertToMutualTLSMode (wide_mode l ns)
         end in
  exists policy,
    initAuthenticationPolicies md5hex root requests authz peers = Ok policy /\
    EffectiveMutualTLSMode (Some policy) ns labels port =
    first_known (
      (if String.eqb ns "" then [] else namespace_modes l ns labels port ++ [declared]) ++
      (if String.eqb root "" then [] else namespace_modes l root labels port) ++ [global]).
Proof.
  intros Hall l global declared.
  assert (Hal : all_peers l = true) by (rewrite <- Hall; apply all_peers_perm, Sort_perm).
  unfold initAuthenticationPolicies, addPeerAuthentication. cbn [rootNamespace globalMutualTLSMode
    peerAuthentications requestAuthentications authorizationPolicies].
  assert (sortConfigByCreationTime (sortConfigByCreationTime peers) = l) as -> by apply Sort_idemp, _.
  destruct (add_peers_done root l Hal) as (st & -> & Hd). cbn [mbind res_bind].
  eexists. split; [done|]. unfold EffectiveMutualTLSMode.
  cbn [rootNamespace globalMutualTLSMode namespaceMutualTLSMode nmap_get default].
  rewrite !(matching_eq root l st _ _ labels port Hd) by done.
  rewrite !first_known_app. destruct Hd as [Hs Hf Hg Hwl Hwd]. rewrite Hg. fold global.
  assert (Hmesh : match (if negb (String.eqb root "") then first_known (namespace_modes l root labels port)
                         else MTLSUnknown) with
      | MTLSUnknown => if negb (bool_decide (global = MTLSUnknown)) then global else MTLSUnknown
      | mode => mode end
    = match first_known (if String.eqb root "" then [] else namespace_modes l root labels port) with
      | MTLSUnknown => first_known [global] | mode => mode end).
  { destruct (String.eqb root ""); simpl; [by destruct global|].
    destruct (first_known _); try done. by destruct global. }
  cbn [peerAuthentications]. rewrite Hmesh. destruct (String.eqb ns ""); simpl; [done|].
  rewrite first_known_app. simpl. destruct (first_known (namespace_modes l ns labels port)); try done.
  unfold nmap_get. simpl. rewrite lookup_fmap, Hf. unfold declared, wide_mode, wide_policy.
  destruct (decide (ns = root)); [done|].
  destruct (List.find (is_wide ns) l) as [c|] eqn:Ec; [|done].
  apply List.find_some in Ec as [_ Ew]. unfold is_wide in Ew. breflect. simpl.
  destruct (peer_of c) as [pc|]; [|done]. simpl.
  destruct (decide (default UNSET (Mtls pc) = UNSET)) as [E|E].
  - rewrite bool_decide_eq_true_2 by done. by destruct global.
  - rewrite bool_decide_eq_false_2 by done. by destruct (ConvertToMutualTLSMode (default UNSET (Mtls pc))).
Qed.

(** *** The mode without labels

    The generators ask for the mode with no workload labels. *)

(** A policy that selects workloads selects none without labels. *)
Lemma selected_without_labels l ns :
  List.filter (fun p => selectorMatchesWorkload (Selector p) None) (workload_policies l ns) = [].
Proof.
  unfold workload_policies. induction l as [|cfg l IH]; simpl; [done|].
  destruct (is_workload ns cfg) eqn:E; simpl; [|done]. unfold specs_of in *. simpl.
  unfold is_workload in E. destruct (peer_of cfg) as [p|]; simpl; [|done].
  unfold selectorMatchesWorkload, hasPeerAuthSelector in *. breflect.
  destruct (selector_empty (Selector p)); done.
Qed.

(** The resource definition admits port-level modes only beside a selector. *)
Definition ports_need_selector (l : list Config) : Prop :=
  forall cfg p, cfg ∈ l -> peer_of cfg = Some p -> selector_empty (Selector p) = true -> PortLevelMtls p = None.

(** The mode of the policies without a selector: that of the oldest policy of the
    namespace if it names one, and otherwise that of the oldest policy of the
    root namespace. *)
Definition unselected_mode (l : list Config) (root ns : string) : MutualTLSMode :=
  let mesh := ConvertToMutualTLSMode (wide_mode l root) in
  if String.eqb ns "" then mesh
  else match ConvertToMutualTLSMode (wide_mode l ns) with MTLSUnknown => mesh | mode => mode end.

Lemma wide_policy_elem l ns p :
  wide_policy l ns = Some p -> exists cfg, cfg ∈ l /\ peer_of cfg = Some p /\ selector_empty (Selector p) = true.
Proof.
  unfold wide_policy. destruct (List.find (is_wide ns) l) as [cfg|] eqn:E; [|done]. simpl. intros Hp.
  apply List.find_some in E as [Hin Hw]. exists cfg. rewrite list_elem_of_In. split; [done|]. split; [done|].
  unfold is_wide in Hw. rewrite Hp in Hw. by breflect.
Qed.

Lemma namespace_modes_without_labels l ns port :
  ports_need_selector l ->
  first_known (namespace_modes l ns None port) = ConvertToMutualTLSMode (wide_mode l ns).
Proof.
  intros Hl. unfold namespace_modes, wide_mode. rewrite selected_without_labels. simpl.
  destruct (wide_policy l ns) as [p|] eqn:E; [|done]. simpl.
  destruct (wide_policy_elem l ns p E) as (cfg & Hin & Hp & Hs).
  unfold peerAuthenticationModeForPort. rewrite (Hl cfg p Hin Hp Hs).
  destruct (Mtls p) as [m|]; simpl; [|by destruct (port =? 0)]. by destruct m, (port =? 0).
Qed.

(** The policies were read from these peer authentications. *)
Definition policies_from (policy : option AuthenticationPolicies) (root : string) (peers : list Config) : Prop :=
  exists md5hex requests authz p,
    policy = Some p /\ initAuthenticationPolicies md5hex root requests authz peers = Ok p.

Lemma add_peers_all root l st st' : add_peers root st l = Ok st' -> all_peers l = true.
Proof.
  revert st. induction l as [|cfg l IH]; intros st; simpl; [done|].
  intros (st1 & H1 & H2)%res_bind_ok. apply andb_true_iff. split; [|by eapply IH].
  unfold add_peer in H1. unfold peer_of. by destruct (Config.Spec cfg).
Qed.

Lemma policies_all_peers policy root peers : policies_from policy root peers -> all_peers peers = true.
Proof.
  intros (md5hex & requests & authz & p & _ & Hi). unfold initAuthenticationPolicies in Hi.
  apply res_bind_ok in Hi as (p1 & Hi & _). unfold addPeerAuthentication in Hi.
  apply res_bind_ok in Hi as (st & Hi & _). apply add_peers_all in Hi.
  rewrite <- Hi. apply all_peers_perm. unfold sortConfigByCreationTime. by rewrite !Sort_perm.
Qed.

Lemma ports_need_selector_sorted l : ports_need_selector l -> ports_need_selector (sortConfigByCreationTime l).
Proof. intros Hl cfg p Hin. apply Hl. revert Hin. unfold sortConfigByCreationTime. by rewrite Sort_perm. Qed.

(** Without labels the mode in effect is that of the policies without a selector. *)
Lemma mode_without_labels policy root peers ns port :
  policies_from policy root peers -> ports_need_selector peers ->
  EffectiveMutualTLSMode policy ns None port = unselected_mode (sortConfigByCreationTime peers) root ns.
Proof.
  intros Hf Hl. pose proof (policies_all_peers _ _ _ Hf) as Hall. apply ports_need_selector_sorted in Hl.
  destruct Hf as (md5hex & requests & authz & p & -> & Hi).
  destruct (effective_mtls_mode md5hex root requests authz peers ns None port Hall) as (p' & Hi' & He).
  assert (p' = p) as -> by congruence. rewrite He. clear He.
  set (l := sortConfigByCreationTime peers) in *. unfold unselected_mode.
  rewrite !first_known_app.
  assert (Hroot : first_known (if String.eqb root "" then [] else namespace_modes l root None port)
    = MTLSUnknown \/ first_known (if String.eqb root "" then [] else namespace_modes l root None port)
    = ConvertToMutualTLSMode (wide_mode l root)).
  { destruct (String.eqb root ""); [by left|right; by apply namespace_modes_without_labels]. }
  destruct (String.eqb ns ""); simpl.
  { by destruct Hroot as [-> | ->]; destruct (ConvertToMutualTLSMode (wide_mode l root)). }
  rewrite first_known_app, namespace_modes_without_labels by done.
  destruct (ConvertToMutualTLSMode (wide_mode l ns)) eqn:En; try done. simpl.
  destruct (decide (ns = root)) as [->|_]; [|destruct (wide_policy l ns); [case_decide|]];
    try rewrite En; destruct Hroot as [-> | ->]; by destruct (ConvertToMutualTLSMode (wide_mode l root)).
Qed.

(** Among the policies for a whole namespace the oldest one decides:
    the one chosen is at most every other in the order of creation time, name
    and namespace. *)
Lemma oldest_wide_policy_wins peers ns c :
  List.find (is_wide ns) (sortConfigByCreationTime peers) = Some c ->
  c ∈ peers /\ is_wide ns c = true /\
  forall c', c' ∈ peers -> is_wide ns c' = true -> cmp_leb config_compare c c' = true.
Proof. apply Sort_find_least, _. Qed.

(** *** Witness *)

Definition sample_policy (name ns : string) (t : Time) (sel : selector) (m : tls_mode) : Config :=
  Config.mk "PeerAuthentication" name ns "" t "" "" (SpecPeer (mkPeer sel (Some m) None)).

Definition sample_policies : list Config :=
  [sample_policy "late" "app" 3 None DISABLE; sample_policy "mesh" "root" 1 None PERMISSIVE;
   sample_policy "early" "app" 2 None STRICT].

Lemma effective_mtls_mode_witness :
  exists policy,
    initAuthenticationPolicies (fun s => s) "root" [] [] sample_policies = Ok policy /\
    EffectiveMutualTLSMode (Some policy) "app" None 8080 = MTLSStrict.
Proof.
  destruct (effective_mtls_mode (fun s => s) "root" [] [] sample_policies "app" None 8080 eq_refl)
    as (policy & H1 & H2). exists policy. split; [exact H1|]. rewrite H2. vm_compute. reflexivity.
Defined.

(** A policy that selects a workload decides for the workload's labels, and is
    not consulted without labels. *)
Example selecting_policy_needs_labels :
  let labels : nmap string string := Some {["app" := "web"]} in
  let peers := [sample_policy "namespace" "app" 1 None PERMISSIVE; sample_policy "web" "app" 2 (Some labels) STRICT] in
  let policy := from_ok (mkPolicies ∅ ∅ ∅ MTLSUnknown "" None "")
                  (initAuthenticationPolicies (fun s => s) "root" [] [] peers) in
  EffectiveMutualTLSMode (Some policy) "app" labels 8080 = MTLSStrict /\
  EffectiveMutualTLSMode (Some policy) "app" None 8080 = MTLSPermissive.
Proof. vm_compute. done. Qed.
