(* ===== verification/PolicyIndex.v ===== *)
(** * Routes and policies of a configuration snapshot

    The indexes of HTTP routes, backend TLS policies and fault injection
    policies in [dubbod/discovery/pkg/model/config_snapshot.go], and
    [ResolveShortnameToFQDN] of [config.go]. *)

From S2P Require Import Prelude GoStrings GoSets GoSort Hosts GoNet ApiTypes Authentication ServiceIndex.

(** The library functions the generators and indexes call: the address parser of
    [net/netip], the conversions of [durationpb] and [time.ParseDuration]
    ([None] for an error). *)
Class Libraries : Type := {
  IsValidIPAddress : string -> bool;
  CheckValid : Duration -> bool;
  AsDuration : Duration -> Z;
  durationpb_New : Z -> Duration;
  ParseDuration : string -> option Z
}.

(** ** HTTP routes *)
Section routes.
Context `{Libraries}.

Definition ResolveShortnameToFQDN (hostname namespace domain : string) : host.Name :=
  if (String.length hostname =? 0)%nat then ""
  else if String.eqb hostname "*" then hostname
  else if IsValidIPAddress hostname then hostname
  else if negb (str_contains hostname ".") then
    let out := if negb (String.eqb namespace "") then hostname +:+ "." +:+ namespace else hostname in
    if negb (String.eqb domain "") then out +:+ ".svc." +:+ domain else out
  else hostname.

(** The keys a route is indexed under, one per host name it lists. *)
Definition route_hosts (hr : Config) (spec : HTTPRouteSpec) : list host.Name :=
  if (length (hr_Hostnames spec) =? 0)%nat then ["*"]
  else map (fun hostname =>
         if String.eqb hostname "" then "*"
         else ResolveShortnameToFQDN hostname (Config.Namespace hr) (Config.Domain hr))
       (hr_Hostnames spec).

Definition route_entries (hr : Config) : list (host.Name * Config) :=
  match Config.Spec hr with
  | SpecHTTPRoute spec => map (fun h => (h, hr)) (route_hosts hr spec)
  | _ => []
  end.

Definition initHTTPRoutes (httproutes : list Config) : gmap host.Name (list Config) :=
  group_by fst snd (concat (map route_entries httproutes)) ∅.

(** The test of a pattern ["*.example.com"]: the suffix it compares is the text
    after ["*."]. *)
Definition wildcard_matches (pattern : host.Name) (hostStr : string) : bool :=
  negb (String.eqb pattern "*") && HasPrefix pattern "*." && host.HasSuffix hostStr (str_drop 2 pattern).

Definition HTTPRouteForHost `{RangeOrder} (hostToRoutes : gmap host.Name (list Config))
    (hostname : host.Name) : list Config :=
  if String.eqb hostname "*" then concat (map snd (range hostToRoutes))
  else
    default [] (hostToRoutes !! hostname)
    ++ concat (map (fun '(pattern, routes) => if wildcard_matches pattern hostname then routes else [])
                 (range hostToRoutes))
    ++ default [] (hostToRoutes !! "*").

End routes.

(** ** Policies attached to services: the first entry of a key stays *)

Definition insert_absent {V} (m : gmap string V) (e : string * V) : gmap string V :=
  match m !! fst e with Some _ => m | None => <[fst e := snd e]> m end.

Definition index_first {V} (l : list (string * V)) : gmap string V := fold_left insert_absent l ∅.

(** *** Backend TLS *)

Record BackendTLSSettings : Type := mkBackendTLSSettings { SNI : string }.

Definition supportsSystemBackendTLS (spec : option BackendTLSPolicySpec) : bool :=
  match spec with
  | None => false
  | Some spec =>
      if String.eqb (bt_Hostname spec) "" then false
      else match bt_WellKnownCACertificates spec with
           | Some wellKnown => String.eqb wellKnown WellKnownCACertificatesSystem
           | None => false
           end
  end.

Definition isBackendTLSPolicyServiceTarget (target : PolicyTarget) : bool :=
  match pt_SectionName target with
  | Some _ => false
  | None =>
      let group := TrimSpace (pt_Group target) in
      let kind := TrimSpace (pt_Kind target) in
      (String.eqb group "" || String.eqb group "core") && EqualFold kind "Service"
  end.

Definition backendTLSPolicyServiceKey (namespace name : string) : string := namespace +:+ "/" +:+ name.

Definition backend_tls_entries (cfg : Config) : list (string * BackendTLSSettings) :=
  match Config.Spec cfg with
  | SpecBackendTLS (Some spec) =>
      if supportsSystemBackendTLS (Some spec) then
        map (fun target => (backendTLSPolicyServiceKey (Config.Namespace cfg) (pt_Name target),
                            mkBackendTLSSettings (bt_Hostname spec)))
          (List.filter isBackendTLSPolicyServiceTarget (bt_TargetRefs spec))
      else []
  | _ => []
  end.

Definition initBackendTLSPolicies (policies : list Config) : gmap string BackendTLSSettings :=
  index_first (concat (map backend_tls_entries (sortConfigByCreationTime policies))).

(** [None] stands for the zero settings with [false]. *)
Definition BackendTLSForService (serviceTLS : nmap string BackendTLSSettings) (namespace name : string)
  : option BackendTLSSettings :=
  nmap_get serviceTLS !! backendTLSPolicyServiceKey namespace name.

(** *** Fault injection *)

Record FaultInjectionSettings : Type := mkFaultSettings {
  fs_Delay : Z; fs_DelayPercentage : Z; fs_AbortStatus : Z; fs_AbortPercentage : Z }.

Definition faultPercentage (value : option Z) : Z := default 100 value.

Definition isFaultInjectionServiceTarget (target : option FaultTarget) : bool :=
  match target with
  | None => false
  | Some target =>
      if String.eqb (ft_Name target) "" then false
      else let group := TrimSpace (ft_Group target) in
           (String.eqb group "" || String.eqb group "core") && String.eqb (ft_Kind target) "Service"
  end.

Definition faultInjectionServiceKey (namespace name section : string) : string :=
  namespace +:+ "/" +:+ name +:+ "#" +:+ section.

Section faults.
Context `{Libraries}.

Definition fault_delay (spec : FaultInjectionPolicy) : Z * Z :=
  match fi_Delay spec with
  | Some delay =>
      match fd_FixedDelay delay with
      | Some value =>
          if CheckValid value && (0 <? AsDuration value)
          then (AsDuration value, faultPercentage (fd_Percentage delay)) else (0, 0)
      | None => (0, 0)
      end
  | None => (0, 0)
  end.

Definition fault_abort (spec : FaultInjectionPolicy) : Z * Z :=
  match fi_Abort spec with
  | Some abort =>
      if (400 <=? fa_HttpStatus abort) && (fa_HttpStatus abort <=? 599)
      then (fa_HttpStatus abort, faultPercentage (fa_Percentage abort)) else (0, 0)
  | None => (0, 0)
  end.

Definition fault_settings (spec : FaultInjectionPolicy) : FaultInjectionSettings :=
  mkFaultSettings (fst (fault_delay spec)) (snd (fault_delay spec))
    (fst (fault_abort spec)) (snd (fault_abort spec)).

(** The name and the section a target selects. *)
Definition target_name (target : option FaultTarget) : string * string :=
  match target with Some t => (ft_Name t, ft_SectionName t) | None => ("", "") end.

Definition fault_entries (cfg : Config) : list (string * FaultInjectionSettings) :=
  match Config.Spec cfg with
  | SpecFault (Some spec) =>
      let settings := fault_settings spec in
      if (fs_Delay settings =? 0) && (fs_AbortStatus settings =? 0) then []
      else map (fun target =>
             (faultInjectionServiceKey (Config.Namespace cfg) (fst (target_name target))
                (snd (target_name target)), settings))
           (List.filter isFaultInjectionServiceTarget (fi_TargetRefs spec))
  | _ => []
  end.

Definition initFaultInjectionPolicies (policies : list Config) : gmap string FaultInjectionSettings :=
  index_first (concat (map fault_entries (sortConfigByCreationTime policies))).

End faults.

Definition FaultInjectionForService (serviceFaults : nmap string FaultInjectionSettings)
    (namespace name portName : string) : option FaultInjectionSettings :=
  let whole := nmap_get serviceFaults !! faultInjectionServiceKey namespace name "" in
  if negb (String.eqb portName "") then
    match nmap_get serviceFaults !! faultInjectionServiceKey namespace name portName with
    | Some settings => Some settings
    | None => whole
    end
  else whole.

(** ** Lemmas *)

Lemma index_first_gen {V} (l : list (string * V)) m k :
  fold_left insert_absent l m !! k
  = match m !! k with
    | Some v => Some v
    | None => snd <$> List.find (fun e => String.eqb (fst e) k) l
    end.
Proof.
  revert m; induction l as [|[k' v] l IH]; intros m; simpl; [by destruct (m !! k)|].
  rewrite IH. unfold insert_absent. simpl.
  destruct (String.eqb_spec k' k) as [->|Hne].
  - destruct (m !! k) eqn:E; [by rewrite E|]. by rewrite lookup_insert_eq.
  - destruct (m !! k') eqn:E; [done|]. by rewrite lookup_insert_ne.
Qed.

Lemma index_first_lookup {V} (l : list (string * V)) k :
  index_first l !! k = snd <$> List.find (fun e => String.eqb (fst e) k) l.
Proof. unfold index_first. by rewrite index_first_gen, lookup_empty. Qed.

Lemma find_concat {A B} (p : B -> bool) (f : A -> list B) l :
  List.find p (concat (map f l))
  = match List.find (fun x => existsb p (f x)) l with Some x => List.find p (f x) | None => None end.
Proof.
  induction l as [|x l IH]; simpl; [done|]. rewrite find_app.
  destruct (existsb p (f x)) eqn:E.
  - apply existsb_exists in E as (y & Hy & Hp).
    destruct (List.find p (f x)) eqn:Ef; [done|]. by rewrite (List.find_none _ _ Ef _ Hy) in Hp.
  - destruct (List.find p (f x)) as [y|] eqn:Ef; [|by rewrite IH].
    apply find_some in Ef as [Hy Hp].
    assert (existsb p (f x) = true) by (apply existsb_exists; eauto). congruence.
Qed.

Lemma find_ext_in {A} (p q : A -> bool) l :
  (forall x, x ∈ l -> p x = q x) -> List.find p l = List.find q l.
Proof.
  induction l as [|x l IH]; intros Hpq; simpl; [done|]. rewrite (Hpq x) by set_solver.
  rewrite IH; [done|set_solver].
Qed.

#[global] Instance config_compare_laws : CmpLaws config_compare.
Proof. apply _. Qed.

(** The first policy in the order of creation that [hits] a service decides what
    applies to it. *)
Section oldest.
Context {V : Type} (entries : Config -> list (string * V)) (key : string) (hits : Config -> bool)
        (value : Config -> V) (policies : list Config).
Context (hits_spec : forall cfg, cfg ∈ policies ->
           existsb (fun e => String.eqb (fst e) key) (entries cfg) = hits cfg)
        (value_spec : forall cfg e, e ∈ entries cfg -> snd e = value cfg).

Lemma oldest_wins :
  let r := index_first (concat (map entries (sortConfigByCreationTime policies))) !! key in
  (r = None <-> forall cfg, cfg ∈ policies -> hits cfg = false) /\
  (forall v, r = Some v -> exists cfg, cfg ∈ policies /\ hits cfg = true /\ v = value cfg /\
     forall cfg', cfg' ∈ policies -> hits cfg' = true -> cmp_leb config_compare cfg cfg' = true).
Proof.
  simpl. rewrite index_first_lookup, find_concat.
  rewrite (find_ext_in _ hits) by (intros x Hx; apply hits_spec; by apply elem_of_sort in Hx).
  unfold sortConfigByCreationTime.
  destruct (List.find hits (SortStableFunc config_compare policies)) as [cfg|] eqn:E.
  - apply Sort_find_least in E as (Hin & Hh & Hmin); [|apply _].
    pose proof (hits_spec cfg Hin) as Hex. rewrite Hh in Hex.
    apply existsb_exists in Hex as (e & He & Hk).
    destruct (List.find _ (entries cfg)) as [e'|] eqn:Ef;
      [|by rewrite (List.find_none _ _ Ef _ He) in Hk].
    apply find_some in Ef as [He' _]. apply list_elem_of_In in He'. simpl. split.
    + split; [done|]. intros Hno. by rewrite (Hno cfg Hin) in Hh.
    + intros v [= <-]. exists cfg. rewrite (value_spec cfg e' He'). auto.
  - split; [|done]. split; [|done]. intros _ cfg Hin.
    apply (List.find_none _ _ E). by apply list_elem_of_In, elem_of_sort.
Qed.

End oldest.

Lemma existsb_map {A B} (p : B -> bool) (f : A -> B) l : existsb p (map f l) = existsb (fun x => p (f x)) l.
Proof. induction l as [|x l IH]; simpl; [done|]. by rewrite IH. Qed.

Lemma existsb_filter {A} (p q : A -> bool) l : existsb p (List.filter q l) = existsb (fun x => q x && p x) l.
Proof. induction l as [|x l IH]; simpl; [done|]. destruct (q x); simpl; by rewrite IH. Qed.

Lemma existsb_ext_in {A} (p q : A -> bool) l : (forall x, x ∈ l -> p x = q x) -> existsb p l = existsb q l.
Proof.
  induction l as [|x l IH]; intros Hpq; simpl; [done|]. rewrite (Hpq x) by set_solver.
  rewrite IH; [done|set_solver].
Qed.

(** A policy whose TLS settings are supported and that targets the service. *)
Definition tls_targets (ns name : string) (cfg : Config) : bool :=
  match Config.Spec cfg with
  | SpecBackendTLS (Some spec) =>
      supportsSystemBackendTLS (Some spec) && String.eqb (Config.Namespace cfg) ns &&
      existsb (fun t => isBackendTLSPolicyServiceTarget t && String.eqb (pt_Name t) name) (bt_TargetRefs spec)
  | _ => false
  end.

Definition tls_settings (cfg : Config) : BackendTLSSettings :=
  match Config.Spec cfg with
  | SpecBackendTLS (Some spec) => mkBackendTLSSettings (bt_Hostname spec)
  | _ => mkBackendTLSSettings ""
  end.

Lemma String_eqb_iff (a b c d : string) : (a = b <-> c = d) -> String.eqb a b = String.eqb c d.
Proof. intros Hi. destruct (String.eqb_spec a b), (String.eqb_spec c d); naive_solver. Qed.

Lemma existsb_false {A} (l : list A) : existsb (fun _ => false) l = false.
Proof. by induction l. Qed.

Lemma backend_tls_hits ns name cfg :
  no_char "/" ns = true -> no_char "/" (Config.Namespace cfg) = true ->
  existsb (fun e => String.eqb (fst e) (backendTLSPolicyServiceKey ns name)) (backend_tls_entries cfg)
  = tls_targets ns name cfg.
Proof.
  intros Hn Hc. unfold backend_tls_entries, tls_targets. destruct (Config.Spec cfg) as [| | | |[spec|]| |]; try done.
  destruct (supportsSystemBackendTLS (Some spec)); [|done]. cbn [andb].
  rewrite existsb_map, existsb_filter. cbn [fst].
  destruct (String.eqb_spec (Config.Namespace cfg) ns) as [->|Hne]; cbn [andb].
  - apply existsb_ext_in. intros t _. f_equal. apply String_eqb_iff. unfold backendTLSPolicyServiceKey.
    split; [|by intros ->]. intros E. by apply (sep_inj "/" ns (pt_Name t) ns name) in E as [_ ->].
  - rewrite <- (existsb_false (bt_TargetRefs spec)). apply existsb_ext_in. intros t _.
    apply andb_false_iff; right. apply String.eqb_neq. unfold backendTLSPolicyServiceKey. intros E.
    by apply (sep_inj "/" (Config.Namespace cfg) (pt_Name t) ns name) in E as [? _].
Qed.

Lemma backend_tls_value cfg e : e ∈ backend_tls_entries cfg -> snd e = tls_settings cfg.
Proof.
  unfold backend_tls_entries, tls_settings. destruct (Config.Spec cfg) as [| | | |[spec|]| |]; try set_solver.
  destruct (supportsSystemBackendTLS (Some spec)); [|set_solver].
  intros (t & -> & _)%list_elem_of_fmap. done.
Qed.

Section fault_lemmas.
Context `{Libraries}.

(** A policy with an effect that targets the port [section] of the service, or
    the whole service when [section] is empty. *)
Definition fault_targets (ns name section : string) (cfg : Config) : bool :=
  match Config.Spec cfg with
  | SpecFault (Some spec) =>
      negb ((fs_Delay (fault_settings spec) =? 0) && (fs_AbortStatus (fault_settings spec) =? 0)) &&
      String.eqb (Config.Namespace cfg) ns &&
      existsb (fun t => isFaultInjectionServiceTarget t && String.eqb (fst (target_name t)) name
                        && String.eqb (snd (target_name t)) section) (fi_TargetRefs spec)
  | _ => false
  end.

Definition fault_settings_of (cfg : Config) : FaultInjectionSettings :=
  match Config.Spec cfg with
  | SpecFault (Some spec) => fault_settings spec
  | _ => mkFaultSettings 0 0 0 0
  end.

(** Names of objects, as Kubernetes admits them. *)
Definition fault_names_ok (cfg : Config) : Prop :=
  no_char "/" (Config.Namespace cfg) = true /\
  match Config.Spec cfg with
  | SpecFault (Some spec) => Forall (fun t => no_char "#" (fst (target_name t)) = true) (fi_TargetRefs spec)
  | _ => True
  end.

Lemma fault_key_inj ns n s ns' n' s' :
  no_char "/" ns = true -> no_char "/" ns' = true -> no_char "#" n = true -> no_char "#" n' = true ->
  faultInjectionServiceKey ns n s = faultInjectionServiceKey ns' n' s' <-> ns = ns' /\ n = n' /\ s = s'.
Proof.
  intros H1 H2 H3 H4. unfold faultInjectionServiceKey. split; [|naive_solver]. intros E.
  apply (sep_inj "/" ns _ ns') in E as [-> E]; [|done..].
  by apply (sep_inj "#" n s n' s') in E as [-> ->].
Qed.

Lemma fault_hits ns name section cfg :
  no_char "/" ns = true -> no_char "#" name = true -> fault_names_ok cfg ->
  existsb (fun e => String.eqb (fst e) (faultInjectionServiceKey ns name section)) (fault_entries cfg)
  = fault_targets ns name section cfg.
Proof.
  intros Hn Hname [Hc Ht]. unfold fault_entries, fault_targets.
  destruct (Config.Spec cfg) as [| | | | |[spec|]|]; try done.
  destruct (_ && _) eqn:Hz; [done|]. cbn [negb andb].
  rewrite existsb_map, existsb_filter. cbn [fst]. rewrite Forall_forall in Ht.
  destruct (String.eqb_spec (Config.Namespace cfg) ns) as [->|Hne]; cbn [andb].
  - apply existsb_ext_in. intros t Hin. rewrite <- andb_assoc. f_equal.
    apply eq_true_iff_eq. rewrite andb_true_iff, !String.eqb_eq.
    rewrite fault_key_inj by auto. tauto.
  - rewrite <- (existsb_false (fi_TargetRefs spec)). apply existsb_ext_in. intros t Hin.
    apply andb_false_iff; right. apply String.eqb_neq. rewrite fault_key_inj by auto. tauto.
Qed.

Lemma fault_value cfg e : e ∈ fault_entries cfg -> snd e = fault_settings_of cfg.
Proof.
  unfold fault_entries, fault_settings_of. destruct (Config.Spec cfg) as [| | | | |[spec|]|]; try set_solver.
  destruct (_ && _); [set_solver|]. by intros (t & -> & _)%list_elem_of_fmap.
Qed.

(** *** Routes *)

Lemma initHTTPRoutes_elem routes h hr :
  hr ∈ default [] (initHTTPRoutes routes !! h) <-> hr ∈ routes /\ (h, hr) ∈ route_entries hr.
Proof.
  unfold initHTTPRoutes. rewrite group_by_default, lookup_empty. simpl.
  rewrite list_elem_of_fmap. setoid_rewrite list_elem_of_In at 1. setoid_rewrite filter_In.
  setoid_rewrite bool_decide_eq_true. setoid_rewrite in_concat. setoid_rewrite in_map_iff.
  setoid_rewrite <- list_elem_of_In.
  assert (Hself : forall x y, y ∈ route_entries x -> snd y = x).
  { intros x y. unfold route_entries. destruct (Config.Spec x); set_solver. }
  split.
  - intros ([h' hr'] & -> & (l & (x & <- & Hx) & Hin) & <-).
    pose proof (Hself x _ Hin) as E. simpl in *. by subst.
  - intros [Hr He]. exists (h, hr). split; [done|]. split; [|done].
    exists (route_entries hr). split; [by exists hr|done].
Qed.

Lemma initHTTPRoutes_range `{RangeOrder} routes h rs :
  (h, rs) ∈ range (initHTTPRoutes routes) -> rs = default [] (initHTTPRoutes routes !! h).
Proof. intros E%elem_of_range. by rewrite E. Qed.

Lemma range_default `{RangeOrder} (m : gmap host.Name (list Config)) h x :
  x ∈ default [] (m !! h) -> exists rs, (h, rs) ∈ range m /\ x ∈ rs.
Proof.
  destruct (m !! h) as [rs|] eqn:E; simpl; [|set_solver]. intros Hx. exists rs. by rewrite elem_of_range.
Qed.

End fault_lemmas.

(** The hosts a route is for. *)
Definition route_keys `{Libraries} (hr : Config) : list host.Name :=
  match Config.Spec hr with SpecHTTPRoute spec => route_hosts hr spec | _ => [] end.

Lemma HTTPRouteForHost_elem `{Libraries, RangeOrder} routes h hr :
  hr ∈ HTTPRouteForHost (initHTTPRoutes routes) h <->
  hr ∈ routes /\ exists k, k ∈ route_keys hr /\
    (h = "*" \/ k = h \/ k = "*" \/ wildcard_matches k h = true).
Proof.
  assert (Hk : forall k, (k, hr) ∈ route_entries hr <-> k ∈ route_keys hr).
  { intros k. unfold route_entries, route_keys. destruct (Config.Spec hr); set_solver. }
  assert (Hc : forall p : host.Name -> bool,
    hr ∈ concat (map (fun '(pattern, rs) => if p pattern then rs else []) (range (initHTTPRoutes routes)))
    <-> exists k, p k = true /\ hr ∈ default [] (initHTTPRoutes routes !! k)).
  { intros p. rewrite list_elem_of_In, in_concat. setoid_rewrite in_map_iff.
    setoid_rewrite <- list_elem_of_In. split.
    - intros (l & ([k rs] & <- & Hin) & Hx). destruct (p k) eqn:Hp; [|set_solver].
      exists k. split; [done|]. by rewrite <- (initHTTPRoutes_range routes k rs Hin).
    - intros (k & Hp & Hx). apply range_default in Hx as (rs & Hin & Hx).
      exists rs. split; [|done]. exists (k, rs). by rewrite Hp. }
  assert (Hgoal : forall P : host.Name -> Prop,
    (exists k, P k /\ hr ∈ default [] (initHTTPRoutes routes !! k)) <->
    hr ∈ routes /\ exists k, k ∈ route_keys hr /\ P k).
  { intros P. setoid_rewrite initHTTPRoutes_elem. setoid_rewrite Hk. naive_solver. }
  unfold HTTPRouteForHost. destruct (String.eqb_spec h "*") as [->|Hne].
  - pose proof (Hc (fun _ => true)) as Hall. simpl in Hall.
    rewrite (map_ext snd (fun '(_, rs) => rs)) by (by intros []).
    rewrite Hall, <- Hgoal. naive_solver.
  - rewrite !elem_of_app, (Hc (fun k => wildcard_matches k h)), <- Hgoal. split.
    + intros [?|[(k & ? & ?)|?]]; eauto 10.
    + intros (k & [?|[->|[->|?]]] & ?); naive_solver.
Qed.

(** ** Properties *)

(** The routes of a host are those of the configuration that list it, that
    list a wildcard it matches, or that are for all hosts; asking for all hosts
    gives every route.  No route is invented and none is lost, whatever the
    order of the index. *)
Theorem http_routes_for_host `{Libraries, RangeOrder} routes h hr :
  hr ∈ HTTPRouteForHost (initHTTPRoutes routes) h <->
  hr ∈ routes /\ exists k, k ∈ route_keys hr /\
    (h = "*" \/ k = h \/ k = "*" \/ wildcard_matches k h = true).
Proof. apply HTTPRouteForHost_elem. Qed.

(** The pattern ["*.example.com"] is compared without its dot: a route for it is
    also used for a host of another domain. *)
Theorem wildcard_route_crosses_domains `{Libraries, RangeOrder} :
  let hr := Config.mk "HTTPRoute" "r" "ns" "" 0 "" "" (SpecHTTPRoute (mkHTTPRoute [] ["*.example.com"] [])) in
  IsValidIPAddress "*.example.com" = false ->
  hr ∈ HTTPRouteForHost (initHTTPRoutes [hr]) "badexample.com" /\
  host.Matches "*.example.com" "badexample.com" = false.
Proof.
  intros hr Hip. split; [|done]. apply HTTPRouteForHost_elem. split; [set_solver|].
  exists "*.example.com". split; [|right; right; right; reflexivity].
  unfold route_keys, hr, route_hosts. simpl. unfold ResolveShortnameToFQDN. rewrite Hip. set_solver.
Qed.

(** Of the backend TLS policies that target a service, the oldest decides
    (by creation time, then name, then namespace), and a service that none
    targets has no TLS settings. *)
Theorem backend_tls_oldest_wins policies ns name :
  no_char "/" ns = true -> (forall cfg, cfg ∈ policies -> no_char "/" (Config.Namespace cfg) = true) ->
  let r := BackendTLSForService (Some (initBackendTLSPolicies policies)) ns name in
  (r = None <-> forall cfg, cfg ∈ policies -> tls_targets ns name cfg = false) /\
  (forall v, r = Some v -> exists cfg, cfg ∈ policies /\ tls_targets ns name cfg = true /\
     v = tls_settings cfg /\
     forall cfg', cfg' ∈ policies -> tls_targets ns name cfg' = true ->
       cmp_leb config_compare cfg cfg' = true).
Proof.
  intros Hn Hp. apply (oldest_wins backend_tls_entries _ (tls_targets ns name) tls_settings policies).
  - intros cfg Hin. apply backend_tls_hits; auto.
  - apply backend_tls_value.
Qed.

(** A fault is injected on a port of a service by the oldest policy that
    targets the port by name, or, when there is none, by the oldest that targets
    the whole service; a policy without an effect targets nothing. *)
Theorem fault_injection_precedence `{Libraries} policies ns name portName :
  no_char "/" ns = true -> no_char "#" name = true -> (forall cfg, cfg ∈ policies -> fault_names_ok cfg) ->
  let r := FaultInjectionForService (Some (initFaultInjectionPolicies policies)) ns name portName in
  let section := if existsb (fault_targets ns name portName) policies then portName else "" in
  (r = None <-> forall cfg, cfg ∈ policies -> fault_targets ns name section cfg = false) /\
  (forall v, r = Some v -> exists cfg, cfg ∈ policies /\ fault_targets ns name section cfg = true /\
     v = fault_settings_of cfg /\
     forall cfg', cfg' ∈ policies -> fault_targets ns name section cfg' = true ->
       cmp_leb config_compare cfg cfg' = true).
Proof.
  intros Hn Hname Hp r section.
  pose proof (fun sec => oldest_wins fault_entries (faultInjectionServiceKey ns name sec)
    (fault_targets ns name sec) fault_settings_of policies
    (fun cfg Hin => fault_hits ns name sec cfg Hn Hname (Hp cfg Hin)) fault_value) as Ho.
  assert (Hr : r = initFaultInjectionPolicies policies !! faultInjectionServiceKey ns name section);
    [|rewrite Hr; apply (Ho section)].
  unfold r, section, FaultInjectionForService. simpl. destruct (Ho portName) as [Hnone Hsome].
  fold (initFaultInjectionPolicies policies) in Hnone, Hsome.
  destruct (existsb (fault_targets ns name portName) policies) eqn:Ex.
  - destruct (String.eqb_spec portName "") as [->|Hne]; [done|]. simpl.
    destruct (initFaultInjectionPolicies policies !! faultInjectionServiceKey ns name portName) eqn:E; [done|].
    exfalso. apply existsb_elem in Ex as (cfg & Hin & Ht).
    by rewrite (proj1 Hnone eq_refl cfg Hin) in Ht.
  - destruct (String.eqb_spec portName "") as [->|Hne]; [done|]. simpl.
    rewrite (proj2 Hnone); [done|]. intros cfg Hin. apply not_true_iff_false. intros Ht.
    assert (existsb (fault_targets ns name portName) policies = true) by (apply existsb_elem; eauto).
    congruence.
Qed.

(** Every fault the snapshot can inject is in range: a delay is never
    negative, an abort status is a client or server error of HTTP, and each
    entry has at least one of them. *)
Theorem fault_settings_in_range `{Libraries} policies k s :
  initFaultInjectionPolicies policies !! k = Some s ->
  0 <= fs_Delay s /\ (fs_AbortStatus s = 0 \/ 400 <= fs_AbortStatus s <= 599) /\
  (0 < fs_Delay s \/ 400 <= fs_AbortStatus s).
Proof.
  unfold initFaultInjectionPolicies. rewrite index_first_lookup. intros Hs.
  destruct (List.find _ _) as [[k' s']|] eqn:E; simplify_eq/=. apply find_some in E as [Hin _].
  apply in_concat in Hin as (l & (cfg & <- & _)%in_map_iff & Hin).
  unfold fault_entries in Hin. destruct (Config.Spec cfg) as [| | | | |[spec|]|]; try done.
  destruct (_ && _) eqn:Hz; [done|].
  apply in_map_iff in Hin as (t & [= _ <-] & _). breflect. clear -Hz.
  unfold fault_settings in *. simpl in *. revert Hz. unfold fault_delay, fault_abort.
  repeat case_match; breflect; simpl in *; rewrite ?Z.eqb_neq; lia.
Qed.

(** *** Witnesses *)

(** Durations in range, as [durationpb] documents them. *)
Definition sample_libraries : Libraries := {|
  IsValidIPAddress s := false;
  CheckValid d := (0 <=? Seconds d) && (0 <=? Nanos d);
  AsDuration d := Seconds d * 1000000000 + Nanos d;
  durationpb_New z := mkDuration (z / 1000000000) (z mod 1000000000);
  ParseDuration s := None
|}.

Definition sample_tls (name : string) (t : Time) (sni : string) : Config :=
  Config.mk "BackendTLSPolicy" name "ns" "" t "" ""
    (SpecBackendTLS (Some (mkBackendTLS [mkPolicyTarget "" "Service" "demo" None] sni (Some "System")))).

Definition sample_fault (name section : string) (t : Time) (status : Z) : Config :=
  Config.mk "FaultInjectionPolicy" name "ns" "" t "" ""
    (SpecFault (Some (mkFaultInjection [Some (mkFaultTarget "" "Service" "demo" section)] None
       (Some (mkFaultAbortSpec status None))))).

Lemma backend_tls_oldest_wins_witness :
  let r := BackendTLSForService (Some (initBackendTLSPolicies
             [sample_tls "new" 2 "b.example"; sample_tls "old" 1 "a.example"])) "ns" "demo" in
  r = Some (mkBackendTLSSettings "a.example") /\ (r = None -> False).
Proof.
  intros r. split; [vm_compute; reflexivity|]. intros Hr.
  apply (backend_tls_oldest_wins [sample_tls "new" 2 "b.example"; sample_tls "old" 1 "a.example"] "ns" "demo")
    with (cfg := sample_tls "old" 1 "a.example") in Hr; [done|reflexivity| |set_solver].
  intros cfg Hin. repeat (apply elem_of_cons in Hin as [->|Hin]; [reflexivity|]). by apply elem_of_nil in Hin.
Defined.

Lemma fault_injection_precedence_witness :
  let r := FaultInjectionForService (Some (@initFaultInjectionPolicies sample_libraries
             [sample_fault "whole" "" 1 503; sample_fault "port" "dubbo" 2 500])) "ns" "demo" "dubbo" in
  r = Some (mkFaultSettings 0 0 500 100) /\ (r = None -> False).
Proof.
  intros r. split; [vm_compute; reflexivity|]. intros Hr.
  apply (@fault_injection_precedence sample_libraries
           [sample_fault "whole" "" 1 503; sample_fault "port" "dubbo" 2 500] "ns" "demo" "dubbo")
    with (cfg := sample_fault "port" "dubbo" 2 500) in Hr; [done|reflexivity|reflexivity| |set_solver].
  intros cfg Hin. repeat (apply elem_of_cons in Hin as [->|Hin];
    [split; [reflexivity|repeat constructor]|]). by apply elem_of_nil in Hin.
Defined.

Lemma fault_settings_in_range_witness :
  let s := mkFaultSettings 0 0 500 100 in
  0 <= fs_Delay s /\ (fs_AbortStatus s = 0 \/ 400 <= fs_AbortStatus s <= 599) /\
  (0 < fs_Delay s \/ 400 <= fs_AbortStatus s).
Proof.
  apply (@fault_settings_in_range sample_libraries [sample_fault "port" "dubbo" 2 500] "ns/demo#dubbo").
  vm_compute. reflexivity.
Defined.
