(* ===== verification/Debounce.v ===== *)
(** * The debouncer

    [debounce] of [dubbod/discovery/pkg/xds/discovery.go] as a state machine:
    the local variables of the loop are the state, a case of its [select] is a
    step, and the goroutines it starts run on their own.  Time is an argument
    of the steps that read the clock. *)

From S2P Require Import Prelude GoStrings GoSets ConfigKeys PushRequest.

Record DebounceOptions : Type := mkOptions {
  DebounceAfter : Z;
  debounceMax : Z;
  enableEDSDebounce : bool
}.

(** [inflight] is the running [push] goroutine with its request and its number
    of events, [direct] the goroutines of pushes that are not debounced.
    [clock] is the time of the last step; the code does not keep it. *)
Record debouncer : Type := mkDebouncer {
  timeChan : option Time;
  startDebounce : Time;
  lastConfigUpdateTime : Time;
  pushCounter : Z;
  debouncedEvents : nat;
  req : option PushRequest;
  free : bool;
  freeCh : bool;
  inflight : option (PushRequest * nat);
  direct : list PushRequest;
  updateSent : Z;
  clock : Time
}.

Definition init_debouncer : debouncer :=
  mkDebouncer None time_zero time_zero 0 0 None true false None [] 0 time_zero.

Section debounce.
Context (opts : DebounceOptions).

(** [pushWorker]: the state after it, and the request whose push it started. *)
Definition pushWorker (now : Time) (d : debouncer) : debouncer * option PushRequest :=
  let eventDelay := now - startDebounce d in
  let quietTime := now - lastConfigUpdateTime d in
  if (debounceMax opts <=? eventDelay) || (DebounceAfter opts <=? quietTime) then
    match req d with
    | Some r =>
        (mkDebouncer (timeChan d) (startDebounce d) (lastConfigUpdateTime d) (pushCounter d + 1)
           0 None false (freeCh d) (Some (r, debouncedEvents d)) (direct d) (updateSent d) now, Some r)
    | None =>
        (mkDebouncer (timeChan d) (startDebounce d) (lastConfigUpdateTime d) (pushCounter d)
           (debouncedEvents d) None (free d) (freeCh d) (inflight d) (direct d) (updateSent d) now, None)
    end
  else
    (mkDebouncer (Some (now + (DebounceAfter opts - quietTime))) (startDebounce d)
       (lastConfigUpdateTime d) (pushCounter d) (debouncedEvents d) (req d) (free d) (freeCh d)
       (inflight d) (direct d) (updateSent d) now, None).

(** A request without a reason gets the unknown one. *)
Definition with_reason (r : PushRequest) : PushRequest :=
  if (ReasonStats.Len (Reason r) =? 0)%nat then
    mkRequest (ReasonStats.NewReasonStats [UnknownTrigger]) (ConfigsUpdated r) (AddressesUpdated r)
      (Forced r) (Full r) (Push r) (Start r) (Delta r)
  else r.

(** The request is pushed at once instead of being debounced. *)
Definition is_direct (r : PushRequest) : bool := negb (enableEDSDebounce opts) && negb (Full r).

(** [case r := <-ch] *)
Definition on_request (now : Time) (r : PushRequest) (d : debouncer) : res debouncer :=
  let r := with_reason r in
  if is_direct r then
    Ok (mkDebouncer (timeChan d) (startDebounce d) (lastConfigUpdateTime d) (pushCounter d)
          (debouncedEvents d) (req d) (free d) (freeCh d) (inflight d) (direct d ++ [r])
          (updateSent d) now)
  else
    let wasNewDebounceWindow := (debouncedEvents d =? 0)%nat in
    let timer := if wasNewDebounceWindow then Some (now + DebounceAfter opts) else timeChan d in
    let start := if wasNewDebounceWindow then now else startDebounce d in
    merged ← Merge (req d) (Some r);
    Ok (mkDebouncer timer start now (pushCounter d) (S (debouncedEvents d)) merged (free d)
          (freeCh d) (inflight d) (direct d) (updateSent d) now).

(** [case <-freeCh] *)
Definition on_free (now : Time) (d : debouncer) : debouncer * option PushRequest :=
  pushWorker now (mkDebouncer (timeChan d) (startDebounce d) (lastConfigUpdateTime d) (pushCounter d)
    (debouncedEvents d) (req d) true false (inflight d) (direct d) (updateSent d) (clock d)).

(** [case <-timeChan]: a timer fires once. *)
Definition on_timer (now : Time) (d : debouncer) : debouncer * option PushRequest :=
  let d := mkDebouncer None (startDebounce d) (lastConfigUpdateTime d) (pushCounter d)
    (debouncedEvents d) (req d) (free d) (freeCh d) (inflight d) (direct d) (updateSent d) now in
  if free d then pushWorker now d else (d, None).

(** The end of the [push] goroutine. *)
Definition push_done (d : debouncer) (n : nat) : debouncer :=
  mkDebouncer (timeChan d) (startDebounce d) (lastConfigUpdateTime d) (pushCounter d)
    (debouncedEvents d) (req d) (free d) true None (direct d) (updateSent d + Z.of_nat n) (clock d).

(** The end of the goroutine of a push that was not debounced. *)
Definition direct_done (d : debouncer) (pre post : list PushRequest) : debouncer :=
  mkDebouncer (timeChan d) (startDebounce d) (lastConfigUpdateTime d) (pushCounter d)
    (debouncedEvents d) (req d) (free d) (freeCh d) (inflight d) (pre ++ post)
    (updateSent d + 1) (clock d).

(** ** Steps *)

Inductive label : Type :=
  | LRequest (now : Time) (r : PushRequest)
  | LFree (now : Time)
  | LTimer (now : Time)
  | LPushed
  | LDirect.

(** A step, with the debounced push it started. *)
Inductive step : debouncer -> label -> option PushRequest -> debouncer -> Prop :=
  | step_request d now r d' :
      clock d <= now -> on_request now r d = Ok d' -> step d (LRequest now r) None d'
  | step_free d now d' o :
      clock d <= now -> freeCh d = true -> on_free now d = (d', o) -> step d (LFree now) o d'
  | step_timer d now t d' o :
      clock d <= now -> timeChan d = Some t -> t <= now -> on_timer now d = (d', o) ->
      step d (LTimer now) o d'
  | step_pushed d r n : inflight d = Some (r, n) -> step d LPushed None (push_done d n)
  | step_direct d pre r post : direct d = pre ++ r :: post ->
      step d LDirect None (direct_done d pre post).

(** A run, with the labels and the debounced pushes it started, in order. *)
Inductive steps : debouncer -> list label -> list PushRequest -> debouncer -> Prop :=
  | steps_nil d : steps d [] [] d
  | steps_snoc d tr out d1 l o d2 :
      steps d tr out d1 -> step d1 l o d2 ->
      steps d (tr ++ [l]) (out ++ match o with Some r => [r] | None => [] end) d2.

(** The effect of a label, when the step is enabled; the oldest direct push
    ends first. *)
Definition exec (d : debouncer) (l : label) : option (debouncer * option PushRequest) :=
  match l with
  | LRequest now r =>
      if clock d <=? now then
        match on_request now r d with Ok d' => Some (d', None) | _ => None end
      else None
  | LFree now => if (clock d <=? now) && freeCh d then Some (on_free now d) else None
  | LTimer now =>
      match timeChan d with
      | Some t => if (clock d <=? now) && (t <=? now) then Some (on_timer now d) else None
      | None => None
      end
  | LPushed => match inflight d with Some (_, n) => Some (push_done d n, None) | None => None end
  | LDirect => match direct d with _ :: post => Some (direct_done d [] post, None) | [] => None end
  end.

Fixpoint run (d : debouncer) (tr : list label) : option (debouncer * list PushRequest) :=
  match tr with
  | [] => Some (d, [])
  | l :: tr =>
      '(d', o) ← exec d l;
      '(d'', out) ← run d' tr;
      Some (d'', match o with Some r => [r] | None => [] end ++ out)
  end.

(** The requests of a run that are debounced, as the loop sees them. *)
Definition debounced (tr : list label) : list PushRequest :=
  omap (fun l => match l with
    | LRequest _ r => if is_direct (with_reason r) then None else Some (with_reason r)
    | _ => None end) tr.

(** The in-place merge of a sequence of requests. *)
Definition merged (batch : list PushRequest) : option PushRequest :=
  fold_left (fun acc r => match Merge acc (Some r) with Ok m => m | _ => acc end) batch None.

(** ** Lemmas *)

Lemma debounce_exec_step d l d' o : exec d l = Some (d', o) -> step d l o d'.
Proof.
  destruct l; simpl; intros H; branch_in H; simplify_eq; breflect; try (by econstructor).
Qed.

Lemma debounce_run_steps_from d0 pre out d tr d' out' :
  steps d0 pre out d -> run d tr = Some (d', out') -> steps d0 (pre ++ tr) (out ++ out') d'.
Proof.
  revert pre out d out'; induction tr as [|l tr IH]; intros pre out d out' Hs; simpl.
  { intros [= <- <-]. by rewrite !app_nil_r. }
  intros ([d1 o] & He%debounce_exec_step & ([d2 out1] & Hr & [= <- <-])%bind_Some)%bind_Some.
  rewrite cons_middle, !app_assoc. eapply IH; [|done]. by econstructor.
Qed.

Lemma debounce_run_steps d tr d' out : run d tr = Some (d', out) -> steps d tr out d'.
Proof. apply (debounce_run_steps_from d [] []). constructor. Qed.

Lemma merged_snoc batch r :
  Merge (merged batch) (Some r) = Ok (merged (batch ++ [r])).
Proof.
  unfold merged. rewrite fold_left_app. simpl.
  destruct (fold_left _ batch None) as [m|]; [|done]. by rewrite Merge_eq.
Qed.

Lemma merged_none batch : merged batch = None <-> batch = [].
Proof.
  destruct batch as [|r batch] using rev_ind; [done|]. split; [|by destruct batch].
  pose proof (merged_snoc batch r) as Hm. intros E. rewrite E in Hm.
  destruct (merged batch); [by rewrite Merge_eq in Hm|done].
Qed.

(** What has been received splits into the batches pushed and the batch
    being gathered. *)
Definition accounts (tr : list label) (out : list PushRequest) (d : debouncer) : Prop :=
  exists batches rest,
    debounced tr = concat batches ++ rest /\
    Forall2 (fun batch r => batch <> [] /\ merged batch = Some r) batches out /\
    req d = merged rest /\ debouncedEvents d = length rest.

Lemma pushWorker_accounts now d d' o batches rest out :
  pushWorker now d = (d', o) ->
  Forall2 (fun batch r => batch <> [] /\ merged batch = Some r) batches out ->
  req d = merged rest -> debouncedEvents d = length rest ->
  exists batches' rest', concat batches ++ rest = concat batches' ++ rest' /\
    Forall2 (fun batch r => batch <> [] /\ merged batch = Some r) batches'
      (out ++ match o with Some r => [r] | None => [] end) /\
    req d' = merged rest' /\ debouncedEvents d' = length rest'.
Proof.
  unfold pushWorker. intros HP Hall Hr Hn.
  destruct ((debounceMax opts <=? now - startDebounce d)
    || (DebounceAfter opts <=? now - lastConfigUpdateTime d)).
  - destruct (req d) as [r|] eqn:Er; injection HP as <- <-; simpl.
    + exists (batches ++ [rest]), []. rewrite concat_app. simpl. rewrite !app_nil_r.
      split; [done|]. split; [|done]. apply Forall2_app; [done|]. constructor; [|constructor].
      split; [|done]. intros ->. done.
    + exists batches, rest. rewrite app_nil_r. done.
  - injection HP as <- <-; simpl. exists batches, rest. rewrite app_nil_r. done.
Qed.

Lemma debounced_snoc tr l : debounced (tr ++ [l]) = debounced tr ++ debounced [l].
Proof. apply omap_app. Qed.

Lemma step_accounts tr out d l o d' :
  accounts tr out d -> step d l o d' ->
  accounts (tr ++ [l]) (out ++ match o with Some r => [r] | None => [] end) d'.
Proof.
  intros (batches & rest & Hd & Hall & Hr & Hn) Hs. unfold accounts. rewrite debounced_snoc, Hd.
  destruct Hs as [d now r d' _ HR|d now d' o _ _ HF|d now t d' o _ _ _ HT|d r n _|d pre r post _];
    simpl; rewrite ?app_nil_r.
  - unfold on_request in HR. simpl. destruct (is_direct (with_reason r)).
    + injection HR as <-. simpl. exists batches, rest. rewrite !app_nil_r. done.
    + rewrite Hr, merged_snoc in HR. simpl in HR. injection HR as <-. simpl.
      exists batches, (rest ++ [with_reason r]). rewrite app_assoc, Hn, length_app. simpl.
      split; [done|]. split; [done|]. split; [done|]. lia.
  - eapply pushWorker_accounts; [exact HF|done|done|done].
  - unfold on_timer in HT. simpl in HT. destruct (free d).
    + eapply pushWorker_accounts; [exact HT|done|done|done].
    + injection HT as <- <-. exists batches, rest. simpl. rewrite app_nil_r. done.
  - exists batches, rest. done.
  - exists batches, rest. done.
Qed.

Lemma steps_accounts tr out d : steps init_debouncer tr out d -> accounts tr out d.
Proof.
  intros Hs. remember init_debouncer as d0 eqn:E0. induction Hs as [d|d tr out d1 l o d2 Hs IH Hl]; subst.
  - exists [], []. done.
  - eapply step_accounts; [by apply IH|done].
Qed.

(** *** The invariant *)

Record inv (d : debouncer) : Prop := {
  (* the debounced push in progress, or its completion not yet seen *)
  inv_busy : free d = false <-> (inflight d <> None \/ freeCh d = true);
  inv_once : inflight d <> None -> freeCh d = false;
  inv_clock : lastConfigUpdateTime d <= clock d;
  inv_start : req d <> None -> startDebounce d <= clock d;
  inv_events : debouncedEvents d = 0%nat <-> req d = None;
  (* a gathered request is waited for *)
  inv_armed : req d <> None -> free d = true ->
    exists t, timeChan d = Some t /\ t <= startDebounce d + debounceMax opts + DebounceAfter opts
}.

Hypothesis opts_ok : 0 <= debounceMax opts /\ 0 <= DebounceAfter opts.

Lemma init_inv : inv init_debouncer.
Proof. split; simpl; try done; naive_solver. Qed.

Lemma pushWorker_inv now d d' o :
  free d = true -> inflight d = None -> freeCh d = false ->
  lastConfigUpdateTime d <= now -> (req d <> None -> startDebounce d <= now) ->
  (debouncedEvents d = 0%nat <-> req d = None) ->
  pushWorker now d = (d', o) -> inv d'.
Proof.
  intros Hf Hi Hc Hl Hs He HP. unfold pushWorker in HP.
  destruct (Z.leb_spec (debounceMax opts) (now - startDebounce d)) as [Hm|Hm]; cbn [orb] in HP.
  2:destruct (Z.leb_spec (DebounceAfter opts) (now - lastConfigUpdateTime d)) as [Hq|Hq].
  1,2: destruct (req d) as [r|] eqn:Er; injection HP as <- <-; split; simpl;
    rewrite ?Hf, ?Hi, ?Hc; try done; try (split; [by left|done]); try (split; [done|by intros [?|?]]).
  injection HP as <- <-. split; simpl; rewrite ?Hf, ?Hi, ?Hc; try done.
  - split; [done|by intros [?|?]].
  - intros _ _. eexists. split; [done|]. lia.
Qed.

(** What [pushWorker] needs of a state, in the two places that call it. *)
Lemma idle_when_free d : inv d -> free d = true -> inflight d = None /\ freeCh d = false.
Proof.
  intros [Hb Ho _ _ _ _] Hf. destruct (inflight d) eqn:Ei.
  - assert (free d = false) by (apply Hb; left; done). congruence.
  - split; [done|]. destruct (freeCh d) eqn:Ef; [|done].
    assert (free d = false) by (apply Hb; by right). congruence.
Qed.

Lemma on_request_inv now r d d' :
  inv d -> clock d <= now -> on_request now r d = Ok d' -> inv d'.
Proof.
  intros [Hb Ho Hcl Hst He Ha] Hn. unfold on_request.
  destruct (is_direct (with_reason r)).
  { intros [= <-]. split; simpl; try done; [lia|]. intros Hr. specialize (Hst Hr). lia. }
  assert (Hm : exists m, Merge (req d) (Some (with_reason r)) = Ok (Some m)).
  { destruct (req d); [rewrite Merge_eq|]; by eexists. }
  destruct Hm as [m ->]. simpl. intros [= <-].
  destruct (Nat.eqb_spec (debouncedEvents d) 0) as [E|E]; split; simpl; try done; try lia.
  - intros _ _. eexists. split; [done|]. lia.
  - intros _. assert (req d <> None) as Hr by (rewrite <- He; done). specialize (Hst Hr). lia.
  - intros _ Hf. assert (req d <> None) as Hr by (rewrite <- He; done). by apply Ha.
Qed.

Lemma on_free_inv now d d' o :
  inv d -> clock d <= now -> freeCh d = true -> on_free now d = (d', o) -> inv d'.
Proof.
  intros [Hb Ho Hcl Hst He Ha] Hn Hf HP.
  assert (inflight d = None) as Hi.
  { destruct (inflight d) eqn:Ei; [|done]. assert (freeCh d = false) by by apply Ho. congruence. }
  eapply pushWorker_inv; [..|exact HP]; simpl; try done; try lia.
  intros Hr. specialize (Hst Hr). lia.
Qed.

Lemma on_timer_inv now t d d' o :
  inv d -> clock d <= now -> timeChan d = Some t -> on_timer now d = (d', o) -> inv d'.
Proof.
  intros Hi Hn Ht. unfold on_timer. simpl. destruct (free d) eqn:Hf.
  - destruct (idle_when_free d Hi Hf) as [Hin Hfc]. destruct Hi as [Hb Ho Hcl Hst He Ha].
    intros HP. eapply pushWorker_inv; [..|exact HP]; simpl; try done; try lia.
    intros Hr. specialize (Hst Hr). lia.
  - intros [= <- <-]. destruct Hi as [Hb Ho Hcl Hst He Ha]. split; simpl; try done; try lia.
    + rewrite <- Hb. by rewrite Hf.
    + intros Hr. specialize (Hst Hr). lia.
Qed.

Lemma push_done_inv d r n : inv d -> inflight d = Some (r, n) -> inv (push_done d n).
Proof.
  intros [Hb Ho Hcl Hst He Ha] Hi. assert (free d = false) as Hf by (apply Hb; left; congruence).
  split; simpl; try done. split; [by right|done].
Qed.

Lemma debounce_step_inv d l o d' : step d l o d' -> inv d -> inv d'.
Proof.
  destruct 1; intros Hi; eauto using on_request_inv, on_free_inv, on_timer_inv, push_done_inv.
  destruct Hi. by split.
Qed.

Lemma debounce_steps_inv d tr out d' : steps d tr out d' -> inv d -> inv d'.
Proof. induction 1; eauto using debounce_step_inv. Qed.

(** *** Accounting of the events *)

(** Events whose push has been completed, is running, or is being gathered. *)
Definition sent (d : debouncer) : Z :=
  updateSent d + match inflight d with Some (_, n) => Z.of_nat n | None => 0 end
  + Z.of_nat (debouncedEvents d) + Z.of_nat (length (direct d)).

Lemma pushWorker_sent now d d' o :
  inflight d = None -> pushWorker now d = (d', o) -> sent d' = sent d.
Proof.
  unfold pushWorker, sent. intros Hi HP.
  destruct ((debounceMax opts <=? now - startDebounce d)
    || (DebounceAfter opts <=? now - lastConfigUpdateTime d)); [destruct (req d)|];
    injection HP as <- <-; simpl; rewrite ?Hi; lia.
Qed.

(** The requests of a run. *)
Definition requests (tr : list label) : list PushRequest :=
  omap (fun l => match l with LRequest _ r => Some r | _ => None end) tr.

Lemma step_sent d l o d' :
  inv d -> step d l o d' -> sent d' = sent d + Z.of_nat (length (requests [l])).
Proof.
  intros Hi Hs. destruct Hs as [d now r d' _ HR|d now d' o _ Hf HF|d now t d' o _ _ _ HT|d r n Hin|d pre r post Hd];
    simpl.
  - unfold on_request in HR. destruct (is_direct (with_reason r)).
    + injection HR as <-. unfold sent; simpl. rewrite length_app. simpl. lia.
    + destruct (Merge _ _); [|done|done]. simpl in HR. injection HR as <-. unfold sent; simpl. lia.
  - assert (inflight d = None) as Hn.
    { destruct (inflight d) eqn:Ei; [|done]. assert (freeCh d = false) by (apply (inv_once _ Hi); congruence). congruence. }
    apply pushWorker_sent in HF; [|done]. unfold sent in *; simpl in *. lia.
  - unfold on_timer in HT. simpl in HT. destruct (free d) eqn:Hf.
    + destruct (idle_when_free d Hi Hf) as [Hn _].
      apply pushWorker_sent in HT; [|done]. unfold sent in *; simpl in *. lia.
    + injection HT as <- <-. unfold sent; simpl. lia.
  - unfold sent; simpl. rewrite Hin. lia.
  - unfold sent; simpl. rewrite Hd, !length_app. simpl. lia.
Qed.

Lemma steps_sent d tr out d' :
  steps d tr out d' -> inv d -> sent d' = sent d + Z.of_nat (length (requests tr)).
Proof.
  induction 1 as [d|d tr out d1 l o d2 Hs IH Hl]; intros Hi; [simpl; lia|].
  rewrite (step_sent d1 l o d2 (debounce_steps_inv _ _ _ _ Hs Hi) Hl), IH by done.
  unfold requests. rewrite omap_app, length_app. lia.
Qed.

End debounce.

(** ** Properties *)

(** C2 The debouncer loses, repeats and reorders nothing: in any run,
    the requests that are debounced are, in order, the batches pushed so far
    (each push being the merge of its own non-empty batch) followed by the
    batch being gathered, whose merge is the pending request. *)
Theorem debounce_no_lost_update opts tr out d :
  steps opts init_debouncer tr out d ->
  exists batches rest,
    debounced opts tr = concat batches ++ rest /\
    Forall2 (fun batch r => batch <> [] /\ merged batch = Some r) batches out /\
    req d = merged rest /\ (req d = None <-> rest = []) /\ debouncedEvents d = length rest.
Proof.
  intros Hs. destruct (steps_accounts opts tr out d Hs) as (batches & rest & H1 & H2 & H3 & H4).
  exists batches, rest. rewrite H3, merged_none. done.
Qed.

(** C16 A gathered request cannot be stranded, and waits a bounded time:
    whenever one is pending, either a debounced push is in progress (at most
    one is), whose completion runs the worker again, or a timer is armed, no
    later than [debounceMax + DebounceAfter] after the window opened; and a
    timer that fires on an idle debouncer after the quiet period, or after
    [debounceMax], starts the push of the pending request. *)
Theorem debounce_progress opts tr out d r :
  0 <= debounceMax opts -> 0 <= DebounceAfter opts ->
  steps opts init_debouncer tr out d -> req d = Some r ->
  (free d = false /\ (is_Some (inflight d) /\ freeCh d = false \/ inflight d = None /\ freeCh d = true) \/
   free d = true /\ inflight d = None /\ exists t, timeChan d = Some t /\
     t <= startDebounce d + debounceMax opts + DebounceAfter opts) /\
  (forall now, free d = true ->
     (startDebounce d + debounceMax opts <= now \/ lastConfigUpdateTime d + DebounceAfter opts <= now) ->
     snd (on_timer opts now d) = Some r).
Proof.
  intros Hm Ha Hs Hr. pose proof (debounce_steps_inv opts (conj Hm Ha) _ _ _ _ Hs (init_inv opts (conj Hm Ha))) as Hi.
  split.
  - destruct (free d) eqn:Hf.
    + right. destruct (idle_when_free opts d Hi Hf) as [Hn _]. split; [done|]. split; [done|].
      apply (inv_armed _ _ Hi); [congruence|done].
    + left. split; [done|]. pose proof (inv_once _ _ Hi) as Ho. pose proof (inv_busy _ _ Hi) as Hb.
      destruct (inflight d) as [p|]; [left; split; [by eexists|by apply Ho]|].
      right. split; [done|]. destruct Hb as [Hb _]. destruct (Hb Hf); [done|done].
  - intros now Hf Hnow. unfold on_timer. simpl. rewrite Hf. unfold pushWorker. simpl. rewrite Hr.
    destruct (Z.leb_spec (debounceMax opts) (now - startDebounce d)); [done|].
    destruct (Z.leb_spec (DebounceAfter opts) (now - lastConfigUpdateTime d)); [done|]. lia.
Qed.

(** The counter of committed updates is exact: the updates reported
    as sent, those in a running push, those being gathered and those pushed
    directly add up to the requests received. *)
Theorem debounce_counts_updates opts tr out d :
  0 <= debounceMax opts -> 0 <= DebounceAfter opts ->
  steps opts init_debouncer tr out d ->
  updateSent d + match inflight d with Some (_, n) => Z.of_nat n | None => 0 end
    + Z.of_nat (debouncedEvents d) + Z.of_nat (length (direct d))
  = Z.of_nat (length (requests tr)).
Proof.
  intros Hm Ha Hs.
  apply (steps_sent opts (conj Hm Ha) _ _ _ _ Hs (init_inv opts (conj Hm Ha))).
Qed.

(** *** Witnesses: two requests gathered in one window, a third while the push
    is in progress. *)

Definition sample_opts : DebounceOptions := mkOptions 10 100 true.

Definition sample_req (name : string) : PushRequest :=
  mkRequest None (Some {[ConfigKey.mk kind.Service name "ns"]}) None false true None 0 emptyResourceDelta.

Definition sample_run : list label :=
  [LRequest 1 (sample_req "a"); LRequest 5 (sample_req "b"); LTimer 11; LTimer 15;
   LRequest 16 (sample_req "c"); LPushed].

Definition sample_end : debouncer * list PushRequest :=
  default (init_debouncer, []) (run sample_opts init_debouncer sample_run).

Lemma sample_steps : steps sample_opts init_debouncer sample_run (snd sample_end) (fst sample_end).
Proof. apply debounce_run_steps. vm_compute. reflexivity. Qed.

Lemma debounce_no_lost_update_witness :
  length (snd sample_end) = 1%nat /\
  exists batches rest,
    debounced sample_opts sample_run = concat batches ++ rest /\
    Forall2 (fun batch r => batch <> [] /\ merged batch = Some r) batches (snd sample_end) /\
    req (fst sample_end) = merged rest /\ (req (fst sample_end) = None <-> rest = []) /\
    debouncedEvents (fst sample_end) = length rest.
Proof.
  split; [vm_compute; reflexivity|].
  apply (debounce_no_lost_update sample_opts sample_run (snd sample_end) (fst sample_end)).
  apply sample_steps.
Defined.

Lemma debounce_progress_witness :
  exists r, req (fst sample_end) = Some r /\
  (free (fst sample_end) = false /\
     (is_Some (inflight (fst sample_end)) /\ freeCh (fst sample_end) = false \/
      inflight (fst sample_end) = None /\ freeCh (fst sample_end) = true) \/
   free (fst sample_end) = true /\ inflight (fst sample_end) = None /\
     exists t, timeChan (fst sample_end) = Some t /\
       t <= startDebounce (fst sample_end) + debounceMax sample_opts + DebounceAfter sample_opts).
Proof.
  exists (with_reason (sample_req "c")). split; [vm_compute; reflexivity|].
  apply (debounce_progress sample_opts sample_run (snd sample_end) (fst sample_end)
    (with_reason (sample_req "c"))).
  - vm_compute. discriminate.
  - vm_compute. discriminate.
  - apply sample_steps.
  - vm_compute. reflexivity.
Defined.

Lemma debounce_counts_updates_witness :
  updateSent (fst sample_end) = 2 /\
  updateSent (fst sample_end) + match inflight (fst sample_end) with Some (_, n) => Z.of_nat n | None => 0 end
    + Z.of_nat (debouncedEvents (fst sample_end)) + Z.of_nat (length (direct (fst sample_end))) = 3.
Proof.
  split; [vm_compute; reflexivity|].
  apply (debounce_counts_updates sample_opts sample_run (snd sample_end) (fst sample_end)).
  - vm_compute. discriminate.
  - vm_compute. discriminate.
  - apply sample_steps.
Defined.
