(* ===== verification/Ads.v ===== *)
(** * Connections and pushes

    [dubbod/discovery/pkg/xds/ads.go], the entry points of
    [dubbod/discovery/pkg/xds/discovery.go] and the node parsing of
    [dubbod/discovery/pkg/model/context.go]: which connections exist, which of
    them a push is queued for, and what an endpoint change asks for.

    The JSON decoding of node metadata, the address parser, the workload
    authorizer and the service registry are parameters. *)

From S2P Require Import Prelude GoStrings GoSets GoSort ConfigKeys PushRequest PushQueue Hosts Service XdsCache EndpointShards EndpointBuilder Watch Eds.

(** ** Nodes and proxies

    Of the metadata and of a proxy, the fields the modelled code reads. *)

Record NodeMetadata : Type := mkMeta {
  Generator : string; ClusterID : string; meta_Namespace : string }.
Definition emptyMetadata : NodeMetadata := mkMeta "" "" "".

Definition NodeType : Type := string.
Definition Inherent : NodeType := "inherent".
Definition Router : NodeType := "router".

Definition IsApplicationNodeType (t : NodeType) : bool := String.eqb t Inherent || String.eqb t Router.

Module Proxy.
Record t : Type := mk {
  LastPushContext : option ptr;
  LastPushTime : Time;
  Type_ : NodeType;
  WatchedResources : nmap string WatchedResource;
  ID : string;
  DNSDomain : string;
  Metadata : option NodeMetadata;
  IPAddresses : list string;
  ConfigNamespace : string;
  ServiceTargets : list ServiceTarget
}.
End Proxy.
Notation Proxy := Proxy.t.

Definition newProxy (meta : NodeMetadata) : Proxy :=
  Proxy.mk None time_zero "" None "" "" (Some meta) [] "" [].

Definition IsInherentGrpc (node : Proxy) : bool :=
  match Proxy.Metadata node with Some m => String.eqb (Generator m) "grpc" | None => false end.

Definition serviceNodeSeparator : string := "~".

(** [net.ParseIP(s) != nil] is a parameter. *)
Definition ParseServiceNodeWithMetadata (ParseIP : string -> bool) (nodeID : string)
    (metadata : NodeMetadata) : res Proxy :=
  let parts := Split nodeID serviceNodeSeparator in
  match parts with
  | [p0; p1; p2; p3] =>
      if negb (IsApplicationNodeType p0) then
        Err (mk_error Unknown ("invalid node type " +:+ p0))
      else
        let ips := if (0 <? String.length p1)%nat && ParseIP p1 then [p1] else [] in
        if (String.length p2 =? 0)%nat then Err (mk_error Unknown "node ID is empty")
        else Ok (Proxy.mk None time_zero p0 None p2 p3 (Some metadata) ips "" [])
  | _ => Err (mk_error Unknown "missing parts in the service node")
  end.

(** A proxy always has metadata here. *)
Definition GetProxyConfigNamespace (proxy : option Proxy) : string :=
  match proxy with
  | None => ""
  | Some proxy =>
      let ns := match Proxy.Metadata proxy with Some m => meta_Namespace m | None => "" end in
      if (0 <? String.length ns)%nat then ns
      else match Split (Proxy.DNSDomain proxy) "." with
           | p0 :: _ :: _ => p0
           | _ => ""
           end
  end.

Definition ShouldUpdateServiceTargets (node : Proxy) (updates : nset ConfigKey) : bool :=
  match Proxy.Metadata node with
  | None => false
  | Some m => existsb (fun config => String.eqb (ConfigKey.Namespace config) (meta_Namespace m))
                (GoSet.UnsortedList updates)
  end.

(** ** Connections *)

Record Connection : Type := mkConnection {
  conPtr : ptr;
  conID : string;
  proxy : option Proxy;
  ids : list string;
  initialized : bool
}.

(** The part of the server the connections touch. *)
Record DiscoveryServer : Type := mkServer {
  adsClients : gmap string Connection;
  pushQueue : PushQueue;
  pushContext : option ptr;
  connectionNumber : Z
}.

Definition AllClients (s : DiscoveryServer) : list Connection := (map_to_list (adsClients s)).*2.
Definition adsClientCount (s : DiscoveryServer) : nat := size (adsClients s).

Definition Clients (s : DiscoveryServer) : list Connection := List.filter initialized (AllClients s).

Definition addCon (s : DiscoveryServer) (id : string) (con : Connection) : DiscoveryServer :=
  mkServer (<[id := con]> (adsClients s)) (pushQueue s) (pushContext s) (connectionNumber s).

Definition removeCon (s : DiscoveryServer) (id : string) : DiscoveryServer :=
  match adsClients s !! id with
  | None => s
  | Some _ => mkServer (delete id (adsClients s)) (pushQueue s) (pushContext s) (connectionNumber s)
  end.

(** [connectionID]: a counter makes the identifier of each connection new. *)
Definition connectionID (s : DiscoveryServer) (node : string) : DiscoveryServer * string :=
  let id := wrap_s64 (connectionNumber s + 1) in
  (mkServer (adsClients s) (pushQueue s) (pushContext s) id, node +:+ "-" +:+ Itoa id).

Definition closeConnection (s : DiscoveryServer) (con : Connection) : DiscoveryServer :=
  if String.eqb (conID con) "" then s else removeCon s (conID con).

Section server.
Context {M : Type} (ParseMetadata : M -> res NodeMetadata) (ParseIP : string -> bool).
Context (Authorize : option (Proxy -> list string -> res unit)).
Context (GetProxyServiceTargets : Proxy -> list ServiceTarget).

Record Node : Type := mkNode { node_Id : string; node_Metadata : option M }.

(** Any error of the parsers becomes an invalid argument. *)
Definition invalid_argument {A} (r : res A) : res A :=
  match r with Err e => Err (mk_error InvalidArgument (err_msg e)) | r => r end.

Definition initProxyMetadata (node : option Node) : res Proxy :=
  match node with
  | None => Err (mk_error InvalidArgument "xDS node is required")
  | Some node =>
      meta ← invalid_argument (match node_Metadata node with
                               | None => Ok emptyMetadata | Some m => ParseMetadata m end);
      p ← invalid_argument (ParseServiceNodeWithMetadata ParseIP (node_Id node) meta);
      let meta := if String.eqb (Generator meta) "" then mkMeta "grpc" (ClusterID meta) (meta_Namespace meta)
                  else meta in
      if negb (String.eqb (Generator meta) "grpc") then
        Err (mk_error InvalidArgument "unsupported xDS generator")
      else
        (* the proxy holds the same metadata object *)
        let p := Proxy.mk (Proxy.LastPushContext p) (Proxy.LastPushTime p) (Proxy.Type_ p)
          (Proxy.WatchedResources p) (Proxy.ID p) (Proxy.DNSDomain p) (Some meta)
          (Proxy.IPAddresses p) "" (Proxy.ServiceTargets p) in
        Ok (Proxy.mk (Proxy.LastPushContext p) (Proxy.LastPushTime p) (Proxy.Type_ p)
          (Proxy.WatchedResources p) (Proxy.ID p) (Proxy.DNSDomain p) (Proxy.Metadata p)
          (Proxy.IPAddresses p) (GetProxyConfigNamespace (Some p)) (Proxy.ServiceTargets p))
  end.

Definition computeProxyState (p : Proxy) (request : option PushRequest) : Proxy :=
  let update := match request with
                | None => true
                | Some r => Forced r || ShouldUpdateServiceTargets p (ConfigsUpdated r)
                end in
  let targets := if update then GetProxyServiceTargets p else Proxy.ServiceTargets p in
  let push := match request with Some r => Push r | None => Proxy.LastPushContext p end in
  let time := match request with Some r => Start r | None => Proxy.LastPushTime p end in
  Proxy.mk push time (Proxy.Type_ p) (Proxy.WatchedResources p) (Proxy.ID p) (Proxy.DNSDomain p)
    (Proxy.Metadata p) (Proxy.IPAddresses p) (Proxy.ConfigNamespace p) targets.

(** [initializeProxy] cannot fail; the address mode it computes is not kept. *)
Definition initializeProxy (p : Proxy) : Proxy :=
  let p := computeProxyState p None in
  Proxy.mk (Proxy.LastPushContext p) (Proxy.LastPushTime p) (Proxy.Type_ p) (Some ∅) (Proxy.ID p)
    (Proxy.DNSDomain p) (Proxy.Metadata p) (Proxy.IPAddresses p) (Proxy.ConfigNamespace p)
    (Proxy.ServiceTargets p).

(** The connection object is mutated: it is part of the result.  An error is
    returned next to the server state it left. *)
Definition initConnection (s : DiscoveryServer) (node : option Node) (con : Connection)
    (identities : list string) : DiscoveryServer * Connection * res unit :=
  match initProxyMetadata node with
  | Ok p =>
      let p := Proxy.mk (pushContext s) (Proxy.LastPushTime p) (Proxy.Type_ p)
        (Proxy.WatchedResources p) (Proxy.ID p) (Proxy.DNSDomain p) (Proxy.Metadata p)
        (Proxy.IPAddresses p) (Proxy.ConfigNamespace p) (Proxy.ServiceTargets p) in
      let '(s, id) := connectionID s (Proxy.ID p) in
      let con := mkConnection (conPtr con) id (Some p) identities (initialized con) in
      match Authorize with
      | None => (s, con, Err (mk_error PermissionDenied "xDS workload authorization is not configured"))
      | Some authorize =>
          match authorize p identities with
          | Ok _ =>
              let con := mkConnection (conPtr con) id (Some (initializeProxy p)) identities true in
              (addCon s id con, con, Ok tt)
          | Err e => (s, con, Err (mk_error PermissionDenied (err_msg e)))
          | Panic w => (s, con, Panic w)
          end
      end
  | Err e => (s, con, Err e)
  | Panic w => (s, con, Panic w)
  end.

End server.

(** ** Pushes *)

Definition connectionWatchesAnyService (con : Connection) (services : nset string) : bool :=
  match proxy con with
  | None => true
  | Some p =>
      if (nset_len services =? 0)%nat then true else
      if negb (IsInherentGrpc p) then true else
      match nmap_get (Proxy.WatchedResources p) !! EndpointType with
      | None => true
      | Some watched =>
          if (nset_len (ResourceNames watched) =? 0)%nat then true
          else existsb (fun clusterName => GoSet.Contains services (ParseSubsetKeyHostname clusterName))
                 (GoSet.UnsortedList (ResourceNames watched))
      end
  end.

Definition clientsForPush (s : DiscoveryServer) (req : option PushRequest) : list Connection :=
  match req with
  | None => AllClients s
  | Some r =>
      if Full r then AllClients s else
      let '(services, targeted) := edsUpdatedServicesForRequest (Some r) in
      if negb targeted then AllClients s
      else List.filter (fun client => connectionWatchesAnyService client services) (AllClients s)
  end.

Definition set_Start (now : Time) (r : PushRequest) : PushRequest :=
  mkRequest (Reason r) (ConfigsUpdated r) (AddressesUpdated r) (Forced r) (Full r) (Push r) now (Delta r).

Fixpoint enqueue_all (q : PushQueue) (clients : list Connection) (r : PushRequest) : res PushQueue :=
  match clients with
  | [] => Ok q
  | c :: clients => q ← Enqueue q (conPtr c) (Some r); enqueue_all q clients r
  end.

Definition StartPush (s : DiscoveryServer) (now : Time) (req : PushRequest) : res DiscoveryServer :=
  let req := set_Start now req in
  q ← enqueue_all (pushQueue s) (clientsForPush s (Some req)) req;
  Ok (mkServer (adsClients s) q (pushContext s) (connectionNumber s)).

(** A full push always carries a set of configurations. *)
Definition AdsPushAll (s : DiscoveryServer) (now : Time) (req : PushRequest) : res DiscoveryServer :=
  let req := if Full req then
      mkRequest (Reason req) (match ConfigsUpdated req with None => Some ∅ | c => c end)
        (AddressesUpdated req) (Forced req) (Full req) (Push req) (Start req) (Delta req)
    else req in
  StartPush s now req.

(** [Clients] are the initialised connections, whose proxy and metadata are
    set: the nil cases do not arise. *)
Definition matches_proxy (clusterID ip : string) (v : Connection) : bool :=
  match proxy v with
  | None => false
  | Some p => match Proxy.IPAddresses p, Proxy.Metadata p with
              | a :: _, Some m => String.eqb (ClusterID m) clusterID && String.eqb a ip
              | _, _ => false end
  end.

Definition proxy_update_request (s : DiscoveryServer) (now : Time) : PushRequest :=
  mkRequest (ReasonStats.NewReasonStats [ProxyUpdate]) None None true true (pushContext s) now
    emptyResourceDelta.

Definition ProxyUpdate_ (s : DiscoveryServer) (now : Time) (clusterID ip : string) : res DiscoveryServer :=
  q ← enqueue_all (pushQueue s) (List.filter (matches_proxy clusterID ip) (Clients s))
        (proxy_update_request s now);
  Ok (mkServer (adsClients s) q (pushContext s) (connectionNumber s)).

Definition PushOrder : list string := [ClusterType; EndpointType; ListenerType; RouteType].
Definition KnownOrderedTypeUrls : nset string := GoSet.New PushOrder.

(** The watched types, known ones first and in push order. *)
Definition watched_types (p : Proxy) : list string :=
  let allWatched := nmap_get (ProxyWatch.ShallowCloneWatchedResources (Proxy.WatchedResources p)) in
  List.filter (fun tp => bool_decide (is_Some (allWatched !! tp))) PushOrder ++
  List.filter (fun tp => negb (GoSet.Contains KnownOrderedTypeUrls tp)) (map_to_list allWatched).*1.

Definition watchedResourcesByOrder (p : Proxy) : list WatchedResource :=
  omap (fun tp => nmap_get (Proxy.WatchedResources p) !! tp) (watched_types p).

(** ** Changes *)
Section changes.
Context {C : Type} `{!XdsCacheClear C} (cache_ClearAll : C -> EndpointShards.clock -> C).

(** [dropCacheForRequest] *)
Definition dropCacheForRequest (c : C) (now : EndpointShards.clock) (req : PushRequest) : C :=
  if Forced req then cache_ClearAll c now else cache_Clear c now (ConfigsUpdated req).

(** [ConfigUpdate]: the cache, the counter [InboundUpdates], and the request
    sent on the push channel. *)
Definition ConfigUpdate_ (c : C) (InboundUpdates : Z) (now : EndpointShards.clock) (req : PushRequest)
  : C * Z * PushRequest :=
  (if HasConfigsOfKind (ConfigsUpdated req) kind.Address then cache_ClearAll c now else c,
   wrap_s64 (InboundUpdates + 1), req).

Definition endpoint_request (full : bool) (serviceName namespace : string) : PushRequest :=
  mkRequest (ReasonStats.NewReasonStats [EndpointUpdate])
    (GoSet.New [ConfigKey.mk kind.Service serviceName namespace]) None false full None time_zero
    emptyResourceDelta.

(** [EDSUpdate]: the index, and the request given to [ConfigUpdate], if any. *)
Definition EDSUpdate (e : EndpointIndex C) shard serviceName namespace dubboEndpoints now1 now2
  : EndpointIndex C * option PushRequest :=
  let '(e, pushType) := UpdateServiceEndpoints e shard serviceName namespace dubboEndpoints now1 now2 in
  match pushType with
  | IncrementalPush | FullPush =>
      (e, Some (endpoint_request (bool_decide (pushType = FullPush)) serviceName namespace))
  | NoPush =>
      if (length dubboEndpoints =? 0)%nat then (e, Some (endpoint_request false serviceName namespace))
      else (e, None)
  end.

Definition EDSCacheUpdate (e : EndpointIndex C) shard serviceName namespace dubboEndpoints now1 now2
  : EndpointIndex C :=
  fst (UpdateServiceEndpoints e shard serviceName namespace dubboEndpoints now1 now2).

Definition ServiceUpdate (e : EndpointIndex C) shard hostname namespace (deleted : bool) now
  : EndpointIndex C :=
  if deleted then DeleteServiceShard e shard hostname namespace false now else e.

End changes.

(** ** Lemmas *)

Lemma str_length_zero s : (String.length s =? 0)%nat = true <-> s = "".
Proof. destruct s; simpl; split; done. Qed.

Lemma split_four t ip id dns :
  no_char "~" t = true -> no_char "~" ip = true -> no_char "~" id = true -> no_char "~" dns = true ->
  Split (t +:+ String "~" (ip +:+ String "~" (id +:+ String "~" dns))) "~" = [t; ip; id; dns].
Proof.
  intros Ht Hi Hid Hd. unfold Split.
  assert (Hlen : exists n, String.length (t +:+ String "~" (ip +:+ String "~" (id +:+ String "~" dns)))
    = S (S (S n))).
  { rewrite !str_length_app. simpl. rewrite !str_length_app. simpl. rewrite str_length_app. simpl.
    eexists. rewrite <- !plus_n_Sm. f_equal. }
  destruct Hlen as [n ->].
  rewrite (split_fuel_cons _ t) by done. rewrite (split_fuel_cons _ ip) by done.
  rewrite (split_fuel_cons _ id) by done. by rewrite split_fuel_single.
Qed.

Section server_lemmas.
Context {M : Type} (ParseMetadata : M -> res NodeMetadata) (ParseIP : string -> bool).
Context (Authorize : option (Proxy -> list string -> res unit)).
Context (GetProxyServiceTargets : Proxy -> list ServiceTarget).

Lemma initProxyMetadata_errors node e :
  initProxyMetadata ParseMetadata ParseIP node = Err e -> err_code e = InvalidArgument.
Proof.
  unfold initProxyMetadata. destruct node as [[nid meta]|]; [|by intros [= <-]]. simpl.
  destruct (match meta with Some m => ParseMetadata m | None => Ok emptyMetadata end) as [m|e1|w];
    simpl; [|by intros [= <-]|done].
  destruct (ParseServiceNodeWithMetadata ParseIP nid m) as [p|e2|w]; simpl; [|by intros [= <-]|done].
  destruct (String.eqb (Generator m) ""); simpl; [done|].
  destruct (String.eqb (Generator m) "grpc"); simpl; [done|by intros [= <-]].
Qed.

(** *** Identifiers of connections *)

(** The connections hold identifiers drawn from the counter. *)
Definition ids_drawn (s : DiscoveryServer) : Prop :=
  0 <= connectionNumber s /\
  forall id con, adsClients s !! id = Some con ->
    exists node n, id = node +:+ "-" +:+ Itoa n /\ 0 < n <= connectionNumber s.

Lemma Itoa_no_dash n : 0 <= n -> no_char "-" (Itoa n) = true.
Proof.
  intros Hn. unfold Itoa. destruct (Z.ltb_spec n 0); [lia|].
  apply no_char_digits; [by apply dec_aux_digits|done].
Qed.

Lemma conn_id_inj node n node' n' :
  0 <= n < two63 -> 0 <= n' < two63 ->
  node +:+ "-" +:+ Itoa n = node' +:+ "-" +:+ Itoa n' -> n = n'.
Proof.
  intros Hn Hn' E. assert (Ha : forall nd k, 0 <= k < two63 ->
    after_last "-" (nd +:+ "-" +:+ Itoa k) = Some (Itoa k)).
  { intros nd k Hk. change (nd +:+ "-" +:+ Itoa k) with (nd +:+ String "-" (Itoa k)).
    rewrite after_last_cut, after_last_none; [done|]. apply Itoa_no_dash. lia. }
  pose proof (Ha node n Hn) as H1. rewrite E, (Ha node' n' Hn') in H1. injection H1 as H1.
  rewrite <- (Itoa_Atoi n), <- (Itoa_Atoi n'), H1; [done|unfold in_s64; lia|unfold in_s64; lia].
Qed.

(** While the counter does not wrap around, a new identifier is not in use. *)
Lemma connectionID_fresh s node :
  ids_drawn s -> connectionNumber s + 1 < two63 ->
  let '(s', id) := connectionID s node in
  adsClients s !! id = None /\ adsClients s' = adsClients s /\
  connectionNumber s' = connectionNumber s + 1 /\ id = node +:+ "-" +:+ Itoa (connectionNumber s + 1).
Proof.
  intros [H0 Hids] Hlt. unfold connectionID. rewrite wrap_s64_id by (unfold in_s64; lia). simpl.
  split; [|done]. destruct (adsClients s !! _) as [con|] eqn:E; [|done].
  destruct (Hids _ _ E) as (node' & n & Hid & Hn). exfalso.
  assert (connectionNumber s + 1 = n); [|lia].
  eapply conn_id_inj; [..|exact Hid]; lia.
Qed.

(** What [initConnection] leaves behind. *)
Lemma initConnection_cases s node con identities :
  let '(s', con', r) := initConnection ParseMetadata ParseIP Authorize GetProxyServiceTargets
    s node con identities in
  match r with
  | Ok _ => exists p authorize,
      initProxyMetadata ParseMetadata ParseIP node = Ok p /\ Authorize = Some authorize /\
      (exists p', proxy con' = Some p' /\ Proxy.ID p' = Proxy.ID p /\ Proxy.WatchedResources p' = Some ∅) /\
      (exists p', authorize p' identities = Ok tt /\ Proxy.ID p' = Proxy.ID p) /\
      conID con' = snd (connectionID s (Proxy.ID p)) /\ ids con' = identities /\
      adsClients s' = <[conID con' := con']> (adsClients s) /\
      connectionNumber s' = connectionNumber (fst (connectionID s (Proxy.ID p)))
  | _ => adsClients s' = adsClients s /\
      (connectionNumber s' = connectionNumber s \/
       exists p, connectionNumber s' = connectionNumber (fst (connectionID s p)))
  end.
Proof.
  unfold initConnection. destruct (initProxyMetadata ParseMetadata ParseIP node) as [p|e|w];
    [|by split; [|left]..].
  cbn [Proxy.ID connectionID fst snd].
  destruct Authorize as [authorize|]; [|split; [done|right; by exists (Proxy.ID p)]].
  destruct (authorize _ identities) as [[]|e|w] eqn:Ea;
    [|split; [done|right; by exists (Proxy.ID p)]..].
  exists p, authorize. split; [done|]. split; [done|].
  split; [eexists; split; [done|]; done|]. split; [eexists; split; [exact Ea|done]|]. done.
Qed.

Lemma initConnection_drawn s node con identities s' con' r :
  ids_drawn s -> connectionNumber s + 1 < two63 ->
  initConnection ParseMetadata ParseIP Authorize GetProxyServiceTargets s node con identities
    = (s', con', r) ->
  ids_drawn s' /\ connectionNumber s <= connectionNumber s' <= connectionNumber s + 1.
Proof.
  intros Hd Hlt E. pose proof (initConnection_cases s node con identities) as Hc. rewrite E in Hc.
  assert (Hnum : forall p, connectionNumber (fst (connectionID s p)) = connectionNumber s + 1).
  { intros p. pose proof (connectionID_fresh s p Hd Hlt) as Hf.
    destruct (connectionID s p). by destruct Hf as (_ & _ & ? & _). }
  destruct Hd as [H0 Hids].
  assert (Hkeep : adsClients s' = adsClients s -> connectionNumber s <= connectionNumber s' -> ids_drawn s').
  { intros Ea Hn. split; [lia|]. rewrite Ea. intros id c Hid.
    destruct (Hids _ _ Hid) as (node' & n & ? & ?). exists node', n. split; [done|lia]. }
  destruct r as [[]|e|w].
  - destruct Hc as (p & authorize & _ & _ & _ & _ & Hid & _ & Ha & Hn).
    rewrite Hn, Hnum. split; [|lia]. split; [rewrite Hn, Hnum; lia|].
    rewrite Ha, Hn, Hnum. intros id c. rewrite lookup_insert. case_decide as Eid.
    + intros _. pose proof (connectionID_fresh s (Proxy.ID p) (conj H0 Hids) Hlt) as Hf.
      destruct (connectionID s (Proxy.ID p)) as [s1 id1]. destruct Hf as (_ & _ & _ & Hform).
      simpl in Hid. exists (Proxy.ID p), (connectionNumber s + 1). split; [congruence|lia].
    + intros Hl. destruct (Hids _ _ Hl) as (node' & n & ? & ?). exists node', n. split; [done|lia].
  - destruct Hc as [Ha [Hn|[p Hn]]]; (split; [apply Hkeep; [done|]|]); rewrite Hn, ?Hnum; lia.
  - destruct Hc as [Ha [Hn|[p Hn]]]; (split; [apply Hkeep; [done|]|]); rewrite Hn, ?Hnum; lia.
Qed.

Lemma closeConnection_drawn s con : ids_drawn s -> ids_drawn (closeConnection s con).
Proof.
  intros [H0 Hids]. unfold closeConnection, removeCon.
  destruct (String.eqb (conID con) ""); [done|]. destruct (adsClients s !! conID con); [|done].
  split; [done|]. simpl. intros id con'. rewrite lookup_delete. case_decide; [done|]. apply Hids.
Qed.

End server_lemmas.

(** *** Pushes *)

(** Queueing a request for some clients is a run of the queue. *)
Lemma enqueue_all_steps q clients r q' :
  enqueue_all q clients r = Ok q' ->
  PushQueue.run q (map (fun c => LEnqueue (conPtr c) r) clients) = Some q'.
Proof.
  revert q; induction clients as [|c clients IH]; intros q; simpl; [by intros [= ->]|].
  destruct (Enqueue q (conPtr c) (Some r)) as [q1|e|w]; simpl; [apply IH|done|done].
Qed.

Lemma enqueue_all_total q clients r : exists q', enqueue_all q clients r = Ok q'.
Proof.
  revert q; induction clients as [|c clients IH]; intros q; simpl; [by eexists|].
  assert (HE : exists q1, Enqueue q (conPtr c) (Some r) = Ok q1).
  { unfold Enqueue. destruct (shuttingDown q); [by eexists|].
    destruct (processing q !! conPtr c); [rewrite CopyMerge_total; by eexists|].
    destruct (pending q !! conPtr c); [rewrite CopyMerge_total; by eexists|by eexists]. }
  destruct HE as [q1 ->]. simpl. apply IH.
Qed.

(** A connection that is left out watches clusters, none of an updated
    service. *)
Lemma not_watching con services :
  connectionWatchesAnyService con services = false ->
  exists p watched, proxy con = Some p /\
    nmap_get (Proxy.WatchedResources p) !! EndpointType = Some watched /\
    nset_len (ResourceNames watched) <> 0%nat /\
    forall n, n ∈ nset_elems (ResourceNames watched) ->
      ParseSubsetKeyHostname n ∉ nset_elems services.
Proof.
  unfold connectionWatchesAnyService. destruct (proxy con) as [p|]; [|done].
  destruct (nset_len services =? 0)%nat; [done|]. destruct (IsInherentGrpc p); simpl; [|done].
  destruct (nmap_get (Proxy.WatchedResources p) !! EndpointType) as [w|] eqn:Ew; [|done].
  destruct (Nat.eqb_spec (nset_len (ResourceNames w)) 0) as [|Hne]; [done|]. intros Hf.
  exists p, w. split; [done|]. split; [done|]. split; [done|]. intros n Hn Hs.
  apply not_true_iff_false in Hf. apply Hf, existsb_elem. exists n.
  rewrite GoSet.UnsortedList_elem, GoSet.Contains_spec. done.
Qed.

Lemma pushed_clusters_none services names :
  (forall n, n ∈ names -> ParseSubsetKeyHostname n ∉ nset_elems services) ->
  pushed_clusters true services names = [].
Proof.
  intros Hn. unfold pushed_clusters. induction names as [|n names IH]; simpl; [done|].
  assert (GoSet.Contains services (ParseSubsetKeyHostname n) = false) as ->.
  { apply GoSet.Contains_false, Hn. set_solver. }
  simpl. apply IH. set_solver.
Qed.

(** ** Properties *)

(** A targeted push may leave a connection out only when it has
    nothing to send to it: a connected client that [clientsForPush] drops
    watches endpoint clusters, and the endpoint generator, run for that watch
    with the same request, would produce no resource. *)
Theorem skipped_clients_need_nothing {L LS C} `{!LRUCache Z (cacheValue Resource) L}
    `{!LRUCache string (cacheValue Resource) LS} sum64 HashCode MessageToAny services
    (index : EndpointIndex C) (cache : option (XdsCacheImpl Resource L LS))
    (s : DiscoveryServer) (req : PushRequest) (con : Connection) :
  con ∈ AllClients s -> con ∉ clientsForPush s (Some req) -> ports_ok services ->
  exists p watched details cache',
    proxy con = Some p /\ nmap_get (Proxy.WatchedResources p) !! EndpointType = Some watched /\
    buildEndpoints sum64 HashCode MessageToAny services index cache req watched
      = Ok ([], details, cache').
Proof.
  intros Hall Hnot Hp. unfold clientsForPush in Hnot.
  destruct (Full req); [done|]. unfold buildEndpoints.
  destruct (edsUpdatedServicesForRequest (Some req)) as [updated targeted].
  destruct targeted; simpl in Hnot; [|done].
  assert (Hw : connectionWatchesAnyService con updated = false).
  { apply not_true_iff_false. intros Ht. apply Hnot. apply list_elem_of_In, filter_In.
    split; [by apply list_elem_of_In|done]. }
  destruct (not_watching con updated Hw) as (p & watched & H1 & H2 & _ & H3).
  exists p, watched. destruct (build_loop_fresh sum64 HashCode MessageToAny services index req true updated
    (GoSet.UnsortedList (ResourceNames watched)) (mkLoop [] [] 0 0 0 cache) Hp) as (st & -> & Hr).
  rewrite pushed_clusters_none in Hr by (intros n; rewrite GoSet.UnsortedList_elem; apply H3).
  cbn [mbind res_bind]. rewrite Hr. eauto 10.
Qed.

(** A push is queued once for each selected connection: the queue
    after [StartPush] is the one reached by enqueueing the request, stamped
    with the current time, for the clients of [clientsForPush] in turn, and
    the registered connections do not change. *)
Theorem StartPush_queues_each_client s now req :
  exists s', StartPush s now req = Ok s' /\ adsClients s' = adsClients s /\
    PushQueue.run (pushQueue s)
      (map (fun c => LEnqueue (conPtr c) (set_Start now req)) (clientsForPush s (Some req)))
    = Some (pushQueue s').
Proof.
  unfold StartPush.
  assert (clientsForPush s (Some (set_Start now req)) = clientsForPush s (Some req)) as -> by done.
  destruct (enqueue_all_total (pushQueue s) (clientsForPush s (Some req)) (set_Start now req)) as [q' Hq].
  rewrite Hq. simpl. eexists. split; [done|]. split; [done|]. by apply enqueue_all_steps.
Qed.

(** An endpoint change is turned into exactly one request for the
    service, or none: none when the index says no push is needed, a full one
    when it says so, an incremental one otherwise. *)
Theorem EDSUpdate_spec {C} `{!XdsCacheClear C} (e : EndpointIndex C) shard svc ns eps now1 now2 :
  let '(e', t) := UpdateServiceEndpoints e shard svc ns eps now1 now2 in
  EDSUpdate e shard svc ns eps now1 now2 =
  (e', match t with
       | NoPush => None
       | IncrementalPush => Some (endpoint_request false svc ns)
       | FullPush => Some (endpoint_request true svc ns)
       end).
Proof.
  unfold EDSUpdate. destruct (UpdateServiceEndpoints e shard svc ns eps now1 now2) as [e' t] eqn:E.
  destruct t; try done. destruct eps as [|ep eps]; [|done].
  unfold UpdateServiceEndpoints in E. simpl in E. by injection E.
Qed.

(** Only authorized connections are registered, under identifiers of
    their own: [initConnection] registers a connection exactly when it
    succeeds, which takes a configured authorizer that accepts the workload
    and its identities; the new identifier is not in use (the counter not
    having wrapped), so no other connection is replaced; a failure leaves the
    registered connections alone. *)
Theorem initConnection_admission {M} (ParseMetadata : M -> res NodeMetadata) ParseIP Authorize
    GetProxyServiceTargets s node con identities :
  ids_drawn s -> connectionNumber s + 1 < two63 ->
  let '(s', con', r) := initConnection ParseMetadata ParseIP Authorize GetProxyServiceTargets
    s node con identities in
  ids_drawn s' /\
  match r with
  | Ok _ =>
      adsClients s !! conID con' = None /\ adsClients s' = <[conID con' := con']> (adsClients s) /\
      exists authorize p, Authorize = Some authorize /\ authorize p identities = Ok tt /\
        exists p', proxy con' = Some p' /\ Proxy.ID p' = Proxy.ID p
  | _ => adsClients s' = adsClients s
  end.
Proof.
  intros Hd Hlt.
  destruct (initConnection ParseMetadata ParseIP Authorize GetProxyServiceTargets s node con identities)
    as [[s' con'] r] eqn:E.
  pose proof (initConnection_drawn ParseMetadata ParseIP Authorize GetProxyServiceTargets
    s node con identities s' con' r Hd Hlt E) as [Hd' _]. split; [done|].
  pose proof (initConnection_cases ParseMetadata ParseIP Authorize GetProxyServiceTargets
    s node con identities) as Hc. rewrite E in Hc. destruct r as [[]|e|w]; [|by destruct Hc..].
  destruct Hc as (p & authorize & _ & HA & (p1 & Hp1 & Hid1 & _) & (p2 & Hp2 & Hid2) & Hid & _ & Ha & _).
  pose proof (connectionID_fresh s (Proxy.ID p) Hd Hlt) as Hf.
  destruct (connectionID s (Proxy.ID p)) as [s1 id]. simpl in Hid. destruct Hf as (Hf & _).
  split; [by rewrite Hid|]. split; [done|]. exists authorize, p2. split; [done|]. split; [done|].
  exists p1. split; [done|]. congruence.
Qed.

(** Node identifiers: the four parts of a well-formed identifier are
    recovered, and a node that is refused is always refused as an invalid
    argument. *)
Theorem node_id_roundtrip {M} (ParseMetadata : M -> res NodeMetadata) ParseIP t ip id dns meta :
  IsApplicationNodeType t = true -> id <> "" ->
  no_char "~" ip = true -> no_char "~" id = true -> no_char "~" dns = true ->
  ParseServiceNodeWithMetadata ParseIP (t +:+ "~" +:+ ip +:+ "~" +:+ id +:+ "~" +:+ dns) meta
    = Ok (Proxy.mk None time_zero t None id dns (Some meta)
            (if (0 <? String.length ip)%nat && ParseIP ip then [ip] else []) "" []) /\
  (forall node e, initProxyMetadata ParseMetadata ParseIP node = Err e -> err_code e = InvalidArgument).
Proof.
  intros Ht Hid Hip Hi Hd. split; [|apply initProxyMetadata_errors].
  assert (Htn : no_char "~" t = true).
  { unfold IsApplicationNodeType in Ht. apply orb_true_iff in Ht as [->%String.eqb_eq| ->%String.eqb_eq]; done. }
  unfold ParseServiceNodeWithMetadata, serviceNodeSeparator.
  change (t +:+ "~" +:+ ip +:+ "~" +:+ id +:+ "~" +:+ dns)
    with (t +:+ String "~" (ip +:+ String "~" (id +:+ String "~" dns))).
  rewrite split_four by done. rewrite Ht. simpl.
  destruct (String.length id =? 0)%nat eqn:E; [|done]. by apply str_length_zero in E.
Qed.

(** *** Witnesses *)
Section witnesses.
#[local] Instance ads_lru : LRUCache Z (cacheValue Resource) (gmap Z (cacheValue Resource)) := bounded_lru 4.
#[local] Instance ads_slru : LRUCache string (cacheValue Resource) (gmap string (cacheValue Resource)) := bounded_lru 4.

Definition sample_proxy : Proxy :=
  Proxy.mk None time_zero Inherent (Some {[EndpointType := new_watch EndpointType (Some {["outbound|20880||other"]})]})
    "app.ns" "ns.svc.cluster.local" (Some (mkMeta "grpc" "c1" "ns")) ["10.0.0.9"] "ns" [].
Definition sample_connection : Connection := mkConnection 1%positive "app.ns-1" (Some sample_proxy) [] true.
Definition sample_server : DiscoveryServer :=
  mkServer {["app.ns-1" := sample_connection]} NewPushQueue None 1.
Definition sample_incremental : PushRequest := endpoint_request false "demo" "ns".

Lemma skipped_clients_need_nothing_witness :
  clientsForPush sample_server (Some sample_incremental) = [] /\
  exists p watched details cache',
    proxy sample_connection = Some p /\
    nmap_get (Proxy.WatchedResources p) !! EndpointType = Some watched /\
    buildEndpoints (fun _ => 7) (fun _ => 0) sample_any sample_services sample_index
      (Some empty_impl) sample_incremental watched = Ok ([], details, cache').
Proof.
  assert (Hc : clientsForPush sample_server (Some sample_incremental) = []) by (vm_compute; reflexivity).
  assert (Ha : AllClients sample_server = [sample_connection]) by (vm_compute; reflexivity).
  split; [exact Hc|].
  apply (skipped_clients_need_nothing (fun _ => 7) (fun _ => 0) sample_any sample_services sample_index
    (Some empty_impl) sample_server).
  - rewrite Ha. by left.
  - rewrite Hc. by intros ?%not_elem_of_nil.
  - apply sample_ports_ok.
Defined.

Definition sample_node : Node (M := NodeMetadata) := mkNode "inherent~10.0.0.1~b.ns~svc" None.
Definition accept_all : option (Proxy -> list string -> res unit) := Some (fun _ _ => Ok tt).

Lemma initConnection_admission_witness :
  exists s' con', initConnection Ok (fun _ => true) accept_all (fun _ => []) sample_server
      (Some sample_node) (mkConnection 2%positive "" None [] false) [] = (s', con', Ok tt) /\
    conID con' = "b.ns-2" /\ adsClients sample_server !! conID con' = None /\
    adsClients s' = <[conID con' := con']> (adsClients sample_server).
Proof.
  pose proof (initConnection_admission Ok (fun _ => true) accept_all (fun _ => []) sample_server
    (Some sample_node) (mkConnection 2%positive "" None [] false) []) as H.
  destruct (initConnection Ok (fun _ => true) accept_all (fun _ => []) sample_server
    (Some sample_node) (mkConnection 2%positive "" None [] false) []) as [[s' con'] r] eqn:E.
  assert (Er : snd (initConnection Ok (fun _ => true) accept_all (fun _ => []) sample_server
    (Some sample_node) (mkConnection 2%positive "" None [] false) []) = Ok tt) by (vm_compute; reflexivity).
  assert (Ei : conID (snd (fst (initConnection Ok (fun _ => true) accept_all (fun _ => []) sample_server
    (Some sample_node) (mkConnection 2%positive "" None [] false) []))) = "b.ns-2") by (vm_compute; reflexivity).
  rewrite E in Er, Ei. simpl in Er, Ei. subst r. exists s', con'. split; [done|]. split; [exact Ei|].
  destruct H as (_ & H1 & H2 & _); [..|done].
  - split; [done|]. intros id con Hl. unfold sample_server in Hl. cbn [adsClients] in Hl.
    apply lookup_singleton_Some in Hl as [<- <-].
    exists "app.ns", 1. split; [vm_compute; reflexivity|by vm_compute].
  - by vm_compute.
Defined.

Lemma node_id_roundtrip_witness :
  ParseServiceNodeWithMetadata (fun _ => true) "router~10.0.0.1~a.ns~ns.svc" emptyMetadata
    = Ok (Proxy.mk None time_zero "router" None "a.ns" "ns.svc" (Some emptyMetadata) ["10.0.0.1"] "" []).
Proof.
  exact (proj1 (node_id_roundtrip (M := unit) (fun _ => Ok emptyMetadata) (fun _ => true)
    "router" "10.0.0.1" "a.ns" "ns.svc" emptyMetadata eq_refl ltac:(discriminate) eq_refl eq_refl eq_refl)).
Defined.

End witnesses.
