(* ===== verification/XdsGen.v ===== *)
(** * Answering requests and pushing

    [dubbod/discovery/pkg/xds/xdsgen.go], the request and push handlers of
    [dubbod/discovery/pkg/xds/ads.go] and [delta.go], and the authorization of
    a connection in [auth.go]: what is sent to a client when it asks for
    resources and when a push reaches it.

    The handlers of a connection run one after the other in the goroutine of
    its stream.  They change the proxy and write to the stream; [act] threads
    both.  What they read from outside (the clock, the identifiers of
    [uuid.New], the result of [stream.Send], the resources a generator returns)
    may differ at each call: it is a function of the number of the call,
    [ps_tick].  The resource generators, protobuf decoding and the authorizer
    are parameters.

    A [*WatchedResource] the handlers work on is the one the proxy's table has
    for its type, so [pushXds] is given the type and reads the table.  A push
    that is not a client's request ([IsRequest]) never replaces an entry of the
    table, so this is also true in the loops of [pushConnection]. *)

From S2P Require Import Prelude GoStrings GoSets ConfigKeys PushRequest PushQueue Hosts Service XdsCache EndpointShards EndpointBuilder Watch XdsProtocol Delta Eds Ads GoSort.

(** ** Messages *)

(** What the code reads of [listener.Listener], [hcmv1.HttpConnectionManager]
    and [cluster.Cluster]. *)
Record Filter : Type := mkFilter { filter_Name : string; filter_TypedConfig : option Any }.
Record Listener : Type := mkListener {
  FilterChains : list (list Filter);
  ApiListener : option Any
}.
Inductive RouteSpecifier : Type :=
  | RouteUnset
  | Rds (routeConfigName : option string)
  | RouteOther.
Inductive ClusterDiscoveryType : Type := DiscoveryUnset | Cluster_EDS | DiscoveryOther.
Record Cluster : Type := mkCluster { cl_Name : string; cl_Type : ClusterDiscoveryType }.

Record DiscoveryResponse : Type := mkResponse {
  rs_TypeUrl : string; rs_VersionInfo : string; rs_Nonce : string; rs_Resources : list Any }.
Record DeltaDiscoveryResponse : Type := mkDeltaResponse {
  dr_TypeUrl : string; dr_SystemVersionInfo : string; dr_Nonce : string;
  dr_Resources : Resources; dr_RemovedResources : list string }.

Inductive message : Type :=
  | Sotw (r : DiscoveryResponse)
  | Incr (r : DeltaDiscoveryResponse).

(** ** Names a response refers to *)
Section extraction.
Context (UnmarshalListener : Any -> option Listener) (UnmarshalHCM : Any -> option RouteSpecifier)
        (UnmarshalCluster : Any -> option Cluster).

(** An outbound listener ["host:port"] refers to a cluster and to a route of
    the same name. *)
Definition outbound_name (listenerName : string) : option string :=
  if str_contains listenerName ":"
     && negb (HasPrefix listenerName "xds.dubbo.apache.org/grpc/lds/inbound/") then
    match Split listenerName ":" with
    | [hostname; portStr] =>
        if Atoi_ok portStr then
          Some (BuildSubsetKey TrafficDirectionOutbound "" hostname (Atoi_value portStr))
        else None
    | _ => None
    end
  else None.

Definition insert_opt (o : option string) (s : gset string) : gset string :=
  match o with Some x => s ∪ {[x]} | None => s end.

Definition extractClusterNamesFromLDS (listeners : Resources) : list string :=
  elements (fold_left (fun clusterNames r => insert_opt (outbound_name (res_Name r)) clusterNames)
    listeners (∅ : gset string)).

Definition rds_name (o : option RouteSpecifier) : option string :=
  match o with
  | Some (Rds (Some routeName)) => if String.eqb routeName "" then None else Some routeName
  | _ => None
  end.

Definition filter_route (f : Filter) : option string :=
  if String.eqb (filter_Name f) "http_connection_manager"
  then rds_name (filter_TypedConfig f ≫= UnmarshalHCM) else None.

(** The routes of one listener; a listener or an API listener that cannot be
    decoded ends its treatment. *)
Definition listener_routes (routeNames : gset string) (r : Resource) : gset string :=
  match UnmarshalListener (res_Resource r) with
  | None => routeNames
  | Some ll =>
      let routeNames := fold_left (fun s f => insert_opt (filter_route f) s)
                          (concat (FilterChains ll)) routeNames in
      match ApiListener ll with
      | Some api =>
          match UnmarshalHCM api with
          | None => routeNames
          | Some hcm => insert_opt (outbound_name (res_Name r))
                          (insert_opt (rds_name (Some hcm)) routeNames)
          end
      | None => insert_opt (outbound_name (res_Name r)) routeNames
      end
  end.

Definition extractRouteNamesFromLDS (listeners : Resources) : list string :=
  elements (fold_left listener_routes listeners ∅).

Definition eds_cluster (r : Resource) : option string :=
  match UnmarshalCluster (res_Resource r) with
  | Some cl => match cl_Type cl with Cluster_EDS => Some (cl_Name cl) | _ => None end
  | None => None
  end.

Definition extractEDSClusterNamesFromCDS (clusters : Resources) : list string :=
  elements (fold_left (fun s r => insert_opt (eds_cluster r) s) clusters (∅ : gset string)).

End extraction.

Definition resourceNamesSet (r : Resources) : nset string := GoSet.New (map res_Name r).

Definition shouldSetWatchedResources (w : WatchedResource) : bool :=
  IsWildcardTypeURL (TypeUrl w) || String.eqb (TypeUrl w) RouteType.

(** ** The handlers of a connection *)

Record push_state : Type := mkPS {
  ps_proxy : option Proxy;
  ps_sent : list message;
  ps_tick : nat
}.

(** A state and error monad: an error leaves the state it was met in. *)
Definition act (A : Type) : Type := push_state -> push_state * res A.

#[global] Instance act_ret : MRet act := fun A a st => (st, Ok a).
#[global] Instance act_bind : MBind act := fun A B f m st =>
  match m st with
  | (st, Ok a) => f a st
  | (st, Err e) => (st, Err e)
  | (st, Panic w) => (st, Panic w)
  end.

Definition lift {A} (r : res A) : act A := fun st => (st, r).
Definition fail {A} (code : grpc_code) (msg : string) : act A := lift (Err (mk_error code msg)).

(** [if err := m; err != nil { log.Warnf(...) }] *)
Definition warn (m : act unit) : act unit := fun st =>
  match m st with (st, Err _) => (st, Ok tt) | r => r end.

Definition tick : act nat := fun st =>
  (mkPS (ps_proxy st) (ps_sent st) (S (ps_tick st)), Ok (ps_tick st)).

(** [con.proxy], dereferenced. *)
Definition get_proxy : act Proxy := fun st =>
  (st, match ps_proxy st with Some p => Ok p | None => nil_deref end).
Definition put_proxy (p : Proxy) : act unit := fun st =>
  (mkPS (Some p) (ps_sent st) (ps_tick st), Ok tt).

Definition set_watches (ws : ProxyWatch.watches) (p : Proxy) : Proxy :=
  Proxy.mk (Proxy.LastPushContext p) (Proxy.LastPushTime p) (Proxy.Type_ p) ws (Proxy.ID p)
    (Proxy.DNSDomain p) (Proxy.Metadata p) (Proxy.IPAddresses p) (Proxy.ConfigNamespace p)
    (Proxy.ServiceTargets p).

(** A method of the proxy that reads or changes its table. *)
Definition get_watch (url : string) : act (option WatchedResource) :=
  p ← get_proxy; mret (GetWatchedResource (Proxy.WatchedResources p) url).
Definition on_watches {A} (f : ProxyWatch.watches -> res (ProxyWatch.watches * A)) : act A :=
  p ← get_proxy;
  r ← lift (f (Proxy.WatchedResources p));
  _ ← put_proxy (set_watches (fst r) p);
  mret (snd r).
Definition change_watches (f : ProxyWatch.watches -> res ProxyWatch.watches) : act unit :=
  on_watches (fun ws => ws ← f ws; Ok (ws, tt)).

(** A generator: what the [n]th call returns. *)
Record generator : Type := mkGenerator {
  gen_Generate : nat -> Proxy -> WatchedResource -> PushRequest ->
    option Resources * XdsLogDetails * option gerror;
  (* for a generator that implements [XdsDeltaResourceGenerator] *)
  gen_GenerateDeltas : option (nat -> Proxy -> PushRequest -> WatchedResource ->
    option Resources * option (list string) * XdsLogDetails * bool * option gerror)
}.

(** What the handlers use of the server and of the world.  [con_ids] and
    [authExpiry] are the fields of the connection that do not change after its
    start. *)
Class Environment : Type := {
  UnmarshalListener : Any -> option Listener;
  UnmarshalHCM : Any -> option RouteSpecifier;
  UnmarshalCluster : Any -> option Cluster;
  Generators : gmap string generator;
  Authorize : option (Proxy -> list string -> res unit);
  GetProxyServiceTargets : Proxy -> list ServiceTarget;
  ProxyNeedsPush : option (Proxy -> PushRequest -> PushRequest * bool);
  PushVersion : ptr -> string;
  time_Now : nat -> Time;
  uuid_New : nat -> string;
  stream_Send : nat -> option gerror;
  con_ids : list string;
  authExpiry : Time
}.

Section handlers.
Context `{!Environment}.

(** The certificate has not expired and the authorizer accepts. *)
Definition check_authorized (authorize : Proxy -> list string -> res unit) : act unit :=
  i ← tick;
  if negb (IsZero authExpiry) && negb (time_Now i <? authExpiry) then
    fail Unauthenticated "xDS client certificate has expired; reconnect with renewed credentials"
  else
    p ← get_proxy;
    match authorize p con_ids with
    | Err e => fail PermissionDenied (err_msg e)
    | r => lift r
    end.

Definition authorizeConnection : act unit := fun st =>
  match ps_proxy st, Authorize with
  | Some _, Some authorize => check_authorized authorize st
  | _, _ => fail PermissionDenied "xDS workload authorization is not configured" st
  end.

Definition findGenerator (typeURL : string) : act (option generator) := fun st =>
  (st, Ok (match ps_proxy st with
           | Some p => match Proxy.Metadata p with
                       | Some m => Generators !! (Generator m +:+ "/" +:+ typeURL)
                       | None => None end
           | None => None end)).

(** [req.Push.PushVersion] *)
Definition push_version (req : PushRequest) : act string :=
  match Push req with Some c => mret (PushVersion c) | None => lift nil_deref end.

Definition nonce (noncePrefix : string) : act string :=
  i ← tick; mret (noncePrefix +:+ uuid_New i).

(** The requests the handlers build. *)
Definition request_for (reason : TriggerReason) (push : option ptr) (start : Time)
    (delta : ResourceDelta) (forced : bool) : PushRequest :=
  mkRequest (ReasonStats.NewReasonStats [reason]) None None forced true push start delta.

Definition generate (g : generator) (w : WatchedResource) (req : PushRequest)
  : act (option Resources * XdsLogDetails * option gerror) :=
  i ← tick; p ← get_proxy; mret (gen_Generate g i p w req).

(** [xds.Send] *)
Definition Send (resp : DiscoveryResponse) : act unit :=
  i ← tick;
  match stream_Send i with
  | Some e => lift (Err e)
  | None =>
      j ← tick;
      _ ← (fun st => (mkPS (ps_proxy st) (ps_sent st ++ [Sotw resp]) (ps_tick st), Ok tt)) : act unit;
      change_watches (fun ws => Send_update (time_Now j) ws (rs_TypeUrl resp) (rs_Nonce resp))
  end.

(** *** State of the world *)

(** A watch without names: the names come from the resources of the parent
    type, generated again, when those have been sent.  The watch is updated. *)
Definition wildcard_names (t parent : string) (extract : Resources -> list string)
    (w : WatchedResource) (req : PushRequest) : act (WatchedResource * nset string) :=
  parentWatched ← get_watch parent;
  match parentWatched with
  | Some pw =>
      if String.eqb (NonceSent pw) "" then mret (w, None) else
      p ← get_proxy;
      gen ← findGenerator parent;
      match gen with
      | None => mret (w, None)
      | Some g =>
          '(r, _, _) ← generate g pw
            (request_for DependentResource (Push req) (Proxy.LastPushTime p) emptyResourceDelta false);
          let names := extract (default [] r) in
          if (length (default [] r) =? 0)%nat || (length names =? 0)%nat then mret (w, None)
          else
            let w := set_ResourceNames (GoSet.New names) w in
            _ ← change_watches (fun ws => ProxyWatch.write ws t w);
            mret (w, GoSet.New names)
      end
  | None => mret (w, None)
  end.

(** The names an answer is limited to; nil for no limit. *)
Definition requested_names (t : string) (w : WatchedResource) (req : PushRequest)
  : act (WatchedResource * nset string) :=
  p ← get_proxy;
  if negb (IsInherentGrpc p) then mret (w, None)
  else if (nset_len (ResourceNames w) =? 0)%nat then
    if String.eqb (TypeUrl w) ClusterType then
      wildcard_names t ListenerType extractClusterNamesFromLDS w req
    else if String.eqb (TypeUrl w) EndpointType then
      wildcard_names t ClusterType (extractEDSClusterNamesFromCDS UnmarshalCluster) w req
    else if String.eqb (TypeUrl w) RouteType then
      wildcard_names t ListenerType (extractRouteNamesFromLDS UnmarshalListener UnmarshalHCM) w req
    else mret (w, None)
  else mret (w, GoSet.New (GoSet.UnsortedList (ResourceNames w))).

Definition filter_requested (requested : nset string) (r : Resources) : Resources :=
  if (0 <? nset_len requested)%nat
  then List.filter (fun x => GoSet.Contains requested (res_Name x)) r else r.

(** The watch of a type is absent or without names. *)
Definition not_requested (w : option WatchedResource) : bool :=
  match w with None => true | Some w => (nset_len (ResourceNames w) =? 0)%nat end.

(** The names are added to the watch of a type. *)
Definition add_names (url : string) (names : list string) : act unit :=
  change_watches (fun ws => UpdateWatch ws url (fun wr =>
    let wr := match wr with None => new_watch url (GoSet.New []) | Some wr => wr end in
    let existingNames := match ResourceNames wr with None => GoSet.New [] | s => s end in
    existingNames ← GoSet.InsertAll existingNames names;
    Ok (Some (set_ResourceNames existingNames wr)))).

Definition has_new (w : WatchedResource) (names : list string) : bool :=
  existsb (fun n => negb (GoSet.Contains (ResourceNames w) n)) names.

(** The clusters a listener response refers to are pushed, unless the client
    asked for clusters already. *)
Definition push_clusters (push : string -> PushRequest -> act unit) (clusterNames : list string)
    (req : PushRequest) : act unit :=
  if (length clusterNames =? 0)%nat then mret tt else
  cdsWatched ← get_watch ClusterType;
  if not_requested cdsWatched then
    _ ← change_watches (fun ws => NewWatchedResource ws ClusterType clusterNames);
    p ← get_proxy;
    warn (push ClusterType
      (request_for ProxyRequest (Push req) (Proxy.LastPushTime p) emptyResourceDelta false))
  else mret tt.

(** And its routes, unless they are all watched. *)
Definition push_routes (push : string -> PushRequest -> act unit) (routeNames : list string)
    (req : PushRequest) : act unit :=
  if (length routeNames =? 0)%nat then mret tt else
  rdsWatched ← get_watch RouteType;
  if not_requested rdsWatched then
    _ ← change_watches (fun ws => NewWatchedResource ws RouteType routeNames);
    p ← get_proxy;
    warn (push RouteType
      (request_for ProxyRequest (Push req) (Proxy.LastPushTime p) emptyResourceDelta false))
  else match rdsWatched with
       | Some wr =>
           if has_new wr routeNames then
             _ ← add_names RouteType routeNames;
             p ← get_proxy;
             warn (push RouteType
               (request_for DependentResource (Push req) (Proxy.LastPushTime p) emptyResourceDelta false))
           else mret tt
       | None => mret tt
       end.

(** After a listener response to a direct request. *)
Definition after_listeners (push : string -> PushRequest -> act unit) (res : Resources)
    (req : PushRequest) : act unit :=
  let clusterNames := extractClusterNamesFromLDS res in
  let routeNames := extractRouteNamesFromLDS UnmarshalListener UnmarshalHCM res in
  _ ← push_clusters push clusterNames req;
  push_routes push routeNames req.

(** After a cluster response: the endpoint watch covers its clusters. *)
Definition after_clusters (res : Resources) : act unit :=
  let edsClusterNames := extractEDSClusterNamesFromCDS UnmarshalCluster res in
  if (length edsClusterNames =? 0)%nat then mret tt else
  edsWatched ← get_watch EndpointType;
  match edsWatched with
  | None => change_watches (fun ws => NewWatchedResource ws EndpointType edsClusterNames)
  | Some wr => if has_new wr edsClusterNames then add_names EndpointType edsClusterNames else mret tt
  end.

(** The part of [pushXds] after the generation; [push] is [pushXds] itself. *)
Definition send_resources (push : string -> PushRequest -> act unit) (w : WatchedResource)
    (requested : nset string) (req : PushRequest) (res : Resources) : act unit :=
  p ← get_proxy;
  let res := if IsInherentGrpc p then filter_requested requested res else res in
  version ← push_version req;
  nonceValue ← nonce version;
  _ ← Send (mkResponse (TypeUrl w) version nonceValue (ResourcesToAny res));
  _ ← change_watches (fun ws => UpdateWatch ws (TypeUrl w) (fun wr =>
        match wr with None => Ok None | Some wr => Ok (Some (set_NonceSent nonceValue wr)) end));
  let grpc := IsInherentGrpc p && (0 <? length res)%nat in
  _ ← (if String.eqb (TypeUrl w) ListenerType && grpc && IsRequest req
       then after_listeners push res req else mret tt);
  if String.eqb (TypeUrl w) ClusterType && grpc then after_clusters res else mret tt.

Definition pushXds_body (push : string -> PushRequest -> act unit) (t : string) (req : PushRequest)
  : act unit :=
  _ ← authorizeConnection;
  w ← get_watch t;
  match w with
  | None => mret tt
  | Some w =>
      gen ← findGenerator (TypeUrl w);
      match gen with
      | None => mret tt
      | Some g =>
          '(w, requested) ← requested_names t w req;
          p ← get_proxy;
          let w := if negb (ResourceDelta_IsEmpty (Delta req)) && negb (IsInherentGrpc p)
                   then new_watch (TypeUrl w) (Subscribed (Delta req)) else w in
          '(r, logdata, err) ← generate g w req;
          match err, r with
          | Some e, _ => lift (Err e)
          | None, None => mret tt
          | None, Some res => send_resources push w requested req res
          end
      end
  end.

(** [pushXds] calls itself for the clusters and routes of a listener response;
    [fuel] bounds the nesting. *)
Fixpoint pushXds_fuel (fuel : nat) (t : string) (req : PushRequest) : act unit :=
  match fuel with
  | O => lift (Panic "push nested too deeply")
  | S fuel => pushXds_body (pushXds_fuel fuel) t req
  end.

Definition pushXds : string -> PushRequest -> act unit := pushXds_fuel 2.

Definition processRequest (req : DiscoveryRequest) : act unit :=
  _ ← authorizeConnection;
  gen ← findGenerator (req_TypeUrl req);
  match gen with
  | None => fail InvalidArgument "unsupported xDS resource type"
  | Some _ =>
      '(shouldRespond, delta) ← on_watches (fun ws => ShouldRespond ws req);
      if negb shouldRespond then mret tt else
      p ← get_proxy;
      let request := request_for ProxyRequest (Proxy.LastPushContext p) (Proxy.LastPushTime p) delta false in
      w ← get_watch (req_TypeUrl req);
      _ ← match w with
          | None => change_watches (fun ws => NewWatchedResource ws (req_TypeUrl req) (req_ResourceNames req))
          | Some _ => mret tt
          end;
      pushXds (req_TypeUrl req) request
  end.

(** The loop of the push handlers: stops at the first error. *)
Fixpoint push_types (push : string -> PushRequest -> act unit) (types : list string)
    (req : PushRequest) : act unit :=
  match types with
  | [] => mret tt
  | t :: types => _ ← push t req; push_types push types req
  end.

(** [pushConnection] and [pushConnectionDelta] differ in the push only. *)
Definition push_connection (push : string -> PushRequest -> act unit)
    (pushRequest : option PushRequest) : act unit := fun st =>
  match ps_proxy st, pushRequest with
  | Some p, Some pushRequest =>
      (_ ← (if Full pushRequest then put_proxy (computeProxyState GetProxyServiceTargets p (Some pushRequest))
            else mret tt);
       p ← get_proxy;
       let '(pushRequest, needsPush) :=
         match ProxyNeedsPush with Some f => f p pushRequest | None => (pushRequest, true) end in
       if negb needsPush then mret tt
       else push_types push (watched_types p) pushRequest) st
  | _, _ => (st, Ok tt)
  end.

Definition pushConnection : option PushRequest -> act unit := push_connection pushXds.

(** *** Incremental *)

(** [sendDelta] *)
Definition sendDelta (resp : DeltaDiscoveryResponse) (newResourceNames : nset string) : act unit :=
  i ← tick;
  match stream_Send i with
  | Some e => lift (Err e)
  | None =>
      j ← tick;
      _ ← (fun st => (mkPS (ps_proxy st) (ps_sent st ++ [Incr resp]) (ps_tick st), Ok tt)) : act unit;
      change_watches (fun ws => sendDelta_update (time_Now j) ws (dr_TypeUrl resp) (dr_Nonce resp) newResourceNames)
  end.

(** The resources, the deleted ones, and whether the deletions are explicit. *)
Definition generate_deltas (g : generator) (w : WatchedResource) (req : PushRequest)
  : act (option Resources * option (list string) * bool * option gerror) :=
  i ← tick; p ← get_proxy;
  match gen_GenerateDeltas g with
  | Some f => let '(r, deleted, _, usedDelta, err) := f i p req w in mret (r, deleted, usedDelta, err)
  | None => let '(r, _, err) := gen_Generate g i p w req in mret (r, None, false, err)
  end.

Definition removed_resources (w : WatchedResource) (req : PushRequest) (usedDelta : bool)
    (res : Resources) (deletedRes : list string) : list string :=
  if usedDelta then deletedRes
  else if Full req then
    sort_strings (GoSet.UnsortedList (GoSet.DeleteAll (GoSet.Copy (ResourceNames w)) (map res_Name res)))
  else [].

Definition new_resource_names (w : WatchedResource) (usedDelta : bool) (sent : Resources)
    (removed : list string) : res (nset string) :=
  if shouldSetWatchedResources w then
    if usedDelta then
      let names := match ResourceNames w with Some _ => GoSet.Copy (ResourceNames w) | None => GoSet.New [] end in
      GoSet.InsertAll (GoSet.DeleteAll names removed) (map res_Name sent)
    else Ok (resourceNamesSet sent)
  else Ok None.

Definition pushDeltaXds (t : string) (req : PushRequest) : act unit :=
  _ ← authorizeConnection;
  w ← get_watch t;
  match w with
  | None => mret tt
  | Some w =>
      gen ← findGenerator (TypeUrl w);
      match gen with
      | None => mret tt
      | Some g =>
          let w := if negb (ResourceDelta_IsEmpty (Delta req))
                   then new_watch (TypeUrl w) (Subscribed (Delta req)) else w in
          '(r, deletedRes, usedDelta, err) ← generate_deltas g w req;
          match err, r, deletedRes with
          | Some e, _, _ => lift (Err e)
          | None, None, None => mret tt
          | None, _, _ =>
              version ← push_version req;
              n ← nonce version;
              let res := default [] r in
              let removed := removed_resources w req usedDelta res (default [] deletedRes) in
              newResourceNames ← lift (new_resource_names w usedDelta res removed);
              sendDelta (mkDeltaResponse (TypeUrl w) version n res removed) newResourceNames
          end
      end
  end.

Definition forceEDSPush : act unit :=
  dwr ← get_watch EndpointType;
  match dwr with
  | Some _ =>
      p ← get_proxy;
      pushDeltaXds EndpointType (request_for DependentResource (Proxy.LastPushContext p)
        (Proxy.LastPushTime p) emptyResourceDelta true)
  | None => mret tt
  end.

Definition processDeltaRequest (req : DeltaDiscoveryRequest) : act unit :=
  _ ← authorizeConnection;
  gen ← findGenerator (d_TypeUrl req);
  match gen with
  | None => fail InvalidArgument "unsupported xDS resource type"
  | Some _ =>
      shouldRespond ← on_watches (fun ws => shouldRespondDelta ws req);
      if negb shouldRespond then mret tt else
      p ← get_proxy;
      '(subs, _, _) ← lift (deltaWatchedResources None req);
      let request := request_for ProxyRequest (Proxy.LastPushContext p) (Proxy.LastPushTime p)
        (mkDelta subs (GoSet.Delete (GoSet.New (ResourceNamesUnsubscribe req)) "*")) true in
      _ ← pushDeltaXds (d_TypeUrl req) request;
      if negb (String.eqb (d_TypeUrl req) ClusterType) then mret tt else forceEDSPush
  end.

Definition pushConnectionDelta : option PushRequest -> act unit := push_connection pushDeltaXds.

End handlers.

(** ** Reasoning about handlers

    [triple P m Q R]: from a state in [P], [m] ends in [R] with its result, or
    fails (an error or a panic) in [Q]. *)

Definition triple {A} (P : push_state -> Prop) (m : act A) (Q : push_state -> Prop)
    (R : A -> push_state -> Prop) : Prop :=
  forall st, P st -> match m st with (st', Ok a) => R a st' | (st', _) => Q st' end.

Lemma triple_bind {A B} P (m : act A) (k : A -> act B) Q R S :
  triple P m Q R -> (forall a, triple (R a) (k a) Q S) -> triple P (m ≫= k) Q S.
Proof.
  intros Hm Hk st HP. specialize (Hm st HP). unfold mbind, act_bind.
  destruct (m st) as [st1 [a|e|w]]; [|done..]. by apply (Hk a st1).
Qed.

Lemma triple_assoc {A B C} P (m : act A) (k : A -> act B) (h : B -> act C) Q R :
  triple P ((m ≫= k) ≫= h) Q R -> triple P (m ≫= (fun a => k a ≫= h)) Q R.
Proof.
  intros Hm st HP. specialize (Hm st HP). revert Hm. unfold mbind, act_bind.
  by destruct (m st) as [st1 [a|e|w]].
Qed.

Lemma triple_ret {A} (a : A) P Q : triple P (mret a) Q (fun b st => b = a /\ P st).
Proof. by intros st HP. Qed.

Lemma triple_conseq {A} (m : act A) (P P' Q Q' : push_state -> Prop) (R R' : A -> push_state -> Prop) :
  triple P' m Q' R' -> (forall st, P st -> P' st) -> (forall st, Q' st -> Q st) ->
  (forall a st, R' a st -> R a st) -> triple P m Q R.
Proof.
  intros Hm HP HQ HR st H. specialize (Hm st (HP _ H)).
  destruct (m st) as [st' [a|e|w]]; eauto.
Qed.

Lemma triple_pure {A} (X : Prop) (m : act A) P Q R :
  (X -> triple P m Q R) -> triple (fun st => X /\ P st) m Q R.
Proof. intros H st [HX HP]. by apply H. Qed.

Lemma triple_lift {A} (r : res A) (P : push_state -> Prop) : triple P (lift r) P (fun a st => r = Ok a /\ P st).
Proof. intros st HP. unfold lift. by destruct r. Qed.

(** What the client and the protocol see of a state: the watch of each type,
    the messages sent, and the kind of client. *)
Definition watch_of (st : push_state) (url : string) : option WatchedResource :=
  match ps_proxy st with Some p => GetWatchedResource (Proxy.WatchedResources p) url | None => None end.
Definition grpc_of (st : push_state) : bool :=
  match ps_proxy st with Some p => IsInherentGrpc p | None => false end.

Definition wtable : Type := string -> option WatchedResource.
Definition upd (W : wtable) (t : string) (o : option WatchedResource) : wtable :=
  fun u => if decide (t = u) then o else W u.

Record shows (W : wtable) (s : list message) (g : bool) (st : push_state) : Prop := {
  shows_watch : forall u, watch_of st u = W u;
  shows_sent : ps_sent st = s;
  shows_grpc : grpc_of st = g
}.

(** The watch of a type names the type, and does not ask to be answered
    regardless: nothing sets [AlwaysRespond]. *)
Definition watch_ok (u : string) (w : WatchedResource) : Prop := TypeUrl w = u /\ AlwaysRespond w = false.
Definition keys_ok (W : wtable) : Prop := forall u w, W u = Some w -> watch_ok u w.

Lemma keys_ok_upd W t w : keys_ok W -> watch_ok t w -> keys_ok (upd W t (Some w)).
Proof. intros HW Hw u w'. unfold upd. case_decide; [by intros [= <-]; subst|apply HW]. Qed.

Lemma upd_eq W t o : upd W t o t = o.
Proof. unfold upd. by rewrite decide_True. Qed.
Lemma upd_ne W t u o : t <> u -> upd W t o u = W u.
Proof. intros. unfold upd. by rewrite decide_False. Qed.

Section primitives.
Context (W : wtable) (s : list message) (g : bool).
Notation quiet := (shows W s g).

Lemma tick_spec Q : triple quiet tick Q (fun _ => quiet).
Proof. by intros st [H1 H2 H3]. Qed.

Lemma get_proxy_spec :
  triple quiet get_proxy quiet (fun p st => quiet st /\ ps_proxy st = Some p /\ IsInherentGrpc p = g).
Proof.
  intros st Hs. unfold get_proxy. destruct (ps_proxy st) as [p|] eqn:E; [|done].
  split; [done|]. split; [done|]. destruct Hs as [_ _ <-]. unfold grpc_of. by rewrite E.
Qed.

Lemma get_watch_spec u : triple quiet (get_watch u) quiet (fun o st => o = W u /\ quiet st).
Proof.
  intros st Hs. unfold get_watch, mbind, act_bind, get_proxy.
  destruct (ps_proxy st) as [p|] eqn:E; [|done]. split; [|done].
  destruct Hs as [Hw _ _]. rewrite <- (Hw u). unfold watch_of. by rewrite E.
Qed.

Definition some_watch : Prop := exists u w, W u = Some w.

(** When some type is watched, there is a proxy and its table is not nil. *)
Lemma ready_of (ws : ProxyWatch.watches) : some_watch ->
  (forall u, GetWatchedResource ws u = W u) -> watcher_ready ws.
Proof.
  intros (u & w & Hw) Hs. rewrite <- Hs in Hw. destruct ws as [m|]; [by eexists|].
  cbn in Hw. unfold ProxyWatch.GetWatchedResource in Hw. simpl in Hw. by rewrite lookup_empty in Hw.
Qed.

(** A change of the table through a method that succeeds. *)
Lemma change_watches_spec f (W' : wtable) Q :
  some_watch ->
  (forall ws, (forall u, GetWatchedResource ws u = W u) ->
     exists ws', f ws = Ok ws' /\ forall u, GetWatchedResource ws' u = W' u) ->
  triple quiet (change_watches f) Q (fun _ => shows W' s g).
Proof.
  intros (u0 & w0 & H0) Hf st Hs.
  unfold change_watches, on_watches, mbind, act_bind, get_proxy, lift, put_proxy.
  destruct (ps_proxy st) as [p|] eqn:E.
  2: { destruct Hs as [Hw _ _]. specialize (Hw u0). unfold watch_of in Hw. rewrite E in Hw. congruence. }
  destruct (Hf (Proxy.WatchedResources p)) as (ws' & Hws & Hg).
  { intros u. destruct Hs as [Hw _ _]. rewrite <- (Hw u). unfold watch_of. by rewrite E. }
  cbn [mbind res_bind]. rewrite Hws. simpl. destruct Hs as [_ H2 H3]. split; [|done|].
  - intros u. apply Hg.
  - rewrite <- H3. unfold grpc_of. by rewrite E.
Qed.

Lemma update_watch_spec u f o Q :
  some_watch -> f (W u) = Ok o ->
  triple quiet (change_watches (fun ws => UpdateWatch ws u f)) Q (fun _ => shows (upd W u o) s g).
Proof.
  intros Hr Hf. apply change_watches_spec; [done|]. intros ws Hs.
  destruct (UpdateWatch_ok ws u f o) as (ws' & -> & _ & Hg); [by apply ready_of|by rewrite Hs|].
  exists ws'. split; [done|]. intros v. rewrite Hg. unfold upd. by rewrite Hs.
Qed.

Lemma new_watch_spec u names Q :
  some_watch ->
  triple quiet (change_watches (fun ws => NewWatchedResource ws u names)) Q
    (fun _ => shows (upd W u (Some (new_watch u (GoSet.New names)))) s g).
Proof.
  intros Hr. apply change_watches_spec; [done|]. intros ws Hs.
  destruct (new_law ws u names) as (ws' & -> & _ & Hg); [by apply ready_of|].
  exists ws'. split; [done|]. intros v. rewrite Hg. unfold upd. by rewrite Hs.
Qed.

(** With a watch in the table, the proxy is there to be read. *)
Lemma proxy_ok st : some_watch -> quiet st -> exists p, ps_proxy st = Some p.
Proof.
  intros (u & w & Hw) [Hs _ _]. specialize (Hs u). unfold watch_of in Hs.
  destruct (ps_proxy st); [by eexists|congruence].
Qed.

Lemma get_watch_ok u Q : some_watch -> triple quiet (get_watch u) Q (fun o st => o = W u /\ quiet st).
Proof.
  intros Hr st Hs. destruct (proxy_ok st Hr Hs) as [p E]. pose proof (get_watch_spec u st Hs) as H.
  revert H. unfold get_watch, mbind, act_bind, get_proxy. by rewrite E.
Qed.

Lemma get_proxy_ok Q :
  some_watch -> triple quiet get_proxy Q (fun p st => IsInherentGrpc p = g /\ quiet st).
Proof.
  intros Hr st Hs. destruct (proxy_ok st Hr Hs) as [p E]. unfold get_proxy. rewrite E.
  split; [|done]. destruct Hs as [_ _ <-]. unfold grpc_of. by rewrite E.
Qed.

End primitives.

(** Peel a bind whose first action has a specification; [quietly] when it
    leaves the state as it shows, whether it fails or not. *)
Ltac step_with lem := eapply triple_bind; [eapply lem|].
Ltac quietly lem := eapply triple_bind; [eapply triple_conseq; [apply lem|done..]|].

(** A resource type is not in a list of other types. *)
Ltac other_type := apply (bool_decide_unpack _); vm_compute; exact I.

Section handler_lemmas.
Context `{!Environment}.

Lemma check_spec W s g f : triple (shows W s g) (check_authorized f) (shows W s g) (fun _ => shows W s g).
Proof.
  unfold check_authorized. step_with tick_spec. intros i. destruct (_ && _); [by intros st Hs|].
  step_with get_proxy_spec. intros q st [Hs _]. by destruct (f q con_ids).
Qed.

Lemma authorize_spec W s g : triple (shows W s g) authorizeConnection (shows W s g) (fun _ => shows W s g).
Proof.
  intros st Hs. unfold authorizeConnection.
  destruct (ps_proxy st) as [p|], Authorize as [f|]; try done. by apply check_spec.
Qed.

Lemma findGenerator_spec W s g u :
  triple (shows W s g) (findGenerator u) (shows W s g) (fun _ => shows W s g).
Proof. by intros st Hs. Qed.

Lemma generate_spec W s g gen w req :
  triple (shows W s g) (generate gen w req) (shows W s g) (fun _ => shows W s g).
Proof.
  unfold generate. step_with tick_spec. intros i. step_with get_proxy_spec. intros p.
  by intros st [Hs _].
Qed.

Lemma nonce_spec W s g v : triple (shows W s g) (nonce v) (shows W s g) (fun _ => shows W s g).
Proof. unfold nonce. step_with tick_spec. by intros i st Hs. Qed.

Lemma push_version_spec W s g req :
  triple (shows W s g) (push_version req) (shows W s g) (fun _ => shows W s g).
Proof. unfold push_version. intros st Hs. by destruct (Push req). Qed.

(** A response that is sent is recorded in the watch of its type. *)
Lemma Send_spec W s g resp w :
  W (rs_TypeUrl resp) = Some w ->
  triple (shows W s g) (Send resp) (shows W s g) (fun _ st => exists w',
    shows (upd W (rs_TypeUrl resp) (Some w')) (s ++ [Sotw resp]) g st /\
    TypeUrl w' = TypeUrl w /\ AlwaysRespond w' = AlwaysRespond w /\ ResourceNames w' = ResourceNames w).
Proof.
  intros Hw. assert (Hr : some_watch W) by (by exists (rs_TypeUrl resp), w).
  unfold Send. step_with tick_spec. intros i. destruct (stream_Send i) as [e|].
  { intros st Hs. done. }
  step_with tick_spec. intros j.
  eapply triple_bind with (R := fun _ => shows W (s ++ [Sotw resp]) g).
  { intros st [H1 H2 H3]. split; [exact H1|simpl; by rewrite H2|exact H3]. }
  intros _. unfold Send_update. destruct (String.eqb (rs_Nonce resp) ""); cbn [negb].
  - eapply triple_conseq; [eapply (change_watches_spec _ _ _ _ W); [done|]|done|done|].
    + intros ws Hws. by exists ws.
    + intros a st Hs. exists w. split; [|done]. destruct Hs as [H1 H2 H3]. split; [|done..].
      intros u. rewrite H1. unfold upd. case_decide; congruence.
  - eapply triple_conseq; [eapply update_watch_spec; [done|]|done|done|].
    + rewrite Hw. reflexivity.
    + intros a st Hs. eexists. split; [exact Hs|]. done.
Qed.

(** The watch an answer is generated for: it is the one of the table, and when
    it has names the answer to a gRPC client is limited to them. *)
Definition limited (t : string) (g : bool) (w : WatchedResource) (requested : nset string) : Prop :=
  watch_ok t w /\ (g = true -> watched_names w <> ∅ -> nset_elems requested = watched_names w).

Definition asked W t s g (r : WatchedResource * nset string) (st : push_state) : Prop :=
  limited t g (fst r) (snd r) /\ shows (upd W t (Some (fst r))) s g st.

Lemma upd_same W t w : W t = Some w -> forall u, W u = upd W t (Some w) u.
Proof. intros Hw u. unfold upd. case_decide; congruence. Qed.

Lemma shows_ext W W' s g st : (forall u, W u = W' u) -> shows W s g st -> shows W' s g st.
Proof. intros HW [H1 H2 H3]. split; [|done..]. intros u. by rewrite H1. Qed.

Lemma asked_same W t s g w st :
  W t = Some w -> watch_ok t w -> watched_names w = ∅ -> shows W s g st -> asked W t s g (w, None) st.
Proof.
  intros Hw Ht Hn Hs. split; [by split|]. eapply shows_ext; [|exact Hs]. by apply upd_same.
Qed.

Lemma write_spec W s g t w Q :
  some_watch W ->
  triple (shows W s g) (change_watches (fun ws => ProxyWatch.write ws t w)) Q
    (fun _ => shows (upd W t (Some w)) s g).
Proof.
  intros Hr. apply change_watches_spec; [done|]. intros ws Hs.
  destruct (ready_of W ws Hr Hs) as [m Hm]. subst ws. eexists. split; [done|].
  intros u. unfold upd. rewrite <- Hs. cbn. unfold ProxyWatch.GetWatchedResource. simpl.
  by rewrite lookup_insert.
Qed.

Lemma wildcard_spec W s g t parent extract w req :
  W t = Some w -> watch_ok t w -> watched_names w = ∅ ->
  triple (shows W s g) (wildcard_names t parent extract w req) (shows W s g) (asked W t s g).
Proof.
  intros Hw Ht Hn. unfold wildcard_names. step_with get_watch_spec. intros o.
  apply triple_pure. intros _.
  assert (Hsame : triple (shows W s g) (mret (w, None)) (shows W s g) (asked W t s g)).
  { intros st Hs. by apply asked_same. }
  destruct o as [pw|]; [|done]. destruct (String.eqb (NonceSent pw) ""); [done|].
  step_with get_proxy_spec. intros p.
  eapply triple_conseq with (P' := shows W s g); [|by intros st [? _]|done|done].
  step_with findGenerator_spec. intros [gen|]; [|done].
  step_with generate_spec. intros [[r log] err]. destruct (_ || _) eqn:El; [done|].
  eapply triple_bind; [apply write_spec; by exists t, w|]. intros u st Hs.
  split; [|exact Hs]. split; [done|]. done.
Qed.

Lemma requested_spec W s g t w req :
  W t = Some w -> watch_ok t w ->
  triple (shows W s g) (requested_names t w req) (shows W s g) (asked W t s g).
Proof.
  intros Hw Ht. unfold requested_names. step_with get_proxy_spec. intros p.
  eapply triple_conseq with (P' := fun st => IsInherentGrpc p = g /\ shows W s g st);
    [|by intros st (?&_&?)|done|done].
  apply triple_pure. intros Hg. rewrite Hg. destruct g; cbn [negb].
  - destruct (Nat.eqb_spec (nset_len (ResourceNames w)) 0) as [E|E].
    + assert (Hn : watched_names w = ∅) by (by apply size_empty_iff_L).
      repeat (destruct (String.eqb _ _); [by apply wildcard_spec|]).
      intros st Hs. by apply asked_same.
    + intros st Hs. split; simpl; [|eapply shows_ext; [|exact Hs]; by apply upd_same].
      split; [done|]. intros _ _. fold (GoSet.Copy (ResourceNames w)). by dubbo_simpl.
  - intros st Hs. split; simpl; [by split|]. eapply shows_ext; [|exact Hs]. by apply upd_same.
Qed.

(** *** Responses *)

(** The watch of its type records a response that was sent, which holds to
    the names of the watch if it has any. *)
Definition msg_ok (W : wtable) (g : bool) (m : message) : Prop :=
  match m with
  | Sotw resp => exists w r,
      W (rs_TypeUrl resp) = Some w /\ NonceSent w = rs_Nonce resp /\
      rs_Resources resp = ResourcesToAny r /\
      (g = true -> watched_names w <> ∅ -> forall x, x ∈ r -> res_Name x ∈ watched_names w)
  | Incr _ => False
  end.

Definition msg_type (m : message) : string :=
  match m with Sotw r => rs_TypeUrl r | Incr r => dr_TypeUrl r end.

(** What a push may do: it adds messages of the types [ts], and changes watches
    of the types [us] only. *)
Record pushed (ts us : list string) (W : wtable) (s : list message) (g : bool) (st : push_state) : Prop := {
  pushed_state : exists W' ms, shows W' (s ++ ms) g st /\ keys_ok W' /\
    (forall u, u ∉ us -> W' u = W u) /\
    (forall m, m ∈ ms -> msg_type m ∈ ts /\ msg_ok W' g m)
}.

Lemma pushed_nothing ts us W s g st : keys_ok W -> shows W s g st -> pushed ts us W s g st.
Proof.
  intros HW Hs. constructor. exists W, []. rewrite app_nil_r. split; [done|]. split; [done|].
  split; [done|]. intros m Hm. by apply not_elem_of_nil in Hm.
Qed.

Lemma add_names_spec W s g u names Q :
  some_watch W -> triple (shows W s g) (add_names u names) Q (fun _ st => exists w,
    shows (upd W u (Some w)) s g st /\ (keys_ok W -> watch_ok u w) /\
    watched_names w = default ∅ (watched_names <$> W u) ∪ list_to_set names).
Proof.
  intros Hr. unfold add_names.
  set (wr := default (new_watch u (GoSet.New [])) (W u)).
  set (e := default ∅ (ResourceNames wr)).
  eapply triple_conseq; [eapply (update_watch_spec W s g u _
    (Some (set_ResourceNames (Some (e ∪ list_to_set names)) wr)) Q); [done|]|done|done|].
  - replace (match W u with Some wr => wr | None => new_watch u (GoSet.New []) end) with wr
      by (subst wr; by destruct (W u)).
    replace (match ResourceNames wr with Some x => Some x | None => GoSet.New [] end) with (Some e)
      by (subst e; by destruct (ResourceNames wr)).
    by rewrite GoSet.InsertAll_some.
  - intros a st Hs. eexists. split; [exact Hs|]. subst e wr. split; [|by destruct (W u)].
    intros HW. destruct (W u) as [w|] eqn:Ew; [by apply HW in Ew|done].
Qed.

(** The endpoint watch covers the clusters of a cluster response. *)
Lemma after_clusters_spec W s g r Q :
  some_watch W -> keys_ok W ->
  triple (shows W s g) (after_clusters r) Q (fun _ st => exists W',
    shows W' s g st /\ keys_ok W' /\ (forall u, u <> EndpointType -> W' u = W u)).
Proof.
  intros Hr HW. unfold after_clusters.
  destruct (_ =? 0)%nat; [intros st Hs; by exists W|].
  eapply triple_bind; [by apply get_watch_ok|]. intros o. apply triple_pure. intros ->.
  destruct (W EndpointType) as [wr|] eqn:Ew.
  - destruct (has_new wr _); [|intros st Hs; by exists W].
    eapply triple_conseq; [by apply add_names_spec|done|intros st HQ; exact HQ|].
    intros a st (w & Hs & Ht & _). exists (upd W EndpointType (Some w)). split; [done|].
    split; [apply keys_ok_upd; [done|by apply Ht]|]. intros u Hu. by apply upd_ne.
  - eapply triple_conseq; [by apply new_watch_spec|done|intros st HQ; exact HQ|].
    intros a st Hs. eexists. split; [exact Hs|]. split; [by apply keys_ok_upd|].
    intros u Hu. by apply upd_ne.
Qed.

Lemma msg_ok_frame W W' g m : W' (msg_type m) = W (msg_type m) -> msg_ok W g m -> msg_ok W' g m.
Proof. destruct m as [r|r]; simpl; [|done]. by intros ->. Qed.

(** A push after some messages: theirs stay recorded if it leaves their watches
    alone. *)
Lemma pushed_trans ts1 us1 ts2 us2 ts us W s g W1 ms st :
  (forall u, u ∉ us1 -> W1 u = W u) -> (forall m, m ∈ ms -> msg_type m ∈ ts1 /\ msg_ok W1 g m) ->
  pushed ts2 us2 W1 (s ++ ms) g st -> (forall t, t ∈ ts1 -> t ∉ us2) ->
  ts1 ++ ts2 ⊆ ts -> us1 ++ us2 ⊆ us -> pushed ts us W s g st.
Proof.
  intros HW1 Hms [(W2 & ms2 & Hs & Hk & HW2 & Hms2)] Hd Hts Hus. constructor.
  exists W2, (ms ++ ms2). rewrite app_assoc. split; [done|]. split; [done|]. split.
  - intros u Hu. rewrite HW2, HW1; [done|set_solver..].
  - intros m [Hm|Hm]%elem_of_app.
    + destruct (Hms m Hm) as [H1 H2]. split; [set_solver|].
      eapply msg_ok_frame; [|exact H2]. apply HW2. by apply Hd.
    + destruct (Hms2 m Hm) as [H1 H2]. split; [set_solver|done].
Qed.

(** The specification of a push that answers for one type only. *)
Definition leaf_push (push : string -> PushRequest -> act unit) (t : string) : Prop :=
  forall W s g req, keys_ok W ->
  triple (shows W s g) (push t req) (pushed [t] [t; EndpointType] W s g)
    (fun _ => pushed [t] [t; EndpointType] W s g).

Lemma warn_spec P m (Q : push_state -> Prop) : triple P m Q (fun _ => Q) -> triple P (warn m) Q (fun _ => Q).
Proof.
  intros Hm st HP. specialize (Hm st HP). unfold warn. by destruct (m st) as [st' [[]|e|w]].
Qed.

(** A watch of a type is set, then the type is pushed. *)
Lemma set_then_push push t w reason req W s g :
  leaf_push push t -> keys_ok W -> watch_ok t w ->
  triple (shows (upd W t (Some w)) s g)
    (p ← get_proxy; warn (push t (request_for reason (Push req) (Proxy.LastPushTime p) emptyResourceDelta false)))
    (pushed [t] [t; EndpointType] W s g) (fun _ => pushed [t] [t; EndpointType] W s g).
Proof.
  intros Hp HW Ht. assert (Hr : some_watch (upd W t (Some w))) by (exists t, w; apply upd_eq).
  eapply triple_bind; [by apply get_proxy_ok|]. intros p. apply triple_pure. intros _.
  apply warn_spec. eapply triple_conseq; [by apply Hp, keys_ok_upd|done|..].
  all: intros; eapply (pushed_trans [] [t] [t] [t; EndpointType] _ _ W s g (upd W t (Some w)) []);
    [|by intros m Hm%not_elem_of_nil|rewrite app_nil_r; eassumption|set_solver..].
  all: intros u Hu; apply upd_ne; set_solver.
Qed.

(** The clusters of a listener response. *)
Lemma clusters_part push names req W s g :
  leaf_push push ClusterType -> keys_ok W -> some_watch W ->
  let post := pushed [ClusterType] [ClusterType; EndpointType] W s g in
  triple (shows W s g) (push_clusters push names req) post (fun _ => post).
Proof.
  intros Hc HW Hr post. unfold push_clusters. destruct (_ =? 0)%nat; [intros st Hs; by apply pushed_nothing|].
  eapply triple_bind; [by apply get_watch_ok|]. intros o. apply triple_pure. intros _.
  destruct (not_requested o); [|intros st Hs; by apply pushed_nothing].
  eapply triple_bind; [by apply new_watch_spec|]. intros u. by apply set_then_push.
Qed.

(** Its routes. *)
Lemma routes_part push names req W s g :
  leaf_push push RouteType -> keys_ok W -> some_watch W ->
  let post := pushed [RouteType] [RouteType; EndpointType] W s g in
  triple (shows W s g) (push_routes push names req) post (fun _ => post).
Proof.
  intros Hc HW Hr post. unfold push_routes. destruct (_ =? 0)%nat; [intros st Hs; by apply pushed_nothing|].
  eapply triple_bind; [by apply get_watch_ok|]. intros o. apply triple_pure. intros ->.
  destruct (not_requested _).
  - eapply triple_bind; [by apply new_watch_spec|]. intros u. by apply set_then_push.
  - destruct (W RouteType) as [wr|] eqn:Ew; [|intros st Hs; by apply pushed_nothing].
    destruct (has_new wr names); [|intros st Hs; by apply pushed_nothing].
    eapply triple_bind; [by apply add_names_spec|]. intros u st (w & Hs & Ht & _).
    exact (set_then_push push RouteType w DependentResource req W s g Hc HW (Ht HW) st Hs).
Qed.

Lemma after_listeners_spec push r req W s g w :
  leaf_push push ClusterType -> leaf_push push RouteType -> keys_ok W -> W ListenerType = Some w ->
  let post := pushed [ClusterType; RouteType] [ClusterType; RouteType; EndpointType] W s g in
  triple (shows W s g) (after_listeners push r req) post (fun _ => post).
Proof.
  intros Hc Hro HW Hw post. unfold after_listeners.
  eapply triple_bind with (R := fun _ => pushed [ClusterType] [ClusterType; EndpointType] W s g).
  - eapply triple_conseq; [apply (clusters_part push _ req W s g Hc HW); by exists ListenerType, w|done| |done].
    intros st [(W' & ms & H1 & H2 & H3 & H4)]. constructor. exists W', ms.
    split; [done|]. split; [done|]. split; [set_solver|]. intros m Hm.
    destruct (H4 m Hm). split; [set_solver|done].
  - intros _ st [(W1 & ms & Hs & Hk & HW1 & Hms)].
    assert (Hr1 : some_watch W1).
    { exists ListenerType, w. rewrite HW1; [done|other_type]. }
    pose proof (routes_part push (extractRouteNamesFromLDS UnmarshalListener UnmarshalHCM r) req
      W1 (s ++ ms) g Hro Hk Hr1 st Hs) as Hp.
    destruct (push_routes _ _ _ st) as [st' [a|e|why]]; eapply (pushed_trans [ClusterType] [ClusterType; EndpointType]
      [RouteType] [RouteType; EndpointType]); try done; set_solver.
Qed.

(** *** A push *)

(** The types a push of [t] may answer for. *)
Definition answered (t : string) : list string :=
  if decide (t = ListenerType) then [ListenerType; ClusterType; RouteType] else [t].
Lemma elem_filter_requested requested g w t r x :
  limited t g w requested -> g = true -> watched_names w <> ∅ ->
  x ∈ filter_requested requested r -> res_Name x ∈ watched_names w.
Proof.
  intros [_ Hl] Hg Hne. rewrite <- (Hl Hg Hne). unfold filter_requested.
  assert (Hpos : (0 <? nset_len requested)%nat = true).
  { apply Nat.ltb_lt, GoSet.nset_len_pos. by rewrite (Hl Hg Hne). }
  rewrite Hpos. intros Hx. apply list_elem_of_In, filter_In in Hx as [_ Hx].
  by apply GoSet.Contains_spec in Hx.
Qed.

(** Sending a response and recording its nonce. *)
Lemma send_and_record W s g t w requested resp r :
  W t = Some w -> limited t g w requested -> rs_TypeUrl resp = t ->
  rs_Resources resp = ResourcesToAny (if g then filter_requested requested r else r) ->
  triple (shows W s g)
    (_ ← Send resp;
     change_watches (fun ws => UpdateWatch ws t (fun wr =>
       match wr with None => Ok None | Some wr => Ok (Some (set_NonceSent (rs_Nonce resp) wr)) end)))
    (shows W s g)
    (fun _ st => exists w', shows (upd W t (Some w')) (s ++ [Sotw resp]) g st /\ watch_ok t w' /\
       msg_ok (upd W t (Some w')) g (Sotw resp)).
Proof.
  intros Hw Hl Ht Hres. eapply triple_bind; [eapply (Send_spec _ _ _ _ w); by rewrite Ht|].
  intros a st (w1 & Hs & Ht1 & Ha1 & Hn1). rewrite Ht in Hs.
  assert (Hr : some_watch (upd W t (Some w1))) by (exists t, w1; apply upd_eq).
  pose proof (update_watch_spec _ _ _ t (fun wr =>
       match wr with None => Ok None | Some wr => Ok (Some (set_NonceSent (rs_Nonce resp) wr)) end)
       (Some (set_NonceSent (rs_Nonce resp) w1)) (shows W s g) Hr
       ltac:(by rewrite upd_eq) st Hs) as Hu.
  destruct (change_watches _ st) as [st' [b|e|why]]; [|done..].
  exists (set_NonceSent (rs_Nonce resp) w1). destruct Hl as [Hlt Hl].
  split; [|split; [split; simpl; destruct Hlt; congruence|]].
  - eapply shows_ext; [|exact Hu]. intros u. unfold upd. by case_decide.
  - exists (set_NonceSent (rs_Nonce resp) w1), (if g then filter_requested requested r else r).
    rewrite Ht. split; [apply upd_eq|]. split; [done|]. split; [done|].
    intros Hg Hne x Hx. rewrite Hg in Hx.
    assert (Hnames : watched_names (set_NonceSent (rs_Nonce resp) w1) = watched_names w).
    { unfold watched_names. simpl. by rewrite Hn1. }
    rewrite Hnames in Hne |- *. eapply elem_filter_requested; [by split|done|done|exact Hx].
Qed.

(** What follows a response. *)
Lemma send_tail push W s g t w resp req r grpc :
  (t = ListenerType -> leaf_push push ClusterType /\ leaf_push push RouteType) ->
  keys_ok W -> W t = Some w -> rs_TypeUrl resp = t -> msg_ok W g (Sotw resp) ->
  let post := pushed (answered t) (EndpointType :: answered t) W s g in
  triple (shows W (s ++ [Sotw resp]) g)
    (_ ← (if String.eqb t ListenerType && grpc && IsRequest req
          then after_listeners push r req else mret tt);
     if String.eqb t ClusterType && grpc then after_clusters r else mret tt)
    post (fun _ => post).
Proof.
  intros Hpush HW Hw Ht Hm post.
  assert (Hmore : forall ts us st', pushed ts us W (s ++ [Sotw resp]) g st' -> t ∉ us ->
    ts ⊆ answered t -> us ⊆ EndpointType :: answered t -> post st').
  { intros ts us st' Hp Hn H1 H2. apply (pushed_trans [t] [] ts us _ _ W s g W [Sotw resp]); [done| |done|..].
    - intros m ->%list_elem_of_singleton. split; [|done]. simpl. rewrite Ht. by left.
    - set_solver.
    - unfold answered in *. case_decide; set_solver.
    - done. }
  assert (Hnone : forall st, shows W (s ++ [Sotw resp]) g st -> post st).
  { intros st Hs. by apply (Hmore [] []); [apply pushed_nothing|set_solver..]. }
  destruct (String.eqb_spec t ListenerType) as [->|Hne].
  - destruct (Hpush eq_refl) as [Hc Hro]. cbn [andb].
    eapply triple_bind with (R := fun _ => post).
    + destruct (grpc && IsRequest req); [|intros st Hs; by apply Hnone].
      assert (Hl : forall st', pushed [ClusterType; RouteType] [ClusterType; RouteType; EndpointType]
        W (s ++ [Sotw resp]) g st' -> post st').
      { intros st' Hp. eapply Hmore; [exact Hp|other_type|..];
          unfold answered; rewrite decide_True by done; set_solver. }
      eapply triple_conseq; [by eapply (after_listeners_spec push r req)|done|exact Hl|intros a; exact Hl].
    + intros _ st Hs. exact Hs.
  - eapply triple_bind; [apply triple_ret|]. intros []. apply triple_pure. intros _.
    destruct (String.eqb_spec t ClusterType) as [->|Hnc]; cbn [andb];
      [|intros st Hs; by apply Hnone].
    destruct grpc; [|intros st Hs; by apply Hnone].
    eapply triple_conseq; [apply after_clusters_spec; [by exists ClusterType, w|done]|done|..].
    + intros st HQ. exact HQ.
    + intros a st (W' & Hs & Hk & HW'). apply (Hmore [] [EndpointType]); [|other_type|set_solver..].
      constructor. exists W', []. rewrite app_nil_r. split; [done|]. split; [done|].
      split; [set_solver|]. by intros m Hx%not_elem_of_nil.
Qed.

Lemma pushed_upd t o W s g st :
  pushed (answered t) (EndpointType :: answered t) (upd W t o) s g st ->
  pushed (answered t) (EndpointType :: answered t) W s g st.
Proof.
  intros Hst. eapply (pushed_trans [] [t] _ _ _ _ W s g (upd W t o) []);
    [intros u Hu; apply upd_ne; set_solver|by intros m Hx%not_elem_of_nil|
     rewrite app_nil_r; exact Hst|set_solver..|].
  unfold answered; case_decide; set_solver.
Qed.

Lemma send_resources_spec push W s g t w0 w requested req r :
  (t = ListenerType -> leaf_push push ClusterType /\ leaf_push push RouteType) ->
  keys_ok W -> W t = Some w -> limited t g w requested -> TypeUrl w0 = t ->
  let post := pushed (answered t) (EndpointType :: answered t) W s g in
  triple (shows W s g) (send_resources push w0 requested req r) post (fun _ => post).
Proof.
  intros Hpush HW Hw Hl Ht post. unfold send_resources. rewrite Ht.
  assert (Hr : some_watch W) by (by exists t, w).
  assert (Hquiet : forall st, shows W s g st -> post st) by (intros; by apply pushed_nothing).
  eapply triple_bind; [by apply get_proxy_ok|]. intros p. apply triple_pure. intros Hg. rewrite Hg.
  quietly push_version_spec. intros v.
  quietly nonce_spec. intros n.
  set (res := if g then filter_requested requested r else r).
  set (resp := mkResponse t v n (ResourcesToAny res)).
  apply triple_assoc. eapply triple_bind.
  { eapply triple_conseq; [apply (send_and_record W s g t w requested resp r); done|done..]. }
  intros _ st (w' & Hs & Htw & Hm).
  pose proof (send_tail push _ s g t w' resp req res (g && (0 <? length res)%nat) Hpush
    (keys_ok_upd _ _ _ HW Htw) (upd_eq _ _ _) eq_refl Hm st Hs) as Hp.
  revert Hp. match goal with |- match ?x with _ => _ end -> _ => destruct x as [st' [a|e|why]] end;
    apply pushed_upd.
Qed.

Lemma pushXds_body_spec push W s g t req :
  (t = ListenerType -> leaf_push push ClusterType /\ leaf_push push RouteType) -> keys_ok W ->
  let post := pushed (answered t) (EndpointType :: answered t) W s g in
  triple (shows W s g) (pushXds_body push t req) post (fun _ => post).
Proof.
  intros Hpush HW post. unfold pushXds_body.
  assert (Hquiet : forall st, shows W s g st -> post st) by (intros; by apply pushed_nothing).
  quietly authorize_spec. intros [].
  quietly get_watch_spec. intros o.
  apply triple_pure. intros ->. destruct (W t) as [w|] eqn:Hw; [|intros st Hs; by apply Hquiet].
  pose proof (HW _ _ Hw) as Ht.
  quietly findGenerator_spec.
  intros [gen|]; [|intros st Hs; by apply Hquiet].
  eapply triple_bind; [eapply triple_conseq; [by apply (requested_spec W s g t w req)|done..]|].
  intros [w1 requested]. apply triple_pure. intros Hl. simpl in *.
  set (W1 := upd W t (Some w1)).
  assert (HW1 : keys_ok W1) by (apply keys_ok_upd; [done|by destruct Hl]).
  assert (Hr1 : some_watch W1) by (exists t, w1; apply upd_eq).
  assert (Hfin : forall st, pushed (answered t) (EndpointType :: answered t) W1 s g st -> post st)
    by (intros st; apply pushed_upd).
  assert (Hquiet1 : forall st, shows W1 s g st -> post st) by (intros; by apply Hfin, pushed_nothing).
  eapply triple_bind; [by apply get_proxy_ok|]. intros p. apply triple_pure. intros _.
  set (w0 := if _ && _ then _ else _).
  assert (Ht0 : TypeUrl w0 = t) by (subst w0; destruct Hl as [[??] _]; by destruct (_ && _)).
  quietly generate_spec.
  intros [[r log] err]. destruct err as [e|]; [intros st Hs; by apply Hquiet1|].
  destruct r as [r|]; [|intros st Hs; by apply Hquiet1].
  eapply triple_conseq; [by apply (send_resources_spec push W1 s g t w0 w1 requested); [| |apply upd_eq|..]|done|..].
  - intros st. apply Hfin.
  - intros a st. apply Hfin.
Qed.

Lemma pushed_mono ts us ts' us' W s g st :
  ts ⊆ ts' -> us ⊆ us' -> pushed ts us W s g st -> pushed ts' us' W s g st.
Proof.
  intros Ht Hu [(W' & ms & H1 & H2 & H3 & H4)]. constructor. exists W', ms.
  split; [done|]. split; [done|]. split; [set_solver|]. intros m Hm. destruct (H4 m Hm). set_solver.
Qed.

Lemma leaf_pushXds n t : t <> ListenerType -> leaf_push (pushXds_fuel (S n)) t.
Proof.
  intros Hne W s g req HW.
  assert (Ha : answered t = [t]) by (unfold answered; by rewrite decide_False).
  assert (Hm : forall st, pushed (answered t) (EndpointType :: answered t) W s g st ->
    pushed [t] [t; EndpointType] W s g st).
  { intros st. rewrite Ha. apply pushed_mono; [done|]. intros x. rewrite !elem_of_cons. tauto. }
  cbn [pushXds_fuel].
  assert (Hl : t = ListenerType -> leaf_push (pushXds_fuel n) ClusterType /\ leaf_push (pushXds_fuel n) RouteType)
    by (intros E; by destruct (Hne E)).
  eapply triple_conseq; [exact (pushXds_body_spec (pushXds_fuel n) W s g t req Hl HW)|by intros st Hs|exact Hm|].
  intros a. apply Hm.
Qed.

(** What [pushXds] sends and changes, whatever its outcome. *)
Lemma pushXds_spec W s g t req :
  keys_ok W ->
  let post := pushed (answered t) (EndpointType :: answered t) W s g in
  triple (shows W s g) (pushXds t req) post (fun _ => post).
Proof.
  intros HW. assert (H1 : ClusterType <> ListenerType) by discriminate.
  assert (H2 : RouteType <> ListenerType) by discriminate.
  exact (pushXds_body_spec (pushXds_fuel 1) W s g t req
    (fun _ => conj (leaf_pushXds 0 ClusterType H1) (leaf_pushXds 0 RouteType H2)) HW).
Qed.

(** *** Nesting *)

(** Two actions do the same from the states of [P]. *)
Definition same {A} (P : push_state -> Prop) (m1 m2 : act A) : Prop := forall st, P st -> m1 st = m2 st.

Lemma same_refl {A} P (m : act A) : same P m m.
Proof. by intros st _. Qed.

Lemma same_bind {A B} P (m : act A) (k1 k2 : A -> act B) Q R :
  triple P m Q R -> (forall a, same (R a) (k1 a) (k2 a)) -> same P (m ≫= k1) (m ≫= k2).
Proof.
  intros Hm Hk st HP. specialize (Hm st HP). unfold mbind, act_bind.
  destruct (m st) as [st1 [a|e|w]]; [|done..]. by apply (Hk a st1).
Qed.

Lemma same_bind_first {A B} P (m1 m2 : act A) (k : A -> act B) :
  same P m1 m2 -> same P (m1 ≫= k) (m2 ≫= k).
Proof. intros Hm st HP. unfold mbind, act_bind. by rewrite (Hm st HP). Qed.

Lemma same_trans {A} P (m1 m2 m3 : act A) : same P m1 m2 -> same P m2 m3 -> same P m1 m3.
Proof. intros H1 H2 st HP. by rewrite H1, H2. Qed.

Lemma same_pure {A} (X : Prop) P (m1 m2 : act A) :
  (X -> same P m1 m2) -> same (fun st => X /\ P st) m1 m2.
Proof. intros Hm st [HX HP]. by apply Hm. Qed.

(** Two pushes agree on clusters and routes. *)
Definition agree (push1 push2 : string -> PushRequest -> act unit) : Prop :=
  forall t W s g req, t = ClusterType \/ t = RouteType -> keys_ok W ->
    same (shows W s g) (push1 t req) (push2 t req).

Lemma same_warn P m1 m2 : same P m1 m2 -> same P (warn m1) (warn m2).
Proof. intros Hm st HP. unfold warn. by rewrite (Hm st HP). Qed.

Lemma set_then_same push1 push2 t reason req W s g :
  agree push1 push2 -> t = ClusterType \/ t = RouteType -> keys_ok W -> some_watch W ->
  same (shows W s g)
    (p ← get_proxy; warn (push1 t (request_for reason (Push req) (Proxy.LastPushTime p) emptyResourceDelta false)))
    (p ← get_proxy; warn (push2 t (request_for reason (Push req) (Proxy.LastPushTime p) emptyResourceDelta false))).
Proof.
  intros Ha Ht HW Hr. eapply (same_bind _ _ _ _ (shows W s g)); [by apply get_proxy_ok|].
  intros p. apply same_pure. intros _. apply same_warn. by apply Ha.
Qed.

Lemma clusters_same push1 push2 names req W s g :
  agree push1 push2 -> keys_ok W -> some_watch W ->
  same (shows W s g) (push_clusters push1 names req) (push_clusters push2 names req).
Proof.
  intros Ha HW Hr. unfold push_clusters. destruct (_ =? 0)%nat; [apply same_refl|].
  eapply (same_bind _ _ _ _ (shows W s g)); [by apply get_watch_ok|]. intros o. apply same_pure. intros _.
  destruct (not_requested o); [|apply same_refl].
  eapply (same_bind _ _ _ _ (shows W s g)); [by apply new_watch_spec|]. intros u.
  apply set_then_same; [done|by left|by apply keys_ok_upd|eexists _, _; apply upd_eq].
Qed.

Lemma routes_same push1 push2 names req W s g :
  agree push1 push2 -> keys_ok W -> some_watch W ->
  same (shows W s g) (push_routes push1 names req) (push_routes push2 names req).
Proof.
  intros Ha HW Hr. unfold push_routes. destruct (_ =? 0)%nat; [apply same_refl|].
  eapply (same_bind _ _ _ _ (shows W s g)); [by apply get_watch_ok|]. intros o. apply same_pure. intros ->.
  destruct (not_requested _).
  - eapply (same_bind _ _ _ _ (shows W s g)); [by apply new_watch_spec|]. intros u.
    apply set_then_same; [done|by right|by apply keys_ok_upd|eexists _, _; apply upd_eq].
  - destruct (W RouteType) as [wr|]; [|apply same_refl]. destruct (has_new wr names); [|apply same_refl].
    eapply (same_bind _ _ _ _ (shows W s g)); [by apply add_names_spec|]. intros u st (w & Hs & Ht & _).
    revert st Hs. apply set_then_same; [done|by right|by apply keys_ok_upd, Ht|eexists _, _; apply upd_eq].
Qed.

Lemma after_listeners_same push1 push2 r req W s g w :
  agree push1 push2 -> leaf_push push2 ClusterType -> keys_ok W -> W ListenerType = Some w ->
  same (shows W s g) (after_listeners push1 r req) (after_listeners push2 r req).
Proof.
  intros Ha Hc HW Hw. assert (Hr : some_watch W) by (by exists ListenerType, w). unfold after_listeners.
  eapply same_trans; [apply same_bind_first, (clusters_same push1 push2); done|].
  eapply same_bind; [by apply clusters_part|].
  intros _ st [(W1 & ms & Hs & Hk & HW1 & _)]. revert st Hs. apply (routes_same push1 push2); [done|done|].
  exists ListenerType, w. rewrite HW1; [done|other_type].
Qed.

Lemma send_same push1 push2 W s g t w0 w requested req r :
  (t = ListenerType -> agree push1 push2 /\ leaf_push push2 ClusterType) ->
  keys_ok W -> W t = Some w -> limited t g w requested -> TypeUrl w0 = t ->
  same (shows W s g) (send_resources push1 w0 requested req r) (send_resources push2 w0 requested req r).
Proof.
  intros Hp HW Hw Hl Ht. unfold send_resources. rewrite Ht. assert (Hr : some_watch W) by (by exists t, w).
  destruct (String.eqb_spec t ListenerType) as [->|Hne]; [|apply same_refl].
  destruct (Hp eq_refl) as [Ha Hc].
  eapply (same_bind _ _ _ _ (shows W s g)); [by apply get_proxy_ok|]. intros p. apply same_pure. intros Hg.
  rewrite Hg. eapply same_bind; [apply push_version_spec|]. intros v.
  eapply same_bind; [apply nonce_spec|]. intros n.
  eapply same_bind; [by eapply (Send_spec _ _ _ _ w)|]. intros u1 st (w1 & Hs & Ht1 & Ha1 & _).
  revert st Hs. cbn [rs_TypeUrl]. destruct Hl as [[Hlt Hla] _].
  assert (Hk1 : keys_ok (upd W ListenerType (Some w1))) by (apply keys_ok_upd; [done|split; congruence]).
  eapply (same_bind _ _ _ _ (shows W s g)).
  { apply update_watch_spec; [eexists _, _; apply upd_eq|]. by rewrite upd_eq. }
  intros u2. apply same_bind_first. destruct (_ && IsRequest req); [|apply same_refl].
  eapply (after_listeners_same _ _ _ _ _ _ _ (set_NonceSent n w1)); [done|done| |by rewrite upd_eq].
  apply keys_ok_upd; [done|]. split; simpl; congruence.
Qed.

Lemma body_same push1 push2 t W s g req :
  (t = ListenerType -> agree push1 push2 /\ leaf_push push2 ClusterType) -> keys_ok W ->
  same (shows W s g) (pushXds_body push1 t req) (pushXds_body push2 t req).
Proof.
  intros Hp HW. unfold pushXds_body.
  eapply same_bind; [apply authorize_spec|]. intros [].
  eapply same_bind; [apply get_watch_spec|]. intros o. apply same_pure. intros ->.
  destruct (W t) as [w|] eqn:Hw; [|apply same_refl].
  eapply same_bind; [apply findGenerator_spec|]. intros [gen|]; [|apply same_refl].
  eapply same_bind; [apply (requested_spec W s g t w req Hw (HW _ _ Hw))|].
  intros [w1 requested]. apply same_pure. intros Hl. simpl in *.
  assert (HW1 : keys_ok (upd W t (Some w1))) by (apply keys_ok_upd; [done|by destruct Hl]).
  eapply (same_bind _ _ _ _ (shows W s g)); [apply get_proxy_ok; eexists _, _; apply upd_eq|].
  intros p. apply same_pure. intros _. eapply same_bind; [apply generate_spec|].
  intros [[r log] err]. destruct err as [e|]; [apply same_refl|]. destruct r as [r|]; [|apply same_refl].
  eapply send_same; [done|done|apply upd_eq|done|]. destruct Hl as [[??] _]. by destruct (_ && _).
Qed.

(** One level of nesting is enough. *)
Lemma pushXds_fuel_enough n W s g t req :
  keys_ok W -> same (shows W s g) (pushXds_fuel (S (S n)) t req) (pushXds t req).
Proof.
  intros HW. unfold pushXds. cbn [pushXds_fuel].
  assert (H1 : ClusterType <> ListenerType) by discriminate.
  assert (H2 : RouteType <> ListenerType) by discriminate.
  apply body_same; [|done]. intros _. split; [|by apply (leaf_pushXds 0)].
  intros t' W' s' g' req' Ht HW'. cbn [pushXds_fuel]. apply body_same; [|done].
  intros ->. by destruct Ht.
Qed.

End handler_lemmas.

Section requests.
Context `{!Environment}.

(** *** Requests *)

Lemma shows_self st : shows (watch_of st) (ps_sent st) (grpc_of st) st.
Proof. by split. Qed.

(** An acknowledgement ends without a message. *)
Lemma processRequest_ack W s g request w :
  W (req_TypeUrl request) = Some w -> AlwaysRespond w = false -> ErrorDetail request = None ->
  ResponseNonce request <> "" -> ResponseNonce request = NonceSent w ->
  names_of request = watched_names w \/ names_of request = ∅ ->
  triple (shows W s g) (processRequest request) (fun st => ps_sent st = s) (fun _ st => ps_sent st = s).
Proof.
  intros Hw Ha He Hn Hs Hnames. unfold processRequest.
  assert (Hsent : forall st, shows W s g st -> ps_sent st = s) by (by intros st []).
  quietly authorize_spec. intros [].
  quietly findGenerator_spec.
  intros [gen|]; [|intros st Hst; by apply Hsent].
  eapply triple_bind with (R := fun r st => fst r = false /\ ps_sent st = s).
  - intros st Hst. unfold on_watches, mbind, act_bind, get_proxy, lift, put_proxy.
    destruct (ps_proxy st) as [p|] eqn:Ep; [|by apply Hsent].
    set (ws := Proxy.WatchedResources p).
    assert (Hws : forall u, GetWatchedResource ws u = W u).
    { intros u. destruct Hst as [H1 _ _]. rewrite <- (H1 u). unfold watch_of. by rewrite Ep. }
    assert (Hr : watcher_ready ws) by (eapply ready_of; [|exact Hws]; by eexists _, w).
    pose proof (ShouldRespond_implements ws request Hr) as Hi. unfold implements in Hi.
    rewrite Hws, Hw in Hi.
    destruct (classify_ack w request He Hn Hs Ha Hnames) as [E|[E|E]]; rewrite E in Hi; simpl in Hi;
      destruct Hi as (w' & Hsr & _); simpl; rewrite Hsr; simpl; (split; [done|by apply Hsent]).
  - intros [b d]. apply triple_pure. simpl. intros ->. cbn [negb]. by intros st Hst.
Qed.

(** *** Refused connections *)

(** The connection may not be served: no authorizer is configured, it refuses
    the connection, or the client's certificate has expired. *)
Definition refused : Prop :=
  Authorize = None \/ (exists f, Authorize = Some f /\ forall p, exists e, f p con_ids = Err e) \/
  (authExpiry <> time_zero /\ forall i, authExpiry <= time_Now i).

Definition refusal (e : gerror) : Prop :=
  err_code e = PermissionDenied \/ err_code e = Unauthenticated.

Lemma refused_authorize st :
  refused -> exists st' e, authorizeConnection st = (st', Err e) /\ refusal e /\
    ps_sent st' = ps_sent st /\ ps_proxy st' = ps_proxy st.
Proof.
  intros Hr. unfold authorizeConnection, refusal.
  destruct (ps_proxy st) as [p|] eqn:Ep; [|by eauto 10].
  destruct Authorize as [f|] eqn:Ea; [|by eauto 10].
  unfold check_authorized, mbind, act_bind, tick. cbn [ps_tick].
  destruct (negb (IsZero authExpiry) && negb (time_Now (ps_tick st) <? authExpiry)) eqn:Ex.
  { eexists _, _. split; [reflexivity|]. simpl. auto. }
  unfold get_proxy. cbn [ps_proxy]. rewrite Ep.
  destruct Hr as [Hn|[(f' & Hf & Hall)|[Hz Hexp]]].
  - congruence.
  - assert (f' = f) as -> by congruence. destruct (Hall p) as [e ->].
    eexists _, _. split; [reflexivity|]. simpl. auto.
  - exfalso. specialize (Hexp (ps_tick st)). unfold IsZero in Ex.
    destruct (Z.eqb_spec authExpiry time_zero); [done|].
    destruct (Z.ltb_spec (time_Now (ps_tick st)) authExpiry); [lia|done].
Qed.

Lemma refused_bind {A} (k : unit -> act A) st :
  refused -> exists st' e, (authorizeConnection ≫= k) st = (st', Err e) /\ refusal e /\
    ps_sent st' = ps_sent st /\ ps_proxy st' = ps_proxy st.
Proof.
  intros Hr. destruct (refused_authorize st Hr) as (st' & e & He & H1 & H2 & H3).
  exists st', e. unfold mbind, act_bind. by rewrite He.
Qed.

Lemma refused_push_types push types req st :
  (forall t, exists k, push t req = authorizeConnection ≫= k) -> refused ->
  ps_sent (fst (push_types push types req st)) = ps_sent st.
Proof.
  intros Hp Hr. destruct types as [|t types]; [done|]. simpl. destruct (Hp t) as [k ->].
  unfold mbind at 1, act_bind at 1.
  destruct (refused_bind k st Hr) as (st' & e & -> & _ & H2 & _). done.
Qed.

Lemma refused_push_connection push r st :
  (forall t req, exists k, push t req = authorizeConnection ≫= k) -> refused ->
  ps_sent (fst (push_connection push r st)) = ps_sent st.
Proof.
  intros Hp Hr. unfold push_connection. destruct (ps_proxy st) as [p|], r as [r|]; try done.
  unfold mbind, act_bind. destruct (Full r); unfold put_proxy, mret, act_ret, get_proxy; simpl.
  - destruct (match ProxyNeedsPush with Some f => _ | None => _ end) as [r' [|]]; [|done]. simpl.
    by rewrite refused_push_types.
  - destruct (ps_proxy st); [|done].
    destruct (match ProxyNeedsPush with Some f => _ | None => _ end) as [r' [|]]; [|done]. simpl.
    by rewrite refused_push_types.
Qed.

(** *** Incremental pushes *)

(** The names a delta push is about. *)
Definition scope (w : WatchedResource) (req : PushRequest) : gset string :=
  if ResourceDelta_IsEmpty (Delta req) then watched_names w else nset_elems (Subscribed (Delta req)).
Definition sent_names (r : Resources) : gset string := list_to_set (map res_Name r).

(** The watched names after a delta push. *)
Definition names_after (w : WatchedResource) (req : PushRequest) (usedDelta : bool)
    (resp : DeltaDiscoveryResponse) : gset string :=
  if shouldSetWatchedResources w then
    if usedDelta then (scope w req ∖ list_to_set (dr_RemovedResources resp)) ∪ sent_names (dr_Resources resp)
    else sent_names (dr_Resources resp)
  else watched_names w.

Definition supports_deltas (t : string) : Prop :=
  exists k g f, Generators !! (k +:+ "/" +:+ t) = Some g /\ gen_GenerateDeltas g = Some f.

(** The outcome of [pushDeltaXds]: nothing, or one response and its record. *)
Definition delta_pushed (W : wtable) (s : list message) (g : bool) (t : string) (w : WatchedResource)
    (req : PushRequest) (st : push_state) : Prop :=
  shows W s g st \/
  exists resp usedDelta w', shows (upd W t (Some w')) (s ++ [Incr resp]) g st /\
    dr_TypeUrl resp = t /\ NonceSent w' = dr_Nonce resp /\ watch_ok t w' /\
    (usedDelta = true -> supports_deltas t) /\
    (usedDelta = false -> list_to_set (dr_RemovedResources resp) =@{gset string}
       if Full req then scope w req ∖ sent_names (dr_Resources resp) else ∅) /\
    watched_names w' = names_after w req usedDelta resp.

Lemma DeleteAll_elems (l : list string) (e : gset string) :
  GoSet.DeleteAll (Some e) l = Some (e ∖ list_to_set l).
Proof.
  unfold GoSet.DeleteAll. revert e; induction l as [|x l IH]; intros e; simpl; [f_equal; set_solver|].
  rewrite IH. f_equal. set_solver.
Qed.

Lemma sort_strings_set (l : list string) : list_to_set (sort_strings l) =@{gset string} list_to_set l.
Proof. apply leibniz_equiv. unfold sort_strings. by rewrite Sort_perm. Qed.

Lemma removed_spec w0 req r deleted :
  list_to_set (removed_resources w0 req false r deleted) =@{gset string}
  if Full req then watched_names w0 ∖ sent_names r else ∅.
Proof.
  unfold removed_resources. destruct (Full req); [|done].
  rewrite sort_strings_set, GoSet.Copy_eq, DeleteAll_elems. unfold GoSet.UnsortedList. simpl.
  by rewrite list_to_set_elements_L.
Qed.

Lemma new_names_spec w0 usedDelta r removed :
  exists o, new_resource_names w0 usedDelta r removed = Ok o /\
  (if shouldSetWatchedResources w0 then
     o = Some (if usedDelta then (watched_names w0 ∖ list_to_set removed) ∪ sent_names r else sent_names r)
   else o = None).
Proof.
  unfold new_resource_names. destruct (shouldSetWatchedResources w0); [|by eexists].
  destruct usedDelta; [|eexists; split; [done|]; apply GoSet.New_eq].
  assert (Hn : match ResourceNames w0 with Some _ => GoSet.Copy (ResourceNames w0) | None => GoSet.New [] end
    = Some (watched_names w0)).
  { unfold watched_names. destruct (ResourceNames w0); [by rewrite GoSet.Copy_eq|done]. }
  rewrite Hn, DeleteAll_elems, GoSet.InsertAll_some. by eexists.
Qed.

Lemma sendDelta_spec W s g resp names w :
  W (dr_TypeUrl resp) = Some w ->
  triple (shows W s g) (sendDelta resp names) (shows W s g) (fun _ st => exists w',
    shows (upd W (dr_TypeUrl resp) (Some w')) (s ++ [Incr resp]) g st /\
    TypeUrl w' = TypeUrl w /\ AlwaysRespond w' = AlwaysRespond w /\ NonceSent w' = dr_Nonce resp /\
    ResourceNames w' = match names with Some _ => names | None => ResourceNames w end).
Proof.
  intros Hw. assert (Hr : some_watch W) by (by exists (dr_TypeUrl resp), w).
  unfold sendDelta. step_with tick_spec. intros i. destruct (stream_Send i) as [e|]; [by intros st Hs|].
  step_with tick_spec. intros j.
  eapply triple_bind with (R := fun _ => shows W (s ++ [Incr resp]) g).
  { intros st [H1 H2 H3]. split; [exact H1|simpl; by rewrite H2|exact H3]. }
  intros _. eapply triple_conseq; [eapply update_watch_spec; [done|]|done|done|].
  - rewrite Hw. reflexivity.
  - intros a st Hs. eexists. split; [exact Hs|]. by destruct names.
Qed.

Lemma generate_deltas_spec W s g gen w req Q :
  some_watch W ->
  triple (shows W s g) (generate_deltas gen w req) Q (fun r st =>
    (snd (fst r) = true -> is_Some (gen_GenerateDeltas gen)) /\ shows W s g st).
Proof.
  intros Hr. unfold generate_deltas. step_with tick_spec. intros i.
  eapply triple_bind; [by apply get_proxy_ok|]. intros p. apply triple_pure. intros _ st Hs.
  destruct (gen_GenerateDeltas gen) as [f|].
  - by destruct (f i p req w) as [[[[r d] l] b] e].
  - by destruct (gen_Generate gen i p w req) as [[r l] e].
Qed.

Lemma find_generator_found W s g u :
  triple (shows W s g) (findGenerator u) (shows W s g) (fun o st =>
    (forall gen, o = Some gen -> exists k, Generators !! (k +:+ "/" +:+ u) = Some gen) /\ shows W s g st).
Proof.
  intros st Hs. unfold findGenerator. split; [|done]. intros gen.
  destruct (ps_proxy st) as [p|]; [|done]. destruct (Proxy.Metadata p) as [m|]; [|done].
  intros Hg. by exists (Generator m).
Qed.

Lemma pushDeltaXds_spec W s g t w req :
  W t = Some w -> watch_ok t w ->
  let post := delta_pushed W s g t w req in
  triple (shows W s g) (pushDeltaXds t req) post (fun _ => post).
Proof.
  intros Hw [Ht Ha] post. unfold pushDeltaXds.
  assert (Hr : some_watch W) by (by exists t, w).
  assert (Hquiet : forall st, shows W s g st -> post st) by (intros st Hs; by left).
  quietly authorize_spec. intros [].
  eapply triple_bind; [by apply get_watch_ok|]. intros o. apply triple_pure. intros ->. rewrite Hw, Ht.
  quietly find_generator_found. intros o.
  apply triple_pure. intros Hfound. destruct o as [gen|]; [|intros st Hs; by apply Hquiet].
  destruct (Hfound gen eq_refl) as [k Hk].
  set (w0 := if negb _ then _ else _).
  assert (Hscope : watched_names w0 = scope w req)
    by (subst w0; unfold scope; by destruct (ResourceDelta_IsEmpty (Delta req))).
  assert (Ht0 : TypeUrl w0 = t) by (subst w0; by destruct (negb _)).
  eapply triple_bind; [by apply generate_deltas_spec|]. intros [[[r deleted] used] err].
  apply triple_pure. simpl. intros Hused. destruct err as [e|]; [intros st Hs; by apply Hquiet|].
  assert (Hsend : triple (shows W s g)
    (version ← push_version req; n ← nonce version;
     let res := default [] r in
     let removed := removed_resources w0 req used res (default [] deleted) in
     newResourceNames ← lift (new_resource_names w0 used res removed);
     sendDelta (mkDeltaResponse (TypeUrl w0) version n res removed) newResourceNames) post (fun _ => post)).
  { quietly push_version_spec. intros v.
    quietly nonce_spec. intros n. cbv zeta.
    set (removed := removed_resources _ _ _ _ _).
    destruct (new_names_spec w0 used (default [] r) removed) as (o & Ho & Hset). rewrite Ho, Ht0.
    eapply triple_bind with (R := fun o' st => o' = o /\ shows W s g st); [by intros st Hs|].
    intros o'. apply triple_pure. intros ->.
    eapply triple_conseq; [by eapply (sendDelta_spec W s g _ o w)|done|exact Hquiet|].
    intros a st (w' & Hs & H1 & H2 & H3 & H4). right. eexists _, used, w'. split; [exact Hs|].
    split; [done|]. split; [done|]. split; [by split; congruence|].
    split; [intros Hu; destruct (Hused Hu) as [f Hf]; by exists k, gen, f|].
    split; [intros Hu; subst removed; rewrite Hu; cbn [dr_RemovedResources dr_Resources];
      by rewrite removed_spec, Hscope|].
    unfold names_after, watched_names at 1. rewrite H4. simpl.
    replace (shouldSetWatchedResources w) with (shouldSetWatchedResources w0)
      by (unfold shouldSetWatchedResources; by rewrite Ht0, Ht).
    destruct (shouldSetWatchedResources w0); subst o; [|done]. simpl. rewrite <- Hscope. by destruct used. }
  destruct r as [r|]; [exact Hsend|]. destruct deleted as [d|]; [exact Hsend|].
  intros st Hs. by apply Hquiet.
Qed.

End requests.

(** ** Properties *)

(** What a push sends is on record: every message [pushXds] sends
    (for the type it is about, and after a listener response for clusters and
    routes, each of them once the nested push has ended) is a response whose
    nonce is the one the watch of its type holds when the push is over; for a
    gRPC client whose watch has names, the response has resources of these
    names only; and no watch of another type changes, the endpoint watch
    apart.  This holds however the push ends. *)
Theorem push_records_responses `{!Environment} st t req :
  keys_ok (watch_of st) ->
  let '(st', _) := pushXds t req st in
  keys_ok (watch_of st') /\
  exists ms, ps_sent st' = ps_sent st ++ ms /\
    (forall m, m ∈ ms -> msg_type m ∈ answered t /\ msg_ok (watch_of st') (grpc_of st) m) /\
    (forall u, u ∉ EndpointType :: answered t -> watch_of st' u = watch_of st u).
Proof.
  intros Hk. pose proof (pushXds_spec _ _ _ t req Hk st (shows_self st)) as Hp.
  destruct (pushXds t req st) as [st' r].
  assert (Hp' : pushed (answered t) (EndpointType :: answered t) (watch_of st) (ps_sent st) (grpc_of st) st')
    by (by destruct r). clear Hp.
  destruct Hp' as [(W' & ms & [Hw Hs _] & HW' & Hframe & Hms)]. split.
  - intros u w. rewrite Hw. apply HW'.
  - exists ms. split; [done|]. split.
    + intros m Hm. destruct (Hms m Hm) as [H1 H2]. split; [done|].
      eapply msg_ok_frame; [|exact H2]. apply Hw.
    + intros u Hu. rewrite Hw. by apply Hframe.
Qed.

(** C12 A push does not start a loop: when the client acknowledges a
    response it got from [pushXds] (its nonce, no error, and the watched names
    or none), [processRequest] sends nothing. *)
Theorem acknowledged_push_is_silent `{!Environment} st t req st' r ms resp w request :
  keys_ok (watch_of st) -> pushXds t req st = (st', r) ->
  ps_sent st' = ps_sent st ++ ms -> Sotw resp ∈ ms ->
  watch_of st' (rs_TypeUrl resp) = Some w ->
  req_TypeUrl request = rs_TypeUrl resp -> ResponseNonce request = rs_Nonce resp ->
  rs_Nonce resp <> "" -> ErrorDetail request = None ->
  names_of request = watched_names w \/ names_of request = ∅ ->
  ps_sent (fst (processRequest request st')) = ps_sent st'.
Proof.
  intros Hk Hpush Hms Hin Hw Hty Hno Hne He Hnames.
  pose proof (pushXds_spec _ _ _ t req Hk st (shows_self st)) as Hp. rewrite Hpush in Hp.
  assert (Hp' : pushed (answered t) (EndpointType :: answered t) (watch_of st) (ps_sent st) (grpc_of st) st')
    by (by destruct r). clear Hp.
  destruct Hp' as [(W' & ms' & [HW Hs _] & HW' & _ & Hok)].
  assert (ms' = ms) as -> by (apply (app_inv_head (ps_sent st)); congruence).
  destruct (Hok _ Hin) as [_ (w' & r' & Hw' & Hn & _)]. rewrite <- HW, Hw in Hw'. injection Hw' as <-.
  rewrite HW in Hw. destruct (HW' _ _ Hw) as [_ Ha].
  pose proof (processRequest_ack W' (ps_sent st') (grpc_of st') request w) as Hack.
  rewrite Hty, Hno in Hack. specialize (Hack Hw Ha He Hne ltac:(congruence) Hnames st').
  destruct (processRequest request st') as [st'' [a|e|why]]; apply Hack; by split.
Qed.

(** C28 A push ends: the pushes [pushXds] makes of clusters and routes after a
    listener response make no further ones, so any larger bound on the nesting
    than the one it is defined with gives the same result. *)
Theorem push_nesting_bounded `{!Environment} st t req n :
  keys_ok (watch_of st) -> pushXds_fuel (S (S n)) t req st = pushXds t req st.
Proof. intros Hk. exact (pushXds_fuel_enough n _ _ _ t req Hk st (shows_self st)). Qed.

(** C13 A connection that may not be served gets nothing: without an
    authorizer, when it refuses the connection, or once the certificate of the
    client has expired, requests end in a permission or authentication error
    that leaves the proxy alone, and neither requests nor pushes send
    anything. *)
Theorem unauthorized_gets_nothing `{!Environment} st :
  refused ->
  (forall req, exists st' e, processRequest req st = (st', Err e) /\ refusal e /\
     ps_sent st' = ps_sent st /\ ps_proxy st' = ps_proxy st) /\
  (forall req, exists st' e, processDeltaRequest req st = (st', Err e) /\ refusal e /\
     ps_sent st' = ps_sent st /\ ps_proxy st' = ps_proxy st) /\
  (forall ev, ps_sent (fst (pushConnection ev st)) = ps_sent st) /\
  (forall ev, ps_sent (fst (pushConnectionDelta ev st)) = ps_sent st).
Proof.
  intros Hr. repeat split.
  - intros req. by apply refused_bind.
  - intros req. by apply refused_bind.
  - intros ev. apply refused_push_connection; [|done]. intros t req. by eexists.
  - intros ev. apply refused_push_connection; [|done]. intros t req. by eexists.
Qed.

(** A delta push, in full: it sends nothing and changes nothing, or
    it sends one response for its type, whose nonce the watch then holds.  The
    names it is about are the watched ones, or the newly subscribed ones when
    the request carries a subscription change.  Without explicit deletions the
    response of a full push removes those of them it does not send, and the
    watch of a wildcard type or of routes is set to the names sent: names
    watched before and not part of this push are dropped from it. *)
Theorem delta_push_effect `{!Environment} st t w req :
  watch_of st t = Some w -> watch_ok t w ->
  let '(st', _) := pushDeltaXds t req st in
  delta_pushed (watch_of st) (ps_sent st) (grpc_of st) t w req st'.
Proof.
  intros Hw Hok. pose proof (pushDeltaXds_spec _ _ _ t w req Hw Hok st (shows_self st)) as Hp.
  by destruct (pushDeltaXds t req st) as [st' [a|e|why]].
Qed.

(** A push visits every watched type once: clusters, endpoints,
    listeners and routes in this order, then the other types. *)
Theorem push_order (p : Proxy) :
  let table := nmap_get (Proxy.WatchedResources p) in
  NoDup (watched_types p) /\ (forall t, t ∈ watched_types p <-> is_Some (table !! t)) /\
  exists others, watched_types p
    = List.filter (fun t => bool_decide (is_Some (table !! t))) [ClusterType; EndpointType; ListenerType; RouteType]
      ++ others /\ forall t, t ∈ others -> t ∉ PushOrder.
Proof.
  set (table := nmap_get (Proxy.WatchedResources p)).
  assert (Hin : forall (f : string -> bool) l x, x ∈ List.filter f l <-> x ∈ l /\ f x = true).
  { intros f l x. by rewrite !list_elem_of_In, filter_In. }
  assert (Hknown : forall t, GoSet.Contains KnownOrderedTypeUrls t = bool_decide (t ∈ PushOrder)).
  { intros t. unfold KnownOrderedTypeUrls, GoSet.Contains. rewrite GoSet.New_eq. simpl.
    apply bool_decide_ext. set_solver. }
  assert (Hdom : forall t, t ∈ (map_to_list table).*1 <-> is_Some (table !! t)).
  { intros t. rewrite list_elem_of_fmap. split.
    - intros ([k v] & -> & Hkv%elem_of_map_to_list). by eexists.
    - intros [v Hv]. exists (t, v). split; [done|]. by apply elem_of_map_to_list. }
  split; [|split].
  - unfold watched_types, ProxyWatch.ShallowCloneWatchedResources. fold table. apply NoDup_app. split; [|split].
    + apply NoDup_ListNoDup, List.NoDup_filter, NoDup_ListNoDup. apply (bool_decide_unpack _). by vm_compute.
    + intros t Ht Ht'. apply Hin in Ht as [Ht _]. apply Hin in Ht' as [_ Ht'].
      rewrite Hknown, bool_decide_eq_true_2 in Ht' by done. done.
    + apply NoDup_ListNoDup, List.NoDup_filter, NoDup_ListNoDup, NoDup_fst_map_to_list.
  - intros t. unfold watched_types, ProxyWatch.ShallowCloneWatchedResources. fold table.
    rewrite elem_of_app, !Hin, Hdom, Hknown, bool_decide_eq_true, negb_true_iff, bool_decide_eq_false.
    destruct (decide (t ∈ PushOrder)); naive_solver.
  - eexists. split; [reflexivity|]. intros t [_ Ht]%Hin.
    rewrite Hknown in Ht. by apply negb_true_iff, bool_decide_eq_false in Ht.
Qed.

(** *** Witnesses *)
Section witnesses.

(** A generator that answers with the watched names, or with one listener. *)
Definition echo : generator := mkGenerator (fun _ _ w _ =>
  (Some (map (fun n => mkResource n (mkAny (TypeUrl w) n))
     (match GoSet.UnsortedList (ResourceNames w) with [] => ["demo:80"] | l => l end)),
   DefaultXdsLogDetails, None)) None.

Definition sample_env (auth : option (Proxy -> list string -> res unit)) : Environment := {|
  UnmarshalListener := fun _ => Some (mkListener [] None);
  UnmarshalHCM := fun _ => None;
  UnmarshalCluster := fun a => Some (mkCluster (any_Value a) Cluster_EDS);
  Generators := list_to_map (map (fun t => ("grpc/" +:+ t, echo)) PushOrder);
  Authorize := auth;
  GetProxyServiceTargets := fun _ => [];
  ProxyNeedsPush := None;
  PushVersion := fun _ => "v1/";
  time_Now := fun n => Z.of_nat n;
  uuid_New := fun n => Itoa (Z.of_nat n);
  stream_Send := fun _ => None;
  con_ids := [];
  authExpiry := time_zero
|}.

Definition client (ws : ProxyWatch.watches) : push_state :=
  mkPS (Some (Proxy.mk (Some 1%positive) time_zero Inherent ws "app.ns" "ns"
    (Some (mkMeta "grpc" "c1" "ns")) [] "ns" [])) [] 0.

Definition listener_client : push_state := client (Some {[ListenerType := new_watch ListenerType None]}).
Definition listener_request : PushRequest :=
  request_for ProxyRequest (Some 1%positive) time_zero emptyResourceDelta false.

Lemma single_keys_ok t names : keys_ok (watch_of (client (Some {[t := new_watch t names]}))).
Proof.
  intros u w Hw. unfold watch_of, client in Hw. cbn in Hw. unfold ProxyWatch.GetWatchedResource in Hw.
  simpl in Hw. by apply lookup_singleton_Some in Hw as [<- <-].
Qed.

(** The listener response is followed by the clusters and routes it names. *)
Lemma push_records_responses_witness :
  let _ := sample_env accept_all in
  map msg_type (ps_sent (fst (pushXds ListenerType listener_request listener_client)))
    = [ListenerType; ClusterType; RouteType] /\
  exists ms, ps_sent (fst (pushXds ListenerType listener_request listener_client)) = ms /\
    forall m, m ∈ ms -> msg_type m ∈ answered ListenerType.
Proof.
  intros env. split; [vm_compute; reflexivity|].
  pose proof (push_records_responses listener_client ListenerType listener_request
    (single_keys_ok ListenerType None)) as Hp.
  destruct (pushXds ListenerType listener_request listener_client) as [st' r].
  destruct Hp as (_ & ms & Hms & Hok & _). exists ms. split; [exact Hms|].
  intros m Hm. apply (Hok m Hm).
Defined.

Lemma push_nesting_bounded_witness :
  let _ := sample_env accept_all in
  length (ps_sent (fst (pushXds_fuel 7 ListenerType listener_request listener_client))) = 3%nat.
Proof.
  intros env.
  rewrite (push_nesting_bounded listener_client ListenerType listener_request 5
    (single_keys_ok ListenerType None)).
  vm_compute. reflexivity.
Defined.

Definition cluster_client : push_state :=
  client (Some {[ClusterType := new_watch ClusterType (Some {["outbound|80||demo"]})]}).
Definition cluster_response : DiscoveryResponse :=
  mkResponse ClusterType "v1/" "v1/2" [mkAny ClusterType "outbound|80||demo"].
Definition cluster_ack : DiscoveryRequest :=
  mkDiscoveryRequest "v1/" None ["outbound|80||demo"] ClusterType "v1/2" None.

Lemma acknowledged_push_is_silent_witness :
  let _ := sample_env accept_all in
  let st' := fst (pushXds ClusterType listener_request cluster_client) in
  ps_sent st' = [Sotw cluster_response] /\
  ps_sent (fst (processRequest cluster_ack st')) = [Sotw cluster_response].
Proof.
  intros env st'. assert (Hsent : ps_sent st' = [Sotw cluster_response]) by (vm_compute; reflexivity).
  split; [exact Hsent|]. rewrite <- Hsent.
  destruct (watch_of st' ClusterType) as [w|] eqn:Hw; [|vm_compute in Hw; discriminate Hw].
  apply (acknowledged_push_is_silent cluster_client ClusterType listener_request st'
    (snd (pushXds ClusterType listener_request cluster_client)) [Sotw cluster_response] cluster_response w).
  - apply single_keys_ok.
  - apply surjective_pairing.
  - exact Hsent.
  - by left.
  - exact Hw.
  - reflexivity.
  - reflexivity.
  - discriminate.
  - reflexivity.
  - left. assert (Hn : (watched_names <$> watch_of st' ClusterType) = Some {["outbound|80||demo"]})
      by (vm_compute; reflexivity).
    rewrite Hw in Hn. injection Hn as ->. vm_compute. reflexivity.
Defined.

Lemma unauthorized_gets_nothing_witness :
  let _ := sample_env (Some (fun _ _ => Err (mk_error Unknown "denied"))) in
  ps_sent (fst (pushConnection (Some listener_request) listener_client)) = [] /\
  exists st' e, processRequest cluster_ack cluster_client = (st', Err e) /\ refusal e.
Proof.
  intros env.
  assert (Hr : refused) by (right; left; eexists; split; [reflexivity|]; intros p; by eexists).
  split.
  - apply (proj1 (proj2 (proj2 (unauthorized_gets_nothing listener_client Hr)))).
  - destruct (proj1 (unauthorized_gets_nothing cluster_client Hr) cluster_ack) as (st' & e & H1 & H2 & _).
    by exists st', e.
Defined.

Definition route_client : push_state :=
  client (Some {[RouteType := mkWatched RouteType (Some {["a"]}) false "n" "n" false time_zero "" []]}).
Definition subscribe_b : DeltaDiscoveryRequest := mkDeltaRequest RouteType "" None ["b"] [] ∅.

(** A client that watches the route ["a"] and subscribes to ["b"] is left
    watching ["b"] alone. *)
Example delta_subscription_forgets :
  let _ := sample_env accept_all in
  (watched_names <$> watch_of route_client RouteType) = Some {["a"]} /\
  (watched_names <$> watch_of (fst (processDeltaRequest subscribe_b route_client)) RouteType) = Some {["b"]}.
Proof. split; vm_compute; reflexivity. Qed.

Definition subscribed_request : PushRequest :=
  request_for ProxyRequest (Some 1%positive) time_zero (mkDelta (Some {["b"]}) (Some ∅)) true.

Lemma delta_push_effect_witness :
  let _ := sample_env accept_all in
  let w := mkWatched RouteType (Some {["a"]}) false "n" "n" false time_zero "" [] in
  watch_of route_client RouteType = Some w /\
  delta_pushed (watch_of route_client) [] true RouteType w subscribed_request
    (fst (pushDeltaXds RouteType subscribed_request route_client)).
Proof.
  intros env w. assert (Hw : watch_of route_client RouteType = Some w) by (vm_compute; reflexivity).
  split; [exact Hw|].
  pose proof (delta_push_effect route_client RouteType w subscribed_request Hw (conj eq_refl eq_refl)) as H.
  by destruct (pushDeltaXds RouteType subscribed_request route_client).
Defined.

End witnesses.
