(* ===== verification/ConfigSnapshot.v ===== *)
(** * The configuration snapshot

    [dubbod/discovery/pkg/model/config_snapshot.go] and [config_state.go]: the
    state every generator reads.  A snapshot is built from the environment once
    and does not change afterwards; a change either builds a new one from
    scratch or reuses the parts of the previous one the change does not touch. *)

From S2P Require Import Prelude GoStrings GoSets GoSort Hosts GoNet ConfigKeys PushRequest Service EndpointShards ServiceIndex ApiTypes Authentication PolicyIndex Ads.

(** ** Data *)

Record MeshConfig : Type := mkMesh {
  DefaultServiceExportTo : option (list string);
  TrustDomainAliases : list string;
  RootNamespace : string
}.

(** What a snapshot is built from.  [env_List] lists the configurations of a
    kind in all namespaces; the gateway controller is known by its address. *)
Record ModelEnv (C : Type) : Type := mkEnv {
  env_Mesh : MeshConfig;
  env_Services : list Service;
  env_EndpointIndex : EndpointIndex C;
  env_List : kind.Kind -> list Config;
  env_GatewayAPIController : option ptr
}.
Arguments mkEnv {C} _ _ _ _ _.
Arguments env_Mesh {C} _.
Arguments env_Services {C} _.
Arguments env_EndpointIndex {C} _.
Arguments env_List {C} _ _.
Arguments env_GatewayAPIController {C} _.

Record ConfigSnapshot : Type := mkSnapshot {
  Mesh : option MeshConfig;
  InitDone : bool;
  GatewayAPIController : option ptr;
  exportToDefaults : gset string;
  ServiceIndex_ : serviceIndex;
  httpRouteIndex : nmap host.Name (list Config);
  backendTLSPolicyIndex : nmap string BackendTLSSettings;
  faultInjectionIndex : nmap string FaultInjectionSettings;
  serviceAccounts : gmap (host.Name * string) (list string);
  AuthenticationPolicies_ : option AuthenticationPolicies
}.

Definition NewConfigSnapshot : ConfigSnapshot :=
  mkSnapshot None false None ∅ newServiceIndex None (Some ∅) None ∅ None.

Definition initDefaultExportMaps (mesh : MeshConfig) : gset string :=
  match DefaultServiceExportTo mesh with
  | Some l => list_to_set l
  | None => {[visibility.Public]}
  end.

(** ** Building *)
Section build.
Context `{Libraries, RangeOrder} {C : Type} (md5hex : string -> string).
Implicit Types (env : ModelEnv C) (ps old : ConfigSnapshot) (change : ConfigChange.t).

(** [Mesh] is set before the registry is read. *)
Definition registry_of env ps (configsUpdate : nset ConfigKey)
  : res (serviceIndex * gmap (host.Name * string) (list string)) :=
  r ← initServiceRegistry (env_EndpointIndex env) (exportToDefaults ps) (TrustDomainAliases (env_Mesh env))
        (env_Services env) configsUpdate (ServiceIndex_ ps) (serviceAccounts ps);
  Ok (fst r).

(** [initKubernetesGateways]: the controller is told of the snapshot, which does
    not change it. *)
Definition initKubernetesGateways env ps : option ptr :=
  match env_GatewayAPIController env with
  | Some c => Some c
  | None => GatewayAPIController ps
  end.

Definition env_AuthenticationPolicies env : res AuthenticationPolicies :=
  initAuthenticationPolicies md5hex (RootNamespace (env_Mesh env))
    (env_List env kind.RequestAuthentication) (env_List env kind.AuthorizationPolicy)
    (env_List env kind.PeerAuthentication).

Definition createNewContext env ps : res ConfigSnapshot :=
  reg ← registry_of env ps None;
  let gateways := initKubernetesGateways env ps in
  let routes := initHTTPRoutes (env_List env kind.HTTPRoute) in
  let tls := initBackendTLSPolicies (env_List env kind.BackendTLSPolicy) in
  let faults := initFaultInjectionPolicies (env_List env kind.FaultInjectionPolicy) in
  auth ← env_AuthenticationPolicies env;
  Ok (mkSnapshot (Mesh ps) (InitDone ps) gateways (exportToDefaults ps) (fst reg) (Some routes)
        (Some tls) (Some faults) (snd reg) (Some auth)).

Definition authPolicyKindsChanged (configs : nset ConfigKey) : bool :=
  HasConfigsOfKind configs kind.PeerAuthentication ||
  HasConfigsOfKind configs kind.RequestAuthentication ||
  HasConfigsOfKind configs kind.AuthorizationPolicy.

(** The part of [servicesChanged] that the change itself tells. *)
Definition services_touched change : bool :=
  (0 <? nset_len (ConfigChange.AddressesUpdated change))%nat ||
  HasConfigsOfKind (ConfigChange.ConfigsUpdated change) kind.Service ||
  HasConfigsOfKind (ConfigChange.ConfigsUpdated change) kind.ServiceEntry.

Definition oldServiceCount old : nat :=
  fold_left (fun n '(_, namespaces) => n + size (namespaces : gmap string Service))%nat
    (range (HostnameAndNamespace (ServiceIndex_ old))) 0%nat.

Definition servicesChanged env old change : bool :=
  services_touched change || negb (length (env_Services env) =? oldServiceCount old)%nat.

(** Called with a change and a snapshot that is done. *)
Definition updateContext env ps old change : res ConfigSnapshot :=
  let updated := ConfigChange.ConfigsUpdated change in
  let changed := servicesChanged env old change in
  reg ← (if changed then registry_of env ps updated
         else Ok (ServiceIndex_ old, serviceAccounts old));
  let gateways := if changed then initKubernetesGateways env ps else GatewayAPIController old in
  let routes := if HasConfigsOfKind updated kind.HTTPRoute
                then Some (initHTTPRoutes (env_List env kind.HTTPRoute)) else httpRouteIndex old in
  let tls := if HasConfigsOfKind updated kind.BackendTLSPolicy
             then Some (initBackendTLSPolicies (env_List env kind.BackendTLSPolicy))
             else backendTLSPolicyIndex old in
  let faults := if HasConfigsOfKind updated kind.FaultInjectionPolicy
                then Some (initFaultInjectionPolicies (env_List env kind.FaultInjectionPolicy))
                else faultInjectionIndex old in
  let authnPoliciesChanged := ConfigChange.Full change || authPolicyKindsChanged updated in
  auth ← (match AuthenticationPolicies_ old with
          | Some auth => if authnPoliciesChanged then env_AuthenticationPolicies env else Ok auth
          | None => env_AuthenticationPolicies env
          end);
  Ok (mkSnapshot (Mesh ps) (InitDone ps) gateways (exportToDefaults ps) (fst reg) routes tls faults
        (snd reg) (Some auth)).

Definition Initialize ps env (oldSnapshot : option ConfigSnapshot) (change : option ConfigChange.t)
  : res ConfigSnapshot :=
  if InitDone ps then Ok ps else
  let ps := mkSnapshot (Some (env_Mesh env)) (InitDone ps) (GatewayAPIController ps)
              (initDefaultExportMaps (env_Mesh env)) (ServiceIndex_ ps) (httpRouteIndex ps)
              (backendTLSPolicyIndex ps) (faultInjectionIndex ps) (serviceAccounts ps)
              (AuthenticationPolicies_ ps) in
  ps ← match change, oldSnapshot with
       | Some change, Some old =>
           if negb (InitDone old) || ConfigChange.Forced change then createNewContext env ps
           else updateContext env ps old change
       | _, _ => createNewContext env ps
       end;
  Ok (mkSnapshot (Mesh ps) true (GatewayAPIController ps) (exportToDefaults ps) (ServiceIndex_ ps)
        (httpRouteIndex ps) (backendTLSPolicyIndex ps) (faultInjectionIndex ps) (serviceAccounts ps)
        (AuthenticationPolicies_ ps)).

(** ** Publishing ([config_state.go])

    The snapshot of the environment, its handlers, and the calls made to them:
    which handler, for which change, with which snapshot published. *)
Record config_state : Type := mkState {
  configSnapshot : option ConfigSnapshot;
  configHandlers : list ptr;
  notified : list (ptr * option ConfigChange.t * option ConfigSnapshot)
}.

Definition AddConfigHandler (st : config_state) (handler : ptr) : config_state :=
  mkState (configSnapshot st) (configHandlers st ++ [handler]) (notified st).

Definition NotifyConfigChange (st : config_state) (change : option ConfigChange.t) : config_state :=
  mkState (configSnapshot st) (configHandlers st)
    (notified st ++ map (fun h => (h, change, configSnapshot st)) (configHandlers st)).

Definition ReconcileConfig (st : config_state) env (change : option ConfigChange.t)
  : res (config_state * ConfigSnapshot) :=
  current ← Initialize NewConfigSnapshot env (configSnapshot st) change;
  let st := mkState (Some current) (configHandlers st) (notified st) in
  Ok (NotifyConfigChange st change, current).

End build.

(** ** Queries *)

Definition InboundMTLSModeForProxy (ps : option ConfigSnapshot) (proxy : option Proxy) (port : Z)
  : MutualTLSMode :=
  match ps, proxy with
  | Some ps, Some proxy =>
      match AuthenticationPolicies_ ps with
      | None => MTLSUnknown
      | Some policies =>
          let namespace := match Proxy.Metadata proxy with Some m => meta_Namespace m | None => "" end in
          let namespace := if String.eqb namespace "" then Proxy.ConfigNamespace proxy else namespace in
          EffectiveMutualTLSMode (Some policies) namespace None port
      end
  | _, _ => MTLSUnknown
  end.

Definition snapshot_RequestAuthentications (ps : option ConfigSnapshot) (namespace : string)
    (workloadLabels : nmap string string) : list Config :=
  match ps with
  | Some ps => RequestAuthenticationsForWorkload (AuthenticationPolicies_ ps) namespace workloadLabels
  | None => []
  end.

Definition snapshot_AuthorizationPolicies (ps : option ConfigSnapshot) (namespace : string)
    (workloadLabels : nmap string string) : list Config :=
  match ps with
  | Some ps => AuthorizationPoliciesForWorkload (AuthenticationPolicies_ ps) namespace workloadLabels
  | None => []
  end.

Definition ServiceAccounts_ (ps : ConfigSnapshot) (hostname : host.Name) (namespace : string) : list string :=
  default [] (serviceAccounts ps !! (hostname, namespace)).

(** ** Lemmas *)

(** The same shards for every service *)
Definition same_shards {C} (e1 e2 : EndpointIndex C) : Prop :=
  forall svc ns, ShardsForService e1 svc ns = ShardsForService e2 svc ns.

Lemma index_services_ext {C} (e1 e2 : EndpointIndex C) defaults si l :
  same_shards e1 e2 -> index_services e1 defaults si l = index_services e2 defaults si l.
Proof.
  intros He. revert si; induction l as [|s l IH]; intros si; simpl; [done|].
  unfold index_instances, instances_of. rewrite He.
  destruct (service_ports s); simpl; [|done..]. apply IH.
Qed.

Lemma initServiceAccounts_ext {C} (e1 e2 : EndpointIndex C) td m l :
  same_shards e1 e2 -> initServiceAccounts e1 td m l = initServiceAccounts e2 td m l.
Proof.
  intros He. unfold initServiceAccounts. revert m; induction l as [|s l IH]; intros m; simpl; [done|].
  unfold accounts_of at 2. rewrite He. apply IH.
Qed.

Section updates.
Context `{Libraries, RangeOrder} {C : Type} (md5hex : string -> string).
Implicit Types (env : ModelEnv C) (ps old : ConfigSnapshot) (change : ConfigChange.t).

(** The inputs of the service index are the same. *)
Definition same_services env0 env : Prop :=
  env_Services env0 = env_Services env /\ env_Mesh env0 = env_Mesh env /\
  same_shards (env_EndpointIndex env0) (env_EndpointIndex env) /\
  env_GatewayAPIController env0 = env_GatewayAPIController env.

(** A change names a kind if it has a key of that kind. *)
Definition names change (k : kind.Kind) : Prop :=
  exists key, key ∈ nset_elems (ConfigChange.ConfigsUpdated change) /\ ConfigKey.Kind key = k.
Definition has_addresses change : Prop := exists a, a ∈ nset_elems (ConfigChange.AddressesUpdated change).

(** A change that is not forced tells what differs between two states of the environment:
    the mesh configuration and the gateway controller are the same; when services
    differ it has a key of a service or service entry, when the endpoints of a service
    differ a key for that service (or, for either, addresses); when the
    configurations of a kind differ a key of that kind, or it is a full change if the
    kind is one of authentication. *)
Record covered change env0 env : Prop := {
  cv_mesh : env_Mesh env0 = env_Mesh env;
  cv_gateways : env_GatewayAPIController env0 = env_GatewayAPIController env;
  cv_services : env_Services env0 = env_Services env \/ names change kind.Service \/ names change kind.ServiceEntry \/ has_addresses change;
  cv_endpoints svc ns :
    ShardsForService (env_EndpointIndex env0) svc ns = ShardsForService (env_EndpointIndex env) svc ns \/
    (exists key, key ∈ nset_elems (ConfigChange.ConfigsUpdated change) /\
       (ConfigKey.Kind key = kind.Service \/ ConfigKey.Kind key = kind.ServiceEntry) /\
       ConfigKey.Name key = svc /\ ConfigKey.Namespace key = ns) \/ has_addresses change;
  cv_policies k : k ∈ [kind.HTTPRoute; kind.BackendTLSPolicy; kind.FaultInjectionPolicy] ->
    env_List env0 k = env_List env k \/ names change k;
  cv_auth k : k ∈ [kind.PeerAuthentication; kind.RequestAuthentication; kind.AuthorizationPolicy] ->
    env_List env0 k = env_List env k \/ names change k \/ ConfigChange.Full change = true
}.
Definition covers change env0 env : Prop := ConfigChange.Forced change = true \/ covered change env0 env.

Lemma not_names change k : HasConfigsOfKind (ConfigChange.ConfigsUpdated change) k = false -> ~ names change k.
Proof. intros Hf Hn. apply HasConfigsOfKind_spec in Hn. congruence. Qed.

(** What the code finds untouched is the same. *)
Lemma untouched_services change env0 env :
  covered change env0 env -> services_touched change = false -> same_services env0 env.
Proof.
  intros [Hm Hg Hs He _ _] Ht. unfold services_touched in Ht. apply orb_false_iff in Ht as [Ht Hse]. apply orb_false_iff in Ht as [Ha Hsv].
  apply not_names in Hsv, Hse.
  assert (Hna : ~ has_addresses change).
  { intros [a Hin]. apply Nat.ltb_ge in Ha. unfold nset_len in Ha. assert (Hz : size (nset_elems (ConfigChange.AddressesUpdated change)) = 0%nat) by lia.
    apply size_empty_inv in Hz. set_solver. }
  split; [naive_solver|]. split; [done|]. split; [|done]. intros svc ns.
  destruct (He svc ns) as [?|[(key & Hk & [E|E] & _)|?]]; [done| | |done]; exfalso; [apply Hsv|apply Hse]; by exists key.
Qed.

Lemma untouched_auth change env0 env :
  covered change env0 env -> ConfigChange.Full change = false -> authPolicyKindsChanged (ConfigChange.ConfigsUpdated change) = false ->
  env_AuthenticationPolicies md5hex env0 = env_AuthenticationPolicies md5hex env.
Proof.
  intros [Hm _ _ _ _ Ha] Hf Hk. unfold authPolicyKindsChanged in Hk. apply orb_false_iff in Hk as [Hk H3]. apply orb_false_iff in Hk as [H1 H2].
  apply not_names in H1, H2, H3. unfold env_AuthenticationPolicies.
  assert (E : forall k, k ∈ [kind.PeerAuthentication; kind.RequestAuthentication; kind.AuthorizationPolicy] -> ~ names change k -> env_List env0 k = env_List env k)
    by (intros k Hin Hn; destruct (Ha k Hin) as [?|[?|?]]; [done|done|congruence]).
  rewrite Hm, !E by (done || set_solver). done.
Qed.

(** The updates are only read for the keys of aliases, which changes nothing. *)
Lemma registry_of_updates env ps cu cu' : registry_of env ps cu = registry_of env ps cu'.
Proof.
  unfold registry_of, initServiceRegistry, registry_services, resolveServiceAliases. simpl.
  by destruct (index_services _ _ _ _).
Qed.

Lemma registry_of_ext env0 env ps ps' cu cu' :
  same_services env0 env -> exportToDefaults ps = exportToDefaults ps' ->
  ServiceIndex_ ps = ServiceIndex_ ps' -> serviceAccounts ps = serviceAccounts ps' ->
  registry_of env0 ps cu = registry_of env ps' cu'.
Proof.
  intros (Hs & Hm & He & _) Hd Hi Ha. rewrite (registry_of_updates env ps' cu' cu).
  unfold registry_of, initServiceRegistry. rewrite Hs, Hm, Hd, Hi, Ha.
  rewrite (index_services_ext _ (env_EndpointIndex env)) by done.
  rewrite (initServiceAccounts_ext _ (env_EndpointIndex env)) by done. done.
Qed.

(** A snapshot built from scratch. *)
Definition full_snapshot env : res ConfigSnapshot := Initialize md5hex NewConfigSnapshot env None None.

Definition start env : ConfigSnapshot :=
  mkSnapshot (Some (env_Mesh env)) false None (initDefaultExportMaps (env_Mesh env)) newServiceIndex
    None (Some ∅) None ∅ None.

Definition finish ps : ConfigSnapshot :=
  mkSnapshot (Mesh ps) true (GatewayAPIController ps) (exportToDefaults ps) (ServiceIndex_ ps)
    (httpRouteIndex ps) (backendTLSPolicyIndex ps) (faultInjectionIndex ps) (serviceAccounts ps)
    (AuthenticationPolicies_ ps).

(** What a snapshot built from scratch consists of. *)
Lemma full_snapshot_Ok env s :
  full_snapshot env = Ok s <->
  exists reg auth, registry_of env (start env) None = Ok reg /\ env_AuthenticationPolicies md5hex env = Ok auth /\
    s = mkSnapshot (Some (env_Mesh env)) true (env_GatewayAPIController env)
          (initDefaultExportMaps (env_Mesh env)) (fst reg)
          (Some (initHTTPRoutes (env_List env kind.HTTPRoute)))
          (Some (initBackendTLSPolicies (env_List env kind.BackendTLSPolicy)))
          (Some (initFaultInjectionPolicies (env_List env kind.FaultInjectionPolicy))) (snd reg) (Some auth).
Proof.
  change (full_snapshot env) with
    (createNewContext md5hex env (start env) ≫= fun ps => Ok (finish ps)).
  assert (Hg : initKubernetesGateways env (start env) = env_GatewayAPIController env).
  { unfold initKubernetesGateways. by destruct (env_GatewayAPIController env). }
  unfold createNewContext. rewrite Hg.
  destruct (registry_of env (start env) None) as [reg| |]; simpl; [|naive_solver..].
  destruct (env_AuthenticationPolicies md5hex env) as [auth| |]; simpl; [|naive_solver..].
  unfold finish. simpl. naive_solver.
Qed.

Lemma updateContext_full env0 env old change :
  covered change env0 env -> full_snapshot env0 = Ok old ->
  updateContext md5hex env (start env) old change = createNewContext md5hex env (start env).
Proof.
  intros Hc (reg & auth & Hreg & Hauth & ->)%full_snapshot_Ok.
  unfold updateContext, createNewContext. cbn [ServiceIndex_ serviceAccounts GatewayAPIController
    httpRouteIndex backendTLSPolicyIndex faultInjectionIndex AuthenticationPolicies_].
  set (old := mkSnapshot _ _ _ _ _ _ _ _ _ _).
  assert (Hr : (if servicesChanged env old change
                then registry_of env (start env) (ConfigChange.ConfigsUpdated change)
                else Ok (fst reg, snd reg)) = registry_of env (start env) None /\
               (if servicesChanged env old change then initKubernetesGateways env (start env)
                else env_GatewayAPIController env0) = initKubernetesGateways env (start env)).
  { destruct (servicesChanged env old change) eqn:Ec.
    - split; [apply registry_of_updates|done].
    - unfold servicesChanged in Ec. apply orb_false_iff in Ec as [Et _].
      pose proof (untouched_services _ _ _ Hc Et) as Hs. pose proof Hs as (Hsv & Hm & He & Hg). split.
      + rewrite <- (registry_of_ext env0 env (start env0) (start env) None None), Hreg;
          [by destruct reg|done|by unfold start; simpl; rewrite Hm|done..].
      + unfold initKubernetesGateways. rewrite Hg. by destruct (env_GatewayAPIController env). }
  destruct Hr as [-> ->].
  assert (Hkind : forall {A} k (f : list Config -> A),
    k ∈ [kind.HTTPRoute; kind.BackendTLSPolicy; kind.FaultInjectionPolicy] ->
    (if HasConfigsOfKind (ConfigChange.ConfigsUpdated change) k then Some (f (env_List env k))
     else Some (f (env_List env0 k))) = Some (f (env_List env k))).
  { intros A k f Hin. destruct (HasConfigsOfKind _ k) eqn:Ek; [done|]. apply not_names in Ek.
    destruct (cv_policies _ _ _ Hc k Hin) as [->|?]; [done|done]. }
  rewrite !Hkind by set_solver.
  assert (Hauth' : (if ConfigChange.Full change || authPolicyKindsChanged (ConfigChange.ConfigsUpdated change)
            then env_AuthenticationPolicies md5hex env else Ok auth) = env_AuthenticationPolicies md5hex env).
  { destruct (ConfigChange.Full change || _) eqn:Ef; [done|]. apply orb_false_iff in Ef as [Ef Ep].
    by rewrite <- (untouched_auth _ _ _ Hc Ef Ep), Hauth. }
  by rewrite Hauth'.
Qed.

Lemma Initialize_full env0 env old change :
  covers change env0 env -> full_snapshot env0 = Ok old ->
  Initialize md5hex NewConfigSnapshot env (Some old) (Some change) = full_snapshot env.
Proof.
  intros Hc Ho. pose proof (updateContext_full env0 env old change) as Hu.
  pose proof Ho as (reg & auth & _ & _ & Eo)%full_snapshot_Ok.
  unfold Initialize. cbn [InitDone NewConfigSnapshot negb orb]. rewrite Eo at 1. cbn [InitDone negb orb].
  destruct (ConfigChange.Forced change) eqn:Ef; [done|]. destruct Hc as [?|Hc]; [congruence|].
  change (mkSnapshot (Some (env_Mesh env)) false _ _ _ _ _ _ _ _) with (start env).
  rewrite Hu; done.
Qed.

End updates.

(** A run of the environment: its successive states, with the change each was
    announced with. *)
Definition run_reconcile `{Libraries, RangeOrder} {C} (md5hex : string -> string) (st : config_state)
    (steps : list (ModelEnv C * ConfigChange.t)) : res config_state :=
  fold_left (fun r '(env, change) => st ← r; fst <$> ReconcileConfig md5hex st env (Some change)) steps (Ok st).

(** Each change covers the difference with the state before. *)
Fixpoint announced {C} (env0 : ModelEnv C)
    (steps : list (ModelEnv C * ConfigChange.t)) : Prop :=
  match steps with
  | [] => True
  | (env, change) :: steps => covers change env0 env /\ announced env steps
  end.

Lemma run_reconcile_fail `{Libraries, RangeOrder} {C} (md5hex : string -> string)
    (steps : list (ModelEnv C * ConfigChange.t)) (r : res config_state) st :
  fold_left (fun r '(env, change) => st ← r; fst <$> ReconcileConfig md5hex st env (Some change)) steps r = Ok st ->
  exists st0, r = Ok st0.
Proof.
  revert r; induction steps as [|[env change] steps IH]; intros r; simpl; [eauto|].
  intros (st0 & E)%IH. apply res_bind_ok in E as (st1 & -> & _). eauto.
Qed.

(** ** Properties *)

(** Reusing what a change does not touch is not observable: when the change
    covers what differs between two states of the environment, updating the
    snapshot of the first gives exactly the snapshot built from scratch from the
    second, failures included. *)
Theorem incremental_snapshot_is_full `{Libraries, RangeOrder} {C} (md5hex : string -> string)
    (env0 env : ModelEnv C) old change :
  covers change env0 env -> full_snapshot md5hex env0 = Ok old ->
  Initialize md5hex NewConfigSnapshot env (Some old) (Some change) = full_snapshot md5hex env.
Proof. apply Initialize_full. Qed.

(** C8 The published snapshot refines "the snapshot of the present state of the
    environment": after any sequence of reconciliations it is the snapshot built from
    scratch from the last state, if each change tells what happened since the previous
    one.  A forced change may stand for anything.  Any other has a key of a service or a
    service entry, or addresses, where services differ, and one for the service (or
    addresses) where its endpoints do; a key of the kind where the HTTP routes,
    backend TLS policies or fault injection policies differ; a key of the kind, or is a
    full change, where authentication or authorization policies differ; and the mesh
    configuration and the gateway controller are the same. *)
Theorem reconcile_refines_full `{Libraries, RangeOrder} {C} (md5hex : string -> string)
    (env0 : ModelEnv C) old handlers steps st :
  full_snapshot md5hex env0 = Ok old -> announced env0 steps ->
  run_reconcile md5hex (mkState (Some old) handlers []) steps = Ok st ->
  exists s, configSnapshot st = Some s /\
    full_snapshot md5hex (default env0 (fst <$> last steps)) = Ok s.
Proof.
  generalize (@nil (ptr * option ConfigChange.t * option ConfigSnapshot)) as log. unfold run_reconcile.
  revert env0 old. induction steps as [|[env change] steps IH]; intros env0 old log Ho Ha Hr.
  { simpl in *. simplify_eq. eauto. }
  destruct Ha as [Hc Ha]. cbn [fold_left] in Hr.
  pose proof (run_reconcile_fail md5hex _ _ _ Hr) as [st1 E].
  rewrite E in Hr. unfold ReconcileConfig in E. cbn [mbind res_bind configSnapshot] in E.
  rewrite (Initialize_full md5hex env0 env old change Hc Ho) in E.
  destruct (full_snapshot md5hex env) as [cur| |] eqn:Ef; cbn in E; simplify_eq.
  destruct (IH env cur _ Ef Ha Hr) as (s & Hs & Hf). exists s. split; [done|].
  replace (fst <$> last ((env, change) :: steps)) with (Some (default env (fst <$> last steps))); [done|].
  destruct steps as [|x steps]; [done|]. cbn [last].
  change (last ((env, change) :: x :: steps)) with (last (x :: steps)).
  destruct (last (x :: steps)) eqn:El; [done|]. by apply last_None in El.
Qed.

(** A reconciliation publishes a completed snapshot before it notifies: every
    handler is called once, in the order of registration, and finds the new
    snapshot published; when building fails nothing is published. *)
Theorem reconcile_publishes_before_notifying `{Libraries, RangeOrder} {C} (md5hex : string -> string)
    st (env : ModelEnv C) change :
  match ReconcileConfig md5hex st env change with
  | Ok (st', current) =>
      InitDone current = true /\ configSnapshot st' = Some current /\
      notified st' = notified st ++ map (fun h => (h, change, Some current)) (configHandlers st)
  | Err _ | Panic _ => forall s, Initialize md5hex NewConfigSnapshot env (configSnapshot st) change <> Ok s
  end.
Proof.
  unfold ReconcileConfig. destruct (Initialize _ _ _ _ _) as [cur| |] eqn:E; cbn; [|done..].
  split; [|done]. unfold Initialize in E. cbn [InitDone NewConfigSnapshot] in E.
  apply res_bind_ok in E as (ps & _ & [= <-]). done.
Qed.

(** *** Witnesses *)

Definition sample_env (faults : list Config) : ModelEnv unit :=
  mkEnv (mkMesh None ["alt"] "dubbo-system") sample_services sample_index
    (fun k => match k with
              | kind.FaultInjectionPolicy => faults
              | kind.BackendTLSPolicy => [sample_tls "tls" 1 "a.example"]
              | _ => []
              end) None.

Definition sample_change : ConfigChange.t :=
  ConfigChange.mk (Some {[ConfigKey.mk kind.FaultInjectionPolicy "port" "ns"]}) None false false false false.

Definition sample_full (faults : list Config) : ConfigSnapshot :=
  from_ok NewConfigSnapshot (@full_snapshot sample_libraries key_order unit (fun s => s) (sample_env faults)).

Lemma sample_full_ok :
  @full_snapshot sample_libraries key_order unit (fun s => s) (sample_env []) = Ok (sample_full []).
Proof. apply is_ok_from_ok. vm_compute. reflexivity. Qed.

Lemma sample_covers faults faults' : covers sample_change (sample_env faults) (sample_env faults').
Proof.
  right. split; [reflexivity|reflexivity|by left|by left| |].
  - intros k Hk. apply elem_of_cons in Hk as [->|Hk]; [by left|]. apply elem_of_cons in Hk as [->|Hk]; [by left|].
    apply list_elem_of_singleton in Hk as ->. right. exists (ConfigKey.mk kind.FaultInjectionPolicy "port" "ns"). split; [|done]. set_solver.
  - intros k Hk. left. apply elem_of_cons in Hk as [->|Hk]; [done|]. apply elem_of_cons in Hk as [->|Hk]; [done|].
    by apply list_elem_of_singleton in Hk as ->.
Qed.

Lemma incremental_snapshot_is_full_witness :
  @Initialize sample_libraries key_order unit (fun s => s) NewConfigSnapshot
    (sample_env [sample_fault "port" "dubbo" 2 500]) (Some (sample_full [])) (Some sample_change)
  = @full_snapshot sample_libraries key_order unit (fun s => s) (sample_env [sample_fault "port" "dubbo" 2 500]).
Proof.
  apply (@incremental_snapshot_is_full sample_libraries key_order unit (fun s => s) (sample_env [])).
  - apply sample_covers.
  - apply sample_full_ok.
Defined.

Definition sample_steps : list (ModelEnv unit * ConfigChange.t) :=
  [(sample_env [sample_fault "port" "dubbo" 2 500], sample_change); (sample_env [], sample_change)].

Definition sample_run : config_state :=
  from_ok (mkState None [] []) (@run_reconcile sample_libraries key_order unit (fun s => s)
    (mkState (Some (sample_full [])) [1%positive] []) sample_steps).

Lemma reconcile_refines_full_witness :
  exists s, configSnapshot sample_run = Some s /\
    @full_snapshot sample_libraries key_order unit (fun s => s) (sample_env []) = Ok s.
Proof.
  apply (@reconcile_refines_full sample_libraries key_order unit (fun s => s) (sample_env [])
           (sample_full []) [1%positive] sample_steps sample_run).
  - apply sample_full_ok.
  - split; [apply sample_covers|split; [apply sample_covers|exact I]].
  - apply is_ok_from_ok. vm_compute. reflexivity.
Defined.
