(* ===== verification/SecurityFilters.v ===== *)
(** * Security filters of inbound listeners

    [dubbod/discovery/pkg/networking/grpcgen/security_filters.go]: request
    authentications become a JWT filter, authorization policies become RBAC
    filters.  The messages of the xDS API are records; a typed configuration
    inside a message is kept as the message it encodes. *)

From S2P Require Import Prelude GoStrings Hosts Service ApiTypes Authentication Ads ConfigSnapshot.

(** ** Messages *)

Record JwtProvider : Type := mkJwtProvider {
  jp_Issuer : string;
  jp_Audiences : list string;
  jp_JwksUri : string;
  jp_Jwks : string;
  jp_FromHeaders : list JWTHeader;
  jp_FromParams : list string
}.
Record JwtAuthentication : Type := mkJwtAuthentication {
  ja_Providers : list JwtProvider; ja_AllowMissing : bool }.

Inductive RBAC_Action : Type := RBAC_ALLOW | RBAC_DENY.
Record RBACRule : Type := mkRBACRule { rb_Sources : list AuthzSource; rb_When : list AuthzCondition }.
Record RBAC : Type := mkRBAC { rbac_Action : RBAC_Action; rbac_Rules : list RBACRule }.

Inductive http_config : Type :=
  | CfgJwt (j : JwtAuthentication)
  | CfgRBAC (r : RBAC)
  | CfgRouter.
Record HttpFilter : Type := mkHttpFilter { hf_Name : string; hf_Config : http_config }.

Definition JWTAuthenticationName : string := "filters.http.jwt_authn".
Definition HTTPRoleBasedAccessControl : string := "filters.http.rbac".
Definition HTTPRouter : string := "filters.http.router".

(** ** Translation *)

Definition typedHTTPFilter (name : string) (cfg : http_config) : HttpFilter := mkHttpFilter name cfg.

Definition routerHTTPFilter : HttpFilter := typedHTTPFilter HTTPRouter CfgRouter.

Definition jwtProviderFromRule (rule : JWTRule) : JwtProvider :=
  let headers := omap (fun header : option JWTHeader =>
    match header with
    | None => None
    | Some h => if String.eqb (jh_Name h) "" then None else Some (mkJWTHeader (jh_Name h) (jh_Prefix h))
    end) (jr_FromHeaders rule) in
  let headers := if (length headers =? 0)%nat && (length (jr_FromParams rule) =? 0)%nat
                 then headers ++ [mkJWTHeader "authorization" "Bearer "] else headers in
  mkJwtProvider (jr_Issuer rule) (jr_Audiences rule) (jr_JwksUri rule) (jr_Jwks rule) headers
    (jr_FromParams rule).

Definition jwt_providers (cfg : Config) : list JwtProvider :=
  match Config.Spec cfg with
  | SpecRequest (Some spec) =>
      omap (fun rule : option JWTRule =>
        match rule with
        | None => None
        | Some rule => if String.eqb (jr_Issuer rule) "" then None else Some (jwtProviderFromRule rule)
        end) (ra_JwtRules spec)
  | _ => []
  end.

Definition buildJWTAuthenticationFilter (configs : list Config) : option HttpFilter :=
  let providers := concat (map jwt_providers configs) in
  if (length providers =? 0)%nat then None
  else Some (typedHTTPFilter JWTAuthenticationName (CfgJwt (mkJwtAuthentication providers true))).

Definition authorizationRuleFromAPI (rule : option AuthzRule) : RBACRule :=
  match rule with
  | None => mkRBACRule [] []
  | Some rule =>
      mkRBACRule
        (map (fun from : option (option AuthzSource) =>
           match from with
           | Some (Some s) => mkAuthzSource (so_Principals s) (so_RequestPrincipals s)
           | _ => mkAuthzSource [] []
           end) (rl_From rule))
        (omap (fun c : option AuthzCondition =>
           match c with
           | None => None
           | Some c => Some (mkAuthzCondition (co_Key c) (co_Values c) (co_NotValues c))
           end) (rl_When rule))
  end.

(** The state of the loop: the rules of denying policies, those of the others,
    and whether there is one of the others. *)
Definition authz_step (st : list RBACRule * list RBACRule * bool) (cfg : Config)
  : list RBACRule * list RBACRule * bool :=
  let '(denyRules, allowRules, hasAllowPolicy) := st in
  match Config.Spec cfg with
  | SpecAuthz (Some spec) =>
      let rules := map authorizationRuleFromAPI (ap_Rules spec) in
      match ap_Action spec with
      | DENY => (denyRules ++ rules, allowRules, hasAllowPolicy)
      | _ => (denyRules, allowRules ++ rules, true)
      end
  | _ => st
  end.

Definition buildAuthorizationFilters (configs : list Config) : list HttpFilter :=
  let '(denyRules, allowRules, hasAllowPolicy) := fold_left authz_step configs ([], [], false) in
  (if (0 <? length denyRules)%nat
   then [typedHTTPFilter HTTPRoleBasedAccessControl (CfgRBAC (mkRBAC RBAC_DENY denyRules))] else [])
  ++ (if hasAllowPolicy
      then [typedHTTPFilter HTTPRoleBasedAccessControl (CfgRBAC (mkRBAC RBAC_ALLOW allowRules))] else []).

Definition serviceTargetNamespace (serviceTarget : ServiceTarget) : string :=
  match st_Service serviceTarget with
  | None => ""
  | Some s => Attributes.Namespace (Service.Attributes s)
  end.

Definition workloadLabelsForServiceTarget (serviceTarget : ServiceTarget) : nmap string string :=
  match st_Service serviceTarget with
  | None => None
  | Some s =>
      let labels := Attributes.LabelSelectors (Service.Attributes s) in
      if (0 <? size (nmap_get labels))%nat then labels else Attributes.Labels (Service.Attributes s)
  end.

Definition buildInboundHTTPFilters (push : option ConfigSnapshot) (serviceTarget : ServiceTarget)
  : list HttpFilter :=
  let namespace := serviceTargetNamespace serviceTarget in
  let workloadLabels := workloadLabelsForServiceTarget serviceTarget in
  match buildJWTAuthenticationFilter (snapshot_RequestAuthentications push namespace workloadLabels) with
  | Some jwt => [jwt]
  | None => []
  end
  ++ buildAuthorizationFilters (snapshot_AuthorizationPolicies push namespace workloadLabels)
  ++ [routerHTTPFilter].

(** ** What the filters decide

    A data plane runs the filters in order; an RBAC filter that denies rejects a
    request one of its rules matches, one that allows rejects a request none of
    them matches.  How a rule matches a request is a parameter. *)
Section decision.
Context {Request : Type} (matches : RBACRule -> Request -> bool).

Definition filter_admits (f : HttpFilter) (rq : Request) : bool :=
  match hf_Config f with
  | CfgRBAC (mkRBAC RBAC_DENY rules) => negb (existsb (fun r => matches r rq) rules)
  | CfgRBAC (mkRBAC RBAC_ALLOW rules) => existsb (fun r => matches r rq) rules
  | _ => true
  end.

Definition chain_admits (fs : list HttpFilter) (rq : Request) : bool :=
  forallb (fun f => filter_admits f rq) fs.

Definition authz_of (cfg : Config) : option AuthorizationPolicy :=
  match Config.Spec cfg with SpecAuthz a => a | _ => None end.

Definition denies (p : AuthorizationPolicy) : bool :=
  match ap_Action p with DENY => true | _ => false end.

Definition policy_matches (rq : Request) (p : AuthorizationPolicy) : bool :=
  existsb (fun r => matches (authorizationRuleFromAPI r) rq) (ap_Rules p).

(** The meaning of a set of authorization policies: a request is rejected when
    it matches a denying policy, or when there are allowing policies and it
    matches none of them. *)
Definition policies_admit (policies : list AuthorizationPolicy) (rq : Request) : bool :=
  negb (existsb (fun p => denies p && policy_matches rq p) policies) &&
  (negb (existsb (fun p => negb (denies p)) policies)
   || existsb (fun p => negb (denies p) && policy_matches rq p) policies).

(** ** Lemmas *)

Lemma existsb_app {A} (f : A -> bool) a b : existsb f (a ++ b) = existsb f a || existsb f b.
Proof. induction a as [|x a IH]; simpl; [done|]. by rewrite IH, orb_assoc. Qed.

Lemma existsb_rules p rq :
  existsb (fun r => matches r rq) (map authorizationRuleFromAPI (ap_Rules p)) = policy_matches rq p.
Proof.
  unfold policy_matches. induction (ap_Rules p) as [|r l IH]; simpl; [done|]. by rewrite IH.
Qed.

(** What the loop has collected after some configurations. *)
Lemma authz_loop configs deny allow has rq :
  let policies := omap authz_of configs in
  let '(deny', allow', has') := fold_left authz_step configs (deny, allow, has) in
  existsb (fun r => matches r rq) deny'
    = existsb (fun r => matches r rq) deny || existsb (fun p => denies p && policy_matches rq p) policies /\
  existsb (fun r => matches r rq) allow'
    = existsb (fun r => matches r rq) allow || existsb (fun p => negb (denies p) && policy_matches rq p) policies /\
  has' = has || existsb (fun p => negb (denies p)) policies.
Proof.
  revert deny allow has; induction configs as [|cfg configs IH]; intros deny allow has; simpl.
  { by rewrite !orb_false_r. }
  unfold authz_of. destruct (Config.Spec cfg) as [| |[p|]| | | |] eqn:Es; try apply IH.
  fold (omap authz_of configs). simpl.
  destruct (denies p) eqn:Hd; unfold denies in Hd; destruct (ap_Action p); try done;
    (match goal with |- context [fold_left authz_step configs (?d, ?a, ?h)] =>
       specialize (IH d a h); destruct (fold_left authz_step configs (d, a, h)) as [[deny' allow'] has'] end);
    destruct IH as (-> & -> & ->); rewrite ?existsb_app, ?existsb_rules; simpl;
    repeat split; rewrite ?orb_assoc, ?orb_true_r; done.
Qed.

Lemma admits_no_rules l rq : (0 <? length l)%nat = false -> existsb (fun r => matches r rq) l = false.
Proof. by destruct l. Qed.

End decision.

(** ** Properties *)

(** C14 The RBAC filters decide as the authorization policies mean: whatever
    the rules match, a request passes the filters exactly when no denying policy
    matches it and, if there are allowing policies, one of them does.  In
    particular an allowing policy without rules rejects everything. *)
Theorem authorization_filters_refine_policies {Request} (matches : RBACRule -> Request -> bool)
    (configs : list Config) (rq : Request) :
  chain_admits matches (buildAuthorizationFilters configs) rq
  = policies_admit matches (omap authz_of configs) rq.
Proof.
  unfold buildAuthorizationFilters, policies_admit, chain_admits.
  pose proof (authz_loop matches configs [] [] false rq) as Hl. simpl in Hl.
  destruct (fold_left authz_step configs ([], [], false)) as [[deny allow] has].
  destruct Hl as (Hd & Ha & ->). rewrite <- Hd, <- Ha.
  rewrite forallb_app.
  generalize (existsb (fun p => negb (denies p)) (omap authz_of configs)) as has. intros has.
  destruct (0 <? length deny)%nat eqn:Hlen.
  - destruct has; simpl; unfold filter_admits; simpl; by rewrite ?andb_true_r.
  - rewrite (admits_no_rules matches deny rq Hlen).
    destruct has; simpl; unfold filter_admits; simpl; by rewrite ?andb_true_r.
Qed.

(** Every JWT provider comes from a rule with an issuer and says where the
    token is: in a named header or in a parameter; a rule that names neither
    gets the bearer token of the authorization header. *)
Theorem jwt_providers_have_sources configs f :
  buildJWTAuthenticationFilter configs = Some f ->
  exists providers, hf_Config f = CfgJwt (mkJwtAuthentication providers true) /\ providers <> [] /\
    Forall (fun p => jp_Issuer p <> "" /\ (jp_FromHeaders p <> [] \/ jp_FromParams p <> []) /\
                     Forall (fun h => jh_Name h <> "") (jp_FromHeaders p)) providers.
Proof.
  unfold buildJWTAuthenticationFilter. destruct (length _ =? 0)%nat eqn:Hl; [done|].
  intros [= <-]. eexists. split; [done|]. split; [by intros E; rewrite E in Hl|].
  apply Forall_concat, Forall_map, Forall_true. intros cfg. unfold jwt_providers.
  destruct (Config.Spec cfg) as [|[spec|]| | | | |]; try constructor.
  apply Forall_forall. intros p Hp. apply list_elem_of_omap in Hp as ([rule|] & _ & Hp); [|done].
  destruct (String.eqb_spec (jr_Issuer rule) "") as [|Hi]; simplify_eq. simpl.
  set (hs := omap _ (jr_FromHeaders rule)).
  assert (Hhs : Forall (fun h => jh_Name h <> "") hs).
  { apply Forall_forall. intros h Hh. apply list_elem_of_omap in Hh as ([h'|] & _ & Hh); [|done].
    destruct (String.eqb_spec (jh_Name h') ""); by simplify_eq. }
  split; [done|]. destruct hs as [|h hs']; simpl.
  - destruct (jr_FromParams rule); simpl; split; auto.
  - split; [by left|done].
Qed.

(** *** Witnesses *)

Definition sample_jwt : Config :=
  Config.mk "RequestAuthentication" "jwt" "ns" "" 0 "" ""
    (SpecRequest (Some (mkRequestAuthentication None
       [Some (mkJWTRule "https://issuer" [] "" "" [] []); Some (mkJWTRule "" [] "" "" [] [])]))).

Lemma jwt_providers_have_sources_witness :
  exists providers,
    CfgJwt (mkJwtAuthentication
      [mkJwtProvider "https://issuer" [] "" "" [mkJWTHeader "authorization" "Bearer "] []] true)
      = CfgJwt (mkJwtAuthentication providers true) /\ providers <> [] /\
    Forall (fun p => jp_Issuer p <> "" /\ (jp_FromHeaders p <> [] \/ jp_FromParams p <> []) /\
                     Forall (fun h => jh_Name h <> "") (jp_FromHeaders p)) providers.
Proof.
  apply (jwt_providers_have_sources [sample_jwt]
    (mkHttpFilter JWTAuthenticationName (CfgJwt (mkJwtAuthentication
      [mkJwtProvider "https://issuer" [] "" "" [mkJWTHeader "authorization" "Bearer "] []] true)))).
  reflexivity.
Defined.
