(* ===== verification/GrpcRoutes.v ===== *)
(** * Routes

    [dubbod/discovery/pkg/networking/grpcgen/rds.go]: the route configuration of
    a name, built from the default route of the service or from the HTTP routes
    of the Gateway API attached to it. *)

From S2P Require Import Prelude GoStrings GoSets Hosts GoNet Service EndpointBuilder ServiceIndex ApiTypes Authentication PolicyIndex Ads ConfigSnapshot.

(** ** Messages *)

Inductive PathSpecifier : Type :=
  | RouteMatch_Prefix (prefix : string)
  | RouteMatch_Path (path : string)
  | RouteMatch_SafeRegex (regex : string).
Inductive HeaderMatchSpecifier : Type :=
  | HeaderMatcher_ExactMatch (v : string)
  | HeaderMatcher_SafeRegexMatch (v : string).
Record HeaderMatcher : Type := mkHeaderMatcher { hx_Name : string; hx_Specifier : HeaderMatchSpecifier }.
Record RouteMatch : Type := mkMatch { ma_Path : PathSpecifier; ma_Headers : list HeaderMatcher }.

Record ClusterWeight : Type := mkClusterWeight { cw_Name : string; cw_Weight : Z }.
Record WeightedCluster : Type := mkWeighted { wc_Clusters : list ClusterWeight; wc_TotalWeight : option Z }.
Inductive ClusterSpecifier : Type :=
  | RouteAction_Cluster (name : string)
  | RouteAction_WeightedClusters (w : WeightedCluster).

(** A delay or a status, with its percentage. *)
Record FaultPolicy : Type := mkFaultPolicy {
  fp_Delay : option (Duration * Z); fp_Abort : option (Z * Z) }.
Record RetryPolicy : Type := mkRetryPolicy {
  rp_RetryOn : string;
  rp_NumRetries : Z;
  rp_RetriableStatusCodes : list Z;
  rp_PerTryTimeout : option Duration;
  (* base and maximal interval *)
  rp_RetryBackOff : option (Duration * Duration)
}.
Record RouteAction : Type := mkAction {
  ac_ClusterSpecifier : ClusterSpecifier;
  ac_Timeout : option Duration;
  ac_RetryPolicy : option RetryPolicy;
  ac_FaultPolicy : option FaultPolicy
}.
Inductive Action : Type := Route_Route (a : RouteAction) | Route_NonForwardingAction.
Record Route : Type := mkRoute { rte_Match : RouteMatch; rte_Action : Action }.
Record VirtualHost : Type := mkVirtualHost { vh_Name : string; vh_Domains : list string; vh_Routes : list Route }.
Record RouteConfiguration : Type := mkRouteConfiguration {
  rc_Name : string; rc_VirtualHosts : list VirtualHost }.

Definition wrap_s32 (z : Z) : Z := (z + 2147483648) mod two32 - 2147483648.

(** ** Matches *)

Definition path_of (match_ : HTTPRouteMatch) : PathSpecifier :=
  match rm_Path match_ with
  | Some path =>
      let value := default "" (pm_Value path) in
      match pm_Type path with
      | Some t =>
          if String.eqb t PathMatchExact then RouteMatch_Path value
          else if String.eqb t PathMatchPathPrefix then RouteMatch_Prefix value
          else if String.eqb t PathMatchRegularExpression then RouteMatch_SafeRegex value
          else RouteMatch_Prefix "/"
      | None => RouteMatch_Prefix "/"
      end
  | None => RouteMatch_Prefix "/"
  end.

(** A header match without a type, of another type or without a value is
    dropped. *)
Definition header_of (h : HTTPHeaderMatch) : option HeaderMatcher :=
  match hm_Type h with
  | Some t =>
      if String.eqb t HeaderMatchExact then
        if String.eqb (hm_Value h) "" then None
        else Some (mkHeaderMatcher (hm_Name h) (HeaderMatcher_ExactMatch (hm_Value h)))
      else if String.eqb t HeaderMatchRegularExpression then
        if String.eqb (hm_Value h) "" then None
        else Some (mkHeaderMatcher (hm_Name h) (HeaderMatcher_SafeRegexMatch (hm_Value h)))
      else None
  | None => None
  end.

Definition buildRouteMatchFromHTTPRouteMatch (m : HTTPRouteMatch) : RouteMatch :=
  mkMatch (path_of m) (omap header_of (rm_Headers m)).

Definition buildRouteMatchesFromHTTPRouteMatches (matches : list HTTPRouteMatch) : list RouteMatch :=
  let matches := if (length matches =? 0)%nat then [mkRouteMatch None []] else matches in
  map buildRouteMatchFromHTTPRouteMatch matches.

(** ** Which routes are attached to a service *)

Definition isServiceParentRef (parentRef : ParentReference) : bool :=
  match pr_Kind parentRef with
  | Some k =>
      String.eqb k "Service" &&
      match pr_Group parentRef with None => true | Some g => String.eqb g "" end
  | None => false
  end.

(** The tests on one parent; a nil port of the service panics in the last. *)
Definition parent_references (parentRef : ParentReference) (routeNamespace : string) (svc : Service)
    (port : Z) : res bool :=
  if negb (isServiceParentRef parentRef) then Ok false else
  let refNamespace := default routeNamespace (pr_Namespace parentRef) in
  if negb (String.eqb refNamespace (Attributes.Namespace (Service.Attributes svc)))
     || negb (String.eqb (pr_Name parentRef) (Attributes.Name (Service.Attributes svc))) then Ok false
  else if match pr_Port parentRef with Some p => negb (p =? wrap_s32 port) | None => false end then Ok false
  else match pr_SectionName parentRef with
       | Some section =>
           r ← GetByPort (Service.Ports svc) port;
           Ok (match r with
               | (Some svcPort, true) => String.eqb (Port.Name svcPort) section
               | _ => false
               end)
       | None => Ok true
       end.

Fixpoint parents_reference (parentRefs : list ParentReference) (routeNamespace : string) (svc : Service)
    (port : Z) : res bool :=
  match parentRefs with
  | [] => Ok false
  | parentRef :: parentRefs =>
      b ← parent_references parentRef routeNamespace svc port;
      if (b : bool) then Ok true else parents_reference parentRefs routeNamespace svc port
  end.

Definition httpRouteReferencesService (hrSpec : HTTPRouteSpec) (routeNamespace : string) (svc : Service)
    (port : Z) : res bool :=
  parents_reference (hr_ParentRefs hrSpec) routeNamespace svc port.

(** Called with a service. *)
Fixpoint filterHTTPRoutesByService (httpRoutes : list Config) (svc : Service) (port : Z) : res (list Config) :=
  match httpRoutes with
  | [] => Ok []
  | hr :: httpRoutes =>
      b ← (match Config.Spec hr with
           | SpecHTTPRoute hrSpec => httpRouteReferencesService hrSpec (Config.Namespace hr) svc port
           | _ => Ok false
           end);
      rest ← filterHTTPRoutesByService httpRoutes svc port;
      Ok (if (b : bool) then hr :: rest else rest)
  end.

(** ** Actions *)
Section actions.
Context `{Libraries}.

Definition gatewayAPIDurationToProto (duration : option string) : option Duration :=
  match duration with
  | None => None
  | Some d => durationpb_New <$> ParseDuration d
  end.

Definition retriable_codes (codes : list Z) : list Z :=
  map wrap_u32 (List.filter (fun code => negb ((code <? 400) || (599 <? code))) codes).

Definition gatewayAPIRetryPolicy (retry : option HTTPRouteRetry) (timeouts : option HTTPRouteTimeouts)
  : option RetryPolicy :=
  match retry with
  | None => None
  | Some retry =>
      if match rt_Attempts retry with Some a => a <=? 0 | None => false end then None else
      let attempts := match rt_Attempts retry with Some a => wrap_u32 a | None => 1 end in
      let statusCodes := retriable_codes (rt_Codes retry) in
      let retryOn := ["connect-failure"; "reset"]
        ++ (if (0 <? length statusCodes)%nat then ["retriable-status-codes"] else []) in
      let perTry := match timeouts with
                    | Some t => gatewayAPIDurationToProto (to_BackendRequest t) | None => None end in
      let backoff :=
        match gatewayAPIDurationToProto (rt_Backoff retry) with
        | Some base =>
            if 0 <? AsDuration base
            then Some (base, durationpb_New (wrap_s64 (10 * AsDuration base))) else None
        | None => None
        end in
      Some (mkRetryPolicy (str_join retryOn ",") attempts statusCodes perTry backoff)
  end.

Definition serviceFaultPolicy (push : ConfigSnapshot) (svc : Service) (port : Z) : res (option FaultPolicy) :=
  r ← GetByPort (Service.Ports svc) port;
  let portName := match r with (Some servicePort, true) => Port.Name servicePort | _ => "" end in
  Ok (match FaultInjectionForService (faultInjectionIndex push)
              (Attributes.Namespace (Service.Attributes svc)) (Attributes.Name (Service.Attributes svc))
              portName with
      | None => None
      | Some settings =>
          let delay := if 0 <? fs_Delay settings
            then Some (durationpb_New (fs_Delay settings), fs_DelayPercentage settings) else None in
          let abort := if negb (fs_AbortStatus settings =? 0)
            then Some (fs_AbortStatus settings, fs_AbortPercentage settings) else None in
          match delay, abort with
          | None, None => None
          | _, _ => Some (mkFaultPolicy delay abort)
          end
      end).

(** Weights are [uint32]: the conversion and the sum wrap around. *)
Definition backend_weight (backendRef : HTTPBackendRef) : Z :=
  let weight := match br_Weight backendRef with Some w => wrap_u32 w | None => 1 end in
  if weight =? 0 then 1 else weight.

Definition backend_cluster (hrNamespace : string) (defaultPort : Z) (backendRef : HTTPBackendRef) : ClusterWeight :=
  let backendNamespace := default hrNamespace (br_Namespace backendRef) in
  let backendPort := default defaultPort (br_Port backendRef) in
  let backendHost := br_Name backendRef +:+ "." +:+ backendNamespace +:+ ".svc.cluster.local" in
  mkClusterWeight (BuildSubsetKey TrafficDirectionOutbound "" backendHost backendPort)
    (backend_weight backendRef).

Definition weighted_clusters (hrNamespace : string) (defaultPort : Z) (refs : list HTTPBackendRef) : WeightedCluster :=
  let weights := map (backend_cluster hrNamespace defaultPort) refs in
  let totalWeight := fold_left (fun total w => wrap_u32 (total + cw_Weight w)) weights 0 in
  mkWeighted weights (if 0 <? totalWeight then Some totalWeight else None).

Definition rule_action (hrNamespace : string) (defaultPort : Z) (faultPolicy : option FaultPolicy)
    (rule : HTTPRouteRule) : RouteAction :=
  mkAction (RouteAction_WeightedClusters (weighted_clusters hrNamespace defaultPort (ru_BackendRefs rule)))
    (match ru_Timeouts rule with Some t => gatewayAPIDurationToProto (to_Request t) | None => None end)
    (gatewayAPIRetryPolicy (ru_Retry rule) (ru_Timeouts rule)) faultPolicy.

(** The routes of one rule share its action. *)
Definition rule_routes (hrNamespace : string) (defaultPort : Z) (faultPolicy : option FaultPolicy)
    (rule : HTTPRouteRule) : list Route :=
  if (length (ru_BackendRefs rule) =? 0)%nat then []
  else map (fun m => mkRoute m (Route_Route (rule_action hrNamespace defaultPort faultPolicy rule)))
         (buildRouteMatchesFromHTTPRouteMatches (ru_Matches rule)).

Definition buildRoutesFromGatewayHTTPRoute (httpRoutes : list Config) (defaultPort : Z)
    (faultPolicy : option FaultPolicy) : list Route :=
  concat (map (fun hr =>
    match Config.Spec hr with
    | SpecHTTPRoute hrSpec =>
        concat (map (rule_routes (Config.Namespace hr) defaultPort faultPolicy) (hr_Rules hrSpec))
    | _ => []
    end) httpRoutes).

(** ** Route configurations *)

Definition match_all : RouteMatch := mkMatch (RouteMatch_Prefix "/") [].

Definition defaultSingleClusterRoute (clusterName : string) (faultPolicy : option FaultPolicy) : Route :=
  mkRoute match_all (Route_Route (mkAction (RouteAction_Cluster clusterName) None None faultPolicy)).

(** From the most to the least specific name of the host. *)
Definition outbound_domains (hostStr : string) (port : Z) : list string :=
  [hostStr +:+ ":" +:+ Itoa port; hostStr]
  ++ (match Split hostStr "." with
      | shortName :: _ =>
          if negb (String.eqb shortName hostStr) then [shortName +:+ ":" +:+ Itoa port; shortName] else []
      | [] => []
      end)
  ++ ["*"].

Definition inbound_route_configuration (routeName : string) : RouteConfiguration :=
  mkRouteConfiguration routeName
    [mkVirtualHost ("inbound|http|" +:+ routeName) ["*"] [mkRoute match_all Route_NonForwardingAction]].

Definition outbound_routes `{RangeOrder} (push : ConfigSnapshot) (svc : Service) (routeName hostStr : string)
    (port : Z) : res (list Route) :=
  faultPolicy ← serviceFaultPolicy push svc port;
  httpRoutes ← filterHTTPRoutesByService (HTTPRouteForHost (nmap_get (httpRouteIndex push)) hostStr) svc port;
  let routes := buildRoutesFromGatewayHTTPRoute httpRoutes port faultPolicy in
  Ok (if (0 <? length httpRoutes)%nat && (0 <? length routes)%nat then routes
      else [defaultSingleClusterRoute routeName faultPolicy]).

Definition buildHTTPRoute `{RangeOrder} (push : ConfigSnapshot) (routeName : string)
  : res (option RouteConfiguration) :=
  if negb (Atoi_ok routeName) then
    let '(_, _, hostname, parsedPort) := ParseSubsetKey routeName in
    if String.eqb hostname "" || (parsedPort =? 0) then Ok None else
    match ServiceForHostname (ServiceIndex_ push) hostname with
    | None => Ok None
    | Some svc =>
        routes ← outbound_routes push svc routeName hostname parsedPort;
        Ok (Some (mkRouteConfiguration routeName
              [mkVirtualHost (hostname +:+ "|http|" +:+ Itoa parsedPort)
                 (outbound_domains hostname parsedPort) routes]))
    end
  else Ok (Some (inbound_route_configuration routeName)).

(** One resource per name that has a configuration. *)
Fixpoint route_configurations `{RangeOrder} (push : ConfigSnapshot) (routeNames : list string)
  : res (list RouteConfiguration) :=
  match routeNames with
  | [] => Ok []
  | routeName :: routeNames =>
      rc ← buildHTTPRoute push routeName;
      rest ← route_configurations push routeNames;
      Ok ((match rc with Some rc => [rc] | None => [] end) ++ rest)
  end.

End actions.

(** ** Lemmas *)

Lemma GetByPort_ok ports num : Forall is_Some ports -> exists r, GetByPort ports num = Ok r.
Proof.
  induction 1 as [|p ports [q ->] _ IH]; simpl; [eauto|]. destruct (_ =? _); eauto.
Qed.

Lemma GetByPort_found ports num p b :
  GetByPort ports num = Ok (Some p, b) -> b = true /\ Some p ∈ ports /\ Port.Number p = num.
Proof.
  induction ports as [|[q|] ports IH]; simpl; [done| |done].
  destruct (Z.eqb_spec (Port.Number q) num); [intros; simplify_eq; set_solver|].
  intros (? & ? & ?)%IH. set_solver.
Qed.

(** A parent reference that names the service, and its port where it gives one. *)
Definition names_service (svc : Service) (port : Z) (routeNamespace : string) (ref : ParentReference) : Prop :=
  pr_Kind ref = Some "Service" /\ default "" (pr_Group ref) = "" /\
  default routeNamespace (pr_Namespace ref) = namespace_of svc /\
  pr_Name ref = Attributes.Name (Service.Attributes svc) /\
  (forall p, pr_Port ref = Some p -> p = wrap_s32 port) /\
  (forall section, pr_SectionName ref = Some section ->
     exists p, GetByPort (Service.Ports svc) port = Ok (Some p, true) /\ Port.Name p = section).

(** A route attached to the service. *)
Definition attached (svc : Service) (port : Z) (hr : Config) : Prop :=
  exists spec, Config.Spec hr = SpecHTTPRoute spec /\
    exists ref, ref ∈ hr_ParentRefs spec /\ names_service svc port (Config.Namespace hr) ref.

Lemma isServiceParentRef_spec ref :
  isServiceParentRef ref = true <-> pr_Kind ref = Some "Service" /\ default "" (pr_Group ref) = "".
Proof.
  unfold isServiceParentRef. destruct (pr_Kind ref) as [k|]; [|naive_solver].
  rewrite andb_true_iff, String.eqb_eq. destruct (pr_Group ref) as [g|]; simpl; [|naive_solver].
  rewrite String.eqb_eq. naive_solver.
Qed.

Lemma parent_references_spec ref ns svc port :
  ports_ok svc ->
  exists b, parent_references ref ns svc port = Ok b /\ (b = true <-> names_service svc port ns ref).
Proof.
  intros Hp. unfold parent_references, names_service. fold (namespace_of svc).
  destruct (isServiceParentRef ref) eqn:Hs; simpl.
  2:{ exists false. split; [done|]. split; [done|]. intros (? & ? & _).
      assert (isServiceParentRef ref = true) by (by apply isServiceParentRef_spec). congruence. }
  apply isServiceParentRef_spec in Hs as [Hk Hg].
  destruct (String.eqb_spec (default ns (pr_Namespace ref)) (namespace_of svc)) as [Hn|Hn]; simpl;
    [|exists false; naive_solver].
  destruct (String.eqb_spec (pr_Name ref) (Attributes.Name (Service.Attributes svc))) as [Hm|Hm]; simpl;
    [|exists false; naive_solver].
  assert (Hport : (match pr_Port ref with Some p => negb (p =? wrap_s32 port) | None => false end = false)
    <-> forall p, pr_Port ref = Some p -> p = wrap_s32 port).
  { destruct (pr_Port ref) as [p|]; [|naive_solver]. rewrite negb_false_iff, Z.eqb_eq. naive_solver. }
  destruct (match pr_Port ref with Some _ => _ | None => false end) eqn:Ep.
  { exists false. split; [done|]. split; [done|]. intros (_ & _ & _ & _ & H & _). apply Hport in H. done. }
  pose proof (proj1 Hport eq_refl) as Hpt. clear Hport.
  destruct (pr_SectionName ref) as [section|]; [|exists true; naive_solver].
  destruct (GetByPort_ok (Service.Ports svc) port Hp) as [[op b] E]. rewrite E. simpl.
  eexists. split; [done|]. destruct op as [p|].
  - destruct (GetByPort_found _ _ _ _ E) as [-> _]. rewrite String.eqb_eq. split.
    + intros <-. split_and!; try done. intros s [= <-]. eauto.
    + intros (_ & _ & _ & _ & _ & Hsec). destruct (Hsec section eq_refl) as (p' & E' & <-). by simplify_eq.
  - split; [done|]. intros (_ & _ & _ & _ & _ & Hsec).
    destruct (Hsec section eq_refl) as (p' & E' & _). by simplify_eq.
Qed.

Lemma parents_reference_spec refs ns svc port :
  ports_ok svc ->
  exists b, parents_reference refs ns svc port = Ok b /\
    (b = true <-> exists ref, ref ∈ refs /\ names_service svc port ns ref).
Proof.
  intros Hp. induction refs as [|ref refs (b' & IH & Hb')]; simpl.
  { exists false. set_solver. }
  destruct (parent_references_spec ref ns svc port Hp) as (b & -> & Hb). simpl.
  destruct b.
  - exists true. split; [done|]. split; [|done]. intros _. exists ref. split; [set_solver|by apply Hb].
  - exists b'. split; [done|]. rewrite Hb'. split; [set_solver|].
    intros (r & [->|Hr]%elem_of_cons & Hn); [by apply Hb in Hn|eauto].
Qed.

(** The routes kept are the attached ones, in order. *)
Lemma filterHTTPRoutesByService_spec routes svc port :
  ports_ok svc ->
  exists kept, filterHTTPRoutesByService routes svc port = Ok kept /\ sublist kept routes /\
    forall hr, hr ∈ kept <-> hr ∈ routes /\ attached svc port hr.
Proof.
  intros Hp. induction routes as [|hr routes (kept & IH & Hsub & Hk)]; simpl.
  { exists []. split; [done|]. split; [done|]. set_solver. }
  assert (Hb : exists b, match Config.Spec hr with
      | SpecHTTPRoute hrSpec => httpRouteReferencesService hrSpec (Config.Namespace hr) svc port
      | _ => Ok false end = Ok b /\ (b = true <-> attached svc port hr)).
  { unfold attached, httpRouteReferencesService. destruct (Config.Spec hr) as [| | |spec| | |];
      try (exists false; naive_solver).
    destruct (parents_reference_spec (hr_ParentRefs spec) (Config.Namespace hr) svc port Hp) as (b & -> & Hb).
    exists b. split; [done|]. rewrite Hb. naive_solver. }
  destruct Hb as (b & -> & Hb). simpl. rewrite IH. simpl. destruct b.
  - exists (hr :: kept). split; [done|]. split; [by constructor|]. intros hr'. rewrite !elem_of_cons, Hk.
    pose proof (proj1 Hb eq_refl). naive_solver.
  - exists kept. split; [done|]. split; [by constructor|]. intros hr'. rewrite elem_of_cons, Hk.
    split; [naive_solver|]. intros [[->|?] Ha]; [by apply Hb in Ha|done].
Qed.

Lemma serviceFaultPolicy_ok `{Libraries} push svc port :
  ports_ok svc -> exists f, serviceFaultPolicy push svc port = Ok f.
Proof.
  intros Hp. unfold serviceFaultPolicy.
  destruct (GetByPort_ok (Service.Ports svc) port Hp) as [r ->]. simpl. eauto.
Qed.

Lemma buildRoutes_elem `{Libraries} hrs port fault r :
  r ∈ buildRoutesFromGatewayHTTPRoute hrs port fault <->
  exists hr spec rule m, hr ∈ hrs /\ Config.Spec hr = SpecHTTPRoute spec /\ rule ∈ hr_Rules spec /\
    ru_BackendRefs rule <> [] /\ m ∈ buildRouteMatchesFromHTTPRouteMatches (ru_Matches rule) /\
    r = mkRoute m (Route_Route (rule_action (Config.Namespace hr) port fault rule)).
Proof.
  unfold buildRoutesFromGatewayHTTPRoute. rewrite list_elem_of_In, in_concat. setoid_rewrite in_map_iff.
  setoid_rewrite <- list_elem_of_In.
  assert (Hrule : forall ns rule, r ∈ rule_routes ns port fault rule <->
    ru_BackendRefs rule <> [] /\ exists m, m ∈ buildRouteMatchesFromHTTPRouteMatches (ru_Matches rule) /\
      r = mkRoute m (Route_Route (rule_action ns port fault rule))).
  { intros ns rule. unfold rule_routes. destruct (ru_BackendRefs rule) eqn:E; simpl; [set_solver|].
    rewrite list_elem_of_fmap. naive_solver. }
  split.
  - intros (l & (hr & <- & Hhr) & Hr). destruct (Config.Spec hr) as [| | |spec| | |] eqn:Es; try by apply elem_of_nil in Hr.
    rewrite list_elem_of_In, in_concat in Hr. destruct Hr as (l & (rule & <- & Hrl)%in_map_iff & Hr).
    apply list_elem_of_In, Hrule in Hr as (Hne & m & Hm & ->). apply list_elem_of_In in Hrl.
    by exists hr, spec, rule, m.
  - intros (hr & spec & rule & m & Hhr & Es & Hrl & Hne & Hm & ->).
    eexists. split; [exists hr; split; [done|exact Hhr]|]. rewrite Es.
    rewrite list_elem_of_In, in_concat. eexists. split; [apply in_map, list_elem_of_In, Hrl|].
    apply list_elem_of_In, Hrule. eauto.
Qed.

(** The routes of the configuration for a host that are attached to the service
    and give a route. *)
Definition attached_route `{Libraries, RangeOrder} (push : ConfigSnapshot) (svc : Service) (hostStr : string)
    (port : Z) (fault : option FaultPolicy) (r : Route) : Prop :=
  exists hr spec rule m,
    hr ∈ HTTPRouteForHost (nmap_get (httpRouteIndex push)) hostStr /\ attached svc port hr /\
    Config.Spec hr = SpecHTTPRoute spec /\ rule ∈ hr_Rules spec /\ ru_BackendRefs rule <> [] /\
    m ∈ buildRouteMatchesFromHTTPRouteMatches (ru_Matches rule) /\
    r = mkRoute m (Route_Route (rule_action (Config.Namespace hr) port fault rule)).

Lemma outbound_routes_spec `{Libraries, RangeOrder} push svc routeName hostStr port :
  ports_ok svc ->
  exists fault routes,
    serviceFaultPolicy push svc port = Ok fault /\
    outbound_routes push svc routeName hostStr port = Ok routes /\ routes <> [] /\
    ((forall r, r ∈ routes <-> attached_route push svc hostStr port fault r) \/
     (routes = [defaultSingleClusterRoute routeName fault] /\
      forall r, ~ attached_route push svc hostStr port fault r)).
Proof.
  intros Hp. unfold outbound_routes.
  destruct (serviceFaultPolicy_ok push svc port Hp) as [fault ->]. simpl.
  destruct (filterHTTPRoutesByService_spec (HTTPRouteForHost (nmap_get (httpRouteIndex push)) hostStr)
    svc port Hp) as (kept & -> & _ & Hk). simpl.
  assert (Hr : forall r, r ∈ buildRoutesFromGatewayHTTPRoute kept port fault
    <-> attached_route push svc hostStr port fault r).
  { intros r. rewrite buildRoutes_elem. unfold attached_route. setoid_rewrite Hk. naive_solver. }
  exists fault. eexists. split; [done|]. split; [done|].
  destruct (buildRoutesFromGatewayHTTPRoute kept port fault) as [|r0 routes] eqn:E.
  - rewrite andb_false_r. split; [done|]. right. split; [done|]. intros r Ha. apply Hr in Ha. set_solver.
  - destruct kept; [done|]. simpl. split; [done|]. by left.
Qed.

Lemma wrap_u32_range z : 0 <= wrap_u32 z < two32.
Proof. apply Z.mod_pos_bound. done. Qed.

Lemma wrap_u32_id z : 0 <= z < two32 -> wrap_u32 z = z.
Proof. apply Z.mod_small. Qed.

Lemma backend_weight_range ref : 1 <= backend_weight ref < two32.
Proof.
  unfold backend_weight. destruct (br_Weight ref) as [w|]; [|done].
  pose proof (wrap_u32_range w). destruct (Z.eqb_spec (wrap_u32 w) 0); [done|lia].
Qed.

(** The exact sum of the weights. *)
Definition sum_weights (l : list ClusterWeight) : Z := foldr (fun w n => cw_Weight w + n) 0 l.

Lemma total_weight_fold l acc :
  fold_left (fun total w => wrap_u32 (total + cw_Weight w)) l (wrap_u32 acc)
  = wrap_u32 (acc + sum_weights l).
Proof.
  revert acc; induction l as [|w l IH]; intros acc; simpl; [by rewrite Z.add_0_r|].
  rewrite wrap_u32_add_l, IH. f_equal. lia.
Qed.

Lemma sum_weights_bound n l : 0 <= n -> Forall (fun w => 0 <= cw_Weight w <= n) l ->
  0 <= sum_weights l <= n * Z.of_nat (length l).
Proof.
  intros Hn. induction 1 as [|w l Hw _ IH]; simpl; [lia|]. nia.
Qed.

(** ** Properties *)

(** C26 A route configuration is generated for an outbound name exactly when
    the name parses to a host and a port and the host is a service; it has one
    virtual host, whose domains go from the name with its port to the wildcard,
    and never without a route: the routes of the HTTP routes attached to the
    service, or, when these give none, the route to the cluster of the same
    name. *)
Theorem outbound_route_configuration `{Libraries, RangeOrder} push routeName d sub hostname port :
  Atoi_ok routeName = false -> ParseSubsetKey routeName = (d, sub, hostname, port) ->
  (forall svc, ServiceForHostname (ServiceIndex_ push) hostname = Some svc -> ports_ok svc) ->
  exists o, buildHTTPRoute push routeName = Ok o /\
  (o = None <-> hostname = "" \/ port = 0 \/ ServiceForHostname (ServiceIndex_ push) hostname = None) /\
  (forall rc, o = Some rc -> exists svc fault vh,
     ServiceForHostname (ServiceIndex_ push) hostname = Some svc /\
     rc = mkRouteConfiguration routeName [vh] /\
     head (vh_Domains vh) = Some (hostname +:+ ":" +:+ Itoa port) /\ last (vh_Domains vh) = Some "*" /\
     vh_Routes vh <> [] /\
     ((forall r, r ∈ vh_Routes vh <-> attached_route push svc hostname port fault r) \/
      (vh_Routes vh = [defaultSingleClusterRoute routeName fault] /\
       forall r, ~ attached_route push svc hostname port fault r))).
Proof.
  intros Hn Hparse Hports. unfold buildHTTPRoute. rewrite Hn, Hparse. simpl.
  destruct (String.eqb_spec hostname "") as [->|Hh]; simpl; [exists None; naive_solver|].
  destruct (Z.eqb_spec port 0) as [->|Hpt]; simpl; [exists None; naive_solver|].
  destruct (ServiceForHostname (ServiceIndex_ push) hostname) as [svc|] eqn:Es; [|exists None; naive_solver].
  destruct (outbound_routes_spec push svc routeName hostname port) as (fault & routes & _ & -> & Hne & Hr).
  { by apply Hports. }
  simpl. eexists. split; [done|]. split; [naive_solver|]. intros rc [= <-].
  exists svc, fault. eexists. split; [done|]. split; [done|]. split; [done|]. split; [|done].
  simpl vh_Domains. unfold outbound_domains. rewrite app_assoc. apply last_snoc.
Qed.

(** Weights stay in range: a cluster always gets a weight of at least one
    that fits 32 bits, and within the limits of the Gateway API (weights up to a
    million, and far more backends than its sixteen) the total sent with them is
    their exact sum, without wrap-around. *)
Theorem gateway_weights_in_range ns port refs :
  Forall (fun w => 1 <= cw_Weight w < two32) (wc_Clusters (weighted_clusters ns port refs)) /\
  (refs <> [] -> Forall (fun r => default 1 (br_Weight r) <= 1000000 /\ 0 <= default 1 (br_Weight r)) refs ->
   (length refs <= 4294)%nat ->
   wc_TotalWeight (weighted_clusters ns port refs)
   = Some (sum_weights (wc_Clusters (weighted_clusters ns port refs)))).
Proof.
  unfold weighted_clusters. simpl. split.
  { apply Forall_map, Forall_true. intros r. simpl. apply backend_weight_range. }
  intros Hne Hw Hlen.
  set (l := map (backend_cluster ns port) refs).
  pose proof (total_weight_fold l 0) as Ht. change (wrap_u32 0) with 0 in Ht.
  rewrite Z.add_0_l in Ht. rewrite Ht.
  assert (Hl : Forall (fun w => 1 <= cw_Weight w <= 1000000) l).
  { apply Forall_map. eapply Forall_impl; [exact Hw|]. intros r [Hr0 Hr1]. simpl.
    pose proof (backend_weight_range r). unfold backend_weight in *. unfold two32 in *.
    destruct (br_Weight r) as [w|]; simpl in *; [|lia].
    rewrite wrap_u32_id by (unfold two32; lia). destruct (Z.eqb_spec w 0); lia. }
  assert (Hb : 0 <= sum_weights l <= 1000000 * Z.of_nat (length l)).
  { apply sum_weights_bound; [lia|]. eapply Forall_impl; [exact Hl|]. intros w Hww. simpl in *. lia. }
  assert (length l = length refs) as Hlr by apply length_map.
  rewrite wrap_u32_id by (unfold two32; lia).
  assert (0 < sum_weights l) as Hpos.
  { destruct l as [|w l']; [by destruct refs|]. simpl in *. apply Forall_cons in Hl as [? Hl].
    assert (0 <= sum_weights l' <= 1000000 * Z.of_nat (length l')); [|lia].
    apply sum_weights_bound; [lia|]. eapply Forall_impl; [exact Hl|]. intros x Hx. simpl in *. lia. }
  destruct (Z.ltb_spec 0 (sum_weights l)); [done|lia].
Qed.

(** A backend of weight zero, which the Gateway API sends no traffic to, gets
    the weight one. *)
Theorem zero_weight_backend_gets_traffic ns port name :
  wc_Clusters (weighted_clusters ns port [mkBackendRef name None None (Some 0)])
  = [mkClusterWeight (BuildSubsetKey TrafficDirectionOutbound ""
       (name +:+ "." +:+ ns +:+ ".svc.cluster.local") port) 1].
Proof. reflexivity. Qed.

(** A retry policy is in range: there is none when no attempt is allowed;
    otherwise the number of retries is the attempts asked for, the status codes
    are the client and server errors of the route in their order, and they are
    announced in the retry conditions exactly when there are any. *)
Theorem retry_policy_in_range `{Libraries} retry timeouts :
  default 1 (rt_Attempts retry) < two32 ->
  match gatewayAPIRetryPolicy (Some retry) timeouts with
  | None => default 1 (rt_Attempts retry) <= 0
  | Some p =>
      1 <= rp_NumRetries p /\ rp_NumRetries p = default 1 (rt_Attempts retry) /\
      rp_RetriableStatusCodes p = List.filter (fun c => (400 <=? c) && (c <=? 599)) (rt_Codes retry) /\
      rp_RetryOn p = if decide (rp_RetriableStatusCodes p = []) then "connect-failure,reset"
                     else "connect-failure,reset,retriable-status-codes"
  end.
Proof.
  intros Ha. unfold gatewayAPIRetryPolicy.
  assert (Hc : retriable_codes (rt_Codes retry)
               = List.filter (fun c => (400 <=? c) && (c <=? 599)) (rt_Codes retry)).
  { unfold retriable_codes. induction (rt_Codes retry) as [|c l IH]; simpl; [done|].
    rewrite negb_orb, <- Z.leb_antisym, <- Z.leb_antisym.
    destruct ((400 <=? c) && (c <=? 599)) eqn:E; [|done]. simpl. rewrite IH. f_equal.
    breflect. apply wrap_u32_id. unfold two32. lia. }
  destruct (rt_Attempts retry) as [a|]; simpl in *.
  - destruct (Z.leb_spec a 0); [done|]. simpl. rewrite Hc, wrap_u32_id by lia.
    split; [lia|]. split; [done|]. split; [done|]. by destruct (List.filter _ _).
  - rewrite Hc. split; [lia|]. split; [done|]. split; [done|]. by destruct (List.filter _ _).
Qed.

(** *** Witnesses *)

Definition sample_route_name : string := "outbound|20880||demo.a".

(** An HTTP route attached to the sample service. *)
Definition sample_http_route : Config :=
  Config.mk "HTTPRoute" "r" "a" "" 1 "" ""
    (SpecHTTPRoute (mkHTTPRoute
       [mkParentRef None (Some "Service") None "demo" None (Some 20880)] []
       [mkRule [mkRouteMatch (Some (mkPathMatch (Some "Exact") (Some "/x"))) []; mkRouteMatch None []]
          [mkBackendRef "demo" None (Some 20880) (Some 3); mkBackendRef "other" None None None] None
          (Some (mkRetry [503; 200] (Some 2) None))])).

(** A snapshot with other routes, and with other policies. *)
Definition with_routes (s : ConfigSnapshot) routes : ConfigSnapshot :=
  mkSnapshot (Mesh s) (InitDone s) (GatewayAPIController s) (exportToDefaults s) (ServiceIndex_ s)
    routes (backendTLSPolicyIndex s) (faultInjectionIndex s) (serviceAccounts s) (AuthenticationPolicies_ s).
Definition with_policies (s : ConfigSnapshot) policies : ConfigSnapshot :=
  mkSnapshot (Mesh s) (InitDone s) (GatewayAPIController s) (exportToDefaults s) (ServiceIndex_ s)
    (httpRouteIndex s) (backendTLSPolicyIndex s) (faultInjectionIndex s) (serviceAccounts s) policies.

Lemma with_routes_index s r : ServiceIndex_ (with_routes s r) = ServiceIndex_ s.
Proof. reflexivity. Qed.
Lemma with_policies_index s p : ServiceIndex_ (with_policies s p) = ServiceIndex_ s.
Proof. reflexivity. Qed.

Definition sample_push : ConfigSnapshot :=
  with_routes (sample_full [sample_fault "port" "dubbo" 2 500])
    (Some (@initHTTPRoutes sample_libraries [sample_http_route])).

Lemma sample_push_ports svc :
  @ServiceForHostname key_order (ServiceIndex_ sample_push) "demo.a" = Some svc -> ports_ok svc.
Proof.
  destruct (@ServiceForHostname key_order (ServiceIndex_ sample_push) "demo.a") as [s|] eqn:E; [|done].
  intros [= <-]. unfold ports_ok.
  assert (Service.Ports <$> @ServiceForHostname key_order (ServiceIndex_ sample_push) "demo.a"
          = Some [Some (Port.mk "dubbo" 20880 protocol.GRPC)]) as Hp by (vm_compute; reflexivity).
  rewrite E in Hp. simpl in Hp. injection Hp as ->. repeat constructor. eauto.
Qed.

Lemma outbound_route_configuration_witness :
  exists o, @buildHTTPRoute sample_libraries key_order sample_push sample_route_name = Ok o /\ o <> None.
Proof.
  destruct (@outbound_route_configuration sample_libraries key_order sample_push sample_route_name
    "outbound" "" "demo.a" 20880) as (o & Ho & Hnone & _).
  - reflexivity.
  - vm_compute. reflexivity.
  - apply sample_push_ports.
  - exists o. split; [exact Ho|]. intros E. apply Hnone in E as [E|[E|E]]; [discriminate..|].
    assert (Hs : match @ServiceForHostname key_order (ServiceIndex_ sample_push) "demo.a" with
                 | None => false | Some _ => true end = true) by (vm_compute; reflexivity).
    rewrite E in Hs. discriminate.
Defined.

(** The two matches of the rule become two routes. *)
Example sample_routes :
  match @buildHTTPRoute sample_libraries key_order sample_push sample_route_name with
  | Ok (Some rc) => map (fun vh => map rte_Match (vh_Routes vh)) (rc_VirtualHosts rc)
  | _ => []
  end = [[mkMatch (RouteMatch_Path "/x") []; match_all]].
Proof. vm_compute. reflexivity. Qed.

Lemma gateway_weights_in_range_witness :
  wc_TotalWeight (weighted_clusters "ns" 80
    [mkBackendRef "a" None None (Some 1000000); mkBackendRef "b" None None None]) = Some 1000001.
Proof.
  apply (gateway_weights_in_range "ns" 80
    [mkBackendRef "a" None None (Some 1000000); mkBackendRef "b" None None None]).
  - discriminate.
  - repeat constructor; simpl; lia.
  - simpl. lia.
Defined.

Lemma retry_policy_in_range_witness :
  match @gatewayAPIRetryPolicy sample_libraries (Some (mkRetry [503; 200] (Some 2) None)) None with
  | None => False
  | Some p => rp_NumRetries p = 2 /\ rp_RetriableStatusCodes p = [503]
  end.
Proof.
  pose proof (@retry_policy_in_range sample_libraries (mkRetry [503; 200] (Some 2) None) None) as Hr.
  simpl in Hr. destruct Hr as (_ & H1 & H2 & _); [reflexivity|]. split; [exact H1|exact H2].
Defined.
