(* ===== verification/GrpcClusters.v ===== *)
(** * Clusters

    [dubbod/discovery/pkg/networking/grpcgen/cds.go] and [buildCommonTLSContext]
    of [grpcgen.go]: the clusters of the names a client asks for, and the mutual
    TLS they use. *)

From S2P Require Import Prelude GoStrings GoSets Hosts GoNet Service EndpointBuilder ServiceIndex Authentication PolicyIndex Ads ConfigSnapshot GrpcRoutes.

(** ** Messages *)

(** A certificate provider instance is its instance name and certificate name. *)
Record CommonTlsContext : Type := mkCommonTls {
  tls_CertificateProvider : string * string;
  tls_RootProvider : string * string;
  tls_MatchSubjectAltNames : list string;
  tls_AlpnProtocols : list string
}.
Record UpstreamTlsContext : Type := mkUpstreamTls { up_Common : CommonTlsContext; up_Sni : string }.
Record DownstreamTlsContext : Type := mkDownstreamTls {
  dn_Common : CommonTlsContext; dn_RequireClientCertificate : bool }.
Inductive tls_config : Type := UpstreamConfig (c : UpstreamTlsContext) | DownstreamConfig (c : DownstreamTlsContext).
Record TransportSocket : Type := mkTransportSocket { ts_Name : string; ts_Config : tls_config }.

Inductive LbPolicy : Type := LbROUND_ROBIN | LbLEAST_REQUEST | LbRING_HASH | LbRANDOM.
Inductive OverrideHealth : Type := HSHealthy | HSUnhealthy | HSDraining | HSUnknown | HSDegraded.

(** [cluster.Cluster] with the endpoint discovery of [edsCluster]. *)
Record ClusterMsg : Type := mkClusterMsg {
  cm_Name : string;
  cm_AltStatName : string;
  cm_EdsServiceName : string;
  cm_LbPolicy : LbPolicy;
  cm_OverrideHostStatus : list OverrideHealth;
  cm_TransportSocket : option TransportSocket
}.

Definition buildCommonTLSContext (sans : list string) : CommonTlsContext :=
  mkCommonTls ("default", "default") ("default", "ROOTCA") sans [].

(** ** Building *)

Definition newClusterFilter (names : list string) : gmap string (gset string) :=
  fold_left (fun filter name =>
    let '(dir, _, hn, p) := ParseSubsetKey name in
    GoSet.InsertOrNew filter (BuildSubsetKey dir "" hn p) name) names ∅.

Record clusterBuilder : Type := mkClusterBuilder {
  cb_defaultClusterName : string;
  cb_hostname : host.Name;
  cb_portNum : Z;
  cb_svc : Service;
  cb_filter : gset string
}.

Section clusters.
Context `{RangeOrder} (DefaultLoadBalancerPolicy : string) (push : ConfigSnapshot).

Definition newClusterBuilder (defaultClusterName : string) (filter : gset string) : res clusterBuilder :=
  let '(_, _, hostname, portNum) := ParseSubsetKey defaultClusterName in
  if String.eqb hostname "" || (portNum =? 0) then
    Err (mk_error Unknown ("failed parsing subset key: " +:+ defaultClusterName))
  else match ServiceForHostname (ServiceIndex_ push) hostname with
       | None => Err (mk_error Unknown ("did not find service for cluster " +:+ defaultClusterName))
       | Some svc =>
           r ← GetByPort (Service.Ports svc) portNum;
           if negb (snd r : bool) then Err (mk_error Unknown "did not find port in service for cluster")
           else Ok (mkClusterBuilder defaultClusterName hostname portNum svc filter)
       end.

Definition defaultLbPolicy : LbPolicy :=
  let p := ToUpper DefaultLoadBalancerPolicy in
  if String.eqb p "LEAST_REQUEST" then LbLEAST_REQUEST
  else if String.eqb p "RING_HASH" then LbRING_HASH
  else if String.eqb p "RANDOM" then LbRANDOM
  else LbROUND_ROBIN.

Definition StatPrefixDelimiter : string := ";".
Definition DelimitedStatsPrefix (statPrefix : string) : string := statPrefix +:+ StatPrefixDelimiter.

Definition edsCluster (name : string) : ClusterMsg :=
  mkClusterMsg name (DelimitedStatsPrefix name) name defaultLbPolicy [] None.

Definition requiresPeerAuthenticationMTLS (b : clusterBuilder) : bool :=
  match AuthenticationPolicies_ push with
  | None => false
  | Some policies =>
      bool_decide (EffectiveMutualTLSMode (Some policies) (namespace_of (cb_svc b)) None
                     (wrap_u32 (cb_portNum b)) = MTLSStrict)
  end.

(** The identities of the service, by its own host name or by the one asked
    for. *)
Definition upstream_sans (b : clusterBuilder) : list string :=
  let sans := ServiceAccounts_ push (Service.Hostname (cb_svc b)) (namespace_of (cb_svc b)) in
  if (length sans =? 0)%nat && negb (String.eqb (cb_hostname b) (Service.Hostname (cb_svc b)))
  then ServiceAccounts_ push (cb_hostname b) (namespace_of (cb_svc b)) else sans.

Definition buildUpstreamTLSContext (b : clusterBuilder) (c : ClusterMsg) : UpstreamTlsContext :=
  let common := buildCommonTLSContext (upstream_sans b) in
  let sni :=
    if negb (String.eqb (Service.Hostname (cb_svc b)) "") then Service.Hostname (cb_svc b)
    else match Split (cm_Name c) "|" with
         | _ :: _ :: _ :: part :: _ => part
         | _ => cm_Name c
         end in
  mkUpstreamTls (mkCommonTls (tls_CertificateProvider common) (tls_RootProvider common)
                   (tls_MatchSubjectAltNames common) ["h2"]) sni.

Definition applyPeerAuthenticationMTLS (b : clusterBuilder) (c : ClusterMsg) : ClusterMsg :=
  match cm_TransportSocket c with
  | Some _ => c
  | None =>
      mkClusterMsg (cm_Name c) (cm_AltStatName c) (cm_EdsServiceName c) (cm_LbPolicy c)
        (cm_OverrideHostStatus c)
        (Some (mkTransportSocket "transport_sockets.tls" (UpstreamConfig (buildUpstreamTLSContext b c))))
  end.

Definition build (b : clusterBuilder) : list ClusterMsg :=
  if negb (bool_decide (cb_defaultClusterName b ∈ cb_filter b)) then [] else
  let c := edsCluster (cb_defaultClusterName b) in
  let c := mkClusterMsg (cm_Name c) (cm_AltStatName c) (cm_EdsServiceName c) (cm_LbPolicy c)
             [HSHealthy; HSUnhealthy; HSDraining; HSUnknown; HSDegraded] (cm_TransportSocket c) in
  [if requiresPeerAuthenticationMTLS b then applyPeerAuthenticationMTLS b c else c].

(** A name that has no cluster is logged and skipped; a panic is not. *)
Fixpoint build_all (filter : list (string * gset string)) : res (list ClusterMsg) :=
  match filter with
  | [] => Ok []
  | (defaultClusterName, subsetFilter) :: filter =>
      match newClusterBuilder defaultClusterName subsetFilter with
      | Panic w => Panic w
      | Err _ => build_all filter
      | Ok builder => rest ← build_all filter; Ok (build builder ++ rest)
      end
  end.

Definition BuildClusters (names : list string) : res (list ClusterMsg) :=
  build_all (range (newClusterFilter names)).

End clusters.

(** ** Lemmas *)

(** The default cluster of a name: the name without its subset. *)
Definition default_key (name : string) : string :=
  let '(dir, _, hn, p) := ParseSubsetKey name in BuildSubsetKey dir "" hn p.

Lemma newClusterFilter_lookup names k :
  newClusterFilter names !! k =
  let s : gset string := list_to_set (List.filter (fun n => String.eqb (default_key n) k) names) in
  if decide (s = ∅) then None else Some s.
Proof.
  unfold newClusterFilter.
  set (step := fun filter name => _).
  assert (Hstep : forall m name, step m name = <[default_key name := {[name]} ∪ default ∅ (m !! default_key name)]> m).
  { intros m name. unfold step, default_key. destruct (ParseSubsetKey name) as [[[? ?] ?] ?].
    unfold GoSet.InsertOrNew. destruct (m !! _); simpl; [done|].
    by rewrite union_empty_r_L. }
  assert (Hgen : forall l m, fold_left step l m !! k =
    let s : gset string := list_to_set (List.filter (fun n => String.eqb (default_key n) k) l) in
    if decide (s = ∅) then m !! k else Some (s ∪ default ∅ (m !! k))).
  { induction l as [|n l IH]; intros m; simpl; [by rewrite decide_True|].
    rewrite IH, Hstep. clear IH Hstep. simpl.
    destruct (String.eqb_spec (default_key n) k) as [E|E].
    - rewrite <- E, lookup_insert_eq. cbn [list_to_set default].
      set (X := list_to_set (List.filter _ l) : gset string).
      rewrite (decide_False (P := {[n]} ∪ X = ∅)) by set_solver.
      destruct (decide (X = ∅)) as [HX|HX]; [rewrite HX|]; f_equal; set_solver.
    - by rewrite lookup_insert_ne. }
  rewrite Hgen, lookup_empty. simpl. case_decide; [done|]. f_equal. set_solver.
Qed.

Lemma newClusterFilter_self names k fs :
  newClusterFilter names !! k = Some fs -> k ∈ fs <-> k ∈ names /\ default_key k = k.
Proof.
  rewrite newClusterFilter_lookup. simpl. case_decide; [done|]. intros [= <-].
  rewrite elem_of_list_to_set, list_elem_of_In, filter_In, <- list_elem_of_In, String.eqb_eq. done.
Qed.

Lemma newClusterFilter_has names k :
  k ∈ names -> default_key k = k -> exists fs, newClusterFilter names !! k = Some fs.
Proof.
  intros Hin Hk. rewrite newClusterFilter_lookup. simpl. rewrite decide_False; [eauto|].
  intros E. assert (k ∈ (list_to_set (List.filter (fun n => String.eqb (default_key n) k) names) : gset string))
    as Hx; [|rewrite E in Hx; set_solver].
  apply elem_of_list_to_set, list_elem_of_In, filter_In. rewrite <- list_elem_of_In, String.eqb_eq. done.
Qed.

Section cluster_lemmas.
Context `{RangeOrder} (lb : string) (push : ConfigSnapshot).

(** A name with a cluster: it parses, and the host is a service with the port. *)
Definition resolvable (name : string) (svc : Service) (port : Z) : Prop :=
  exists d sub hostname, ParseSubsetKey name = (d, sub, hostname, port) /\ hostname <> "" /\ port <> 0 /\
    ServiceForHostname (ServiceIndex_ push) hostname = Some svc /\
    exists p, GetByPort (Service.Ports svc) port = Ok (Some p, true).

Definition services_ports_ok : Prop :=
  forall hn svc, ServiceForHostname (ServiceIndex_ push) hn = Some svc -> ports_ok svc.

Lemma newClusterBuilder_spec name fs :
  services_ports_ok ->
  match newClusterBuilder push name fs with
  | Ok b => resolvable name (cb_svc b) (cb_portNum b) /\ cb_defaultClusterName b = name /\ cb_filter b = fs
            /\ (forall d sub h p, ParseSubsetKey name = (d, sub, h, p) -> cb_hostname b = h)
  | Err _ => forall svc port, ~ resolvable name svc port
  | Panic _ => False
  end.
Proof.
  intros Hok. unfold newClusterBuilder, resolvable.
  destruct (ParseSubsetKey name) as [[[d sub] hn] port] eqn:Ep.
  destruct (String.eqb_spec hn "") as [->|Hh]; simpl; [intros; naive_solver|].
  destruct (Z.eqb_spec port 0) as [->|Hp]; simpl; [intros; naive_solver|].
  destruct (ServiceForHostname (ServiceIndex_ push) hn) as [svc|] eqn:Es; [|intros; naive_solver].
  destruct (GetByPort_ok (Service.Ports svc) port (Hok hn svc Es)) as [[op found] Eg].
  rewrite Eg. simpl. destruct op as [p|].
  - destruct (GetByPort_found _ _ _ _ Eg) as [-> _]. simpl. split; [|naive_solver]. eauto 10.
  - destruct found; simpl.
    + exfalso. clear -Eg. revert Eg. induction (Service.Ports svc) as [|[q|] l IH]; simpl; try done.
      destruct (_ =? _); [done|auto].
    + intros svc' port' (d' & sub' & h' & [= <- <- <- <-] & _ & _ & Es' & p & Hg).
      rewrite Es in Es'. injection Es' as <-. congruence.
Qed.

Lemma build_name b c : c ∈ build lb push b ->
  cm_Name c = cb_defaultClusterName b /\ cb_defaultClusterName b ∈ cb_filter b.
Proof.
  unfold build. case_bool_decide; simpl; [|set_solver]. intros ->%list_elem_of_singleton.
  split; [|done]. by destruct (requiresPeerAuthenticationMTLS push b).
Qed.

Lemma build_all_spec l :
  services_ports_ok ->
  exists cs, build_all lb push l = Ok cs /\ sublist (map cm_Name cs) l.*1 /\
  forall c, c ∈ cs <-> exists name fs b, (name, fs) ∈ l /\ newClusterBuilder push name fs = Ok b /\ c ∈ build lb push b.
Proof.
  intros Hok. induction l as [|[name fs] l (cs & IH & Hsub & Hc)]; cbn [build_all].
  { exists []. split; [done|]. split; [constructor|]. set_solver. }
  pose proof (newClusterBuilder_spec name fs Hok) as Hb.
  destruct (newClusterBuilder push name fs) as [b|e|w] eqn:Eb; [| |done].
  - rewrite IH. simpl. eexists. split; [done|]. split.
    + rewrite map_app. destruct Hb as (_ & Hn & _ & _).
      assert (Hb1 : map cm_Name (build lb push b) = [] \/ map cm_Name (build lb push b) = [name]).
      { unfold build. case_bool_decide; simpl; [|by left]. right. rewrite <- Hn.
        by destruct (requiresPeerAuthenticationMTLS push b). }
      destruct Hb1 as [->| ->]; simpl; by constructor.
    + intros c. rewrite elem_of_app, Hc. split.
      * intros [Hin|(n & f & b' & Hin & ? & ?)]; [exists name, fs, b|exists n, f, b']; set_solver.
      * intros (n & f & b' & [[= -> ->]|Hin]%elem_of_cons & Hnb & Hcb);
          [left; congruence|right; eauto 10].
  - exists cs. split; [done|]. split; [by constructor|]. intros c. rewrite Hc. split.
    + intros (n & f & b' & Hin & ? & ?). exists n, f, b'. set_solver.
    + intros (n & f & b' & [[= -> ->]|Hin]%elem_of_cons & Hnb & Hcb);
        [congruence|eauto 10].
Qed.

End cluster_lemmas.

Lemma BuildClusters_elem `{RangeOrder} lb push names :
  services_ports_ok push ->
  exists cs, BuildClusters lb push names = Ok cs /\ NoDup (map cm_Name cs) /\
  forall name, name ∈ map cm_Name cs <->
    name ∈ names /\ default_key name = name /\ exists svc port, resolvable push name svc port.
Proof.
  intros Hok. destruct (build_all_spec lb push (range (newClusterFilter names)) Hok) as (cs & E & Hsub & Hc).
  exists cs. split; [exact E|]. split.
  { exact (sublist_NoDup _ _ (NoDup_range_fst _) Hsub). }
  intros name. rewrite list_elem_of_fmap. setoid_rewrite Hc. split.
  - intros (c & -> & n & fs & b & Hin & Eb & Hb). apply elem_of_range in Hin.
    pose proof (newClusterBuilder_spec push n fs Hok) as Hs. rewrite Eb in Hs.
    destruct Hs as (Hr & Hn & Hf & _). destruct (build_name lb push b c Hb) as [-> Hself].
    rewrite Hn, Hf in *. apply (newClusterFilter_self _ _ _ Hin) in Hself as [? ?]. eauto 10.
  - intros (Hin & Hk & svc & port & Hr). destruct (newClusterFilter_has names name Hin Hk) as [fs Hfs].
    pose proof (newClusterBuilder_spec push name fs Hok) as Hs.
    destruct (newClusterBuilder push name fs) as [b|e|w] eqn:Eb; [|by destruct (Hs svc port)|done].
    destruct Hs as (_ & Hn & Hf & _).
    assert (Hself : name ∈ fs) by (by apply (newClusterFilter_self _ _ _ Hfs)).
    assert (Hb : exists c, c ∈ build lb push b).
    { unfold build. rewrite bool_decide_eq_true_2 by (by rewrite Hn, Hf). eexists. apply list_elem_of_singleton.
      reflexivity. }
    destruct Hb as [c Hb]. exists c. split; [by destruct (build_name lb push b c Hb) as [-> _]|].
    exists name, fs, b. split; [by apply elem_of_range|done].
Qed.

(** ** Properties *)

(** Only what is asked for is generated, and all of it: whatever the order
    of the maps, the clusters are those of the requested names that have no
    subset, parse, and name a port of a known service, each once. *)
Theorem build_clusters_spec `{RangeOrder} lb push names :
  services_ports_ok push ->
  exists cs, BuildClusters lb push names = Ok cs /\ NoDup (map cm_Name cs) /\
  forall name, name ∈ map cm_Name cs <->
    name ∈ names /\ default_key name = name /\ exists svc port, resolvable push name svc port.
Proof. apply BuildClusters_elem. Qed.

(** C15 Mutual TLS towards a service follows the peer authentication policies
    without a workload selector.  A cluster has a transport socket exactly when
    the mode resolved for the service's namespace and port without labels is
    STRICT, and then with a client certificate, the roots of the mesh, the host
    name of the service as server name and, when the service's identities are
    known, only these accepted.  For policies as the resource definition admits
    them (port-level modes only beside a selector) that mode is the one of the
    oldest selector-less policy of the namespace, and failing that of the root
    namespace.  The code passes no labels, so a policy that selects workloads,
    and with it every port-level mode, changes no cluster: the workloads it makes
    STRICT still get plain text (a finding, [selected_strict_is_plain_text]).
    Ports are assumed to be present in the services of the snapshot. *)
Theorem cluster_mtls_iff_strict `{RangeOrder} lb push names cs c :
  services_ports_ok push -> BuildClusters lb push names = Ok cs -> c ∈ cs ->
  exists svc port, resolvable push (cm_Name c) svc port /\
  let mode := EffectiveMutualTLSMode (AuthenticationPolicies_ push) (namespace_of svc) None (wrap_u32 port) in
  let strict := mode = MTLSStrict in
  (cm_TransportSocket c = None <-> ~ strict) /\
  (strict -> exists up, cm_TransportSocket c = Some (mkTransportSocket "transport_sockets.tls" (UpstreamConfig up)) /\
     tls_CertificateProvider (up_Common up) = ("default", "default") /\
     tls_RootProvider (up_Common up) = ("default", "ROOTCA") /\
     (Service.Hostname svc <> "" -> up_Sni up = Service.Hostname svc) /\
     (ServiceAccounts_ push (Service.Hostname svc) (namespace_of svc) <> [] ->
      tls_MatchSubjectAltNames (up_Common up) = ServiceAccounts_ push (Service.Hostname svc) (namespace_of svc))) /\
  (forall root peers, policies_from (AuthenticationPolicies_ push) root peers -> ports_need_selector peers ->
     mode = unselected_mode (sortConfigByCreationTime peers) root (namespace_of svc)).
Proof.
  intros Hok Hbuild Hin.
  destruct (build_all_spec lb push (range (newClusterFilter names)) Hok) as (cs' & E & _ & Hc).
  unfold BuildClusters in Hbuild. rewrite E in Hbuild. injection Hbuild as ->.
  apply Hc in Hin as (n & fs & b & _ & Eb & Hb).
  pose proof (newClusterBuilder_spec push n fs Hok) as Hs. rewrite Eb in Hs.
  destruct Hs as (Hr & Hn & _ & _). exists (cb_svc b), (cb_portNum b).
  destruct (build_name lb push b c Hb) as [-> _]. rewrite Hn. split; [done|]. cbv zeta.
  assert (Hreq : requiresPeerAuthenticationMTLS push b = true <->
    EffectiveMutualTLSMode (AuthenticationPolicies_ push) (namespace_of (cb_svc b)) None (wrap_u32 (cb_portNum b))
    = MTLSStrict).
  { unfold requiresPeerAuthenticationMTLS. destruct (AuthenticationPolicies_ push); [|done].
    apply bool_decide_eq_true. }
  unfold build in Hb. case_bool_decide; [|set_solver]. simpl in Hb. apply list_elem_of_singleton in Hb as ->.
  destruct (requiresPeerAuthenticationMTLS push b) eqn:Erq.
  - pose proof (proj1 Hreq eq_refl) as Hst. split; [split; [done|intros Hno; by destruct Hno]|].
    split; [|intros root peers; apply mode_without_labels].
    intros _. eexists. split; [done|]. simpl. split; [done|]. split; [done|]. split.
    + intros Hh. by destruct (String.eqb_spec (Service.Hostname (cb_svc b)) "").
    + intros Hsa. unfold upstream_sans. by destruct (ServiceAccounts_ push _ _).
  - split; [|split; [intros Hst; apply Hreq in Hst; done|intros root peers; apply mode_without_labels]].
    split; [|done]. intros _ Hst. apply Hreq in Hst. done.
Qed.

(** Every service a snapshot finds comes from the registries.  The map may be
    walked in another order than when the snapshot was built. *)
Lemma preferred_elem hn ns l s : preferred hn ns l = Some s -> s ∈ l /\ named hn ns s = true.
Proof.
  unfold preferred. destruct (List.find _ l) as [s'|] eqn:E; intros Hs; simplify_eq; rewrite list_elem_of_In.
  - apply find_some in E as [? ?]. breflect. auto.
  - by apply find_some in Hs.
Qed.

Section snapshot_lookup.
Context `{Libraries} `{build : RangeOrder} {C : Type}.
Context (md5hex : string -> string) (env : ModelEnv C) (s : ConfigSnapshot).
Hypothesis Hfull : full_snapshot md5hex env = Ok s.

(** The services in the order the registries give them. *)
Notation services := (fst (@registry_services build (env_Services env) None)).

Lemma snapshot_service (ask : RangeOrder) hn svc :
  @ServiceForHostname ask (ServiceIndex_ s) hn = Some svc -> svc ∈ services /\ Service.Hostname svc = hn.
Proof.
  intros (ns & Hi)%ServiceForHostname_indexed. apply full_snapshot_Ok in Hfull as (reg & auth & Hreg & _ & ->).
  simpl in Hi. unfold registry_of in Hreg. apply res_bind_ok in Hreg as (r & Hr & [= <-]).
  apply initServiceRegistry_Ok in Hr. rewrite (index_services_indexed _ _ _ _ _ hn ns Hr) in Hi.
  change (indexed (ServiceIndex_ (start env)) hn ns) with (@None Service) in Hi.
  rewrite fold_prefer_preferred in Hi. apply preferred_elem in Hi as [Hin Hn].
  unfold named in Hn. breflect. split; [done|by apply String.eqb_eq].
Qed.

Lemma snapshot_ports_ok (ask : RangeOrder) : Forall ports_ok (env_Services env) -> @services_ports_ok ask s.
Proof.
  intros Hp hn svc [Hin _]%snapshot_service.
  pose proof (@registry_services_ports build (env_Services env) None Hp) as Hall.
  rewrite Forall_forall in Hall. auto.
Qed.

End snapshot_lookup.

(** *** Witnesses *)

(** The sample snapshot with peer authentication policies. *)
Definition push_with (peers : list Config) : ConfigSnapshot :=
  with_policies sample_push
    (Some (from_ok (mkPolicies ∅ ∅ ∅ MTLSUnknown "" None "")
       (initAuthenticationPolicies (fun s => s) "root" [] [] peers))).

(** A strict policy in the namespace of the service. *)
Definition strict_peers : list Config := [sample_policy "p" "a" 1 None STRICT].
Definition strict_push : ConfigSnapshot := push_with strict_peers.

(** The policy that makes the workloads of the service, and only them, STRICT. *)
Definition selecting_peers : list Config :=
  [sample_policy "p" "a" 1 (Some (Some {["app" := "demo"]})) STRICT].

(** The cluster of a service whose workloads a policy makes STRICT is plain text,
    although the mode resolved with the workloads' labels is STRICT. *)
Example selected_strict_is_plain_text :
  EffectiveMutualTLSMode (AuthenticationPolicies_ (push_with selecting_peers)) "a" (Some {["app" := "demo"]}) 20880
    = MTLSStrict /\
  map (fun c => (cm_Name c, cm_TransportSocket c))
    (from_ok [] (@BuildClusters key_order "" (push_with selecting_peers) ["outbound|20880||demo.a"]))
  = [("outbound|20880||demo.a", None)].
Proof. vm_compute. done. Qed.

Lemma sample_faulty_ok :
  @full_snapshot sample_libraries key_order unit (fun s => s)
    (sample_env [sample_fault "port" "dubbo" 2 500]) = Ok (sample_full [sample_fault "port" "dubbo" 2 500]).
Proof. apply is_ok_from_ok. vm_compute. reflexivity. Qed.

Lemma sample_services_ports : Forall ports_ok sample_services.
Proof. repeat (constructor; [repeat constructor; eexists; reflexivity|]). constructor. Qed.

Lemma strict_push_ports : @services_ports_ok key_order strict_push.
Proof.
  intros hn svc. unfold strict_push, push_with. rewrite with_policies_index. unfold sample_push.
  rewrite with_routes_index.
  exact (@snapshot_ports_ok _ key_order _ _ _ _ sample_faulty_ok key_order sample_services_ports hn svc).
Qed.

Definition sample_clusters : list ClusterMsg :=
  from_ok [] (@BuildClusters key_order "" strict_push ["outbound|20880||demo.a"; "outbound|1||demo.a"]).

Example sample_clusters_names : map cm_Name sample_clusters = ["outbound|20880||demo.a"].
Proof. vm_compute. reflexivity. Qed.

Lemma build_clusters_spec_witness :
  exists cs, @BuildClusters key_order "" strict_push ["outbound|20880||demo.a"; "outbound|1||demo.a"] = Ok cs
    /\ NoDup (map cm_Name cs).
Proof.
  destruct (@build_clusters_spec key_order "" strict_push ["outbound|20880||demo.a"; "outbound|1||demo.a"])
    as (cs & E & Hnd & _); [exact strict_push_ports|]. exists cs. split; [exact E|exact Hnd].
Defined.

Lemma strict_policies : policies_from (AuthenticationPolicies_ strict_push) "root" strict_peers.
Proof.
  exists (fun s => s), [], [], (from_ok (mkPolicies ∅ ∅ ∅ MTLSUnknown "" None "")
    (initAuthenticationPolicies (fun s => s) "root" [] [] strict_peers)).
  split; [reflexivity|]. apply is_ok_from_ok. vm_compute. reflexivity.
Qed.

Lemma strict_peers_ports : ports_need_selector strict_peers.
Proof. intros cfg p Hin Hp _. apply list_elem_of_singleton in Hin as ->. injection Hp as <-. reflexivity. Qed.

Lemma cluster_mtls_iff_strict_witness :
  exists c, head sample_clusters = Some c /\ cm_TransportSocket c <> None /\
  exists svc port, @resolvable key_order strict_push (cm_Name c) svc port /\
    EffectiveMutualTLSMode (AuthenticationPolicies_ strict_push) (namespace_of svc) None (wrap_u32 port)
    = unselected_mode (sortConfigByCreationTime strict_peers) "root" (namespace_of svc).
Proof.
  assert (Hh : match head sample_clusters with
               | Some c => match cm_TransportSocket c with Some _ => true | None => false end
               | None => false end = true) by (vm_compute; reflexivity).
  destruct (head sample_clusters) as [c|] eqn:E; [|discriminate]. exists c. split; [reflexivity|].
  split; [intros En; rewrite En in Hh; discriminate|].
  destruct (@cluster_mtls_iff_strict key_order "" strict_push ["outbound|20880||demo.a"; "outbound|1||demo.a"]
    sample_clusters c) as (svc & port & Hr & _ & _ & Hm).
  - exact strict_push_ports.
  - apply is_ok_from_ok. vm_compute. reflexivity.
  - destruct sample_clusters; [discriminate|]. injection E as <-. apply elem_of_cons. left. reflexivity.
  - exists svc, port. split; [exact Hr|]. exact (Hm "root" strict_peers strict_policies strict_peers_ports).
Defined.
