(* ===== verification/GrpcListeners.v ===== *)
(** * Listeners

    [dubbod/discovery/pkg/networking/grpcgen/lds.go]: the names a client asks
    for become inbound listeners, with the mutual TLS mode of the workload, and
    outbound API listeners, which refer to a route of the service. *)

From S2P Require Import Prelude GoStrings GoSets Hosts GoNet Service EndpointBuilder ServiceIndex Authentication PolicyIndex Ads ConfigSnapshot SecurityFilters GrpcRoutes GrpcClusters.

(** ** Messages *)

Inductive HcmRoute : Type :=
  | Hcm_RouteConfig (rc : RouteConfiguration)
  | Hcm_Rds (routeConfigName : string).
Record HttpConnectionManager : Type := mkHcm {
  hcm_StatPrefix : string; hcm_Route : HcmRoute; hcm_HttpFilters : list HttpFilter }.

Record FilterChain : Type := mkFilterChain {
  fc_Name : string;
  (* transport protocol and application protocols *)
  fc_Match : option (string * list string);
  fc_Filters : list (string * HttpConnectionManager);
  fc_TransportSocket : option TransportSocket
}.

Inductive Address : Type := SocketAddress (addr : string) (port : Z) | Pipe (path : string).

Record ListenerMsg : Type := mkListenerMsg {
  ll_Name : string;
  ll_Address : Address;
  ll_FilterChains : list FilterChain;
  ll_ApiListener : option HttpConnectionManager;
  ll_AdditionalAddresses : list Address
}.

Definition ServerListenerNamePrefix : string := "xds.dubbo.apache.org/grpc/lds/inbound/".
Definition HTTPConnectionManagerName : string := "filters.network.http_connection_manager".
Definition UnixAddressPrefix : string := "unix://".

(** [util.BuildAddress] *)
Definition BuildAddress (bind : string) (port : Z) : Address :=
  if port =? 0 then Pipe (TrimPrefix bind UnixAddressPrefix) else SocketAddress bind port.

Definition BuildAdditionalAddresses (extrAddresses : list string) (listenPort : Z) : list Address :=
  map (fun exbd => BuildAddress exbd listenPort)
    (List.filter (fun exbd => negb (String.eqb exbd "")) extrAddresses).

(** ** Names *)

Record listenerName : Type := mkListenerName { ln_RequestedNames : gset string; ln_Ports : nset string }.

(** [node.Metadata] is dereferenced for a name with a dot. *)
Definition tryFindFQDN (name : string) (node : Proxy) : res string :=
  if negb (str_contains name ".") then Ok (name +:+ "." +:+ Proxy.DNSDomain node) else
  match Proxy.Metadata node with
  | None => Panic "nil pointer dereference"
  | Some m =>
      let try suffix next :=
        let shortname := TrimSuffix name ("." +:+ suffix) in
        if negb (String.eqb shortname name) && HasPrefix (Proxy.DNSDomain node) suffix
        then shortname +:+ "." +:+ Proxy.DNSDomain node else next in
      Ok (try (meta_Namespace m) (try (meta_Namespace m +:+ ".svc") ""))
  end.

(** The entry of one name; once a name was asked for without a port, it stands
    for all ports. *)
Definition add_listener_name (requestedName : string) (port : option string)
    (filter : gmap string listenerName) (name : string) : gmap string listenerName :=
  let entry := filter !! name in
  let ln := default (mkListenerName ∅ None) entry in
  let requested := {[requestedName]} ∪ ln_RequestedNames ln in
  let ports :=
    match port with
    | Some port =>
        if negb (bool_decide (is_Some entry)) || negb (nset_len (ln_Ports ln) =? 0)%nat
        then Some ({[port]} ∪ nset_elems (ln_Ports ln)) else ln_Ports ln
    | None => None
    end in
  <[name := mkListenerName requested ports]> filter.

Definition filter_listener_name (node : Proxy) (filter : gmap string listenerName) (name : string)
  : res (gmap string listenerName) :=
  if HasPrefix name ServerListenerNamePrefix then
    Ok (<[name := mkListenerName {[name]} None]> filter)
  else
    let '(requestedName, port) :=
      match SplitHostPort name with Some (h, p) => (h, Some p) | None => (name, None) end in
    fqdn ← tryFindFQDN requestedName node;
    let allNames := requestedName :: (if negb (String.eqb fqdn "") then [fqdn] else []) in
    Ok (fold_left (add_listener_name requestedName port) allNames filter).

Fixpoint filter_listener_names (node : Proxy) (filter : gmap string listenerName) (names : list string)
  : res (gmap string listenerName) :=
  match names with
  | [] => Ok filter
  | name :: names =>
      filter ← filter_listener_name node filter name;
      filter_listener_names node filter names
  end.

Definition newListenerNameFilter (names : list string) (node : Proxy) : res (gmap string listenerName) :=
  filter_listener_names node ∅ names.

Definition inboundNames `{RangeOrder} (f : gmap string listenerName) : list string :=
  List.filter (fun key => HasPrefix key ServerListenerNamePrefix) (map fst (range f)).

(** ** Inbound listeners *)

Definition buildDownstreamTransportSocket (mode : MutualTLSMode) : option TransportSocket :=
  match mode with
  | MTLSStrict =>
      let common := buildCommonTLSContext [] in
      Some (mkTransportSocket "transport_sockets.tls"
        (DownstreamConfig (mkDownstreamTls (mkCommonTls (tls_CertificateProvider common)
           (tls_RootProvider common) (tls_MatchSubjectAltNames common) ["h2"]) true)))
  | _ => None
  end.

Definition with_socket (c : FilterChain) (ts : TransportSocket) : FilterChain :=
  mkFilterChain (fc_Name c) (fc_Match c) (fc_Filters c) (Some ts).

Definition buildInboundFilterChains (plaintext : FilterChain) (mode : MutualTLSMode) : list FilterChain :=
  match mode with
  | MTLSStrict =>
      match buildDownstreamTransportSocket MTLSStrict with
      | Some ts => [with_socket plaintext ts]
      | None => [plaintext]
      end
  | MTLSPermissive =>
      match buildDownstreamTransportSocket MTLSStrict with
      | Some ts =>
          (* a clone of the plaintext chain *)
          let mtls := mkFilterChain "mtls" (Some ("tls", ["h2"])) (fc_Filters plaintext) (Some ts) in
          [mtls; plaintext]
      | None => [plaintext]
      end
  | _ => [plaintext]
  end.

(** The service target of each port; a later target replaces an earlier one. *)
Definition targets_by_port (node : Proxy) : gmap Z ServiceTarget :=
  fold_left (fun m si => match st_ServicePort si with
    | Some _ => <[st_TargetPort si := si]> m | None => m end) (Proxy.ServiceTargets node) ∅.

Definition inbound_hcm (push : ConfigSnapshot) (si : ServiceTarget) (listenPort : Z) : HttpConnectionManager :=
  mkHcm ("inbound_" +:+ Itoa listenPort) (Hcm_RouteConfig (inbound_route_configuration (Itoa listenPort)))
    (buildInboundHTTPFilters (Some push) si).

(** One listener; [Ok None] where the loop continues.  A target without a
    service panics when its addresses are read. *)
Definition inbound_listener (node : Proxy) (push : ConfigSnapshot) (name : string) : res (option ListenerMsg) :=
  let listenAddress := TrimPrefix name ServerListenerNamePrefix in
  match SplitHostPort listenAddress with
  | None => Ok None
  | Some (listenHost, listenPortStr) =>
      if negb (Atoi_ok listenPortStr) then Ok None else
      let listenPort := Atoi_value listenPortStr in
      match targets_by_port node !! wrap_u32 listenPort with
      | None => Ok None
      | Some si =>
          let mode := InboundMTLSModeForProxy (Some push) (Some node) (wrap_u32 listenPort) in
          let filterChain := mkFilterChain "" None
            [(HTTPConnectionManagerName, inbound_hcm push si listenPort)] None in
          let filterChains := buildInboundFilterChains filterChain mode in
          match st_Service si with
          | None => Panic "nil pointer dereference"
          | Some service =>
              Ok (Some (mkListenerMsg name (SocketAddress listenHost (wrap_u32 listenPort)) filterChains None
                    (BuildAdditionalAddresses (GetExtraAddressesForProxy service) (wrap_u32 listenPort))))
          end
      end
  end.

Fixpoint buildInboundListeners (node : Proxy) (push : ConfigSnapshot) (names : list string)
  : res (list ListenerMsg) :=
  match names with
  | [] => Ok []
  | name :: names =>
      l ← inbound_listener node push name;
      rest ← buildInboundListeners node push names;
      Ok (match l with Some l => l :: rest | None => rest end)
  end.

(** ** Outbound listeners *)
Section outbound.
Context `{RangeOrder}.

(** The host names with their ports, or a name that has its port in it. *)
Definition outbound_infos (filter : gmap string listenerName) : list (string * list string) :=
  omap (fun '(name, ln) =>
    if HasPrefix name ServerListenerNamePrefix then None
    else if (0 <? nset_len (ln_Ports ln))%nat then Some (name, GoSet.UnsortedList (ln_Ports ln))
    else match SplitHostPort name with
         | Some _ => Some (name, [name])
         | None => None
         end) (range filter).

(** By the name, by the short name, and at last by any service whose name begins
    with the short name. *)
Definition find_service (push : ConfigSnapshot) (hostStr : string) : option Service :=
  match ServiceForHostname (ServiceIndex_ push) hostStr with
  | Some svc => Some svc
  | None =>
      let shortName := match Split hostStr "." with p :: _ => p | [] => "" end in
      match (if negb (String.eqb shortName "")
             then ServiceForHostname (ServiceIndex_ push) shortName else None) with
      | Some svc => Some svc
      | None =>
          List.find (fun s => String.eqb (Service.Hostname s) hostStr
                              || (negb (String.eqb shortName "")
                                  && HasPrefix (Service.Hostname s) (shortName +:+ ".")))
            (GetAllServices (ServiceIndex_ push))
      end
  end.

Definition outbound_hcm (svc : Service) (port : Z) : HttpConnectionManager :=
  mkHcm ("outbound_" +:+ Itoa port +:+ "_" +:+ Attributes.Name (Service.Attributes svc))
    (Hcm_Rds (BuildSubsetKey TrafficDirectionOutbound "" (Service.Hostname svc) port))
    [mkHttpFilter "filters.http.router" CfgRouter].

Definition outbound_listener (push : ConfigSnapshot) (hostname portInfo : string) : res (option ListenerMsg) :=
  let '(hostStr, portStr) :=
    match SplitHostPort portInfo with Some hp => hp | None => (hostname, portInfo) end in
  if negb (Atoi_ok portStr) then Ok None else
  let port := Atoi_value portStr in
  match find_service push hostStr with
  | None => Ok None
  | Some svc =>
      r ← GetByPort (Service.Ports svc) port;
      Ok (if negb (snd r : bool) then None
          else Some (mkListenerMsg (hostStr +:+ ":" +:+ portStr)
                 (SocketAddress (GetAddressForProxy svc) (wrap_u32 port)) [] (Some (outbound_hcm svc port))
                 (BuildAdditionalAddresses (GetExtraAddressesForProxy svc) (wrap_u32 port))))
  end.

Fixpoint outbound_listeners (push : ConfigSnapshot) (infos : list (string * string)) : res (list ListenerMsg) :=
  match infos with
  | [] => Ok []
  | (hostname, portInfo) :: infos =>
      l ← outbound_listener push hostname portInfo;
      rest ← outbound_listeners push infos;
      Ok (match l with Some l => l :: rest | None => rest end)
  end.

Definition buildOutboundListeners (push : ConfigSnapshot) (filter : gmap string listenerName)
  : res (list ListenerMsg) :=
  outbound_listeners push
    (concat (map (fun '(hostname, ports) => map (fun p => (hostname, p)) ports) (outbound_infos filter))).

(** ** All listeners *)

(** The inbound listener names of the workload's own services. *)
Definition wildcard_names (node : Proxy) : list string :=
  omap (fun st => match st_Service st, st_ServicePort st with
    | Some _, Some _ => Some (ServerListenerNamePrefix +:+ "0.0.0.0:" +:+ Itoa (st_TargetPort st))
    | _, _ => None end) (Proxy.ServiceTargets node).

Definition BuildListeners (node : Proxy) (push : ConfigSnapshot) (names : list string)
  : res (list ListenerMsg) :=
  let names := if (length names =? 0)%nat && (0 <? length (Proxy.ServiceTargets node))%nat
               then wildcard_names node else names in
  filter ← newListenerNameFilter names node;
  outbound ← buildOutboundListeners push filter;
  inbound ← buildInboundListeners node push (inboundNames filter);
  let resp := outbound ++ inbound in
  Ok (if (0 <? length names)%nat
      then List.filter (fun r => bool_decide (ll_Name r ∈ names)) resp else resp).

End outbound.

(** ** Lemmas *)

(** What a filter chain of a workload enforces: the connection manager with the
    security filters of the service target. *)
Definition enforces (push : ConfigSnapshot) (si : ServiceTarget) (c : FilterChain) : Prop :=
  exists hcm, fc_Filters c = [(HTTPConnectionManagerName, hcm)] /\
    hcm_HttpFilters hcm = buildInboundHTTPFilters (Some push) si.

(** A chain that only takes TLS with a client certificate of the mesh. *)
Definition requires_mtls (c : FilterChain) : Prop :=
  exists ts dn, fc_TransportSocket c = Some ts /\ ts_Config ts = DownstreamConfig dn /\
    dn_RequireClientCertificate dn = true /\ tls_RootProvider (dn_Common dn) = ("default", "ROOTCA").

Definition plaintext (c : FilterChain) : Prop := fc_TransportSocket c = None.

(** The chains a mode asks for. *)
Definition chains_for (mode : MutualTLSMode) (chains : list FilterChain) : Prop :=
  match mode with
  | MTLSStrict => exists c, chains = [c] /\ requires_mtls c
  | MTLSPermissive => exists c d, chains = [c; d] /\ requires_mtls c /\ fc_Match c = Some ("tls", ["h2"]) /\ plaintext d
  | _ => exists c, chains = [c] /\ plaintext c
  end.

(** An inbound listener of a workload: its chains are those of the mode in
    effect for its port, and all of them enforce the policies. *)
Definition inbound_ok (node : Proxy) (push : ConfigSnapshot) (l : ListenerMsg) : Prop :=
  exists h port si, ll_Address l = SocketAddress h port /\ targets_by_port node !! port = Some si /\
    chains_for (InboundMTLSModeForProxy (Some push) (Some node) port) (ll_FilterChains l) /\
    Forall (enforces push si) (ll_FilterChains l) /\ ll_ApiListener l = None.

Lemma buildInboundFilterChains_spec c mode :
  plaintext c ->
  chains_for mode (buildInboundFilterChains c mode) /\
  Forall (fun d => fc_Filters d = fc_Filters c) (buildInboundFilterChains c mode).
Proof.
  intros Hp. unfold buildInboundFilterChains. destruct mode; simpl.
  - split; [by exists c|by repeat constructor].
  - split; [by exists c|by repeat constructor].
  - split; [|by repeat constructor]. eexists _, _. split; [done|]. split; [|by split].
    eexists _, _. split; [done|]. split; [done|]. by split.
  - split; [|by repeat constructor]. eexists. split; [done|]. eexists _, _.
    split; [done|]. split; [done|]. by split.
Qed.

Lemma inbound_listener_spec node push name l :
  inbound_listener node push name = Ok (Some l) -> inbound_ok node push l /\ ll_Name l = name.
Proof.
  unfold inbound_listener. intros Hl. destruct (SplitHostPort _) as [[h ps]|]; [|done].
  destruct (Atoi_ok ps); [|done]. cbn [negb] in Hl.
  destruct (targets_by_port node !! _) as [si|] eqn:Es; [|done].
  destruct (st_Service si) as [svc|]; [|done]. injection Hl as <-. split; [|done].
  exists h, (wrap_u32 (Atoi_value ps)), si. cbn [ll_Address ll_FilterChains ll_ApiListener].
  split; [done|]. split; [done|].
  match goal with |- chains_for ?m (buildInboundFilterChains ?c _) /\ _ =>
    destruct (buildInboundFilterChains_spec c m eq_refl) as [Hc Hf] end.
  split; [exact Hc|]. split; [|done]. eapply Forall_impl; [exact Hf|]. intros d Hd.
  eexists. split; [exact Hd|]. done.
Qed.

Lemma buildInboundListeners_elem node push names ls l :
  buildInboundListeners node push names = Ok ls -> l ∈ ls ->
  exists name, name ∈ names /\ inbound_listener node push name = Ok (Some l).
Proof.
  revert ls; induction names as [|name names IH]; intros ls; simpl; [intros [= <-]; set_solver|].
  intros (o & Ho & Hr)%res_bind_ok Hl. apply res_bind_ok in Hr as (rest & Hrest & [= <-]).
  destruct o as [l'|]; [apply elem_of_cons in Hl as [->|Hl]|]; [by exists name; set_solver| |];
    destruct (IH rest Hrest Hl) as (n & ? & ?); exists n; set_solver.
Qed.

Section outbound_lemmas.
Context `{RangeOrder}.

(** An outbound listener refers to the route of the service it was found for. *)
Definition outbound_ok (push : ConfigSnapshot) (l : ListenerMsg) : Prop :=
  ll_FilterChains l = [] /\
  exists hostStr portStr svc port p,
    ll_Name l = hostStr +:+ ":" +:+ portStr /\ find_service push hostStr = Some svc /\
    Atoi_ok portStr = true /\ port = Atoi_value portStr /\
    GetByPort (Service.Ports svc) port = Ok (Some p, true) /\
    ll_ApiListener l = Some (outbound_hcm svc port).

Lemma GetByPort_true ports num r : GetByPort ports num = Ok r -> snd r = true -> exists p, r = (Some p, true).
Proof.
  induction ports as [|[q|] ports IH]; simpl; [by intros [= <-]| |done].
  destruct (_ =? _); [intros [= <-]; eauto|]. auto.
Qed.

Lemma outbound_listener_spec push hostname portInfo l :
  outbound_listener push hostname portInfo = Ok (Some l) -> outbound_ok push l.
Proof.
  unfold outbound_listener.
  destruct (match SplitHostPort portInfo with Some hp => hp | None => (hostname, portInfo) end) as [h ps].
  destruct (Atoi_ok ps) eqn:Ea; [|done]. cbn [negb].
  destruct (find_service push h) as [svc|] eqn:Es; [|done].
  intros (r & Hr & Hl)%res_bind_ok. destruct (snd r) eqn:Ef; [|done]. cbn [negb] in Hl.
  injection Hl as <-. destruct (GetByPort_true _ _ _ Hr Ef) as [p ->].
  split; [done|]. exists h, ps, svc, (Atoi_value ps), p. done.
Qed.

Lemma outbound_listeners_elem push infos ls l :
  outbound_listeners push infos = Ok ls -> l ∈ ls -> outbound_ok push l.
Proof.
  revert ls; induction infos as [|[h p] infos IH]; intros ls; simpl; [intros [= <-]; set_solver|].
  intros (o & Ho & Hr)%res_bind_ok Hl. apply res_bind_ok in Hr as (rest & Hrest & [= <-]).
  destruct o as [l'|]; [apply elem_of_cons in Hl as [->|Hl]|]; eauto using outbound_listener_spec.
Qed.

Lemma BuildListeners_inv node push names ls :
  BuildListeners node push names = Ok ls ->
  exists names' filter outbound inbound,
    names' = (if (length names =? 0)%nat && (0 <? length (Proxy.ServiceTargets node))%nat
              then wildcard_names node else names) /\
    newListenerNameFilter names' node = Ok filter /\ buildOutboundListeners push filter = Ok outbound /\
    buildInboundListeners node push (inboundNames filter) = Ok inbound /\
    ls = if (0 <? length names')%nat
         then List.filter (fun r => bool_decide (ll_Name r ∈ names')) (outbound ++ inbound)
         else outbound ++ inbound.
Proof.
  unfold BuildListeners. intros (filter & Hf & Hr)%res_bind_ok.
  apply res_bind_ok in Hr as (outbound & Ho & Hr). apply res_bind_ok in Hr as (inbound & Hi & [= <-]).
  eexists _, filter, outbound, inbound. done.
Qed.

Lemma BuildListeners_elem node push names ls l :
  BuildListeners node push names = Ok ls -> l ∈ ls ->
  (names <> [] -> ll_Name l ∈ names) /\ (outbound_ok push l \/ inbound_ok node push l).
Proof.
  intros (names' & filter & outbound & inbound & Hn & Hf & Ho & Hi & ->)%BuildListeners_inv Hl.
  assert (Hin : l ∈ outbound ++ inbound /\ (names' <> [] -> ll_Name l ∈ names')).
  { destruct names' as [|n ns]; simpl in Hl; [split; [done|by intros []]|].
    apply list_elem_of_In, filter_In in Hl as [Hl Hb]. apply bool_decide_eq_true in Hb.
    split; [by apply list_elem_of_In|done]. }
  destruct Hin as [Hin Hreq]. split.
  - intros Hne. destruct names as [|n ns]; [done|]. simpl in Hn. subst names'. by apply Hreq.
  - apply elem_of_app in Hin as [Hin|Hin].
    + left. eauto using outbound_listeners_elem.
    + right. destruct (buildInboundListeners_elem _ _ _ _ _ Hi Hin) as (name & _ & Hl').
      by apply inbound_listener_spec in Hl' as [? _].
Qed.

End outbound_lemmas.

(** *** Requests for all listeners *)

Definition inbound_name (port : Z) : string := ServerListenerNamePrefix +:+ "0.0.0.0:" +:+ Itoa port.

Lemma inbound_name_prefix port : HasPrefix (inbound_name port) ServerListenerNamePrefix = true.
Proof. apply prefix_app. Qed.

(** An inbound name is read back as the address it was made from. *)
Lemma inbound_name_parse port :
  in_s64 port ->
  SplitHostPort (TrimPrefix (inbound_name port) ServerListenerNamePrefix) = Some ("0.0.0.0", Itoa port) /\
  Atoi_ok (Itoa port) = true /\ Atoi_value (Itoa port) = port.
Proof.
  intros Hp. split; [|split; [by apply Itoa_ok|by apply Itoa_Atoi]].
  unfold inbound_name. rewrite TrimPrefix_app.
  change ("0.0.0.0:" +:+ Itoa port) with ("0.0.0.0" +:+ ":" +:+ Itoa port).
  apply SplitHostPort_join. cbn [forallb]. rewrite !no_char_Itoa by done. done.
Qed.

Lemma filter_inbound_names node names m :
  Forall (fun n => HasPrefix n ServerListenerNamePrefix = true) names ->
  filter_listener_names node m names
  = Ok (fold_left (fun m n => <[n := mkListenerName {[n]} None]> m) names m).
Proof.
  intros Hn; revert m; induction Hn as [|n names Hp Hn IH]; intros m; simpl; [done|].
  unfold filter_listener_name. rewrite Hp. simpl. apply IH.
Qed.

Lemma fold_insert_dom names (m : gmap string listenerName) k :
  is_Some (fold_left (fun m n => <[n := mkListenerName {[n]} None]> m) names m !! k) <->
  k ∈ names \/ is_Some (m !! k).
Proof.
  revert m; induction names as [|n names IH]; intros m; simpl; [set_solver|].
  rewrite IH, lookup_insert. case_decide; subst; rewrite elem_of_cons; [naive_solver|naive_solver].
Qed.

Lemma filter_true_iff {A} (p : A -> bool) l : (forall x, x ∈ l -> p x = true) -> List.filter p l = l.
Proof.
  induction l as [|x l IH]; intros Hp; simpl; [done|]. rewrite (Hp x) by set_solver.
  f_equal. apply IH. set_solver.
Qed.

Section wildcard.
Context `{RangeOrder}.

Lemma range_keys {V} (m : gmap string V) k : k ∈ map fst (range m) <-> is_Some (m !! k).
Proof.
  rewrite list_elem_of_fmap. split.
  - intros ([k' v] & -> & Hin). apply elem_of_range in Hin. simpl. eauto.
  - intros [v Hv]. exists (k, v). by rewrite elem_of_range.
Qed.

Lemma inboundNames_elem (f : gmap string listenerName) k :
  k ∈ inboundNames f <-> is_Some (f !! k) /\ HasPrefix k ServerListenerNamePrefix = true.
Proof.
  unfold inboundNames. rewrite list_elem_of_In, filter_In, <- list_elem_of_In, range_keys. done.
Qed.

Lemma inboundNames_NoDup (f : gmap string listenerName) : NoDup (inboundNames f).
Proof.
  unfold inboundNames. apply NoDup_ListNoDup, List.NoDup_filter, NoDup_ListNoDup, NoDup_range_fst.
Qed.

Lemma outbound_infos_inbound (f : gmap string listenerName) :
  (forall k, is_Some (f !! k) -> HasPrefix k ServerListenerNamePrefix = true) -> outbound_infos f = [].
Proof.
  intros Hk. unfold outbound_infos.
  assert (Hl : forall l : list (string * listenerName),
    Forall (fun e => HasPrefix (fst e) ServerListenerNamePrefix = true) l ->
    omap (fun '(name, ln) =>
      if HasPrefix name ServerListenerNamePrefix then None
      else if (0 <? nset_len (ln_Ports ln))%nat then Some (name, GoSet.UnsortedList (ln_Ports ln))
      else match SplitHostPort name with Some _ => Some (name, [name]) | None => None end) l = []).
  { induction 1 as [|[k v] l Hx _ IH]; simpl in *; [done|]. by rewrite Hx. }
  apply Hl, Forall_forall. intros [k v] Hin. apply Hk. apply elem_of_range in Hin. simpl. eauto.
Qed.

(** A workload whose service targets are complete. *)
Definition targets_ok (node : Proxy) : Prop :=
  Forall (fun st => is_Some (st_Service st) /\ is_Some (st_ServicePort st) /\ 0 <= st_TargetPort st < two32)
    (Proxy.ServiceTargets node).

Lemma targets_by_port_ok node port :
  targets_ok node -> (exists st, st ∈ Proxy.ServiceTargets node /\ st_TargetPort st = port) ->
  exists si, targets_by_port node !! port = Some si /\ is_Some (st_Service si).
Proof.
  unfold targets_ok, targets_by_port. intros Hok (st & Hin & Hpt).
  assert (Hgen : forall l (m : gmap Z ServiceTarget),
    Forall (fun st => is_Some (st_Service st) /\ is_Some (st_ServicePort st) /\ 0 <= st_TargetPort st < two32) l ->
    (forall si, m !! port = Some si -> is_Some (st_Service si)) ->
    is_Some (m !! port) \/ (exists st, st ∈ l /\ st_TargetPort st = port) ->
    exists si, fold_left (fun m si => match st_ServicePort si with
      | Some _ => <[st_TargetPort si := si]> m | None => m end) l m !! port = Some si /\ is_Some (st_Service si)).
  { induction l as [|s l IH]; intros m Hl Hm Hor; simpl.
    { destruct Hor as [[si Hs]|(? & ? & _)]; [eauto|set_solver]. }
    apply Forall_cons in Hl as ((Hs1 & Hs2 & _) & Hl). destruct (st_ServicePort s) as [p|]; [|by destruct Hs2].
    apply IH; [done| |].
    - intros si. rewrite lookup_insert. case_decide; [intros [= <-]; done|apply Hm].
    - rewrite lookup_insert. case_decide as Hd; [left; eauto|].
      destruct Hor as [?|(s' & [->|Hs']%elem_of_cons & ?)]; [by left|done|right; eauto]. }
  apply Hgen; [done| |right; eauto]. intros si. by rewrite lookup_empty.
Qed.

Lemma inbound_listener_found node push port :
  targets_ok node -> 0 <= port < two32 -> (exists st, st ∈ Proxy.ServiceTargets node /\ st_TargetPort st = port) ->
  exists l, inbound_listener node push (inbound_name port) = Ok (Some l) /\ ll_Name l = inbound_name port.
Proof.
  intros Hok Hr Hex. unfold inbound_listener.
  destruct (inbound_name_parse port) as (-> & -> & ->). { unfold in_s64, two63, two32 in *. lia. }
  cbn [negb]. rewrite wrap_u32_id by done.
  destruct (targets_by_port_ok node port Hok Hex) as (si & -> & [svc ->]). by eexists.
Qed.

Lemma buildInboundListeners_all node push names :
  (forall n, n ∈ names -> exists l, inbound_listener node push n = Ok (Some l) /\ ll_Name l = n) ->
  exists ls, buildInboundListeners node push names = Ok ls /\ map ll_Name ls = names.
Proof.
  induction names as [|n names IH]; intros Hn; simpl; [by exists []|].
  destruct (Hn n) as (l & -> & Hl); [set_solver|]. destruct IH as (ls & -> & Hls); [set_solver|].
  simpl. exists (l :: ls). simpl. by rewrite Hl, Hls.
Qed.

Lemma wildcard_names_elem node name :
  targets_ok node ->
  name ∈ wildcard_names node <-> exists st, st ∈ Proxy.ServiceTargets node /\ name = inbound_name (st_TargetPort st).
Proof.
  intros Hok. unfold targets_ok in Hok. rewrite Forall_forall in Hok.
  unfold wildcard_names. rewrite list_elem_of_omap. split.
  - intros (st & Hin & Hs). destruct (st_Service st), (st_ServicePort st); simplify_eq. eauto.
  - intros (st & Hin & ->). exists st. split; [done|].
    destruct (Hok st Hin) as ([s ->] & [p ->] & _). done.
Qed.

End wildcard.

(** *** The mode of an inbound listener *)

(** The namespace whose policies apply to a proxy. *)
Definition policy_namespace (node : Proxy) : string :=
  let ns := match Proxy.Metadata node with Some m => meta_Namespace m | None => "" end in
  if String.eqb ns "" then Proxy.ConfigNamespace node else ns.

Lemma inbound_mode_without_labels node push root peers port :
  policies_from (AuthenticationPolicies_ push) root peers -> ports_need_selector peers ->
  InboundMTLSModeForProxy (Some push) (Some node) port
  = unselected_mode (sortConfigByCreationTime peers) root (policy_namespace node).
Proof.
  intros Hf Hp. rewrite <- (mode_without_labels _ root peers (policy_namespace node) port Hf Hp).
  unfold InboundMTLSModeForProxy, policy_namespace. by destruct (AuthenticationPolicies_ push).
Qed.

(** ** Properties *)

(** C9 Only listeners that were asked for are sent, and each is one of two
    kinds: an outbound API listener for a port of a known service, or an inbound
    listener whose filter chains are those of the mutual TLS mode the snapshot
    resolves for the proxy's namespace without labels.  Under STRICT there is a
    single chain and it requires a client certificate of the mesh; under
    PERMISSIVE such a chain is tried first; and every chain runs the
    authentication and authorization filters.  For policies as the resource
    definition admits them (port-level modes only beside a selector) that mode is
    the one of the oldest selector-less policy of the namespace, and failing that
    of the root namespace.  The code passes no labels, so a policy that selects
    workloads, and with it every port-level mode, changes no listener (a finding,
    [selected_strict_listens_in_plain_text]). *)
Theorem listeners_follow_mtls_mode `{RangeOrder} node push names ls l :
  BuildListeners node push names = Ok ls -> l ∈ ls ->
  (names <> [] -> ll_Name l ∈ names) /\ (outbound_ok push l \/ inbound_ok node push l) /\
  (forall root peers port, policies_from (AuthenticationPolicies_ push) root peers -> ports_need_selector peers ->
     InboundMTLSModeForProxy (Some push) (Some node) port
     = unselected_mode (sortConfigByCreationTime peers) root (policy_namespace node)).
Proof.
  intros Hb Hl. destruct (BuildListeners_elem node push names ls l Hb Hl) as [Hn Hk]. split; [done|].
  split; [done|]. intros root peers port. apply inbound_mode_without_labels.
Qed.

(** A request without names gets exactly one inbound listener for each port
    the workload's services listen on: the names made for the ports are parsed
    back, none is lost and none is sent twice. *)
Theorem wildcard_listeners_complete `{RangeOrder} node push :
  targets_ok node -> Proxy.ServiceTargets node <> [] ->
  exists ls, BuildListeners node push [] = Ok ls /\ NoDup (map ll_Name ls) /\
  forall name, name ∈ map ll_Name ls <->
    exists st, st ∈ Proxy.ServiceTargets node /\ name = inbound_name (st_TargetPort st).
Proof.
  intros Hok Hne. unfold BuildListeners.
  assert (Hlen : (0 <? length (Proxy.ServiceTargets node))%nat = true) by (by destruct (Proxy.ServiceTargets node)).
  rewrite Hlen. cbn [length Nat.eqb andb].
  assert (Hpre : Forall (fun n => HasPrefix n ServerListenerNamePrefix = true) (wildcard_names node)).
  { apply Forall_forall. intros n (st & _ & ->)%wildcard_names_elem; [|done]. apply inbound_name_prefix. }
  unfold newListenerNameFilter. rewrite filter_inbound_names by done. cbn [mbind res_bind].
  set (f := fold_left _ (wildcard_names node) ∅).
  assert (Hdom : forall k, is_Some (f !! k) <-> k ∈ wildcard_names node).
  { intros k. unfold f. rewrite fold_insert_dom, lookup_empty. naive_solver. }
  rewrite Forall_forall in Hpre. unfold buildOutboundListeners.
  rewrite outbound_infos_inbound by (intros k Hk; apply Hpre, Hdom, Hk). cbn [map concat outbound_listeners].
  destruct (buildInboundListeners_all node push (inboundNames f)) as (ls & -> & Hls).
  { intros n [Hn _]%inboundNames_elem. apply Hdom, wildcard_names_elem in Hn as (st & Hin & ->); [|done].
    apply inbound_listener_found; [done| |eauto]. unfold targets_ok in Hok. rewrite Forall_forall in Hok.
    by apply Hok. }
  cbn [mbind res_bind app].
  assert (Hall : forall n, n ∈ map ll_Name ls <-> n ∈ wildcard_names node).
  { intros n. rewrite Hls, inboundNames_elem, Hdom. split; [by intros [? _]|]. auto. }
  assert (Hfilter : List.filter (fun r => bool_decide (ll_Name r ∈ wildcard_names node)) ls = ls).
  { apply filter_true_iff. intros r Hr. apply bool_decide_eq_true, Hall, list_elem_of_fmap. eauto. }
  exists ls. split; [rewrite Hfilter; by case_match|]. split; [rewrite Hls; apply inboundNames_NoDup|].
  intros name. rewrite Hall. by apply wildcard_names_elem.
Qed.

(** When a host name is not known, the last resort takes any service whose name
    begins with the first label: a listener for one namespace's service can
    route to another namespace's. *)
Theorem listener_fallback_crosses_namespaces :
  let svc := sample_service "demo" "b" Kubernetes 1 None ClientSideLB "" in
  let si := mkServiceIndex ∅ [svc] ∅ ({["demo.b" := {["b" := svc]}]}) ∅ in
  let push := mkSnapshot None true None ∅ si None None None ∅ None in
  @find_service key_order push "demo.a" = Some svc.
Proof. vm_compute. reflexivity. Qed.

(** *** Witnesses *)

Definition sample_target : ServiceTarget :=
  mkServiceTarget (Some (sample_service "demo" "a" Kubernetes 2 None ClientSideLB ""))
    (Some (Port.mk "dubbo" 20880 protocol.GRPC)) 20880.

Definition sample_workload : Proxy :=
  Proxy.mk None time_zero Inherent None "demo-1.a" "a.svc.cluster.local" (Some (mkMeta "grpc" "" "a"))
    [] "a" [sample_target].

Definition sample_listeners : list ListenerMsg :=
  from_ok [] (@BuildListeners key_order sample_workload strict_push ["demo.a:20880"; inbound_name 20880]).

(** One outbound and one inbound listener, the latter with a single chain. *)
Example sample_listener_names :
  map (fun l => (ll_Name l, length (ll_FilterChains l))) sample_listeners
  = [("demo.a:20880", 0%nat); (inbound_name 20880, 1%nat)].
Proof. vm_compute. reflexivity. Qed.

(** The inbound listener of a workload that a policy makes STRICT has one chain,
    and it does not ask for TLS, although the mode resolved with the workload's
    labels is STRICT. *)
Example selected_strict_listens_in_plain_text :
  EffectiveMutualTLSMode (AuthenticationPolicies_ (push_with selecting_peers)) "a" (Some {["app" := "demo"]}) 20880
    = MTLSStrict /\
  map (fun l => map fc_TransportSocket (ll_FilterChains l))
    (from_ok [] (@BuildListeners key_order sample_workload (push_with selecting_peers) [inbound_name 20880]))
  = [[None]].
Proof. vm_compute. done. Qed.

Lemma listeners_follow_mtls_mode_witness :
  exists l, last sample_listeners = Some l /\
    (@outbound_ok key_order strict_push l \/ inbound_ok sample_workload strict_push l) /\
    InboundMTLSModeForProxy (Some strict_push) (Some sample_workload) 20880
    = unselected_mode (sortConfigByCreationTime strict_peers) "root" (policy_namespace sample_workload).
Proof.
  destruct (last sample_listeners) as [l|] eqn:E.
  - exists l. split; [reflexivity|].
    destruct (@listeners_follow_mtls_mode key_order sample_workload strict_push ["demo.a:20880"; inbound_name 20880]
             sample_listeners l) as (_ & Hk & Hm).
    + apply is_ok_from_ok. vm_compute. reflexivity.
    + apply last_Some_elem_of. exact E.
    + split; [exact Hk|]. exact (Hm "root" strict_peers 20880 strict_policies strict_peers_ports).
  - assert (Hn : match last sample_listeners with Some _ => true | None => false end = true)
      by (vm_compute; reflexivity). rewrite E in Hn. discriminate.
Defined.

Lemma wildcard_listeners_complete_witness :
  exists ls, @BuildListeners key_order sample_workload strict_push [] = Ok ls /\ NoDup (map ll_Name ls).
Proof.
  destruct (@wildcard_listeners_complete key_order sample_workload strict_push) as (ls & E & Hnd & _).
  - unfold targets_ok, sample_workload, sample_target. cbn [Proxy.ServiceTargets]. apply Forall_singleton.
    split; [eexists; reflexivity|]. split; [eexists; reflexivity|]. cbn. unfold two32. lia.
  - discriminate.
  - exists ls. split; [exact E|exact Hnd].
Defined.
