(* ===== verification/GrpcGen.v ===== *)
(** * The gRPC generator

    [dubbod/discovery/pkg/networking/grpcgen/grpcgen.go]: clusters, listeners and
    routes for a watched type, in full or as a delta, and what holds between
    them: a listener refers to a route, the route to a cluster. *)

From S2P Require Import Prelude GoStrings GoSets GoSort Hosts GoNet ConfigKeys PushRequest Service Watch XdsProtocol EndpointShards EndpointBuilder Eds ServiceIndex Authentication PolicyIndex Ads XdsGen ConfigSnapshot SecurityFilters GrpcRoutes GrpcClusters GrpcListeners.

(** ** Messages and their encoding *)

Inductive grpc_message : Type :=
  | MsgListener (l : ListenerMsg)
  | MsgCluster (c : ClusterMsg)
  | MsgRoute (rc : RouteConfiguration).

Section generate.
Context `{Libraries, RangeOrder} (MessageToAny : grpc_message -> Any) (DefaultLoadBalancerPolicy : string).
(** [req.Push], which holds the snapshot. *)
Context (push : ConfigSnapshot).

Definition listener_resources (ls : list ListenerMsg) : Resources :=
  map (fun l => mkResource (ll_Name l) (MessageToAny (MsgListener l))) ls.
Definition cluster_resources (cs : list ClusterMsg) : Resources :=
  map (fun c => mkResource (cm_Name c) (MessageToAny (MsgCluster c))) cs.
(** The name asked for is the name of the resource. *)
Fixpoint BuildHTTPRoutes (routeNames : list string) : res Resources :=
  match routeNames with
  | [] => Ok []
  | routeName :: routeNames =>
      rc ← buildHTTPRoute push routeName;
      rest ← BuildHTTPRoutes routeNames;
      Ok (match rc with
          | Some rc => mkResource routeName (MessageToAny (MsgRoute rc)) :: rest
          | None => rest
          end)
  end.

(** A nil watch is dereferenced. *)
Definition Generate (proxy : Proxy) (w : option WatchedResource) : res (option Resources * XdsLogDetails) :=
  match w with
  | None => Panic "nil pointer dereference"
  | Some w =>
      let requestedNames := GoSet.UnsortedList (ResourceNames w) in
      if String.eqb (TypeUrl w) ListenerType then
        ls ← BuildListeners proxy push requestedNames;
        Ok (Some (listener_resources ls), DefaultXdsLogDetails)
      else if String.eqb (TypeUrl w) ClusterType then
        cs ← BuildClusters DefaultLoadBalancerPolicy push requestedNames;
        Ok (Some (cluster_resources cs), DefaultXdsLogDetails)
      else if String.eqb (TypeUrl w) RouteType then
        rs ← BuildHTTPRoutes requestedNames;
        Ok (Some rs, DefaultXdsLogDetails)
      else Ok (None, DefaultXdsLogDetails)
  end.

Definition grpcCanUseDeltaClusters (req : option PushRequest) : bool :=
  match req with
  | None => false
  | Some req =>
      if Forced req || (nset_len (ConfigsUpdated req) =? 0)%nat then false
      else forallb (fun cfg => bool_decide (ConfigKey.Kind cfg = kind.Service)
                               && negb (String.eqb (ConfigKey.Name cfg) ""))
             (GoSet.UnsortedList (ConfigsUpdated req))
  end.

Definition grpcDeltaClusterNames (w : WatchedResource) (req : PushRequest) : gset string :=
  let updatedServices : gset string :=
    fold_left (fun s cfg => {[ConfigKey.Name cfg]} ∪ s) (GoSet.UnsortedList (ConfigsUpdated req)) ∅ in
  fold_left (fun changed clusterName =>
    if bool_decide (ParseSubsetKeyHostname clusterName ∈ updatedServices)
    then {[clusterName]} ∪ changed else changed) (GoSet.UnsortedList (ResourceNames w)) ∅.

(** Resources, removed names, details, whether it is a delta. *)
Definition GenerateDeltas (proxy : Proxy) (req : option PushRequest) (w : option WatchedResource)
  : res (option Resources * list string * XdsLogDetails * bool) :=
  match w with
  | None => Ok (None, [], DefaultXdsLogDetails, false)
  | Some w =>
      if negb (String.eqb (TypeUrl w) ClusterType) || negb (grpcCanUseDeltaClusters req) then
        r ← Generate proxy (Some w);
        Ok (fst r, [], snd r, false)
      else match req with
      | None => Panic "nil pointer dereference"
      | Some req =>
          let changedNames := grpcDeltaClusterNames w req in
          if (size changedNames =? 0)%nat then Ok (None, [], DefaultXdsLogDetails, true) else
          cs ← BuildClusters DefaultLoadBalancerPolicy push (SortedList (Some changedNames));
          let resources := cluster_resources cs in
          let built : gset string := list_to_set (map res_Name resources) in
          Ok (Some resources, SortedList (Some (changedNames ∖ built)),
              mkLog true (AdditionalInfo DefaultXdsLogDetails), true)
      end
  end.

End generate.

(** ** Lemmas *)

Lemma grpcDeltaClusterNames_elem w req name :
  name ∈ grpcDeltaClusterNames w req <->
  name ∈ nset_elems (ResourceNames w) /\
  exists cfg, cfg ∈ nset_elems (ConfigsUpdated req) /\ ConfigKey.Name cfg = ParseSubsetKeyHostname name.
Proof.
  unfold grpcDeltaClusterNames.
  set (updated := fold_left _ (GoSet.UnsortedList (ConfigsUpdated req)) ∅).
  assert (Hu : forall x, x ∈ updated <-> exists cfg, cfg ∈ nset_elems (ConfigsUpdated req) /\ ConfigKey.Name cfg = x).
  { intros x. setoid_rewrite <- GoSet.UnsortedList_elem. unfold updated.
    generalize (GoSet.UnsortedList (ConfigsUpdated req)) as l. intros l.
    assert (Hg : forall s : gset string, x ∈ fold_left (fun s cfg => {[ConfigKey.Name cfg]} ∪ s) l s <->
      x ∈ s \/ exists cfg, cfg ∈ l /\ ConfigKey.Name cfg = x).
    { induction l as [|c l IH]; intros s; simpl; [set_solver|]. rewrite IH. set_solver. }
    rewrite Hg. set_solver. }
  setoid_rewrite <- Hu. rewrite <- GoSet.UnsortedList_elem.
  generalize (GoSet.UnsortedList (ResourceNames w)) as l. intros l.
  assert (Hg : forall s : gset string, name ∈ fold_left (fun changed clusterName =>
      if bool_decide (ParseSubsetKeyHostname clusterName ∈ updated) then {[clusterName]} ∪ changed else changed) l s
    <-> name ∈ s \/ (name ∈ l /\ ParseSubsetKeyHostname name ∈ updated)).
  { induction l as [|c l IH]; intros s; simpl; [set_solver|]. rewrite IH.
    case_bool_decide; set_solver. }
  rewrite Hg. set_solver.
Qed.

Lemma SortedList_elem (s : gset string) x : x ∈ SortedList (Some s) <-> x ∈ s.
Proof. unfold SortedList, sort_strings. rewrite elem_of_sort. apply GoSet.UnsortedList_elem. Qed.

(** *** Services of a snapshot *)

Lemma preferred_None hn ns l s : preferred hn ns l = None -> s ∈ l -> named hn ns s = false.
Proof.
  unfold preferred. destruct (List.find _ l); [done|]. intros Hn Hs.
  apply (List.find_none _ _ Hn). by apply list_elem_of_In.
Qed.

Lemma named_self s : named (Service.Hostname s) (namespace_of s) s = true.
Proof. unfold named. by rewrite !String.eqb_refl. Qed.

Section snapshot_services.
Context `{Libraries, RangeOrder} {C : Type} (md5hex : string -> string) (env : ModelEnv C) (s : ConfigSnapshot)
        (Hfull : full_snapshot md5hex env = Ok s).

Definition all_services : list Service := fst (registry_services (env_Services env) None).

Lemma snapshot_index :
  index_services (env_EndpointIndex env) (initDefaultExportMaps (env_Mesh env)) newServiceIndex
    all_services = Ok (ServiceIndex_ s).
Proof.
  apply full_snapshot_Ok in Hfull as (reg & auth & Hreg & _ & ->). cbn [ServiceIndex_].
  unfold registry_of in Hreg. apply res_bind_ok in Hreg as (r & Hr & [= <-]).
  by apply initServiceRegistry_Ok in Hr.
Qed.

(** Lookups may walk the maps in another order than the building of the snapshot. *)
Context (ask : RangeOrder).

(** Every service of the registries is found by its host name. *)
Lemma snapshot_known svc :
  svc ∈ all_services -> exists svc', @ServiceForHostname ask (ServiceIndex_ s) (Service.Hostname svc) = Some svc'.
Proof.
  intros Hin. destruct (indexed (ServiceIndex_ s) (Service.Hostname svc) (namespace_of svc)) as [x|] eqn:E.
  - pose proof (@ServiceForHostname_None ask _ _ _ _ E). destruct (@ServiceForHostname ask _ _); eauto. done.
  - rewrite (index_services_indexed _ _ _ _ _ _ _ snapshot_index) in E.
    change (indexed newServiceIndex _ _) with (@None Service) in E. rewrite fold_prefer_preferred in E.
    pose proof (preferred_None _ _ _ _ E Hin) as Hn. by rewrite named_self in Hn.
Qed.

Lemma snapshot_sees ns svc : sees (ServiceIndex_ s) ns svc -> svc ∈ all_services.
Proof.
  intros Hs. apply (index_services_sees _ _ _ _ _ _ _ snapshot_index) in Hs as [Hs|[? _]]; [|done].
  unfold sees in Hs. simpl in Hs. rewrite !lookup_empty in Hs. set_solver.
Qed.

Lemma GetAllServices_elem svc : svc ∈ @GetAllServices ask (ServiceIndex_ s) -> svc ∈ all_services.
Proof.
  unfold GetAllServices, servicesExportedToNamespace. rewrite elem_of_app. intros [Hin|Hin].
  - simpl in Hin. rewrite list_elem_of_In, in_concat in Hin. destruct Hin as (l & Hl & Hin).
    apply in_map_iff in Hl as ([ns l'] & <- & Hr). apply list_elem_of_In, elem_of_range in Hr.
    apply (snapshot_sees ns). left. rewrite Hr. by apply list_elem_of_In.
  - apply (snapshot_sees ""). by right; right.
Qed.

Lemma find_service_elem h svc : @find_service ask s h = Some svc -> svc ∈ all_services.
Proof.
  unfold find_service. destruct (@ServiceForHostname ask (ServiceIndex_ s) h) as [s0|] eqn:E0.
  { intros [= ->]. by apply (snapshot_service md5hex env s Hfull ask h) in E0 as [? _]. }
  set (short := match Split h "." with p :: _ => p | [] => "" end).
  destruct (if negb (String.eqb short "") then _ else _) as [s1|] eqn:E1.
  { intros [= ->]. destruct (negb (String.eqb short "")); [|done].
    by apply (snapshot_service md5hex env s Hfull ask short) in E1 as [? _]. }
  intros [Hin _]%find_some. apply list_elem_of_In in Hin. by apply GetAllServices_elem.
Qed.

End snapshot_services.

Lemma singleton_of {A} (x : A) l : NoDup l -> (forall y, y ∈ l <-> y = x) -> l = [x].
Proof.
  intros Hnd Hl. destruct l as [|a l].
  { pose proof (proj2 (Hl x) eq_refl) as Hx. by apply elem_of_nil in Hx. }
  assert (a = x) as -> by (apply Hl; set_solver). apply NoDup_cons in Hnd as [Hx _].
  destruct l as [|b l]; [done|]. assert (b = x) as -> by (apply Hl; set_solver). set_solver.
Qed.

Lemma Atoi_value_s64 s : in_s64 (Atoi_value s).
Proof.
  assert (Hc : forall z, in_s64 (clamp_s64 z)) by (intros z; unfold in_s64, clamp_s64, two63; lia).
  assert (H0 : in_s64 0) by (unfold in_s64, two63; lia).
  unfold Atoi_value. repeat case_match; auto.
Qed.

(** *** From listeners to routes and clusters *)

(** Names and ports of services as Kubernetes admits them; services of one host
    name, in several namespaces or registries, have the same ports. *)
Record services_ok (l : list Service) : Prop := {
  so_ports : Forall ports_ok l;
  so_names : forall svc, svc ∈ l -> Service.Hostname svc <> "" /\ no_char "|" (Service.Hostname svc) = true;
  so_nonzero : forall svc p, svc ∈ l -> Some p ∈ Service.Ports svc -> Port.Number p <> 0;
  so_hosts : forall s1 s2, s1 ∈ l -> s2 ∈ l -> Service.Hostname s1 = Service.Hostname s2 ->
    Service.Ports s1 = Service.Ports s2
}.

Section closure.
Context `{Libraries, RangeOrder} {C : Type} (md5hex : string -> string) (env : ModelEnv C) (s : ConfigSnapshot)
        (lb : string) (Hfull : full_snapshot md5hex env = Ok s) (Hok : services_ok (all_services env))
        (ask ask' : RangeOrder).

Lemma snapshot_services_ports : @services_ports_ok ask s.
Proof.
  intros hn svc Hsvc. destruct (snapshot_service md5hex env s Hfull ask hn svc Hsvc) as [Hin _].
  pose proof (so_ports _ Hok) as Hp. rewrite Forall_forall in Hp. by apply Hp.
Qed.

(** The route an API listener refers to resolves to a service with the port, also
    when the second lookup walks the maps in another order. *)
Lemma rds_name_resolves node names ls l hcm rn :
  @BuildListeners ask node s names = Ok ls -> l ∈ ls -> ll_ApiListener l = Some hcm -> hcm_Route hcm = Hcm_Rds rn ->
  exists hn port svc, rn = BuildSubsetKey TrafficDirectionOutbound "" hn port /\
    ParseSubsetKey rn = (TrafficDirectionOutbound, "", hn, port) /\ hn <> "" /\ port <> 0 /\
    @ServiceForHostname ask' (ServiceIndex_ s) hn = Some svc /\
    exists p, GetByPort (Service.Ports svc) port = Ok (Some p, true).
Proof.
  intros Hb Hl Ha Hr. destruct (BuildListeners_elem _ _ _ _ _ Hb Hl) as [_ [Ho|Hi]].
  2:{ destruct Hi as (? & ? & ? & _ & _ & _ & _ & E). congruence. }
  destruct Ho as [_ (hostStr & portStr & svc & port & p & _ & Hf & _ & -> & Hg & Hapi)].
  rewrite Hapi in Ha. injection Ha as <-. injection Hr as <-.
  pose proof (find_service_elem md5hex env s Hfull ask _ _ Hf) as Hin.
  destruct (so_names _ Hok svc Hin) as [Hne Hbar].
  destruct (snapshot_known md5hex env s Hfull ask' svc Hin) as [svc' Hs'].
  destruct (snapshot_service md5hex env s Hfull ask' _ svc' Hs') as [Hin' Hh'].
  exists (Service.Hostname svc), (Atoi_value portStr), svc'. split; [done|].
  split; [apply ParseSubsetKey_Build; [by right|done|done|apply Atoi_value_s64]|].
  split; [done|]. split.
  { destruct (GetByPort_found _ _ _ _ Hg) as (_ & Hp & <-). by apply (so_nonzero _ Hok svc p). }
  split; [done|]. exists p. by rewrite (so_hosts _ Hok svc' svc Hin' Hin Hh').
Qed.

End closure.

(** *** Names the server reads from listeners *)

(** Decoding what was encoded gives the fields back: the documented behaviour of
    protobuf. *)
Class Codec (MessageToAny : grpc_message -> Any) (EncodeHCM : HttpConnectionManager -> Any)
    (UnmarshalListener : Any -> option Listener) (UnmarshalHCM : Any -> option RouteSpecifier) : Prop := {
  decode_listener l : UnmarshalListener (MessageToAny (MsgListener l))
    = Some (mkListener
        (map (fun c => map (fun '(n, h) => mkFilter n (Some (EncodeHCM h))) (fc_Filters c)) (ll_FilterChains l))
        (EncodeHCM <$> ll_ApiListener l));
  decode_hcm h : UnmarshalHCM (EncodeHCM h)
    = Some (match hcm_Route h with Hcm_Rds n => Rds (Some n) | Hcm_RouteConfig _ => RouteOther end)
}.

Section extraction_lemmas.
Context `{RangeOrder} {MessageToAny EncodeHCM UL UH} `{!Codec MessageToAny EncodeHCM UL UH}.

Lemma insert_opt_elem o (st : gset string) x : x ∈ insert_opt o st <-> x ∈ st \/ o = Some x.
Proof. destruct o; simpl; set_solver. Qed.

Lemma filters_add_nothing (fs : list Filter) st :
  Forall (fun f => filter_Name f = HTTPConnectionManagerName) fs ->
  fold_left (fun s f => insert_opt (filter_route UH f) s) fs st = st.
Proof.
  induction 1 as [|f fs Hf _ IH]; simpl; [done|]. unfold filter_route at 2. rewrite Hf. simpl. apply IH.
Qed.

(** The route name of the API listener of a message. *)
Definition api_route (l : ListenerMsg) : option string :=
  match ll_ApiListener l with
  | Some hcm => match hcm_Route hcm with
                | Hcm_Rds n => if String.eqb n "" then None else Some n
                | Hcm_RouteConfig _ => None
                end
  | None => None
  end.

Lemma listener_routes_elem l st x :
  Forall (fun c => Forall (fun e => fst e = HTTPConnectionManagerName) (fc_Filters c)) (ll_FilterChains l) ->
  x ∈ listener_routes UL UH st (mkResource (ll_Name l) (MessageToAny (MsgListener l))) <->
  x ∈ st \/ api_route l = Some x \/ outbound_name (ll_Name l) = Some x.
Proof.
  intros Hf. unfold listener_routes. cbn [res_Resource res_Name].
  rewrite decode_listener. cbn [FilterChains ApiListener].
  rewrite filters_add_nothing.
  2:{ apply Forall_concat, Forall_map. eapply Forall_impl; [exact Hf|]. intros c Hc. simpl.
      apply Forall_map. eapply Forall_impl; [exact Hc|]. by intros [n h]. }
  unfold api_route. destruct (ll_ApiListener l) as [hcm|]; cbn [fmap option_fmap option_map].
  - rewrite decode_hcm, !insert_opt_elem. unfold rds_name.
    destruct (hcm_Route hcm) as [rc|n]; [naive_solver|]. destruct (String.eqb n ""); naive_solver.
  - rewrite insert_opt_elem. naive_solver.
Qed.

Lemma extractRouteNames_elem ls x :
  (forall l, l ∈ ls -> Forall (fun c => Forall (fun e => fst e = HTTPConnectionManagerName) (fc_Filters c))
     (ll_FilterChains l)) ->
  x ∈ extractRouteNamesFromLDS UL UH (listener_resources MessageToAny ls) <->
  exists l, l ∈ ls /\ (api_route l = Some x \/ outbound_name (ll_Name l) = Some x).
Proof.
  intros Hf. unfold extractRouteNamesFromLDS, listener_resources. rewrite elem_of_elements.
  assert (Hg : forall st : gset string, x ∈ fold_left (listener_routes UL UH)
      (map (fun l => mkResource (ll_Name l) (MessageToAny (MsgListener l))) ls) st <->
    x ∈ st \/ exists l, l ∈ ls /\ (api_route l = Some x \/ outbound_name (ll_Name l) = Some x)).
  { induction ls as [|l ls IH]; intros st; cbn [map fold_left]; [set_solver|].
    rewrite IH by set_solver. rewrite listener_routes_elem by (apply Hf; set_solver).
    setoid_rewrite elem_of_cons. naive_solver. }
  rewrite Hg. set_solver.
Qed.

End extraction_lemmas.

(** ** Properties *)

(** A delta of clusters tells the client exactly what changed: every watched
    cluster of an updated service is either sent, when the name has a cluster,
    or reported as removed, and never both; clusters of other services are not
    mentioned. *)
Theorem delta_clusters_spec `{Libraries, RangeOrder} MessageToAny lb push proxy req w :
  services_ports_ok push -> TypeUrl w = ClusterType -> grpcCanUseDeltaClusters (Some req) = true ->
  exists resources removed details,
    GenerateDeltas MessageToAny lb push proxy (Some req) (Some w) = Ok (resources, removed, details, true) /\
    forall name,
      let changed := name ∈ nset_elems (ResourceNames w) /\
        exists cfg, cfg ∈ nset_elems (ConfigsUpdated req) /\ ConfigKey.Name cfg = ParseSubsetKeyHostname name in
      let exists_ := default_key name = name /\ exists svc port, resolvable push name svc port in
      (name ∈ map res_Name (default [] resources) <-> changed /\ exists_) /\
      (name ∈ removed <-> changed /\ ~ exists_).
Proof.
  intros Hok Ht Hd. unfold GenerateDeltas. rewrite Ht, String.eqb_refl, Hd. cbn [negb orb].
  destruct (Nat.eqb_spec (size (grpcDeltaClusterNames w req)) 0) as [Hz|Hz].
  { apply size_empty_iff_L in Hz. eexists _, _, _. split; [done|]. intros name. cbn [default map].
    rewrite <- grpcDeltaClusterNames_elem, Hz. set_solver. }
  destruct (BuildClusters_elem lb push (SortedList (Some (grpcDeltaClusterNames w req))) Hok)
    as (cs & -> & _ & Hc). cbn [mbind res_bind].
  eexists _, _, _. split; [done|]. intros name. cbn [default]. change (id ?x) with x.
  assert (Hm : map res_Name (cluster_resources MessageToAny cs) = map cm_Name cs).
  { unfold cluster_resources. rewrite map_map. done. }
  assert (Hb : name ∈ map cm_Name cs <->
      name ∈ grpcDeltaClusterNames w req /\ default_key name = name /\ exists svc port, resolvable push name svc port).
  { rewrite Hc. setoid_rewrite SortedList_elem. naive_solver. }
  rewrite Hm, SortedList_elem, elem_of_difference, elem_of_list_to_set, Hb, grpcDeltaClusterNames_elem.
  cbv zeta. clear. tauto.
Qed.

(** C3 A client that follows the references arrives: for every API listener the
    server sends, the route it names has a configuration, and the cluster of that
    name is generated too, so that the default route of the service has where to
    go, whatever the orders in which the three generators walk the maps.  The
    services of the registries are assumed to be as Kubernetes admits them (ports
    present and not 0, host names not empty and without a bar), and those of one
    host name, in several namespaces or registries, to have the same ports.  The
    last is needed: a lookup by host name takes the service of any namespace, so
    that the routes can be those of a service without the listener's port
    ([closure_needs_one_port_list]). *)
Theorem outbound_listener_closure `{Libraries} (made ask ask' : RangeOrder) {C} md5hex (env : ModelEnv C) s lb node
    names ls l hcm rn :
  @full_snapshot _ made _ md5hex env = Ok s -> services_ok (@all_services made _ env) ->
  @BuildListeners ask node s names = Ok ls -> l ∈ ls -> ll_ApiListener l = Some hcm -> hcm_Route hcm = Hcm_Rds rn ->
  (exists rc, @buildHTTPRoute _ ask' s rn = Ok (Some rc) /\ rc_Name rc = rn) /\
  (exists c, @BuildClusters ask' lb s [rn] = Ok [c] /\ cm_Name c = rn /\ cm_EdsServiceName c = rn).
Proof.
  intros Hfull Hok Hb Hl Ha Hr.
  destruct (rds_name_resolves md5hex env s Hfull Hok ask ask' _ _ _ _ _ _ Hb Hl Ha Hr)
    as (hn & port & svc & Ern & Hparse & Hne & Hp0 & Hs & p & Hg).
  pose proof (snapshot_services_ports md5hex env s Hfull Hok ask') as Hports. split.
  - unfold buildHTTPRoute. assert (Atoi_ok rn = false) as -> by (by rewrite Ern).
    cbn [negb]. rewrite Hparse. destruct (String.eqb_spec hn ""); [done|]. destruct (Z.eqb_spec port 0); [done|].
    cbn [orb]. rewrite Hs.
    destruct (outbound_routes_spec s svc rn hn port (Hports hn svc Hs)) as (f & rs & _ & -> & _). cbn.
    eexists. split; [reflexivity|done].
  - destruct (BuildClusters_elem lb s [rn] Hports) as (cs & Hcs & Hnd & Hc).
    assert (Hres : exists svc port, resolvable s rn svc port).
    { exists svc, port. exists TrafficDirectionOutbound, "", hn. split_and!; eauto. }
    assert (Hk : default_key rn = rn) by (unfold default_key; rewrite Hparse; done).
    assert (Hnames : map cm_Name cs = [rn]).
    { apply singleton_of; [done|]. intros y. rewrite Hc, list_elem_of_singleton. naive_solver. }
    destruct cs as [|c [|? ?]]; try done. injection Hnames as Hn. exists c. rewrite Hcs. split; [done|].
    split; [done|].
    destruct (build_all_spec lb s (range (newClusterFilter [rn])) Hports) as (cs' & E' & _ & Hc').
    unfold BuildClusters in Hcs. rewrite E' in Hcs. injection Hcs as ->.
    destruct (proj1 (Hc' c)) as (n & fs & b & _ & _ & Hin); [set_solver|].
    rewrite <- Hn. unfold build in Hin. case_bool_decide; [|set_solver]. simpl in Hin.
    apply list_elem_of_singleton in Hin as ->. by destruct (requiresPeerAuthenticationMTLS s b).
Qed.

(** The server reads the route names out of the listeners it sends: they are
    exactly the routes the API listeners refer to and the names of the outbound
    listeners, so each route a client will ask for is pushed; the chains of
    inbound listeners add none. *)
Theorem listener_routes_are_extracted `{RangeOrder} {MessageToAny EncodeHCM UL UH}
    `{!Codec MessageToAny EncodeHCM UL UH} node push names ls x :
  BuildListeners node push names = Ok ls ->
  x ∈ extractRouteNamesFromLDS UL UH (listener_resources MessageToAny ls) <->
  exists l, l ∈ ls /\ (api_route l = Some x \/ outbound_name (ll_Name l) = Some x).
Proof.
  intros Hb. apply (extractRouteNames_elem (EncodeHCM := EncodeHCM)). intros l Hl.
  destruct (BuildListeners_elem _ _ _ _ _ Hb Hl) as [_ [[-> _]|Hi]]; [constructor|].
  destruct Hi as (_ & _ & si & _ & _ & _ & He & _). eapply Forall_impl; [exact He|].
  intros c (hcm & -> & _). by repeat constructor.
Qed.

(** *** Witnesses *)

Definition sample_watch : WatchedResource :=
  new_watch ClusterType (Some {["outbound|20880||demo.a"; "outbound|1||demo.a"]}).

Lemma delta_clusters_spec_witness :
  exists resources removed details,
    @GenerateDeltas sample_libraries key_order (fun _ => mkAny "" "") "" strict_push sample_workload
      (Some (endpoint_request false "demo.a" "a")) (Some sample_watch) = Ok (resources, removed, details, true).
Proof.
  destruct (@delta_clusters_spec sample_libraries key_order (fun _ => mkAny "" "") "" strict_push sample_workload
    (endpoint_request false "demo.a" "a") sample_watch) as (rs & rm & d & E & _).
  - exact strict_push_ports.
  - reflexivity.
  - vm_compute. reflexivity.
  - exists rs, rm, d. exact E.
Defined.

Lemma services_ok_uniform ps l :
  Forall is_Some ps -> Forall (fun p => forall q, p = Some q -> Port.Number q <> 0) ps ->
  map Service.Ports l = repeat ps (length l) ->
  forallb (fun s => negb (String.eqb (Service.Hostname s) "") && no_char "|" (Service.Hostname s)) l = true ->
  services_ok l.
Proof.
  intros Hps Hnz Hm Hn.
  assert (Hp : forall s, s ∈ l -> Service.Ports s = ps).
  { intros s Hs. apply (repeat_spec (length l) ps). rewrite <- Hm. apply (in_map Service.Ports). by apply list_elem_of_In. }
  rewrite forallb_forall in Hn. rewrite Forall_forall in Hnz. split.
  - apply Forall_forall. intros s Hs. unfold ports_ok. by rewrite (Hp s Hs).
  - intros s Hs. specialize (Hn s (proj1 (list_elem_of_In _ _) Hs)). breflect. split; [|done].
    by apply String.eqb_neq.
  - intros s p Hs Hin. rewrite (Hp s Hs) in Hin. by apply (Hnz (Some p)).
  - intros s1 s2 H1 H2 _. by rewrite (Hp s1 H1), (Hp s2 H2).
Qed.

Lemma sample_services_ok faults : services_ok (@all_services key_order unit (sample_env faults)).
Proof.
  apply (services_ok_uniform [Some (Port.mk "dubbo" 20880 protocol.GRPC)]); [by repeat constructor|
    |vm_compute; reflexivity|vm_compute; reflexivity].
  constructor; [|constructor]. by intros q [= <-].
Qed.

(** The listeners of the snapshot itself. *)
Definition full_listeners : list ListenerMsg :=
  from_ok [] (@BuildListeners key_order sample_workload (sample_full []) ["demo.a:20880"]).

Lemma outbound_listener_closure_witness :
  exists l hcm, head full_listeners = Some l /\ ll_ApiListener l = Some hcm /\
    hcm_Route hcm = Hcm_Rds "outbound|20880||demo.a" /\
    exists rc, @buildHTTPRoute sample_libraries key_order (sample_full []) "outbound|20880||demo.a" = Ok (Some rc).
Proof.
  assert (Hh : match head full_listeners with
               | Some l => match ll_ApiListener l with
                           | Some hcm => match hcm_Route hcm with
                                         | Hcm_Rds n => String.eqb n "outbound|20880||demo.a"
                                         | _ => false end
                           | None => false end
               | None => false end = true) by (vm_compute; reflexivity).
  destruct (head full_listeners) as [l|] eqn:E; [|discriminate].
  destruct (ll_ApiListener l) as [hcm|] eqn:Ea; [|discriminate].
  destruct (hcm_Route hcm) as [rc|n] eqn:Er; [discriminate|]. apply String.eqb_eq in Hh as ->.
  exists l, hcm. split; [reflexivity|]. split; [exact Ea|]. split; [exact Er|].
  destruct (@outbound_listener_closure sample_libraries key_order key_order key_order unit (fun s => s) (sample_env []) (sample_full [])
    "" sample_workload ["demo.a:20880"] full_listeners l hcm "outbound|20880||demo.a") as [(rc & Hrc & _) _].
  - apply sample_full_ok.
  - apply sample_services_ok.
  - apply is_ok_from_ok. vm_compute. reflexivity.
  - destruct full_listeners; [discriminate|]. injection E as <-. apply elem_of_cons. left. reflexivity.
  - exact Ea.
  - exact Er.
  - exists rc. exact Hrc.
Defined.

(** Two services of one host name with different ports, as two namespaces may
    declare them. *)
Definition same_host (ns : string) (port : Z) : Service :=
  Service.mk (Attributes.mk None None None [] None "api" ns "External" (sample_k8s ""))
    "api.example" [Some (Port.mk "dubbo" port protocol.GRPC)] [] [] 1 "" "" ClientSideLB "" "" false.

Definition two_ports_env : ModelEnv unit :=
  mkEnv (mkMesh None ["alt"] "dubbo-system") [same_host "a" 80; same_host "b" 81] sample_index (fun _ => []) None.

Definition two_ports_push : ConfigSnapshot :=
  from_ok NewConfigSnapshot (@full_snapshot sample_libraries key_order unit (fun s => s) two_ports_env).

(** The listener is generated from one service and the cluster of the route it
    names is looked up in the other, which has no such port: none is generated. *)
Example closure_needs_one_port_list :
  exists ask ask' port,
    map ll_ApiListener (from_ok [] (@BuildListeners ask sample_workload two_ports_push ["api.example:" +:+ Itoa port]))
    = [Some (outbound_hcm (same_host "b" port) port)] /\
    @BuildClusters ask' "" two_ports_push ["outbound|" +:+ Itoa port +:+ "||api.example"] = Ok [].
Proof. exists reverse_order, key_order, 81. vm_compute. done. Qed.

(** A codec: what the server reads of a message, as the bits of a string. *)
Fixpoint bits_of (p : positive) : string :=
  match p with
  | xH => ""
  | xO p => String "0" (bits_of p)
  | xI p => String "1" (bits_of p)
  end.
Fixpoint of_bits (s : string) : positive :=
  match s with
  | String c s => if Ascii.eqb c "0" then xO (of_bits s) else xI (of_bits s)
  | EmptyString => xH
  end.

Lemma of_bits_of p : of_bits (bits_of p) = p.
Proof. induction p as [p IH|p IH|]; cbn; [by rewrite IH..|done]. Qed.

Definition any_pair (a : Any) : string * string := (any_TypeUrl a, any_Value a).
Definition pair_any (p : string * string) : Any := mkAny (fst p) (snd p).
Definition sample_hcm (h : HttpConnectionManager) : Any :=
  match hcm_Route h with Hcm_Rds n => mkAny "rds" n | Hcm_RouteConfig _ => mkAny "" "" end.
Definition sample_decode_hcm (a : Any) : option RouteSpecifier :=
  Some (if String.eqb (any_TypeUrl a) "rds" then Rds (Some (any_Value a)) else RouteOther).
Definition sample_encode (m : grpc_message) : Any :=
  match m with
  | MsgListener l => mkAny "listener" (bits_of (encode
      (map (fun c => map (fun e => (fst e, any_pair (sample_hcm (snd e)))) (fc_Filters c)) (ll_FilterChains l),
       (any_pair ∘ sample_hcm) <$> ll_ApiListener l)))
  | _ => mkAny "" ""
  end.
Definition sample_decode (a : Any) : option Listener :=
  p ← decode (A := list (list (string * (string * string))) * option (string * string)) (of_bits (any_Value a));
  Some (mkListener (map (map (fun e => mkFilter (fst e) (Some (pair_any (snd e))))) (fst p)) (pair_any <$> snd p)).

#[global] Instance sample_codec : Codec sample_encode sample_hcm sample_decode sample_decode_hcm.
Proof.
  split.
  - intros l. unfold sample_decode. cbn [sample_encode any_Value]. rewrite of_bits_of, decode_encode. cbn.
    f_equal. f_equal.
    + rewrite map_map. apply map_ext. intros c. rewrite map_map. apply map_ext. intros [n h]. cbn.
      by destruct (sample_hcm h).
    + destruct (ll_ApiListener l) as [h|]; cbn; [|done]. by destruct (sample_hcm h).
  - intros h. unfold sample_decode_hcm, sample_hcm. by destruct (hcm_Route h).
Qed.

Lemma listener_routes_are_extracted_witness :
  "outbound|20880||demo.a" ∈
    extractRouteNamesFromLDS sample_decode sample_decode_hcm (listener_resources sample_encode full_listeners).
Proof.
  apply (@listener_routes_are_extracted key_order sample_encode sample_hcm sample_decode sample_decode_hcm
    sample_codec sample_workload (sample_full []) ["demo.a:20880"]).
  - apply is_ok_from_ok. vm_compute. reflexivity.
  - assert (Hh : match head full_listeners with
                 | Some l => bool_decide (api_route l = Some "outbound|20880||demo.a")
                 | None => false end = true) by (vm_compute; reflexivity).
    destruct full_listeners as [|l ls]; [discriminate|]. cbn [head] in Hh. apply bool_decide_eq_true in Hh.
    exists l. split; [apply elem_of_cons; left; reflexivity|]. left. exact Hh.
Defined.
