(* ===== verification/StandardStream.v ===== *)
(** * The adapter of standard xDS clients

    [dubbod/discovery/pkg/xds/standard_ads.go], the stream: requests of a standard
    SDK are given the server's type names, responses the standard ones, and a
    response for a type the client does not watch yet is kept until it does.
    The conversion of the resources themselves is in [Translate]. *)

From S2P Require Import Prelude GoStrings Hosts GoNet Watch.

(** ** Type names *)

Definition type_prefix : string := "type.googleapis.com/".

Definition standard_pairs : list (string * string) :=
  [ ("listener.v1.Listener", "envoy.config.listener.v3.Listener");
    ("route.v1.RouteConfiguration", "envoy.config.route.v3.RouteConfiguration");
    ("cluster.v1.Cluster", "envoy.config.cluster.v3.Cluster");
    ("endpoint.v1.ClusterLoadAssignment", "envoy.config.endpoint.v3.ClusterLoadAssignment");
    ("extensions.filters.network.http_connection_manager.v1.HttpConnectionManager",
     "envoy.extensions.filters.network.http_connection_manager.v3.HttpConnectionManager");
    ("extensions.filters.http.router.v1.Router", "envoy.extensions.filters.http.router.v3.Router");
    ("extensions.filters.http.rbac.v1.RBAC", "envoy.extensions.filters.http.rbac.v3.RBAC");
    ("extensions.filters.http.jwt_authn.v1.JwtAuthentication",
     "envoy.extensions.filters.http.jwt_authn.v3.JwtAuthentication");
    ("extensions.transport_sockets.tls.v1.UpstreamTlsContext",
     "envoy.extensions.transport_sockets.tls.v3.UpstreamTlsContext");
    ("extensions.transport_sockets.tls.v1.DownstreamTlsContext",
     "envoy.extensions.transport_sockets.tls.v3.DownstreamTlsContext") ].
Definition standardNames : gmap string string := list_to_map standard_pairs.

Section names.
Context `{RangeOrder}.

(** The loop returns at the first key that fits. *)
Definition standardURL (custom : string) : res string :=
  match List.find (fun e => String.eqb custom (type_prefix +:+ fst e)) (range standardNames) with
  | Some (_, translated) => Ok (type_prefix +:+ translated)
  | None => Err (mk_error Unknown ("unsupported SDK resource type " +:+ custom))
  end.

(** [customType] of [Recv], empty when no name fits. *)
Definition customType (typeUrl : string) : string :=
  match List.find (fun e => String.eqb typeUrl (type_prefix +:+ snd e)) (range standardNames) with
  | Some (name, _) => type_prefix +:+ name
  | None => ""
  end.

End names.

(** ** Messages *)

Record Locality : Type := mkLocality { loc_Region : string; loc_Zone : string; loc_SubZone : string }.
(** The fields of a node both APIs have; [node_Metadata] is a [structpb.Struct],
    passed on as it is. *)
Record Node : Type := mkNode {
  node_Id : string; node_Cluster : string; node_Metadata : option string; node_Locality : option Locality }.
(** A discovery request, of either API. *)
Record Request : Type := mkRq {
  rq_VersionInfo : string;
  rq_Node : option Node;
  rq_ResourceNames : list string;
  rq_TypeUrl : string;
  rq_ResponseNonce : string;
  rq_ErrorDetail : option string
}.
(** A discovery response, of either API. *)
Record Response : Type := mkRp {
  rp_VersionInfo : string;
  rp_Resources : list (option Any);
  rp_Canary : bool;
  rp_TypeUrl : string;
  rp_Nonce : string;
  rp_ControlPlane : option string
}.

(** ** The stream *)

Record standardStream : Type := mkStream {
  watched : gmap string bool;
  named : gmap string bool;
  pending : gmap string Response
}.

Definition newStandardStream : standardStream := mkStream ∅ ∅ ∅.

(** Reading a missing key of a Go map of booleans. *)
Definition flag (m : gmap string bool) (k : string) : bool := default false (m !! k).

Section stream.
Context `{RangeOrder} (standardAny : option Any -> res Any).

Definition convert_request (request : Request) : res Request :=
  let custom := customType (rq_TypeUrl request) in
  if String.eqb custom "" then
    Err (mk_error InvalidArgument ("unsupported SDK subscription " +:+ rq_TypeUrl request))
  else Ok (mkRq (rq_VersionInfo request) (rq_Node request) (rq_ResourceNames request) custom
             (rq_ResponseNonce request) (rq_ErrorDetail request)).

(** The first critical section of [Recv], under [s.state]: whether the client
    still wants the type and whether its watch must be published. *)
Definition recv_request (s : standardStream) (request : Request) : standardStream * bool :=
  let t := rq_TypeUrl request in
  let '(named', wanted) :=
    if (0 <? length (rq_ResourceNames request))%nat then (<[t := true]> (named s), true)
    else (named s, negb (flag (named s) t)) in
  let active := flag (watched s) t in
  let watched' := if negb wanted then <[t := false]> (watched s) else watched s in
  (mkStream watched' named' (pending s), negb (negb wanted || active)).

(** The second, under [s.writer] and [s.state]: the watch is published and the
    kept response taken out, to be sent before [s.writer] is released. *)
Definition recv_publish (s : standardStream) (t : string) : standardStream * option Response :=
  (mkStream (<[t := true]> (watched s)) (named s) (delete t (pending s)), pending s !! t).

Fixpoint convert_resources (resources : list (option Any)) : res (list (option Any)) :=
  match resources with
  | [] => Ok []
  | resource :: resources =>
      match standardAny resource with
      | Ok translated => rest ← convert_resources resources; Ok (Some translated :: rest)
      | Err e => Err (mk_error Unimplemented ("SDK resource conversion: " +:+ err_msg e))
      | Panic w => Panic w
      end
  end.

Definition convert_response (response : Response) : res Response :=
  match standardURL (rp_TypeUrl response) with
  | Ok typeURL =>
      resources ← convert_resources (rp_Resources response);
      Ok (mkRp (rp_VersionInfo response) resources (rp_Canary response) typeURL
            (rp_Nonce response) (rp_ControlPlane response))
  | Err e => Err (mk_error Unimplemented (err_msg e))
  | Panic w => Panic w
  end.

(** The critical section of [Send], under [s.writer] and [s.state]: a response
    nobody watches is kept, any other is to be sent before [s.writer] is
    released. *)
Definition send_response (s : standardStream) (converted : Response) : standardStream * option Response :=
  let t := rp_TypeUrl converted in
  if negb (flag (watched s) t)
  then (mkStream (watched s) (named s) (<[t := converted]> (pending s)), None)
  else (s, Some converted).

(** [Recv] and [Send] without interleaving.  [recv] is what the client's stream
    gives; [send] its answer to a response. *)
Definition Recv (send : Response -> option gerror) (s : standardStream) (recv : res Request)
  : standardStream * list Response * res Request :=
  match recv with
  | Ok request =>
      match convert_request request with
      | Ok converted =>
          let '(s, publish) := recv_request s request in
          if negb publish then (s, [], Ok converted) else
          let '(s, kept) := recv_publish s (rq_TypeUrl request) in
          match kept with
          | None => (s, [], Ok converted)
          | Some p => match send p with Some e => (s, [], Err e) | None => (s, [p], Ok converted) end
          end
      | Err e => (s, [], Err e)
      | Panic w => (s, [], Panic w)
      end
  | Err e => (s, [], Err e)
  | Panic w => (s, [], Panic w)
  end.

Definition Send (send : Response -> option gerror) (s : standardStream) (response : Response)
  : standardStream * list Response * res unit :=
  match convert_response response with
  | Ok converted =>
      match send_response s converted with
      | (s, None) => (s, [], Ok tt)
      | (s, Some r) => match send r with Some e => (s, [], Err e) | None => (s, [r], Ok tt) end
      end
  | Err e => (s, [], Err e)
  | Panic w => (s, [], Panic w)
  end.

(** ** Interleavings

    One goroutine calls [Recv], another [Send]; the locks leave five steps that
    the two interleave. [writer] is the response being sent by the holder of
    [s.writer], [receiving] the type whose watch [Recv] has yet to publish.  The
    lists record the responses the server produced and the client got. *)
Record session : Type := mkSession {
  se_stream : standardStream;
  receiving : option string;
  writer : option Response;
  produced : list Response;
  delivered : list Response
}.

Definition start : session := mkSession newStandardStream None None [] [].

Inductive step : session -> session -> Prop :=
  | step_request s rq converted :
      receiving s = None -> convert_request rq = Ok converted ->
      step s (mkSession (fst (recv_request (se_stream s) rq))
                (if snd (recv_request (se_stream s) rq) then Some (rq_TypeUrl rq) else None)
                (writer s) (produced s) (delivered s))
  | step_publish s t :
      receiving s = Some t -> writer s = None ->
      step s (mkSession (fst (recv_publish (se_stream s) t)) None (snd (recv_publish (se_stream s) t))
                (produced s) (delivered s))
  | step_send s response converted :
      writer s = None -> convert_response response = Ok converted ->
      step s (mkSession (fst (send_response (se_stream s) converted)) (receiving s)
                (snd (send_response (se_stream s) converted)) (produced s ++ [converted]) (delivered s))
  | step_sent s r :
      writer s = Some r ->
      step s (mkSession (se_stream s) (receiving s) None (produced s) (delivered s ++ [r])).

Inductive reachable : session -> Prop :=
  | reach_start : reachable start
  | reach_step s s' : reachable s -> step s s' -> reachable s'.

End stream.

(** ** Lemmas *)

(** *** Type names *)

Lemma standard_pairs_keys : NoDup (map fst standard_pairs).
Proof. apply (bool_decide_unpack _). vm_compute. exact I. Qed.
Lemma standard_pairs_values : NoDup (map snd standard_pairs).
Proof. apply (bool_decide_unpack _). vm_compute. exact I. Qed.

Lemma standardNames_elem n t : standardNames !! n = Some t <-> (n, t) ∈ standard_pairs.
Proof. unfold standardNames. symmetry. apply elem_of_list_to_map, standard_pairs_keys. Qed.

Lemma standard_value_inj n n' t : (n, t) ∈ standard_pairs -> (n', t) ∈ standard_pairs -> n = n'.
Proof.
  intros H1 H2. apply list_elem_of_lookup in H1 as [i Hi], H2 as [j Hj].
  assert (i = j) as ->; [|congruence].
  apply (NoDup_lookup _ i j t standard_pairs_values); by rewrite list_lookup_fmap, ?Hi, ?Hj.
Qed.

Lemma type_prefix_inj a b : type_prefix +:+ a = type_prefix +:+ b -> a = b.
Proof. unfold type_prefix. simpl. by intros [= ->]. Qed.

Section name_lemmas.
Context `{RangeOrder}.

Lemma standardURL_spec custom url :
  standardURL custom = Ok url <->
  exists n t, (n, t) ∈ standard_pairs /\ custom = type_prefix +:+ n /\ url = type_prefix +:+ t.
Proof.
  unfold standardURL. split.
  - destruct (List.find _ _) as [[n t]|] eqn:E; [|done]. intros [= <-].
    apply find_some in E as [Hin He]. apply list_elem_of_In, elem_of_range, standardNames_elem in Hin.
    apply String.eqb_eq in He. eauto.
  - intros (n & t & Hin & -> & ->).
    destruct (List.find _ _) as [[n' t']|] eqn:E.
    + apply find_some in E as [Hin' He]. apply list_elem_of_In, elem_of_range in Hin'.
      apply standardNames_elem in Hin. apply String.eqb_eq, type_prefix_inj in He. simpl in He. subst n'.
      by rewrite Hin in Hin'; simplify_eq.
    + apply standardNames_elem, elem_of_range, list_elem_of_In in Hin.
      pose proof (List.find_none _ _ E _ Hin) as Hn. simpl in Hn. by rewrite String.eqb_refl in Hn.
Qed.

Lemma customType_spec url custom :
  custom <> "" ->
  customType url = custom <->
  exists n t, (n, t) ∈ standard_pairs /\ custom = type_prefix +:+ n /\ url = type_prefix +:+ t.
Proof.
  intros Hne. unfold customType. split.
  - destruct (List.find _ _) as [[n t]|] eqn:E; [|naive_solver]. intros <-.
    apply find_some in E as [Hin He]. apply list_elem_of_In, elem_of_range, standardNames_elem in Hin.
    apply String.eqb_eq in He. eauto.
  - intros (n & t & Hin & -> & ->).
    destruct (List.find _ _) as [[n' t']|] eqn:E.
    + apply find_some in E as [Hin' He]. apply list_elem_of_In, elem_of_range, standardNames_elem in Hin'.
      apply String.eqb_eq, type_prefix_inj in He. simpl in He. subst t'.
      by rewrite (standard_value_inj n n' t Hin Hin').
    + apply standardNames_elem, elem_of_range, list_elem_of_In in Hin.
      pose proof (List.find_none _ _ E _ Hin) as Hn. simpl in Hn. by rewrite String.eqb_refl in Hn.
Qed.

(** The two searches are inverse to each other, in whatever order the map is
    visited. *)
Lemma customType_standardURL custom url :
  standardURL custom = Ok url <-> customType url = custom /\ custom <> "".
Proof.
  rewrite standardURL_spec. split.
  - intros Hn. assert (custom <> "") as Hne by (by destruct Hn as (n & t & _ & -> & _)).
    split; [by apply customType_spec|done].
  - intros [Hc Hne]. by apply customType_spec in Hc.
Qed.

End name_lemmas.

(** *** What the client has got *)

Definition of_type (t : string) (l : list Response) : list Response :=
  filter (fun r => rp_TypeUrl r = t) l.

(** Delivered, being sent, kept: in this order, the responses of a type the
    client has or will get. *)
Definition client_view (s : session) (t : string) : list Response :=
  of_type t (delivered s) ++ of_type t (option_list (writer s)) ++ option_list (pending (se_stream s) !! t).

Record session_ok (s : session) : Prop := {
  ok_pending t r : pending (se_stream s) !! t = Some r -> rp_TypeUrl r = t /\ flag (watched (se_stream s)) t = false;
  ok_sublist t : client_view s t `sublist_of` of_type t (produced s);
  ok_last t : last (client_view s t) = last (of_type t (produced s));
  ok_watched r : r ∈ delivered s ++ option_list (writer s) -> is_Some (watched (se_stream s) !! rp_TypeUrl r)
}.

Lemma of_type_app t l k : of_type t (l ++ k) = of_type t l ++ of_type t k.
Proof. apply filter_app. Qed.

Lemma of_type_single t r : of_type t [r] = if decide (rp_TypeUrl r = t) then [r] else [].
Proof. unfold of_type. rewrite filter_cons, filter_nil. done. Qed.

Lemma flag_insert m k b k' : flag (<[k := b]> m) k' = if decide (k = k') then b else flag m k'.
Proof. unfold flag. by destruct (decide (k = k')) as [->|]; simplify_map_eq. Qed.

Section session_lemmas.
Context `{RangeOrder} (standardAny : option Any -> res Any).

Lemma recv_request_ok s rq o :
  session_ok s ->
  session_ok (mkSession (fst (recv_request (se_stream s) rq)) o (writer s) (produced s) (delivered s)).
Proof.
  intros [Hp Hs Hl Hw]. unfold recv_request.
  set (t := rq_TypeUrl rq). set (w := if (0 <? _)%nat then _ else _). destruct w as [named' wanted]. simpl.
  split; simpl; try done.
  - intros t' r Hr. destruct (Hp t' r Hr) as [? Hf]. split; [done|]. destruct wanted; simpl; [done|].
    rewrite flag_insert. by case_decide.
  - intros r Hr. destruct wanted; simpl; [by apply Hw|]. rewrite lookup_insert_is_Some. destruct (decide (t = rp_TypeUrl r)); auto.
Qed.

Lemma recv_publish_ok s t :
  session_ok s -> writer s = None ->
  session_ok (mkSession (fst (recv_publish (se_stream s) t)) None (snd (recv_publish (se_stream s) t))
                (produced s) (delivered s)).
Proof.
  intros [Hp Hs Hl Hw] Hn.
  assert (Hv : forall t', client_view (mkSession (fst (recv_publish (se_stream s) t)) None
      (snd (recv_publish (se_stream s) t)) (produced s) (delivered s)) t' = client_view s t').
  { intros t'. unfold client_view. rewrite Hn. simpl. f_equal.
    destruct (decide (t = t')) as [->|Hne].
    - rewrite lookup_delete_eq. destruct (pending (se_stream s) !! t') as [r|] eqn:E; [|done].
      simpl. destruct (Hp t' r E) as [Ht _]. rewrite of_type_single. by rewrite decide_True.
    - rewrite lookup_delete_ne by done. destruct (pending (se_stream s) !! t) as [r|] eqn:E; [|done].
      simpl. destruct (Hp t r E) as [Ht _]. rewrite of_type_single. rewrite decide_False by congruence. done. }
  split.
  - simpl. intros t' r Hr. apply lookup_delete_Some in Hr as [Hne Hr]. destruct (Hp t' r Hr). split; [done|].
    rewrite flag_insert. by rewrite decide_False.
  - intros t'. rewrite Hv. apply Hs.
  - intros t'. rewrite Hv. apply Hl.
  - simpl. intros r. rewrite elem_of_app. intros [Hr|Hr].
    + apply lookup_insert_is_Some. destruct (decide (t = rp_TypeUrl r)); [by left|right]. split; [done|].
      apply Hw. set_solver.
    + destruct (pending (se_stream s) !! t) as [p|] eqn:E; simpl in Hr; [|set_solver].
      apply list_elem_of_singleton in Hr as ->. destruct (Hp t p E) as [-> _]. by rewrite lookup_insert_eq.
Qed.

Lemma send_response_ok s c :
  session_ok s -> writer s = None ->
  session_ok (mkSession (fst (send_response (se_stream s) c)) (receiving s)
                (snd (send_response (se_stream s) c)) (produced s ++ [c]) (delivered s)).
Proof.
  intros [Hp Hs Hl Hw] Hn. unfold send_response. set (t := rp_TypeUrl c).
  assert (Hdel : forall t', of_type t' (delivered s) `sublist_of` of_type t' (produced s)).
  { intros t'. etrans; [|apply (Hs t')]. unfold client_view. apply sublist_inserts_r. done. }
  destruct (flag (watched (se_stream s)) t) eqn:Hf; simpl.
  - assert (Hnp : pending (se_stream s) !! t = None).
    { destruct (pending (se_stream s) !! t) as [r|] eqn:E; [|done]. destruct (Hp t r E). congruence. }
    split; simpl; [done| | |].
    + intros t'. unfold client_view. simpl. rewrite of_type_app, of_type_single.
      destruct (decide (rp_TypeUrl c = t')) as [<-|Hne].
      * fold t. rewrite Hnp. simpl. by apply sublist_app.
      * rewrite app_nil_r. simpl. specialize (Hs t'). unfold client_view in Hs. by rewrite Hn in Hs.
    + intros t'. unfold client_view. simpl. rewrite of_type_app, of_type_single.
      destruct (decide (rp_TypeUrl c = t')) as [<-|Hne].
      * fold t. rewrite Hnp. simpl. by rewrite !last_snoc.
      * rewrite app_nil_r. simpl. specialize (Hl t'). unfold client_view in Hl. by rewrite Hn in Hl.
    + intros r. rewrite elem_of_app, list_elem_of_singleton. intros [Hr| ->]; [apply Hw; set_solver|].
      unfold flag in Hf. fold t. destruct (watched (se_stream s) !! t); [eauto|done].
  - split; simpl.
    + intros t' r. rewrite lookup_insert_Some. intros [[<- <-]|[_ Hr]]; [done|by apply Hp].
    + intros t'. unfold client_view. simpl. rewrite of_type_app, of_type_single.
      destruct (decide (rp_TypeUrl c = t')) as [<-|Hne].
      * fold t. rewrite lookup_insert_eq. simpl. by apply sublist_app.
      * fold t in Hne. rewrite lookup_insert_ne, app_nil_r by done. simpl.
        specialize (Hs t'). unfold client_view in Hs. by rewrite Hn in Hs.
    + intros t'. unfold client_view. simpl. rewrite of_type_app, of_type_single.
      destruct (decide (rp_TypeUrl c = t')) as [<-|Hne].
      * fold t. rewrite lookup_insert_eq. simpl. by rewrite !last_snoc.
      * fold t in Hne. rewrite lookup_insert_ne, app_nil_r by done. simpl.
        specialize (Hl t'). unfold client_view in Hl. by rewrite Hn in Hl.
    + intros r. rewrite app_nil_r. intros Hr. apply Hw. set_solver.
Qed.

Lemma sent_ok s r :
  session_ok s -> writer s = Some r ->
  session_ok (mkSession (se_stream s) (receiving s) None (produced s) (delivered s ++ [r])).
Proof.
  intros [Hp Hs Hl Hw] Hn.
  assert (Hv : forall t', client_view (mkSession (se_stream s) (receiving s) None (produced s)
      (delivered s ++ [r])) t' = client_view s t').
  { intros t'. unfold client_view. rewrite Hn. simpl. rewrite of_type_app. by rewrite <- app_assoc. }
  split; simpl; [done| | |].
  - intros t'. rewrite Hv. apply Hs.
  - intros t'. rewrite Hv. apply Hl.
  - intros x. rewrite app_nil_r. rewrite Hn in Hw. apply Hw.
Qed.

Lemma reachable_ok s : reachable standardAny s -> session_ok s.
Proof.
  induction 1 as [|s s' _ IH Hst].
  - split; simpl; try done. intros r Hr. by apply elem_of_nil in Hr.
  - destruct Hst.
    + by apply recv_request_ok.
    + by apply recv_publish_ok.
    + by apply send_response_ok.
    + by apply sent_ok.
Qed.

End session_lemmas.

(** ** Properties *)

(** C31 However [Recv] and [Send] interleave, a standard client gets the
    responses of a type in the order they were produced, none twice, and only
    after it has subscribed to the type; and whenever no response is on its way,
    a client that watches the type has its latest response: what was produced
    before the subscription is not lost, and no older response overtakes it. *)
Theorem standard_stream_latest `{RangeOrder} standardAny s :
  reachable standardAny s ->
  (forall t, of_type t (delivered s) `sublist_of` of_type t (produced s)) /\
  (forall r, r ∈ delivered s -> is_Some (watched (se_stream s) !! rp_TypeUrl r)) /\
  (forall t, writer s = None -> flag (watched (se_stream s)) t = true ->
     last (of_type t (delivered s)) = last (of_type t (produced s))).
Proof.
  intros [Hp Hs Hl Hw]%reachable_ok. split; [|split].
  - intros t. etrans; [|apply (Hs t)]. unfold client_view. by apply sublist_inserts_r.
  - intros r Hr. apply Hw. set_solver.
  - intros t Hn Hf. rewrite <- Hl. unfold client_view. rewrite Hn. simpl.
    destruct (pending (se_stream s) !! t) as [r|] eqn:E; [destruct (Hp t r E); congruence|]. simpl.
    by rewrite app_nil_r.
Qed.

(** A type name the adapter accepts in a request is the one it gives to the
    responses of that type, and the other way round. *)
Theorem standard_names_roundtrip `{RangeOrder} standardAny rq converted response translated :
  convert_request rq = Ok converted -> convert_response standardAny response = Ok translated ->
  rq_TypeUrl converted = rp_TypeUrl response <-> rq_TypeUrl rq = rp_TypeUrl translated.
Proof.
  unfold convert_request, convert_response. intros Hq Hr.
  destruct (String.eqb_spec (customType (rq_TypeUrl rq)) "") as [|Hne]; [done|]. injection Hq as <-. simpl.
  destruct (standardURL (rp_TypeUrl response)) as [url| |] eqn:E; [|done..].
  apply res_bind_ok in Hr as (rs & _ & [= <-]). simpl.
  split.
  - intros Hc. rewrite <- Hc in E. assert (E' : standardURL (customType (rq_TypeUrl rq)) = Ok (rq_TypeUrl rq)).
    { by apply customType_standardURL. }
    congruence.
  - intros ->. by apply customType_standardURL in E as [? _].
Qed.

(** *** Witnesses *)

Definition sample_any (a : option Any) : res Any :=
  match a with Some a => Ok a | None => Err (mk_error Unknown "missing SDK resource") end.
Definition cluster_request : Request :=
  mkRq "" None ["outbound|20880||demo.a"] "type.googleapis.com/envoy.config.cluster.v3.Cluster" "" None.
Definition cluster_response (nonce : string) : Response :=
  mkRp "v" [Some (mkAny "t" "c")] false "type.googleapis.com/cluster.v1.Cluster" nonce None.
Definition standard_response (nonce : string) : Response :=
  mkRp "v" [Some (mkAny "t" "c")] false "type.googleapis.com/envoy.config.cluster.v3.Cluster" nonce None.

(** Two responses are produced before the client subscribes: it gets the second. *)
Definition subscribed_session : session :=
  mkSession (mkStream {[rq_TypeUrl cluster_request := true]} {[rq_TypeUrl cluster_request := true]} ∅) None None
    [standard_response "1"; standard_response "2"] [standard_response "2"].

Lemma reach_eq `{RangeOrder} standardAny s s' s'' :
  reachable standardAny s -> step standardAny s s' -> s' = s'' -> reachable standardAny s''.
Proof. intros Hr Hs <-. by apply (reach_step _ s). Qed.

Lemma subscribed_reachable : @reachable key_order sample_any subscribed_session.
Proof.
  pose (t := rq_TypeUrl cluster_request).
  pose (conv := mkRq "" None (rq_ResourceNames cluster_request) "type.googleapis.com/cluster.v1.Cluster" "" None).
  pose (s1 := mkSession (mkStream ∅ ∅ {[t := standard_response "1"]}) None None [standard_response "1"] []).
  pose (s2 := mkSession (mkStream ∅ ∅ {[t := standard_response "2"]}) None None
    [standard_response "1"; standard_response "2"] []).
  pose (s3 := mkSession (mkStream ∅ {[t := true]} {[t := standard_response "2"]}) (Some t) None
    [standard_response "1"; standard_response "2"] []).
  pose (s4 := mkSession (mkStream {[t := true]} {[t := true]} ∅) None (Some (standard_response "2"))
    [standard_response "1"; standard_response "2"] []).
  assert (E1 : @convert_request key_order cluster_request = Ok conv) by (vm_compute; reflexivity).
  assert (E2 : forall n, @convert_response key_order sample_any (cluster_response n) = Ok (standard_response n))
    by (intros n; vm_compute; reflexivity).
  refine (reach_eq _ s4 _ _ _ (step_sent _ s4 (standard_response "2") eq_refl) _); [|vm_compute; reflexivity].
  refine (reach_eq _ s3 _ _ _ (step_publish _ s3 t eq_refl eq_refl) _); [|vm_compute; reflexivity].
  refine (reach_eq _ s2 _ _ _ (step_request _ s2 cluster_request conv eq_refl E1) _); [|vm_compute; reflexivity].
  refine (reach_eq _ s1 _ _ _ (step_send _ s1 _ _ eq_refl (E2 "2")) _); [|vm_compute; reflexivity].
  refine (reach_eq _ start _ _ _ (step_send _ start _ _ eq_refl (E2 "1")) _);
    [apply reach_start|vm_compute; reflexivity].
Qed.

Lemma standard_stream_latest_witness :
  last (of_type (rq_TypeUrl cluster_request) (delivered subscribed_session))
  = last (of_type (rq_TypeUrl cluster_request) (produced subscribed_session)).
Proof.
  apply (@standard_stream_latest key_order sample_any subscribed_session).
  - exact subscribed_reachable.
  - reflexivity.
  - reflexivity.
Defined.

Lemma standard_names_roundtrip_witness :
  exists converted translated, @convert_request key_order cluster_request = Ok converted /\
    @convert_response key_order sample_any (cluster_response "1") = Ok translated /\
    (rq_TypeUrl converted = rp_TypeUrl (cluster_response "1")
     <-> rq_TypeUrl cluster_request = rp_TypeUrl translated).
Proof.
  exists (mkRq "" None ["outbound|20880||demo.a"] "type.googleapis.com/cluster.v1.Cluster" "" None),
    (standard_response "1").
  split; [vm_compute; reflexivity|]. split; [vm_compute; reflexivity|].
  apply (@standard_names_roundtrip key_order sample_any).
  - vm_compute. reflexivity.
  - vm_compute. reflexivity.
Defined.
