(* ===== verification/Translate.v ===== *)
(** * Translation of resources to the standard API

    [dubbod/discovery/pkg/xds/standard_ads.go], [standardAny], [translateMessage] and
    [translateValue]: a message is rebuilt field by field, by name, as a message of
    another type, through protobuf reflection.  The descriptors of the two APIs, the
    registry of types and the wire format are generated code and libraries, and so
    parameters. *)

From S2P Require Import Prelude GoStrings Hosts GoNet Watch StandardStream.

(** ** Reflection *)

Inductive Kind : Type :=
  | BoolKind | EnumKind | Int32Kind | Sint32Kind | Uint32Kind | Int64Kind | Sint64Kind | Uint64Kind
  | Sfixed32Kind | Fixed32Kind | FloatKind | Sfixed64Kind | Fixed64Kind | DoubleKind
  | StringKind | BytesKind | MessageKind.

#[global] Instance Kind_eq_dec : EqDecision Kind.
Proof. solve_decision. Defined.

(** The type of a value: for a message its type, for an enum its values, as
    numbers and names. *)
Record ValueDescriptor : Type := mkValueDescriptor {
  vd_FullName : string;
  vd_Kind : Kind;
  vd_Message : string;
  vd_Enum : list (Z * string)
}.

Inductive Shape : Type :=
  | Singular
  | Repeated
  | Mapped (key : Kind) (value : ValueDescriptor).

Record FieldDescriptor : Type := mkFieldDescriptor {
  fd_Name : string;
  fd_Value : ValueDescriptor;
  fd_Shape : Shape;
  fd_Oneof : option string
}.

Definition IsList (f : FieldDescriptor) : bool := match fd_Shape f with Repeated => true | _ => false end.
Definition IsMap (f : FieldDescriptor) : bool := match fd_Shape f with Mapped _ _ => true | _ => false end.

(** Values other than messages, bytes and enums; a float is known by its bits. *)
Inductive scalar : Type := SBool (b : bool) | SInt (z : Z) | SFloat (bits : Z) | SString (s : string).

Inductive FieldValue (V : Type) : Type :=
  | Single (v : V)
  | ListOf (l : list V)
  | MapOf (l : list (scalar * V)).
Arguments Single {_} _.
Arguments ListOf {_} _.
Arguments MapOf {_} _.

(** A message: its type, the bytes of unknown fields, and its populated fields
    in the order [Range] visits them. *)
Record MessageOf (V : Type) : Type := mkMessage {
  FullName : string;
  GetUnknown : string;
  Populated : list (FieldDescriptor * FieldValue V)
}.
Arguments mkMessage {_} _ _ _.
Arguments FullName {_} _.
Arguments GetUnknown {_} _.
Arguments Populated {_} _.

Inductive Value : Type :=
  | VScalar (s : scalar)
  | VBytes (b : string)
  | VEnum (n : Z)
  | VMessage (m : MessageOf Value).

Definition Message : Type := MessageOf Value.

Definition values_of {V} (fv : FieldValue V) : list V :=
  match fv with Single v => [v] | ListOf l => l | MapOf l => map snd l end.

(** The Go types of the values of a kind; [Set], [Append] and [NewValue] panic on
    any other. *)
Definition scalar_kind (k : Kind) (s : scalar) : bool :=
  match k, s with
  | BoolKind, SBool _ => true
  | (Int32Kind | Sint32Kind | Uint32Kind | Int64Kind | Sint64Kind | Uint64Kind
     | Sfixed32Kind | Fixed32Kind | Sfixed64Kind | Fixed64Kind), SInt _ => true
  | (FloatKind | DoubleKind), SFloat _ => true
  | StringKind, SString _ => true
  | _, _ => false
  end.

(** ** Fields of a message *)

Definition get_field (m : Message) (name : string) : option (FieldValue Value) :=
  snd <$> List.find (fun e => String.eqb (fd_Name (fst e)) name) (Populated m).

Definition same_field (f g : FieldDescriptor) : bool :=
  String.eqb (fd_Name f) (fd_Name g) ||
  match fd_Oneof f, fd_Oneof g with Some a, Some b => String.eqb a b | _, _ => false end.

(** [Set]: the other members of a oneof are cleared. *)
Definition set_field (fields : list (FieldDescriptor * FieldValue Value)) (f : FieldDescriptor) (v : FieldValue Value)
  : list (FieldDescriptor * FieldValue Value) :=
  List.filter (fun e => negb (same_field f (fst e))) fields ++ [(f, v)].

Definition clear_field (m : Message) (name : string) : Message :=
  mkMessage (FullName m) (GetUnknown m) (List.filter (fun e => negb (String.eqb (fd_Name (fst e)) name)) (Populated m)).

Definition get_message (m : Message) (name : string) : option Message :=
  match get_field m name with Some (Single (VMessage m)) => Some m | _ => None end.
Definition get_string (m : Message) (name : string) : string :=
  match get_field m name with Some (Single (VScalar (SString s))) => s | _ => "" end.

(** ** [google.protobuf.Any] *)

Definition AnyName : string := "google.protobuf.Any".
Definition plain (fullName : string) (k : Kind) : ValueDescriptor := mkValueDescriptor fullName k "" [].
Definition any_type_url : FieldDescriptor :=
  mkFieldDescriptor "type_url" (plain "google.protobuf.Any.type_url" StringKind) Singular None.
Definition any_value : FieldDescriptor :=
  mkFieldDescriptor "value" (plain "google.protobuf.Any.value" BytesKind) Singular None.

Definition any_of_message (m : Message) : Any :=
  mkAny (get_string m "type_url") (match get_field m "value" with Some (Single (VBytes b)) => b | _ => "" end).
(** Empty fields are not populated. *)
Definition message_of_any (a : Any) : Message :=
  mkMessage AnyName ""
    ((if String.eqb (any_TypeUrl a) "" then [] else [(any_type_url, Single (VScalar (SString (any_TypeUrl a))))])
     ++ (if String.eqb (any_Value a) "" then [] else [(any_value, Single (VBytes (any_Value a)))])).

(** ** Types the adapter adjusts *)

Definition tls_package : string := "envoy.extensions.transport_sockets.tls.v3.".
Definition ConfigSourceName : string := "envoy.config.core.v3.ConfigSource".
Definition TransportSocketName : string := "envoy.config.core.v3.TransportSocket".
Definition CommonTlsContextName : string := tls_package +:+ "CommonTlsContext".
Definition ValidationContextName : string := tls_package +:+ "CertificateValidationContext".
Definition PluginInstanceName : string := tls_package +:+ "CertificateProviderPluginInstance".
Definition SanField : string :=
  "extensions.transport_sockets.tls.v1.CertificateValidationContext.match_subject_alt_names".
Definition StringMatcherName : string := "envoy.type.matcher.v3.StringMatcher".

Section translate.
(** The fields of a message type. *)
Context (Fields : string -> list FieldDescriptor).

Definition ByName (message name : string) : option FieldDescriptor :=
  List.find (fun f => String.eqb (fd_Name f) name) (Fields message).

(** An assignment to a field of a generated type, whose descriptor has it. *)
Definition assign (m : Message) (name : string) (v : FieldValue Value) : Message :=
  match ByName (FullName m) name with
  | Some f => mkMessage (FullName m) (GetUnknown m) (set_field (Populated m) f v)
  | None => m
  end.
Definition assign_string (m : Message) (name s : string) : Message :=
  if String.eqb s "" then clear_field m name else assign m name (Single (VScalar (SString s))).

(** [CertificateProviderPluginInstance] with the names of a provider. *)
Definition plugin_instance (provider : Message) : Message :=
  assign_string (assign_string (mkMessage PluginInstanceName "" [])
    "instance_name" (get_string provider "instance_name"))
    "certificate_name" (get_string provider "certificate_name").

Definition adjust_certificate (context : Message) : Message :=
  match get_message context "tls_certificate_certificate_provider_instance" with
  | Some provider =>
      clear_field (assign context "tls_certificate_provider_instance" (Single (VMessage (plugin_instance provider))))
        "tls_certificate_certificate_provider_instance"
  | None => context
  end.

Definition adjust_validation (context : Message) : Message :=
  match get_message context "combined_validation_context" with
  | Some combined =>
      match get_message combined "validation_context_certificate_provider_instance" with
      | Some provider =>
          let ctx := default (mkMessage ValidationContextName "" []) (get_message combined "default_validation_context") in
          let ctx := assign ctx "ca_certificate_provider_instance" (Single (VMessage (plugin_instance provider))) in
          let combined := assign combined "default_validation_context" (Single (VMessage ctx)) in
          let combined := clear_field combined "validation_context_certificate_provider_instance" in
          assign context "combined_validation_context" (Single (VMessage combined))
      | None => context
      end
  | None => context
  end.

(** What [translateMessage] does to the destination once its fields are set. *)
Definition adjust (m : Message) : Message :=
  let m := if String.eqb (FullName m) ConfigSourceName
           then assign m "resource_api_version" (Single (VEnum 2)) else m in
  let m := if String.eqb (FullName m) TransportSocketName && String.eqb (get_string m "name") "transport_sockets.tls"
           then assign_string m "name" "envoy.transport_sockets.tls" else m in
  if String.eqb (FullName m) CommonTlsContextName then adjust_validation (adjust_certificate m) else m.

(** ** Translation *)

Section fields.
(** [translateValue] and [standardAny]. *)
Context (translate : Value -> ValueDescriptor -> ValueDescriptor -> res Value)
        (standardAny : option Any -> res Any).

Fixpoint translate_list (l : list Value) (source destination : ValueDescriptor) : res (list Value) :=
  match l with
  | [] => Ok []
  | v :: l =>
      converted ← translate v source destination;
      rest ← translate_list l source destination;
      Ok (converted :: rest)
  end.

Fixpoint translate_map (l : list (scalar * Value)) (source destination : ValueDescriptor)
  : res (list (scalar * Value)) :=
  match l with
  | [] => Ok []
  | (k, v) :: l =>
      converted ← translate v source destination;
      rest ← translate_map l source destination;
      Ok ((k, converted) :: rest)
  end.

Definition unsupported (field : FieldDescriptor) : gerror :=
  mk_error Unknown ("unsupported SDK field " +:+ vd_FullName (fd_Value field)).

(** One field, given the field of that name in the destination. *)
Definition translate_field (field : FieldDescriptor) (value : FieldValue Value) (other : FieldDescriptor)
  : res (FieldValue Value) :=
  match fd_Shape field, fd_Shape other, value with
  | Mapped k vd, Mapped k' vd', MapOf l =>
      if bool_decide (k = k') then l ← translate_map l vd vd'; Ok (MapOf l)
      else Err (mk_error Unknown ("incompatible SDK map " +:+ vd_FullName (fd_Value field)))
  | Repeated, Repeated, ListOf l => l ← translate_list l (fd_Value field) (fd_Value other); Ok (ListOf l)
  | Singular, Singular, Single v => v ← translate v (fd_Value field) (fd_Value other); Ok (Single v)
  | Mapped _ _, Mapped _ _, _ | Repeated, Repeated, _ | Singular, Singular, _ => Panic "type mismatch"
  | _, _, _ => Err (unsupported field)
  end.

Fixpoint translate_fields (fields : list (FieldDescriptor * FieldValue Value)) (destination : string)
    (out : list (FieldDescriptor * FieldValue Value)) : res (list (FieldDescriptor * FieldValue Value)) :=
  match fields with
  | [] => Ok out
  | (field, value) :: fields =>
      match ByName destination (fd_Name field) with
      | None => Err (unsupported field)
      | Some other =>
          converted ← translate_field field value other;
          translate_fields fields destination (set_field out other converted)
      end
  end.

(** The destination is always a new message. *)
Definition translateMessage (source : Message) (destination : string) : res Message :=
  if negb (String.eqb (GetUnknown source) "") then
    Err (mk_error Unknown ("unknown fields in " +:+ FullName source))
  else if String.eqb (FullName source) AnyName then
    converted ← standardAny (Some (any_of_message source));
    (* [proto.Merge] panics on messages of different types *)
    if String.eqb destination AnyName then Ok (message_of_any converted) else Panic "descriptor mismatch"
  else
    fields ← translate_fields (Populated source) destination [];
    Ok (adjust (mkMessage destination "" fields)).

End fields.

Definition incompatible (source : ValueDescriptor) : gerror :=
  mk_error Unknown ("incompatible SDK field " +:+ vd_FullName source).

(** A string of the list of subject names becomes an exact matcher. *)
Definition is_san (source destination : ValueDescriptor) : bool :=
  String.eqb (vd_FullName source) SanField && bool_decide (vd_Kind source = StringKind)
  && bool_decide (vd_Kind destination = MessageKind) && String.eqb (vd_Message destination) StringMatcherName.

Definition exact_matcher (s : string) : Message :=
  assign (mkMessage StringMatcherName "" []) "exact" (Single (VScalar (SString s))).

Definition translate_enum (n : Z) (source destination : ValueDescriptor) : res Value :=
  match List.find (fun e => fst e =? n) (vd_Enum source) with
  | None => Err (mk_error Unknown ("unknown SDK enum in " +:+ vd_FullName source))
  | Some (_, name) =>
      match List.find (fun e => String.eqb (snd e) name) (vd_Enum destination) with
      | None => Err (mk_error Unknown ("unsupported SDK enum " +:+ name))
      | Some (n', _) => Ok (VEnum n')
      end
  end.

Fixpoint translateValue (standardAny : option Any -> res Any) (value : Value) (source destination : ValueDescriptor)
    {struct value} : res Value :=
  if is_san source destination then
    match value with
    | VScalar (SString s) => Ok (VMessage (exact_matcher s))
    | _ => Panic "type mismatch"
    end
  else if negb (bool_decide (vd_Kind source = vd_Kind destination)) then Err (incompatible source)
  else match vd_Kind source, value with
  | MessageKind, VMessage m =>
      converted ← translateMessage (translateValue standardAny) standardAny m (vd_Message destination);
      Ok (VMessage converted)
  | EnumKind, VEnum n => translate_enum n source destination
  | BytesKind, VBytes b => Ok (VBytes b)
  | k, VScalar s => if scalar_kind k s then Ok (VScalar s) else Panic "type mismatch"
  | _, _ => Panic "type mismatch"
  end.

(** ** Whole resources *)

Section resources.
Context `{RangeOrder} (FindMessageByURL : string -> option string)
        (Unmarshal : string -> string -> option Message) (Marshal : Message -> option string).

(** [anypb.New] *)
Definition anypb_New (m : Message) : res Any :=
  match Marshal m with
  | Some b => Ok (mkAny ("type.googleapis.com/" +:+ FullName m) b)
  | None => Err (mk_error Unknown "marshal")
  end.

(** Messages inside messages inside [Any]: [fuel] is the depth of the latter. *)
Fixpoint standardAny_fuel (fuel : nat) (source : option Any) : res Any :=
  match fuel, source with
  | O, _ => Panic "out of fuel"
  | S _, None => Err (mk_error Unknown "missing SDK resource")
  | S fuel, Some source =>
      typeURL ← standardURL (any_TypeUrl source);
      match FindMessageByURL (any_TypeUrl source), FindMessageByURL typeURL with
      | Some sourceType, Some destinationType =>
          match Unmarshal sourceType (any_Value source) with
          | Some decoded =>
              translated ← translateMessage (translateValue (standardAny_fuel fuel)) (standardAny_fuel fuel)
                             decoded destinationType;
              anypb_New translated
          | None => Err (mk_error Unknown "unmarshal")
          end
      | _, _ => Err (mk_error Unknown "not found")
      end
  end.

(** The bytes of a nested [Any] are part of the bytes that hold it, so that
    their number bounds the depth. *)
Definition standardAny (source : option Any) : res Any :=
  standardAny_fuel (S (match source with Some a => String.length (any_Value a) | None => 0 end)) source.

End resources.

End translate.

(** ** Conformance to the descriptors *)

#[global] Instance ValueDescriptor_eq_dec : EqDecision ValueDescriptor.
Proof. solve_decision. Defined.
#[global] Instance Shape_eq_dec : EqDecision Shape.
Proof. solve_decision. Defined.
#[global] Instance FieldDescriptor_eq_dec : EqDecision FieldDescriptor.
Proof. solve_decision. Defined.

(** [Forall], by recursion, for predicates on nested values. *)
Section every.
Context {A : Type} (P : A -> Prop).
Fixpoint every (l : list A) : Prop := match l with [] => True | x :: l => P x /\ every l end.
Lemma every_Forall l : every l <-> Forall P l.
Proof. induction l as [|x l IH]; simpl; [by split|]. by rewrite Forall_cons, IH. Qed.
End every.

(** The type of the values in a field *)
Definition elem (f : FieldDescriptor) : ValueDescriptor := match fd_Shape f with Mapped _ vd => vd | _ => fd_Value f end.

Section conformance.
(** What is asked of a message inside an [Any], and of the number of an enum *)
Context (Fields : string -> list FieldDescriptor) (any_ok : Any -> Prop) (enum_ok : Z -> ValueDescriptor -> Prop).

Definition field_conforms (value_ok : Value -> ValueDescriptor -> Prop) (f : FieldDescriptor) (fv : FieldValue Value)
  : Prop :=
  match fd_Shape f, fv with
  | Singular, Single v => value_ok v (fd_Value f)
  | Repeated, ListOf l => every (fun v => value_ok v (fd_Value f)) l
  | Mapped k vd, MapOf l => every (fun e => scalar_kind k (fst e) = true /\ value_ok (snd e) vd) l
  | _, _ => False
  end.

Definition message_conforms (value_ok : Value -> ValueDescriptor -> Prop) (m : Message) : Prop :=
  every (fun e => fst e ∈ Fields (FullName m) /\ field_conforms value_ok (fst e) (snd e)) (Populated m).

(** A value of the type a descriptor asks for: declared fields only, of the
    declared shapes and kinds, keys of maps too. *)
Fixpoint value_ok (v : Value) (vd : ValueDescriptor) : Prop :=
  match v with
  | VScalar s => scalar_kind (vd_Kind vd) s = true
  | VBytes _ => vd_Kind vd = BytesKind
  | VEnum n => vd_Kind vd = EnumKind /\ enum_ok n vd
  | VMessage m => vd_Kind vd = MessageKind /\ FullName m = vd_Message vd
                  /\ (FullName m = AnyName -> any_ok (any_of_message m)) /\ message_conforms value_ok m
  end.

Definition message_ok (m : Message) : Prop := message_conforms value_ok m.

(** A singular field of a generated type, where the registry has it. *)
Definition declares (message name : string) (k : Kind) (sub : string) : Prop :=
  forall f, ByName Fields message name = Some f ->
    fd_Shape f = Singular /\ vd_Kind (fd_Value f) = k /\ vd_Message (fd_Value f) = sub.

(** The types of messages that stand for each other: those of the table, and those
    of fields of one name. *)
Inductive paired : string -> string -> Prop :=
  | paired_table src dst : (src, dst) ∈ standard_pairs -> paired src dst
  | paired_field src dst f g : paired src dst -> f ∈ Fields src -> ByName Fields dst (fd_Name f) = Some g ->
      vd_Kind (elem f) = MessageKind -> vd_Kind (elem g) = MessageKind -> paired (vd_Message (elem f)) (vd_Message (elem g)).

(** What the adapter takes for granted of the two APIs. *)
Record standard_schema : Prop := {
  sc_unique m f g : f ∈ Fields m -> g ∈ Fields m -> fd_Name f = fd_Name g -> f = g;
  sc_any : any_type_url ∈ Fields AnyName /\ any_value ∈ Fields AnyName;
  sc_any_pair src : paired src AnyName -> src = AnyName;
  sc_version : declares ConfigSourceName "resource_api_version" EnumKind "";
  sc_version_enum f : ByName Fields ConfigSourceName "resource_api_version" = Some f ->
    2 ∈ map fst (vd_Enum (fd_Value f));
  sc_socket : declares TransportSocketName "name" StringKind "";
  sc_instance : declares PluginInstanceName "instance_name" StringKind "";
  sc_certificate : declares PluginInstanceName "certificate_name" StringKind "";
  sc_provider : declares CommonTlsContextName "tls_certificate_provider_instance" MessageKind PluginInstanceName;
  sc_combined : declares CommonTlsContextName "combined_validation_context" MessageKind
    (CommonTlsContextName +:+ ".CombinedCertificateValidationContext");
  sc_default : declares (CommonTlsContextName +:+ ".CombinedCertificateValidationContext")
    "default_validation_context" MessageKind ValidationContextName;
  sc_ca : declares ValidationContextName "ca_certificate_provider_instance" MessageKind PluginInstanceName;
  sc_exact : declares StringMatcherName "exact" StringKind ""
}.

End conformance.

(** The numbers an enum declares; a decoded message may have others. *)
Definition declared_enum (n : Z) (vd : ValueDescriptor) : Prop := n ∈ map fst (vd_Enum vd).
Definition open_enum (_ : Z) (_ : ValueDescriptor) : Prop := True.

(** A decoded message conforms to its descriptor, whatever the [Any]s in it hold. *)
Definition decoded_value (Fields : string -> list FieldDescriptor) : Value -> ValueDescriptor -> Prop :=
  value_ok Fields (fun _ => True) open_enum.
Definition decoded_ok (Fields : string -> list FieldDescriptor) : Message -> Prop := message_ok Fields (fun _ => True) open_enum.

(** A resource of the standard API: its type is one of the table, its message conforms
    to it with declared enum numbers, and so do the resources packed into it, to the
    given depth. *)
Fixpoint standard_any (Fields : string -> list FieldDescriptor) (Marshal : Message -> option string) (depth : nat) (a : Any) : Prop :=
  match depth with
  | O => False
  | S depth => exists m, message_ok Fields (standard_any Fields Marshal depth) declared_enum m /\
      any_TypeUrl a = type_prefix +:+ FullName m /\ FullName m ∈ map snd standard_pairs /\ Marshal m = Some (any_Value a)
  end.

(** ** Lemmas *)

Lemma Value_nested_ind (P : Value -> Prop) :
  (forall s, P (VScalar s)) -> (forall b, P (VBytes b)) -> (forall n, P (VEnum n)) ->
  (forall m, Forall (fun e => Forall P (values_of (snd e))) (Populated m) -> P (VMessage m)) ->
  forall v, P v.
Proof.
  intros Hs Hb He Hm. fix IH 1. intros [s|b|n|m]; [apply Hs|apply Hb|apply He|].
  apply Hm. destruct m as [n u fs]. simpl. induction fs as [|[f fv] fs IHfs]; constructor; [|exact IHfs].
  destruct fv as [v|l|l]; simpl.
  - constructor; [apply IH|constructor].
  - induction l as [|v l IHl]; constructor; [apply IH|exact IHl].
  - induction l as [|[k v] l IHl]; constructor; [apply IH|exact IHl].
Qed.

Lemma any_of_message_of_any a : any_of_message (message_of_any a) = a.
Proof.
  destruct a as [u v]. unfold message_of_any, any_of_message, get_string, get_field. simpl.
  destruct (String.eqb_spec u "") as [->|], (String.eqb_spec v "") as [->|]; reflexivity.
Qed.

Lemma message_of_any_FullName a : FullName (message_of_any a) = AnyName.
Proof. done. Qed.

Section schema_lemmas.
Context (Fields : string -> list FieldDescriptor) (any_ok : Any -> Prop).
Notation vok := (value_ok Fields any_ok declared_enum).
Notation ok := (message_ok Fields any_ok declared_enum).

Lemma ByName_Some m n f : ByName Fields m n = Some f -> f ∈ Fields m /\ fd_Name f = n.
Proof. intros [Hin He]%find_some. split; [by apply list_elem_of_In|by apply String.eqb_eq]. Qed.

Definition entry_ok (name : string) (e : FieldDescriptor * FieldValue Value) : Prop :=
  fst e ∈ Fields name /\ field_conforms vok (fst e) (snd e).

Lemma message_ok_alt m : ok m <-> Forall (entry_ok (FullName m)) (Populated m).
Proof. apply every_Forall. Qed.

Lemma filter_ok name (P : FieldDescriptor * FieldValue Value -> bool) l :
  Forall (entry_ok name) l -> Forall (entry_ok name) (List.filter P l).
Proof. rewrite !List.Forall_forall. intros Hl e [He _]%filter_In. by apply Hl. Qed.

Lemma set_field_ok name l f fv :
  Forall (entry_ok name) l -> entry_ok name (f, fv) -> Forall (entry_ok name) (set_field l f fv).
Proof. intros Hl Hf. unfold set_field. apply Forall_app. split; [by apply filter_ok|by constructor]. Qed.

Lemma clear_ok m n : ok m -> ok (clear_field m n).
Proof. rewrite !message_ok_alt. apply filter_ok. Qed.

Lemma assign_ok m n v :
  ok m -> (forall f, ByName Fields (FullName m) n = Some f -> field_conforms vok f v) -> ok (assign Fields m n v).
Proof.
  intros Hm Hv. unfold assign. destruct (ByName Fields (FullName m) n) as [f|] eqn:E; [|done].
  rewrite message_ok_alt in *. cbn [FullName Populated]. apply set_field_ok; [done|].
  split; [by apply ByName_Some in E as [? _]|by apply Hv].
Qed.

Lemma assign_FullName m n v : FullName (assign Fields m n v) = FullName m.
Proof. unfold assign. by destruct (ByName _ _ _). Qed.

Lemma assign_string_ok m n s :
  ok m -> declares Fields (FullName m) n StringKind "" -> ok (assign_string Fields m n s).
Proof.
  intros Hm Hd. unfold assign_string. destruct (String.eqb s ""); [by apply clear_ok|].
  apply assign_ok; [done|]. intros f (Hsh & Hk & _)%Hd. unfold field_conforms. rewrite Hsh. simpl. by rewrite Hk.
Qed.

Lemma assign_string_FullName m n s : FullName (assign_string Fields m n s) = FullName m.
Proof. unfold assign_string. destruct (String.eqb s ""); [done|apply assign_FullName]. Qed.

(** A singular message field given a message of its type. *)
Lemma assign_message_ok m n sub :
  ok m -> ok sub -> FullName sub <> AnyName -> declares Fields (FullName m) n MessageKind (FullName sub) ->
  ok (assign Fields m n (Single (VMessage sub))).
Proof.
  intros Hm Hs Hany Hd. apply assign_ok; [done|]. intros f (Hsh & Hk & Hn)%Hd.
  unfold field_conforms. rewrite Hsh. cbn [value_ok]. by rewrite Hk, Hn.
Qed.

Lemma get_message_ok m n sub :
  ok m -> get_message m n = Some sub ->
  ok sub /\ exists f, f ∈ Fields (FullName m) /\ fd_Name f = n /\ FullName sub = vd_Message (fd_Value f).
Proof.
  intros Hm. rewrite message_ok_alt, List.Forall_forall in Hm. unfold get_message, get_field.
  destruct (List.find _ (Populated m)) as [[f fv]|] eqn:E; [|done]. simpl.
  apply find_some in E as [Hin He]. apply String.eqb_eq in He. simpl in He.
  destruct (Hm _ Hin) as [Hf Hv]. simpl in Hf, Hv.
  destruct fv as [[| | |m']|l|l]; try done. intros [= <-]. unfold field_conforms in Hv.
  destruct (fd_Shape f); try done. destruct Hv as (_ & Hn & _ & Hok). split; [exact Hok|]. by exists f.
Qed.

Section adjusted.
Context (Hsc : standard_schema Fields).

Lemma plugin_instance_ok p : ok (plugin_instance Fields p).
Proof.
  unfold plugin_instance. apply assign_string_ok; [apply assign_string_ok; [done|]|].
  - apply (sc_instance _ Hsc).
  - rewrite assign_string_FullName. apply (sc_certificate _ Hsc).
Qed.

Lemma plugin_instance_FullName p : FullName (plugin_instance Fields p) = PluginInstanceName.
Proof. unfold plugin_instance. by rewrite !assign_string_FullName. Qed.

Lemma adjust_certificate_ok m : FullName m = CommonTlsContextName -> ok m -> ok (adjust_certificate Fields m).
Proof.
  intros Hn Hm. unfold adjust_certificate. destruct (get_message _ _) as [p|]; [|done].
  apply clear_ok, assign_message_ok; [done|apply plugin_instance_ok|by rewrite plugin_instance_FullName|].
  rewrite Hn, plugin_instance_FullName. apply (sc_provider _ Hsc).
Qed.

Lemma adjust_certificate_FullName m : FullName (adjust_certificate Fields m) = FullName m.
Proof. unfold adjust_certificate. destruct (get_message _ _); [|done]. simpl. apply assign_FullName. Qed.

(** A message field is declared once. *)
Lemma get_message_declared (m : Message) n k sub (sub' : Message) f :
  declares Fields (FullName m) n k sub -> f ∈ Fields (FullName m) -> fd_Name f = n ->
  FullName sub' = vd_Message (fd_Value f) -> FullName sub' = sub.
Proof.
  intros Hd Hf Hn ->. destruct (ByName Fields (FullName m) n) as [g|] eqn:E.
  - destruct (Hd g E) as (_ & _ & <-). apply ByName_Some in E as [Hg He].
    f_equal. f_equal. apply (sc_unique _ Hsc (FullName m)); [done..|congruence].
  - apply list_elem_of_In in Hf. pose proof (List.find_none _ _ E f Hf) as Hx. simpl in Hx.
    by rewrite Hn, String.eqb_refl in Hx.
Qed.

Lemma adjust_validation_ok m : FullName m = CommonTlsContextName -> ok m -> ok (adjust_validation Fields m).
Proof.
  intros Hn Hm. unfold adjust_validation.
  destruct (get_message m "combined_validation_context") as [c|] eqn:Ec; [|done].
  destruct (get_message c _) as [p|] eqn:Ep; [|done].
  destruct (get_message_ok _ _ _ Hm Ec) as (Hc & f & Hf & Hfn & Hfc).
  assert (Hcn : FullName c = CommonTlsContextName +:+ ".CombinedCertificateValidationContext").
  { eapply (get_message_declared m); [|done..]. rewrite Hn. apply (sc_combined _ Hsc). }
  set (ctx := default (mkMessage ValidationContextName "" []) (get_message c "default_validation_context")).
  assert (Hctx : ok ctx /\ FullName ctx = ValidationContextName).
  { unfold ctx. destruct (get_message c "default_validation_context") as [d|] eqn:Ed; [|done]. simpl.
    destruct (get_message_ok _ _ _ Hc Ed) as (Hd & g & Hg & Hgn & Hgc). split; [done|].
    eapply (get_message_declared c); [|done..]. rewrite Hcn. apply (sc_default _ Hsc). }
  destruct Hctx as [Hctx Hctxn].
  apply assign_message_ok; [done| | |].
  - apply clear_ok, assign_message_ok; [done| | |].
    + apply assign_message_ok; [done|apply plugin_instance_ok|by rewrite plugin_instance_FullName|].
      rewrite Hctxn, plugin_instance_FullName. apply (sc_ca _ Hsc).
    + by rewrite assign_FullName, Hctxn.
    + rewrite assign_FullName, Hctxn, Hcn. apply (sc_default _ Hsc).
  - simpl. by rewrite assign_FullName, Hcn.
  - simpl. rewrite assign_FullName, Hn, Hcn. apply (sc_combined _ Hsc).
Qed.

Lemma adjust_FullName m : FullName (adjust Fields m) = FullName m.
Proof.
  unfold adjust. set (m1 := if String.eqb (FullName m) ConfigSourceName then _ else m).
  assert (H1 : FullName m1 = FullName m) by (unfold m1; destruct (String.eqb _ _); [apply assign_FullName|done]).
  set (m2 := if _ && _ then _ else m1).
  assert (H2 : FullName m2 = FullName m) by (unfold m2; destruct (_ && _); [by rewrite assign_string_FullName|done]).
  destruct (String.eqb (FullName m2) CommonTlsContextName); [|done].
  rewrite <- H2, <- (adjust_certificate_FullName m2).
  unfold adjust_validation. repeat case_match; auto using assign_FullName.
Qed.

Lemma adjust_ok m : ok m -> ok (adjust Fields m).
Proof.
  intros Hm. unfold adjust. set (m1 := if String.eqb (FullName m) ConfigSourceName then _ else m).
  assert (H1 : ok m1).
  { unfold m1. destruct (String.eqb_spec (FullName m) ConfigSourceName) as [E|]; [|done].
    apply assign_ok; [done|]. intros f. rewrite E. intros Hf. destruct (sc_version _ Hsc f Hf) as (Hsh & Hk & _).
    unfold field_conforms. rewrite Hsh. split; [done|]. by apply (sc_version_enum _ Hsc). }
  set (m2 := if _ && _ then _ else m1).
  assert (H2 : ok m2).
  { unfold m2. destruct (String.eqb_spec (FullName m1) TransportSocketName) as [E|]; [|done]. simpl.
    destruct (String.eqb (get_string m1 "name") _); [|done]. apply assign_string_ok; [done|].
    rewrite E. apply (sc_socket _ Hsc). }
  destruct (String.eqb_spec (FullName m2) CommonTlsContextName) as [E|]; [|done].
  apply adjust_validation_ok; [by rewrite adjust_certificate_FullName|by apply adjust_certificate_ok].
Qed.

Lemma message_of_any_ok a : ok (message_of_any a).
Proof.
  destruct (sc_any _ Hsc) as [Ht Hv]. rewrite message_ok_alt. unfold message_of_any. cbn [FullName Populated].
  apply Forall_app. split; destruct (String.eqb _ ""); by repeat constructor.
Qed.

End adjusted.

End schema_lemmas.

(** *** Conformance of translations *)

Section translate_lemmas.
Context (Fields : string -> list FieldDescriptor) (Hsc : standard_schema Fields) (any_ok : Any -> Prop).
Context (translate : Value -> ValueDescriptor -> ValueDescriptor -> res Value) (any : option Any -> res Any)
        (Hany : forall a a', any (Some a) = Ok a' -> any_ok a').
Notation vok := (value_ok Fields any_ok declared_enum).
Notation ok := (message_ok Fields any_ok declared_enum).

Definition types_paired (s d : ValueDescriptor) : Prop :=
  vd_Kind s = MessageKind -> vd_Kind d = MessageKind -> paired Fields (vd_Message s) (vd_Message d).

(** Translation of a decoded value conforms to the descriptor asked for. *)
Definition lands (v : Value) : Prop :=
  forall s d v', decoded_value Fields v s -> types_paired s d -> translate v s d = Ok v' -> vok v' d.

Lemma translate_list_ok l s d l' :
  Forall lands l -> types_paired s d -> every (fun v => decoded_value Fields v s) l ->
  translate_list translate l s d = Ok l' -> every (fun v => vok v d) l'.
Proof.
  intros Hl Hp. revert l'. induction Hl as [|v l Hv _ IH]; intros l' Hd E; simpl in E; [by simplify_eq|].
  apply res_bind_ok in E as (v' & Ev & E). apply res_bind_ok in E as (rest & Er & [= <-]).
  destruct Hd as [Hdv Hd]. split; [by eapply Hv|by apply IH].
Qed.

(** A map keeps its keys. *)
Lemma translate_map_ok k l s d l' :
  Forall lands (map snd l) -> types_paired s d -> every (fun e => scalar_kind k (fst e) = true /\ decoded_value Fields (snd e) s) l ->
  translate_map translate l s d = Ok l' -> every (fun e => scalar_kind k (fst e) = true /\ vok (snd e) d) l'.
Proof.
  intros Hl Hp. revert l' Hl. induction l as [|[k0 v] l IH]; intros l' Hl Hd E; simpl in E; [by simplify_eq|].
  apply Forall_cons in Hl as [Hv Hl].
  apply res_bind_ok in E as (v' & Ev & E). apply res_bind_ok in E as (rest & Er & [= <-]).
  destruct Hd as [[Hk Hdv] Hd]. split; [split; [done|by eapply Hv]|by apply IH].
Qed.

Lemma translate_field_ok f fv g fv' :
  Forall lands (values_of fv) -> types_paired (elem f) (elem g) -> field_conforms (decoded_value Fields) f fv ->
  translate_field translate f fv g = Ok fv' -> field_conforms vok g fv'.
Proof.
  intros Hv. unfold translate_field, field_conforms, elem.
  destruct (fd_Shape f), (fd_Shape g), fv as [v|l|l]; try done; intros Hp Hd E.
  - apply res_bind_ok in E as (v' & Ev & [= <-]). simpl in Hv. rewrite Forall_singleton in Hv. by eapply Hv.
  - apply res_bind_ok in E as (l' & El & [= <-]). by eapply translate_list_ok.
  - case_bool_decide; [subst|done]. apply res_bind_ok in E as (l' & El & [= <-]). by eapply translate_map_ok.
Qed.

Lemma translate_fields_ok src fs dst out out' :
  paired Fields src dst ->
  Forall (fun e => Forall lands (values_of (snd e))) fs ->
  Forall (fun e => fst e ∈ Fields src /\ field_conforms (decoded_value Fields) (fst e) (snd e)) fs ->
  Forall (entry_ok Fields any_ok dst) out -> translate_fields Fields translate fs dst out = Ok out' ->
  Forall (entry_ok Fields any_ok dst) out'.
Proof.
  intros Hp Hf. revert out. induction Hf as [|[f fv] fs Hv _ IH]; intros out Hd Ho E; simpl in E; [by simplify_eq|].
  apply Forall_cons in Hd as [[Hfs Hc] Hd]. cbn [fst snd] in Hfs, Hc.
  destruct (ByName Fields dst (fd_Name f)) as [g|] eqn:Eg; [|done].
  apply res_bind_ok in E as (fv' & Efv & E). apply (IH _) in E; [done|done|].
  apply set_field_ok; [done|]. split; [by apply ByName_Some in Eg as [? _]|]. cbn [fst snd].
  eapply translate_field_ok; [exact Hv| |exact Hc|exact Efv]. intros Hk1 Hk2. by eapply paired_field.
Qed.

Lemma translateMessage_ok (m : Message) dst m' :
  paired Fields (FullName m) dst -> decoded_ok Fields m ->
  Forall (fun e => Forall lands (values_of (snd e))) (Populated m) ->
  translateMessage Fields translate any m dst = Ok m' ->
  ok m' /\ FullName m' = dst /\ (FullName m' = AnyName -> any_ok (any_of_message m')).
Proof.
  intros Hp Hd Hf. unfold translateMessage. destruct (negb _); [done|].
  destruct (String.eqb_spec (FullName m) AnyName) as [Ea|Ea].
  - intros E. apply res_bind_ok in E as (a & Eany & E). destruct (String.eqb_spec dst AnyName) as [->|]; [|done].
    injection E as <-. split; [by apply message_of_any_ok|]. split; [done|]. intros _.
    rewrite any_of_message_of_any. by eapply Hany.
  - intros E. apply res_bind_ok in E as (fs & Efs & [= <-]). rewrite adjust_FullName. cbn [FullName]. split; [|split; [done|]].
    + apply adjust_ok; [done|]. apply message_ok_alt. cbn [FullName Populated].
      eapply translate_fields_ok; [exact Hp|exact Hf|by apply every_Forall|constructor|exact Efs].
    + intros ->. destruct Ea. by apply (sc_any_pair _ Hsc).
Qed.

End translate_lemmas.

Lemma exact_matcher_ok Fields (Hsc : standard_schema Fields) any_ok s :
  message_ok Fields any_ok declared_enum (exact_matcher Fields s) /\ FullName (exact_matcher Fields s) = StringMatcherName.
Proof.
  unfold exact_matcher. split; [|apply assign_FullName]. apply assign_ok; [done|].
  intros f (Hsh & Hk & _)%(sc_exact _ Hsc). unfold field_conforms. rewrite Hsh. simpl. by rewrite Hk.
Qed.

Lemma translate_enum_ok Fields any_ok n s d v :
  vd_Kind d = EnumKind -> translate_enum n s d = Ok v -> value_ok Fields any_ok declared_enum v d.
Proof.
  intros Hk. unfold translate_enum. destruct (List.find _ (vd_Enum s)) as [[? name]|]; [|done].
  destruct (List.find _ (vd_Enum d)) as [[n' name']|] eqn:E; [|done]. intros [= <-]. simpl.
  split; [done|]. apply list_elem_of_fmap. exists (n', name'). split; [done|].
  apply find_some in E as [? _]. by apply list_elem_of_In.
Qed.

Lemma translateValue_ok Fields (Hsc : standard_schema Fields) any_ok any v :
  (forall a a', any (Some a) = Ok a' -> any_ok a') -> lands Fields any_ok (translateValue Fields any) v.
Proof.
  intros Hany. induction v as [sc|b|n|m IH] using Value_nested_ind; intros s d v' Hd Hp E; simpl in E.
  all: destruct (is_san s d) eqn:Esan.
  all: try (destruct (bool_decide_reflect (vd_Kind s = vd_Kind d)) as [Hk|]; [|done]; simpl in E).
  - destruct sc as [| | |str]; try done. injection E as <-. unfold is_san in Esan. breflect.
    destruct (exact_matcher_ok Fields Hsc any_ok str) as [Hok Hn]. cbn [value_ok]. rewrite Hn.
    split; [done|]. split; [symmetry; by apply String.eqb_eq|]. split; [done|exact Hok].
  - rewrite Hk in E. destruct (vd_Kind d) eqn:Ed, sc; try done; injection E as <-; simpl; by rewrite Ed.
  - done.
  - rewrite Hk in E. destruct (vd_Kind d) eqn:Ed; try done. injection E as <-. simpl. by rewrite Ed.
  - done.
  - rewrite Hk in E. destruct (vd_Kind d) eqn:Ed; try done. by eapply translate_enum_ok.
  - done.
  - destruct Hd as (Hks & Hn & _ & Hd). rewrite Hks in E, Hk.
    apply res_bind_ok in E as (m' & Em & [= <-]). symmetry in Hk.
    destruct (translateMessage_ok Fields Hsc any_ok (translateValue Fields any) any Hany m (vd_Message d) m') as (Hok & Hn' & Ha); [| |exact IH|exact Em|].
    + rewrite Hn. by apply Hp.
    + exact Hd.
    + cbn [value_ok]. split; [done|]. split; [done|]. split; [done|exact Hok].
Qed.

(** *** Fields are carried over *)

(** Fields of the source that can be set together stay so. *)
Definition oneofs_kept (Fields : string -> list FieldDescriptor) (src dst : string) : Prop :=
  forall f1 f2 g1 g2 o, f1 ∈ Fields src -> f2 ∈ Fields src ->
    ByName Fields dst (fd_Name f1) = Some g1 -> ByName Fields dst (fd_Name f2) = Some g2 ->
    fd_Oneof g1 = Some o -> fd_Oneof g2 = Some o ->
    exists o', fd_Oneof f1 = Some o' /\ fd_Oneof f2 = Some o'.

(** A message as protobuf keeps it: declared fields, each once, at most one
    member of a oneof. *)
Record populated_ok (Fields : string -> list FieldDescriptor) (m : Message) : Prop := {
  po_declared e : e ∈ Populated m -> fst e ∈ Fields (FullName m);
  po_once : NoDup (map (fun e => fd_Name (fst e)) (Populated m));
  po_oneof e1 e2 o : e1 ∈ Populated m -> e2 ∈ Populated m ->
    fd_Oneof (fst e1) = Some o -> fd_Oneof (fst e2) = Some o -> fd_Name (fst e1) = fd_Name (fst e2)
}.

(** [e'] is the field of that name in the destination, holding what [e] holds. *)
Definition carried (translate : Value -> ValueDescriptor -> ValueDescriptor -> res Value)
    (e e' : FieldDescriptor * FieldValue Value) : Prop :=
  fd_Name (fst e') = fd_Name (fst e) /\ translate_field translate (fst e) (snd e) (fst e') = Ok (snd e').

Lemma set_field_elem out f fv e :
  e ∈ set_field out f fv <-> (e ∈ out /\ same_field f (fst e) = false) \/ e = (f, fv).
Proof.
  unfold set_field. rewrite elem_of_app, list_elem_of_singleton, !list_elem_of_In, filter_In, negb_true_iff. done.
Qed.

Lemma translate_fields_carried Fields translate dst fs out out' :
  (forall e e' g g', e ∈ fs -> e' ∈ fs -> fd_Name (fst e) <> fd_Name (fst e') ->
     ByName Fields dst (fd_Name (fst e)) = Some g -> ByName Fields dst (fd_Name (fst e')) = Some g' ->
     same_field g g' = false) ->
  NoDup (map (fun e => fd_Name (fst e)) fs) ->
  (forall e' e, e' ∈ out -> e ∈ fs -> forall g, ByName Fields dst (fd_Name (fst e)) = Some g -> same_field g (fst e') = false) ->
  translate_fields Fields translate fs dst out = Ok out' ->
  (forall e', e' ∈ out -> e' ∈ out') /\
  (forall e, e ∈ fs -> exists e', e' ∈ out' /\ carried translate e e') /\
  (forall e', e' ∈ out' -> e' ∈ out \/ exists e, e ∈ fs /\ carried translate e e').
Proof.
  revert out. induction fs as [|[f fv] fs IH]; intros out Hone Hnd Hout E; simpl in E.
  { simplify_eq. split; [done|]. split; [|auto]. intros e He. by apply elem_of_nil in He. }
  apply NoDup_cons in Hnd as [Hf Hnd]. destruct (ByName Fields dst (fd_Name f)) as [g|] eqn:Eg; [|done].
  apply res_bind_ok in E as (fv' & Efv & E).
  assert (Hne : forall e, e ∈ fs -> fd_Name f <> fd_Name (fst e)).
  { intros e He Heq. apply Hf, list_elem_of_fmap. eauto. }
  destruct (IH (set_field out g fv')) as (Hk & Hc & Hb); [| |  |exact E|].
  - intros e e' g1 g2 He He'. apply Hone; set_solver.
  - done.
  - intros e' e Ho He g' Hg'. apply set_field_elem in Ho as [[Ho _]| ->].
    + apply (Hout e' e); [done|set_solver|done].
    + cbn [fst]. apply (Hone e (f, fv)); [set_solver|set_solver| |done|done]. cbn [fst]. intros Heq.
      by apply (Hne e).
  - assert (Hg : carried translate (f, fv) (g, fv')).
    { split; [|done]. cbn [fst]. by apply ByName_Some in Eg as [_ ?]. }
    split; [|split].
    + intros e' He'. apply Hk, set_field_elem. left. split; [done|].
      apply (Hout e' (f, fv)); [done|set_solver|done].
    + intros e He. apply elem_of_cons in He as [->|He]; [|by apply Hc].
      exists (g, fv'). split; [|done]. apply Hk, set_field_elem. by right.
    + intros e' He'. destruct (Hb e' He') as [Ho|(e & He & Hce)].
      * apply set_field_elem in Ho as [[Ho _]| ->]; [by left|]. right. exists (f, fv). split; [set_solver|done].
      * right. exists e. split; [set_solver|done].
Qed.

(** ** Depth of nested messages *)

Definition field_weight (w : Value -> nat) (fv : FieldValue Value) : nat :=
  match fv with
  | Single v => w v
  | ListOf l => list_sum (map w l)
  | MapOf l => list_sum (map (fun e => w (snd e)) l)
  end.
Definition message_weight (w : Value -> nat) (m : Message) : nat :=
  list_sum (map (fun e => S (field_weight w (snd e))) (Populated m)).
(** Bytes a value takes at least on the wire: a field has a tag. *)
Fixpoint weight (v : Value) : nat :=
  match v with
  | VScalar (SString s) => String.length s
  | VBytes b => String.length b
  | VMessage m => message_weight weight m
  | _ => 0
  end.

Lemma list_sum_elem {A} (f : A -> nat) l x : x ∈ l -> (f x <= list_sum (map f l))%nat.
Proof. induction 1 as [x l|x y l _ IH]; simpl; lia. Qed.

Lemma field_weight_elem v fv : v ∈ values_of fv -> (weight v <= field_weight weight fv)%nat.
Proof.
  destruct fv as [u|l|l]; simpl; intros Hv.
  - apply list_elem_of_singleton in Hv as ->. done.
  - by apply list_sum_elem.
  - apply list_elem_of_fmap in Hv as ([k u] & -> & Hin). by apply (list_sum_elem (fun e => weight (snd e))) in Hin.
Qed.

Lemma message_weight_elem (m : Message) e v :
  e ∈ Populated m -> v ∈ values_of (snd e) -> (weight v < message_weight weight m)%nat.
Proof.
  intros He Hv. apply field_weight_elem in Hv.
  apply (list_sum_elem (fun e => S (field_weight weight (snd e)))) in He. unfold message_weight. lia.
Qed.

Lemma any_of_message_weight (m : Message) :
  (String.length (any_Value (any_of_message m)) <= message_weight weight m)%nat.
Proof.
  unfold any_of_message, get_field. cbn [any_Value].
  destruct (List.find _ (Populated m)) as [[f fv]|] eqn:E; simpl; [|lia].
  apply find_some in E as [Hin _]. apply list_elem_of_In in Hin.
  destruct fv as [[|b| |]|l|l]; simpl; try lia.
  pose proof (message_weight_elem m (f, Single (VBytes b)) (VBytes b) Hin) as Hw. simpl in Hw.
  specialize (Hw ltac:(set_solver)). lia.
Qed.

Section congruence.
Context (Fields : string -> list FieldDescriptor).
Context (t1 t2 : Value -> ValueDescriptor -> ValueDescriptor -> res Value).

Definition agree (v : Value) : Prop := forall s d, t1 v s d = t2 v s d.

Lemma translate_list_agree l s d : Forall agree l -> translate_list t1 l s d = translate_list t2 l s d.
Proof. induction 1 as [|v l Hv _ IH]; simpl; [done|]. by rewrite Hv, IH. Qed.

Lemma translate_map_agree l s d : Forall agree (map snd l) -> translate_map t1 l s d = translate_map t2 l s d.
Proof.
  induction l as [|[k v] l IH]; simpl; intros Hl; [done|]. apply Forall_cons in Hl as [Hv Hl].
  by rewrite Hv, IH.
Qed.

Lemma translate_field_agree f fv g : Forall agree (values_of fv) -> translate_field t1 f fv g = translate_field t2 f fv g.
Proof.
  intros Hv. unfold translate_field. destruct (fd_Shape f), (fd_Shape g), fv as [v|l|l]; try done; simpl in Hv.
  - rewrite Forall_singleton in Hv. by rewrite Hv.
  - by rewrite translate_list_agree.
  - by rewrite translate_map_agree.
Qed.

Lemma translate_fields_agree fs dst out :
  Forall (fun e => Forall agree (values_of (snd e))) fs ->
  translate_fields Fields t1 fs dst out = translate_fields Fields t2 fs dst out.
Proof.
  intros Hf. revert out. induction Hf as [|[f fv] fs Hv _ IH]; intros out; simpl; [done|].
  destruct (ByName _ _ _) as [g|]; [|done]. rewrite (translate_field_agree f fv g Hv).
  destruct (translate_field t2 f fv g); simpl; [apply IH|done..].
Qed.

End congruence.

Lemma translateValue_agree Fields any1 any2 w v :
  (forall a, (String.length (any_Value a) < w)%nat -> any1 (Some a) = any2 (Some a)) ->
  (weight v < w)%nat -> agree (translateValue Fields any1) (translateValue Fields any2) v.
Proof.
  intros Hany. induction v as [sc|b|n|m IH] using Value_nested_ind; intros Hw s d; try done.
  simpl. destruct (is_san s d); [done|]. destruct (negb _); [done|]. destruct (vd_Kind s); try done.
  f_equal. unfold translateMessage. destruct (negb _); [done|]. destruct (String.eqb (FullName m) AnyName).
  - rewrite Hany; [done|]. eapply Nat.le_lt_trans; [apply any_of_message_weight|exact Hw].
  - rewrite (translate_fields_agree Fields (translateValue Fields any1) (translateValue Fields any2)); [done|].
    rewrite Forall_forall in IH |- *. intros e He. specialize (IH e He).
    rewrite Forall_forall in IH |- *. intros v Hv. apply IH; [done|].
    pose proof (message_weight_elem m e v He Hv). simpl in Hw. lia.
Qed.

Lemma any_not_standard : AnyName ∉ map fst standard_pairs.
Proof. apply (bool_decide_unpack _). vm_compute. exact I. Qed.

(** What is documented of the registry and of the wire format: a type URL ends
    in the name of the type, a message is decoded as the type asked for and conforms
    to its descriptor, but for the numbers of enums, and the contents of a message are
    part of its bytes. *)
Class Wire (Fields : string -> list FieldDescriptor) (FindMessageByURL : string -> option string) (Unmarshal : string -> string -> option Message) : Prop := {
  find_type n t : FindMessageByURL (type_prefix +:+ n) = Some t -> t = n;
  unmarshal_type t b m : Unmarshal t b = Some m -> FullName m = t;
  unmarshal_decoded t b m : Unmarshal t b = Some m -> decoded_ok Fields m;
  unmarshal_weight t b m : Unmarshal t b = Some m -> (message_weight weight m <= String.length b)%nat
}.

(** ** Properties *)

Section properties.
Context `{RangeOrder} (Fields : string -> list FieldDescriptor)
        (Find : string -> option string) (Unmarshal : string -> string -> option Message)
        (Marshal : Message -> option string).

Lemma standardAny_fuel_conforms `{!Wire Fields Find Unmarshal} fuel a a' :
  standard_schema Fields -> standardAny_fuel Fields Find Unmarshal Marshal fuel (Some a) = Ok a' ->
  standardURL (any_TypeUrl a) = Ok (any_TypeUrl a') /\ standard_any Fields Marshal fuel a'.
Proof.
  intros Hsc. revert a a'. induction fuel as [|fuel IH]; intros a a'; cbn [standardAny_fuel]; [done|]. intros E.
  apply res_bind_ok in E as (url & Eurl & E). rewrite Eurl.
  destruct (Find (any_TypeUrl a)) as [src|] eqn:Esrc; [|done]. destruct (Find url) as [dst|] eqn:Edst; [|done].
  destruct (Unmarshal src _) as [m|] eqn:Eu; [|done]. apply res_bind_ok in E as (m' & Em & E).
  apply standardURL_spec in Eurl as (n & t & Hin & Ename & ->). rewrite Ename in Esrc. apply find_type in Edst as ->, Esrc as ->.
  assert (Hany : forall b b', standardAny_fuel Fields Find Unmarshal Marshal fuel (Some b) = Ok b' -> standard_any Fields Marshal fuel b')
    by (intros b b' Hb; by destruct (IH b b' Hb)).
  eapply (translateMessage_ok Fields Hsc (standard_any Fields Marshal fuel) _ _ Hany) in Em as (Hok & Hn & _).
  2:{ rewrite (unmarshal_type _ _ _ Eu). by apply paired_table. }
  2:{ by eapply unmarshal_decoded. }
  2:{ apply Forall_forall. intros e _. apply Forall_forall. intros v _. by apply translateValue_ok. }
  unfold anypb_New in E. destruct (Marshal m') as [b|] eqn:Eb; [|done]. injection E as <-.
  change "type.googleapis.com/" with type_prefix. rewrite Hn. split; [done|]. exists m'.
  cbn [any_TypeUrl any_Value]. rewrite Hn. split; [exact Hok|]. split; [done|]. split; [|done].
  apply list_elem_of_fmap. by exists (n, t).
Qed.

(** C32 A resource the adapter translates is a resource of the standard API: it
    has the type the table names, its message has only fields that type declares,
    of the declared shapes and kinds at every depth, the keys of maps included, and
    enum numbers that exist there; and every resource packed into it as an [Any] is
    again one of a type of the table that conforms in the same way.  This takes for
    granted that decoded messages conform to the descriptors of the custom API, and of
    the descriptors that a field of type [Any] stands for one of type [Any], and
    that the fields the adapter assigns have the types of the generated code. *)
Theorem translation_conforms `{!Wire Fields Find Unmarshal} a a' :
  standard_schema Fields ->
  standardAny Fields Find Unmarshal Marshal (Some a) = Ok a' ->
  standardURL (any_TypeUrl a) = Ok (any_TypeUrl a') /\ exists depth, standard_any Fields Marshal depth a'.
Proof. intros Hsc E. apply standardAny_fuel_conforms in E as [Hu Ha]; [|done]. split; [done|by eexists]. Qed.

(** Configured behaviour is never dropped silently: when a message is
    translated, it had no unknown fields and every field it sets is set in the
    translation under its name, with the translation of its value, and nothing
    else is, before the adjustments of TLS and configuration sources. *)
Theorem translation_keeps_fields any (m : Message) dst m' :
  FullName m <> AnyName -> populated_ok Fields m -> oneofs_kept Fields (FullName m) dst ->
  translateMessage Fields (translateValue Fields any) any m dst = Ok m' ->
  GetUnknown m = "" /\ exists fields, m' = adjust Fields (mkMessage dst "" fields) /\
    (forall e, e ∈ Populated m -> exists e', e' ∈ fields /\ carried (translateValue Fields any) e e') /\
    (forall e', e' ∈ fields -> exists e, e ∈ Populated m /\ carried (translateValue Fields any) e e').
Proof.
  intros Hn Hp Ho. unfold translateMessage. destruct (String.eqb_spec (GetUnknown m) "") as [Hu|]; [|done].
  cbn [negb]. destruct (String.eqb_spec (FullName m) AnyName); [done|]. intros E.
  apply res_bind_ok in E as (fields & Ef & [= <-]). split; [done|]. exists fields. split; [done|].
  destruct (translate_fields_carried Fields (translateValue Fields any) dst (Populated m) [] fields)
    as (_ & Hc & Hb); [| | |exact Ef|].
  - intros e1 e2 g1 g2 H1 H2 Hne E1 E2. unfold same_field. apply orb_false_iff. split.
    + apply ByName_Some in E1 as [_ ->], E2 as [_ ->]. by apply String.eqb_neq.
    + destruct (fd_Oneof g1) as [o1|] eqn:O1; [|done]. destruct (fd_Oneof g2) as [o2|] eqn:O2; [|done].
      apply String.eqb_neq. intros ->. apply Hne.
      destruct (Ho (fst e1) (fst e2) g1 g2 o2) as (o' & ? & ?); try done.
      * by apply (po_declared _ _ Hp).
      * by apply (po_declared _ _ Hp).
      * by apply (po_oneof _ _ Hp e1 e2 o').
  - apply (po_once _ _ Hp).
  - intros e' e He'. by apply elem_of_nil in He'.
  - split; [done|]. intros e' He'. destruct (Hb e' He') as [Hnil|]; [|done]. by apply elem_of_nil in Hnil.
Qed.

Lemma standardAny_fuel_stable `{!Wire Fields Find Unmarshal} n k a :
  (String.length (any_Value a) < n)%nat -> (String.length (any_Value a) < k)%nat ->
  standardAny_fuel Fields Find Unmarshal Marshal n (Some a) = standardAny_fuel Fields Find Unmarshal Marshal k (Some a).
Proof.
  revert k a. induction n as [|n IH]; intros k a Hn Hk; [lia|]. destruct k as [|k]; [lia|].
  cbn [standardAny_fuel]. destruct (standardURL (any_TypeUrl a)) as [url| |] eqn:Eurl; [|done..]. cbn [mbind res_bind].
  destruct (Find (any_TypeUrl a)) as [src|] eqn:Esrc; [|done]. destruct (Find url); [|done].
  destruct (Unmarshal src _) as [m|] eqn:Em; [|done]. f_equal.
  apply standardURL_spec in Eurl as (name & t & Hin & Ename & _). rewrite Ename in Esrc. apply find_type in Esrc as ->.
  pose proof (unmarshal_type _ _ _ Em) as Hname. pose proof (unmarshal_weight _ _ _ Em) as Hw.
  unfold translateMessage. destruct (negb _); [done|].
  destruct (String.eqb_spec (FullName m) AnyName) as [Hany|].
  { exfalso. apply any_not_standard. rewrite <- Hany, Hname. apply list_elem_of_fmap. by exists (name, t). }
  f_equal. apply translate_fields_agree. apply Forall_forall. intros e He. apply Forall_forall. intros v Hv.
  apply (translateValue_agree Fields _ _ (String.length (any_Value a))).
  - intros a' Ha'. apply IH; lia.
  - pose proof (message_weight_elem m e v He Hv). lia.
Qed.

(** Translation ends on every resource, however deeply resources are packed
    into each other: the number of bytes bounds the depth, and a greater bound
    gives the same result. *)
Theorem translation_terminates `{!Wire Fields Find Unmarshal} a fuel :
  (String.length (any_Value a) < fuel)%nat ->
  standardAny_fuel Fields Find Unmarshal Marshal fuel (Some a) = standardAny Fields Find Unmarshal Marshal (Some a).
Proof. intros Hf. unfold standardAny. apply standardAny_fuel_stable; lia. Qed.

End properties.

(** *** Witnesses *)

Definition string_field (message name : string) : FieldDescriptor :=
  mkFieldDescriptor name (plain (message +:+ "." +:+ name) StringKind) Singular None.
Definition message_field (message name sub : string) (oneof : option string) : FieldDescriptor :=
  mkFieldDescriptor name (mkValueDescriptor (message +:+ "." +:+ name) MessageKind sub []) Singular oneof.
Definition policy_field (message : string) (values : list (Z * string)) : FieldDescriptor :=
  mkFieldDescriptor "lb_policy" (mkValueDescriptor (message +:+ ".lb_policy") EnumKind "" values) Singular None.

Definition CombinedName : string := CommonTlsContextName +:+ ".CombinedCertificateValidationContext".

(** Two cluster types whose enums have different numbers, and the types the
    adapter adjusts. *)
Definition sample_registry_fields : list (string * list FieldDescriptor) :=
  [ ("cluster.v1.Cluster",
     [string_field "c" "name"; policy_field "c" [(0, "ROUND_ROBIN"); (1, "LEAST_REQUEST")]; message_field "c" "extra" AnyName None]);
    ("envoy.config.cluster.v3.Cluster",
     [string_field "e" "name"; policy_field "e" [(0, "ROUND_ROBIN"); (6, "LEAST_REQUEST")]; message_field "e" "extra" AnyName None]);
    (AnyName, [any_type_url; any_value]);
    (ConfigSourceName,
     [mkFieldDescriptor "resource_api_version"
        (mkValueDescriptor "version" EnumKind "" [(0, "AUTO"); (2, "V3")]) Singular None]);
    (TransportSocketName, [string_field "t" "name"]);
    (PluginInstanceName, [string_field "p" "instance_name"; string_field "p" "certificate_name"]);
    (CommonTlsContextName,
     [message_field "x" "tls_certificate_provider_instance" PluginInstanceName None;
      message_field "x" "combined_validation_context" CombinedName (Some "validation_context_type")]);
    (CombinedName, [message_field "v" "default_validation_context" ValidationContextName None]);
    (ValidationContextName, [message_field "w" "ca_certificate_provider_instance" PluginInstanceName None]);
    (StringMatcherName,
     [mkFieldDescriptor "exact" (plain "exact" StringKind) Singular (Some "match_pattern")]) ].
Definition sample_fields (message : string) : list FieldDescriptor :=
  match List.find (fun e => String.eqb (fst e) message) sample_registry_fields with
  | Some (_, fs) => fs
  | None => []
  end.

Lemma sample_declares message name k sub :
  match ByName sample_fields message name with
  | Some f => bool_decide (fd_Shape f = Singular) && bool_decide (vd_Kind (fd_Value f) = k)
              && String.eqb (vd_Message (fd_Value f)) sub
  | None => true
  end = true -> declares sample_fields message name k sub.
Proof. intros Hb f Hf. rewrite Hf in Hb. breflect. split_and!; [done..|by apply String.eqb_eq]. Qed.

Lemma sample_fields_elem message f :
  f ∈ sample_fields message -> exists fs, (message, fs) ∈ sample_registry_fields /\ f ∈ fs /\ sample_fields message = fs.
Proof.
  unfold sample_fields. destruct (List.find _ _) as [[n fs]|] eqn:E; [|by intros ?%elem_of_nil].
  apply find_some in E as [Hin He]. apply String.eqb_eq in He. simpl in He. subst n. intros Hf.
  exists fs. split; [by apply list_elem_of_In|done].
Qed.

(** Only the fields called [extra] hold resources. *)
Lemma sample_extra message f : f ∈ sample_fields message -> fd_Name f = "extra" <-> vd_Message (elem f) = AnyName.
Proof.
  assert (Hall : forallb (fun e => forallb (fun f => Bool.eqb (String.eqb (fd_Name f) "extra") (String.eqb (vd_Message (elem f)) AnyName)) (snd e))
    sample_registry_fields = true) by (vm_compute; reflexivity).
  intros Hf. apply sample_fields_elem in Hf as (fs & Hm & Hf & _). rewrite forallb_forall in Hall. apply list_elem_of_In in Hm, Hf.
  specialize (Hall _ Hm). cbn [snd] in Hall. rewrite forallb_forall in Hall. specialize (Hall _ Hf). apply Bool.eqb_prop in Hall.
  by rewrite <-!String.eqb_eq, Hall.
Qed.

Lemma sample_any_pair src : paired sample_fields src AnyName -> src = AnyName.
Proof.
  intros Hp. remember AnyName as dst eqn:Ed. destruct Hp as [src dst Hin|src dst f g _ Hf Hg _ _]; subst.
  - exfalso. assert (Hn : AnyName ∉ map snd standard_pairs) by (apply (bool_decide_unpack _); vm_compute; exact I).
    apply Hn, list_elem_of_fmap. by exists (src, AnyName).
  - rewrite Ed. apply ByName_Some in Hg as [Hg Hn]. apply (sample_extra src); [done|]. rewrite <-Hn. by apply (sample_extra dst).
Qed.

Lemma sample_schema : standard_schema sample_fields.
Proof.
  assert (Hnd : forallb (fun e => bool_decide (NoDup (map fd_Name (snd e)))) sample_registry_fields = true)
    by (vm_compute; reflexivity).
  split; try (apply sample_declares; vm_compute; reflexivity).
  - intros m f g Hf Hg Hn. apply sample_fields_elem in Hf as (fs & Hm & Hf & E). rewrite E in Hg.
    rewrite forallb_forall in Hnd. apply list_elem_of_In in Hm. specialize (Hnd _ Hm). simpl in Hnd. breflect.
    apply list_elem_of_lookup in Hf as [i Hi], Hg as [j Hj].
    assert (i = j) as ->; [|congruence]. apply (NoDup_lookup (map fd_Name fs) i j (fd_Name f)); [done| |].
    + by rewrite list_lookup_fmap, Hi.
    + by rewrite list_lookup_fmap, Hj, Hn.
  - split; apply (bool_decide_unpack _); vm_compute; exact I.
  - apply sample_any_pair.
  - assert (Hb : match ByName sample_fields ConfigSourceName "resource_api_version" with
      | Some f => bool_decide (2 ∈ map fst (vd_Enum (fd_Value f))) | None => true end = true)
      by (vm_compute; reflexivity).
    intros f Hf. rewrite Hf in Hb. by breflect.
Qed.

(** A cluster as its name after a tag, or as a resource it holds. *)
Definition sample_find (url : string) : option string :=
  if HasPrefix url type_prefix then Some (TrimPrefix url type_prefix) else None.
Definition sample_cluster (name : string) (policy : Z) : Message :=
  mkMessage "cluster.v1.Cluster" ""
    [(string_field "c" "name", Single (VScalar (SString name)));
     (policy_field "c" [(0, "ROUND_ROBIN"); (1, "LEAST_REQUEST")], Single (VEnum policy))].
Definition sample_url : string := "type.googleapis.com/cluster.v1.Cluster".
Definition sample_holder (v : string) : Message :=
  mkMessage "cluster.v1.Cluster" "" [(message_field "c" "extra" AnyName None, Single (VMessage (message_of_any (mkAny sample_url v))))].
Definition sample_unmarshal (t b : string) : option Message :=
  if negb (String.eqb t "cluster.v1.Cluster") then None else
  match b with
  | String _ (String _ (String "@" rest)) =>
      if HasPrefix rest sample_url then Some (sample_holder (TrimPrefix rest sample_url)) else None
  | String _ (String _ name) => Some (sample_cluster name 1)
  | _ => None
  end.
Definition sample_marshal (m : Message) : option string :=
  Some (match get_message m "extra" with Some a => "@" +:+ any_Value (any_of_message a) | None => get_string m "name" end).

Lemma sample_unmarshal_inv t b m : sample_unmarshal t b = Some m ->
  t = "cluster.v1.Cluster" /\
  ((exists name, m = sample_cluster name 1 /\ String.length b = (2 + String.length name)%nat) \/
   (exists v, m = sample_holder v /\ String.length b = (3 + String.length sample_url + String.length v)%nat)).
Proof.
  unfold sample_unmarshal. destruct (String.eqb_spec t "cluster.v1.Cluster") as [->|]; [|done]. cbn [negb]. intros E. split; [done|].
  destruct b as [|x [|y b]]; [done..|].
  assert (Hb : (exists rest, b = String "@" rest /\ HasPrefix rest sample_url = true /\ m = sample_holder (TrimPrefix rest sample_url)) \/
               m = sample_cluster b 1).
  { destruct b as [|[[] [] [] [] [] [] [] []] b]; try (injection E as <-; by right).
    destruct (HasPrefix b sample_url) eqn:Ep; [|done]. left. exists b. by injection E as <-. }
  destruct Hb as [(rest & -> & Ep & ->)| ->]; [right|left]; eexists; (split; [reflexivity|]); [|reflexivity].
  apply HasPrefix_app_inv in Ep. revert Ep. generalize (str_drop (String.length sample_url) rest) as v. intros v ->. rewrite TrimPrefix_app. cbn [String.length]. rewrite str_length_app. lia.
Qed.

Lemma sample_holder_decoded v : decoded_ok sample_fields (sample_holder v).
Proof.
  assert (Hx : message_field "c" "extra" AnyName None ∈ sample_fields "cluster.v1.Cluster")
    by (apply (bool_decide_unpack _); vm_compute; exact I).
  assert (Hu : any_type_url ∈ sample_fields AnyName) by (apply (bool_decide_unpack _); vm_compute; exact I).
  assert (Hv : any_value ∈ sample_fields AnyName) by (apply (bool_decide_unpack _); vm_compute; exact I).
  split; [|done]. split; [exact Hx|]. split; [done|]. split; [done|]. split; [done|].
  unfold message_conforms, message_of_any. cbn [FullName Populated any_TypeUrl any_Value]. apply every_Forall, Forall_app.
  split; destruct (String.eqb _ _); by repeat constructor.
Qed.

#[global] Instance sample_wire : Wire sample_fields sample_find sample_unmarshal.
Proof.
  split.
  - intros n t. unfold sample_find. destruct (HasPrefix _ _); [|done]. rewrite TrimPrefix_app. by intros [= ->].
  - intros t b m E. apply sample_unmarshal_inv in E as [-> [(name & -> & _)|(v & -> & _)]]; done.
  - intros t b m E. apply sample_unmarshal_inv in E as [_ [(name & -> & _)|(v & -> & _)]].
    + split_and!; try done; apply (bool_decide_unpack _); vm_compute; exact I.
    + apply sample_holder_decoded.
  - intros t b m E. apply sample_unmarshal_inv in E as [_ [(name & -> & Hl)|(v & -> & Hl)]]; rewrite Hl; [cbn; lia|].
    cbn. destruct (String.eqb v ""); cbn; lia.
Qed.

(** A cluster that holds a cluster *)
Definition sample_resource : Any := mkAny sample_url ("..@" +:+ sample_url +:+ "..demo").
Definition sample_standard : res Any :=
  @standardAny sample_fields key_order sample_find sample_unmarshal sample_marshal (Some sample_resource).

Lemma translation_conforms_witness :
  exists a', sample_standard = Ok a' /\ a' = mkAny "type.googleapis.com/envoy.config.cluster.v3.Cluster" "@demo" /\
  exists depth, standard_any sample_fields sample_marshal depth a'.
Proof.
  assert (E : sample_standard = Ok (mkAny "type.googleapis.com/envoy.config.cluster.v3.Cluster" "@demo"))
    by (vm_compute; reflexivity).
  eexists. split; [exact E|]. split; [reflexivity|].
  destruct (@translation_conforms key_order sample_fields sample_find sample_unmarshal sample_marshal sample_wire
    sample_resource _ sample_schema E) as [_ Ha].
  exact Ha.
Defined.

Definition sample_translated : Message :=
  from_ok (mkMessage "" "" []) (translateMessage sample_fields (translateValue sample_fields sample_any) sample_any
    (sample_cluster "demo" 1) "envoy.config.cluster.v3.Cluster").

(** The policy keeps its name and gets the number of the standard API. *)
Example sample_translated_policy : get_field sample_translated "lb_policy" = Some (Single (VEnum 6)).
Proof. vm_compute. reflexivity. Qed.

Lemma translation_keeps_fields_witness :
  exists fields, sample_translated = adjust sample_fields (mkMessage "envoy.config.cluster.v3.Cluster" "" fields) /\
    forall e, e ∈ Populated (sample_cluster "demo" 1) ->
      exists e', e' ∈ fields /\ carried (translateValue sample_fields sample_any) e e'.
Proof.
  destruct (translation_keeps_fields sample_fields sample_any (sample_cluster "demo" 1)
    "envoy.config.cluster.v3.Cluster" sample_translated) as (_ & fields & E & Hc & _).
  - discriminate.
  - split.
    + intros e He. apply elem_of_cons in He as [->|He]; [apply (bool_decide_unpack _); vm_compute; exact I|].
      apply list_elem_of_singleton in He as ->. apply (bool_decide_unpack _). vm_compute. exact I.
    + apply (bool_decide_unpack _). vm_compute. exact I.
    + intros e1 e2 o He. apply elem_of_cons in He as [->|He]; [discriminate|].
      apply list_elem_of_singleton in He as ->. discriminate.
  - intros f1 f2 g1 g2 o Hf1 _ E1 _ Ho _. exfalso. apply ByName_Some in E1 as [Hg _].
    assert (Hall : forallb (fun f => match fd_Oneof f with Some _ => false | None => true end)
      (sample_fields "envoy.config.cluster.v3.Cluster") = true) by (vm_compute; reflexivity).
    rewrite forallb_forall in Hall. apply list_elem_of_In in Hg. specialize (Hall _ Hg). rewrite Ho in Hall. discriminate.
  - apply is_ok_from_ok. vm_compute. reflexivity.
  - exists fields. split; [exact E|exact Hc].
Defined.

Lemma translation_terminates_witness :
  @standardAny_fuel sample_fields key_order sample_find sample_unmarshal sample_marshal 100 (Some sample_resource)
  = sample_standard.
Proof.
  apply (@translation_terminates key_order sample_fields sample_find sample_unmarshal sample_marshal sample_wire).
  cbn. lia.
Defined.
