(* ===== verification/ConfigModel.v ===== *)
(** * Configurations and their schemas

    [pkg/config/model.go] (kinds, metadata, keys, comparison of configurations),
    [pkg/config/schema/resource/schema.go] and
    [pkg/config/schema/collection/schemas.go] (the schemas a store knows).  What a
    configuration holds is a type [V] of its own; protobuf equality and
    [reflect.DeepEqual] are parameters. *)

From S2P Require Import Prelude GoStrings GoSets GoSlices GoSort Hosts Service.

(** ** Kinds *)

Record GroupVersionKind : Type := mkGVK { Group : string; Version : string; Kind : string }.

#[global] Instance GroupVersionKind_eq_dec : EqDecision GroupVersionKind.
Proof. solve_decision. Defined.
#[global] Instance GroupVersionKind_countable : Countable GroupVersionKind.
Proof.
  refine (inj_countable' (fun g => (Group g, Version g, Kind g)) (fun '(a, b, c) => mkGVK a b c) _).
  by intros [].
Defined.

Definition CanonicalGroup (group : string) : string := if negb (String.eqb group "") then group else "core".
Definition GVK_String (g : GroupVersionKind) : string :=
  CanonicalGroup (Group g) +:+ "/" +:+ Version g +:+ "/" +:+ Kind g.
Definition GroupVersion (g : GroupVersionKind) : string :=
  if String.eqb (Group g) "" then Version g else Group g +:+ "/" +:+ Version g.

(** ** Metadata *)

Record OwnerReference : Type := mkOwner {
  ow_APIVersion : string; ow_Kind : string; ow_Name : string; ow_UID : string;
  ow_Controller : option bool; ow_BlockOwnerDeletion : option bool
}.

Module Meta.
Record t : Type := mk {
  GroupVersionKind : GroupVersionKind;
  UID : string;
  Name : string;
  Namespace : string;
  Domain : string;
  Labels : nmap string string;
  Annotations : nmap string string;
  ResourceVersion : string;
  CreationTimestamp : Time;
  OwnerReferences : list OwnerReference;
  Generation : Z
}.
End Meta.
Notation Meta := Meta.t.

(** A configuration; [Spec] and [Status] are [any], nil or a value. *)
Record Config (V : Type) : Type := mkConfig {
  cfg_Meta : Meta;
  cfg_Spec : option V;
  cfg_Status : option V;
  cfg_Extra : nmap string V
}.
Arguments mkConfig {_} _ _ _ _.
Arguments cfg_Meta {_} _.
Arguments cfg_Spec {_} _.
Arguments cfg_Status {_} _.
Arguments cfg_Extra {_} _.

Definition cfg_GVK {V} (c : Config V) : GroupVersionKind := Meta.GroupVersionKind (cfg_Meta c).
Definition cfg_Name {V} (c : Config V) : string := Meta.Name (cfg_Meta c).
Definition cfg_Namespace {V} (c : Config V) : string := Meta.Namespace (cfg_Meta c).
Definition cfg_ResourceVersion {V} (c : Config V) : string := Meta.ResourceVersion (cfg_Meta c).
Definition cfg_CreationTimestamp {V} (c : Config V) : Time := Meta.CreationTimestamp (cfg_Meta c).

(** [types.NamespacedName] *)
Definition NamespacedName {V} (c : Config V) : string * string := (cfg_Namespace c, cfg_Name c).

Definition LabelsInRevision (lbls : nmap string string) (rev : string) : bool :=
  match nmap_get lbls !! "dubbo.apache.org/rev" with
  | None => true
  | Some configEnv => if String.eqb rev "" then true else String.eqb configEnv rev
  end.

Definition Key (grp ver typ name namespace : string) : string :=
  grp +:+ "/" +:+ ver +:+ "/" +:+ typ +:+ "/" +:+ namespace +:+ "/" +:+ name.
Definition Meta_Key (m : Meta) : string :=
  let g := Meta.GroupVersionKind m in Key (Group g) (Version g) (Kind g) (Meta.Name m) (Meta.Namespace m).

(** [maps.Clone] gives a map with the same entries, nil for nil. *)
Definition Meta_DeepCopy (m : Meta) : Meta :=
  Meta.mk (Meta.GroupVersionKind m) (Meta.UID m) (Meta.Name m) (Meta.Namespace m) (Meta.Domain m)
    (Meta.Labels m) (Meta.Annotations m) (Meta.ResourceVersion m) (Meta.CreationTimestamp m)
    (Meta.OwnerReferences m) (Meta.Generation m).

(** What happened to a configuration or a service ([model.Event]). *)
Inductive Event : Type := EventAdd | EventUpdate | EventDelete.

(** ** Comparison *)

(** [ptr.Equal] *)
Definition ptr_Equal `{EqDecision A} (a b : option A) : bool :=
  match a, b with
  | None, None => true
  | Some a, Some b => bool_decide (a = b)
  | _, _ => false
  end.

Definition owner_equal (a b : OwnerReference) : bool :=
  if negb (String.eqb (ow_APIVersion a) (ow_APIVersion b)) then false else
  if negb (String.eqb (ow_Kind a) (ow_Kind b)) then false else
  if negb (String.eqb (ow_Name a) (ow_Name b)) then false else
  if negb (String.eqb (ow_UID a) (ow_UID b)) then false else
  if negb (ptr_Equal (ow_Controller a) (ow_Controller b)) then false else
  if negb (ptr_Equal (ow_BlockOwnerDeletion a) (ow_BlockOwnerDeletion b)) then false else true.

Section compare.
Context {V : Type} (is_proto : V -> bool) (proto_Equal : V -> V -> bool) (DeepEqual : option V -> option V -> bool)
        (DeepEqualMap : nmap string V -> nmap string V -> bool).

(** A protobuf message is compared as such; the other one is asserted to be a
    message too. *)
Definition equals (a b : option V) : res bool :=
  match a with
  | Some pa =>
      if is_proto pa then
        match b with
        | Some pb => if is_proto pb then Ok (proto_Equal pa pb) else Panic "interface conversion"
        | None => Panic "interface conversion"
        end
      else Ok (DeepEqual a b)
  | None => Ok (DeepEqual a b)
  end.

Definition Config_Equals (c other : Config V) : res bool :=
  let am := cfg_Meta c in
  let bm := cfg_Meta other in
  if negb (bool_decide (Meta.GroupVersionKind am = Meta.GroupVersionKind bm)) then Ok false else
  if negb (String.eqb (Meta.UID am) (Meta.UID bm)) then Ok false else
  if negb (String.eqb (Meta.Name am) (Meta.Name bm)) then Ok false else
  if negb (String.eqb (Meta.Namespace am) (Meta.Namespace bm)) then Ok false else
  if negb (String.eqb (Meta.Domain am) (Meta.Domain bm)) then Ok false else
  if negb (maps_Equal (Meta.Labels am) (Meta.Labels bm)) then Ok false else
  if negb (maps_Equal (Meta.Annotations am) (Meta.Annotations bm)) then Ok false else
  if negb (String.eqb (Meta.ResourceVersion am) (Meta.ResourceVersion bm)) then Ok false else
  if negb (Meta.CreationTimestamp am =? Meta.CreationTimestamp bm) then Ok false else
  if negb (Slices.EqualFunc (Meta.OwnerReferences am) (Meta.OwnerReferences bm) owner_equal) then Ok false else
  if negb (Meta.Generation am =? Meta.Generation bm) then Ok false else
  spec ← equals (cfg_Spec c) (cfg_Spec other);
  if negb spec then Ok false else
  status ← equals (cfg_Status c) (cfg_Status other);
  if negb status then Ok false else
  Ok (DeepEqualMap (cfg_Extra c) (cfg_Extra other)).

End compare.

(** ** Labels of DNS names *)

Definition is_alnum (c : ascii) : bool :=
  let n := Ascii.nat_of_ascii c in
  ((48 <=? n) && (n <=? 57) || (65 <=? n) && (n <=? 90) || (97 <=? n) && (n <=? 122))%nat.

(** The regular expression [a-zA-Z0-9](?:[-a-zA-Z0-9]*[a-zA-Z0-9])?: alphanumeric
    or a hyphen, an alphanumeric first and last. *)
Fixpoint dns1123_rest (last : bool) (s : string) : bool :=
  match s with
  | EmptyString => last
  | String c s => (is_alnum c || Ascii.eqb c "-") && dns1123_rest (is_alnum c) s
  end.
Definition dns1123LabelRegexp (s : string) : bool :=
  match s with
  | EmptyString => false
  | String c s => is_alnum c && dns1123_rest true s
  end.
Definition DNS1123LabelMaxLength : nat := 63.
Definition IsDNS1123Label (value : string) : bool :=
  (String.length value <=? DNS1123LabelMaxLength)%nat && dns1123LabelRegexp value.

(** ** Schemas *)

Record Schema (V : Type) : Type := mkSchema {
  sc_clusterScoped : bool;
  sc_builtin : bool;
  sc_gvk : GroupVersionKind;
  sc_versionAliases : list string;
  sc_plural : string;
  sc_apiVersion : string;
  sc_proto : string;
  sc_goPackage : string;
  sc_identifier : string;
  sc_reflectType : bool;
  sc_validateConfig : Config V -> option gerror
}.
Arguments mkSchema {_}.
Arguments sc_clusterScoped {_} _.
Arguments sc_builtin {_} _.
Arguments sc_gvk {_} _.
Arguments sc_versionAliases {_} _.
Arguments sc_plural {_} _.
Arguments sc_apiVersion {_} _.
Arguments sc_proto {_} _.
Arguments sc_goPackage {_} _.
Arguments sc_identifier {_} _.
Arguments sc_reflectType {_} _.
Arguments sc_validateConfig {_} _ _.

Section schemas.
Context {V : Type}.
(** Whether the registry of protobuf types knows a name. *)
Context (known_proto : string -> bool).

(** [resource.Builder]; [bu_ValidateProto] nil stands for no validation. *)
Record Builder : Type := mkBuilder {
  bu_ClusterScoped : bool; bu_Builtin : bool; bu_Identifier : string; bu_Kind : string; bu_Plural : string;
  bu_Group : string; bu_Version : string; bu_VersionAliases : list string; bu_Proto : string;
  bu_ReflectType : bool; bu_ProtoPackage : string; bu_ValidateProto : option (Config V -> option gerror)
}.

Definition BuildNoValidate (b : Builder) : Schema V :=
  mkSchema (bu_ClusterScoped b) (bu_Builtin b) (mkGVK (bu_Group b) (bu_Version b) (bu_Kind b))
    (bu_VersionAliases b) (bu_Plural b) (bu_Group b +:+ "/" +:+ bu_Version b) (bu_Proto b) (bu_ProtoPackage b)
    (bu_Identifier b) (bu_ReflectType b) (default (fun _ => None) (bu_ValidateProto b)).

(** [Validate] collects what is wrong; nil when nothing is. *)
Definition Schema_Validate (s : Schema V) : list string :=
  (if negb (IsDNS1123Label (Kind (sc_gvk s))) then ["invalid kind: " +:+ Kind (sc_gvk s)] else []) ++
  (if negb (IsDNS1123Label (sc_plural s))
   then ["invalid plural for kind " +:+ Kind (sc_gvk s) +:+ ": " +:+ sc_plural s] else []) ++
  (if negb (sc_reflectType s) && negb (known_proto (sc_proto s))
   then ["proto message or reflect type not found: " +:+ sc_proto s] else []).

Definition Builder_Build (b : Builder) : res (Schema V) :=
  let s := BuildNoValidate b in
  match Schema_Validate s with
  | [] => Ok s
  | e :: _ => Err (mk_error Unknown e)
  end.

Definition GroupVersionAliasKinds (s : Schema V) : list GroupVersionKind :=
  map (fun va => mkGVK (Group (sc_gvk s)) va (Kind (sc_gvk s))) (sc_versionAliases s) ++ [sc_gvk s].

Definition Schema_Equal (s o : Schema V) : bool :=
  Bool.eqb (sc_clusterScoped s) (sc_clusterScoped o) && String.eqb (Kind (sc_gvk s)) (Kind (sc_gvk o))
  && String.eqb (sc_plural s) (sc_plural o) && String.eqb (Group (sc_gvk s)) (Group (sc_gvk o))
  && String.eqb (Version (sc_gvk s)) (Version (sc_gvk o)) && String.eqb (sc_proto s) (sc_proto o)
  && String.eqb (sc_goPackage s) (sc_goPackage o).

(** The name of a package needs no escapes between its quotes. *)
Definition quoted (s : string) : string :=
  let q := String (Ascii.ascii_of_nat 34) "" in q +:+ s +:+ q.
Definition Schema_String (s : Schema V) : string :=
  "[Schema](" +:+ Kind (sc_gvk s) +:+ ", " +:+ quoted (sc_goPackage s) +:+ ", " +:+ sc_proto s +:+ ")".

(** *** [collection.Schemas] *)

Record Schemas : Type := mkSchemas {
  byCollection : gmap GroupVersionKind (Schema V);
  byAddOrder : list (Schema V)
}.

Definition NewSchemasBuilder : Schemas := mkSchemas ∅ [].

Definition Schemas_Builder_Add (b : Schemas) (s : Schema V) : res Schemas :=
  match byCollection b !! sc_gvk s with
  | Some _ => Err (mk_error Unknown ("collection already exists: " +:+ GVK_String (sc_gvk s)))
  | None => Ok (mkSchemas (<[sc_gvk s := s]> (byCollection b)) (byAddOrder b ++ [s]))
  end.

Definition MustAdd (b : Schemas) (s : Schema V) : res Schemas :=
  match Schemas_Builder_Add b s with
  | Ok b => Ok b
  | Err e => Panic ("SchemasBuilder.MustAdd: " +:+ err_msg e)
  | Panic w => Panic w
  end.

Fixpoint must_add_all (b : Schemas) (l : list (Schema V)) : res Schemas :=
  match l with
  | [] => Ok b
  | s :: l => b ← MustAdd b s; must_add_all b l
  end.
(** A schema that is already there is skipped. *)
Definition add_quietly (b : Schemas) (s : Schema V) : Schemas := from_ok b (Schemas_Builder_Add b s).

Definition SchemasFor (schemas : list (Schema V)) : res Schemas := must_add_all NewSchemasBuilder schemas.
Definition Schemas_All (s : Schemas) : list (Schema V) := byAddOrder s.

Definition Schemas_Union (s otherSchemas : Schemas) : Schemas :=
  fold_left add_quietly (Schemas_All otherSchemas) (fold_left add_quietly (Schemas_All s) NewSchemasBuilder).
Definition Schemas_Intersect (s otherSchemas : Schemas) : Schemas :=
  let schemaLookup : gset string := list_to_set (map Schema_String (Schemas_All s)) in
  fold_left (fun b m => if bool_decide (Schema_String m ∈ schemaLookup) then add_quietly b m else b)
    (Schemas_All otherSchemas) NewSchemasBuilder.

Definition FindByGroupVersionKind (s : Schemas) (gvk : GroupVersionKind) : option (Schema V) :=
  List.find (fun rs => bool_decide (sc_gvk rs = gvk)) (byAddOrder s).
Definition FindByGroupVersionAliasesKind (s : Schemas) (gvk : GroupVersionKind) : option (Schema V) :=
  List.find (fun rs => existsb (fun va => bool_decide (va = gvk)) (GroupVersionAliasKinds rs)) (byAddOrder s).
Definition FindByGroupKind (s : Schemas) (gvk : GroupVersionKind) : option (Schema V) :=
  List.find (fun rs => String.eqb (Group (sc_gvk rs)) (Group gvk) && String.eqb (Kind (sc_gvk rs)) (Kind gvk))
    (byAddOrder s).

Definition GroupVersionKinds (s : Schemas) : list GroupVersionKind := map sc_gvk (Schemas_All s).

Definition Schemas_Add (s : Schemas) (toAdd : list (Schema V)) : res Schemas :=
  b ← must_add_all NewSchemasBuilder (byAddOrder s); must_add_all b toAdd.
Definition Schemas_Remove (s : Schemas) (toRemove : list (Schema V)) : res Schemas :=
  must_add_all NewSchemasBuilder
    (List.filter (fun s => negb (existsb (fun r => Schema_Equal r s) toRemove)) (byAddOrder s)).
Definition Kinds (s : Schemas) : list string :=
  let kinds : gset string := fold_left (fun k s => {[Kind (sc_gvk s)]} ∪ k) (byAddOrder s) ∅ in
  sort_strings (elements kinds).
Definition Schemas_Validate (s : Schemas) : list string := concat (map Schema_Validate (byAddOrder s)).

End schemas.
Arguments Schemas : clear implicits.
Arguments Builder : clear implicits.

(** ** Lemmas *)

Lemma ptr_Equal_spec `{EqDecision A} (a b : option A) : ptr_Equal a b = true <-> a = b.
Proof. destruct a, b; simpl; rewrite ?bool_decide_eq_true; naive_solver. Qed.

Lemma owner_equal_spec a b : owner_equal a b = true <-> a = b.
Proof.
  unfold owner_equal. rewrite !if_negb_false, !andb_true_iff, !String.eqb_eq, !ptr_Equal_spec.
  destruct a, b; simpl. naive_solver.
Qed.

Lemma EqualFunc_eq {E} (eq : E -> E -> bool) (a b : list E) :
  (forall x y, eq x y = true <-> x = y) -> Slices.EqualFunc a b eq = true <-> a = b.
Proof.
  intros Heq. rewrite Slices.EqualFunc_spec. split.
  - induction 1 as [|x y a b Hxy _ IH]; [done|]. apply Heq in Hxy. congruence.
  - intros ->. induction b; constructor; [by apply Heq|done].
Qed.

Lemma find_snoc {A} (f : A -> bool) l x :
  List.find f (l ++ [x]) = match List.find f l with Some y => Some y | None => if f x then Some x else None end.
Proof. by rewrite find_app. Qed.

Lemma NoDup_map_filter {A B} (g : A -> B) (f : A -> bool) l :
  NoDup (map g l) -> NoDup (map g (List.filter f l)).
Proof.
  induction l as [|x l IH]; simpl; intros Hnd; [done|]. apply NoDup_cons in Hnd as [Hx Hnd].
  destruct (f x); [|by apply IH]. simpl. apply NoDup_cons. split; [|by apply IH].
  intros Hin. apply Hx. apply list_elem_of_fmap in Hin as (y & -> & Hy). apply list_elem_of_fmap_2.
  apply list_elem_of_In, filter_In in Hy as [Hy _]. by apply list_elem_of_In.
Qed.

Section schema_lemmas.
Context {V : Type}.
Implicit Types (s b : Schemas V).

(** The map and the list hold the same schemas, each kind once. *)
Record schemas_ok (s : Schemas V) : Prop := {
  so_once : NoDup (GroupVersionKinds s);
  so_index g x : byCollection s !! g = Some x <-> x ∈ byAddOrder s /\ sc_gvk x = g
}.

Lemma find_gvk l (g : GroupVersionKind) (x : Schema V) :
  NoDup (map sc_gvk l) ->
  List.find (fun rs => bool_decide (sc_gvk rs = g)) l = Some x <-> x ∈ l /\ sc_gvk x = g.
Proof.
  intros Hnd. split.
  - intros [Hin Hg]%find_some. breflect. split; [by apply list_elem_of_In|done].
  - intros [Hin <-]. induction l as [|y l IH]; [by apply elem_of_nil in Hin|]. simpl in *.
    apply NoDup_cons in Hnd as [Hy Hnd]. apply elem_of_cons in Hin as [->|Hin].
    + by rewrite bool_decide_true.
    + rewrite bool_decide_false; [by apply IH|]. intros E. apply Hy. rewrite E. by apply list_elem_of_fmap_2.
Qed.

Lemma Find_spec s g x :
  schemas_ok s -> FindByGroupVersionKind s g = Some x <-> x ∈ byAddOrder s /\ sc_gvk x = g.
Proof. intros [Hnd _]. by apply find_gvk. Qed.

Lemma Find_index s g : schemas_ok s -> FindByGroupVersionKind s g = byCollection s !! g.
Proof.
  intros Hs. destruct (byCollection s !! g) as [x|] eqn:E.
  - apply Find_spec; [done|]. by apply (so_index _ Hs).
  - destruct (FindByGroupVersionKind s g) as [x|] eqn:F; [|done].
    apply Find_spec, (so_index _ Hs) in F; [congruence|done].
Qed.

Lemma NewSchemasBuilder_ok : schemas_ok NewSchemasBuilder.
Proof.
  split; [constructor|]. intros g x. simpl. rewrite lookup_empty.
  split; [done|]. intros [Hx _]. by apply elem_of_nil in Hx.
Qed.

Lemma Builder_Add_spec b (x : Schema V) :
  schemas_ok b ->
  match Schemas_Builder_Add b x with
  | Ok b' => FindByGroupVersionKind b (sc_gvk x) = None /\ schemas_ok b' /\ byAddOrder b' = byAddOrder b ++ [x]
  | Err _ => is_Some (FindByGroupVersionKind b (sc_gvk x))
  | Panic _ => False
  end.
Proof.
  intros Hb. rewrite Find_index by done. unfold Schemas_Builder_Add.
  destruct (byCollection b !! sc_gvk x) as [y|] eqn:E; [eauto|]. split; [done|]. split; [|done].
  assert (Hnew : forall y, y ∈ byAddOrder b -> sc_gvk y <> sc_gvk x).
  { intros y Hy Hg. assert (byCollection b !! sc_gvk x = Some y) by (by apply (so_index _ Hb)). congruence. }
  destruct Hb as [Hnd Hix]. split.
  - unfold GroupVersionKinds, Schemas_All in *. simpl. rewrite map_app. simpl. apply NoDup_app. split; [done|].
    split; [|apply NoDup_singleton]. intros g Hg ->%list_elem_of_singleton.
    apply list_elem_of_fmap in Hg as (y & Hy & Hin). by apply (Hnew y).
  - intros g y. simpl. rewrite elem_of_app, list_elem_of_singleton, lookup_insert_Some, Hix.
    split; [naive_solver|]. intros [[Hy| ->] <-]; [|by left]. right. split; [|done].
    intros Hg. by apply (Hnew y).
Qed.

Lemma add_quietly_spec b x :
  schemas_ok b ->
  schemas_ok (add_quietly b x) /\
  forall g, FindByGroupVersionKind (add_quietly b x) g
    = match FindByGroupVersionKind b g with
      | Some y => Some y
      | None => if decide (sc_gvk x = g) then Some x else None
      end.
Proof.
  intros Hb. pose proof (Builder_Add_spec b x Hb) as Ha. unfold add_quietly.
  destruct (Schemas_Builder_Add b x) as [b'|e|w]; [|..|done]; simpl.
  - destruct Ha as (Hn & Hok & Hl). split; [done|]. intros g. unfold FindByGroupVersionKind in *.
    rewrite Hl, find_snoc. destruct (List.find _ (byAddOrder b)); [done|]. by case_decide; case_bool_decide.
  - split; [done|]. intros g. destruct (FindByGroupVersionKind b g) eqn:E; [done|].
    case_decide as Hg; [|done]. subst g. destruct Ha as [? Ha]. congruence.
Qed.

Lemma fold_add_quietly_spec l b :
  schemas_ok b ->
  schemas_ok (fold_left add_quietly l b) /\
  forall g, FindByGroupVersionKind (fold_left add_quietly l b) g
    = match FindByGroupVersionKind b g with
      | Some y => Some y
      | None => List.find (fun rs => bool_decide (sc_gvk rs = g)) l
      end.
Proof.
  revert b. induction l as [|x l IH]; intros b Hb; cbn [fold_left List.find].
  { split; [done|]. intros g. by destruct (FindByGroupVersionKind b g). }
  destruct (add_quietly_spec b x Hb) as [Hok Hf]. destruct (IH _ Hok) as [Hok' Hf']. split; [done|].
  intros g. rewrite Hf', Hf. destruct (FindByGroupVersionKind b g); [done|].
  by case_decide; case_bool_decide.
Qed.

Lemma Find_New g : FindByGroupVersionKind (@NewSchemasBuilder V) g = None.
Proof. done. Qed.

Lemma must_add_all_spec l b :
  schemas_ok b ->
  match must_add_all b l with
  | Ok b' => schemas_ok b' /\ byAddOrder b' = byAddOrder b ++ l
  | Err _ => False
  | Panic _ => ~ NoDup (map sc_gvk (byAddOrder b ++ l))
  end.
Proof.
  revert b. induction l as [|x l IH]; intros b Hb; simpl; [by rewrite app_nil_r|].
  pose proof (Builder_Add_spec b x Hb) as Ha. unfold MustAdd.
  destruct (Schemas_Builder_Add b x) as [b'|e|w]; [| |done]; simpl.
  - destruct Ha as (_ & Hok & Hl). specialize (IH b' Hok). rewrite Hl, <- app_assoc in IH. exact IH.
  - destruct Ha as [y Hy]. apply Find_spec in Hy as [Hy Hg]; [|done].
    rewrite map_app, NoDup_app. intros (_ & Hd & _). apply (Hd (sc_gvk y)).
    + by apply list_elem_of_fmap_2.
    + simpl. rewrite Hg. set_solver.
Qed.

(** Adding schemas of different kinds to a new builder cannot fail. *)
Lemma must_add_all_new l :
  NoDup (map sc_gvk l) ->
  exists b, must_add_all NewSchemasBuilder l = Ok b /\ schemas_ok b /\ byAddOrder b = l.
Proof.
  intros Hnd. pose proof (must_add_all_spec l _ NewSchemasBuilder_ok) as Hs.
  destruct (must_add_all _ _) as [b|e|w]; [|done|done]. eauto.
Qed.

End schema_lemmas.

(** ** Properties *)

(** The schemas of a store are a map by kind that remembers the order of
    insertion, and every operation keeps them so: the search by kind agrees with
    the map, a union prefers its left operand, removal leaves out exactly what
    equals a removed schema, and addition fails exactly when a kind would occur
    twice. *)
Theorem schemas_operations {V} (s o : Schemas V) (l : list (Schema V)) :
  schemas_ok s -> schemas_ok o ->
  (schemas_ok (Schemas_Union s o) /\
   forall g, FindByGroupVersionKind (Schemas_Union s o) g
     = match FindByGroupVersionKind s g with Some x => Some x | None => FindByGroupVersionKind o g end) /\
  (exists r, Schemas_Remove s l = Ok r /\ schemas_ok r /\
   forall g x, FindByGroupVersionKind r g = Some x <->
     FindByGroupVersionKind s g = Some x /\ forall y, y ∈ l -> Schema_Equal y x = false) /\
  match Schemas_Add s l with
  | Ok r => schemas_ok r /\ byAddOrder r = byAddOrder s ++ l
  | Err _ => False
  | Panic _ => ~ NoDup (GroupVersionKinds s ++ map sc_gvk l)
  end.
Proof.
  intros Hs Ho. split_and!.
  - unfold Schemas_Union. destruct (fold_add_quietly_spec (Schemas_All s) _ NewSchemasBuilder_ok) as [H1 F1].
    by destruct (fold_add_quietly_spec (Schemas_All o) _ H1).
  - intros g. unfold Schemas_Union.
    destruct (fold_add_quietly_spec (Schemas_All s) _ NewSchemasBuilder_ok) as [H1 F1].
    destruct (fold_add_quietly_spec (Schemas_All o) _ H1) as [_ F2]. rewrite F2, F1, Find_New. done.
  - set (kept := List.filter (fun s => negb (existsb (fun r => Schema_Equal r s) l)) (byAddOrder s)).
    assert (Hk : forall x, x ∈ kept <-> x ∈ byAddOrder s /\ forall y, y ∈ l -> Schema_Equal y x = false).
    { intros x. unfold kept. rewrite list_elem_of_In, filter_In, negb_true_iff, <- list_elem_of_In.
      apply and_iff_compat_l. rewrite <- not_true_iff_false, existsb_elem. split.
      - intros Hno y Hy. apply not_true_is_false. eauto.
      - intros Hall (y & Hy & E). by rewrite Hall in E. }
    destruct (must_add_all_new kept) as (r & Er & Hr & Hl).
    { apply NoDup_map_filter, (so_once _ Hs). }
    exists r. split; [exact Er|]. split; [done|]. intros g x. rewrite !Find_spec by done. rewrite Hl, Hk. naive_solver.
  - unfold Schemas_Add. pose proof (must_add_all_new (byAddOrder s) (so_once _ Hs)) as (b & -> & Hb & Hl).
    cbn [mbind res_bind]. pose proof (must_add_all_spec l b Hb) as Hm. rewrite Hl in Hm.
    destruct (must_add_all b l); [done|done|]. by rewrite map_app in Hm.
Qed.

(** Keys do not collide: two configurations with the same key are of the
    same kind and have the same name and namespace, as long as groups, versions,
    kinds and namespaces hold no slash. *)
Theorem config_key_injective (a b : Meta) :
  (forall m, m = a \/ m = b ->
     no_char "/" (Group (Meta.GroupVersionKind m)) = true /\ no_char "/" (Version (Meta.GroupVersionKind m)) = true /\
     no_char "/" (Kind (Meta.GroupVersionKind m)) = true /\ no_char "/" (Meta.Namespace m) = true) ->
  Meta_Key a = Meta_Key b ->
  Meta.GroupVersionKind a = Meta.GroupVersionKind b /\ Meta.Namespace a = Meta.Namespace b /\ Meta.Name a = Meta.Name b.
Proof.
  intros Hc E. destruct (Hc a (or_introl eq_refl)) as (? & ? & ? & ?).
  destruct (Hc b (or_intror eq_refl)) as (? & ? & ? & ?). unfold Meta_Key, Key in E.
  apply (sep_inj "/") in E as [E1 E]; [|done..]. apply (sep_inj "/") in E as [E2 E]; [|done..].
  apply (sep_inj "/") in E as [E3 E]; [|done..]. apply (sep_inj "/") in E as [E4 E5]; [|done..].
  destruct (Meta.GroupVersionKind a), (Meta.GroupVersionKind b); simpl in *. by subst.
Qed.

(** Comparison of configurations is equality of all their fields, a nil map of
    labels or annotations being the same as an empty one; it panics only where a
    protobuf message meets something else. *)
Theorem Config_Equals_spec {V} is_proto proto_Equal DeepEqual DeepEqualMap (c d : Config V) :
  (forall x y, proto_Equal x y = true <-> x = y) -> (forall x y, DeepEqual x y = true <-> x = y) ->
  (forall x y, DeepEqualMap x y = true <-> x = y) ->
  (forall x, cfg_Spec c = Some x -> is_proto x = true -> exists y, cfg_Spec d = Some y /\ is_proto y = true) ->
  (forall x, cfg_Status c = Some x -> is_proto x = true -> exists y, cfg_Status d = Some y /\ is_proto y = true) ->
  exists r, Config_Equals is_proto proto_Equal DeepEqual DeepEqualMap c d = Ok r /\
  (r = true <->
   let a := cfg_Meta c in let b := cfg_Meta d in
   Meta.GroupVersionKind a = Meta.GroupVersionKind b /\ Meta.UID a = Meta.UID b /\ Meta.Name a = Meta.Name b /\
   Meta.Namespace a = Meta.Namespace b /\ Meta.Domain a = Meta.Domain b /\
   nmap_get (Meta.Labels a) = nmap_get (Meta.Labels b) /\
   nmap_get (Meta.Annotations a) = nmap_get (Meta.Annotations b) /\
   Meta.ResourceVersion a = Meta.ResourceVersion b /\ Meta.CreationTimestamp a = Meta.CreationTimestamp b /\
   Meta.OwnerReferences a = Meta.OwnerReferences b /\ Meta.Generation a = Meta.Generation b /\
   cfg_Spec c = cfg_Spec d /\ cfg_Status c = cfg_Status d /\ cfg_Extra c = cfg_Extra d).
Proof.
  intros Hp Hd Hm Hspec Hstatus.
  assert (Heq : forall x y : option V, (forall p, x = Some p -> is_proto p = true -> exists q, y = Some q /\ is_proto q = true) ->
    exists r, equals is_proto proto_Equal DeepEqual x y = Ok r /\ (r = true <-> x = y)).
  { intros x y Hxy. unfold equals. destruct x as [p|]; [|eauto]. destruct (is_proto p) eqn:Ep; [|eauto].
    destruct (Hxy p eq_refl Ep) as (q & -> & ->). eexists. split; [done|]. rewrite Hp. naive_solver. }
  destruct (Heq _ _ Hspec) as (rs & Es & Hrs). destruct (Heq _ _ Hstatus) as (rt & Et & Hrt).
  unfold Config_Equals. rewrite Es, Et. cbn [mbind res_bind].
  set (body := if negb rs then Ok false else _).
  assert (Hb : exists r, body = Ok r /\ (r = true <-> cfg_Spec c = cfg_Spec d /\ cfg_Status c = cfg_Status d /\ cfg_Extra c = cfg_Extra d)).
  { unfold body. destruct rs; [|eexists; split; [done|]; split; [done|]; intros (? & _); naive_solver].
    destruct rt; [|eexists; split; [done|]; split; [done|]; intros (_ & ? & _); naive_solver].
    eexists. split; [done|]. rewrite Hm. naive_solver. }
  destruct Hb as (r & -> & Hr).
  set (a := cfg_Meta c). set (b := cfg_Meta d). unfold maps_Equal.
  repeat match goal with
  | |- context [if negb ?t then Ok false else _] =>
      let E := fresh "E" in destruct t eqn:E; cbn [negb];
      [|eexists; split; [done|]; split; [done|]; intros Hall; exfalso; cbv zeta in Hall; destruct_and!;
        apply not_true_iff_false in E; apply E;
        first [by apply bool_decide_eq_true|by apply String.eqb_eq|by apply Z.eqb_eq
              |by apply (EqualFunc_eq owner_equal); [apply owner_equal_spec|]]]
  end.
  exists r. split; [done|]. rewrite Hr. breflect.
  repeat match goal with H : String.eqb _ _ = true |- _ => apply String.eqb_eq in H end.
  match goal with H : Slices.EqualFunc _ _ _ = true |- _ => apply (EqualFunc_eq owner_equal) in H; [|apply owner_equal_spec] end.
  cbv zeta. naive_solver.
Qed.

(** *** Witnesses *)

Definition sample_kind (k : string) : GroupVersionKind := mkGVK "networking.dubbo.apache.org" "v1alpha3" k.
Definition sample_schema_of (k : string) : Schema string :=
  mkSchema false false (sample_kind k) [] (k +:+ "s") "" "" "" "" true (fun _ => None).
Definition sample_schemas (ks : list string) : Schemas string :=
  from_ok NewSchemasBuilder (SchemasFor (map sample_schema_of ks)).
Definition sample_meta (k ns name : string) : Meta :=
  Meta.mk (sample_kind k) "" name ns "" None None "" 0 [] 0.

Lemma sample_schemas_ok ks : NoDup (map sc_gvk (map sample_schema_of ks)) -> schemas_ok (sample_schemas ks).
Proof.
  intros Hnd. unfold sample_schemas, SchemasFor. by destruct (must_add_all_new _ Hnd) as (b & -> & ? & _).
Qed.

Lemma schemas_operations_witness :
  schemas_ok (Schemas_Union (sample_schemas ["ServiceEntry"]) (sample_schemas ["WorkloadEntry"; "ServiceEntry"])).
Proof.
  apply (schemas_operations (sample_schemas ["ServiceEntry"]) (sample_schemas ["WorkloadEntry"; "ServiceEntry"]) []).
  - apply sample_schemas_ok. apply (bool_decide_unpack _). vm_compute. exact I.
  - apply sample_schemas_ok. apply (bool_decide_unpack _). vm_compute. exact I.
Defined.

Lemma config_key_injective_witness :
  Meta.GroupVersionKind (sample_meta "ServiceEntry" "ns" "a/b") = Meta.GroupVersionKind (sample_meta "ServiceEntry" "ns" "a/b").
Proof.
  apply (config_key_injective (sample_meta "ServiceEntry" "ns" "a/b") (sample_meta "ServiceEntry" "ns" "a/b")).
  - intros m [->| ->]; repeat split; reflexivity.
  - reflexivity.
Defined.
