(* ===== verification/ConfigStore.v ===== *)
(** * Configuration stores

    [config/memory/store.go] and [config/memory/controller.go], the store in memory and
    its controller, and [config/aggregate/config.go], the union of several stores, under
    [dubbod/discovery/pkg/].  The store is proved to implement a finite map with revisions;
    what a reader relies on is a class, which the memory store satisfies and the
    union inherits. *)

From S2P Require Import Prelude GoStrings GoSets GoSlices Hosts GoNet Service ConfigModel.

(** ** The store in memory *)

Definition errNotFound : gerror := mk_error Unknown "item not found".
Definition errAlreadyExists : gerror := mk_error Unknown "item already exists".
Definition errConflict : gerror := mk_error Unknown "conflicting resource version, try again".
Definition unknown_type (k : GroupVersionKind) : gerror := mk_error Unknown ("unknown type " +:+ GVK_String k).

Section update_config.
Context {V : Type}.

Definition map_Meta (f : Meta -> Meta) (c : Config V) : Config V :=
  mkConfig (f (cfg_Meta c)) (cfg_Spec c) (cfg_Status c) (cfg_Extra c).
Definition set_ResourceVersion (rv : string) : Config V -> Config V :=
  map_Meta (fun m => Meta.mk (Meta.GroupVersionKind m) (Meta.UID m) (Meta.Name m) (Meta.Namespace m) (Meta.Domain m)
    (Meta.Labels m) (Meta.Annotations m) rv (Meta.CreationTimestamp m) (Meta.OwnerReferences m) (Meta.Generation m)).
Definition set_CreationTimestamp (t : Time) : Config V -> Config V :=
  map_Meta (fun m => Meta.mk (Meta.GroupVersionKind m) (Meta.UID m) (Meta.Name m) (Meta.Namespace m) (Meta.Domain m)
    (Meta.Labels m) (Meta.Annotations m) (Meta.ResourceVersion m) t (Meta.OwnerReferences m) (Meta.Generation m)).
Definition set_Annotations (a : nmap string string) : Config V -> Config V :=
  map_Meta (fun m => Meta.mk (Meta.GroupVersionKind m) (Meta.UID m) (Meta.Name m) (Meta.Namespace m) (Meta.Domain m)
    (Meta.Labels m) a (Meta.ResourceVersion m) (Meta.CreationTimestamp m) (Meta.OwnerReferences m) (Meta.Generation m)).

End update_config.

(** [config.PatchFunc] *)
Definition PatchFunc (V : Type) : Type := Config V -> Config V * string.

Module memory.
Section memory.
Context `{RangeOrder} {V : Type} (Time_String : Time -> string).

Record store : Type := mkStore {
  schemas : Schemas V;
  data : gmap GroupVersionKind (gmap string (gmap string (Config V)));
  skipValidation : bool
}.

Definition newStore (s : Schemas V) (skip : bool) : store :=
  mkStore s (fold_left (fun d x => <[sc_gvk x := ∅]> d) (Schemas_All s) ∅) skip.
Definition Make (s : Schemas V) : store := newStore s false.

Definition Get (cr : store) (kind : GroupVersionKind) (name namespace : string) : option (Config V) :=
  match data cr !! kind with
  | None => None
  | Some d => match d !! namespace with None => None | Some ns => ns !! name end
  end.

(** Namespaces, and the names in them, come in the order of the maps. *)
Definition List (cr : store) (kind : GroupVersionKind) (namespace : string) : list (Config V) :=
  match data cr !! kind with
  | None => []
  | Some d =>
      if String.eqb namespace "" then concat (map (fun '(_, ns) => map snd (range ns)) (range d))
      else match d !! namespace with None => [] | Some ns => map snd (range ns) end
  end.

(** The maps are shared: writing to a namespace changes the store. *)
Definition put (cr : store) (kind : GroupVersionKind) (namespace : string) (ns : gmap string (Config V)) : store :=
  mkStore (schemas cr) (<[kind := <[namespace := ns]> (default ∅ (data cr !! kind))]> (data cr)) (skipValidation cr).

(** The revision is not looked at. *)
Definition Delete (cr : store) (kind : GroupVersionKind) (name namespace : string) (resourceVersion : option string)
  : store * res unit :=
  match data cr !! kind with
  | None => (cr, Err (unknown_type kind))
  | Some d =>
      match d !! namespace with
      | None => (cr, Err errNotFound)
      | Some ns =>
          match ns !! name with
          | None => (cr, Err errNotFound)
          | Some _ => (put cr kind namespace (delete name ns), Ok tt)
          end
      end
  end.

(** The schema of a kind and the validation of a configuration. *)
Definition check (cr : store) (kind : GroupVersionKind) (cfg : Config V) : option gerror :=
  match FindByGroupVersionKind (schemas cr) kind with
  | None => Some (unknown_type kind)
  | Some s => if negb (skipValidation cr) then sc_validateConfig s cfg else None
  end.

(** What [Create] stores. *)
Definition stamp (tnow : Time) (cfg : Config V) : Config V :=
  let cfg := if String.eqb (cfg_ResourceVersion cfg) "" then set_ResourceVersion (Time_String tnow) cfg else cfg in
  if IsZero (cfg_CreationTimestamp cfg) then set_CreationTimestamp tnow cfg else cfg.

(** Writing to a namespace of a kind that has no map panics. *)
Definition Create (tnow : Time) (cr : store) (cfg : Config V) : store * res string :=
  let kind := cfg_GVK cfg in
  match check cr kind cfg with
  | Some e => (cr, Err e)
  | None =>
      let ns := match data cr !! kind with Some d => d !! cfg_Namespace cfg | None => None end in
      match ns, data cr !! kind with
      | None, None => (cr, Panic "assignment to entry in nil map")
      | _, _ =>
          let cr := match ns with None => put cr kind (cfg_Namespace cfg) ∅ | Some _ => cr end in
          let ns := default ∅ ns in
          match ns !! cfg_Name cfg with
          | None =>
              let cfg := stamp tnow cfg in
              (put cr kind (cfg_Namespace cfg) (<[cfg_Name cfg := cfg]> ns), Ok (cfg_ResourceVersion cfg))
          | Some _ => (cr, Err errAlreadyExists)
          end
      end
  end.

Definition hasConflict (existing replacement : Config V) : bool :=
  if String.eqb (cfg_ResourceVersion replacement) "" then false
  else negb (String.eqb (cfg_ResourceVersion replacement) (cfg_ResourceVersion existing)).

(** The revision [Update] gives: from the annotation of empty name, or the time. *)
Definition restamp (tnow : Time) (cfg : Config V) : Config V :=
  let a := nmap_get (Meta.Annotations (cfg_Meta cfg)) in
  if negb (String.eqb (default "" (a !! "")) "") then
    set_Annotations (Some (delete "" a)) (set_ResourceVersion (default "" (a !! "")) cfg)
  else set_ResourceVersion (Time_String tnow) cfg.

Definition Update (tnow : Time) (cr : store) (cfg : Config V) : store * res string :=
  let kind := cfg_GVK cfg in
  match check cr kind cfg with
  | Some e => (cr, Err e)
  | None =>
      match (match data cr !! kind with Some d => d !! cfg_Namespace cfg | None => None end) with
      | None => (cr, Err errNotFound)
      | Some ns =>
          match ns !! cfg_Name cfg with
          | None => (cr, Err errNotFound)
          | Some existing =>
              if hasConflict existing cfg then (cr, Err errConflict) else
              let cfg := restamp tnow cfg in
              (put cr kind (cfg_Namespace cfg) (<[cfg_Name cfg := cfg]> ns), Ok (cfg_ResourceVersion cfg))
          end
      end
  end.

Definition UpdateStatus := Update.

(** The patched configuration is stored under its own name, in the namespace of
    the original, whether or not there was one. *)
Definition Patch (tnow : Time) (cr : store) (orig : Config V) (patchFn : PatchFunc V) : store * res string :=
  let gvk := cfg_GVK orig in
  match FindByGroupVersionKind (schemas cr) gvk with
  | None => (cr, Err (unknown_type gvk))
  | Some s =>
      let cfg := fst (patchFn orig) in
      match (if negb (skipValidation cr) then sc_validateConfig s cfg else None) with
      | Some e => (cr, Err e)
      | None =>
          match data cr !! gvk with
          | None => (cr, Err errNotFound)
          | Some d =>
              match d !! cfg_Namespace orig with
              | None => (cr, Err errNotFound)
              | Some ns =>
                  let rev := Time_String tnow in
                  let cfg := set_ResourceVersion rev cfg in
                  (put cr gvk (cfg_Namespace orig) (<[cfg_Name cfg := cfg]> ns), Ok rev)
              end
          end
      end
  end.

End memory.
Arguments store : clear implicits.
Arguments Get {V} _ _ _ _.
Arguments List {_ V} _ _ _.
End memory.

(** ** The controller of a store

    The monitor is an interface that is nil until one is set; what is scheduled on
    it is recorded. *)

Module controller.
Section controller.
Context `{RangeOrder} {V : Type} (Time_String : Time -> string).

Record ConfigEvent : Type := mkEvent {
  ev_config : Config V; ev_old : option (Config V); ev_event : Event }.

(** [namespacesFilter] takes a namespace or a configuration. *)
Record Controller : Type := mkController {
  configStore : memory.store V;
  monitor : option (list ConfigEvent);
  namespacesFilter : option (string + Config V -> bool)
}.

Definition NewController (cs : memory.store V) : Controller := mkController cs None None.

Definition ScheduleProcessEvent (c : Controller) (e : ConfigEvent) : res Controller :=
  match monitor c with
  | None => Panic "nil pointer dereference"
  | Some l => Ok (mkController (configStore c) (Some (l ++ [e])) (namespacesFilter c))
  end.

Definition with_store (c : Controller) (s : memory.store V) : Controller :=
  mkController s (monitor c) (namespacesFilter c).

Definition Get (c : Controller) (kind : GroupVersionKind) (key namespace : string) : option (Config V) :=
  match namespacesFilter c with
  | Some f => if negb (f (inl namespace)) then None else memory.Get (configStore c) kind key namespace
  | None => memory.Get (configStore c) kind key namespace
  end.

Definition List (c : Controller) (kind : GroupVersionKind) (namespace : string) : list (Config V) :=
  let configs := memory.List (configStore c) kind namespace in
  match namespacesFilter c with
  | Some f => Slices.Filter configs (fun config => f (inr config))
  | None => configs
  end.

(** A write, and the event when it succeeds. *)
Definition announce (c : Controller) (w : memory.store V * res string) (e : ConfigEvent)
  : res (Controller * string) :=
  let '(s, r) := w in
  match r with
  | Ok rev => c ← ScheduleProcessEvent (with_store c s) e; Ok (c, rev)
  | Err err => Err err
  | Panic w => Panic w
  end.

Definition Create (tnow : Time) (c : Controller) (config : Config V) : res (Controller * string) :=
  announce c (memory.Create Time_String tnow (configStore c) config) (mkEvent config None EventAdd).

(** [oldconfig] is dereferenced for the event only. *)
Definition Update (tnow : Time) (c : Controller) (config : Config V) : res (Controller * string) :=
  let oldconfig := memory.Get (configStore c) (cfg_GVK config) (cfg_Name config) (cfg_Namespace config) in
  match memory.Update Time_String tnow (configStore c) config, oldconfig with
  | (s, Ok rev), None => Panic "nil pointer dereference"
  | w, old => announce c w (mkEvent config old EventUpdate)
  end.

Definition UpdateStatus := Update.

Definition MergePatchType : string := "application/merge-patch+json".
Definition JSONPatchType : string := "application/json-patch+json".

Definition Patch (tnow : Time) (c : Controller) (orig : Config V) (patchFn : PatchFunc V)
  : res (Controller * string) :=
  let '(cfg, typ) := patchFn orig in
  if String.eqb typ MergePatchType || String.eqb typ JSONPatchType then
    announce c (memory.Patch Time_String tnow (configStore c) cfg patchFn) (mkEvent cfg (Some orig) EventUpdate)
  else Err (mk_error Unknown ("unsupported merge type: " +:+ typ)).

Definition Delete (c : Controller) (kind : GroupVersionKind) (key namespace : string) (resourceVersion : option string)
  : res Controller :=
  match Get c kind key namespace with
  | Some config =>
      match memory.Delete (configStore c) kind key namespace resourceVersion with
      | (s, Ok _) => ScheduleProcessEvent (with_store c s) (mkEvent config None EventDelete)
      | (_, Err e) => Err e
      | (_, Panic w) => Panic w
      end
  | None => Err (mk_error Unknown ("config " +:+ GVK_String kind +:+ "/" +:+ namespace +:+ "/" +:+ key +:+ " does not exist"))
  end.

End controller.
Arguments Controller : clear implicits.
Arguments ConfigEvent : clear implicits.
End controller.

(** ** The union of stores *)

(** What the union asks of a store: its schemas and the two reads. *)
Record ConfigStore (V : Type) : Type := mkConfigStore {
  cs_Schemas : Schemas V;
  cs_Get : GroupVersionKind -> string -> string -> option (Config V);
  cs_List : GroupVersionKind -> string -> list (Config V)
}.
Arguments mkConfigStore {_} _ _ _.
Arguments cs_Schemas {_} _.
Arguments cs_Get {_} _ _ _ _.
Arguments cs_List {_} _ _ _.

(** A store holds one configuration per kind, namespace and name, under its own
    name, and lists what it gets; the empty namespace stands for all. *)
Class LawfulStore {V} (s : ConfigStore V) : Prop := {
  get_listed k n ns c : cs_Get s k n ns = Some c ->
    cfg_Name c = n /\ cfg_Namespace c = ns /\ forall ns', ns' = "" \/ ns' = ns -> c ∈ cs_List s k ns';
  listed_get k ns c : c ∈ cs_List s k ns ->
    cs_Get s k (cfg_Name c) (cfg_Namespace c) = Some c /\ (ns = "" \/ cfg_Namespace c = ns)
}.

Definition memory_view `{RangeOrder} {V} (st : memory.store V) : ConfigStore V :=
  mkConfigStore (memory.schemas st) (memory.Get st) (memory.List st).

Module aggregate.
Section aggregate.
Context {V : Type} (known_proto : string -> bool).

Definition errorUnsupported : gerror :=
  mk_error Unknown "unsupported operation: the config aggregator is read-only".

(** [writer] is nil in a read-only union; the operations of a writer are its own
    ([ConfigStore] of the interface), given here by the type [W] of what they
    return. *)
Record store : Type := mkStore {
  schemas : Schemas V;
  stores : gmap GroupVersionKind (list (ConfigStore V))
}.

Fixpoint get_first (l : list (ConfigStore V)) (typ : GroupVersionKind) (name namespace : string) : option (Config V) :=
  match l with
  | [] => None
  | s :: l => match cs_Get s typ name namespace with Some c => Some c | None => get_first l typ name namespace end
  end.

Definition Get (cr : store) (typ : GroupVersionKind) (name namespace : string) : option (Config V) :=
  get_first (default [] (stores cr !! typ)) typ name namespace.

(** [FilterInPlace] with the set of the names seen so far. *)
Fixpoint first_of_each (seen : gset (string * string)) (configs : list (Config V)) : list (Config V) :=
  match configs with
  | [] => []
  | cfg :: configs =>
      if bool_decide (NamespacedName cfg ∈ seen) then first_of_each seen configs
      else cfg :: first_of_each ({[NamespacedName cfg]} ∪ seen) configs
  end.

Definition List (cr : store) (typ : GroupVersionKind) (namespace : string) : list (Config V) :=
  let stores := default [] (stores cr !! typ) in
  if (length stores =? 0)%nat then []
  else first_of_each ∅ (concat (map (fun s => cs_List s typ namespace) stores)).

(** [Create], [Update], [UpdateStatus], [Patch] and [Delete] all go to the writer. *)
Definition through_writer {W A} (writer : option W) (f : W -> res A) : res A :=
  match writer with
  | None => Err errorUnsupported
  | Some w => f w
  end.

Fixpoint add_schemas (union : Schemas V) (storeTypes : gmap GroupVersionKind (list (ConfigStore V)))
    (store : ConfigStore V) (l : list (Schema V))
  : res (Schemas V * gmap GroupVersionKind (list (ConfigStore V))) :=
  match l with
  | [] => Ok (union, storeTypes)
  | s :: l =>
      let known := default [] (storeTypes !! sc_gvk s) in
      union ← (if (length known =? 0)%nat then Schemas_Builder_Add union s else Ok union);
      add_schemas union (<[sc_gvk s := known ++ [store]]> storeTypes) store l
  end.

Fixpoint add_stores (union : Schemas V) (storeTypes : gmap GroupVersionKind (list (ConfigStore V)))
    (l : list (ConfigStore V)) : res (Schemas V * gmap GroupVersionKind (list (ConfigStore V))) :=
  match l with
  | [] => Ok (union, storeTypes)
  | store :: l =>
      r ← add_schemas union storeTypes store (Schemas_All (cs_Schemas store));
      add_stores (fst r) (snd r) l
  end.

Definition makeStore (l : list (ConfigStore V)) : res store :=
  r ← add_stores NewSchemasBuilder ∅ l;
  match Schemas_Validate known_proto (fst r) with
  | [] => Ok (mkStore (fst r) (snd r))
  | e :: _ => Err (mk_error Unknown e)
  end.

Definition view (cr : store) : ConfigStore V := mkConfigStore (schemas cr) (Get cr) (List cr).

(** [storeCache]: the caches a handler is registered on, and whether all have
    synced. *)
Definition RegisterEventHandler (caches : list (ConfigStore V)) (kind : GroupVersionKind) : list nat :=
  omap (fun '(i, cache) => match FindByGroupVersionKind (cs_Schemas cache) kind with
                           | Some _ => Some i | None => None end)
    (imap pair caches).
Definition HasSynced (synced : list bool) : bool := forallb id synced.

End aggregate.
Arguments store : clear implicits.
End aggregate.

(** ** Lemmas *)

(** *** The store in memory *)

Section memory_lemmas.
Context {V : Type}.
Implicit Types (st : memory.store V) (c : Config V).

(** The kinds of the schemas have maps, and every configuration is under its
    own kind, namespace and name. *)
Record store_ok (st : memory.store V) : Prop := {
  st_kinds k s : FindByGroupVersionKind (memory.schemas st) k = Some s -> is_Some (memory.data st !! k);
  st_own k n ns c : memory.Get st k n ns = Some c -> cfg_GVK c = k /\ cfg_Namespace c = ns /\ cfg_Name c = n
}.

Lemma Get_put st k ns m k' n ns' :
  memory.Get (memory.put st k ns m) k' n ns'
  = if decide (k = k' /\ ns = ns') then m !! n else memory.Get st k' n ns'.
Proof.
  unfold memory.Get, memory.put. cbn [memory.data]. destruct (decide (k = k')) as [<-|Hk].
  - rewrite lookup_insert_eq. destruct (decide (ns = ns')) as [<-|Hns].
    + rewrite lookup_insert_eq. by rewrite decide_True.
    + rewrite lookup_insert_ne by done. rewrite decide_False by naive_solver.
      destruct (memory.data st !! k); simpl; [done|]. by rewrite lookup_empty.
  - rewrite lookup_insert_ne by done. by rewrite decide_False by naive_solver.
Qed.

Lemma put_kinds st k ns m k' : is_Some (memory.data st !! k') -> is_Some (memory.data (memory.put st k ns m) !! k').
Proof.
  intros Hk. unfold memory.put. cbn [memory.data]. destruct (decide (k = k')) as [<-|]; [by rewrite lookup_insert_eq|].
  by rewrite lookup_insert_ne.
Qed.

(** Replacing what a namespace has under one name. *)
Lemma Get_put_insert st k ns m n c :
  (forall n', m !! n' = memory.Get st k n' ns) ->
  forall k' n' ns', memory.Get (memory.put st k ns (<[n := c]> m)) k' n' ns'
    = if decide ((k, ns, n) = (k', ns', n')) then Some c else memory.Get st k' n' ns'.
Proof.
  intros Hm k' n' ns'. rewrite Get_put. destruct (decide (k = k' /\ ns = ns')) as [[<- <-]|Hne].
  - destruct (decide (n = n')) as [<-|Hn].
    + rewrite lookup_insert_eq. by rewrite decide_True.
    + rewrite lookup_insert_ne, Hm by done. by rewrite decide_False by naive_solver.
  - by rewrite decide_False by naive_solver.
Qed.

Lemma Get_put_delete st k ns m n :
  (forall n', m !! n' = memory.Get st k n' ns) ->
  forall k' n' ns', memory.Get (memory.put st k ns (delete n m)) k' n' ns'
    = if decide ((k, ns, n) = (k', ns', n')) then None else memory.Get st k' n' ns'.
Proof.
  intros Hm k' n' ns'. rewrite Get_put. destruct (decide (k = k' /\ ns = ns')) as [[<- <-]|Hne].
  - destruct (decide (n = n')) as [<-|Hn].
    + rewrite lookup_delete_eq. by rewrite decide_True.
    + rewrite lookup_delete_ne, Hm by done. by rewrite decide_False by naive_solver.
  - by rewrite decide_False by naive_solver.
Qed.

Lemma namespace_Get st k d ns m :
  memory.data st !! k = Some d -> d !! ns = Some m -> forall n, m !! n = memory.Get st k n ns.
Proof. intros Hd Hm n. unfold memory.Get. by rewrite Hd, Hm. Qed.

Lemma newStore_data (l : list (Schema V)) (d : gmap GroupVersionKind (gmap string (gmap string (Config V)))) k :
  is_Some (fold_left (fun d x => <[sc_gvk x := ∅]> d) l d !! k) <-> is_Some (d !! k) \/ k ∈ map sc_gvk l.
Proof.
  revert d. induction l as [|x l IH]; intros d; cbn [fold_left map].
  { split; [auto|]. intros [?|Hk]; [done|]. by apply elem_of_nil in Hk. }
  rewrite IH, elem_of_cons. destruct (decide (sc_gvk x = k)) as [->|Hn].
  - rewrite lookup_insert_eq. naive_solver.
  - rewrite lookup_insert_ne by done. naive_solver.
Qed.

Lemma newStore_empty (l : list (Schema V)) (d : gmap GroupVersionKind (gmap string (gmap string (Config V)))) k m :
  (forall k m, d !! k = Some m -> m = ∅) -> fold_left (fun d x => <[sc_gvk x := ∅]> d) l d !! k = Some m -> m = ∅.
Proof.
  revert d. induction l as [|x l IH]; intros d Hd; cbn [fold_left]; [apply Hd|].
  apply IH. intros k' m'. rewrite lookup_insert_Some. naive_solver.
Qed.

End memory_lemmas.

(** ** The specification of a store: a map with revisions *)

Definition config_key : Type := GroupVersionKind * string * string.
Definition key_of {V} (c : Config V) : config_key := (cfg_GVK c, cfg_Namespace c, cfg_Name c).

Section specification.
Context {V : Type} (Time_String : Time -> string).
(** What is wrong with a configuration, if anything, and the known kinds. *)
Context (invalid : Config V -> option gerror) (known : GroupVersionKind -> bool).

Inductive operation : Type :=
  | OpCreate (c : Config V)
  | OpUpdate (c : Config V)
  | OpDelete (k : GroupVersionKind) (name namespace : string).

(** A result is a revision, empty for a deletion. *)
Definition spec_step (tnow : Time) (m : gmap config_key (Config V)) (op : operation)
  : gmap config_key (Config V) * res string :=
  match op with
  | OpCreate c =>
      match invalid c, m !! key_of c with
      | Some e, _ => (m, Err e)
      | None, Some _ => (m, Err errAlreadyExists)
      | None, None => let c := memory.stamp Time_String tnow c in (<[key_of c := c]> m, Ok (cfg_ResourceVersion c))
      end
  | OpUpdate c =>
      match invalid c, m !! key_of c with
      | Some e, _ => (m, Err e)
      | None, None => (m, Err errNotFound)
      | None, Some old =>
          if memory.hasConflict old c then (m, Err errConflict) else
          let c := memory.restamp Time_String tnow c in (<[key_of c := c]> m, Ok (cfg_ResourceVersion c))
      end
  | OpDelete k n ns =>
      if negb (known k) then (m, Err (unknown_type k)) else
      match m !! (k, ns, n) with
      | None => (m, Err errNotFound)
      | Some _ => (delete (k, ns, n) m, Ok "")
      end
  end.

End specification.

Definition run_op {V} (Time_String : Time -> string) (tnow : Time) (st : memory.store V) (op : operation (V := V))
  : memory.store V * res string :=
  match op with
  | OpCreate c => memory.Create Time_String tnow st c
  | OpUpdate c => memory.Update Time_String tnow st c
  | OpDelete k n ns => let '(st, r) := memory.Delete st k n ns None in (st, (fun _ => "") <$> r)
  end.

Definition represents {V} (st : memory.store V) (m : gmap config_key (Config V)) : Prop :=
  forall k ns n, m !! (k, ns, n) = memory.Get st k n ns.

Section refinement_lemmas.
Context {V : Type} (Time_String : Time -> string).
Implicit Types (st : memory.store V) (c : Config V).

Lemma stamp_key tnow c : key_of (memory.stamp Time_String tnow c) = key_of c.
Proof. unfold memory.stamp. destruct (String.eqb _ ""); destruct (IsZero _); done. Qed.
Lemma restamp_key tnow c : key_of (memory.restamp Time_String tnow c) = key_of c.
Proof. unfold memory.restamp. by destruct (negb _). Qed.

Lemma key_of_inv c c' : key_of c = key_of c' ->
  cfg_GVK c = cfg_GVK c' /\ cfg_Namespace c = cfg_Namespace c' /\ cfg_Name c = cfg_Name c'.
Proof. unfold key_of. by intros [= -> -> ->]. Qed.

(** Storing a configuration under its own key. *)
Lemma insert_ok st c ns :
  store_ok st -> is_Some (memory.data st !! cfg_GVK c) ->
  (forall n, ns !! n = memory.Get st (cfg_GVK c) n (cfg_Namespace c)) ->
  store_ok (memory.put st (cfg_GVK c) (cfg_Namespace c) (<[cfg_Name c := c]> ns)).
Proof.
  intros [Hk Ho] Hd Hns. split.
  - intros k s Hs. apply put_kinds. by apply (Hk k s).
  - intros k n ns' c'. rewrite (Get_put_insert st _ _ ns) by done.
    destruct (decide _) as [[= <- <- <-]|]; [intros [= <-]; done|apply Ho].
Qed.

Lemma represents_insert st m c ns :
  represents st m -> (forall n, ns !! n = memory.Get st (cfg_GVK c) n (cfg_Namespace c)) ->
  represents (memory.put st (cfg_GVK c) (cfg_Namespace c) (<[cfg_Name c := c]> ns)) (<[key_of c := c]> m).
Proof.
  intros Hr Hns k ns' n. rewrite (Get_put_insert st _ _ ns) by done. unfold key_of.
  destruct (decide _) as [[= <- <- <-]|Hne]; [by rewrite lookup_insert_eq|].
  rewrite lookup_insert_ne; [apply Hr|]. intros E. by apply Hne.
Qed.

(** Creating the map of a namespace changes nothing that can be read. *)
Lemma put_empty_Get st k ns k' n ns' :
  (forall n, memory.Get st k n ns = None) ->
  memory.Get (memory.put st k ns ∅) k' n ns' = memory.Get st k' n ns'.
Proof. intros Hn. rewrite Get_put. destruct (decide _) as [[<- <-]|]; [|done]. by rewrite Hn. Qed.

Lemma check_kind st c : store_ok st -> memory.check st (cfg_GVK c) c = None -> is_Some (memory.data st !! cfg_GVK c).
Proof.
  intros Hok. unfold memory.check. destruct (FindByGroupVersionKind _ _) as [s|] eqn:E; [|done]. intros _.
  by apply (st_kinds _ Hok _ s).
Qed.

Lemma Create_refines st m c tnow :
  store_ok st -> represents st m ->
  let r := memory.Create Time_String tnow st c in
  let r' := spec_step Time_String (fun c => memory.check st (cfg_GVK c) c) (fun k => bool_decide (is_Some (memory.data st !! k)))
              tnow m (OpCreate c) in
  store_ok (fst r) /\ represents (fst r) (fst r') /\ snd r = snd r' /\ memory.schemas (fst r) = memory.schemas st.
Proof.
  intros Hok Hr. cbv zeta. unfold memory.Create. cbn [spec_step].
  destruct (memory.check st (cfg_GVK c) c) as [e|] eqn:Ec; [done|].
  destruct (check_kind st c Hok Ec) as [d Hd]. rewrite Hd.
  assert (Hkc : m !! key_of c = memory.Get st (cfg_GVK c) (cfg_Name c) (cfg_Namespace c)) by apply Hr.
  rewrite Hkc.
  pose proof (stamp_key tnow c) as Hkey. apply key_of_inv in Hkey as (Hg & Hn & Hnm).
  set (c' := memory.stamp Time_String tnow c) in *.
  destruct (d !! cfg_Namespace c) as [ns|] eqn:Ens; cbn [default]; unfold id.
  - pose proof (namespace_Get st _ d _ ns Hd Ens) as Hns. rewrite <- Hns.
    destruct (ns !! cfg_Name c) as [old|] eqn:Eo; [done|]. cbn [fst snd].
    rewrite <- Hg. split; [|split; [|done]].
    + apply insert_ok; [done|rewrite Hg; eauto|]. intros n. by rewrite Hg, Hn.
    + apply represents_insert; [done|]. intros n. by rewrite Hg, Hn.
  - assert (Hnone : forall n, memory.Get st (cfg_GVK c) n (cfg_Namespace c) = None).
    { intros n. unfold memory.Get. by rewrite Hd, Ens. }
    rewrite Hnone, lookup_empty. cbn [fst snd].
    set (st0 := memory.put st (cfg_GVK c) (cfg_Namespace c) ∅).
    assert (Hst0 : forall k n ns, memory.Get st0 k n ns = memory.Get st k n ns).
    { intros k n ns. by apply put_empty_Get. }
    assert (Hok0 : store_ok st0).
    { split; [intros k s Hs; apply put_kinds; by apply (st_kinds _ Hok k s)|]. intros k n ns x. rewrite Hst0. apply (st_own _ Hok). }
    rewrite <- Hg. split; [|split; [|done]].
    + apply insert_ok; [done|rewrite Hg; unfold st0; apply put_kinds; eauto|].
      intros n. rewrite Hst0, Hg, Hn, Hnone. apply lookup_empty.
    + apply represents_insert; [intros k ns n; rewrite Hst0; apply Hr|].
      intros n. rewrite Hst0, Hg, Hn, Hnone. apply lookup_empty.
Qed.

Lemma Update_refines st m c tnow :
  store_ok st -> represents st m ->
  let r := memory.Update Time_String tnow st c in
  let r' := spec_step Time_String (fun c => memory.check st (cfg_GVK c) c) (fun k => bool_decide (is_Some (memory.data st !! k)))
              tnow m (OpUpdate c) in
  store_ok (fst r) /\ represents (fst r) (fst r') /\ snd r = snd r' /\ memory.schemas (fst r) = memory.schemas st.
Proof.
  intros Hok Hr. cbv zeta. unfold memory.Update. cbn [spec_step].
  destruct (memory.check st (cfg_GVK c) c) as [e|] eqn:Ec; [done|].
  destruct (check_kind st c Hok Ec) as [d Hd]. rewrite Hd.
  assert (Hkc : m !! key_of c = memory.Get st (cfg_GVK c) (cfg_Name c) (cfg_Namespace c)) by apply Hr.
  rewrite Hkc. pose proof (restamp_key tnow c) as Hkey. apply key_of_inv in Hkey as (Hg & Hn & Hnm).
  set (c' := memory.restamp Time_String tnow c) in *.
  destruct (d !! cfg_Namespace c) as [ns|] eqn:Ens.
  - pose proof (namespace_Get st _ d _ ns Hd Ens) as Hns. rewrite <- Hns.
    destruct (ns !! cfg_Name c) as [old|] eqn:Eo; [|done].
    destruct (memory.hasConflict old c); [done|]. cbn [fst snd].
    rewrite <- Hg. split; [|split; [|done]].
    + apply insert_ok; [done|rewrite Hg; eauto|]. intros n. by rewrite Hg, Hn.
    + apply represents_insert; [done|]. intros n. by rewrite Hg, Hn.
  - assert (Hnone : memory.Get st (cfg_GVK c) (cfg_Name c) (cfg_Namespace c) = None).
    { unfold memory.Get. by rewrite Hd, Ens. }
    by rewrite Hnone.
Qed.

Lemma Delete_refines st m k n ns rv :
  store_ok st -> represents st m ->
  let r := memory.Delete st k n ns rv in
  let r' := spec_step Time_String (fun c => memory.check st (cfg_GVK c) c) (fun k => bool_decide (is_Some (memory.data st !! k)))
              0 m (OpDelete k n ns) in
  store_ok (fst r) /\ represents (fst r) (fst r') /\ (fun _ => "") <$> snd r = snd r' /\
  memory.schemas (fst r) = memory.schemas st.
Proof.
  intros Hok Hr. cbv zeta. unfold memory.Delete. cbn [spec_step]. rewrite Hr.
  destruct (memory.data st !! k) as [d|] eqn:Hd.
  2:{ rewrite bool_decide_false; [done|]. intros [? ?]. congruence. }
  rewrite bool_decide_true by eauto. cbn [negb]. destruct (d !! ns) as [x|] eqn:Ens.
  - pose proof (namespace_Get st _ d _ x Hd Ens) as Hns. rewrite <- Hns.
    destruct (x !! n) as [old|]; [|done]. cbn [fst snd]. split; [|split; [|done]].
    + split; [intros k' s Hs; apply put_kinds; by apply (st_kinds _ Hok k' s)|]. intros k' n' ns' c.
      rewrite (Get_put_delete st _ _ x) by done. destruct (decide _); [done|apply (st_own _ Hok)].
    + intros k' ns' n'. rewrite (Get_put_delete st _ _ x) by done. destruct (decide _) as [[= <- <- <-]|Hne].
      * by rewrite lookup_delete_eq.
      * rewrite lookup_delete_ne by done. apply Hr.
  - unfold memory.Get. by rewrite Hd, Ens.
Qed.

End refinement_lemmas.

(** *** Readers *)

Section reader_lemmas.
Context `{RangeOrder} {V : Type}.

Lemma elem_of_range_values (m : gmap string (Config V)) c : c ∈ map snd (range m) <-> exists n, m !! n = Some c.
Proof.
  rewrite list_elem_of_fmap. split.
  - intros ([n x] & -> & Hin). exists n. by apply elem_of_range.
  - intros [n Hn]. exists (n, c). split; [done|]. by apply elem_of_range.
Qed.

Lemma memory_List_elem (st : memory.store V) k ns c :
  c ∈ memory.List st k ns <-> exists n ns', memory.Get st k n ns' = Some c /\ (ns = "" \/ ns' = ns).
Proof.
  unfold memory.List, memory.Get. destruct (memory.data st !! k) as [d|].
  2:{ split; [by intros ?%elem_of_nil|]. by intros (? & ? & ? & _). }
  destruct (String.eqb_spec ns "") as [->|Hns].
  - rewrite list_elem_of_In, in_concat. split.
    + intros (l & Hl & Hc). apply in_map_iff in Hl as ([ns' m] & <- & Hin).
      apply list_elem_of_In, elem_of_range in Hin. apply list_elem_of_In, elem_of_range_values in Hc as [n Hn].
      exists n, ns'. rewrite Hin. auto.
    + intros (n & ns' & Hg & _). destruct (d !! ns') as [m|] eqn:E; [|done]. exists (map snd (range m)). split.
      * apply in_map_iff. exists (ns', m). split; [done|]. by apply list_elem_of_In, elem_of_range.
      * apply list_elem_of_In, elem_of_range_values. eauto.
  - destruct (d !! ns) as [m|] eqn:E.
    + rewrite elem_of_range_values. split.
      * intros [n Hn]. exists n, ns. rewrite E. auto.
      * intros (n & ns' & Hg & [->|<-]); [done|]. rewrite E in Hg. eauto.
    + split; [by intros ?%elem_of_nil|]. intros (n & ns' & Hg & [->|<-]); [done|]. by rewrite E in Hg.
Qed.

(** The memory store is a lawful one. *)
Lemma memory_lawful (st : memory.store V) : store_ok st -> LawfulStore (memory_view st).
Proof.
  intros Hok. split; cbn [memory_view cs_Get cs_List].
  - intros k n ns c Hg. destruct (st_own _ Hok _ _ _ _ Hg) as (_ & ? & ?). split; [done|]. split; [done|].
    intros ns' Hns'. apply memory_List_elem. exists n, ns. split; [done|]. naive_solver.
  - intros k ns c (n & ns' & Hg & Hns)%memory_List_elem.
    destruct (st_own _ Hok _ _ _ _ Hg) as (_ & <- & <-). auto.
Qed.

End reader_lemmas.

Section aggregate_lemmas.
Context {V : Type}.

Lemma first_of_each_elem seen (l : list (Config V)) c :
  c ∈ aggregate.first_of_each seen l <->
  NamespacedName c ∉ seen /\ List.find (fun x => bool_decide (NamespacedName x = NamespacedName c)) l = Some c.
Proof.
  revert seen. induction l as [|x l IH]; intros seen; cbn [aggregate.first_of_each List.find].
  { split; [by intros ?%elem_of_nil|]. by intros [_ ?]. }
  case_bool_decide as Hx.
  - rewrite IH. split; intros [Hs Hf]; (split; [done|]).
    + rewrite bool_decide_false; [done|]. congruence.
    + rewrite bool_decide_false in Hf; [done|]. congruence.
  - rewrite elem_of_cons, IH. case_bool_decide as Hxc.
    + split; [|naive_solver]. intros [->|[Hn _]]; [done|]. rewrite Hxc in Hn. set_solver.
    + split; [|set_solver]. intros [->|[Hn Hf]]; [done|]. split; [set_solver|done].
Qed.

(** In a lawful store the name finds what the store gets under it. *)
Lemma find_lawful (s : ConfigStore V) `{!LawfulStore s} k ns key :
  (ns = "" \/ fst key = ns) ->
  List.find (fun x => bool_decide (NamespacedName x = key)) (cs_List s k ns) = cs_Get s k (snd key) (fst key).
Proof.
  intros Hns. destruct key as [kns kn]. simpl in *.
  destruct (List.find _ _) as [c|] eqn:E.
  - apply find_some in E as [Hin Hk]. breflect. apply list_elem_of_In in Hin.
    destruct (listed_get k ns c Hin) as [Hg _]. unfold NamespacedName in Hk. by injection Hk as <- <-.
  - destruct (cs_Get s k kn kns) as [c|] eqn:Eg; [|done]. destruct (get_listed _ _ _ _ Eg) as (Hn & Hm & Hl).
    assert (Hin : c ∈ cs_List s k ns) by (apply Hl; naive_solver).
    apply list_elem_of_In in Hin. pose proof (List.find_none _ _ E c Hin) as Hx. simpl in Hx. breflect.
    exfalso. apply Hx. unfold NamespacedName. by rewrite Hn, Hm.
Qed.

Lemma get_first_find (l : list (ConfigStore V)) k ns key :
  Forall LawfulStore l -> (ns = "" \/ fst key = ns) ->
  List.find (fun x => bool_decide (NamespacedName x = key)) (concat (map (fun s => cs_List s k ns) l))
  = aggregate.get_first l k (snd key) (fst key).
Proof.
  intros Hl Hns. induction Hl as [|s l Hs Hl IH]; simpl; [done|].
  rewrite find_app, (find_lawful s k ns key Hns), IH. done.
Qed.

Lemma get_first_Some (l : list (ConfigStore V)) k n ns c :
  Forall LawfulStore l -> aggregate.get_first l k n ns = Some c -> cfg_Name c = n /\ cfg_Namespace c = ns.
Proof.
  induction 1 as [|s l Hs Hl IH]; simpl; [done|]. destruct (cs_Get s k n ns) as [x|] eqn:E; [|done].
  intros [= <-]. by destruct (get_listed _ _ _ _ E) as (? & ? & _).
Qed.

Lemma aggregate_lawful (cr : aggregate.store V) :
  (forall k l, aggregate.stores cr !! k = Some l -> Forall LawfulStore l) -> LawfulStore (aggregate.view cr).
Proof.
  intros Hl.
  assert (Hls : forall k, Forall LawfulStore (default [] (aggregate.stores cr !! k))).
  { intros k. destruct (aggregate.stores cr !! k) eqn:E; [by apply (Hl k)|constructor]. }
  assert (Hlist : forall k ns c, c ∈ aggregate.List cr k ns <->
    List.find (fun x => bool_decide (NamespacedName x = NamespacedName c))
      (concat (map (fun s => cs_List s k ns) (default [] (aggregate.stores cr !! k)))) = Some c).
  { intros k ns c. unfold aggregate.List. destruct (Nat.eqb_spec (length (default [] (aggregate.stores cr !! k))) 0) as [Hz|Hz].
    - apply length_zero_iff_nil in Hz as ->. simpl. split; [by intros ?%elem_of_nil|done].
    - rewrite first_of_each_elem. set_solver. }
  split; cbn [aggregate.view cs_Get cs_List].
  - intros k n ns c Hg. destruct (get_first_Some _ _ _ _ _ (Hls k) Hg) as [Hn Hns]. split; [done|]. split; [done|].
    intros ns' Hns'. apply Hlist. rewrite get_first_find; [|done|simpl; naive_solver].
    cbn [NamespacedName fst snd]. by rewrite Hn, Hns.
  - intros k ns c Hc%Hlist.
    assert (Hin : ns = "" \/ cfg_Namespace c = ns).
    { apply find_some in Hc as [Hin _]. apply in_concat in Hin as (l & Hm & Hin).
      apply in_map_iff in Hm as (s & <- & Hs). apply list_elem_of_In in Hin.
      pose proof (Hls k) as Hf. rewrite Forall_forall in Hf. apply list_elem_of_In in Hs.
      specialize (Hf s Hs). by destruct (listed_get _ _ _ Hin). }
    split; [|done]. rewrite get_first_find in Hc; [exact Hc|done|done].
Qed.

End aggregate_lemmas.

Section make_lemmas.
Context {V : Type}.
Implicit Types (u : Schemas V) (ts : gmap GroupVersionKind (list (ConfigStore V))).

(** The kinds with stores are the kinds of the union. *)
Definition union_ok u ts : Prop :=
  schemas_ok u /\ forall k, is_Some (FindByGroupVersionKind u k) <-> default [] (ts !! k) <> [].

Lemma add_schemas_spec u ts s l :
  union_ok u ts -> NoDup (map sc_gvk l) ->
  exists u' ts', aggregate.add_schemas u ts s l = Ok (u', ts') /\ union_ok u' ts' /\
    forall k, default [] (ts' !! k) = default [] (ts !! k) ++ (if decide (k ∈ map sc_gvk l) then [s] else []).
Proof.
  revert u ts. induction l as [|x l IH]; intros u ts [Hu Hk] Hnd; cbn [aggregate.add_schemas map].
  { exists u, ts. split; [done|]. split; [done|]. intros k. rewrite decide_False; [by rewrite app_nil_r|]. apply not_elem_of_nil. }
  cbn [map] in Hnd. apply NoDup_cons in Hnd as [Hx Hnd].
  assert (Hstep : exists u1, (if (length (default [] (ts !! sc_gvk x)) =? 0)%nat then Schemas_Builder_Add u x else Ok u) = Ok u1
    /\ union_ok u1 (<[sc_gvk x := default [] (ts !! sc_gvk x) ++ [s]]> ts)).
  { assert (Hts : forall k, default [] (<[sc_gvk x := default [] (ts !! sc_gvk x) ++ [s]]> ts !! k) <> [] <->
      k = sc_gvk x \/ default [] (ts !! k) <> []).
    { intros k. destruct (decide (sc_gvk x = k)) as [<-|Hne].
      - rewrite lookup_insert_eq. simpl. split; [auto|]. intros _ E. by apply app_nil in E as [_ ?].
      - rewrite lookup_insert_ne by done. naive_solver. }
    destruct (Nat.eqb_spec (length (default [] (ts !! sc_gvk x))) 0) as [Hz|Hz].
    - pose proof (Builder_Add_spec u x Hu) as Ha. destruct (Schemas_Builder_Add u x) as [u1|e|w]; [| |done].
      + destruct Ha as (_ & Hok & Hl). exists u1. split; [done|]. split; [done|]. intros k. rewrite Hts, <- Hk.
        unfold FindByGroupVersionKind. rewrite Hl, find_snoc. destruct (List.find _ (byAddOrder u)).
        * split; [auto|]. intros _. eauto.
        * case_bool_decide; [split; [auto|eauto]|]. split; [by intros [? ?]|]. intros [->|[? ?]]; done.
      + apply Hk in Ha. apply length_zero_iff_nil in Hz. done.
    - exists u. split; [done|]. split; [done|]. intros k. rewrite Hts, <- Hk. split; [auto|]. intros [->|?]; [|done].
      apply Hk. intros E. by rewrite E in Hz. }
  destruct Hstep as (u1 & -> & Hok1). cbn [mbind res_bind].
  destruct (IH u1 _ Hok1 Hnd) as (u' & ts' & E & Hok' & Hts'). exists u', ts'. split; [exact E|]. split; [done|].
  intros k. rewrite Hts'. destruct (decide (sc_gvk x = k)) as [<-|Hne].
  - rewrite lookup_insert_eq. simpl. rewrite decide_False, app_nil_r by done. by rewrite decide_True by set_solver.
  - rewrite lookup_insert_ne by done. f_equal. destruct (decide (k ∈ map sc_gvk l)).
    + by rewrite decide_True by set_solver.
    + by rewrite decide_False by set_solver.
Qed.

Definition supports (k : GroupVersionKind) (s : ConfigStore V) : bool :=
  bool_decide (k ∈ GroupVersionKinds (cs_Schemas s)).

Lemma add_stores_spec u ts l :
  union_ok u ts -> Forall (fun s => schemas_ok (cs_Schemas s)) l ->
  exists u' ts', aggregate.add_stores u ts l = Ok (u', ts') /\ union_ok u' ts' /\
    forall k, default [] (ts' !! k) = default [] (ts !! k) ++ List.filter (supports k) l.
Proof.
  intros Hok Hl. revert u ts Hok. induction Hl as [|s l Hs Hl IH]; intros u ts Hok; cbn [aggregate.add_stores List.filter].
  { exists u, ts. split; [done|]. split; [done|]. intros k. by rewrite app_nil_r. }
  destruct (add_schemas_spec u ts s (Schemas_All (cs_Schemas s)) Hok (so_once _ Hs)) as (u1 & ts1 & -> & Hok1 & H1).
  cbn [mbind res_bind fst snd]. destruct (IH u1 ts1 Hok1) as (u' & ts' & E & Hok' & H').
  exists u', ts'. split; [exact E|]. split; [done|]. intros k. rewrite H', H1, <- app_assoc. f_equal.
  unfold supports at 2. unfold GroupVersionKinds. destruct (decide (k ∈ map sc_gvk _)) as [Hin|Hin].
  - by rewrite bool_decide_true.
  - by rewrite bool_decide_false.
Qed.

End make_lemmas.

(** ** Properties *)

(** C33 The store in memory implements a finite map with revisions: started from
    a store that represents a map, every creation, update and deletion gives the
    result and the map the specification gives, on success and on every error, and
    keeps the store well formed, so that a write never meets a missing map. *)
Theorem memory_store_refines {V} (Time_String : Time -> string) (st : memory.store V) m tnow op :
  store_ok st -> represents st m ->
  let '(st', r) := run_op Time_String tnow st op in
  let '(m', r') := spec_step Time_String (fun c => memory.check st (cfg_GVK c) c)
                     (fun k => bool_decide (is_Some (memory.data st !! k))) tnow m op in
  store_ok st' /\ represents st' m' /\ r = r'.
Proof.
  intros Hok Hr. destruct op as [c|c|k n ns]; cbn [run_op].
  - pose proof (Create_refines Time_String st m c tnow Hok Hr) as Hc. cbv zeta in Hc.
    destruct (memory.Create _ _ _ _), (spec_step _ _ _ _ _ _). naive_solver.
  - pose proof (Update_refines Time_String st m c tnow Hok Hr) as Hc. cbv zeta in Hc.
    destruct (memory.Update _ _ _ _), (spec_step _ _ _ _ _ _). naive_solver.
  - pose proof (Delete_refines Time_String st m k n ns None Hok Hr) as Hc. cbv zeta in Hc.
    destruct (memory.Delete _ _ _ _ _). cbn [spec_step] in *. repeat case_match; naive_solver.
Qed.

(** A new store is well formed and represents the empty map. *)
Lemma newStore_ok {V} (s : Schemas V) skip :
  schemas_ok s -> store_ok (memory.newStore s skip) /\ represents (memory.newStore s skip) ∅.
Proof.
  intros Hs.
  assert (Hn : forall k n ns, memory.Get (memory.newStore s skip) k n ns = None).
  { intros k n ns. unfold memory.Get, memory.newStore. cbn [memory.data].
    destruct (fold_left _ _ ∅ !! k) as [d|] eqn:E; [|done].
    assert (d = ∅) as ->; [|by rewrite lookup_empty].
    eapply newStore_empty; [|exact E]. intros k' m'. by rewrite lookup_empty. }
  split; [split|].
  - intros k x Hx. apply newStore_data. right. apply Find_spec in Hx as [Hx <-]; [|done]. by apply list_elem_of_fmap_2.
  - intros k n ns c. by rewrite Hn.
  - intros k ns n. by rewrite Hn, lookup_empty.
Qed.

(** The union of lawful stores is a lawful store: it gets a configuration
    exactly when it lists it, one per name and namespace, and the one it gets is
    that of the first store, in the order given, that supports the kind and has
    the name.  Building the union fails only when a schema is not valid. *)
Theorem aggregate_is_a_store {V} (known_proto : string -> bool) (l : list (ConfigStore V)) :
  Forall (fun s => schemas_ok (cs_Schemas s)) l -> Forall LawfulStore l ->
  match aggregate.makeStore known_proto l with
  | Ok cr =>
      schemas_ok (aggregate.schemas cr) /\ LawfulStore (aggregate.view cr) /\
      (forall k, is_Some (FindByGroupVersionKind (aggregate.schemas cr) k) <-> exists s, s ∈ l /\ supports k s = true) /\
      forall k n ns, aggregate.Get cr k n ns = aggregate.get_first (List.filter (supports k) l) k n ns
  | Err e => exists u : Schemas V, schemas_ok u /\ Schemas_Validate known_proto u <> []
  | Panic _ => False
  end.
Proof.
  intros Hs Hl. unfold aggregate.makeStore.
  destruct (add_stores_spec NewSchemasBuilder (∅ : gmap GroupVersionKind (list (ConfigStore V))) l)
    as (u & ts & -> & [Hu Hk] & Hts); [|done|].
  { split; [apply NewSchemasBuilder_ok|]. intros k. rewrite Find_New, lookup_empty. split; [intros [? ?]; done|done]. }
  cbn [mbind res_bind fst snd]. destruct (Schemas_Validate known_proto u) as [|e es] eqn:Ev.
  2:{ exists u. split; [done|]. by rewrite Ev. }
  assert (Hd : forall k, default [] (ts !! k) = List.filter (supports k) l).
  { intros k. rewrite Hts, lookup_empty. done. }
  cbn [aggregate.schemas]. split; [done|]. split; [|split].
  - apply aggregate_lawful. cbn [aggregate.stores]. intros k x Hx. specialize (Hd k). rewrite Hx in Hd. simpl in Hd.
    unfold id in Hd. subst x. apply Forall_forall. intros s Hin. rewrite Forall_forall in Hl. apply Hl.
    apply list_elem_of_In, filter_In in Hin as [Hin _]. by apply list_elem_of_In.
  - intros k. rewrite Hk, Hd. split.
    + intros Hne. destruct (List.filter (supports k) l) as [|s r] eqn:E; [done|]. exists s.
      assert (Hin : In s (List.filter (supports k) l)) by (rewrite E; by left).
      apply filter_In in Hin as [Hin Hf]. split; [by apply list_elem_of_In|done].
    + intros (s & Hin & Hf) E. apply list_elem_of_In in Hin.
      assert (Hx : In s (List.filter (supports k) l)) by (by apply filter_In). by rewrite E in Hx.
  - intros k n ns. unfold aggregate.Get. cbn [aggregate.stores]. by rewrite Hd.
Qed.

(** The events of a controller follow its store: a creation or an update that
    succeeds schedules one event, with the configuration that was replaced, and
    leaves what the store says; one that fails reports the error of the store and
    schedules nothing; and a missing monitor is reached exactly by the writes
    that succeed. *)
Theorem controller_announces {V} (Time_String : Time -> string) tnow (c : controller.Controller V) cfg :
  store_ok (controller.configStore c) ->
  let st := controller.configStore c in
  let old := memory.Get st (cfg_GVK cfg) (cfg_Name cfg) (cfg_Namespace cfg) in
  let follows (w : memory.store V * res string) (r : res (controller.Controller V * string)) ev :=
    match w, controller.monitor c, r with
    | (st', Ok rev), Some log, Ok (c', rev') =>
        rev' = rev /\ controller.configStore c' = st' /\ controller.monitor c' = Some (log ++ [ev])
    | (_, Ok rev), None, Panic _ => True
    | (_, Err e), _, Err e' => e' = e
    | _, _, _ => False
    end in
  follows (memory.Create Time_String tnow st cfg) (controller.Create Time_String tnow c cfg)
    (controller.mkEvent cfg None EventAdd) /\
  follows (memory.Update Time_String tnow st cfg) (controller.Update Time_String tnow c cfg)
    (controller.mkEvent cfg old EventUpdate) /\
  (forall st' rev, memory.Update Time_String tnow st cfg = (st', Ok rev) -> is_Some old).
Proof.
  intros Hok. cbv zeta. set (st := controller.configStore c).
  set (old := memory.Get st (cfg_GVK cfg) (cfg_Name cfg) (cfg_Namespace cfg)).
  assert (Hold : forall st' rev, memory.Update Time_String tnow st cfg = (st', Ok rev) -> is_Some old).
  { intros st' rev. unfold memory.Update, old, memory.Get. destruct (memory.check _ _ _); [done|].
    destruct (memory.data st !! cfg_GVK cfg) as [d|]; [|done]. destruct (d !! cfg_Namespace cfg) as [ns|]; [|done].
    destruct (ns !! cfg_Name cfg); [eauto|done]. }
  assert (Hnp : forall st' w, memory.Update Time_String tnow st cfg <> (st', Panic w)).
  { intros st' w. unfold memory.Update. repeat case_match; done. }
  split_and!; [| |exact Hold].
  - assert (Hcp : forall st' w, memory.Create Time_String tnow st cfg <> (st', Panic w)).
    { intros st' w. unfold memory.Create. destruct (memory.check _ _ _) eqn:Ec; [done|].
      destruct (check_kind st cfg Hok Ec) as [d ->]. repeat case_match; done. }
    unfold controller.Create, controller.announce. fold st.
    destruct (memory.Create Time_String tnow st cfg) as [st' [rev|e|w]]; [| |by destruct (Hcp st' w)].
    + unfold controller.ScheduleProcessEvent. cbn [controller.with_store controller.monitor].
      by destruct (controller.monitor c).
    + done.
  - unfold controller.Update. fold st. fold old.
    destruct (memory.Update Time_String tnow st cfg) as [st' [rev|e|w]] eqn:E; [| |by destruct (Hnp st' w)].
    + destruct (Hold st' rev eq_refl) as [x ->]. unfold controller.announce, controller.ScheduleProcessEvent.
      cbn [controller.with_store controller.monitor]. by destruct (controller.monitor c).
    + by destruct old.
Qed.

(** A controller is made without a monitor: the first write that succeeds
    panics. *)
Theorem new_controller_write_panics {V} (Time_String : Time -> string) tnow (cs st' : memory.store V) cfg rev :
  memory.Create Time_String tnow cs cfg = (st', Ok rev) ->
  exists w, controller.Create Time_String tnow (controller.NewController cs) cfg = Panic w.
Proof.
  intros E. unfold controller.Create, controller.announce. cbn [controller.NewController controller.configStore].
  rewrite E. eexists. reflexivity.
Qed.

(** [Patch] of the controller hands the patched configuration and the patch to
    the store, which applies it again: what is stored has been patched twice,
    while the event shows it patched once. *)
Theorem controller_patches_twice {V} (Time_String : Time -> string) tnow (c c' : controller.Controller V) orig patchFn rev :
  cfg_GVK (fst (patchFn orig)) = cfg_GVK orig -> cfg_Namespace (fst (patchFn orig)) = cfg_Namespace orig ->
  controller.Patch Time_String tnow c orig patchFn = Ok (c', rev) ->
  let once := fst (patchFn orig) in let twice := fst (patchFn once) in
  memory.Get (controller.configStore c') (cfg_GVK orig) (cfg_Name twice) (cfg_Namespace orig)
  = Some (set_ResourceVersion rev twice).
Proof.
  intros Hg Hns. unfold controller.Patch. destruct (patchFn orig) as [once typ] eqn:Ep. cbn [fst] in Hg, Hns.
  destruct (_ || _); [|done]. cbv zeta. cbn [fst].
  unfold controller.announce, memory.Patch. rewrite Hg.
  destruct (FindByGroupVersionKind _ _) as [s|]; [|done]. destruct (if negb _ then _ else None); [done|].
  destruct (memory.data _ !! _) as [d|] eqn:Ed; [|done]. rewrite Hns. destruct (d !! _) as [ns|] eqn:Ens; [|done].
  unfold controller.ScheduleProcessEvent. cbn [controller.with_store controller.monitor].
  destruct (controller.monitor c); [|done]. cbn [mbind res_bind]. intros [= <- <-].
  cbn [controller.configStore controller.with_store]. rewrite (Get_put_insert _ _ _ ns); [by rewrite decide_True|].
  by apply (namespace_Get _ _ d).
Qed.

(** *** Witnesses *)

Definition sample_store : memory.store string := memory.newStore (sample_schemas ["ServiceEntry"; "WorkloadEntry"]) false.
Definition sample_config (k ns name : string) : Config string := mkConfig (sample_meta k ns name) (Some "spec") None None.

Lemma sample_store_ok : store_ok sample_store /\ represents sample_store ∅.
Proof.
  apply newStore_ok, sample_schemas_ok. apply (bool_decide_unpack _). vm_compute. exact I.
Qed.

Lemma memory_store_refines_witness :
  store_ok (fst (run_op (fun _ => "now") 1 sample_store (OpCreate (sample_config "ServiceEntry" "ns" "a")))).
Proof.
  pose proof (memory_store_refines (fun _ => "now") sample_store ∅ 1 (OpCreate (sample_config "ServiceEntry" "ns" "a"))
    (proj1 sample_store_ok) (proj2 sample_store_ok)) as Hr.
  destruct (run_op _ _ _ _) as [st' r]. destruct (spec_step _ _ _ _ _ _) as [m' r']. destruct Hr as (Hok & _ & _). exact Hok.
Defined.

Definition created : memory.store string :=
  fst (memory.Create (fun _ => "now") 1 sample_store (sample_config "ServiceEntry" "ns" "a")).

Lemma created_ok : store_ok created.
Proof. apply (Create_refines (fun _ => "now") sample_store ∅); apply sample_store_ok. Qed.

Definition sample_union : aggregate.store string :=
  from_ok (aggregate.mkStore NewSchemasBuilder ∅)
    (aggregate.makeStore (fun _ => true) [@memory_view key_order _ created; @memory_view key_order _ sample_store]).

Lemma aggregate_is_a_store_witness : LawfulStore (aggregate.view sample_union).
Proof.
  pose proof (aggregate_is_a_store (fun _ => true)
    [@memory_view key_order _ created; @memory_view key_order _ sample_store]) as Ha.
  assert (Hok : is_ok (aggregate.makeStore (fun _ => true)
    [@memory_view key_order _ created; @memory_view key_order _ sample_store]) = true) by (vm_compute; reflexivity).
  unfold sample_union. destruct (aggregate.makeStore _ _) as [cr| |]; [|discriminate|discriminate].
  apply Ha.
  - assert (Hs : schemas_ok (sample_schemas ["ServiceEntry"; "WorkloadEntry"]))
      by (apply sample_schemas_ok; apply (bool_decide_unpack _); vm_compute; exact I).
    constructor; [exact Hs|]. constructor; [exact Hs|constructor].
  - constructor; [apply memory_lawful, created_ok|].
    constructor; [apply memory_lawful, sample_store_ok|constructor].
Defined.

Lemma controller_announces_witness :
  match controller.Create (fun _ => "now") 1 (controller.mkController sample_store (Some []) None)
          (sample_config "ServiceEntry" "ns" "a") with
  | Ok (c, rev) => rev = "now" /\
      controller.monitor c = Some [controller.mkEvent (sample_config "ServiceEntry" "ns" "a") None EventAdd]
  | _ => False
  end.
Proof.
  destruct (controller_announces (fun _ => "now") 1 (controller.mkController sample_store (Some []) None)
    (sample_config "ServiceEntry" "ns" "a")) as [Hc _]; [apply sample_store_ok|]. cbv zeta in Hc.
  cbn [controller.configStore controller.monitor] in Hc.
  assert (Hrev : snd (memory.Create (fun _ => "now") 1 sample_store (sample_config "ServiceEntry" "ns" "a")) = Ok "now")
    by (vm_compute; reflexivity).
  destruct (memory.Create _ 1 sample_store _) as [st' r]. cbn [snd] in Hrev. subst r.
  destruct (controller.Create _ _ _ _) as [[c' rev']| |]; [|destruct Hc|destruct Hc].
  destruct Hc as (-> & _ & Hm). split; [reflexivity|exact Hm].
Defined.
