(* ===== verification/ServiceEntries.v ===== *)
(** * The registry of service entries

    [dubbod/discovery/pkg/serviceregistry/serviceentry/controller.go]: services declared by
    ServiceEntry configurations, their endpoints from WorkloadEntry
    configurations or from the entry itself, and the updates sent to the server
    when the declarations change. *)

From S2P Require Import Prelude GoStrings GoSets GoSlices GoSort Hosts GoNet Service ServiceIndex Ads ConfigModel.

(** ** Declarations

    The messages of the networking API; a nil element of a list reads as an empty
    message. *)

Inductive SE_Resolution : Type := SE_NONE | SE_STATIC | SE_DNS | SE_DNS_ROUND_ROBIN.
Inductive SE_Location : Type := MESH_EXTERNAL | MESH_INTERNAL.

#[global] Instance SE_Resolution_eq_dec : EqDecision SE_Resolution.
Proof. solve_decision. Defined.
#[global] Instance SE_Location_eq_dec : EqDecision SE_Location.
Proof. solve_decision. Defined.

Record EntryPort : Type := mkEntryPort {
  ep_Name : string; ep_Number : Z; ep_Protocol : string; ep_TargetPort : Z }.

Record WorkloadEntry : Type := mkWorkloadEntry {
  we_Address : string;
  we_Ports : nmap string Z;
  we_Labels : nmap string string;
  we_Network : string;
  we_Locality : string;
  we_Weight : Z;
  we_ServiceAccount : string
}.

Record ServiceEntry : Type := mkServiceEntry {
  se_Hosts : list string;
  se_Addresses : list string;
  se_Ports : list EntryPort;
  se_Location : SE_Location;
  se_Resolution : SE_Resolution;
  se_Endpoints : list WorkloadEntry;
  se_WorkloadSelector : option (nmap string string);
  se_ExportTo : list string;
  se_SubjectAltNames : list string
}.

(** [DubboStatus]: the type and status of its conditions, nil or not. *)
Record DubboStatus : Type := mkDubboStatus { ds_Conditions : list (option (string * string)) }.

(** What a configuration holds, as far as the registry looks. *)
Inductive content : Type :=
  | CServiceEntry (e : ServiceEntry)
  | CWorkloadEntry (w : WorkloadEntry)
  | CStatus (s : option DubboStatus)
  | COther.

Notation EntryConfig := (Config content).

(** ** Conversion *)

Definition External : string := "External".
Definition UnspecifiedIP : string := "0.0.0.0".

Definition convertResolution (resolution : SE_Resolution) : Resolution :=
  match resolution with
  | SE_STATIC => ClientSideLB
  | SE_DNS => DNSLB
  | SE_DNS_ROUND_ROBIN => DNSRoundRobinLB
  | SE_NONE => Passthrough
  end.

Definition convertService (cfg : EntryConfig) (entry : ServiceEntry) (hostname : host.Name) : Service :=
  let '(addresses, defaultAddress) :=
    match se_Addresses entry with
    | a :: _ => (se_Addresses entry, a)
    | [] => ([UnspecifiedIP], UnspecifiedIP)
    end in
  let ports := map (fun p => Some (Port.mk (ep_Name p) (ep_Number p) (protocol.Parse (ep_Protocol p)))) (se_Ports entry) in
  let exportTo : gset string := fold_left (fun s n => {[n]} ∪ s) (se_ExportTo entry) ∅ in
  Service.mk
    (Attributes.mk None None (Some exportTo) [] None (cfg_Name cfg) (cfg_Namespace cfg) External
       (mkK8s "" "" false (cfg_Name cfg) false))
    hostname ports (se_SubjectAltNames entry) addresses (cfg_CreationTimestamp cfg) defaultAddress
    (cfg_ResourceVersion cfg) (convertResolution (se_Resolution entry)) "" ""
    (bool_decide (se_Location entry = MESH_EXTERNAL)).

Definition workloadHealth (status : option content) : HealthStatus :=
  match status with
  | Some (CStatus (Some st)) =>
      match List.find (fun c => match c with
                                | Some (t, _) => EqualFold t "Ready" || EqualFold t "Healthy"
                                | None => false end) (ds_Conditions st) with
      | Some (Some (_, s)) => if EqualFold s "True" then Healthy else UnHealthy
      | _ => Healthy
      end
  | _ => Healthy
  end.

Definition entryName (index : nat) : string := "inline-" +:+ Itoa (Z.of_nat index).

Record namedWorkload : Type := mkNamed { nw_name : string; nw_workload : WorkloadEntry; nw_healthStatus : HealthStatus }.

(** Workloads of the namespace that carry the labels; configurations of a kind
    have different names in a namespace, so that the sort has no ties. *)
Definition selectWorkloads (namespace : string) (entry : ServiceEntry) (configs : list EntryConfig) : list namedWorkload :=
  match se_WorkloadSelector entry with
  | None => imap (fun i w => mkNamed (entryName i) w Healthy) (se_Endpoints entry)
  | Some wanted =>
      SortStableFunc (cmp_on nw_name String.compare)
        (omap (fun cfg =>
           if negb (String.eqb (cfg_Namespace cfg) namespace) then None else
           match cfg_Spec cfg with
           | Some (CWorkloadEntry w) =>
               if labels.Match wanted (we_Labels w)
               then Some (mkNamed (cfg_Name cfg) w (workloadHealth (cfg_Status cfg))) else None
           | _ => None
           end) configs)
  end.

(** The workload's port of that name, or the target port, or the port itself. *)
Definition target_port (w : WorkloadEntry) (p : EntryPort) : Z :=
  let targetPort := default 0 (nmap_get (we_Ports w) !! ep_Name p) in
  let targetPort := if targetPort =? 0 then ep_TargetPort p else targetPort in
  if targetPort =? 0 then ep_Number p else targetPort.

Definition entry_endpoint (namespace : string) (named : namedWorkload) (p : EntryPort) : DubboEndpoint :=
  let w := nw_workload named in
  Endpoint.mk (we_ServiceAccount w) [we_Address w] (ep_Name p) (we_Labels w) (we_Network w) (we_Locality w)
    (if we_Weight w =? 0 then 1 else we_Weight w) (nw_healthStatus named) false None 0 (target_port w p)
    (nw_name named) namespace "" "" "".

Definition buildEndpoints (cfg : EntryConfig) (entry : ServiceEntry) (svc : Service) (workloads : list namedWorkload)
  : list DubboEndpoint :=
  let workloads :=
    if (length workloads =? 0)%nat && (bool_decide (se_Resolution entry = SE_DNS)
                                       || bool_decide (se_Resolution entry = SE_DNS_ROUND_ROBIN))
    then [mkNamed (cfg_Name cfg) (mkWorkloadEntry (Service.Hostname svc) None None "" "" 0 "") Healthy]
    else workloads in
  concat (map (fun named => map (entry_endpoint (cfg_Namespace cfg) named) (se_Ports entry)) workloads).

(** ** The controller *)

Record Controller : Type := mkController {
  services : gmap host.Name Service;
  endpoints : gmap string (list DubboEndpoint)
}.

Definition NewController : Controller := mkController ∅ ∅.

(** Older entries first, then by namespace and name. *)
Definition entry_compare : EntryConfig -> EntryConfig -> comparison :=
  cmp_lex (cmp_on cfg_CreationTimestamp Z.compare)
    (cmp_lex (cmp_on cfg_Namespace String.compare) (cmp_on cfg_Name String.compare)).

Definition add_host (cfg : EntryConfig) (entry : ServiceEntry) (selected : list namedWorkload)
    (c : Controller) (h : host.Name) : Controller :=
  match services c !! h with
  | Some _ => c
  | None =>
      let svc := convertService cfg entry h in
      mkController (<[h := svc]> (services c))
        (<[Service_Key (Some svc) := buildEndpoints cfg entry svc selected]> (endpoints c))
  end.

Definition add_entry (workloads : list EntryConfig) (c : Controller) (cfg : EntryConfig) : Controller :=
  match cfg_Spec cfg with
  | Some (CServiceEntry entry) =>
      fold_left (add_host cfg entry (selectWorkloads (cfg_Namespace cfg) entry workloads)) (se_Hosts entry) c
  | _ => c
  end.

(** The services and endpoints the configurations declare. *)
Definition declared (entries workloads : list EntryConfig) : Controller :=
  fold_left (add_entry workloads) (SortStableFunc entry_compare entries) (mkController ∅ ∅).

Inductive update : Type :=
  | ServiceUpdate (hostname : host.Name) (namespace : string) (e : Event)
  | EDSUpdate (hostname : host.Name) (namespace : string) (eps : list DubboEndpoint).

Definition endpoints_of (c : Controller) (s : Service) : list DubboEndpoint :=
  default [] (endpoints c !! Service_Key (Some s)).

(** The updates for a service that is declared now. *)
Definition service_updates (previous current : Controller) (hostname : host.Name) (svc : Service) : list update :=
  let eps := endpoints_of current svc in
  match services previous !! hostname with
  | None =>
      [ServiceUpdate hostname (namespace_of svc) EventAdd; EDSUpdate hostname (namespace_of svc) eps]
  | Some oldService =>
      if negb (String.eqb (namespace_of oldService) (namespace_of svc)) then
        [ServiceUpdate hostname (namespace_of oldService) EventDelete;
         EDSUpdate hostname (namespace_of oldService) [];
         ServiceUpdate hostname (namespace_of svc) EventAdd;
         EDSUpdate hostname (namespace_of svc) eps]
      else
        (if negb (Service_Equals (Some oldService) (Some svc))
         then [ServiceUpdate hostname (namespace_of svc) EventUpdate] else []) ++
        (if negb (Slices.EqualFunc (endpoints_of previous oldService) eps
                    (fun a b => Endpoint_Equals (Some a) (Some b)))
         then [EDSUpdate hostname (namespace_of svc) eps] else [])
  end.

Definition removal_updates (current : Controller) (hostname : host.Name) (svc : Service) : list update :=
  match services current !! hostname with
  | Some _ => []
  | None => [ServiceUpdate hostname (namespace_of svc) EventDelete;
             EDSUpdate hostname (namespace_of svc) []]
  end.

(** [reconcile]: the new state and the updates, none without an updater. *)
Definition reconcile `{RangeOrder} (xdsUpdater : bool) (c : Controller) (entries workloads : list EntryConfig)
  : Controller * list update :=
  let current := declared entries workloads in
  (current,
   if negb xdsUpdater then [] else
   concat (map (fun '(h, svc) => service_updates c current h svc) (range (services current))) ++
   concat (map (fun '(h, svc) => removal_updates current h svc) (range (services c)))).

Definition Services `{RangeOrder} (c : Controller) : list Service :=
  SortStableFunc (cmp_on Service.Hostname String.compare) (map snd (range (services c))).
Definition GetService (c : Controller) (hostname : host.Name) : option Service := services c !! hostname.

(** Ports of services, one by one; a nil port panics in Go and none is nil here. *)
Definition endpoint_targets (svc : Service) (e : DubboEndpoint) : list ServiceTarget :=
  omap (fun p => match p with
                 | Some port => if String.eqb (Port.Name port) (Endpoint.ServicePortName e)
                                then Some (mkServiceTarget (Some svc) (Some port) (Endpoint.EndpointPort e)) else None
                 | None => None
                 end) (Service.Ports svc).
Definition GetProxyServiceTargets `{RangeOrder} (c : Controller) (proxy : option Proxy) : list ServiceTarget :=
  match proxy with
  | None => []
  | Some proxy =>
      let addresses : gset string := list_to_set (Proxy.IPAddresses proxy) in
      concat (map (fun '(_, svc) =>
        concat (map (fun e => if bool_decide (FirstAddressOrNil (Some e) ∈ addresses) then endpoint_targets svc e else [])
                  (endpoints_of c svc))) (range (services c)))
  end.

(** ** The consumer of the updates

    What a server knows after updates: the services it was told of, and the
    endpoints it was given last for each. *)

Record consumer : Type := mkConsumer {
  known : gset (host.Name * string);
  given : gmap (host.Name * string) (list DubboEndpoint)
}.

Definition consume (s : consumer) (u : update) : consumer :=
  match u with
  | ServiceUpdate h ns EventDelete => mkConsumer (known s ∖ {[(h, ns)]}) (given s)
  | ServiceUpdate h ns _ => mkConsumer ({[(h, ns)]} ∪ known s) (given s)
  | EDSUpdate h ns eps => mkConsumer (known s) (<[(h, ns) := eps]> (given s))
  end.

(** Endpoints that differ in nothing an update is sent for. *)
Definition same_endpoint (a b : DubboEndpoint) : Prop :=
  ep_compared a = ep_compared b /\ Endpoint.Addresses a = Endpoint.Addresses b.
Definition same_endpoints : list DubboEndpoint -> list DubboEndpoint -> Prop := Forall2 same_endpoint.

(** The endpoints of a host in a namespace, as declared. *)
Definition declared_endpoints (c : Controller) (h : host.Name) (ns : string) : list DubboEndpoint :=
  match services c !! h with
  | Some svc => if decide (namespace_of svc = ns) then endpoints_of c svc else []
  | None => []
  end.

Definition in_sync (s : consumer) (c : Controller) : Prop :=
  forall (h : host.Name) (ns : string),
    ((h, ns) ∈ known s <-> exists svc, services c !! h = Some svc /\ namespace_of svc = ns) /\
    same_endpoints (default [] (given s !! (h, ns))) (declared_endpoints c h ns).

(** ** Lemmas *)

#[global] Instance same_endpoint_equiv : Equivalence same_endpoint.
Proof.
  split.
  - by intros a.
  - intros a b [Hc Ha]. by split.
  - intros a b c [Hc Ha] [Hc' Ha']. split; congruence.
Qed.

#[global] Instance same_endpoints_equiv : Equivalence same_endpoints.
Proof. unfold same_endpoints. apply _. Qed.

(** Every endpoint has one address. *)
Definition single_addressed (l : list DubboEndpoint) : Prop := Forall (fun e => exists a, Endpoint.Addresses e = [a]) l.

Lemma EqualUnordered_single (a b : string) : Slices.EqualUnordered [a] [b] = true <-> a = b.
Proof.
  unfold Slices.EqualUnordered. cbn [length Nat.eqb negb forallb]. rewrite andb_true_r, bool_decide_eq_true.
  set_solver.
Qed.

Lemma endpoints_equal l k :
  single_addressed l -> single_addressed k ->
  Slices.EqualFunc l k (fun a b => Endpoint_Equals (Some a) (Some b)) = true <-> same_endpoints l k.
Proof.
  intros Hl Hk. rewrite Slices.EqualFunc_spec. unfold same_endpoints. split; intros Hf.
  - induction Hf as [|a b l k Hab Hf IH]; [constructor|]. apply Forall_cons in Hl as [[x Hx] Hl], Hk as [[y Hy] Hk].
    constructor; [|by apply IH]. apply Endpoint_Equals_compared in Hab as [Hc Ha]. split; [done|].
    rewrite Hx, Hy in *. by apply EqualUnordered_single in Ha as ->.
  - induction Hf as [|a b l k [Hc Ha] Hf IH]; [constructor|]. apply Forall_cons in Hl as [[x Hx] Hl], Hk as [[y Hy] Hk].
    constructor; [|by apply IH]. apply Endpoint_Equals_compared. split; [done|]. rewrite Ha. apply EqualUnordered_refl.
Qed.

Lemma buildEndpoints_single cfg entry svc ws : single_addressed (buildEndpoints cfg entry svc ws).
Proof.
  unfold buildEndpoints, single_addressed. apply Forall_concat, Forall_map, Forall_true. intros named.
  apply Forall_map, Forall_true. intros p. eexists. reflexivity.
Qed.

(** Services are filed under their host name, and endpoints have one address. *)
Record controller_ok (c : Controller) : Prop := {
  co_host h svc : services c !! h = Some svc -> Service.Hostname svc = h;
  co_single k l : endpoints c !! k = Some l -> single_addressed l
}.

Lemma add_host_ok cfg entry ws c h : controller_ok c -> controller_ok (add_host cfg entry ws c h).
Proof.
  intros [Hh Hs]. unfold add_host. destruct (services c !! h) eqn:E; [done|]. split; simpl.
  - intros h' svc. rewrite lookup_insert_Some. intros [[<- <-]|[_ Hl]]; [|by apply Hh].
    unfold convertService. by destruct (se_Addresses entry).
  - intros k l. rewrite lookup_insert_Some. intros [[<- <-]|[_ Hl]]; [apply buildEndpoints_single|by apply (Hs k)].
Qed.

Lemma add_entry_ok ws c cfg : controller_ok c -> controller_ok (add_entry ws c cfg).
Proof.
  intros Hc. unfold add_entry. destruct (cfg_Spec cfg) as [[entry| | |]|]; try done.
  generalize (selectWorkloads (cfg_Namespace cfg) entry ws) as sel. intros sel. revert c Hc.
  induction (se_Hosts entry) as [|h hs IH]; intros c Hc; simpl; [done|]. apply IH. by apply add_host_ok.
Qed.

Lemma declared_ok entries ws : controller_ok (declared entries ws).
Proof.
  unfold declared. generalize (SortStableFunc entry_compare entries) as l. intros l.
  assert (H0 : controller_ok (mkController ∅ ∅)) by (split; simpl; intros ? ?; by rewrite lookup_empty).
  revert H0. generalize (mkController ∅ ∅) as c. induction l as [|cfg l IH]; intros c Hc; simpl; [done|].
  apply IH. by apply add_entry_ok.
Qed.

Lemma endpoints_of_single c svc : controller_ok c -> single_addressed (endpoints_of c svc).
Proof.
  intros [_ Hs]. unfold endpoints_of. destruct (endpoints c !! _) as [l|] eqn:E; [exact (Hs _ l E)|constructor].
Qed.

(** *** Updates of one host *)

Definition update_host (u : update) : host.Name :=
  match u with ServiceUpdate h _ _ | EDSUpdate h _ _ => h end.

(** Two consumers that know the same of a host. *)
Definition same_for (h : host.Name) (a b : consumer) : Prop :=
  forall ns, ((h, ns) ∈ known a <-> (h, ns) ∈ known b) /\ given a !! (h, ns) = given b !! (h, ns).

#[global] Instance same_for_equiv h : Equivalence (same_for h).
Proof.
  split.
  - intros a ns. done.
  - intros a b Hab ns. destruct (Hab ns). by split.
  - intros a b c Hab Hbc ns. destruct (Hab ns) as [? ->], (Hbc ns) as [? ->]. split; [tauto|done].
Qed.

#[global] Instance consume_proper h : Proper (same_for h ==> eq ==> same_for h) consume.
Proof.
  intros a b Hab u ? <- ns. destruct (Hab ns) as [Hk Hg].
  destruct u as [h' ns' [| |]|h' ns' eps]; simpl; (split; [set_solver|try done]).
  destruct (decide ((h', ns') = (h, ns))) as [->|]; [by rewrite !lookup_insert_eq|by rewrite !lookup_insert_ne].
Qed.

Lemma consume_other h u s : update_host u <> h -> same_for h (consume s u) s.
Proof.
  intros Hne ns. destruct u as [h' ns' [| |]|h' ns' eps]; simpl in *; (split; [set_solver|try done]).
  rewrite lookup_insert_ne; [done|congruence].
Qed.

Lemma consume_all_proper h us a b : same_for h a b -> same_for h (fold_left consume us a) (fold_left consume us b).
Proof. revert a b. induction us as [|u us IH]; intros a b Hab; simpl; [done|]. apply IH. by rewrite Hab. Qed.

Lemma consume_filter h us s :
  same_for h (fold_left consume us s) (fold_left consume (List.filter (fun u => String.eqb (update_host u) h) us) s).
Proof.
  revert s. induction us as [|u us IH]; intros s; simpl; [done|].
  destruct (String.eqb_spec (update_host u) h) as [_|Hne]; [apply IH|].
  rewrite IH. apply consume_all_proper. by apply consume_other.
Qed.

Lemma filter_updates `{RangeOrder} {V} (f : host.Name -> V -> list update) (m : gmap host.Name V) (h : host.Name) :
  (forall k v u, u ∈ f k v -> update_host u = k) ->
  List.filter (fun u => String.eqb (update_host u) h) (concat (map (fun '(k, v) => f k v) (range m)))
  = match m !! h with Some v => f h v | None => [] end.
Proof.
  intros Hf. pose proof (NoDup_range_fst m) as Hnd.
  assert (Hone : forall k v, List.filter (fun u => String.eqb (update_host u) h) (f k v) = if decide (k = h) then f k v else []).
  { intros k v. pose proof (Hf k v) as Hk. induction (f k v) as [|u l IH]; simpl; [by destruct (decide (k = h))|].
    rewrite (Hk u) by set_solver. rewrite IH by set_solver.
    destruct (decide (k = h)) as [->|Hne]; [by rewrite String.eqb_refl|]. by apply String.eqb_neq in Hne as ->. }
  assert (Hl : forall l : list (host.Name * V), NoDup l.*1 ->
    List.filter (fun u => String.eqb (update_host u) h) (concat (map (fun '(k, v) => f k v) l))
    = match (list_to_map l : gmap host.Name V) !! h with Some v => f h v | None => [] end).
  { induction l as [|[k v] l IH]; intros Hn; cbn [map concat list_to_map foldr]; [by rewrite lookup_empty|].
    apply NoDup_cons in Hn as [Hk Hn]. rewrite List.filter_app, Hone, (IH Hn).
    destruct (decide (k = h)) as [->|Hne]; simpl.
    - rewrite lookup_insert_eq, (not_elem_of_list_to_map_1 _ _ Hk). by rewrite app_nil_r.
    - by rewrite lookup_insert_ne. }
  rewrite Hl by done. by rewrite list_to_map_range.
Qed.

Lemma service_updates_host p c h svc u : u ∈ service_updates p c h svc -> update_host u = h.
Proof.
  unfold service_updates. destruct (services p !! h) as [old|]; [|set_solver].
  destruct (negb _); [set_solver|]. destruct (negb _), (negb _); set_solver.
Qed.

Lemma removal_updates_host c h svc u : u ∈ removal_updates c h svc -> update_host u = h.
Proof. unfold removal_updates. destruct (services c !! h); set_solver. Qed.

(** What the updates of a reconciliation do to one host. *)
Lemma reconcile_host `{RangeOrder} c entries ws s (h : host.Name) :
  let current := declared entries ws in
  same_for h (fold_left consume (snd (reconcile true c entries ws)) s)
    (fold_left consume
       (match services current !! h with
        | Some svc => service_updates c current h svc
        | None => match services c !! h with Some svc => removal_updates current h svc | None => [] end
        end) s).
Proof.
  cbv zeta. set (current := declared entries ws). rewrite consume_filter. unfold reconcile. cbn [negb snd].
  fold current. rewrite List.filter_app.
  rewrite (filter_updates (service_updates c current)) by apply service_updates_host.
  rewrite (filter_updates (removal_updates current)) by apply removal_updates_host.
  destruct (services current !! h) as [svc|] eqn:E; [|reflexivity].
  assert (Hr : match services c !! h with Some svc => removal_updates current h svc | None => [] end = []).
  { destruct (services c !! h); [|done]. unfold removal_updates. by rewrite E. }
  by rewrite Hr, app_nil_r.
Qed.

Lemma declared_endpoints_Some c h svc ns :
  services c !! h = Some svc ->
  declared_endpoints c h ns = if decide (namespace_of svc = ns) then endpoints_of c svc else [].
Proof. unfold declared_endpoints. by intros ->. Qed.

Lemma declared_endpoints_None c h ns : services c !! h = None -> declared_endpoints c h ns = [].
Proof. unfold declared_endpoints. by intros ->. Qed.

(** The service of a host in a namespace. *)
Definition declares_in (o : option Service) (ns : string) : Prop := exists svc, o = Some svc /\ namespace_of svc = ns.

Lemma declares_in_Some svc ns : declares_in (Some svc) ns <-> namespace_of svc = ns.
Proof. unfold declares_in. naive_solver. Qed.
Lemma declares_in_None ns : ~ declares_in None ns.
Proof. intros (? & ? & _). done. Qed.

(** After an addition, and after a removal, of a host in a namespace. *)
Lemma consume_add s (h : host.Name) nsv e eps ns :
  e <> EventDelete ->
  let s' := consume (consume s (ServiceUpdate h nsv e)) (EDSUpdate h nsv eps) in
  ((h, ns) ∈ known s' <-> nsv = ns \/ (h, ns) ∈ known s) /\
  given s' !! (h, ns) = if decide (nsv = ns) then Some eps else given s !! (h, ns).
Proof.
  intros He. destruct e; [| |done]; simpl; (split; [set_solver|]);
    (destruct (decide (nsv = ns)) as [->|]; [by rewrite lookup_insert_eq|by rewrite lookup_insert_ne by congruence]).
Qed.

Lemma consume_remove s (h : host.Name) nsv ns :
  let s' := consume (consume s (ServiceUpdate h nsv EventDelete)) (EDSUpdate h nsv []) in
  ((h, ns) ∈ known s' <-> nsv <> ns /\ (h, ns) ∈ known s) /\
  given s' !! (h, ns) = if decide (nsv = ns) then Some [] else given s !! (h, ns).
Proof.
  simpl. split; [set_solver|].
  destruct (decide (nsv = ns)) as [->|]; [by rewrite lookup_insert_eq|by rewrite lookup_insert_ne by congruence].
Qed.

(** A host that stays in its namespace. *)
Lemma in_place s (h : host.Name) old svc ns eps eps' :
  namespace_of old = namespace_of svc ->
  ((h, ns) ∈ known s <-> namespace_of old = ns) ->
  same_endpoints (default [] (given s !! (h, ns))) (if decide (namespace_of old = ns) then eps else []) ->
  single_addressed eps -> single_addressed eps' ->
  let s' := fold_left consume
    ((if negb (Service_Equals (Some old) (Some svc)) then [ServiceUpdate h (namespace_of svc) EventUpdate] else []) ++
     (if negb (Slices.EqualFunc eps eps' (fun a b => Endpoint_Equals (Some a) (Some b)))
      then [EDSUpdate h (namespace_of svc) eps'] else [])) s in
  ((h, ns) ∈ known s' <-> declares_in (Some svc) ns) /\
  same_endpoints (default [] (given s' !! (h, ns))) (if decide (namespace_of svc = ns) then eps' else []).
Proof.
  intros Hns Hk He H1 H2. cbv zeta. rewrite fold_left_app, declares_in_Some. rewrite Hns in *.
  set (s1 := fold_left consume _ s).
  assert (Hs1 : ((h, ns) ∈ known s1 <-> namespace_of svc = ns) /\ given s1 = given s).
  { unfold s1. destruct (negb _); [|done]. simpl. split; [set_solver|done]. }
  destruct Hs1 as [Hk1 Hg1]. destruct (Slices.EqualFunc eps eps' _) eqn:E; cbn [negb fold_left].
  - split; [done|]. rewrite Hg1. apply (endpoints_equal eps eps' H1 H2) in E. rewrite He.
    by destruct (decide (namespace_of svc = ns)).
  - cbn [consume known given]. split; [done|]. destruct (decide (namespace_of svc = ns)) as [<-|Hne].
    + by rewrite lookup_insert_eq.
    + rewrite lookup_insert_ne, Hg1 by congruence. done.
Qed.

(** *** Which entry a host belongs to *)

Definition entry_of (cfg : EntryConfig) : option ServiceEntry :=
  match cfg_Spec cfg with Some (CServiceEntry e) => Some e | _ => None end.
Definition has_host (h : host.Name) (cfg : EntryConfig) : bool :=
  match entry_of cfg with Some e => bool_decide (h ∈ se_Hosts e) | None => false end.

(** The service of a host and its endpoints, as an entry declares them. *)
Definition service_of (h : host.Name) (cfg : EntryConfig) : option Service :=
  (fun e => convertService cfg e h) <$> entry_of cfg.

Lemma add_hosts_services cfg e ws hs c (h : host.Name) :
  services (fold_left (add_host cfg e ws) hs c) !! h
  = match services c !! h with
    | Some svc => Some svc
    | None => if bool_decide (h ∈ hs) then Some (convertService cfg e h) else None
    end.
Proof.
  revert c. induction hs as [|x hs IH]; intros c; cbn [fold_left].
  { rewrite bool_decide_false by apply not_elem_of_nil. by destruct (services c !! h). }
  rewrite IH. unfold add_host. destruct (services c !! x) as [sx|] eqn:Ex.
  - destruct (services c !! h) eqn:Eh; [done|]. assert (x <> h) by congruence.
    by rewrite (bool_decide_ext (h ∈ hs) (h ∈ x :: hs)) by set_solver.
  - cbn [services]. destruct (decide (x = h)) as [->|Hne].
    + rewrite lookup_insert_eq, Ex. by rewrite bool_decide_true by set_solver.
    + rewrite lookup_insert_ne by done. destruct (services c !! h); [done|].
      by rewrite (bool_decide_ext (h ∈ hs) (h ∈ x :: hs)) by set_solver.
Qed.

Lemma add_entry_services ws c cfg (h : host.Name) :
  services (add_entry ws c cfg) !! h
  = match services c !! h with
    | Some svc => Some svc
    | None => if has_host h cfg then service_of h cfg else None
    end.
Proof.
  unfold add_entry, has_host, service_of, entry_of. destruct (cfg_Spec cfg) as [[e| | |]|]; cbn [fmap option_fmap option_map];
    [apply add_hosts_services|by destruct (services c !! h)..].
Qed.

Lemma add_entries_services ws l c (h : host.Name) :
  services (fold_left (add_entry ws) l c) !! h
  = match services c !! h with Some svc => Some svc | None => List.find (has_host h) l ≫= service_of h end.
Proof.
  revert c. induction l as [|cfg l IH]; intros c; cbn [fold_left List.find]; [by destruct (services c !! h)|].
  rewrite IH, add_entry_services. destruct (services c !! h); [done|].
  destruct (has_host h cfg) eqn:E; [|done]. unfold has_host in E. cbn. unfold service_of.
  by destruct (entry_of cfg).
Qed.

(** ** Properties *)

(** C30 The updates of a reconciliation bring a consumer up to date: one that was
    in step with the previous declarations, services and endpoints of every host
    and namespace alike, is in step with the present ones afterwards, whatever
    changed, and in whatever order the maps are visited. *)
Theorem reconcile_syncs `{RangeOrder} c entries ws s :
  controller_ok c -> in_sync s c ->
  let '(c', updates) := reconcile true c entries ws in
  controller_ok c' /\ in_sync (fold_left consume updates s) c'.
Proof.
  intros Hc Hs. destruct (reconcile true c entries ws) as [c' updates] eqn:E.
  assert (c' = declared entries ws) as -> by (unfold reconcile in E; congruence).
  pose proof (declared_ok entries ws) as Hok. set (d := declared entries ws) in *. split; [done|].
  intros h ns. pose proof (reconcile_host c entries ws s h ns) as [Hk Hg]. rewrite E in Hk, Hg. cbn [snd] in Hk, Hg.
  fold d in Hk, Hg. rewrite Hk, Hg. clear Hk Hg E.
  pose proof (Hs h ns) as [Hkn Hep]. destruct (services d !! h) as [svc|] eqn:Ed.
  - rewrite (declared_endpoints_Some d h svc ns Ed). unfold service_updates.
    destruct (services c !! h) as [old|] eqn:Ec.
    + rewrite (declared_endpoints_Some c h old ns Ec) in Hep.
      destruct (String.eqb_spec (namespace_of old) (namespace_of svc)) as [Hns|Hns]; cbn [negb].
      * apply in_place; [done|by rewrite <- declares_in_Some|done|by apply endpoints_of_single..].
      * cbn [fold_left]. set (s1 := consume (consume s _) _).
        destruct (consume_remove s h (namespace_of old) ns) as [Hk1 Hg1]. fold s1 in Hk1, Hg1.
        destruct (consume_add s1 h (namespace_of svc) EventAdd (endpoints_of d svc) ns) as [-> ->]; [done|].
        fold (declares_in (Some old) ns) in Hkn. fold (declares_in (Some svc) ns). rewrite declares_in_Some in *.
        split; [rewrite Hk1, Hkn; naive_solver|]. destruct (decide (namespace_of svc = ns)); [reflexivity|].
        rewrite Hg1. destruct (decide (namespace_of old = ns)); [reflexivity|done].
    + rewrite (declared_endpoints_None c h ns Ec) in Hep. cbn [fold_left].
      destruct (consume_add s h (namespace_of svc) EventAdd (endpoints_of d svc) ns) as [-> ->]; [done|].
      fold (declares_in None ns) in Hkn. fold (declares_in (Some svc) ns). rewrite declares_in_Some.
      pose proof (declares_in_None ns). split; [tauto|]. destruct (decide (namespace_of svc = ns)); [reflexivity|done].
  - rewrite (declared_endpoints_None d h ns Ed). destruct (services c !! h) as [old|] eqn:Ec.
    + rewrite (declared_endpoints_Some c h old ns Ec) in Hep. unfold removal_updates. rewrite Ed.
      cbn [fold_left]. destruct (consume_remove s h (namespace_of old) ns) as [-> ->].
      fold (declares_in (Some old) ns) in Hkn. fold (declares_in None ns). rewrite declares_in_Some in Hkn.
      pose proof (declares_in_None ns). split; [tauto|]. destruct (decide (namespace_of old = ns)); [reflexivity|done].
    + rewrite (declared_endpoints_None c h ns Ec) in Hep. done.
Qed.

(** A host declared by several entries belongs to the oldest of them, and
    among entries of the same age to the first by namespace and name: its service
    is the conversion of that entry, and no other entry changes it. *)
Theorem oldest_entry_wins entries ws (h : host.Name) :
  match services (declared entries ws) !! h with
  | Some svc =>
      exists cfg e, cfg ∈ entries /\ entry_of cfg = Some e /\ h ∈ se_Hosts e /\ svc = convertService cfg e h /\
      forall cfg', cfg' ∈ entries -> has_host h cfg' = true -> entry_compare cfg cfg' <> Gt
  | None => forall cfg, cfg ∈ entries -> has_host h cfg = false
  end.
Proof.
  unfold declared. rewrite add_entries_services. cbn [services]. rewrite lookup_empty.
  destruct (List.find (has_host h) (SortStableFunc entry_compare entries)) as [cfg|] eqn:E.
  - pose proof E as [Hin Hh]%find_some. apply list_elem_of_In, elem_of_sort in Hin.
    unfold has_host in Hh. destruct (entry_of cfg) as [e|] eqn:Ee; [|done]. breflect.
    cbn. unfold service_of. rewrite Ee. cbn. exists cfg, e. split_and!; try done.
    destruct (Sort_find_least entry_compare (has_host h) entries cfg E) as (_ & _ & Hl).
    intros cfg' Hin' Hh'. by apply cmp_leb_spec, Hl.
  - cbn. intros cfg Hin. apply (elem_of_sort entry_compare), list_elem_of_In in Hin.
    exact (List.find_none _ _ E cfg Hin).
Qed.

(** Machine-width fields of the declarations. *)
Definition in_u32 (z : Z) : Prop := 0 <= z < two32.
Definition workload_in_range (w : WorkloadEntry) : Prop :=
  in_u32 (we_Weight w) /\ forall n p, nmap_get (we_Ports w) !! n = Some p -> in_u32 p.
Definition port_in_range (p : EntryPort) : Prop :=
  in_u32 (ep_Number p) /\ in_u32 (ep_TargetPort p) /\ ep_Number p <> 0.

(** Every endpoint of an entry can be used: one for each selected workload
    and port, with a positive weight and a port that is not zero, both in 32 bits,
    whatever the workload overrides or leaves out; and a DNS entry without
    workloads gets its own host name as address. *)
Theorem entry_endpoints_in_range cfg entry svc ws :
  Forall (fun n => workload_in_range (nw_workload n)) ws -> Forall port_in_range (se_Ports entry) ->
  let eps := buildEndpoints cfg entry svc ws in
  Forall (fun e => 1 <= Endpoint.LbWeight e < two32 /\ 1 <= Endpoint.EndpointPort e < two32) eps /\
  (ws <> [] -> length eps = (length ws * length (se_Ports entry))%nat) /\
  (ws = [] -> convertResolution (se_Resolution entry) = DNSLB ->
   map Endpoint.Addresses eps = repeat [Service.Hostname svc] (length (se_Ports entry))).
Proof.
  intros Hws Hps. cbv zeta. unfold buildEndpoints.
  set (ws' := if _ && _ then _ else ws).
  assert (Hws' : Forall (fun n => workload_in_range (nw_workload n)) ws').
  { unfold ws'. destruct (_ && _); [|done]. constructor; [|constructor]. split; [unfold in_u32, two32; simpl; lia|].
    intros n p. simpl. by rewrite lookup_empty. }
  split_and!.
  - apply Forall_concat, Forall_map. eapply Forall_impl; [exact Hws'|]. intros n [Hw Hp]. apply Forall_map.
    eapply Forall_impl; [exact Hps|]. intros p (Hn & Ht & Hz). simpl. unfold in_u32 in *. split.
    + destruct (Z.eqb_spec (we_Weight (nw_workload n)) 0); unfold two32 in *; lia.
    + unfold target_port. set (o := default 0 _).
      assert (Ho : 0 <= o < two32).
      { unfold o. destruct (nmap_get _ !! ep_Name p) as [q|] eqn:E; simpl; [exact (Hp _ q E)|unfold two32; lia]. }
      destruct (Z.eqb_spec o 0); [destruct (Z.eqb_spec (ep_TargetPort p) 0)|destruct (Z.eqb_spec o 0)];
        unfold two32 in *; lia.
  - intros Hne. assert (ws' = ws) as ->.
    { unfold ws'. destruct ws; [done|]. done. }
    clear. induction ws as [|n ws IH]; simpl; [done|]. rewrite length_app, length_map, IH. done.
  - intros -> Hd. assert (Hr : se_Resolution entry = SE_DNS) by (by destruct (se_Resolution entry)).
    unfold ws'. rewrite Hr. cbn [length Nat.eqb andb]. rewrite bool_decide_true by done. cbn [orb map concat].
    rewrite app_nil_r, map_map. cbn. by rewrite map_const.
Qed.

(** *** Witnesses *)

Definition entry_config (name ns : string) (t : Time) (e : ServiceEntry) : EntryConfig :=
  mkConfig (Meta.mk (mkGVK "networking.dubbo.apache.org" "v1alpha3" "ServiceEntry") "" name ns "" None None "1" t [] 0)
    (Some (CServiceEntry e)) None None.
Definition sample_entry (hosts : list string) : ServiceEntry :=
  mkServiceEntry hosts [] [mkEntryPort "grpc" 80 "GRPC" 8080] MESH_EXTERNAL SE_STATIC
    [mkWorkloadEntry "10.0.0.1" None None "" "" 0 ""] None [] ["spiffe://td/ns/a/sa/x"].
Definition before : Controller := declared [entry_config "x" "a" 1 (sample_entry ["h1"; "h2"])] [].

(** A consumer told everything from the start. *)
Definition before_consumer : consumer :=
  fold_left consume (snd (@reconcile key_order true NewController [entry_config "x" "a" 1 (sample_entry ["h1"; "h2"])] []))
    (mkConsumer ∅ ∅).

Lemma reconcile_syncs_witness :
  in_sync before_consumer before.
Proof.
  assert (Hok : controller_ok NewController) by (split; simpl; intros ? ?; by rewrite lookup_empty).
  assert (Hs : in_sync (mkConsumer ∅ ∅) NewController).
  { intros h ns. split.
    - simpl. rewrite lookup_empty. split; [intros Hx; by apply elem_of_empty in Hx|]. intros (? & ? & _). discriminate.
    - unfold declared_endpoints. simpl. rewrite !lookup_empty. constructor. }
  pose proof (@reconcile_syncs key_order NewController [entry_config "x" "a" 1 (sample_entry ["h1"; "h2"])] []
    (mkConsumer ∅ ∅) Hok Hs) as Hr.
  unfold before_consumer, before. destruct (reconcile _ _ _ _) as [c' us] eqn:E. destruct Hr as [_ Hr].
  unfold reconcile in E. injection E as <- <-. exact Hr.
Defined.

(** Moving a host to another namespace removes it from the first. *)
Example moved_host :
  snd (@reconcile key_order true before [entry_config "y" "b" 0 (sample_entry ["h2"]);
                                         entry_config "x" "a" 1 (sample_entry ["h1"; "h2"])] [])
  = [ServiceUpdate "h2" "a" EventDelete; EDSUpdate "h2" "a" []; ServiceUpdate "h2" "b" EventAdd;
     EDSUpdate "h2" "b" [entry_endpoint "b" (mkNamed "inline-0" (mkWorkloadEntry "10.0.0.1" None None "" "" 0 "") Healthy)
                           (mkEntryPort "grpc" 80 "GRPC" 8080)]].
Proof. vm_compute. reflexivity. Qed.

Lemma entry_endpoints_in_range_witness :
  let eps := buildEndpoints (entry_config "x" "a" 1 (sample_entry ["h1"])) (sample_entry ["h1"])
               (convertService (entry_config "x" "a" 1 (sample_entry ["h1"])) (sample_entry ["h1"]) "h1")
               (selectWorkloads "a" (sample_entry ["h1"]) []) in
  Forall (fun e => 1 <= Endpoint.LbWeight e < two32 /\ 1 <= Endpoint.EndpointPort e < two32) eps /\ length eps = 1%nat.
Proof.
  intros eps. split; [|vm_compute; reflexivity].
  apply (entry_endpoints_in_range (entry_config "x" "a" 1 (sample_entry ["h1"])) (sample_entry ["h1"])).
  - constructor; [|constructor]. split; [unfold in_u32, two32; simpl; lia|].
    intros n p Hp. simpl in Hp. rewrite lookup_empty in Hp. discriminate.
  - constructor; [|constructor]. unfold port_in_range, in_u32, two32. simpl. lia.
Defined.
