(* ===== verification/ServiceRegistries.v ===== *)
(** * Service registries and their aggregation

    [dubbod/discovery/pkg/serviceregistry/aggregate/controller.go]: the registries
    the server combines, the services they have together, and the order they are
    asked in; [dubbod/discovery/pkg/serviceregistry/kube/conversion.go]: the
    conversion of Kubernetes services.  What a registry promises to the
    aggregation is the class [LawfulRegistry], which the registry of service
    entries implements here. *)

From S2P Require Import Prelude GoStrings GoSets GoSlices GoSort Hosts GoNet Service ServiceIndex Ads ServiceEntries.

(** ** The interface *)

(** [serviceregistry.Instance].  A registry may write to the proxy it is asked
    about: the proxy is part of the answer. *)
Record Registry : Type := mkRegistry {
  reg_Provider : string;
  reg_Cluster : string;
  reg_Services : list Service;
  reg_GetService : host.Name -> option Service;
  reg_GetProxyServiceTargets : Proxy -> list ServiceTarget * Proxy;
  reg_HasSynced : bool
}.

(** A registry has one service of a host, which both views give. *)
Class LawfulRegistry (r : Registry) : Prop := {
  lawful_hosts : NoDup (map Service.Hostname (reg_Services r));
  lawful_get : forall (h : host.Name) (svc : Service),
    reg_GetService r h = Some svc <-> svc ∈ reg_Services r /\ Service.Hostname svc = h
}.

(** The registry of service entries, of a cluster; it is synchronised when the
    store of the configurations is. *)
Definition entries_registry `{RangeOrder} (c : Controller) (clusterID : string) (synced : bool) : Registry := {|
  reg_Provider := External;
  reg_Cluster := clusterID;
  reg_Services := Services c;
  reg_GetService := GetService c;
  reg_GetProxyServiceTargets proxy := (GetProxyServiceTargets c (Some proxy), proxy);
  reg_HasSynced := synced
|}.

(** ** The aggregation *)

Module registries.

(** A channel that stops a registry; nil, or one. *)
Record registryEntry : Type := mkEntry { re_Instance : Registry; re_stop : option ptr }.

(** The registries, and those that have been set running, with what stops them. *)
Record t : Type := mk {
  entries : list registryEntry;
  running : bool;
  started : list (Registry * option ptr)
}.

Definition NewController : t := mk [] false [].

Definition Run (c : t) (stop : ptr) : t :=
  mk (entries c) true
     (started c ++ map (fun r => (re_Instance r, Some (default stop (re_stop r)))) (entries c)).

Definition GetRegistries (c : t) : list Registry := map re_Instance (entries c).

Definition HasSynced (c : t) : bool := forallb reg_HasSynced (GetRegistries c).

(** The accounts of the second that the first does not have, in order. *)
Fixpoint add_accounts (accounts : gset string) (dst src : list string) : list string :=
  match src with
  | [] => dst
  | account :: src =>
      if decide (account ∈ accounts) then add_accounts accounts dst src
      else add_accounts ({[account]} ∪ accounts) (dst ++ [account]) src
  end.

Definition set_accounts (s : Service) (accounts : list string) : Service :=
  Service.mk (Service.Attributes s) (Service.Hostname s) (Service.Ports s) accounts (Service.Addresses s)
    (Service.CreationTime s) (Service.DefaultAddress s) (Service.ResourceVersion s) (Service.Resolution s)
    (Service.AutoAllocatedIPv4Address s) (Service.AutoAllocatedIPv6Address s) (Service.MeshExternal s).

Definition decorateService (dst src : Service) : Service :=
  set_accounts dst (add_accounts (list_to_set (Service.ServiceAccounts dst)) (Service.ServiceAccounts dst)
                      (Service.ServiceAccounts src)).

(** The loop over the services of one registry: where a host is in the list, and
    the list. *)
Definition add_service (external : bool) (acc : gmap host.Name nat * list Service) (service : Service)
  : gmap host.Name nat * list Service :=
  let '(indices, services) := acc in
  match indices !! Service.Hostname service with
  | Some index =>
      if external then
        (indices, alter (fun s => decorateService (Service_DeepCopy s) service) index services)
      else (indices, services)
  | None => (<[Service.Hostname service := length services]> indices, services ++ [service])
  end.

Definition add_services (acc : gmap host.Name nat * list Service) (r : Registry) : gmap host.Name nat * list Service :=
  fold_left (add_service (String.eqb (reg_Provider r) External)) (reg_Services r) acc.

Definition Services (c : t) : list Service :=
  snd (fold_left add_services (GetRegistries c) (∅, [])).

Definition get_from (hostname : host.Name) (out : option Service) (r : Registry) : option Service :=
  match reg_GetService r hostname, out with
  | None, _ => out
  | Some service, None => Some (Service_DeepCopy service)
  | Some service, Some s => if String.eqb (reg_Provider r) External then Some (decorateService s service) else Some s
  end.

Definition GetService (c : t) (hostname : host.Name) : option Service :=
  fold_left (get_from hostname) (GetRegistries c) None.

(** In front of the first registry that is not of Kubernetes, or at the end. *)
Fixpoint insert_kubernetes (e : registryEntry) (l : list registryEntry) : list registryEntry :=
  match l with
  | [] => [e]
  | r :: l => if negb (String.eqb (reg_Provider (re_Instance r)) Kubernetes) then e :: r :: l
              else r :: insert_kubernetes e l
  end.

Definition addRegistry (c : t) (registry : Registry) (stop : option ptr) : t :=
  let e := mkEntry registry stop in
  mk (if String.eqb (reg_Provider registry) Kubernetes then insert_kubernetes e (entries c) else entries c ++ [e])
     (running c) (started c).

Definition AddRegistryAndRun (c : t) (registry : Registry) (stop : option ptr) : t :=
  let c := addRegistry c registry stop in
  if running c then mk (entries c) true (started c ++ [(registry, stop)]) else c.

Definition targets_from (acc : list ServiceTarget * Proxy) (r : Registry) : list ServiceTarget * Proxy :=
  let '(out, node) := acc in
  let '(instances, node) := reg_GetProxyServiceTargets r node in
  (if (0 <? length instances)%nat then out ++ instances else out, node).

Definition GetProxyServiceTargets (c : t) (node : Proxy) : list ServiceTarget * Proxy :=
  fold_left targets_from (GetRegistries c) ([], node).

End registries.

(** ** Services of Kubernetes

    The objects of the Kubernetes API, with the fields the registry reads. *)

Inductive IntOrString : Type := IntVal (n : Z) | StrVal (s : string).
#[global] Instance IntOrString_eq_dec : EqDecision IntOrString.
Proof. solve_decision. Defined.

Record ServicePort : Type := mkServicePort { sp_Name : string; sp_Port : Z; sp_TargetPort : IntOrString }.

Record KService : Type := mkKService {
  ks_Name : string;
  ks_Namespace : string;
  ks_Labels : nmap string string;
  ks_ResourceVersion : string;
  ks_Type : string;
  ks_ExternalName : string;
  ks_ClusterIP : string;
  ks_ClusterIPs : list string;
  ks_Ports : list ServicePort;
  ks_Selector : nmap string string;
  ks_PublishNotReadyAddresses : bool
}.

Definition ServiceTypeExternalName : string := "ExternalName".
Definition ClusterIPNone : string := "None".

Definition ServiceHostname (name namespace domainSuffix : string) : host.Name :=
  name +:+ "." +:+ namespace +:+ "." +:+ "svc" +:+ "." +:+ domainSuffix.

(** The protocol of a port is left unset; an [int32] fits the port's [int]. *)
Definition convertPort (port : ServicePort) : option Port := Some (Port.mk (sp_Name port) (sp_Port port) "").

Definition ConvertService (svc : KService) (domainSuffix : string) : Service :=
  let '(externalName, resolution) :=
    if String.eqb (ks_Type svc) ServiceTypeExternalName && negb (String.eqb (ks_ExternalName svc) "")
    then (ks_ExternalName svc, Alias) else ("", ClientSideLB) in
  let '(addrs, resolution) :=
    if String.eqb (ks_ClusterIP svc) ClusterIPNone then ([UnspecifiedIP], Passthrough)
    else if negb (String.eqb (ks_ClusterIP svc) "") then
      (if (1 <? length (ks_ClusterIPs svc))%nat then ks_ClusterIPs svc else [ks_ClusterIP svc], resolution)
    else ([UnspecifiedIP], resolution) in
  Service.mk
    (Attributes.mk (ks_Labels svc) (ks_Selector svc) None [] None (ks_Name svc) (ks_Namespace svc) Kubernetes
       (mkK8s (ks_Type svc) externalName false "" (ks_PublishNotReadyAddresses svc)))
    (ServiceHostname (ks_Name svc) (ks_Namespace svc) domainSuffix) (map convertPort (ks_Ports svc)) [] addrs
    time_zero (List.hd "" addrs) (ks_ResourceVersion svc) resolution "" "" false.

(** ** Lemmas *)

(** Services filed under their host names, listed in order. *)
Lemma listed_services `{RangeOrder} (m : gmap host.Name Service) :
  (forall h svc, m !! h = Some svc -> Service.Hostname svc = h) ->
  let l := SortStableFunc (cmp_on Service.Hostname String.compare) (map snd (range m)) in
  NoDup (map Service.Hostname l) /\
  forall (h : host.Name) (svc : Service), m !! h = Some svc <-> svc ∈ l /\ Service.Hostname svc = h.
Proof.
  intros Hm l. split.
  - unfold l. rewrite (Sort_perm _ (map snd _)).
    assert (Hk : map Service.Hostname (map snd (range m)) = (range m).*1).
    { rewrite map_map. apply map_ext_in. intros [h svc] Hin. apply list_elem_of_In, elem_of_range in Hin.
      exact (Hm h svc Hin). }
    rewrite Hk. apply NoDup_range_fst.
  - intros h svc. unfold l. rewrite elem_of_sort, list_elem_of_fmap. split.
    + intros Hg. split; [|by apply Hm]. exists (h, svc). split; [done|]. by apply elem_of_range.
    + intros (([h' s] & -> & Hin) & Hh). apply elem_of_range in Hin. simpl in *. rewrite <-Hh. by rewrite (Hm h' s Hin).
Qed.

Lemma entries_registry_lawful `{RangeOrder} c cluster synced :
  controller_ok c -> LawfulRegistry (entries_registry c cluster synced).
Proof. intros [Hc _]. destruct (listed_services (services c) Hc). by split. Qed.

Section views.
Notation acc := (gmap host.Name nat * list Service)%type.
Implicit Types (h : host.Name) (a : acc).

(** The service of a host, through its index. *)
Definition view a h : option Service := fst a !! h ≫= fun i => snd a !! i.

(** The indices are those of the hosts in the list. *)
Definition indexed a : Prop :=
  forall (h : host.Name) (i : nat), fst a !! h = Some i <-> exists s, snd a !! i = Some s /\ Service.Hostname s = h.

(** What one more service of the host makes of it. *)
Definition combine (external : bool) (o : option Service) (s : Service) : option Service :=
  Some (match o with Some d => if external then registries.decorateService d s else d | None => s end).

Lemma Hostname_set_accounts s l : Service.Hostname (registries.set_accounts s l) = Service.Hostname s.
Proof. done. Qed.

Lemma add_service_indexed ext a s : indexed a -> indexed (registries.add_service ext a s).
Proof.
  intros Hi. destruct a as [ix l]. unfold registries.add_service.
  destruct (ix !! Service.Hostname s) as [i|] eqn:E; [destruct ext; [|done]|]; intros h j; simpl; cbn in Hi.
  - rewrite (Hi h j). cbn. split; intros (x & Hx & Hh).
    + destruct (decide (j = i)) as [->|Hne].
      * eexists. rewrite list_lookup_alter_eq. cbn in Hx. rewrite Hx. simpl. split; [reflexivity|].
        by rewrite Service_DeepCopy_eq.
      * exists x. by rewrite list_lookup_alter_ne by done.
    + destruct (decide (j = i)) as [->|Hne].
      * rewrite list_lookup_alter_eq in Hx. destruct (l !! i) as [y|] eqn:Ey; [|done]. simpl in Hx. simplify_eq.
        exists y. split; [done|]. by rewrite Service_DeepCopy_eq.
      * rewrite list_lookup_alter_ne in Hx by done. by exists x.
  - rewrite lookup_insert. case_decide as Hd.
    + subst h. split.
      * intros [= <-]. exists s. by rewrite list_lookup_middle.
      * intros (x & Hx & Hh). apply lookup_snoc_Some in Hx as [[Hlt Hx]|[-> ->]]; [|done].
        exfalso. assert (ix !! Service.Hostname s = Some j) as Hj by (apply (Hi _ j); by exists x). congruence.
    + rewrite (Hi h j). cbn. split; intros (x & Hx & Hh).
      * exists x. split; [|done]. apply lookup_app_l_Some. done.
      * apply lookup_snoc_Some in Hx as [[Hlt Hx]|[-> ->]]; [by exists x|done].
Qed.

Lemma view_add_service ext a s h :
  indexed a ->
  view (registries.add_service ext a s) h = if decide (Service.Hostname s = h) then combine ext (view a h) s else view a h.
Proof.
  intros Hi. destruct a as [ix l]. unfold registries.add_service, view, combine.
  destruct (ix !! Service.Hostname s) as [i|] eqn:E.
  - destruct (proj1 (Hi _ _) E) as (d & Hd & Hh). cbn in Hd. destruct ext; simpl.
    + destruct (decide (Service.Hostname s = h)) as [<-|Hne].
      * rewrite E. simpl. rewrite list_lookup_alter_eq, Hd. simpl. by rewrite Service_DeepCopy_eq.
      * destruct (ix !! h) as [j|] eqn:Ej; [|done]. simpl. rewrite list_lookup_alter_ne; [done|].
        intros ->. destruct (proj1 (Hi _ _) Ej) as (d' & Hd' & Hh'). cbn in Hd'. congruence.
    + case_decide as Hd0; [|done]. subst h. rewrite E. simpl. by rewrite Hd.
  - simpl. rewrite lookup_insert. case_decide as Hd0.
    + subst h. rewrite E. simpl. by rewrite list_lookup_middle.
    + destruct (ix !! h) as [j|] eqn:Ej; [|done]. simpl.
      destruct (proj1 (Hi _ _) Ej) as (d & Hd & _). cbn in Hd. rewrite Hd. by apply lookup_app_l_Some.
Qed.

Lemma add_services_view_fold ext l a h :
  indexed a -> NoDup (map Service.Hostname l) ->
  let a' := fold_left (registries.add_service ext) l a in
  indexed a' /\
  view a' h = match List.find (fun s => bool_decide (Service.Hostname s = h)) l with
              | Some s => combine ext (view a h) s | None => view a h end.
Proof.
  revert a. induction l as [|s l IH]; intros a Ha Hnd; simpl; [done|].
  cbn in Hnd. apply NoDup_cons in Hnd as [Hs Hnd].
  destruct (IH _ (add_service_indexed ext a s Ha) Hnd) as [Hi ->]. split; [done|].
  rewrite view_add_service by done. case_bool_decide as Hd; [|by rewrite decide_False].
  rewrite decide_True by done. destruct (List.find _ l) as [x|] eqn:E; [|done].
  apply find_some in E as [Hin Hx]. apply bool_decide_eq_true in Hx. exfalso. apply Hs.
  rewrite Hd, <-Hx. apply list_elem_of_fmap_2. by apply list_elem_of_In.
Qed.

Lemma lawful_find r h :
  LawfulRegistry r -> List.find (fun s => bool_decide (Service.Hostname s = h)) (reg_Services r) = reg_GetService r h.
Proof.
  intros [Hnd Hg]. destruct (List.find _ _) as [s|] eqn:E.
  - apply find_some in E as [Hin Hh]. apply bool_decide_eq_true in Hh. symmetry. apply Hg. split; [|done].
    by apply list_elem_of_In.
  - destruct (reg_GetService r h) as [s|] eqn:Es; [|done]. apply Hg in Es as [Hin Hh].
    apply list_elem_of_In in Hin. pose proof (List.find_none _ _ E s Hin) as Hn.
    by apply bool_decide_eq_false in Hn.
Qed.

Lemma get_from_combine h o r :
  registries.get_from h o r = match reg_GetService r h with
                              | Some s => combine (String.eqb (reg_Provider r) External) o s | None => o end.
Proof.
  unfold registries.get_from, combine. destruct (reg_GetService r h) as [s|], o as [d|]; try done.
  - by destruct (String.eqb _ _).
  - by rewrite Service_DeepCopy_eq.
Qed.

Lemma add_services_views l a h :
  indexed a -> Forall LawfulRegistry l ->
  let a' := fold_left registries.add_services l a in
  indexed a' /\ view a' h = fold_left (registries.get_from h) l (view a h).
Proof.
  revert a. induction l as [|r l IH]; intros a Ha Hl; simpl; [done|].
  apply Forall_cons in Hl as [Hr Hl].
  destruct (add_services_view_fold (String.eqb (reg_Provider r) External) (reg_Services r) a h Ha (lawful_hosts)) as [Hi Hv].
  change (fold_left (registries.add_service _) (reg_Services r) a) with (registries.add_services a r) in *.
  destruct (IH _ Hi Hl) as [Hi' Hv']. split; [done|]. rewrite Hv'. f_equal.
  rewrite get_from_combine, Hv. by rewrite (lawful_find r h Hr).
Qed.

Lemma indexed_nodup a : indexed a -> NoDup (map Service.Hostname (snd a)).
Proof.
  intros Hi. apply NoDup_alt. intros i j h Hx Hy.
  apply list_lookup_fmap_Some in Hx as (s & -> & Hs). apply list_lookup_fmap_Some in Hy as (s' & Hh & Hs').
  assert (fst a !! Service.Hostname s = Some i) as Hi1 by (apply Hi; by exists s).
  assert (fst a !! Service.Hostname s = Some j) as Hi2 by (apply Hi; exists s'; by rewrite Hh).
  congruence.
Qed.

Lemma view_elem a h s : indexed a -> view a h = Some s <-> s ∈ snd a /\ Service.Hostname s = h.
Proof.
  intros Hi. unfold view. split.
  - intros (i & Hx & Hs)%bind_Some. split; [by eapply list_elem_of_lookup_2|].
    destruct (proj1 (Hi _ _) Hx) as (s' & Hs' & Hh). congruence.
  - intros [(i & Hs)%list_elem_of_lookup <-]. assert (fst a !! Service.Hostname s = Some i) as -> by (apply Hi; by exists s).
    done.
Qed.

End views.

Lemma add_accounts_spec accounts dst src :
  NoDup dst -> (forall x, x ∈ accounts <-> x ∈ dst) ->
  let out := registries.add_accounts accounts dst src in
  NoDup out /\ (forall x, x ∈ out <-> x ∈ dst \/ x ∈ src) /\ dst `prefix_of` out.
Proof.
  revert accounts dst. induction src as [|y src IH]; intros accounts dst Hnd Hacc; simpl.
  - split_and!; [done| |done]. intros x. set_solver.
  - destruct (decide (y ∈ accounts)) as [Hy|Hy].
    + destruct (IH accounts dst Hnd Hacc) as (H1 & H2 & H3). split_and!; [done| |done].
      intros x. rewrite H2. apply Hacc in Hy. set_solver.
    + destruct (IH ({[y]} ∪ accounts) (dst ++ [y])) as (H1 & H2 & H3).
      * apply NoDup_app. split_and!; [done| |apply NoDup_singleton]. intros x Hx Hxy. apply Hy, Hacc. by apply list_elem_of_singleton in Hxy as <-.
      * set_solver.
      * split_and!; [done| |by eapply prefix_app_l]. set_solver.
Qed.

Lemma add_accounts_prefix accounts dst src : dst `prefix_of` registries.add_accounts accounts dst src.
Proof.
  revert accounts dst. induction src as [|y src IH]; intros accounts dst; simpl; [done|].
  case_decide; [apply IH|]. by eapply prefix_app_l.
Qed.

Lemma get_from_some h l o r :
  In r l -> is_Some (reg_GetService r h) -> is_Some (fold_left (registries.get_from h) l o).
Proof.
  assert (Hk : forall l o, is_Some o -> is_Some (fold_left (registries.get_from h) l o)).
  { clear. intros l. induction l as [|x l IH]; intros o Ho; simpl; [done|]. apply IH. rewrite get_from_combine.
    by destruct (reg_GetService x h). }
  intros Hin Hr. revert o Hin. induction l as [|x l IH]; intros o Hin; simpl; [done|].
  destruct Hin as [->|Hin]; [|by apply IH]. apply Hk. rewrite get_from_combine. by destruct (reg_GetService r h); [|destruct Hr].
Qed.

Definition has_service (h : host.Name) (r : Registry) : bool := bool_decide (is_Some (reg_GetService r h)).

(** The service of a host is that of the first registry that has it, with more
    accounts. *)
Lemma get_origin h l svc :
  fold_left (registries.get_from h) l None = Some svc ->
  exists r base accounts, List.find (has_service h) l = Some r /\ reg_GetService r h = Some base /\
    svc = registries.set_accounts base accounts /\ Service.ServiceAccounts base `prefix_of` accounts.
Proof.
  revert svc. induction l as [|r l IH] using rev_ind; intros svc; [done|].
  rewrite fold_left_app. simpl. rewrite get_from_combine. unfold combine. intros Hs.
  destruct (fold_left _ l None) as [d|] eqn:Ed.
  - destruct (IH d eq_refl) as (r' & base & acc & Hin & Hg & -> & Hp).
    assert (Hsvc : exists acc', svc = registries.set_accounts base acc' /\ acc `prefix_of` acc').
    { destruct (reg_GetService r h) as [s|]; [destruct (String.eqb _ _)|]; injection Hs as <-; eexists;
        (split; [reflexivity|]); [apply add_accounts_prefix|done|done]. }
    destruct Hsvc as (acc' & -> & Hp'). exists r', base, acc'. split_and!; [by rewrite find_app, Hin|done|done|by etrans].
  - destruct (reg_GetService r h) as [s|] eqn:E; [|done]. injection Hs as <-.
    exists r, s, (Service.ServiceAccounts s). split_and!; [|done|by destruct s|done].
    assert (Hn : List.find (has_service h) l = None).
    { destruct (List.find _ l) as [x|] eqn:Ex; [|done]. exfalso. apply find_some in Ex as [Hin Hx].
      unfold has_service in Hx. apply bool_decide_eq_true in Hx. by apply (get_from_some h l None x Hin) in Hx as [? ?]; rewrite Ed in *. }
    rewrite find_app, Hn. simpl. unfold has_service. by rewrite E, bool_decide_true.
Qed.

(** Adding a registry, of Kubernetes or not. *)
Definition is_kubernetes (r : Registry) : bool := String.eqb (reg_Provider r) Kubernetes.
Definition arranged (l : list Registry) : list Registry :=
  List.filter is_kubernetes l ++ List.filter (fun r => negb (is_kubernetes r)) l.

Lemma insert_kubernetes_spec e l k :
  Forall (fun r => is_kubernetes r = true) l -> Forall (fun r => is_kubernetes r = false) k ->
  forall es, map registries.re_Instance es = l ++ k ->
  map registries.re_Instance (registries.insert_kubernetes e es) = l ++ registries.re_Instance e :: k.
Proof.
  intros Hl Hk. induction Hl as [|r l Hr Hl IH]; intros es Hes; destruct es as [|x es]; simpl in *; try done.
  - by rewrite <-Hes.
  - subst k. apply Forall_cons in Hk as [Hx _]. unfold is_kubernetes in Hx. by rewrite Hx.
  - injection Hes as <- Hes. unfold is_kubernetes in Hr. rewrite Hr. simpl. f_equal. by apply IH.
Qed.

Lemma addRegistry_arranged c r stop l :
  registries.GetRegistries c = arranged l ->
  registries.GetRegistries (registries.addRegistry c r stop) = arranged (l ++ [r]).
Proof.
  unfold registries.GetRegistries, registries.addRegistry, arranged. simpl. rewrite !List.filter_app. simpl.
  intros Hc. fold (is_kubernetes r). destruct (is_kubernetes r) eqn:E; simpl.
  - rewrite app_nil_r, <-app_assoc. simpl. apply insert_kubernetes_spec; [| |done].
    + apply Forall_forall. intros x Hx. by apply list_elem_of_In, filter_In in Hx as [_ ->].
    + apply Forall_forall. intros x Hx. apply list_elem_of_In, filter_In in Hx as [_ Hx]. by apply negb_true_iff.
  - by rewrite map_app, Hc, app_nil_r, app_assoc.
Qed.

(** ** Theorems *)

(** The two views of the combined registries agree, for registries that
    have one service of a host: the services are one per host, and asking for a
    host gives the service of that host, if any; it is the one of the first
    registry that has the host, with the accounts of later external registries
    added and nothing else changed. *)
Theorem combined_views_agree (c : registries.t) (h : host.Name) (svc : Service) :
  Forall LawfulRegistry (registries.GetRegistries c) ->
  NoDup (map Service.Hostname (registries.Services c)) /\
  (registries.GetService c h = Some svc <-> svc ∈ registries.Services c /\ Service.Hostname svc = h) /\
  (registries.GetService c h = Some svc ->
   exists r base accounts, List.find (has_service h) (registries.GetRegistries c) = Some r /\ reg_GetService r h = Some base /\
     svc = registries.set_accounts base accounts /\ Service.ServiceAccounts base `prefix_of` accounts).
Proof.
  intros Hl. assert (H0 : indexed (∅, [])) by (intros h' i; simpl; rewrite lookup_empty; split; [done|by intros (? & ? & _)]).
  destruct (add_services_views _ (∅, []) h H0 Hl) as [Hi Hv]. split_and!.
  - exact (indexed_nodup _ Hi).
  - unfold registries.GetService, registries.Services. change (@None Service) with (view (∅, []) h). rewrite <-Hv.
    by apply view_elem.
  - apply get_origin.
Qed.

(** Registries added before and after the controller is set running: those
    of Kubernetes come first, each kind in the order it was added; nothing runs
    before, and each registry is started exactly once. *)
Theorem registries_started_once (early late : list (Registry * option ptr)) (stop : ptr) :
  let add := fun c '(r, s) => registries.AddRegistryAndRun c r s in
  let waiting := fold_left add early registries.NewController in
  let c := fold_left add late (registries.Run waiting stop) in
  registries.GetRegistries c = arranged (map fst (early ++ late)) /\
  registries.started waiting = [] /\
  map fst (registries.started c) ≡ₚ map fst (early ++ late).
Proof.
  intros add waiting c.
  assert (Hadd : forall l c done, registries.GetRegistries c = arranged done ->
    let c' := fold_left add l c in
    registries.GetRegistries c' = arranged (done ++ map fst l) /\ registries.running c' = registries.running c /\
    map fst (registries.started c')
      = map fst (registries.started c) ++ (if registries.running c then map fst l else [])).
  { clear. intros l. induction l as [|[r s] l IH]; intros c dn Hc; simpl.
    - rewrite !app_nil_r. by destruct (registries.running c); rewrite ?app_nil_r.
    - pose proof (addRegistry_arranged c r s dn Hc) as Hr.
      specialize (IH (registries.AddRegistryAndRun c r s) (dn ++ [r])). unfold registries.AddRegistryAndRun in *.
      cbn [registries.addRegistry registries.running registries.started] in *.
      destruct (registries.running c) eqn:Er.
      + destruct IH as (H1 & H2 & H3); [exact Hr|]. rewrite H1, H2, H3. simpl. rewrite map_app, <-!app_assoc. simpl. done.
      + destruct IH as (H1 & H2 & H3); [exact Hr|]. rewrite H1, H2, H3. simpl. rewrite Er, <-!app_assoc. done. }
  destruct (Hadd early registries.NewController [] eq_refl) as (H1 & H2 & H3). fold waiting in H1, H2, H3. simpl in *.
  destruct (Hadd late (registries.Run waiting stop) (map fst early)) as (H4 & H5 & H6); [exact H1|]. fold c in H4, H5, H6.
  assert (Hs : registries.started waiting = []).
  { destruct (registries.started waiting) as [|x l]; [done|]. done. }
  split_and!; [by rewrite map_app|done|]. rewrite H6. simpl. rewrite Hs. simpl. rewrite map_map, map_app. simpl.
  apply Permutation_app_tail. change (map (fun x => registries.re_Instance x) (registries.entries waiting))
    with (registries.GetRegistries waiting). rewrite H1. unfold arranged. clear.
  induction (map fst early) as [|x l IH]; simpl; [done|]. destruct (is_kubernetes x); simpl; [by rewrite IH|].
  by rewrite <-Permutation_middle, IH.
Qed.

(** A converted service can be told apart and reached: two services of a
    domain get the same host name only when name and namespace are the same
    (neither contains a dot), it has at least one address, the default address is
    the first, a headless service is passed through whatever its type, and an
    alias is an [ExternalName] service with a target and no cluster address set
    to none. *)
Theorem converted_service (svc svc' : KService) (domain : string) :
  no_char "."%char (ks_Name svc) = true -> no_char "."%char (ks_Namespace svc) = true ->
  no_char "."%char (ks_Name svc') = true -> no_char "."%char (ks_Namespace svc') = true ->
  let s := ConvertService svc domain in
  (Service.Hostname s = Service.Hostname (ConvertService svc' domain) <->
   ks_Name svc = ks_Name svc' /\ ks_Namespace svc = ks_Namespace svc') /\
  (exists l, Service.Addresses s = Service.DefaultAddress s :: l) /\
  (Service.Resolution s = Passthrough <-> ks_ClusterIP svc = ClusterIPNone) /\
  (Service.Resolution s = Alias <->
   ks_Type svc = ServiceTypeExternalName /\ ks_ExternalName svc <> "" /\ ks_ClusterIP svc <> ClusterIPNone).
Proof.
  intros Hn Hns Hn' Hns' s.
  assert (Hh : forall k, Service.Hostname (ConvertService k domain) = ServiceHostname (ks_Name k) (ks_Namespace k) domain).
  { intros k. unfold ConvertService. by repeat destruct (_ && _); repeat destruct (String.eqb _ _). }
  split_and!.
  - unfold s. rewrite !Hh. unfold ServiceHostname. split; [|by intros [-> ->]]. intros He.
    apply (sep_inj "."%char) in He as [-> He]; [|done|done]. by apply (sep_inj "."%char) in He as [-> _].
  - unfold s, ConvertService. destruct (_ && _); destruct (String.eqb _ _); simpl; try (by eexists);
      destruct (negb _); simpl; try (by eexists); destruct (ks_ClusterIPs svc) as [|a [|b l]]; simpl; by eexists.
  - unfold s, ConvertService. destruct (String.eqb_spec (ks_ClusterIP svc) ClusterIPNone) as [->|Hc].
    + by destruct (_ && _).
    + destruct (_ && _), (negb _); simpl; done.
  - unfold s, ConvertService. destruct (String.eqb_spec (ks_ClusterIP svc) ClusterIPNone) as [->|Hc].
    + destruct (_ && _); simpl; split; try done; by intros (_ & _ & ?).
    + destruct (String.eqb_spec (ks_Type svc) ServiceTypeExternalName) as [->|Ht];
        destruct (String.eqb_spec (ks_ExternalName svc) "") as [->|He]; simpl; destruct (negb _); simpl;
        split; try done; by intros (? & ? & ?).
Qed.

(** *** Witnesses *)

Definition sample_kservice : KService :=
  mkKService "demo" "a" None "7" "ClusterIP" "" "10.96.0.1" ["10.96.0.1"; "fd00::1"]
    [mkServicePort "grpc" 80 (IntVal 8080)] None false.

(** A registry of the one service of Kubernetes, and one of an entry for the same
    host, which has an account for it. *)
Definition demo_host : host.Name := "demo.a.svc.cluster.local".
Definition one_service (s : Service) : Registry :=
  mkRegistry Kubernetes "c1" [s] (fun h => if decide (Service.Hostname s = h) then Some s else None)
    (fun p => ([], p)) true.
Definition demo_entries : Controller := declared [entry_config "x" "b" 1 (sample_entry [demo_host])] [].
Definition demo_registries : registries.t :=
  registries.AddRegistryAndRun
    (registries.AddRegistryAndRun registries.NewController (@entries_registry key_order demo_entries "c1" true) None)
    (one_service (ConvertService sample_kservice "cluster.local")) None.

Lemma one_service_lawful s : LawfulRegistry (one_service s).
Proof.
  split; simpl; [apply NoDup_singleton|]. intros h svc. rewrite list_elem_of_singleton.
  case_decide; naive_solver.
Qed.

Lemma combined_views_agree_witness :
  map Service.ServiceAccounts (registries.Services demo_registries) = [["spiffe://td/ns/a/sa/x"]] /\
  exists r base accounts, List.find (has_service demo_host) (registries.GetRegistries demo_registries) = Some r /\
    reg_GetService r demo_host = Some base /\
    Service.ServiceAccounts base `prefix_of` accounts /\ length accounts = 1%nat.
Proof.
  split; [vm_compute; reflexivity|].
  assert (Hl : Forall LawfulRegistry (registries.GetRegistries demo_registries)).
  { change (Forall LawfulRegistry [one_service (ConvertService sample_kservice "cluster.local");
                                   @entries_registry key_order demo_entries "c1" true]).
    apply Forall_cons; split; [apply one_service_lawful|]. apply Forall_cons; split; [|apply Forall_nil; done].
    apply entries_registry_lawful, declared_ok. }
  destruct (registries.GetService demo_registries demo_host) as [svc|] eqn:E; [|vm_compute in E; discriminate].
  destruct (combined_views_agree demo_registries demo_host svc Hl) as (_ & _ & Ho).
  destruct (Ho E) as (r & base & acc & Hf & Hg & -> & Hp). exists r, base, acc. split_and!; try done.
  apply (f_equal (fmap Service.ServiceAccounts)) in E. vm_compute in E. simplify_eq. done.
Defined.

Lemma converted_service_witness :
  Service.Resolution (ConvertService sample_kservice "cluster.local") = ClientSideLB /\
  exists l, Service.Addresses (ConvertService sample_kservice "cluster.local")
            = Service.DefaultAddress (ConvertService sample_kservice "cluster.local") :: l.
Proof.
  split; [reflexivity|].
  apply (converted_service sample_kservice sample_kservice "cluster.local"); reflexivity.
Defined.
