(* ===== verification/PodCache.v ===== *)
(** * The cache of pods by address

    [dubbod/discovery/pkg/serviceregistry/kube/controller/pod.go]: which pods have
    which address, and the endpoint slices that wait for the pod of an address.
    The pods themselves are read from the informer, whose contents are an
    argument. *)

From S2P Require Import Prelude GoStrings GoSets GoSlices Hosts GoNet Service.

(** ** Pods *)

(** [types.NamespacedName]: namespace, then name. *)
Module types.
Definition NamespacedName : Type := string * string.
End types.

Create HintDb pods.

Record ContainerPort : Type := mkContainerPort { cp_Name : string; cp_ContainerPort : Z }.

Record Pod : Type := mkPod {
  pod_Name : string;
  pod_Namespace : string;
  pod_Labels : nmap string string;
  pod_ServiceAccountName : string;
  pod_Hostname : string;
  pod_Subdomain : string;
  pod_NodeName : string;
  pod_Containers : list (list ContainerPort);
  pod_Phase : string;
  pod_PodIP : string;
  pod_PodIPs : list string;
  pod_Conditions : list (string * string);
  pod_DeletionTimestamp : option Time
}.

Definition pod_key (p : Pod) : types.NamespacedName := (pod_Namespace p, pod_Name p).

(** What an informer tells: an object was added, updated or deleted. *)
Inductive informed (T : Type) : Type :=
  | Added (cur : T)
  | Updated (old cur : T)
  | Deleted (cur : T).
Arguments Added {T} cur.
Arguments Updated {T} old cur.
Arguments Deleted {T} cur.

Definition informed_cur {T} (e : informed T) : T :=
  match e with Added cur | Updated _ cur | Deleted cur => cur end.

(** *** Conditions *)

Definition PodFailed : string := "Failed".
Definition PodSucceeded : string := "Succeeded".

Definition isPodPhaseTerminal (phase : string) : bool := String.eqb phase PodFailed || String.eqb phase PodSucceeded.

Definition shouldPodBeInEndpoints (pod : Pod) : bool :=
  if isPodPhaseTerminal (pod_Phase pod) then false else
  if (String.length (pod_PodIP pod) =? 0)%nat && (length (pod_PodIPs pod) =? 0)%nat then false else
  match pod_DeletionTimestamp pod with Some _ => false | None => true end.

(** The position of the condition, -1 when there is none, and the condition. *)
Fixpoint condition_from (i : Z) (conditions : list (string * string)) (conditionType : string)
  : Z * option (string * string) :=
  match conditions with
  | [] => (-1, None)
  | c :: conditions => if String.eqb (fst c) conditionType then (i, Some c)
                       else condition_from (i + 1) conditions conditionType
  end.
Definition GetPodConditionFromList : list (string * string) -> string -> Z * option (string * string) :=
  condition_from 0.

Definition GetPodReadyCondition (status : list (string * string)) : option (string * string) :=
  snd (GetPodConditionFromList status "Ready").
Definition IsPodReadyConditionTrue (status : list (string * string)) : bool :=
  match GetPodReadyCondition status with Some (_, s) => String.eqb s "True" | None => false end.
Definition IsPodReady (pod : Pod) : bool := IsPodReadyConditionTrue (pod_Conditions pod).

(** ** The cache *)

Module PodCache.

Record t : Type := mk {
  podsByIP : gmap string (gset types.NamespacedName);
  ipByPods : gmap types.NamespacedName string;
  needResync : gmap string (gset types.NamespacedName)
}.

(** What the cache asks of the controller. *)
Inductive call : Type :=
  | queueEndpointEvent (key : types.NamespacedName)
  | proxyUpdates (pod : Pod) (isPodUpdate : bool).

Definition newPodCache : t := mk ∅ ∅ ∅.

Definition endpointDeleted (pc : t) (key : types.NamespacedName) (ip : string) : t :=
  mk (podsByIP pc) (ipByPods pc) (GoSet.DeleteCleanupLast (needResync pc) ip key).

Definition getPodKeys `{RangeOrder} (pc : t) (addr : string) : list types.NamespacedName :=
  map fst (range (gset_to_gmap tt (nset_elems (podsByIP pc !! addr)))).

(** The informer's pods of an address; one it no longer has is left out. *)
Definition getPodsByIP `{RangeOrder} (pods : gmap types.NamespacedName Pod) (pc : t) (addr : string) : list Pod :=
  omap (fun key => pods !! key) (getPodKeys pc addr).

Definition queueEndpointEventOnPodArrival (pc : t) (key : types.NamespacedName) (ip : string) : t :=
  mk (podsByIP pc) (ipByPods pc) (GoSet.InsertOrNew (needResync pc) ip key).

Definition getIPByPod (pc : t) (key : types.NamespacedName) : string := default "" (ipByPods pc !! key).

Definition labelFilter (old cur : Pod) : bool := negb (maps_Equal (pod_Labels old) (pod_Labels cur)).

Definition addPod (pc : t) (pod : Pod) (ip : string) (key : types.NamespacedName) (labelUpdated : bool) : t * list call :=
  if GoSet.Contains (podsByIP pc !! ip) key then
    (pc, if labelUpdated then [proxyUpdates pod true] else [])
  else
    let byIP := match ipByPods pc !! key with
                | Some current => GoSet.DeleteCleanupLast (podsByIP pc) current key
                | None => podsByIP pc
                end in
    let byIP := GoSet.InsertOrNew byIP ip key in
    let ips := <[key := ip]> (ipByPods pc) in
    match needResync pc !! ip with
    | Some endpointsToUpdate =>
        (mk byIP ips (delete ip (needResync pc)),
         map queueEndpointEvent (elements endpointsToUpdate) ++ [proxyUpdates pod false])
    | None => (mk byIP ips (needResync pc), [proxyUpdates pod false])
    end.

Definition deleteIP (pc : t) (ip : string) (podKey : types.NamespacedName) : t * bool :=
  if GoSet.Contains (podsByIP pc !! ip) podKey then
    (mk (GoSet.DeleteCleanupLast (podsByIP pc) ip podKey) (delete podKey (ipByPods pc)) (needResync pc), true)
  else (pc, false).

(** The address an event is about: that of the pod, or the one it had. *)
Definition event_ip (pc : t) (pod : Pod) : string :=
  if (String.length (pod_PodIP pod) =? 0)%nat then getIPByPod pc (pod_key pod) else pod_PodIP pod.

Definition onEvent (pc : t) (ev : informed Pod) : t * list call :=
  let pod := informed_cur ev in
  let key := pod_key pod in
  let ip := event_ip pc pod in
  if (String.length ip =? 0)%nat then (pc, []) else
  match ev with
  | Added _ =>
      if shouldPodBeInEndpoints pod && IsPodReady pod then addPod pc pod ip key false else (pc, [])
  | Updated old _ =>
      if negb (shouldPodBeInEndpoints pod) || negb (IsPodReady pod) then (fst (deleteIP pc ip key), [])
      else if shouldPodBeInEndpoints pod && IsPodReady pod then addPod pc pod ip key (labelFilter old pod)
      else (pc, [])
  | Deleted _ => (fst (deleteIP pc ip key), [])
  end.

(** ** Lemmas *)

(** The two maps are each other's inverse, and no address is kept without pods
    or waiting slices. *)
Record ok (pc : t) : Prop := {
  ok_inverse ip key : key ∈ GoSet.members (podsByIP pc) ip <-> ipByPods pc !! key = Some ip;
  ok_ips key : ipByPods pc !! key <> Some "";
  ok_pods : GoSet.tidy (podsByIP pc);
  ok_resync : GoSet.tidy (needResync pc)
}.

Lemma Contains_members (m : gmap string (gset types.NamespacedName)) ip key :
  GoSet.Contains (m !! ip) key = true <-> key ∈ GoSet.members m ip.
Proof. apply GoSet.Contains_spec. Qed.

Lemma ok_new : ok newPodCache.
Proof. split; simpl; intros *; unfold GoSet.members; rewrite ?lookup_empty; [set_solver|done..]. Qed.

Lemma ok_endpointDeleted pc key ip : ok pc -> ok (endpointDeleted pc key ip).
Proof. intros [H1 H0 H2 H3]. split; simpl; [done..|by apply GoSet.tidy_DeleteCleanupLast]. Qed.

Lemma ok_queue pc key ip : ok pc -> ok (queueEndpointEventOnPodArrival pc key ip).
Proof. intros [H1 H0 H2 H3]. split; simpl; [done..|by apply GoSet.tidy_InsertOrNew]. Qed.

Lemma ok_deleteIP pc ip key : ok pc -> ok (fst (deleteIP pc ip key)).
Proof.
  intros Hok. pose proof Hok as [H1 H0 H2 H3]. unfold deleteIP.
  destruct (GoSet.Contains _ key) eqn:E; [|done]. apply Contains_members in E.
  split; simpl; [|intros k; rewrite lookup_delete_Some; naive_solver|by apply GoSet.tidy_DeleteCleanupLast|done].
  intros ip' key'. rewrite GoSet.members_DeleteCleanupLast, lookup_delete_Some.
  specialize (H1 ip' key') as Hk. apply H1 in E. case_decide; subst; [set_solver|].
  rewrite Hk. split; [|by intros [_ ?]]. intros Hx. split; [|done]. intros <-. congruence.
Qed.

Lemma ok_addPod pc pod ip key l : ok pc -> ip <> "" -> ok (fst (addPod pc pod ip key l)).
Proof.
  intros Hok Hip. pose proof Hok as [H1 H0 H2 H3]. unfold addPod.
  destruct (GoSet.Contains _ key) eqn:E; [done|].
  set (byIP := match ipByPods pc !! key with Some _ => _ | None => _ end).
  assert (Hby : forall ip' key', key' ∈ GoSet.members byIP ip' <-> ipByPods pc !! key' = Some ip' /\ key' <> key).
  { intros ip' key'. rewrite <-H1. unfold byIP. destruct (ipByPods pc !! key) as [cur|] eqn:Ec.
    - rewrite GoSet.members_DeleteCleanupLast. case_decide; [set_solver|].
      split; [|by intros [? _]]. intros Hk. split; [done|]. intros ->. apply H1 in Hk. congruence.
    - split; [|by intros [? _]]. intros Hk. split; [done|]. intros ->. apply H1 in Hk. congruence. }
  assert (Ht : GoSet.tidy byIP).
  { unfold byIP. destruct (ipByPods pc !! key); [by apply GoSet.tidy_DeleteCleanupLast|done]. }
  assert (Hm : forall r, GoSet.tidy r -> ok (mk (GoSet.InsertOrNew byIP ip key) (<[key:=ip]> (ipByPods pc)) r)).
  { intros r Hr. split; simpl; [|intros k; rewrite lookup_insert_Some; naive_solver|by apply GoSet.tidy_InsertOrNew|done].
    intros ip' key'. rewrite GoSet.members_InsertOrNew, lookup_insert_Some. specialize (Hby ip' key').
    case_decide; subst; set_solver. }
  destruct (needResync pc !! ip) eqn:En; simpl; apply Hm; [|done].
  intros k s. rewrite lookup_delete_Some. intros [_ Hs]. by apply (H3 k).
Qed.

Lemma ok_onEvent pc ev : ok pc -> ok (fst (onEvent pc ev)).
Proof.
  intros Hok. unfold onEvent. destruct (String.length (event_ip pc _) =? 0)%nat eqn:E; [done|].
  assert (Hip : event_ip pc (informed_cur ev) <> "") by (intros Hx; by rewrite Hx in E).
  repeat case_match; simpl; auto using ok_addPod, ok_deleteIP.
Qed.

(** An address a pod is known at is one that its entry gives. *)
Lemma deleteIP_ips pc ip key :
  ok pc -> ipByPods (fst (deleteIP pc ip key))
           = if decide (ipByPods pc !! key = Some ip) then delete key (ipByPods pc) else ipByPods pc.
Proof.
  intros [H1 _ _ _]. unfold deleteIP. destruct (GoSet.Contains _ key) eqn:E.
  - apply Contains_members, H1 in E. by rewrite decide_True.
  - rewrite decide_False; [done|]. intros Hk. apply H1, Contains_members in Hk. exact (eq_true_false_abs _ Hk E).
Qed.

Lemma addPod_ips pc pod ip key l :
  ok pc -> ipByPods (fst (addPod pc pod ip key l)) = <[key := ip]> (ipByPods pc).
Proof.
  intros [H1 _ _ _]. unfold addPod. destruct (GoSet.Contains _ key) eqn:E.
  - apply Contains_members, H1 in E. symmetry. by apply insert_id.
  - by destruct (needResync pc !! ip).
Qed.

(** The slices that wait for an address, or are told of it now. *)
Lemma addPod_resync pc pod ip key l ip' k :
  let '(pc', calls) := addPod pc pod ip key l in
  k ∈ GoSet.members (needResync pc) ip' ->
  k ∈ GoSet.members (needResync pc') ip' \/ queueEndpointEvent k ∈ calls.
Proof.
  unfold addPod. destruct (GoSet.Contains _ key); [by left|].
  destruct (needResync pc !! ip) as [s|] eqn:E; [|by left]. unfold GoSet.members. intros Hk. simpl in *.
  rewrite lookup_delete. case_decide; [subst|by left]. right. rewrite E in Hk. simpl in Hk.
  apply elem_of_app. left. apply list_elem_of_fmap_2. by apply elem_of_elements.
Qed.

Lemma onEvent_resync pc ev ip k :
  let '(pc', calls) := onEvent pc ev in
  k ∈ GoSet.members (needResync pc) ip ->
  k ∈ GoSet.members (needResync pc') ip \/ queueEndpointEvent k ∈ calls.
Proof.
  unfold onEvent. set (i := event_ip pc _). destruct (String.length i =? 0)%nat; [by left|].
  assert (Hd : forall key, needResync (fst (deleteIP pc i key)) = needResync pc).
  { intros key. unfold deleteIP. by destruct (GoSet.Contains _ key). }
  destruct ev as [cur|old cur|cur]; simpl.
  - destruct (_ && _); [apply addPod_resync|by left].
  - destruct (negb _ || negb _); [rewrite Hd; by left|]. destruct (_ && _); [apply addPod_resync|by left].
  - rewrite Hd. by left.
Qed.

(** Whether an event makes the pod known, and whether it makes it unknown. *)
Definition arrives (ev : informed Pod) : bool :=
  match ev with
  | Added cur | Updated _ cur => shouldPodBeInEndpoints cur && IsPodReady cur
  | Deleted _ => false
  end.
Definition leaves (ev : informed Pod) : bool :=
  match ev with Added _ => false | Updated _ _ => negb (arrives ev) | Deleted _ => true end.

Lemma onEvent_ips pc ev :
  ok pc ->
  let pod := informed_cur ev in
  let ip := event_ip pc pod in
  ipByPods (fst (onEvent pc ev)) =
  if (String.length ip =? 0)%nat then ipByPods pc
  else if arrives ev then <[pod_key pod := ip]> (ipByPods pc)
  else if leaves ev && bool_decide (ipByPods pc !! pod_key pod = Some ip) then delete (pod_key pod) (ipByPods pc)
  else ipByPods pc.
Proof.
  intros Hok pod ip. unfold onEvent. fold pod. fold ip.
  destruct (String.length ip =? 0)%nat; [done|].
  assert (Hd : ipByPods (fst (deleteIP pc ip (pod_key pod)))
    = if bool_decide (ipByPods pc !! pod_key pod = Some ip) then delete (pod_key pod) (ipByPods pc) else ipByPods pc).
  { rewrite deleteIP_ips by done. case_bool_decide; case_decide; done. }
  unfold leaves. destruct ev as [cur|old cur|cur]; unfold pod in *; simpl in *.
  - destruct (_ && _); [by apply addPod_ips|done].
  - destruct (shouldPodBeInEndpoints cur), (IsPodReady cur); simpl; rewrite ?Hd; try done. by apply addPod_ips.
  - by rewrite Hd.
Qed.

(** Operations on the cache. *)
Inductive op : Type :=
  | OnEvent (ev : informed Pod)
  | EndpointDeleted (key : types.NamespacedName) (ip : string)
  | WaitForPod (key : types.NamespacedName) (ip : string).
Definition apply (pc : t) (o : op) : t :=
  match o with
  | OnEvent ev => fst (onEvent pc ev)
  | EndpointDeleted key ip => endpointDeleted pc key ip
  | WaitForPod key ip => queueEndpointEventOnPodArrival pc key ip
  end.

End PodCache.

#[export] Hint Resolve PodCache.ok_new PodCache.ok_endpointDeleted PodCache.ok_queue PodCache.ok_onEvent : pods.

(** Whatever happens, the pods of an address and the address of a pod are
    each other's inverse, and nothing is kept for an address without pods or
    waiting slices.  A pod that is ready is known at its address from then on; one
    that is deleted, or no longer ready, is forgotten, also when the event has lost
    its address; no other pod is affected. *)
Theorem pod_cache_tracks (history : list PodCache.op) (ev : informed Pod) :
  let pc := fold_left PodCache.apply history PodCache.newPodCache in
  let pod := informed_cur ev in
  let ips := PodCache.ipByPods pc in
  let ips' := PodCache.ipByPods (fst (PodCache.onEvent pc ev)) in
  PodCache.ok pc /\
  (PodCache.arrives ev = true -> pod_PodIP pod <> "" -> ips' = <[pod_key pod := pod_PodIP pod]> ips) /\
  (PodCache.leaves ev = true -> pod_PodIP pod = "" \/ ips !! pod_key pod = Some (pod_PodIP pod) ->
   ips' = delete (pod_key pod) ips) /\
  (forall key, key <> pod_key pod -> ips' !! key = ips !! key).
Proof.
  intros pc pod ips ips'.
  assert (Hok : PodCache.ok pc).
  { unfold pc. clear. revert history. apply rev_ind; simpl; [apply PodCache.ok_new|]. intros o l IH.
    rewrite fold_left_app. simpl. destruct o; simpl; auto with pods. }
  split; [done|]. unfold ips'. rewrite PodCache.onEvent_ips by done. fold pod ips.
  set (ip := PodCache.event_ip pc pod).
  assert (Hip : pod_PodIP pod <> "" -> ip = pod_PodIP pod).
  { intros Hn. unfold ip, PodCache.event_ip. by destruct (pod_PodIP pod). }
  assert (Hip' : pod_PodIP pod = "" -> ip = default "" (ips !! pod_key pod)).
  { intros Hn. unfold ip, PodCache.event_ip. by rewrite Hn. }
  assert (H0 : (String.length ip =? 0)%nat = true <-> ip = "") by (destruct ip; simpl; naive_solver).
  split_and!.
  - intros Ha Hn. rewrite Ha. rewrite (Hip Hn) in *. by destruct (String.length _ =? 0)%nat; [naive_solver|].
  - intros Hl Hc. rewrite Hl. assert (Ha : PodCache.arrives ev = false).
    { destruct ev; [done| |done]. by apply negb_true_iff. }
    rewrite Ha. destruct (ips !! pod_key pod) as [a|] eqn:Ea.
    + assert (Hia : ip = a).
      { destruct (decide (pod_PodIP pod = "")) as [E|E]; [by rewrite (Hip' E)|]. rewrite (Hip E). naive_solver. }
      assert (Hne : ip <> "") by (intros Hx; apply (PodCache.ok_ips pc Hok (pod_key pod)); fold ips; congruence).
      destruct (String.length ip =? 0)%nat; [naive_solver|].
      by rewrite bool_decide_true by (by rewrite Hia).
    + destruct Hc as [Hc|Hc]; [|done]. rewrite (Hip' Hc). simpl. by rewrite delete_id.
  - intros key Hk. destruct (String.length ip =? 0)%nat; [done|]. destruct (PodCache.arrives ev); [by rewrite lookup_insert_ne|].
    destruct (_ && _); [by rewrite lookup_delete_ne|done].
Qed.

(** *** Examples *)

Definition sample_pod (ip : string) (ready : string) : Pod :=
  mkPod "p" "a" (Some {["app" := "demo"]}) "default" "" "" "node1" [[mkContainerPort "grpc" 8080]] "Running" ip [ip]
    [("Ready", ready)] None.

Lemma pod_cache_tracks_witness :
  let pc := fst (PodCache.onEvent PodCache.newPodCache (Added (sample_pod "10.0.0.1" "True"))) in
  PodCache.ok pc /\
  PodCache.ipByPods (fst (PodCache.onEvent pc (Deleted (sample_pod "" "True")))) = delete ("a", "p") (PodCache.ipByPods pc).
Proof.
  intros pc.
  destruct (pod_cache_tracks [PodCache.OnEvent (Added (sample_pod "10.0.0.1" "True"))] (Deleted (sample_pod "" "True")))
    as (Hok & _ & Hl & _).
  split; [exact Hok|]. apply Hl; [reflexivity|left; reflexivity].
Defined.

(** An update that changes the address of a pod and makes it unready at once
    leaves the pod at its old address. *)
Lemma stale_address_kept :
  let pc := fst (PodCache.onEvent PodCache.newPodCache (Added (sample_pod "10.0.0.1" "True"))) in
  let ev := Updated (sample_pod "10.0.0.1" "True") (sample_pod "10.0.0.2" "False") in
  PodCache.leaves ev = true /\ PodCache.getIPByPod (fst (PodCache.onEvent pc ev)) ("a", "p") = "10.0.0.1".
Proof. vm_compute. done. Qed.
