(* ===== verification/KubeRegistry.v ===== *)
(** * The registry of Kubernetes

    [dubbod/discovery/pkg/serviceregistry/kube/controller]: services, endpoint
    slices and pods of a cluster, as its informers give them, become services and
    endpoints of the server.  The handlers run one after the other from a queue;
    what the informers hold when a handler runs is an argument, [cluster], that
    may be different for every one of them. *)

From S2P Require Import Prelude GoStrings GoSets GoSlices GoSort Hosts GoNet Spiffe Service ServiceIndex Ads ConfigModel ServiceEntries ServiceRegistries PodCache.

Module kube.

(** ** Endpoint slices *)

Record ObjectReference : Type := mkRef { ref_Kind : string; ref_Namespace : string; ref_Name : string }.

Record SliceEndpoint : Type := mkSliceEndpoint {
  sep_Addresses : list string;
  sep_Ready : option bool;
  sep_Terminating : option bool;
  sep_TargetRef : option ObjectReference
}.

Record EndpointPort : Type := mkEndpointPort { epp_Name : option string; epp_Port : option Z }.

Record EndpointSlice : Type := mkSlice {
  es_Name : string;
  es_Namespace : string;
  es_Labels : nmap string string;
  es_AddressType : string;
  es_Endpoints : list SliceEndpoint;
  es_Ports : list EndpointPort
}.

(** What the informers hold. *)
Record cluster : Type := mkCluster {
  cl_Services : gmap types.NamespacedName KService;
  cl_Pods : gmap types.NamespacedName Pod;
  cl_Slices : gmap types.NamespacedName EndpointSlice
}.

Definition LabelServiceName : string := "kubernetes.io/service-name".
Definition AddressTypeFQDN : string := "FQDN".
Definition PodKind : string := "Pod".

(** ** Endpoints of a slice *)

Definition endpointHealthStatus (e : SliceEndpoint) : HealthStatus :=
  match sep_Ready e with
  | None | Some true => Healthy
  | Some false => match sep_Terminating e with Some true => Terminating | _ => UnHealthy end
  end.

Definition serviceNameForEndpointSlice (labels : nmap string string) : string :=
  default "" (nmap_get labels !! LabelServiceName).

Definition getServiceNamespacedName (slice : EndpointSlice) : types.NamespacedName :=
  (es_Namespace slice, serviceNameForEndpointSlice (es_Labels slice)).

Definition slice_key (slice : EndpointSlice) : types.NamespacedName := (es_Namespace slice, es_Name slice).

(** [endpointSliceSelector]: the label is there. *)
Definition selects (labels : nmap string string) : bool := bool_decide (is_Some (nmap_get labels !! LabelServiceName)).

Record EndpointBuilder : Type := mkBuilder {
  eb_labels : nmap string string;
  eb_serviceAccount : string;
  eb_namespace : string;
  eb_hostname : string;
  eb_subDomain : string;
  eb_nodeName : string
}.

Definition SecureNamingSAN (trustDomain : string) (pod : Pod) : string :=
  MustGenSpiffeURI trustDomain (pod_Namespace pod) (pod_ServiceAccountName pod).

Definition NewEndpointBuilder (trustDomain : string) (pod : option Pod) : EndpointBuilder :=
  match pod with
  | None => mkBuilder None "" "" "" "" ""
  | Some pod =>
      let hostname :=
        if negb (String.eqb (pod_Subdomain pod) "") then
          if String.eqb (pod_Hostname pod) "" then pod_Name pod else pod_Hostname pod
        else "" in
      mkBuilder (pod_Labels pod) (SecureNamingSAN trustDomain pod) (pod_Namespace pod) hostname (pod_Subdomain pod)
        (pod_NodeName pod)
  end.

(** The port is an [int32], made a [uint32]. *)
Definition buildDubboEndpoint (b : EndpointBuilder) (endpointAddress : string) (endpointPort : Z) (svcPortName : string)
    (discoverabilityPolicy : option string) (healthStatus : HealthStatus) (sendUnhealthy : bool) : DubboEndpoint :=
  Endpoint.mk (eb_serviceAccount b) [endpointAddress] svcPortName (eb_labels b) "" "" 0 healthStatus sendUnhealthy
    discoverabilityPolicy 0 (endpointPort mod two32) "" (eb_namespace b) (eb_hostname b) (eb_subDomain b) (eb_nodeName b).

(** *** Ports *)

Definition wrap_s32 (z : Z) : Z := (z + 2147483648) mod two32 - 2147483648.

(** The containers are searched for the named port until one of them gives a
    number that is not zero. *)
Fixpoint named_port (containers : list (list ContainerPort)) (name : string) : Z :=
  match containers with
  | [] => 0
  | ports :: containers =>
      let n := match List.find (fun p => String.eqb (cp_Name p) name) ports with
               | Some p => cp_ContainerPort p | None => 0 end in
      if n =? 0 then named_port containers name else n
  end.

(** The target port as far as it is known; zero otherwise. *)
Definition kube_target_port (pod : option Pod) (p : ServicePort) : Z :=
  match sp_TargetPort p, pod with
  | IntVal n, _ => n
  | StrVal s, Some pod => named_port (pod_Containers pod) s
  | StrVal _, None => 0
  end.

Definition target_or_service_port (pod : option Pod) (p : ServicePort) : Z :=
  let n := kube_target_port pod p in if n =? 0 then sp_Port p else n.

(** The port a slice's port stands for: the number the endpoint listens on and
    the name of the port of the service. *)
Definition resolve_port (kubeSvc : option KService) (pod : option Pod) (port : EndpointPort) : Z * string :=
  let num := default 0 (epp_Port port) in
  let name := default "" (epp_Name port) in
  match kubeSvc with
  | Some svc =>
      match List.find (fun p =>
              ((sp_Port p =? num) || (kube_target_port pod p =? num))
              && (String.eqb name "" || (String.eqb name "" || String.eqb (sp_Name p) name))) (ks_Ports svc) with
      | Some p => (target_or_service_port pod p, sp_Name p)
      | None =>
          match List.find (fun p => sp_Port p =? num) (ks_Ports svc) with
          | Some p => (target_or_service_port pod p, sp_Name p)
          | None =>
              (num, if negb (String.eqb name "") then name
                    else match List.find (fun p => sp_Port p =? num) (ks_Ports svc) with
                         | Some p => sp_Name p | None => "" end)
          end
      end
  | None => (num, name)
  end.

(** ** The cache of endpoints *)

Notation slice_cache := (gmap host.Name (gmap string (list DubboEndpoint))).

Definition cache_has (e : slice_cache) (hostname : host.Name) : bool := bool_decide (is_Some (e !! hostname)).

Definition cache_delete (e : slice_cache) (hostname : host.Name) (slice : string) : slice_cache :=
  match e !! hostname with
  | Some m => if decide (delete slice m = ∅) then delete hostname e else <[hostname := delete slice m]> e
  | None => delete hostname e
  end.

Definition cache_update (e : slice_cache) (hostname : host.Name) (slice : string) (endpoints : list DubboEndpoint)
  : slice_cache :=
  let e := if (length endpoints =? 0)%nat then alter (delete slice) hostname e else e in
  let e := match e !! hostname with Some _ => e | None => <[hostname := ∅]> e end in
  alter (fun m => <[slice := endpoints]> m) hostname e.

(** [endpointKey] *)
Definition endpointKey (ep : DubboEndpoint) : string * string := (FirstAddressOrNil (Some ep), Endpoint.ServicePortName ep).

Fixpoint distinct (found : gset (string * string)) (eps : list DubboEndpoint) : list DubboEndpoint :=
  match eps with
  | [] => []
  | ep :: eps => if decide (endpointKey ep ∈ found) then distinct found eps
                 else ep :: distinct ({[endpointKey ep]} ∪ found) eps
  end.

Definition cache_get `{RangeOrder} (e : slice_cache) (hostname : host.Name) : list DubboEndpoint :=
  distinct ∅ (concat (map snd (range (default ∅ (e !! hostname))))).

(** ** The controller *)

(** What runs from the queue: the handlers of the informers, and the slices whose
    pod has arrived. *)
Inductive task : Type :=
  | TService (ev : informed KService)
  | TSlice (ev : informed EndpointSlice)
  | TPod (ev : informed Pod)
  | TPodArrived (key : types.NamespacedName).

(** Calls of the server, and of the handlers of services. *)
Inductive output : Type :=
  | OXds (u : update)
  | OProxyUpdate (ip : string)
  | ONotify (prev : option Service) (curr : Service) (event : Event).

Record Controller : Type := mkController {
  servicesMap : gmap host.Name Service;
  endpoints : slice_cache;
  pods : PodCache.t;
  queue : list task
}.

Definition NewController : Controller := mkController ∅ ∅ PodCache.newPodCache [].

Definition set_services (c : Controller) m := mkController m (endpoints c) (pods c) (queue c).
Definition set_endpoints (c : Controller) e := mkController (servicesMap c) e (pods c) (queue c).
Definition set_pods (c : Controller) p := mkController (servicesMap c) (endpoints c) p (queue c).
Definition set_queue (c : Controller) q := mkController (servicesMap c) (endpoints c) (pods c) q.

Section controller.
Context `{RangeOrder} (domainSuffix trustDomain clusterID : string).

Definition Services (c : Controller) : list Service :=
  SortStableFunc (cmp_on Service.Hostname String.compare) (map snd (range (servicesMap c))).
Definition GetService (c : Controller) (hostname : host.Name) : option Service := servicesMap c !! hostname.

Definition hostNamesForNamespacedName (name : types.NamespacedName) : list host.Name :=
  [ServiceHostname (snd name) (fst name) domainSuffix].

(** *** Pods of endpoints *)

Definition is_pod (targetRef : option ObjectReference) : bool :=
  match targetRef with Some ref => String.eqb (ref_Kind ref) PodKind | None => false end.

Definition getPod (cl : cluster) (pc : PodCache.t) (ip namespace : string) (targetRef : option ObjectReference) : option Pod :=
  match targetRef with
  | Some ref =>
      if is_pod targetRef then cl_Pods cl !! (ref_Namespace ref, ref_Name ref)
      else List.find (fun p => String.eqb (pod_Namespace p) namespace) (PodCache.getPodsByIP (cl_Pods cl) pc ip)
  | None => List.find (fun p => String.eqb (pod_Namespace p) namespace) (PodCache.getPodsByIP (cl_Pods cl) pc ip)
  end.

(** The pod, whether there should be one, and the cache, which is told to resume
    the slice when the pod arrives. *)
Definition getPod_or_wait (cl : cluster) (pc : PodCache.t) (ip : string) (key : types.NamespacedName)
    (targetRef : option ObjectReference) : option Pod * bool * PodCache.t :=
  let pod := getPod cl pc ip (fst key) targetRef in
  if is_pod targetRef then
    (pod, true, match pod with None => PodCache.queueEndpointEventOnPodArrival pc key ip | Some _ => pc end)
  else (pod, false, pc).

(** *** Endpoint slices *)

(** The endpoints of one address: one for each port, or none while its pod is
    missing. *)
Definition address_endpoints (cl : cluster) (svc : option Service) (slice : EndpointSlice) (e : SliceEndpoint)
    (acc : PodCache.t * list DubboEndpoint) (a : string) : PodCache.t * list DubboEndpoint :=
  let '(pc, eps) := acc in
  let '(pod, expectedPod, pc) := getPod_or_wait cl pc a (slice_key slice) (sep_TargetRef e) in
  if match pod with None => expectedPod | Some _ => false end then (pc, eps) else
  let builder := NewEndpointBuilder trustDomain pod in
  let kubeSvc := cl_Services cl !! getServiceNamespacedName slice in
  (pc, eps ++ map (fun port =>
         let '(targetPortNum, portName) := resolve_port kubeSvc pod port in
         buildDubboEndpoint builder a targetPortNum portName None (endpointHealthStatus e)
           (match svc with Some s => SupportsUnhealthyEndpoints (Some s) | None => false end)) (es_Ports slice)).

Definition slice_endpoints (cl : cluster) (svc : option Service) (slice : EndpointSlice) (pc : PodCache.t)
  : PodCache.t * list DubboEndpoint :=
  fold_left (fun acc e => fold_left (address_endpoints cl svc slice e) (sep_Addresses e) acc)
    (es_Endpoints slice) (pc, []).

Definition updateEndpointCacheForSlice (cl : cluster) (c : Controller) (hostName : host.Name) (slice : EndpointSlice)
  : Controller :=
  if String.eqb (es_AddressType slice) AddressTypeFQDN then c else
  if String.eqb (snd (getServiceNamespacedName slice)) "" then c else
  let '(pc, eps) := slice_endpoints cl (GetService c hostName) slice (pods c) in
  set_endpoints (set_pods c pc) (cache_update (endpoints c) hostName (es_Name slice) eps).

Definition updateEndpointSlice (cl : cluster) (c : Controller) (slice : EndpointSlice) : Controller :=
  fold_left (fun c hostname => updateEndpointCacheForSlice cl c hostname slice)
    (hostNamesForNamespacedName (getServiceNamespacedName slice)) c.

Definition deleteEndpointSlice (c : Controller) (slice : EndpointSlice) : Controller :=
  let pc := fold_left (fun pc e => fold_left (fun pc a => PodCache.endpointDeleted pc (slice_key slice) a)
                                     (sep_Addresses e) pc) (es_Endpoints slice) (pods c) in
  set_endpoints (set_pods c pc)
    (fold_left (fun e hostName => if cache_has e hostName then cache_delete e hostName (es_Name slice) else e)
       (hostNamesForNamespacedName (getServiceNamespacedName slice)) (endpoints c)).

Definition pushEDS (c : Controller) (hostnames : list host.Name) (namespace : string) : list output :=
  map (fun hostname => OXds (EDSUpdate hostname namespace (cache_get (endpoints c) hostname))) hostnames.

(** [onEvent] of slices.  A service that needs no push would end it here, and
    [serviceNeedsPush] is true for all; for a headless service the set of
    configurations to update is empty, so that none is sent. *)
Definition slice_onEvent (cl : cluster) (c : Controller) (ep : EndpointSlice) (event : Event) : Controller * list output :=
  if negb (selects (es_Labels ep)) then (c, []) else
  let c := match event with EventDelete => deleteEndpointSlice c ep | _ => updateEndpointSlice cl c ep end in
  let namespacedName := getServiceNamespacedName ep in
  (c, pushEDS c (hostNamesForNamespacedName namespacedName) (fst namespacedName)).

Definition podArrived (cl : cluster) (c : Controller) (key : types.NamespacedName) : Controller * list output :=
  match cl_Slices cl !! key with
  | None => (c, [])
  | Some ep => slice_onEvent cl c ep EventAdd
  end.

(** *** Services *)

Definition deleteService (c : Controller) (svc : Service) : Controller * list output :=
  (set_services c (delete (Service.Hostname svc) (servicesMap c)),
   OXds (ServiceUpdate (Service.Hostname svc) (namespace_of svc) EventDelete)
   :: if negb (GoSet.Contains (Attributes.ExportTo (Service.Attributes svc)) visibility.None)
      then [ONotify None svc EventDelete] else []).

Definition serviceUpdateNeedsPush (prev curr : option KService) (preConv : option Service) (currConv : Service) : bool :=
  let hidden s := GoSet.Contains (Attributes.ExportTo (Service.Attributes s)) visibility.None in
  match preConv with
  | None => negb (hidden currConv)
  | Some pre =>
      if hidden pre && hidden currConv then false else
      if negb (Service_Equals (Some pre) (Some currConv)) then true else
      match prev, curr with
      | Some prev, Some curr =>
          negb (Slices.EqualFunc (ks_Ports prev) (ks_Ports curr)
                  (fun a b => bool_decide (sp_TargetPort a = sp_TargetPort b)))
      | _, _ => false
      end
  end.

Definition addOrUpdateService (c : Controller) (pre curr : option KService) (currConv : Service) (event : Event)
  : Controller * list output :=
  let prevConv := servicesMap c !! Service.Hostname currConv in
  (set_services c (<[Service.Hostname currConv := currConv]> (servicesMap c)),
   OXds (ServiceUpdate (Service.Hostname currConv) (namespace_of currConv) event)
   :: if serviceUpdateNeedsPush pre curr prevConv currConv then [ONotify prevConv currConv event] else []).

Definition onServiceEvent (c : Controller) (pre : option KService) (curr : KService) (event : Event)
  : Controller * list output :=
  let svcConv := ConvertService curr domainSuffix in
  match event with
  | EventDelete => deleteService c svcConv
  | _ => addOrUpdateService c pre (Some curr) svcConv event
  end.

(** *** Pods *)

Definition getPodServices (allServices : list KService) (pod : Pod) : list KService :=
  List.filter (fun service => labels.Match (ks_Selector service) (pod_Labels pod)) allServices.

(** Slices of a service, in the order the informer lists them. *)
Definition service_slices (cl : cluster) (name namespace : string) : list EndpointSlice :=
  List.filter (fun s => String.eqb (es_Namespace s) namespace
                        && bool_decide (nmap_get (es_Labels s) !! LabelServiceName = Some name))
    (map snd (range (cl_Slices cl))).

Definition buildDubboEndpointsWithService (cl : cluster) (c : Controller) (name namespace : string) (hostName : host.Name)
    (updateCache : bool) : Controller * list DubboEndpoint :=
  let slices := service_slices cl name namespace in
  if (length slices =? 0)%nat then (c, []) else
  let c := if updateCache then fold_left (fun c slice => updateEndpointCacheForSlice cl c hostName slice) slices c else c in
  (c, cache_get (endpoints c) hostName).

Definition recompute_one (cl : cluster) (acc : Controller * list output) (svc : KService) : Controller * list output :=
  let '(c, out) := acc in
  let hostname := ServiceHostname (ks_Name svc) (ks_Namespace svc) domainSuffix in
  match servicesMap c !! hostname with
  | None => (c, out)
  | Some conv =>
      let '(c, eps) := buildDubboEndpointsWithService cl c (Attributes.Name (Service.Attributes conv)) (namespace_of conv)
                         (Service.Hostname conv) true in
      (c, out ++ [OXds (EDSUpdate hostname (ks_Namespace svc) eps)])
  end.

Definition recomputeServiceForPod (cl : cluster) (c : Controller) (pod : Pod) : Controller * list output :=
  let allServices := List.filter (fun s => String.eqb (ks_Namespace s) (pod_Namespace pod))
                       (map snd (range (cl_Services cl))) in
  fold_left (recompute_one cl) (getPodServices allServices pod) (c, []).

(** What the cache of pods asks for. *)
Definition pod_call (cl : cluster) (acc : Controller * list output) (k : PodCache.call) : Controller * list output :=
  let '(c, out) := acc in
  match k with
  | PodCache.queueEndpointEvent key => (set_queue c (queue c ++ [TPodArrived key]), out)
  | PodCache.proxyUpdates pod isPodUpdate =>
      let '(c, out') := if isPodUpdate then recomputeServiceForPod cl c pod else (c, []) in
      (c, out ++ OProxyUpdate (pod_PodIP pod) :: out')
  end.

Definition pod_onEvent (cl : cluster) (c : Controller) (ev : informed Pod) : Controller * list output :=
  let '(pc, calls) := PodCache.onEvent (pods c) ev in
  fold_left (pod_call cl) calls (set_pods c pc, []).

(** *** Service targets of a proxy *)

(** A proxy of another cluster; one without metadata panics in Go. *)
Definition isControllerForProxy (proxy : Proxy) : bool :=
  match Proxy.Metadata proxy with
  | Some m => String.eqb (ClusterID m) "" || String.eqb (ClusterID m) clusterID
  | None => true
  end.

Definition set_IPAddresses (p : Proxy) (ips : list string) : Proxy :=
  Proxy.mk (Proxy.LastPushContext p) (Proxy.LastPushTime p) (Proxy.Type_ p) (Proxy.WatchedResources p) (Proxy.ID p)
    (Proxy.DNSDomain p) (Proxy.Metadata p) ips (Proxy.ConfigNamespace p) (Proxy.ServiceTargets p).

(** The pod of a proxy, by its first address or else by its name, which also
    gives the proxy the address. *)
Definition proxy_pod (cl : cluster) (pc : PodCache.t) (proxy : Proxy) : option Pod * Proxy :=
  match Proxy.IPAddresses proxy with
  | ip :: _ => (head (PodCache.getPodsByIP (cl_Pods cl) pc ip), proxy)
  | [] =>
      if negb (String.eqb (Proxy.ID proxy) "") then
        match Split (Proxy.ID proxy) "." with
        | podName :: podNamespace :: _ =>
            match cl_Pods cl !! (podNamespace, podName) with
            | Some pod =>
                (Some pod, if negb (String.eqb (pod_PodIP pod) "") then set_IPAddresses proxy [pod_PodIP pod] else proxy)
            | None => (None, proxy)
            end
        | _ => (None, proxy)
        end
      else (None, proxy)
  end.

Definition visible_to (svc : Service) (proxyNamespace : string) : bool :=
  let exportTo := Attributes.ExportTo (Service.Attributes svc) in
  if GoSet.Contains exportTo visibility.None then false
  else if String.eqb (namespace_of svc) proxyNamespace then true
  else if (nset_len exportTo =? 0)%nat then true
  else negb (String.eqb proxyNamespace "") && GoSet.Contains exportTo proxyNamespace.

Definition selected_by (svc : Service) (proxyNamespace : string) (podLabels : nmap string string) : bool :=
  if String.eqb (namespace_of svc) proxyNamespace && bool_decide (is_Some podLabels) then
    let serviceSelector := Attributes.LabelSelectors (Service.Attributes svc) in
    if (0 <? size (nmap_get serviceSelector))%nat then labels.Match serviceSelector podLabels else true
  else true.

(** The containers are searched for the named port until one of them gives a
    number other than the port's own. *)
Fixpoint named_target (containers : list (list ContainerPort)) (name : string) (port targetPort : Z) : Z :=
  match containers with
  | [] => targetPort
  | ports :: containers =>
      let targetPort := match List.find (fun p => String.eqb (cp_Name p) name) ports with
                        | Some p => cp_ContainerPort p mod two32 | None => targetPort end in
      if negb (targetPort =? port) then targetPort else named_target containers name port targetPort
  end.

Definition target_of (kubeSvc : option KService) (pod : option Pod) (port : Port) : Z :=
  let number := Port.Number port mod two32 in
  match kubeSvc with
  | None => number
  | Some k =>
      match List.find (fun p => String.eqb (sp_Name p) (Port.Name port) && (sp_Port p =? wrap_s32 (Port.Number port)))
              (ks_Ports k) with
      | Some p => match sp_TargetPort p, pod with
                  | IntVal n, _ => n mod two32
                  | StrVal s, Some pod => named_target (pod_Containers pod) s number number
                  | StrVal _, None => number
                  end
      | None => number
      end
  end.

Definition GetProxyServiceTargets (cl : cluster) (c : Controller) (proxy : Proxy) : list ServiceTarget * Proxy :=
  if negb (isControllerForProxy proxy) then ([], proxy) else
  let proxyNamespace := GetProxyConfigNamespace (Some proxy) in
  let proxyNamespace := match Proxy.Metadata proxy with
                        | Some m => if String.eqb proxyNamespace "" then meta_Namespace m else proxyNamespace
                        | None => proxyNamespace end in
  let '(pod, proxy) := proxy_pod cl (pods c) proxy in
  let podLabels := pod ≫= pod_Labels in
  (concat (map (fun '(_, svc) =>
     if visible_to svc proxyNamespace && selected_by svc proxyNamespace podLabels then
       let kubeSvc := cl_Services cl !! (namespace_of svc, Attributes.Name (Service.Attributes svc)) in
       omap (fun port => match port with
                         | Some p => Some (mkServiceTarget (Some svc) (Some p) (target_of kubeSvc pod p))
                         | None => None end) (Service.Ports svc)
     else []) (range (servicesMap c))), proxy).

(** The registry the aggregation sees; synchronised when the queue is, or when
    waiting for it has timed out. *)
Definition registry (cl : cluster) (c : Controller) (initialSyncTimedout queueSynced : bool) : Registry := {|
  reg_Provider := Kubernetes;
  reg_Cluster := clusterID;
  reg_Services := Services c;
  reg_GetService := GetService c;
  reg_GetProxyServiceTargets := GetProxyServiceTargets cl c;
  reg_HasSynced := initialSyncTimedout || queueSynced
|}.

(** *** The queue

    [registerHandlers]: an object that was added or updated is read again when its
    turn comes, and skipped when it is gone; a deletion is handled with the object
    it is about. *)
Definition reread {T} (key : T -> types.NamespacedName) (store : gmap types.NamespacedName T) (ev : informed T)
  : option (informed T) :=
  match ev with
  | Added cur => Added <$> store !! key cur
  | Updated old cur => Updated old <$> store !! key cur
  | Deleted cur => Some (Deleted cur)
  end.

Definition event_kind {T} (ev : informed T) : Event :=
  match ev with Added _ => EventAdd | Updated _ _ => EventUpdate | Deleted _ => EventDelete end.
Definition old_of {T} (ev : informed T) : option T := match ev with Updated old _ => Some old | _ => None end.

Definition service_key (s : KService) : types.NamespacedName := (ks_Namespace s, ks_Name s).

Definition run_task (cl : cluster) (c : Controller) (t : task) : Controller * list output :=
  match t with
  | TService ev => match reread service_key (cl_Services cl) ev with
                   | Some ev => onServiceEvent c (old_of ev) (informed_cur ev) (event_kind ev)
                   | None => (c, [])
                   end
  | TSlice ev => match reread slice_key (cl_Slices cl) ev with
                 | Some ev => slice_onEvent cl c (informed_cur ev) (event_kind ev)
                 | None => (c, [])
                 end
  | TPod ev => match reread pod_key (cl_Pods cl) ev with
               | Some ev => pod_onEvent cl c ev
               | None => (c, [])
               end
  | TPodArrived key => podArrived cl c key
  end.

(** An informer tells of something, or the next task runs. *)
Inductive step : Type :=
  | Inform (t : task)
  | Next (cl : cluster).

Definition exec_step (c : Controller) (s : step) : Controller * list output :=
  match s with
  | Inform t => (set_queue c (queue c ++ [t]), [])
  | Next cl => match queue c with
               | [] => (c, [])
               | t :: q => run_task cl (set_queue c q) t
               end
  end.

End controller.
(** ** Lemmas *)

Section lemmas.
Context `{RangeOrder} (domainSuffix trustDomain clusterID : string).
Implicit Types (c : Controller) (cl : cluster) (slice : EndpointSlice).
Notation host_of slice := (ServiceHostname (snd (getServiceNamespacedName slice)) (es_Namespace slice) domainSuffix).

(** *** The cache of endpoints *)

Lemma elem_of_concat {A} (x : A) ls : x ∈ concat ls <-> exists l, l ∈ ls /\ x ∈ l.
Proof. rewrite list_elem_of_In, in_concat. by setoid_rewrite list_elem_of_In. Qed.

Lemma cache_update_slices (e : slice_cache) (h : host.Name) s eps (h' : host.Name) :
  default ∅ (cache_update e h s eps !! h') =
  if decide (h' = h) then <[s := eps]> (default ∅ (e !! h)) else default ∅ (e !! h').
Proof.
  unfold cache_update. set (e1 := if (length eps =? 0)%nat then alter (delete s) h e else e).
  assert (H1 : forall k : host.Name, e1 !! k = if (length eps =? 0)%nat && bool_decide (k = h) then delete s <$> e !! k else e !! k).
  { intros k. unfold e1. destruct (length eps =? 0)%nat; simpl; [|done].
    case_bool_decide; [subst; by rewrite lookup_alter_eq|by rewrite lookup_alter_ne]. }
  assert (Hh : default ∅ (e1 !! h) = if (length eps =? 0)%nat then delete s (default ∅ (e !! h)) else default ∅ (e !! h)).
  { rewrite H1, bool_decide_true by done. destruct (length eps =? 0)%nat; simpl; [|done].
    destruct (e !! h); simpl; [done|]. by rewrite delete_empty. }
  destruct (decide (h' = h)) as [->|Hne].
  - rewrite lookup_alter_eq. revert Hh. generalize (default ∅ (e !! h)) as m0. intros m0 Hh.
    destruct (e1 !! h) as [m|] eqn:E; [rewrite E|rewrite lookup_insert_eq]; simpl in *; unfold id in Hh; rewrite Hh;
      (destruct (length eps =? 0)%nat; [by rewrite insert_delete_eq|done]).
  - rewrite lookup_alter_ne by done.
    assert (He : e1 !! h' = e !! h') by (by rewrite H1, bool_decide_false, andb_false_r).
    destruct (e1 !! h) eqn:E; [by rewrite He|]. by rewrite lookup_insert_ne, He by done.
Qed.

Lemma cache_delete_slices (e : slice_cache) (h : host.Name) s (h' : host.Name) :
  default ∅ (cache_delete e h s !! h') =
  if decide (h' = h) then delete s (default ∅ (e !! h)) else default ∅ (e !! h').
Proof.
  unfold cache_delete. destruct (e !! h) as [m|] eqn:E; simpl.
  - destruct (decide (h' = h)) as [->|Hne]; destruct (decide (delete s m = ∅)) as [Hd|Hd].
    + by rewrite lookup_delete_eq, Hd.
    + by rewrite lookup_insert_eq.
    + by rewrite lookup_delete_ne.
    + by rewrite lookup_insert_ne.
  - destruct (decide (h' = h)) as [->|Hne]; [by rewrite lookup_delete_eq, delete_empty|by rewrite lookup_delete_ne].
Qed.

Lemma distinct_spec found eps :
  NoDup (map endpointKey (distinct found eps)) /\
  (forall ep, ep ∈ distinct found eps -> ep ∈ eps /\ endpointKey ep ∉ found) /\
  (forall ep, ep ∈ eps -> endpointKey ep ∉ found -> exists ep', ep' ∈ distinct found eps /\ endpointKey ep' = endpointKey ep).
Proof.
  revert found. induction eps as [|e eps IH]; intros found; simpl.
  - split_and!; [constructor|by intros ep ?%elem_of_nil..].
  - destruct (decide (endpointKey e ∈ found)) as [Hf|Hf].
    + destruct (IH found) as (H1 & H2 & H3). split_and!; [done| |].
      * intros ep Hin. destruct (H2 ep Hin). split; [by apply elem_of_cons; right|done].
      * intros ep [->|Hin]%elem_of_cons; [done|by apply H3].
    + destruct (IH ({[endpointKey e]} ∪ found)) as (H1 & H2 & H3).
      setoid_rewrite elem_of_union in H2. setoid_rewrite elem_of_union in H3.
      setoid_rewrite elem_of_singleton in H2. setoid_rewrite elem_of_singleton in H3.
      setoid_rewrite elem_of_cons. split_and!.
      * simpl. apply NoDup_cons. split; [|done]. intros (x & Hx & Hin)%list_elem_of_fmap.
        apply (proj2 (H2 x Hin)). by left.
      * intros ep [->|Hin]; [by split; [left|]|]. destruct (H2 ep Hin) as [? Hn]. split; [by right|].
        intros Hx. apply Hn. by right.
      * intros ep Hin Hn. destruct (decide (endpointKey ep = endpointKey e)) as [He|He]; [by exists e; split; [left|]|].
        destruct Hin as [->|Hin]; [done|]. destruct (H3 ep Hin) as (x & Hx & Hk); [by intros [?|?]|].
        by exists x; split; [right|].
Qed.

(** The endpoints of a host are those of its slices, one for each address and
    port name. *)
Lemma cache_get_spec e (h : host.Name) :
  NoDup (map endpointKey (cache_get e h)) /\
  (forall ep, ep ∈ cache_get e h -> exists s eps, default ∅ (e !! h) !! s = Some eps /\ ep ∈ eps) /\
  (forall s eps ep, default ∅ (e !! h) !! s = Some eps -> ep ∈ eps ->
     exists ep', ep' ∈ cache_get e h /\ endpointKey ep' = endpointKey ep).
Proof.
  unfold cache_get. destruct (distinct_spec ∅ (concat (map snd (range (default ∅ (e !! h)))))) as (H1 & H2 & H3).
  split_and!; [done| |].
  - intros ep Hin. apply H2 in Hin as [Hin _]. apply elem_of_concat in Hin as (eps & Heps & Hep).
    apply list_elem_of_fmap in Heps as ([s eps'] & -> & Hr). apply elem_of_range in Hr. by exists s, eps'.
  - intros s eps ep Hs Hep. apply H3; [|set_solver]. apply elem_of_concat. exists eps. split; [|done].
    apply list_elem_of_fmap. exists (s, eps). split; [done|]. by apply elem_of_range.
Qed.

(** *** Endpoints of a slice *)

(** The addresses of a slice with the endpoint they belong to. *)
Definition slice_addresses slice : list (SliceEndpoint * string) :=
  concat (map (fun e => map (fun a => (e, a)) (sep_Addresses e)) (es_Endpoints slice)).

(** The endpoint refers to a pod the informer does not have. *)
Definition missing cl (e : SliceEndpoint) : bool :=
  match sep_TargetRef e with
  | Some ref => is_pod (Some ref) && bool_decide (cl_Pods cl !! (ref_Namespace ref, ref_Name ref) = None)
  | None => false
  end.

Definition endpoints_at cl (svc : option Service) slice (pc : PodCache.t) (x : SliceEndpoint * string) : list DubboEndpoint :=
  let '(e, a) := x in
  if missing cl e then [] else
  let pod := getPod cl pc a (es_Namespace slice) (sep_TargetRef e) in
  map (fun port =>
    let '(targetPortNum, portName) := resolve_port (cl_Services cl !! getServiceNamespacedName slice) pod port in
    buildDubboEndpoint (NewEndpointBuilder trustDomain pod) a targetPortNum portName None (endpointHealthStatus e)
      (match svc with Some s => SupportsUnhealthyEndpoints (Some s) | None => false end)) (es_Ports slice).

Lemma fold_left_nested {A B C} (f : A -> B -> C -> A) (g : B -> list C) (l : list B) (a : A) :
  fold_left (fun a b => fold_left (fun a x => f a b x) (g b) a) l a
  = fold_left (fun a '(b, x) => f a b x) (concat (map (fun b => map (fun x => (b, x)) (g b)) l)) a.
Proof.
  revert a. induction l as [|b l IH]; intros a; simpl; [done|]. rewrite fold_left_app, IH. f_equal.
  generalize (g b) as xs. intros xs. clear. revert a. induction xs as [|x xs IHx]; intros a; simpl; [done|]. apply IHx.
Qed.

Definition wait_for cl (key : types.NamespacedName) (pc : PodCache.t) (x : SliceEndpoint * string) : PodCache.t :=
  if missing cl (fst x) then PodCache.queueEndpointEventOnPodArrival pc key (snd x) else pc.

Lemma address_endpoints_eq cl svc slice e pc eps a :
  address_endpoints trustDomain cl svc slice e (pc, eps) a
  = (wait_for cl (slice_key slice) pc (e, a), eps ++ endpoints_at cl svc slice pc (e, a)).
Proof.
  unfold address_endpoints, getPod_or_wait, endpoints_at, wait_for, missing, getPod. simpl.
  destruct (sep_TargetRef e) as [ref|]; simpl.
  - destruct (String.eqb (ref_Kind ref) PodKind); simpl.
    + destruct (cl_Pods cl !! _) as [p|] eqn:E; simpl; [done|]. by rewrite app_nil_r.
    + by destruct (List.find _ _).
  - by destruct (List.find _ _).
Qed.

Lemma wait_for_pods cl key pc x : PodCache.podsByIP (wait_for cl key pc x) = PodCache.podsByIP pc.
Proof. unfold wait_for. by destruct (missing cl _). Qed.

Lemma endpoints_at_pods cl svc slice pc pc' x :
  PodCache.podsByIP pc = PodCache.podsByIP pc' -> endpoints_at cl svc slice pc x = endpoints_at cl svc slice pc' x.
Proof.
  intros Hp. destruct x as [e a]. unfold endpoints_at, getPod, PodCache.getPodsByIP, PodCache.getPodKeys. by rewrite Hp.
Qed.

Lemma slice_endpoints_eq cl svc slice pc :
  slice_endpoints trustDomain cl svc slice pc
  = (fold_left (wait_for cl (slice_key slice)) (slice_addresses slice) pc,
     concat (map (endpoints_at cl svc slice pc) (slice_addresses slice))).
Proof.
  unfold slice_endpoints. rewrite (fold_left_nested (fun acc e a => address_endpoints trustDomain cl svc slice e acc a)).
  fold (slice_addresses slice).
  assert (Hg : forall l p eps, PodCache.podsByIP p = PodCache.podsByIP pc ->
    fold_left (fun acc '(e, a) => address_endpoints trustDomain cl svc slice e acc a) l (p, eps)
    = (fold_left (wait_for cl (slice_key slice)) l p, eps ++ concat (map (endpoints_at cl svc slice pc) l))).
  { intros l. induction l as [|[e a] l IH]; intros p eps Hp; [simpl; by rewrite app_nil_r|].
    cbn [fold_left map concat]. rewrite address_endpoints_eq, IH by (by rewrite wait_for_pods).
    by rewrite (endpoints_at_pods cl svc slice p pc) by done; rewrite <-app_assoc. }
  by rewrite Hg.
Qed.

Lemma wait_for_members cl key l pc ip k :
  k ∈ GoSet.members (PodCache.needResync (fold_left (wait_for cl key) l pc)) ip <->
  k ∈ GoSet.members (PodCache.needResync pc) ip \/ (k = key /\ exists e, (e, ip) ∈ l /\ missing cl e = true).
Proof.
  revert pc. induction l as [|[e a] l IH]; intros pc; simpl.
  - split; [by left|]. intros [?|(_ & e & He%elem_of_nil & _)]; done.
  - rewrite IH. unfold wait_for. simpl. setoid_rewrite elem_of_cons.
    destruct (missing cl e) eqn:E; simpl.
    + rewrite GoSet.members_InsertOrNew. case_decide as Hd; [subst ip; rewrite elem_of_union, elem_of_singleton|]; naive_solver.
    + split; [naive_solver|]. intros [?|(-> & e0 & [[= -> ->]|Hin] & Hm)]; [by left|congruence|]. right. eauto.
Qed.

Lemma wait_for_frame cl key l pc :
  PodCache.ipByPods (fold_left (wait_for cl key) l pc) = PodCache.ipByPods pc /\
  PodCache.podsByIP (fold_left (wait_for cl key) l pc) = PodCache.podsByIP pc /\
  (PodCache.ok pc -> PodCache.ok (fold_left (wait_for cl key) l pc)).
Proof.
  revert pc. induction l as [|x l IH]; intros pc; simpl; [done|]. destruct (IH (wait_for cl key pc x)) as (-> & -> & Hok).
  unfold wait_for in *. destruct (missing cl (fst x)); simpl; split_and!; auto with pods.
Qed.

(** *** What handlers do to the waiting slices *)

Definition waits c (key : types.NamespacedName) (ip : string) : Prop := key ∈ GoSet.members (PodCache.needResync (pods c)) ip.

(** The slice waits for the pod of an address, or is about to resume. *)
Definition waiting c (key : types.NamespacedName) (ip : string) : Prop := waits c key ip \/ TPodArrived key ∈ queue c.

(** Handlers that only add to the waiting slices and the queue. *)
Definition grows c c' : Prop :=
  (forall key ip, waits c key ip -> waits c' key ip) /\ (forall t, t ∈ queue c -> t ∈ queue c') /\
  servicesMap c' = servicesMap c /\ (PodCache.ok (pods c) -> PodCache.ok (pods c')).

Lemma grows_refl c : grows c c.
Proof. by split_and!. Qed.
Lemma grows_trans c1 c2 c3 : grows c1 c2 -> grows c2 c3 -> grows c1 c3.
Proof. intros (H1 & H2 & H3 & H7) (H4 & H5 & H6 & H8). split_and!; [auto..|congruence|auto]. Qed.

Lemma grows_fold {A} (f : Controller -> A -> Controller) l c : (forall c x, grows c (f c x)) -> grows c (fold_left f l c).
Proof.
  intros Hf. revert c. induction l as [|x l IH]; intros c; simpl; [apply grows_refl|].
  eapply grows_trans; [apply Hf|apply IH].
Qed.

Lemma updateEndpointCacheForSlice_eq cl c (h : host.Name) slice :
  es_AddressType slice <> AddressTypeFQDN -> snd (getServiceNamespacedName slice) <> "" ->
  updateEndpointCacheForSlice trustDomain cl c h slice
  = mkController (servicesMap c)
      (cache_update (endpoints c) h (es_Name slice)
         (concat (map (endpoints_at cl (servicesMap c !! h) slice (pods c)) (slice_addresses slice))))
      (fold_left (wait_for cl (slice_key slice)) (slice_addresses slice) (pods c)) (queue c).
Proof.
  intros Ha Hn. unfold updateEndpointCacheForSlice. apply String.eqb_neq in Ha, Hn. rewrite Ha, Hn.
  by rewrite slice_endpoints_eq.
Qed.

Lemma updateEndpointCacheForSlice_grows cl c (h : host.Name) slice : grows c (updateEndpointCacheForSlice trustDomain cl c h slice).
Proof.
  destruct (decide (es_AddressType slice = AddressTypeFQDN)) as [E|Ha].
  { unfold updateEndpointCacheForSlice. rewrite E. apply grows_refl. }
  destruct (decide (snd (getServiceNamespacedName slice) = "")) as [E|Hn].
  { unfold updateEndpointCacheForSlice. rewrite E. destruct (String.eqb _ _); apply grows_refl. }
  rewrite updateEndpointCacheForSlice_eq by done. split_and!; [|done|done|].
  - intros key ip Hw. unfold waits. simpl. apply wait_for_members. by left.
  - apply wait_for_frame.
Qed.

Lemma buildDubboEndpointsWithService_grows cl c name ns (h : host.Name) b :
  grows c (fst (buildDubboEndpointsWithService trustDomain cl c name ns h b)).
Proof.
  unfold buildDubboEndpointsWithService. destruct (length _ =? 0)%nat; [apply grows_refl|]. simpl.
  destruct b; [|apply grows_refl]. apply grows_fold. intros c' x. apply updateEndpointCacheForSlice_grows.
Qed.

Lemma recomputeServiceForPod_grows cl c pod : grows c (fst (recomputeServiceForPod domainSuffix trustDomain cl c pod)).
Proof.
  unfold recomputeServiceForPod. set (l := getPodServices (List.filter _ _) pod). clearbody l. generalize (@nil output) as out.
  revert c. induction l as [|s l IH]; intros c out; simpl; [apply grows_refl|].
  destruct (servicesMap c !! _) as [conv|] eqn:E; [|apply IH].
  pose proof (buildDubboEndpointsWithService_grows cl c (Attributes.Name (Service.Attributes conv)) (namespace_of conv)
                (Service.Hostname conv) true) as Hg.
  destruct (buildDubboEndpointsWithService _ _ _ _ _ _ _) as [c' eps]. eapply grows_trans; [exact Hg|apply IH].
Qed.

Lemma pod_calls_grow cl calls c out :
  grows c (fst (fold_left (pod_call domainSuffix trustDomain cl) calls (c, out))) /\
  (forall k, PodCache.queueEndpointEvent k ∈ calls ->
     TPodArrived k ∈ queue (fst (fold_left (pod_call domainSuffix trustDomain cl) calls (c, out)))).
Proof.
  revert c out. induction calls as [|k calls IH]; intros c out; cbn [fold_left].
  - split; [apply grows_refl|]. by intros k ?%elem_of_nil.
  - assert (Hs : exists c' out', pod_call domainSuffix trustDomain cl (c, out) k = (c', out') /\ grows c c' /\
                 forall key, k = PodCache.queueEndpointEvent key -> TPodArrived key ∈ queue c').
    { destruct k as [key|pod b]; simpl.
      - do 2 eexists. split; [reflexivity|]. split.
        + split_and!; [done| |done..]. intros t Ht. simpl. by apply elem_of_app; left.
        + intros key' [= ->]. simpl. apply elem_of_app. right. by apply list_elem_of_singleton.
      - destruct b.
        + pose proof (recomputeServiceForPod_grows cl c pod) as Hg.
          destruct (recomputeServiceForPod _ _ _ _ _) as [c' out']. by do 2 eexists.
        + do 2 eexists. split; [reflexivity|]. split; [apply grows_refl|done]. }
    destruct Hs as (c' & out' & -> & Hg & Hk). destruct (IH c' out') as [Hg' Hk']. split.
    + by eapply grows_trans.
    + intros key [<-|Hin]%elem_of_cons; [|by apply Hk']. destruct Hg' as (_ & Hq & _). apply Hq. by apply Hk.
Qed.

(** A handler loses nothing that waits, but for the slice that is deleted and the
    one that resumes. *)
Lemma run_task_waiting cl c t key ip :
  waiting c key ip ->
  (forall s, t = TSlice (Deleted s) -> slice_key s <> key) ->
  waiting (fst (run_task domainSuffix trustDomain cl c t)) key ip.
Proof.
  intros Hw Ht. assert (Hgrow : forall c', grows c c' -> waiting c' key ip).
  { intros c' (H1 & H2 & _). destruct Hw; [left|right]; auto. }
  assert (Hs : forall ep ev, ev <> EventDelete -> waiting (fst (slice_onEvent domainSuffix trustDomain cl c ep ev)) key ip).
  { intros ep ev He. unfold slice_onEvent. destruct (negb _); [done|]. simpl. apply Hgrow.
    destruct ev; [| |done]; simpl; apply updateEndpointCacheForSlice_grows. }
  destruct t as [ev|ev|ev|k]; simpl.
  - destruct (reread _ _ ev) as [e|]; [|done]. simpl. unfold onServiceEvent. by destruct (event_kind e).
  - destruct ev as [s|old s|s]; simpl; [destruct (cl_Slices cl !! _); [|done]; by apply Hs..|].
    specialize (Ht s eq_refl). unfold slice_onEvent. destruct (negb _); [done|]. simpl.
    destruct Hw as [Hw|Hw]; [left|by right]. unfold waits, deleteEndpointSlice in *. simpl.
    rewrite (fold_left_nested (fun pc _ a => PodCache.endpointDeleted pc (slice_key s) a) sep_Addresses).
    revert Hw. generalize (pods c) as pc. generalize (concat (map (fun b => map (fun x => (b, x)) (sep_Addresses b)) (es_Endpoints s))) as l.
    clear -Ht. intros l. induction l as [|[e a] l IH]; intros pc Hw; simpl; [done|]. apply IH. simpl.
    rewrite GoSet.members_DeleteCleanupLast. case_decide; [|done]. apply elem_of_difference. split; [done|].
    rewrite elem_of_singleton. congruence.
  - destruct (reread _ _ ev) as [e|]; [|done]. unfold pod_onEvent.
    pose proof (PodCache.onEvent_resync (pods c) e ip key) as Hr. destruct (PodCache.onEvent (pods c) e) as [pc calls].
    destruct (pod_calls_grow cl calls (set_pods c pc) []) as [(G1 & G2 & _) Hq].
    destruct Hw as [Hw|Hw]; [|right; by apply G2]. destruct (Hr Hw) as [Hk|Hk]; [left; by apply G1|right; by apply Hq].
  - unfold podArrived. destruct (cl_Slices cl !! k); [by apply Hs|done].
Qed.

(** The states and tasks of a run. *)
Fixpoint exec c (l : list step) : Controller :=
  match l with [] => c | s :: l => exec (fst (exec_step domainSuffix trustDomain c s)) l end.
Fixpoint trace c (l : list step) : list (cluster * Controller * task) :=
  match l with
  | [] => []
  | s :: l =>
      match s, queue c with Next cl, t :: q => [(cl, set_queue c q, t)] | _, _ => [] end
      ++ trace (fst (exec_step domainSuffix trustDomain c s)) l
  end.

(** Services are filed under their host name, and the cache of pods is
    consistent. *)
Record ok c : Prop := {
  kube_hosts h svc : servicesMap c !! h = Some svc -> Service.Hostname svc = h;
  kube_pods : PodCache.ok (pods c)
}.

Lemma ok_grows c c' : ok c -> grows c c' -> ok c'.
Proof. intros [H1 H2] (_ & _ & H3 & H4). split; [by rewrite H3|auto]. Qed.

Lemma ok_slice_onEvent cl c ep ev : ok c -> ok (fst (slice_onEvent domainSuffix trustDomain cl c ep ev)).
Proof.
  intros Hc. unfold slice_onEvent. destruct (negb _); [done|]. simpl.
  assert (Hu : ok (updateEndpointSlice domainSuffix trustDomain cl c ep)).
  { eapply ok_grows; [done|]. apply updateEndpointCacheForSlice_grows. }
  destruct ev; [done|done|]. destruct Hc as [H1 H2]. split; [done|]. unfold deleteEndpointSlice. simpl.
  rewrite (fold_left_nested (fun pc _ a => PodCache.endpointDeleted pc (slice_key ep) a) sep_Addresses).
  revert H2. generalize (pods c) as pc. generalize (concat (map (fun b => map (fun x => (b, x)) (sep_Addresses b)) (es_Endpoints ep))) as l.
  clear. intros l. induction l as [|[e a] l IH]; intros pc Hp; simpl; [done|]. apply IH. auto with pods.
Qed.

Lemma ok_run_task cl c t : ok c -> ok (fst (run_task domainSuffix trustDomain cl c t)).
Proof.
  intros Hc. destruct t as [ev|ev|ev|k]; simpl.
  - destruct (reread _ _ ev) as [e|]; [|done]. destruct Hc as [H1 H2].
    unfold onServiceEvent. destruct (event_kind e); split; simpl; try done; intros h svc.
    1,2: rewrite lookup_insert_Some; naive_solver.
    rewrite lookup_delete_Some. naive_solver.
  - destruct (reread _ _ ev); [by apply ok_slice_onEvent|done].
  - destruct (reread _ _ ev) as [e|]; [|done]. unfold pod_onEvent.
    destruct (PodCache.onEvent (pods c) e) as [pc calls] eqn:E.
    eapply ok_grows; [|apply pod_calls_grow]. destruct Hc as [H1 H2]. split; [done|]. simpl.
    change pc with (fst (pc, calls)). rewrite <-E. by apply PodCache.ok_onEvent.
  - unfold podArrived. destruct (cl_Slices cl !! k); [by apply ok_slice_onEvent|done].
Qed.

Lemma ok_exec c l : ok c -> ok (exec c l).
Proof.
  revert c. induction l as [|s l IH]; intros c Hc; simpl; [done|]. apply IH.
  destruct s as [t|cl]; simpl; [by destruct Hc; split|]. destruct (queue c) as [|t q]; [done|].
  apply ok_run_task. by destruct Hc; split.
Qed.

Lemma ok_NewController : ok NewController.
Proof. split; simpl; [intros h svc; by rewrite lookup_empty|apply PodCache.ok_new]. Qed.

Lemma registry_lawful cl c b b' : ok c -> LawfulRegistry (registry clusterID cl c b b').
Proof. intros [Hc _]. destruct (listed_services (servicesMap c) Hc). by split. Qed.

(** Every endpoint of an address is named after it, and there is one for each
    port. *)
Lemma endpoints_at_spec cl svc slice pc e a :
  missing cl e = false ->
  let eps := endpoints_at cl svc slice pc (e, a) in
  length eps = length (es_Ports slice) /\
  Forall (fun ep => FirstAddressOrNil (Some ep) = a /\ Endpoint.HealthStatus ep = endpointHealthStatus e /\
                    0 <= Endpoint.EndpointPort ep < two32) eps.
Proof.
  intros Hm. unfold endpoints_at. rewrite Hm. cbv zeta. split; [by rewrite length_map|].
  apply Forall_map, Forall_true. intros port. destruct (resolve_port _ _ port) as [n name]. simpl.
  split_and!; [done|done|..]; apply Z.mod_pos_bound; by unfold two32.
Qed.

(** The endpoints of the slices of a service, the given one as it is now. *)
Definition republished cl c slice : slice_cache :=
  let h := host_of slice in
  cache_update (endpoints c) h (es_Name slice)
    (concat (map (endpoints_at cl (servicesMap c !! h) slice (pods c)) (slice_addresses slice))).

(** Slices of services, whose endpoints are addresses. *)
Definition publishable slice : Prop :=
  selects (es_Labels slice) = true /\ es_AddressType slice <> AddressTypeFQDN /\ snd (getServiceNamespacedName slice) <> "".

Lemma slice_onEvent_eq cl c slice ev :
  publishable slice -> ev <> EventDelete ->
  slice_onEvent domainSuffix trustDomain cl c slice ev
  = (mkController (servicesMap c) (republished cl c slice)
       (fold_left (wait_for cl (slice_key slice)) (slice_addresses slice) (pods c)) (queue c),
     [OXds (EDSUpdate (host_of slice) (es_Namespace slice) (cache_get (republished cl c slice) (host_of slice)))]).
Proof.
  intros (Hs & Ha & Hn) He. unfold slice_onEvent. rewrite Hs. cbn [negb].
  replace (match ev with EventDelete => _ | _ => _ end) with (updateEndpointSlice domainSuffix trustDomain cl c slice)
    by (by destruct ev).
  unfold updateEndpointSlice. cbn [fold_left hostNamesForNamespacedName fst].
  rewrite updateEndpointCacheForSlice_eq by done. done.
Qed.

(** An endpoint of an address of the slice, for every port. *)
Definition reaches slice (eps : list DubboEndpoint) (a : string) : Prop :=
  exists mine, length mine = length (es_Ports slice) /\ Forall (fun ep => FirstAddressOrNil (Some ep) = a) mine /\
    forall ep, ep ∈ mine -> exists ep', ep' ∈ eps /\ endpointKey ep' = endpointKey ep.

Lemma republished_reaches cl c slice e a :
  (e, a) ∈ slice_addresses slice -> missing cl e = false ->
  reaches slice (cache_get (republished cl c slice) (host_of slice)) a.
Proof.
  intros Hin E. set (h := host_of slice).
  destruct (endpoints_at_spec cl (servicesMap c !! h) slice (pods c) e a E) as [Hl Hf].
  exists (endpoints_at cl (servicesMap c !! h) slice (pods c) (e, a)). split; [done|]. split.
  { eapply Forall_impl; [exact Hf|]. by intros ep [? _]. }
  intros ep Hep. destruct (cache_get_spec (republished cl c slice) h) as (_ & _ & H3). eapply H3.
  - unfold republished. fold h. rewrite cache_update_slices, decide_True by done. apply lookup_insert_eq.
  - apply elem_of_concat. eexists. split; [|exact Hep].
    by apply (list_elem_of_fmap_2 (endpoints_at cl (servicesMap c !! h) slice (pods c))).
Qed.

(** ** Theorems *)

(** A slice that is added or updated becomes the endpoints of its service,
    at once and in one update: the endpoints sent are those of all slices of the
    service, one for each address and port name; each address of the slice is
    among them with every port, unless it belongs to a pod that is not known yet,
    and then the slice waits for that address.  Other services are not touched. *)
Theorem slice_event_publishes cl c slice ev :
  publishable slice -> ev <> EventDelete ->
  let h := host_of slice in
  let '(c', out) := slice_onEvent domainSuffix trustDomain cl c slice ev in
  exists eps, out = [OXds (EDSUpdate h (es_Namespace slice) eps)] /\
    NoDup (map endpointKey eps) /\
    (forall e a, (e, a) ∈ slice_addresses slice ->
       if missing cl e then waits c' (slice_key slice) a else reaches slice eps a) /\
    (forall ep, ep ∈ eps -> exists s l, default ∅ (endpoints c' !! h) !! s = Some l /\ ep ∈ l) /\
    (forall h', h' <> h -> default ∅ (endpoints c' !! h') = default ∅ (endpoints c !! h')).
Proof.
  intros Hp He. cbv zeta. rewrite slice_onEvent_eq by done. eexists. split; [reflexivity|].
  destruct (cache_get_spec (republished cl c slice) (host_of slice)) as (H1 & H2 & _). split_and!; [done| |exact H2|].
  - intros e a Hin. destruct (missing cl e) eqn:E; [|by eapply republished_reaches].
    apply wait_for_members. right. split; [done|]. by exists e.
  - intros h' Hh. simpl. unfold republished. by rewrite cache_update_slices, decide_False.
Qed.

(** A pod that arrives completes the slices that wait for it: the event of
    a ready pod that was not known at its address queues every slice that waits for
    the address, and when such a slice resumes, with pod and slice still there, the
    update it sends has the address with every port. *)
Theorem pod_arrival_publishes cl c pod slice :
  PodCache.ok (pods c) -> cl_Pods cl !! pod_key pod = Some pod ->
  shouldPodBeInEndpoints pod && IsPodReady pod = true -> pod_PodIP pod <> "" ->
  PodCache.ipByPods (pods c) !! pod_key pod <> Some (pod_PodIP pod) ->
  waits c (slice_key slice) (pod_PodIP pod) ->
  TPodArrived (slice_key slice) ∈ queue (fst (run_task domainSuffix trustDomain cl c (TPod (Added pod)))) /\
  forall cl' c' e,
    publishable slice -> cl_Slices cl' !! slice_key slice = Some slice -> is_Some (cl_Pods cl' !! pod_key pod) ->
    (e, pod_PodIP pod) ∈ slice_addresses slice -> sep_TargetRef e = Some (mkRef PodKind (pod_Namespace pod) (pod_Name pod)) ->
    exists eps, snd (run_task domainSuffix trustDomain cl' c' (TPodArrived (slice_key slice)))
                = [OXds (EDSUpdate (host_of slice) (es_Namespace slice) eps)] /\ reaches slice eps (pod_PodIP pod).
Proof.
  intros Hok Hpod Hready Hip Hnew Hw. split.
  - cbn [run_task reread]. rewrite Hpod. cbn [fmap option_fmap option_map]. unfold pod_onEvent.
    destruct (PodCache.onEvent (pods c) (Added pod)) as [pc calls] eqn:E.
    destruct (pod_calls_grow cl calls (set_pods c pc) []) as [_ Hq]. apply Hq.
    unfold PodCache.onEvent, PodCache.event_ip in E. cbn [informed_cur] in E.
    assert (Hl : (String.length (pod_PodIP pod) =? 0)%nat = false) by (by destruct (pod_PodIP pod)).
    rewrite !Hl, Hready in E. unfold PodCache.addPod in E.
    destruct (GoSet.Contains _ (pod_key pod)) eqn:Ec.
    { apply PodCache.Contains_members, (PodCache.ok_inverse _ Hok) in Ec. congruence. }
    unfold waits, GoSet.members in Hw. destruct (PodCache.needResync (pods c) !! pod_PodIP pod) as [s|] eqn:En.
    + injection E as _ <-. apply elem_of_app. left. apply list_elem_of_fmap_2. by apply elem_of_elements.
    + by apply not_elem_of_empty in Hw.
  - intros cl' c' e Hp Hs [p Hpo] Hin Hr. cbn [run_task]. unfold podArrived. rewrite Hs, slice_onEvent_eq by done.
    eexists. split; [reflexivity|]. eapply republished_reaches; [done|]. unfold missing. rewrite Hr. simpl.
    apply bool_decide_eq_false. by rewrite (Hpo : cl_Pods cl' !! (pod_Namespace pod, pod_Name pod) = Some p).
Qed.

(** C29 A slice that waits for a pod is not forgotten: whatever is told by the
    informers and run from the queue, it goes on waiting, or is in the queue to
    resume, until it resumes or is deleted. *)
Theorem waiting_slice_not_lost c steps key ip :
  waiting c key ip ->
  (forall cl c0 s, (cl, c0, TSlice (Deleted s)) ∈ trace c steps -> slice_key s <> key) ->
  waiting (exec c steps) key ip \/ exists cl c0, (cl, c0, TPodArrived key) ∈ trace c steps.
Proof.
  revert c. induction steps as [|s l IH]; intros c Hw Hd; simpl; [by left|]. simpl in Hd.
  destruct s as [t|cl].
  - apply IH; [|exact Hd]. destruct Hw as [Hw|Hw]; [by left|]. right. simpl. by apply elem_of_app; left.
  - simpl in *. destruct (queue c) as [|t q] eqn:Eq; [by apply IH|].
    assert (Hdec : t = TPodArrived key \/ t <> TPodArrived key).
    { destruct t as [| | |k]; [by right..|]. destruct (decide (k = key)) as [->|]; [by left|right; congruence]. }
    destruct Hdec as [->|Hne].
    { right. exists cl, (set_queue c q). apply elem_of_app. left. by apply list_elem_of_singleton. }
    assert (Hw' : waiting (fst (run_task domainSuffix trustDomain cl (set_queue c q) t)) key ip).
    { apply run_task_waiting.
      - destruct Hw as [Hw|Hw]; [by left|]. right. rewrite Eq in Hw. by apply elem_of_cons in Hw as [?|?].
      - intros s0 ->. apply (Hd cl (set_queue c q)). apply elem_of_app. left. by apply list_elem_of_singleton. }
    destruct (IH _ Hw') as [Hx|(cl' & c' & Hx)].
    + intros cl' c' s0 Hin. apply (Hd cl' c'). by apply elem_of_app; right.
    + by left.
    + right. exists cl', c'. by apply elem_of_app; right.
Qed.

(** Whatever the informers tell and in whatever order the queue runs it, the
    registry is one the aggregation can combine: it has one service of a host, and
    its two views agree; and its cache of pods is consistent. *)
Theorem kube_registry_lawful steps cl timedout synced :
  let c := exec NewController steps in
  LawfulRegistry (registry clusterID cl c timedout synced) /\ PodCache.ok (pods c).
Proof.
  intros c. assert (Hok : ok c) by (apply ok_exec, ok_NewController).
  split; [by apply registry_lawful|by apply kube_pods].
Qed.

Lemma target_of_range k pod port : 0 <= target_of k pod port < two32.
Proof.
  assert (Hm : forall z, 0 <= z mod two32 < two32) by (intros z; apply Z.mod_pos_bound; by unfold two32).
  assert (Hn : forall cs name n t, 0 <= t < two32 -> 0 <= named_target cs name n t < two32).
  { intros cs name n. induction cs as [|ports cs IH]; intros t Ht; simpl; [done|].
    assert (0 <= match List.find (fun p => String.eqb (cp_Name p) name) ports with
                 | Some p => cp_ContainerPort p mod two32 | None => t end < two32) by (by destruct (List.find _ _)).
    destruct (negb _); auto. }
  unfold target_of. destruct k; [|done]. destruct (List.find _ _) as [p|]; [|done].
  destruct (sp_TargetPort p), pod; auto.
Qed.

(** The service targets of a proxy are ports of the registry's services, with
    target ports of 32 bits; a service that is not exported is never among them,
    and one of the proxy's own namespace that has a selector is only when the
    selector matches the labels of the proxy's pod, when the pod is known and
    labelled. *)
Theorem proxy_targets_selected cl c proxy t :
  t ∈ fst (GetProxyServiceTargets clusterID cl c proxy) ->
  let ns := match Proxy.Metadata proxy with
            | Some m => if String.eqb (GetProxyConfigNamespace (Some proxy)) "" then meta_Namespace m
                        else GetProxyConfigNamespace (Some proxy)
            | None => GetProxyConfigNamespace (Some proxy) end in
  exists h svc port, servicesMap c !! h = Some svc /\ Some port ∈ Service.Ports svc /\
    st_Service t = Some svc /\ st_ServicePort t = Some port /\ 0 <= st_TargetPort t < two32 /\
    GoSet.Contains (Attributes.ExportTo (Service.Attributes svc)) visibility.None = false /\
    (namespace_of svc = ns -> forall pod podLabels, fst (proxy_pod cl (pods c) proxy) = Some pod ->
     pod_Labels pod = Some podLabels -> nmap_get (Attributes.LabelSelectors (Service.Attributes svc)) <> ∅ ->
     labels.Match (Attributes.LabelSelectors (Service.Attributes svc)) (Some podLabels) = true).
Proof.
  intros Ht ns. unfold GetProxyServiceTargets in Ht. destruct (negb _); [by apply elem_of_nil in Ht|]. fold ns in Ht.
  destruct (proxy_pod cl (pods c) proxy) as [pod proxy']. cbn [fst] in *.
  apply elem_of_concat in Ht as (l & Hl & Ht). apply list_elem_of_fmap in Hl as ([h svc] & -> & Hin).
  apply elem_of_range in Hin. destruct (visible_to svc ns) eqn:Ev; [|by apply elem_of_nil in Ht].
  destruct (selected_by svc ns _) eqn:Es; [|by apply elem_of_nil in Ht]. simpl in Ht.
  apply list_elem_of_omap in Ht as ([port|] & Hp & [= <-]). exists h, svc, port. cbn [st_Service st_ServicePort st_TargetPort].
  split_and!; try done; [apply target_of_range..| |].
  - unfold visible_to in Ev. by destruct (GoSet.Contains _ visibility.None).
  - intros Hns p pl -> Hpl Hne. unfold selected_by in Es. simpl in Es. rewrite Hpl in Es.
    rewrite Hns, String.eqb_refl in Es. simpl in Es.
    destruct (0 <? size _)%nat eqn:E; [done|]. exfalso. apply Hne, map_size_empty_inv. apply Nat.ltb_ge in E. lia.
Qed.

End lemmas.

(** *** Witnesses *)

Definition sample_slice : EndpointSlice :=
  mkSlice "demo-x" "a" (Some {[LabelServiceName := "demo"]}) "IPv4"
    [mkSliceEndpoint ["10.0.0.1"] (Some true) None (Some (mkRef PodKind "a" "p"))] [mkEndpointPort (Some "grpc") (Some 8080)].
Definition no_pods : cluster := mkCluster {[("a", "demo") := sample_kservice]} ∅ {[("a", "demo-x") := sample_slice]}.
Definition with_pod : cluster :=
  mkCluster {[("a", "demo") := sample_kservice]} {[("a", "p") := sample_pod "10.0.0.1" "True"]}
    {[("a", "demo-x") := sample_slice]}.
Notation run := (@exec key_order "cluster.local" "cluster.local").

(** The slice comes before its pod. *)
Definition slice_first : Controller :=
  run NewController [Inform (TService (Added sample_kservice)); Inform (TSlice (Added sample_slice)); Next no_pods; Next no_pods].

Lemma sample_slice_publishable : publishable sample_slice.
Proof. by vm_compute. Qed.

Lemma slice_event_publishes_witness :
  snd (@slice_onEvent key_order "cluster.local" "cluster.local" no_pods NewController sample_slice EventAdd)
  = [OXds (EDSUpdate "demo.a.svc.cluster.local" "a" [])] /\
  exists eps, snd (@slice_onEvent key_order "cluster.local" "cluster.local" with_pod NewController sample_slice EventAdd)
              = [OXds (EDSUpdate "demo.a.svc.cluster.local" "a" eps)] /\ reaches sample_slice eps "10.0.0.1".
Proof.
  split; [vm_compute; reflexivity|].
  pose proof (@slice_event_publishes key_order "cluster.local" "cluster.local" with_pod NewController sample_slice EventAdd
    sample_slice_publishable ltac:(discriminate)) as Hp.
  destruct (slice_onEvent _ _ _ _ _ _) as [c' out]. destruct Hp as (eps & -> & _ & Hr & _). exists eps. split; [reflexivity|].
  apply (Hr (mkSliceEndpoint ["10.0.0.1"] (Some true) None (Some (mkRef PodKind "a" "p"))) "10.0.0.1").
  apply list_elem_of_singleton. reflexivity.
Defined.

Lemma pod_arrival_publishes_witness :
  TPodArrived ("a", "demo-x")
  ∈ queue (fst (@run_task key_order "cluster.local" "cluster.local" with_pod slice_first
                  (TPod (Added (sample_pod "10.0.0.1" "True"))))).
Proof.
  assert (Hok : ok slice_first) by (apply ok_exec, ok_NewController).
  apply (pod_arrival_publishes "cluster.local" "cluster.local" with_pod slice_first (sample_pod "10.0.0.1" "True") sample_slice).
  - by apply kube_pods.
  - reflexivity.
  - reflexivity.
  - discriminate.
  - vm_compute. discriminate.
  - unfold waits. apply (bool_decide_eq_true_1 _). vm_compute. reflexivity.
Defined.

(** Other tasks in between do not make the slice forgotten. *)
Lemma waiting_slice_not_lost_witness :
  let steps := [Inform (TPod (Added (sample_pod "10.0.0.1" "True"))); Next with_pod; Inform (TService (Deleted sample_kservice))] in
  waiting (run slice_first steps) ("a", "demo-x") "10.0.0.1" \/
  exists cl c0, (cl, c0, TPodArrived ("a", "demo-x")) ∈ @trace key_order "cluster.local" "cluster.local" slice_first steps.
Proof.
  intros steps. apply waiting_slice_not_lost.
  - left. unfold waits. apply (bool_decide_eq_true_1 _). vm_compute. reflexivity.
  - intros cl c0 s Hin. exfalso. apply elem_of_cons in Hin as [Hin|Hin]; [discriminate|]. by apply elem_of_nil in Hin.
Defined.

(** A service of another namespace is a target of the proxy although its selector
    does not match the labels of the proxy's pod. *)
Definition foreign_service : KService :=
  mkKService "other" "b" None "7" "ClusterIP" "" "10.96.0.2" [] [mkServicePort "grpc" 90 (IntVal 9090)]
    (Some {["app" := "other"]}) false.
Definition foreign_proxy : Proxy :=
  Proxy.mk None time_zero Inherent None "p.a" "a.svc.cluster.local" (Some (mkMeta "grpc" "" "a")) ["10.0.0.1"] "a" [].
Definition foreign_registry : Controller :=
  run NewController [Inform (TPod (Added (sample_pod "10.0.0.1" "True"))); Inform (TService (Added foreign_service)); Next with_pod;
                     Next (mkCluster {[("b", "other") := foreign_service]} (cl_Pods with_pod) ∅)].

Lemma foreign_service_is_target :
  map (fun t => (Service.Hostname <$> st_Service t, st_TargetPort t))
    (fst (@GetProxyServiceTargets key_order "" (mkCluster {[("b", "other") := foreign_service]} (cl_Pods with_pod) ∅)
            foreign_registry foreign_proxy)) = [(Some "other.b.svc.cluster.local", 9090)] /\
  labels.Match (ks_Selector foreign_service) (pod_Labels (sample_pod "10.0.0.1" "True")) = false.
Proof. vm_compute. done. Qed.

Lemma proxy_targets_selected_witness :
  exists svc, servicesMap foreign_registry !! "other.b.svc.cluster.local" = Some svc /\
    GoSet.Contains (Attributes.ExportTo (Service.Attributes svc)) visibility.None = false.
Proof.
  set (cl := mkCluster {[("b", "other") := foreign_service]} (cl_Pods with_pod) ∅).
  destruct (fst (@GetProxyServiceTargets key_order "" cl foreign_registry foreign_proxy)) as [|t l] eqn:E; [vm_compute in E; discriminate|].
  destruct (@proxy_targets_selected key_order "" cl foreign_registry foreign_proxy t) as (h & svc & port & Hs & _ & Ht & _ & _ & Hx & _).
  - rewrite E. apply elem_of_cons. by left.
  - exists svc. split; [|exact Hx]. apply (f_equal head) in E. vm_compute in E. injection E as <-. cbn [st_Service] in Ht.
    injection Ht as <-. vm_compute. reflexivity.
Defined.

End kube.
