(* ===== verification/Krt.v ===== *)
(** * Reactive collections: events, filters and dependencies

    [pkg/kube/krt]: [core.go], [filter.go], [fetch.go], [index.go] and the
    [dependencyState] of [collection.go].  A derived collection remembers, for
    every input, which objects of other collections it fetched; a reverse index
    from keys to inputs finds the inputs an event concerns without a look at all
    of them.

    The order of a listed collection is not specified, so that what is fetched is
    a finite map from keys to objects. *)

From S2P Require Import Prelude GoStrings GoSets GoSlices Hosts GoNet.

(** ** Events *)

(** [controllers.EventType] *)
Inductive EventType : Type := EvAdd | EvUpdate | EvDelete.
#[global] Instance EventType_eq_dec : EqDecision EventType.
Proof. solve_decision. Defined.

Module Ev.
Record t (T : Type) : Type := mk { Old : option T; New : option T; Event : EventType }.
Arguments mk {T} Old New Event.
Arguments Old {T} _.
Arguments New {T} _.
Arguments Event {T} _.
End Ev.
Notation Event T := (Ev.t T).

Definition Items {T} (e : Event T) : list T :=
  match Ev.Old e with Some o => [o] | None => [] end ++ match Ev.New e with Some n => [n] | None => [] end.

(** The new object, or the old one; an event without both panics in Go. *)
Definition Latest {T} (e : Event T) : option T :=
  match Ev.New e with Some n => Some n | None => Ev.Old e end.

Definition toEvent {T} (old now : option T) : Event T :=
  match old, now with
  | None, _ => Ev.mk None now EvAdd
  | _, None => Ev.mk old None EvDelete
  | _, _ => Ev.mk old now EvUpdate
  end.

(** ** Objects

    What the framework asks of an object, by type assertion and reflection: its
    key, labels, namespace and selector. *)
Class Object (V : Type) : Type := {
  GetKey : V -> string;
  getLabels : V -> nmap string string;
  getNamespace : V -> string;
  getLabelSelector : V -> nmap string string
}.

Definition keyFunc (name namespace : string) : string :=
  if (String.length namespace =? 0)%nat then name else namespace +:+ "/" +:+ name.

Definition Named_ResourceName (name namespace : string) : string := namespace +:+ "/" +:+ name.

Definition collectionUID : Type := Z.

(** [smallset.Set]: nil, or the items without duplicates.  A nil list of items
    gives nil. *)
Definition smallset : Type := option (list string).
Definition smallset_New (items : smallset) : smallset := (fun l => GoSet.UnsortedList (GoSet.New l)) <$> items.
Definition smallset_List (s : smallset) : list string := default [] s.
Definition smallset_Contains (s : smallset) (item : string) : bool := bool_decide (item ∈ smallset_List s).

(** ** Filters *)

Section filters.
Context {V : Type} `{Object V}.

(** An index is known by its identifier, under which its extraction function is
    registered; an index filter asks for one of its keys. *)
Record indexFilter : Type := mkIndexFilter { if_filterUID : collectionUID; if_key : string }.

Record filter : Type := mkFilter {
  f_keys : smallset;
  f_namespace : option string;
  f_selectsNonEmpty : nmap string string;
  f_selects : nmap string string;
  f_labels : nmap string string;
  f_generic : option (V -> bool);
  f_index : option indexFilter
}.
Definition no_filter : filter := mkFilter None None None None None None None.

Context (extract : collectionUID -> V -> list string).

Inductive indexedDependencyType : Type := unknownIndexType | indexType | getKeyType.
#[global] Instance indexedDependencyType_eq_dec : EqDecision indexedDependencyType.
Proof. solve_decision. Defined.
#[global] Instance indexedDependencyType_countable : Countable indexedDependencyType.
Proof.
  refine (inj_countable' (fun t => match t with unknownIndexType => 0%nat | indexType => 1%nat | getKeyType => 2%nat end)
    (fun n => match n with 0%nat => unknownIndexType | 1%nat => indexType | _ => getKeyType end) _).
  by intros [].
Defined.

(** The keys a filter can be found by, and how: the type, and the identifier of
    the index, zero for the key of an object.  A filter by key and by index panics. *)
Definition reverseIndexKey (f : filter) : res (option (list string * indexedDependencyType * collectionUID)) :=
  if (0 <? length (smallset_List (f_keys f)))%nat then
    match f_index f with
    | Some _ => Panic "cannot filter by index and key"
    | None => Ok (Some (smallset_List (f_keys f), getKeyType, 0))
    end
  else match f_index f with
       | Some ix => Ok (Some ([if_key ix], indexType, if_filterUID ix))
       | None => Ok None
       end.

(** [objectKeyExtractor] *)
Definition extractor (typ : indexedDependencyType) (filterUID : collectionUID) (o : V) : list string :=
  match typ with
  | getKeyType => [GetKey o]
  | indexType => extract filterUID o
  | unknownIndexType => []
  end.

Definition needsPostFilter (f : filter) : bool :=
  bool_decide (is_Some (f_namespace f)) || bool_decide (is_Some (f_selectsNonEmpty f))
  || bool_decide (is_Some (f_selects f)) || bool_decide (is_Some (f_labels f)) || bool_decide (is_Some (f_generic f)).

Definition indexMatches (ix : indexFilter) (o : V) : bool := bool_decide (if_key ix ∈ extract (if_filterUID ix) o).

Definition post_matches (f : filter) (object : V) : bool :=
  if match f_selects f with Some s => negb (labels.SubsetOf (getLabelSelector object) (Some s)) | None => false end
  then false else
  if match f_namespace f with Some ns => negb (String.eqb (getNamespace object) ns) | None => false end then false else
  if match f_selectsNonEmpty f with Some s => negb (labels.Match (getLabelSelector object) (Some s)) | None => false end
  then false else
  if match f_labels f with Some l => negb (labels.SubsetOf (Some l) (getLabels object)) | None => false end then false else
  match f_generic f with Some g => g object | None => true end.

Definition Matches (f : filter) (object : V) (forList : bool) : bool :=
  if negb forList &&
     (match f_keys f with Some _ => negb (smallset_Contains (f_keys f) (GetKey object)) | None => false end
      || match f_index f with Some ix => negb (indexMatches ix object) | None => false end)
  then false
  else post_matches f object.

(** *** Options of a fetch *)

Definition FilterKeys (k : smallset) (f : filter) : filter :=
  mkFilter (smallset_New k) (f_namespace f) (f_selectsNonEmpty f) (f_selects f) (f_labels f) (f_generic f) (f_index f).
Definition FilterKey (k : string) : filter -> filter := FilterKeys (Some [k]).
Definition FilterName (name namespace : string) : filter -> filter := FilterKey (keyFunc name namespace).
Definition FilterNamespace (namespace : string) (f : filter) : filter :=
  mkFilter (f_keys f) (Some namespace) (f_selectsNonEmpty f) (f_selects f) (f_labels f) (f_generic f) (f_index f).
Definition FilterSelects (lbls : nmap string string) (f : filter) : filter :=
  mkFilter (f_keys f) (f_namespace f) (f_selectsNonEmpty f) lbls (f_labels f) (f_generic f) (f_index f).
(** A nil map is made an empty one. *)
Definition FilterSelectsNonEmpty (lbls : nmap string string) (f : filter) : filter :=
  mkFilter (f_keys f) (f_namespace f) (Some (nmap_get lbls)) (f_selects f) (f_labels f) (f_generic f) (f_index f).
Definition FilterLabel (lbls : nmap string string) (f : filter) : filter :=
  mkFilter (f_keys f) (f_namespace f) (f_selectsNonEmpty f) (f_selects f) lbls (f_generic f) (f_index f).
Definition FilterGeneric (g : V -> bool) (f : filter) : filter :=
  mkFilter (f_keys f) (f_namespace f) (f_selectsNonEmpty f) (f_selects f) (f_labels f) (Some g) (f_index f).
Definition FilterIndex (ix : collectionUID) (k : string) (f : filter) : filter :=
  mkFilter (f_keys f) (f_namespace f) (f_selectsNonEmpty f) (f_selects f) (f_labels f) (f_generic f)
    (Some (mkIndexFilter ix k)).

(** ** Fetching *)

(** The objects that can match: by key, from the index, or all of them. *)
Definition candidates (c : gmap string V) (f : filter) : gmap string V :=
  match f_keys f with
  | Some ks => list_to_map (omap (fun k => (fun v => (k, v)) <$> c !! k) ks)
  | None => match f_index f with
            | Some ix => base.filter (fun kv => indexMatches ix (snd kv) = true) c
            | None => c
            end
  end.

Definition fetch (c : gmap string V) (f : filter) : gmap string V :=
  let list := candidates c f in
  if needsPostFilter f then base.filter (fun kv => Matches f (snd kv) true = true) list else list.

(** [dependency] *)
Record dependency : Type := mkDependency { d_id : collectionUID; d_filter : filter }.

(** A transformation, up to its result: what it fetches may depend on what it
    fetched before. *)
Inductive handler (A : Type) : Type :=
  | Return (a : A)
  | Fetch (id : collectionUID) (f : filter) (next : gmap string V -> handler A)
  | DiscardResult (next : handler A).
Arguments Return {A} a.
Arguments Fetch {A} id f next.
Arguments DiscardResult {A} next.

(** The collections that can be fetched from. *)
Definition world : Type := gmap collectionUID (gmap string V).

(** [collectionDependencyTracker]: the result, the dependencies that were
    registered and whether the result is to be discarded. *)
Fixpoint run {A} (w : world) (h : handler A) : A * list dependency * bool :=
  match h with
  | Return a => (a, [], false)
  | Fetch id f next =>
      let '(a, ds, b) := run w (next (fetch (default ∅ (w !! id)) f)) in (a, mkDependency id f :: ds, b)
  | DiscardResult next => let '(a, ds, _) := run w next in (a, ds, true)
  end.

(** ** Dependencies *)

(** [extractorKey] and [indexedDependency], with the kind of key last. *)
Definition extractorKey : Type := collectionUID * collectionUID * indexedDependencyType.
Definition indexedDependency : Type := collectionUID * string * indexedDependencyType.

Record dependencyState : Type := mkDeps {
  collectionDependencies : gset collectionUID;
  objectDependencies : gmap string (list dependency);
  indexedDependencies : gmap indexedDependency (gset string);
  indexedDependenciesExtractor : gset extractorKey
}.
Definition no_dependencies : dependencyState := mkDeps ∅ ∅ ∅ ∅.

Definition set_indexed (i : dependencyState) ix ex : dependencyState :=
  mkDeps (collectionDependencies i) (objectDependencies i) ix ex.

(** The keys a dependency is indexed under. *)
Definition index_dependency (key : string) (i : dependencyState) (d : dependency) : res dependencyState :=
  r ← reverseIndexKey (d_filter d);
  mret match r with
  | Some (depKeys, typ, filterID) =>
      fold_left (fun i depKey =>
        set_indexed i (GoSet.InsertOrNew (indexedDependencies i) (d_id d, depKey, typ) key)
          ({[(filterID, d_id d, typ)]} ∪ indexedDependenciesExtractor i)) depKeys i
  | None => i
  end.

Fixpoint index_dependencies (key : string) (i : dependencyState) (deps : list dependency) : res dependencyState :=
  match deps with
  | [] => Ok i
  | d :: deps => i ← index_dependency key i d; index_dependencies key i deps
  end.

Definition dep_update (i : dependencyState) (key : string) (deps : list dependency) : res dependencyState :=
  index_dependencies key
    (mkDeps (collectionDependencies i) (<[key := deps]> (objectDependencies i)) (indexedDependencies i)
       (indexedDependenciesExtractor i)) deps.

Definition unindex_dependency (key : string) (i : dependencyState) (d : dependency) : dependencyState :=
  match reverseIndexKey (d_filter d) with
  | Ok (Some (depKeys, typ, _)) =>
      fold_left (fun i depKey =>
        set_indexed i (GoSet.DeleteCleanupLast (indexedDependencies i) (d_id d, depKey, typ) key)
          (indexedDependenciesExtractor i)) depKeys i
  | _ => i
  end.

Definition dep_delete (i : dependencyState) (key : string) : dependencyState :=
  match objectDependencies i !! key with
  | None => i
  | Some old =>
      fold_left (unindex_dependency key) old
        (mkDeps (collectionDependencies i) (delete key (objectDependencies i)) (indexedDependencies i)
           (indexedDependenciesExtractor i))
  end.

Definition objectChanged (dependencies : list dependency) (sourceCollection : collectionUID) (ev : Event V)
    (preFiltered : bool) : bool :=
  existsb (fun dep => (d_id dep =? sourceCollection) &&
                      existsb (fun item => Matches (d_filter dep) item preFiltered) (Items ev)) dependencies.

(** The reverse indexes of a collection. *)
Definition extractorKeys (i : dependencyState) (sourceCollection : collectionUID) : list extractorKey :=
  List.filter (fun '(_, uid, typ) => negb (bool_decide (typ = unknownIndexType)) && (uid =? sourceCollection))
    (elements (indexedDependenciesExtractor i)).

(** The inputs an event concerns, through the reverse indexes. *)
Definition indexed_inputs (i : dependencyState) (sourceCollection : collectionUID) (ev : Event V) (ekey : extractorKey)
  : list string :=
  let '(filterUID, _, typ) := ekey in
  List.filter (fun iKey => objectChanged (default [] (objectDependencies i !! iKey)) sourceCollection ev true)
    (concat (map (fun item =>
       concat (map (fun key => elements (default ∅ (indexedDependencies i !! (sourceCollection, key, typ))))
                 (extractor typ filterUID item))) (Items ev))).

Definition event_inputs (i : dependencyState) (sourceCollection : collectionUID) (ev : Event V) : list string :=
  let ks := extractorKeys i sourceCollection in
  if (0 <? length ks)%nat then concat (map (indexed_inputs i sourceCollection ev) ks)
  else map fst (List.filter (fun '(_, deps) => objectChanged deps sourceCollection ev false)
                  (map_to_list (objectDependencies i))).

Definition changedInputKeys (i : dependencyState) (sourceCollection : collectionUID) (events : list (Event V)) : gset string :=
  list_to_set (concat (map (event_inputs i sourceCollection) events)).

End filters.

Arguments filter V : clear implicits.
Arguments dependency V : clear implicits.
Arguments handler V A : clear implicits.
Arguments Return {V A} a.
Arguments Fetch {V A} id f next.
Arguments DiscardResult {V A} next.
Arguments world V : clear implicits.
Arguments dependencyState V : clear implicits.

(** ** Lemmas *)

Section fetch_lemmas.
Context {V : Type} `{Object V} (extract : collectionUID -> V -> list string).
Implicit Types (c : gmap string V) (f : filter V) (w : world V).

(** Objects are filed under their keys. *)
Definition keyed c : Prop := forall k v, c !! k = Some v -> GetKey v = k.

Definition filter_ok f : Prop := is_ok (reverseIndexKey f) = true.

Lemma post_matches_trivial f v : needsPostFilter f = false -> post_matches f v = true.
Proof.
  unfold needsPostFilter, post_matches.
  by destruct (f_namespace f), (f_selectsNonEmpty f), (f_selects f), (f_labels f), (f_generic f).
Qed.

Lemma Matches_forList f v : Matches extract f v true = post_matches f v.
Proof. done. Qed.

Lemma Matches_false f v :
  Matches extract f v false = true <->
  (forall ks, f_keys f = Some ks -> GetKey v ∈ ks) /\ (forall ix, f_index f = Some ix -> indexMatches extract ix v = true) /\
  post_matches f v = true.
Proof.
  unfold Matches, smallset_Contains. simpl. destruct (f_keys f) as [ks|]; simpl.
  - case_bool_decide as Hk; simpl.
    + destruct (f_index f) as [ix|]; simpl; [destruct (indexMatches extract ix v) eqn:E; simpl|]; naive_solver.
    + split; [done|]. intros (Hx & _). exfalso. apply Hk. by apply Hx.
  - destruct (f_index f) as [ix|]; simpl; [destruct (indexMatches extract ix v) eqn:E; simpl|]; naive_solver.
Qed.

Lemma lookup_by_keys c ks k :
  (list_to_map (omap (fun k => (fun v => (k, v)) <$> c !! k) ks) : gmap string V) !! k
  = if decide (k ∈ ks) then c !! k else None.
Proof.
  induction ks as [|k' ks IH]; csimpl; [by rewrite lookup_empty|].
  destruct (c !! k') as [v|] eqn:E; csimpl.
  - rewrite lookup_insert, IH. repeat case_decide; set_solver.
  - rewrite IH. repeat case_decide; set_solver.
Qed.

(** A fetch gives exactly the objects its filter matches. *)
Lemma fetch_spec c f :
  keyed c -> filter_ok f -> fetch extract c f = base.filter (fun kv => Matches extract f (snd kv) false = true) c.
Proof.
  intros Hc Hf. apply map_eq. intros k. apply option_eq. intros v.
  assert (Hl : candidates extract c f !! k = Some v <->
    c !! k = Some v /\ (forall ks, f_keys f = Some ks -> k ∈ ks) /\
    (f_keys f = None -> forall ix, f_index f = Some ix -> indexMatches extract ix v = true)).
  { unfold candidates. destruct (f_keys f) as [ks|] eqn:Ek.
    - rewrite lookup_by_keys. case_decide; naive_solver.
    - destruct (f_index f) as [ix|] eqn:Ei; [rewrite map_lookup_filter_Some|]; naive_solver. }
  assert (Hr : forall ks ix, f_keys f = Some ks -> f_index f = Some ix -> ks = []).
  { intros ks ix E1 E2. unfold filter_ok, reverseIndexKey in Hf. rewrite E1, E2 in Hf. simpl in Hf. by destruct ks. }
  rewrite map_lookup_filter_Some. simpl. rewrite Matches_false. unfold fetch.
  assert (Hp : (if needsPostFilter f then base.filter (fun kv => Matches extract f (snd kv) true = true) (candidates extract c f)
                else candidates extract c f) !! k = Some v <-> candidates extract c f !! k = Some v /\ post_matches f v = true).
  { destruct (needsPostFilter f) eqn:En; [by rewrite map_lookup_filter_Some|].
    rewrite (post_matches_trivial f v En). naive_solver. }
  rewrite Hp, Hl. split.
  - intros ((Hv & Hk & Hi) & Hpm). split_and!; [done|by rewrite (Hc k v Hv)| |done].
    intros ix Hix. destruct (f_keys f) as [ks|] eqn:Ek; [|by apply Hi].
    rewrite (Hr ks ix eq_refl Hix) in Hk. exfalso. by apply (not_elem_of_nil k), Hk.
  - intros (Hv & Hk & Hi & Hpm). rewrite (Hc k v Hv) in Hk. naive_solver.
Qed.

(** A change of a collection: the events tell the old and the new object of every
    key that is not the same. *)
Definition reported (c c' : gmap string V) (events : list (Event V)) : Prop :=
  forall k, c !! k = c' !! k \/ exists ev, ev ∈ events /\ forall v, c !! k = Some v \/ c' !! k = Some v -> v ∈ Items ev.

Lemma fetch_unchanged c c' f events :
  keyed c -> keyed c' -> filter_ok f -> reported c c' events ->
  (forall ev v, ev ∈ events -> v ∈ Items ev -> Matches extract f v false = false) ->
  fetch extract c' f = fetch extract c f.
Proof.
  intros Hc Hc' Hf Hr Hn. rewrite !fetch_spec by done. apply map_eq. intros k. apply option_eq. intros v.
  rewrite !map_lookup_filter_Some. simpl.
  destruct (Hr k) as [->|(ev & Hev & Hi)]; [done|].
  split; intros [Hv Hm]; exfalso; specialize (Hn ev v Hev (Hi v ltac:(naive_solver))); congruence.
Qed.

(** What a transformation does depends on what it fetches only. *)
Lemma run_unchanged {A} w w' (h : handler V A) :
  (forall d, d ∈ (run extract w h).1.2 ->
     fetch extract (default ∅ (w' !! d_id d)) (d_filter d) = fetch extract (default ∅ (w !! d_id d)) (d_filter d)) ->
  run extract w' h = run extract w h.
Proof.
  induction h as [a|id f next IH|next IH]; intros Hd; simpl in *; [done| |].
  - destruct (run extract w (next _)) as [[a ds] b] eqn:E. simpl in Hd.
    pose proof (Hd (mkDependency id f) ltac:(by left)) as Hf. simpl in Hf. rewrite Hf.
    rewrite IH, E; [done|]. intros d Hin. apply Hd. simpl. right. by rewrite E in Hin.
  - destruct (run extract w next) as [[a ds] b] eqn:E. rewrite IH; [done|]. done.
Qed.

(** *** The reverse index *)

(** Collections that are only fetched from by key or index, and those that never
    are. *)
Definition dependency_ok (indexed : collectionUID -> bool) (d : dependency V) : Prop :=
  match reverseIndexKey (d_filter d) with
  | Ok (Some _) => indexed (d_id d) = true
  | Ok None => indexed (d_id d) = false
  | _ => False
  end.

Definition is_indexed (i : dependencyState V) (key : string) (d : dependency V) : Prop :=
  match reverseIndexKey (d_filter d) with
  | Ok (Some (ks, typ, fid)) =>
      (fid, d_id d, typ) ∈ indexedDependenciesExtractor i /\
      forall k, k ∈ ks -> key ∈ GoSet.members (indexedDependencies i) (d_id d, k, typ)
  | _ => True
  end.

Record deps_ok (indexed : collectionUID -> bool) (i : dependencyState V) : Prop := {
  deps_dependency key ds d : objectDependencies i !! key = Some ds -> d ∈ ds -> dependency_ok indexed d;
  deps_indexed key ds d : objectDependencies i !! key = Some ds -> d ∈ ds -> is_indexed i key d;
  deps_extractors fid id typ :
    (fid, id, typ) ∈ indexedDependenciesExtractor i -> indexed id = true /\ typ <> unknownIndexType
}.

(** More is indexed. *)
Definition index_grows (i i' : dependencyState V) : Prop :=
  (forall k, GoSet.members (indexedDependencies i) k ⊆ GoSet.members (indexedDependencies i') k) /\
  indexedDependenciesExtractor i ⊆ indexedDependenciesExtractor i' /\
  objectDependencies i' = objectDependencies i /\ collectionDependencies i' = collectionDependencies i.

#[local] Instance index_grows_preorder : PreOrder index_grows.
Proof.
  split; [by intros i; split_and!|]. intros i1 i2 i3 (H1 & H2 & H3 & H4) (H5 & H6 & H7 & H8).
  split_and!; [intros k; etrans; [apply H1|apply H5]|etrans; [apply H2|apply H6]|congruence|congruence].
Qed.

Lemma is_indexed_grows i i' key d : index_grows i i' -> is_indexed i key d -> is_indexed i' key d.
Proof.
  intros (H1 & H2 & _). unfold is_indexed. destruct (reverseIndexKey _) as [[[[ks typ] fid]|]|?|?]; try done.
  intros [He Hk]. split; [by apply H2|]. intros k Hin. by apply H1, Hk.
Qed.

Lemma index_keys_grows key (d : dependency V) typ fid ks i :
  let i' := fold_left (fun i depKey =>
              set_indexed i (GoSet.InsertOrNew (indexedDependencies i) (d_id d, depKey, typ) key)
                ({[(fid, d_id d, typ)]} ∪ indexedDependenciesExtractor i)) ks i in
  index_grows i i' /\
  (forall k, k ∈ ks -> key ∈ GoSet.members (indexedDependencies i') (d_id d, k, typ)) /\
  (ks <> [] -> (fid, d_id d, typ) ∈ indexedDependenciesExtractor i') /\
  indexedDependenciesExtractor i' ⊆ {[(fid, d_id d, typ)]} ∪ indexedDependenciesExtractor i.
Proof.
  revert i. induction ks as [|k ks IH]; intros i; simpl.
  - split; [reflexivity|]. split_and!; [by intros k ?%elem_of_nil|done|set_solver].
  - set (i1 := set_indexed _ _ _). destruct (IH i1) as (H1 & H2 & _ & H4).
    assert (Hg : index_grows i i1).
    { split_and!; simpl; [|set_solver|done|done]. intros x. rewrite GoSet.members_InsertOrNew. case_decide; set_solver. }
    pose proof H1 as (G1 & G2 & G3 & G4). split; [|split; [|split]].
    + by etrans.
    + intros x [->|Hx]%elem_of_cons; [|by apply H2]. apply G1. simpl. rewrite GoSet.members_InsertOrNew, decide_True by done.
      set_solver.
    + intros _. apply G2. simpl. set_solver.
    + etrans; [exact H4|]. simpl. set_solver.
Qed.

Lemma reverseIndexKey_typ f ks typ fid : reverseIndexKey f = Ok (Some (ks, typ, fid)) -> typ <> unknownIndexType /\ ks <> [].
Proof.
  unfold reverseIndexKey. destruct (0 <? length (smallset_List (f_keys f)))%nat eqn:E; destruct (f_index f); intros [=]; subst; try done.
  split; [done|]. intros Hn. by rewrite Hn in E.
Qed.

Lemma index_dependencies_spec indexed key ds i :
  Forall (dependency_ok indexed) ds ->
  (forall fid id typ, (fid, id, typ) ∈ indexedDependenciesExtractor i -> indexed id = true /\ typ <> unknownIndexType) ->
  exists i', index_dependencies key i ds = Ok i' /\ index_grows i i' /\ Forall (is_indexed i' key) ds /\
    (forall fid id typ, (fid, id, typ) ∈ indexedDependenciesExtractor i' -> indexed id = true /\ typ <> unknownIndexType).
Proof.
  intros Hds. revert i. induction Hds as [|d ds Hd Hds IH]; intros i Hi; simpl; [by exists i|].
  unfold dependency_ok in Hd. unfold index_dependency. destruct (reverseIndexKey (d_filter d)) as [[[[ks typ] fid]|]|?|?] eqn:E; try done.
  - cbn [mbind res_bind mret res_ret]. destruct (index_keys_grows key d typ fid ks i) as (Hg & Hk & Hx & Hs).
    destruct (reverseIndexKey_typ _ _ _ _ E) as [Ht Hne].
    set (i1 := fold_left _ ks i) in *. destruct (IH i1) as (i' & -> & Hg' & Hf & Hx').
    { intros f0 id t Hin. apply Hs, elem_of_union in Hin as [Hin|Hin]; [|by apply (Hi f0)].
      apply elem_of_singleton in Hin. by simplify_eq. }
    exists i'. split; [done|]. split; [by etrans|]. split; [|done]. constructor; [|done].
    apply (is_indexed_grows i1 i'); [done|]. unfold is_indexed. rewrite E. split; [by apply Hx|done].
  - cbn [mbind res_bind mret res_ret]. destruct (IH i Hi) as (i' & -> & Hg' & Hf & Hx').
    exists i'. split; [done|]. split; [done|]. split; [|done]. constructor; [|done]. unfold is_indexed. by rewrite E.
Qed.

Lemma dep_update_ok indexed i key ds :
  deps_ok indexed i -> Forall (dependency_ok indexed) ds ->
  exists i', dep_update i key ds = Ok i' /\ deps_ok indexed i' /\
    objectDependencies i' = <[key := ds]> (objectDependencies i) /\ collectionDependencies i' = collectionDependencies i.
Proof.
  intros [H1 H2 H3] Hds. unfold dep_update. set (i0 := mkDeps _ _ _ _).
  destruct (index_dependencies_spec indexed key ds i0 Hds H3) as (i' & -> & Hg & Hf & Hx).
  pose proof Hg as (_ & _ & Ho & Hc). exists i'. split; [done|]. split; [|done]. split; [| |exact Hx].
  - intros k l d. rewrite Ho. simpl. rewrite lookup_insert_Some. intros [[<- <-]|[_ Hl]] Hd; [by eapply Forall_forall in Hds|by eapply H1].
  - intros k l d. rewrite Ho. simpl. rewrite lookup_insert_Some. intros [[<- <-]|[_ Hl]] Hd; [by eapply Forall_forall in Hf|].
    apply (is_indexed_grows i0 i'); [done|]. exact (H2 k l d Hl Hd).
Qed.

(** Unindexing a key leaves the other keys indexed. *)
Definition index_keeps (key : string) (i i' : dependencyState V) : Prop :=
  (forall k x, x <> key -> x ∈ GoSet.members (indexedDependencies i) k -> x ∈ GoSet.members (indexedDependencies i') k) /\
  indexedDependenciesExtractor i' = indexedDependenciesExtractor i /\
  objectDependencies i' = objectDependencies i /\ collectionDependencies i' = collectionDependencies i.

Lemma index_keeps_trans key i1 i2 i3 : index_keeps key i1 i2 -> index_keeps key i2 i3 -> index_keeps key i1 i3.
Proof. intros (H1 & H2 & H3 & H4) (H5 & H6 & H7 & H8). split_and!; [auto|congruence..]. Qed.

Lemma unindex_keeps key i (d : dependency V) : index_keeps key i (unindex_dependency key i d).
Proof.
  unfold unindex_dependency. destruct (reverseIndexKey _) as [[[[ks typ] fid]|]|?|?]; try by split_and!.
  revert i. induction ks as [|k ks IH]; intros i; simpl; [by split_and!|].
  eapply index_keeps_trans; [|apply IH]. split_and!; try done. intros k' x Hx Hin. simpl.
  rewrite GoSet.members_DeleteCleanupLast. case_decide; set_solver.
Qed.

Lemma dep_delete_ok indexed i key :
  deps_ok indexed i ->
  deps_ok indexed (dep_delete i key) /\ objectDependencies (dep_delete i key) = delete key (objectDependencies i) /\
  collectionDependencies (dep_delete i key) = collectionDependencies i.
Proof.
  intros Hok. unfold dep_delete. destruct (objectDependencies i !! key) as [old|] eqn:E.
  2: { split; [done|]. split; [|done]. by rewrite delete_id. }
  set (i0 := mkDeps _ _ _ _).
  assert (Hk : index_keeps key i0 (fold_left (unindex_dependency key) old i0)).
  { clear E. clearbody i0. revert i0. induction old as [|d old IH]; intros i0; simpl; [by split_and!|].
    eapply index_keeps_trans; [apply unindex_keeps|apply IH]. }
  destruct Hk as (K1 & K2 & K3 & K4). destruct Hok as [H1 H2 H3]. split; [|by rewrite K3, K4].
  split.
  - intros k l d. rewrite K3. simpl. rewrite lookup_delete_Some. intros [_ Hl]. by apply (H1 k).
  - intros k l d. rewrite K3. simpl. rewrite lookup_delete_Some. intros [Hne Hl] Hd. pose proof (H2 k l d Hl Hd) as Hi.
    unfold is_indexed in *. destruct (reverseIndexKey _) as [[[[ks typ] fid]|]|?|?]; try done.
    destruct Hi as [Hx Hi]. split; [by rewrite K2|]. intros k' Hk'. apply K1; [congruence|]. by apply Hi.
  - intros fid id typ. rewrite K2. apply H3.
Qed.

Lemma deps_ok_none indexed : deps_ok indexed (no_dependencies (V := V)).
Proof. split; simpl; [intros *; by rewrite lookup_empty..|set_solver]. Qed.

(** An item that a filter matches is found under one of the filter's keys. *)
Lemma matched_key f v ks typ fid :
  reverseIndexKey f = Ok (Some (ks, typ, fid)) -> Matches extract f v false = true ->
  exists k, k ∈ ks /\ k ∈ extractor extract typ fid v.
Proof.
  unfold reverseIndexKey. rewrite Matches_false. intros E (Hk & Hi & _).
  destruct (f_keys f) as [l|]; simpl in E.
  - destruct (0 <? length l)%nat eqn:El.
    + destruct (f_index f); [done|]. injection E as <- <- <-. exists (GetKey v). simpl. set_solver.
    + destruct l; [|done]. by specialize (Hk [] eq_refl) as ?%not_elem_of_nil.
  - destruct (f_index f) as [ix|]; [|done]. injection E as <- <- <-. exists (if_key ix).
    specialize (Hi ix eq_refl). apply bool_decide_eq_true in Hi. simpl. set_solver.
Qed.

Lemma Matches_weaken f v b : Matches extract f v false = true -> Matches extract f v b = true.
Proof. destruct b; [|done]. intros (_ & _ & Hp)%Matches_false. done. Qed.

(** No input is missed when a collection changes: an input that fetched an
    object the event is about, old or new, is among those to recompute, for
    collections that are either always or never fetched from by key or index. *)
Theorem changed_inputs_complete indexed i s events ev v key ds d :
  deps_ok indexed i -> ev ∈ events -> v ∈ Items ev ->
  objectDependencies i !! key = Some ds -> d ∈ ds -> d_id d = s -> Matches extract (d_filter d) v false = true ->
  key ∈ changedInputKeys extract i s events.
Proof.
  intros [H1 H2 H3] Hev Hv Hds Hd Hid Hm. unfold changedInputKeys. apply elem_of_list_to_set.
  rewrite list_elem_of_In, in_concat. exists (event_inputs extract i s ev).
  split; [by apply in_map, list_elem_of_In|]. apply list_elem_of_In.
  assert (Hch : forall b, objectChanged extract ds s ev b = true).
  { intros b. unfold objectChanged. apply existsb_elem. exists d. split; [done|]. rewrite Hid, Z.eqb_refl. simpl.
    apply existsb_elem. exists v. split; [done|]. by apply Matches_weaken. }
  pose proof (H1 key ds d Hds Hd) as Hdo. unfold dependency_ok in Hdo. pose proof (H2 key ds d Hds Hd) as Hix.
  unfold is_indexed in Hix. unfold event_inputs.
  destruct (reverseIndexKey (d_filter d)) as [[[[ks typ] fid]|]|?|?] eqn:E; try done.
  - destruct Hix as [Hx Hix]. destruct (matched_key _ v _ _ _ E Hm) as (k & Hk & Hk').
    assert (Hin : (fid, s, typ) ∈ extractorKeys i s).
    { unfold extractorKeys. rewrite list_elem_of_In, filter_In. rewrite Hid in Hx. split.
      - apply list_elem_of_In, elem_of_elements. done.
      - destruct (H3 fid s typ Hx) as [_ Ht]. rewrite bool_decide_false by done. by rewrite Z.eqb_refl. }
    assert (Hlen : (0 <? length (extractorKeys i s))%nat = true).
    { apply Nat.ltb_lt. destruct (extractorKeys i s); [by apply elem_of_nil in Hin|simpl; lia]. }
    rewrite Hlen, list_elem_of_In, in_concat. eexists. split; [apply in_map, list_elem_of_In, Hin|].
    unfold indexed_inputs. rewrite filter_In, Hds. split; [|apply Hch].
    rewrite in_concat. eexists. split; [apply in_map, list_elem_of_In, Hv|]. rewrite in_concat.
    eexists. split; [apply in_map, list_elem_of_In, Hk'|]. apply list_elem_of_In, elem_of_elements. rewrite <-Hid. by apply Hix.
  - assert (Hn : extractorKeys i s = []).
    { destruct (extractorKeys i s) as [|[[f0 u] t] l] eqn:Ee; [done|].
      assert (Hin : (f0, u, t) ∈ extractorKeys i s) by (rewrite Ee; by left).
      unfold extractorKeys in Hin. rewrite list_elem_of_In, filter_In in Hin. destruct Hin as [Hin Hu].
      apply list_elem_of_In, elem_of_elements, H3 in Hin as [Hin _]. breflect. rewrite Hid in Hdo. congruence. }
    rewrite Hn. simpl. apply list_elem_of_fmap. exists (key, ds). split; [done|]. rewrite list_elem_of_In, filter_In.
    split; [by apply list_elem_of_In, elem_of_map_to_list|apply Hch].
Qed.

End fetch_lemmas.

(** ** Examples *)

(** Objects with a key and a text. *)
#[global] Instance pair_object : Object (string * string) := {|
  GetKey := fst; getLabels _ := None; getNamespace _ := ""; getLabelSelector _ := None |}.
Definition no_index (_ : collectionUID) (_ : string * string) : list string := [].
Definition by_key (k : string) : dependency (string * string) := mkDependency 1 (FilterKey k no_filter).
Definition everything : dependency (string * string) := mkDependency 1 no_filter.

(** One input fetches from a collection by key and another one fetches all of it:
    a change of an object under another key is not seen by the second, although
    its filter matches. *)
Lemma mixed_fetches_miss_update :
  let i := from_ok no_dependencies (i ← dep_update no_dependencies "a" [by_key "x"]; dep_update i "b" [everything]) in
  let ev := Ev.mk (Some ("y", "1")) (Some ("y", "2")) EvUpdate in
  objectDependencies i !! "b" = Some [everything] /\
  Matches no_index (d_filter everything) ("y", "2") false = true /\
  changedInputKeys no_index i 1 [ev] = ∅.
Proof. vm_compute. done. Qed.

(** Dependencies that are replaced stay in the reverse index, also when the input
    is deleted. *)
Lemma replaced_dependencies_leak :
  let i := from_ok no_dependencies (i ← dep_update no_dependencies "a" [by_key "x"]; dep_update i "a" [by_key "y"]) in
  objectDependencies (dep_delete i "a") = ∅ /\
  indexedDependencies (dep_delete i "a") !! (1, "x", getKeyType) = Some {["a"]}.
Proof. vm_compute. done. Qed.
