(* ===== verification/KrtCollection.v ===== *)
(** * Derived collections

    [pkg/kube/krt/collection.go]: a collection computed from the objects of a
    parent collection by a transformation that may fetch from other collections.
    It is kept up to date from the events of the parent and of the collections
    that were fetched from, which run one after the other from a queue. *)

From S2P Require Import Prelude GoStrings GoSets GoSlices Hosts GoNet Krt.

(** ** Indexes *)

Section index.
Context {O : Type}.

(** [collectionIndex]: the extraction function, and the keys of the objects under
    each index key. *)
Record collectionIndex : Type := mkIndex { ix_extract : O -> list string; ix_index : gmap string (gset string) }.

Definition index_delete (c : collectionIndex) (o : O) (oKey : string) : collectionIndex :=
  mkIndex (ix_extract c)
    (fold_left (fun m oldIndexKey => GoSet.DeleteCleanupLast m oldIndexKey oKey) (ix_extract c o) (ix_index c)).

Definition index_update (c : collectionIndex) (ev : Event O) (oKey : string) : collectionIndex :=
  let c := match Ev.Old ev with Some old => index_delete c old oKey | None => c end in
  match Ev.New ev with
  | Some new =>
      mkIndex (ix_extract c)
        (fold_left (fun m newIndexKey => GoSet.InsertOrNew m newIndexKey oKey) (ix_extract c new) (ix_index c))
  | None => c
  end.

(** The objects under an index key; one that does not exist is skipped. *)
Definition Lookup (c : collectionIndex) (outputs : gmap string O) (key : string) : list O :=
  omap (fun k => outputs !! k) (elements (default ∅ (ix_index c !! key))).

(** A new index over the objects there are. *)
Definition new_index (extract : O -> list string) (outputs : gmap string O) : collectionIndex :=
  map_fold (fun k v idx => index_update idx (Ev.mk None (Some v) EvAdd) k) (mkIndex extract ∅) outputs.

(** The index lists exactly the objects that have the key. *)
Definition index_ok (c : collectionIndex) (outputs : gmap string O) : Prop :=
  forall key oKey, oKey ∈ GoSet.members (ix_index c) key <-> exists o, outputs !! oKey = Some o /\ key ∈ ix_extract c o.

Lemma index_delete_members c o oKey key x :
  x ∈ GoSet.members (ix_index (index_delete c o oKey)) key <->
  x ∈ GoSet.members (ix_index c) key /\ ~ (x = oKey /\ key ∈ ix_extract c o).
Proof.
  unfold index_delete. simpl. generalize (ix_index c) as m. induction (ix_extract c o) as [|k l IH]; intros m; simpl.
  - split; [|naive_solver]. intros Hx. split; [done|]. by intros [_ ?%elem_of_nil].
  - rewrite IH, GoSet.members_DeleteCleanupLast, elem_of_cons. case_decide; set_solver.
Qed.

Lemma index_insert_members (m : gmap string (gset string)) l oKey key x :
  x ∈ GoSet.members (fold_left (fun m k => GoSet.InsertOrNew m k oKey) l m) key <->
  x ∈ GoSet.members m key \/ (x = oKey /\ key ∈ l).
Proof.
  revert m. induction l as [|k l IH]; intros m; simpl.
  - split; [by left|]. intros [?|[_ ?%elem_of_nil]]; done.
  - rewrite IH, GoSet.members_InsertOrNew, elem_of_cons. case_decide; set_solver.
Qed.

Lemma index_update_extract c ev oKey : ix_extract (index_update c ev oKey) = ix_extract c.
Proof. unfold index_update. by destruct (Ev.Old ev), (Ev.New ev). Qed.

(** An update that tells the object there was keeps the index exact. *)
Lemma index_update_ok c outputs ev oKey :
  index_ok c outputs -> Ev.Old ev = outputs !! oKey ->
  index_ok (index_update c ev oKey) (match Ev.New ev with Some n => <[oKey := n]> outputs | None => delete oKey outputs end).
Proof.
  intros Hok Hold key x. rewrite index_update_extract.
  assert (Hd : let c' := match Ev.Old ev with Some old => index_delete c old oKey | None => c end in
    ix_extract c' = ix_extract c /\
    forall key x, x ∈ GoSet.members (ix_index c') key <-> x <> oKey /\ exists o, outputs !! x = Some o /\ key ∈ ix_extract c o).
  { destruct (Ev.Old ev) as [old|] eqn:E; cbv zeta; split; try done; intros k y.
    - rewrite index_delete_members, (Hok k y). split.
      + intros [(o & Ho & Hk) Hn]. split; [|by exists o]. intros ->. apply Hn. split; [done|]. congruence.
      + intros [Hne (o & Ho & Hk)]. split; [by exists o|]. naive_solver.
    - rewrite (Hok k y). split; [|by intros [_ ?]]. intros (o & Ho & Hk). split; [congruence|]. by exists o. }
  unfold index_update. set (c' := match Ev.Old ev with Some _ => _ | None => _ end) in *. destruct Hd as [He Hm].
  destruct (Ev.New ev) as [n|]; simpl.
  - rewrite index_insert_members, Hm, He. setoid_rewrite lookup_insert_Some. split.
    + intros [(Hne & o & Ho & Hk)|[-> Hk]]; [exists o; naive_solver|exists n; naive_solver].
    + intros (o & [[-> ->]|[Hne Ho]] & Hk); [by right|left]. split; [done|]. by exists o.
  - rewrite Hm. setoid_rewrite lookup_delete_Some. naive_solver.
Qed.

Lemma new_index_ok extract outputs : index_ok (new_index extract outputs) outputs /\ ix_extract (new_index extract outputs) = extract.
Proof.
  unfold new_index. apply (map_fold_weak_ind (fun idx m => index_ok idx m /\ ix_extract idx = extract)).
  - split; [|done]. intros key x. unfold GoSet.members. simpl. rewrite lookup_empty. simpl. split; [set_solver|].
    intros (o & Ho & _). by rewrite lookup_empty in Ho.
  - intros k v m idx Hk [Hi He]. split; [|by rewrite index_update_extract].
    apply (index_update_ok idx m (Ev.mk None (Some v) EvAdd) k Hi). simpl. by rewrite Hk.
Qed.

Lemma Lookup_spec c outputs key o :
  index_ok c outputs -> o ∈ Lookup c outputs key <-> exists oKey, outputs !! oKey = Some o /\ key ∈ ix_extract c o.
Proof.
  intros Hok. unfold Lookup. rewrite list_elem_of_omap. setoid_rewrite elem_of_elements. split.
  - intros (k & Hk & Ho). apply Hok in Hk as (o' & Ho' & Hx). exists k. split; [done|]. congruence.
  - intros (k & Ho & Hx). exists k. split; [|done]. apply Hok. by exists o.
Qed.

End index.
Arguments collectionIndex O : clear implicits.

(** ** The collection *)

Section many.
Context {I O V : Type} `{Object V}.
Context (extract : collectionUID -> V -> list string).
Context (keyI : I -> string) (keyO : O -> string) (Equal : O -> O -> bool) (zeroI : I) (zeroO : O).
Context (transformation : I -> handler V (list O)).

Record manyCollection : Type := mkMany {
  outputs : gmap string O;
  inputs : gmap string I;
  mappings : gmap string (gset string);
  deps : dependencyState V;
  indexes : gmap string (collectionIndex O)
}.
Definition newManyCollection : manyCollection := mkMany ∅ ∅ ∅ no_dependencies ∅.

Definition set_deps (h : manyCollection) (d : dependencyState V) : manyCollection :=
  mkMany (outputs h) (inputs h) (mappings h) d (indexes h).
Definition set_inputs (h : manyCollection) i m : manyCollection := mkMany (outputs h) i m (deps h) (indexes h).

(** An object changes, in the outputs and in every index. *)
Definition set_output (h : manyCollection) (key : string) (e : Event O) : manyCollection :=
  mkMany (match Ev.New e with Some n => <[key := n]> (outputs h) | None => delete key (outputs h) end)
    (inputs h) (mappings h) (deps h) ((fun ix => index_update ix e key) <$> indexes h).

(** *** Handling of events *)

Definition delete_output (acc : manyCollection * list (Event O)) (oKey : string) : manyCollection * list (Event O) :=
  let '(h, events) := acc in
  match outputs h !! oKey with
  | None => (h, events)
  | Some oldRes => let e := Ev.mk (Some oldRes) None EvDelete in (set_output h oKey e, events ++ [e])
  end.

Definition handle_delete (acc : manyCollection * list (Event O)) (iKey : string) : manyCollection * list (Event O) :=
  let '(h, events) := fold_left delete_output (elements (default ∅ (mappings (fst acc) !! iKey))) acc in
  (set_deps (set_inputs h (delete iKey (inputs h)) (delete iKey (mappings h))) (dep_delete (deps h) iKey), events).

Definition update_output (results : gmap string O) (acc : manyCollection * list (Event O)) (key : string)
  : manyCollection * list (Event O) :=
  let '(h, events) := acc in
  match results !! key, outputs h !! key with
  | Some newRes, Some oldRes =>
      if Equal newRes oldRes then (h, events)
      else let e := Ev.mk (Some oldRes) (Some newRes) EvUpdate in (set_output h key e, events ++ [e])
  | Some newRes, None => let e := Ev.mk None (Some newRes) EvAdd in (set_output h key e, events ++ [e])
  | None, oldRes => let e := Ev.mk (Some (default zeroO oldRes)) None EvDelete in (set_output h key e, events ++ [e])
  end.

(** A recomputed input; [ctx] has its dependencies and whether the result is to be
    discarded. *)
Definition handle_update (acc : manyCollection * list (Event O)) (iKey : string) (i : I) (results : gmap string O)
    (ctx : list (dependency V) * bool) : res (manyCollection * list (Event O)) :=
  let '(h, events) := acc in
  if snd ctx && (bool_decide (is_Some (mappings h !! iKey)) || negb (0 <? size results)%nat) then Ok acc else
  d ← dep_update (deps h) iKey (fst ctx);
  let newKeys := dom results in
  let oldKeys := default ∅ (mappings h !! iKey) in
  let h := set_deps (set_inputs h (<[iKey := i]> (inputs h)) (<[iKey := newKeys]> (mappings h))) d in
  mret (fold_left (update_output results) (elements (newKeys ∪ oldKeys)) (h, events)).

(** What the transformation gives for an event that is not a deletion. *)
Definition recompute (w : world V) (a : Event I) : option (I * gmap string O * list (dependency V) * bool) :=
  if bool_decide (Ev.Event a = EvDelete) then None else
  match Latest a with
  | None => None
  | Some i => let '(os, ds, b) := run extract w (transformation i) in Some (i, Slices.GroupUnique os keyO, ds, b)
  end.

(** [pendingDepStateUpdates]: the last one of an input counts. *)
Definition pendingDeps (w : world V) (items : list (Event I)) : gmap string (list (dependency V) * bool) :=
  fold_left (fun m a => match recompute w a with
                        | Some (i, _, ds, b) => <[keyI i := (ds, b)]> m
                        | None => m end) items ∅.

(** Collections fetched from are watched from then on. *)
Definition register (h : manyCollection) (w : world V) (items : list (Event I)) : manyCollection :=
  set_deps h (fold_left (fun d a => match recompute w a with
    | Some (_, _, ds, _) => mkDeps (list_to_set (map d_id ds) ∪ collectionDependencies d) (objectDependencies d)
                              (indexedDependencies d) (indexedDependenciesExtractor d)
    | None => d end) items (deps h)).

Definition handle_item (w : world V) (pending : gmap string (list (dependency V) * bool))
    (acc : manyCollection * list (Event O)) (a : Event I) : res (manyCollection * list (Event O)) :=
  match Latest a with
  | None => Panic "invalid memory address or nil pointer dereference"
  | Some i =>
      if bool_decide (Ev.Event a = EvDelete) then Ok (handle_delete acc (keyI i)) else
      match recompute w a, pending !! keyI i with
      | Some (_, results, _, _), Some ctx => handle_update acc (keyI i) i results ctx
      | _, _ => Panic "invalid memory address or nil pointer dereference"
      end
  end.

Fixpoint handle_items (w : world V) (pending : gmap string (list (dependency V) * bool))
    (acc : manyCollection * list (Event O)) (items : list (Event I)) : res (manyCollection * list (Event O)) :=
  match items with
  | [] => Ok acc
  | a :: items => acc ← handle_item w pending acc a; handle_items w pending acc items
  end.

Definition handleChangedPrimaryInputEvents (h : manyCollection) (w : world V) (items : list (Event I))
  : res (manyCollection * list (Event O)) :=
  handle_items w (pendingDeps w items) (register h w items, []) items.

(** The input may have changed since the event was queued. *)
Definition refresh (parent : gmap string I) (ev : Event I) : Event I :=
  match Latest ev with
  | None => ev
  | Some l =>
      match parent !! keyI l with
      | None => Ev.mk (match Ev.Old ev with Some o => Some o | None => Ev.New ev end) None EvDelete
      | Some iObj => Ev.mk (Ev.Old ev) (Some iObj) (Ev.Event ev)
      end
  end.

Definition onPrimaryInputEvent (h : manyCollection) (parent : gmap string I) (w : world V) (items : list (Event I))
  : res (manyCollection * list (Event O)) :=
  handleChangedPrimaryInputEvents h w (map (refresh parent) items).

(** The events to run for an input that is concerned by a change. *)
Definition dependent_events (h : manyCollection) (parent : gmap string I) (i : string) : list (Event I) :=
  match parent !! i with
  | None =>
      omap (fun oKey => if bool_decide (is_Some (outputs h !! oKey))
                        then Some (Ev.mk (Some (default zeroI (inputs h !! i))) None EvDelete) else None)
        (elements (default ∅ (mappings h !! i)))
  | Some iObj => [Ev.mk None (Some iObj) EvUpdate]
  end.

Definition onSecondaryDependencyEvent (h : manyCollection) (parent : gmap string I) (w : world V)
    (sourceCollection : collectionUID) (events : list (Event V)) : res (manyCollection * list (Event O)) :=
  handleChangedPrimaryInputEvents h w
    (concat (map (dependent_events h parent) (elements (changedInputKeys extract (deps h) sourceCollection events)))).

(** *** Reading *)

Definition many_GetKey (h : manyCollection) (k : string) : option O := outputs h !! k.
Definition many_List (h : manyCollection) : list O := map snd (map_to_list (outputs h)).
Definition many_index (h : manyCollection) (name : string) (ext : O -> list string) : manyCollection * collectionIndex O :=
  match indexes h !! name with
  | Some idx => (h, idx)
  | None => let idx := new_index ext (outputs h) in
            (mkMany (outputs h) (inputs h) (mappings h) (deps h) (<[name := idx]> (indexes h)), idx)
  end.

(** What a handler that asks for the existing state is sent first. *)
Definition existing_state (h : manyCollection) : list (Event O) :=
  map (fun '(_, o) => Ev.mk None (Some o) EvAdd) (map_to_list (outputs h)).

End many.

Arguments manyCollection I O V : clear implicits.

(** ** Lemmas *)

Lemma GroupUnique_lookup {T} (data : list T) (f : T -> string) k v :
  Slices.GroupUnique data f !! k = Some v -> f v = k /\ v ∈ data.
Proof.
  unfold Slices.GroupUnique.
  assert (Hg : forall m : gmap string T, fold_left (fun m e => <[f e := e]> m) data m !! k = Some v ->
                                         (f v = k /\ v ∈ data) \/ m !! k = Some v).
  { induction data as [|x data IH]; intros m Hl; simpl in *; [by right|].
    destruct (IH _ Hl) as [[? ?]|Hm]; [left; set_solver|]. rewrite lookup_insert_Some in Hm. set_solver. }
  intros Hl. destruct (Hg ∅ Hl) as [?|Hm]; [done|]. by rewrite lookup_empty in Hm.
Qed.

Lemma decide_elements {A} (X : gset string) o (a b : A) :
  (if decide (o ∈ elements X) then a else b) = if decide (o ∈ X) then a else b.
Proof. repeat case_decide; set_solver. Qed.

Section many_lemmas.
Context {I O V : Type} `{Object V}.
Context (extract : collectionUID -> V -> list string).
Context (keyI : I -> string) (keyO : O -> string) (Equal : O -> O -> bool) (zeroI : I) (zeroO : O).
Context (transformation : I -> handler V (list O)).
Implicit Types (h : manyCollection I O V) (w : world V).

(** What a listener knows after an event. *)
Definition apply_event (m : gmap string O) (e : Event O) : gmap string O :=
  match Ev.New e, Ev.Old e with
  | Some n, _ => <[keyO n := n]> m
  | None, Some o => delete (keyO o) m
  | None, None => m
  end.

Definition keyed_outputs (m : gmap string O) : Prop := forall k v, m !! k = Some v -> keyO v = k.
Definition indexes_ok h : Prop := forall name ix, indexes h !! name = Some ix -> index_ok ix (outputs h).

(** Only outputs change, indexes stay exact, and the events tell the change. *)
Definition outputs_change h h' (evs : list (Event O)) : Prop :=
  mappings h' = mappings h /\ inputs h' = inputs h /\ deps h' = deps h /\
  (indexes_ok h -> indexes_ok h') /\ (keyed_outputs (outputs h) -> keyed_outputs (outputs h')) /\
  fold_left apply_event evs (outputs h) = outputs h'.

Lemma outputs_change_refl h : outputs_change h h [].
Proof. by split_and!. Qed.

Lemma outputs_change_trans h1 h2 h3 e1 e2 :
  outputs_change h1 h2 e1 -> outputs_change h2 h3 e2 -> outputs_change h1 h3 (e1 ++ e2).
Proof.
  intros (A1 & A2 & A3 & A4 & A5 & A6) (B1 & B2 & B3 & B4 & B5 & B6).
  split_and!; [congruence..|auto|auto|]. by rewrite fold_left_app, A6.
Qed.

Lemma set_output_change h key e :
  keyed_outputs (outputs h) -> Ev.Old e = outputs h !! key -> (forall n, Ev.New e = Some n -> keyO n = key) ->
  (Ev.New e = None -> is_Some (outputs h !! key)) ->
  outputs_change h (set_output h key e) [e].
Proof.
  intros Hk Ho Hn Hd. split_and!; try done.
  - intros Hi name ix. simpl. rewrite lookup_fmap_Some. intros (ix0 & <- & Hix).
    apply index_update_ok; [by eapply Hi|done].
  - intros _ k v. simpl. destruct (Ev.New e) as [n|] eqn:E.
    + rewrite lookup_insert_Some. intros [[<- <-]|[_ Hv]]; [by apply Hn|by apply Hk].
    + rewrite lookup_delete_Some. intros [_ Hv]. by apply Hk.
  - simpl. unfold apply_event. rewrite Ho. destruct (Ev.New e) as [n|] eqn:E; [by rewrite (Hn n eq_refl)|].
    destruct (Hd eq_refl) as [o Hoo]. by rewrite Hoo, (Hk key o Hoo).
Qed.

Lemma delete_outputs_spec l h evs :
  keyed_outputs (outputs h) ->
  exists h' evs', fold_left delete_output l (h, evs) = (h', evs ++ evs') /\ outputs_change h h' evs' /\
    forall o, outputs h' !! o = if decide (o ∈ l) then None else outputs h !! o.
Proof.
  revert h evs. induction l as [|k l IH]; intros h evs Hk; cbn [fold_left].
  - exists h, []. rewrite app_nil_r. split; [done|]. split; [apply outputs_change_refl|].
    intros o. rewrite decide_False; [done|apply not_elem_of_nil].
  - unfold delete_output at 2. destruct (outputs h !! k) as [old|] eqn:E.
    + set (e := Ev.mk (Some old) None EvDelete).
      pose proof (set_output_change h k e Hk (eq_sym E) ltac:(done) ltac:(by rewrite E)) as Hc.
      destruct (IH (set_output h k e) (evs ++ [e])) as (h' & evs' & -> & Hc' & Ho).
      { apply Hc. done. }
      exists h', (e :: evs'). rewrite <-app_assoc. split; [done|].
      split; [by apply (outputs_change_trans h (set_output h k e) h' [e] evs')|].
      intros o. rewrite Ho. simpl. rewrite lookup_delete. repeat case_decide; set_solver.
    + destruct (IH h evs Hk) as (h' & evs' & -> & Hc & Ho). exists h', evs'. split; [done|]. split; [done|].
      intros o. rewrite Ho. repeat case_decide; set_solver.
Qed.

(** What becomes of an output. *)
Definition updated (results : gmap string O) (old : option O) (o : string) : option O :=
  match results !! o, old with
  | Some n, Some v => Some (if Equal n v then v else n)
  | r, _ => r
  end.

Lemma update_outputs_spec results l h evs :
  keyed_outputs (outputs h) -> keyed_outputs results -> NoDup l ->
  (forall o, o ∈ l -> results !! o = None -> is_Some (outputs h !! o)) ->
  exists h' evs', fold_left (update_output Equal zeroO results) l (h, evs) = (h', evs ++ evs') /\ outputs_change h h' evs' /\
    forall o, outputs h' !! o = if decide (o ∈ l) then updated results (outputs h !! o) o else outputs h !! o.
Proof.
  intros Hk Hr Hnd. revert h evs Hk. induction Hnd as [|k l Hkl Hnd IH]; intros h evs Hk Hs; cbn [fold_left].
  - exists h, []. rewrite app_nil_r. split; [done|]. split; [apply outputs_change_refl|].
    intros o. rewrite decide_False; [done|apply not_elem_of_nil].
  - assert (Hone : exists h1 e1, update_output Equal zeroO results (h, evs) k = (h1, evs ++ e1) /\ outputs_change h h1 e1 /\
              forall o, outputs h1 !! o = if decide (o = k) then updated results (outputs h !! o) o else outputs h !! o).
    { unfold update_output, updated. destruct (results !! k) as [n|] eqn:Er.
      - destruct (outputs h !! k) as [old|] eqn:Eo; [destruct (Equal n old) eqn:Eq|].
        + exists h, []. rewrite app_nil_r. split; [done|]. split; [apply outputs_change_refl|].
          intros o. case_decide; [subst|done]. by rewrite Er, Eo, Eq.
        + eexists _, [_]. split; [reflexivity|]. split.
          { apply set_output_change; [done|done| |done]. intros n' [= <-]. by apply Hr. }
          intros o. simpl. rewrite lookup_insert. case_decide as Hd; case_decide; try congruence. subst. by rewrite Er, Eo, Eq.
        + eexists _, [_]. split; [reflexivity|]. split.
          { apply set_output_change; [done|done| |done]. intros n' [= <-]. by apply Hr. }
          intros o. simpl. rewrite lookup_insert. case_decide as Hd; case_decide; try congruence. subst. by rewrite Er, Eo.
      - destruct (Hs k) as [old Eo]; [by left|done|]. rewrite Eo. eexists _, [_]. split; [reflexivity|]. split.
        { apply set_output_change; [done|done|done|by rewrite Eo]. }
        intros o. simpl. rewrite lookup_delete. case_decide as Hd; case_decide; try congruence. subst. by rewrite Er. }
    destruct Hone as (h1 & e1 & -> & Hc & Ho). pose proof Hc as (_ & _ & _ & _ & Hk1 & _).
    destruct (IH h1 (evs ++ e1) (Hk1 Hk)) as (h' & e' & -> & Hc' & Ho').
    { intros o Hin Hro. rewrite Ho. rewrite decide_False by (intros ->; done). apply Hs; [by right|done]. }
    exists h', (e1 ++ e'). rewrite app_assoc. split; [done|]. split; [by eapply outputs_change_trans|].
    intros o. rewrite Ho', Ho. destruct (decide (o ∈ l)) as [Hin|Hin].
    + rewrite (decide_False (P := o = k)) by (intros ->; done). by rewrite decide_True by (by right).
    + destruct (decide (o = k)) as [->|Hne]; [by rewrite decide_True by (by left)|].
      rewrite decide_False; [done|]. by intros [?|?]%elem_of_cons.
Qed.

(** *** Inputs and what they give

    Every output belongs to one input; collections are fetched from either by key
    or index, or never so; and no result is discarded. *)
Context (owner : string -> string) (indexed : collectionUID -> bool).

Definition results_of w (i : I) : gmap string O := Slices.GroupUnique (run extract w (transformation i)).1.1 keyO.
Definition deps_of w (i : I) : list (dependency V) := (run extract w (transformation i)).1.2.

Definition transformation_ok : Prop :=
  forall w i, (run extract w (transformation i)).2 = false /\ Forall (dependency_ok indexed) (deps_of w i) /\
    forall o, o ∈ (run extract w (transformation i)).1.1 -> owner (keyO o) = keyI i.

Record many_ok h : Prop := {
  mo_owner k ks o : mappings h !! k = Some ks -> o ∈ ks -> owner o = k;
  mo_keyed : keyed_outputs (outputs h);
  mo_mapped o v : outputs h !! o = Some v -> exists ks, mappings h !! owner o = Some ks /\ o ∈ ks;
  mo_there k ks o : mappings h !! k = Some ks -> o ∈ ks -> is_Some (outputs h !! o);
  mo_inputs k ks : mappings h !! k = Some ks -> exists i, inputs h !! k = Some i /\ keyI i = k;
  mo_dom k : is_Some (mappings h !! k) <-> is_Some (objectDependencies (deps h) !! k);
  mo_deps : deps_ok indexed (deps h);
  mo_watched k ds d : objectDependencies (deps h) !! k = Some ds -> d ∈ ds -> d_id d ∈ collectionDependencies (deps h);
  mo_indexes : indexes_ok h
}.

(** The part of the state that belongs to an input is the same. *)
Definition same_at k h h' : Prop :=
  mappings h' !! k = mappings h !! k /\ objectDependencies (deps h') !! k = objectDependencies (deps h) !! k /\
  (forall o, owner o = k -> outputs h' !! o = outputs h !! o).

Lemma same_at_refl k h : same_at k h h.
Proof. by split_and!. Qed.
Lemma same_at_trans k h1 h2 h3 : same_at k h1 h2 -> same_at k h2 h3 -> same_at k h1 h3.
Proof. intros (A & B & C) (D & E & F). split_and!; [congruence..|]. intros o Ho. by rewrite F, C. Qed.

(** Nothing is kept of the input. *)
Definition gone_at k h : Prop := mappings h !! k = None /\ objectDependencies (deps h) !! k = None.

(** The input has been computed from the collections as they are now. *)
Definition computed_at k h w (i : I) : Prop :=
  mappings h !! k = Some (dom (results_of w i)) /\ objectDependencies (deps h) !! k = Some (deps_of w i) /\
  (forall o n, results_of w i !! o = Some n -> exists v, outputs h !! o = Some v /\ Equal n v = true).

Lemma gone_at_same k h h' : same_at k h h' -> gone_at k h -> gone_at k h'.
Proof. intros (A & B & _) [C D]. split; congruence. Qed.

Lemma results_owner w i o n : transformation_ok -> results_of w i !! o = Some n -> keyO n = o /\ owner o = keyI i.
Proof.
  intros Ht Hr. apply GroupUnique_lookup in Hr as [Hk Hin]. destruct (Ht w i) as (_ & _ & Ho).
  split; [done|]. rewrite <-Hk. by apply Ho.
Qed.

Lemma computed_at_same h h' w i :
  transformation_ok -> same_at (keyI i) h h' -> computed_at (keyI i) h w i -> computed_at (keyI i) h' w i.
Proof.
  intros Ht (A & B & C) (D & E & F). split_and!; [congruence..|]. intros o n Hr.
  rewrite C; [by apply F|]. by apply (results_owner w i o n).
Qed.

Lemma handle_delete_spec h evs k :
  many_ok h ->
  exists h' evs', handle_delete (h, evs) k = (h', evs ++ evs') /\ many_ok h' /\ gone_at k h' /\
    (forall k', k' <> k -> same_at k' h h') /\ collectionDependencies (deps h') = collectionDependencies (deps h) /\
    fold_left apply_event evs' (outputs h) = outputs h'.
Proof.
  intros Hok. unfold handle_delete. cbn [fst].
  destruct (delete_outputs_spec (elements (default ∅ (mappings h !! k))) h evs (mo_keyed h Hok)) as (h1 & evs' & -> & Hc & Ho).
  destruct Hc as (A1 & A2 & A3 & A4 & A5 & A6). setoid_rewrite decide_elements in Ho.
  destruct (dep_delete_ok extract indexed (deps h) k (mo_deps h Hok)) as (D1 & D2 & D3).
  eexists _, evs'. split; [reflexivity|].
  assert (Hoo : forall o, owner o <> k -> outputs h1 !! o = outputs h !! o).
  { intros o Hne. rewrite Ho, decide_False; [done|]. intros Hin. destruct (mappings h !! k) as [ks|] eqn:E; simpl in Hin; [|set_solver].
    apply Hne. by eapply mo_owner. }
  split; [|split; [|split; [|split; [|exact A6]]]].
  - split; simpl; rewrite ?A1, ?A2, ?A3.
    + intros k' ks o. rewrite lookup_delete_Some. intros [_ Hl]. by eapply mo_owner.
    + by apply A5, mo_keyed.
    + intros o v. rewrite Ho. case_decide as Hd; [done|]. intros Hv. destruct (mo_mapped h Hok o v Hv) as (ks & Hks & Hin).
      exists ks. rewrite lookup_delete_Some. split_and!; try done. intros ->. apply Hd. by rewrite Hks.
    + intros k' ks o. rewrite lookup_delete_Some. intros [Hne Hl] Hin. rewrite Hoo; [by eapply mo_there|].
      rewrite (mo_owner h Hok k' ks o Hl Hin). done.
    + intros k' ks. rewrite lookup_delete_Some. intros [Hne Hl]. destruct (mo_inputs h Hok k' ks Hl) as (i & Hi & Hk).
      exists i. by rewrite lookup_delete_ne.
    + intros k'. rewrite D2. destruct (decide (k = k')) as [->|Hne]; [rewrite !lookup_delete_eq|rewrite !lookup_delete_ne by done; by apply mo_dom].
      split; by intros [? ?].
    + done.
    + intros k' ds d. rewrite D2, D3, lookup_delete_Some. intros [_ Hl]. by eapply mo_watched.
    + by apply A4, mo_indexes.
  - split; simpl; rewrite ?A1, ?A3, ?D2; apply lookup_delete_eq.
  - intros k' Hne. split_and!; simpl; rewrite ?A1, ?A3, ?D2; [by rewrite lookup_delete_ne..|].
    intros o Hk. apply Hoo. congruence.
  - simpl. by rewrite A3, D3.
Qed.

Lemma handle_update_spec h evs w i :
  transformation_ok -> (forall o, Equal o o = true) -> many_ok h ->
  (forall d, d ∈ deps_of w i -> d_id d ∈ collectionDependencies (deps h)) ->
  exists h' evs', handle_update Equal zeroO (h, evs) (keyI i) i (results_of w i) (deps_of w i, false) = Ok (h', evs ++ evs') /\
    many_ok h' /\ computed_at (keyI i) h' w i /\ (forall k', k' <> keyI i -> same_at k' h h') /\
    collectionDependencies (deps h') = collectionDependencies (deps h) /\ fold_left apply_event evs' (outputs h) = outputs h'.
Proof.
  intros Ht Heq Hok Hw. destruct (Ht w i) as (_ & Hds & _). unfold handle_update. cbn [snd andb fst].
  destruct (dep_update_ok extract indexed (deps h) (keyI i) (deps_of w i) (mo_deps h Hok) Hds) as (d & -> & D1 & D2 & D3).
  cbn [mbind res_bind]. set (k := keyI i). set (res := results_of w i). set (old := default ∅ (mappings h !! k)).
  set (h0 := set_deps (set_inputs h (<[k := i]> (inputs h)) (<[k := dom res]> (mappings h))) d).
  assert (Hkr : keyed_outputs res) by (intros o n Hr; by apply (results_owner w i o n)).
  assert (Hold : forall o, o ∈ old -> is_Some (outputs h !! o) /\ owner o = k).
  { intros o. unfold old. destruct (mappings h !! k) as [ks|] eqn:E; simpl; [|set_solver]. intros Hin.
    split; [by eapply mo_there|by eapply mo_owner]. }
  assert (Hres : forall o, o ∈ dom res -> owner o = k).
  { intros o [n Hn]%elem_of_dom. by apply (results_owner w i o n). }
  destruct (update_outputs_spec res (elements (dom res ∪ old)) h0 evs) as (h1 & evs' & E & Hc & Ho).
  { exact (mo_keyed h Hok). } { done. } { apply NoDup_elements. }
  { intros o Hin Hn. apply elem_of_elements, elem_of_union in Hin as [Hin|Hin]; [|by apply Hold].
    apply elem_of_dom in Hin as [? ?]. congruence. }
  destruct Hc as (A1 & A2 & A3 & A4 & A5 & A6). setoid_rewrite decide_elements in Ho. simpl in A1, A2, A3, A6.
  exists h1, evs'. rewrite E. split; [reflexivity|].
  assert (Hoo : forall o, owner o <> k -> outputs h1 !! o = outputs h !! o).
  { intros o Hne. rewrite Ho, decide_False; [done|]. intros [Hin|Hin]%elem_of_union; [by apply Hne, Hres|by apply Hne, Hold]. }
  assert (Hok' : forall o, owner o = k -> outputs h1 !! o = updated res (outputs h !! o) o).
  { intros o Hk. rewrite Ho. case_decide as Hd; [done|]. simpl. unfold updated.
    destruct (res !! o) as [n|] eqn:Er; [exfalso; apply Hd, elem_of_union; left; by apply elem_of_dom|].
    destruct (outputs h !! o) as [v|] eqn:Ev; [|done]. exfalso. destruct (mo_mapped h Hok o v Ev) as (ks & Hks & Hin).
    apply Hd, elem_of_union. right. unfold old. rewrite Hk in Hks. by rewrite Hks. }
  assert (Hin1 : forall o n, res !! o = Some n -> exists v, outputs h1 !! o = Some v /\ Equal n v = true).
  { intros o n Hr. rewrite Hok' by (apply Hres; by apply elem_of_dom). unfold updated. rewrite Hr.
    destruct (outputs h !! o) as [v|]; [|by exists n]. destruct (Equal n v) eqn:Eq; [by exists v|by exists n]. }
  split; [|split; [|split; [|split; [|exact A6]]]].
  - split; rewrite ?A1, ?A2, ?A3; simpl.
    + intros k' ks o. rewrite lookup_insert_Some. intros [[<- <-]|[_ Hl]]; [by apply Hres|by eapply mo_owner].
    + by apply A5, (mo_keyed h).
    + intros o v Hv. destruct (decide (owner o = k)) as [Hk|Hk].
      * rewrite Hk, lookup_insert_eq. eexists. split; [done|]. rewrite Hok' in Hv by done. unfold updated in Hv.
        apply elem_of_dom. by destruct (res !! o); [|done].
      * rewrite Hoo in Hv by done. rewrite lookup_insert_ne by done. by eapply mo_mapped.
    + intros k' ks o. rewrite lookup_insert_Some. intros [[<- <-]|[Hne Hl]] Hin.
      * apply elem_of_dom in Hin as [n Hn]. destruct (Hin1 o n Hn) as (v & -> & _). done.
      * rewrite Hoo; [by eapply mo_there|]. rewrite (mo_owner h Hok k' ks o Hl Hin). done.
    + intros k' ks. rewrite lookup_insert_Some. intros [[<- <-]|[Hne Hl]]; [exists i; by rewrite lookup_insert_eq|].
      rewrite lookup_insert_ne by done. by eapply mo_inputs.
    + intros k'. rewrite D2. destruct (decide (k = k')) as [<-|Hne]; [rewrite !lookup_insert_eq; by split|].
      rewrite !lookup_insert_ne by done. by apply mo_dom.
    + done.
    + intros k' ds d'. rewrite D2, D3, lookup_insert_Some. intros [[<- <-]|[_ Hl]] Hd; [by apply Hw|by eapply mo_watched].
    + apply A4. exact (mo_indexes h Hok).
  - split_and!; [by rewrite A1; simpl; rewrite lookup_insert_eq|by rewrite A3; simpl; rewrite D2, lookup_insert_eq|done].
  - intros k' Hne. split_and!; rewrite ?A1, ?A3; simpl; rewrite ?D2; [by rewrite lookup_insert_ne..|].
    intros o Hk. apply Hoo. congruence.
  - rewrite A3. simpl. done.
Qed.

(** *** A batch of events *)

Definition item_key (a : Event I) : option string := keyI <$> Latest a.

(** The last event of a batch about a key. *)
Fixpoint last_event (k : string) (items : list (Event I)) : option EventType :=
  match items with
  | [] => None
  | a :: items =>
      match last_event k items with
      | Some e => Some e
      | None => if decide (item_key a = Some k) then Some (Ev.Event a) else None
      end
  end.

Lemma last_event_app k l1 l2 :
  last_event k (l1 ++ l2) = match last_event k l2 with Some e => Some e | None => last_event k l1 end.
Proof. induction l1 as [|a l1 IH]; simpl; [by destruct (last_event k l2)|]. rewrite IH. by destruct (last_event k l2). Qed.

Lemma last_event_elem k a items : a ∈ items -> item_key a = Some k -> is_Some (last_event k items).
Proof.
  intros Hin Hk. induction items as [|b items IH]; [by apply elem_of_nil in Hin|]. simpl.
  apply elem_of_cons in Hin as [<-|Hin].
  - destruct (last_event k items); [done|]. by rewrite decide_True.
  - destruct (IH Hin) as [e ->]. done.
Qed.

Lemma last_event_in k items e : last_event k items = Some e -> exists a, a ∈ items /\ item_key a = Some k /\ Ev.Event a = e.
Proof.
  induction items as [|a items IH]; simpl; [done|]. destruct (last_event k items) as [e'|] eqn:E.
  - intros [= ->]. destruct (IH eq_refl) as (b & Hb & ?). exists b. split; [by right|done].
  - case_decide as Hd; [|done]. intros [= <-]. exists a. split; [by left|done].
Qed.

(** A batch that tells of the parent's objects. *)
Definition coherent (parent : gmap string I) (items : list (Event I)) : Prop :=
  forall a, a ∈ items -> exists i, Latest a = Some i /\ (Ev.Event a <> EvDelete -> parent !! keyI i = Some i).

(** What a batch does to an input. *)
Definition batch_effect (parent : gmap string I) w items k h h' : Prop :=
  match last_event k items with
  | None => same_at k h h'
  | Some EvDelete => gone_at k h'
  | Some _ => exists i, parent !! k = Some i /\ keyI i = k /\ computed_at k h' w i
  end.

Lemma handle_items_spec parent w pending items h evs :
  transformation_ok -> (forall o, Equal o o = true) -> many_ok h -> coherent parent items ->
  (forall a i, a ∈ items -> Ev.Event a <> EvDelete -> Latest a = Some i ->
     pending !! keyI i = Some (deps_of w i, false) /\
     forall d, d ∈ deps_of w i -> d_id d ∈ collectionDependencies (deps h)) ->
  exists h' evs', handle_items extract keyI keyO Equal zeroO transformation w pending (h, evs) items = Ok (h', evs ++ evs') /\
    many_ok h' /\ fold_left apply_event evs' (outputs h) = outputs h' /\
    collectionDependencies (deps h') = collectionDependencies (deps h) /\
    forall k, batch_effect parent w items k h h'.
Proof.
  intros Ht Heq. revert h evs. induction items as [|a items IH]; intros h evs Hok Hc Hp; cbn [handle_items].
  { exists h, []. rewrite app_nil_r. split_and!; try done. }
  destruct (Hc a ltac:(by left)) as (i & Hl & Hi).
  assert (Hone : exists h1 e1, handle_item extract keyI keyO Equal zeroO transformation w pending (h, evs) a = Ok (h1, evs ++ e1) /\
    many_ok h1 /\ fold_left apply_event e1 (outputs h) = outputs h1 /\
    collectionDependencies (deps h1) = collectionDependencies (deps h) /\
    (forall k, k <> keyI i -> same_at k h h1) /\
    (if decide (Ev.Event a = EvDelete) then gone_at (keyI i) h1 else computed_at (keyI i) h1 w i)).
  { unfold handle_item. rewrite Hl. unfold recompute. case_decide as Hd.
    - rewrite bool_decide_true by done. destruct (handle_delete_spec h evs (keyI i) Hok) as (h1 & e1 & -> & ? & ? & ? & ? & ?).
      by exists h1, e1.
    - rewrite bool_decide_false by done. destruct (Hp a i ltac:(by left) Hd Hl) as [Hpe Hdd]. rewrite Hl, Hpe.
      destruct (handle_update_spec h evs w i Ht Heq Hok Hdd) as (h1 & e1 & E & ? & ? & ? & ? & ?).
      unfold results_of in E. destruct (run extract w (transformation i)) as [[os ds] b]. exists h1, e1. by rewrite <-E. }
  destruct Hone as (h1 & e1 & -> & Hok1 & Hf1 & Hcd & Hs & Ha). cbn [mbind res_bind].
  destruct (IH h1 (evs ++ e1) Hok1) as (h' & e' & -> & Hok' & Hf' & Hcd' & Hb).
  { intros b Hb. apply Hc. by right. }
  { intros b j Hb. rewrite Hcd. apply Hp. by right. }
  exists h', (e1 ++ e'). rewrite app_assoc. split; [done|]. split; [done|]. split; [by rewrite fold_left_app, Hf1|].
  split; [congruence|]. intros k. specialize (Hb k). unfold batch_effect in *. cbn [last_event].
  destruct (last_event k items) as [e|] eqn:E; [done|].
  unfold item_key. rewrite Hl. simpl. destruct (decide (Some (keyI i) = Some k)) as [Hk|Hk].
  - injection Hk as <-. destruct (decide (Ev.Event a = EvDelete)) as [Hd|Hd].
    + rewrite Hd. by apply (gone_at_same _ h1).
    + destruct (Ev.Event a) eqn:Ee; try done; exists i; (split; [by apply Hi|]); (split; [done|]); by apply (computed_at_same h1).
  - apply (same_at_trans k h h1 h'); [|done]. apply Hs. congruence.
Qed.

(** *** One task of the queue *)

Lemma recompute_eq w a i :
  Ev.Event a <> EvDelete -> Latest a = Some i ->
  recompute extract keyO transformation w a = Some (i, results_of w i, deps_of w i, (run extract w (transformation i)).2).
Proof.
  intros He Hl. unfold recompute, results_of, deps_of. rewrite bool_decide_false, Hl by done.
  by destruct (run extract w (transformation i)) as [[os ds] b].
Qed.

Lemma recompute_Some w a i r ds b :
  recompute extract keyO transformation w a = Some (i, r, ds, b) -> Ev.Event a <> EvDelete /\ Latest a = Some i.
Proof.
  unfold recompute. case_bool_decide; [done|]. destruct (Latest a); [|done].
  destruct (run extract w (transformation i0)) as [[os ds'] b']. by intros [= -> _ _ _].
Qed.

Lemma pendingDeps_spec parent w items i :
  transformation_ok -> coherent parent items -> parent !! keyI i = Some i ->
  (exists a, a ∈ items /\ Ev.Event a <> EvDelete /\ Latest a = Some i) ->
  pendingDeps extract keyI keyO transformation w items !! keyI i = Some (deps_of w i, false).
Proof.
  intros Ht Hc Hi. unfold pendingDeps.
  assert (Hg : forall m : gmap string (list (dependency V) * bool),
    m !! keyI i = Some (deps_of w i, false) \/ (exists a, a ∈ items /\ Ev.Event a <> EvDelete /\ Latest a = Some i) ->
    fold_left (fun m a => match recompute extract keyO transformation w a with
                          | Some (i, _, ds, b) => <[keyI i := (ds, b)]> m | None => m end) items m !! keyI i
    = Some (deps_of w i, false)).
  { induction items as [|a items IH]; intros m Hm; cbn [fold_left]; [by destruct Hm as [?|(a & ?%elem_of_nil & _)]|].
    apply IH; [intros b Hb; apply Hc; by right|].
    destruct (recompute extract keyO transformation w a) as [[[[j r] ds] b]|] eqn:E.
    - pose proof (recompute_Some _ _ _ _ _ _ E) as [He Hl]. rewrite (recompute_eq w a j He Hl) in E. injection E as _ <- <-.
      destruct (Ht w j) as (-> & _ & _). destruct (Hc a ltac:(by left)) as (j' & Hl' & Hj). rewrite Hl in Hl'. injection Hl' as <-.
      destruct (decide (keyI i = keyI j)) as [Hk|Hk].
      + left. rewrite Hk, lookup_insert_eq. specialize (Hj He). rewrite <-Hk in Hj. by simplify_eq.
      + rewrite lookup_insert_ne by done. destruct Hm as [?|(c & [->|Hc']%elem_of_cons & Hce & Hcl)]; [by left| |right; by exists c].
        rewrite Hl in Hcl. by simplify_eq.
    - destruct Hm as [?|(c & [->|Hc']%elem_of_cons & Hce & Hcl)]; [by left| |right; by exists c].
      by rewrite (recompute_eq w a i) in E. }
  intros Ha. apply Hg. by right.
Qed.

(** Dependencies that differ in the watched collections only. *)
Definition same_deps (d d' : dependencyState V) : Prop :=
  objectDependencies d' = objectDependencies d /\ indexedDependencies d' = indexedDependencies d /\
  indexedDependenciesExtractor d' = indexedDependenciesExtractor d /\ collectionDependencies d ⊆ collectionDependencies d'.

Lemma register_spec h w items :
  exists d, register extract keyO transformation h w items = set_deps h d /\ same_deps (deps h) d /\
    forall a i, a ∈ items -> Ev.Event a <> EvDelete -> Latest a = Some i ->
      forall dp, dp ∈ deps_of w i -> d_id dp ∈ collectionDependencies d.
Proof.
  unfold register. eexists. split; [reflexivity|]. generalize (deps h) as d.
  induction items as [|a items IH]; intros d; cbn [fold_left]; [split; [by split_and!|by intros a i ?%elem_of_nil]|].
  set (d1 := match _ with Some _ => _ | None => d end).
  destruct (IH d1) as [(S1 & S2 & S3 & S4) Hd].
  assert (H1 : same_deps d d1 /\ forall i, Ev.Event a <> EvDelete -> Latest a = Some i ->
    forall dp, dp ∈ deps_of w i -> d_id dp ∈ collectionDependencies d1).
  { unfold d1. destruct (recompute extract keyO transformation w a) as [[[[j r] ds] b]|] eqn:E.
    - split; [split_and!; simpl; try done; set_solver|]. intros i He Hl dp Hdp. rewrite (recompute_eq w a i He Hl) in E.
      injection E as _ _ <- _. simpl. apply elem_of_union. left. apply elem_of_list_to_set, list_elem_of_fmap. by exists dp.
    - split; [by split_and!|]. intros i He Hl. by rewrite (recompute_eq w a i He Hl) in E. }
  destruct H1 as [(T1 & T2 & T3 & T4) H1]. split.
  - split_and!; [congruence..|]. by etrans.
  - intros c i [->|Hc]%elem_of_cons He Hl dp Hdp; [|by eapply Hd]. apply S4. by eapply H1.
Qed.

Lemma deps_ok_same d d' : same_deps d d' -> deps_ok indexed d -> deps_ok indexed d'.
Proof.
  intros (S1 & S2 & S3 & _) [D1 D2 D3]. split.
  - intros k ds dp. rewrite S1. apply D1.
  - intros k ds dp. rewrite S1. intros Hl Hd. specialize (D2 k ds dp Hl Hd). unfold is_indexed in *.
    destruct (reverseIndexKey _) as [[[[ks typ] fid]|]|?|?]; try done. by rewrite S2, S3.
  - intros fid id typ. rewrite S3. apply D3.
Qed.

Lemma many_ok_set_deps h d : same_deps (deps h) d -> many_ok h -> many_ok (set_deps h d).
Proof.
  intros Hs Hok. pose proof Hs as (S1 & S2 & S3 & S4). split; simpl.
  - apply (mo_owner h Hok).
  - apply (mo_keyed h Hok).
  - apply (mo_mapped h Hok).
  - apply (mo_there h Hok).
  - apply (mo_inputs h Hok).
  - rewrite S1. apply (mo_dom h Hok).
  - apply (deps_ok_same (deps h)); [done|apply (mo_deps h Hok)].
  - rewrite S1. intros k ds dp Hl Hd. apply S4. by eapply (mo_watched h Hok).
  - apply (mo_indexes h Hok).
Qed.

(** A batch runs, tells what it changed, and does to every input what its last
    event asks for. *)
Lemma handle_batch_spec parent h w items :
  transformation_ok -> (forall o, Equal o o = true) -> many_ok h -> coherent parent items ->
  exists h' evs, handleChangedPrimaryInputEvents extract keyI keyO Equal zeroO transformation h w items = Ok (h', evs) /\
    many_ok h' /\ fold_left apply_event evs (outputs h) = outputs h' /\
    collectionDependencies (deps h) ⊆ collectionDependencies (deps h') /\ forall k, batch_effect parent w items k h h'.
Proof.
  intros Ht Heq Hok Hc. unfold handleChangedPrimaryInputEvents.
  destruct (register_spec h w items) as (d & -> & Hs & Hd). pose proof Hs as (S1 & _ & _ & S4).
  destruct (handle_items_spec parent w (pendingDeps extract keyI keyO transformation w items) items (set_deps h d) [])
    as (h' & evs & -> & Hok' & Hf & Hcd & Hb); [done|done|by apply many_ok_set_deps|done| |].
  { intros a i Ha He Hl. split; [|by apply (Hd a)]. apply (pendingDeps_spec parent); [done|done| |by exists a].
    destruct (Hc a Ha) as (j & Hj & Hp). rewrite Hl in Hj. injection Hj as <-. by apply Hp. }
  exists h', evs. split; [done|]. split; [done|]. split; [done|]. split; [by rewrite Hcd|].
  intros k. specialize (Hb k). unfold batch_effect in *. destruct (last_event k items) as [[]|]; try done.
  destruct Hb as (A & B & C). simpl in *. split_and!; [done|by rewrite B, S1|done].
Qed.

End many_lemmas.
