(* ===== verification/KrtSystem.v ===== *)
(** * A derived collection among the collections it reads

    The collection of [pkg/kube/krt/collection.go] with its queue, its parent and
    the collections its transformation fetches from.  The parent and the other
    collections change at any time and report what changed; what they report is
    queued and handled later, one task after the other, against the state of that
    time.  Whatever the interleaving, once the queue is empty the outputs are those
    that a recomputation from scratch gives. *)

From S2P Require Import Prelude GoStrings GoSets GoSlices Hosts GoNet Krt KrtCollection.

Section system.
Context {I O V : Type} `{Object V}.
Context (extract : collectionUID -> V -> list string).
Context (keyI : I -> string) (keyO : O -> string) (Equal : O -> O -> bool) (zeroI : I) (zeroO : O).
Context (transformation : I -> handler V (list O)).

(** What is pushed to the queue: a batch of the parent's events, or of a collection
    that was fetched from. *)
Inductive task : Type :=
  | onPrimary (items : list (Event I))
  | onSecondary (s : collectionUID) (events : list (Event V)).

Record system : Type := mkSystem {
  coll : manyCollection I O V;
  parent : gmap string I;
  others : world V;
  queue : list task;
  sent : list (Event O)
}.

Definition run_task (s : system) (t : task) : res (manyCollection I O V * list (Event O)) :=
  match t with
  | onPrimary items => onPrimaryInputEvent extract keyI keyO Equal zeroO transformation (coll s) (parent s) (others s) items
  | onSecondary id events =>
      onSecondaryDependencyEvent extract keyI keyO Equal zeroI zeroO transformation (coll s) (parent s) (others s) id events
  end.

(** The collection starts with the objects the parent has. *)
Definition started (p : gmap string I) (w : world V) : system :=
  mkSystem newManyCollection p w [onPrimary (map (fun '(_, i) => Ev.mk None (Some i) EvAdd) (map_to_list p))] [].

Definition keyed_inputs (p : gmap string I) : Prop := forall k i, p !! k = Some i -> keyI i = k.

(** An event is about one object. *)
Definition event_ok (a : Event I) : Prop := exists k, item_key keyI a = Some k /\ forall i, i ∈ Items a -> keyI i = k.

(** Events that tell a change of the parent: keys they do not mention are as
    before, and the last one about a key says whether it is there. *)
Definition tells (p p' : gmap string I) (items : list (Event I)) : Prop :=
  (forall a, a ∈ items -> event_ok a) /\
  forall k, match last_event keyI k items with
            | None => p' !! k = p !! k
            | Some EvDelete => p' !! k = None
            | Some _ => is_Some (p' !! k)
            end.

(** A collection that was not fetched from before is not watched. *)
Definition watched (s : system) (id : collectionUID) (events : list (Event V)) : list task :=
  if decide (id ∈ collectionDependencies (deps (coll s))) then [onSecondary id events] else [].

Inductive sys_step : system -> system -> Prop :=
  | step_parent s p' items :
      keyed_inputs p' -> tells (parent s) p' items ->
      sys_step s (mkSystem (coll s) p' (others s) (queue s ++ [onPrimary items]) (sent s))
  | step_other s id c' events :
      keyed c' -> reported (default ∅ (others s !! id)) c' events ->
      sys_step s (mkSystem (coll s) (parent s) (<[id := c']> (others s)) (queue s ++ watched s id events) (sent s))
  | step_index s name ext :
      sys_step s (mkSystem (fst (many_index (coll s) name ext)) (parent s) (others s) (queue s) (sent s))
  | step_task s t q h' out :
      queue s = t :: q -> run_task s t = Ok (h', out) ->
      sys_step s (mkSystem h' (parent s) (others s) q (sent s ++ out)).

(** Running the whole queue. *)
Fixpoint drain (s : system) (q : list task) : res system :=
  match q with
  | [] => Ok s
  | t :: q => r ← run_task s t; drain (mkSystem (fst r) (parent s) (others s) q (sent s ++ snd r)) q
  end.

(** *** Invariant *)

Context (owner : string -> string) (indexed : collectionUID -> bool).
Context (Ht : transformation_ok extract keyI keyO transformation owner indexed) (HE : forall o, Equal o o = true).

Definition batch_of (t : task) : list (Event I) := match t with onPrimary items => items | onSecondary _ _ => [] end.
Definition pending (q : list task) : list (Event I) := concat (map batch_of q).

(** A queued task will find the input through what it fetched. *)
Definition concerns (h : manyCollection I O V) (k : string) (t : task) : Prop :=
  match t with
  | onPrimary _ => False
  | onSecondary id events =>
      exists ds, objectDependencies (deps h) !! k = Some ds /\
        existsb (fun ev => objectChanged extract ds id ev false) events = true
  end.

Definition fresh (s : system) (k : string) : Prop :=
  match parent s !! k with
  | None => gone_at k (coll s)
  | Some i => computed_at extract keyO Equal transformation k (coll s) (others s) i
  end.

Definition up_to_date (s : system) (k : string) : Prop :=
  fresh s k \/ is_Some (last_event keyI k (pending (queue s))) \/
  (is_Some (parent s !! k) /\ exists t, t ∈ queue s /\ concerns (coll s) k t).

Record sys_ok (s : system) : Prop := {
  so_many : many_ok keyI keyO owner indexed (coll s);
  so_parent : keyed_inputs (parent s);
  so_others id c : others s !! id = Some c -> keyed c;
  so_items a : a ∈ pending (queue s) -> event_ok a;
  so_last k : match last_event keyI k (pending (queue s)) with
              | None => True
              | Some EvDelete => parent s !! k = None
              | Some _ => is_Some (parent s !! k)
              end;
  so_keys k : up_to_date s k;
  so_sent : fold_left (apply_event keyO) (sent s) ∅ = outputs (coll s)
}.

Lemma pending_app q1 q2 : pending (q1 ++ q2) = pending q1 ++ pending q2.
Proof. unfold pending. by rewrite map_app, concat_app. Qed.

Lemma concerns_same k h h' t : same_at owner k h h' -> concerns h k t -> concerns h' k t.
Proof. intros (_ & E & _). destruct t as [|id events]; [done|]. intros (ds & Hds & Hc). exists ds. by rewrite E. Qed.

Lemma fresh_same s h' k :
  sys_ok s -> same_at owner k (coll s) h' -> fresh s k -> fresh (mkSystem h' (parent s) (others s) (queue s) (sent s)) k.
Proof.
  intros Hok Hs. unfold fresh. simpl. destruct (parent s !! k) as [i|] eqn:E.
  - rewrite <-(so_parent s Hok k i E) in *. by apply (computed_at_same _ _ _ _ _ owner indexed).
  - by apply (gone_at_same owner).
Qed.

(** Looking up a collection after another one changed. *)
Lemma world_insert (w : world V) id id' c :
  <[id := c]> w !! id' = if decide (id = id') then Some c else w !! id'.
Proof. apply (lookup_insert (M := gmap collectionUID)). Qed.

Lemma keyed_others s id : sys_ok s -> keyed (default ∅ (others s !! id)).
Proof.
  intros Hok. destruct (others s !! id) as [c|] eqn:E; simpl; [by apply (so_others s Hok id)|].
  intros k v Hv. by rewrite lookup_empty in Hv.
Qed.

Lemma last_event_adds (p : gmap string I) k :
  keyed_inputs p ->
  last_event keyI k (map (fun '(_, i) => Ev.mk None (Some i) EvAdd) (map_to_list p))
  = match p !! k with Some _ => Some EvAdd | None => None end.
Proof.
  intros Hp. destruct (last_event keyI k _) as [e|] eqn:E.
  - apply last_event_in in E as (a & Ha & Hk & He). apply list_elem_of_fmap in Ha as ([k' i] & -> & Hin).
    apply elem_of_map_to_list in Hin. unfold item_key in Hk. simpl in *. injection Hk as <-.
    rewrite (Hp k' i Hin), Hin. by rewrite <-He.
  - destruct (p !! k) as [i|] eqn:Ei; [|done]. exfalso.
    destruct (last_event_elem keyI k (Ev.mk None (Some i) EvAdd)
                (map (fun '(_, i) => Ev.mk None (Some i) EvAdd) (map_to_list p))) as [e He]; [| |congruence].
    + apply list_elem_of_fmap. exists (k, i). split; [done|]. by apply elem_of_map_to_list.
    + unfold item_key. simpl. by rewrite (Hp k i Ei).
Qed.

Lemma many_ok_new : many_ok keyI keyO owner indexed (newManyCollection (I := I) (O := O) (V := V)).
Proof.
  split; simpl; try (intros *; by rewrite lookup_empty).
  - intros k v Hv. by rewrite lookup_empty in Hv.
  - intros k. rewrite !lookup_empty. by split; intros [? ?].
  - apply deps_ok_none.
  - intros name ix Hx. simpl in Hx. by rewrite lookup_empty in Hx.
Qed.

Lemma sys_ok_started p w : keyed_inputs p -> (forall id c, w !! id = Some c -> keyed c) -> sys_ok (started p w).
Proof.
  intros Hp Hw. split; simpl; try done.
  - apply many_ok_new.
  - unfold pending. simpl. rewrite app_nil_r. intros a ([k i] & -> & _)%list_elem_of_fmap. exists (keyI i).
    split; [done|]. unfold Items. simpl. set_solver.
  - intros k. unfold pending. simpl. rewrite app_nil_r, last_event_adds by done. by destruct (p !! k).
  - intros k. unfold up_to_date, fresh, pending. simpl. rewrite app_nil_r, last_event_adds by done.
    destruct (p !! k); [by right; left|]. left. split; apply lookup_empty.
Qed.

Lemma sys_ok_parent s p' items :
  sys_ok s -> keyed_inputs p' -> tells (parent s) p' items ->
  sys_ok (mkSystem (coll s) p' (others s) (queue s ++ [onPrimary items]) (sent s)).
Proof.
  intros Hok Hp [Hl Ht']. destruct Hok as [H1 H2 H3 H4 H5 H6 H7].
  assert (Hq : pending (queue s ++ [onPrimary items]) = pending (queue s) ++ items)
    by (rewrite pending_app; unfold pending; simpl; by rewrite app_nil_r).
  split; simpl; try done; rewrite ?Hq.
  - intros a [?|?]%elem_of_app; [by apply H4|by apply Hl].
  - intros k. rewrite last_event_app. specialize (Ht' k). destruct (last_event keyI k items) as [[]|]; try done.
    rewrite Ht'. apply H5.
  - intros k. unfold up_to_date. simpl. rewrite Hq, last_event_app. specialize (Ht' k).
    destruct (last_event keyI k items) as [e|]; [by right; left|].
    destruct (H6 k) as [Hf|[Hpd|[Hi (t & Hin & Hc)]]].
    + left. unfold fresh in *. simpl. by rewrite Ht'.
    + by right; left.
    + right; right. rewrite Ht'. split; [done|]. exists t. split; [set_solver|done].
Qed.

Lemma computed_unchanged s id c' events k i :
  sys_ok s -> keyed c' -> reported (default ∅ (others s !! id)) c' events ->
  existsb (fun ev => objectChanged extract (deps_of extract transformation (others s) i) id ev false) events = false ->
  computed_at extract keyO Equal transformation k (coll s) (others s) i ->
  computed_at extract keyO Equal transformation k (coll s) (<[id := c']> (others s)) i.
Proof.
  intros Hok Hk Hr Hn (A & B & C).
  assert (Hrun : run extract (<[id := c']> (others s)) (transformation i) = run extract (others s) (transformation i)).
  { apply run_unchanged. intros d Hd. rewrite world_insert. case_decide as Hid; [|done]. cbn [default]. rewrite <-Hid. apply (fetch_unchanged extract _ _ _ events); [by apply keyed_others|done| |done|].
    - destruct (Ht (others s) i) as (_ & Hf & _). pose proof (proj1 (Forall_forall _ _) Hf d Hd) as Hdo. unfold dependency_ok in Hdo.
      unfold filter_ok. by destruct (reverseIndexKey (d_filter d)) as [[[[? ?] ?]|]|?|?].
    - intros ev v Hev Hv. destruct (Matches extract (d_filter d) v false) eqn:E; [|done]. exfalso.
      rewrite <-not_true_iff_false in Hn. apply Hn. apply existsb_elem. exists ev. split; [done|]. unfold objectChanged.
      apply existsb_elem. exists d. split; [done|]. rewrite Hid, Z.eqb_refl. apply existsb_elem. by exists v. }
  unfold computed_at, results_of, deps_of in *. by rewrite Hrun.
Qed.

Lemma sys_ok_other s id c' events :
  sys_ok s -> keyed c' -> reported (default ∅ (others s !! id)) c' events ->
  sys_ok (mkSystem (coll s) (parent s) (<[id := c']> (others s)) (queue s ++ watched s id events) (sent s)).
Proof.
  intros Hok Hk Hr. pose proof Hok as [H1 H2 H3 H4 H5 H6 H7].
  assert (Hq : pending (queue s ++ watched s id events) = pending (queue s)).
  { rewrite pending_app. unfold watched. case_decide; unfold pending; simpl; by rewrite app_nil_r. }
  split; simpl; try done; rewrite ?Hq; try done.
  - intros id' c. rewrite world_insert. case_decide; [by intros [= <-]|apply H3].
  - intros k. unfold up_to_date. simpl. rewrite Hq. destruct (H6 k) as [Hf|[Hpd|[Hi (t & Hin & Hc)]]].
    + unfold fresh in *. simpl. destruct (parent s !! k) as [i|] eqn:E; [|by left].
      destruct (existsb (fun ev => objectChanged extract (deps_of extract transformation (others s) i) id ev false) events) eqn:Ex.
      * right; right. split; [done|]. pose proof Hf as (_ & Hd & _). exists (onSecondary id events). split; [|by exists (deps_of extract transformation (others s) i)].
        apply elem_of_app. right. unfold watched. rewrite decide_True; [set_solver|].
        apply existsb_elem in Ex as (ev & _ & Hoc). unfold objectChanged in Hoc. apply existsb_elem in Hoc as (d & Hin & Hd').
        apply andb_true_iff in Hd' as [<-%Z.eqb_eq _]. by eapply (mo_watched keyI keyO owner indexed).
      * left. by apply computed_unchanged with events.
    + by right; left.
    + right; right. split; [done|]. exists t. split; [set_solver|done].
Qed.

Lemma sys_ok_index s name ext :
  sys_ok s -> sys_ok (mkSystem (fst (many_index (coll s) name ext)) (parent s) (others s) (queue s) (sent s)).
Proof.
  intros [H1 H2 H3 H4 H5 H6 H7]. unfold many_index. destruct (indexes (coll s) !! name) as [ix|] eqn:E; [by split|].
  assert (Hm : forall h', h' = mkMany (outputs (coll s)) (inputs (coll s)) (mappings (coll s)) (deps (coll s))
                           (<[name := new_index ext (outputs (coll s))]> (indexes (coll s))) -> many_ok keyI keyO owner indexed h').
  { intros h' ->. destruct H1. split; simpl; try done. intros n ix. simpl. rewrite lookup_insert_Some. intros [[_ <-]|[_ Hx]].
    - apply new_index_ok.
    - by eapply mo_indexes. }
  split; simpl; try done. by apply Hm.
Qed.

(** *** Tasks *)

Lemma refresh_item p a :
  keyed_inputs p -> event_ok a ->
  exists k, item_key keyI a = Some k /\ item_key keyI (refresh keyI p a) = Some k /\
    match p !! k with
    | None => Ev.Event (refresh keyI p a) = EvDelete
    | Some i => Ev.Event (refresh keyI p a) = Ev.Event a /\ Latest (refresh keyI p a) = Some i
    end.
Proof.
  intros Hp (k & Hk & Hi). exists k. split; [done|]. unfold refresh, item_key in *.
  destruct (Latest a) as [l|] eqn:El; [|done]. simpl in Hk. injection Hk as <-.
  destruct (p !! keyI l) as [i|] eqn:E; simpl; [by rewrite (Hp _ _ E)|]. split; [|done].
  unfold Latest in *. simpl. unfold Items in Hi.
  destruct (Ev.Old a) as [o|]; simpl; [|by destruct (Ev.New a); simplify_eq]. f_equal. apply Hi. simpl. by left.
Qed.

Lemma refresh_coherent p items :
  keyed_inputs p -> (forall a, a ∈ items -> event_ok a) -> coherent keyI p (map (refresh keyI p) items).
Proof.
  intros Hp Hi b (a & -> & Ha)%list_elem_of_fmap. destruct (refresh_item p a Hp (Hi a Ha)) as (k & _ & Hk & Hm).
  unfold item_key in Hk. destruct (Latest (refresh keyI p a)) as [i|] eqn:El; [|done]. exists i. split; [done|].
  simpl in Hk. injection Hk as <-. destruct (p !! keyI i) as [j|]; [|done]. intros _. by destruct Hm as [_ [= ->]].
Qed.

Lemma refresh_last p items k :
  keyed_inputs p -> (forall a, a ∈ items -> event_ok a) ->
  last_event keyI k (map (refresh keyI p) items)
  = (fun e => match p !! k with None => EvDelete | Some _ => e end) <$> last_event keyI k items.
Proof.
  intros Hp. induction items as [|a items IH]; intros Hi; simpl; [done|]. rewrite IH by (intros b Hb; apply Hi; by right).
  destruct (last_event keyI k items) as [e|]; simpl; [done|].
  destruct (refresh_item p a Hp (Hi a ltac:(by left))) as (k' & -> & -> & Hm). case_decide as Hk; [|done].
  injection Hk as ->. simpl. destruct (p !! k); [by destruct Hm as [-> _]|by rewrite Hm].
Qed.

Lemma sys_ok_primary s items q :
  sys_ok s -> queue s = onPrimary items :: q ->
  exists h' out, run_task s (onPrimary items) = Ok (h', out) /\ sys_ok (mkSystem h' (parent s) (others s) q (sent s ++ out)).
Proof.
  intros Hok Hq. pose proof Hok as [H1 H2 H3 H4 H5 H6 H7]. rewrite Hq in *. unfold pending in H4, H5. simpl in H4, H5.
  change (concat (map batch_of q)) with (pending q) in H4, H5.
  assert (Hi : forall a, a ∈ items -> event_ok a) by (intros a Ha; apply H4; set_solver).
  simpl. unfold onPrimaryInputEvent.
  destruct (handle_batch_spec extract keyI keyO Equal zeroI zeroO transformation owner indexed (parent s) (coll s) (others s)
              (map (refresh keyI (parent s)) items) Ht HE H1 (refresh_coherent _ _ H2 Hi)) as (h' & out & -> & Hm & Hf & _ & Hb).
  exists h', out. split; [done|]. split; simpl; try done.
  - intros a Ha. apply H4. set_solver.
  - intros k. specialize (H5 k). rewrite last_event_app in H5. by destruct (last_event keyI k (pending q)).
  - intros k. unfold up_to_date, fresh. simpl. specialize (Hb k). unfold batch_effect in Hb. rewrite refresh_last in Hb by done.
    specialize (H5 k). rewrite last_event_app in H5.
    destruct (last_event keyI k (pending q)) as [eq|] eqn:El; [by right; left|]. specialize (H6 k).
    destruct (last_event keyI k items) as [e|] eqn:Ee; simpl in Hb.
    + left. destruct (parent s !! k) as [i|] eqn:Ep; [|done]. destruct e; [| |done];
        destruct Hb as (j & Hj & _ & Hc); by simplify_eq.
    + unfold up_to_date in H6. rewrite Hq in H6. unfold pending in H6. simpl in H6. rewrite last_event_app, Ee in H6.
      destruct H6 as [Hfr|[Hpd|[Hp (t & Hin & Hc)]]].
      * left. apply (fresh_same s h' k Hok Hb Hfr).
      * change (concat (map batch_of q)) with (pending q) in Hpd. rewrite El in Hpd. by destruct Hpd.
      * right; right. split; [done|]. exists t. apply elem_of_cons in Hin as [->|Hin]; [done|]. split; [done|].
        by apply (concerns_same k (coll s)).
  - by rewrite fold_left_app, H7.
Qed.

Lemma dependent_item (h : manyCollection I O V) p k a :
  many_ok keyI keyO owner indexed h -> keyed_inputs p -> a ∈ dependent_events zeroI h p k ->
  item_key keyI a = Some k /\
  match p !! k with None => Ev.Event a = EvDelete | Some i => a = Ev.mk None (Some i) EvUpdate end.
Proof.
  intros Hm Hp. unfold dependent_events. destruct (p !! k) as [i|] eqn:E.
  - intros ->%list_elem_of_singleton. unfold item_key. simpl. by rewrite (Hp k i E).
  - intros (o & Ho & Ha)%list_elem_of_omap. case_bool_decide; [|done]. injection Ha as <-. split; [|done].
    destruct (mappings h !! k) as [ks|] eqn:Ek; simpl in Ho; [|by apply elem_of_elements in Ho].
    destruct (mo_inputs _ _ _ _ h Hm k ks Ek) as (i & Hi & Hk). unfold item_key. simpl. by rewrite Hi, <-Hk.
Qed.

Lemma dependent_items (h : manyCollection I O V) p (keys : list string) a :
  many_ok keyI keyO owner indexed h -> keyed_inputs p -> a ∈ concat (map (dependent_events zeroI h p) keys) ->
  exists k, k ∈ keys /\ item_key keyI a = Some k /\
    match p !! k with None => Ev.Event a = EvDelete | Some i => a = Ev.mk None (Some i) EvUpdate end.
Proof.
  intros Hm Hp. rewrite list_elem_of_In, in_concat. intros (l & (k & <- & Hk)%in_map_iff & Hin).
  exists k. split; [by apply list_elem_of_In|]. apply (dependent_item h p k a Hm Hp). by apply list_elem_of_In.
Qed.

Lemma concerned_found s id events k :
  sys_ok s -> concerns (coll s) k (onSecondary id events) -> k ∈ changedInputKeys extract (deps (coll s)) id events.
Proof.
  intros Hok (ds & Hds & Hx). apply existsb_elem in Hx as (ev & Hev & Hx). unfold objectChanged in Hx.
  apply existsb_elem in Hx as (d & Hd & Hx). apply andb_true_iff in Hx as [Hid%Z.eqb_eq Hx]. apply existsb_elem in Hx as (v & Hv & Hmt).
  by apply (changed_inputs_complete extract indexed (deps (coll s)) id events ev v k ds d (mo_deps _ _ _ _ _ (so_many s Hok))).
Qed.

Lemma sys_ok_secondary s id events q :
  sys_ok s -> queue s = onSecondary id events :: q ->
  exists h' out, run_task s (onSecondary id events) = Ok (h', out) /\
    sys_ok (mkSystem h' (parent s) (others s) q (sent s ++ out)).
Proof.
  intros Hok Hq. pose proof Hok as [H1 H2 H3 H4 H5 H6 H7]. simpl. unfold onSecondaryDependencyEvent.
  set (items := concat _). assert (Hpq : pending (queue s) = pending q) by (by rewrite Hq).
  assert (Hit : forall a, a ∈ items -> exists k, k ∈ elements (changedInputKeys extract (deps (coll s)) id events) /\
    item_key keyI a = Some k /\ match parent s !! k with None => Ev.Event a = EvDelete | Some i => a = Ev.mk None (Some i) EvUpdate end)
    by (intros a Ha; by apply (dependent_items (coll s))).
  destruct (handle_batch_spec extract keyI keyO Equal zeroI zeroO transformation owner indexed (parent s) (coll s) (others s)
              items Ht HE H1) as (h' & out & -> & Hm & Hf & _ & Hb).
  { intros a Ha. destruct (Hit a Ha) as (k & _ & Hk & Hmt). unfold item_key in Hk. destruct (Latest a) as [i|] eqn:El; [|done].
    exists i. split; [done|]. simpl in Hk. injection Hk as <-. intros Hne. destruct (parent s !! keyI i) as [j|]; [|done].
    subst a. simpl in El. by injection El as ->. }
  exists h', out. split; [done|]. rewrite Hpq in H4, H5. split; simpl; try done; [|by rewrite fold_left_app, H7].
  intros k. specialize (Hb k). unfold batch_effect in Hb. unfold up_to_date, fresh. simpl.
  destruct (last_event keyI k items) as [e|] eqn:Ee.
  - apply last_event_in in Ee as (a & Ha & Hk & He). destruct (Hit a Ha) as (k' & _ & Hk' & Hmt).
    rewrite Hk in Hk'. injection Hk' as <-. left. destruct (parent s !! k) as [i|] eqn:Ep.
    + rewrite Hmt in He. simpl in He. subst e. destruct Hb as (j & Hj & _ & Hc). by simplify_eq.
    + rewrite Hmt in He. by subst e.
  - specialize (H6 k). unfold up_to_date in H6. rewrite Hpq in H6. destruct H6 as [Hfr|[Hpd|[Hp (t & Hin & Hc)]]].
    + left. apply (fresh_same s h' k Hok Hb Hfr).
    + by right; left.
    + right; right. split; [done|]. rewrite Hq in Hin. apply elem_of_cons in Hin as [->|Hin].
      * exfalso. pose proof (concerned_found s id events k Hok Hc) as Hk. destruct Hp as [i Hi].
        destruct (last_event_elem keyI k (Ev.mk None (Some i) EvUpdate) items) as [e He]; [| |congruence].
        -- unfold items. rewrite list_elem_of_In, in_concat. eexists. split; [apply in_map, list_elem_of_In, elem_of_elements, Hk|].
           unfold dependent_events. rewrite Hi. by left.
        -- unfold item_key. simpl. by rewrite (H2 k i Hi).
      * exists t. split; [done|]. by apply (concerns_same k (coll s)).
Qed.

Lemma sys_ok_task s t q :
  sys_ok s -> queue s = t :: q ->
  exists h' out, run_task s t = Ok (h', out) /\ sys_ok (mkSystem h' (parent s) (others s) q (sent s ++ out)).
Proof. destruct t; [apply sys_ok_primary|apply sys_ok_secondary]. Qed.

Lemma sys_ok_reachable p w s :
  keyed_inputs p -> (forall id c, w !! id = Some c -> keyed c) -> rtc sys_step (started p w) s -> sys_ok s.
Proof.
  intros Hp Hw Hr. pose proof (sys_ok_started p w Hp Hw) as Hok. induction Hr as [|s1 s2 s3 Hst _ IH]; [done|]. apply IH.
  destruct Hst as [s p' items Hk Htl|s id c' events Hk Hrep|s name ext|s t q h' out Hq Hrun].
  - by apply sys_ok_parent.
  - by apply sys_ok_other.
  - by apply sys_ok_index.
  - destruct (sys_ok_task s t q Hok Hq) as (h2 & out2 & E & Hok'). rewrite Hrun in E. by injection E as -> ->.
Qed.

Lemma drain_spec s :
  sys_ok s -> exists s', drain s (queue s) = Ok s' /\ sys_ok s' /\ queue s' = [] /\ parent s' = parent s /\ others s' = others s.
Proof.
  remember (queue s) as q eqn:Hq. revert s Hq. induction q as [|t q IH]; intros s Hq Hok; cbn [drain]; [by exists s|].
  destruct (sys_ok_task s t q Hok (eq_sym Hq)) as (h' & out & -> & Hok'). cbn [mbind res_bind fst snd].
  exact (IH (mkSystem h' (parent s) (others s) q (sent s ++ out)) eq_refl Hok').
Qed.

(** What the collection is to hold: for every object of the parent, the results of
    the transformation over the collections as they are. *)
Definition derived (p : gmap string I) (w : world V) (o : string) : option O :=
  i ← p !! owner o; results_of extract keyO transformation w i !! o.

Lemma idle_outputs s o :
  sys_ok s -> queue s = [] ->
  option_Forall2 (fun n v => Equal n v = true) (derived (parent s) (others s) o) (outputs (coll s) !! o).
Proof.
  intros [H1 H2 H3 H4 H5 H6 H7] Hq. unfold derived. destruct (H6 (owner o)) as [Hf|[Hpd|[_ (t & Hin & _)]]].
  - unfold fresh in Hf. destruct (parent s !! owner o) as [i|] eqn:E; simpl.
    + destruct Hf as (A & _ & C). destruct (results_of extract keyO transformation (others s) i !! o) as [n|] eqn:Er.
      * destruct (C o n Er) as (v & -> & Hv). by constructor.
      * destruct (outputs (coll s) !! o) as [v|] eqn:Eo; [|constructor].
        destruct (mo_mapped _ _ _ _ _ H1 o v Eo) as (ks & Hks & Hin). rewrite A in Hks. injection Hks as <-.
        apply elem_of_dom in Hin as [? ?]. congruence.
    + destruct Hf as [A _]. destruct (outputs (coll s) !! o) as [v|] eqn:Eo; [|constructor].
      destruct (mo_mapped _ _ _ _ _ H1 o v Eo) as (ks & Hks & Hin). congruence.
  - rewrite Hq in Hpd. by destruct Hpd.
  - rewrite Hq in Hin. by apply elem_of_nil in Hin.
Qed.

End system.

(** ** Theorems *)

(** C4 A derived collection converges, for a transformation of which every
    output key belongs to one input, that discards no result, and that fetches
    from each other collection either always by key or index or never so
    ([transformation_ok]), with a reflexive [Equal] and collections keyed by their
    objects' keys.  From whatever state the interleaving of changes of the parent,
    changes of the fetched collections, new indexes and handled tasks led to, the
    queued tasks run without a panic, and then every output is one that recomputing
    from the current objects gives, up to [Equal], and nothing else is there.  The
    condition on fetches is needed: where inputs fetch from one collection in both
    ways, the code misses updates (a finding, [mixed_fetches_miss_update]). *)
Theorem derived_converges {I O V} `{Object V} extract keyI keyO Equal zeroI zeroO transformation owner indexed
    (p : gmap string I) (w : world V) (s : system (I := I) (O := O)) :
  transformation_ok extract keyI keyO transformation owner indexed -> (forall o, Equal o o = true) ->
  keyed_inputs keyI p -> (forall id c, w !! id = Some c -> keyed c) ->
  rtc (sys_step extract keyI keyO Equal zeroI zeroO transformation) (started p w) s ->
  exists s', drain extract keyI keyO Equal zeroI zeroO transformation s (queue s) = Ok s' /\
    queue s' = [] /\ parent s' = parent s /\ others s' = others s /\
    forall o, option_Forall2 (fun n v => Equal n v = true)
                (derived extract keyO transformation owner (parent s) (others s) o) (many_GetKey (coll s') o).
Proof.
  intros Ht HE Hp Hw Hr.
  pose proof (sys_ok_reachable extract keyI keyO Equal zeroI zeroO transformation owner indexed Ht HE p w s Hp Hw Hr) as Hok.
  destruct (drain_spec extract keyI keyO Equal zeroI zeroO transformation owner indexed Ht HE s Hok) as (s' & E & Hok' & Hq & Ep & Eo).
  exists s'. split; [done|]. split; [done|]. split; [done|]. split; [done|]. intros o. rewrite <-Ep, <-Eo.
  by eapply idle_outputs.
Qed.

(** Listeners see the collection: in every reachable state the events sent so
    far, replayed, give the outputs, and every index lists exactly the objects it
    is asked for. *)
Theorem events_replay {I O V} `{Object V} extract keyI keyO Equal zeroI zeroO transformation owner indexed
    (p : gmap string I) (w : world V) (s : system (I := I) (O := O)) :
  transformation_ok extract keyI keyO transformation owner indexed -> (forall o, Equal o o = true) ->
  keyed_inputs keyI p -> (forall id c, w !! id = Some c -> keyed c) ->
  rtc (sys_step extract keyI keyO Equal zeroI zeroO transformation) (started p w) s ->
  fold_left (apply_event keyO) (sent s) ∅ = outputs (coll s) /\
  forall name ix key o, indexes (coll s) !! name = Some ix ->
    (o ∈ Lookup ix (outputs (coll s)) key <-> exists oKey, many_GetKey (coll s) oKey = Some o /\ key ∈ ix_extract ix o).
Proof.
  intros Ht HE Hp Hw Hr.
  pose proof (sys_ok_reachable extract keyI keyO Equal zeroI zeroO transformation owner indexed Ht HE p w s Hp Hw Hr) as Hok.
  split; [apply (so_sent _ _ _ _ _ _ _ _ Hok)|]. intros name ix key o Hix.
  apply Lookup_spec. by apply (mo_indexes _ _ _ _ _ (so_many _ _ _ _ _ _ _ _ Hok) name).
Qed.

(** ** An instance

    An input names an object of collection 1; its output has the text of it. *)
Definition copy_text (i : string * string) : handler (string * string) (list (string * string)) :=
  Fetch 1 (FilterKey (snd i) no_filter)
    (fun m => Return (match m !! snd i with Some v => [(fst i, snd v)] | None => [] end)).
Definition same_text (a b : string * string) : bool := String.eqb (snd a) (snd b).

Definition demo_step := sys_step no_index fst fst same_text ("", "") ("", "") copy_text.
Definition demo_drain := drain no_index fst fst same_text ("", "") ("", "") copy_text.
Definition demo_parent : gmap string (string * string) := {["a" := ("a", "x")]}.
Definition demo_others : world (string * string) := {[1 := {["x" := ("x", "old")]}]}.
Definition demo_start : system (O := string * string) := started demo_parent demo_others.
Definition demo_run : system := from_ok demo_start (demo_drain demo_start (queue demo_start)).
Definition demo_events : list (Event (string * string)) := [Ev.mk (Some ("x", "old")) (Some ("x", "new")) EvUpdate].
(** The text changed after it was fetched. *)
Definition demo_changed : system :=
  mkSystem (coll demo_run) (parent demo_run) (<[1 := {["x" := ("x", "new")]}]> (others demo_run))
    (queue demo_run ++ watched demo_run 1 demo_events) (sent demo_run).

Lemma FilterKey_keys {V} (k : string) (f : filter V) : f_keys (FilterKey k f) = Some [k].
Proof.
  simpl. unfold GoSet.UnsortedList. f_equal. transitivity (elements ({[k]} : gset string)); [|apply elements_singleton].
  f_equal. simpl. apply leibniz_equiv. set_solver.
Qed.

Lemma copy_text_ok : transformation_ok no_index fst fst copy_text id (fun _ => true).
Proof.
  intros w i. split; [done|]. split.
  { cbn. apply Forall_singleton. unfold dependency_ok, reverseIndexKey. cbn [d_filter]. by rewrite FilterKey_keys. }
  intros o. simpl.
  destruct (fetch _ _ _ !! snd i) as [v|]; [|by intros ?%elem_of_nil]. by intros ->%list_elem_of_singleton.
Qed.

Lemma same_text_refl o : same_text o o = true.
Proof. apply String.eqb_refl. Qed.

Lemma demo_keyed_parent : keyed_inputs fst demo_parent.
Proof. intros k i. unfold demo_parent. rewrite lookup_singleton_Some. by intros [<- <-]. Qed.

Lemma keyed_single (k : string) (t : string) : keyed {[k := (k, t)]}.
Proof. intros k' v. rewrite lookup_singleton_Some. by intros [<- <-]. Qed.

Lemma demo_keyed_others id c : demo_others !! id = Some c -> keyed c.
Proof. unfold demo_others. intros Hl. apply (lookup_singleton_Some (M := gmap Z)) in Hl as [_ <-]. apply keyed_single. Qed.

Lemma demo_reachable : rtc demo_step demo_start demo_changed.
Proof.
  eapply rtc_l; [|eapply rtc_l; [|apply rtc_refl]].
  - eapply (step_task _ _ _ _ _ _ _ demo_start _ [] (coll demo_run) (sent demo_run)); [reflexivity|].
    vm_compute. reflexivity.
  - apply (step_other _ _ _ _ _ _ _ demo_run 1 {["x" := ("x", "new")]} demo_events); [apply keyed_single|].
    intros k. destruct (decide (k = "x")) as [->|Hne]; [right|left].
    + eexists. split; [by left|]. intros v Hv. change (Some ("x", "old") = Some v \/ Some ("x", "new") = Some v) in Hv.
      unfold Items. simpl. destruct Hv as [[= <-]|[= <-]]; set_solver.
    + change (({["x" := ("x", "old")]} : gmap string (string * string)) !! k = ({["x" := ("x", "new")]} : gmap string (string * string)) !! k).
      by rewrite !lookup_singleton_ne.
Qed.

Lemma derived_converges_witness :
  queue demo_changed <> [] /\ snd <$> many_GetKey (coll demo_changed) "a" = Some "old" /\
  exists s', demo_drain demo_changed (queue demo_changed) = Ok s' /\
    queue s' = [] /\ parent s' = parent demo_changed /\ others s' = others demo_changed /\
    forall o, option_Forall2 (fun n v => same_text n v = true)
                (derived no_index fst copy_text id (parent demo_changed) (others demo_changed) o) (many_GetKey (coll s') o).
Proof.
  split; [done|]. split; [reflexivity|].
  apply (derived_converges no_index fst fst same_text ("", "") ("", "") copy_text id (fun _ => true) demo_parent demo_others);
    [exact copy_text_ok|exact same_text_refl|exact demo_keyed_parent|exact demo_keyed_others|exact demo_reachable].
Defined.

Lemma events_replay_witness :
  length (sent demo_changed) = 1%nat /\ fold_left (apply_event fst) (sent demo_changed) ∅ = outputs (coll demo_changed).
Proof.
  split; [reflexivity|].
  apply (events_replay no_index fst fst same_text ("", "") ("", "") copy_text id (fun _ => true) demo_parent demo_others);
    [exact copy_text_ok|exact same_text_refl|exact demo_keyed_parent|exact demo_keyed_others|exact demo_reachable].
Defined.
