(* ===== verification/KrtStatic.v ===== *)
(** * Static collections

    [pkg/kube/krt/static.go]: a collection that is changed by calls.  Every change
    is told to the handlers of the collection, and its indexes follow. *)

From S2P Require Import Prelude GoStrings GoSets GoSlices Krt KrtCollection.

Section static.
Context {T : Type} (key : T -> string) (Equal : T -> T -> bool).

(** [staticList]; its indexes are those of a derived collection. *)
Record staticList : Type := mkStatic { vals : gmap string T; s_indexes : gmap string (collectionIndex T) }.

Definition NewStaticCollection (vs : list T) : staticList := mkStatic (fold_left (fun m v => <[key v := v]> m) vs ∅) ∅.

Definition DeleteObject (s : staticList) (k : string) : staticList * list (Event T) :=
  match vals s !! k with
  | Some old =>
      (mkStatic (delete k (vals s)) ((fun ix => index_delete ix old k) <$> s_indexes s), [Ev.mk (Some old) None EvDelete])
  | None => (s, [])
  end.

Definition DeleteObjects (filter : T -> bool) (s : staticList) : staticList * list (Event T) :=
  fold_left (fun '(s, removed) '(k, v) =>
    if filter v then
      (mkStatic (delete k (vals s)) ((fun ix => index_delete ix v k) <$> s_indexes s), removed ++ [Ev.mk (Some v) None EvDelete])
    else (s, removed)) (map_to_list (vals s)) (s, []).

(** One object of the new state: what is left of the old one, the new one, the
    indexes and the events. *)
Definition reset_object (acc : gmap string T * gmap string T * gmap string (collectionIndex T) * list (Event T))
    (incoming : T) : gmap string T * gmap string T * gmap string (collectionIndex T) * list (Event T) :=
  let '(rest, nv, idx, updates) := acc in
  let k := key incoming in
  let nv := <[k := incoming]> nv in
  match rest !! k with
  | Some old =>
      if Equal old incoming then (delete k rest, nv, idx, updates)
      else let ev := Ev.mk (Some old) (Some incoming) EvUpdate in
           (delete k rest, nv, (fun ix => index_update ix ev k) <$> idx, updates ++ [ev])
  | None =>
      let ev := Ev.mk None (Some incoming) EvAdd in
      (delete k rest, nv, (fun ix => index_update ix ev k) <$> idx, updates ++ [ev])
  end.

Definition Reset (newState : list T) (s : staticList) : staticList * list (Event T) :=
  let '(rest, nv, idx, updates) := fold_left reset_object newState (vals s, ∅, s_indexes s, []) in
  let '(idx, updates) := fold_left (fun '(idx, updates) '(k, remaining) =>
    ((fun ix => index_delete ix remaining k) <$> idx, updates ++ [Ev.mk (Some remaining) None EvDelete]))
    (map_to_list rest) (idx, updates) in
  (mkStatic nv idx, updates).

Definition updateObject (obj : T) (conditional : bool) (s : staticList) : staticList * list (Event T) :=
  let k := key obj in
  match vals s !! k with
  | Some old =>
      if conditional && Equal old obj then (mkStatic (<[k := obj]> (vals s)) (s_indexes s), [])
      else let ev := Ev.mk (Some old) (Some obj) EvUpdate in
           (mkStatic (<[k := obj]> (vals s)) ((fun ix => index_update ix ev k) <$> s_indexes s), [ev])
  | None =>
      let ev := Ev.mk None (Some obj) EvAdd in
      (mkStatic (<[k := obj]> (vals s)) ((fun ix => index_update ix ev k) <$> s_indexes s), [ev])
  end.
Definition UpdateObject (obj : T) : staticList -> staticList * list (Event T) := updateObject obj false.
Definition ConditionalUpdateObject (obj : T) : staticList -> staticList * list (Event T) := updateObject obj true.

Definition static_GetKey (s : staticList) (k : string) : option T := vals s !! k.
Definition static_List (s : staticList) : list T := map snd (map_to_list (vals s)).

Definition static_index (name : string) (extract : T -> list string) (s : staticList) : staticList * collectionIndex T :=
  match s_indexes s !! name with
  | Some idx => (s, idx)
  | None => let idx := new_index extract (vals s) in (mkStatic (vals s) (<[name := idx]> (s_indexes s)), idx)
  end.

(** What a new handler is sent first. *)
Definition RegisterBatch_existing (s : staticList) (runExistingState : bool) : list (Event T) :=
  if runExistingState then map (fun '(_, v) => Ev.mk None (Some v) EvAdd) (map_to_list (vals s)) else [].

(** *** Sequences of calls *)

Inductive static_op : Type :=
  | OpUpdate (obj : T)
  | OpConditionalUpdate (obj : T)
  | OpDelete (k : string)
  | OpDeleteObjects (filter : T -> bool)
  | OpReset (newState : list T)
  | OpIndex (name : string) (extract : T -> list string).

Definition call (s : staticList) (op : static_op) : staticList * list (Event T) :=
  match op with
  | OpUpdate obj => UpdateObject obj s
  | OpConditionalUpdate obj => ConditionalUpdateObject obj s
  | OpDelete k => DeleteObject s k
  | OpDeleteObjects f => DeleteObjects f s
  | OpReset l => Reset l s
  | OpIndex name ext => (fst (static_index name ext s), [])
  end.

Definition calls (s : staticList) (ops : list static_op) : staticList * list (Event T) :=
  fold_left (fun '(s, sent) op => let '(s', evs) := call s op in (s', sent ++ evs)) ops (s, []).

(** What a map would hold after the calls. *)
Definition map_call (m : gmap string T) (op : static_op) : gmap string T :=
  match op with
  | OpUpdate obj | OpConditionalUpdate obj => <[key obj := obj]> m
  | OpDelete k => delete k m
  | OpDeleteObjects f => base.filter (fun kv => f (snd kv) = false) m
  | OpReset l => list_to_map (map (fun o => (key o, o)) l)
  | OpIndex _ _ => m
  end.

(** Objects a call resets to have keys of their own, and an index does not tell
    equal objects apart. *)
Definition op_ok (op : static_op) : Prop :=
  match op with
  | OpReset l => NoDup (map key l)
  | OpIndex _ ext => forall a b k, Equal a b = true -> k ∈ ext a <-> k ∈ ext b
  | _ => True
  end.

End static.
Arguments staticList T : clear implicits.

(** ** Lemmas *)

Section static_lemmas.
Context {T : Type} (key : T -> string) (Equal : T -> T -> bool).
Context (Hrefl : forall a, Equal a a = true) (Htrans : forall a b c, Equal a b = true -> Equal b c = true -> Equal a c = true).
Implicit Types (m told : gmap string T) (idx : gmap string (collectionIndex T)).

Notation same := (fun a b => Equal a b = true).
Definition similar told m : Prop := forall k, option_Forall2 same (told !! k) (m !! k).
Definition respects (ext : T -> list string) : Prop := forall a b k, Equal a b = true -> k ∈ ext a <-> k ∈ ext b.
Definition idx_ok idx m : Prop := forall name ix, idx !! name = Some ix -> index_ok ix m /\ respects (ix_extract ix).

(** A state, and what the handlers were told of it. *)
Definition state_ok idx m told : Prop := keyed_outputs key m /\ idx_ok idx m /\ similar told m.

Lemma similar_insert told m k o : similar told m -> similar (<[k := o]> told) (<[k := o]> m).
Proof. intros Hs x. rewrite !lookup_insert. case_decide; [by constructor|apply Hs]. Qed.

Lemma similar_delete told m k : similar told m -> similar (delete k told) (delete k m).
Proof. intros Hs x. rewrite !lookup_delete. case_decide; [constructor|apply Hs]. Qed.

Lemma similar_equal told m k old o :
  similar told m -> m !! k = Some old -> Equal old o = true -> similar told (<[k := o]> m).
Proof.
  intros Hs Hk He x. rewrite lookup_insert. case_decide as Hx; [subst x|apply Hs]. specialize (Hs k). rewrite Hk in Hs.
  inversion Hs as [a b Hab Ha Hb|]; subst. constructor. by apply (Htrans _ old).
Qed.

Lemma index_keep_equal ix m k old o :
  index_ok ix m -> respects (ix_extract ix) -> m !! k = Some old -> Equal old o = true -> index_ok ix (<[k := o]> m).
Proof.
  intros Hix Hre Hk He x y. rewrite (Hix x y). setoid_rewrite lookup_insert_Some. split.
  - intros (a & Ha & Hx). destruct (decide (y = k)) as [->|Hne]; [|exists a; naive_solver].
    exists o. split; [by left|]. rewrite Hk in Ha. injection Ha as <-. by apply (Hre old o).
  - intros (a & [[<- <-]|[_ Ha]] & Hx); [|by exists a]. exists old. split; [done|]. by apply (Hre old o).
Qed.

(** An object is set or removed, and the change is told. *)
Lemma state_set idx m told ev k :
  state_ok idx m told -> Ev.Old ev = m !! k -> (forall n, Ev.New ev = Some n -> key n = k) ->
  (Ev.New ev = None -> is_Some (m !! k)) ->
  state_ok ((fun ix => index_update ix ev k) <$> idx)
    (match Ev.New ev with Some n => <[k := n]> m | None => delete k m end) (apply_event key told ev).
Proof.
  intros (Hm & Hi & Hs) Ho Hn Hd. split; [|split].
  - intros x v. destruct (Ev.New ev) as [n|]; [rewrite lookup_insert_Some|rewrite lookup_delete_Some].
    + intros [[<- <-]|[_ Hv]]; [by apply Hn|by apply Hm].
    + intros [_ Hv]. by apply Hm.
  - intros name ix. rewrite lookup_fmap_Some. intros (ix0 & <- & Hix). destruct (Hi name ix0 Hix) as [H1 H2].
    rewrite index_update_extract. split; [by apply index_update_ok|done].
  - unfold apply_event. destruct (Ev.New ev) as [n|] eqn:E; [rewrite (Hn n eq_refl); by apply similar_insert|].
    destruct (Hd eq_refl) as [o Hoo]. rewrite Ho, Hoo, (Hm k o Hoo). by apply similar_delete.
Qed.

(** An object is replaced by an equal one, which is not told. *)
Lemma state_equal idx m told o old :
  state_ok idx m told -> m !! key o = Some old -> Equal old o = true -> state_ok idx (<[key o := o]> m) told.
Proof.
  intros (Hm & Hi & Hs) Ho He. split; [|split].
  - intros x v. rewrite lookup_insert_Some. intros [[<- <-]|[_ Hv]]; [done|by apply Hm].
  - intros name ix Hix. destruct (Hi name ix Hix) as [H1 H2]. split; [|done]. by apply index_keep_equal with old.
  - by apply similar_equal with old.
Qed.

Lemma updateObject_spec obj c s told :
  state_ok (s_indexes s) (vals s) told ->
  let '(s', evs) := updateObject key Equal obj c s in
  state_ok (s_indexes s') (vals s') (fold_left (apply_event key) evs told) /\ vals s' = <[key obj := obj]> (vals s).
Proof.
  intros Hok. unfold updateObject. destruct (vals s !! key obj) as [old|] eqn:E.
  - destruct (c && Equal old obj) eqn:Ec; simpl.
    + split; [|done]. apply andb_true_iff in Ec as [_ Ec]. by apply state_equal with old.
    + split; [|done]. apply (state_set _ _ _ (Ev.mk (Some old) (Some obj) EvUpdate)); simpl; try done. by intros n [= <-].
  - simpl. split; [|done]. apply (state_set _ _ _ (Ev.mk None (Some obj) EvAdd)); simpl; try done. by intros n [= <-].
Qed.

Lemma DeleteObject_spec s k told :
  state_ok (s_indexes s) (vals s) told ->
  let '(s', evs) := DeleteObject s k in
  state_ok (s_indexes s') (vals s') (fold_left (apply_event key) evs told) /\ vals s' = delete k (vals s).
Proof.
  intros Hok. unfold DeleteObject. destruct (vals s !! k) as [old|] eqn:E; simpl.
  - split; [|done]. apply (state_set _ _ _ (Ev.mk (Some old) None EvDelete)); by rewrite ?E.
  - split; [done|]. by rewrite delete_id.
Qed.

Lemma DeleteObjects_fold (f : T -> bool) (l : list (string * T)) (s : staticList T) removed told :
  NoDup l.*1 -> (forall k v, (k, v) ∈ l -> vals s !! k = Some v) -> state_ok (s_indexes s) (vals s) told ->
  exists s' evs, fold_left (fun '(s, removed) '(k, v) =>
    if f v then (mkStatic (delete k (vals s)) ((fun ix => index_delete ix v k) <$> s_indexes s), removed ++ [Ev.mk (Some v) None EvDelete])
    else (s, removed)) l (s, removed) = (s', removed ++ evs) /\
  state_ok (s_indexes s') (vals s') (fold_left (apply_event key) evs told) /\
  forall k v, vals s' !! k = Some v <-> vals s !! k = Some v /\ ((k, v) ∈ l -> f v = false).
Proof.
  revert s removed told. induction l as [|[k v] l IH]; intros s removed told Hnd Hl Hok; cbn [fold_left].
  { exists s, []. rewrite app_nil_r. split_and!; try done. intros k v. split; [|naive_solver].
    intros Hv. split; [done|]. by intros ?%elem_of_nil. }
  apply NoDup_cons in Hnd as [Hk Hnd]. pose proof (Hl k v ltac:(by left)) as Hv. simpl in Hk.
  assert (Hne : forall k' v', (k', v') ∈ l -> k' <> k).
  { intros k' v' Hin ->. apply Hk, list_elem_of_fmap. by exists (k, v'). }
  destruct (f v) eqn:Ef.
  - set (s1 := mkStatic _ _). set (e := Ev.mk (Some v) None EvDelete).
    destruct (IH s1 (removed ++ [e]) (apply_event key told e) Hnd) as (s' & evs & -> & Hok' & Hv').
    { intros k' v' Hin. simpl. rewrite lookup_delete_ne by (intros <-; by apply (Hne k v')). apply Hl. by right. }
    { apply (state_set _ _ _ e); by rewrite ?Hv. }
    exists s', (e :: evs). rewrite <-app_assoc. split; [done|]. split; [done|]. intros k' v'. rewrite Hv'. simpl.
    rewrite lookup_delete_Some. split.
    + intros [[Hkk Hvv] Hin]. split; [done|]. intros [Heq|?]%elem_of_cons; [|auto]. by simplify_eq.
    + intros [Hvv Hin]. split; [|intros ?; apply Hin; by right]. split; [|done]. intros <-.
      rewrite Hv in Hvv. injection Hvv as <-. rewrite Hin in Ef; [done|by left].
  - destruct (IH s removed told Hnd) as (s' & evs & -> & Hok' & Hv'); [|done|].
    { intros k' v' Hin. apply Hl. by right. }
    exists s', evs. split; [done|]. split; [done|]. intros k' v'. rewrite Hv'. split; intros [Hvv Hin]; (split; [done|]).
    + intros [Heq|?]%elem_of_cons; [by simplify_eq|auto].
    + intros ?. apply Hin. by right.
Qed.

Lemma DeleteObjects_spec f s told :
  state_ok (s_indexes s) (vals s) told ->
  let '(s', evs) := DeleteObjects f s in
  state_ok (s_indexes s') (vals s') (fold_left (apply_event key) evs told) /\
  vals s' = base.filter (fun kv => f (snd kv) = false) (vals s).
Proof.
  intros Hok. unfold DeleteObjects.
  destruct (DeleteObjects_fold f (map_to_list (vals s)) s [] told) as (s' & evs & -> & Hok' & Hv);
    [apply NoDup_fst_map_to_list|by intros k v ?%elem_of_map_to_list|done|].
  split; [done|]. apply map_eq. intros k. apply option_eq. intros v. rewrite Hv, map_lookup_filter_Some, elem_of_map_to_list.
  simpl. naive_solver.
Qed.

(** The state while the new one is taken over: what was taken over, and what is
    left of the old one. *)
Lemma reset_fold l rest nv idx ups told :
  NoDup (map key l) -> (forall o, o ∈ l -> nv !! key o = None) -> nv ##ₘ rest -> state_ok idx (nv ∪ rest) told ->
  exists rest' idx' evs,
    fold_left (reset_object key Equal) l (rest, nv, idx, ups)
    = (rest', list_to_map (map (fun o => (key o, o)) l) ∪ nv, idx', ups ++ evs) /\
    (list_to_map (map (fun o => (key o, o)) l) ∪ nv) ##ₘ rest' /\
    state_ok idx' ((list_to_map (map (fun o => (key o, o)) l) ∪ nv) ∪ rest') (fold_left (apply_event key) evs told).
Proof.
  revert rest nv idx ups told. induction l as [|o l IH]; intros rest nv idx ups told Hnd Hnv Hdis Hok; cbn [fold_left].
  { exists rest, idx, []. rewrite app_nil_r. simpl. by rewrite (left_id_L ∅ (∪)). }
  simpl in Hnd. apply NoDup_cons in Hnd as [Hk Hnd]. pose proof (Hnv o ltac:(by left)) as Hno.
  assert (Hu : <[key o := o]> nv ∪ delete (key o) rest = <[key o := o]> (nv ∪ rest)).
  { apply map_eq. intros x. rewrite lookup_union, !lookup_insert, lookup_delete, lookup_union. case_decide; [|done].
    by rewrite (right_id_L None (∪)). }
  assert (Hol : (nv ∪ rest) !! key o = rest !! key o) by (by rewrite lookup_union, Hno, (left_id_L None (∪))).
  assert (Hgo : forall idx1 evs1, state_ok idx1 (<[key o := o]> (nv ∪ rest)) (fold_left (apply_event key) evs1 told) ->
    exists rest' idx' evs,
    fold_left (reset_object key Equal) l (delete (key o) rest, <[key o := o]> nv, idx1, ups ++ evs1)
    = (rest', list_to_map (map (fun o => (key o, o)) (o :: l)) ∪ nv, idx', ups ++ evs) /\
    (list_to_map (map (fun o => (key o, o)) (o :: l)) ∪ nv) ##ₘ rest' /\
    state_ok idx' ((list_to_map (map (fun o => (key o, o)) (o :: l)) ∪ nv) ∪ rest') (fold_left (apply_event key) evs told)).
  { intros idx1 evs1 Hok1. rewrite <-Hu in Hok1.
    assert (Heq : list_to_map (map (fun o => (key o, o)) (o :: l)) ∪ nv = list_to_map (map (fun o => (key o, o)) l) ∪ <[key o := o]> nv).
    { simpl. rewrite <-insert_union_l, insert_union_r; [done|]. apply not_elem_of_list_to_map.
      by rewrite <-list_fmap_compose. }
    rewrite Heq.
    destruct (IH (delete (key o) rest) (<[key o := o]> nv) idx1 (ups ++ evs1) (fold_left (apply_event key) evs1 told) Hnd)
      as (rest' & idx' & evs & E & Hd & Hok'); [| |done|].
    - intros o' Ho'. rewrite lookup_insert_ne; [apply Hnv; by right|]. intros Hkk. apply Hk. rewrite Hkk.
      apply list_elem_of_fmap. by exists o'.
    - apply map_disjoint_insert_l_2; [apply lookup_delete_eq|by apply map_disjoint_delete_r].
    - exists rest', idx', (evs1 ++ evs). rewrite app_assoc, fold_left_app. done. }
  unfold reset_object at 2. destruct (rest !! key o) as [old|] eqn:E.
  - destruct (Equal old o) eqn:Eq.
    + destruct (Hgo idx []) as (r & i & evs & Hx); [by apply state_equal with old|]. rewrite app_nil_r in Hx. by exists r, i, evs.
    + apply (Hgo _ [_]), (state_set _ _ _ (Ev.mk (Some old) (Some o) EvUpdate)); simpl; try done. by intros n [= <-].
  - apply (Hgo _ [_]), (state_set _ _ _ (Ev.mk None (Some o) EvAdd)); simpl; try done. by intros n [= <-].
Qed.

Lemma reset_rest_fold (l : list (string * T)) nv idx ups told :
  NoDup l.*1 -> nv ##ₘ list_to_map l -> state_ok idx (nv ∪ list_to_map l) told ->
  exists idx' evs, fold_left (fun '(idx, updates) '(k, remaining) =>
    ((fun ix => index_delete ix remaining k) <$> idx, updates ++ [Ev.mk (Some remaining) None EvDelete])) l (idx, ups)
    = (idx', ups ++ evs) /\ state_ok idx' nv (fold_left (apply_event key) evs told).
Proof.
  revert idx ups told. induction l as [|[k v] l IH]; intros idx ups told Hnd Hd Hok; cbn [fold_left].
  { exists idx, []. rewrite app_nil_r. simpl in Hok. by rewrite (right_id_L ∅ (∪)) in Hok. }
  simpl in Hnd, Hd, Hok. apply NoDup_cons in Hnd as [Hk Hnd]. apply map_disjoint_insert_r in Hd as [Hnk Hd].
  set (e := Ev.mk (Some v) None EvDelete).
  destruct (IH ((fun ix => index_update ix e k) <$> idx) (ups ++ [e]) (apply_event key told e) Hnd Hd) as (idx' & evs & E & Hok').
  - assert (Hu : nv ∪ list_to_map l = delete k (nv ∪ <[k := v]> (list_to_map l))).
    { apply map_eq. intros x. rewrite lookup_delete, !lookup_union, lookup_insert. case_decide; [subst x|done].
      rewrite Hnk. rewrite not_elem_of_list_to_map_1; done. }
    rewrite Hu. assert (Hl : (nv ∪ <[k := v]> (list_to_map l)) !! k = Some v)
      by (rewrite lookup_union, Hnk, lookup_insert_eq; done).
    apply (state_set _ _ _ e k Hok); by rewrite ?Hl.
  - exists idx', (e :: evs). rewrite <-app_assoc in E. done.
Qed.

Lemma Reset_spec l s told :
  NoDup (map key l) -> state_ok (s_indexes s) (vals s) told ->
  let '(s', evs) := Reset key Equal l s in
  state_ok (s_indexes s') (vals s') (fold_left (apply_event key) evs told) /\
  vals s' = list_to_map (map (fun o => (key o, o)) l).
Proof.
  intros Hnd Hok. unfold Reset.
  destruct (reset_fold l (vals s) ∅ (s_indexes s) [] told) as (rest & idx & evs & -> & Hd & Hok1);
    [done|intros; apply lookup_empty|apply map_disjoint_empty_l|by rewrite (left_id_L ∅ (∪))|].
  rewrite (right_id_L ∅ (∪)) in *. rewrite app_nil_l.
  destruct (reset_rest_fold (map_to_list rest) (list_to_map (map (fun o => (key o, o)) l)) idx evs
              (fold_left (apply_event key) evs told)) as (idx' & evs' & -> & Hok2);
    [apply NoDup_fst_map_to_list|by rewrite list_to_map_to_list|by rewrite list_to_map_to_list|].
  simpl. rewrite fold_left_app. done.
Qed.

Lemma call_spec op s told :
  op_ok key Equal op -> state_ok (s_indexes s) (vals s) told ->
  let '(s', evs) := call key Equal s op in
  state_ok (s_indexes s') (vals s') (fold_left (apply_event key) evs told) /\ vals s' = map_call key (vals s) op.
Proof.
  intros Hop Hok. destruct op as [obj|obj|k|f|l|name ext]; simpl.
  - apply updateObject_spec, Hok.
  - apply updateObject_spec, Hok.
  - apply DeleteObject_spec, Hok.
  - apply DeleteObjects_spec, Hok.
  - by apply Reset_spec.
  - unfold static_index. destruct (s_indexes s !! name) as [ix|] eqn:E; simpl; [done|]. split; [|done].
    destruct Hok as (Hm & Hi & Hs). split; [done|]. split; [|done]. intros n ix. rewrite lookup_insert_Some. intros [[_ <-]|[_ Hx]].
    + destruct (new_index_ok ext (vals s)) as [H1 H2]. split; [done|]. by rewrite H2.
    + by apply (Hi n).
Qed.

Lemma calls_spec ops s sent told :
  Forall (op_ok key Equal) ops -> state_ok (s_indexes s) (vals s) (fold_left (apply_event key) sent told) ->
  let '(s', evs) := fold_left (fun '(s, sent) op => let '(s', evs) := call key Equal s op in (s', sent ++ evs)) ops (s, sent) in
  state_ok (s_indexes s') (vals s') (fold_left (apply_event key) evs told) /\ vals s' = fold_left (map_call key) ops (vals s).
Proof.
  intros Hops. revert s sent. induction Hops as [|op ops Hop Hops IH]; intros s sent Hok; cbn [fold_left]; [done|].
  pose proof (call_spec op s _ Hop Hok) as Hc. destruct (call key Equal s op) as [s1 evs1]. destruct Hc as [Hok1 Hv].
  rewrite <-fold_left_app in Hok1. specialize (IH s1 (sent ++ evs1) Hok1). rewrite <-Hv. exact IH.
Qed.

End static_lemmas.

(** ** Theorems *)

(** A static collection is the map its calls say, its indexes give exactly the
    objects under their keys, and a handler that follows the events from the start
    knows every object, up to [Equal]. *)
Theorem static_collection_exact {T} (key : T -> string) Equal ops :
  (forall a, Equal a a = true) -> (forall a b c, Equal a b = true -> Equal b c = true -> Equal a c = true) ->
  Forall (op_ok key Equal) ops ->
  let '(s, sent) := calls key Equal (NewStaticCollection key []) ops in
  (forall k, static_GetKey s k = fold_left (map_call key) ops ∅ !! k) /\
  (forall k, option_Forall2 (fun a b => Equal a b = true) (fold_left (apply_event key) sent ∅ !! k) (static_GetKey s k)) /\
  (forall name ix k o, s_indexes s !! name = Some ix ->
     o ∈ Lookup ix (vals s) k <-> exists oKey, static_GetKey s oKey = Some o /\ k ∈ ix_extract ix o).
Proof.
  intros Hr Htr Hops.
  pose proof (calls_spec key Equal Hr Htr ops (NewStaticCollection key []) [] ∅ Hops) as Hc. fold (calls key Equal) in Hc.
  unfold calls. destruct (fold_left _ ops (NewStaticCollection key [], [])) as [s sent].
  destruct Hc as [(Hm & Hi & Hs) Hv].
  { split; [|split].
    - intros k v Hv. simpl in Hv. by rewrite lookup_empty in Hv.
    - intros n ix Hx. simpl in Hx. by rewrite lookup_empty in Hx.
    - intros k. simpl. rewrite lookup_empty. constructor. }
  split; [|split; [exact Hs|]].
  - intros k. unfold static_GetKey. by rewrite Hv.
  - intros name ix k o Hx. apply Lookup_spec. by apply (Hi name).
Qed.

Definition demo_ops : list (static_op (T := string * string)) :=
  [OpIndex "text" (fun o => [snd o]); OpUpdate ("a", "1"); OpConditionalUpdate ("a", "2"); OpReset [("b", "2"); ("a", "2")];
   OpDeleteObjects (fun o => String.eqb (snd o) "3"); OpDelete "b"].
Definition same_object (a b : string * string) : bool := bool_decide (a = b).

Lemma static_collection_exact_witness :
  let '(s, sent) := calls fst same_object (NewStaticCollection fst []) demo_ops in
  length sent = 4%nat /\ forall k, static_GetKey s k = fold_left (map_call fst) demo_ops ∅ !! k.
Proof.
  pose proof (static_collection_exact fst same_object demo_ops) as Hx.
  destruct (calls fst same_object (NewStaticCollection fst []) demo_ops) as [s sent] eqn:E.
  split; [by vm_compute in E; simplify_eq|]. apply Hx; unfold same_object.
  - intros a. by rewrite bool_decide_true.
  - intros a b c Ha%bool_decide_eq_true Hb%bool_decide_eq_true. subst. by rewrite bool_decide_true.
  - unfold demo_ops. rewrite !Forall_cons. split_and!; try done.
    + intros a b k Hab%bool_decide_eq_true. by subst.
    + apply (bool_decide_unpack _). vm_compute. done.
Defined.

(** Two objects with the same key in a new state: the first one stays in the index,
    under a key the second one does not have. *)
Lemma reset_duplicate_leaves_index :
  let s := fst (static_index "text" (fun o => [snd o]) (NewStaticCollection fst [])) in
  let s' := fst (Reset fst same_object [("a", "1"); ("a", "2")] s) in
  static_GetKey s' "a" = Some ("a", "2") /\
  match s_indexes s' !! "text" with Some ix => Lookup ix (vals s') "1" = [("a", "2")] | None => False end.
Proof. vm_compute. done. Qed.
