(* ===== verification/KrtJoin.v ===== *)
(** * Joined collections

    [pkg/kube/krt/join.go]: several collections seen as one.  Without a merge
    function the first collection that has a key wins; with one, the objects of a
    key are merged, and every handler is told the merged objects, with a cache of
    what it was told last. *)

From S2P Require Import Prelude GoStrings GoSets GoSlices Krt KrtCollection.

Section join.
Context {T : Type} (key : T -> string).

(** The collections of a join, by what they hold. *)
Record join : Type := mkJoin {
  collections : list (gmap string T);
  uncheckedOverlap : bool;
  merge : option (list T -> option T)
}.

Definition JoinWithMergeCollection (cs : list (gmap string T)) (merge : option (list T -> option T)) (joinUnchecked : bool) : join :=
  mkJoin cs (joinUnchecked && negb (bool_decide (is_Some merge))) merge.
Definition JoinCollection (cs : list (gmap string T)) : bool -> join := JoinWithMergeCollection cs None.

Definition values (c : gmap string T) : list T := map snd (map_to_list c).

Definition quickGetKey (j : join) (k : string) : option T :=
  match merge j with None => head (omap (fun c => c !! k) (collections j)) | Some _ => None end.

Definition calculateMerged (cs : list (gmap string T)) (mergeFn : list T -> option T) (k : string) : option T :=
  match omap (fun c => c !! k) cs with
  | [] => None
  | found => mergeFn found
  end.

Definition join_GetKey (j : join) (k : string) : option T :=
  match merge j with None => quickGetKey j k | Some f => calculateMerged (collections j) f k end.

(** The first list that is not empty is taken as it is; of the others, the objects
    whose keys were not seen. *)
Definition merge_first (acc : list T * bool * gset string) (objs : list T) : list T * bool * gset string :=
  let '(res, first, found) := acc in
  if (0 <? length objs)%nat && first then (objs, false, list_to_set (map key objs))
  else
    let '(res, found) := fold_left (fun '(res, found) i =>
      if decide (key i ∈ found) then (res, found) else (res ++ [i], {[key i]} ∪ found)) objs (res, found) in
    (res, first, found).

Definition quickList (j : join) : list T :=
  if uncheckedOverlap j then concat (map values (collections j))
  else fst (fst (fold_left merge_first (map values (collections j)) ([], true, ∅))).

Definition mergeList (cs : list (gmap string T)) (mergeFn : list T -> option T) : list T :=
  let keys : gset string := list_to_set (map key (concat (map values cs))) in
  omap (calculateMerged cs mergeFn) (elements keys).

Definition join_List (j : join) : list T :=
  match merge j with Some f => mergeList (collections j) f | None => quickList j end.

(** An index of a join asks the index of every collection. *)
Definition joinIndexer_Lookup (indexers : list (string -> list T)) (k : string) : list T := concat (map (fun i => i k) indexers).
Definition join_index (j : join) (extract : T -> list string) : list (string -> list T) :=
  map (fun c => Lookup (new_index extract c) c) (collections j).

(** *** What handlers are told *)

(** [mergedCacheEntry], filed under the handler, or no handler, and the key. *)
Record mergedCacheEntry : Type := mkEntry { prev : option T; current : option T }.
Notation mergedCache := (gmap (string * string) mergedCacheEntry).

Definition maybeInitMergeCacheForHandlerLocked (cache : mergedCache) (handlerID : string) : mergedCache :=
  fold_left (fun c '((h, k), entry) => if String.eqb h "" then <[(handlerID, k) := entry]> c else c) (map_to_list cache) cache.

Definition updateMergeCacheLocked (cache : mergedCache) (merged : option T) (k handlerID : string) : mergedCache * mergedCacheEntry :=
  match merged with
  | None =>
      let old := e ← cache !! (handlerID, k); current e in
      (delete ("", k) (delete (handlerID, k) cache), mkEntry old None)
  | Some _ =>
      let updatedEntry :=
        match cache !! (handlerID, k) with
        | Some entry => match current entry with Some _ => mkEntry (current entry) merged | None => mkEntry None None end
        | None => mkEntry None merged
        end in
      (<[("", k) := updatedEntry]> (<[(handlerID, k) := updatedEntry]> cache), updatedEntry)
  end.

(** What becomes of a key that changed. *)
Definition handle_key (getMergedForKey : string -> option T) (handlerID : string)
    (acc : mergedCache * list (Event T)) (k : string) : mergedCache * list (Event T) :=
  let '(cache, mergedEvents) := acc in
  let merged := getMergedForKey k in
  let '(cache, entry) := updateMergeCacheLocked cache merged k handlerID in
  match current entry, prev entry with
  | None, None => (cache, mergedEvents)
  | None, Some p => (cache, mergedEvents ++ [Ev.mk (Some p) None EvDelete])
  | Some _, None => (cache, mergedEvents ++ [Ev.mk None merged EvAdd])
  | Some _, Some p => (cache, mergedEvents ++ [Ev.mk (Some p) merged EvUpdate])
  end.

Definition changedKeys (events : list (Event T)) : gset string :=
  list_to_set (omap (fun e => key <$> Latest e) events).

Definition handleInnerCollectionEvent (getMergedForKey : string -> option T) (handlerID : string) (cache : mergedCache)
    (events : list (Event T)) : mergedCache * list (Event T) :=
  fold_left (handle_key getMergedForKey handlerID) (elements (changedKeys events)) (cache, []).

(** What the collections send a new handler, one batch each. *)
Definition existing (cs : list (gmap string T)) (runExistingState : bool) : list (list (Event T)) :=
  map (fun c => if runExistingState then map (fun v => Ev.mk None (Some v) EvAdd) (values c) else []) cs.

End join.
Arguments join T : clear implicits.
Notation mergedCache T := (gmap (string * string) (mergedCacheEntry (T := T))).

(** ** Reading *)

Section reading.
Context {T : Type} (key : T -> string).
Implicit Types (c : gmap string T) (cs : list (gmap string T)).

Definition keyed_by c : Prop := forall k v, c !! k = Some v -> key v = k.

Lemma elem_of_values c v : keyed_by c -> v ∈ values c <-> c !! key v = Some v.
Proof.
  intros Hc. unfold values. rewrite list_elem_of_fmap. split.
  - intros ([k x] & -> & Hin). apply elem_of_map_to_list in Hin. simpl. by rewrite (Hc k x Hin).
  - intros Hv. exists (key v, v). split; [done|]. by apply elem_of_map_to_list.
Qed.

Lemma values_keys c : keyed_by c -> map key (values c) = (map_to_list c).*1.
Proof.
  intros Hc. unfold values. rewrite map_map. apply list_fmap_ext. intros i [k v] Hi. simpl.
  apply Hc, elem_of_map_to_list. by eapply list_elem_of_lookup_2.
Qed.

Lemma NoDup_values c : keyed_by c -> NoDup (map key (values c)).
Proof. intros Hc. rewrite values_keys by done. apply NoDup_fst_map_to_list. Qed.

(** The objects that a list of objects adds to one. *)
Lemma merge_rest_spec objs res (found : gset string) :
  NoDup (map key res) -> (forall k, k ∈ found <-> k ∈ map key res) ->
  let '(res', found') := fold_left (fun '(res, found) i =>
      if decide (key i ∈ found) then (res, found) else (res ++ [i], {[key i]} ∪ found)) objs (res, found) in
  NoDup (map key res') /\ (forall k, k ∈ found' <-> k ∈ map key res') /\
  (NoDup (map key objs) -> forall o, o ∈ res' <-> o ∈ res \/ (o ∈ objs /\ key o ∉ found)).
Proof.
  revert res found. induction objs as [|i objs IH]; intros res found Hnd Hf; cbn [fold_left].
  { split; [done|]. split; [done|]. intros _ o. split; [by left|]. intros [?|[?%elem_of_nil _]]; done. }
  destruct (decide (key i ∈ found)) as [Hin|Hin].
  - specialize (IH res found Hnd Hf). destruct (fold_left _ objs (res, found)) as [res' found']. destruct IH as (A & B & C).
    split; [done|]. split; [done|]. intros Hno o. simpl in Hno. apply NoDup_cons in Hno as [Hni Hno].
    rewrite (C Hno). rewrite elem_of_cons. split; [naive_solver|]. intros [?|[[->|?] ?]]; naive_solver.
  - assert (Hf1 : forall k, k ∈ {[key i]} ∪ found <-> k ∈ map key (res ++ [i])).
    { intros k. rewrite map_app, elem_of_union, elem_of_app, Hf, elem_of_singleton. simpl. rewrite list_elem_of_singleton. naive_solver. }
    assert (Hnd1 : NoDup (map key (res ++ [i]))).
    { rewrite map_app. apply NoDup_app. split; [done|]. split; [|apply NoDup_singleton].
      intros k Hk ->%list_elem_of_singleton. by apply Hin, Hf. }
    specialize (IH (res ++ [i]) ({[key i]} ∪ found) Hnd1 Hf1). destruct (fold_left _ objs (res ++ [i], _)) as [res' found'].
    destruct IH as (A & B & C). split; [done|]. split; [done|]. intros Hno o. simpl in Hno. apply NoDup_cons in Hno as [Hni Hno].
    rewrite (C Hno), elem_of_app, list_elem_of_singleton, elem_of_cons, elem_of_union, elem_of_singleton. split.
    + intros [[?| ->]|[Ho Hn]]; [by left|right; split; [by left|done]|right; split; [by right|naive_solver]].
    + intros [?|[[->|Ho] Hn]]; [by left; left|by left; right|]. right. split; [done|]. intros [Hk|?]; [|done].
      apply Hni. rewrite <-Hk. apply list_elem_of_fmap. by exists o.
Qed.

Lemma quickList_fold cs :
  Forall keyed_by cs ->
  let '(res, first, found) := fold_left (merge_first key) (map values cs) ([], true, ∅) in
  NoDup (map key res) /\ (forall k, k ∈ found <-> k ∈ map key res) /\ (first = true -> res = []) /\
  forall o, o ∈ res <-> head (omap (fun c => c !! key o) cs) = Some o.
Proof.
  induction cs as [|c cs IH] using rev_ind; intros Hk.
  { simpl. split; [constructor|]. split; [set_solver|]. split; [done|]. intros o. split; [by intros ?%elem_of_nil|done]. }
  apply Forall_app in Hk as [Hk Hc]. rewrite Forall_singleton in Hc. specialize (IH Hk). rewrite map_app, fold_left_app. cbn [map fold_left].
  destruct (fold_left (merge_first key) (map values cs) ([], true, ∅)) as [[res first] found]. destruct IH as (A & B & F & C).
  assert (Hhd : forall o, head (omap (fun c => c !! key o) (cs ++ [c])) = Some o <->
    o ∈ res \/ (o ∈ values c /\ key o ∉ found)).
  { intros o. rewrite omap_app, B, (elem_of_values c o Hc), (C o). csimpl.
    destruct (omap (fun c => c !! key o) cs) as [|x l] eqn:E; simpl.
    - assert (Hn : key o ∉ map key res).
      { intros (o' & Hko & Ho')%list_elem_of_fmap. apply C in Ho'. rewrite <-Hko, E in Ho'. done. }
      destruct (c !! key o); simpl; naive_solver.
    - assert (Hin : key o ∈ map key res); [|naive_solver].
      assert (Hx : key x = key o).
      { assert (Hxin : x ∈ omap (fun c => c !! key o) cs) by (rewrite E; by left).
        apply list_elem_of_omap in Hxin as (c0 & Hc0 & Hl). rewrite Forall_forall in Hk. by apply (Hk c0 Hc0 (key o) x). }
      apply list_elem_of_fmap. exists x. split; [done|]. apply C. by rewrite Hx, E. }
  unfold merge_first at 1. destruct ((0 <? length (values c))%nat && first) eqn:E.
  - apply andb_true_iff in E as [_ ->]. rewrite (F eq_refl) in *. split; [by apply NoDup_values|].
    split; [intros k; by rewrite elem_of_list_to_set|]. split; [done|]. intros o. rewrite Hhd.
    split; [|by intros [?%elem_of_nil|[? _]]]. intros Ho. right. split; [done|]. rewrite B. simpl. apply not_elem_of_nil.
  - pose proof (merge_rest_spec (values c) res found A B) as Hm.
    destruct (fold_left _ (values c) (res, found)) as [res' found']. destruct Hm as (A' & B' & C').
    split; [done|]. split; [done|]. split.
    + intros ->. rewrite andb_true_r in E. rewrite (F eq_refl) in *. apply Nat.ltb_ge in E.
      destruct res' as [|x l]; [done|]. exfalso. destruct (proj1 (C' (NoDup_values c Hc) x) ltac:(by left)) as [?%elem_of_nil|[Hx _]]; [done|].
      destruct (values c); [by apply elem_of_nil in Hx|simpl in E; lia].
    + intros o. rewrite Hhd. apply (C' (NoDup_values c Hc)).
Qed.

(** Merging keeps the key. *)
Definition merge_ok (mergeFn : list T -> option T) : Prop :=
  forall l o k, Forall (fun x => key x = k) l -> mergeFn l = Some o -> key o = k.

Lemma found_keys cs k : Forall keyed_by cs -> Forall (fun x => key x = k) (omap (fun c => c !! k) cs).
Proof.
  intros Hk. apply Forall_forall. intros x (c & Hc & Hl)%list_elem_of_omap. rewrite Forall_forall in Hk. by apply (Hk c Hc).
Qed.

Lemma calculateMerged_key cs f k o :
  Forall keyed_by cs -> merge_ok f -> calculateMerged cs f k = Some o -> key o = k.
Proof.
  intros Hk Hf. unfold calculateMerged. pose proof (found_keys cs k Hk) as Hl.
  destruct (omap (fun c => c !! k) cs) as [|x l]; [done|]. by apply Hf.
Qed.

Lemma mergeList_spec cs f o :
  Forall keyed_by cs -> merge_ok f -> o ∈ mergeList key cs f <-> calculateMerged cs f (key o) = Some o.
Proof.
  intros Hk Hf. unfold mergeList. rewrite list_elem_of_omap. split.
  - intros (k & _ & Hm). by rewrite (calculateMerged_key cs f k o Hk Hf Hm).
  - intros Hm. exists (key o). split; [|done]. rewrite elem_of_elements, elem_of_list_to_set. unfold calculateMerged in Hm.
    destruct (omap (fun c => c !! key o) cs) as [|x l] eqn:E; [done|].
    assert (Hx : x ∈ omap (fun c => c !! key o) cs) by (rewrite E; by left).
    apply list_elem_of_omap in Hx as (c & Hc & Hl). rewrite Forall_forall in Hk. specialize (Hk c Hc).
    pose proof (Hk _ _ Hl) as Hkx. apply list_elem_of_fmap. exists x. split; [done|].
    rewrite list_elem_of_In, in_concat. exists (values c). split; [by apply in_map, list_elem_of_In|].
    apply list_elem_of_In, elem_of_values; [done|]. by rewrite Hkx.
Qed.

Lemma NoDup_mergeList cs f : Forall keyed_by cs -> merge_ok f -> NoDup (map key (mergeList key cs f)).
Proof.
  intros Hk Hf. unfold mergeList. generalize (NoDup_elements (list_to_set (map key (concat (map values cs))) : gset string)).
  induction (elements _) as [|k l IH]; intros Hnd; csimpl; [constructor|]. apply NoDup_cons in Hnd as [Hkl Hnd].
  destruct (calculateMerged cs f k) as [o|] eqn:E; csimpl; [|by apply IH]. apply NoDup_cons. split; [|by apply IH].
  rewrite (calculateMerged_key cs f k o Hk Hf E). intros (x & Hx & Hin)%list_elem_of_fmap. apply Hkl.
  apply list_elem_of_omap in Hin as (k' & Hk' & Hm). by rewrite Hx, (calculateMerged_key cs f k' x Hk Hf Hm).
Qed.

End reading.

(** Listing a join and getting from it agree: an object is listed exactly when it
    is the one its key gives, and no key is listed twice, for joins that pick the
    first object (of collections that may overlap) and for those that merge. *)
Theorem join_list_agrees {T} (key : T -> string) (cs : list (gmap string T)) merge :
  Forall (keyed_by key) cs -> (forall f, merge = Some f -> merge_ok key f) ->
  let j := JoinWithMergeCollection cs merge false in
  NoDup (map key (join_List key j)) /\ forall o, o ∈ join_List key j <-> join_GetKey j (key o) = Some o.
Proof.
  intros Hk Hm j. unfold j, join_List, join_GetKey, JoinWithMergeCollection. simpl. destruct merge as [f|].
  - split; [by apply NoDup_mergeList; [|apply Hm]|]. intros o. apply mergeList_spec; [done|by apply Hm].
  - unfold quickList, quickGetKey. simpl. pose proof (quickList_fold key cs Hk) as Hf.
    destruct (fold_left (merge_first key) (map values cs) ([], true, ∅)) as [[res first] found]. by destruct Hf as (A & _ & _ & C).
Qed.

(** *** Shadowed objects *)

Definition first_two : join (string * string) :=
  JoinCollection [{["a" := ("a", "1")]}; {["a" := ("a", "2")]}] false.

Lemma join_list_agrees_witness :
  NoDup (map fst (join_List fst first_two)) /\ forall o, o ∈ join_List fst first_two <-> join_GetKey first_two (fst o) = Some o.
Proof.
  apply (join_list_agrees fst [{["a" := ("a", "1")]}; {["a" := ("a", "2")]}] None); [|done].
  repeat constructor; intros k v; rewrite lookup_singleton_Some; by intros [<- <-].
Defined.

(** The index of a join also gives objects that the join does not have, because an
    earlier collection has the key. *)
Lemma join_index_sees_shadowed :
  join_List fst first_two = [("a", "1")] /\
  joinIndexer_Lookup (join_index first_two (fun o => [snd o])) "2" = [("a", "2")].
Proof. by vm_compute. Qed.

(** Without a merge function the events of the collections are passed on: when the
    first collection loses an object, handlers are told that it is gone, although
    the second still has one. *)
Lemma join_passes_shadowed_delete :
  let told := fold_left (apply_event fst) (concat (existing (collections first_two) true)) ∅ in
  let after := apply_event fst told (Ev.mk (Some ("a", "1")) None EvDelete) in
  join_GetKey (JoinCollection [∅; {["a" := ("a", "2")]}] false) "a" = Some ("a", "2") /\ after !! "a" = None.
Proof. by vm_compute. Qed.

(** ** Handlers of a merged join *)

Section events.
Context {T : Type} (key : T -> string) (mergeFn : list T -> option T).

(** The collections, the cache, and for every handler the batches it was not yet
    given and the objects it was told. *)
Record jsys : Type := mkJsys {
  j_cols : list (gmap string T);
  j_cache : mergedCache T;
  j_pending : gmap string (list (list (Event T)));
  j_told : gmap string (gmap string T)
}.

(** A handler is given its next batch. *)
Definition jhandle (hid : string) (s : jsys) : jsys :=
  match j_pending s !! hid with
  | Some (b :: q) =>
      let '(cache, evs) := handleInnerCollectionEvent key (calculateMerged (j_cols s) mergeFn) hid (j_cache s) b in
      mkJsys (j_cols s) cache (<[hid := q]> (j_pending s))
        (<[hid := fold_left (apply_event key) evs (default ∅ (j_told s !! hid))]> (j_told s))
  | _ => s
  end.

(** [RegisterBatch], with the existing state. *)
Definition jregister (hid : string) (s : jsys) : jsys :=
  mkJsys (j_cols s) (maybeInitMergeCacheForHandlerLocked (j_cache s) hid)
    (<[hid := existing (j_cols s) true]> (j_pending s)) (<[hid := ∅]> (j_told s)).

(** A collection changes and tells every handler. *)
Definition jchange (i : nat) (c' : gmap string T) (events : list (Event T)) (s : jsys) : jsys :=
  mkJsys (<[i := c']> (j_cols s)) (j_cache s) ((fun q => q ++ [events]) <$> j_pending s) (j_told s).

Inductive jstep : jsys -> jsys -> Prop :=
  | jstep_change s i c c' events :
      j_cols s !! i = Some c -> keyed_by key c' -> (forall k, c !! k = c' !! k \/ k ∈ changedKeys key events) ->
      jstep s (jchange i c' events s)
  | jstep_register s hid : hid <> "" -> j_pending s !! hid = None -> jstep s (jregister hid s)
  | jstep_handle s hid : jstep s (jhandle hid s).

Definition jstart (cs : list (gmap string T)) : jsys := mkJsys cs ∅ ∅ ∅.

Context (Hmerge : merge_ok key mergeFn).

Definition cache_ok (cache : mergedCache T) : Prop :=
  forall h k e, cache !! (h, k) = Some e -> exists c, current e = Some c /\ key c = k.
Definition knows (told : gmap string T) (hid : string) (cache : mergedCache T) : Prop :=
  forall k v, told !! k = Some v -> is_Some (cache !! (hid, k)).

Lemma handle_keys_spec getM hid ks cache evs told :
  hid <> "" -> NoDup ks -> cache_ok cache -> knows told hid cache -> (forall k v, getM k = Some v -> key v = k) ->
  exists cache' evs', fold_left (handle_key getM hid) ks (cache, evs) = (cache', evs ++ evs') /\ cache_ok cache' /\
    knows (fold_left (apply_event key) evs' told) hid cache' /\
    (forall k, fold_left (apply_event key) evs' told !! k = if decide (k ∈ ks) then getM k else told !! k) /\
    (forall h k, h <> hid -> h <> "" -> cache' !! (h, k) = cache !! (h, k)).
Proof.
  intros Hh Hnd Hc Hkn Hm. revert cache evs told Hc Hkn. induction Hnd as [|k ks Hk Hnd IH]; intros cache evs told Hc Hkn; cbn [fold_left].
  { exists cache, []. rewrite app_nil_r. split; [done|]. split; [done|]. split; [done|]. split; [|done].
    intros k. rewrite decide_False; [done|apply not_elem_of_nil]. }
  assert (Hone : exists cache1 evs1, handle_key getM hid (cache, evs) k = (cache1, evs ++ evs1) /\ cache_ok cache1 /\
    knows (fold_left (apply_event key) evs1 told) hid cache1 /\
    (forall x, fold_left (apply_event key) evs1 told !! x = if decide (x = k) then getM k else told !! x) /\
    (forall h x, h <> hid -> h <> "" -> cache1 !! (h, x) = cache !! (h, x))).
  { unfold handle_key, updateMergeCacheLocked. destruct (getM k) as [m|] eqn:Em.
    - set (en := match cache !! (hid, k) with Some _ => _ | None => _ end).
      assert (Hen : current en = Some m /\ (prev en = None \/ exists p, prev en = Some p)).
      { unfold en. destruct (cache !! (hid, k)) as [e|] eqn:Ee; [|by split; [|left]].
        destruct (Hc hid k e Ee) as (c & -> & _). simpl. split; [done|]. right. by exists c. }
      assert (Hco : cache_ok (<[("", k) := en]> (<[(hid, k) := en]> cache))).
      { intros h x e. rewrite !lookup_insert_Some. intros [[[= <- <-] <-]|[_ [[[= <- <-] <-]|[_ He]]]]; [| |by apply (Hc h x)];
          exists m; split; [apply Hen|by apply Hm|apply Hen|by apply Hm]. }
      assert (Hot : forall h x, h <> hid -> h <> "" -> <[("", k) := en]> (<[(hid, k) := en]> cache) !! (h, x) = cache !! (h, x)).
      { intros h x H1 H2. rewrite !lookup_insert_ne; congruence. }
      destruct Hen as [-> Hp]. destruct Hp as [->|[p ->]]; (eexists _, [_]; split; [reflexivity|]; split; [done|]; split; [|split; [|done]]);
        simpl; unfold apply_event; simpl; rewrite (Hm k m Em).
      + intros x v. rewrite lookup_insert_Some. intros [[<- _]|[Hne Hv]]; rewrite lookup_insert_ne by congruence;
          [by rewrite lookup_insert_eq|rewrite lookup_insert_ne by congruence; by eapply Hkn].
      + intros x. rewrite lookup_insert. repeat case_decide; congruence.
      + intros x v. rewrite lookup_insert_Some. intros [[<- _]|[Hne Hv]]; rewrite lookup_insert_ne by congruence;
          [by rewrite lookup_insert_eq|rewrite lookup_insert_ne by congruence; by eapply Hkn].
      + intros x. rewrite lookup_insert. repeat case_decide; congruence.
    - assert (Hco : cache_ok (delete ("", k) (delete (hid, k) cache))).
      { intros h x e. rewrite !lookup_delete_Some. intros (_ & _ & He). by apply (Hc h x). }
      assert (Hot : forall h x, h <> hid -> h <> "" -> delete ("", k) (delete (hid, k) cache) !! (h, x) = cache !! (h, x)).
      { intros h x H1 H2. rewrite !lookup_delete_ne; congruence. }
      assert (Hkn' : forall t, (forall x v, t !! x = Some v -> x <> k /\ told !! x = Some v) ->
        knows t hid (delete ("", k) (delete (hid, k) cache))).
      { intros t Htt x v Hv. destruct (Htt x v Hv) as [Hne Hv']. rewrite !lookup_delete_ne by congruence. by eapply Hkn. }
      simpl. destruct (cache !! (hid, k)) as [e|] eqn:Ee; simpl.
      + destruct (Hc hid k e Ee) as (c & -> & Hck). eexists _, [_]. split; [reflexivity|]. split; [done|].
        simpl. unfold apply_event. simpl. rewrite Hck. split; [|split; [|done]].
        * apply Hkn'. intros x v. rewrite lookup_delete_Some. naive_solver.
        * intros x. rewrite lookup_delete. repeat case_decide; congruence.
      + assert (Hnk : told !! k = None).
        { destruct (told !! k) as [v|] eqn:Et; [|done]. destruct (Hkn k v Et) as [? ?]. congruence. }
        eexists _, []. rewrite app_nil_r. split; [reflexivity|]. split; [done|]. simpl. split; [|split; [|done]].
        * apply Hkn'. intros x v Hv. split; [congruence|done].
        * intros x. case_decide; [by subst|done]. }
  destruct Hone as (cache1 & evs1 & -> & Hc1 & Hkn1 & Ht1 & Ho1).
  destruct (IH cache1 (evs ++ evs1) _ Hc1 Hkn1) as (cache' & evs' & -> & Hc' & Hkn' & Ht' & Ho').
  exists cache', (evs1 ++ evs'). rewrite app_assoc, fold_left_app. split; [done|]. split; [done|]. split; [done|]. split.
  - intros x. rewrite Ht', Ht1. destruct (decide (x = k)) as [->|Hne].
    + rewrite decide_False by done. by rewrite decide_True by (by left).
    + destruct (decide (x ∈ ks)); [by rewrite decide_True by (by right)|].
      rewrite decide_False; [done|]. by intros [?|?]%elem_of_cons.
  - intros h x H1 H2. by rewrite Ho', Ho1.
Qed.

Lemma maybeInit_spec cache hid :
  cache_ok cache ->
  cache_ok (maybeInitMergeCacheForHandlerLocked cache hid) /\
  forall h k, h <> hid -> maybeInitMergeCacheForHandlerLocked cache hid !! (h, k) = cache !! (h, k).
Proof.
  intros Hc. unfold maybeInitMergeCacheForHandlerLocked.
  assert (Hl : forall h k e, ((h, k), e) ∈ map_to_list cache -> exists c, current e = Some c /\ key c = k).
  { intros h k e Hin. apply elem_of_map_to_list in Hin. by apply (Hc h). }
  assert (Hg : forall c0 : mergedCache T, cache_ok c0 -> cache_ok (fold_left (fun c '((h, k), entry) =>
      if String.eqb h "" then <[(hid, k) := entry]> c else c) (map_to_list cache) c0) /\
    forall h k, h <> hid -> fold_left (fun c '((h, k), entry) =>
      if String.eqb h "" then <[(hid, k) := entry]> c else c) (map_to_list cache) c0 !! (h, k) = c0 !! (h, k)); [|by apply Hg].
  induction (map_to_list cache) as [|[[h0 k0] e0] l IH]; intros c0 H0; cbn [fold_left]; [done|].
  assert (Hl' : forall h k e, ((h, k), e) ∈ l -> exists c, current e = Some c /\ key c = k) by (intros h k e Hin; apply (Hl h); by right).
  destruct (String.eqb h0 "") eqn:E; [|by apply IH].
  destruct (IH Hl' (<[(hid, k0) := e0]> c0)) as [H1 H2].
  { intros h k e. rewrite lookup_insert_Some. intros [[[= <- <-] <-]|[_ He]]; [|by apply (H0 h)]. apply (Hl h0). by left. }
  split; [done|]. intros h k Hh. rewrite H2 by done. rewrite lookup_insert_ne; congruence.
Qed.

Lemma calculateMerged_same cs i c c' k :
  cs !! i = Some c -> c !! k = c' !! k -> calculateMerged (<[i := c']> cs) mergeFn k = calculateMerged cs mergeFn k.
Proof.
  intros Hi Hk. unfold calculateMerged.
  assert (Ho : omap (fun c => c !! k) (<[i := c']> cs) = omap (fun c => c !! k) cs); [|by rewrite Ho].
  revert i Hi. induction cs as [|x cs IH]; intros [|i] Hi; csimpl in *; [done..| |].
  - injection Hi as ->. by rewrite Hk.
  - by rewrite (IH i Hi).
Qed.

Definition handler_ok (s : jsys) (hid : string) (q : list (list (Event T))) : Prop :=
  hid <> "" /\ exists t, j_told s !! hid = Some t /\ knows t hid (j_cache s) /\
    forall k, t !! k = calculateMerged (j_cols s) mergeFn k \/ exists b, b ∈ q /\ k ∈ changedKeys key b.

Record jsys_ok (s : jsys) : Prop := {
  jo_keyed : Forall (keyed_by key) (j_cols s);
  jo_cache : cache_ok (j_cache s);
  jo_handlers hid q : j_pending s !! hid = Some q -> handler_ok s hid q
}.

Lemma jchange_ok s i c c' events :
  jsys_ok s -> j_cols s !! i = Some c -> keyed_by key c' -> (forall k, c !! k = c' !! k \/ k ∈ changedKeys key events) ->
  jsys_ok (jchange i c' events s).
Proof.
  intros [H1 H2 H3] Hi Hk Hev. split; simpl; [by apply Forall_insert|done|].
  intros hid q. rewrite lookup_fmap_Some. intros (q0 & <- & Hq). destruct (H3 hid q0 Hq) as (Hh & t & Ht & Hkn & Hks).
  split; [done|]. exists t. split; [done|]. split; [done|]. intros k. simpl. destruct (Hks k) as [Hkk|(b & Hb & Hkb)].
  - destruct (Hev k) as [Hck|Hck]; [left; by rewrite (calculateMerged_same _ _ c)|right].
    exists events. split; [|done]. apply elem_of_app. right. by apply list_elem_of_singleton.
  - right. exists b. split; [|done]. apply elem_of_app. by left.
Qed.

Lemma jregister_ok s hid : jsys_ok s -> hid <> "" -> jsys_ok (jregister hid s).
Proof.
  intros [H1 H2 H3] Hh. destruct (maybeInit_spec (j_cache s) hid H2) as [Hc Ho]. split; simpl; [done|done|].
  intros h q. rewrite lookup_insert_Some. intros [[<- <-]|[Hne Hq]].
  - split; [done|]. exists ∅. simpl. rewrite lookup_insert_eq. split; [done|].
    split; [intros k v Hv; by rewrite lookup_empty in Hv|]. intros k. rewrite lookup_empty.
    unfold calculateMerged. destruct (omap (fun c => c !! k) (j_cols s)) as [|x l] eqn:E; [by left|right].
    assert (Hx : x ∈ omap (fun c => c !! k) (j_cols s)) by (rewrite E; by left).
    apply list_elem_of_omap in Hx as (c & Hc' & Hl). rewrite Forall_forall in H1. specialize (H1 c Hc').
    exists (map (fun v => Ev.mk None (Some v) EvAdd) (values c)). split.
    + unfold existing. apply list_elem_of_fmap. by exists c.
    + unfold changedKeys. apply elem_of_list_to_set, list_elem_of_omap. exists (Ev.mk None (Some x) EvAdd).
      split; [|simpl; by rewrite (H1 k x Hl)]. apply list_elem_of_fmap. exists x. split; [done|].
      apply (elem_of_values key); [done|]. by rewrite (H1 k x Hl).
  - destruct (H3 h q Hq) as (Hh' & t & Ht & Hkn & Hks). split; [done|]. exists t. simpl. rewrite lookup_insert_ne by done.
    split; [done|]. split; [|done]. intros k v Hv. rewrite Ho by done. by eapply Hkn.
Qed.

Lemma jhandle_ok s hid : jsys_ok s -> jsys_ok (jhandle hid s).
Proof.
  intros Hok. unfold jhandle. destruct (j_pending s !! hid) as [[|b q]|] eqn:E; [done| |done].
  destruct Hok as [H1 H2 H3]. destruct (H3 hid _ E) as (Hh & t & Ht & Hkn & Hks). unfold handleInnerCollectionEvent.
  destruct (handle_keys_spec (calculateMerged (j_cols s) mergeFn) hid (elements (changedKeys key b)) (j_cache s) [] t)
    as (cache' & evs & -> & Hc' & Hkn' & Ht' & Ho'); [done|apply NoDup_elements|done|done| |].
  { intros k v. by apply calculateMerged_key. }
  rewrite app_nil_l, Ht. split; simpl; [done|done|]. intros h q'. rewrite lookup_insert_Some. intros [[<- <-]|[Hne Hq]].
  - split; [done|]. simpl. rewrite lookup_insert_eq. eexists. split; [done|]. split; [done|]. intros k. rewrite Ht', decide_elements.
    case_decide as Hd; [by left|]. destruct (Hks k) as [?|(b' & [->|Hb]%elem_of_cons & Hkb)]; [by left|done|right; by exists b'].
  - destruct (H3 h q' Hq) as (Hh' & t' & Htt & Hkn2 & Hks'). split; [done|]. exists t'. simpl. rewrite lookup_insert_ne by done.
    split; [done|]. split; [|done]. intros k v Hv. rewrite Ho' by done. by eapply Hkn2.
Qed.

Lemma jsys_ok_reachable cs s : Forall (keyed_by key) cs -> rtc jstep (jstart cs) s -> jsys_ok s.
Proof.
  intros Hcs Hr. assert (H0 : jsys_ok (jstart cs)).
  { split; simpl; [done| |]; [intros h k e He|intros hid q Hq]; by rewrite lookup_empty in *. }
  induction Hr as [|s1 s2 s3 Hst _ IH]; [done|]. apply IH. destruct Hst as [s i c c' events|s hid|s hid].
  - by apply jchange_ok with c.
  - by apply jregister_ok.
  - by apply jhandle_ok.
Qed.

Lemma jhandle_all q s hid :
  jsys_ok s -> j_pending s !! hid = Some q ->
  let s' := Nat.iter (length q) (jhandle hid) s in
  jsys_ok s' /\ j_pending s' !! hid = Some [] /\ j_cols s' = j_cols s.
Proof.
  revert s. induction q as [|b q IH]; intros s Hok Hq; [done|]. cbn [length]. rewrite Nat.iter_succ_r.
  pose proof (jhandle_ok s hid Hok) as Hok'. unfold jhandle in Hok' |- * at 2 4 6. rewrite Hq in *.
  destruct (handleInnerCollectionEvent key _ hid (j_cache s) b) as [cache evs].
  apply (IH _ Hok'). simpl. by rewrite lookup_insert_eq.
Qed.

End events.

(** Handlers of a merged join converge: whatever the order in which collections
    change, handlers register and batches are given to handlers, a handler that was
    given all its batches knows exactly the merged objects. *)
Theorem join_handlers_converge {T} (key : T -> string) mergeFn (cs : list (gmap string T)) s hid q :
  merge_ok key mergeFn -> Forall (keyed_by key) cs -> rtc (jstep key mergeFn) (jstart cs) s ->
  j_pending s !! hid = Some q ->
  let s' := Nat.iter (length q) (jhandle key mergeFn hid) s in
  exists told, j_told s' !! hid = Some told /\
    forall k, told !! k = join_GetKey (JoinWithMergeCollection (j_cols s) (Some mergeFn) false) k.
Proof.
  intros Hm Hcs Hr Hq. pose proof (jsys_ok_reachable key mergeFn Hm cs s Hcs Hr) as Hok.
  destruct (jhandle_all key mergeFn Hm q s hid Hok Hq) as (Hok' & Hq' & Hc). cbv zeta.
  destruct (jo_handlers _ _ _ Hok' hid [] Hq') as (_ & t & Ht & _ & Hk). exists t. split; [done|].
  intros k. unfold join_GetKey. simpl. rewrite <-Hc. destruct (Hk k) as [?|(b & ?%elem_of_nil & _)]; done.
Qed.

Definition join_texts (l : list (string * string)) : option (string * string) :=
  match l with [] => None | (k, t) :: l => Some (k, fold_left (fun t x => t +:+ snd x) l t) end.
Definition two_cols : list (gmap string (string * string)) := [{["a" := ("a", "1")]}; {["a" := ("a", "2")]}].
(** A handler is given one batch before the first collection loses its object. *)
Definition join_demo : jsys :=
  jchange 0 ∅ [Ev.mk (Some ("a", "1")) None EvDelete]
    (jhandle fst join_texts "1" (jregister "1" (jstart two_cols))).

Lemma join_handlers_converge_witness :
  j_told join_demo !! "1" = Some {["a" := ("a", "12")]} /\
  exists told, j_told (Nat.iter 2 (jhandle fst join_texts "1") join_demo) !! "1" = Some told /\
    forall k, told !! k = join_GetKey (JoinWithMergeCollection (j_cols join_demo) (Some join_texts) false) k.
Proof.
  split; [by vm_compute|].
  apply (join_handlers_converge fst join_texts two_cols join_demo "1"
           [map (fun v => Ev.mk None (Some v) EvAdd) [("a", "2")]; [Ev.mk (Some ("a", "1")) None EvDelete]]).
  - intros l o k Hl. unfold join_texts. destruct l as [|[x t] l]; [done|]. intros [= <-]. by apply Forall_cons in Hl as [? _].
  - repeat constructor; intros k v; rewrite lookup_singleton_Some; by intros [<- <-].
  - eapply rtc_l; [by apply (jstep_register _ _ _ "1")|]. eapply rtc_l; [by apply (jstep_handle _ _ _ "1")|].
    eapply rtc_l; [|apply rtc_refl]. apply (jstep_change _ _ _ 0 {["a" := ("a", "1")]}); [done| |].
    + intros k v Hv. by rewrite lookup_empty in Hv.
    + intros k. destruct (decide (k = "a")) as [->|Hne]; [right; by vm_compute|left].
      by rewrite lookup_singleton_ne, lookup_empty.
  - by vm_compute.
Defined.
