(* ===== verification/KrtHandlers.v ===== *)
(** * Handlers of a collection

    [pkg/kube/krt/processor.go]: every handler has a listener of two goroutines.
    [pop] takes notifications and keeps them in an unbounded buffer; [run] is given
    one after the other and calls the handler.  A counter of the items of the
    initial state tells when the handler is synced.

    The model is a step relation: sending, taking, dispatching and handling
    interleave in any way. *)

From S2P Require Import Prelude Krt.

Section listener.
Context {E : Type}.

(** [countingTracker]; [closed] is whether the channel [synced] is closed. *)
Record countingTracker : Type := mkTracker {
  count : Z; upstreamHasSyncedButEventsPending : bool; closed : bool; hasSynced : bool
}.
Definition newTracker : countingTracker := mkTracker 0 false false false.

Definition Start (t : countingTracker) (n : nat) : countingTracker :=
  mkTracker (count t + Z.of_nat n) (upstreamHasSyncedButEventsPending t) (closed t) (hasSynced t).

(** Closing a channel twice panics. *)
Definition close_synced (t : countingTracker) : res countingTracker :=
  if closed t then Panic "close of closed channel"
  else Ok (mkTracker (count t) (upstreamHasSyncedButEventsPending t) true (hasSynced t)).

Definition ParentSynced (t : countingTracker) : res countingTracker :=
  if hasSynced t then Ok t else
  if count t =? 0 then
    t ← close_synced t; mret (mkTracker (count t) (upstreamHasSyncedButEventsPending t) (closed t) true)
  else Ok (mkTracker (count t) true (closed t) (hasSynced t)).

Definition Finished (t : countingTracker) (n : nat) : res countingTracker :=
  let result := count t - Z.of_nat n in
  let t := mkTracker result (upstreamHasSyncedButEventsPending t) (closed t) (hasSynced t) in
  if result <? 0 then Panic "synctrack: negative counter; this logic error means HasSynced may return incorrect value"
  else if negb (hasSynced t) && upstreamHasSyncedButEventsPending t && (result =? 0) && negb (n =? 0)%nat then close_synced t
  else Ok t.

Inductive notification : Type :=
  | parentSyncedNotification
  | eventSet (event : list E) (isInInitialList : bool).

(** [processorListener]: what waits for [pop] to take it, a batch of events and
    notices that the parent is synced; the notification [pop] holds and those it
    keeps; the tracker and the calls of the handler. *)
Record processorListener : Type := mkListener {
  sending : option (list E * bool);
  sendingSynced : nat;
  held : option notification;
  pendingNotifications : list notification;
  syncTracker : countingTracker;
  handled : list (list E)
}.
Definition newProcessListener : processorListener := mkListener None 0 None [] newTracker [].

(** [send], up to the channel: the items of the initial state are counted. *)
Definition send (p : processorListener) (event : list E) (isInInitialList : bool) : processorListener :=
  mkListener (Some (event, isInInitialList)) (sendingSynced p) (held p) (pendingNotifications p)
    (if isInInitialList then Start (syncTracker p) (length event) else syncTracker p) (handled p).

(** The parent is synced. *)
Definition send_synced (p : processorListener) : processorListener :=
  mkListener (sending p) (S (sendingSynced p)) (held p) (pendingNotifications p) (syncTracker p) (handled p).

(** [pop] takes a notification; if it holds one already it is kept. *)
Definition pop_add (p : processorListener) (n : notification) : processorListener :=
  match held p with
  | None => mkListener (sending p) (sendingSynced p) (Some n) (pendingNotifications p) (syncTracker p) (handled p)
  | Some _ => mkListener (sending p) (sendingSynced p) (held p) (pendingNotifications p ++ [n]) (syncTracker p) (handled p)
  end.
Definition take_event (p : processorListener) (event : list E) (initial : bool) : processorListener :=
  pop_add (mkListener None (sendingSynced p) (held p) (pendingNotifications p) (syncTracker p) (handled p)) (eventSet event initial).
Definition take_synced (p : processorListener) : processorListener :=
  pop_add (mkListener (sending p) (pred (sendingSynced p)) (held p) (pendingNotifications p) (syncTracker p) (handled p))
    parentSyncedNotification.

(** [pop] hands over the notification it holds and reads the next one. *)
Definition pop_dispatch (p : processorListener) : processorListener :=
  mkListener (sending p) (sendingSynced p) (head (pendingNotifications p)) (tail (pendingNotifications p)) (syncTracker p) (handled p).

Definition set_tracker (p : processorListener) (t : countingTracker) : processorListener :=
  mkListener (sending p) (sendingSynced p) (held p) (pendingNotifications p) t (handled p).
Definition call_handler (p : processorListener) (event : list E) : processorListener :=
  if (0 <? length event)%nat
  then mkListener (sending p) (sendingSynced p) (held p) (pendingNotifications p) (syncTracker p) (handled p ++ [event])
  else p.

(** [run] handles one notification. *)
Definition run_one (p : processorListener) (n : notification) : res processorListener :=
  match n with
  | parentSyncedNotification => t ← ParentSynced (syncTracker p); mret (set_tracker p t)
  | eventSet event true => t ← Finished (syncTracker p) (length event); mret (set_tracker (call_handler p event) t)
  | eventSet event false => t ← ParentSynced (syncTracker p); mret (call_handler (set_tracker p t) event)
  end.

(** What a listener comes to, with the batches that were sent to it.  A sender waits
    until its batch is taken, and the notices come from other goroutines. *)
Inductive listener_reaches : list (list E) -> res processorListener -> Prop :=
  | lr_new : listener_reaches [] (Ok newProcessListener)
  | lr_send sent p event initial :
      listener_reaches sent (Ok p) -> sending p = None -> listener_reaches (sent ++ [event]) (Ok (send p event initial))
  | lr_send_synced sent p : listener_reaches sent (Ok p) -> listener_reaches sent (Ok (send_synced p))
  | lr_take_event sent p event initial :
      listener_reaches sent (Ok p) -> sending p = Some (event, initial) -> listener_reaches sent (Ok (take_event p event initial))
  | lr_take_synced sent p :
      listener_reaches sent (Ok p) -> (0 < sendingSynced p)%nat -> listener_reaches sent (Ok (take_synced p))
  | lr_run sent p n : listener_reaches sent (Ok p) -> held p = Some n -> listener_reaches sent (run_one (pop_dispatch p) n).

(** *** Invariant *)

Definition queued (p : processorListener) : list notification :=
  match held p with Some n => [n] | None => [] end ++ pendingNotifications p ++
  match sending p with Some (e, i) => [eventSet e i] | None => [] end.

Definition batches (l : list notification) : list (list E) :=
  concat (map (fun n => match n with eventSet e _ => [e] | parentSyncedNotification => [] end) l).

Definition initial_items (l : list notification) : Z :=
  foldr Z.add 0 (map (fun n => match n with eventSet e true => Z.of_nat (length e) | _ => 0 end) l).

Definition nonempty (l : list (list E)) : list (list E) := List.filter (fun e => (0 <? length e)%nat) l.

Record listener_ok (sent : list (list E)) (p : processorListener) : Prop := {
  lo_order : handled p ++ nonempty (batches (queued p)) = nonempty sent;
  lo_count : count (syncTracker p) = initial_items (queued p);
  lo_held : held p = None -> pendingNotifications p = []
}.

Lemma batches_app l1 l2 : batches (l1 ++ l2) = batches l1 ++ batches l2.
Proof. unfold batches. by rewrite map_app, concat_app. Qed.

Lemma nonempty_app l1 l2 : nonempty (l1 ++ l2) = nonempty l1 ++ nonempty l2.
Proof. apply List.filter_app. Qed.

Lemma initial_items_app l1 l2 : initial_items (l1 ++ l2) = initial_items l1 + initial_items l2.
Proof. unfold initial_items. induction l1 as [|n l1 IH]; simpl; [done|]. rewrite IH. lia. Qed.

Lemma initial_items_nonneg l : 0 <= initial_items l.
Proof. unfold initial_items. induction l as [|[|e []] l IH]; simpl; lia. Qed.

(** A notification that is taken comes after those that were, and before what still
    waits. *)
Lemma pop_add_spec p n :
  (held p = None -> pendingNotifications p = []) ->
  queued (pop_add p n)
  = match held p with Some n => [n] | None => [] end ++ pendingNotifications p ++ n ::
    match sending p with Some (e, i) => [eventSet e i] | None => [] end /\
  handled (pop_add p n) = handled p /\ syncTracker (pop_add p n) = syncTracker p /\
  (held (pop_add p n) = None -> pendingNotifications (pop_add p n) = []).
Proof.
  intros Hh. unfold pop_add, queued. destruct (held p) as [h|] eqn:Eh; simpl; [by rewrite <-app_assoc|]. by rewrite Hh.
Qed.

Lemma ParentSynced_count t t' : ParentSynced t = Ok t' -> count t' = count t.
Proof. unfold ParentSynced, close_synced. destruct (hasSynced t); [by intros [= ->]|]. destruct (count t =? 0); [|by intros [= <-]].
  destruct (closed t); [done|]. by intros [= <-]. Qed.

Lemma ParentSynced_panic t m : ParentSynced t = Panic m -> m = "close of closed channel".
Proof. unfold ParentSynced, close_synced. destruct (hasSynced t), (count t =? 0), (closed t); try done; by intros [= <-]. Qed.

Lemma ParentSynced_err t m : ParentSynced t <> Err m.
Proof. unfold ParentSynced, close_synced. by destruct (hasSynced t), (count t =? 0), (closed t). Qed.

Lemma Finished_spec t n :
  Z.of_nat n <= count t ->
  (exists t', Finished t n = Ok t' /\ count t' = count t - Z.of_nat n) \/ Finished t n = Panic "close of closed channel".
Proof.
  intros Hn. unfold Finished. replace (count t - Z.of_nat n <? 0) with false by (symmetry; apply Z.ltb_ge; lia).
  destruct (negb _ && _ && _ && _); [|left; by eexists]. unfold close_synced. simpl.
  destruct (closed t); [by right|left; by eexists].
Qed.

Lemma call_handler_spec p e :
  handled (call_handler p e) = handled p ++ nonempty [e] /\ syncTracker (call_handler p e) = syncTracker p /\
  queued (call_handler p e) = queued p /\ held (call_handler p e) = held p /\
  pendingNotifications (call_handler p e) = pendingNotifications p.
Proof. unfold call_handler, nonempty. simpl. destruct (0 <? length e)%nat; simpl; [done|]. by rewrite app_nil_r. Qed.

Lemma queued_dispatch p n :
  held p = Some n -> queued p = n :: queued (pop_dispatch p) /\
  (held (pop_dispatch p) = None -> pendingNotifications (pop_dispatch p) = []).
Proof. intros Hh. unfold queued. rewrite Hh. simpl. by destruct (pendingNotifications p). Qed.

Definition outcome_ok (sent : list (list E)) (r : res processorListener) : Prop :=
  match r with Ok p => listener_ok sent p | Panic m => m = "close of closed channel" | Err _ => False end.

Lemma run_one_ok sent p n : listener_ok sent p -> held p = Some n -> outcome_ok sent (run_one (pop_dispatch p) n).
Proof.
  intros [Ho Hc Hh] Hn. destruct (queued_dispatch p n Hn) as [Hq Hd]. rewrite Hq in Ho, Hc.
  change (syncTracker p) with (syncTracker (pop_dispatch p)) in Hc. change (handled p) with (handled (pop_dispatch p)) in Ho.
  clear Hq Hn Hh. revert Ho Hc Hd. generalize (pop_dispatch p). intros p' Ho Hc Hd.
  assert (Hps : forall f, (forall t', count t' = count (syncTracker p') -> listener_ok sent (f (set_tracker p' t'))) ->
    outcome_ok sent (t ← ParentSynced (syncTracker p'); mret (f (set_tracker p' t)))).
  { intros f Hf. destruct (ParentSynced (syncTracker p')) as [t'|e|m] eqn:Eq; simpl.
    - apply Hf. by apply ParentSynced_count.
    - by apply ParentSynced_err in Eq.
    - by apply ParentSynced_panic in Eq. }
  destruct n as [|e []]; cbn [run_one].
  - apply (Hps id). intros t' Ht. split; [exact Ho| |exact Hd]. simpl. rewrite Ht, Hc. done.
  - pose proof (call_handler_spec p' e) as (C1 & C2 & C3 & C4 & C5).
    assert (Hle : Z.of_nat (length e) <= count (syncTracker p')).
    { rewrite Hc. change (Z.of_nat (length e) <= Z.of_nat (length e) + initial_items (queued p')).
      pose proof (initial_items_nonneg (queued p')). lia. }
    destruct (Finished_spec (syncTracker p') (length e) Hle) as [(t' & -> & Ht)| ->]; simpl; [|done]. split.
    + change (queued (set_tracker (call_handler p' e) t')) with (queued (call_handler p' e)). simpl. rewrite C1, C3, <-Ho, <-app_assoc.
      f_equal. change (batches (eventSet e true :: queued p')) with ([e] ++ batches (queued p')). by rewrite nonempty_app.
    + change (queued (set_tracker (call_handler p' e) t')) with (queued (call_handler p' e)). simpl. rewrite C3, Ht, Hc.
      change (initial_items (eventSet e true :: queued p')) with (Z.of_nat (length e) + initial_items (queued p')). lia.
    + simpl. by rewrite C4, C5.
  - apply (Hps (fun p => call_handler p e)). intros t' Ht.
    pose proof (call_handler_spec (set_tracker p' t') e) as (C1 & C2 & C3 & C4 & C5). split.
    + rewrite C1, C3. simpl. rewrite <-Ho, <-app_assoc. f_equal.
      change (batches (eventSet e false :: queued p')) with ([e] ++ batches (queued p')). by rewrite nonempty_app.
    + rewrite C2, C3. simpl. by rewrite Ht, Hc.
    + by rewrite C4, C5.
Qed.

Lemma listener_reaches_ok sent r : listener_reaches sent r -> outcome_ok sent r.
Proof.
  intros Hr. induction Hr as [|sent p e i Hr IH Hs|sent p Hr IH|sent p e i Hr IH Hs|sent p Hr IH Hs|sent p n Hr IH Hn].
  - by split.
  - destruct IH as [Ho Hc Hh]. split; [| |exact Hh].
    + unfold queued in *. simpl. rewrite Hs in Ho. rewrite nonempty_app, <-Ho, <-app_assoc. f_equal.
      rewrite !batches_app, !nonempty_app. simpl. by rewrite !app_nil_r, app_assoc.
    + unfold queued in *. rewrite Hs in Hc. rewrite !initial_items_app in *. simpl.
      change (initial_items [eventSet e i]) with ((if i then Z.of_nat (length e) else 0) + 0). change (initial_items []) with 0 in Hc.
      destruct i; simpl; lia.
  - destruct IH as [Ho Hc Hh]. by split.
  - destruct IH as [Ho Hc Hh]. unfold take_event. set (p0 := mkListener _ _ _ _ _ _).
    destruct (pop_add_spec p0 (eventSet e i) Hh) as (Q & Qh & Qt & Qd).
    assert (Hq : queued (pop_add p0 (eventSet e i)) = queued p) by (rewrite Q; unfold queued; by rewrite Hs).
    split; [by rewrite Hq, Qh|by rewrite Hq, Qt|done].
  - destruct IH as [Ho Hc Hh]. unfold take_synced. set (p0 := mkListener _ _ _ _ _ _).
    destruct (pop_add_spec p0 parentSyncedNotification Hh) as (Q & Qh & Qt & Qd). unfold queued in Ho, Hc. simpl in Q.
    split; [rewrite Q, Qh|rewrite Q, Qt|done].
    + rewrite <-Ho. simpl. rewrite !batches_app. done.
    + simpl. rewrite Hc, !initial_items_app. done.
  - by apply run_one_ok.
Qed.

End listener.

(** A handler is called with the batches that were sent, in their order and
    without the empty ones; what it was not called with is still queued, and the
    counter of initial items never gets negative: the only panic is the channel of
    the tracker closed twice. *)
Theorem handler_called_in_order {E} (sent : list (list E)) r :
  listener_reaches sent r ->
  match r with
  | Ok p => handled p ++ nonempty (batches (queued p)) = nonempty sent /\ 0 <= count (syncTracker p)
  | Panic m => m = "close of closed channel"
  | Err _ => False
  end.
Proof.
  intros Hr. pose proof (listener_reaches_ok sent r Hr) as Ho. destruct r as [p| |]; [|done|done].
  destruct Ho as [Ho Hc _]. split; [done|]. rewrite Hc. apply initial_items_nonneg.
Qed.

Lemma handler_called_in_order_witness :
  let p := take_event (send (newProcessListener (E := nat)) [1%nat] true) [1%nat] true in
  handled p ++ nonempty (batches (queued p)) = nonempty [[1%nat]] /\ 0 <= count (syncTracker p).
Proof.
  refine (handler_called_in_order [[1%nat]] (Ok _) _). apply lr_take_event; [|reflexivity]. apply (lr_send []); [apply lr_new|reflexivity].
Defined.

(** The parent is synced while an item of the initial state is still to be handled:
    the channel is closed when the item is done, but that is not noted, and the next
    event closes it again. *)
Lemma tracker_closes_twice :
  listener_reaches (E := nat) [[1%nat]; [2%nat]] (Panic "close of closed channel").
Proof.
  assert (H1 : listener_reaches (E := nat) [[1%nat]] (Ok (send_synced (send newProcessListener [1%nat] true)))).
  { apply lr_send_synced. by apply (lr_send [] _ [1%nat] true lr_new). }
  apply lr_take_synced in H1; [|simpl; lia].
  apply (lr_run _ _ parentSyncedNotification) in H1; [|done]. cbn in H1.
  apply (lr_take_event _ _ [1%nat] true) in H1; [|done]. apply (lr_run _ _ (eventSet [1%nat] true)) in H1; [|done]. cbn in H1.
  apply (lr_send _ _ [2%nat] false) in H1; [|done]. apply (lr_take_event _ _ [2%nat] false) in H1; [|done].
  apply (lr_run _ _ (eventSet [2%nat] false)) in H1; [|done]. exact H1.
Qed.
