(* ===== verification/LeaderElection.v ===== *)
(** * Leader election

    [dubbod/discovery/pkg/leaderelection]: replicas compete for a lock, a record in
    an object of the Kubernetes API that names its holder.  A replica that holds it
    renews it; another one takes it over when it has not seen the record change for
    the duration of the lease.

    The API server is a parameter: reading, creating and updating an object, of which
    it is documented that a write is refused if the object changed since it was
    read.  Durations and times are nanoseconds. *)

From Stdlib Require Import SpecFloat.
From S2P Require Import Prelude GoStrings Hosts GoNet.

(** ** Records *)

Module LER.
Record t : Type := mk {
  HolderIdentity : string;
  HolderKey : string;
  LeaseDurationSeconds : Z;
  AcquireTime : Z;
  RenewTime : Z;
  LeaderTransitions : Z
}.
End LER.
Notation LeaderElectionRecord := LER.t.
Definition zeroTime : Z := 0.
Definition zero_record : LeaderElectionRecord := LER.mk "" "" 0 zeroTime zeroTime 0.

(** [coordinationv1.LeaseSpec]; every field may be absent. *)
Record LeaseSpec : Type := mkLeaseSpec {
  ls_HolderIdentity : option string;
  ls_LeaseDurationSeconds : option Z;
  ls_AcquireTime : option Z;
  ls_RenewTime : option Z;
  ls_LeaseTransitions : option Z
}.

Definition int32 (z : Z) : Z := (z + 2 ^ 31) mod 2 ^ 32 - 2 ^ 31.

Definition LeaseSpecToLeaderElectionRecord (spec : LeaseSpec) : LeaderElectionRecord :=
  LER.mk (default "" (ls_HolderIdentity spec)) "" (default 0 (ls_LeaseDurationSeconds spec))
    (default zeroTime (ls_AcquireTime spec)) (default zeroTime (ls_RenewTime spec)) (default 0 (ls_LeaseTransitions spec)).

Definition LeaderElectionRecordToLeaseSpec (ler : LeaderElectionRecord) : LeaseSpec :=
  mkLeaseSpec (Some (LER.HolderIdentity ler)) (Some (int32 (LER.LeaseDurationSeconds ler)))
    (Some (LER.AcquireTime ler)) (Some (LER.RenewTime ler)) (Some (int32 (LER.LeaderTransitions ler))).

(** ** Configuration *)

Record LeaderElectionConfig : Type := mkConfig {
  Identity : string;
  Key : string;
  LeaseDuration : Z;
  RenewDeadline : Z;
  RetryPeriod : Z;
  ReleaseOnCancel : bool;
  KeyComparison : option (string -> bool)
}.

(** [time.Duration(JitterFactor*float64(d))], in binary64: the factor is the float
    nearest to 1.2. *)
Definition JitterFactor : spec_float := S754_finite false 5404319552844595 (-52).
Definition jittered (d : Z) : Z := truncate (SFmul 53 1024 JitterFactor (float64 d)).

(** The callbacks and the lock are there. *)
Definition NewLeaderElector (lec : LeaderElectionConfig) : res LeaderElectionConfig :=
  if LeaseDuration lec <=? RenewDeadline lec then Err (mk_error Unknown "leaseDuration must be greater than renewDeadline") else
  if RenewDeadline lec <=? jittered (RetryPeriod lec) then Err (mk_error Unknown "renewDeadline must be greater than retryPeriod*JitterFactor") else
  if LeaseDuration lec <? 1 then Err (mk_error Unknown "leaseDuration must be greater than zero") else
  if RenewDeadline lec <? 1 then Err (mk_error Unknown "renewDeadline must be greater than zero") else
  if RetryPeriod lec <? 1 then Err (mk_error Unknown "retryPeriod must be greater than zero") else Ok lec.

Record LeaderElection : Type := mkLeaderElection {
  name : string;
  electionID : string;
  revision : string;
  perRevision : bool;
  useLeaseLock : bool;
  ttl : Z
}.

Definition newLeaderElection (hostname : string) (name electionID revision : string) (perRevision leaseLock : bool) : LeaderElection :=
  let revision := if String.eqb revision "" then "default" else revision in
  let name := if String.eqb name "" then "unknown-" +:+ hostname else name in
  let electionID := if perRevision && negb (String.eqb revision "") then electionID +:+ "-" +:+ revision else electionID in
  mkLeaderElection name electionID revision perRevision leaseLock (30 * 10 ^ 9).

(** The lock of a lease has no key; no comparison of keys is configured. *)
Definition create_config (l : LeaderElection) : LeaderElectionConfig :=
  mkConfig (name l) (if perRevision l || useLeaseLock l then "" else revision l) (ttl l) (Z.quot (ttl l) 2) (Z.quot (ttl l) 4) true None.
Definition create (l : LeaderElection) : res LeaderElectionConfig := NewLeaderElector (create_config l).

(** ** Electors *)

Section elector.
Context {version : Type}.

(** [LeaderElector], with the version of the object its lock read last. *)
Record LeaderElector : Type := mkElector {
  observedRecord : LeaderElectionRecord;
  observedRawRecord : string;
  observedTime : Z;
  reportedLeader : string;
  lease : option version
}.
Definition new_elector : LeaderElector := mkElector zero_record "" zeroTime "" None.

Definition setObservedRecord (le : LeaderElector) (r : LeaderElectionRecord) (now : Z) : LeaderElector :=
  mkElector r (observedRawRecord le) now (reportedLeader le) (lease le).
Definition set_lease (le : LeaderElector) (v : option version) : LeaderElector :=
  mkElector (observedRecord le) (observedRawRecord le) (observedTime le) (reportedLeader le) v.

Definition IsLeader (cfg : LeaderElectionConfig) (le : LeaderElector) : bool :=
  String.eqb (LER.HolderIdentity (observedRecord le)) (Identity cfg).

(** What the lock answers. *)
Inductive get_result : Type :=
  | got (old : LeaderElectionRecord) (raw : string) (v : version)
  | not_found
  | get_failed.

Inductive attempt : Type :=
  | Failed
  | WantCreate (r : LeaderElectionRecord)
  | WantUpdate (r : LeaderElectionRecord).

Definition own_record (cfg : LeaderElectionConfig) (now : Z) : LeaderElectionRecord :=
  LER.mk (Identity cfg) (Key cfg) (Z.quot (LeaseDuration cfg) (10 ^ 9)) now now 0.

Definition observe (le : LeaderElector) (old : LeaderElectionRecord) (raw : string) (now : Z) : LeaderElector :=
  if String.eqb (observedRawRecord le) raw then le
  else mkElector old raw now (reportedLeader le) (lease le).

(** The lock is held by another replica, and we may not evict it. *)
Definition held_by_other (cfg : LeaderElectionConfig) (le : LeaderElector) (old : LeaderElectionRecord) (now : Z) : bool :=
  (0 <? String.length (LER.HolderIdentity old))%nat && (now <? observedTime le + LeaseDuration cfg) && negb (IsLeader cfg le)
  && match KeyComparison cfg with Some better => negb (better (LER.HolderKey old)) | None => true end.

Definition renewed (cfg : LeaderElectionConfig) (le : LeaderElector) (old : LeaderElectionRecord) (now : Z) : LeaderElectionRecord :=
  let r := own_record cfg now in
  if IsLeader cfg le
  then LER.mk (LER.HolderIdentity r) (LER.HolderKey r) (LER.LeaseDurationSeconds r) (LER.AcquireTime old) (LER.RenewTime r) (LER.LeaderTransitions old)
  else LER.mk (LER.HolderIdentity r) (LER.HolderKey r) (LER.LeaseDurationSeconds r) (LER.AcquireTime r) (LER.RenewTime r) (LER.LeaderTransitions old + 1).

(** The first half of [tryAcquireOrRenew]: up to the write. *)
Definition try_get (cfg : LeaderElectionConfig) (le : LeaderElector) (now : Z) (g : get_result) : LeaderElector * attempt :=
  match g with
  | get_failed => (set_lease le None, Failed)
  | not_found => (set_lease le None, WantCreate (own_record cfg now))
  | got old raw v =>
      let le := observe (set_lease le (Some v)) old raw now in
      if held_by_other cfg le old now then (le, Failed) else (le, WantUpdate (renewed cfg le old now))
  end.

(** The second half, when the write succeeded. *)
Definition try_done (le : LeaderElector) (r : LeaderElectionRecord) (v : version) (now : Z) : LeaderElector :=
  setObservedRecord (set_lease le (Some v)) r now.

Definition release_record (le : LeaderElector) (now : Z) : LeaderElectionRecord :=
  LER.mk "" "" 1 now now (LER.LeaderTransitions (observedRecord le)).

(** [maybeReportTransition]: the new leader, if one is to be reported. *)
Definition maybeReportTransition (le : LeaderElector) : LeaderElector * option string :=
  if String.eqb (LER.HolderIdentity (observedRecord le)) (reportedLeader le) then (le, None)
  else (mkElector (observedRecord le) (observedRawRecord le) (observedTime le) (LER.HolderIdentity (observedRecord le)) (lease le),
        Some (LER.HolderIdentity (observedRecord le))).

End elector.
Arguments LeaderElector version : clear implicits.
Arguments get_result version : clear implicits.

(** ** Replicas

    The replicas, numbered, with the API and the time.  A replica that tries reads
    the object at once and writes later; a write may take effect although it is
    reported to fail.  A replica leads from a write that succeeded on, and stops when
    it is told to, or when it could not renew in time.  It may release the lock
    while it leads: [renew] releases it when a renewal failed or the context ended, and
    only then does [Run] cancel the functions of the leader. *)

Section replicas.
Context (S : Type) (api_get : S -> option (LeaderElectionRecord * nat)).
Context (api_create : S -> LeaderElectionRecord -> option S) (api_update : S -> nat -> LeaderElectionRecord -> option S).
(** The raw bytes of a record, and the record that is read back from them. *)
Context (raw : LeaderElectionRecord -> string) (view : LeaderElectionRecord -> LeaderElectionRecord).
Context (cfg : nat -> LeaderElectionConfig).
(** How long a try may take, and how long the functions of the leader run on after
    the renewal failed: the release of the lock is tried in between. *)
Context (timeout stopping : Z).

Record replica : Type := mkReplica {
  elector : LeaderElector nat;
  trying : option (LeaderElectionRecord * bool);
  leading : option Z;
  released : bool   (** gave the lock up since it last led *)
}.
Record election : Type := mkElection { now : Z; api : S; replicas : nat -> replica }.

Definition lock_get (s : S) : get_result nat :=
  match api_get s with Some (r, v) => got (view r) (raw r) v | None => not_found end.

Definition set_replica (e : election) (i : nat) (r : replica) : election :=
  mkElection (now e) (api e) (fun j => if decide (j = i) then r else replicas e j).
Definition set_api (e : election) (s : S) : election := mkElection (now e) s (replicas e).

(** A replica reads the lock and decides. *)
Definition attempt_get (e : election) (i : nat) (g : get_result nat) : election :=
  let r := replicas e i in
  let '(le, a) := try_get (cfg i) (elector r) (now e) g in
  set_replica e i (mkReplica le (match a with Failed => None | WantCreate x => Some (x, true) | WantUpdate x => Some (x, false) end) (leading r) (released r)).

Definition api_write (s : S) (le : LeaderElector nat) (x : LeaderElectionRecord) (create : bool) : option S :=
  if create then api_create s x else match lease le with Some v => api_update s v x | None => None end.

(** The write succeeds, and the replica leads. *)
Definition attempt_done (e : election) (i : nat) (x : LeaderElectionRecord) (s' : S) : election :=
  let r := replicas e i in
  let v := match api_get s' with Some (_, v) => v | None => 0%nat end in
  set_replica (set_api e s') i (mkReplica (try_done (elector r) x v (now e)) None (Some (LER.RenewTime x)) false).

Definition abandon (e : election) (i : nat) : election :=
  set_replica e i (mkReplica (elector (replicas e i)) None (leading (replicas e i)) (released (replicas e i))).

Definition stop_leading (e : election) (i : nat) : election :=
  set_replica e i (mkReplica (elector (replicas e i)) None None false).

(** The lock is released, with the functions of the leader as they are. *)
Definition let_go (e : election) (i : nat) : election :=
  set_replica e i (mkReplica (elector (replicas e i)) None (leading (replicas e i)) true).
Definition release_done (e : election) (i : nat) (s' : S) : election :=
  let r := replicas e i in
  let v := match api_get s' with Some (_, v) => v | None => 0%nat end in
  let x := release_record (elector r) (now e) in
  set_replica (set_api e s') i (mkReplica (try_done (elector r) x v (now e)) None (leading r) true).

Inductive elect_step : election -> election -> Prop :=
  | el_tick e t : now e <= t -> elect_step e (mkElection t (api e) (replicas e))
  | el_get e i : elect_step e (attempt_get e i (lock_get (api e)))
  | el_get_failed e i : elect_step e (attempt_get e i get_failed)
  | el_write e i x c s' :
      trying (replicas e i) = Some (x, c) -> now e <= LER.RenewTime x + timeout ->
      api_write (api e) (elector (replicas e i)) x c = Some s' -> elect_step e (attempt_done e i x s')
  | el_write_lost e i x c s' :
      trying (replicas e i) = Some (x, c) -> api_write (api e) (elector (replicas e i)) x c = Some s' ->
      elect_step e (abandon (set_api e s') i)
  | el_abandon e i : elect_step e (abandon e i)
  | el_stop e i : elect_step e (stop_leading e i)
  | el_restart e i : elect_step e (set_replica e i (mkReplica new_elector None None false))
  | el_release e i s' :
      IsLeader (cfg i) (elector (replicas e i)) = true ->
      api_write (api e) (elector (replicas e i)) (release_record (elector (replicas e i)) (now e)) false = Some s' ->
      elect_step e (release_done e i s')
  | el_release_lost e i s' :
      IsLeader (cfg i) (elector (replicas e i)) = true ->
      api_write (api e) (elector (replicas e i)) (release_record (elector (replicas e i)) (now e)) false = Some s' ->
      elect_step e (let_go (set_api e s') i).

(** A replica leads until the renewal that follows the last one must have failed and
    its functions have stopped. *)
Definition leads (e : election) (i : nat) : Prop :=
  exists t, leading (replicas e i) = Some t /\ now e <= t + timeout + RetryPeriod (cfg i) + RenewDeadline (cfg i) + stopping.

Definition election_start (t : Z) (s : S) : election := mkElection t s (fun _ => mkReplica new_elector None None false).

(** *** At most one replica leads

    What is documented of the API and of the encoding of records, and what is asked of
    the configurations: identities are distinct, no keys are compared, and the
    duration of a lease covers a try, a renewal with its retries, the stopping of the
    functions and the resolution of encoded times. *)
Context (res : Z).
Context (create_spec : forall s x s', api_create s x = Some s' -> api_get s = None /\ exists v, api_get s' = Some (x, v)).
Context (update_spec : forall s v x s', api_update s v x = Some s' ->
  exists rc v', api_get s = Some (rc, v) /\ api_get s' = Some (x, v') /\ (v < v')%nat).
Context (raw_holder : forall a b, raw a = raw b -> LER.HolderIdentity a = LER.HolderIdentity b).
Context (raw_time : forall a b, raw a = raw b -> LER.RenewTime a < LER.RenewTime b + res).
Context (raw_nonempty : forall a, raw a <> "").
Context (view_holder : forall a, LER.HolderIdentity (view a) = LER.HolderIdentity a).
Context (ids_inj : forall i j, Identity (cfg i) = Identity (cfg j) -> i = j).
Context (ids_nonempty : forall i, Identity (cfg i) <> "").
Context (no_comparison : forall i, KeyComparison (cfg i) = None).
Context (long_enough : forall i j, timeout + RetryPeriod (cfg j) + RenewDeadline (cfg j) + stopping + res <= LeaseDuration (cfg i)).
Context (resolution : forall i, 2 * res <= LeaseDuration (cfg i)).

Notation holder := LER.HolderIdentity.
Notation renew := LER.RenewTime.

(** A replica may take over the record: it holds it, nobody does, or the lease is
    over. *)
Definition may_take (i : nat) (rc x : LeaderElectionRecord) : Prop :=
  holder rc = Identity (cfg i) \/ holder rc = "" \/ renew rc + LeaseDuration (cfg i) < renew x + res.

Definition current (s : S) (t : Z) : Prop := exists rc v, api_get s = Some (rc, v) /\ t < renew rc.

Record rep_ok (t : Z) (s : S) (i : nat) (r : replica) : Prop := {
  ro_lease v : lease (elector r) = Some v -> exists rc vc, api_get s = Some (rc, vc) /\ (v <= vc)%nat;
  ro_raw : observedRawRecord (elector r) <> "" ->
    is_Some (api_get s) /\ observedTime (elector r) <= t /\
    exists o, raw o = observedRawRecord (elector r) /\ renew o <= observedTime (elector r);
  ro_observed : holder (observedRecord (elector r)) = Identity (cfg i) ->
    forall o, raw o = observedRawRecord (elector r) -> holder o = Identity (cfg i) \/ holder o = "" \/ current s (renew o);
  ro_held v rc : holder (observedRecord (elector r)) = Identity (cfg i) -> lease (elector r) = Some v ->
    api_get s = Some (rc, v) -> holder rc = Identity (cfg i) \/ holder rc = "";
  ro_trying x c : trying r = Some (x, c) -> holder x = Identity (cfg i) /\ renew x <= t;
  ro_update x v rc : trying r = Some (x, false) -> lease (elector r) = Some v -> api_get s = Some (rc, v) ->
    renew rc <= renew x /\ may_take i rc x;
  ro_update_raw x o : trying r = Some (x, false) -> raw o = observedRawRecord (elector r) ->
    holder o = Identity (cfg i) \/ holder o = "" \/ renew o < renew x;
  ro_leading t0 : leading r = Some t0 -> released r = false ->
    t0 + timeout + RetryPeriod (cfg i) + RenewDeadline (cfg i) + stopping < t \/
    exists rc v, api_get s = Some (rc, v) /\ holder rc = Identity (cfg i) /\ t0 <= renew rc
}.

Record elect_ok (e : election) : Prop := {
  eo_time rc v : api_get (api e) = Some (rc, v) -> renew rc <= now e;
  eo_replicas i : rep_ok (now e) (api e) i (replicas e i)
}.

Lemma rep_ok_later t t' s i r : t <= t' -> rep_ok t s i r -> rep_ok t' s i r.
Proof.
  intros Ht [H1 H2 H3 H4 H5 H6 H7 H8]. split; try done.
  - intros Hr. destruct (H2 Hr) as (A & B & C). split_and!; [done|lia|done].
  - intros x c Hx. destruct (H5 x c Hx). split; [done|lia].
  - intros t0 Hl Hrl. destruct (H8 t0 Hl Hrl) as [?|?]; [left; lia|by right].
Qed.

(** Another record, with a later version, takes the place of the one there was. *)
Lemma rep_ok_write t s s' i r x v' :
  (forall rc v, api_get s = Some (rc, v) -> renew rc <= renew x /\ (v < v')%nat) -> api_get s' = Some (x, v') ->
  rep_ok t s i r ->
  (forall t0, leading r = Some t0 -> released r = false -> t0 + timeout + RetryPeriod (cfg i) + RenewDeadline (cfg i) + stopping < t \/
     (holder x = Identity (cfg i) /\ t0 <= renew x)) ->
  rep_ok t s' i r.
Proof.
  intros Hs Hs' [H1 H2 H3 H4 H5 H6 H7 H8] Hl.
  assert (Hv : forall v rc, lease (elector r) = Some v -> api_get s' = Some (rc, v) -> False).
  { intros v rc Hlv Hg. destruct (H1 v Hlv) as (rc0 & vc & Hg0 & Hle). destruct (Hs rc0 vc Hg0). rewrite Hs' in Hg. simplify_eq. lia. }
  split; try done.
  - intros v Hlv. destruct (H1 v Hlv) as (rc & vc & Hg & Hle). destruct (Hs rc vc Hg). exists x, v'. split; [done|lia].
  - intros Hr. destruct (H2 Hr) as (_ & B). rewrite Hs'. by split.
  - intros Hh o Ho. destruct (H3 Hh o Ho) as [?|[?|(rc & v & Hg & Hlt)]]; [by left|by right; left|right; right].
    destruct (Hs rc v Hg). exists x, v'. split; [done|lia].
  - intros v rc _ Hlv Hg. by destruct (Hv v rc).
  - intros x0 v rc _ Hlv Hg. by destruct (Hv v rc).
  - intros t0 Ht0 Hrl. destruct (Hl t0 Ht0 Hrl) as [?|[? ?]]; [by left|right]. by exists x, v'.
Qed.

Lemma set_replica_ok e i r :
  elect_ok e -> rep_ok (now e) (api e) i r -> elect_ok (set_replica e i r).
Proof. intros [H1 H2] Hr. split; simpl; [done|]. intros j. case_decide as Hd; [by subst|apply H2]. Qed.

(** What a replica knows after it read the record. *)
Lemma observe_facts e i rc v :
  elect_ok e -> api_get (api e) = Some (rc, v) ->
  let le := observe (set_lease (elector (replicas e i)) (Some v)) (view rc) (raw rc) (now e) in
  lease le = Some v /\ observedRawRecord le = raw rc /\ observedTime le <= now e /\
  (exists o, raw o = raw rc /\ renew o <= observedTime le) /\
  (holder (observedRecord le) = Identity (cfg i) -> holder rc = Identity (cfg i) \/ holder rc = "").
Proof.
  intros [Ht Hr] Hg. destruct (Hr i) as [H1 H2 H3 H4 H5 H6 H7 H8]. unfold observe. simpl.
  destruct (String.eqb (observedRawRecord (elector (replicas e i))) (raw rc)) eqn:E; simpl.
  - apply String.eqb_eq in E. destruct H2 as (_ & B & o & Ho & Hle); [rewrite E; apply raw_nonempty|].
    split_and!; try done; [exists o; by rewrite Ho|]. intros Hh. destruct (H3 Hh rc (eq_sym E)) as [?|[?|(rc' & v' & Hg' & Hlt)]]; [by left|by right|].
    rewrite Hg in Hg'. simplify_eq. lia.
  - split_and!; try done; [exists rc; split; [done|by eapply Ht]|]. rewrite view_holder. by left.
Qed.

Lemma held_by_other_false i (le : LeaderElector nat) rc v t :
  held_by_other (cfg i) le (view rc) t = false -> lease le = Some v ->
  (exists o, raw o = raw rc /\ renew o <= observedTime le) ->
  (holder (observedRecord le) = Identity (cfg i) -> holder rc = Identity (cfg i) \/ holder rc = "") ->
  forall x, renew x = t -> may_take i rc x.
Proof.
  intros Hh _ (o & Ho & Hle) Hl x Hx. unfold held_by_other in Hh. rewrite no_comparison, andb_true_r, view_holder in Hh.
  unfold may_take. destruct (0 <? String.length (holder rc))%nat eqn:E1.
  - destruct (t <? observedTime le + LeaseDuration (cfg i)) eqn:E2.
    + unfold IsLeader in Hh. destruct (String.eqb (holder (observedRecord le)) (Identity (cfg i))) eqn:E3; [|done].
      apply String.eqb_eq in E3. destruct (Hl E3); [by left|by right; left].
    + right; right. apply Z.ltb_ge in E2. pose proof (raw_time rc o (eq_sym Ho)). lia.
  - right; left. apply Nat.ltb_ge in E1. destruct (holder rc); [done|simpl in E1; lia].
Qed.

Lemma get_ok e i g : elect_ok e -> g = get_failed \/ g = lock_get (api e) -> elect_ok (attempt_get e i g).
Proof.
  intros Hok Hg. pose proof (eo_replicas e Hok i) as [H1 H2 H3 H4 H5 H6 H7 H8].
  assert (Hno : forall tr, (forall x, tr = Some (x, false) -> False) -> (forall x c, tr = Some (x, c) -> holder x = Identity (cfg i) /\ renew x <= now e) ->
    rep_ok (now e) (api e) i (mkReplica (set_lease (elector (replicas e i)) None) tr (leading (replicas e i)) (released (replicas e i)))).
  { intros tr Hf Hx. split; simpl; try done; by intros x o ?%Hf. }
  unfold attempt_get. destruct Hg as [->| ->]; [apply set_replica_ok; [done|by apply Hno]|].
  unfold lock_get. destruct (api_get (api e)) as [[rc v]|] eqn:E; cbn [try_get]; [|apply set_replica_ok; [done|]].
  2: { apply Hno; [done|]. intros x c [= <- _]. simpl. split; [done|lia]. }
  destruct (observe_facts e i rc v Hok E) as (F1 & F2 & F3 & F4 & F5).
  set (le := observe (set_lease (elector (replicas e i)) (Some v)) (view rc) (raw rc) (now e)) in *.
  assert (Hbase : forall tr,
    (forall x c, tr = Some (x, c) -> c = false /\ holder x = Identity (cfg i) /\ renew x = now e /\ may_take i rc x) ->
    rep_ok (now e) (api e) i (mkReplica le tr (leading (replicas e i)) (released (replicas e i)))).
  { intros tr Htr. split; simpl.
    - intros v0. rewrite F1. intros [= <-]. by exists rc, v.
    - intros _. rewrite E, F2. by split_and!.
    - intros Hh o. rewrite F2. intros Ho. rewrite (raw_holder _ _ Ho). destruct (F5 Hh); [by left|by right; left].
    - intros v0 rc0 Hh. rewrite F1, E. intros [= <-] [= <-]. by apply F5.
    - intros x c Hx. destruct (Htr x c Hx) as (_ & ? & ? & _). split; [done|lia].
    - intros x v0 rc0 Hx. rewrite F1, E. intros [= <-] [= <-]. destruct (Htr x false Hx) as (_ & _ & Hre & Hm).
      split; [|done]. rewrite Hre. by eapply (eo_time e).
    - intros x o Hx. rewrite F2. intros Ho. destruct (Htr x false Hx) as (_ & _ & Hre & Hm). rewrite (raw_holder _ _ Ho).
      destruct Hm as [?|[?|Hm]]; [by left|by right; left|right; right]. pose proof (raw_time _ _ Ho). pose proof (resolution i). lia.
    - exact (ro_leading _ _ _ _ (eo_replicas e Hok i)). }
  destruct (held_by_other (cfg i) le (view rc) (now e)) eqn:Eh; apply set_replica_ok; try done; [by apply Hbase|].
  apply Hbase. intros x c [= <- <-]. split; [done|].
  assert (Hx : holder (renewed (cfg i) le (view rc) (now e)) = Identity (cfg i) /\ renew (renewed (cfg i) le (view rc) (now e)) = now e)
    by (unfold renewed; by destruct (IsLeader (cfg i) le)).
  destruct Hx. split_and!; try done. by apply (held_by_other_false i le rc v (now e)).
Qed.

(** A write of a replica that tries, or that releases what it holds. *)
Lemma api_write_spec s le x c s' :
  api_write s le x c = Some s' ->
  (c = true /\ api_get s = None \/ c = false /\ exists rc v v', lease le = Some v /\ api_get s = Some (rc, v) /\ api_get s' = Some (x, v') /\ (v < v')%nat) /\
  exists v', api_get s' = Some (x, v').
Proof.
  unfold api_write. destruct c.
  - intros Hc. destruct (create_spec _ _ _ Hc) as (A & v & B). split; [by left|by exists v].
  - destruct (lease le) as [v|]; [|done]. intros Hu. destruct (update_spec _ _ _ _ Hu) as (rc & v' & A & B & C).
    split; [right; split; [done|]; by exists rc, v, v'|by exists v'].
Qed.

(** The other replicas, and the one that writes, after a write. *)
Lemma write_others e i x c s' :
  elect_ok e -> renew x <= now e ->
  api_write (api e) (elector (replicas e i)) x c = Some s' ->
  (forall rc v, api_get (api e) = Some (rc, v) -> lease (elector (replicas e i)) = Some v -> c = false ->
     renew rc <= renew x /\ may_take i rc x) ->
  exists v', api_get s' = Some (x, v') /\
  (forall rc v, api_get (api e) = Some (rc, v) -> renew rc <= renew x /\ (v < v')%nat) /\
  forall j, j <> i \/ holder x = Identity (cfg i) \/ released (replicas e i) = true -> rep_ok (now e) s' j (replicas e j).
Proof.
  intros Hok Hx Hw Hm. destruct (api_write_spec _ _ _ _ _ Hw) as [Hc (v' & Hs')].
  assert (Hold : forall rc v, api_get (api e) = Some (rc, v) -> (renew rc <= renew x /\ (v < v')%nat) /\ may_take i rc x).
  { intros rc v Hg. destruct Hc as [[_ Hn]|[-> (rc0 & v0 & v1 & Hl & Hg0 & Hs1 & Hlt)]]; [congruence|].
    rewrite Hg in Hg0. simplify_eq. destruct (Hm rc0 v0 Hg Hl eq_refl). by split_and!. }
  exists v'. split; [done|]. split; [intros rc v Hg; by apply Hold|]. intros j Hj.
  pose proof (eo_replicas e Hok j) as Hr. apply (rep_ok_write (now e) (api e) s' j _ x v'); [intros rc v Hg; by apply Hold|done|done|].
  intros t0 Ht0 Hrl. destruct (ro_leading _ _ _ _ Hr t0 Ht0 Hrl) as [?|(rc & v & Hg & Hh & Hle)]; [by left|].
  destruct (Hold rc v Hg) as [[Hre _] Htake]. destruct (decide (j = i)) as [->|Hne].
  - destruct Hj as [?|[?|Hn]]; [done|right; split; [done|lia]|congruence].
  - left. destruct Htake as [Hi|[Hi|Hi]].
    + exfalso. apply Hne. apply ids_inj. congruence.
    + exfalso. by apply (ids_nonempty j); rewrite <-Hh.
    + pose proof (long_enough i j). lia.
Qed.

Lemma elect_ok_write e i s' x v' r :
  elect_ok e -> api_get s' = Some (x, v') -> renew x <= now e ->
  (forall j, j <> i -> rep_ok (now e) s' j (replicas e j)) -> rep_ok (now e) s' i r ->
  elect_ok (set_replica (set_api e s') i r).
Proof.
  intros Hok Hs' Hx Hj Hi. split; simpl.
  - intros rc v. rewrite Hs'. by intros [= <- _].
  - intros j. case_decide as Hd; [by subst|by apply Hj].
Qed.

Lemma trying_may_take e i x c :
  elect_ok e -> trying (replicas e i) = Some (x, c) ->
  renew x <= now e /\ holder x = Identity (cfg i) /\
  forall rc v, api_get (api e) = Some (rc, v) -> lease (elector (replicas e i)) = Some v -> c = false ->
    renew rc <= renew x /\ may_take i rc x.
Proof.
  intros Hok Ht. destruct (eo_replicas e Hok i) as [H1 H2 H3 H4 H5 H6 H7 H8]. destruct (H5 x c Ht) as [? ?].
  split_and!; [done|done|]. intros rc v Hg Hl ->. by apply (H6 x v).
Qed.

Lemma write_ok e i x c s' :
  elect_ok e -> trying (replicas e i) = Some (x, c) -> api_write (api e) (elector (replicas e i)) x c = Some s' ->
  elect_ok (attempt_done e i x s').
Proof.
  intros Hok Ht Hw. destruct (trying_may_take e i x c Hok Ht) as (Hx & Hh & Hm).
  destruct (write_others e i x c s' Hok Hx Hw Hm) as (v' & Hs' & Hold & Hj).
  unfold attempt_done. rewrite Hs'. apply (elect_ok_write e i s' x v'); [done|done|done|intros j Hne; apply Hj; by left|].
  pose proof (Hj i ltac:(by right; left)) as [H1 H2 H3 H4 H5 H6 H7 H8]. split; simpl; try done.
  - intros v [= <-]. by exists x, v'.
  - intros Hr. destruct (H2 Hr) as (A & B & o & Ho & Hle). split_and!; [done|lia|]. exists o. split; [done|lia].
  - intros _ o Ho. destruct c.
    + (* created: nothing was observed before *)
      destruct (api_write_spec _ _ _ _ _ Hw) as [[[_ Hn]|[? _]] _]; [|done].
      exfalso. destruct (eo_replicas e Hok i) as [_ H2' _ _ _ _ _ _]. destruct H2' as ([? ?] & _); [rewrite <-Ho; apply raw_nonempty|congruence].
    + destruct (H7 x o Ht Ho) as [?|[?|?]]; [by left|by right; left|right; right]. by exists x, v'.
  - intros v rc _ [= <-]. rewrite Hs'. intros [= <-]. by left.
  - intros t0 [= <-] _. right. exists x, v'. split_and!; [done|done|lia].
Qed.

Lemma write_lost_ok e i x c s' :
  elect_ok e -> trying (replicas e i) = Some (x, c) -> api_write (api e) (elector (replicas e i)) x c = Some s' ->
  elect_ok (abandon (set_api e s') i).
Proof.
  intros Hok Ht Hw. destruct (trying_may_take e i x c Hok Ht) as (Hx & Hh & Hm).
  destruct (write_others e i x c s' Hok Hx Hw Hm) as (v' & Hs' & Hold & Hj).
  apply (elect_ok_write e i s' x v'); [done|done|done|intros j Hne; apply Hj; by left|].
  pose proof (Hj i ltac:(by right; left)) as [H1 H2 H3 H4 H5 H6 H7 H8]. by split.
Qed.

Lemma give_up_ok e i : elect_ok e -> elect_ok (let_go e i).
Proof. intros Hok. apply set_replica_ok; [done|]. by destruct (eo_replicas e Hok i) as [H1 H2 H3 H4 H5 H6 H7 H8]. Qed.

Lemma let_go_replica e i : replicas (let_go e i) i = mkReplica (elector (replicas e i)) None (leading (replicas e i)) true.
Proof. unfold let_go, set_replica. simpl. by rewrite decide_True. Qed.

(** The replicas after a release, where the one that releases has given up. *)
Lemma release_write e i s' :
  elect_ok e -> IsLeader (cfg i) (elector (replicas e i)) = true ->
  api_write (api e) (elector (replicas e i)) (release_record (elector (replicas e i)) (now e)) false = Some s' ->
  exists v', api_get s' = Some (release_record (elector (replicas e i)) (now e), v') /\
    forall j, rep_ok (now e) s' j (replicas (let_go e i) j).
Proof.
  intros Hok Hi Hw. apply String.eqb_eq in Hi. pose proof (give_up_ok e i Hok) as Hok'. pose proof (let_go_replica e i) as Hg.
  destruct (write_others (let_go e i) i (release_record (elector (replicas e i)) (now e)) false s' Hok') as (v' & Hs' & _ & Hj); [simpl; lia|by rewrite Hg| |].
  - intros rc v Hgc. rewrite Hg. cbn [elector]. intros Hv _. simpl. split; [by eapply (eo_time e)|].
    destruct (ro_held _ _ _ _ (eo_replicas e Hok i) v rc Hi Hv Hgc); [by left|by right; left].
  - exists v'. split; [done|]. intros j. apply Hj. destruct (decide (j = i)) as [->|?]; [right; right; by rewrite Hg|by left].
Qed.

Lemma elect_ok_step e e' : elect_ok e -> elect_step e e' -> elect_ok e'.
Proof.
  intros Hok Hst. destruct Hst as [e t Ht|e i|e i|e i x c s' Ht Hd Hw|e i x c s' Ht Hw|e i|e i|e i|e i s' Hi Hw|e i s' Hi Hw].
  - destruct Hok as [H1 H2]. split; simpl; [intros rc v Hg; specialize (H1 rc v Hg); lia|]. intros i. by apply rep_ok_later with (now e).
  - apply get_ok; [done|by right].
  - apply get_ok; [done|by left].
  - by apply write_ok with c.
  - by apply write_lost_ok with x c.
  - apply set_replica_ok; [done|]. destruct (eo_replicas e Hok i) as [H1 H2 H3 H4 H5 H6 H7 H8]. by split.
  - apply set_replica_ok; [done|]. destruct (eo_replicas e Hok i) as [H1 H2 H3 H4 H5 H6 H7 H8]. by split.
  - apply set_replica_ok; [done|]. split; simpl; try done; intros Hx; exfalso; by apply (ids_nonempty i).
  - destruct (release_write e i s' Hok Hi Hw) as (v' & Hs' & Hj). unfold release_done. rewrite Hs'.
    apply (elect_ok_write e i s' (release_record (elector (replicas e i)) (now e)) v'); [done|exact Hs'|simpl; lia| |].
    { intros j Hne. specialize (Hj j). unfold let_go, set_replica in Hj. simpl in Hj. by rewrite decide_False in Hj. }
    specialize (Hj i). rewrite let_go_replica in Hj. destruct Hj as [H1 H2 H3 H4 H5 H6 H7 H8]. split; simpl in *; try done.
    + intros v [= <-]. eexists _, v'. split; [exact Hs'|done].
    + intros Hr. destruct (H2 Hr) as (A & B & o & Ho & Hle). split_and!; [done|lia|]. exists o. split; [done|lia].
    + intros Hx. exfalso. by apply (ids_nonempty i).
    + intros v rc Hx. exfalso. by apply (ids_nonempty i).
  - destruct (release_write e i s' Hok Hi Hw) as (v' & Hs' & Hj). split; simpl; [|exact Hj].
    intros rc v. rewrite Hs'. intros [= <- _]. simpl. lia.
Qed.

Lemma elect_ok_start t s : api_get s = None -> elect_ok (election_start t s).
Proof.
  intros Hs. split; simpl; [by rewrite Hs|]. intros i. split; simpl; try done; intros Hx; exfalso; by apply (ids_nonempty i).
Qed.

Lemma leaders_agree e i j : elect_ok e -> leads e i -> leads e j ->
  released (replicas e i) = false -> released (replicas e j) = false -> i = j.
Proof.
  intros Hok (ti & Hi & Hti) (tj & Hj & Htj) Hri Hrj.
  destruct (ro_leading _ _ _ _ (eo_replicas e Hok i) ti Hi Hri) as [?|(rc & v & Hg & Hh & _)]; [lia|].
  destruct (ro_leading _ _ _ _ (eo_replicas e Hok j) tj Hj Hrj) as [?|(rc' & v' & Hg' & Hh' & _)]; [lia|].
  apply ids_inj. congruence.
Qed.

End replicas.

(** ** Theorems *)

(** What is documented of the API server and of JSON: an object is created only if
    there is none and updated only at the version that was read; the encoding keeps
    the holder, and times to the second. *)
Record api_documented {S} (api_get : S -> option (LeaderElectionRecord * nat)) (api_create : S -> LeaderElectionRecord -> option S)
    (api_update : S -> nat -> LeaderElectionRecord -> option S) (raw : LeaderElectionRecord -> string)
    (view : LeaderElectionRecord -> LeaderElectionRecord) : Prop := {
  ad_create s x s' : api_create s x = Some s' -> api_get s = None /\ exists v, api_get s' = Some (x, v);
  ad_update s v x s' : api_update s v x = Some s' ->
    exists rc v', api_get s = Some (rc, v) /\ api_get s' = Some (x, v') /\ (v < v')%nat;
  ad_holder a b : raw a = raw b -> LER.HolderIdentity a = LER.HolderIdentity b;
  ad_time a b : raw a = raw b -> LER.RenewTime a < LER.RenewTime b + 10 ^ 9;
  ad_nonempty a : raw a <> "";
  ad_view a : LER.HolderIdentity (view a) = LER.HolderIdentity a
}.

(** The configurations of replicas with names of their own. *)
Definition replica_configs (hostname electionID revision : string) (perRevision leaseLock : bool) (names : nat -> string)
    (i : nat) : LeaderElectionConfig :=
  create_config (newLeaderElection hostname (names i) electionID revision perRevision leaseLock).

(** C6 At most one replica that has not released the lock leads at any time: for the
    configurations the program uses, if a try, and the time the functions of a leader run
    on after a renewal failed (the release of the lock, with its timeout of five seconds,
    is tried before they are cancelled), take together at most six and a half seconds,
    whatever the interleaving of reads, writes (also those whose success is not reported),
    releases, restarts and the passing of time.  So under these bounds two replicas lead
    at once only between the release of the lock by one of them and the end of its
    functions, which the program cancels after the release (a finding,
    [released_before_stopped]). *)
Theorem at_most_one_leader {S} api_get api_create api_update raw view hostname electionID revision perRevision leaseLock
    (names : nat -> string) timeout stopping t (s : S) e i j :
  api_documented api_get api_create api_update raw view ->
  (forall i j, names i = names j -> i = j) -> (forall i, names i <> "") -> 2 * (timeout + stopping) <= 13 * 10 ^ 9 ->
  api_get s = None ->
  let cfg := replica_configs hostname electionID revision perRevision leaseLock names in
  rtc (elect_step S api_get api_create api_update raw view cfg timeout) (election_start S t s) e ->
  leads S cfg timeout stopping e i -> leads S cfg timeout stopping e j ->
  i = j \/ released (replicas _ e i) = true \/ released (replicas _ e j) = true.
Proof.
  intros [A1 A2 A3 A4 A5 A6] Hinj Hne Hto Hs cfg Hr.
  assert (Hid : forall i, Identity (cfg i) = names i).
  { intros k. unfold cfg, replica_configs, newLeaderElection. simpl. by rewrite (proj2 (String.eqb_neq (names k) "") (Hne k)). }
  assert (Hok : elect_ok S api_get raw cfg timeout stopping (10 ^ 9) e).
  { remember (election_start S t s) as e0 eqn:E0. assert (H0 : elect_ok S api_get raw cfg timeout stopping (10 ^ 9) e0).
    { subst e0. apply elect_ok_start; [|done]. intros a. rewrite Hid. apply Hne. }
    clear E0. induction Hr as [|e1 e2 e3 Hst _ IH]; [done|]. apply IH.
    apply (elect_ok_step S api_get api_create api_update raw view cfg timeout stopping (10 ^ 9)) with e1; try done.
    - intros a b. rewrite !Hid. apply Hinj.
    - intros a. rewrite Hid. apply Hne.
    - intros a b. unfold cfg, replica_configs, newLeaderElection, create_config. cbn [LeaseDuration RenewDeadline RetryPeriod ttl].
      change (Z.quot (30 * 10 ^ 9) 2) with 15000000000. change (Z.quot (30 * 10 ^ 9) 4) with 7500000000. lia. }
  intros Hi Hj. destruct (released (replicas _ e i)) eqn:Ri; [by right; left|]. destruct (released (replicas _ e j)) eqn:Rj; [by right; right|].
  left. apply (leaders_agree S api_get raw cfg timeout stopping (10 ^ 9)) with e; try done.
  intros a b. rewrite !Hid. apply Hinj.
Qed.

(** *** An instance: an object with a version, times in seconds written in unary *)

Fixpoint unary (n : nat) (rest : string) : string := match n with O => "." +:+ rest | Datatypes.S n => "x" +:+ unary n rest end.
Definition unary_raw (r : LeaderElectionRecord) : string :=
  let sec := LER.RenewTime r / 10 ^ 9 in
  (if sec <? 0 then "-" else "+") +:+ unary (Z.to_nat (Z.abs sec)) (LER.HolderIdentity r).

Definition object : Type := option (LeaderElectionRecord * nat).
Definition object_create (s : object) (x : LeaderElectionRecord) : option object :=
  match s with None => Some (Some (x, 1%nat)) | Some _ => None end.
Definition object_update (s : object) (v : nat) (x : LeaderElectionRecord) : option object :=
  match s with Some (_, v') => if decide (v = v') then Some (Some (x, Datatypes.S v)) else None | None => None end.

Lemma unary_inj n m a b : unary n a = unary m b -> n = m /\ a = b.
Proof.
  revert m. induction n as [|n IH]; intros [|m]; simpl; intros Hx; try done; [by injection Hx|].
  injection Hx as Hx. by destruct (IH m Hx) as [-> ->].
Qed.

Lemma unary_raw_inj a b :
  unary_raw a = unary_raw b -> LER.RenewTime a / 10 ^ 9 = LER.RenewTime b / 10 ^ 9 /\ LER.HolderIdentity a = LER.HolderIdentity b.
Proof.
  unfold unary_raw. destruct (LER.RenewTime a / 10 ^ 9 <? 0) eqn:Ea, (LER.RenewTime b / 10 ^ 9 <? 0) eqn:Eb; simpl; intros [= Hx]; try done;
    apply unary_inj in Hx as [Hn Hh]; (split; [|done]); lia.
Qed.

Lemma object_documented : api_documented id object_create object_update unary_raw id.
Proof.
  split.
  - intros [?|] x s'; simpl; [done|]. intros [= <-]. split; [done|]. by exists 1%nat.
  - intros [[rc v']|] v x s'; simpl; [|done]. case_decide; [|done]. intros [= <-]. subst. eexists rc, (Datatypes.S v').
    split_and!; [done|done|lia].
  - intros a b Hx. by apply unary_raw_inj.
  - intros a b Hx. apply unary_raw_inj in Hx as [Hx _]. pose proof (Z.div_mod (LER.RenewTime a) (10 ^ 9) ltac:(lia)).
    pose proof (Z.div_mod (LER.RenewTime b) (10 ^ 9) ltac:(lia)). pose proof (Z.mod_pos_bound (LER.RenewTime a) (10 ^ 9) ltac:(lia)).
    pose proof (Z.mod_pos_bound (LER.RenewTime b) (10 ^ 9) ltac:(lia)). nia.
  - intros a. unfold unary_raw. by destruct (LER.RenewTime a / 10 ^ 9 <? 0).
  - done.
Qed.

Definition demo_names (i : nat) : string := unary i "pod".
Definition demo_cfg : nat -> LeaderElectionConfig := replica_configs "host" "election" "" false false demo_names.
(** The first replica creates the record. *)
Definition demo_tried : election object :=
  attempt_get object demo_cfg (election_start object 0 None) 0 not_found.
Definition demo_elected : election object :=
  attempt_done object id demo_tried 0 (own_record (demo_cfg 0) 0) (Some (own_record (demo_cfg 0) 0, 1%nat)).

Lemma demo_elected_reached :
  rtc (elect_step object id object_create object_update unary_raw id demo_cfg (10 ^ 9)) (election_start object 0 None) demo_elected.
Proof.
  eapply rtc_l; [apply (el_get _ _ _ _ _ _ _ _ _ 0%nat)|]. eapply rtc_l; [|apply rtc_refl].
  apply (el_write _ _ _ _ _ _ _ _ demo_tried 0%nat _ true); [reflexivity|vm_compute; done|reflexivity].
Qed.

Lemma at_most_one_leader_witness :
  leads object demo_cfg (10 ^ 9) (5 * 10 ^ 9) demo_elected 0 /\
  forall j, leads object demo_cfg (10 ^ 9) (5 * 10 ^ 9) demo_elected j -> released (replicas _ demo_elected j) = false -> 0%nat = j.
Proof.
  assert (Hl : leads object demo_cfg (10 ^ 9) (5 * 10 ^ 9) demo_elected 0) by (exists 0; by vm_compute).
  split; [exact Hl|]. intros j Hj Hrj.
  assert (E : 0%nat = j \/ released (replicas _ demo_elected 0%nat) = true \/ released (replicas _ demo_elected j) = true).
  { apply (at_most_one_leader id object_create object_update unary_raw id "host" "election" "" false false demo_names
            (10 ^ 9) (5 * 10 ^ 9) 0 None demo_elected 0 j object_documented).
    - intros a b Hx. by apply unary_inj in Hx as [? _].
    - intros a. unfold demo_names. by destruct a.
    - lia.
    - reflexivity.
    - exact demo_elected_reached.
    - exact Hl.
    - exact Hj. }
  destruct E as [E|[E|E]]; [exact E|discriminate E|congruence].
Defined.

(** After a renewal failed, [renew] releases the lock before [Run] cancels the context
    of the functions of the leader: another replica can lead while they still run. *)
Lemma released_before_stopped :
  exists e, rtc (elect_step object id object_create object_update unary_raw id demo_cfg (10 ^ 9)) (election_start object 0 None) e /\
    leads object demo_cfg (10 ^ 9) (5 * 10 ^ 9) e 0 /\ leads object demo_cfg (10 ^ 9) (5 * 10 ^ 9) e 1.
Proof.
  set (x := release_record (elector (replicas _ demo_elected 0)) 0).
  set (e1 := release_done object id demo_elected 0 (Some (x, 2%nat))).
  set (e2 := attempt_get object demo_cfg e1 1 (lock_get object id unary_raw id (api _ e1))).
  set (y := match trying (replicas _ e2 1%nat) with Some (y, _) => y | None => x end).
  exists (attempt_done object id e2 1 y (Some (y, 3%nat))). split; [|split; exists 0; by vm_compute].
  etransitivity; [exact demo_elected_reached|].
  eapply rtc_l; [apply (el_release _ _ _ _ _ _ _ _ demo_elected 0%nat (Some (x, 2%nat))); reflexivity|].
  eapply rtc_l; [apply (el_get _ _ _ _ _ _ _ _ e1 1%nat)|].
  apply rtc_once. apply (el_write _ _ _ _ _ _ _ _ e2 1%nat y false); [reflexivity|by vm_compute|reflexivity].
Qed.

(** A record that is stored in a lease comes back without its key, and with its
    numbers wrapped to 32 bits; without loss if it has no key and they fit. *)
Theorem lease_record_roundtrip r :
  LeaseSpecToLeaderElectionRecord (LeaderElectionRecordToLeaseSpec r)
  = LER.mk (LER.HolderIdentity r) "" (int32 (LER.LeaseDurationSeconds r)) (LER.AcquireTime r) (LER.RenewTime r)
      (int32 (LER.LeaderTransitions r)) /\
  (LER.HolderKey r = "" -> - 2 ^ 31 <= LER.LeaseDurationSeconds r < 2 ^ 31 -> - 2 ^ 31 <= LER.LeaderTransitions r < 2 ^ 31 ->
   LeaseSpecToLeaderElectionRecord (LeaderElectionRecordToLeaseSpec r) = r).
Proof.
  assert (Hi : forall z, - 2 ^ 31 <= z < 2 ^ 31 -> int32 z = z) by (intros z Hz; unfold int32; rewrite Z.mod_small; lia).
  split; [done|]. intros Hk Hd Ht. destruct r as [h k d a n t]. simpl in *. unfold LeaseSpecToLeaderElectionRecord. simpl.
  rewrite !Hi by done. by subst.
Qed.

Lemma lease_record_roundtrip_witness :
  LeaseSpecToLeaderElectionRecord (LeaderElectionRecordToLeaseSpec (LER.mk "pod" "" 30 5 7 2)) = LER.mk "pod" "" 30 5 7 2.
Proof. apply (lease_record_roundtrip (LER.mk "pod" "" 30 5 7 2)); simpl; [done|lia|lia]. Defined.

(** The configuration the program builds is always accepted. *)
Lemma create_accepted hostname name electionID revision per lock :
  let l := newLeaderElection hostname name electionID revision per lock in create l = Ok (create_config l).
Proof. by vm_compute. Qed.

(** A try to acquire or renew, on every branch, when the API is not used by others
    meanwhile: it creates the record if there is none; leaves a lock alone that
    another replica holds and that was not seen unchanged for the duration of the
    lease; renews its own, with the time of acquisition and the number of transitions
    as they were; and takes over an abandoned one, as one more transition. *)
Theorem try_outcomes cfg (le : LeaderElector nat) now g :
  KeyComparison cfg = None ->
  let '(le', a) := try_get cfg le now g in
  match g with
  | get_failed => a = Failed
  | not_found => a = WantCreate (own_record cfg now)
  | got old raw v =>
      let seen := observe (set_lease le (Some v)) old raw now in
      le' = seen /\
      (LER.HolderIdentity old <> "" -> IsLeader cfg seen = false -> now < observedTime seen + LeaseDuration cfg -> a = Failed) /\
      (IsLeader cfg seen = true ->
       a = WantUpdate (LER.mk (Identity cfg) (Key cfg) (Z.quot (LeaseDuration cfg) (10 ^ 9)) (LER.AcquireTime old) now (LER.LeaderTransitions old))) /\
      (IsLeader cfg seen = false -> LER.HolderIdentity old = "" \/ observedTime seen + LeaseDuration cfg <= now ->
       a = WantUpdate (LER.mk (Identity cfg) (Key cfg) (Z.quot (LeaseDuration cfg) (10 ^ 9)) now now (LER.LeaderTransitions old + 1)))
  end.
Proof.
  intros Hk. destruct g as [old raw v| |]; simpl; [|done|done].
  set (seen := observe _ old raw now). unfold held_by_other. rewrite Hk, andb_true_r.
  destruct (0 <? String.length (LER.HolderIdentity old))%nat eqn:E1;
    [|apply Nat.ltb_ge in E1; destruct (LER.HolderIdentity old); [|simpl in E1; lia]];
    destruct (now <? observedTime seen + LeaseDuration cfg) eqn:E2; destruct (IsLeader cfg seen) eqn:E3; simpl;
    unfold renewed; rewrite ?E3; split_and!; try done;
    try (apply Z.ltb_lt in E2); try (apply Z.ltb_ge in E2); try (intros; exfalso; lia); intros _ [Hx|Hx]; [by rewrite Hx in E1|lia].
Qed.

Lemma try_outcomes_witness :
  snd (try_get (demo_cfg 0) (new_elector (version := nat)) 7 (got (LER.mk "other" "" 30 1 5 3) "raw" 4%nat)) = Failed.
Proof.
  pose proof (try_outcomes (demo_cfg 0) (new_elector (version := nat)) 7 (got (LER.mk "other" "" 30 1 5 3) "raw" 4%nat) eq_refl) as Hx.
  destruct (try_get _ _ _ _) as [le' a]. destruct Hx as (_ & Hx & _). by apply Hx.
Defined.
