(* ===== verification/OperatorValues.v ===== *)
(** * Values of the operator

    [operator/pkg/values/map.go]: untyped trees of values, read and written by paths
    like [key.subkey], [key.[0].var] or [key.[name:foo]], and merged.

    Maps are changed in place.  A tree has no shared parts, so that a changed map is
    the new value of the place it came from; what is changed before an error stays
    changed. *)

From Stdlib Require Import SpecFloat.
From S2P Require Import Prelude GoStrings Hosts GoNet.

(** ** Values *)

(** What [any] holds; maps are of type [Map] or [map[string]any]. *)
Inductive value : Type :=
  | VNull
  | VBool (b : bool)
  | VInt (z : Z)
  | VFloat (f : spec_float)
  | VStr (s : string)
  | VList (l : list value)
  | VMap (named : bool) (m : list (string * value)).
Notation amap := (list (string * value)).

Fixpoint mget (m : amap) (k : string) : option value :=
  match m with
  | [] => None
  | (k', v) :: m => if String.eqb k' k then Some v else mget m k
  end.

Fixpoint mset (m : amap) (k : string) (v : value) : amap :=
  match m with
  | [] => [(k, v)]
  | (k', v') :: m => if String.eqb k' k then (k', v) :: m else (k', v') :: mset m k v
  end.

Definition CastAsMap (current : value) : option amap :=
  match current with VMap _ m => Some m | _ => None end.

(** A nil value gives a new map. *)
Definition MustCastAsMap (current : value) : res amap :=
  match current with
  | VMap _ m => Ok m
  | VNull => Ok []
  | _ => Panic "not a map"
  end.

Definition tableLookup (m : amap) (simple : string) : option amap :=
  match mget m simple with
  | Some (VMap _ vv) => Some vv
  | _ => None
  end.

Fixpoint get_tables (current : amap) (paths : list string) : option amap :=
  match paths with
  | [] => Some current
  | n :: paths => match tableLookup current n with Some subkey => get_tables subkey paths | None => None end
  end.
Definition parsePath (key : string) : list string := Split key ".".
Definition GetPathMap (m : amap) (s : string) : option amap := get_tables m (parsePath s).

(** ** Paths *)

(** Separators that follow a backslash do not separate. *)
Fixpoint split_escaped (r : ascii) (escaped : bool) (s cur : string) : list string :=
  match s with
  | EmptyString => [cur]
  | String c s =>
      if Ascii.eqb c r && negb escaped then cur :: split_escaped r false s ""
      else split_escaped r (Ascii.eqb c "\") s (cur +:+ String c "")
  end.
Definition splitEscaped (s : string) (r : ascii) : list string :=
  if String.eqb s "" then [] else split_escaped r false s "".

(** An escaped dot is a dot. *)
Fixpoint unescape_dots (s : string) : string :=
  match s with
  | String "\" (String "." s) => String "." (unescape_dots s)
  | String c s => String c (unescape_dots s)
  | EmptyString => EmptyString
  end.

(** [node[expr]] is two segments. *)
Fixpoint cut_bracket (s acc : string) : option (string * string) :=
  match s with
  | EmptyString => None
  | String c s' => if Ascii.eqb c "[" then Some (acc, s) else cut_bracket s' (acc +:+ String c "")
  end.
Definition segments (str : string) : list string :=
  if String.eqb str "" then [] else
  let str := unescape_dots str in
  match cut_bracket str "" with
  | Some (EmptyString, _) | None => [str]
  | Some (node, expr) => [node; expr]
  end.

Definition splitPath (path : string) : list string :=
  let path := TrimSuffix (TrimPrefix (Clean path) ".") "." in
  concat (map segments (splitEscaped path ".")).

Definition in_brackets (seg : string) : option string :=
  if HasPrefix seg "[" && host.HasSuffix seg "]" then Some (String.substring 1 (String.length seg - 2) seg) else None.

Definition extractKV (seg : string) : option (string * string) :=
  match in_brackets seg with
  | Some sanitized => let '(k, v, ok) := Cut sanitized ":" in if ok then Some (k, v) else None
  | None => None
  end.
Definition extractIndex (seg : string) : option Z :=
  match in_brackets seg with
  | Some sanitized => if Atoi_ok sanitized then Some (Atoi_value sanitized) else None
  | None => None
  end.
Definition extractKeyValue (seg : string) : option (string * string) := extractKV seg.

(** The first map of a list that has the string under the key; its index. *)
Fixpoint find_kv (l : list value) (k v : string) (idx : nat) : res (option nat) :=
  match l with
  | [] => Ok None
  | cm :: l =>
      m ← MustCastAsMap cm;
      match mget m k with
      | Some (VStr s) => if String.eqb s v then mret (Some idx) else find_kv l k v (S idx)
      | _ => find_kv l k v (S idx)
      end
  end.

(** ** Reading *)

(** The element under a key and value is looked for, but the first one is taken. *)
Fixpoint get_path (current : value) (paths : list string) : res (option value) :=
  match paths with
  | [] => Ok (Some current)
  | n :: paths =>
      match extractIndex n with
      | Some idx =>
          match current with
          | VList a =>
              if (0 <=? idx) && (idx <? Z.of_nat (length a))
              then match a !! Z.to_nat idx with Some v => get_path v paths | None => Ok None end
              else Ok None
          | _ => Ok None
          end
      | None =>
          match extractKeyValue n with
          | Some (k, v) =>
              match current with
              | VList a =>
                  index ← find_kv a k v 0;
                  match index, a with
                  | Some _, first :: _ => get_path first paths
                  | _, _ => Ok None
                  end
              | _ => Ok None
              end
          | None =>
              match CastAsMap current with
              | Some cm => match mget cm n with Some subKey => get_path subKey paths | None => Ok None end
              | None => Ok None
              end
          end
      end
  end.
Definition GetPath (m : amap) (name : string) : res (option value) := get_path (VMap true m) (splitPath name).

Definition GetPathString (m : amap) (s : string) : res string :=
  v ← GetPath m s; mret match v with Some (VStr t) => t | _ => "" end.
Definition GetPathStringOr (m : amap) (s def : string) : res string :=
  t ← GetPathString m s; mret (if String.eqb t "" then def else t).

(** ** Writing *)

(** The element a bracketed segment is about. *)
Definition target_index (current : value) (seg : string) : res (list value * Z) :=
  match extractKV seg with
  | Some (k, v) =>
      match current with
      | VList l =>
          i ← find_kv l k v 0;
          match i with
          | Some i => mret (l, Z.of_nat i)
          | None => Err (mk_error Unknown ("element " +:+ seg +:+ " not found"))
          end
      | _ => Panic "interface conversion: interface {} is not []interface {}"
      end
  | None =>
      match extractIndex seg with
      | Some idx =>
          match current with
          | VList l => Ok (l, idx)
          | _ => Panic "interface conversion: interface {} is not []interface {}"
          end
      | None => Err (mk_error Unknown ("unknown segment " +:+ seg))
      end
  end.

(** A new map in place of a value, if the value is a map that can be changed in place. *)
Definition replace_map (current : value) (m : amap) : value :=
  match current with VMap named _ => VMap named m | v => v end.

Fixpoint setPathRecurse (base : amap) (paths : list string) (val : value) : amap * res unit :=
  match paths with
  | [] => (base, Panic "index out of range [0] with length 0")
  | seg :: rest =>
      match rest with
      | next :: rest2 =>
          if HasPrefix next "[" then
            let base := match mget base seg with None => mset base seg (VList []) | Some _ => base end in
            match target_index (default VNull (mget base seg)) next with
            | Ok (l, index) =>
                if (index <? 0) || (Z.of_nat (length l) <=? index) then
                  match rest2 with
                  | [] => (mset base seg (VList (l ++ [val])), Ok tt)
                  | _ =>
                      let '(nm, r) := setPathRecurse [] rest2 val in
                      match r with
                      | Ok _ => (mset base seg (VList (l ++ [VMap true nm])), Ok tt)
                      | _ => (base, r)
                      end
                  end
                else
                  let elem := default VNull (l !! Z.to_nat index) in
                  match MustCastAsMap elem with
                  | Ok v =>
                      let '(v', r) := setPathRecurse v rest2 val in
                      match r with
                      | Ok _ => (mset base seg (VList (<[Z.to_nat index := VMap true v']> l)), Ok tt)
                      | _ => (mset base seg (VList (<[Z.to_nat index := replace_map elem v']> l)), r)
                      end
                  | Err e => (base, Err e)
                  | Panic w => (base, Panic w)
                  end
            | Err e => (base, Err e)
            | Panic w => (base, Panic w)
            end
          else
            let base := match mget base seg with None => mset base seg (VMap false []) | Some _ => base end in
            let current := default VNull (mget base seg) in
            match MustCastAsMap current with
            | Ok m => let '(m', r) := setPathRecurse m rest val in (mset base seg (replace_map current m'), r)
            | Err e => (base, Err e)
            | Panic w => (base, Panic w)
            end
      | [] => (mset base seg val, Ok tt)
      end
  end.

Definition SetPath (m : amap) (paths : string) (val : value) : amap * res unit := setPathRecurse m (splitPath paths) val.

(** [path=value] *)
Definition getPV (setFlag : string) : string * string :=
  match Split setFlag "=" with
  | [p; v] => (TrimSpace p, TrimSpace v)
  | _ => (setFlag, "")
  end.

Definition alwaysString : list string := ["spec.tag"; "spec.values.global.tag"; "spec.values.tag"].
Definition isAlwaysString (s : string) : bool := existsb (fun a => HasPrefix s a) alwaysString.

(** [strconv.ParseBool] *)
Definition ParseBool (s : string) : option bool :=
  if bool_decide (s ∈ ["1"; "t"; "T"; "TRUE"; "true"; "True"]) then Some true else
  if bool_decide (s ∈ ["0"; "f"; "F"; "FALSE"; "false"; "False"]) then Some false else None.

Fixpoint unescape_commas (s : string) : string :=
  match s with
  | String "\" (String "," s) => String "," (unescape_commas s)
  | String c s => String c (unescape_commas s)
  | EmptyString => EmptyString
  end.

Section parse.
(** [strconv.ParseFloat] with 64 bits. *)
Context (ParseFloat : string -> option spec_float).

Definition parseValue (valueStr : string) : value :=
  if Atoi_ok valueStr then VInt (Atoi_value valueStr) else
  match ParseFloat valueStr with
  | Some f => VFloat f
  | None => match ParseBool valueStr with Some b => VBool b | None => VStr (unescape_commas valueStr) end
  end.

Fixpoint SetPaths (m : amap) (paths : list string) : amap * res unit :=
  match paths with
  | [] => (m, Ok tt)
  | sf :: paths =>
      let '(p, v) := getPV sf in
      let val := if isAlwaysString p then VStr v else parseValue v in
      let '(m, r) := SetPath m p val in
      match r with Ok _ => SetPaths m paths | _ => (m, r) end
  end.

Fixpoint SetSpecPaths (m : amap) (paths : list string) : amap * res unit :=
  match paths with
  | [] => (m, Ok tt)
  | path :: paths =>
      let '(m, r) := SetPaths m ["spec." +:+ path] in
      match r with Ok _ => SetSpecPaths m paths | _ => (m, r) end
  end.
End parse.

(** ** Merging *)

(** Maps of type [Map] on the right are taken as plain maps; those on the left are
    replaced. *)
Fixpoint merge_value (base : option value) (v : value) : value :=
  match v with
  | VMap _ other =>
      match base with
      | Some (VMap false bm) =>
          VMap false ((fix go (m : amap) (other : amap) : amap :=
             match other with
             | [] => m
             | (k, v) :: other => go (mset m k (merge_value (mget m k) v)) other
             end) bm other)
      | _ => VMap false other
      end
  | v => v
  end.
Definition MergeFrom (m other : amap) : amap := fold_left (fun m '(k, v) => mset m k (merge_value (mget m k) v)) other m.

(** ** Lemmas *)

Lemma mget_mset m k v k' : mget (mset m k v) k' = if String.eqb k k' then Some v else mget m k'.
Proof.
  induction m as [|[x y] m IH]; simpl; [done|].
  destruct (String.eqb x k) eqn:E; simpl.
  - apply String.eqb_eq in E. subst. by destruct (String.eqb k k').
  - rewrite IH. destruct (String.eqb x k') eqn:E2, (String.eqb k k') eqn:E3; try done.
    apply String.eqb_eq in E2, E3. subst. by rewrite String.eqb_refl in E.
Qed.

Definition is_key (seg : string) : bool := negb (HasPrefix seg "[").

Lemma key_not_bracket seg : is_key seg = true -> extractIndex seg = None /\ extractKeyValue seg = None.
Proof.
  unfold is_key, extractIndex, extractKeyValue, extractKV, in_brackets. destruct (HasPrefix seg "["); [done|]. done.
Qed.

Lemma get_path_key b m seg q :
  is_key seg = true ->
  get_path (VMap b m) (seg :: q) = match mget m seg with Some v => get_path v q | None => Ok None end.
Proof. intros Hk. destruct (key_not_bracket seg Hk) as [E1 E2]. cbn [get_path]. by rewrite E1, E2. Qed.

Lemma get_path_index l seg idx q :
  extractIndex seg = Some idx -> 0 <= idx ->
  get_path (VList l) (seg :: q) = match l !! Z.to_nat idx with Some v => get_path v q | None => Ok None end.
Proof.
  intros E Hi. cbn [get_path]. rewrite E. destruct ((0 <=? idx) && (idx <? Z.of_nat (length l))) eqn:Eb; [done|].
  rewrite lookup_ge_None_2; [done|]. apply andb_false_iff in Eb as [Eb|Eb]; [lia|]. apply Z.ltb_ge in Eb. lia.
Qed.

Lemma get_path_new b n q : get_path (VMap b []) (n :: q) = Ok None.
Proof. cbn [get_path]. destruct (extractIndex n); [done|]. destruct (extractKeyValue n) as [[? ?]|]; done. Qed.

(** A path that can be written: every segment leads to a map, or to the end or an
    element of a list, or is still to be made. *)
Fixpoint settable (base : amap) (paths : list string) : bool :=
  match paths with
  | [] => false
  | seg :: rest =>
      is_key seg &&
      match rest with
      | [] => true
      | next :: rest2 =>
          if HasPrefix next "[" then
            match extractKV next, extractIndex next, default (VList []) (mget base seg) with
            | None, Some idx, VList l =>
                if idx =? Z.of_nat (length l) then match rest2 with [] => true | _ => settable [] rest2 end
                else (0 <=? idx) && match l !! Z.to_nat idx with Some (VMap _ m) => settable m rest2 | _ => false end
            | _, _, _ => false
            end
          else match default (VMap false []) (mget base seg) with VMap _ m => settable m rest | _ => false end
      end
  end.

(** Another path, that leaves this one at a key. *)
Fixpoint diverge (p q : list string) : bool :=
  match p, q with
  | a :: p, b :: q => if String.eqb a b then diverge p q else is_key a && is_key b
  | _, _ => false
  end.

Lemma diverge_cons p q : diverge p q = true -> exists b q', q = b :: q'.
Proof. destruct p, q; try done. intros _. by eexists _, _. Qed.

(** A value that differs from another one in what is at a path. *)
Definition writes (old new : value) (path : list string) (val : value) : Prop :=
  get_path new path = Ok (Some val) /\ forall q, diverge path q = true -> get_path new q = get_path old q.

Lemma get_path_fresh b p q : diverge p q = true -> get_path (VMap b []) q = Ok None.
Proof. intros Hd. destruct (diverge_cons _ _ Hd) as (c & q' & ->). apply get_path_new. Qed.

(** Maps are read the same, whatever their type. *)
Lemma writes_tag nm nm' m m' path val p : writes (VMap nm m) (VMap nm m') (p :: path) val -> writes (VMap nm m) (VMap nm' m') (p :: path) val.
Proof.
  assert (Ht : forall q, q <> [] -> get_path (VMap nm' m') q = get_path (VMap nm m') q) by (intros [|c q]; done).
  intros [H1 H2]. split; [by rewrite Ht|]. intros q Hq. destruct (diverge_cons _ _ Hq) as (c & q' & ->). by rewrite Ht, H2.
Qed.

Lemma writes_key b base m0 seg rest old new val :
  is_key seg = true -> (forall k, k <> seg -> mget m0 k = mget base k) -> mget m0 seg = Some new ->
  (mget base seg = Some old \/ mget base seg = None /\ forall q, diverge rest q = true -> get_path old q = Ok None) ->
  writes old new rest val -> writes (VMap b base) (VMap b m0) (seg :: rest) val.
Proof.
  intros Hk Hm0 Hseg Hold [Hget Hframe]. split; [by rewrite get_path_key, Hseg|].
  intros [|c q]; [done|]. cbn [diverge]. destruct (String.eqb seg c) eqn:E.
  - apply String.eqb_eq in E. subst c. intros Hd. rewrite !get_path_key by done. rewrite Hseg, Hframe by done.
    destruct Hold as [-> | [-> Hn]]; [done|by apply Hn].
  - intros [_ Hc]%andb_true_iff. rewrite !get_path_key by done. rewrite Hm0; [done|]. apply String.eqb_neq in E. congruence.
Qed.

Lemma diverge_bracket next rest q :
  HasPrefix next "[" = true -> diverge (next :: rest) q = true -> exists q', q = next :: q' /\ diverge rest q' = true.
Proof.
  intros Hb. destruct q as [|c q]; [done|]. cbn [diverge]. destruct (String.eqb next c) eqn:E.
  - apply String.eqb_eq in E as <-. intros Hd. by exists q.
  - intros [Hd _]%andb_true_iff. unfold is_key in Hd. by rewrite Hb in Hd.
Qed.

Lemma writes_append l v next rest val :
  HasPrefix next "[" = true -> extractIndex next = Some (Z.of_nat (length l)) -> get_path v rest = Ok (Some val) ->
  (forall q, diverge rest q = true -> get_path v q = Ok None) ->
  writes (VList l) (VList (l ++ [v])) (next :: rest) val.
Proof.
  intros Hb Hi Hg Hd.
  assert (Hl : forall q, get_path (VList (l ++ [v])) (next :: q) = get_path v q).
  { intros q. rewrite (get_path_index _ next _ q Hi) by lia. rewrite Nat2Z.id, lookup_app_r, Nat.sub_diag by lia. done. }
  split; [by rewrite Hl|]. intros q (q' & -> & Hq)%diverge_bracket; [|done]. rewrite Hl, (Hd q' Hq).
  rewrite (get_path_index _ next _ q' Hi) by lia. rewrite Nat2Z.id, lookup_ge_None_2 by lia. done.
Qed.

Lemma writes_element l idx e e' next rest val :
  HasPrefix next "[" = true -> extractIndex next = Some idx -> 0 <= idx -> l !! Z.to_nat idx = Some e ->
  writes e e' rest val -> writes (VList l) (VList (<[Z.to_nat idx := e']> l)) (next :: rest) val.
Proof.
  intros Hb Hi H0 He [Hg Hf]. pose proof (lookup_lt_Some _ _ _ He) as Hlt.
  assert (Hl : forall q, get_path (VList (<[Z.to_nat idx := e']> l)) (next :: q) = get_path e' q).
  { intros q. rewrite (get_path_index _ next _ q Hi) by lia. by rewrite list_lookup_insert_eq. }
  split; [by rewrite Hl|]. intros q (q' & -> & Hq)%diverge_bracket; [|done]. rewrite Hl, (Hf q' Hq).
  rewrite (get_path_index _ next _ q' Hi) by lia. by rewrite He.
Qed.

(** The map with the place of a key made. *)
Lemma made_key base seg fresh :
  let base1 := match mget base seg with None => mset base seg fresh | Some _ => base end in
  mget base1 seg = Some (default fresh (mget base seg)) /\
  forall new, mget (mset base1 seg new) seg = Some new /\ forall k, k <> seg -> mget (mset base1 seg new) k = mget base k.
Proof.
  cbv zeta. assert (Hs : forall m0 v k, k <> seg -> mget (mset m0 seg v) k = mget m0 k).
  { intros m0 v k Hne. rewrite mget_mset. rewrite (proj2 (String.eqb_neq seg k)) by congruence. done. }
  split; [|intros new; split; [by rewrite mget_mset, String.eqb_refl|]].
  - destruct (mget base seg) as [v|] eqn:E; [done|]. by rewrite mget_mset, String.eqb_refl.
  - intros k Hne. rewrite Hs by done. destruct (mget base seg); [done|by apply Hs].
Qed.

Lemma set_path_spec n base paths val :
  (length paths <= n)%nat -> settable base paths = true ->
  exists m', setPathRecurse base paths val = (m', Ok tt) /\ forall b, writes (VMap b base) (VMap b m') paths val.
Proof.
  revert base paths. induction n as [|n IH]; intros base [|seg rest] Hn Hs; simpl in Hn; try done; [lia|].
  cbn [settable] in Hs. apply andb_true_iff in Hs as [Hk Hs]. destruct rest as [|next rest2].
  { destruct (made_key base seg VNull) as [_ Hm]. exists (mset base seg val). split; [done|]. intros b.
    apply (writes_key b base _ seg [] (default VNull (mget base seg)) val); try done.
    - intros k Hne. rewrite mget_mset. by rewrite (proj2 (String.eqb_neq seg k)) by congruence.
    - by rewrite mget_mset, String.eqb_refl.
    - destruct (mget base seg); [by left|by right]. }
  cbn [setPathRecurse]. destruct (HasPrefix next "[") eqn:Eb.
  - destruct (extractKV next) as [[? ?]|] eqn:Ekv; [done|]. destruct (extractIndex next) as [idx|] eqn:Ei; [|done].
    destruct (default (VList []) (mget base seg)) as [| | | | |l|] eqn:El; try done.
    destruct (made_key base seg (VList [])) as [Hb1 Hb2]. set (base1 := match mget base seg with None => _ | Some _ => base end) in *.
    rewrite Hb1, El. change (default VNull (Some (VList l))) with (VList l).
    assert (Htar : target_index (VList l) next = Ok (l, idx)) by (unfold target_index; by rewrite Ekv, Ei). rewrite Htar. clear Htar.
    assert (Hfin : forall l', writes (VList l) (VList l') (next :: rest2) val ->
      forall b, writes (VMap b base) (VMap b (mset base1 seg (VList l'))) (seg :: next :: rest2) val).
    { intros l' Hw b. apply (writes_key b base _ seg _ (VList l) (VList l')); try done; [apply (Hb2 (VList l'))..|].
      destruct (mget base seg) as [v|]; simpl in El; [left; by subst|right; split; [done|]]. injection El as <-.
      intros q (q' & -> & _)%diverge_bracket; [|done]. cbn [get_path]. rewrite Ei. rewrite lookup_nil. by destruct ((0 <=? idx) && (idx <? Z.of_nat (length (@nil value)))). }
    destruct (idx =? Z.of_nat (length l)) eqn:Elen.
    + apply Z.eqb_eq in Elen. subst idx. rewrite (proj2 (Z.leb_le _ _) (Z.le_refl _)), orb_true_r. destruct rest2 as [|x rest3].
      * eexists. split; [reflexivity|]. by apply Hfin, writes_append.
      * destruct (IH [] (x :: rest3)) as (nm & -> & Hnm); [simpl in *; lia|done|]. eexists. split; [reflexivity|].
        destruct (Hnm true) as [Hg Hf]. apply Hfin, writes_append; [done|done|done|]. intros q Hq. rewrite (Hf q Hq). by eapply get_path_fresh.
    + apply andb_true_iff in Hs as [Hi Hs]. apply Z.leb_le in Hi. destruct (l !! Z.to_nat idx) as [[| | | | | |nm m]|] eqn:Elk; try done.
      pose proof (lookup_lt_Some _ _ _ Elk) as Hlt.
      replace ((idx <? 0) || (Z.of_nat (length l) <=? idx)) with false by (symmetry; apply orb_false_iff; split; [apply Z.ltb_ge|apply Z.leb_gt]; lia).
      change (default VNull (Some (VMap nm m))) with (VMap nm m). cbn [MustCastAsMap].
      destruct (IH m rest2) as (m' & -> & Hm'); [simpl in *; lia|done|]. eexists. split; [reflexivity|].
      apply Hfin, (writes_element l idx (VMap nm m)); try done. destruct rest2 as [|x rest3]; [done|]. by apply writes_tag.
  - destruct (default (VMap false []) (mget base seg)) as [| | | | | |nm m] eqn:El; try done.
    destruct (made_key base seg (VMap false [])) as [Hb1 Hb2]. set (base1 := match mget base seg with None => _ | Some _ => base end) in *.
    rewrite Hb1, El. change (default VNull (Some (VMap nm m))) with (VMap nm m). cbn [MustCastAsMap replace_map].
    destruct (IH m (next :: rest2)) as (m' & E & Hm'); [simpl in *; lia|done|]. cbn [setPathRecurse] in E. rewrite E.
    eexists. split; [reflexivity|]. intros b. apply (writes_key b base _ seg _ (VMap nm m) (VMap nm m')); try done; [apply (Hb2 (VMap nm m'))..|].
    destruct (mget base seg) as [v|]; simpl in El; [left; by subst|right; split; [done|]]. injection El as <- <-.
    intros q Hq. by eapply get_path_fresh.
Qed.

(** *** Splitting paths *)

Definition plain_key (k : string) : bool :=
  negb (String.eqb k "") && no_char "." k && no_char "\" k && no_char "[" k && no_char "/" k.

Fixpoint last_char (s : string) : option ascii :=
  match s with
  | EmptyString => None
  | String c s => match last_char s with Some d => Some d | None => Some c end
  end.

Lemma last_char_app a b : b <> "" -> last_char (a +:+ b) = last_char b.
Proof.
  intros Hb. assert (Hs : exists d, last_char b = Some d).
  { clear a. induction b as [|c b IH]; [done|]. simpl. destruct b as [|c' b]; [by exists c|]. destruct IH as [d ->]; [done|by exists d]. }
  destruct Hs as [d Hd]. induction a as [|c a IH]; simpl; [done|]. by rewrite IH, Hd.
Qed.

Lemma last_char_no c s : no_char c s = true -> last_char s <> Some c.
Proof.
  induction s as [|d s IH]; simpl; [done|]. intros [Hd Hs]%andb_true_iff. specialize (IH Hs).
  destruct (last_char s); [done|]. intros [= ->]. by rewrite Ascii.eqb_refl in Hd.
Qed.

Lemma plain_key_spec k :
  plain_key k = true -> k <> "" /\ no_char "." k = true /\ no_char "\" k = true /\ no_char "[" k = true /\ no_char "/" k = true.
Proof. unfold plain_key. rewrite !andb_true_iff, negb_true_iff, String.eqb_neq. tauto. Qed.

Lemma no_char_cons c d s : no_char c (String d s) = true -> d <> c /\ no_char c s = true.
Proof. simpl. rewrite andb_true_iff, negb_true_iff, Ascii.eqb_neq. done. Qed.

Lemma plain_join_facts keys :
  keys <> [] -> Forall (fun k => plain_key k = true) keys ->
  let s := str_join keys "." in
  no_char "/" s = true /\ last_char s <> Some "."%char /\ exists c t, s = String c t /\ c <> "."%char /\ c <> "/"%char.
Proof.
  intros Hne Hk. induction Hk as [|k keys Hk Hks IH]; [done|]. apply plain_key_spec in Hk as (K1 & K2 & K3 & K4 & K5).
  assert (Hhd : forall r, exists c t, k +:+ r = String c t /\ c <> "."%char /\ c <> "/"%char).
  { intros r. destruct k as [|c t]; [done|]. apply no_char_cons in K2 as [? _], K5 as [? _]. by exists c, (t +:+ r). }
  destruct keys as [|k2 keys].
  - cbn [str_join]. split_and!; [done|by apply last_char_no|]. rewrite <-(str_app_nil_r k). apply Hhd.
  - destruct IH as (A & C & c0 & t0 & E0 & _); [done|].
    change (str_join (k :: k2 :: keys) ".") with (k +:+ "." +:+ str_join (k2 :: keys) "."). split_and!; [| |apply Hhd].
    + rewrite !no_char_app, A, K5. done.
    + rewrite last_char_app by done. rewrite last_char_app; [done|]. by rewrite E0.
Qed.

Lemma split_escaped_plain k cur rest :
  no_char "." k = true -> no_char "\" k = true ->
  split_escaped "." false (k +:+ String "." rest) cur = (cur +:+ k) :: split_escaped "." false rest "" /\
  split_escaped "." false k cur = [cur +:+ k].
Proof.
  revert cur. induction k as [|c k IH]; intros cur Hd Hb; [simpl; by rewrite str_app_nil_r|].
  apply no_char_cons in Hd as [Hd Hd'], Hb as [Hb Hb'].
  change (String c k +:+ String "." rest) with (String c (k +:+ String "." rest)). cbn [split_escaped].
  rewrite (proj2 (Ascii.eqb_neq c ".") Hd), (proj2 (Ascii.eqb_neq c "\") Hb). cbn [andb].
  destruct (IH (cur +:+ String c "") Hd' Hb') as [-> ->]. by rewrite !str_app_cons.
Qed.

Lemma segments_plain k : plain_key k = true -> segments k = [k].
Proof.
  intros (K1 & K2 & K3 & K4 & _)%plain_key_spec. unfold segments. rewrite (proj2 (String.eqb_neq k "") K1).
  assert (Hu : unescape_dots k = k).
  { clear K1 K2 K4. induction k as [|c k IH]; [done|]. apply no_char_cons in K3 as [Hc K3].
    destruct c as [[] [] [] [] [] [] [] []]; simpl; rewrite ?(IH K3); try done. }
  rewrite Hu. assert (Hc : forall acc, cut_bracket k acc = None); [|by rewrite Hc].
  clear K1 K2 K3 Hu. induction k as [|c k IH]; intros acc; [done|]. apply no_char_cons in K4 as [Hc K4]. cbn [cut_bracket].
  rewrite (proj2 (Ascii.eqb_neq c "[") Hc). by apply IH.
Qed.

Lemma split_escaped_join keys :
  keys <> [] -> Forall (fun k => plain_key k = true) keys -> split_escaped "." false (str_join keys ".") "" = keys.
Proof.
  intros Hne Hk. induction Hk as [|k keys Hk Hks IH]; [done|]. apply plain_key_spec in Hk as (_ & K2 & K3 & _).
  destruct keys as [|k2 keys]; [cbn [str_join]; by destruct (split_escaped_plain k "" "" K2 K3) as [_ ->]|].
  change (str_join (k :: k2 :: keys) ".") with (k +:+ String "." (str_join (k2 :: keys) ".")).
  destruct (split_escaped_plain k "" (str_join (k2 :: keys) ".") K2 K3) as [-> _]. by rewrite IH.
Qed.

(** A path made of plain keys splits into these keys. *)
Theorem split_path_join keys :
  keys <> [] -> Forall (fun k => plain_key k = true) keys -> splitPath (str_join keys ".") = keys.
Proof.
  intros Hne Hk. destruct (plain_join_facts keys Hne Hk) as (A & C & c & t & E & Hd & Hs). unfold splitPath.
  assert (Hcl : Clean (str_join keys ".") = str_join keys ".").
  { unfold Clean, Split. rewrite split_fuel_single by done. rewrite E.
    assert (Hr : HasPrefix (String c t) "/" = false).
    { unfold HasPrefix. rewrite prefix_single. apply Ascii.eqb_neq. congruence. }
    rewrite Hr. cbn [clean_elems]. rewrite (proj2 (String.eqb_neq (String c t) "")), (proj2 (String.eqb_neq (String c t) ".")),
      (proj2 (String.eqb_neq (String c t) "..")) by congruence. done. }
  rewrite Hcl. unfold TrimPrefix. assert (Hp : HasPrefix (str_join keys ".") "." = false).
  { rewrite E. unfold HasPrefix. rewrite prefix_single. apply Ascii.eqb_neq. congruence. }
  rewrite Hp. unfold TrimSuffix. assert (Hsf : host.HasSuffix (str_join keys ".") "." = false).
  { destruct (host.HasSuffix (str_join keys ".") ".") eqn:Ex; [|done]. apply HasSuffix_spec in Ex as [p Ex].
    exfalso. apply C. by rewrite Ex, last_char_app. }
  rewrite Hsf. unfold splitEscaped. rewrite (proj2 (String.eqb_neq (str_join keys ".") "")) by (by rewrite E).
  rewrite split_escaped_join by done. clear -Hk. induction Hk as [|k keys Hk _ IH]; [done|]. simpl. by rewrite segments_plain, IH.
Qed.

Lemma split_path_join_witness : splitPath "spec.values.global" = ["spec"; "values"; "global"].
Proof. apply (split_path_join ["spec"; "values"; "global"]); [done|]. by repeat constructor. Defined.

(** ** Theorems on reading, writing and merging *)

(** What is set is what is read: for a path through maps and list elements (also
    ones that are still to be made), [SetPath] succeeds, [GetPath] of the path gives
    the value, and [GetPath] of any path that leaves it at a key gives what it gave. *)
Theorem set_then_get m p val :
  settable m (splitPath p) = true ->
  exists m', SetPath m p val = (m', Ok tt) /\ GetPath m' p = Ok (Some val) /\
    forall q, diverge (splitPath p) (splitPath q) = true -> GetPath m' q = GetPath m q.
Proof.
  intros Hs. destruct (set_path_spec _ m (splitPath p) val (Nat.le_refl _) Hs) as (m' & E & Hw).
  exists m'. split; [done|]. destruct (Hw true) as [Hg Hf]. split; [exact Hg|]. intros q Hq. by apply Hf.
Qed.

Definition demo_tree : amap :=
  [("spec", VMap false [("tag", VStr "1"); ("ports", VList [VMap false [("name", VStr "http")]])])].

Lemma set_then_get_witness :
  exists m', SetPath demo_tree "spec.ports.[0].port" (VInt 80) = (m', Ok tt) /\
    GetPath m' "spec.ports.[0].port" = Ok (Some (VInt 80)) /\ GetPath m' "spec.tag" = GetPath demo_tree "spec.tag".
Proof.
  destruct (set_then_get demo_tree "spec.ports.[0].port" (VInt 80) eq_refl) as (m' & E & G & F).
  exists m'. split; [exact E|]. split; [exact G|]. by apply F.
Defined.

Lemma merge_maps nm bm other : merge_value (Some (VMap false bm)) (VMap nm other) = VMap false (MergeFrom bm other).
Proof.
  cbn [merge_value]. f_equal. revert bm. induction other as [|[k v] other IH]; intros bm; [done|]. cbn [MergeFrom fold_left]. apply IH.
Qed.

Lemma mget_not_in m k : k ∉ map fst m -> mget m k = None.
Proof.
  induction m as [|[k' v] m IH]; simpl; [done|]. intros [Hne Hn]%not_elem_of_cons.
  rewrite (proj2 (String.eqb_neq k' k)) by congruence. by apply IH.
Qed.

Lemma mget_MergeFrom m other k :
  NoDup (map fst other) ->
  mget (MergeFrom m other) k = match mget other k with None => mget m k | Some v => Some (merge_value (mget m k) v) end.
Proof.
  revert m. induction other as [|[k' v] other IH]; intros m Hnd; [done|]. cbn [MergeFrom fold_left mget]. simpl in Hnd.
  apply NoDup_cons in Hnd as [Hn Hnd]. fold (MergeFrom (mset m k' (merge_value (mget m k') v)) other). rewrite IH by done.
  rewrite mget_mset. destruct (String.eqb k' k) eqn:E; [|done]. apply String.eqb_eq in E. subst. by rewrite mget_not_in.
Qed.

(** Keys are distinct in the maps along a path. *)
Fixpoint distinct_along (v : value) (p : list string) : Prop :=
  match p, v with
  | k :: p, VMap _ m => NoDup (map fst m) /\ forall v', mget m k = Some v' -> distinct_along v' p
  | _, _ => True
  end.

(** The merged map says nothing about the path: some key of it is not there. *)
Fixpoint leaves_alone (m other : amap) (p : list string) : bool :=
  match p with
  | [] => false
  | k :: p =>
      match mget other k with
      | None => true
      | Some (VMap _ o) => match mget m k with Some (VMap false bm) => leaves_alone bm o p | _ => false end
      | Some _ => false
      end
  end.

Definition is_map (v : value) : bool := match v with VMap _ _ => true | _ => false end.

(** Merging: the values of the merged map take precedence at every path, and where
    it has none the values there were stay. *)
Theorem merge_precedence m other p :
  Forall (fun k => is_key k = true) p -> distinct_along (VMap true other) p ->
  (forall v, get_path (VMap true other) p = Ok (Some v) -> is_map v = false -> get_path (VMap true (MergeFrom m other)) p = Ok (Some v)) /\
  (leaves_alone m other p = true -> get_path (VMap true (MergeFrom m other)) p = get_path (VMap true m) p).
Proof.
  assert (Ht : forall b m q, q <> [] -> get_path (VMap b m) q = get_path (VMap true m) q) by (intros b m0 [|c q]; done).
  intros Hk. revert m other. induction Hk as [|k p Hk Hp IH]; intros m other Hd; [split; [intros v [= <-]; done|done]|].
  destruct Hd as [Hnd Hd]. rewrite !get_path_key by done. rewrite mget_MergeFrom by done. cbn [leaves_alone].
  destruct (mget other k) as [v1|] eqn:E; [|by split]. specialize (Hd v1 eq_refl).
  destruct p as [|k2 p].
  { split; [|by destruct v1, (mget m k) as [[| | | | | |[] ?]|]]. intros v [= <-] Hm. by destruct v1. }
  destruct v1 as [| | | | | |nm o]; try (split; [|done]; cbn [get_path]; intros v;
    inversion Hp as [|? ? Hk2 _]; destruct (key_not_bracket k2 Hk2) as [-> ->]; done).
  assert (Hd' : distinct_along (VMap true o) (k2 :: p)) by exact Hd.
  destruct (mget m k) as [[| | | | | |[] bm]|] eqn:Em; try (split; [|done]; intros v; by rewrite !Ht).
  rewrite merge_maps, !(Ht nm), !(Ht false) by done. destruct (IH bm o Hd') as [I1 I2]. split; [exact I1|exact I2].
Qed.

Lemma merge_precedence_witness :
  get_path (VMap true (MergeFrom demo_tree [("spec", VMap true [("tag", VInt 2)])])) ["spec"; "tag"] = Ok (Some (VInt 2)) /\
  get_path (VMap true (MergeFrom demo_tree [("spec", VMap true [("tag", VInt 2)])])) ["spec"; "ports"] = get_path (VMap true demo_tree) ["spec"; "ports"].
Proof.
  assert (Hn : NoDup ["spec"]) by apply NoDup_singleton. assert (Hn2 : NoDup ["tag"]) by apply NoDup_singleton. split.
  - apply (merge_precedence demo_tree [("spec", VMap true [("tag", VInt 2)])] ["spec"; "tag"]); try done; [by repeat constructor|].
    split; [done|]. intros v [= <-]. split; [done|]. by intros v [= <-].
  - apply (merge_precedence demo_tree [("spec", VMap true [("tag", VInt 2)])] ["spec"; "ports"]); try done; [by repeat constructor|].
    split; [done|]. intros v [= <-]. split; [done|]. done.
Defined.

(** *** Findings *)

(** The element with a name is looked for, but the first one is read. *)
Lemma get_by_name_reads_first :
  let m := [("ports", VList [VMap false [("name", VStr "http"); ("port", VInt 80)]; VMap false [("name", VStr "grpc"); ("port", VInt 81)]])] in
  GetPath m "ports.[name:grpc].port" = Ok (Some (VInt 80)).
Proof. by vm_compute. Qed.

(** Replacing an element of a list panics. *)
Lemma set_element_panics :
  snd (SetPath [("l", VList [VMap false []])] "l.[0]" (VInt 1)) = Panic "index out of range [0] with length 0".
Proof. by vm_compute. Qed.

(** A value that is set below a null is lost, without an error. *)
Lemma set_below_null_lost :
  SetPath [("spec", VNull)] "spec.tag" (VStr "1") = ([("spec", VNull)], Ok tt).
Proof. by vm_compute. Qed.

(** An empty path panics. *)
Lemma set_empty_path_panics : snd (SetPath [] "" VNull) = Panic "index out of range [0] with length 0".
Proof. by vm_compute. Qed.
