(* ===== verification/NamespaceFilter.v ===== *)
(** * Namespaces that take part in discovery

    [pkg/kube/namespace/filter.go]: the set of namespaces that match the discovery
    selectors, kept up to date from the events of namespaces and from changes of the
    selectors, and what the handlers of the filter are told.

    Requirements on labels and their evaluation are the Kubernetes library's and are
    parameters. *)

From S2P Require Import Prelude GoStrings GoSets Krt.

Section filter.
Context {requirement : Type}.
Context (NewRequirement : string -> string -> list string -> option requirement).
Context (matches_requirement : requirement -> nmap string string -> bool).

(** [meshapi.LabelSelector] *)
Record LabelSelector : Type := mkLabelSelector {
  MatchLabels : gmap string string;
  MatchExpressions : list (string * string * list string)
}.

(** [labels.Selector]: nothing, or all of the requirements. *)
Inductive selector : Type := Nothing | All (rs : list requirement).
Definition Everything : selector := All [].
Definition selector_Matches (s : selector) (l : nmap string string) : bool :=
  match s with Nothing => false | All rs => forallb (fun r => matches_requirement r l) rs end.

(** The operators of the API and those of the library. *)
Definition operator (op : string) : option string :=
  if String.eqb op "In" then Some "in" else
  if String.eqb op "NotIn" then Some "notin" else
  if String.eqb op "Exists" then Some "exists" else
  if String.eqb op "DoesNotExist" then Some "!" else None.

Definition invalid_requirement : gerror := mk_error Unknown "invalid requirement".

Definition LabelSelectorAsSelector (ps : option LabelSelector) : res selector :=
  match ps with
  | None => Ok Nothing
  | Some ps =>
      if (size (MatchLabels ps) + length (MatchExpressions ps) =? 0)%nat then Ok Everything else
      let labels := map (fun '(k, v) => NewRequirement k "=" [v]) (map_to_list (MatchLabels ps)) in
      let exprs := map (fun '(k, op, vs) => match operator op with Some o => NewRequirement k o vs | None => None end) (MatchExpressions ps) in
      match mapM id (labels ++ exprs) with
      | Some rs => Ok (All rs)
      | None => Err invalid_requirement
      end
  end.

(** [discoveryNamespacesFilter], with what its handlers were told. *)
Record discoveryNamespacesFilter : Type := mkFilter {
  discoveryNamespaces : gset string;
  discoverySelectors : list selector;
  notified : list (gset string * gset string)
}.

Definition notifyHandlers (d : discoveryNamespacesFilter) (added removed : gset string) : discoveryNamespacesFilter :=
  mkFilter (discoveryNamespaces d) (discoverySelectors d) (notified d ++ [(added, removed)]).

Definition isSelected (selectors : list selector) (l : nmap string string) : bool :=
  if (length selectors =? 0)%nat then true else existsb (fun s => selector_Matches s l) selectors.
Definition isSelectedLocked (d : discoveryNamespacesFilter) (l : nmap string string) : bool := isSelected (discoverySelectors d) l.

Definition set_members (d : discoveryNamespacesFilter) (s : gset string) : discoveryNamespacesFilter :=
  mkFilter s (discoverySelectors d) (notified d).

Definition namespaceCreatedLocked (d : discoveryNamespacesFilter) (name : string) (l : nmap string string) : discoveryNamespacesFilter * bool :=
  if isSelectedLocked d l
  then (set_members d ({[name]} ∪ discoveryNamespaces d), negb (length (discoverySelectors d) =? 0)%nat)
  else (d, false).

(** Whether membership changed, and whether the namespace was added. *)
Definition namespaceUpdatedLocked (d : discoveryNamespacesFilter) (name : string) (l : nmap string string)
  : discoveryNamespacesFilter * (bool * bool) :=
  if bool_decide (name ∈ discoveryNamespaces d) && negb (isSelectedLocked d l)
  then (set_members d (discoveryNamespaces d ∖ {[name]}), (true, false)) else
  if negb (bool_decide (name ∈ discoveryNamespaces d)) && isSelectedLocked d l
  then (set_members d ({[name]} ∪ discoveryNamespaces d), (true, true))
  else (d, (false, false)).

Definition namespaceDeletedLocked (d : discoveryNamespacesFilter) (name : string) : discoveryNamespacesFilter :=
  set_members d (discoveryNamespaces d ∖ {[name]}).

(** The handlers of namespace events.  An update is told by the labels of the new
    object; its name does not change. *)
Inductive ns_event : Type :=
  | nsAdd (name : string) (l : nmap string string)
  | nsUpdate (name : string) (l : nmap string string)
  | nsDelete (name : string).

Definition on_event (d : discoveryNamespacesFilter) (ev : ns_event) : discoveryNamespacesFilter :=
  match ev with
  | nsAdd name l => let '(d, created) := namespaceCreatedLocked d name l in if created then notifyHandlers d {[name]} ∅ else d
  | nsUpdate name l =>
      let '(d, (membershipChanged, namespaceAdded)) := namespaceUpdatedLocked d name l in
      if membershipChanged then (if namespaceAdded then notifyHandlers d {[name]} ∅ else notifyHandlers d ∅ {[name]}) else d
  | nsDelete name => namespaceDeletedLocked d name
  end.

(** [selectorsChanged] over the namespaces there are: its own loops over namespaces and
    selectors.  An invalid selector leaves the filter as it is. *)
Definition select_one (selectors : list selector) (namespaceList : list (string * nmap string string)) (acc : gset string)
    (ns : string * nmap string string) : gset string :=
  let acc := fold_left (fun acc s => if selector_Matches s (snd ns) then {[fst ns]} ∪ acc else acc) selectors acc in
  if (length selectors =? 0)%nat then fold_left (fun acc ns => {[fst ns]} ∪ acc) namespaceList acc else acc.
Definition selected_namespaces (namespaces : gmap string (nmap string string)) (selectors : list selector) : gset string :=
  let namespaceList := map_to_list namespaces in fold_left (select_one selectors namespaceList) namespaceList ∅.

Definition selectorsChanged (d : discoveryNamespacesFilter) (namespaces : gmap string (nmap string string))
    (selectors : list (option LabelSelector)) (notify : bool) : discoveryNamespacesFilter :=
  match mapM LabelSelectorAsSelector selectors with
  | Ok ss =>
      let new := selected_namespaces namespaces ss in
      let old := discoveryNamespaces d in
      let d := mkFilter new ss (notified d) in
      if notify then notifyHandlers d (new ∖ old) (old ∖ new) else d
  | _ => if notify then notifyHandlers d ∅ ∅ else d
  end.

(** An object: its namespace, or its name if it is a namespace; none if it could not be
    extracted. *)
Definition Filter (d : discoveryNamespacesFilter) (ns : option string) : bool :=
  match ns with
  | None => false
  | Some ns =>
      if String.eqb ns "" then true else
      if (length (discoverySelectors d) =? 0)%nat then true else bool_decide (ns ∈ discoveryNamespaces d)
  end.

(** ** The filter and the informer

    Namespaces change, which is told later, and selectors change. *)

Definition event_name (ev : ns_event) : string := match ev with nsAdd n _ | nsUpdate n _ | nsDelete n => n end.
Definition event_labels (ev : ns_event) : option (nmap string string) :=
  match ev with nsAdd _ l | nsUpdate _ l => Some l | nsDelete _ => None end.

Record ns_system : Type := mkNs {
  namespaces : gmap string (nmap string string);
  pending : list ns_event;
  nsfilter : discoveryNamespacesFilter
}.

Definition apply_ns (m : gmap string (nmap string string)) (ev : ns_event) : gmap string (nmap string string) :=
  match event_labels ev with Some l => <[event_name ev := l]> m | None => delete (event_name ev) m end.

(** Only a namespace that is not there is added. *)
Definition possible (m : gmap string (nmap string string)) (ev : ns_event) : Prop :=
  match ev with nsAdd n _ => m !! n = None | nsUpdate n _ | nsDelete n => is_Some (m !! n) end.

Inductive ns_step : ns_system -> ns_system -> Prop :=
  | ns_changes s ev : possible (namespaces s) ev -> ns_step s (mkNs (apply_ns (namespaces s) ev) (pending s ++ [ev]) (nsfilter s))
  | ns_told s ev q : pending s = ev :: q -> ns_step s (mkNs (namespaces s) q (on_event (nsfilter s) ev))
  | ns_selectors s selectors notify :
      ns_step s (mkNs (namespaces s) (pending s) (selectorsChanged (nsfilter s) (namespaces s) selectors notify)).

Definition ns_start : ns_system := mkNs ∅ [] (mkFilter ∅ [] []).

Definition pending_of (s : ns_system) (n : string) : list ns_event := base.filter (fun ev => event_name ev = n) (pending s).

(** A namespace is a member as it should be, or an event about it is still to come, the
    last of which tells its labels; an addition that is not the first event follows a
    deletion, and before one that is alone only selectors can have made it a member. *)
Record member_ok (s : ns_system) (n : string) : Prop := {
  mk_last ev : last (pending_of s n) = Some ev -> namespaces s !! n = event_labels ev;
  mk_member : pending_of s n = [] ->
    (n ∈ discoveryNamespaces (nsfilter s) <->
     exists l, namespaces s !! n = Some l /\ isSelected (discoverySelectors (nsfilter s)) l = true);
  mk_adds l1 e1 a l l2 : pending_of s n = l1 ++ e1 :: nsAdd a l :: l2 -> event_labels e1 = None;
  mk_alone a l : pending_of s n = [nsAdd a l] -> n ∈ discoveryNamespaces (nsfilter s) ->
    isSelected (discoverySelectors (nsfilter s)) l = true
}.

Lemma on_event_members d ev n :
  discoverySelectors (on_event d ev) = discoverySelectors d /\
  (n ∈ discoveryNamespaces (on_event d ev) <->
   if decide (event_name ev = n)
   then match ev with
        | nsAdd _ l => n ∈ discoveryNamespaces d \/ isSelected (discoverySelectors d) l = true
        | nsUpdate _ l => isSelected (discoverySelectors d) l = true
        | nsDelete _ => False
        end
   else n ∈ discoveryNamespaces d).
Proof.
  destruct ev as [name l|name l|name]; simpl.
  - unfold namespaceCreatedLocked, isSelectedLocked. destruct (isSelected (discoverySelectors d) l) eqn:E.
    + destruct (negb _); simpl; (split; [done|]); case_decide; set_solver.
    + split; [done|]. case_decide; set_solver.
  - unfold namespaceUpdatedLocked, isSelectedLocked. destruct (isSelected (discoverySelectors d) l) eqn:E; case_bool_decide as Hb; simpl;
      (split; [done|]); case_decide; set_solver.
  - split; [done|]. case_decide; set_solver.
Qed.

Lemma member_ok_other s s' n :
  pending_of s' n = pending_of s n -> namespaces s' !! n = namespaces s !! n ->
  discoverySelectors (nsfilter s') = discoverySelectors (nsfilter s) ->
  (n ∈ discoveryNamespaces (nsfilter s') <-> n ∈ discoveryNamespaces (nsfilter s)) -> member_ok s n -> member_ok s' n.
Proof.
  intros Hp Hm Hs Hd [H1 H2 H3 H4]. split; rewrite ?Hp, ?Hm, ?Hs.
  - exact H1.
  - rewrite Hd. exact H2.
  - exact H3.
  - intros a l Hx. rewrite Hd. by apply (H4 a).
Qed.

Lemma last_snoc_inv {A} (l l1 l2 : list A) (x a b : A) :
  l ++ [x] = l1 ++ a :: b :: l2 -> (exists l2', l = l1 ++ a :: b :: l2') \/ (l = l1 ++ [a] /\ x = b).
Proof.
  destruct (exists_last (l := b :: l2)) as (l3 & y & E); [done|]. rewrite E.
  replace (l1 ++ a :: l3 ++ [y]) with ((l1 ++ a :: l3) ++ [y]) by (by rewrite <-app_assoc).
  intros [-> ->]%app_inj_tail. destruct l3 as [|b' l3]; simpl in E; injection E as -> E; [right; split; [done|]; by subst|].
  left. by exists l3.
Qed.

Lemma member_ok_changes s ev n :
  possible (namespaces s) ev -> member_ok s n -> member_ok (mkNs (apply_ns (namespaces s) ev) (pending s ++ [ev]) (nsfilter s)) n.
Proof.
  intros Hpos Hok. assert (Hpo : pending_of (mkNs (apply_ns (namespaces s) ev) (pending s ++ [ev]) (nsfilter s)) n
    = pending_of s n ++ (if decide (event_name ev = n) then [ev] else [])).
  { unfold pending_of. simpl. rewrite filter_app. done. }
  destruct (decide (event_name ev = n)) as [Hn|Hn].
  - assert (Hst : apply_ns (namespaces s) ev !! n = event_labels ev).
    { unfold apply_ns. rewrite Hn. destruct (event_labels ev); [apply lookup_insert_eq|apply lookup_delete_eq]. }
    destruct Hok as [H1 H2 H3 H4]. split; rewrite Hpo; simpl.
    + intros e. rewrite last_snoc. by intros [= <-].
    + intros Hx. by apply app_eq_nil in Hx as [_ ?].
    + intros l1 e1 a l l2 Hx. apply last_snoc_inv in Hx as [[l2' Hx]|[Hx ->]]; [by eapply H3|].
      assert (He : namespaces s !! n = event_labels e1) by (apply H1; rewrite Hx; apply last_snoc).
      simpl in Hpos, Hn. by rewrite <-He, <-Hn.
    + intros a l Hx Hin. destruct (pending_of s n) as [|y q] eqn:E; [|by destruct q].
      injection Hx as ->. simpl in Hpos, Hn. exfalso. apply (proj1 (H2 eq_refl)) in Hin as (l0 & Hl & _). congruence.
  - apply (member_ok_other s); simpl; [by rewrite Hpo, app_nil_r| |done|done|done].
    unfold apply_ns. destruct (event_labels ev); [by rewrite lookup_insert_ne|by rewrite lookup_delete_ne].
Qed.

Lemma member_ok_told s ev q n :
  pending s = ev :: q -> member_ok s n -> member_ok (mkNs (namespaces s) q (on_event (nsfilter s) ev)) n.
Proof.
  intros Hp Hok. destruct (on_event_members (nsfilter s) ev n) as [Hs Hm].
  assert (Hpo : pending_of s n = (if decide (event_name ev = n) then [ev] else []) ++ base.filter (fun ev => event_name ev = n) q).
  { unfold pending_of. rewrite Hp, filter_cons. by destruct (decide (event_name ev = n)). }
  destruct (decide (event_name ev = n)) as [Hn|Hn].
  - destruct Hok as [H1 H2 H3 H4]. rewrite Hpo in *. simpl in H1, H3, H4.
    remember (base.filter (fun ev => event_name ev = n) q) as q' eqn:Eq.
    assert (Hq : pending_of (mkNs (namespaces s) q (on_event (nsfilter s) ev)) n = q') by (by rewrite Eq).
    split; rewrite Hq; cbn [nsfilter namespaces]; rewrite ?Hs.
    + intros e He. apply H1. destruct q'; [done|]. by rewrite last_cons, He.
    + intros ->. rewrite Hm. specialize (H1 ev eq_refl). rewrite H1. destruct ev as [a l|a l|a]; simpl in *.
      * split; [intros Hx; exists l; split; [done|]|intros (l0 & [= <-] & Hx); by right].
        destruct Hx as [Hx|Hx]; [by apply (H4 a l)|done].
      * split; [intros Hx; by exists l|]. by intros (l0 & [= <-] & Hx).
      * split; [done|]. by intros (l0 & ? & _).
    + intros l1 e1 a l l2 ->. by apply (H3 (ev :: l1) e1 a l l2).
    + intros a l -> Hin. apply Hm in Hin. specialize (H3 [] ev a l [] eq_refl). by destruct ev.
  - apply (member_ok_other s); simpl; [by rewrite Hpo|done|done|done|done].
Qed.

Lemma fold_left_elem {A} (f : gset string -> A -> gset string) (P : A -> Prop) (n : string) :
  (forall acc x, n ∈ f acc x <-> n ∈ acc \/ P x) -> forall l acc, n ∈ fold_left f l acc <-> n ∈ acc \/ exists x, x ∈ l /\ P x.
Proof. intros Hf l. induction l as [|x l IH]; intros acc; simpl; [set_solver|]. rewrite IH, Hf. set_solver. Qed.

Lemma select_one_spec selectors l acc ns n : ns ∈ l ->
  n ∈ select_one selectors l acc ns <->
  n ∈ acc \/ (selectors <> [] /\ fst ns = n /\ isSelected selectors (snd ns) = true) \/ (selectors = [] /\ exists ns', ns' ∈ l /\ fst ns' = n).
Proof.
  intros Hns. unfold select_one, isSelected. destruct selectors as [|x selectors]; [|cbn [length Nat.eqb]].
  - cbn [fold_left length Nat.eqb]. rewrite (fold_left_elem _ (fun ns => fst ns = n)) by set_solver. naive_solver.
  - rewrite (fold_left_elem _ (fun s => selector_Matches s (snd ns) = true /\ fst ns = n)).
    2:{ intros acc' s. destruct (selector_Matches s (snd ns)); set_solver. }
    rewrite existsb_exists. setoid_rewrite list_elem_of_In. naive_solver.
Qed.

Lemma selected_spec m selectors n :
  n ∈ selected_namespaces m selectors <-> exists l, m !! n = Some l /\ isSelected selectors l = true.
Proof.
  unfold selected_namespaces. set (all := map_to_list m).
  assert (Hg : forall l acc, (forall ns, ns ∈ l -> ns ∈ all) -> n ∈ fold_left (select_one selectors all) l acc <->
    n ∈ acc \/ (selectors <> [] /\ exists v, (n, v) ∈ l /\ isSelected selectors v = true) \/
    (selectors = [] /\ l <> [] /\ exists v, (n, v) ∈ all)).
  { induction l as [|[k v] l IH]; intros acc Hl; cbn [fold_left]; [set_solver|].
    rewrite IH, select_one_spec by set_solver. cbn [fst snd]. split.
    - intros [[?|[(? & -> & ?)|(-> & [k' v'] & ? & Hk)]]|[(? & v' & ? & ?)|(-> & ? & v' & ?)]]; simpl in *; subst; set_solver.
    - intros [?|[(? & v' & [[= -> ->]|?]%elem_of_cons & ?)|(-> & _ & v' & ?)]]; [set_solver..|]. left. right. right. split; [done|]. by exists (n, v'). }
  rewrite Hg by done. unfold all. setoid_rewrite elem_of_map_to_list. destruct selectors as [|x selectors].
  - unfold isSelected. simpl. split; [set_solver|]. intros (v & Hv & _). right. right. split; [done|]. split; [|by exists v].
    intros Hn. apply map_to_list_empty_iff in Hn. subst. by rewrite lookup_empty in Hv.
  - set_solver.
Qed.

Lemma member_ok_selectors s selectors notify n :
  member_ok s n -> member_ok (mkNs (namespaces s) (pending s) (selectorsChanged (nsfilter s) (namespaces s) selectors notify)) n.
Proof.
  intros Hok. unfold selectorsChanged. destruct (mapM LabelSelectorAsSelector selectors) as [ss|e|w].
  2,3: destruct notify; by apply (member_ok_other s).
  destruct Hok as [H1 H2 H3 H4].
  assert (Hg : forall d, discoveryNamespaces d = selected_namespaces (namespaces s) ss -> discoverySelectors d = ss ->
    member_ok (mkNs (namespaces s) (pending s) d) n).
  { intros d Hd Hs. split; simpl; [exact H1| |exact H3|]; rewrite Hd, Hs.
    - intros _. apply selected_spec.
    - intros a l Hx Hin. apply selected_spec in Hin as (l0 & Hl & Hsel). change (pending_of s n = [nsAdd a l]) in Hx.
      specialize (H1 (nsAdd a l)). rewrite Hx in H1. specialize (H1 eq_refl). simpl in H1. by simplify_eq. }
  destruct notify; by apply Hg.
Qed.

Lemma member_ok_reachable s n : rtc ns_step ns_start s -> member_ok s n.
Proof.
  intros Hr. assert (H0 : member_ok ns_start n).
  { split; try done.
    - intros _. simpl. rewrite lookup_empty. split; [set_solver|]. by intros (? & ? & _).
    - intros l1 e1 a l l2 Hx. by destruct l1. }
  revert H0. induction Hr as [|s1 s2 s3 Hst _ IH]; [done|]. intros H1. apply IH.
  destruct Hst as [s ev Hpos|s ev q Hq|s selectors notify].
  - by apply member_ok_changes.
  - by apply member_ok_told.
  - by apply member_ok_selectors.
Qed.

End filter.

(** Without selectors all namespaces take part, else those that match one. *)
Lemma isSelected_spec {requirement} matches_requirement (selectors : list (selector (requirement := requirement))) l :
  isSelected matches_requirement selectors l = true <->
  selectors = [] \/ exists sel, sel ∈ selectors /\ selector_Matches matches_requirement sel l = true.
Proof.
  unfold isSelected. destruct selectors as [|x selectors]; simpl; [naive_solver|]. rewrite orb_true_iff, existsb_exists.
  setoid_rewrite <-list_elem_of_In. setoid_rewrite elem_of_cons. naive_solver.
Qed.

(** C34 The namespaces of discovery converge: whatever the order in which namespaces
    change, their events are delivered and the selectors are replaced, when no event of
    a namespace is outstanding it is a member exactly if it exists and matches a
    selector, or exists and there are no selectors.  The objects of a namespace then
    pass the filter exactly if it is a member, or there are no selectors at all, in which
    case the objects of every namespace pass; objects that have no namespace always pass. *)
Theorem discovery_namespaces_converge {requirement} NewRequirement matches_requirement s (n : string) :
  rtc (ns_step (requirement := requirement) NewRequirement matches_requirement) ns_start s -> pending_of s n = [] ->
  (n ∈ discoveryNamespaces (nsfilter s) <->
   exists l, namespaces s !! n = Some l /\
     (discoverySelectors (nsfilter s) = [] \/
      exists sel, sel ∈ discoverySelectors (nsfilter s) /\ selector_Matches matches_requirement sel l = true)) /\
  (Filter (nsfilter s) (Some n) = true <->
   n = "" \/ discoverySelectors (nsfilter s) = [] \/
   exists l sel, namespaces s !! n = Some l /\ sel ∈ discoverySelectors (nsfilter s) /\ selector_Matches matches_requirement sel l = true).
Proof.
  intros Hr Hp. pose proof (mk_member _ _ _ (member_ok_reachable NewRequirement matches_requirement s n Hr) Hp) as Hm.
  setoid_rewrite isSelected_spec in Hm. split; [done|]. unfold Filter. destruct (String.eqb n "") eqn:E.
  - apply String.eqb_eq in E. split; [by left|done].
  - apply String.eqb_neq in E. destruct (discoverySelectors (nsfilter s)) as [|x l]; simpl; [split; [by right; left|done]|].
    rewrite bool_decide_eq_true, Hm. naive_solver.
Qed.

(** A selector by one label, a namespace that has it, and one that has not. *)
Definition demo_requirement (k op : string) (vs : list string) : option (string * list string) := Some (k, vs).
Definition demo_matches (r : string * list string) (l : nmap string string) : bool :=
  match nmap_get l !! fst r with Some v => bool_decide (v ∈ snd r) | None => false end.
Definition demo_selected : ns_system (requirement := string * list string) :=
  mkNs {["a" := Some {["team" := "x"]}]} []
    (selectorsChanged demo_requirement demo_matches (on_event demo_matches (mkFilter ∅ [] []) (nsAdd "a" (Some {["team" := "x"]})))
       {["a" := Some {["team" := "x"]}]} [Some (mkLabelSelector {["team" := "x"]} [])] true).

Lemma discovery_namespaces_converge_witness :
  discoverySelectors (nsfilter demo_selected) <> [] /\
  ("a" ∈ discoveryNamespaces (nsfilter demo_selected) <->
   exists l, namespaces demo_selected !! "a" = Some l /\
     (discoverySelectors (nsfilter demo_selected) = [] \/
      exists sel, sel ∈ discoverySelectors (nsfilter demo_selected) /\ selector_Matches demo_matches sel l = true)).
Proof.
  split; [by vm_compute|].
  refine (proj1 (discovery_namespaces_converge demo_requirement demo_matches demo_selected "a" _ eq_refl)).
  eapply rtc_l; [by apply (ns_changes _ _ _ (nsAdd "a" (Some {["team" := "x"]})))|].
  eapply rtc_l; [by apply ns_told|]. eapply rtc_l; [|apply rtc_refl].
  exact (ns_selectors demo_requirement demo_matches
    (mkNs {["a" := Some {["team" := "x"]}]} [] (on_event demo_matches (mkFilter ∅ [] []) (nsAdd "a" (Some {["team" := "x"]}))))
    [Some (mkLabelSelector {["team" := "x"]} [])] true).
Defined.
