(* ===== verification/TaskQueue.v ===== *)
(** * The queue of tasks

    [pkg/queue/instance.go]: tasks run one after the other; a failed one is pushed again
    after a delay. *)

From S2P Require Import Prelude.

(** ** The queue *)

Section queue.
Context {T : Type}.

(** A task that was pushed, or the one [Run] pushes to note that the queue is synced. *)
Inductive qtask : Type := user (t : T) | syncTask.

(** [queueImpl] with the failed tasks whose timers run; and, for the record, the tasks
    that were pushed, those taken into the queue (again), started and finished. *)
Record queueImpl : Type := mkQueue {
  tasks : list qtask;
  closing : bool;
  initialSync : bool;
  retrying : list qtask;
  pushed : list qtask;
  appended : list qtask;
  started : list qtask;
  finished : list qtask
}.
Definition NewQueue : queueImpl := mkQueue [] false false [] [] [] [] [].

Definition Push (q : queueImpl) (item : qtask) : queueImpl :=
  if closing q then q
  else mkQueue (tasks q ++ [item]) (closing q) (initialSync q) (retrying q) (pushed q) (appended q ++ [item]) (started q) (finished q).

(** A push that is not the repetition of a failed task. *)
Definition first_push (q : queueImpl) (item : qtask) : queueImpl :=
  let q' := Push q item in
  mkQueue (tasks q') (closing q') (initialSync q') (retrying q') (if closing q then pushed q else pushed q ++ [item]) (appended q')
    (started q') (finished q').

(** [get]: blocks ([None]), or the task, or shutdown. *)
Inductive get_answer : Type := gotTask (t : qtask) | shutdown.
Definition get (q : queueImpl) : option (queueImpl * get_answer) :=
  match tasks q with
  | [] => if closing q then Some (q, shutdown) else None
  | t :: rest => Some (mkQueue rest (closing q) (initialSync q) (retrying q) (pushed q) (appended q) (started q ++ [t]) (finished q), gotTask t)
  end.

(** [processNextItem]: the task runs; if it fails, it is pushed again after a delay. *)
Definition processNextItem (q : queueImpl) (failed : T -> bool) : option (queueImpl * bool) :=
  match get q with
  | None => None
  | Some (q, shutdown) => Some (q, false)
  | Some (q, gotTask syncTask) =>
      Some (mkQueue (tasks q) (closing q) true (retrying q) (pushed q) (appended q) (started q) (finished q ++ [syncTask]), true)
  | Some (q, gotTask (user t)) =>
      Some (if failed t
            then mkQueue (tasks q) (closing q) (initialSync q) (retrying q ++ [user t]) (pushed q) (appended q) (started q) (finished q)
            else mkQueue (tasks q) (closing q) (initialSync q) (retrying q) (pushed q) (appended q) (started q) (finished q ++ [user t]), true)
  end.

(** The timer of a failed task fires, wherever it is among those that run. *)
Definition retry_fires (q : queueImpl) (before after : list qtask) (t : qtask) : queueImpl :=
  Push (mkQueue (tasks q) (closing q) (initialSync q) (before ++ after) (pushed q) (appended q) (started q) (finished q)) t.

Definition close_queue (q : queueImpl) : queueImpl :=
  mkQueue (tasks q) true (initialSync q) (retrying q) (pushed q) (appended q) (started q) (finished q).

Inductive queue_step : queueImpl -> queueImpl -> Prop :=
  | qs_push q t : queue_step q (first_push q (user t))
  | qs_run q : queue_step q (first_push q syncTask)
  | qs_process q q' failed : processNextItem q failed = Some (q', true) -> queue_step q q'
  | qs_retry q before t after : retrying q = before ++ t :: after -> queue_step q (retry_fires q before after t)
  | qs_close q : queue_step q (close_queue q).

Record queue_ok (q : queueImpl) : Prop := {
  qo_order : started q ++ tasks q = appended q;
  qo_kept : closing q = false -> pushed q ≡ₚ tasks q ++ retrying q ++ finished q;
  qo_sync : initialSync q = true -> syncTask ∈ started q
}.

Lemma queue_ok_push q t : queue_ok q -> queue_ok (first_push q t).
Proof.
  intros [H1 H2 H3]. unfold first_push, Push. destruct (closing q) eqn:E; simpl; [by split; [| |]; rewrite ?E|].
  split; simpl; [by rewrite <-H1, app_assoc| |done]. intros _. rewrite H2 by done. solve_Permutation.
Qed.

Lemma queue_ok_process q q' failed : processNextItem q failed = Some (q', true) -> queue_ok q -> queue_ok q'.
Proof.
  intros Hp [H1 H2 H3]. unfold processNextItem, get in Hp. destruct (tasks q) as [|[t|] rest] eqn:Et.
  - by destruct (closing q).
  - destruct (failed t); injection Hp as <-; (split; simpl; [by rewrite <-H1, <-app_assoc| |intros Hs; apply elem_of_app; left; by apply H3]);
      intros Hc; rewrite (H2 Hc); solve_Permutation.
  - injection Hp as <-. split; simpl; [by rewrite <-H1, <-app_assoc| |intros _; apply elem_of_app; right; by left]. intros Hc. rewrite (H2 Hc). solve_Permutation.
Qed.

Lemma queue_ok_step q q' : queue_step q q' -> queue_ok q -> queue_ok q'.
Proof.
  intros Hst Hok. destruct Hst as [q t|q|q q' failed Hp|q before t after Hr|q].
  - by apply queue_ok_push.
  - by apply queue_ok_push.
  - by apply (queue_ok_process q q' failed).
  - destruct Hok as [H1 H2 H3]. unfold retry_fires, Push. simpl. destruct (closing q) eqn:E; [by split; simpl; rewrite ?E|].
    split; simpl; [by rewrite <-H1, app_assoc| |done]. intros _. rewrite H2, Hr by done. solve_Permutation.
  - destruct Hok as [H1 H2 H3]. by split.
Qed.

End queue.

(** Tasks are started in the order they were pushed, none is lost until the queue is
    closed (each one is queued, waits to be tried again or is finished), and the queue
    is synced only after every task that was pushed before it was run was started. *)
Theorem tasks_in_order {T} (q : queueImpl (T := T)) :
  rtc queue_step NewQueue q ->
  started q `prefix_of` appended q /\
  (closing q = false -> pushed q ≡ₚ tasks q ++ retrying q ++ finished q) /\
  (initialSync q = true -> forall before after, appended q = before ++ syncTask :: after -> syncTask ∉ before ->
     before `prefix_of` started q).
Proof.
  intros Hr. assert (Hok : queue_ok q).
  { assert (H0 : queue_ok (NewQueue (T := T))) by (by split). revert H0.
    induction Hr as [|q1 q2 q3 Hst _ IH]; [done|]. intros H1. apply IH. by apply (queue_ok_step q1). }
  destruct Hok as [H1 H2 H3]. split; [by exists (tasks q)|]. split; [done|]. intros Hs before after Ha Hn.
  specialize (H3 Hs). rewrite <-H1 in Ha. apply app_eq_inv in Ha as [(k & Hk1 & Hk2)|(k & Hk1 & Hk2)]; [by exists k|].
  exfalso. apply Hn. rewrite Hk1. set_solver.
Qed.

Lemma tasks_in_order_witness :
  let q := first_push (first_push (NewQueue (T := nat)) (user 1%nat)) syncTask in
  started q `prefix_of` appended q /\ (closing q = false -> pushed q ≡ₚ tasks q ++ retrying q ++ finished q).
Proof.
  cbv zeta. split; [apply tasks_in_order|apply tasks_in_order];
    (eapply rtc_l; [apply (qs_push NewQueue 1%nat)|]; eapply rtc_l; [apply qs_run|apply rtc_refl]).
Defined.
