(* ===== verification/DelayQueue.v ===== *)
(** * The delay queue

    [pkg/queue/delay.go]: tasks that run after a delay, kept in a heap by the time they
    are to run.  The functions of [container/heap] are modelled as they are in the Go
    library, over the methods of [pq]. *)

From S2P Require Import Prelude.

(** ** The heap *)

Section heap.
Context {A : Type} (runAt : A -> Z).
Implicit Types (q : list A) (i j k n : nat).

(** [pq.Less] and [pq.Swap] *)
Definition Less (q : list A) (i j : nat) : bool :=
  match q !! i, q !! j with Some a, Some b => runAt a <? runAt b | _, _ => false end.
Definition Swap (q : list A) (i j : nat) : list A :=
  match q !! i, q !! j with Some a, Some b => <[i := b]> (<[j := a]> q) | _, _ => q end.

(** [heap.up] and [heap.down]; the fuel bounds the path to the root, or to the end. *)
Definition parent (j : nat) : nat := Nat.div2 (j - 1).

Fixpoint up (fuel : nat) (q : list A) (j : nat) : list A :=
  match fuel with
  | O => q
  | S fuel =>
      let i := parent j in
      if (i =? j)%nat || negb (Less q j i) then q else up fuel (Swap q i j) i
  end.

Fixpoint down (fuel : nat) (q : list A) (i n : nat) : list A :=
  match fuel with
  | O => q
  | S fuel =>
      let j1 := (2 * i + 1)%nat in
      if (n <=? j1)%nat then q else
      let j := if ((j1 + 1) <? n)%nat && Less q (j1 + 1) j1 then (j1 + 1)%nat else j1 in
      if negb (Less q j i) then q else down fuel (Swap q i j) j n
  end.

Definition heap_Push (q : list A) (x : A) : list A := let q := q ++ [x] in up (length q) q (length q - 1).

(** [pq.Pop] takes the last element. *)
Definition pq_Pop (q : list A) : option (A * list A) :=
  match last q with Some x => Some (x, take (length q - 1) q) | None => None end.
Definition heap_Pop (q : list A) : option (A * list A) :=
  let n := (length q - 1)%nat in pq_Pop (down (length q) (Swap q 0 n) 0 n).
Definition Peek (q : list A) : option A := head q.

(** *** Invariant *)

Definition val q i : Z := match q !! i with Some a => runAt a | None => 0 end.
Definition heap_upto q n : Prop := forall j, (0 < j < n)%nat -> val q (parent j) <= val q j.
Definition heap_ok q : Prop := heap_upto q (length q).

Lemma parent_lt j : (0 < j)%nat -> (parent j < j)%nat.
Proof. intros Hj. unfold parent. pose proof (Nat.lt_div2 j Hj). pose proof (Nat.div2_decr (j - 1) (j - 1)). lia. Qed.

Lemma children i j : (0 < j)%nat -> parent j = i <-> j = (2 * i + 1)%nat \/ j = (2 * i + 2)%nat.
Proof.
  intros Hj. unfold parent. pose proof (Nat.div2_odd (j - 1)) as Hd. destruct (Nat.odd (j - 1)); simpl Nat.b2n in Hd; lia.
Qed.

Lemma Swap_length q i j : length (Swap q i j) = length q.
Proof. unfold Swap. destruct (q !! i), (q !! j); [|done..]. by rewrite !length_insert. Qed.

Lemma Swap_val q i j k :
  (i < length q)%nat -> (j < length q)%nat ->
  val (Swap q i j) k = if decide (k = i) then val q j else if decide (k = j) then val q i else val q k.
Proof.
  intros Hi Hj. destruct (lookup_lt_is_Some_2 q i Hi) as [a Ha], (lookup_lt_is_Some_2 q j Hj) as [b Hb].
  unfold Swap, val. rewrite Ha, Hb. destruct (decide (k = i)) as [->|Hki].
  - by rewrite list_lookup_insert_eq by (by rewrite length_insert).
  - rewrite list_lookup_insert_ne by done. destruct (decide (k = j)) as [->|Hkj]; [by rewrite list_lookup_insert_eq|by rewrite list_lookup_insert_ne].
Qed.

Lemma Swap_perm q i j : Swap q i j ≡ₚ q.
Proof.
  unfold Swap. destruct (q !! i) as [a|] eqn:Ea; [|done]. destruct (q !! j) as [b|] eqn:Eb; [|done].
  pose proof (lookup_lt_Some _ _ _ Ea). pose proof (lookup_lt_Some _ _ _ Eb).
  apply Permutation_inj. split; [by rewrite !length_insert|].
  exists (fun k => if decide (k = i) then j else if decide (k = j) then i else k). split.
  - intros x y. repeat case_decide; congruence.
  - intros k. destruct (decide (k = i)) as [->|Hki]; [by rewrite list_lookup_insert_eq, Eb by (by rewrite length_insert)|].
    rewrite list_lookup_insert_ne by done. destruct (decide (k = j)) as [->|Hkj]; [by rewrite list_lookup_insert_eq, Ea|by rewrite list_lookup_insert_ne].
Qed.

Lemma Less_val q i j : (i < length q)%nat -> (j < length q)%nat -> Less q i j = (val q i <? val q j).
Proof.
  intros Hi Hj. destruct (lookup_lt_is_Some_2 q i Hi) as [a Ha], (lookup_lt_is_Some_2 q j Hj) as [b Hb].
  unfold Less, val. by rewrite Ha, Hb.
Qed.

Lemma up_perm fuel q j : up fuel q j ≡ₚ q.
Proof.
  revert q j. induction fuel as [|fuel IH]; intros q j; cbn [up]; [done|]. destruct (_ || _); [done|]. by rewrite IH, Swap_perm.
Qed.

Lemma down_perm fuel q i n : down fuel q i n ≡ₚ q.
Proof.
  revert q i. induction fuel as [|fuel IH]; intros q i; cbn [down]; [done|]. destruct (n <=? 2 * i + 1)%nat; [done|].
  destruct (negb _); [done|]. by rewrite IH, Swap_perm.
Qed.

(** A heap but for the element at [j], which may be too early. *)
Definition heap_but_up q n j : Prop :=
  (forall k, (0 < k < n)%nat -> k <> j -> val q (parent k) <= val q k) /\
  (forall k, (0 < k < n)%nat -> parent k = j -> (0 < j)%nat -> val q (parent j) <= val q k).

Lemma up_heap fuel q n j :
  (j < fuel)%nat -> (j < n)%nat -> (n <= length q)%nat -> heap_but_up q n j -> heap_upto (up fuel q j) n.
Proof.
  revert q j. induction fuel as [|fuel IH]; intros q j Hf Hj Hn [H1 H2]; cbn [up]; [lia|].
  destruct (parent j =? j)%nat eqn:E; simpl.
  { apply Nat.eqb_eq in E. intros k Hk. destruct (decide (k = j)) as [->|Hne]; [rewrite E; lia|by apply H1]. }
  apply Nat.eqb_neq in E. destruct (decide (j = 0%nat)) as [->|Hj0]; [done|]. pose proof (parent_lt j ltac:(lia)) as Hp.
  rewrite Less_val by lia. destruct (val q j <? val q (parent j)) eqn:El; simpl.
  - apply Z.ltb_lt in El. apply IH; [lia|lia|by rewrite Swap_length|]. split.
    + intros k Hk Hne. rewrite !Swap_val by lia. destruct (decide (k = j)) as [->|Hkj].
      * rewrite !(decide_True (P := parent j = parent j)) by done. rewrite decide_False by lia. lia.
      * rewrite (decide_False (P := k = parent j)) by done.
        destruct (decide (parent k = parent j)) as [Hpk|Hpk]; [specialize (H1 k Hk Hkj); rewrite Hpk in H1; lia|].
        destruct (decide (parent k = j)) as [Hpj|Hpj]; [by apply H2; [| |lia]|by apply H1].
    + intros k Hk Hpk Hi. pose proof (parent_lt (parent j) Hi) as Hpp. rewrite !Swap_val by lia.
      rewrite (decide_False (P := parent (parent j) = parent j)), (decide_False (P := parent (parent j) = j)) by lia.
      pose proof (H1 (parent j) ltac:(lia) ltac:(lia)) as Hg. rewrite (decide_False (P := k = parent j)) by (pose proof (parent_lt k ltac:(lia)); lia).
      destruct (decide (k = j)) as [->|Hkj]; [done|]. specialize (H1 k Hk Hkj). rewrite Hpk in H1. lia.
  - apply Z.ltb_ge in El. intros k Hk. destruct (decide (k = j)) as [->|Hne]; [done|by apply H1].
Qed.

(** A heap but for the element at [i], which may be too late. *)
Definition heap_but_down q n i : Prop :=
  (forall k, (0 < k < n)%nat -> parent k <> i -> val q (parent k) <= val q k) /\
  (forall k, (0 < k < n)%nat -> parent k = i -> (0 < i)%nat -> val q (parent i) <= val q k).

Lemma down_heap fuel q n i :
  (n <= i + fuel)%nat -> (n <= length q)%nat -> heap_but_down q n i -> heap_upto (down fuel q i n) n.
Proof.
  revert q i. induction fuel as [|fuel IH]; intros q i Hf Hn [H1 H2]; cbn [down].
  { intros k Hk. apply H1; [done|]. intros Hp. apply children in Hp; lia. }
  destruct (n <=? 2 * i + 1)%nat eqn:En.
  { apply Nat.leb_le in En. intros k Hk. apply H1; [done|]. intros Hp. apply children in Hp; lia. }
  apply Nat.leb_gt in En. set (j1 := (2 * i + 1)%nat) in *.
  assert (Hj : exists j, (if ((j1 + 1) <? n)%nat && Less q (j1 + 1) j1 then (j1 + 1)%nat else j1) = j /\ (i < j < n)%nat /\ parent j = i /\
    forall k, (0 < k < n)%nat -> parent k = i -> val q j <= val q k).
  { assert (Hc : forall j, j = j1 \/ j = (j1 + 1)%nat -> parent j = i) by (intros j Hx; apply children; lia).
    destruct (((j1 + 1) <? n)%nat && Less q (j1 + 1) j1) eqn:Ec.
    - apply andb_true_iff in Ec as [Ec1 Ec2]. apply Nat.ltb_lt in Ec1. rewrite Less_val in Ec2 by lia. apply Z.ltb_lt in Ec2.
      exists (j1 + 1)%nat. split_and!; [done|lia|lia|by apply Hc; right|]. intros k Hk Hp. apply children in Hp; [|lia].
      destruct Hp as [->| ->]; fold j1; [lia|]. replace (2 * i + 2)%nat with (j1 + 1)%nat by lia. lia.
    - exists j1. split_and!; [done|lia|lia|by apply Hc; left|]. intros k Hk Hp. apply children in Hp; [|lia].
      destruct Hp as [->| ->]; fold j1; [lia|]. replace (2 * i + 2)%nat with (j1 + 1)%nat in * by lia.
      rewrite (proj2 (Nat.ltb_lt (j1 + 1) n)), Less_val in Ec by lia. simpl in Ec. apply Z.ltb_ge in Ec. lia. }
  destruct Hj as (j & -> & Hj & Hpj & Hmin). rewrite Less_val by lia. destruct (val q j <? val q i) eqn:El; simpl.
  - apply Z.ltb_lt in El. apply IH; [lia|by rewrite Swap_length|]. split.
    + intros k Hk Hne. rewrite !Swap_val by lia. rewrite (decide_False (P := parent k = j)) by done.
      destruct (decide (parent k = i)) as [Hpk|Hpk].
      * rewrite (decide_False (P := k = i)) by (pose proof (parent_lt k ltac:(lia)); lia).
        destruct (decide (k = j)) as [->|Hkj]; [lia|by apply Hmin].
      * destruct (decide (k = i)) as [->|Hki]; [by apply H2; [lia|done|lia]|].
        rewrite (decide_False (P := k = j)) by congruence. by apply H1.
    + intros k Hk Hpk _. rewrite !Swap_val by lia. rewrite Hpj, decide_True by done.
      pose proof (parent_lt k ltac:(lia)) as Hlt. rewrite (decide_False (P := k = i)), (decide_False (P := k = j)) by lia.
      rewrite <-Hpk. apply H1; [done|lia].
  - apply Z.ltb_ge in El. intros k Hk. destruct (decide (parent k = i)) as [Hp|Hp]; [|by apply H1].
    specialize (Hmin k Hk Hp). rewrite Hp. lia.
Qed.

Lemma heap_root_min q n j : heap_upto q n -> (j < n)%nat -> val q 0 <= val q j.
Proof.
  intros Hh. induction j as [j IH] using lt_wf_ind. intros Hj. destruct (decide (j = 0%nat)) as [->|Hne]; [lia|].
  pose proof (parent_lt j ltac:(lia)) as Hp. specialize (IH (parent j) Hp ltac:(lia)). specialize (Hh j ltac:(lia)). lia.
Qed.

Lemma heap_Push_perm q x : heap_Push q x ≡ₚ x :: q.
Proof. unfold heap_Push. rewrite up_perm. solve_Permutation. Qed.

Lemma heap_Push_ok q x : heap_ok q -> heap_ok (heap_Push q x).
Proof.
  intros Hh. assert (Hl : length (heap_Push q x) = S (length q)) by (by rewrite heap_Push_perm).
  unfold heap_ok. rewrite Hl. unfold heap_Push.
  apply up_heap; rewrite ?length_app; cbn [length]; [lia|lia|lia|].
  replace (length q + 1 - 1)%nat with (length q) by lia. split.
  - intros k Hk Hne. pose proof (parent_lt k ltac:(lia)). unfold val. rewrite !lookup_app_l by lia. apply Hh. lia.
  - intros k Hk Hp. pose proof (parent_lt k ltac:(lia)). lia.
Qed.

Lemma Swap_lookup_ne q i j k : k <> i -> k <> j -> Swap q i j !! k = q !! k.
Proof. intros Hi Hj. unfold Swap. destruct (q !! i), (q !! j); [|done..]. by rewrite !list_lookup_insert_ne by done. Qed.

Lemma down_beyond fuel q i n k : (n <= k)%nat -> down fuel q i n !! k = q !! k.
Proof.
  intros Hk. revert q i. induction fuel as [|fuel IH]; intros q i; cbn [down]; [done|].
  destruct (n <=? 2 * i + 1)%nat eqn:En; [done|]. apply Nat.leb_gt in En. destruct (negb _); [done|]. rewrite IH.
  apply Swap_lookup_ne; [lia|]. destruct (_ && _) eqn:E; [|lia]. apply andb_true_iff in E as [E _]. apply Nat.ltb_lt in E. lia.
Qed.

Lemma take_last (l : list A) n x : l !! n = Some x -> length l = S n -> l = take n l ++ [x].
Proof. intros Hx Hl. rewrite <-(take_drop n l) at 1. f_equal. rewrite (drop_S l x n Hx). rewrite drop_ge; [done|lia]. Qed.

(** Whatever the order of the elements, the first one is taken. *)
Lemma heap_Pop_head q x q' :
  q = x :: q' -> exists rest, heap_Pop q = Some (x, rest) /\ q ≡ₚ x :: rest /\ S (length rest) = length q /\
    forall k, (k < length rest)%nat -> rest !! k = down (length q) (Swap q 0 (length q - 1)) 0 (length q - 1) !! k.
Proof.
  intros Hq. unfold heap_Pop, pq_Pop. set (n := (length q - 1)%nat). set (d := down (length q) (Swap q 0 n) 0 n).
  assert (Hlen : length q = S n) by (unfold n; rewrite Hq; simpl; lia).
  assert (Hd : length d = S n) by (unfold d; by rewrite down_perm, Swap_perm).
  assert (Hn : d !! n = Some x).
  { unfold d. rewrite down_beyond by lia. unfold Swap. destruct (lookup_lt_is_Some_2 q n ltac:(lia)) as [b Hb].
    rewrite Hb. rewrite Hq at 1. cbn [lookup list_lookup]. destruct (decide (n = 0%nat)) as [Hn0|Hn0].
    - rewrite Hn0. rewrite list_lookup_insert_eq by (rewrite length_insert; lia). rewrite Hn0, Hq in Hb. by injection Hb as ->.
    - rewrite list_lookup_insert_ne by lia. apply list_lookup_insert_eq. lia. }
  rewrite last_lookup, Hd. simpl. replace (n - 0)%nat with n by lia. rewrite Hn. eexists. split; [reflexivity|].
  split; [|split].
  - rewrite <-(Swap_perm q 0 n), <-(down_perm (length q) (Swap q 0 n) 0 n). fold d. rewrite (take_last d n x Hn Hd) at 1. solve_Permutation.
  - rewrite length_take. lia.
  - intros k Hk. rewrite length_take in Hk. by rewrite lookup_take_lt by lia.
Qed.

Lemma heap_Pop_ok q x rest : heap_ok q -> heap_Pop q = Some (x, rest) ->
  heap_ok rest /\ head q = Some x /\ q ≡ₚ x :: rest /\ forall y, y ∈ rest -> runAt x <= runAt y.
Proof.
  intros Hh Hp. destruct q as [|x0 q'] eqn:Eq; [done|]. rewrite <-Eq in *.
  destruct (heap_Pop_head q x0 q' Eq) as (rest0 & E & Hperm & Hlen & Hlk). rewrite Hp in E. injection E as -> ->.
  split; [|split; [by rewrite Eq|split; [done|]]].
  - assert (Hd : heap_upto (down (length q) (Swap q 0 (length q - 1)) 0 (length q - 1)) (length q - 1)).
    { apply down_heap; [lia|rewrite Swap_length; lia|]. split; [|lia]. intros k Hk Hne. pose proof (parent_lt k ltac:(lia)).
      rewrite !Swap_val by lia. rewrite !decide_False by lia. apply Hh. lia. }
    intros j Hj. pose proof (parent_lt j ltac:(lia)). unfold val. rewrite !Hlk by lia. apply (Hd j). lia.
  - intros y Hy. assert (Hin : y ∈ q) by (rewrite Hperm; by right). apply list_elem_of_lookup in Hin as [j Hj].
    pose proof (heap_root_min q (length q) j Hh (lookup_lt_Some _ _ _ Hj)) as Hm. unfold val in Hm. rewrite Hj in Hm.
    rewrite Eq in Hm. exact Hm.
Qed.

End heap.

(** The heap of delayed tasks: from an empty one, any sequence of pushes and pops gives
    at each pop a task that is due no later than all others, and loses none. *)
Theorem delayed_in_order {A} (runAt : A -> Z) (q : list A) :
  heap_ok runAt q ->
  (forall x, heap_ok runAt (heap_Push runAt q x) /\ heap_Push runAt q x ≡ₚ x :: q) /\
  (q = [] -> heap_Pop runAt q = None) /\
  (q <> [] -> exists x rest, Peek q = Some x /\ heap_Pop runAt q = Some (x, rest) /\ heap_ok runAt rest /\ q ≡ₚ x :: rest /\
     forall y, y ∈ rest -> runAt x <= runAt y).
Proof.
  intros Hh. split; [intros x; split; [by apply heap_Push_ok|apply heap_Push_perm]|]. split; [by intros ->|].
  destruct q as [|x q']; [done|]. intros _. destruct (heap_Pop_head runAt (x :: q') x q' eq_refl) as (rest & E & _).
  destruct (heap_Pop_ok runAt (x :: q') x rest Hh E) as (H1 & _ & H3 & H4). by exists x, rest.
Qed.

Lemma delayed_in_order_witness :
  exists x rest, heap_Pop id (heap_Push id (heap_Push id (heap_Push id [] 5) 3) 4) = Some (x, rest) /\ forall y, y ∈ rest -> id x <= id y.
Proof.
  assert (H0 : heap_ok id []) by (intros j Hj; simpl in Hj; lia).
  assert (H3 : heap_ok id (heap_Push id (heap_Push id (heap_Push id [] 5) 3) 4)).
  { do 3 apply heap_Push_ok. exact H0. }
  destruct (delayed_in_order id (heap_Push id (heap_Push id (heap_Push id [] 5) 3) 4) H3) as (_ & _ & Hx).
  destruct Hx as (x & rest & _ & E & _ & _ & Hm); [by vm_compute|]. by exists x, rest.
Defined.

(** ** The queue *)

Record delayTask := { task_id : nat; runAt : Z; retries : Z }.

#[global] Instance delayTask_eq_dec : EqDecision delayTask.
Proof. solve_decision. Defined.

Definition maxTaskRetry : Z := 3.

(** Where the goroutine of [Run] is: about to look at the queue, waiting with the head of
    the queue that is not due, waiting with an empty queue, in [push] with a task that is
    due, or returned because the queue was stopped, with the task that it had taken. *)
Inductive phase := Looking | Holding (t : delayTask) | Idle | Sending (t : delayTask) | Returned (t : option delayTask).

(** [clock] is what [time.Now] reads; [running] are the tasks of the workers, [finished]
    and [dropped] those that have ended, and [pushed] those that were given to the queue. *)
Record delayQueue := {
  workers : nat; enqueue : list delayTask; enqueue_cap : nat; execute : list delayTask; execute_cap : nat;
  queue : list delayTask; loop : phase; running : list delayTask; finished : list delayTask; dropped : list delayTask;
  clock : Z; stopped : bool; pushed : list (nat * Z)
}.

Inductive DelayQueueOption := DelayQueueBuffer (size : nat) | DelayQueueWorkers (n : nat).

Definition apply_option (d : delayQueue) (o : DelayQueueOption) : delayQueue :=
  match o with
  | DelayQueueBuffer size => {| workers := workers d; enqueue := []; enqueue_cap := size; execute := execute d; execute_cap := execute_cap d;
      queue := queue d; loop := loop d; running := running d; finished := finished d; dropped := dropped d; clock := clock d; stopped := stopped d; pushed := pushed d |}
  | DelayQueueWorkers n => {| workers := n; enqueue := enqueue d; enqueue_cap := enqueue_cap d; execute := execute d; execute_cap := execute_cap d;
      queue := queue d; loop := loop d; running := running d; finished := finished d; dropped := dropped d; clock := clock d; stopped := stopped d; pushed := pushed d |}
  end.

(** [workerChanBuf] of the number of threads *)
Definition workerChanBuf (procs : nat) : nat := if (procs =? 1)%nat then 0 else procs.

Definition NewDelayed (procs : nat) (now : Z) (opts : list DelayQueueOption) : delayQueue :=
  foldl apply_option
    {| workers := 1; enqueue := []; enqueue_cap := 100; execute := []; execute_cap := workerChanBuf procs; queue := []; loop := Looking;
       running := []; finished := []; dropped := []; clock := now; stopped := false; pushed := [] |} opts.

Definition with_enqueue (d : delayQueue) (l q : list delayTask) (p : phase) : delayQueue :=
  {| workers := workers d; enqueue := l; enqueue_cap := enqueue_cap d; execute := execute d; execute_cap := execute_cap d;
     queue := q; loop := p; running := running d; finished := finished d; dropped := dropped d; clock := clock d; stopped := stopped d; pushed := pushed d |}.
Definition with_running (d : delayQueue) (x r f dr : list delayTask) (p : phase) : delayQueue :=
  {| workers := workers d; enqueue := enqueue d; enqueue_cap := enqueue_cap d; execute := x; execute_cap := execute_cap d;
     queue := queue d; loop := p; running := r; finished := f; dropped := dr; clock := clock d; stopped := stopped d; pushed := pushed d |}.
Definition with_pushed (d : delayQueue) (l : list (nat * Z)) : delayQueue :=
  {| workers := workers d; enqueue := enqueue d; enqueue_cap := enqueue_cap d; execute := execute d; execute_cap := execute_cap d;
     queue := queue d; loop := loop d; running := running d; finished := finished d; dropped := dropped d; clock := clock d; stopped := stopped d; pushed := l |}.
Definition with_clock (d : delayQueue) (now : Z) (s : bool) : delayQueue :=
  {| workers := workers d; enqueue := enqueue d; enqueue_cap := enqueue_cap d; execute := execute d; execute_cap := execute_cap d;
     queue := queue d; loop := loop d; running := running d; finished := finished d; dropped := dropped d; clock := now; stopped := s; pushed := pushed d |}.

Notation hpush := (heap_Push runAt).
Notation hpop := (heap_Pop runAt).

(** [Run] receives from [enqueue]. *)
Definition received (d : delayQueue) (t : delayTask) (l : list delayTask) : option delayQueue :=
  match loop d with
  | Holding h => Some (with_enqueue d l (hpush (hpush (queue d) t) h) Looking)
  | Idle => Some (with_enqueue d l (queue d ++ [t]) Looking)
  | _ => None
  end.

(** [pushInternal]: with a waiting receiver and nothing in the channel the task is handed
    over; else it takes room in the buffer, or goes to the heap. *)
Definition pushInternal (d : delayQueue) (t : delayTask) (waiting : bool) : delayQueue :=
  match (if waiting && (length (enqueue d) =? 0)%nat then received d t [] else None) with
  | Some d' => d'
  | None => if (length (enqueue d) <? enqueue_cap d)%nat then with_enqueue d (enqueue d ++ [t]) (queue d) (loop d)
            else with_enqueue d (enqueue d) (hpush (queue d) t) (loop d)
  end.

Definition PushDelayed (d : delayQueue) (id : nat) (delay : Z) (waiting : bool) : delayQueue :=
  let t := {| task_id := id; runAt := clock d + delay; retries := 0 |} in
  pushInternal (with_pushed d ((id, runAt t) :: pushed d)) t waiting.
Definition Push (d : delayQueue) (id : nat) (waiting : bool) : delayQueue :=
  let t := {| task_id := id; runAt := clock d; retries := 0 |} in
  pushInternal (with_pushed d ((id, runAt t) :: pushed d)) t waiting.

(** The steps of the goroutines and of the clock.  [waiting] says that the goroutine of
    [Run] has come to its [select]. *)
Inductive devent :=
  | EPush (id : nat) (waiting : bool) | EPushDelayed (id : nat) (delay : Z) (waiting : bool)
  | ETick (n : Z) | EStop | ELook | EReceive | ETimer | ESend | EReturn | EWork | EDone (i : nat) (failed waiting : bool).

(** One look at the queue at the head of the loop of [Run] *)
Definition look (d : delayQueue) : delayQueue :=
  match Peek (queue d) with
  | Some t =>
      let q := match hpop (queue d) with Some (_, q) => q | None => queue d end in
      with_enqueue d (enqueue d) q (if runAt t - clock d <=? 0 then Sending t else Holding t)
  | None => with_enqueue d (enqueue d) (queue d) Idle
  end.

(** [work]: the [i]-th running task ends. *)
Definition done_task (d : delayQueue) (i : nat) (failed waiting : bool) : option delayQueue :=
  match running d !! i with
  | None => None
  | Some t =>
      let r := delete i (running d) in
      Some (if failed then
              if retries t <? maxTaskRetry
              then pushInternal (with_running d (execute d) r (finished d) (dropped d) (loop d)) {| task_id := task_id t; runAt := runAt t; retries := retries t + 1 |} waiting
              else with_running d (execute d) r (finished d) (t :: dropped d) (loop d)
            else with_running d (execute d) r (t :: finished d) (dropped d) (loop d))
  end.

Definition dstep (d : delayQueue) (e : devent) : option delayQueue :=
  match e with
  | EPush id w => Some (Push d id w)
  | EPushDelayed id delay w => Some (PushDelayed d id delay w)
  | ETick n => if 0 <=? n then Some (with_clock d (clock d + n) (stopped d)) else None
  | EStop => Some (with_clock d (clock d) true)
  | ELook => match loop d with Looking => Some (look d) | _ => None end
  | EReceive => match enqueue d with t :: l => received d t l | [] => None end
  | ETimer => match loop d with
              | Holding t => if runAt t <=? clock d then Some (with_enqueue d (enqueue d) (queue d) (Sending t)) else None
              | _ => None
              end
  | ESend => match loop d with
             | Sending t => if (length (execute d) <? execute_cap d)%nat
                            then Some (with_running d (execute d ++ [t]) (running d) (finished d) (dropped d) Looking) else None
             | _ => None
             end
  | EReturn =>
      if stopped d then
        match loop d with
        | Looking | Returned _ => None
        | Holding t | Sending t => Some (with_enqueue d (enqueue d) (queue d) (Returned (Some t)))
        | Idle => Some (with_enqueue d (enqueue d) (queue d) (Returned None))
        end
      else None
  | EWork =>
      if (length (running d) <? workers d)%nat then
        match execute d, loop d with
        | t :: l, _ => Some (with_running d l (t :: running d) (finished d) (dropped d) (loop d))
        | [], Sending t => Some (with_running d [] (t :: running d) (finished d) (dropped d) Looking)
        | [], _ => None
        end
      else None
  | EDone i failed w => done_task d i failed w
  end.

Fixpoint druns (d : delayQueue) (es : list devent) : option delayQueue :=
  match es with [] => Some d | e :: es => match dstep d e with Some d' => druns d' es | None => None end end.

(** *** Invariant *)

(** The task that the goroutine of [Run] has in hand *)
Definition in_hand (p : phase) : list delayTask :=
  match p with Holding t | Sending t | Returned (Some t) => [t] | _ => [] end.

(** The tasks that were handed to the workers *)
Definition handed (d : delayQueue) : list delayTask :=
  execute d ++ running d ++ finished d ++ dropped d ++ match loop d with Sending t => [t] | _ => [] end.

Definition places (d : delayQueue) : list delayTask :=
  enqueue d ++ queue d ++ execute d ++ running d ++ finished d ++ dropped d ++ in_hand (loop d).

Definition known (t : delayTask) : nat * Z := (task_id t, runAt t).

Record delay_ok (d : delayQueue) : Prop := {
  dk_all : known <$> places d ≡ₚ pushed d;
  dk_due : Forall (fun t => runAt t <= clock d) (handed d);
  dk_retries : Forall (fun t => 0 <= retries t <= maxTaskRetry) (places d);
  dk_workers : (length (running d) <= workers d)%nat;
  dk_execute : (length (execute d) <= execute_cap d)%nat
}.

Lemma heap_Pop_Peek q t : Peek q = Some t -> exists rest, hpop q = Some (t, rest) /\ q ≡ₚ t :: rest.
Proof.
  intros Hp. destruct q as [|x q']; [done|]. injection Hp as ->.
  destruct (heap_Pop_head runAt (t :: q') t q' eq_refl) as (rest & E & H & _). by exists rest.
Qed.

(** What a step does to the places, up to their order *)
Lemma received_places d t l d' : received d t l = Some d' ->
  places d' ≡ₚ t :: l ++ queue d ++ execute d ++ running d ++ finished d ++ dropped d ++ in_hand (loop d) /\
  execute d' = execute d /\ running d' = running d /\ finished d' = finished d /\ dropped d' = dropped d /\ loop d' = Looking /\
  workers d' = workers d /\ execute_cap d' = execute_cap d /\ clock d' = clock d /\ pushed d' = pushed d.
Proof.
  unfold received. destruct (loop d) as [|h| | |] eqn:El; intros [= <-]; unfold places; simpl; (split; [|done]).
  - rewrite !heap_Push_perm. solve_Permutation.
  - solve_Permutation.
Qed.

Lemma pushInternal_places d t w :
  let d' := pushInternal d t w in
  places d' ≡ₚ t :: places d /\
  execute d' = execute d /\ running d' = running d /\ finished d' = finished d /\ dropped d' = dropped d /\
  (loop d' = loop d \/ loop d' = Looking) /\
  workers d' = workers d /\ execute_cap d' = execute_cap d /\ clock d' = clock d /\ pushed d' = pushed d.
Proof.
  unfold pushInternal. destruct (w && _) eqn:Ew; [destruct (received d t []) as [d1|] eqn:Er|].
  1: { apply received_places in Er as (H & H1 & H2 & H3 & H4 & H5 & H6 & H7 & H8 & H9).
       apply andb_true_iff in Ew as [_ Ew]. apply Nat.eqb_eq, nil_length_inv in Ew.
       split; [|split_and!; try done; by right]. rewrite H. unfold places. by rewrite Ew. }
  all: destruct (_ <? _)%nat; (split; [|split_and!; try done; by left]); unfold places; simpl; rewrite ?heap_Push_perm; solve_Permutation.
Qed.

Lemma handed_phase x r f dr p p' (P : delayTask -> Prop) :
  p' = p \/ p' = Looking ->
  Forall P (x ++ r ++ f ++ dr ++ match p with Sending t => [t] | _ => [] end) ->
  Forall P (x ++ r ++ f ++ dr ++ match p' with Sending t => [t] | _ => [] end).
Proof. intros [->| ->]; [done|]. rewrite !Forall_app. naive_solver. Qed.

Lemma delay_ok_push d t w :
  pushed d ≡ₚ known t :: (known <$> places d) ->
  Forall (fun t => runAt t <= clock d) (handed d) -> Forall (fun t => 0 <= retries t <= maxTaskRetry) (t :: places d) ->
  (length (running d) <= workers d)%nat -> (length (execute d) <= execute_cap d)%nat -> delay_ok (pushInternal d t w).
Proof.
  intros Hp Hd Hr Hw He. destruct (pushInternal_places d t w) as (H & H1 & H2 & H3 & H4 & H5 & H6 & H7 & H8 & H9). split.
  - by rewrite H, H9, Hp, fmap_cons.
  - unfold handed. rewrite H1, H2, H3, H4, H8. by eapply handed_phase.
  - by rewrite H.
  - by rewrite H2, H6.
  - by rewrite H1, H7.
Qed.

(** A step that only moves tasks. *)
Lemma delay_ok_move d d' :
  delay_ok d -> places d' ≡ₚ places d -> pushed d' = pushed d -> clock d <= clock d' ->
  Forall (fun t => t ∈ handed d \/ runAt t <= clock d') (handed d') ->
  (length (running d') <= workers d')%nat -> (length (execute d') <= execute_cap d')%nat -> delay_ok d'.
Proof.
  intros [Ha Hd Hr Hw He] Hp Hq Hc Hh Hw' He'. split; [by rewrite Hp, Hq| |by rewrite Hp|done..].
  rewrite Forall_forall in Hd, Hh |- *. intros t Ht. destruct (Hh t Ht) as [Hin|]; [|done]. specialize (Hd t Hin). simpl in Hd. lia.
Qed.

Lemma delay_ok_received d t l d' : delay_ok d -> enqueue d = t :: l -> received d t l = Some d' -> delay_ok d'.
Proof.
  intros Hok He Hr. destruct (received_places _ _ _ _ Hr) as (H & H1 & H2 & H3 & H4 & H5 & H6 & H7 & H8 & H9).
  apply (delay_ok_move d); [done| |done|lia| |rewrite H2, H6; apply Hok|rewrite H1, H7; apply Hok].
  - rewrite H. unfold places. by rewrite He.
  - apply Forall_forall. intros x Hx. left. unfold handed in *. rewrite H1, H2, H3, H4, H5 in Hx. set_solver.
Qed.

Lemma delay_ok_look d : delay_ok d -> loop d = Looking -> delay_ok (look d).
Proof.
  intros Hok Hl. unfold look. destruct (Peek (queue d)) as [t|] eqn:Ep.
  - destruct (heap_Pop_Peek _ _ Ep) as (rest & -> & Hq). apply (delay_ok_move d); [done| |done|simpl; lia| |apply Hok|apply Hok].
    + unfold places. simpl. rewrite Hq, Hl. destruct (_ <=? _); simpl; solve_Permutation.
    + apply Forall_forall. intros x Hx. unfold handed in *. simpl in Hx. destruct (runAt t - clock d <=? 0) eqn:E; simpl in Hx.
      * apply Z.leb_le in E. rewrite !elem_of_app, list_elem_of_singleton in Hx. destruct Hx as [?|[?|[?|[?| ->]]]]; [left; set_solver..|right; simpl; lia].
      * left. set_solver.
  - apply (delay_ok_move d); [done| |done|simpl; lia| |apply Hok|apply Hok].
    + unfold places. simpl. by rewrite Hl.
    + apply Forall_forall. intros x Hx. left. unfold handed in *. simpl in Hx. set_solver.
Qed.

Lemma delay_ok_done d i failed w d' : delay_ok d -> done_task d i failed w = Some d' -> delay_ok d'.
Proof.
  intros Hok. unfold done_task. destruct (running d !! i) as [t|] eqn:Et; [|done]. intros [= <-].
  pose proof (delete_Permutation (running d) i t Et) as Hr. pose proof Hok as [Ha Hd Hre Hw He].
  assert (Ht : 0 <= retries t <= maxTaskRetry).
  { rewrite Forall_forall in Hre. apply Hre. unfold places. rewrite Hr. set_solver. }
  assert (Hl : (length (delete i (running d)) <= workers d)%nat) by (rewrite length_delete by done; lia).
  assert (Hin : forall x, x ∈ delete i (running d) -> x ∈ running d) by (intros x Hx; rewrite Hr; by right).
  destruct failed; [destruct (Z.ltb_spec (retries t) maxTaskRetry) as [Hlt|Hge]|].
  - apply delay_ok_push; [| | |done|done].
    + simpl. rewrite <-Ha. unfold places. simpl. rewrite Hr at 1. rewrite !fmap_app, fmap_cons. unfold known at 3. simpl. solve_Permutation.
    + simpl. apply Forall_forall. intros x Hx. rewrite Forall_forall in Hd. apply Hd. unfold handed in *. simpl in *. set_solver.
    + constructor; [simpl; unfold maxTaskRetry in *; lia|]. rewrite Forall_forall in Hre |- *. intros x Hx. apply Hre.
      unfold places in *. simpl in *. set_solver.
  - apply (delay_ok_move d); [done| |done|simpl; lia| |done|done].
    + unfold places. simpl. rewrite Hr at 2. solve_Permutation.
    + apply Forall_forall. intros x Hx. left. unfold handed in *. simpl in *. rewrite Hr. set_solver.
  - apply (delay_ok_move d); [done| |done|simpl; lia| |done|done].
    + unfold places. simpl. rewrite Hr at 2. solve_Permutation.
    + apply Forall_forall. intros x Hx. left. unfold handed in *. simpl in *. rewrite Hr. set_solver.
Qed.

Lemma delay_ok_step d e d' : delay_ok d -> dstep d e = Some d' -> delay_ok d'.
Proof.
  intros Hok. pose proof Hok as [Ha Hd Hre Hw He]. destruct e as [id w|id delay w|n| | | | | | | |i failed w]; cbn [dstep].
  - intros [= <-]. apply delay_ok_push; [by apply Permutation_skip|done| |done|done]. by constructor; [simpl; unfold maxTaskRetry; lia|].
  - intros [= <-]. apply delay_ok_push; [by apply Permutation_skip|done| |done|done]. by constructor; [simpl; unfold maxTaskRetry; lia|].
  - destruct (Z.leb_spec 0 n); [|done]. intros [= <-]. apply (delay_ok_move d); [done|done|done|simpl; lia| |done|done].
    apply Forall_forall. intros x Hx. by left.
  - intros [= <-]. apply (delay_ok_move d); [done|done|done|simpl; lia| |done|done]. apply Forall_forall. intros x Hx. by left.
  - destruct (loop d) eqn:El; [|done..]. intros [= <-]. by apply delay_ok_look.
  - destruct (enqueue d) as [|t l] eqn:Ee; [done|]. intros Hr. by eapply delay_ok_received.
  - destruct (loop d) as [|t| | |] eqn:El; [done| |done..]. destruct (Z.leb_spec (runAt t) (clock d)); [|done]. intros [= <-].
    apply (delay_ok_move d); [done| |done|simpl; lia| |done|done].
    + unfold places. simpl. by rewrite El.
    + apply Forall_forall. intros x Hx. unfold handed in *. simpl in *. rewrite El. set_solver.
  - destruct (loop d) as [| | |t|] eqn:El; [done..| |done]. destruct (Nat.ltb_spec (length (execute d)) (execute_cap d)); [|done]. intros [= <-].
    apply (delay_ok_move d); [done| |done|simpl; lia| |done|simpl; rewrite length_app; simpl; lia].
    + unfold places. simpl. rewrite El. simpl. solve_Permutation.
    + apply Forall_forall. intros x Hx. left. unfold handed in *. simpl in *. rewrite El. set_solver.
  - destruct (stopped d); [|done]. destruct (loop d) as [|t| |t|] eqn:El; [done| | | |done]; intros [= <-];
      (apply (delay_ok_move d); [done|unfold places; simpl; by rewrite El|done|simpl; lia| |done|done]);
      apply Forall_forall; intros x Hx; left; unfold handed in *; simpl in *; set_solver.
  - destruct (Nat.ltb_spec (length (running d)) (workers d)); [|done]. destruct (execute d) as [|t l] eqn:Ee.
    + destruct (loop d) as [| | |t|] eqn:El; [done..| |done]. intros [= <-]. apply (delay_ok_move d); [done| |done|simpl; lia| |simpl; lia|simpl; lia].
      * unfold places. simpl. rewrite El, Ee. simpl. solve_Permutation.
      * apply Forall_forall. intros x Hx. left. unfold handed in *. simpl in *. rewrite El. set_solver.
    + intros [= <-]. apply (delay_ok_move d); [done| |done|simpl; lia| |simpl; lia|simpl in *; lia].
      * unfold places. simpl. rewrite Ee. simpl. solve_Permutation.
      * apply Forall_forall. intros x Hx. left. unfold handed in *. simpl in *. rewrite Ee. set_solver.
  - intros Hr. by eapply delay_ok_done.
Qed.

Lemma delay_ok_runs d es d' : delay_ok d -> druns d es = Some d' -> delay_ok d'.
Proof.
  revert d. induction es as [|e es IH]; intros d Hok; cbn [druns]; [by intros [= <-]|].
  destruct (dstep d e) as [d1|] eqn:E; [|done]. apply IH. by eapply delay_ok_step.
Qed.

Lemma new_empty procs now opts : let d := NewDelayed procs now opts in
  enqueue d = [] /\ queue d = [] /\ execute d = [] /\ running d = [] /\ finished d = [] /\ dropped d = [] /\ loop d = Looking /\ pushed d = [].
Proof.
  unfold NewDelayed. match goal with |- context [foldl _ ?d0 _] => set (d := d0) end.
  assert (Hd : enqueue d = [] /\ queue d = [] /\ execute d = [] /\ running d = [] /\ finished d = [] /\ dropped d = [] /\ loop d = Looking /\ pushed d = []) by done.
  clearbody d. revert d Hd. induction opts as [|o opts IH]; intros d Hd; simpl; [done|]. apply IH. by destruct o, Hd as (? & ? & ? & ? & ? & ? & ? & ?).
Qed.

Lemma delay_ok_new procs now opts : delay_ok (NewDelayed procs now opts) /\ queue (NewDelayed procs now opts) = [].
Proof.
  destruct (new_empty procs now opts) as (H1 & H2 & H3 & H4 & H5 & H6 & H7 & H8). split; [|done].
  split; unfold places, handed; rewrite ?H1, ?H2, ?H3, ?H4, ?H5, ?H6, ?H7, ?H8; simpl; [done|done|done|lia|lia].
Qed.

(** *** The runs of tasks *)

(** The runs that ended in a sequence of steps: the task as the worker had it, and whether
    it failed. *)
Definition ended (d : delayQueue) (e : devent) : list (delayTask * bool) :=
  match e with
  | EDone i failed _ => match running d !! i with Some t => [(t, failed)] | None => [] end
  | _ => []
  end.
Fixpoint run_log (d : delayQueue) (es : list devent) : list (delayTask * bool) :=
  match es with
  | [] => []
  | e :: es => ended d e ++ match dstep d e with Some d' => run_log d' es | None => [] end
  end.

(** How many runs of the tasks with an identifier have ended in one way *)
Definition runs_of (id : nat) (failed : bool) (log : list (delayTask * bool)) : Z :=
  Z.of_nat (length (filter (fun r => task_id (fst r) = id /\ snd r = failed) log)).

Definition tally (f : delayTask -> Z) (l : list delayTask) : Z := foldr (fun t n => f t + n) 0 l.
Definition is_task (id : nat) (t : delayTask) : Z := if (task_id t =? id)%nat then 1 else 0.
Definition retries_of (id : nat) (t : delayTask) : Z := is_task id t * retries t.

Lemma tally_app f l k : tally f (l ++ k) = tally f l + tally f k.
Proof. induction l as [|t l IH]; simpl; [done|]. rewrite IH. lia. Qed.
#[global] Instance tally_perm f : Proper (Permutation ==> eq) (tally f).
Proof. intros l k H. induction H; simpl; lia. Qed.
Lemma tally_le f g l : Forall (fun t => f t <= g t) l -> tally f l <= tally g l.
Proof. induction 1; simpl; lia. Qed.
Lemma tally_scale c f l : tally (fun t => c * f t) l = c * tally f l.
Proof. induction l as [|t l IH]; simpl; lia. Qed.
Lemma tally_add f g l : tally (fun t => f t + g t) l = tally f l + tally g l.
Proof. induction l as [|t l IH]; simpl; lia. Qed.
Lemma tally_nonneg id l : 0 <= tally (is_task id) l.
Proof. induction l as [|t l IH]; simpl; [done|]. unfold is_task at 1. destruct (_ =? _)%nat; lia. Qed.

Lemma runs_of_app id b l k : runs_of id b (l ++ k) = runs_of id b l + runs_of id b k.
Proof. unfold runs_of. rewrite filter_app, length_app. lia. Qed.
Lemma runs_of_one id b t f : runs_of id b [(t, f)] = if Bool.eqb f b then is_task id t else 0.
Proof.
  unfold runs_of, is_task. rewrite filter_cons, filter_nil. simpl. destruct (Nat.eqb_spec (task_id t) id), f, b; simpl;
    first [rewrite decide_True by done|rewrite decide_False by naive_solver]; reflexivity.
Qed.

(** A step that ends no run leaves the finished and the dropped tasks alone, and at most adds
    a task that was not tried yet. *)
Lemma dstep_moves d e d' : dstep d e = Some d' -> (forall i failed w, e <> EDone i failed w) ->
  finished d' = finished d /\ dropped d' = dropped d /\
  (places d' ≡ₚ places d \/ exists t, retries t = 0 /\ places d' ≡ₚ t :: places d).
Proof.
  intros Hs Hne. destruct e as [id w|id delay w|n| | | | | | | |i failed w]; cbn [dstep] in Hs; [| | | | | | | | | |by destruct (Hne i failed w)].
  1-2: injection Hs as <-; unfold Push, PushDelayed; match goal with |- context [pushInternal ?x ?y ?z] =>
         destruct (pushInternal_places x y z) as (H & _ & _ & -> & -> & _) end; (split; [done|]); (split; [done|]); right; eexists; split; [|exact H]; done.
  1: destruct (0 <=? n); [|done]; by injection Hs as <-; split; [|split; [|left]].
  1: by injection Hs as <-; split; [|split; [|left]].
  - destruct (loop d) eqn:El; [|done..]. injection Hs as <-. unfold look. destruct (Peek (queue d)) as [t|] eqn:Ep; (split; [done|]); (split; [done|]); left.
    + destruct (heap_Pop_Peek _ _ Ep) as (rest & -> & Hq). unfold places. simpl. rewrite Hq, El. destruct (_ <=? _); simpl; solve_Permutation.
    + unfold places. simpl. by rewrite El.
  - destruct (enqueue d) as [|t l] eqn:Ee; [done|]. apply received_places in Hs as (H & _ & _ & -> & -> & _). split; [done|]. split; [done|]. left.
    rewrite H. unfold places. by rewrite Ee.
  - destruct (loop d) as [|t| | |] eqn:El; [done| |done..]. destruct (_ <=? _); [|done]. injection Hs as <-. split; [done|]. split; [done|]. left.
    unfold places. simpl. by rewrite El.
  - destruct (loop d) as [| | |t|] eqn:El; [done..| |done]. destruct (_ <? _)%nat; [|done]. injection Hs as <-. split; [done|]. split; [done|]. left.
    unfold places. simpl. rewrite El. simpl. solve_Permutation.
  - destruct (stopped d); [|done]. destruct (loop d) as [|t| |t|] eqn:El; [done| | | |done]; injection Hs as <-; (split; [done|]); (split; [done|]); left;
      unfold places; simpl; by rewrite El.
  - destruct (_ <? _)%nat; [|done]. destruct (execute d) as [|t l] eqn:Ee; [destruct (loop d) as [| | |t|] eqn:El; [done..| |done]|];
      injection Hs as <-; (split; [done|]); (split; [done|]); left; unfold places; simpl; rewrite ?El, ?Ee; simpl; solve_Permutation.
Qed.

(** What the counters of the tasks say of the runs *)
Record counted (d : delayQueue) (log : list (delayTask * bool)) : Prop := {
  ct_dropped : Forall (fun t => retries t = maxTaskRetry) (dropped d);
  ct_failed id : runs_of id true log = tally (retries_of id) (places d) + tally (is_task id) (dropped d);
  ct_done id : runs_of id false log = tally (is_task id) (finished d)
}.

Lemma counted_new procs now opts : counted (NewDelayed procs now opts) [].
Proof.
  destruct (new_empty procs now opts) as (H1 & H2 & H3 & H4 & H5 & H6 & H7 & H8).
  by split; unfold places; rewrite ?H1, ?H2, ?H3, ?H4, ?H5, ?H6, ?H7.
Qed.

Lemma counted_done d i failed w d' log : delay_ok d -> counted d log -> done_task d i failed w = Some d' ->
  counted d' (log ++ ended d (EDone i failed w)).
Proof.
  intros Hok [Hdr Hf Hd]. unfold done_task. simpl. destruct (running d !! i) as [t|] eqn:Et; [|done]. intros [= <-].
  pose proof (delete_Permutation (running d) i t Et) as Hr.
  assert (Ht : 0 <= retries t <= maxTaskRetry).
  { destruct Hok as [_ _ Hre _ _]. rewrite Forall_forall in Hre. apply Hre. unfold places. rewrite Hr. set_solver. }
  assert (Hp : forall f, tally f (places d) = f t + tally f (places (with_running d (execute d) (delete i (running d)) (finished d) (dropped d) (loop d)))).
  { intros f. unfold places. simpl. rewrite Hr at 1. rewrite !tally_app. simpl. lia. }
  destruct failed; [destruct (Z.ltb_spec (retries t) maxTaskRetry) as [Hlt|Hge]|].
  - match goal with |- context [pushInternal ?x ?y w] => destruct (pushInternal_places x y w) as (H & _ & _ & H3 & H4 & _) end.
    split; [by rewrite H4|intros id..]; rewrite runs_of_app, runs_of_one, ?H, ?H3, ?H4, ?Hf, ?Hd; simpl; [|lia].
    assert (E : retries_of id {| task_id := task_id t; runAt := runAt t; retries := retries t + 1 |} = retries_of id t + is_task id t)
      by (unfold retries_of, is_task; simpl; destruct (_ =? _)%nat; lia).
    rewrite Hp, E. lia.
  - split; [by constructor; [lia|]|intros id..]; rewrite runs_of_app, runs_of_one, ?Hf, ?Hd; simpl; [|lia].
    rewrite Hp. unfold places. simpl. rewrite !tally_app. simpl. rewrite ?tally_app. lia.
  - split; [done|intros id..]; rewrite runs_of_app, runs_of_one, ?Hf, ?Hd; simpl; [|lia].
    rewrite Hp. unfold places. simpl. rewrite !tally_app. simpl. rewrite ?tally_app. lia.
Qed.

Lemma counted_step d e d' log : delay_ok d -> counted d log -> dstep d e = Some d' -> counted d' (log ++ ended d e).
Proof.
  intros Hok Hc Hs. destruct e as [| | | | | | | | | |i failed w] eqn:Ee; [..|by eapply counted_done];
    (destruct (dstep_moves _ _ _ Hs) as (Hf & Hdr & Hp); [done|]); simpl; rewrite app_nil_r; destruct Hc as [H1 H2 H3];
    (split; rewrite ?Hf, ?Hdr; [done| |done]); intros k; rewrite H2; f_equal; destruct Hp as [->|(t & Ht & ->)]; try done;
    simpl; unfold retries_of at 2; rewrite Ht; lia.
Qed.

Lemma counted_runs d es d' log : delay_ok d -> counted d log -> druns d es = Some d' -> counted d' (log ++ run_log d es).
Proof.
  revert d log. induction es as [|e es IH]; intros d log Hok Hc; cbn [druns run_log]; [intros [= <-]; by rewrite app_nil_r|].
  destruct (dstep d e) as [d1|] eqn:E; [|done]. intros Hr. rewrite app_assoc. apply IH; [by eapply delay_ok_step|by apply counted_step|done].
Qed.

(** The runs that ended or are under way are at most four for every time a task was pushed. *)
Lemma counted_bound d log id : delay_ok d -> counted d log ->
  runs_of id true log + runs_of id false log + tally (is_task id) (running d) <=
  (maxTaskRetry + 1) * Z.of_nat (length (filter (fun p => fst p = id) (pushed d))).
Proof.
  intros [Ha _ Hre _ _] [_ Hf Hd]. rewrite Hf, Hd, <-Ha.
  assert (Hn : Z.of_nat (length (filter (fun p => fst p = id) (known <$> places d))) = tally (is_task id) (places d)).
  { clear. induction (places d) as [|t l IH]; [done|]. rewrite fmap_cons, filter_cons. cbn [tally foldr]. fold (tally (is_task id) l).
    rewrite <-IH. unfold is_task. cbn [fst known].
    destruct (Nat.eqb_spec (task_id t) id); [rewrite decide_True by done; cbn [length]; lia|rewrite decide_False by done; lia]. }
  rewrite Hn, Z.mul_add_distr_r, Z.mul_1_l, <-tally_scale.
  assert (Hle : tally (retries_of id) (places d) <= tally (fun t => maxTaskRetry * is_task id t) (places d)).
  { apply tally_le. rewrite Forall_forall in Hre |- *. intros t Ht. specialize (Hre t Ht). unfold retries_of, is_task in *. simpl in *.
    destruct (_ =? _)%nat; lia. }
  assert (Hsub : tally (is_task id) (dropped d) + tally (is_task id) (finished d) + tally (is_task id) (running d) <= tally (is_task id) (places d)).
  { unfold places. rewrite !tally_app. pose proof (tally_nonneg id (enqueue d)). pose proof (tally_nonneg id (queue d)).
    pose proof (tally_nonneg id (execute d)). pose proof (tally_nonneg id (in_hand (loop d))). lia. }
  lia.
Qed.

(** C35 The delay queue never loses a task, never runs one before its time, and runs it at
    most four times: after any interleaving of pushes, the goroutine of [Run], its timers, the
    workers and a stop, every task that was pushed is in exactly one place (in the buffer, in
    the heap, in the hand of [Run], with a worker, finished or dropped), those that workers
    have or had were due, and no more than [workers] tasks run at a time.  The retries of a
    task count its failed runs, so that a task is dropped only when it has failed
    [maxTaskRetry] + 1 times, and is finished by one run that did not fail; and the runs that
    ended or are under way are at most [maxTaskRetry] + 1 for every time it was pushed. *)
Theorem delayed_tasks_safe (procs : nat) (now : Z) (opts : list DelayQueueOption) (es : list devent) (d : delayQueue) :
  let d0 := NewDelayed procs now opts in
  let log := run_log d0 es in
  druns d0 es = Some d ->
  known <$> places d ≡ₚ pushed d /\
  Forall (fun t => runAt t <= clock d) (execute d ++ running d ++ finished d ++ dropped d) /\
  Forall (fun t => 0 <= retries t <= maxTaskRetry) (places d) /\
  Forall (fun t => retries t = maxTaskRetry) (dropped d) /\
  (length (running d) <= workers d)%nat /\ (length (execute d) <= execute_cap d)%nat /\
  forall id,
    runs_of id true log = tally (retries_of id) (places d) + tally (is_task id) (dropped d) /\
    runs_of id false log = tally (is_task id) (finished d) /\
    runs_of id true log + runs_of id false log + tally (is_task id) (running d) <=
      (maxTaskRetry + 1) * Z.of_nat (length (filter (fun p => fst p = id) (pushed d))).
Proof.
  intros d0 log Hr. destruct (delay_ok_new procs now opts) as [H0 _].
  assert (Hok : delay_ok d) by (by eapply delay_ok_runs).
  assert (Hc : counted d ([] ++ log)).
  { apply counted_runs; [done| |done]. apply counted_new. }
  simpl in Hc. pose proof Hok as [Ha Hd Hre Hw He]. pose proof Hc as [H1 H2 H3]. split_and!; [done| |done|done|done|done|].
  - rewrite Forall_forall in Hd |- *. intros x Hx. apply Hd. unfold handed. set_solver.
  - intros id. split_and!; [done|done|by apply counted_bound].
Qed.

Lemma delayed_tasks_safe_witness :
  match druns (NewDelayed 2 0 [DelayQueueBuffer 0])
          [EPushDelayed 1 10 false; ELook; EPush 2 true; ELook; ESend; EWork; EDone 0 true false; ELook; ETick 10; EWork] with
  | Some d => known <$> places d ≡ₚ [(2%nat, 0); (1%nat, 10)] | None => False end.
Proof.
  destruct (druns _ _) as [d|] eqn:E; [|by vm_compute in E].
  destruct (delayed_tasks_safe 2 0 [DelayQueueBuffer 0] _ d E) as (H & _). rewrite H. vm_compute in E. by injection E as <-.
Defined.

(** The steps keep the order of the heap while the queue is empty whenever [Run] waits for
    a first task. *)
Lemma heap_kept d e d' :
  heap_ok runAt (queue d) -> (loop d = Idle -> queue d = []) -> dstep d e = Some d' -> heap_ok runAt (queue d').
Proof.
  intros Hh Hi.
  assert (Hrec : forall d0 t l d1, queue d0 = queue d -> loop d0 = loop d -> received d0 t l = Some d1 -> heap_ok runAt (queue d1)).
  { intros d0 t l d1 Hq Hl. unfold received. rewrite Hl, Hq. destruct (loop d) eqn:El; intros [= <-]; simpl; [by do 2 apply heap_Push_ok|].
    rewrite (Hi eq_refl). intros j Hj. simpl in Hj. lia. }
  assert (Hpush : forall d0 t w, queue d0 = queue d -> loop d0 = loop d -> heap_ok runAt (queue (pushInternal d0 t w))).
  { intros d0 t w Hq Hl. unfold pushInternal. destruct (w && _); [destruct (received d0 t []) eqn:Er; [by eapply Hrec|]|];
      (destruct (_ <? _)%nat; simpl; rewrite Hq; [done|by apply heap_Push_ok]). }
  destruct e as [id w|id delay w|n| | | | | | | |i failed w]; cbn [dstep].
  - intros [= <-]. by apply Hpush.
  - intros [= <-]. by apply Hpush.
  - destruct (_ <=? _); [|done]. by intros [= <-].
  - by intros [= <-].
  - destruct (loop d); [|done..]. intros [= <-]. unfold look. destruct (Peek (queue d)) as [t|] eqn:Ep; [|done].
    destruct (heap_Pop_Peek _ _ Ep) as (rest & E & _). rewrite E. simpl. by destruct (heap_Pop_ok runAt _ _ _ Hh E) as (? & _).
  - destruct (enqueue d) as [|t l]; [done|]. by eapply Hrec.
  - destruct (loop d); try done. destruct (_ <=? _); [|done]. by intros [= <-].
  - destruct (loop d); try done. destruct (_ <? _)%nat; [|done]. by intros [= <-].
  - destruct (stopped d); [|done]. destruct (loop d); try done; by intros [= <-].
  - destruct (_ <? _)%nat; [|done]. destruct (execute d); [destruct (loop d); try done|]; by intros [= <-].
  - unfold done_task. destruct (running d !! i) as [t|]; [|done]. intros [= <-]. destruct failed; [destruct (_ <? _)|]; [by apply Hpush|done|done].
Qed.

(** The branch of [Run] for an empty queue appends what it receives with [d.queue.Push], not
    [heap.Push]; a push that found the buffer full may have filled the heap in between.  Then
    the order of the heap is lost: here the task that is due at 10 waits behind that of 100. *)
Theorem idle_receive_breaks_heap :
  match druns (NewDelayed 2 0 [DelayQueueBuffer 1]) [ELook; EPushDelayed 1 10 false; EPushDelayed 2 100 false; EReceive; ELook; ETick 50] with
  | Some d => loop d = Holding {| task_id := 2; runAt := 100; retries := 0 |} /\ clock d = 50 /\
              queue d = [{| task_id := 1; runAt := 10; retries := 0 |}]
  | None => False
  end.
Proof. by vm_compute. Qed.

(** A push that finds the buffer full does not block: the task goes to the heap. *)
Example full_buffer_does_not_block :
  let d := Push (Push (NewDelayed 1 0 [DelayQueueBuffer 1]) 1 false) 2 false in
  map task_id (enqueue d) = [1%nat] /\ map task_id (queue d) = [2%nat].
Proof. vm_compute. done. Qed.

(** Without a buffer, as the secret cache makes the queue, a push that comes after [Run] found
    the queue empty and before it waits goes to the heap, and nothing wakes [Run] up: the task
    is due, but of the steps of [Run], its timer and the workers none can be taken. *)
Theorem unbuffered_push_unnoticed :
  match druns (NewDelayed 2 0 [DelayQueueBuffer 0]) [ELook; EPush 1 false; ETick 1000] with
  | Some d => queue d = [{| task_id := 1; runAt := 0; retries := 0 |}] /\
              Forall (fun e => dstep d e = None) [ELook; EReceive; ETimer; ESend; EReturn; EWork]
  | None => False
  end.
Proof. vm_compute. split; [done|]. repeat constructor. Qed.
