(* ===== verification/SecretCache.v ===== *)
(** * The secret cache of the node agent

    [security/pkg/nodeagent/cache/secretcache.go], with the resource names of
    [pkg/security/security.go] and the PEM helpers of [pki/util]: the workload
    certificate and the trust bundle that proxies are given, from files or from the
    certificate authority, and the rotation of the certificate.

    What the code asks of its surroundings (files, clock, key generation, certificate
    authority, file watcher) is a [world] of answers that may be different at every call;
    [pem.Decode], [x509.ParseCertificate] and [tls.X509KeyPair] are parameters. *)

From S2P Require Import Prelude GoStrings Hosts GoNet GoSort Spiffe.

(** ** Resource names *)

Definition RootCertReqResourceName : string := "ROOTCA".
Definition WorkloadKeyCertResourceName : string := "default".
Definition FileRootSystemCACert : string := "file-root:system".
Definition ResourceSeparator : string := "~".

Record SdsCertificateConfig : Type := mkSds { CertificatePath : string; PrivateKeyPath : string; CaCertificatePath : string }.

Definition IsRootCertificate (s : SdsCertificateConfig) : bool := negb (String.eqb (CaCertificatePath s) "").
Definition IsKeyCertificate (s : SdsCertificateConfig) : bool :=
  negb (String.eqb (CertificatePath s) "") && negb (String.eqb (PrivateKeyPath s) "").

Definition SdsCertificateConfigFromResourceName (resource : string) : option SdsCertificateConfig :=
  if HasPrefix resource "file-cert:" then
    match Split (TrimPrefix resource "file-cert:") ResourceSeparator with
    | [a; b] => Some (mkSds a b "")
    | _ => None
    end
  else if HasPrefix resource "file-root:" then
    match Split (TrimPrefix resource "file-root:") ResourceSeparator with
    | [a] => Some (mkSds "" "" a)
    | _ => None
    end
  else None.

(** ** PEM *)

Definition newline : string := String (Ascii.ascii_of_nat 10) EmptyString.

(** [concatCerts] *)
Fixpoint concatCerts (certsPEM : list string) : string :=
  match certsPEM with
  | [] => ""
  | [c] => c
  | c :: l => c +:+ (if host.HasSuffix c newline then "" else newline) +:+ concatCerts l
  end.

(** [AppendCertByte] *)
Definition AppendCertByte (pemCert rootCert : string) : string :=
  (if (0 <? String.length pemCert)%nat then TrimSuffix pemCert newline +:+ newline else "") +:+ rootCert.

Definition trim_newlines (s : string) : string := TrimPrefix (TrimSuffix s newline) newline.

(** [PemCertBytestoString]: the fuel is enough if the rest that [pem.Decode] leaves is
    shorter than what it was given. *)
Fixpoint pem_certs (Decode : string -> option (string * string)) (fuel : nat) (pemBlock : string) : list string :=
  match fuel with
  | O => []
  | S fuel =>
      match Decode pemBlock with
      | None => []
      | Some (block, rest) =>
          if (String.length block =? 0)%nat then []
          else if (String.length rest =? 0)%nat then [trim_newlines pemBlock]
          else trim_newlines (str_take (String.length pemBlock - String.length rest) pemBlock) :: pem_certs Decode fuel rest
      end
  end.
Definition PemCertBytestoString (Decode : string -> option (string * string)) (caCerts : string) : list string :=
  pem_certs Decode (S (String.length caCerts)) caCerts.

(** ** Secrets *)

Module SecretItem.
Record t : Type := mk {
  CertificateChain : string; PrivateKey : string; RootCert : string; ResourceName : string; CreatedTime : Time; ExpireTime : Time
}.
End SecretItem.
Notation SecretItem := SecretItem.t.

Definition zero_time : Time := 0.

(** [Time.Sub] saturates. *)
Definition Sub (t u : Time) : Z := Z.max (- two63) (Z.min (two63 - 1) (t - u)).

Definition workloadSecretRotationRatio : Z := 4.
Definition workloadSecretRotationBase : Z := 5.

Definition workloadSecretRotationDelay (item : SecretItem) (now : Time) : Z :=
  let lifetime := Sub (SecretItem.ExpireTime item) (SecretItem.CreatedTime item) in
  if lifetime <=? 0 then 0 else
  let rotateAt := SecretItem.CreatedTime item + Z.quot (wrap_s64 (lifetime * workloadSecretRotationRatio)) workloadSecretRotationBase in
  let delay := Sub rotateAt now in
  if delay <? 0 then 0 else delay.

Record FileCert : Type := mkFileCert { fc_ResourceName : string; Filename : string }.

#[global] Instance FileCert_eq_dec : EqDecision FileCert.
Proof. solve_decision. Defined.
#[global] Instance FileCert_countable : Countable FileCert.
Proof.
  apply (inj_countable' (fun f => (fc_ResourceName f, Filename f)) (fun '(a, b) => mkFileCert a b)). by intros [].
Defined.

Section manager.
(** [pem.Decode], [x509.ParseCertificate] with the end of its validity, and
    [tls.X509KeyPair]. *)
Context (Decode : string -> option (string * string)).
Context {Cert : Type} (ParseCertificate : string -> res Cert) (NotAfter : Cert -> Time) (X509KeyPair : string -> string -> res unit).

(** [ParseCertAndGetExpiryTimestamp] *)
Definition ParseCertAndGetExpiryTimestamp (certByte : string) : res Time :=
  match Decode certByte with
  | None => Err (mk_error Unknown "failed to decode certificate")
  | Some (block, _) =>
      match ParseCertificate block with
      | Err e => Err (mk_error Unknown ("failed to parse certificate: " +:+ err_msg e))
      | Panic why => Panic why
      | Ok cert => Ok (NotAfter cert)
      end
  end.

(** [ParsePemEncodedCertificateChain]: the certificates, and the text of the last one. *)
Fixpoint parse_chain (fuel : nat) (certs : list Cert) (certBytes : string) : res (list Cert * string) :=
  match fuel with
  | O => Err (mk_error Unknown "invalid PEM encoded certificate")
  | S fuel =>
      match Decode certBytes with
      | None => Err (mk_error Unknown "invalid PEM encoded certificate")
      | Some (cb, rest) =>
          match ParseCertificate cb with
          | Err e => Err (mk_error Unknown ("failed to parse X.509 certificate : " +:+ err_msg e))
          | Panic why => Panic why
          | Ok cert =>
              if (String.length rest =? 0)%nat then Ok (certs ++ [cert], certBytes)
              else parse_chain fuel (certs ++ [cert]) rest
          end
      end
  end.
Definition ParsePemEncodedCertificateChain (certBytes : string) : res (list Cert * string) :=
  let certBytes := TrimSpace certBytes in parse_chain (S (String.length certBytes)) [] certBytes.

(** The answers of the surroundings at the [n]-th call *)
Record world : Type := mkWorld {
  ReadFile : nat -> string -> res string;
  Now : nat -> Time;
  GenCSR : nat -> string -> res (string * string);
  CSRSign : nat -> string -> Z -> res (list string);
  GetRootCertBundle : nat -> res (list string);
  WatchFile : nat -> string -> res unit;
  Abs : string -> res string;
  Attempts : nat -> nat
}.
Context (w : world).

Record Options : Type := mkOptions {
  OutputKeyCertToDir : string; SecretTTL : Z; TrustDomain : string; WorkloadNamespace : string; ServiceAccount : string;
  existingCertificateFile : SdsCertificateConfig; caRootPath : string; caClient : bool
}.
Context (opts : Options).

(** [SecretManagerClient]: the cache, the bundle of the configuration, the files that are
    watched; with what it has done: the files it asked the watcher for and those it tries
    to add in the background, the rotations given to the queue (the creation of the
    certificate, and when), the resources the handler was told of, the resources that were
    written to the output directory and the number of certificates that were signed. *)
Record SecretManagerClient : Type := mkClient {
  workload : option SecretItem; certRoot : string; configTrustBundle : string; fileCerts : gset FileCert;
  watcher : list string; retries_ : list (string * string); rotations : list (Time * Time); notified : list string;
  outputs : list SecretItem; signed : nat; calls : nat
}.

Definition NewSecretManagerClient : SecretManagerClient := mkClient None "" "" ∅ [] [] [] [] [] 0 0.

Definition act (A : Type) : Type := SecretManagerClient -> SecretManagerClient * res A.
#[global] Instance smc_ret : MRet act := fun A a st => (st, Ok a).
#[global] Instance smc_bind : MBind act := fun A B f m st =>
  match m st with
  | (st, Ok a) => f a st
  | (st, Err e) => (st, Err e)
  | (st, Panic why) => (st, Panic why)
  end.

Definition call {A} (f : nat -> res A) : act A := fun st =>
  (mkClient (workload st) (certRoot st) (configTrustBundle st) (fileCerts st) (watcher st) (retries_ st) (rotations st)
     (notified st) (outputs st) (signed st) (S (calls st)), f (calls st)).
Definition lift {A} (r : res A) : act A := fun st => (st, r).
Definition fail {A} (msg : string) : act A := lift (Err (mk_error Unknown msg)).
Definition read {A} (f : SecretManagerClient -> A) : act A := fun st => (st, Ok (f st)).
Definition write (f : SecretManagerClient -> SecretManagerClient) : act unit := fun st => (f st, Ok tt).

Definition set_workload (v : option SecretItem) (st : SecretManagerClient) : SecretManagerClient :=
  mkClient v (certRoot st) (configTrustBundle st) (fileCerts st) (watcher st) (retries_ st) (rotations st) (notified st) (outputs st)
    (signed st) (calls st).
Definition set_root (v : string) (st : SecretManagerClient) : SecretManagerClient :=
  mkClient (workload st) v (configTrustBundle st) (fileCerts st) (watcher st) (retries_ st) (rotations st) (notified st) (outputs st)
    (signed st) (calls st).
Definition set_bundle (v : string) (st : SecretManagerClient) : SecretManagerClient :=
  mkClient (workload st) (certRoot st) v (fileCerts st) (watcher st) (retries_ st) (rotations st) (notified st) (outputs st)
    (signed st) (calls st).
Definition set_files (v : gset FileCert) (st : SecretManagerClient) : SecretManagerClient :=
  mkClient (workload st) (certRoot st) (configTrustBundle st) v (watcher st) (retries_ st) (rotations st) (notified st) (outputs st)
    (signed st) (calls st).
Definition add_watch (f : string) (st : SecretManagerClient) : SecretManagerClient :=
  mkClient (workload st) (certRoot st) (configTrustBundle st) (fileCerts st) (f :: watcher st) (retries_ st) (rotations st) (notified st)
    (outputs st) (signed st) (calls st).
Definition add_retry (f : string * string) (st : SecretManagerClient) : SecretManagerClient :=
  mkClient (workload st) (certRoot st) (configTrustBundle st) (fileCerts st) (watcher st) (f :: retries_ st) (rotations st) (notified st)
    (outputs st) (signed st) (calls st).
Definition add_rotation (r : Time * Time) (st : SecretManagerClient) : SecretManagerClient :=
  mkClient (workload st) (certRoot st) (configTrustBundle st) (fileCerts st) (watcher st) (retries_ st) (r :: rotations st) (notified st)
    (outputs st) (signed st) (calls st).
Definition add_output (i : SecretItem) (st : SecretManagerClient) : SecretManagerClient :=
  mkClient (workload st) (certRoot st) (configTrustBundle st) (fileCerts st) (watcher st) (retries_ st) (rotations st) (notified st)
    (i :: outputs st) (signed st) (calls st).
Definition add_signed (st : SecretManagerClient) : SecretManagerClient :=
  mkClient (workload st) (certRoot st) (configTrustBundle st) (fileCerts st) (watcher st) (retries_ st) (rotations st) (notified st)
    (outputs st) (S (signed st)) (calls st).

(** [OnSecretUpdate]: the handler is told. *)
Definition notify (r : string) (st : SecretManagerClient) : SecretManagerClient :=
  mkClient (workload st) (certRoot st) (configTrustBundle st) (fileCerts st) (watcher st) (retries_ st) (rotations st) (notified st ++ [r])
    (outputs st) (signed st) (calls st).
Definition OnSecretUpdate (resourceName : string) : act unit := write (notify resourceName).

Definition time_now : act Time := call (fun n => Ok (Now w n)).

(** *** Trust anchors *)

Definition mergeConfigTrustBundle (rootCerts : list string) (st : SecretManagerClient) : string :=
  let existingCerts := PemCertBytestoString Decode (configTrustBundle st) in
  let anchors : gset string := list_to_set existingCerts ∪ list_to_set rootCerts in
  fold_left AppendCertByte (sort_strings (elements anchors)) "".

Definition mergeTrustAnchorBytes (caCerts : string) (st : SecretManagerClient) : string :=
  mergeConfigTrustBundle (PemCertBytestoString Decode caCerts) st.

(** *** Files *)

(** [RetryWithContext], and the loop of [readFileWithTimeout]: how often they try before the
    time is over is an answer of the surroundings. *)
Fixpoint try_times {A} (n : nat) (operation : act A) : act A := fun st =>
  match operation st with
  | (st, Err e) => match n with O => (st, Err e) | S n => try_times n operation st end
  | r => r
  end.
Definition retry {A} (operation : act A) : act A :=
  n ← call (fun n => Ok (Attempts w n)); try_times n operation.

Definition rootCertificateExist (filePath : string) : act bool := fun st =>
  match call (fun n => ReadFile w n filePath) st with
  | (st, Ok b) => (st, Ok (0 <? String.length b)%nat)
  | (st, Err _) => (st, Ok false)
  | (st, Panic why) => (st, Panic why)
  end.

Definition keyCertificateExist (certPath keyPath : string) : act bool :=
  b ← rootCertificateExist certPath;
  match b with true => rootCertificateExist keyPath | false => mret false end.

Definition readFileWithTimeout (path : string) : act string := retry (call (fun n => ReadFile w n path)).

Definition keyCertSecretItem (cert key resource : string) : act SecretItem :=
  certChain ← readFileWithTimeout cert;
  keyPEM ← readFileWithTimeout key;
  now ← time_now;
  certExpireTime ← lift (match ParseCertAndGetExpiryTimestamp certChain with
                         | Err e => Err (mk_error Unknown ("failed to extract expiration time in the certificate loaded from file: " +:+ err_msg e))
                         | r => r
                         end);
  mret (SecretItem.mk certChain keyPEM "" resource now certExpireTime).

Definition generateKeyCertFromExistingFiles (certChainPath keyPath resourceName : string) : act SecretItem :=
  _ ← retry (
    cert ← call (fun n => ReadFile w n certChainPath);
    key ← call (fun n => ReadFile w n keyPath);
    lift (X509KeyPair cert key));
  keyCertSecretItem certChainPath keyPath resourceName.

Definition generateRootCertFromExistingFile (rootCertPath resourceName : string) (is_workload : bool) : act SecretItem :=
  rootCert ← retry (
    cert ← call (fun n => ReadFile w n rootCertPath);
    _ ← lift (ParsePemEncodedCertificateChain cert);
    mret cert);
  _ ← (if is_workload then write (set_root rootCert) else mret tt);
  mret (SecretItem.mk "" "" rootCert resourceName zero_time zero_time).

(** *** File watches *)

Definition tryAddFileWatcher (file resourceName : string) : act unit :=
  file ← lift (Abs w file);
  let key := mkFileCert resourceName file in
  known ← read (fun st => bool_decide (key ∈ fileCerts st));
  match known with
  | true => mret tt
  | false =>
      _ ← write (fun st => set_files ({[key]} ∪ fileCerts st) st);
      _ ← call (fun n => WatchFile w n file);
      write (add_watch file)
  end.

Definition addFileWatcher (file resourceName : string) : act unit := fun st =>
  match tryAddFileWatcher file resourceName st with
  | (st, Err _) => (add_retry (file, resourceName) st, Ok tt)
  | r => r
  end.

(** [isWrite], [isCreate] and [isRemove] of an event of the watcher *)
Record FsEvent : Type := mkEvent { event_Name : string; isWrite : bool; isCreate : bool; isRemove : bool }.

(** One event in [handleFileWatch]; [range] over the set of files is in the order of
    [elements]. *)
Definition handle_file_event (e : FsEvent) : act unit :=
  if negb (isWrite e) && negb (isRemove e) && negb (isCreate e) then mret tt else
  resources ← read fileCerts;
  _ ← (if isRemove e then
         write (fun st => match list_find (fun fc => Filename fc = event_Name e) (elements (fileCerts st)) with
                          | Some (_, fc) => set_files (fileCerts st ∖ {[fc]}) st
                          | None => st
                          end)
       else mret tt);
  write (fun st => fold_left (fun st k => if String.eqb (Filename k) (event_Name e) then notify (fc_ResourceName k) st else st)
                     (elements resources) st).

(** *** Secrets from files *)

(** [DirEquals] *)
Definition DirEquals (a b : string) : res bool :=
  aa ← Abs w a; bb ← Abs w b; mret (String.eqb aa bb).

(** [err == nil] after the item was read: it is post-processed and its file is watched. *)
Definition from_file (item : act SecretItem) (post : SecretItem -> SecretManagerClient -> SecretItem) (file resourceName : string)
    : act (bool * option SecretItem) :=
  i ← item;
  i ← read (post i);
  _ ← addFileWatcher file resourceName;
  mret (true, Some i).
Definition keep (i : SecretItem) (_ : SecretManagerClient) : SecretItem := i.
Definition with_root (i : SecretItem) (root : string) : SecretItem :=
  SecretItem.mk (SecretItem.CertificateChain i) (SecretItem.PrivateKey i) root (SecretItem.ResourceName i) (SecretItem.CreatedTime i)
    (SecretItem.ExpireTime i).
Definition merged (i : SecretItem) (st : SecretManagerClient) : SecretItem :=
  with_root i (mergeTrustAnchorBytes (SecretItem.RootCert i) st).

(** [generateFileSecret], without its [default] case *)
Definition named_file_secret (resourceName : string) : act (bool * option SecretItem) :=
  match SdsCertificateConfigFromResourceName resourceName with
  | None => mret (false, None)
  | Some cfg =>
      if IsRootCertificate cfg
      then from_file (generateRootCertFromExistingFile (CaCertificatePath cfg) resourceName false) keep (CaCertificatePath cfg) resourceName
      else if IsKeyCertificate cfg
      then from_file (generateKeyCertFromExistingFiles (CertificatePath cfg) (PrivateKeyPath cfg) resourceName) keep (CertificatePath cfg) resourceName
      else mret (true, None)
  end.

Definition generateFileSecret (resourceName : string) : act (bool * option SecretItem) :=
  let cf := existingCertificateFile opts in
  match DirEquals (Dir (CertificatePath cf)) (OutputKeyCertToDir opts) with
  | Err _ => mret (false, None)
  | Panic why => lift (Panic why)
  | Ok outputToCertificatePath =>
      root ← (if String.eqb resourceName RootCertReqResourceName then rootCertificateExist (CaCertificatePath cf) else mret false);
      match root && negb outputToCertificatePath with
      | true => from_file (generateRootCertFromExistingFile (CaCertificatePath cf) resourceName true) merged (CaCertificatePath cf) resourceName
      | false =>
          key ← (if String.eqb resourceName WorkloadKeyCertResourceName
                 then keyCertificateExist (CertificatePath cf) (PrivateKeyPath cf) else mret false);
          match key && negb outputToCertificatePath with
          | true => from_file (generateKeyCertFromExistingFiles (CertificatePath cf) (PrivateKeyPath cf) resourceName) keep (CertificatePath cf) resourceName
          | false =>
              if String.eqb resourceName FileRootSystemCACert then
                if String.eqb (caRootPath opts) "" then mret (false, None)
                else from_file (generateRootCertFromExistingFile (caRootPath opts) resourceName false) keep (caRootPath opts) resourceName
              else named_file_secret resourceName
          end
      end
  end.

(** *** Secrets of the certificate authority *)

Definition getCachedSecret (resourceName : string) (st : SecretManagerClient) : option SecretItem :=
  match workload st with
  | None => None
  | Some c =>
      Some (if String.eqb resourceName RootCertReqResourceName
            then SecretItem.mk "" "" (mergeTrustAnchorBytes (SecretItem.RootCert c) st) resourceName zero_time zero_time
            else SecretItem.mk (SecretItem.CertificateChain c) (SecretItem.PrivateKey c) "" resourceName (SecretItem.CreatedTime c)
                   (SecretItem.ExpireTime c))
  end.

Definition sign (csrPEM : string) (ttl : Z) : act (list string) :=
  certs ← call (fun n => CSRSign w n csrPEM ttl);
  _ ← write add_signed;
  mret certs.

Definition generateNewSecret (resourceName : string) : act SecretItem :=
  if negb (caClient opts) then fail "attempted to fetch secret, but ca client is nil" else
  let csrHostName := Identity.mk (TrustDomain opts) (WorkloadNamespace opts) (ServiceAccount opts) in
  csr ← call (fun n => GenCSR w n (Identity.String csrHostName));
  certChainPEM ← sign (fst csr) (whole_seconds (SecretTTL opts));
  trustBundlePEM ← call (fun n => GetRootCertBundle w n);
  let certChain := concatCerts certChainPEM in
  expireTime ← lift (match ParseCertAndGetExpiryTimestamp certChain with
                     | Err e => Err (mk_error Unknown ("failed to extract expire time from server certificate in CSR response: " +:+ err_msg e))
                     | r => r
                     end);
  rootCertPEM ← lift (match trustBundlePEM with
                      | [] => match last certChainPEM with Some c => Ok c | None => Panic "index out of range [-1]" end
                      | _ => Ok (concatCerts trustBundlePEM)
                      end);
  now ← time_now;
  mret (SecretItem.mk certChain (snd csr) rootCertPEM resourceName now expireTime).

(** [registerSecret]: the task that is pushed is [rotate]. *)
Definition registerSecret (item : SecretItem) : act unit :=
  let item := SecretItem.mk (SecretItem.CertificateChain item) (SecretItem.PrivateKey item) (SecretItem.RootCert item)
                WorkloadKeyCertResourceName (SecretItem.CreatedTime item) (SecretItem.ExpireTime item) in
  cached ← read workload;
  match cached with
  | Some _ => mret tt
  | None =>
      _ ← write (set_workload (Some item));
      now ← time_now;
      write (add_rotation (SecretItem.CreatedTime item, now + workloadSecretRotationDelay item now))
  end.

Definition rotate (created : Time) : act unit :=
  cached ← read workload;
  match cached with
  | Some c =>
      if SecretItem.CreatedTime c =? created
      then _ ← write (set_workload None); OnSecretUpdate WorkloadKeyCertResourceName
      else mret tt
  | None => mret tt
  end.

(** The root certificate, from the certificate authority *)
Definition fetch_root (resourceName : string) : act SecretItem :=
  if negb (caClient opts) then fail "attempted to fetch root cert, but ca client is nil" else
  trustBundlePEM ← (fun st => match call (fun n => GetRootCertBundle w n) st with
                              | (st, Err e) => (st, Err (mk_error Unknown ("failed to get root cert bundle: " +:+ err_msg e)))
                              | r => r
                              end) : act (list string);
  root ← read (mergeTrustAnchorBytes (concatCerts trustBundlePEM));
  mret (SecretItem.mk "" "" root resourceName zero_time zero_time).

(** What [GenerateSecret] does under [generateMutex]. *)
Definition generate_locked (resourceName : string) : act SecretItem :=
  cached ← read (getCachedSecret resourceName);
  match cached with
  | Some ns => mret ns
  | None =>
      if String.eqb resourceName RootCertReqResourceName then fetch_root resourceName else
      ns ← (fun st => match generateNewSecret resourceName st with
                      | (st, Err e) => (st, Err (mk_error Unknown ("failed to generate workload certificate: " +:+ err_msg e)))
                      | r => r
                      end) : act SecretItem;
      _ ← registerSecret ns;
      oldRoot ← read certRoot;
      _ ← (if String.eqb oldRoot (SecretItem.RootCert ns) then mret tt
           else _ ← write (set_root (SecretItem.RootCert ns)); OnSecretUpdate RootCertReqResourceName);
      mret ns
  end.

(** What it gives before it takes the mutex: [None] if it has to take it. *)
Definition generate_unlocked (resourceName : string) : act (option (option SecretItem)) :=
  f ← generateFileSecret resourceName;
  match f with
  | (true, ns) => mret (Some ns)
  | (false, _) => cached ← read (getCachedSecret resourceName); mret (Some <$> cached)
  end.

(** The deferred output to a directory *)
Definition output_secret (resourceName : string) (secret : option SecretItem) : act unit :=
  match secret with
  | Some i =>
      if (String.eqb resourceName RootCertReqResourceName || String.eqb resourceName WorkloadKeyCertResourceName)
         && negb (String.eqb (OutputKeyCertToDir opts) "")
      then write (add_output i) else mret tt
  | None => mret tt
  end.

Definition GenerateSecret (resourceName : string) : act (option SecretItem) :=
  early ← generate_unlocked resourceName;
  secret ← match early with
           | Some ns => mret ns
           | None => ns ← generate_locked resourceName; mret (Some ns)
           end;
  _ ← output_secret resourceName secret;
  mret secret.

Definition UpdateConfigTrustBundle (trustBundle : string) : act unit :=
  old ← read configTrustBundle;
  if String.eqb old trustBundle then mret tt else
  _ ← write (set_bundle trustBundle);
  _ ← OnSecretUpdate RootCertReqResourceName;
  OnSecretUpdate WorkloadKeyCertResourceName.


(** ** Lemmas *)

(** What only the certificate authority and rotations change *)
Definition core (st : SecretManagerClient) : option SecretItem * list (Time * Time) * nat * string :=
  (workload st, rotations st, signed st, configTrustBundle st).
Definition frames {A} (m : act A) : Prop := forall st, core (fst (m st)) = core st.

Lemma frames_ret {A} (a : A) : frames (mret a).
Proof. by intros st. Qed.
Lemma frames_bind {A B} (m : act A) (f : A -> act B) : frames m -> (forall a, frames (f a)) -> frames (m ≫= f).
Proof.
  intros Hm Hf st. unfold mbind, smc_bind. specialize (Hm st). destruct (m st) as [st1 [a| |]]; simpl in *; [|done..]. by rewrite Hf.
Qed.
Lemma frames_call {A} (f : nat -> res A) : frames (call f).
Proof. by intros st. Qed.
Lemma frames_lift {A} (r : res A) : frames (lift r).
Proof. by intros st. Qed.
Lemma frames_read {A} (f : SecretManagerClient -> A) : frames (read f).
Proof. by intros st. Qed.
Lemma frames_write f : (forall st, core (f st) = core st) -> frames (write f).
Proof. intros Hf st. apply Hf. Qed.
Lemma frames_try {A} n (m : act A) : frames m -> frames (try_times n m).
Proof.
  intros Hm. induction n as [|n IH]; intros st; cbn [try_times]; specialize (Hm st); destruct (m st) as [st1 [a|e|p]]; simpl in *; try done.
  by rewrite IH.
Qed.
Lemma frames_exist path : frames (rootCertificateExist path).
Proof. intros st. unfold rootCertificateExist. simpl. by destruct (ReadFile w _ path). Qed.
Lemma frames_if {A} (b : bool) (m n : act A) : frames m -> frames n -> frames (if b then m else n).
Proof. by destruct b. Qed.

Lemma frames_tryAdd file r : frames (tryAddFileWatcher file r).
Proof.
  apply frames_bind; [apply frames_lift|]. intros f. apply frames_bind; [apply frames_read|]. intros []; [apply frames_ret|].
  apply frames_bind; [by apply frames_write|]. intros _. apply frames_bind; [apply frames_call|]. intros _. by apply frames_write.
Qed.
Lemma frames_add file r : frames (addFileWatcher file r).
Proof.
  intros st. unfold addFileWatcher. pose proof (frames_tryAdd file r st) as H. by destruct (tryAddFileWatcher file r st) as [st1 [a|e|p]].
Qed.

Hint Resolve frames_ret frames_bind frames_call frames_lift frames_read frames_try frames_exist frames_if frames_add : frames.

Lemma frames_retry {A} (m : act A) : frames m -> frames (retry m).
Proof. intros Hm. apply frames_bind; auto with frames. Qed.
Lemma frames_readFile path : frames (readFileWithTimeout path).
Proof. apply frames_retry. auto with frames. Qed.
Lemma frames_keyCert a b r : frames (generateKeyCertFromExistingFiles a b r).
Proof.
  apply frames_bind; [apply frames_retry; auto 6 with frames|]. intros _. unfold keyCertSecretItem, time_now.
  repeat (apply frames_bind; [auto using frames_readFile with frames|intros ?]). auto with frames.
Qed.
Lemma frames_rootCert a r b : frames (generateRootCertFromExistingFile a r b).
Proof.
  apply frames_bind; [apply frames_retry; auto 6 with frames|]. intros c. apply frames_bind; [|auto with frames].
  apply frames_if; [by apply frames_write|auto with frames].
Qed.
Lemma frames_from_file m post f r : frames m -> frames (from_file m post f r).
Proof. intros Hm. unfold from_file. auto 6 with frames. Qed.
Hint Resolve frames_keyCert frames_rootCert frames_from_file : frames.

Lemma frames_generateFileSecret r : frames (generateFileSecret r).
Proof.
  unfold generateFileSecret. destruct (DirEquals _ _) as [o|e|p]; [|auto with frames..].
  apply frames_bind; [auto with frames|]. intros root. destruct (root && negb o); [auto with frames|].
  apply frames_bind.
  { apply frames_if; [|auto with frames]. apply frames_bind; [auto with frames|]. intros []; auto with frames. }
  intros key. destruct (key && negb o); [auto with frames|]. unfold named_file_secret.
  destruct (String.eqb _ _); [destruct (String.eqb _ _); auto with frames|].
  destruct (SdsCertificateConfigFromResourceName r) as [cfg|]; [|auto with frames].
  destruct (IsRootCertificate cfg); [auto with frames|]. destruct (IsKeyCertificate cfg); auto with frames.
Qed.

(** Certificates of the certificate authority: nothing is cached yet. *)
Lemma generateNewSecret_spec r st :
  let '(st', a) := generateNewSecret r st in
  workload st' = workload st /\ rotations st' = rotations st /\ configTrustBundle st' = configTrustBundle st /\ certRoot st' = certRoot st /\
  notified st' = notified st /\ (signed st <= signed st' <= S (signed st))%nat /\
  match a with
  | Ok i => caClient opts = true /\ signed st' = S (signed st) /\ SecretItem.ResourceName i = r /\
            exists n, calls st' = S n /\ SecretItem.CreatedTime i = Now w n
  | _ => True
  end.
Proof.
  unfold generateNewSecret. destruct (caClient opts) eqn:Ec; [|simpl; split_and!; try done; lia]. simpl.
  unfold sign, time_now. unfold mbind, smc_bind. simpl.
  destruct (GenCSR w _ _) as [[csr key]| |]; simpl; [|split_and!; try done; lia..].
  destruct (CSRSign w _ _ _) as [certs| |]; simpl; [|split_and!; try done; lia..].
  destruct (GetRootCertBundle w _) as [bundle| |]; simpl; [|split_and!; try done; lia..].
  destruct (ParseCertAndGetExpiryTimestamp _) as [exp| |]; simpl; [|split_and!; try done; lia..].
  destruct bundle as [|b bundle]; [destruct (last certs)|]; simpl; split_and!; try done; try lia; eauto.
Qed.

(** The item as it is cached *)
Definition as_workload (i : SecretItem) : SecretItem :=
  SecretItem.mk (SecretItem.CertificateChain i) (SecretItem.PrivateKey i) (SecretItem.RootCert i) WorkloadKeyCertResourceName
    (SecretItem.CreatedTime i) (SecretItem.ExpireTime i).
(** The rotation of a certificate that was made at the [n]-th call *)
Definition scheduled (c : SecretItem) (n : nat) : Time * Time :=
  (SecretItem.CreatedTime c, Now w (S n) + workloadSecretRotationDelay c (Now w (S n))).

Lemma fetch_root_spec r st :
  let '(st', a) := fetch_root r st in
  core st' = core st /\ certRoot st' = certRoot st /\ notified st' = notified st /\
  match a with
  | Ok i => exists bundle, GetRootCertBundle w (calls st) = Ok bundle /\
              i = SecretItem.mk "" "" (mergeTrustAnchorBytes (concatCerts bundle) st) r zero_time zero_time
  | _ => True
  end.
Proof.
  unfold fetch_root. destruct (caClient opts); [|done]. simpl. unfold mbind, smc_bind. simpl.
  destruct (GetRootCertBundle w (calls st)) as [bundle| |]; simpl; [|done..]. split_and!; try done. by exists bundle.
Qed.

Lemma generate_locked_cached r st i :
  getCachedSecret r st = Some i -> generate_locked r st = (st, Ok i).
Proof. intros E. unfold generate_locked. unfold mbind, smc_bind. simpl. by rewrite E. Qed.

Lemma generate_locked_new r st :
  workload st = None -> r <> RootCertReqResourceName ->
  let '(st', a) := generate_locked r st in
  configTrustBundle st' = configTrustBundle st /\
  match a with
  | Ok i => SecretItem.ResourceName i = r /\ signed st' = S (signed st) /\ workload st' = Some (as_workload i) /\
            (exists n, SecretItem.CreatedTime i = Now w n /\ rotations st' = scheduled (as_workload i) n :: rotations st) /\
            certRoot st' = SecretItem.RootCert i /\
            notified st' = notified st ++ (if String.eqb (certRoot st) (SecretItem.RootCert i) then [] else [RootCertReqResourceName])
  | _ => workload st' = None /\ rotations st' = rotations st /\ certRoot st' = certRoot st /\ notified st' = notified st
  end.
Proof.
  intros Hw Hr. unfold generate_locked, mbind at 1, smc_bind at 1. simpl. unfold getCachedSecret. rewrite Hw.
  rewrite (proj2 (String.eqb_neq r RootCertReqResourceName) Hr). unfold mbind at 1, smc_bind at 1.
  pose proof (generateNewSecret_spec r st) as Hs. destruct (generateNewSecret r st) as [st1 [i|e|p]];
    destruct Hs as (H1 & H2 & H3 & H4 & H5 & H6 & H7); [|by rewrite H1, H2..].
  destruct H7 as (_ & Hsi & Hn & n & Hc & Ht). unfold registerSecret, mbind, smc_bind, time_now. simpl. rewrite H1, Hw. simpl.
  rewrite H4. destruct (String.eqb (certRoot st) (SecretItem.RootCert i)) eqn:E; simpl.
  - rewrite E, H2, Hc, H5, app_nil_r. apply String.eqb_eq in E. split_and!; try done. by exists n.
  - rewrite E, H2, Hc, H5. split_and!; try done. by exists n.
Qed.

(** ** The cache over time

    Any number of proxies ask for secrets; what [GenerateSecret] does under its mutex is
    one step, as the steps it can overlap with (a rotation, a new trust bundle, an event
    of a file) change nothing that it reads.  A rotation that was given to the queue may
    run at any time. *)

Definition set_rotations (v : list (Time * Time)) (st : SecretManagerClient) : SecretManagerClient :=
  mkClient (workload st) (certRoot st) (configTrustBundle st) (fileCerts st) (watcher st) (retries_ st) v (notified st)
    (outputs st) (signed st) (calls st).

Inductive secret_step : SecretManagerClient -> SecretManagerClient -> Prop :=
  | ss_unlocked st r : secret_step st (fst (generate_unlocked r st))
  | ss_locked st r : secret_step st (fst (generate_locked r st))
  | ss_output st r i : secret_step st (fst (output_secret r i st))
  | ss_rotate st before created at_ after :
      rotations st = before ++ (created, at_) :: after ->
      secret_step st (fst (rotate created (set_rotations (before ++ after) st)))
  | ss_bundle st b : secret_step st (fst (UpdateConfigTrustBundle b st))
  | ss_file st e : secret_step st (fst (handle_file_event e st))
  | ss_watch st f r : (f, r) ∈ retries_ st -> secret_step st (fst (tryAddFileWatcher f r st)).

(** Every cached certificate has its rotation in the queue. *)
Definition rotation_scheduled (st : SecretManagerClient) : Prop :=
  forall c, workload st = Some c -> SecretItem.ResourceName c = WorkloadKeyCertResourceName /\
    exists n, SecretItem.CreatedTime c = Now w n /\ scheduled c n ∈ rotations st.

Lemma rotation_scheduled_core st st' :
  workload st' = workload st -> rotations st' = rotations st -> rotation_scheduled st -> rotation_scheduled st'.
Proof. intros H1 H2 H c. rewrite H1, H2. apply H. Qed.

Lemma frames_handle_file e : frames (handle_file_event e).
Proof.
  unfold handle_file_event. apply frames_if; [auto with frames|]. apply frames_bind; [auto with frames|]. intros res.
  apply frames_bind.
  - apply frames_if; [|auto with frames]. apply frames_write. intros st. by destruct (list_find _ _) as [[]|].
  - intros _. apply frames_write. intros st. generalize (elements res) as l. intros l. revert st.
    induction l as [|k l IH]; intros st; simpl; [done|]. rewrite IH. by destruct (String.eqb _ _).
Qed.

Lemma frames_unlocked r : frames (generate_unlocked r).
Proof.
  apply frames_bind; [apply frames_generateFileSecret|]. intros [[] ns]; auto with frames.
Qed.

Lemma frames_sched {A} (m : act A) st : frames m -> rotation_scheduled st -> rotation_scheduled (fst (m st)).
Proof. intros Hm. specialize (Hm st). unfold core in Hm. apply rotation_scheduled_core; congruence. Qed.

Lemma locked_sched r st : rotation_scheduled st -> rotation_scheduled (fst (generate_locked r st)).
Proof.
  intros Hok. destruct (getCachedSecret r st) as [i|] eqn:E; [by rewrite (generate_locked_cached r st i E)|].
  assert (Hw : workload st = None) by (unfold getCachedSecret in E; by destruct (workload st)).
  destruct (decide (r = RootCertReqResourceName)) as [->|Hr].
  - unfold generate_locked, mbind, smc_bind. simpl. rewrite E. pose proof (fetch_root_spec RootCertReqResourceName st) as Hs.
    destruct (fetch_root _ st) as [st1 a]. destruct Hs as (Hc & _). simpl. unfold core in Hc.
    eapply rotation_scheduled_core; [| |done]; congruence.
  - pose proof (generate_locked_new r st Hw Hr) as Hs. destruct (generate_locked r st) as [st1 [i| |]]; simpl.
    + destruct Hs as (_ & _ & _ & Hwl & (n & Ht & Hro) & _). intros c. rewrite Hwl. intros [= <-]. split; [done|].
      exists n. split; [done|]. rewrite Hro. by left.
    + destruct Hs as (_ & Hwl & _). intros c. by rewrite Hwl.
    + destruct Hs as (_ & Hwl & _). intros c. by rewrite Hwl.
Qed.

Lemma secret_step_sched st st' : secret_step st st' -> rotation_scheduled st -> rotation_scheduled st'.
Proof.
  intros Hst Hok. destruct Hst as [st r|st r|st r i|st before created at_ after Hr|st b|st e|st f r _].
  - by apply frames_sched; [apply frames_unlocked|].
  - by apply locked_sched.
  - unfold output_secret. destruct i; [destruct (_ && _)|]; simpl; by eapply rotation_scheduled_core.
  - unfold rotate, mbind, smc_bind. simpl. destruct (workload st) as [c|] eqn:Ew; simpl.
    + destruct (SecretItem.CreatedTime c =? created) eqn:E; simpl; [done|]. apply Z.eqb_neq in E.
      intros c'. simpl. rewrite Ew. intros [= <-]. destruct (Hok c Ew) as (Hn & n & Ht & Hin). split; [done|]. exists n. split; [done|].
      rewrite Hr in Hin. apply elem_of_app in Hin. apply elem_of_app. rewrite elem_of_cons in Hin.
      destruct Hin as [Hin|[[= Hx _]|Hin]]; [by left|done|by right].
    + intros c. simpl. by rewrite Ew.
  - unfold UpdateConfigTrustBundle, mbind, smc_bind. simpl. destruct (String.eqb _ _); simpl; [done|]. by eapply rotation_scheduled_core.
  - by apply frames_sched; [apply frames_handle_file|].
  - by apply frames_sched; [apply frames_tryAdd|].
Qed.

End manager.

(** ** Theorems *)

Definition lifetime (c : SecretItem) : Z := SecretItem.ExpireTime c - SecretItem.CreatedTime c.

Lemma rotation_delay_at (c : SecretItem) (now : Time) :
  0 < lifetime c < 2 ^ 61 -> - 2 ^ 62 <= now - SecretItem.CreatedTime c <= 2 ^ 62 ->
  let at_ := now + workloadSecretRotationDelay c now in
  at_ = Z.max now (SecretItem.CreatedTime c + 4 * lifetime c / 5) /\
  (now < SecretItem.ExpireTime c -> at_ < SecretItem.ExpireTime c).
Proof.
  unfold lifetime. intros Hl Hn. cbv zeta.
  assert (E : now + workloadSecretRotationDelay c now = Z.max now (SecretItem.CreatedTime c + 4 * (SecretItem.ExpireTime c - SecretItem.CreatedTime c) / 5)).
  { unfold workloadSecretRotationDelay, Sub, workloadSecretRotationRatio, workloadSecretRotationBase.
    assert (Hb : two63 = 2 ^ 63) by done. rewrite Hb. set (l := SecretItem.ExpireTime c - SecretItem.CreatedTime c) in *.
    replace (Z.max (- 2 ^ 63) (Z.min (2 ^ 63 - 1) l)) with l by lia. rewrite (proj2 (Z.leb_gt l 0)) by lia.
    rewrite wrap_s64_id by (unfold in_s64, two63; lia). rewrite Z.quot_div_nonneg by lia. rewrite (Z.mul_comm 4 l).
    pose proof (Z.div_pos (l * 4) 5 ltac:(lia) ltac:(lia)). pose proof (Z.div_lt (l * 4) 5) as Hq.
    assert (l * 4 / 5 <= l) by (apply Z.div_le_upper_bound; lia).
    set (q := l * 4 / 5) in *. replace (Z.max (- 2 ^ 63) (Z.min (2 ^ 63 - 1) (SecretItem.CreatedTime c + q - now)))
      with (SecretItem.CreatedTime c + q - now) by lia. destruct (Z.ltb_spec (SecretItem.CreatedTime c + q - now) 0); lia. }
  rewrite E. split; [done|]. intros Hx.
  assert (4 * (SecretItem.ExpireTime c - SecretItem.CreatedTime c) / 5 < SecretItem.ExpireTime c - SecretItem.CreatedTime c)
    by (apply Z.div_lt_upper_bound; lia). lia.
Qed.

(** The delay of a rotation, for lifetimes below [2^61] ns (73 years): the certificate is
    renewed at four fifths of its life, or at once if that has passed; so a certificate that
    is valid when it is registered is renewed before it expires. *)
Theorem rotation_delay_bounds (c : SecretItem) (now : Time) :
  0 < lifetime c < 2 ^ 61 -> - 2 ^ 62 <= now - SecretItem.CreatedTime c <= 2 ^ 62 ->
  let at_ := now + workloadSecretRotationDelay c now in
  at_ = Z.max now (SecretItem.CreatedTime c + 4 * lifetime c / 5) /\
  (now < SecretItem.ExpireTime c -> at_ < SecretItem.ExpireTime c).
Proof. apply rotation_delay_at. Qed.

Lemma rotation_delay_bounds_witness :
  let c := SecretItem.mk "chain" "key" "root" "default" 1000 101000 in
  2000 + workloadSecretRotationDelay c 2000 = 81000.
Proof.
  cbv zeta. destruct (rotation_delay_bounds (SecretItem.mk "chain" "key" "root" "default" 1000 101000) 2000) as [E _];
    [unfold lifetime; simpl; lia|simpl; lia|]. rewrite E. by vm_compute.
Defined.

(** A certificate that is valid for a hundred years is due for rotation at once: the product
    of its lifetime overflows. *)
Theorem long_lifetime_rotates_at_once :
  let hundred_years := 100 * 365 * 86400 * 1000000000 in
  workloadSecretRotationDelay (SecretItem.mk "chain" "key" "root" "default" unix_epoch (unix_epoch + hundred_years)) unix_epoch = 0.
Proof. by vm_compute. Qed.

(** C10 A certificate is never cached without the rotation that will replace it: whatever the
    order of requests, rotations, trust bundles and file events, the cached certificate was
    created at a reading of the clock and its rotation is in the queue.  If the lifetime of
    the certificate is positive and below 2^61 nanoseconds (73 years; the product with the
    ratio overflows beyond), and the clock does not go back nor jump more than 2^62
    nanoseconds between two readings, it is due at four fifths of the lifetime (or when
    it was registered, if that was later), so before the certificate expires if it was still
    valid then. *)
Theorem rotation_never_missing Decode {Cert} ParseCertificate NotAfter X509KeyPair w opts st c :
  rtc (secret_step Decode (Cert := Cert) ParseCertificate NotAfter X509KeyPair w opts) NewSecretManagerClient st ->
  workload st = Some c ->
  exists n at_, (SecretItem.CreatedTime c, at_) ∈ rotations st /\ SecretItem.CreatedTime c = Now w n /\
    (0 < lifetime c < 2 ^ 61 -> (forall n, 0 <= Now w (S n) - Now w n <= 2 ^ 62) ->
     at_ = Z.max (Now w (S n)) (SecretItem.CreatedTime c + 4 * lifetime c / 5) /\
     (Now w (S n) < SecretItem.ExpireTime c -> at_ < SecretItem.ExpireTime c)).
Proof.
  intros Hr Hw.
  assert (Hok : rotation_scheduled w st).
  { clear Hw. remember NewSecretManagerClient as st0 eqn:E0. assert (H0 : rotation_scheduled w st0) by (by subst). clear E0.
    induction Hr as [|st1 st2 st3 Hs _ IH]; [done|]. apply IH. by eapply secret_step_sched. }
  destruct (Hok c Hw) as (_ & n & Ht & Hin). exists n, (Now w (S n) + workloadSecretRotationDelay c (Now w (S n))).
  split; [done|]. split; [done|]. intros Hl Hclock. specialize (Hclock n). unfold lifetime in *.
  assert (Hb := rotation_delay_at c (Now w (S n))). cbv zeta in Hb. apply Hb; unfold lifetime; [done|]. rewrite Ht. lia.
Qed.

Definition demo_decode (s : string) : option (string * string) := if String.eqb s "" then None else Some (s, "").
Definition demo_world : world :=
  mkWorld (fun _ f => Err (mk_error Unknown "no such file")) (fun n => Z.of_nat n * 1000) (fun _ _ => Ok ("csr", "key"))
    (fun _ _ _ => Ok ["cert"]) (fun _ => Ok ["root"]) (fun _ _ => Ok tt) (fun f => Ok f) (fun _ => 0%nat).
Definition demo_options : Options := mkOptions "" 86400 "cluster.local" "ns" "sa" (mkSds "/certs/chain" "/certs/key" "/certs/root") "" true.
Definition demo_locked (r : string) (st : SecretManagerClient) : SecretManagerClient * res SecretItem :=
  generate_locked demo_decode (Cert := string) (@Ok string) (fun _ => 1000000) demo_world demo_options r st.

Lemma rotation_never_missing_witness :
  exists at_, (3000, at_) ∈ rotations (fst (demo_locked "default" NewSecretManagerClient)) /\ at_ < 1000000.
Proof.
  destruct (rotation_never_missing demo_decode (Cert := string) (@Ok string) (fun _ => 1000000) (fun _ _ => Ok tt) demo_world demo_options
    (fst (demo_locked "default" NewSecretManagerClient)) (SecretItem.mk "cert" "key" "root" "default" 3000 1000000)) as (n & at_ & H1 & H2 & H3).
  - apply rtc_once. apply ss_locked.
  - by vm_compute.
  - exists at_. split; [exact H1|]. destruct H3 as [_ H4]; [unfold lifetime; simpl; lia|intros k; simpl; lia|].
    apply H4. simpl in H2 |- *. lia.
Defined.

Lemma output_secret_spec opts r i st : exists st', output_secret opts r i st = (st', Ok tt) /\
  workload st' = workload st /\ signed st' = signed st /\ rotations st' = rotations st /\ certRoot st' = certRoot st /\ notified st' = notified st.
Proof. unfold output_secret. destruct i; [destruct (_ && _)|]; eexists; (split; [reflexivity|]); done. Qed.

Lemma merge_same_bundle Decode x st st' :
  configTrustBundle st = configTrustBundle st' -> mergeTrustAnchorBytes Decode x st = mergeTrustAnchorBytes Decode x st'.
Proof. intros E. unfold mergeTrustAnchorBytes, mergeConfigTrustBundle. by rewrite E. Qed.

Lemma GenerateSecret_spec Decode {Cert} ParseCertificate NotAfter X509KeyPair w opts r st st1 :
  generateFileSecret Decode (Cert := Cert) ParseCertificate NotAfter X509KeyPair w opts r st = (st1, Ok (false, None)) ->
  let '(st', a) := GenerateSecret Decode ParseCertificate NotAfter X509KeyPair w opts r st in
  match workload st with
  | Some c =>
      workload st' = Some c /\ signed st' = signed st /\ rotations st' = rotations st /\
      a = Ok (Some (if String.eqb r RootCertReqResourceName
                    then SecretItem.mk "" "" (mergeTrustAnchorBytes Decode (SecretItem.RootCert c) st) r zero_time zero_time
                    else SecretItem.mk (SecretItem.CertificateChain c) (SecretItem.PrivateKey c) "" r (SecretItem.CreatedTime c)
                           (SecretItem.ExpireTime c)))
  | None =>
      if String.eqb r RootCertReqResourceName then
        workload st' = None /\ signed st' = signed st /\
        forall i, a = Ok i -> exists bundle, GetRootCertBundle w (calls st1) = Ok bundle /\
          i = Some (SecretItem.mk "" "" (mergeTrustAnchorBytes Decode (concatCerts bundle) st) r zero_time zero_time)
      else match a with
           | Ok (Some i) => SecretItem.ResourceName i = r /\ signed st' = S (signed st) /\ workload st' = Some (as_workload i) /\
                            (exists n, SecretItem.CreatedTime i = Now w n /\ rotations st' = scheduled w (as_workload i) n :: rotations st) /\
                            certRoot st' = SecretItem.RootCert i /\
                            (certRoot st1 <> SecretItem.RootCert i -> RootCertReqResourceName ∈ notified st')
           | Ok None => False
           | _ => workload st' = None /\ rotations st' = rotations st
           end
  end.
Proof.
  intros Hf. pose proof (frames_generateFileSecret Decode ParseCertificate NotAfter X509KeyPair w opts r st) as Hc. rewrite Hf in Hc.
  injection Hc as Hw Hro Hs Hb. unfold GenerateSecret, generate_unlocked, mbind, smc_bind, mret, smc_ret. rewrite Hf. cbn [read].
  unfold getCachedSecret at 1. rewrite Hw. destruct (workload st) as [c|] eqn:Ew; cbn [fmap option_fmap option_map].
  - match goal with |- context [output_secret opts r (Some ?x) st1] => set (i := x) end.
    destruct (output_secret_spec opts r (Some i) st1) as (st' & -> & H1 & H2 & H3 & _ & _). split_and!; [congruence..|]. do 2 f_equal.
    unfold i. destruct (String.eqb r RootCertReqResourceName); [|done]. f_equal. by apply merge_same_bundle.
  - destruct (String.eqb r RootCertReqResourceName) eqn:Er.
    + apply String.eqb_eq in Er. assert (Eg : generate_locked Decode ParseCertificate NotAfter w opts r st1 = fetch_root Decode w opts r st1).
      { unfold generate_locked, mbind, smc_bind, getCachedSecret. cbn [read]. by rewrite Hw, Er, String.eqb_refl. }
      rewrite Eg. pose proof (fetch_root_spec Decode w opts r st1) as Hr. destruct (fetch_root Decode w opts r st1) as [st2 a].
      destruct Hr as (Hc & _ & _ & Ha). injection Hc as Hc1 Hc2 Hc3 Hc4. destruct a as [i|e|why]; [|split_and!; [congruence..|done]..].
      destruct (output_secret_spec opts r (Some i) st2) as (st' & -> & H1 & H2 & H3 & _ & _). split_and!; [congruence..|].
      intros i' [= <-]. destruct Ha as (bundle & Hg & ->). exists bundle. split; [done|]. do 2 f_equal. by apply merge_same_bundle.
    + apply String.eqb_neq in Er. pose proof (generate_locked_new Decode ParseCertificate NotAfter w opts r st1 Hw Er) as Hl.
      destruct (generate_locked Decode ParseCertificate NotAfter w opts r st1) as [st2 [i|e|why]].
      2,3: destruct Hl as (_ & ? & ? & _); by split; [|congruence].
      destruct Hl as (_ & L1 & L2 & L3 & (n & L4 & L5) & L6 & L7).
      destruct (output_secret_spec opts r (Some i) st2) as (st' & -> & H1 & H2 & H3 & H4 & H5).
      split_and!; [done|congruence|congruence|exists n; split; congruence|congruence|]. intros Hne. rewrite H5, L7.
      rewrite (proj2 (String.eqb_neq _ _) Hne). set_solver.
Qed.

(** What a proxy is given when no file holds its secret.  With a certificate in the cache
    it is that one (or the merged trust anchors), and the certificate authority is not asked;
    without one, a new certificate is signed, cached and scheduled for rotation, and the proxies
    are told of a root that changed; an error leaves the cache empty, and is returned. *)
Theorem secret_served Decode {Cert} ParseCertificate NotAfter X509KeyPair w opts r st st1 :
  generateFileSecret Decode (Cert := Cert) ParseCertificate NotAfter X509KeyPair w opts r st = (st1, Ok (false, None)) ->
  let '(st', a) := GenerateSecret Decode ParseCertificate NotAfter X509KeyPair w opts r st in
  match workload st with
  | Some c =>
      workload st' = Some c /\ signed st' = signed st /\ rotations st' = rotations st /\
      a = Ok (Some (if String.eqb r RootCertReqResourceName
                    then SecretItem.mk "" "" (mergeTrustAnchorBytes Decode (SecretItem.RootCert c) st) r zero_time zero_time
                    else SecretItem.mk (SecretItem.CertificateChain c) (SecretItem.PrivateKey c) "" r (SecretItem.CreatedTime c)
                           (SecretItem.ExpireTime c)))
  | None =>
      if String.eqb r RootCertReqResourceName then
        workload st' = None /\ signed st' = signed st /\
        forall i, a = Ok i -> exists bundle, GetRootCertBundle w (calls st1) = Ok bundle /\
          i = Some (SecretItem.mk "" "" (mergeTrustAnchorBytes Decode (concatCerts bundle) st) r zero_time zero_time)
      else match a with
           | Ok (Some i) => SecretItem.ResourceName i = r /\ signed st' = S (signed st) /\ workload st' = Some (as_workload i) /\
                            (exists n, SecretItem.CreatedTime i = Now w n /\ rotations st' = scheduled w (as_workload i) n :: rotations st) /\
                            certRoot st' = SecretItem.RootCert i /\
                            (certRoot st1 <> SecretItem.RootCert i -> RootCertReqResourceName ∈ notified st')
           | Ok None => False
           | _ => workload st' = None /\ rotations st' = rotations st
           end
  end.
Proof. apply GenerateSecret_spec. Qed.

Lemma secret_served_witness :
  let '(st', a) := GenerateSecret demo_decode (Cert := string) (@Ok string) (fun _ => 1000000) (fun _ _ => Ok tt) demo_world demo_options "default"
                     NewSecretManagerClient in
  match a with Ok (Some i) => SecretItem.PrivateKey i = "key" /\ signed st' = 1%nat /\ workload st' = Some (as_workload i) | _ => False end.
Proof.
  pose proof (secret_served demo_decode (Cert := string) (@Ok string) (fun _ => 1000000) (fun _ _ => Ok tt) demo_world demo_options "default"
    NewSecretManagerClient (fst (generateFileSecret demo_decode (Cert := string) (@Ok string) (fun _ => 1000000) (fun _ _ => Ok tt)
       demo_world demo_options "default" NewSecretManagerClient))) as H.
  assert (E : generateFileSecret demo_decode (Cert := string) (@Ok string) (fun _ => 1000000) (fun _ _ => Ok tt)
       demo_world demo_options "default" NewSecretManagerClient
     = (fst (generateFileSecret demo_decode (Cert := string) (@Ok string) (fun _ => 1000000) (fun _ _ => Ok tt)
       demo_world demo_options "default" NewSecretManagerClient), Ok (false, None))) by (by vm_compute).
  specialize (H E). destruct (GenerateSecret _ _ _ _ _ _ _ _) as [st' a] eqn:Eg. vm_compute in Eg. injection Eg as <- <-.
  simpl in H. destruct H as (_ & Hs & Hw & _). split_and!; [done|exact Hs|exact Hw].
Defined.

(** *** Trust anchors *)

(** What is documented of [pem.Decode]: it returns the next block and the text after its
    last line. *)
Record pem_documented (Decode : string -> option (string * string)) (pem : string -> Prop) : Prop := {
  pd_none : Decode "" = None /\ Decode newline = None;
  pd_block : forall c, pem c -> exists b, b <> "" /\ Decode c = Some (b, "") /\ forall rest, Decode (c +:+ newline +:+ rest) = Some (b, rest);
  pd_text : forall c, pem c -> c <> "" /\ HasPrefix c newline = false /\ host.HasSuffix c newline = false
}.

(** The text of a bundle, with or without a last newline *)
Definition bundle_text (certs : list string) (text : string) : Prop :=
  text = str_join certs newline \/ text = str_join certs newline +:+ newline.

Section anchors.
Context (Decode : string -> option (string * string)) (pem : string -> Prop) (Hd : pem_documented Decode pem).

Lemma HasSuffix_app a b : host.HasSuffix (a +:+ b) b = true.
Proof. apply HasSuffix_spec. by exists a. Qed.

Lemma TrimSuffix_app a b : TrimSuffix (a +:+ b) b = a.
Proof.
  unfold TrimSuffix. rewrite HasSuffix_app, str_length_app. replace (String.length a + String.length b - String.length b)%nat with (String.length a) by lia.
  apply str_take_app.
Qed.

Lemma trim_block c : pem c -> trim_newlines c = c /\ trim_newlines (c +:+ newline) = c.
Proof.
  intros Hc. destruct (pd_text _ _ Hd c Hc) as (_ & Hp & Hs). unfold trim_newlines. rewrite TrimSuffix_app.
  unfold TrimSuffix at 1. rewrite Hs. unfold TrimPrefix. by rewrite Hp.
Qed.

Lemma str_join_cons c d l : str_join (c :: d :: l) newline = c +:+ newline +:+ str_join (d :: l) newline.
Proof. done. Qed.

Lemma str_join_nonempty d l : pem d -> (String.length (str_join (d :: l) newline) =? 0)%nat = false.
Proof.
  intros Hp. apply Nat.eqb_neq. destruct (pd_text _ _ Hd d Hp) as (Hne & _). destruct d as [|x d]; [done|].
  destruct l; [simpl; lia|]. rewrite str_join_cons, str_length_app. simpl. lia.
Qed.

Lemma pem_certs_join certs text fuel :
  Forall pem certs -> bundle_text certs text -> (String.length text < fuel)%nat -> pem_certs Decode fuel text = certs.
Proof.
  intros Hp. revert text fuel. induction Hp as [|c certs Hc Hcs IH]; intros text fuel Ht Hf; (destruct fuel as [|fuel]; [lia|]); cbn [pem_certs].
  { destruct Ht as [-> | ->]; simpl str_join; cbn [String.append]; destruct (pd_none _ _ Hd) as [E1 E2]; [by rewrite E1|by rewrite E2]. }
  destruct (pd_block _ _ Hd c Hc) as (b & Hb & Hl & Hm). assert (Hb0 : (String.length b =? 0)%nat = false) by (by destruct b).
  destruct (trim_block c Hc) as [Ht1 Ht2]. destruct certs as [|d certs].
  - assert (Hx : exists t, text = t /\ Decode t = Some (b, "") /\ trim_newlines t = c).
    { destruct Ht as [-> | ->]; simpl; eexists; (split; [reflexivity|]); [done|]. specialize (Hm ""). rewrite str_app_nil_r in Hm. done. }
    destruct Hx as (t & -> & -> & Htr). rewrite Hb0. simpl. by rewrite Htr.
  - assert (Hx : exists rest, text = c +:+ newline +:+ rest /\ bundle_text (d :: certs) rest).
    { destruct Ht as [-> | ->]; rewrite str_join_cons; eexists; [split; [reflexivity|by left]|]. rewrite !str_app_assoc. split; [reflexivity|by right]. }
    destruct Hx as (rest & -> & Hr). rewrite Hm, Hb0.
    assert (Hr0 : (String.length rest =? 0)%nat = false).
    { inversion Hcs as [|? ? Hdp _]. pose proof (str_join_nonempty d certs Hdp) as Hn. apply Nat.eqb_neq in Hn. apply Nat.eqb_neq.
      destruct Hr as [-> | ->]; rewrite ?str_length_app; lia. }
    rewrite Hr0. rewrite <-str_app_assoc, str_length_app.
    replace (String.length (c +:+ newline) + String.length rest - String.length rest)%nat with (String.length (c +:+ newline)) by lia.
    rewrite str_take_app, Ht2. f_equal. apply IH; [done|]. rewrite !str_length_app in Hf.
    assert (String.length newline = 1%nat) by done. lia.
Qed.

Lemma HasSuffix_join c l : Forall pem (c :: l) -> host.HasSuffix (str_join (c :: l) newline) newline = false.
Proof.
  revert c. induction l as [|d l IH]; intros c Hp; inversion Hp as [|? ? Hc Hl]; subst.
  { by destruct (pd_text _ _ Hd c Hc) as (_ & _ & ?). }
  specialize (IH d Hl). rewrite str_join_cons. destruct (host.HasSuffix (c +:+ newline +:+ str_join (d :: l) newline) newline) eqn:E; [|done].
  assert (Hn : (String.length (str_join (d :: l) newline) =? 0)%nat = false) by (apply str_join_nonempty; by inversion Hl).
  apply Nat.eqb_neq in Hn. enough (Hx : host.HasSuffix (str_join (d :: l) newline) newline = true) by congruence.
  apply (HasSuffix_chain _ _ _ (HasSuffix_app (c +:+ newline) _)); [by rewrite str_app_assoc|].
  assert (String.length newline = 1%nat) by done. lia.
Qed.

Lemma str_join_snoc c l d : str_join ((c :: l) ++ [d]) newline = str_join (c :: l) newline +:+ newline +:+ d.
Proof.
  revert c. induction l as [|x l IH]; intros c; [done|]. cbn [app]. rewrite !str_join_cons. cbn [app] in IH. rewrite IH. by rewrite !str_app_assoc.
Qed.

Lemma append_certs c l certs :
  Forall pem (c :: l ++ certs) -> fold_left AppendCertByte certs (str_join (c :: l) newline) = str_join (c :: l ++ certs) newline.
Proof.
  revert l. induction certs as [|d certs IH]; intros l Hp; [by rewrite app_nil_r|]. cbn [fold_left].
  assert (Hcl : Forall pem (c :: l)) by (inversion Hp as [|? ? ? Hx]; subst; rewrite Forall_app in Hx; constructor; [done|apply Hx]).
  assert (E : AppendCertByte (str_join (c :: l) newline) d = str_join (c :: l ++ [d]) newline).
  { unfold AppendCertByte. pose proof (str_join_nonempty c l ltac:(by inversion Hcl)) as Hn. apply Nat.eqb_neq in Hn.
    rewrite (proj2 (Nat.ltb_lt 0 _)) by lia. unfold TrimSuffix. rewrite (HasSuffix_join c l Hcl). rewrite str_app_assoc. symmetry. apply (str_join_snoc c l d). }
  rewrite E, IH by (by rewrite <-app_assoc). by rewrite <-app_assoc.
Qed.

Lemma append_all certs : Forall pem certs -> fold_left AppendCertByte certs "" = str_join certs newline.
Proof. destruct certs as [|c certs]; [done|]. intros Hp. cbn [fold_left]. apply (append_certs c []). exact Hp. Qed.

End anchors.

(** The trust anchors a proxy gets: read back, the merged bundle is exactly the certificates
    of the configured bundle and of the root, each one once, in order. *)
Theorem trust_anchors_roundtrip (Decode : string -> option (string * string)) pem (configured roots : list string) root st :
  pem_documented Decode pem -> Forall pem configured -> Forall pem roots ->
  bundle_text configured (configTrustBundle st) -> bundle_text roots root ->
  PemCertBytestoString Decode (mergeTrustAnchorBytes Decode root st)
  = sort_strings (elements (list_to_set configured ∪ list_to_set roots : gset string)).
Proof.
  intros Hd Hc Hr Hbc Hbr. unfold mergeTrustAnchorBytes, mergeConfigTrustBundle.
  unfold PemCertBytestoString. rewrite (pem_certs_join Decode pem Hd configured (configTrustBundle st)) by (done || lia).
  rewrite (pem_certs_join Decode pem Hd roots root) by (done || lia).
  set (anchors := sort_strings _). assert (Hp : Forall pem anchors).
  { apply Forall_forall. intros c Hin. unfold anchors, sort_strings in Hin. rewrite elem_of_sort, elem_of_elements in Hin.
    rewrite Forall_forall in Hc, Hr. set_solver. }
  rewrite (append_all Decode pem Hd anchors Hp). apply (pem_certs_join Decode pem Hd); [done|by left|lia].
Qed.

(** A decoder of blocks that are one character each *)
Definition demo_pem (c : string) : Prop := c = "A" \/ c = "B".
Definition demo_blocks (s : string) : option (string * string) :=
  match s with
  | String "A" (String _ rest) => Some ("A", rest)
  | String "B" (String _ rest) => Some ("B", rest)
  | String "A" EmptyString => Some ("A", "")
  | String "B" EmptyString => Some ("B", "")
  | _ => None
  end.

Lemma trust_anchors_roundtrip_witness :
  PemCertBytestoString demo_blocks (mergeTrustAnchorBytes demo_blocks ("B" +:+ newline +:+ "A") (set_bundle "A" NewSecretManagerClient)) = ["A"; "B"].
Proof.
  rewrite (trust_anchors_roundtrip demo_blocks demo_pem ["A"] ["B"; "A"]); [by vm_compute| | | |by left|by left].
  - split; [done| |].
    + intros c [-> | ->]; [exists "A"|exists "B"]; done.
    + intros c [-> | ->]; done.
  - repeat constructor.
  - constructor; [by right|]. constructor; [by left|done].
Defined.

(** *** Findings *)

(** A file that could not be watched is never watched: the entry was made before, so that
    the retry finds it and reports success. *)
Theorem failed_watch_never_retried w f r file st st1 e :
  Abs w f = Ok file -> tryAddFileWatcher w f r st = (st1, Err e) ->
  watcher st1 = watcher st /\ forall w', Abs w' f = Ok file -> tryAddFileWatcher w' f r st1 = (st1, Ok tt).
Proof.
  intros Ha. unfold tryAddFileWatcher, mbind, smc_bind, lift. rewrite Ha. simpl.
  destruct (bool_decide (mkFileCert r file ∈ fileCerts st)) eqn:E; [done|]. simpl.
  destruct (WatchFile w (calls st) file) as [[]|e'|why]; simpl; intros [= <- _]. split; [done|]. intros w' ->. simpl.
  rewrite bool_decide_eq_true_2 by set_solver. done.
Qed.

(** Two resources come from one file: when it is removed only one of them is forgotten, so
    that the other one does not ask for a watch of the file that replaces it. *)
Theorem removed_file_forgotten_once :
  let files : gset FileCert := {[mkFileCert "file-cert:/c~/k" "/c"; mkFileCert "file-cert:/c~/k2" "/c"]} in
  size (fileCerts (fst (handle_file_event (mkEvent "/c" false false true) (set_files files NewSecretManagerClient)))) = 1%nat.
Proof. by vm_compute. Qed.
