(* ===== verification/SdsService.v ===== *)
(** * The secret discovery service of the node agent

    [security/pkg/nodeagent/sds/sdsservice.go]: proxies ask for secrets by name, over the
    state-of-the-world protocol ([StreamSecrets]), the incremental one ([DeltaSecrets]) or
    one request ([FetchSecrets]); a secret that was rotated is sent again to the streams
    that watch it.

    The secret manager is an interface ([SecretManager]); the secret cache implements it.
    The watch of a stream implements [Watcher], with one watch whatever the type.  The
    encoding of a secret as [anypb.Any] is a parameter. *)

From S2P Require Import Prelude GoStrings Hosts GoNet GoSets GoSort ConfigKeys PushRequest Spiffe Watch XdsProtocol Delta SecretCache.

(** ** The watch of a stream *)

Record Watch : Type := mkWatch { watch : option WatchedResource }.

Module SdsWatch.
Definition requested (w : Watch) (secretName : string) : bool :=
  match watch w with Some r => GoSet.Contains (ResourceNames r) secretName | None => false end.
Definition NewWatchedResource (w : Watch) (typeURL : string) (names : list string) : res Watch :=
  Ok (mkWatch (Some (new_watch typeURL (GoSet.New names)))).
Definition GetWatchedResource (w : Watch) (_ : string) : option WatchedResource := watch w.
Definition UpdateWatchedResource {A} (w : Watch) (_ : string)
    (f : option WatchedResource -> res (option WatchedResource * A)) : res (Watch * A) :=
  '(r, a) ← f (watch w); Ok (mkWatch r, a).
Definition DeleteWatchedResource (w : Watch) (_ : string) : Watch := mkWatch None.
End SdsWatch.

#[global] Instance sds_watcher : Watcher Watch := {
  GetWatchedResource := SdsWatch.GetWatchedResource;
  DeleteWatchedResource := SdsWatch.DeleteWatchedResource;
  NewWatchedResource := SdsWatch.NewWatchedResource;
  UpdateWatchedResource := @SdsWatch.UpdateWatchedResource
}.

(** ** Secrets on the wire *)

(** [tlsv1.Secret], with the type of its [oneof] *)
Inductive secret_type : Type :=
  | ValidationContext (trustedCa : string)
  | TlsCertificate (certificateChain privateKey : string).
Record Secret : Type := mkSecret { Secret_Name : string; Secret_Type : secret_type }.

Definition is_root_name (name : string) : bool :=
  String.eqb name RootCertReqResourceName ||
  match SdsCertificateConfigFromResourceName name with Some cfg => IsRootCertificate cfg | None => false end.

Definition toXdsSecret (item : SecretItem) (requestedName : string) : Secret :=
  let name := if String.eqb (SecretItem.ResourceName item) "" then requestedName else SecretItem.ResourceName item in
  if String.eqb name RootCertReqResourceName then mkSecret name (ValidationContext (SecretItem.RootCert item))
  else match SdsCertificateConfigFromResourceName name with
       | Some cfg =>
           if IsRootCertificate cfg then mkSecret name (ValidationContext (SecretItem.RootCert item))
           else mkSecret name (TlsCertificate (SecretItem.CertificateChain item) (SecretItem.PrivateKey item))
       | None => mkSecret name (TlsCertificate (SecretItem.CertificateChain item) (SecretItem.PrivateKey item))
       end.

(** [security.SecretManager] *)
Class SecretManager (S : Type) : Type := GenerateSecretOf : string -> S -> S * res (option SecretItem).

Record SdsResponse : Type := mkSdsResponse { sds_VersionInfo : string; sds_Resources : list Any; sds_Nonce : string }.
Record DeltaSdsResponse : Type := mkDeltaSds {
  ds_SystemVersionInfo : string; ds_TypeUrl : string; ds_Resources : list (string * Any); ds_Removed : list string; ds_Nonce : string
}.

Section service.
Context {S : Type} `{SecretManager S} (marshal : Secret -> res Any).

(** A stream, with the secret manager and the counters of the process: the responses that
    were sent, the last one last. *)
Record stream : Type := mkStream {
  st : S; versionNumber : Z; deltaNonceNumber : Z; s_watch : Watch;
  sent : list SdsResponse; sent_delta : list DeltaSdsResponse
}.
Definition with_manager (c : stream) (m : S) : stream := mkStream m (versionNumber c) (deltaNonceNumber c) (s_watch c) (sent c) (sent_delta c).
Definition with_watch (c : stream) (w : Watch) : stream := mkStream (st c) (versionNumber c) (deltaNonceNumber c) w (sent c) (sent_delta c).

(** The loop of [generate] *)
Fixpoint generate_all (m : S) (resourceNames : list string) (acc : list Any) : S * res (list Any) :=
  match resourceNames with
  | [] => (m, Ok acc)
  | resourceName :: rest =>
      match GenerateSecretOf resourceName m with
      | (m, Err e) => (m, Err (mk_error Unknown ("failed to generate secret for " +:+ resourceName +:+ ": " +:+ err_msg e)))
      | (m, Panic why) => (m, Panic why)
      | (m, Ok None) => (m, Err (mk_error Unknown ("failed to generate secret for " +:+ resourceName +:+ ": secret is nil")))
      | (m, Ok (Some secret)) =>
          match marshal (toXdsSecret secret resourceName) with
          | Err e => (m, Err (mk_error Unknown ("failed to marshal secret for " +:+ resourceName +:+ ": " +:+ err_msg e)))
          | Panic why => (m, Panic why)
          | Ok a => generate_all m rest (acc ++ [a])
          end
      end
  end.

Definition generate (c : stream) (resourceNames : list string) : stream * res SdsResponse :=
  match generate_all (st c) resourceNames [] with
  | (m, Ok resources) =>
      let n := versionNumber c + 1 in
      (mkStream m n (deltaNonceNumber c) (s_watch c) (sent c) (sent_delta c), Ok (mkSdsResponse (Itoa n) resources (Itoa n)))
  | (m, Err e) => (with_manager c m, Err e)
  | (m, Panic why) => (with_manager c m, Panic why)
  end.

Definition FetchSecrets (c : stream) (discReq : option DiscoveryRequest) : stream * res SdsResponse :=
  match discReq with
  | None => (c, Err (mk_error InvalidArgument "missing discovery request"))
  | Some r => generate c (req_ResourceNames r)
  end.

(** [xds.Send], when the stream accepts the response or fails *)
Definition Send (c : stream) (r : SdsResponse) (now : Time) (accepts : res unit) : stream * res unit :=
  match accepts with
  | Ok _ =>
      match Send_update now (s_watch c) SecretType (sds_Nonce r) with
      | Ok w => (mkStream (st c) (versionNumber c) (deltaNonceNumber c) w (sent c ++ [r]) (sent_delta c), Ok tt)
      | Err e => (c, Err e)
      | Panic why => (c, Panic why)
      end
  | Err e => (c, Err e)
  | Panic why => (c, Panic why)
  end.

Definition Process (c : stream) (req : DiscoveryRequest) (now : Time) (accepts : res unit) : stream * res unit :=
  match ShouldRespond (s_watch c) req with
  | Panic why => (c, Panic why)
  | Err e => (c, Err e)
  | Ok (w, (shouldRespond, delta)) =>
      let c := with_watch c w in
      if negb shouldRespond then (c, Ok tt) else
      let resources := if ResourceDelta_IsEmpty delta then req_ResourceNames req else GoSet.UnsortedList (Subscribed delta) in
      match generate c resources with
      | (c, Ok r) => Send c r now accepts
      | (c, Err e) => (c, Err e)
      | (c, Panic why) => (c, Panic why)
      end
  end.

Definition Push (c : stream) (secretName : string) (now : Time) (accepts : res unit) : stream * res unit :=
  if negb (SdsWatch.requested (s_watch c) secretName) then (c, Ok tt) else
  match generate c [secretName] with
  | (c, Ok r) => Send c r now accepts
  | (c, Err e) => (c, Err e)
  | (c, Panic why) => (c, Panic why)
  end.

(** ** The incremental protocol *)

Definition deltaWatchedSecrets (existing : nset string) (req : DeltaDiscoveryRequest) : res (nset string * bool) :=
  let out := match existing with Some _ => GoSet.Copy existing | None => GoSet.New [] end in
  let before := GoSet.Copy out in
  out ← GoSet.InsertAll out (ResourceNamesSubscribe req);
  out ← GoSet.InsertAll out (map_to_list (InitialResourceVersions req)).*1;
  let out := GoSet.DeleteAll out (ResourceNamesUnsubscribe req) in
  mret (out, negb (GoSet.Equals out before)).

Definition shouldRespondDelta (w : Watch) (req : DeltaDiscoveryRequest) : res (Watch * (bool * ResourceDelta)) :=
  let url := d_TypeUrl req in
  let or_new (wr : option WatchedResource) := match wr with Some wr => wr | None => new_watch url None end in
  match d_ErrorDetail req with
  | Some msg => w ← UpdateWatch w url (fun wr => Ok (Some (set_LastError msg (or_new wr)))); Ok (w, (false, emptyResourceDelta))
  | None =>
  match GetWatchedResource w url with
  | None =>
      '(names, _) ← deltaWatchedSecrets None req;
      w ← NewWatchedResource w url (GoSet.UnsortedList names);
      Ok (w, (true, mkDelta names (GoSet.New (ResourceNamesUnsubscribe req))))
  | Some previous =>
      if negb (String.eqb (d_ResponseNonce req) "") && negb (String.eqb (d_ResponseNonce req) (NonceSent previous))
      then Ok (w, (false, emptyResourceDelta)) else
      '(w, (subChanged, alwaysRespond, sub)) ←
        UpdateWatchedResource (A := bool * bool * nset string) w url (fun wr =>
          let wr := or_new wr in
          let before := ResourceNames wr in
          '(names, subChanged) ← deltaWatchedSecrets before req;
          let wr := set_ResourceNames names wr in
          let wr := if String.eqb (d_ResponseNonce req) "" then wr else set_NonceAcked (d_ResponseNonce req) (set_LastError "" wr) in
          Ok (Some (set_AlwaysRespond false wr), (subChanged, AlwaysRespond wr, GoSet.Difference names before)));
      if negb subChanged then
        if alwaysRespond : bool then Ok (w, (true, emptyResourceDelta)) else Ok (w, (false, emptyResourceDelta))
      else Ok (w, (true, mkDelta sub (GoSet.New (ResourceNamesUnsubscribe req))))
  end
  end.

Definition deltaResourceNames (w : Watch) (typeURL : string) (delta : ResourceDelta) : list string :=
  if (0 <? nset_len (Subscribed delta))%nat then GoSet.UnsortedList (Subscribed delta)
  else if (0 <? nset_len (Unsubscribed delta))%nat then []
  else match GetWatchedResource w typeURL with
       | Some wr => match ResourceNames wr with Some _ => GoSet.UnsortedList (ResourceNames wr) | None => [] end
       | None => []
       end.

(** The resources of a delta response are named by position. *)
Fixpoint name_resources (names : list string) (resources : list Any) : list (string * Any) :=
  match resources with
  | [] => []
  | a :: resources => (match names with n :: _ => n | [] => "" end, a) :: name_resources (tail names) resources
  end.

Definition sendDelta (c : stream) (typeURL : string) (resourceNames removed : list string) (now : Time) (accepts : res unit)
    : stream * res unit :=
  match generate c resourceNames with
  | (c, Err e) => (c, Err e)
  | (c, Panic why) => (c, Panic why)
  | (c, Ok r) =>
      let n := deltaNonceNumber c + 1 in
      let c := mkStream (st c) (versionNumber c) n (s_watch c) (sent c) (sent_delta c) in
      let resp := mkDeltaSds (if String.eqb (sds_VersionInfo r) "" then Itoa n else sds_VersionInfo r) SecretType
                    (name_resources resourceNames (sds_Resources r)) removed (Itoa n) in
      match accepts with
      | Err e => (c, Err e)
      | Panic why => (c, Panic why)
      | Ok _ =>
          match UpdateWatch (s_watch c) SecretType (fun wr =>
                  let wr := match wr with Some wr => wr | None => new_watch SecretType None end in
                  Ok (Some (set_LastSendTime now (set_NonceSent (Itoa n) wr)))) with
          | Ok w => (mkStream (st c) (versionNumber c) n w (sent c) (sent_delta c ++ [resp]), Ok tt)
          | Err e => (c, Err e)
          | Panic why => (c, Panic why)
          end
      end
  end.

(** One request, and one push, of the loop of [DeltaSecrets] *)
Definition process_delta (c : stream) (req : DeltaDiscoveryRequest) (now : Time) (accepts : res unit) : stream * res unit :=
  match shouldRespondDelta (s_watch c) req with
  | Panic why => (c, Panic why)
  | Err e => (c, Err e)
  | Ok (w, (shouldRespond, delta)) =>
      let c := with_watch c w in
      if negb shouldRespond then (c, Ok tt) else
      sendDelta c (d_TypeUrl req) (deltaResourceNames w (d_TypeUrl req) delta) (GoSet.UnsortedList (Unsubscribed delta)) now accepts
  end.
Definition push_delta (c : stream) (secretName : string) (now : Time) (accepts : res unit) : stream * res unit :=
  if negb (SdsWatch.requested (s_watch c) secretName) then (c, Ok tt)
  else sendDelta c SecretType [secretName] [] now accepts.

End service.

(** ** The watch of a stream is a proxy with one type *)

Definition as_proxy (u : string) (w : Watch) : nmap string WatchedResource :=
  Some (match watch w with Some r => {[u := r]} | None => ∅ end).
Definition as_proxies {A} (u : string) (r : res (Watch * A)) : res (nmap string WatchedResource * A) :=
  match r with Ok (w, a) => Ok (as_proxy u w, a) | Err e => Err e | Panic why => Panic why end.

Lemma as_proxy_get u w : GetWatchedResource (as_proxy u w) u = GetWatchedResource w u.
Proof.
  cbn. unfold ProxyWatch.GetWatchedResource, as_proxy, SdsWatch.GetWatchedResource. simpl. destruct (watch w); simpl; [by rewrite lookup_singleton_eq|by rewrite lookup_empty].
Qed.

Lemma as_proxy_delete u w : DeleteWatchedResource (as_proxy u w) u = as_proxy u (DeleteWatchedResource w u).
Proof.
  cbn. unfold ProxyWatch.DeleteWatchedResource, as_proxy. simpl. f_equal. destruct (watch w); [by rewrite delete_singleton_eq|by rewrite delete_empty].
Qed.

Lemma as_proxy_write u w r : ProxyWatch.write (as_proxy u w) u r = Ok (as_proxy u (mkWatch (Some r))).
Proof.
  unfold ProxyWatch.write, as_proxy. simpl. do 2 f_equal. destruct (watch w); [by rewrite insert_singleton_eq|by rewrite insert_empty].
Qed.

Lemma as_proxy_new u w names : NewWatchedResource (as_proxy u w) u names = (as_proxy u <$> NewWatchedResource w u names).
Proof. exact (as_proxy_write u w (new_watch u (GoSet.New names))). Qed.

Lemma as_proxy_update {A} u w (f : option WatchedResource -> res (option WatchedResource * A)) :
  UpdateWatchedResource (as_proxy u w) u f = as_proxies u (UpdateWatchedResource w u f).
Proof.
  unfold UpdateWatchedResource, proxy_watcher, sds_watcher, ProxyWatch.UpdateWatchedResource, SdsWatch.UpdateWatchedResource.
  assert (E : nmap_get (as_proxy u w) !! u = watch w) by exact (as_proxy_get u w). rewrite E.
  destruct (f (watch w)) as [[[r|] a]| |]; cbn [mbind res_bind]; [by rewrite as_proxy_write| |done|done].
  exact (f_equal (fun p => Ok (p, a)) (as_proxy_delete u w)).
Qed.

Lemma as_proxy_UpdateWatch u w f : UpdateWatch (as_proxy u w) u f = (as_proxy u <$> UpdateWatch w u f).
Proof.
  unfold UpdateWatch. rewrite as_proxy_update. destruct (UpdateWatchedResource w u _) as [[w' []]| |]; done.
Qed.

(** A stream of secrets follows the state-of-the-world protocol of the control plane: for
    requests of one type, the single watch of the stream behaves as the watches of a proxy
    that has only that type, on every branch of [ShouldRespond]. *)
Theorem sds_follows_protocol (w : Watch) (req : DiscoveryRequest) :
  ShouldRespond (as_proxy (req_TypeUrl req) w) req = as_proxies (req_TypeUrl req) (ShouldRespond w req).
Proof.
  set (u := req_TypeUrl req). unfold ShouldRespond. fold u. rewrite as_proxy_get. destruct (ErrorDetail req) as [msg|].
  { rewrite as_proxy_UpdateWatch. by destruct (UpdateWatch w u _). }
  destruct (shouldUnsubscribe req).
  { destruct (GetWatchedResource w u) as [p|]; [|by rewrite as_proxy_delete]. destruct (_ && _); [|by rewrite as_proxy_delete].
    rewrite as_proxy_UpdateWatch. by destruct (UpdateWatch w u _). }
  destruct (GetWatchedResource w u) as [p|] eqn:Ep.
  2: { destruct (String.eqb _ ""); rewrite as_proxy_new; by destruct (NewWatchedResource w u _). }
  destruct (String.eqb _ ""); [rewrite as_proxy_new; by destruct (NewWatchedResource w u _)|].
  destruct (negb _).
  { destruct (_ && _); [|done]. rewrite as_proxy_UpdateWatch. destruct (UpdateWatch w u _) as [w'| |]; [|done..]. simpl. by destruct (_ =? 0)%nat. }
  rewrite as_proxy_update. destruct (UpdateWatchedResource w u _) as [[w1 [[prev cur] always]]| |]; [|done..]. cbn [as_proxies mbind res_bind].
  destruct (_ && _ && _); [rewrite as_proxy_UpdateWatch; by destruct (UpdateWatch w1 u _)|].
  destruct always; [done|]. destruct (_ && _); [done|]. by destruct (_ && _).
Qed.

(** ** What is sent *)

Section answers.
Context {S : Type} `{SecretManager S} (marshal : Secret -> res Any).

(** What is sent for a name is the secret that the manager made for it. *)
Definition answers_name (name : string) (a : Any) : Prop :=
  exists m m' item, GenerateSecretOf name m = (m', Ok (Some item)) /\ marshal (toXdsSecret item name) = Ok a.

Lemma generate_all_spec names m acc :
  match generate_all marshal m names acc with
  | (m', Ok l) => exists l', l = acc ++ l' /\ Forall2 answers_name names l'
  | _ => True
  end.
Proof.
  revert m acc. induction names as [|name names IH]; intros m acc; cbn [generate_all]; [exists []; by rewrite app_nil_r|].
  destruct (GenerateSecretOf name m) as [m1 [[i|]| |]] eqn:Eg; try done. destruct (marshal _) as [a| |] eqn:Em; try done.
  specialize (IH m1 (acc ++ [a])). destruct (generate_all marshal m1 names (acc ++ [a])) as [m2 [l| |]]; try done.
  destruct IH as (l' & -> & Hf). exists (a :: l'). rewrite <-app_assoc. split; [done|]. constructor; [|done]. by exists m, m1, i.
Qed.

Lemma secret_generate_spec (c : stream) names :
  let '(c', r) := generate marshal c names in
  s_watch c' = s_watch c /\ sent c' = sent c /\ sent_delta c' = sent_delta c /\ deltaNonceNumber c' = deltaNonceNumber c /\
  match r with
  | Ok resp => Forall2 answers_name names (sds_Resources resp) /\ sds_VersionInfo resp = sds_Nonce resp /\
               versionNumber c' = versionNumber c + 1 /\ sds_Nonce resp = Itoa (versionNumber c')
  | _ => versionNumber c' = versionNumber c
  end.
Proof.
  unfold generate. pose proof (generate_all_spec names (st c) []) as Hg.
  destruct (generate_all marshal (st c) names []) as [m [l| |]]; simpl; [|done..]. destruct Hg as (l' & -> & Hf). done.
Qed.
End answers.

(** The names of roots come without a key. *)
Lemma root_secret_type item name :
  SecretItem.ResourceName item = name \/ SecretItem.ResourceName item = "" -> is_root_name name = true ->
  Secret_Type (toXdsSecret item name) = ValidationContext (SecretItem.RootCert item).
Proof.
  intros Hn Hr. unfold toXdsSecret.
  assert (En : (if String.eqb (SecretItem.ResourceName item) "" then name else SecretItem.ResourceName item) = name)
    by (destruct Hn as [-> | ->]; [by destruct (String.eqb_spec name "") as [->|]|done]).
  rewrite En. unfold is_root_name in Hr. destruct (String.eqb name RootCertReqResourceName); [done|]. simpl in Hr.
  destruct (SdsCertificateConfigFromResourceName name); [|done]. by rewrite Hr.
Qed.

Lemma Itoa_nonempty n : Itoa n <> "".
Proof. unfold Itoa. destruct (n <? 0); [done|]. by destruct (dec_aux_nonempty 19 n "") as (c & s & ->). Qed.

Section sending.
Context {S : Type} `{SecretManager S} (marshal : Secret -> res Any).

Lemma secret_Send_spec (c : stream (S := S)) r now :
  sds_Nonce r <> "" ->
  exists w, Send c r now (Ok tt) = (mkStream (st c) (versionNumber c) (deltaNonceNumber c) w (sent c ++ [r]) (sent_delta c), Ok tt) /\
    exists p, watch w = Some p /\ NonceSent p = sds_Nonce r /\
      (forall q, watch (s_watch c) = Some q -> ResourceNames p = ResourceNames q).
Proof.
  intros Hn. unfold Send, Send_update. rewrite (proj2 (String.eqb_neq _ _) Hn). cbn [negb].
  unfold UpdateWatch, UpdateWatchedResource, sds_watcher, SdsWatch.UpdateWatchedResource. simpl.
  eexists. split; [reflexivity|]. eexists. split; [reflexivity|]. split; [done|]. by intros q ->.
Qed.

Lemma Push_spec (c : stream (S := S)) name now :
  SdsWatch.requested (s_watch c) name = true ->
  let '(c', a) := Push marshal c name now (Ok tt) in
  match a with
  | Ok _ => exists m item any v, GenerateSecretOf name (st c) = (m, Ok (Some item)) /\ marshal (toXdsSecret item name) = Ok any /\
              st c' = m /\ sent c' = sent c ++ [mkSdsResponse v [any] v]
  | _ => sent c' = sent c
  end.
Proof.
  intros Hr. unfold Push. rewrite Hr. cbn [negb]. unfold generate. cbn [generate_all].
  destruct (GenerateSecretOf name (st c)) as [m [[item|]| |]] eqn:Eg; [|done..].
  destruct (marshal (toXdsSecret item name)) as [any| |] eqn:Em; [|done..]. cbn [generate_all app].
  set (c1 := mkStream m (versionNumber c + 1) (deltaNonceNumber c) (s_watch c) (sent c) (sent_delta c)).
  set (r := mkSdsResponse _ _ _). destruct (secret_Send_spec c1 r now) as (w & -> & _).
  { apply Itoa_nonempty. }
  exists m, item, any, (Itoa (versionNumber c + 1)). done.
Qed.
End sending.

(** ** Rotation reaches the proxies *)


Definition demo_marshal (s : Secret) : res Any :=
  Ok (mkAny SecretType (match Secret_Type s with ValidationContext ca => ca | TlsCertificate chain key => chain +:+ "+" +:+ key end)).
Definition demo_stream : stream :=
  mkStream (fst (demo_locked "default" NewSecretManagerClient)) 0 0 (mkWatch (Some (new_watch SecretType (GoSet.New ["default"])))) [] [].


(** ** Subscriptions of the incremental protocol *)

(** The names a stream watches after a request *)
Definition next_secrets (e : gset string) (req : DeltaDiscoveryRequest) : gset string := (e ∪ subscribed req) ∖ unsubscribed req.
Definition watched (w : Watch) : gset string := match watch w with Some p => watched_names p | None => ∅ end.

Lemma DeleteAll_some (e : gset string) items : GoSet.DeleteAll (Some e) items = Some (e ∖ list_to_set items).
Proof.
  unfold GoSet.DeleteAll. revert e. induction items as [|x items IH]; intros e; simpl; [f_equal; set_solver|]. rewrite IH. f_equal. set_solver.
Qed.

Lemma deltaWatchedSecrets_spec existing req :
  deltaWatchedSecrets existing req
  = Ok (Some (next_secrets (nset_elems existing) req), bool_decide (next_secrets (nset_elems existing) req <> nset_elems existing)).
Proof.
  unfold deltaWatchedSecrets. set (out := match existing with Some _ => _ | None => _ end).
  assert (Ho : out = Some (nset_elems existing)) by (unfold out; destruct existing; [by rewrite GoSet.Copy_eq|by rewrite GoSet.New_eq]).
  rewrite Ho, GoSet.InsertAll_some. cbn [mbind res_bind]. rewrite GoSet.InsertAll_some. cbn [mbind res_bind].
  rewrite DeleteAll_some, GoSet.Copy_eq. cbn [nset_elems].
  assert (E : (nset_elems existing ∪ list_to_set (ResourceNamesSubscribe req) ∪ list_to_set (map_to_list (InitialResourceVersions req)).*1)
                ∖ list_to_set (ResourceNamesUnsubscribe req) = next_secrets (nset_elems existing) req).
  { unfold next_secrets, subscribed, unsubscribed. rewrite initial_names. set_solver. }
  rewrite E. unfold mret, res_ret. do 2 f_equal. apply eq_true_iff_eq. rewrite negb_true_iff, <-not_true_iff_false, GoSet.Equals_spec, bool_decide_eq_true.
  done.
Qed.

Lemma all_secret_names p next url name :
  ResourceNames p = Some next -> name ∈ deltaResourceNames (mkWatch (Some p)) url emptyResourceDelta <-> name ∈ next.
Proof.
  intros E. unfold deltaResourceNames. cbn [GetWatchedResource sds_watcher]. unfold SdsWatch.GetWatchedResource. cbn [watch]. rewrite E.
  apply GoSet.UnsortedList_elem.
Qed.

(** Subscriptions to secrets over the incremental protocol: after a request that is neither an
    error report nor stale, the stream watches the names it had and those it subscribes to,
    less those it unsubscribes from; it is answered on the first request, when the names
    changed and when the watch asks for it, with the secrets it did not watch before if there
    was a change, and with all of them otherwise. *)
Theorem delta_secret_subscription (w : Watch) (req : DeltaDiscoveryRequest) :
  d_ErrorDetail req = None ->
  (forall p, watch w = Some p -> d_ResponseNonce req = "" \/ d_ResponseNonce req = NonceSent p) ->
  let next := next_secrets (watched w) req in
  let always := match watch w with Some p => AlwaysRespond p | None => true end in
  exists w' b delta, shouldRespondDelta w req = Ok (w', (b, delta)) /\ watched w' = next /\
    b = bool_decide (next <> watched w) || always /\
    (b = true -> forall name, name ∈ deltaResourceNames w' (d_TypeUrl req) delta <->
       name ∈ if bool_decide (next = watched w) then next else next ∖ watched w).
Proof.
  intros He Hn. cbv zeta. unfold shouldRespondDelta. rewrite He. cbn [GetWatchedResource sds_watcher]. unfold SdsWatch.GetWatchedResource, watched.
  destruct (watch w) as [p|] eqn:Ew.
  - assert (Hst : negb (String.eqb (d_ResponseNonce req) "") && negb (String.eqb (d_ResponseNonce req) (NonceSent p)) = false).
    { destruct (Hn p eq_refl) as [-> | ->]; [done|]. rewrite String.eqb_refl. apply andb_false_r. }
    rewrite Hst. unfold UpdateWatchedResource, sds_watcher, SdsWatch.UpdateWatchedResource. rewrite Ew.
    rewrite deltaWatchedSecrets_spec. fold (watched_names p). set (next := next_secrets (watched_names p) req). cbn [mbind res_bind].
    set (p' := set_AlwaysRespond false _).
    assert (Hrn : ResourceNames p' = Some next) by (unfold p'; by destruct (String.eqb _ _)).
    assert (Hp' : watched_names p' = next) by (unfold watched_names; by rewrite Hrn).
    assert (Hal : AlwaysRespond (if String.eqb (d_ResponseNonce req) "" then set_ResourceNames (Some next) p
       else set_NonceAcked (d_ResponseNonce req) (set_LastError "" (set_ResourceNames (Some next) p))) = AlwaysRespond p) by (by destruct (String.eqb _ _)).
    rewrite Hal. destruct (decide (next = watched_names p)) as [E|E].
    + rewrite (bool_decide_eq_false_2 (next <> watched_names p)) by naive_solver. rewrite (bool_decide_eq_true_2 (next = watched_names p)) by done. cbn [negb orb].
      destruct (AlwaysRespond p); eexists _, _, _; (split; [reflexivity|]); (split; [exact Hp'|]); (split; [done|]); [|done].
      intros _ name. by apply all_secret_names.
    + rewrite (bool_decide_eq_true_2 (next <> watched_names p)) by done. rewrite (bool_decide_eq_false_2 (next = watched_names p)) by done. cbn [negb orb].
      eexists _, _, _. split; [reflexivity|]. split; [exact Hp'|]. split; [done|]. intros _ name. unfold deltaResourceNames.
      rewrite GoSet.Difference_eq. cbn [Subscribed Unsubscribed]. change (nset_elems (Some next)) with next. fold (watched_names p).
      destruct (Nat.ltb_spec 0 (nset_len (Some (next ∖ watched_names p)))) as [Hl|Hl]; [apply GoSet.UnsortedList_elem|].
      assert (Hz : next ∖ watched_names p = ∅) by (apply size_empty_iff_L; unfold nset_len in Hl; simpl in Hl; lia).
      rewrite GoSet.New_eq. destruct (Nat.ltb_spec 0 (nset_len (Some (list_to_set (ResourceNamesUnsubscribe req) : gset string)))) as [Hu|Hu]; [rewrite Hz; split; intros Hx; [by apply elem_of_nil in Hx|by apply not_elem_of_empty in Hx]|].
      assert (Hz' : unsubscribed req = ∅) by (apply size_empty_iff_L; unfold nset_len in Hu; simpl in Hu; unfold unsubscribed; lia).
      exfalso. apply E. apply set_eq. intros x. split; intros Hx.
      * destruct (decide (x ∈ watched_names p)) as [|Hw]; [done|]. assert (Hd : x ∈ next ∖ watched_names p) by (by apply elem_of_difference).
        rewrite Hz in Hd. by apply not_elem_of_empty in Hd.
      * unfold next, next_secrets. rewrite Hz'. apply elem_of_difference. split; [by apply elem_of_union; left|apply not_elem_of_empty].
  - rewrite deltaWatchedSecrets_spec. change (nset_elems (None : nset string)) with (∅ : gset string). cbn [mbind res_bind]. set (next := next_secrets ∅ req).
    assert (Hnew : GoSet.New (GoSet.UnsortedList (Some next)) = Some next).
    { rewrite GoSet.New_eq. f_equal. apply list_to_set_elements_L. }
    unfold NewWatchedResource, sds_watcher, SdsWatch.NewWatchedResource. cbn [mbind res_bind]. rewrite Hnew.
    eexists _, _, _. split; [reflexivity|]. split; [done|]. split; [by rewrite orb_true_r|]. intros _ name. unfold deltaResourceNames.
    cbn [Subscribed Unsubscribed]. assert (Hx : name ∈ (if bool_decide (next = ∅) then next else next ∖ ∅) <-> name ∈ next) by (case_bool_decide; set_solver).
    rewrite Hx. destruct (Nat.ltb_spec 0 (nset_len (Some next))) as [Hl|Hl]; [apply GoSet.UnsortedList_elem|].
    assert (Hz : next = ∅) by (apply size_empty_iff_L; unfold nset_len in Hl; simpl in Hl; lia).
    rewrite GoSet.New_eq. destruct (_ <? _)%nat; [set_solver|]. cbn. rewrite GoSet.UnsortedList_elem. simpl. set_solver.
Qed.

Lemma delta_secret_subscription_witness :
  let w := mkWatch (Some (new_watch SecretType (GoSet.New ["default"]))) in
  let req := mkDeltaRequest SecretType "" None ["ROOTCA"] ["default"] ∅ in
  exists w' b delta, shouldRespondDelta w req = Ok (w', (b, delta)) /\ watched w' = {["ROOTCA"]} /\
    forall name, name ∈ deltaResourceNames w' SecretType delta <-> name = "ROOTCA".
Proof.
  cbv zeta. set (w := mkWatch _). set (req := mkDeltaRequest _ _ _ _ _ _).
  destruct (delta_secret_subscription w req eq_refl) as (w' & b & delta & E & Hw & Hb & Hn).
  { intros p _. by left. }
  assert (E1 : next_secrets (watched w) req = {["ROOTCA"]}) by (by vm_compute).
  assert (E2 : watched w = {["default"]}) by (by vm_compute).
  rewrite E1, E2 in Hn, Hb. rewrite E1 in Hw. exists w', b, delta. split; [exact E|]. split; [exact Hw|].
  assert (E3 : bool_decide (({["ROOTCA"]} : gset string) = {["default"]}) = false) by (by vm_compute).
  assert (E4 : bool_decide (({["ROOTCA"]} : gset string) <> {["default"]}) = true) by (by vm_compute).
  rewrite E4 in Hb. specialize (Hn Hb). rewrite E3 in Hn. change (d_TypeUrl req) with SecretType in Hn. intros name. rewrite Hn.
  rewrite elem_of_difference, !elem_of_singleton. split; [by intros [? _]|]. intros ->. by split.
Defined.
