(* ===== verification/InherentXds.v ===== *)
(** * Credentials of proxyless workloads

    [bootstrap/inherent_xds_controller.go]: the control plane keeps one Secret per managed
    pod, with a certificate, its key, the root and the xDS bootstrap of the pod, and renews
    the certificate before it expires.  With the names of [pkg/kube/inject/inherent.go] and
    the decision of [pkg/kube/controllers/queue.go] on a key whose work failed.

    The API server is a parameter, as are the informer of pods, the authority that signs,
    [crypto/x509] and [encoding/pem], SHA-256, and the text of the bootstrap of a workload
    ([pkg/bootstrap], [pkg/xdsbootstrap] and its JSON). *)

From S2P Require Import Prelude GoStrings Hosts GoNet GoSets GoSort ConfigKeys PushRequest Spiffe SecretCache.

(** ** Pods and Secrets *)

Definition NN : Type := string * string.   (* namespace, name *)

Module Pod.
Record t : Type := mk {
  Name : string; Namespace : string; UID : string; Annotations : gmap string string; Deleting : bool;
  ServiceAccountName : string; PodIP : string;
  Volumes : list (string * option string);          (* name, and the name of the Secret it mounts *)
  Containers : list (list (string * string))        (* the environment of each container *)
}.
End Pod.
Notation Pod := Pod.t.

Module Owner.
Record t : Type := mk { APIVersion : string; Kind : string; Name : string; UID : string }.
End Owner.
Notation OwnerReference := Owner.t.

#[global] Instance owner_eq_dec : EqDecision OwnerReference.
Proof. solve_decision. Defined.

(** A Secret as the API server has it, under its namespace and name. *)
Module KSecret.
Record t : Type := mk { Data : gmap string string; OwnerReferences : list OwnerReference; UID : string; ResourceVersion : string }.
End KSecret.
Notation KSecret := KSecret.t.

Definition CertChainFilename : string := "cert-chain.pem".
Definition KeyFilename : string := "key.pem".
Definition CACertNamespaceConfigMapDataName : string := "root-cert.pem".
Definition InherentTripleTemplateName : string := "triple-engine".
Definition InherentTripleBootstrapEnvName : string := "TRIPLE_XDS_BOOTSTRAP".
Definition InherentTripleBootstrapFileName : string := "triple-bootstrap.json".
Definition InherentXDSVolumeName : string := "dubbo-xds".
Definition InherentXDSMountPath : string := "/etc/dubbo/proxy".
Definition InherentTripleBootstrapPath : string := InherentXDSMountPath +:+ "/" +:+ InherentTripleBootstrapFileName.
Definition DefaultClusterLocalDomain : string := "cluster.local".
Definition DefaultClusterName : string := "Kubernetes".

(** [strings.Trim(s, "-")] *)
Fixpoint trim_dashes_left (s : string) : string :=
  match s with String c s' => if Ascii.eqb c "-" then trim_dashes_left s' else s | EmptyString => s end.
Fixpoint trim_dashes_right (s : string) : string :=
  match s with
  | EmptyString => EmptyString
  | String c s' =>
      match trim_dashes_right s' with
      | EmptyString => if Ascii.eqb c "-" then EmptyString else String c EmptyString
      | t => String c t
      end
  end.

Section controller.
(** The annotation that lists the injected templates, and the first four bytes of the
    SHA-256 of a text, in hexadecimal *)
Context (InherentInjectTemplatesAnnoName : string) (sha256_hex4 : string -> string).

Definition InherentXDSSecretName (podName : string) : string :=
  let prefix := "dubbo-xds-" in
  let suffix := sha256_hex4 podName in
  let baseMaxLen := (63 - String.length prefix - 1 - String.length suffix)%nat in
  let base := if (baseMaxLen <? String.length podName)%nat then str_take baseMaxLen podName else podName in
  let base := trim_dashes_right (trim_dashes_left base) in
  let base := if String.eqb base "" then "pod" else base in
  prefix +:+ base +:+ "-" +:+ suffix.

Definition isInherentTriplePod (pod : Pod) : bool :=
  existsb (fun t => String.eqb (TrimSpace t) InherentTripleTemplateName)
    (Split (default "" (Pod.Annotations pod !! InherentInjectTemplatesAnnoName)) ",")
  || existsb (existsb (fun '(n, v) => String.eqb n InherentTripleBootstrapEnvName && String.eqb v InherentTripleBootstrapPath)) (Pod.Containers pod).
Definition shouldManageInherentXDSPod (pod : Pod) : bool := isInherentTriplePod pod.

(** The name of the Secret of a pod *)
Definition secret_key (pod : Pod) : NN := (Pod.Namespace pod, InherentXDSSecretName (Pod.Name pod)).

Definition workloadSecretOwnedByPod (secret : KSecret) (pod : Pod) : bool :=
  negb (String.eqb (Pod.UID pod) "") &&
  existsb (fun o => String.eqb (Owner.APIVersion o) "v1" && String.eqb (Owner.Kind o) "Pod" &&
                    String.eqb (Owner.Name o) (Pod.Name pod) && String.eqb (Owner.UID o) (Pod.UID pod)) (KSecret.OwnerReferences secret).

Definition mounts_other_secret (pod : Pod) : bool :=
  existsb (fun '(n, s) => String.eqb n InherentXDSVolumeName &&
             match s with Some s => negb (String.eqb s (InherentXDSSecretName (Pod.Name pod))) | None => false end) (Pod.Volumes pod).

(** *** Certificates *)

Context (Decode : string -> option (string * string)) {Cert : Type} (ParseCertificate : string -> res Cert) (NotAfter : Cert -> Time).
(** The type and the bytes of the first PEM block, the parsers of keys of [crypto/x509] and
    the encoding as PKCS#8 *)
Context (DecodeBlock : string -> option (string * string)) {Key : Type}.
Context (ParseECPrivateKey ParsePKCS1PrivateKey ParsePKCS8PrivateKey : string -> res Key) (MarshalPKCS8PrivateKey : Key -> res string).
Context (EncodeToMemory : string -> string -> string).

Definition blockTypeECPrivateKey : string := "EC PRIVATE KEY".
Definition blockTypeRSAPrivateKey : string := "RSA PRIVATE KEY".
Definition blockTypePKCS8PrivateKey : string := "PRIVATE KEY".

Definition wrap {A} (text : string) (r : res A) : res A :=
  match r with Err e => Err (mk_error Unknown (text +:+ err_msg e)) | r => r end.

Definition ParsePemEncodedKey (keyBytes : string) : res Key :=
  match DecodeBlock keyBytes with
  | None => Err (mk_error Unknown "invalid PEM-encoded key")
  | Some (type, bytes) =>
      if String.eqb type blockTypeECPrivateKey then wrap "failed to parse the ECDSA private key: " (ParseECPrivateKey bytes)
      else if String.eqb type blockTypeRSAPrivateKey then wrap "failed to parse the RSA private key: " (ParsePKCS1PrivateKey bytes)
      else if String.eqb type blockTypePKCS8PrivateKey then wrap "failed to parse the PKCS8 private key: " (ParsePKCS8PrivateKey bytes)
      else Err (mk_error Unknown ("unsupported PEM block type for a private key: " +:+ type))
  end.

(** The key of a certificate that is used again, as PKCS#8 *)
Definition normalize_key (keyPEM : string) : res string :=
  privateKey ← wrap "parse reused workload private key: " (ParsePemEncodedKey keyPEM);
  encodedKey ← wrap "encode workload private key as PKCS#8: " (MarshalPKCS8PrivateKey privateKey);
  mret (EncodeToMemory blockTypePKCS8PrivateKey encodedKey).

(** [workloadCertTTL] *)
Context (workloadCertTTL : Z).

Definition reusableWorkloadCertificate (secret : option KSecret) (activeRootCert : string) (now : Time)
    : option (string * string * string * Time) :=
  match secret with
  | None => None
  | Some s =>
      let certChain := default "" (KSecret.Data s !! CertChainFilename) in
      let keyPEM := default "" (KSecret.Data s !! KeyFilename) in
      let rootCert := default "" (KSecret.Data s !! CACertNamespaceConfigMapDataName) in
      if String.eqb certChain "" || String.eqb keyPEM "" || String.eqb rootCert "" then None
      else if negb (String.eqb activeRootCert "") && negb (String.eqb rootCert activeRootCert) then None
      else match ParseCertAndGetExpiryTimestamp Decode ParseCertificate NotAfter certChain with
           | Ok expireAt => if Sub expireAt now <=? Z.quot workloadCertTTL 5 then None else Some (certChain, keyPEM, rootCert, expireAt)
           | _ => None
           end
  end.

(** The authority: signing, and the root of its bundle ([None] without a bundle) *)
Record Authority : Type := mkAuthority { SignWithCertChain : nat -> string -> string -> res (list string); GetRootCertPem : option string }.

(** The surroundings: key generation, the clock, the mesh configuration and the addresses,
    the two authorities and the text of the bootstrap. *)
Record WorkloadContext : Type := mkContext {
  nodeID : string; podName : string; podNamespace : string; podIP : string; serviceAccount : string; trustDomain : string;
  clusterID : string; discoveryAddress : string; caAddress : string
}.
Record env : Type := mkEnv {
  e_GenCSR : nat -> string -> res (string * string); e_Now : nat -> Time;
  e_TrustDomain : string; e_DiscoveryAddress : string; e_DomainSuffix : string; e_ClusterID : string;
  e_RA : option Authority; e_CA : option Authority; e_Bootstrap : WorkloadContext -> res string
}.
Context (e : env).

Definition activeAuthority : option Authority := match e_RA e with Some a => Some a | None => e_CA e end.
Definition activeRootCert : string :=
  match activeAuthority with Some a => default "" (GetRootCertPem a) | None => "" end.

Definition or_default (s d : string) : string := if String.eqb s "" then d else s.

Definition buildWorkloadContext (pod : Pod) : WorkloadContext :=
  let trustDomain := or_default (e_TrustDomain e) DefaultClusterLocalDomain in
  let ip := or_default (Pod.PodIP pod) "0.0.0.0" in
  let suffix := or_default (e_DomainSuffix e) DefaultClusterLocalDomain in
  let nodeID := str_join ["inherent"; ip; Pod.Name pod +:+ "." +:+ Pod.Namespace pod; Pod.Namespace pod +:+ ".svc." +:+ suffix] "~" in
  mkContext nodeID (Pod.Name pod) (Pod.Namespace pod) ip (or_default (Pod.ServiceAccountName pod) "default") trustDomain
    (or_default (e_ClusterID e) DefaultClusterName) (e_DiscoveryAddress e) (e_DiscoveryAddress e).

(** The identity a certificate of the pod is for *)
Definition pod_identity (pod : Pod) : string :=
  Identity.String (Identity.mk (or_default (e_TrustDomain e) DefaultClusterLocalDomain) (Pod.Namespace pod)
    (or_default (Pod.ServiceAccountName pod) "default")).

Definition issueWorkloadCertificate (n : nat) (pod : Pod) : res (string * string * string * Time) :=
  match activeAuthority with
  | None => Err (mk_error Unknown "workload certificate authority is not initialized")
  | Some authority =>
      csr ← e_GenCSR e n (pod_identity pod);
      respCertChain ← SignWithCertChain authority n (fst csr) (pod_identity pod);
      let certChain := concatCerts respCertChain in
      expireAt ← ParseCertAndGetExpiryTimestamp Decode ParseCertificate NotAfter certChain;
      match GetRootCertPem authority with
      | None => Panic "invalid memory address or nil pointer dereference"
      | Some rootCert => mret (certChain, snd csr, (if String.eqb rootCert "" then default "" (last respCertChain) else rootCert), expireAt)
      end
  end.

Definition buildInherentXDSSecret (pod : Pod) (bootstrapJSON certChain keyPEM rootCert : string) : KSecret :=
  KSecret.mk (<[InherentTripleBootstrapFileName := bootstrapJSON]> {[CertChainFilename := certChain; KeyFilename := keyPEM;
                CACertNamespaceConfigMapDataName := rootCert]})
    [Owner.mk "v1" "Pod" (Pod.Name pod) (Pod.UID pod)] "" "".

Definition buildSecret (n : nat) (pod : Pod) (current : option KSecret) : res (KSecret * Time) :=
  bootstrapJSON ← e_Bootstrap e (buildWorkloadContext pod);
  '(certChain, keyPEM, rootCert, expireAt) ←
    match reusableWorkloadCertificate current activeRootCert (e_Now e n) with
    | Some (certChain, keyPEM, rootCert, expireAt) => keyPEM ← normalize_key keyPEM; mret (certChain, keyPEM, rootCert, expireAt)
    | None => issueWorkloadCertificate n pod
    end;
  mret (buildInherentXDSSecret pod bootstrapJSON certChain keyPEM rootCert, expireAt).

(** ** The controller *)

(** [inherentXDSWorkloadController]: the rotations, the timer (when it fires) and the time it
    is for; [queued] are the keys that were added to the queue, the last one last. *)
Record controller : Type := mkController {
  rotations : gmap NN Time; rotationTimer : option Time; nextRotation : Time; queued : list NN
}.
Definition new_controller : controller := mkController ∅ None zero_time [].

(** [nextRotationTime] *)
Definition earlier (next : option Time) (rotateAt : Time) : option Time :=
  match next with Some n => Some (if rotateAt <? n then rotateAt else n) | None => Some rotateAt end.
Definition nextRotationTime (m : gmap NN Time) : option Time := fold_left earlier (map_to_list m).*2 None.

Definition resetRotationTimerLocked (c : controller) (now : Time) : controller :=
  match nextRotationTime (rotations c) with
  | None => mkController (rotations c) None zero_time (queued c)
  | Some next => mkController (rotations c) (Some (now + Z.max 0 (Sub next now))) next (queued c)
  end.

Definition workloadRotationDelay (now expireAt : Time) : Z :=
  let lifetime := Sub expireAt now in
  if lifetime <=? 0 then 1000000000 else Z.quot (wrap_s64 (lifetime * 4)) 5.

Definition scheduleRotation (c : controller) (key : NN) (expireAt now : Time) : controller :=
  let rotateAt := now + workloadRotationDelay now expireAt in
  let old := rotations c !! key in
  let c := mkController (<[key := rotateAt]> (rotations c)) (rotationTimer c) (nextRotation c) (queued c) in
  if match rotationTimer c with None => true | Some _ => false end || (rotateAt <? nextRotation c)
     || match old with Some o => o =? nextRotation c | None => false end
  then resetRotationTimerLocked c now else c.

Definition clearRotation (c : controller) (key : NN) (now : Time) : controller :=
  let old := rotations c !! key in
  let c := mkController (delete key (rotations c)) (rotationTimer c) (nextRotation c) (queued c) in
  if match old with Some o => o =? nextRotation c | None => false end then resetRotationTimerLocked c now else c.

Definition stopAllTimers (c : controller) : controller := mkController ∅ None zero_time (queued c).

Definition compare_keys (a b : NN) : comparison :=
  match String.compare (fst a) (fst b) with Eq => String.compare (snd a) (snd b) | c => c end.

Definition flushDueRotations (c : controller) (now : Time) : controller :=
  let due := (map_to_list (base.filter (fun kr => kr.2 <= now) (rotations c))).*1 in
  let c := mkController (base.filter (fun kr => now < kr.2) (rotations c)) (rotationTimer c) (nextRotation c) (queued c) in
  let c := resetRotationTimerLocked c now in
  mkController (rotations c) (rotationTimer c) (nextRotation c) (queued c ++ SortStableFunc compare_keys due).

(** [managedPodKeys] and [enqueueAllPods] over the pods of the informer *)
Definition managedPodKeys (pods : gmap NN Pod) : list NN :=
  SortStableFunc compare_keys (map_to_list (base.filter (fun kp => shouldManageInherentXDSPod kp.2 = true) pods)).*1.
Definition enqueueAllPods (c : controller) (pods : gmap NN Pod) : controller :=
  mkController (rotations c) (rotationTimer c) (nextRotation c) (queued c ++ managedPodKeys pods).

Definition inherentXDSWorkloadConfigNeedsUpdate (req : option ConfigChange.t) : bool :=
  match req with
  | None => false
  | Some req =>
      ConfigChange.Full req || ConfigChange.Forced req || (0 <? nset_len (ConfigChange.AddressesUpdated req))%nat
      || existsb (HasConfigsOfKind (ConfigChange.ConfigsUpdated req))
           [kind.HTTPRoute; kind.BackendTLSPolicy; kind.CircuitBreakerPolicy; kind.FaultInjectionPolicy; kind.PeerAuthentication;
            kind.RequestAuthentication; kind.AuthorizationPolicy; kind.Telemetry; kind.Service; kind.EndpointSlice; kind.Endpoints;
            kind.Pod; kind.Namespace]
      || ConfigChange.EndpointsChanged req || ConfigChange.Global req
  end.
Definition handleWorkloadConfigUpdate (c : controller) (pods : gmap NN Pod) (req : option ConfigChange.t) : controller :=
  if inherentXDSWorkloadConfigNeedsUpdate req then enqueueAllPods c pods else c.

(** *** Reconciliation

    [reconcile] reads the Secret, decides, and writes; between the two the API server may
    have changed. *)

Inductive read_result : Type := found (s : KSecret) | not_found | read_failed (err : gerror).

Inductive plan : Type :=
  | Nothing                                                          (* no Secret to write *)
  | Delete (k : NN) (uid version : string)                           (* with preconditions *)
  | Create (k : NN) (desired : KSecret) (expireAt : Time)
  | Update (k : NN) (current desired : KSecret) (expireAt : Time)
  | Keep (expireAt : Time).                                          (* the Secret is as desired *)

Definition plan_delete (pod : Pod) (r : read_result) : res plan :=
  match r with
  | not_found => mret Nothing
  | read_failed err => Err err
  | found secret =>
      if workloadSecretOwnedByPod secret pod then mret (Delete (secret_key pod) (KSecret.UID secret) (KSecret.ResourceVersion secret))
      else mret Nothing
  end.

Definition plan_apply (n : nat) (pod : Pod) (r : read_result) : res plan :=
  if mounts_other_secret pod then Err (mk_error Unknown "pod mounts legacy shared credentials; recreate the Pod to obtain its own Secret") else
  match r with
  | read_failed err => Err err
  | not_found => '(desired, expireAt) ← buildSecret n pod None; mret (Create (secret_key pod) desired expireAt)
  | found current =>
      if negb (workloadSecretOwnedByPod current pod) then Err (mk_error Unknown "refusing to replace credentials Secret owned by another workload") else
      '(desired, expireAt) ← buildSecret n pod (Some current);
      if bool_decide (KSecret.Data current = KSecret.Data desired) && bool_decide (KSecret.OwnerReferences current = KSecret.OwnerReferences desired)
      then mret (Keep expireAt)
      else mret (Update (secret_key pod) current
                   (KSecret.mk (KSecret.Data desired) (KSecret.OwnerReferences desired) (KSecret.UID current) (KSecret.ResourceVersion current)) expireAt)
  end.

(** Up to the write: [pod] is what the informer has for the key. *)
Definition reconcile_plan (c : controller) (key : NN) (pod : option Pod) (r : read_result) (n : nat) : controller * res plan :=
  match pod with
  | None => (clearRotation c key (e_Now e n), mret Nothing)
  | Some pod =>
      if negb (shouldManageInherentXDSPod pod) || Pod.Deleting pod then (clearRotation c key (e_Now e n), plan_delete pod r)
      else (c, plan_apply n pod r)
  end.

(** After the write, when it succeeded *)
Definition reconcile_done (c : controller) (key : NN) (p : plan) (n : nat) : controller :=
  match p with
  | Nothing | Delete _ _ _ => c
  | Create _ _ expireAt | Update _ _ _ expireAt | Keep expireAt => scheduleRotation c key expireAt (e_Now e n)
  end.

(** ** The API server *)

Section api.
Context {API : Type} (api_get : API -> NN -> option KSecret).
Context (api_create api_update : API -> NN -> KSecret -> option API) (api_delete : API -> NN -> string -> string -> option API).

(** What is documented of it: a write that succeeds concerns one object; it creates one that
    is not there, or replaces or deletes the version that is named. *)
Record api_documented : Prop := {
  create_law s k x s' : api_create s k x = Some s' ->
    api_get s k = None /\
    (exists y, api_get s' k = Some y /\ KSecret.Data y = KSecret.Data x /\ KSecret.OwnerReferences y = KSecret.OwnerReferences x) /\
    forall k', k' <> k -> api_get s' k' = api_get s k';
  update_law s k x s' : api_update s k x = Some s' ->
    (exists cur, api_get s k = Some cur /\ KSecret.ResourceVersion cur = KSecret.ResourceVersion x /\ KSecret.UID cur = KSecret.UID x) /\
    (exists y, api_get s' k = Some y /\ KSecret.Data y = KSecret.Data x /\ KSecret.OwnerReferences y = KSecret.OwnerReferences x) /\
    forall k', k' <> k -> api_get s' k' = api_get s k';
  delete_law s k uid v s' : api_delete s k uid v = Some s' ->
    (exists cur, api_get s k = Some cur /\ KSecret.UID cur = uid /\ KSecret.ResourceVersion cur = v) /\
    api_get s' k = None /\ forall k', k' <> k -> api_get s' k' = api_get s k'
}.

(** The write of a plan: [None] if it fails.  A Secret to delete that is gone is no error. *)
Definition write_plan (s : API) (p : plan) : option API :=
  match p with
  | Nothing | Keep _ => Some s
  | Delete k uid v => match api_get s k with None => Some s | Some _ => api_delete s k uid v end
  | Create k desired _ => api_create s k desired
  | Update k _ desired _ => api_update s k desired
  end.

Definition owner_of (pod : Pod) : OwnerReference := Owner.mk "v1" "Pod" (Pod.Name pod) (Pod.UID pod).

Lemma buildSecret_owner n pod cur d x : buildSecret n pod cur = Ok (d, x) -> KSecret.OwnerReferences d = [owner_of pod].
Proof.
  unfold buildSecret. intros H. apply res_bind_ok in H as (b & _ & H). apply res_bind_ok in H as ([[[c k] r] t] & _ & H).
  by injection H as <- <-.
Qed.

Lemma plan_apply_spec n pod r p :
  plan_apply n pod r = Ok p ->
  match p with
  | Nothing => False
  | Delete _ _ _ => False
  | Create k d _ => k = secret_key pod /\ r = not_found /\ KSecret.OwnerReferences d = [owner_of pod]
  | Update k cur d _ => k = secret_key pod /\ r = found cur /\ workloadSecretOwnedByPod cur pod = true /\
                        KSecret.OwnerReferences d = [owner_of pod] /\
                        KSecret.ResourceVersion d = KSecret.ResourceVersion cur /\ KSecret.UID d = KSecret.UID cur
  | Keep _ => exists cur, r = found cur /\ workloadSecretOwnedByPod cur pod = true
  end.
Proof.
  unfold plan_apply. destruct (mounts_other_secret pod); [done|]. destruct r as [cur| |err]; [|intros H|done].
  - destruct (workloadSecretOwnedByPod cur pod) eqn:Eo; [|done]. cbn [negb]. intros H. apply res_bind_ok in H as ([d x] & Hb & H).
    apply buildSecret_owner in Hb. destruct (_ && _); injection H as <-; [by exists cur|]. done.
  - apply res_bind_ok in H as ([d x] & Hb & H). apply buildSecret_owner in Hb. by injection H as <-.
Qed.

Lemma plan_delete_spec pod r p :
  plan_delete pod r = Ok p ->
  p = Nothing \/ exists cur, r = found cur /\ workloadSecretOwnedByPod cur pod = true /\
    p = Delete (secret_key pod) (KSecret.UID cur) (KSecret.ResourceVersion cur).
Proof.
  unfold plan_delete. destruct r as [cur| |err]; [|intros [= <-]; by left|done].
  destruct (workloadSecretOwnedByPod cur pod) eqn:Eo; intros [= <-]; [right; by exists cur|by left].
Qed.

Lemma reconcile_writes c key pod r n c' p s s' k :
  api_documented -> reconcile_plan c key pod r n = (c', Ok p) -> write_plan s p = Some s' -> api_get s' k <> api_get s k ->
  exists pd, pod = Some pd /\ k = secret_key pd /\
    match api_get s k with
    | None => exists y, api_get s' k = Some y /\ KSecret.OwnerReferences y = [owner_of pd]
    | Some cur => exists rd, r = found rd /\ workloadSecretOwnedByPod rd pd = true /\
                    KSecret.ResourceVersion cur = KSecret.ResourceVersion rd /\ KSecret.UID cur = KSecret.UID rd
    end.
Proof.
  intros Hd Hp Hw Hne. unfold reconcile_plan in Hp. destruct pod as [pd|]; [|injection Hp as _ <-; by injection Hw as <-].
  exists pd. split; [done|]. destruct (negb _ || _).
  - injection Hp as _ Hp. destruct (plan_delete_spec pd r p Hp) as [->|(rd & -> & Ho & ->)]; [by injection Hw as <-|].
    cbn [write_plan] in Hw. destruct (api_get s (secret_key pd)) as [cur|] eqn:Eg; [|by injection Hw as <-].
    destruct (delete_law Hd _ _ _ _ _ Hw) as ((cur' & Hc & Hu & Hv) & _ & Hf).
    destruct (decide (k = secret_key pd)) as [->|Hk]; [|by rewrite Hf in Hne]. split; [done|]. rewrite Hc. exists rd. done.
  - injection Hp as _ Hp. pose proof (plan_apply_spec n pd r p Hp) as Hs. destruct p as [|? ? ?|k0 d x|k0 cur d x|x]; [done|done| | |by injection Hw as <-].
    + destruct Hs as (-> & _ & Ho). destruct (create_law Hd _ _ _ _ Hw) as (Hn & (y & Hy & _ & Hyo) & Hf).
      destruct (decide (k = secret_key pd)) as [->|Hk]; [|by rewrite Hf in Hne]. split; [done|]. rewrite Hn. exists y. by rewrite Hyo.
    + destruct Hs as (-> & -> & Ho & _ & Hv & Hu). destruct (update_law Hd _ _ _ _ Hw) as ((cur' & Hc & Hcv & Hcu) & _ & Hf).
      destruct (decide (k = secret_key pd)) as [->|Hk]; [|by rewrite Hf in Hne]. split; [done|]. rewrite Hc. exists cur. split; [done|]. split; [done|]. by rewrite Hcv, Hcu.
Qed.
End api.

(** ** Rotations *)

(** The timer is set exactly if there are rotations, for the earliest one. *)
Definition earliest (m : gmap NN Time) (t : Time) : Prop :=
  (exists k, m !! k = Some t) /\ forall k r, m !! k = Some r -> t <= r.
Definition timer_ok (c : controller) : Prop :=
  match rotationTimer c with
  | None => rotations c = ∅
  | Some fires => earliest (rotations c) (nextRotation c)
  end.

Lemma min_fold l (x : Time) :
  exists t, fold_left earlier l (Some x) = Some t /\
    (t = x \/ t ∈ l) /\ t <= x /\ forall r, r ∈ l -> t <= r.
Proof.
  revert x. induction l as [|y l IH]; intros x; cbn [fold_left earlier]; [exists x; split_and!; [done|by left|lia|by intros r ?%elem_of_nil]|].
  destruct (IH (if y <? x then y else x)) as (t & E & Hin & Hle & Hall). exists t. split; [done|].
  destruct (Z.ltb_spec y x); (split; [|split; [lia|]]);
    [destruct Hin as [->|]; [right; by left|right; by right]|intros r [->|Hr]%elem_of_cons; [lia|by apply Hall]|
     destruct Hin as [->|]; [by left|right; by right]|intros r [->|Hr]%elem_of_cons; [lia|by apply Hall]].
Qed.

Lemma nextRotationTime_spec m :
  match nextRotationTime m with None => m = ∅ | Some t => earliest m t end.
Proof.
  unfold nextRotationTime. destruct (map_to_list m) as [|[k0 x] l] eqn:El; cbn [fmap list_fmap fold_left earlier snd].
  { apply map_to_list_empty_iff. done. }
  destruct (min_fold l.*2 x) as (t & -> & Hin & Hle & Hall).
  assert (Hm : forall k r, m !! k = Some r <-> (k, r) ∈ (k0, x) :: l) by (intros k r; by rewrite <-El, elem_of_map_to_list).
  split.
  - destruct Hin as [->|Hin]; [exists k0; apply Hm; by left|]. apply list_elem_of_fmap in Hin as ([k r] & -> & Hin). exists k. apply Hm. by right.
  - intros k r [[= -> ->]|Hr]%Hm%elem_of_cons; [done|]. apply Hall. apply list_elem_of_fmap. by exists (k, r).
Qed.

Lemma reset_ok c now : timer_ok (resetRotationTimerLocked c now) /\ rotations (resetRotationTimerLocked c now) = rotations c /\
  queued (resetRotationTimerLocked c now) = queued c /\
  forall fires, rotationTimer (resetRotationTimerLocked c now) = Some fires -> fires <= Z.max now (nextRotation (resetRotationTimerLocked c now)).
Proof.
  unfold resetRotationTimerLocked. pose proof (nextRotationTime_spec (rotations c)) as Hn.
  destruct (nextRotationTime (rotations c)) as [t|]; split_and!; try done. intros fires. simpl. intros [= <-]. unfold Sub, two63. lia.
Qed.

Lemma schedule_ok c key x now : timer_ok c -> timer_ok (scheduleRotation c key x now).
Proof.
  intros Hok. unfold scheduleRotation. set (rotateAt := now + _). cbn [rotationTimer nextRotation].
  destruct (_ || _) eqn:E; [apply reset_ok|]. unfold timer_ok in *. destruct (rotationTimer c) as [f|] eqn:Et; [|done].
  cbn [orb] in E. apply orb_false_iff in E as [E1 E2]. cbn [rotationTimer rotations nextRotation].
  apply Z.ltb_ge in E1. destruct Hok as [(k0 & Hk0) Hall]. split.
  - exists k0. rewrite lookup_insert_ne; [done|]. intros Hx. subst k0.
    destruct (rotations c !! key) as [o|]; [|done]. injection Hk0 as ->. by rewrite Z.eqb_refl in E2.
  - intros k r. destruct (decide (k = key)) as [->|Hk]; [rewrite lookup_insert_eq; by intros [= <-]|rewrite lookup_insert_ne by done; apply Hall].
Qed.

Lemma clearRotation_ok c key now : timer_ok c -> timer_ok (clearRotation c key now).
Proof.
  intros Hok. unfold clearRotation. cbn [nextRotation]. destruct (match rotations c !! key with Some _ => _ | None => _ end) eqn:E; [apply reset_ok|].
  unfold timer_ok in *. cbn [rotationTimer rotations nextRotation]. destruct (rotationTimer c) as [f|].
  - destruct Hok as [(k0 & Hk0) Hall]. split.
    + exists k0. rewrite lookup_delete_ne; [done|]. intros Hx. subst k0.
      destruct (rotations c !! key) as [o|]; [|done]. injection Hk0 as ->. by rewrite Z.eqb_refl in E.
    + intros k r [_ Hr]%lookup_delete_Some. by eapply Hall.
  - rewrite Hok. apply delete_empty.
Qed.

Lemma flush_ok c now : timer_ok (flushDueRotations c now).
Proof.
  unfold flushDueRotations. match goal with |- context [resetRotationTimerLocked ?c0 now] => destruct (reset_ok c0 now) as (H & _) end. exact H.
Qed.

(** *** The controller over time

    [n] numbers the calls; the clock is read at the call. *)
Inductive ctl_step : controller * nat -> controller * nat -> Prop :=
  | cs_plan c n key pod r n' : (n <= n')%nat -> ctl_step (c, n) (fst (reconcile_plan c key pod r n'), n')
  | cs_done c n key p n' : (n <= n')%nat -> ctl_step (c, n) (reconcile_done c key p n', n')
  | cs_flush c n n' : (n <= n')%nat -> ctl_step (c, n) (flushDueRotations c (e_Now e n'), n')
  | cs_config c n pods req : ctl_step (c, n) (handleWorkloadConfigUpdate c pods req, n)
  | cs_stop c n : ctl_step (c, n) (stopAllTimers c, n).

Definition armed (c : controller) (now : Time) : Prop :=
  timer_ok c /\ forall fires, rotationTimer c = Some fires -> fires <= Z.max now (nextRotation c).

Lemma armed_reset c now : armed (resetRotationTimerLocked c now) now.
Proof. destruct (reset_ok c now) as (H1 & _ & _ & H2). by split. Qed.

Lemma armed_later c now now' : now <= now' -> armed c now -> armed c now'.
Proof. intros Hle [H1 H2]. split; [done|]. intros f Hf. specialize (H2 f Hf). lia. Qed.

Lemma armed_schedule c key x now : armed c now -> armed (scheduleRotation c key x now) now.
Proof.
  intros Ha. pose proof (schedule_ok c key x now (proj1 Ha)) as Hok. revert Hok. unfold scheduleRotation.
  destruct (_ || _); intros Hok; [apply armed_reset|]. split; [done|]. apply Ha.
Qed.

Lemma armed_clear c key now : armed c now -> armed (clearRotation c key now) now.
Proof.
  intros Ha. pose proof (clearRotation_ok c key now (proj1 Ha)) as Hok. revert Hok. unfold clearRotation.
  destruct (match rotations c !! key with Some _ => _ | None => _ end); intros Hok; [apply armed_reset|]. split; [done|]. apply Ha.
Qed.

Lemma armed_step st st' :
  (forall i j, (i <= j)%nat -> e_Now e i <= e_Now e j) -> ctl_step st st' -> armed (fst st) (e_Now e (snd st)) -> armed (fst st') (e_Now e (snd st')).
Proof.
  intros Hm Hst Ha. destruct Hst as [c n key pod r n' Hn|c n key p n' Hn|c n n' Hn|c n pods req|c n]; cbn [fst snd] in *;
    try (apply (armed_later _ _ (e_Now e n') (Hm _ _ Hn)) in Ha).
  - unfold reconcile_plan. destruct pod as [pd|]; [destruct (_ || _)|]; cbn [fst]; [by apply armed_clear|done|by apply armed_clear].
  - destruct p; cbn [reconcile_done]; [done|done|by apply armed_schedule..].
  - unfold flushDueRotations. match goal with |- context [resetRotationTimerLocked ?c0 ?t] => pose proof (armed_reset c0 t) as [H1 H2] end.
    split; [exact H1|exact H2].
  - unfold handleWorkloadConfigUpdate, enqueueAllPods. by destruct (inherentXDSWorkloadConfigNeedsUpdate req).
  - by split.
Qed.

Lemma flush_spec c now :
  (forall k r, rotations c !! k = Some r -> r <= now -> k ∈ queued (flushDueRotations c now)) /\
  (forall k r, rotations (flushDueRotations c now) !! k = Some r <-> rotations c !! k = Some r /\ now < r).
Proof.
  unfold flushDueRotations. match goal with |- context [resetRotationTimerLocked ?c0 now] => destruct (reset_ok c0 now) as (_ & Hr & Hq & _) end.
  rewrite Hr, Hq. cbn [rotations queued]. split.
  - intros k r Hk Hle. apply elem_of_app. right. apply elem_of_sort. apply list_elem_of_fmap. exists (k, r). split; [done|].
    apply elem_of_map_to_list. by apply map_lookup_filter_Some.
  - intros k r. apply map_lookup_filter_Some.
Qed.

Lemma schedule_lookup c key x now : rotations (scheduleRotation c key x now) !! key = Some (now + workloadRotationDelay now x).
Proof.
  unfold scheduleRotation. destruct (_ || _); [|apply lookup_insert_eq].
  match goal with |- context [resetRotationTimerLocked ?c0 now] => destruct (reset_ok c0 now) as (_ & -> & _) end. apply lookup_insert_eq.
Qed.

Lemma rotation_delay_range now x : 0 < x - now < 2 ^ 61 -> 0 <= workloadRotationDelay now x < x - now.
Proof.
  intros Hl. unfold workloadRotationDelay, Sub. change two63 with (2 ^ 63).
  replace (Z.max (- 2 ^ 63) (Z.min (2 ^ 63 - 1) (x - now))) with (x - now) by lia. rewrite (proj2 (Z.leb_gt _ 0)) by lia.
  rewrite wrap_s64_id by (unfold in_s64, two63; lia). rewrite Z.quot_div_nonneg by lia. split; [apply Z.div_pos; lia|].
  apply Z.div_lt_upper_bound; lia.
Qed.

(** *** Quiescence *)

(** Keys are generated as PKCS#8, and a key that was normalised stays as it is. *)
Record keys_stable : Prop := {
  ks_generated n h csr key : e_GenCSR e n h = Ok (csr, key) -> normalize_key key = Ok key /\ key <> "";
  ks_normal key key' : normalize_key key = Ok key' -> normalize_key key' = Ok key' /\ key' <> ""
}.

Definition the_data (boot chain key root : string) : gmap string string :=
  <[InherentTripleBootstrapFileName := boot]> {[CertChainFilename := chain; KeyFilename := key; CACertNamespaceConfigMapDataName := root]}.

Lemma the_data_lookup boot chain key root :
  the_data boot chain key root !! CertChainFilename = Some chain /\ the_data boot chain key root !! KeyFilename = Some key /\
  the_data boot chain key root !! CACertNamespaceConfigMapDataName = Some root.
Proof. done. Qed.

(** What a Secret that was built holds, if it can be used again *)
Lemma buildSecret_good n pod cur d x :
  keys_stable -> Decode "" = None ->
  buildSecret n pod cur = Ok (d, x) ->
  exists boot chain key root, KSecret.Data d = the_data boot chain key root /\ KSecret.OwnerReferences d = [owner_of pod] /\
    e_Bootstrap e (buildWorkloadContext pod) = Ok boot /\ ParseCertAndGetExpiryTimestamp Decode ParseCertificate NotAfter chain = Ok x /\
    normalize_key key = Ok key /\ key <> "" /\ chain <> "" /\
    (root <> "" -> negb (String.eqb activeRootCert "") && negb (String.eqb root activeRootCert) = false).
Proof.
  intros Hk Hd H. unfold buildSecret in H. apply res_bind_ok in H as (boot & Hb & H). apply res_bind_ok in H as ([[[chain key] root] x'] & Hc & H).
  injection H as <- <-. exists boot, chain, key, root. split; [done|]. split; [done|]. split; [done|].
  assert (Hne : forall t, ParseCertAndGetExpiryTimestamp Decode ParseCertificate NotAfter chain = Ok t -> chain <> "").
  { intros t Ht ->. unfold ParseCertAndGetExpiryTimestamp in Ht. by rewrite Hd in Ht. }
  destruct (reusableWorkloadCertificate cur activeRootCert (e_Now e n)) as [[[[chain0 key0] root0] x0]|] eqn:Er.
  - apply res_bind_ok in Hc as (key1 & Hn & Hc). injection Hc as -> -> -> ->. unfold reusableWorkloadCertificate in Er.
    destruct cur as [s|]; [|done]. destruct (_ || _); [done|]. destruct (negb _ && negb _) eqn:Eq; [done|].
    destruct (ParseCertAndGetExpiryTimestamp _ _ _ _) as [t| |] eqn:Ep; [|done..]. destruct (_ <=? _); [done|]. injection Er as <- <- <- <-.
    destruct (ks_normal Hk _ _ Hn) as [H1 H2]. split_and!; try done. by eapply Hne.
  - unfold issueWorkloadCertificate in Hc. destruct activeAuthority as [a|] eqn:Ea; [|done].
    apply res_bind_ok in Hc as ([csr key0] & Hg & Hc). apply res_bind_ok in Hc as (l & Hs & Hc). apply res_bind_ok in Hc as (t & Hp & Hc).
    destruct (GetRootCertPem a) as [rc|] eqn:Erc; [|done]. injection Hc as <- <- <- <-. destruct (ks_generated Hk _ _ _ _ Hg) as [H1 H2].
    split_and!; try done; [by eapply Hne|]. intros Hroot. unfold activeRootCert. rewrite Ea, Erc. simpl.
    destruct (String.eqb rc "") eqn:Ez; [by rewrite (proj1 (String.eqb_eq _ _) Ez)|]. rewrite String.eqb_refl. by rewrite andb_false_r.
Qed.

(** ** Theorems *)

(** C19 Credentials of other workloads are never touched: whatever a reconciliation read and
    decided, if its write changes a Secret of the API server, it is the one named after the pod;
    a new one belongs to the pod, and one that was there is the version that was read, and that
    version belonged to the pod, by name and UID. *)
Theorem foreign_credentials_untouched {API} api_get api_create api_update api_delete c key pod r n c' p (s s' : API) k :
  api_documented api_get api_create api_update api_delete ->
  reconcile_plan c key pod r n = (c', Ok p) -> write_plan api_get api_create api_update api_delete s p = Some s' ->
  api_get s' k <> api_get s k ->
  exists pd, pod = Some pd /\ k = secret_key pd /\
    match api_get s k with
    | None => exists y, api_get s' k = Some y /\ KSecret.OwnerReferences y = [owner_of pd]
    | Some cur => exists rd, r = found rd /\ workloadSecretOwnedByPod rd pd = true /\
                    KSecret.ResourceVersion cur = KSecret.ResourceVersion rd /\ KSecret.UID cur = KSecret.UID rd
    end.
Proof. apply reconcile_writes. Qed.

(** The rotations of the controller: whatever the order of reconciliations, timers and changes
    of the configuration, the timer is set exactly if there is a rotation, fires at the latest
    when the earliest one is due (or at once), and what it does then is to queue every pod that
    is due and to keep exactly the others. *)
Theorem rotation_timer_tracks c n :
  (forall i j, (i <= j)%nat -> e_Now e i <= e_Now e j) -> rtc ctl_step (new_controller, 0%nat) (c, n) ->
  (rotationTimer c = None <-> rotations c = ∅) /\
  (forall fires, rotationTimer c = Some fires -> forall k r, rotations c !! k = Some r -> fires <= Z.max (e_Now e n) r) /\
  forall now, (forall k r, rotations c !! k = Some r -> r <= now -> k ∈ queued (flushDueRotations c now)) /\
    (forall k r, rotations (flushDueRotations c now) !! k = Some r <-> rotations c !! k = Some r /\ now < r).
Proof.
  intros Hm Hr. assert (Ha : armed c (e_Now e n)).
  { remember (new_controller, 0%nat) as s0 eqn:E0. remember (c, n) as s1 eqn:E1.
    assert (H0 : armed (fst s0) (e_Now e (snd s0))) by (subst; by split). clear E0. revert c n E1.
    induction Hr as [s|s a b Hst _ IH]; intros c n E1; [by subst|]. apply IH; [|done]. by eapply armed_step. }
  destruct Ha as [Hok Hf]. split; [|split].
  - unfold timer_ok in Hok. destruct (rotationTimer c) as [f|]; [|done]. split; [done|]. intros E. destruct Hok as [(k & Hk) _].
    rewrite E, lookup_empty in Hk. done.
  - intros fires E k r Hk. specialize (Hf fires E). unfold timer_ok in Hok. rewrite E in Hok. destruct Hok as [_ Hall]. specialize (Hall k r Hk). lia.
  - intros now. apply flush_spec.
Qed.

(** A certificate is renewed in time: after a reconciliation that left the pod with a certificate,
    its rotation is scheduled between now and the expiry of that certificate (for lifetimes
    below [2^61] ns). *)
Theorem renewal_before_expiry c key p n x :
  p = Keep x \/ (exists k d, p = Create k d x) \/ (exists k cur d, p = Update k cur d x) ->
  0 < x - e_Now e n < 2 ^ 61 ->
  exists at_, rotations (reconcile_done c key p n) !! key = Some at_ /\ e_Now e n <= at_ < x.
Proof.
  intros Hp Hl. exists (e_Now e n + workloadRotationDelay (e_Now e n) x).
  assert (E : reconcile_done c key p n = scheduleRotation c key x (e_Now e n)) by (destruct Hp as [->|[(? & ? & ->)|(? & ? & ? & ->)]]; done).
  rewrite E, schedule_lookup. split; [done|]. pose proof (rotation_delay_range (e_Now e n) x Hl). lia.
Qed.

(** Reconciliation settles: once the Secret it wanted is stored, reconciling the pod again, while
    the certificate has more than a fifth of its time to live left, finds nothing to write. *)
Theorem reconcile_settles n pod r p k d x y n' :
  keys_stable -> Decode "" = None -> plan_apply n pod r = Ok p ->
  p = Create k d x \/ (exists cur, p = Update k cur d x) ->
  KSecret.Data y = KSecret.Data d -> KSecret.OwnerReferences y = KSecret.OwnerReferences d -> Pod.UID pod <> "" ->
  KSecret.Data d !! CACertNamespaceConfigMapDataName <> Some "" -> Z.quot workloadCertTTL 5 < Sub x (e_Now e n') ->
  plan_apply n' pod (found y) = Ok (Keep x).
Proof.
  intros Hk Hd Hp Hpd Hy Ho Hu Hroot Hl. unfold plan_apply in Hp. destruct (mounts_other_secret pod) eqn:Em; [done|].
  assert (Hb : exists cur dd, buildSecret n pod cur = Ok (dd, x) /\ KSecret.Data d = KSecret.Data dd /\ KSecret.OwnerReferences d = KSecret.OwnerReferences dd).
  { destruct r as [cur| |err]; [|apply res_bind_ok in Hp as ([dd xx] & Hb & Hp)|done].
    - destruct (negb _); [done|]. apply res_bind_ok in Hp as ([dd xx] & Hb & Hp). exists (Some cur), dd.
      destruct (_ && _); injection Hp as <-; destruct Hpd as [E|(c0 & E)]; try discriminate. injection E as _ _ <- <-. done.
    - injection Hp as <-. destruct Hpd as [E|(c0 & E)]; try discriminate. injection E as _ <- <-. by exists None, dd. }
  destruct Hb as (cur & dd & Hb & E1 & E2).
  destruct (buildSecret_good n pod cur dd x Hk Hd Hb) as (boot & chain & key & root & G1 & G2 & G3 & G4 & G5 & G6 & G7 & G8).
  assert (Hr : root <> "") by (intros ->; apply Hroot; by rewrite E1, G1). specialize (G8 Hr).
  unfold plan_apply. rewrite Em. assert (Hown : workloadSecretOwnedByPod y pod = true).
  { unfold workloadSecretOwnedByPod. rewrite Ho, E2, G2. simpl. rewrite !String.eqb_refl. by rewrite (proj2 (String.eqb_neq _ _) Hu). }
  rewrite Hown. cbn [negb].
  assert (Hre : reusableWorkloadCertificate (Some y) activeRootCert (e_Now e n') = Some (chain, key, root, x)).
  { unfold reusableWorkloadCertificate. rewrite Hy, E1, G1. destruct (the_data_lookup boot chain key root) as (-> & -> & ->). cbn [default].
    change (default "" (Some ?a)) with a. unfold id. rewrite (proj2 (String.eqb_neq chain "") G7), (proj2 (String.eqb_neq key "") G6), (proj2 (String.eqb_neq root "") Hr).
    cbn [orb]. rewrite G8, G4. by rewrite (proj2 (Z.leb_gt _ _) Hl). }
  unfold buildSecret. rewrite G3. cbn [mbind res_bind]. rewrite Hre, G5. cbn [mbind res_bind mret res_ret].
  rewrite bool_decide_eq_true_2 by (by rewrite Hy, E1, G1). rewrite bool_decide_eq_true_2 by (by rewrite Ho, E2, G2). done.
Qed.

(** *** A failed rotation is forgotten *)

Inductive fate : Type := Requeue | Forget.

(** [processNextItem] of [controllers.Queue]: what becomes of a key *)
Definition after_work (numRequeues maxAttempts : Z) (failed : bool) : fate :=
  if failed then (if numRequeues + 1 <? maxAttempts then Requeue else Forget) else Forget.
Definition inherentXDSMaxAttempts : Z := 5.

(** The rotation of a pod is taken out when it is due; a reconciliation that fails does not
    schedule another, and after the fifth failure, within a tenth of a second, the queue
    forgets the key: nothing is left that would renew the certificate. *)
Theorem failed_rotation_forgotten c0 key at_ now pd r n err :
  rotations c0 !! key = Some at_ -> at_ <= now -> shouldManageInherentXDSPod pd = true -> Pod.Deleting pd = false ->
  plan_apply n pd r = Err err ->
  let c := flushDueRotations c0 now in
  reconcile_plan c key (Some pd) r n = (c, Err err) /\ rotations c !! key = None /\ after_work 4 inherentXDSMaxAttempts true = Forget.
Proof.
  intros Hk Hle Hs Hdel Hp. cbv zeta. unfold reconcile_plan. rewrite Hs, Hdel, Hp. cbn [negb orb]. split; [done|]. split; [|done].
  destruct (rotations (flushDueRotations c0 now) !! key) as [x|] eqn:E; [|done].
  apply (proj2 (flush_spec c0 now)) in E as [E1 E2]. rewrite Hk in E1. injection E1 as <-. lia.
Qed.

End controller.

(** ** Examples *)

Definition demo_pod : Pod := Pod.mk "app" "ns" "uid-1" {["templates" := "triple-engine"]} false "" "10.0.0.1" [] [].
Definition demo_expiry (c : string) : Time := Z.of_nat (String.length c) * 1000.
(** An authority whose certificates are valid for some thousand nanoseconds more with every call *)
Definition demo_authority (base : string) : Authority :=
  mkAuthority (fun n _ _ => Ok [base +:+ str_join (repeat "c" n) ""]) (Some "root").
Definition demo_env (base : string) : env :=
  mkEnv (fun _ _ => Ok ("csr", "key")) (fun n => Z.of_nat n * 1000) "" "dubbod:15012" "" "" None (Some (demo_authority base))
    (fun ctx => Ok ("bootstrap of " +:+ nodeID ctx)).
Definition demo_keys (s : string) : option (string * string) := if String.eqb s "" then None else Some ("PRIVATE KEY", s).

Definition demo_plan_apply (base : string) (n : nat) (r : read_result) : res plan :=
  plan_apply (fun _ => "00000000") demo_decode (Cert := string) (@Ok string) demo_expiry demo_keys (Key := string)
    (@Ok string) (@Ok string) (@Ok string) (@Ok string) (fun _ bytes => bytes) 20000 (demo_env base) n demo_pod r.

(** A certificate that lives for less than a fifth of the time to live that is asked for is not
    used again even when it is new: the reconciliation that follows the write issues another. *)
Theorem short_certificate_reissued :
  match demo_plan_apply "cc" 1 not_found with
  | Ok (Create _ d _) => match demo_plan_apply "cc" 2 (found d) with Ok (Update _ _ _ _) => True | _ => False end
  | _ => False
  end.
Proof. by vm_compute. Qed.

(** An API server that keeps one version number *)
Notation demo_api := (gmap NN KSecret).
Definition demo_get (s : demo_api) (k : NN) : option KSecret := s !! k.
Definition demo_create (s : demo_api) (k : NN) (x : KSecret) : option demo_api :=
  match s !! k with None => Some (<[k := KSecret.mk (KSecret.Data x) (KSecret.OwnerReferences x) "u" "1"]> s) | Some _ => None end.
Definition demo_update (s : demo_api) (k : NN) (x : KSecret) : option demo_api :=
  match s !! k with
  | Some cur => if String.eqb (KSecret.ResourceVersion cur) (KSecret.ResourceVersion x) && String.eqb (KSecret.UID cur) (KSecret.UID x)
                then Some (<[k := KSecret.mk (KSecret.Data x) (KSecret.OwnerReferences x) (KSecret.UID x) (KSecret.ResourceVersion x +:+ "1")]> s) else None
  | None => None
  end.
Definition demo_delete (s : demo_api) (k : NN) (uid v : string) : option demo_api :=
  match s !! k with
  | Some cur => if String.eqb (KSecret.UID cur) uid && String.eqb (KSecret.ResourceVersion cur) v then Some (delete k s) else None
  | None => None
  end.

Lemma demo_api_documented : api_documented demo_get demo_create demo_update demo_delete.
Proof.
  split; unfold demo_get.
  - intros s k x s'. unfold demo_create. destruct (s !! k) eqn:E; [done|]. intros [= <-]. split; [done|]. split.
    + eexists. split; [apply lookup_insert_eq|done].
    + intros k' Hk. by rewrite lookup_insert_ne.
  - intros s k x s'. unfold demo_update. destruct (s !! k) as [cur|] eqn:E; [|done]. destruct (_ && _) eqn:Ev; [|done]. intros [= <-].
    apply andb_true_iff in Ev as [Ev Eu]. apply String.eqb_eq in Ev, Eu. split; [by exists cur|]. split.
    + eexists. split; [apply lookup_insert_eq|done].
    + intros k' Hk. by rewrite lookup_insert_ne.
  - intros s k uid v s'. unfold demo_delete. destruct (s !! k) as [cur|] eqn:E; [|done]. destruct (_ && _) eqn:Ev; [|done]. intros [= <-].
    apply andb_true_iff in Ev as [Eu Ev]. apply String.eqb_eq in Ev, Eu. split; [by exists cur|]. split; [apply lookup_delete_eq|].
    intros k' Hk. by rewrite lookup_delete_ne.
Qed.

Definition demo_desired : KSecret :=
  match demo_plan_apply "cccccccccccccccccccc" 1 not_found with Ok (Create _ d _) => d | _ => KSecret.mk ∅ [] "" "" end.
Definition demo_secret_key : NN := ("ns", "dubbo-xds-app-00000000").

Lemma foreign_credentials_untouched_witness :
  exists s', demo_create ∅ demo_secret_key demo_desired = Some s' /\
    exists y, demo_get s' demo_secret_key = Some y /\ KSecret.OwnerReferences y = [Owner.mk "v1" "Pod" "app" "uid-1"].
Proof.
  assert (E : exists s', demo_create ∅ demo_secret_key demo_desired = Some s').
  { unfold demo_create. rewrite lookup_empty. by eexists. }
  destruct E as [s' E]. exists s'. split; [exact E|].
  destruct (foreign_credentials_untouched "templates" (fun _ => "00000000") demo_decode (Cert := string) (@Ok string) demo_expiry demo_keys
    (Key := string) (@Ok string) (@Ok string) (@Ok string) (@Ok string) (fun _ bytes => bytes) 20000 (demo_env "cccccccccccccccccccc")
    demo_get demo_create demo_update demo_delete new_controller ("ns", "app") (Some demo_pod) not_found 1 new_controller
    (Create demo_secret_key demo_desired 21000) ∅ s' demo_secret_key demo_api_documented) as (pd & Hpd & _ & H).
  - by vm_compute.
  - exact E.
  - destruct (create_law _ _ _ _ demo_api_documented _ _ _ _ E) as (Hn & (y & Hy & _) & _). rewrite Hy, Hn. done.
  - injection Hpd as <-. exact H.
Defined.

Lemma rotation_timer_tracks_witness :
  let c := scheduleRotation new_controller ("ns", "app") 21000 1000 in
  (forall fires, rotationTimer c = Some fires -> fires <= Z.max 1000 17000) /\ ("ns", "app") ∈ queued (flushDueRotations c 17000).
Proof.
  cbv zeta. set (c := scheduleRotation _ _ _ _).
  destruct (rotation_timer_tracks "templates" (fun _ => "00000000") demo_decode (Cert := string) (@Ok string) demo_expiry demo_keys
    (Key := string) (@Ok string) (@Ok string) (@Ok string) (@Ok string) (fun _ bytes => bytes) 20000 (demo_env "c") c 1) as (_ & H2 & H3).
  - intros i j Hij. simpl. lia.
  - eapply rtc_l; [|apply rtc_refl]. refine (cs_done _ _ _ _ _ _ _ _ _ _ _ _ (demo_env "c") new_controller 0 ("ns", "app") (Keep 21000) 1 _). lia.
  - assert (E : rotations c !! ("ns", "app") = Some 17000) by (by vm_compute). split.
    + intros fires Hf. exact (H2 fires Hf _ _ E).
    + apply (proj1 (H3 17000) _ 17000 E). lia.
Defined.

Lemma renewal_before_expiry_witness :
  exists at_, rotations (reconcile_done (demo_env "c") new_controller ("ns", "app") (Keep 21000) 1) !! ("ns", "app") = Some at_ /\ 1000 <= at_ < 21000.
Proof. apply (renewal_before_expiry (demo_env "c") new_controller ("ns", "app") (Keep 21000) 1 21000); [by left|simpl; lia]. Defined.

Lemma reconcile_settles_witness : demo_plan_apply "cccccccccccccccccccc" 2 (found demo_desired) = Ok (Keep 21000).
Proof.
  apply (reconcile_settles (fun _ => "00000000") demo_decode (Cert := string) (@Ok string) demo_expiry demo_keys (Key := string)
    (@Ok string) (@Ok string) (@Ok string) (@Ok string) (fun _ bytes => bytes) 20000 (demo_env "cccccccccccccccccccc") 1 demo_pod not_found
    (Create demo_secret_key demo_desired 21000) demo_secret_key demo_desired 21000 demo_desired 2).
  - split.
    + intros n h csr key [= <- <-]. by vm_compute.
    + intros key key' H. unfold normalize_key, ParsePemEncodedKey, demo_keys in H. destruct (String.eqb key "") eqn:Ek; [done|].
      simpl in H. injection H as <-. unfold normalize_key, ParsePemEncodedKey, demo_keys. rewrite Ek. split; [done|]. by apply String.eqb_neq.
  - done.
  - by vm_compute.
  - by left.
  - done.
  - done.
  - done.
  - by vm_compute.
  - by vm_compute.
Defined.
