(* ===== verification/LabelSyntax.v ===== *)
(** * Keys and values of labels

    [pkg/config/labels/instance.go]: the regular expressions of label keys and
    values and the check of a set of labels.  A regular expression is matched
    by derivatives; [matches] is its language. *)

From S2P Require Import Prelude GoStrings GoNet ConfigModel.

(** ** Regular expressions

    What the expressions of the package use: classes of characters,
    concatenation, [?] and [*].  They are anchored at both ends. *)

Inductive regexp : Type :=
  | RVoid
  | REps
  | RClass (p : ascii -> bool)
  | RCat (r1 r2 : regexp)
  | RAlt (r1 r2 : regexp)
  | RStar (r : regexp).

Definition RChar (c : ascii) : regexp := RClass (Ascii.eqb c).
Definition ROpt (r : regexp) : regexp := RAlt r REps.

Fixpoint nullable (r : regexp) : bool :=
  match r with
  | RVoid | RClass _ => false
  | REps | RStar _ => true
  | RCat r1 r2 => nullable r1 && nullable r2
  | RAlt r1 r2 => nullable r1 || nullable r2
  end.

Fixpoint derive (c : ascii) (r : regexp) : regexp :=
  match r with
  | RVoid | REps => RVoid
  | RClass p => if p c then REps else RVoid
  | RCat r1 r2 => RAlt (RCat (derive c r1) r2) (if nullable r1 then derive c r2 else RVoid)
  | RAlt r1 r2 => RAlt (derive c r1) (derive c r2)
  | RStar r => RCat (derive c r) (RStar r)
  end.

Fixpoint MatchString (r : regexp) (s : string) : bool :=
  match s with
  | EmptyString => nullable r
  | String c s => MatchString (derive c r) s
  end.

(** The language of an expression. *)
Inductive matches : regexp -> string -> Prop :=
  | m_eps : matches REps ""
  | m_class p c : p c = true -> matches (RClass p) (String c "")
  | m_cat r1 r2 s t : matches r1 s -> matches r2 t -> matches (RCat r1 r2) (s +:+ t)
  | m_left r1 r2 s : matches r1 s -> matches (RAlt r1 r2) s
  | m_right r1 r2 s : matches r2 s -> matches (RAlt r1 r2) s
  | m_star_nil r : matches (RStar r) ""
  | m_star r s t : matches r s -> matches (RStar r) t -> matches (RStar r) (s +:+ t).
#[local] Hint Constructors matches : core.

(** ** The expressions of the package *)

Definition any_of (l : list ascii) (c : ascii) : bool := existsb (Ascii.eqb c) l.

Definition re_alnum : regexp := RClass is_alnum.
Definition label_char (c : ascii) : bool := any_of ["-"%char] c || is_alnum c.
Definition name_char (c : ascii) : bool := is_alnum c || any_of ["-"; "_"; "."]%char c.

Definition dns1123LabelFmt : regexp := RCat re_alnum (ROpt (RCat (RStar (RClass label_char)) re_alnum)).
Definition qualifiedNameFmt : regexp := RCat (ROpt (RCat re_alnum (RStar (RClass name_char)))) re_alnum.
Definition dnsNamePrefixFmt : regexp :=
  RCat dns1123LabelFmt (RCat (RStar (RCat (RChar ".") dns1123LabelFmt)) (RChar "/")).
Definition dnsNamePrefixMaxLength : nat := 253.

Definition labelValueRegexp : regexp := ROpt qualifiedNameFmt.
Definition tagRegexp : regexp := RCat (ROpt dnsNamePrefixFmt) qualifiedNameFmt.

(** The groups of [tagRegexp]: a text that matches is cut in one place only
    ([tag_groups_unique]), so that the preferences of the engine do not
    matter. *)
Fixpoint tag_cut (n : nat) (s : string) : option (string * string) :=
  if MatchString (ROpt dnsNamePrefixFmt) (str_take n s) && MatchString qualifiedNameFmt (str_drop n s)
  then Some (str_take n s, str_drop n s)
  else match n with O => None | S n => tag_cut n s end.
Definition FindStringSubmatch (s : string) : option (string * string) := tag_cut (String.length s) s.

(** ** Errors

    An error of [fmt.Errorf] is its format with its arguments, a multierror the
    list of its errors, nil the empty list. *)
Inductive ferror : Type :=
  | Errorf (format : string) (args : list farg)
with farg : Type :=
  | FInt (z : Z)
  | FStr (s : string)
  | FStrs (l : list string)
  | FErr (e : list ferror)
  | FText (format : string) (args : list farg).

Notation errors := (list ferror).
Notation fail f args := [Errorf f args].

(** ** Checks *)

Definition validateTagKey (k : string) : errors :=
  match FindStringSubmatch k with
  | None => fail "invalid tag key: %q" [FStr k]
  | Some (m1, m2) =>
      if (0 <? String.length m1)%nat && (dnsNamePrefixMaxLength <? String.length m1 - 1)%nat
      then fail "invalid tag key: %q (DNS prefix is too long)" [FStr k]
      else if (DNS1123LabelMaxLength <? String.length m2)%nat
      then fail "invalid tag key: %q (name is too long)" [FStr k]
      else []
  end.

Definition validate_label (kv : string * string) : errors :=
  let '(k, v) := kv in
  validateTagKey k ++ (if negb (MatchString labelValueRegexp v) then fail "invalid tag value: %q" [FStr v] else []).

Definition labels_Validate `{RangeOrder} (i : nmap string string) : errors :=
  match i with None => [] | Some m => concat (map validate_label (range m)) end.

(** ** Lemmas *)

Lemma matches_cat_inv r1 r2 s :
  matches (RCat r1 r2) s <-> exists a b, s = a +:+ b /\ matches r1 a /\ matches r2 b.
Proof. split; [inversion 1; subst; eauto 6|]. intros (a & b & -> & ? & ?). by constructor. Qed.

Lemma matches_alt_inv r1 r2 s : matches (RAlt r1 r2) s <-> matches r1 s \/ matches r2 s.
Proof. split; [inversion 1; subst; eauto|]. intros [?|?]; eauto. Qed.

Lemma matches_class_inv p s : matches (RClass p) s <-> exists c, s = String c "" /\ p c = true.
Proof. split; [inversion 1; subst; eauto|]. intros (c & -> & ?). by constructor. Qed.

Lemma matches_eps_inv s : matches REps s <-> s = "".
Proof. split; [by inversion 1|]. intros ->. constructor. Qed.

Lemma matches_void s : ~ matches RVoid s.
Proof. inversion 1. Qed.

Lemma nullable_spec r : nullable r = true <-> matches r "".
Proof.
  induction r; simpl.
  - split; [done|]. by intros ?%matches_void.
  - by rewrite matches_eps_inv.
  - rewrite matches_class_inv. naive_solver.
  - rewrite andb_true_iff, matches_cat_inv, IHr1, IHr2. split; [by exists "", ""|].
    intros (a & b & E & Ha & Hb). destruct a; [|done]. simpl in E. by subst.
  - rewrite orb_true_iff, matches_alt_inv, IHr1, IHr2. done.
  - split; [constructor|done].
Qed.

(** A non-empty word of a star starts with a non-empty word of its body. *)
Lemma matches_star_cons r c s :
  matches (RStar r) (String c s) <-> exists a b, s = a +:+ b /\ matches r (String c a) /\ matches (RStar r) b.
Proof.
  split.
  - remember (RStar r) as R eqn:ER. remember (String c s) as w eqn:Ew. intros Hm. revert c s Ew.
    induction Hm as [| | | | | |r' a t Ha _ Ht IH]; try done; injection ER as ->; intros c s Ew.
    destruct a as [|d a]; simpl in Ew.
    + by apply IH.
    + injection Ew as -> <-. eauto.
  - intros (a & b & -> & Ha & Hb). by apply (m_star r (String c a) b).
Qed.

Lemma derive_spec c r s : matches (derive c r) s <-> matches r (String c s).
Proof.
  revert s. induction r as [| |p|r1 IH1 r2 IH2|r1 IH1 r2 IH2|r IH]; intros s; simpl.
  - split; by intros ?%matches_void.
  - rewrite matches_eps_inv. split; [by intros ?%matches_void|done].
  - rewrite matches_class_inv. destruct (p c) eqn:Ep.
    + rewrite matches_eps_inv. split; [intros ->; eauto|]. by intros (d & [= <- <-] & _).
    + split; [by intros ?%matches_void|]. intros (d & [= <- _] & ?). congruence.
  - rewrite matches_alt_inv, matches_cat_inv, matches_cat_inv. split.
    + intros [(a & b & -> & Ha%IH1 & Hb)|Hd]; [by exists (String c a), b|].
      destruct (nullable r1) eqn:En; [|by apply matches_void in Hd].
      exists "", (String c s). rewrite <- nullable_spec, <- IH2. done.
    + intros (a & b & E & Ha & Hb). destruct a as [|d a]; simpl in E.
      * right. apply nullable_spec in Ha as ->. apply IH2. by subst.
      * left. injection E as <- ->. exists a, b. by rewrite IH1.
  - by rewrite !matches_alt_inv, IH1, IH2.
  - rewrite matches_cat_inv, matches_star_cons. setoid_rewrite IH. done.
Qed.

(** The matcher decides the language of the expression. *)
Lemma MatchString_spec r s : MatchString r s = true <-> matches r s.
Proof.
  revert r. induction s as [|c s IH]; intros r; simpl; [apply nullable_spec|].
  by rewrite IH, derive_spec.
Qed.

(** *** Words of a class *)

Fixpoint str_all (p : ascii -> bool) (s : string) : bool :=
  match s with
  | EmptyString => true
  | String c s => p c && str_all p s
  end.

(** Whether the last character, or the one before when there is none, is of the
    class. *)
Fixpoint last_is (p : ascii -> bool) (before : bool) (s : string) : bool :=
  match s with
  | EmptyString => before
  | String c s => last_is p (p c) s
  end.
(** Not empty, with the first and the last character of the class. *)
Definition edges (p : ascii -> bool) (s : string) : bool :=
  match s with
  | EmptyString => false
  | String c s => p c && last_is p (p c) s
  end.

Lemma str_all_app p a b : str_all p (a +:+ b) = str_all p a && str_all p b.
Proof. induction a as [|c a IH]; simpl; [done|]. by rewrite IH, andb_assoc. Qed.

Lemma last_is_app p d a c : last_is p d (a +:+ String c "") = p c.
Proof. revert d. induction a as [|e a IH]; intros d; simpl; [done|]. apply IH. Qed.

Lemma str_snoc s : s = "" \/ exists a c, s = a +:+ String c "".
Proof.
  induction s as [|c s [->|(a & d & ->)]]; [by left|right..].
  - by exists "", c.
  - by exists (String c a), d.
Qed.

Lemma str_all_no_char p c s : p c = false -> str_all p s = true -> no_char c s = true.
Proof.
  intros Hp. induction s as [|d s IH]; simpl; [done|]. intros; breflect. rewrite IH by done.
  rewrite andb_true_r. apply negb_true_iff, Ascii.eqb_neq. congruence.
Qed.

Lemma matches_star_class p s : matches (RStar (RClass p)) s <-> str_all p s = true.
Proof.
  induction s as [|c s IH]; simpl; [split; eauto|]. rewrite matches_star_cons, andb_true_iff, <- IH. split.
  - intros (a & b & -> & Ha & Hb). apply matches_class_inv in Ha as (d & [= <- ->] & Hp). done.
  - intros [Hp Hs]. exists "", s. split; [done|]. split; [by constructor|done].
Qed.

Definition dns_label (s : string) : bool := str_all label_char s && edges is_alnum s.
Definition label_name (s : string) : bool := str_all name_char s && edges is_alnum s.

Lemma alnum_label c : is_alnum c = true -> label_char c = true.
Proof. unfold label_char. intros ->. by rewrite orb_true_r. Qed.
Lemma alnum_name c : is_alnum c = true -> name_char c = true.
Proof. unfold name_char. by intros ->. Qed.

Lemma dns1123LabelFmt_spec s : matches dns1123LabelFmt s <-> dns_label s = true.
Proof.
  unfold dns1123LabelFmt, dns_label, re_alnum, ROpt. rewrite matches_cat_inv, andb_true_iff. split.
  - intros (a & b & -> & (c & -> & Hc)%matches_class_inv & [Hb|Hb%matches_eps_inv]%matches_alt_inv).
    + apply matches_cat_inv in Hb as (u & v & -> & Hu%matches_star_class & (d & -> & Hd)%matches_class_inv).
      simpl. rewrite str_all_app, last_is_app, Hu, Hc, Hd. simpl. by rewrite !alnum_label.
    + subst b. simpl. by rewrite Hc, alnum_label.
  - destruct s as [|c s]; [by intros [_ ?]|]. simpl. rewrite !andb_true_iff. intros [[Hc Hs] [Hc' Hl]].
    exists (String c ""), s. split; [done|]. split; [by constructor|]. apply matches_alt_inv.
    destruct (str_snoc s) as [->|(a & d & ->)]; [right; constructor|left].
    rewrite str_all_app, andb_true_iff in Hs. rewrite last_is_app in Hl.
    apply matches_cat_inv. exists a, (String d ""). split; [done|].
    rewrite matches_star_class, matches_class_inv. destruct Hs. eauto.
Qed.

Lemma qualifiedNameFmt_spec s : matches qualifiedNameFmt s <-> label_name s = true.
Proof.
  unfold qualifiedNameFmt, label_name, re_alnum, ROpt. rewrite matches_cat_inv, andb_true_iff. split.
  - intros (a & b & -> & [Ha|Ha%matches_eps_inv]%matches_alt_inv & (d & -> & Hd)%matches_class_inv).
    + apply matches_cat_inv in Ha as (u & v & -> & (c & -> & Hc)%matches_class_inv & Hv%matches_star_class).
      simpl. rewrite str_all_app, last_is_app, Hv, Hc, Hd. simpl. by rewrite !alnum_name.
    + subst a. simpl. by rewrite Hd, alnum_name.
  - destruct (str_snoc s) as [->|(a & d & ->)]; [by intros [_ ?]|].
    rewrite str_all_app. simpl. rewrite !andb_true_iff. intros [[Ha _] He].
    exists a, (String d ""). split; [done|]. rewrite matches_alt_inv, matches_class_inv.
    destruct a as [|c a]; simpl in He, Ha; apply andb_true_iff in He as [Hc He].
    + split; [right; constructor|]. eauto.
    + rewrite last_is_app in He. apply andb_true_iff in Ha as [_ Ha]. split; [left|eauto]. apply matches_cat_inv.
      exists (String c ""), a. rewrite matches_class_inv, matches_star_class. eauto 6.
Qed.

(** The check of a label by hand is the regular expression of the package. *)
Lemma dns1123_rest_spec b s : dns1123_rest b s = str_all label_char s && last_is is_alnum b s.
Proof.
  revert b. induction s as [|c s IH]; intros b; simpl; [done|]. rewrite IH, andb_assoc. f_equal. f_equal.
  unfold label_char. simpl. rewrite orb_false_r. apply orb_comm.
Qed.
Lemma dns1123LabelRegexp_spec s : dns1123LabelRegexp s = MatchString dns1123LabelFmt s.
Proof.
  apply eq_true_iff_eq. rewrite MatchString_spec, dns1123LabelFmt_spec. unfold dns_label.
  destruct s as [|c s]; simpl; [done|]. rewrite dns1123_rest_spec, !andb_true_iff. split.
  - intros (Hc & Hs & Hl). rewrite Hc in *. by rewrite alnum_label.
  - intros ((_ & Hs) & Hc & Hl). rewrite Hc in *. done.
Qed.

(** *** Keys *)

Lemma dotted_labels s :
  matches (RStar (RCat (RChar ".") dns1123LabelFmt)) s <->
  exists ls, Forall (fun l => dns_label l = true) ls /\ forall l, l +:+ s = str_join (l :: ls) ".".
Proof.
  split.
  - remember (RStar _) as R eqn:ER. intros Hm.
    induction Hm as [| | | | |r|r a t Ha _ Ht IH]; try done; injection ER as ->.
    + exists []. split; [done|]. intros l. apply str_app_nil_r.
    + apply matches_cat_inv in Ha as (u & v & -> & (c & -> & Hc)%matches_class_inv & Hv%dns1123LabelFmt_spec).
      apply Ascii.eqb_eq in Hc as <-. destruct (IH eq_refl) as (ls & Hls & Es). exists (v :: ls).
      split; [by constructor|]. intros l.
      change (str_join (l :: v :: ls) ".") with (l +:+ "." +:+ str_join (v :: ls) "."). rewrite <- Es.
      simpl. done.
  - intros (ls & Hls & Es). specialize (Es ""). simpl in Es. subst s.
    induction Hls as [|l ls Hl Hls IH]; [constructor|].
    change (matches (RStar (RCat (RChar ".") dns1123LabelFmt)) ("." +:+ str_join (l :: ls) ".")).
    replace ("." +:+ str_join (l :: ls) ".") with
      (("." +:+ l) +:+ (match ls with [] => "" | _ => "." +:+ str_join ls "." end)).
    + constructor; [|by destruct ls].
      apply matches_cat_inv. exists ".", l. rewrite dns1123LabelFmt_spec. split; [done|]. split; [|done]. by constructor.
    + destruct ls; simpl; [by rewrite str_app_nil_r|done].
Qed.

(** The labels of a prefix, joined by dots and followed by a slash. *)
Definition dns_prefix (ls : list string) : Prop := ls <> [] /\ Forall (fun l => dns_label l = true) ls.

Lemma dnsNamePrefixFmt_spec s :
  matches dnsNamePrefixFmt s <-> exists ls, dns_prefix ls /\ s = str_join ls "." +:+ "/".
Proof.
  unfold dnsNamePrefixFmt. rewrite matches_cat_inv. split.
  - intros (a & b & -> & Ha%dns1123LabelFmt_spec & (u & v & -> & Hu & (c & -> & Hc)%matches_class_inv)%matches_cat_inv).
    apply Ascii.eqb_eq in Hc as <-. apply dotted_labels in Hu as (ls & Hls & Es). exists (a :: ls).
    split; [split; [done|by constructor]|]. by rewrite <- Es, str_app_assoc.
  - intros ([|l ls] & [Hne Hls] & ->); [done|]. apply Forall_cons in Hls as [Hl Hls].
    exists l, ((match ls with [] => "" | _ => "." +:+ str_join ls "." end) +:+ "/").
    rewrite dns1123LabelFmt_spec. split; [|split; [done|]].
    + rewrite <- str_app_assoc. f_equal. destruct ls; simpl; [by rewrite str_app_nil_r|done].
    + apply matches_cat_inv. eexists _, "/". split; [done|]. split; [|by constructor].
      apply dotted_labels. exists ls. split; [done|]. intros l'. destruct ls; simpl; [by rewrite str_app_nil_r|done].
Qed.

Lemma label_name_no_slash s : label_name s = true -> no_char "/" s = true.
Proof. unfold label_name. rewrite andb_true_iff. intros [Hs _]. by apply (str_all_no_char name_char). Qed.

(** A key is cut behind its last slash. *)
Lemma tag_groups_cut a b :
  matches (ROpt dnsNamePrefixFmt) a -> matches qualifiedNameFmt b ->
  String.length a = match LastIndex (a +:+ b) "/" with Some i => S i | None => O end.
Proof.
  intros Ha Hb%qualifiedNameFmt_spec%label_name_no_slash. apply matches_alt_inv in Ha as [Ha|Ha%matches_eps_inv].
  - apply dnsNamePrefixFmt_spec in Ha as (ls & _ & ->). rewrite str_app_assoc. simpl.
    rewrite LastIndex_app by done. rewrite str_length_app. simpl. lia.
  - subst a. simpl. by rewrite LastIndex_none.
Qed.

Lemma str_cut_eq a b c d :
  String.length a = String.length c -> a +:+ b = c +:+ d -> a = c /\ b = d.
Proof.
  revert c. induction a as [|x a IH]; intros [|y c] Hl E; try done.
  simpl in *. injection E as -> E. injection Hl as Hl. destruct (IH c Hl E) as [-> ->]. done.
Qed.

Lemma tag_groups_unique a b c d :
  matches (ROpt dnsNamePrefixFmt) a -> matches qualifiedNameFmt b ->
  matches (ROpt dnsNamePrefixFmt) c -> matches qualifiedNameFmt d ->
  a +:+ b = c +:+ d -> a = c /\ b = d.
Proof.
  intros Ha Hb Hc Hd E. apply str_cut_eq; [|done].
  rewrite (tag_groups_cut a b), (tag_groups_cut c d) by done. by rewrite E.
Qed.

Lemma str_take_drop n s : str_take n s +:+ str_drop n s = s.
Proof.
  revert s. induction n as [|n IH]; intros [|c s]; simpl; try done.
  unfold str_take in *. simpl. f_equal. apply IH.
Qed.

Lemma tag_cut_sound n s a b :
  tag_cut n s = Some (a, b) ->
  s = a +:+ b /\ matches (ROpt dnsNamePrefixFmt) a /\ matches qualifiedNameFmt b.
Proof.
  induction n as [|n IH]; cbn [tag_cut]; destruct (_ && _) eqn:E; try done.
  1, 2: intros [= <- <-]; apply andb_true_iff in E as [E1 E2]; apply MatchString_spec in E1, E2;
    by rewrite str_take_drop.
Qed.

Lemma tag_cut_complete n a b :
  matches (ROpt dnsNamePrefixFmt) a -> matches qualifiedNameFmt b -> (String.length a <= n)%nat ->
  tag_cut n (a +:+ b) = Some (a, b).
Proof.
  intros Ha Hb Hn.
  assert (exists c d, tag_cut n (a +:+ b) = Some (c, d)) as (c & d & E).
  { induction n as [|n IH]; cbn [tag_cut]; destruct (_ && _) eqn:E; eauto.
    - exfalso. assert (a = "") as -> by (destruct a; [done|simpl in Hn; lia]).
      unfold str_take in E. simpl in E. revert E. destruct b; simpl str_drop; rewrite andb_false_iff;
        (intros [E|E]; apply not_true_iff_false in E; apply E, MatchString_spec; done).
    - destruct (decide (String.length a = S n)) as [En|]; [exfalso|apply IH; lia].
      rewrite <- En, str_take_app, str_drop_app, andb_false_iff in E.
      destruct E as [E|E]; apply not_true_iff_false in E; apply E, MatchString_spec; done. }
  rewrite E. destruct (tag_cut_sound _ _ _ _ E) as (Es & Hc & Hd).
  destruct (tag_groups_unique a b c d) as [-> ->]; done.
Qed.

Lemma FindStringSubmatch_spec s a b :
  FindStringSubmatch s = Some (a, b) <->
  s = a +:+ b /\ matches (ROpt dnsNamePrefixFmt) a /\ matches qualifiedNameFmt b.
Proof.
  split; [apply tag_cut_sound|]. intros (-> & Ha & Hb). apply tag_cut_complete; [done..|].
  rewrite str_length_app. lia.
Qed.

(** A key that is accepted, in words. *)
Definition key_ok (k : string) : Prop :=
  (label_name k = true /\ (String.length k <= 63)%nat) \/
  exists ls name, k = str_join ls "." +:+ "/" +:+ name /\ dns_prefix ls /\ label_name name = true
    /\ (String.length (str_join ls ".") <= 253)%nat /\ (String.length name <= 63)%nat.

Lemma validateTagKey_spec k : validateTagKey k = [] <-> key_ok k.
Proof.
  unfold validateTagKey. split.
  - destruct (FindStringSubmatch k) as [[a b]|] eqn:E; [|done].
    apply FindStringSubmatch_spec in E as (-> & Ha & Hb%qualifiedNameFmt_spec).
    destruct (_ && _) eqn:E1; [done|]. destruct (DNS1123LabelMaxLength <? _)%nat eqn:E2; [done|]. intros _. apply Nat.ltb_ge in E2.
    apply matches_alt_inv in Ha as [(ls & Hls & ->)%dnsNamePrefixFmt_spec|E%matches_eps_inv]; [|subst a; by left].
    right. exists ls, b. rewrite str_app_assoc. do 3 (split; [done|]). split; [|done].
    rewrite str_length_app in E1. simpl in E1. apply andb_false_iff in E1 as [E1|E1]; apply Nat.ltb_ge in E1;
      unfold dnsNamePrefixMaxLength in E1; lia.
  - intros [[Hk Hl]|(ls & name & -> & Hls & Hn & Hp & Hl)].
    + assert (FindStringSubmatch k = Some ("", k)) as ->.
      { apply FindStringSubmatch_spec. split; [done|]. rewrite qualifiedNameFmt_spec. split; [|done].
        apply matches_alt_inv. right. constructor. }
      simpl. destruct (Nat.ltb_spec DNS1123LabelMaxLength (String.length k)); [|done].
      unfold DNS1123LabelMaxLength in *. lia.
    + rewrite <- str_app_assoc.
      assert (FindStringSubmatch ((str_join ls "." +:+ "/") +:+ name) = Some (str_join ls "." +:+ "/", name)) as ->.
      { apply FindStringSubmatch_spec. split; [done|]. rewrite qualifiedNameFmt_spec. split; [|done].
        apply matches_alt_inv. left. apply dnsNamePrefixFmt_spec. eauto. }
      rewrite str_length_app. change (String.length "/") with 1%nat.
      replace (String.length (str_join ls ".") + 1 - 1)%nat with (String.length (str_join ls ".")) by lia.
      destruct (Nat.ltb_spec dnsNamePrefixMaxLength (String.length (str_join ls ".")));
        [unfold dnsNamePrefixMaxLength in *; lia|]. rewrite andb_false_r.
      destruct (Nat.ltb_spec DNS1123LabelMaxLength (String.length name)); [|done].
      unfold DNS1123LabelMaxLength in *. lia.
Qed.

Definition value_ok (v : string) : Prop := v = "" \/ label_name v = true.

Lemma labelValueRegexp_spec v : MatchString labelValueRegexp v = true <-> value_ok v.
Proof.
  unfold labelValueRegexp, value_ok, ROpt.
  rewrite MatchString_spec, matches_alt_inv, qualifiedNameFmt_spec, matches_eps_inv. tauto.
Qed.

Lemma validate_label_spec k v : validate_label (k, v) = [] <-> key_ok k /\ value_ok v.
Proof.
  unfold validate_label. rewrite app_nil, validateTagKey_spec, <- labelValueRegexp_spec.
  destruct (MatchString labelValueRegexp v); simpl; [tauto|]. split; [intros [_ ?]|intros [_ ?]]; done.
Qed.

Lemma concat_nil {A} (ls : list (list A)) : concat ls = [] <-> Forall (fun l => l = []) ls.
Proof.
  induction ls as [|l ls IH]; simpl; [split; [constructor|done]|].
  by rewrite app_nil, IH, Forall_cons.
Qed.

Lemma range_nil_errors `{RangeOrder} `{Countable K} {V A} (f : K * V -> list A) (m : gmap K V) :
  concat (map f (range m)) = [] <-> forall k v, m !! k = Some v -> f (k, v) = [].
Proof.
  rewrite concat_nil, Forall_map, Forall_forall. setoid_rewrite <- elem_of_range. split.
  - intros Hf k v Hk. by apply Hf.
  - intros Hf [k v]. apply Hf.
Qed.

(** C38 Labels are accepted exactly when every key is a name of at most 63
    characters, alone or behind a DNS prefix of at most 253 characters, and
    every value is empty or a name; the order of the map does not matter. *)
Theorem labels_accepted `{RangeOrder} (m : gmap string string) :
  labels_Validate (Some m) = [] <-> map_Forall (fun k v => key_ok k /\ value_ok v) m.
Proof. unfold labels_Validate. rewrite range_nil_errors. setoid_rewrite validate_label_spec. done. Qed.

Example key_with_prefix : validateTagKey "app.kubernetes.io/name" = [].
Proof. by vm_compute. Qed.
Example key_without_name : validateTagKey "app.kubernetes.io/" = fail "invalid tag key: %q" [FStr "app.kubernetes.io/"].
Proof. by vm_compute. Qed.
