(* ===== verification/Telemetry.v ===== *)
(** * Resolution of telemetry

    [pkg/config/telemetry/telemetry.go]: the tracing, metrics and logging that
    hold for a workload, from the Telemetry resources of the mesh, of its
    namespace and those that select it; [tracingOTLPEndpoint] of
    [pkg/kube/inject/inject.go] and [resolveGatewayObservability] of
    [dubbod/discovery/pkg/config/kube/gateway/deployment_controller.go], which
    read the result. *)

From S2P Require Import Prelude GoStrings GoSort Hosts GoNet ApiTypes ConfigModel.
From Stdlib Require Import Floats.SpecFloat.

(** ** Messages

    A nil provider or tag reads as an empty one.  The first value of an enum is
    its zero; the wire may hold numbers that have no name. *)

Inductive match_mode : Type := MODE_UNSPECIFIED | CLIENT | SERVER | CLIENT_AND_SERVER | OTHER_MATCH (n : Z).
Inductive tag_action : Type := REMOVE | OTHER_TAG_ACTION (n : Z).

Record Tag : Type := mkTag { tg_Name : string; tg_Value : string }.

Record Logging : Type := mkLogging {
  lg_Providers : list string;
  lg_Match : option match_mode;
  lg_Disabled : option bool;
  lg_Filter : option string;
  lg_Tags : list Tag
}.
Record MetricsOverride : Type := mkMetricsOverride {
  mo_Metric : Z; mo_Scope : Z; mo_Tags : nmap string (option tag_action) }.
Record Metrics : Type := mkMetrics {
  mt_Providers : list string;
  mt_Enabled : option bool;
  mt_Rules : list (option MetricsOverride)
}.
Record Tracing : Type := mkTracing {
  tr_Providers : list string;
  tr_Tags : list Tag;
  tr_RandomSamplingPercentage : option spec_float;
  tr_DisableSpanReporting : option bool
}.
Record Telemetry : Type := mkTelemetry {
  te_Selector : selector;
  te_Logging : list (option Logging);
  te_Metrics : list (option Metrics);
  te_Tracing : list (option Tracing)
}.

Definition LocalTraceProvider : string := "localtrace".
Definition PrometheusProvider : string := "prometheus".
Definition OTELLogProvider : string := "otel".
Definition OTLPPort : Z := 4317.

Record Resource : Type := mkResource {
  rs_Name : string; rs_Namespace : string; rs_CreationTimestamp : Time; rs_Spec : option Telemetry }.

Record MetricTagOverride : Type := mkTagOverride { to_Name : string; to_Action : tag_action }.
Record MetricRule : Type := mkMetricRule { mr_Metric : Z; mr_Scope : Z; mr_Tags : list MetricTagOverride }.
Record LoggingRule : Type := mkLoggingRule {
  lr_Providers : list string; lr_Disabled : bool; lr_Mode : match_mode; lr_FilterExpression : string; lr_Tags : list Tag }.

Record EffectiveTracing : Type := mkEffective {
  Configured : bool;
  Providers : list string;
  Tags : list Tag;
  RandomSamplingPercentage : option spec_float;
  DisableSpanReporting : option bool;
  MetricsConfigured : bool;
  MetricProviders : list string;
  EnableMetrics : option bool;
  MetricRules : list MetricRule;
  LoggingConfigured : bool;
  LoggingRules : list LoggingRule
}.
Definition no_telemetry : EffectiveTracing := mkEffective false [] [] None None false [] None [] false [].

(** A configuration whose spec is of another type is skipped. *)
Definition ResourcesFromConfigs {V} (as_telemetry : V -> option Telemetry) (configs : list (Config V)) : list Resource :=
  omap (fun cfg =>
    match cfg_Spec cfg ≫= as_telemetry with
    | None => None
    | Some spec => Some (mkResource (cfg_Name cfg) (cfg_Namespace cfg) (cfg_CreationTimestamp cfg) (Some spec))
    end) configs.

(** Objects of the client, nil or not. *)
Definition ResourcesFromClient (items : list (option (string * string * Time * Telemetry))) : list Resource :=
  omap (fun item =>
    match item with
    | None => None
    | Some (name, namespace, created, spec) => Some (mkResource name namespace created (Some spec))
    end) items.

Section telemetry.
(** The zero of the enum of tag actions. *)
Context (zero_action : tag_action).

(** ** Applying a resource *)

Definition logging_rule (logging : Logging) : LoggingRule :=
  mkLoggingRule (lg_Providers logging) (default false (lg_Disabled logging)) (default MODE_UNSPECIFIED (lg_Match logging))
    (default "" (lg_Filter logging)) (lg_Tags logging).

Definition logging_rules (l : list (option Logging)) : list LoggingRule :=
  omap (fun e => match e with None => None | Some logging => Some (logging_rule logging) end) l.

Definition metric_rule (rule : MetricsOverride) : MetricRule :=
  let tags := nmap_get (mo_Tags rule) in
  let tagNames := sort_strings (map fst (map_to_list tags)) in
  mkMetricRule (mo_Metric rule) (mo_Scope rule)
    (map (fun name => mkTagOverride name (default zero_action (default None (tags !! name)))) tagNames).

Definition metric_rules (l : list (option MetricsOverride)) : list MetricRule :=
  omap (fun e => match e with None => None | Some rule => Some (metric_rule rule) end) l.

Definition apply_logging (result : EffectiveTracing) (l : list (option Logging)) : EffectiveTracing :=
  match l with
  | [] => result
  | _ => mkEffective (Configured result) (Providers result) (Tags result) (RandomSamplingPercentage result)
           (DisableSpanReporting result) (MetricsConfigured result) (MetricProviders result) (EnableMetrics result)
           (MetricRules result) true (logging_rules l)
  end.

Definition apply_metrics (result : EffectiveTracing) (m : option Metrics) : EffectiveTracing :=
  match m with
  | None => result
  | Some m =>
      mkEffective (Configured result) (Providers result) (Tags result) (RandomSamplingPercentage result)
        (DisableSpanReporting result) true
        (match mt_Providers m with [] => MetricProviders result | ps => ps end)
        (match mt_Enabled m with None => EnableMetrics result | Some e => Some e end)
        (match mt_Rules m with [] => MetricRules result | rs => metric_rules rs end)
        (LoggingConfigured result) (LoggingRules result)
  end.

Definition apply_tracing (result : EffectiveTracing) (t : option Tracing) : EffectiveTracing :=
  match t with
  | None => result
  | Some t =>
      mkEffective true
        (match tr_Providers t with [] => Providers result | ps => ps end)
        (match tr_Tags t with [] => Tags result | ts => ts end)
        (match tr_RandomSamplingPercentage t with None => RandomSamplingPercentage result | Some s => Some s end)
        (match tr_DisableSpanReporting t with None => DisableSpanReporting result | Some d => Some d end)
        (MetricsConfigured result) (MetricProviders result) (EnableMetrics result) (MetricRules result)
        (LoggingConfigured result) (LoggingRules result)
  end.

Definition apply (result : EffectiveTracing) (spec : Telemetry) : EffectiveTracing :=
  let result := apply_logging result (te_Logging spec) in
  let result := fold_left apply_metrics (te_Metrics spec) result in
  fold_left apply_tracing (te_Tracing spec) result.

(** ** Levels *)

Definition matches_labels (selector labels : gmap string string) : bool :=
  forallb (fun '(key, value) => String.eqb (default "" (labels !! key)) value) (map_to_list selector).

Definition match_labels (spec : Telemetry) : gmap string string :=
  match te_Selector spec with Some s => nmap_get s | None => ∅ end.

(** [sort.SliceStable] by creation, namespace and name. *)
Definition resource_compare : Resource -> Resource -> comparison :=
  cmp_lex (cmp_on rs_CreationTimestamp Z.compare)
    (cmp_lex (cmp_on rs_Namespace String.compare) (cmp_on rs_Name String.compare)).

Definition firstNamespaceLevel (resources : list Resource) (namespace : string) : option Resource :=
  List.find (fun r => String.eqb (rs_Namespace r) namespace &&
    match rs_Spec r with None => false | Some spec => (size (match_labels spec) =? 0)%nat end) resources.

Definition Resolve (resources : list Resource) (meshNamespace workloadNamespace : string)
    (workloadLabels : nmap string string) : EffectiveTracing :=
  let sorted := SortStableFunc resource_compare resources in
  let result := no_telemetry in
  let result := match firstNamespaceLevel sorted meshNamespace with
                | Some (mkResource _ _ _ (Some spec)) => apply result spec
                | _ => result end in
  let result := if negb (String.eqb workloadNamespace meshNamespace) then
                  match firstNamespaceLevel sorted workloadNamespace with
                  | Some (mkResource _ _ _ (Some spec)) => apply result spec
                  | _ => result end
                else result in
  fold_left (fun result r =>
    match rs_Spec r with
    | None => result
    | Some spec =>
        if negb (String.eqb (rs_Namespace r) workloadNamespace) then result
        else if (size (match_labels spec) =? 0)%nat || negb (matches_labels (match_labels spec) (nmap_get workloadLabels))
        then result
        else apply result spec
    end) sorted result.

(** ** Reading the result *)

Definition MetricsEnabled (t : EffectiveTracing) : bool :=
  if negb (MetricsConfigured t) then false else
  match EnableMetrics t with
  | Some e => e
  | None => bool_decide (PrometheusProvider ∈ MetricProviders t)
  end.
Definition MetricsProvider (t : EffectiveTracing) : string := default "" (head (MetricProviders t)).
Definition Disabled (t : EffectiveTracing) : bool := default false (DisableSpanReporting t).
Definition Provider (t : EffectiveTracing) : string := default "" (head (Providers t)).
Definition SamplingPercentage (t : EffectiveTracing) : spec_float :=
  default (float64 100) (RandomSamplingPercentage t).
Definition ResourceAttributes (t : EffectiveTracing) : string :=
  str_join (map (fun tag => tg_Name tag +:+ "=" +:+ tg_Value tag) (Tags t)) ",".
Definition tag_map (tags : list Tag) : gmap string string :=
  fold_left (fun m tag => <[tg_Name tag := tg_Value tag]> m) tags ∅.

(** [strconv.FormatFloat] with the shortest representation, and the JSON of a map. *)
Context (FormatFloat : spec_float -> string) (marshal_map : gmap string string -> string).

Definition SamplingPercentageString (t : EffectiveTracing) : string := FormatFloat (SamplingPercentage t).
Definition SamplingRatioString (t : EffectiveTracing) : string :=
  FormatFloat (SFdiv 53 1024 (SamplingPercentage t) (float64 100)).
Definition TagsJSON (t : EffectiveTracing) : string :=
  match Tags t with [] => "" | tags => marshal_map (tag_map tags) end.

Definition ProviderEndpoint (provider meshNamespace : string) : string :=
  let service := TrimSpace provider in
  let service := if EqualFold service LocalTraceProvider then "tracing" else service in
  let service := if EqualFold service OTELLogProvider then "opentelemetry-collector" else service in
  if String.eqb service "" then "" else
  let service := if negb (str_contains service ".") then service +:+ "." +:+ meshNamespace +:+ ".svc" else service in
  "http://" +:+ service +:+ ":" +:+ Itoa OTLPPort.

Definition DubboSystemNamespace : string := "dubbo-system".

Definition tracingOTLPEndpoint (tracing : EffectiveTracing) : string :=
  if negb (Configured tracing) || Disabled tracing then ""
  else ProviderEndpoint (Provider tracing) DubboSystemNamespace.

(** ** Observability of a managed gateway *)

Record GatewayMeta : Type := mkGatewayMeta {
  gw_Name : string; gw_Namespace : string; gw_Labels : nmap string string; gw_Annotations : nmap string string }.

Record gatewayObservabilityConfig : Type := mkObservability {
  OtelEndpoint : string; OtelLogsEndpoint : string; OtelServiceName : string; OtelSampling : string; OtelTags : string;
  AccessLog : string; AccessLogFormat : string; AccessLogMode : string; AccessLogFilter : string; AccessLogTags : string }.

Definition accessLogAnnotation : string := "gateway.dubbo.apache.org/access-log".
Definition accessLogFormatAnnotation : string := "gateway.dubbo.apache.org/access-log-format".

Definition annotation (gw : GatewayMeta) (name : string) : string :=
  protocol.ToLower (TrimSpace (default "" (nmap_get (gw_Annotations gw) !! name))).

Definition gatewayAccessLog (gw : GatewayMeta) : string :=
  if existsb (String.eqb (annotation gw accessLogAnnotation)) ["false"; "0"; "no"; "off"] then "false" else "true".
Definition gatewayAccessLogFormat (gw : GatewayMeta) : string :=
  if String.eqb (annotation gw accessLogFormatAnnotation) "json" then "json" else "text".

Definition mode_String (m : match_mode) : string :=
  match m with
  | MODE_UNSPECIFIED => "MODE_UNSPECIFIED"
  | CLIENT => "CLIENT"
  | SERVER => "SERVER"
  | CLIENT_AND_SERVER => "CLIENT_AND_SERVER"
  | OTHER_MATCH n => Itoa n
  end.

(** The labels of the gateway's pods; its own labels come last. *)
Definition gateway_labels (gw : GatewayMeta) : gmap string string :=
  nmap_get (gw_Labels gw) ∪
  <["gateway.networking.k8s.io/gateway-name" := gw_Name gw]> {["app.kubernetes.io/name" := "gateway"]}.

Definition effective_mode (logging : LoggingRule) : string :=
  let mode := mode_String (lr_Mode logging) in
  if String.eqb mode "MODE_UNSPECIFIED" then "CLIENT_AND_SERVER" else mode.

(** The first rule that covers the server side. *)
Definition server_rule (rules : list LoggingRule) : option LoggingRule :=
  List.find (fun l => String.eqb (effective_mode l) "SERVER" || String.eqb (effective_mode l) "CLIENT_AND_SERVER") rules.

Definition resolveGatewayObservability (gw : GatewayMeta) (meshNamespace : string) (resources : list Resource)
  : gatewayObservabilityConfig :=
  let effective := Resolve resources meshNamespace (gw_Namespace gw) (Some (gateway_labels gw)) in
  let otel := if Configured effective && negb (Disabled effective)
              then ProviderEndpoint (Provider effective) meshNamespace else "" in
  let name := "gateway." +:+ gw_Namespace gw +:+ "." +:+ gw_Name gw in
  match server_rule (LoggingRules effective) with
  | None =>
      mkObservability otel "" name (SamplingPercentageString effective) (TagsJSON effective)
        (gatewayAccessLog gw) (gatewayAccessLogFormat gw) "" "" ""
  | Some logging =>
      mkObservability otel
        (match lr_Providers logging with
         | p :: _ => if negb (lr_Disabled logging) then ProviderEndpoint p meshNamespace else ""
         | [] => "" end)
        name (SamplingPercentageString effective) (TagsJSON effective)
        (if negb (lr_Disabled logging) then "true" else "false") (gatewayAccessLogFormat gw)
        (effective_mode logging) (lr_FilterExpression logging)
        (match lr_Tags logging with [] => "" | tags => marshal_map (tag_map tags) end)
  end.
End telemetry.

(** ** Reference: what each level declares *)

(** What a resource says of a field, nothing when it leaves the field out; of
    several entries the last one that has the field. *)
Definition declared {E A} (field : E -> option A) (entries : list (option E)) : option A :=
  last (omap (fun e => e ≫= field) entries).
Definition stated {E} (entries : list (option E)) : bool :=
  existsb (fun e => match e with Some _ => true | None => false end) entries.
Definition nonempty {A} (l : list A) : option (list A) := match l with [] => None | _ => Some l end.

(** The resources that hold for a workload, the least specific first: the oldest
    of the mesh and of the namespace among those that select nothing, then the
    ones of the namespace that select it, from the oldest. *)
Definition wide (ns : string) (r : Resource) : bool :=
  String.eqb (rs_Namespace r) ns && match rs_Spec r with None => false | Some spec => (size (match_labels spec) =? 0)%nat end.
Definition selects (ns : string) (labels : nmap string string) (r : Resource) : bool :=
  String.eqb (rs_Namespace r) ns &&
  match rs_Spec r with
  | None => false
  | Some spec => negb (size (match_labels spec) =? 0)%nat && matches_labels (match_labels spec) (nmap_get labels)
  end.
Definition levels (resources : list Resource) (mesh ns : string) (labels : nmap string string) : list Telemetry :=
  let sorted := SortStableFunc resource_compare resources in
  omap rs_Spec
    (option_list (List.find (wide mesh) sorted) ++
     (if String.eqb ns mesh then [] else option_list (List.find (wide ns) sorted)) ++
     List.filter (selects ns labels) sorted).

(** ** Lemmas *)

Section overrides.
Context {S X A : Type} (step : S -> X -> S) (proj : S -> A) (said : X -> option A).
Hypothesis one : forall s x, proj (step s x) = default (proj s) (said x).

(** A field that each step keeps or replaces ends with the last replacement. *)
Lemma fold_override l s : proj (fold_left step l s) = default (proj s) (last (omap said l)).
Proof.
  revert s. induction l as [|x l IH] using rev_ind; intros s; [done|].
  rewrite fold_left_app, omap_app. simpl. rewrite one. destruct (said x) as [v|]; simpl.
  - by rewrite last_snoc.
  - by rewrite app_nil_r, IH.
Qed.
End overrides.

Lemma last_omap_bind {X E A} (entries : X -> list (option E)) (field : E -> option A) (l : list X) :
  last (omap (fun x => declared field (entries x)) l) = declared field (concat (map entries l)).
Proof.
  unfold declared. induction l as [|x l IH] using rev_ind; [done|].
  rewrite omap_app, map_app, concat_app, omap_app, last_app. simpl. rewrite app_nil_r, last_app, IH.
  by destruct (last (omap _ (entries x))).
Qed.

Section resolution.
Context (zero_action : tag_action).
Notation apply := (apply zero_action).
Notation Resolve := (Resolve zero_action).

Lemma firstNamespaceLevel_wide l ns : firstNamespaceLevel l ns = List.find (wide ns) l.
Proof. done. Qed.

Lemma fold_selected ns labels l r :
  fold_left (fun result r =>
    match rs_Spec r with
    | None => result
    | Some spec =>
        if negb (String.eqb (rs_Namespace r) ns) then result
        else if (size (match_labels spec) =? 0)%nat || negb (matches_labels (match_labels spec) (nmap_get labels))
        then result
        else apply result spec
    end) l r
  = fold_left apply (omap rs_Spec (List.filter (selects ns labels) l)) r.
Proof.
  revert r. induction l as [|x l IH]; intros r; simpl; [done|]. rewrite IH. unfold selects at 2.
  destruct (String.eqb (rs_Namespace x) ns) eqn:En; destruct (rs_Spec x) as [spec|] eqn:Es; simpl; try done.
  destruct (size (match_labels spec) =? 0)%nat; simpl; [done|].
  destruct (matches_labels _ _); simpl; [|done]. by rewrite Es.
Qed.

Lemma apply_level r o :
  match o with Some (mkResource _ _ _ (Some spec)) => apply r spec | _ => r end
  = fold_left apply (omap rs_Spec (option_list o)) r.
Proof. destruct o as [[n ns t [spec|]]|]; done. Qed.

(** The result applies the levels in order. *)
Lemma Resolve_levels resources mesh ns labels :
  Resolve resources mesh ns labels = fold_left apply (levels resources mesh ns labels) no_telemetry.
Proof.
  unfold Resolve, levels. rewrite fold_selected, !firstNamespaceLevel_wide, !apply_level.
  destruct (String.eqb ns mesh); simpl; rewrite !omap_app, !fold_left_app; done.
Qed.

Lemma default_last_snoc {A} (a : A) (x : option A) (l : list A) :
  default (default a x) (last l) = default a (match last l with Some y => Some y | None => x end).
Proof. by destruct (last l). Qed.

(** Fields a resource sets in one place. *)
Lemma apply_tracing_field {A} (proj : EffectiveTracing -> A) (field : Tracing -> option A) r spec :
  (forall r t, proj (apply_tracing r t) = default (proj r) (t ≫= field)) ->
  (forall r m, proj (apply_metrics zero_action r m) = proj r) ->
  (forall r l, proj (apply_logging r l) = proj r) ->
  proj (apply r spec) = default (proj r) (declared field (te_Tracing spec)).
Proof.
  intros Ht Hm Hl. unfold apply, declared. rewrite (fold_override _ proj (fun t => t ≫= field)) by done.
  f_equal. rewrite (fold_override _ proj (fun _ : option Metrics => None)) by (intros; by rewrite Hm).
  rewrite Hl. clear. by induction (te_Metrics spec).
Qed.

Lemma apply_metrics_field {A} (proj : EffectiveTracing -> A) (field : Metrics -> option A) r spec :
  (forall r t, proj (apply_tracing r t) = proj r) ->
  (forall r m, proj (apply_metrics zero_action r m) = default (proj r) (m ≫= field)) ->
  (forall r l, proj (apply_logging r l) = proj r) ->
  proj (apply r spec) = default (proj r) (declared field (te_Metrics spec)).
Proof.
  intros Ht Hm Hl. unfold apply, declared.
  rewrite (fold_override _ proj (fun _ : option Tracing => None)) by (intros; by rewrite Ht).
  rewrite (fold_override _ proj (fun m => m ≫= field)) by done. rewrite Hl.
  assert (omap (fun _ : option Tracing => @None A) (te_Tracing spec) = []) as -> by (by induction (te_Tracing spec)).
  done.
Qed.

Lemma apply_logging_field {A} (proj : EffectiveTracing -> A) (field : list (option Logging) -> option A) r spec :
  (forall r t, proj (apply_tracing r t) = proj r) ->
  (forall r m, proj (apply_metrics zero_action r m) = proj r) ->
  (forall r l, proj (apply_logging r l) = default (proj r) (field l)) ->
  proj (apply r spec) = default (proj r) (field (te_Logging spec)).
Proof.
  intros Ht Hm Hl. unfold apply.
  rewrite (fold_override _ proj (fun _ : option Tracing => None)) by (intros; by rewrite Ht).
  rewrite (fold_override _ proj (fun _ : option Metrics => None)) by (intros; by rewrite Hm). rewrite Hl.
  assert (omap (fun _ : option Tracing => @None A) (te_Tracing spec) = []) as -> by (by induction (te_Tracing spec)).
  assert (omap (fun _ : option Metrics => @None A) (te_Metrics spec) = []) as -> by (by induction (te_Metrics spec)).
  done.
Qed.

Lemma resolved_tracing {A} (proj : EffectiveTracing -> A) (field : Tracing -> option A) resources mesh ns labels :
  (forall r t, proj (apply_tracing r t) = default (proj r) (t ≫= field)) ->
  (forall r m, proj (apply_metrics zero_action r m) = proj r) ->
  (forall r l, proj (apply_logging r l) = proj r) ->
  proj (Resolve resources mesh ns labels)
  = default (proj no_telemetry) (declared field (concat (map te_Tracing (levels resources mesh ns labels)))).
Proof.
  intros Ht Hm Hl. rewrite Resolve_levels, <- last_omap_bind. apply fold_override. intros s x.
  by apply apply_tracing_field.
Qed.

Lemma resolved_metrics {A} (proj : EffectiveTracing -> A) (field : Metrics -> option A) resources mesh ns labels :
  (forall r t, proj (apply_tracing r t) = proj r) ->
  (forall r m, proj (apply_metrics zero_action r m) = default (proj r) (m ≫= field)) ->
  (forall r l, proj (apply_logging r l) = proj r) ->
  proj (Resolve resources mesh ns labels)
  = default (proj no_telemetry) (declared field (concat (map te_Metrics (levels resources mesh ns labels)))).
Proof.
  intros Ht Hm Hl. rewrite Resolve_levels, <- last_omap_bind. apply fold_override. intros s x.
  by apply apply_metrics_field.
Qed.

Lemma declared_stated {E} (entries : list (option E)) :
  default false (declared (fun _ => Some true) entries) = stated entries.
Proof.
  unfold declared, stated. induction entries as [|e l IH] using rev_ind; [done|].
  rewrite omap_app, last_app, existsb_app. destruct e; simpl; [by rewrite orb_true_r|]. by rewrite IH, orb_false_r.
Qed.

Lemma last_flag {X} (f : X -> bool) (l : list X) :
  default false (last (omap (fun x => if f x then Some true else None) l)) = existsb f l.
Proof.
  induction l as [|x l IH] using rev_ind; [done|]. rewrite omap_app, last_app, existsb_app. simpl.
  destruct (f x); simpl; [by rewrite orb_true_r|]. by rewrite IH, orb_false_r.
Qed.

(** A field that is itself optional. *)
Lemma last_omap_some {E A} (field : E -> option A) (entries : list (option E)) :
  default None (declared (fun t => Some <$> field t) entries) = declared field entries.
Proof.
  unfold declared. induction entries as [|e l IH] using rev_ind; [done|].
  rewrite !omap_app, !last_app. destruct e as [e|]; simpl; [|done]. by destruct (field e).
Qed.

(** Each of the three loops either replaces a field or leaves it. *)
Ltac fields :=
  try (let r := fresh in intros r [?|]; simpl; try done; by case_match);
  try (intros ? [|? ?]; done); try done.

(** C39 Every field of what holds for a workload is the one the most specific
    resource declares: tracing fields come from the last tracing entry that has
    them in the order mesh, namespace, selecting resources from the oldest,
    metrics fields from the last metrics entry, and the logging rules, as a
    whole, from the last resource that has any. *)
Theorem most_specific_wins resources mesh ns labels :
  let r := Resolve resources mesh ns labels in
  let ls := levels resources mesh ns labels in
  let tracing := concat (map te_Tracing ls) in
  let metrics := concat (map te_Metrics ls) in
  Providers r = default [] (declared (fun t => nonempty (tr_Providers t)) tracing) /\
  Tags r = default [] (declared (fun t => nonempty (tr_Tags t)) tracing) /\
  RandomSamplingPercentage r = declared tr_RandomSamplingPercentage tracing /\
  DisableSpanReporting r = declared tr_DisableSpanReporting tracing /\
  Configured r = stated tracing /\
  MetricProviders r = default [] (declared (fun m => nonempty (mt_Providers m)) metrics) /\
  EnableMetrics r = declared mt_Enabled metrics /\
  MetricRules r = default [] (declared (fun m => option_map (metric_rules zero_action) (nonempty (mt_Rules m))) metrics) /\
  MetricsConfigured r = stated metrics /\
  LoggingRules r = default [] (last (omap (fun s => option_map logging_rules (nonempty (te_Logging s))) ls)) /\
  LoggingConfigured r = existsb (fun s => negb (length (te_Logging s) =? 0)%nat) ls.
Proof.
  intros r ls tracing metrics. subst r tracing metrics ls. split_and!.
  - apply (resolved_tracing Providers (fun t => nonempty (tr_Providers t))); fields.
  - apply (resolved_tracing Tags (fun t => nonempty (tr_Tags t))); fields.
  - rewrite (resolved_tracing RandomSamplingPercentage (fun t => Some <$> tr_RandomSamplingPercentage t)); fields.
    unfold declared. apply last_omap_some.
  - rewrite (resolved_tracing DisableSpanReporting (fun t => Some <$> tr_DisableSpanReporting t)); fields.
    apply last_omap_some.
  - rewrite <- declared_stated. apply (resolved_tracing Configured (fun _ => Some true)); fields.
  - apply (resolved_metrics MetricProviders (fun m => nonempty (mt_Providers m))); fields.
  - rewrite (resolved_metrics EnableMetrics (fun m => Some <$> mt_Enabled m)); fields. apply last_omap_some.
  - apply (resolved_metrics MetricRules (fun m => option_map (metric_rules zero_action) (nonempty (mt_Rules m)))); fields.
  - rewrite <- declared_stated. apply (resolved_metrics MetricsConfigured (fun _ => Some true)); fields.
  - rewrite Resolve_levels.
    apply (fold_override _ LoggingRules (fun s => option_map logging_rules (nonempty (te_Logging s)))). intros s x.
    apply (apply_logging_field LoggingRules (fun l => option_map logging_rules (nonempty l))); fields.
  - rewrite Resolve_levels, <- last_flag.
    apply (fold_override _ LoggingConfigured (fun s => if negb (length (te_Logging s) =? 0)%nat then Some true else None)).
    intros s x.
    apply (apply_logging_field LoggingConfigured (fun l => if negb (length l =? 0)%nat then Some true else None)); fields.
Qed.
End resolution.

Lemma Sort_perm_eq_on {A} (cmp : A -> A -> comparison) `{!CmpLaws cmp} l k :
  (forall a b, a ∈ l -> b ∈ l -> cmp a b = Eq -> a = b) -> l ≡ₚ k -> SortStableFunc cmp l = SortStableFunc cmp k.
Proof.
  intros Heq Hp. apply (StronglySorted_unique_strong (fun a b => cmp_leb cmp a b = true));
    [|by apply Sort_sorted|by apply Sort_sorted|by rewrite !Sort_perm].
  intros a b Ha Hb. unfold cmp_leb. rewrite (cmp_antisym cmp b a). rewrite elem_of_sort in Ha, Hb. rewrite <- Hp in Hb.
  destruct (cmp a b) eqn:E; simpl; try done. intros _ _. by apply Heq.
Qed.

Lemma NoDup_map_inj {A B} (f : A -> B) (l : list A) a b :
  NoDup (map f l) -> a ∈ l -> b ∈ l -> f a = f b -> a = b.
Proof.
  induction l as [|x l IH]; intros Hnd Ha Hb E; [by apply not_elem_of_nil in Ha|].
  apply NoDup_cons in Hnd as [Hx Hnd]. apply elem_of_cons in Ha as [->|Ha], Hb as [->|Hb]; [done| | |by apply IH].
  - destruct Hx. rewrite E. by apply list_elem_of_fmap_2.
  - destruct Hx. rewrite <- E. by apply list_elem_of_fmap_2.
Qed.

Lemma resource_compare_eq a b :
  resource_compare a b = Eq -> rs_Namespace a = rs_Namespace b /\ rs_Name a = rs_Name b.
Proof.
  unfold resource_compare, cmp_lex, cmp_on, cmp_then. destruct (Z.compare _ _); try done.
  destruct (String.compare (rs_Namespace a) _) eqn:En; try done.
  intros Ec. split; by apply string_compare_eq.
Qed.

(** What holds for a workload does not depend on the order in which the
    store lists the resources: a name is used once in a namespace, and age,
    namespace and name order them. *)
Theorem resolution_order_irrelevant zero rs rs' mesh ns labels :
  NoDup (map (fun r => (rs_Namespace r, rs_Name r)) rs) -> rs ≡ₚ rs' ->
  Resolve zero rs mesh ns labels = Resolve zero rs' mesh ns labels.
Proof.
  intros Hnd Hp. unfold Resolve.
  assert (SortStableFunc resource_compare rs = SortStableFunc resource_compare rs') as ->; [|done].
  apply Sort_perm_eq_on; [apply _| |done]. intros a b Ha Hb [E1 E2]%resource_compare_eq.
  apply (NoDup_map_inj (fun r => (rs_Namespace r, rs_Name r)) rs); [done..|]. by rewrite E1, E2.
Qed.

Definition sample_tracing (name ns : string) (t : Time) (sel : selector) (p : string) (s : option Z) : Resource :=
  mkResource name ns t (Some (mkTelemetry sel [] [] [Some (mkTracing [p] [] (option_map float64 s) None)])).
Definition sample_resources : list Resource :=
  [sample_tracing "late" "app" 20 (Some (Some {["app" := "shop"]})) "late" None;
   sample_tracing "mesh" "dubbo-system" 5 None "otel" (Some 10);
   sample_tracing "early" "app" 10 (Some (Some {["app" := "shop"]})) "early" (Some 50)].

Lemma resolution_order_irrelevant_witness :
  Resolve REMOVE sample_resources "dubbo-system" "app" (Some {["app" := "shop"]})
  = Resolve REMOVE (rev sample_resources) "dubbo-system" "app" (Some {["app" := "shop"]}).
Proof.
  apply resolution_order_irrelevant; [|by rewrite <- Permutation_rev].
  repeat constructor; set_unfold; intuition congruence.
Defined.

(** The younger of the two that select the workload gives the provider; it does
    not say how much to sample, and the older one's percentage stays. *)
Example workload_level_last :
  let r := Resolve REMOVE sample_resources "dubbo-system" "app" (Some {["app" := "shop"]}) in
  Provider r = "late" /\ SamplingPercentage r = float64 50.
Proof. by vm_compute. Qed.
