(* ===== verification/Validation.v ===== *)
(** * Validation of configurations

    [pkg/config/validation]: the checks of each kind of resource
    ([validators.go]), the helpers they share ([helpers.go]) and the wrapper that
    adds the check of the name and the namespace ([validation.go]);
    [pkg/config/visibility/visibility.go].  Errors are the lists of
    [LabelSyntax]: [appendValidation] and [AppendErrors] concatenate, and no
    validator sets a warning. *)

From S2P Require Import Prelude GoStrings GoSets GoSort Hosts GoNet Service ApiTypes Authentication PolicyIndex ConfigModel ServiceEntries LabelSyntax Telemetry.
From Stdlib Require Import Floats.SpecFloat.

(** The parsers of the standard library and the name checks of
    [k8s.io/apimachinery], which return what is wrong with a name. *)
Class Parsers : Type := {
  IsDNS1123Subdomain : string -> list string;
  validation_IsDNS1123Label : string -> list string;
  ParseIP : string -> bool;
  ParseCIDR : string -> bool;
  url_Parse : string -> option (string * string)
}.

(** ** Messages *)

Record ConnectionPool : Type := mkConnectionPool {
  cp_MaxConnections : Z; cp_Http1MaxPendingRequests : Z; cp_Http2MaxRequests : Z;
  cp_MaxRequestsPerConnection : Z; cp_MaxRetries : Z }.
Record OutlierDetection : Type := mkOutlierDetection {
  od_Interval : option Duration; od_BaseEjectionTime : option Duration;
  od_MaxEjectionPercent : Z; od_MinHealthPercent : Z }.
Record CircuitBreakerPolicy : Type := mkCircuitBreaker {
  cb_TargetRefs : list (option FaultTarget);
  cb_ConnectionPool : option ConnectionPool;
  cb_OutlierDetection : option OutlierDetection
}.

(** A ServiceEntry as it comes off the wire: ports and endpoints may be nil. *)
Record WireServiceEntry : Type := mkWireEntry {
  ws_Hosts : list string;
  ws_Addresses : list string;
  ws_Ports : list (option EntryPort);
  ws_Location : SE_Location;
  ws_Resolution : SE_Resolution;
  ws_Endpoints : list (option WorkloadEntry);
  ws_WorkloadSelector : selector;
  ws_ExportTo : list string;
  ws_SubjectAltNames : list string
}.
(** What the getters of a nil element give. *)
Definition nil_port : EntryPort := mkEntryPort "" 0 "" 0.
Definition nil_workload : WorkloadEntry := mkWorkloadEntry "" None None "" "" 0 "".
Definition read_entry (w : WireServiceEntry) : ServiceEntry :=
  mkServiceEntry (ws_Hosts w) (ws_Addresses w) (map (default nil_port) (ws_Ports w)) (ws_Location w) (ws_Resolution w)
    (map (default nil_workload) (ws_Endpoints w)) (option_map (fun s => s) (ws_WorkloadSelector w))
    (ws_ExportTo w) (ws_SubjectAltNames w).

(** The dynamic type of the spec. *)
Inductive ApiSpec : Type :=
  | ApiAuthorizationPolicy (p : AuthorizationPolicy)
  | ApiPeerAuthentication (p : PeerAuthentication)
  | ApiRequestAuthentication (r : RequestAuthentication)
  | ApiCircuitBreakerPolicy (c : CircuitBreakerPolicy)
  | ApiFaultInjectionPolicy (f : FaultInjectionPolicy)
  | ApiServiceEntry (e : WireServiceEntry)
  | ApiWorkloadEntry (w : WorkloadEntry)
  | ApiTelemetry (t : Telemetry)
  | ApiOther.

Notation ValidateFunc := (Config ApiSpec -> errors).

Definition when (b : bool) (e : errors) : errors := if b then e else [].
(** [if err := e; err != nil { f(err) }] *)
Definition on_error {A} (e : list A) (f : list A -> errors) : errors := match e with [] => [] | _ => f e end.
(** A loop over a slice with its index. *)
Definition each {A} (f : Z -> A -> errors) (l : list A) : errors := concat (imap (fun i x => f (Z.of_nat i) x) l).

(** ** [visibility.Instance] *)
Definition Private : string := ".".
Definition Public : string := "*".
Definition VisibilityNone : string := "~".

Definition visibility_Validate (v : string) : errors :=
  if String.eqb v Private || String.eqb v Public then []
  else if String.eqb v VisibilityNone then fail "exportTo ~ (none) is not allowed for Dubbo configuration objects" []
  else when (negb (IsDNS1123Label v)) (fail "only .,*, or a valid DNS 1123 label is allowed as exportTo entry" []).

Section validation.
Context `{RangeOrder} `{Parsers} `{Libraries}.

(** ** Helpers *)

Definition ValidateMetadata (cfg : Config ApiSpec) : errors :=
  (if String.eqb (cfg_Name cfg) "" then fail "name is required" []
   else on_error (IsDNS1123Subdomain (cfg_Name cfg)) (fun msgs => fail "invalid name %q: %v" [FStr (cfg_Name cfg); FStrs msgs])) ++
  (if negb (String.eqb (cfg_Namespace cfg) "") then
     on_error (validation_IsDNS1123Label (cfg_Namespace cfg)) (fun msgs => fail "invalid namespace %q: %v" [FStr (cfg_Namespace cfg); FStrs msgs])
   else []).

Definition validateFunc (f : ValidateFunc) : ValidateFunc := fun cfg => f cfg ++ ValidateMetadata cfg.
Definition EmptyValidate : ValidateFunc := fun _ => [].

Definition validateWorkloadSelector (s : selector) : errors :=
  match s with
  | None => []
  | Some matchLabels =>
      when (size (nmap_get matchLabels) =? 0)%nat
        (fail "selector is set but matchLabels is empty; omit the selector to apply to all workloads" []) ++
      on_error (labels_Validate matchLabels) (fun err => fail "invalid selector matchLabels: %v" [FErr err]) ++
      concat (map (fun '(k, v) => when (String.eqb k "") (fail "selector matchLabels key must not be empty (value: %q)" [FStr v]))
                (range (nmap_get matchLabels)))
  end.

Definition validateJwksURI (uri : string) : errors :=
  match url_Parse uri with
  | None => fail "invalid jwksUri %q: %v" [FStr uri]
  | Some (scheme, hst) =>
      if negb (String.eqb scheme "http") && negb (String.eqb scheme "https")
      then fail "invalid jwksUri %q: scheme must be http or https" [FStr uri]
      else if String.eqb hst "" then fail "invalid jwksUri %q: host is required" [FStr uri]
      else []
  end.

Definition validatePositiveDuration (name : string) (d : option Duration) : errors :=
  match d with
  | None => []
  | Some d =>
      if negb (CheckValid d) then fail "invalid %s: %v" [FStr name]
      else when (AsDuration d <=? 0) (fail "%s must be greater than 0, got %v" [FStr name; FInt (AsDuration d)])
  end.

Definition validatePercent (name : string) (val : Z) : errors :=
  when ((val <? 0) || (100 <? val)) (fail "%s must be in range [0, 100], got %d" [FStr name; FInt val]).
Definition validateOptionalUInt32Percent (name : string) (val : option Z) : errors :=
  match val with
  | None => []
  | Some value => when (100 <? value) (fail "%s must be in range [0, 100], got %d" [FStr name; FInt value])
  end.
Definition validateNonNegativeInt32 (name : string) (val : Z) : errors :=
  when (val <? 0) (fail "%s must not be negative, got %d" [FStr name; FInt val]).

(** ** Security *)

Definition check_source (i j : Z) (source : AuthzSource) : errors :=
  when ((length (so_Principals source) =? 0)%nat && (length (so_RequestPrincipals source) =? 0)%nat)
    (fail "rule[%d].from[%d].source must specify principals or requestPrincipals" [FInt i; FInt j]) ++
  when ((0 <? length (so_Principals source))%nat && (0 <? length (so_RequestPrincipals source))%nat)
    (fail "rule[%d].from[%d].source must not mix principals and requestPrincipals" [FInt i; FInt j]) ++
  each (fun k principal => when (String.eqb principal "")
    (fail "rule[%d].from[%d].source.principals[%d] must not be empty" [FInt i; FInt j; FInt k])) (so_Principals source) ++
  each (fun k principal => when (String.eqb principal "")
    (fail "rule[%d].from[%d].source.requestPrincipals[%d] must not be empty" [FInt i; FInt j; FInt k]))
    (so_RequestPrincipals source).

Definition check_from (i j : Z) (from : option (option AuthzSource)) : errors :=
  match from with
  | None => fail "rule[%d].from[%d] must not be null" [FInt i; FInt j]
  | Some None => fail "rule[%d].from[%d].source must be set" [FInt i; FInt j]
  | Some (Some source) => check_source i j source
  end.

Definition check_when (i j : Z) (cond : option AuthzCondition) : errors :=
  match cond with
  | None => fail "rule[%d].when[%d] must not be null" [FInt i; FInt j]
  | Some c =>
      when (String.eqb (co_Key c) "") (fail "rule[%d].when[%d].key must not be empty" [FInt i; FInt j]) ++
      when ((length (co_Values c) =? 0)%nat && (length (co_NotValues c) =? 0)%nat)
        (fail "rule[%d].when[%d] must specify values or notValues" [FInt i; FInt j])
  end.

(** Whether a source of the rule names a principal. *)
Definition has_principal (names : AuthzSource -> list string) (rule : AuthzRule) : bool :=
  existsb (fun from => match from with Some (Some s) => (0 <? length (names s))%nat | _ => false end) (rl_From rule).

Definition check_rule (i : Z) (rule : option AuthzRule) : errors :=
  match rule with
  | None => fail "rule[%d] must not be null" [FInt i]
  | Some rule =>
      each (check_from i) (rl_From rule) ++
      when (has_principal so_Principals rule && (has_principal so_RequestPrincipals rule || (0 <? length (rl_When rule))%nat))
        (fail "rule[%d] must not mix workload principal and JWT constraints" [FInt i]) ++
      each (check_when i) (rl_When rule)
  end.

Definition is_deny (a : authz_action) : bool := match a with DENY => true | _ => false end.

Definition ValidateAuthorizationPolicy : ValidateFunc := validateFunc (fun cfg =>
  match cfg_Spec cfg with
  | Some (ApiAuthorizationPolicy spec) =>
      validateWorkloadSelector (ap_Selector spec) ++
      match ap_Action spec with ALLOW | DENY => [] | OTHER_ACTION n => fail "unsupported action %q" [FInt n] end ++
      when (is_deny (ap_Action spec) && (length (ap_Rules spec) =? 0)%nat)
        (fail "a DENY policy must have at least one rule; an empty DENY policy matches nothing" []) ++
      each check_rule (ap_Rules spec)
  | _ => fail "cannot cast to AuthorizationPolicy" []
  end).

Definition validateMutualTLSMode (field : farg) (mode : tls_mode) : errors :=
  match mode with
  | UNSET | DISABLE | PERMISSIVE | STRICT => []
  | OTHER_MODE n => fail "unsupported %s %q" [field; FInt n]
  end.

Definition ValidatePeerAuthentication : ValidateFunc := validateFunc (fun cfg =>
  match cfg_Spec cfg with
  | Some (ApiPeerAuthentication spec) =>
      validateWorkloadSelector (Selector spec) ++
      validateMutualTLSMode (FStr "mtls.mode") (default UNSET (Mtls spec)) ++
      concat (map (fun '(port, mtls) =>
        when (port =? 0) (fail "portLevelMtls port must not be 0" []) ++
        match mtls with
        | None => fail "portLevelMtls[%d] must not be null" [FInt port]
        | Some mode => validateMutualTLSMode (FText "portLevelMtls[%d].mode" [FInt port]) mode
        end) (range (nmap_get (PortLevelMtls spec)))) ++
      when ((0 <? size (nmap_get (PortLevelMtls spec)))%nat && bool_decide (Selector spec = None))
        (fail "portLevelMtls requires a workload selector" [])
  | _ => fail "cannot cast to PeerAuthentication" []
  end).

Definition check_jwt_rule (i : Z) (rule : option JWTRule) : errors :=
  match rule with
  | None => fail "jwtRules[%d] must not be null" [FInt i]
  | Some rule =>
      when (String.eqb (jr_Issuer rule) "") (fail "jwtRules[%d].issuer must not be empty" [FInt i]) ++
      when (negb (String.eqb (jr_JwksUri rule) "") && negb (String.eqb (jr_Jwks rule) ""))
        (fail "jwtRules[%d]: only one of jwksUri or jwks can be set" [FInt i]) ++
      when (negb (String.eqb (jr_JwksUri rule) ""))
        (on_error (validateJwksURI (jr_JwksUri rule)) (fun err => fail "jwtRules[%d]: %v" [FInt i; FErr err])) ++
      each (fun j header =>
        when (match header with None => true | Some h => String.eqb (jh_Name h) "" end)
          (fail "jwtRules[%d].fromHeaders[%d].name must not be empty" [FInt i; FInt j])) (jr_FromHeaders rule) ++
      each (fun j param =>
        when (String.eqb param "") (fail "jwtRules[%d].fromParams[%d] must not be empty" [FInt i; FInt j])) (jr_FromParams rule)
  end.

Definition ValidateRequestAuthentication : ValidateFunc := validateFunc (fun cfg =>
  match cfg_Spec cfg with
  | Some (ApiRequestAuthentication spec) =>
      validateWorkloadSelector (ra_Selector spec) ++ each check_jwt_rule (ra_JwtRules spec)
  | _ => fail "cannot cast to RequestAuthentication" []
  end).

(** ** Networking *)

Definition ValidateCircuitBreakerPolicy : ValidateFunc := validateFunc (fun cfg =>
  match cfg_Spec cfg with
  | Some (ApiCircuitBreakerPolicy spec) =>
      when (length (cb_TargetRefs spec) =? 0)%nat (fail "targetRefs must not be empty" []) ++
      each (fun i ref =>
        match ref with
        | None => fail "targetRefs[%d] must not be null" [FInt i]
        | Some ref =>
            (if String.eqb (ft_Kind ref) "" then fail "targetRefs[%d].kind must not be empty" [FInt i]
             else when (negb (String.eqb (ft_Kind ref) "Service"))
               (fail "targetRefs[%d].kind %q is not supported; only Service targets are applied" [FInt i; FStr (ft_Kind ref)])) ++
            when (String.eqb (ft_Name ref) "") (fail "targetRefs[%d].name must not be empty" [FInt i])
        end) (cb_TargetRefs spec) ++
      when (negb (bool_decide (is_Some (cb_ConnectionPool spec))) && negb (bool_decide (is_Some (cb_OutlierDetection spec))))
        (fail "at least one of connectionPool or outlierDetection must be set" []) ++
      match cb_ConnectionPool spec with
      | None => []
      | Some cp =>
          validateNonNegativeInt32 "connectionPool.maxConnections" (cp_MaxConnections cp) ++
          validateNonNegativeInt32 "connectionPool.http1MaxPendingRequests" (cp_Http1MaxPendingRequests cp) ++
          validateNonNegativeInt32 "connectionPool.http2MaxRequests" (cp_Http2MaxRequests cp) ++
          validateNonNegativeInt32 "connectionPool.maxRequestsPerConnection" (cp_MaxRequestsPerConnection cp) ++
          validateNonNegativeInt32 "connectionPool.maxRetries" (cp_MaxRetries cp)
      end ++
      match cb_OutlierDetection spec with
      | None => []
      | Some od =>
          validatePositiveDuration "outlierDetection.interval" (od_Interval od) ++
          validatePositiveDuration "outlierDetection.baseEjectionTime" (od_BaseEjectionTime od) ++
          validatePercent "outlierDetection.maxEjectionPercent" (od_MaxEjectionPercent od) ++
          validatePercent "outlierDetection.minHealthPercent" (od_MinHealthPercent od)
      end
  | _ => fail "cannot cast to CircuitBreakerPolicy" []
  end).

Definition Millisecond : Z := 1000000.

Definition check_fault_target (i : Z) (ref : option FaultTarget) : errors :=
  match ref with
  | None => fail "targetRefs[%d] must not be null" [FInt i]
  | Some ref =>
      when (negb (String.eqb (ft_Kind ref) "Service"))
        (fail "targetRefs[%d].kind %q is not supported; only Service targets are applied" [FInt i; FStr (ft_Kind ref)]) ++
      (let group := TrimSpace (ft_Group ref) in
       when (negb (String.eqb group "") && negb (String.eqb group "core"))
         (fail "targetRefs[%d].group %q is not supported; use the core API group" [FInt i; FStr group])) ++
      when (String.eqb (ft_Name ref) "") (fail "targetRefs[%d].name must not be empty" [FInt i])
  end.

Definition ValidateFaultInjectionPolicy : ValidateFunc := validateFunc (fun cfg =>
  match cfg_Spec cfg with
  | Some (ApiFaultInjectionPolicy spec) =>
      when (length (fi_TargetRefs spec) =? 0)%nat (fail "targetRefs must not be empty" []) ++
      each check_fault_target (fi_TargetRefs spec) ++
      when (negb (bool_decide (is_Some (fi_Delay spec))) && negb (bool_decide (is_Some (fi_Abort spec))))
        (fail "at least one of delay or abort must be set" []) ++
      match fi_Delay spec with
      | None => []
      | Some delay =>
          validatePositiveDuration "delay.fixedDelay" (fd_FixedDelay delay) ++
          validateOptionalUInt32Percent "delay.percentage" (fd_Percentage delay) ++
          match fd_FixedDelay delay with
          | None => fail "delay.fixedDelay must be set" []
          | Some d => when (CheckValid d && (AsDuration d <? Millisecond)) (fail "delay.fixedDelay must be at least 1ms" [])
          end
      end ++
      match fi_Abort spec with
      | None => []
      | Some abort =>
          when ((fa_HttpStatus abort <? 400) || (599 <? fa_HttpStatus abort))
            (fail "abort.httpStatus must be in range [400, 599], got %d" [FInt (fa_HttpStatus abort)]) ++
          validateOptionalUInt32Percent "abort.percentage" (fa_Percentage abort)
      end
  | _ => fail "cannot cast to FaultInjectionPolicy" []
  end).

Definition validateServiceEntryHost (field : farg) (value : string) : errors :=
  if String.eqb value "" then fail "%s must not be empty" [field]
  else if ParseIP value then []
  else
    let hostname := TrimPrefix value "*." in
    match IsDNS1123Subdomain hostname with
    | _ :: _ => fail "%s %q is not a valid DNS name: %v" [field; FStr value; FStrs (IsDNS1123Subdomain hostname)]
    | [] =>
        if str_contains value "*" && negb (HasPrefix value "*.")
        then fail "%s %q has an invalid wildcard" [field; FStr value] else []
    end.

Definition validateWorkloadAddress (field : farg) (value : string) : errors :=
  if str_contains value "*" then fail "%s %q must not contain a wildcard" [field; FStr value]
  else validateServiceEntryHost field value.

Definition validateWorkloadEntry (field : farg) (workload : option WorkloadEntry) : errors :=
  match workload with
  | None => fail "%s must not be null" [field]
  | Some w =>
      validateWorkloadAddress (FText "%s.address" [field]) (we_Address w) ++
      concat (map (fun '(name, port) =>
        when (String.eqb name "") (fail "%s.ports contains an empty name" [field]) ++
        when ((port =? 0) || (65535 <? port)) (fail "%s.ports[%q] must be between 1 and 65535" [field; FStr name]))
        (range (nmap_get (we_Ports w)))) ++
      on_error (labels_Validate (we_Labels w)) (fun err => fail "%s.labels: %v" [field; FErr err]) ++
      when (negb (String.eqb (we_Locality w) ""))
        (let parts := Split (we_Locality w) "/" in
         when (3 <? length parts)%nat (fail "%s.locality %q must use region/zone/subzone form" [field; FStr (we_Locality w)]) ++
         when (existsb (fun part => String.eqb part "") parts)
           (fail "%s.locality %q must not contain empty segments" [field; FStr (we_Locality w)])) ++
      when (negb (String.eqb (we_ServiceAccount w) ""))
        (on_error (IsDNS1123Subdomain (we_ServiceAccount w)) (fun messages => fail "%s.serviceAccount %q is invalid: %v" [field; FStr (we_ServiceAccount w); FStrs messages]))
  end.

(** The loop over the ports, with the names and numbers seen so far. *)
Fixpoint check_ports (i : Z) (names : gset string) (numbers : gset Z) (ports : list (option EntryPort)) : errors :=
  match ports with
  | [] => []
  | None :: rest => fail "ports[%d] must not be null" [FInt i] ++ check_ports (i + 1) names numbers rest
  | Some port :: rest =>
      (if String.eqb (ep_Name port) "" then fail "ports[%d].name must not be empty" [FInt i]
       else when (bool_decide (ep_Name port ∈ names)) (fail "ports[%d].name %q is duplicated" [FInt i; FStr (ep_Name port)])) ++
      (if (ep_Number port =? 0) || (65535 <? ep_Number port) then fail "ports[%d].number must be between 1 and 65535" [FInt i]
       else when (bool_decide (ep_Number port ∈ numbers))
         (fail "ports[%d].number %d is duplicated" [FInt i; FInt (ep_Number port)])) ++
      when (65535 <? ep_TargetPort port) (fail "ports[%d].targetPort must be between 1 and 65535 when set" [FInt i]) ++
      when (bool_decide (protocol.Parse (ep_Protocol port) = protocol.Unsupported))
        (fail "ports[%d].protocol %q is unsupported" [FInt i; FStr (ep_Protocol port)]) ++
      check_ports (i + 1) ({[ep_Name port]} ∪ names) ({[ep_Number port]} ∪ numbers) rest
  end.

Fixpoint check_exports (i : Z) (seenExport : gset string) (exports : list string) : errors :=
  match exports with
  | [] => []
  | export :: rest =>
      on_error (visibility_Validate export) (fun err => fail "exportTo[%d]: %v" [FInt i; FErr err]) ++
      when (bool_decide (export ∈ seenExport)) (fail "exportTo[%d] %q is duplicated" [FInt i; FStr export]) ++
      check_exports (i + 1) ({[export]} ∪ seenExport) rest
  end.

Definition ValidateServiceEntry : ValidateFunc := validateFunc (fun cfg =>
  match cfg_Spec cfg with
  | Some (ApiServiceEntry spec) =>
      when (length (ws_Hosts spec) =? 0)%nat (fail "hosts must not be empty" []) ++
      each (fun i hostname => validateServiceEntryHost (FText "hosts[%d]" [FInt i]) hostname) (ws_Hosts spec) ++
      each (fun i address =>
        when (negb (ParseIP address) && negb (ParseCIDR address))
          (fail "addresses[%d] %q must be an IP address or CIDR" [FInt i; FStr address])) (ws_Addresses spec) ++
      when (length (ws_Ports spec) =? 0)%nat (fail "ports must not be empty" []) ++
      check_ports 0 ∅ ∅ (ws_Ports spec) ++
      when (bool_decide (is_Some (ws_WorkloadSelector spec)) && (0 <? length (ws_Endpoints spec))%nat)
        (fail "only one of workloadSelector or endpoints can be set" []) ++
      validateWorkloadSelector (ws_WorkloadSelector spec) ++
      each (fun i endpoint => validateWorkloadEntry (FText "endpoints[%d]" [FInt i]) endpoint) (ws_Endpoints spec) ++
      check_exports 0 ∅ (ws_ExportTo spec)
  | _ => fail "cannot cast to ServiceEntry" []
  end).

Definition ValidateWorkloadEntry : ValidateFunc := validateFunc (fun cfg =>
  match cfg_Spec cfg with
  | Some (ApiWorkloadEntry spec) => validateWorkloadEntry (FStr "workloadEntry") (Some spec)
  | _ => fail "cannot cast to WorkloadEntry" []
  end).

(** ** Telemetry *)

Definition telemetryStandardLabels : list string := ["reporter"; "grpc_service"; "grpc_method"; "grpc_response_status"].

(** The loop over the providers of an entry of logging or metrics. *)
Fixpoint check_providers (kind : string) (supported : string) (i j : Z) (providers : gset string) (l : list string) : errors :=
  match l with
  | [] => []
  | p :: rest =>
      let name := TrimSpace p in
      if String.eqb name "" then
        fail (kind +:+ "[%d].providers[%d].name must be set") [FInt i; FInt j] ++
        check_providers kind supported i (j + 1) providers rest
      else
        when (negb (String.eqb name supported))
          (fail (kind +:+ "[%d].providers[%d].name %q is unsupported") [FInt i; FInt j; FStr name]) ++
        when (bool_decide (name ∈ providers))
          (fail (kind +:+ "[%d].providers[%d].name %q is duplicated") [FInt i; FInt j; FStr name]) ++
        check_providers kind supported i (j + 1) ({[name]} ∪ providers) rest
  end.

Fixpoint check_tags (kind : string) (i j : Z) (tagNames : gset string) (l : list Tag) : errors :=
  match l with
  | [] => []
  | tag :: rest =>
      let name := TrimSpace (tg_Name tag) in
      if String.eqb name "" then
        fail (kind +:+ "[%d].tags[%d].name must be set") [FInt i; FInt j] ++ check_tags kind i (j + 1) tagNames rest
      else
        when (bool_decide (name ∈ tagNames))
          (fail (kind +:+ "[%d].tags[%d].name %q is duplicated") [FInt i; FInt j; FStr name]) ++
        check_tags kind i (j + 1) ({[name]} ∪ tagNames) rest
  end.

Definition check_logging (i : Z) (logging : option Logging) : errors :=
  match logging with
  | None => fail "logging[%d] must not be null" [FInt i]
  | Some logging =>
      check_providers "logging" OTELLogProvider i 0 ∅ (lg_Providers logging) ++
      match default MODE_UNSPECIFIED (lg_Match logging) with
      | MODE_UNSPECIFIED | CLIENT | SERVER | CLIENT_AND_SERVER => []
      | OTHER_MATCH _ => fail "logging[%d].match.mode is invalid" [FInt i]
      end ++
      match lg_Filter logging with
      | None => []
      | Some expression =>
          when (String.eqb (TrimSpace expression) "") (fail "logging[%d].filter.expression must be set" [FInt i])
      end ++
      check_tags "logging" i 0 ∅ (lg_Tags logging)
  end.

(** An override of a tag of a rule. *)
Definition check_override (i j : Z) (tag : string * option tag_action) : errors :=
  let '(name, override) := tag in
  (if String.eqb (TrimSpace name) "" then fail "metrics[%d].rules[%d].tags contains an empty name" [FInt i; FInt j]
   else when (negb (existsb (String.eqb name) telemetryStandardLabels))
     (fail "metrics[%d].rules[%d].tags[%q] is not a standard label" [FInt i; FInt j; FStr name])) ++
  match override with
  | None => fail "metrics[%d].rules[%d].tags[%q] must not be null" [FInt i; FInt j; FStr name]
  | Some REMOVE => []
  | Some (OTHER_TAG_ACTION _) => fail "metrics[%d].rules[%d].tags[%q].action must be REMOVE" [FInt i; FInt j; FStr name]
  end.

(** The key of a rule is its two numbers with a slash between them. *)
Definition rule_key (rule : MetricsOverride) : string := Itoa (mo_Metric rule) +:+ "/" +:+ Itoa (mo_Scope rule).

Fixpoint check_rules (i j : Z) (rules : gset string) (l : list (option MetricsOverride)) : errors :=
  match l with
  | [] => []
  | None :: rest => fail "metrics[%d].rules[%d] must not be null" [FInt i; FInt j] ++ check_rules i (j + 1) rules rest
  | Some rule :: rest =>
      when (mo_Metric rule =? 0) (fail "metrics[%d].rules[%d].metric must be set" [FInt i; FInt j]) ++
      when (mo_Scope rule =? 0) (fail "metrics[%d].rules[%d].scope must be set" [FInt i; FInt j]) ++
      when (bool_decide (rule_key rule ∈ rules))
        (fail "metrics[%d].rules[%d] duplicates metric %s with scope %s"
           [FInt i; FInt j; FInt (mo_Metric rule); FInt (mo_Scope rule)]) ++
      concat (map (check_override i j) (range (nmap_get (mo_Tags rule)))) ++
      check_rules i (j + 1) ({[rule_key rule]} ∪ rules) rest
  end.

Definition check_metrics (i : Z) (m : option Metrics) : errors :=
  match m with
  | None => fail "metrics[%d] must not be null" [FInt i]
  | Some m =>
      check_providers "metrics" PrometheusProvider i 0 ∅ (mt_Providers m) ++ check_rules i 0 ∅ (mt_Rules m)
  end.

Definition is_nan (f : spec_float) : bool := match f with S754_nan => true | _ => false end.
Definition is_inf (f : spec_float) : bool := match f with S754_infinity _ => true | _ => false end.

Definition check_tracing (i : Z) (t : option Tracing) : errors :=
  match t with
  | None => fail "tracing[%d] must not be null" [FInt i]
  | Some t =>
      each (fun j p =>
        when (String.eqb (TrimSpace p) "") (fail "tracing[%d].providers[%d].name must be set" [FInt i; FInt j])) (tr_Providers t) ++
      match tr_RandomSamplingPercentage t with
      | None => []
      | Some s =>
          when (is_nan s || is_inf s || SFltb s (float64 0) || SFltb (float64 100) s)
            (fail "tracing[%d].randomSamplingPercentage must be in range [0.0, 100.0], got %v" [FInt i])
      end ++
      check_tags "tracing" i 0 ∅ (tr_Tags t)
  end.

Definition ValidateTelemetry : ValidateFunc := validateFunc (fun cfg =>
  match cfg_Spec cfg with
  | Some (ApiTelemetry spec) =>
      validateWorkloadSelector (te_Selector spec) ++
      when (String.eqb (cfg_Namespace cfg) DubboSystemNamespace && bool_decide (is_Some (te_Selector spec)))
        (fail "selector is not allowed on meshlevel Telemetry in namespace %q" [FStr DubboSystemNamespace]) ++
      each check_logging (te_Logging spec) ++
      each check_metrics (te_Metrics spec) ++
      each check_tracing (te_Tracing spec)
  | _ => fail "cannot cast to Telemetry" []
  end).

End validation.

(** ** Reference: what a valid resource is *)

Definition selector_ok (s : selector) : Prop :=
  match s with
  | None => True
  | Some m => nmap_get m <> ∅ /\ map_Forall (fun k v => key_ok k /\ value_ok v) (nmap_get m)
  end.
Definition all_labels_ok (m : nmap string string) : Prop := map_Forall (fun k v => key_ok k /\ value_ok v) (nmap_get m).

Section wellformed.
Context `{Parsers} `{Libraries}.

Definition metadata_ok (cfg : Config ApiSpec) : Prop :=
  cfg_Name cfg <> "" /\ IsDNS1123Subdomain (cfg_Name cfg) = [] /\
  (cfg_Namespace cfg = "" \/ validation_IsDNS1123Label (cfg_Namespace cfg) = []).

Definition host_ok (value : string) : Prop :=
  value <> "" /\
  (ParseIP value = true \/
   IsDNS1123Subdomain (TrimPrefix value "*.") = [] /\ (str_contains value "*" = true -> HasPrefix value "*." = true)).

Definition port_number_ok (p : Z) : Prop := p <> 0 /\ p <= 65535.

Record workload_ok (w : WorkloadEntry) : Prop := {
  wo_address : str_contains (we_Address w) "*" = false /\ host_ok (we_Address w);
  wo_ports : map_Forall (fun name port => name <> "" /\ port_number_ok port) (nmap_get (we_Ports w));
  wo_labels : all_labels_ok (we_Labels w);
  wo_locality : we_Locality w = "" \/
    (length (Split (we_Locality w) "/") <= 3)%nat /\ "" ∉ Split (we_Locality w) "/";
  wo_account : we_ServiceAccount w = "" \/ IsDNS1123Subdomain (we_ServiceAccount w) = []
}.

Definition entry_port_ok (p : EntryPort) : Prop :=
  ep_Name p <> "" /\ port_number_ok (ep_Number p) /\ ep_TargetPort p <= 65535 /\
  protocol.Parse (ep_Protocol p) <> protocol.Unsupported.

Definition export_ok (v : string) : Prop :=
  v = Private \/ v = Public \/ (v <> VisibilityNone /\ IsDNS1123Label v = true).

Record entry_ok (e : WireServiceEntry) : Prop := {
  eo_hosts : ws_Hosts e <> [] /\ Forall host_ok (ws_Hosts e);
  eo_addresses : Forall (fun a => ParseIP a = true \/ ParseCIDR a = true) (ws_Addresses e);
  eo_ports : exists ps, ws_Ports e = map Some ps /\ ps <> [] /\ Forall entry_port_ok ps /\
    NoDup (map ep_Name ps) /\ NoDup (map ep_Number ps);
  eo_source : ws_WorkloadSelector e = None \/ ws_Endpoints e = [];
  eo_selector : selector_ok (ws_WorkloadSelector e);
  eo_endpoints : exists ws, ws_Endpoints e = map Some ws /\ Forall workload_ok ws;
  eo_exports : Forall export_ok (ws_ExportTo e) /\ NoDup (ws_ExportTo e)
}.

Definition percent_ok (p : option Z) : Prop := match p with None => True | Some v => v <= 100 end.

Record fault_ok (f : FaultInjectionPolicy) : Prop := {
  fo_targets : fi_TargetRefs f <> [] /\ Forall (fun t => isFaultInjectionServiceTarget t = true) (fi_TargetRefs f);
  fo_some : fi_Delay f <> None \/ fi_Abort f <> None;
  fo_delay : forall d, fi_Delay f = Some d -> percent_ok (fd_Percentage d) /\
    exists t, fd_FixedDelay d = Some t /\ CheckValid t = true /\ Millisecond <= AsDuration t;
  fo_abort : forall a, fi_Abort f = Some a -> percent_ok (fa_Percentage a) /\ 400 <= fa_HttpStatus a <= 599
}.
End wellformed.

(** ** Lemmas *)

Lemma when_nil b f a : when b (fail f a) = [] <-> b = false.
Proof. by destruct b. Qed.
Lemma when_nil_gen b e : when b e = [] <-> (b = true -> e = []).
Proof. destruct b; simpl; naive_solver. Qed.
Lemma fail_nil f a : fail f a = [] <-> False.
Proof. done. Qed.
Lemma on_error_nil {A} (e : list A) f args : on_error e (fun err => fail f (args err)) = [] <-> e = [].
Proof. by destruct e. Qed.

Lemma each_nil {A} (P : A -> Prop) (f : Z -> A -> errors) (l : list A) :
  (forall i x, f i x = [] <-> P x) -> each f l = [] <-> Forall P l.
Proof.
  intros Hf. unfold each. rewrite concat_nil, Forall_lookup. split.
  - intros Hl. apply Forall_lookup. intros i x Hi. apply (Hf (Z.of_nat i)), (Hl i). by rewrite list_lookup_imap, Hi.
  - intros Hl i e He. rewrite list_lookup_imap in He. destruct (l !! i) as [x|] eqn:Hx; [|done]. injection He as <-.
    apply Hf. by eapply Forall_lookup_1.
Qed.

#[export] Hint Rewrite @app_nil when_nil andb_false_iff andb_true_iff orb_false_iff negb_false_iff negb_true_iff
  Z.eqb_neq Z.ltb_ge Z.leb_gt Nat.eqb_neq Nat.ltb_ge String.eqb_neq String.eqb_eq : checks.
Ltac checks := autorewrite with checks.

Section accepted.
Context `{RangeOrder} `{Parsers} `{Libraries}.

Lemma labels_Validate_nil m : labels_Validate m = [] <-> all_labels_ok m.
Proof.
  unfold labels_Validate, all_labels_ok. destruct m as [m|]; simpl; [|split; [intros _; apply map_Forall_empty|done]].
  rewrite range_nil_errors. setoid_rewrite validate_label_spec. done.
Qed.

Lemma validateWorkloadSelector_nil s : validateWorkloadSelector s = [] <-> selector_ok s.
Proof.
  destruct s as [m|]; simpl; [|done]. checks. rewrite on_error_nil, labels_Validate_nil.
  rewrite range_nil_errors. split.
  - intros (Hs & Hl & _). split; [|done]. intros E. rewrite E, map_size_empty in Hs. done.
  - intros (Hs & Hl). split; [by rewrite map_size_empty_iff|]. split; [done|]. intros k v Hk. apply when_nil.
    destruct (Hl k v Hk) as [Hkey _]. apply String.eqb_neq. intros ->. destruct Hkey as [[? _]|(ls & name & E & _)]; [done|].
    destruct ls as [|a [|b ls]]; simpl in E; [done|by destruct a|by destruct a].
Qed.

Lemma ValidateMetadata_nil cfg : ValidateMetadata cfg = [] <-> metadata_ok cfg.
Proof.
  unfold ValidateMetadata, metadata_ok. rewrite app_nil.
  destruct (String.eqb_spec (cfg_Name cfg) ""); [naive_solver|].
  rewrite on_error_nil.
  destruct (String.eqb_spec (cfg_Namespace cfg) ""); simpl; [tauto|].
  rewrite on_error_nil. tauto.
Qed.

Lemma validateFunc_nil f cfg : validateFunc f cfg = [] <-> f cfg = [] /\ metadata_ok cfg.
Proof. unfold validateFunc. by rewrite app_nil, ValidateMetadata_nil. Qed.

Lemma validateServiceEntryHost_nil field v : validateServiceEntryHost field v = [] <-> host_ok v.
Proof.
  unfold validateServiceEntryHost, host_ok. destruct (String.eqb_spec v ""); [split; [done|by intros [? _]]|].
  destruct (ParseIP v); [tauto|]. destruct (IsDNS1123Subdomain _) eqn:E; [|split; [done|by intros [_ [?|[? _]]]]].
  destruct (str_contains v "*"), (HasPrefix v "*."); simpl; split; try done; try tauto.
  intros [_ [?|[_ Hp]]]; [done|]. by specialize (Hp eq_refl).
Qed.

Lemma validateWorkloadAddress_nil field v :
  validateWorkloadAddress field v = [] <-> str_contains v "*" = false /\ host_ok v.
Proof.
  unfold validateWorkloadAddress. destruct (str_contains v "*"); [split; [done|by intros [? _]]|].
  rewrite validateServiceEntryHost_nil. tauto.
Qed.

Lemma no_empty_part (l : list string) : existsb (fun part => String.eqb part "") l = false <-> "" ∉ l.
Proof.
  rewrite <- not_true_iff_false, existsb_exists. setoid_rewrite String.eqb_eq. setoid_rewrite <- list_elem_of_In.
  split; intros Hn Hx; apply Hn; [by exists ""|]. destruct Hx as (x & Hx & ->). done.
Qed.

Lemma validateWorkloadEntry_nil field w : validateWorkloadEntry field (Some w) = [] <-> workload_ok w.
Proof.
  simpl. rewrite !app_nil, validateWorkloadAddress_nil, range_nil_errors, on_error_nil, labels_Validate_nil, !when_nil_gen, on_error_nil.
  setoid_rewrite app_nil. setoid_rewrite when_nil. rewrite no_empty_part, negb_true_iff, String.eqb_neq.
  rewrite negb_true_iff, String.eqb_neq, Nat.ltb_ge.
  assert ((forall k v, nmap_get (we_Ports w) !! k = Some v ->
             String.eqb k "" = false /\ (v =? 0) || (65535 <? v) = false) <->
          map_Forall (fun name port => name <> "" /\ port_number_ok port) (nmap_get (we_Ports w))) as ->.
  { unfold map_Forall, port_number_ok. setoid_rewrite orb_false_iff. setoid_rewrite String.eqb_neq.
    setoid_rewrite Z.eqb_neq. setoid_rewrite Z.ltb_ge. done. }
  split.
  - intros (? & ? & ? & Hl & Ha). split; try done.
    + destruct (decide (we_Locality w = "")); auto.
    + destruct (decide (we_ServiceAccount w = "")); auto.
  - intros [? ? ? Hl Ha]. do 3 (split; [done|]). split; [by destruct Hl|by destruct Ha].
Qed.
Lemma check_ports_nil i names numbers l :
  check_ports i names numbers l = [] <->
  exists ps, l = map Some ps /\ Forall entry_port_ok ps /\ NoDup (map ep_Name ps) /\ NoDup (map ep_Number ps) /\
    Forall (fun p => ep_Name p ∉ names /\ ep_Number p ∉ numbers) ps.
Proof.
  revert i names numbers. induction l as [|[p|] l IH]; intros i names numbers; cbn [check_ports].
  - split; [|done]. intros _. exists []. repeat constructor.
  - rewrite !app_nil, !when_nil, IH, bool_decide_eq_false, Z.ltb_ge. split.
    + intros (Hn & Hm & Ht & Hp & ps & -> & Hps & Hd1 & Hd2 & Hf). exists (p :: ps). split; [done|].
      destruct (String.eqb_spec (ep_Name p) ""); [done|]. destruct (_ || _) eqn:E; [done|].
      rewrite when_nil, bool_decide_eq_false in Hn. rewrite when_nil, bool_decide_eq_false in Hm. apply orb_false_iff in E as [E1 E2].
      rewrite Z.eqb_neq in E1. rewrite Z.ltb_ge in E2. rewrite Forall_forall in Hf. simpl. split_and!.
      * constructor; [|done]. split_and!; try done.
      * constructor; [|done]. intros (q & E & Hq)%list_elem_of_fmap. destruct (Hf q Hq) as [Hq' _]. set_solver.
      * constructor; [|done]. intros (q & E & Hq)%list_elem_of_fmap. destruct (Hf q Hq) as [_ Hq']. set_solver.
      * constructor; [done|]. apply Forall_forall. intros q Hq. destruct (Hf q Hq). set_solver.
    + intros ([|q ps] & E & Hps & Hd1 & Hd2 & Hf); [done|]. injection E as <- ->.
      apply Forall_cons in Hps as [(Hp1 & Hp2 & Hp3 & Hp4) Hps]. apply Forall_cons in Hf as [[Hf1 Hf2] Hf].
      apply NoDup_cons in Hd1 as [Hi1 Hd1]. apply NoDup_cons in Hd2 as [Hi2 Hd2]. split_and!; try done.
      * destruct (String.eqb_spec (ep_Name p) ""); [done|]. by apply when_nil, bool_decide_eq_false.
      * destruct Hp2. destruct (Z.eqb_spec (ep_Number p) 0); [done|]. destruct (Z.ltb_spec 65535 (ep_Number p)); [lia|].
        by apply when_nil, bool_decide_eq_false.
      * exists ps. split_and!; try done. rewrite Forall_forall in *. intros x Hx. destruct (Hf x Hx).
        apply (list_elem_of_fmap_2 ep_Name) in Hx as Hx1. apply (list_elem_of_fmap_2 ep_Number) in Hx as Hx2.
        rewrite !not_elem_of_union, !not_elem_of_singleton. split_and!; try done; intros E; [rewrite E in Hx1|rewrite E in Hx2]; done.
  - split; [done|]. by intros ([|? ?] & E & _).
Qed.

Lemma visibility_Validate_nil v : visibility_Validate v = [] <-> export_ok v.
Proof.
  unfold visibility_Validate, export_ok. destruct (String.eqb_spec v Private); simpl; [tauto|].
  destruct (String.eqb_spec v Public); [tauto|]. destruct (String.eqb_spec v VisibilityNone); [subst; split; [done|]|].
  - by intros [?|[?|[? _]]].
  - rewrite when_nil, negb_false_iff. tauto.
Qed.

Lemma check_exports_nil i seen l :
  check_exports i seen l = [] <-> Forall export_ok l /\ NoDup l /\ Forall (fun e => e ∉ seen) l.
Proof.
  revert i seen. induction l as [|e l IH]; intros i seen; cbn [check_exports].
  { split; [repeat constructor|done]. }
  rewrite !app_nil, on_error_nil, visibility_Validate_nil, when_nil, bool_decide_eq_false, IH, !Forall_cons, NoDup_cons.
  rewrite !Forall_forall. split.
  - intros (He & Hs & Hl & Hd & Hf). split_and!; try done; [|intros x Hx; specialize (Hf x Hx); set_solver].
    intros Hin. specialize (Hf e Hin). set_solver.
  - intros ([He Hl] & [Hi Hd] & [Hs Hf]). split_and!; try done. intros x Hx. specialize (Hf x Hx).
    rewrite not_elem_of_union, not_elem_of_singleton. split; [|done]. by intros ->.
Qed.

Lemma each_workloads_nil (fld : Z -> farg) l :
  each (fun i endpoint => validateWorkloadEntry (fld i) endpoint) l = [] <-> exists ws, l = map Some ws /\ Forall workload_ok ws.
Proof.
  rewrite (each_nil (fun o => exists w, o = Some w /\ workload_ok w)).
  - split.
    + induction 1 as [|o l (w & -> & Hw) _ (ws & -> & Hws)]; [by exists []|]. exists (w :: ws). split; [done|]. by constructor.
    + intros (ws & -> & Hws). apply Forall_map. eapply Forall_impl; [exact Hws|]. eauto.
  - intros i [w|]; [|split; [done|by intros (? & ? & _)]]. rewrite validateWorkloadEntry_nil. naive_solver.
Qed.

Lemma zero_length {A} (l : list A) : (length l =? 0)%nat = false <-> l <> [].
Proof. by destruct l. Qed.

Lemma ValidateServiceEntry_nil cfg :
  ValidateServiceEntry cfg = [] <-> exists e, cfg_Spec cfg = Some (ApiServiceEntry e) /\ entry_ok e /\ metadata_ok cfg.
Proof.
  unfold ValidateServiceEntry. rewrite validateFunc_nil.
  destruct (cfg_Spec cfg) as [[]|]; try (split; [by intros [? _]|by intros (? & ? & _)]).
  rewrite !app_nil, !when_nil, !zero_length, check_ports_nil, validateWorkloadSelector_nil, each_workloads_nil, check_exports_nil.
  rewrite (each_nil host_ok) by (intros; apply validateServiceEntryHost_nil).
  rewrite (each_nil (fun a => ParseIP a = true \/ ParseCIDR a = true))
    by (intros j a; rewrite when_nil, andb_false_iff, !negb_false_iff; done).
  rewrite andb_false_iff, Nat.ltb_ge, bool_decide_eq_false, <- eq_None_not_Some. split.
  - intros [(Hh & Hhs & Ha & Hp & (ps & Ep & Hps & Hd1 & Hd2 & _) & Hs & Hsel & He & Hex & Hdx & _) Hm]. exists e.
    split; [done|]. split; [|done]. split; try done.
    + exists ps. split_and!; try done. intros ->. by rewrite Ep in Hp.
    + destruct Hs as [Hs|Hs]; [by left|right]. by destruct (ws_Endpoints e); simpl in Hs; [|lia].
  - intros (e' & [= <-] & [[Hh Hhs] Ha (ps & Ep & Hp & Hps & Hd1 & Hd2) Hs Hsel He [Hex Hdx]] & Hm).
    split; [|done]. split_and!; try done.
    + rewrite Ep. by destruct ps.
    + exists ps. split_and!; try done. apply Forall_forall. set_solver.
    + destruct Hs as [Hs|Hs]; [by left|right]. rewrite Hs. simpl. lia.
    + apply Forall_forall. set_solver.
Qed.

Lemma ValidateWorkloadEntry_nil cfg :
  ValidateWorkloadEntry cfg = [] <-> exists w, cfg_Spec cfg = Some (ApiWorkloadEntry w) /\ workload_ok w /\ metadata_ok cfg.
Proof.
  unfold ValidateWorkloadEntry. rewrite validateFunc_nil.
  destruct (cfg_Spec cfg) as [[]|]; try (split; [by intros [? _]|by intros (? & ? & _)]).
  rewrite validateWorkloadEntry_nil. naive_solver.
Qed.

Lemma check_fault_target_nil i t : check_fault_target i t = [] <-> isFaultInjectionServiceTarget t = true.
Proof.
  destruct t as [t|]; [|done]. unfold check_fault_target, isFaultInjectionServiceTarget. cbv zeta. checks.
  destruct (String.eqb_spec (ft_Name t) ""); [naive_solver|].
  rewrite andb_true_iff, orb_true_iff, !String.eqb_eq. naive_solver.
Qed.

Lemma validatePositiveDuration_nil name d :
  validatePositiveDuration name d = [] <-> forall t, d = Some t -> CheckValid t = true /\ 0 < AsDuration t.
Proof.
  destruct d as [t|]; simpl; [|naive_solver]. destruct (CheckValid t) eqn:E; simpl.
  - checks. split; [intros Hd ? [= <-]; done|]. intros Hd. by apply Hd.
  - split; [done|]. intros Hd. destruct (Hd t eq_refl). congruence.
Qed.

Lemma validateOptionalUInt32Percent_nil name v : validateOptionalUInt32Percent name v = [] <-> percent_ok v.
Proof. destruct v; simpl; [|done]. by checks. Qed.

Definition delay_errors (d : FaultDelaySpec) : errors :=
  validatePositiveDuration "delay.fixedDelay" (fd_FixedDelay d) ++
  validateOptionalUInt32Percent "delay.percentage" (fd_Percentage d) ++
  match fd_FixedDelay d with
  | None => fail "delay.fixedDelay must be set" []
  | Some t => when (CheckValid t && (AsDuration t <? Millisecond)) (fail "delay.fixedDelay must be at least 1ms" [])
  end.

Lemma delay_errors_nil d :
  delay_errors d = [] <->
  percent_ok (fd_Percentage d) /\ exists t, fd_FixedDelay d = Some t /\ CheckValid t = true /\ Millisecond <= AsDuration t.
Proof.
  unfold delay_errors. rewrite !app_nil, validatePositiveDuration_nil, validateOptionalUInt32Percent_nil.
  destruct (fd_FixedDelay d) as [t|]; [|split; [by intros (_ & _ & ?)|by intros (_ & ? & ? & _)]]. checks. split.
  - intros (Hd & Hp & Ht). destruct (Hd t eq_refl) as [Hc _]. split; [done|]. exists t. destruct Ht; [congruence|done].
  - intros (Hp & t' & [= <-] & Hc & Ht). split_and!; [|done|by right]. intros ? [= <-]. unfold Millisecond in Ht. split; [done|lia].
Qed.

Lemma both_none {A B} (a : option A) (b : option B) :
  negb (bool_decide (is_Some a)) && negb (bool_decide (is_Some b)) = false <-> a <> None \/ b <> None.
Proof. destruct a, b; simpl; naive_solver. Qed.

Lemma ValidateFaultInjectionPolicy_nil cfg :
  ValidateFaultInjectionPolicy cfg = [] <-> exists f, cfg_Spec cfg = Some (ApiFaultInjectionPolicy f) /\ fault_ok f /\ metadata_ok cfg.
Proof.
  unfold ValidateFaultInjectionPolicy. rewrite validateFunc_nil.
  destruct (cfg_Spec cfg) as [[| | | |f| | | |]|]; try (split; [by intros [? _]|by intros (? & ? & _)]).
  rewrite !app_nil, !when_nil, zero_length, (each_nil _ _ _ check_fault_target_nil), both_none.
  assert (Hd : match fi_Delay f with None => [] | Some d => delay_errors d end = [] <->
    forall d, fi_Delay f = Some d -> percent_ok (fd_Percentage d) /\
      exists t, fd_FixedDelay d = Some t /\ CheckValid t = true /\ Millisecond <= AsDuration t).
  { destruct (fi_Delay f) as [d|]; [|naive_solver]. rewrite delay_errors_nil. naive_solver. }
  unfold delay_errors in Hd. rewrite Hd. clear Hd.
  assert (Ha : match fi_Abort f with
    | None => []
    | Some abort =>
        when ((fa_HttpStatus abort <? 400) || (599 <? fa_HttpStatus abort))
          (fail "abort.httpStatus must be in range [400, 599], got %d" [FInt (fa_HttpStatus abort)]) ++
        validateOptionalUInt32Percent "abort.percentage" (fa_Percentage abort)
    end = [] <-> forall a, fi_Abort f = Some a -> percent_ok (fa_Percentage a) /\ 400 <= fa_HttpStatus a <= 599).
  { destruct (fi_Abort f) as [a|]; [|naive_solver]. rewrite app_nil, validateOptionalUInt32Percent_nil. checks. naive_solver. }
  rewrite Ha. clear Ha. split.
  - intros [(Ht & Hts & Hs & Hd & Ha) Hm]. exists f. split; [done|]. split; [|done]. by split.
  - intros (f' & [= <-] & [[Ht Hts] Hs Hd Ha] & Hm). split; [|done]. by split_and!.
Qed.

End accepted.

(** ** Accepted resources can be used *)

(** Numbers of the wire are not negative. *)
Definition wire_workload (w : WorkloadEntry) : Prop := forall n p, nmap_get (we_Ports w) !! n = Some p -> 0 <= p.
Definition wire_port (p : EntryPort) : Prop := 0 <= ep_Number p /\ 0 <= ep_TargetPort p.

Lemma default_some {A} (d : A) (l : list A) : map (default d) (map Some l) = l.
Proof. rewrite map_map. apply map_id. Qed.

Lemma target_port_ok `{Parsers} w p :
  workload_ok w -> wire_workload w -> entry_port_ok p -> wire_port p -> 1 <= target_port w p <= 65535.
Proof.
  intros Hw Hu (_ & [Hn Hn'] & Ht & _) [Hu1 Hu2]. unfold target_port. set (o := default 0 _).
  assert (Ho : 0 <= o <= 65535).
  { unfold o. destruct (nmap_get _ !! ep_Name p) as [q|] eqn:E; simpl; [|lia].
    specialize (Hu _ q E). destruct (wo_ports _ Hw _ q E) as [_ [_ Hq]]. lia. }
  destruct (Z.eqb_spec o 0); [destruct (Z.eqb_spec (ep_TargetPort p) 0)|destruct (Z.eqb_spec o 0)]; lia.
Qed.

(** The workloads of an entry are its own endpoints or resources of their own. *)
Lemma selected_from namespace entry configs n :
  n ∈ selectWorkloads namespace entry configs ->
  nw_workload n ∈ se_Endpoints entry \/
  (se_WorkloadSelector entry <> None /\
   exists cfg, cfg ∈ configs /\ cfg_Spec cfg = Some (CWorkloadEntry (nw_workload n))).
Proof.
  unfold selectWorkloads. destruct (se_WorkloadSelector entry) as [wanted|].
  - rewrite elem_of_sort. intros (cfg & Hin & Hc)%list_elem_of_omap. right. split; [done|].
    destruct (negb _); [done|]. destruct (cfg_Spec cfg) as [[]|] eqn:Es; try done.
    destruct (labels.Match _ _); [|done]. injection Hc as <-. eauto.
  - intros (i & Hi)%list_elem_of_lookup. rewrite list_lookup_imap in Hi. left.
    destruct (se_Endpoints entry !! i) as [w|] eqn:E; [|done]. injection Hi as <-. by eapply list_elem_of_lookup_2.
Qed.

Section routable.
Context `{RangeOrder} `{Parsers} `{Libraries}.

Lemma entry_workloads_ok e namespace configs :
  entry_ok e ->
  Forall (fun w => wire_workload (default nil_workload w)) (ws_Endpoints e) ->
  Forall (fun c => forall w, cfg_Spec c = Some (CWorkloadEntry w) -> workload_ok w /\ wire_workload w) configs ->
  Forall (fun n => workload_ok (nw_workload n) /\ wire_workload (nw_workload n))
    (selectWorkloads namespace (read_entry e) configs).
Proof.
  intros He Hu Hc. apply Forall_forall. intros n Hn. destruct (selected_from _ _ _ _ Hn) as [Hin|(_ & cfg & Hin & Hs)].
  - destruct (eo_endpoints _ He) as (ws & E & Hws). unfold read_entry in Hin. simpl in Hin. rewrite E, default_some in Hin.
    rewrite E, Forall_map in Hu. rewrite Forall_forall in Hws, Hu. split; [by apply Hws|by apply (Hu (nw_workload n))].
  - rewrite Forall_forall in Hc. by apply (Hc cfg Hin).
Qed.

(** The workloads an accepted entry makes endpoints of, its own host name
    included. *)
Lemma endpoint_sources_ok e (ecfg : EntryConfig) h workloads ps :
  entry_ok e -> h ∈ ws_Hosts e -> Forall entry_port_ok ps -> Forall wire_port ps ->
  Forall (fun n => workload_ok (nw_workload n) /\ wire_workload (nw_workload n)) workloads ->
  Forall (fun n => host_ok (we_Address (nw_workload n)) /\
      (workloads <> [] -> str_contains (we_Address (nw_workload n)) "*" = false) /\
      (forall p, p ∈ ps -> 1 <= target_port (nw_workload n) p <= 65535))
    (if (length workloads =? 0)%nat && (bool_decide (se_Resolution (read_entry e) = SE_DNS)
        || bool_decide (se_Resolution (read_entry e) = SE_DNS_ROUND_ROBIN))
     then [mkNamed (cfg_Name ecfg) (mkWorkloadEntry h None None "" "" 0 "") Healthy] else workloads).
Proof.
  intros He Hh Hps Hup Hws. rewrite Forall_forall in Hps, Hup. destruct (_ && _) eqn:E.
  - apply andb_true_iff in E as [E _]. apply Nat.eqb_eq, nil_length_inv in E. apply Forall_singleton. split_and!.
    + destruct (eo_hosts _ He) as [_ Hhs]. rewrite Forall_forall in Hhs. by apply Hhs.
    + done.
    + intros p Hp. unfold target_port. simpl. rewrite lookup_empty. simpl.
      destruct (Hps p Hp) as (_ & [Hn Hn'] & Ht & _), (Hup p Hp). destruct (Z.eqb_spec (ep_TargetPort p) 0); lia.
  - eapply Forall_impl; [exact Hws|]. intros n [Hw Hu]. destruct (wo_address _ Hw). split_and!; try done.
    intros p Hp. apply target_port_ok; auto.
Qed.

(** C24 An accepted ServiceEntry converts into services and endpoints that can
    be used: each host gives a service with named ports of distinct names and
    numbers from 1 to 65535, whose protocols are known, and every endpoint has
    one address, not empty, and a port from 1 to 65535, when the workloads it
    selects were accepted too; unless the entry has no workload, the address is
    an IP or a DNS name without a wildcard. *)
Theorem accepted_entry_routable cfg e (ecfg : EntryConfig) h configs :
  ValidateServiceEntry cfg = [] -> cfg_Spec cfg = Some (ApiServiceEntry e) -> h ∈ ws_Hosts e ->
  Forall (fun p => wire_port (default nil_port p)) (ws_Ports e) ->
  Forall (fun w => wire_workload (default nil_workload w)) (ws_Endpoints e) ->
  Forall (fun c => forall w, cfg_Spec c = Some (CWorkloadEntry w) -> workload_ok w /\ wire_workload w) configs ->
  let svc := convertService ecfg (read_entry e) h in
  let workloads := selectWorkloads (cfg_Namespace ecfg) (read_entry e) configs in
  (exists ps, Service.Ports svc = map Some ps /\ ps <> [] /\ NoDup (map Port.Name ps) /\ NoDup (map Port.Number ps) /\
     Forall (fun p => Port.Name p <> "" /\ 1 <= Port.Number p <= 65535 /\ Port.Protocol p <> protocol.Unsupported) ps) /\
  Forall (fun ep => 1 <= Endpoint.EndpointPort ep <= 65535 /\
    exists a, Endpoint.Addresses ep = [a] /\ host_ok a /\ (workloads <> [] -> str_contains a "*" = false))
    (buildEndpoints ecfg (read_entry e) svc workloads).
Proof.
  intros Hv Es Hh Hup Huw Hc. apply ValidateServiceEntry_nil in Hv as (e' & E & He & _). rewrite Es in E. injection E as <-.
  cbv zeta. destruct (eo_ports _ He) as (ps & Ep & Hne & Hps & Hd1 & Hd2). rewrite Ep, Forall_map in Hup. simpl in Hup.
  assert (Eps : se_Ports (read_entry e) = ps) by (unfold read_entry; simpl; by rewrite Ep, default_some).
  split.
  - unfold convertService. destruct (se_Addresses _); simpl; rewrite Ep, default_some;
      (exists (map (fun p => Port.mk (ep_Name p) (ep_Number p) (protocol.Parse (ep_Protocol p))) ps);
       rewrite !map_map; split_and!; try done; [by destruct ps|];
       apply Forall_map; rewrite Forall_forall in *; intros p Hp; destruct (Hps p Hp) as (Hp1 & [Hp2 Hp3] & _ & Hp4);
       destruct (Hup p Hp); split_and!; try done; simpl; lia).
  - pose proof (entry_workloads_ok e (cfg_Namespace ecfg) configs He Huw Hc) as Hws.
    set (workloads := selectWorkloads _ _ _) in *.
    assert (Hhost : Service.Hostname (convertService ecfg (read_entry e) h) = h)
      by (unfold convertService; by destruct (se_Addresses _)).
    unfold buildEndpoints. rewrite Hhost, Eps. apply Forall_concat, Forall_map. eapply Forall_impl; [by eapply (endpoint_sources_ok e ecfg h workloads ps)|].
    intros n (Ha & Hs & Ht). apply Forall_map, Forall_forall. intros p Hp. simpl. split; [by apply Ht|].
    eauto.
Qed.
End routable.

(** *** Witnesses *)

Definition sample_parsers : Parsers := {|
  IsDNS1123Subdomain s := if str_contains s "*" || String.eqb s "" then ["invalid"] else [];
  validation_IsDNS1123Label s := if str_contains s "." then ["invalid"] else [];
  ParseIP s := existsb (String.eqb s) ["10.0.0.1"; "10.0.0.2"];
  ParseCIDR _ := false;
  url_Parse _ := Some ("https", "example.com")
|}.

Definition sample_wire (hosts : list string) (r : SE_Resolution) (endpoints : list (option WorkloadEntry)) : WireServiceEntry :=
  mkWireEntry hosts [] [Some (mkEntryPort "grpc" 80 "GRPC" 0); Some (mkEntryPort "http" 8080 "HTTP" 9090)] MESH_EXTERNAL r
    endpoints None ["."] [].
Definition sample_spec (kind name ns : string) (s : ApiSpec) : Config ApiSpec :=
  mkConfig (Meta.mk (mkGVK "networking.dubbo.apache.org" "v1alpha3" kind) "" name ns "" None None "" 0 [] 0) (Some s) None None.

Definition sample_external : WireServiceEntry :=
  sample_wire ["api.example.com"] SE_STATIC [Some (mkWorkloadEntry "10.0.0.1" (Some {["grpc" := 8000]}) None "" "" 0 "")].

Lemma accepted_entry_routable_witness :
  let svc := convertService (entry_config "ext" "app" 0 (read_entry sample_external)) (read_entry sample_external) "api.example.com" in
  Forall (fun ep => 1 <= Endpoint.EndpointPort ep <= 65535)
    (buildEndpoints (entry_config "ext" "app" 0 (read_entry sample_external)) (read_entry sample_external) svc
       (selectWorkloads "app" (read_entry sample_external) [])).
Proof.
  destruct (@accepted_entry_routable key_order sample_parsers
    (sample_spec "ServiceEntry" "ext" "app" (ApiServiceEntry sample_external)) sample_external
    (entry_config "ext" "app" 0 (read_entry sample_external)) "api.example.com" []) as [_ Hf].
  - by vm_compute.
  - done.
  - by left.
  - repeat constructor; simpl; lia.
  - repeat constructor. intros n p. simpl. intros [<- <-]%lookup_singleton_Some. lia.
  - constructor.
  - eapply Forall_impl; [exact Hf|]. by intros ep [Hp _].
Defined.

(** An entry with a wildcard host, resolved by DNS and without endpoints is
    accepted, and its only endpoint has the wildcard for an address. *)
Example wildcard_dns_entry_accepted :
  let e := sample_wire ["*.example.com"] SE_DNS [] in
  @ValidateServiceEntry key_order sample_parsers (sample_spec "ServiceEntry" "ext" "app" (ApiServiceEntry e)) = [] /\
  map Endpoint.Addresses
    (buildEndpoints (entry_config "ext" "app" 0 (read_entry e)) (read_entry e)
       (convertService (entry_config "ext" "app" 0 (read_entry e)) (read_entry e) "*.example.com")
       (selectWorkloads "app" (read_entry e) [])) = [["*.example.com"]; ["*.example.com"]].
Proof. split; by vm_compute. Qed.

(** An accepted fault injection policy is applied as it is written: all its
    targets are indexed, its delay is at least a millisecond and its status an
    error, both with a percentage of at most 100, which is 100 when left out. *)
Theorem accepted_fault_applied `{RangeOrder} `{Parsers} `{Libraries} cfg f (mcfg : Authentication.Config) :
  ValidateFaultInjectionPolicy cfg = [] -> cfg_Spec cfg = Some (ApiFaultInjectionPolicy f) ->
  Config.Spec mcfg = SpecFault (Some f) ->
  fault_entries mcfg = map (fun t => (faultInjectionServiceKey (Config.Namespace mcfg) (fst (target_name t)) (snd (target_name t)),
    fault_settings f)) (fi_TargetRefs f) /\
  (forall d, fi_Delay f = Some d -> exists t, fd_FixedDelay d = Some t /\ fs_Delay (fault_settings f) = AsDuration t /\
     Millisecond <= AsDuration t /\ fs_DelayPercentage (fault_settings f) = default 100 (fd_Percentage d) /\
     default 100 (fd_Percentage d) <= 100) /\
  (forall a, fi_Abort f = Some a -> fs_AbortStatus (fault_settings f) = fa_HttpStatus a /\ 400 <= fa_HttpStatus a <= 599 /\
     fs_AbortPercentage (fault_settings f) = default 100 (fa_Percentage a) /\ default 100 (fa_Percentage a) <= 100).
Proof.
  intros (f' & E & [[_ Ht] Hsome Hd Ha] & _)%ValidateFaultInjectionPolicy_nil Es Em. rewrite Es in E. injection E as <-.
  assert (Hdelay : forall d, fi_Delay f = Some d -> exists t, fd_FixedDelay d = Some t /\ fs_Delay (fault_settings f) = AsDuration t /\
     Millisecond <= AsDuration t /\ fs_DelayPercentage (fault_settings f) = default 100 (fd_Percentage d) /\
     default 100 (fd_Percentage d) <= 100).
  { intros d Ed. destruct (Hd d Ed) as (Hp & t & Et & Hc & Hm). exists t. unfold fault_settings, fault_delay.
    rewrite Ed, Et, Hc. destruct (Z.ltb_spec 0 (AsDuration t)); [|unfold Millisecond in Hm; lia].
    simpl. unfold faultPercentage. split_and!; try done. destruct (fd_Percentage d); simpl in *; lia. }
  assert (Habort : forall a, fi_Abort f = Some a -> fs_AbortStatus (fault_settings f) = fa_HttpStatus a /\ 400 <= fa_HttpStatus a <= 599 /\
     fs_AbortPercentage (fault_settings f) = default 100 (fa_Percentage a) /\ default 100 (fa_Percentage a) <= 100).
  { intros a Ea. destruct (Ha a Ea) as [Hp Hs]. unfold fault_settings, fault_abort. rewrite Ea.
    destruct (Z.leb_spec 400 (fa_HttpStatus a)); [|lia]. destruct (Z.leb_spec (fa_HttpStatus a) 599); [|lia].
    simpl. unfold faultPercentage. split_and!; try done; try lia. destruct (fa_Percentage a); simpl in *; lia. }
  split; [|done]. unfold fault_entries. rewrite Em.
  assert ((fs_Delay (fault_settings f) =? 0) && (fs_AbortStatus (fault_settings f) =? 0) = false) as ->.
  { apply andb_false_iff. destruct (fi_Delay f) as [d|] eqn:Ed.
    - left. destruct (Hdelay d eq_refl) as (t & _ & -> & Hm & _). apply Z.eqb_neq. unfold Millisecond in Hm. lia.
    - right. destruct (fi_Abort f) as [a|] eqn:Ea; [|by destruct Hsome]. destruct (Habort a eq_refl) as (-> & ? & _).
      apply Z.eqb_neq. lia. }
  f_equal. clear -Ht. induction Ht as [|t l Ht _ IH]; simpl; [done|]. by rewrite Ht, IH.
Qed.

Definition sample_policy_spec : FaultInjectionPolicy :=
  mkFaultInjection [Some (mkFaultTarget "" "Service" "shop" "")] None (Some (mkFaultAbortSpec 503 None)).

Lemma accepted_fault_applied_witness :
  fs_AbortPercentage (@fault_settings sample_libraries sample_policy_spec) = 100.
Proof.
  destruct (@accepted_fault_applied key_order sample_parsers sample_libraries
    (sample_spec "FaultInjectionPolicy" "f" "app" (ApiFaultInjectionPolicy sample_policy_spec)) sample_policy_spec
    (Config.mk "" "f" "app" "" 0 "" "" (SpecFault (Some sample_policy_spec)))) as (_ & _ & Ha); [by vm_compute|done|done|].
  by destruct (Ha _ eq_refl) as (_ & _ & -> & _).
Defined.
