(* ===== verification/Admission.v ===== *)
(** * Admission of configurations

    [pkg/webhooks/server/server.go]: the webhook that the API server asks before
    it writes a resource; [pkg/config/schema/collections/collections.gen.go]: the
    schemas it knows, each with its validator;
    [dubbod/discovery/pkg/config/kube/crd/conversion.go]: the conversion of an object;
    [pkg/kube/adapter.go]: the versions of a review.  The decoders of JSON and of
    protobuf are parameters. *)

From S2P Require Import Prelude GoStrings GoSets GoSort Hosts GoNet ApiTypes PolicyIndex ConfigModel ConfigStore LabelSyntax Telemetry Validation.

Section collections.
Context `{RangeOrder} `{Parsers} `{Libraries}.
(** How errors print, and the registry of protobuf types. *)
Context (Error : errors -> string) (known_proto : string -> bool).

(** A validator as schemas hold it; warnings are never set. *)
Definition as_validator (f : Config ApiSpec -> errors) : Config ApiSpec -> option gerror :=
  fun cfg => match f cfg with [] => None | e => Some (mk_error Unknown (Error e)) end.

Definition dubbo_builder (group kind plural package : string) (validate : Config ApiSpec -> errors) : Builder ApiSpec :=
  mkBuilder false false kind kind plural (group +:+ ".dubbo.apache.org") "v1alpha3" []
    ("dubbo." +:+ group +:+ ".v1alpha3." +:+ kind) true package (Some (as_validator validate)).

Definition security_package : string := "github.com/dubml/api/security/v1alpha3".
Definition networking_package : string := "github.com/dubml/api/networking/v1alpha3".
Definition telemetry_package : string := "github.com/dubml/api/telemetry/v1alpha3".

Definition AuthorizationPolicy_builder : Builder ApiSpec :=
  dubbo_builder "security" "AuthorizationPolicy" "authorizationpolicies" security_package EmptyValidate.
Definition CircuitBreakerPolicy_builder : Builder ApiSpec :=
  dubbo_builder "networking" "CircuitBreakerPolicy" "circuitbreakerpolicies" networking_package EmptyValidate.
Definition FaultInjectionPolicy_builder : Builder ApiSpec :=
  dubbo_builder "networking" "FaultInjectionPolicy" "faultinjectionpolicies" networking_package ValidateFaultInjectionPolicy.
Definition PeerAuthentication_builder : Builder ApiSpec :=
  dubbo_builder "security" "PeerAuthentication" "peerauthentications" security_package EmptyValidate.
Definition RequestAuthentication_builder : Builder ApiSpec :=
  dubbo_builder "security" "RequestAuthentication" "requestauthentications" security_package EmptyValidate.
Definition ServiceEntry_builder : Builder ApiSpec :=
  dubbo_builder "networking" "ServiceEntry" "serviceentries" networking_package ValidateServiceEntry.
Definition Telemetry_builder : Builder ApiSpec :=
  dubbo_builder "telemetry" "Telemetry" "telemetries" telemetry_package ValidateTelemetry.
Definition WorkloadEntry_builder : Builder ApiSpec :=
  dubbo_builder "networking" "WorkloadEntry" "workloadentries" networking_package ValidateWorkloadEntry.

(** [collections.Dubbo]: the schemas the webhook is given. *)
Definition Dubbo_builders : list (Builder ApiSpec) :=
  [AuthorizationPolicy_builder; CircuitBreakerPolicy_builder; FaultInjectionPolicy_builder; PeerAuthentication_builder;
   RequestAuthentication_builder; ServiceEntry_builder; Telemetry_builder; WorkloadEntry_builder].

(** [MustBuild] and [MustAdd] panic when they fail. *)
Fixpoint must_build_all (l : list (Builder ApiSpec)) : res (list (Schema ApiSpec)) :=
  match l with
  | [] => Ok []
  | b :: l =>
      match Builder_Build known_proto b with
      | Ok s => rest ← must_build_all l; Ok (s :: rest)
      | Err e => Panic ("MustBuild: " +:+ err_msg e)
      | Panic w => Panic w
      end
  end.
Definition Dubbo : res (Schemas ApiSpec) :=
  l ← must_build_all Dubbo_builders; must_add_all NewSchemasBuilder l.

End collections.

Definition Telemetry_gvk : GroupVersionKind := mkGVK "telemetry.dubbo.apache.org" "v1alpha3" "Telemetry".

(** ** The webhook *)

Definition Create : string := "CREATE".
Definition Update : string := "UPDATE".

(** An object as it comes in a request, read up to its spec and status. *)
Record DubboKind (J : Type) : Type := mkDubboKind {
  dk_GVK : GroupVersionKind;
  dk_Name : string;
  dk_Namespace : string;
  dk_Labels : nmap string string;
  dk_Annotations : nmap string string;
  dk_ResourceVersion : string;
  dk_CreationTimestamp : Time;
  dk_Spec : J;
  dk_Status : option J
}.
Arguments dk_GVK {_} _.
Arguments dk_Name {_} _.
Arguments dk_Namespace {_} _.
Arguments dk_Labels {_} _.
Arguments dk_Annotations {_} _.
Arguments dk_ResourceVersion {_} _.
Arguments dk_CreationTimestamp {_} _.
Arguments dk_Spec {_} _.
Arguments dk_Status {_} _.

(** The structures of the API hold what the code copies and never reads as it
    comes. *)
Record AdmissionRequest (Raw : Type) : Type := mkAdmissionRequest {
  rq_UID : string; rq_Kind : string; rq_Resource : string; rq_SubResource : string; rq_RequestSubResource : string;
  rq_RequestKind : option string; rq_RequestResource : option string; rq_UserInfo : string; rq_Name : string;
  rq_Namespace : string; rq_Operation : string; rq_Object : Raw; rq_OldObject : option Raw; rq_DryRun : option bool;
  rq_Options : option Raw }.
Arguments rq_UID {_} _.
Arguments rq_Kind {_} _.
Arguments rq_Resource {_} _.
Arguments rq_SubResource {_} _.
Arguments rq_RequestSubResource {_} _.
Arguments rq_RequestKind {_} _.
Arguments rq_RequestResource {_} _.
Arguments rq_UserInfo {_} _.
Arguments rq_Name {_} _.
Arguments rq_Namespace {_} _.
Arguments rq_Operation {_} _.
Arguments rq_Object {_} _.
Arguments rq_OldObject {_} _.
Arguments rq_DryRun {_} _.
Arguments rq_Options {_} _.

Record AdmissionResponse : Type := mkAdmissionResponse {
  rp_UID : string; rp_Allowed : bool; rp_Result : option ferror; rp_Patch : string; rp_PatchType : option string;
  rp_AuditAnnotations : nmap string string; rp_Warnings : list string }.

Definition toAdmissionResponse (err : ferror) : AdmissionResponse := mkAdmissionResponse "" false (Some err) "" None None [].
Definition allowed : AdmissionResponse := mkAdmissionResponse "" true None "" None None [].

Record Webhook : Type := mkWebhook {
  wh_schemas : Schemas ApiSpec;
  wh_store : option (GroupVersionKind -> string -> list (Config ApiSpec));
  wh_domainSuffix : string
}.

(** The top-level fields an object may have. *)
Definition validFields : list string := ["apiVersion"; "kind"; "metadata"; "spec"; "status"].

(** What the decoders give: the object, the names of its fields, the spec and
    the status of a schema. [None] is an error. *)
Class Decoders (Raw J : Type) : Type := {
  unmarshal_kind : Raw -> option (DubboKind J);
  unmarshal_fields : Raw -> option (list string);
  FromJSON : Schema ApiSpec -> J -> option ApiSpec;
  StatusJSONFromMap : Schema ApiSpec -> option J -> option ApiSpec
}.

Section webhook.
Context {Raw J : Type} `{Decoders Raw J}.

(** A status that cannot be read is logged and left out. *)
Definition ConvertObject (s : Schema ApiSpec) (object : DubboKind J) (domain : string) : option (Config ApiSpec) :=
  match FromJSON s (dk_Spec object) with
  | None => None
  | Some spec =>
      Some (mkConfig
        (Meta.mk (sc_gvk s) "" (dk_Name object) (dk_Namespace object) domain (dk_Labels object) (dk_Annotations object)
           (dk_ResourceVersion object) (dk_CreationTimestamp object) [] 0)
        (Some spec) (StatusJSONFromMap s (dk_Status object)) None)
  end.

(** The error of a second Telemetry without a selector in the system namespace,
    next to the one that exists. *)
Definition mesh_level (cfg : Config ApiSpec) : bool :=
  match cfg_Spec cfg with Some (ApiTelemetry t) => bool_decide (te_Selector t = None) | _ => false end.

Definition validateMeshlevelUniqueness (wh : Webhook) (out : Config ApiSpec) : option ferror :=
  match wh_store wh with
  | None => None
  | Some store =>
      if negb (bool_decide (cfg_GVK out = Telemetry_gvk)) || negb (String.eqb (cfg_Namespace out) DubboSystemNamespace) then None
      else if negb (mesh_level out) then None
      else match List.find (fun existing => negb (String.eqb (cfg_Name existing) (cfg_Name out)) && mesh_level existing)
                   (store Telemetry_gvk DubboSystemNamespace) with
           | Some existing =>
               Some (Errorf "only one meshlevel Telemetry is allowed in namespace %q; %q already exists"
                 [FStr DubboSystemNamespace; FStr (cfg_Name existing)])
           | None => None
           end
  end.

(** The first unknown field, if any; a different order of the map names another
    one. *)
Definition checkFields (raw : Raw) (kind namespace name : string) : option ferror :=
  match unmarshal_fields raw with
  | None => Some (Errorf "cannot decode configuration fields: %v" [])
  | Some keys =>
      match List.find (fun key => negb (existsb (String.eqb key) validFields)) keys with
      | Some key => Some (Errorf "unknown field %q on %s resource %s/%s" [FStr key; FStr kind; FStr namespace; FStr name])
      | None => None
      end
  end.

Definition validate (wh : Webhook) (request : AdmissionRequest Raw) : AdmissionResponse :=
  if negb (String.eqb (rq_Operation request) Create) && negb (String.eqb (rq_Operation request) Update) then allowed else
  match unmarshal_kind (rq_Object request) with
  | None => toAdmissionResponse (Errorf "cannot decode configuration: %v" [])
  | Some obj =>
      match FindByGroupKind (wh_schemas wh) (dk_GVK obj) with
      | None => toAdmissionResponse (Errorf "unrecognized type %v" [FStr (GVK_String (dk_GVK obj))])
      | Some s =>
          match ConvertObject s obj (wh_domainSuffix wh) with
          | None => toAdmissionResponse (Errorf "error decoding configuration: %v" [])
          | Some out =>
              match sc_validateConfig s out with
              | Some err => toAdmissionResponse (Errorf "configuration is invalid: %v" [FStr (err_msg err)])
              | None =>
                  match validateMeshlevelUniqueness wh out with
                  | Some e => toAdmissionResponse (Errorf "configuration is invalid: %v" [FErr [e]])
                  | None =>
                      match checkFields (rq_Object request) (rq_Kind request) (rq_Namespace request) (dk_Name obj) with
                      | Some e => toAdmissionResponse e
                      | None => allowed
                      end
                  end
              end
          end
      end
  end.

(** *** Reviews *)

Definition admissionAPIV1 : string := "admission.k8s.io/v1".
Definition admissionAPIV1beta1 : string := "admission.k8s.io/v1beta1".

Record AdmissionReview : Type := mkAdmissionReview {
  rv_APIVersion : string; rv_Request : option (AdmissionRequest Raw); rv_Response : option AdmissionResponse }.

(** A decoded object: a review of one of the two versions, or something else. *)
Inductive KubeObject : Type :=
  | KubeV1beta1 (r : AdmissionReview)
  | KubeV1 (r : AdmissionReview)
  | KubeUnsupported.

(** Both versions have the same fields; the request and the response are copied
    field by field, and some are left out. *)
Definition adapt_request (r : AdmissionRequest Raw) : AdmissionRequest Raw :=
  mkAdmissionRequest Raw (rq_UID r) (rq_Kind r) (rq_Resource r) "" "" None None (rq_UserInfo r) (rq_Name r) (rq_Namespace r)
    (rq_Operation r) (rq_Object r) (rq_OldObject r) (rq_DryRun r) None.
Definition adapt_response (r : AdmissionResponse) : AdmissionResponse :=
  mkAdmissionResponse (rp_UID r) (rp_Allowed r) (rp_Result r) (rp_Patch r) (rp_PatchType r) None (rp_Warnings r).

Definition AdmissionReviewKubeToAdapter (object : KubeObject) : option AdmissionReview :=
  match object with
  | KubeV1beta1 r | KubeV1 r =>
      Some (mkAdmissionReview (rv_APIVersion r) (option_map adapt_request (rv_Request r))
        (option_map adapt_response (rv_Response r)))
  | KubeUnsupported => None
  end.

(** Nothing for another version. *)
Definition AdmissionReviewAdapterToKube (ar : AdmissionReview) (apiVersion : string) : option KubeObject :=
  let apiVersion := if String.eqb apiVersion "" then admissionAPIV1beta1 else apiVersion in
  if String.eqb apiVersion admissionAPIV1beta1 then Some (KubeV1beta1 ar)
  else if String.eqb apiVersion admissionAPIV1 then Some (KubeV1 ar)
  else None.

Definition with_UID (uid : string) (r : AdmissionResponse) : AdmissionResponse :=
  mkAdmissionResponse uid (rp_Allowed r) (rp_Result r) (rp_Patch r) (rp_PatchType r) (rp_AuditAnnotations r) (rp_Warnings r).

Inductive http_reply : Type :=
  | HttpError (code : Z) (message : string)
  | HttpOK (review : option KubeObject).

(** [body] is what the reader gives, [contentType] the header, [decoded] what the
    body decodes to.  A review without a request reaches [validate] as nil, which
    reads through it. *)
Definition serve (wh : Webhook) (body : option (string + nat)) (contentType : string) (decoded : option KubeObject)
  : res http_reply :=
  match body with
  | Some (inl e) => Ok (HttpError 400 e)
  | None | Some (inr O) => Ok (HttpError 400 "no body found")
  | Some (inr _) =>
      if negb (String.eqb contentType "application/json")
      then Ok (HttpError 415 "invalid Content-Type, want `application/json`")
      else
        match decoded with
        | None =>
            Ok (HttpOK (AdmissionReviewAdapterToKube
              (mkAdmissionReview "" None (Some (toAdmissionResponse (Errorf "could not decode body: %v" [])))) ""))
        | Some object =>
            match AdmissionReviewKubeToAdapter object with
            | None =>
                Ok (HttpOK (AdmissionReviewAdapterToKube
                  (mkAdmissionReview "" None (Some (toAdmissionResponse (Errorf "could not decode object: %v" [])))) ""))
            | Some ar =>
                match rv_Request ar with
                | None => Panic "invalid memory address or nil pointer dereference"
                | Some request =>
                    let r := validate wh request in
                    Ok (HttpOK (AdmissionReviewAdapterToKube
                      (mkAdmissionReview (rv_APIVersion ar) None
                         (Some (with_UID (rq_UID request) r)))
                      (rv_APIVersion ar)))
                end
            end
        end
  end.

End webhook.

(** ** Lemmas *)

Section wiring.
Context `{RangeOrder} `{Parsers} `{Libraries} (Error : errors -> string) (known_proto : string -> bool).

(** The schemas of the webhook build; nothing panics. *)
Lemma Dubbo_builds :
  exists ds, Dubbo Error known_proto = Ok ds /\ byAddOrder ds = map BuildNoValidate (Dubbo_builders Error).
Proof.
  assert (Hb : forall l, Forall (fun b => Schema_Validate known_proto (BuildNoValidate b) = []) l ->
    must_build_all known_proto l = Ok (map BuildNoValidate l)).
  { induction 1 as [|b l Hv _ IH]; [done|]. cbn [must_build_all]. unfold Builder_Build. rewrite Hv. simpl. by rewrite IH. }
  unfold Dubbo. rewrite Hb by (repeat constructor). cbn [mbind res_bind].
  destruct (must_add_all_new (map BuildNoValidate (Dubbo_builders Error))) as (ds & -> & _ & Ea); [|eauto].
  apply (bool_decide_unpack _). by vm_compute.
Qed.

Lemma as_validator_None f cfg : as_validator Error f cfg = None <-> f cfg = [].
Proof. unfold as_validator. by destruct (f cfg). Qed.

(** The schemas that have the kind of Telemetry. *)
Lemma telemetry_schema ds s :
  Dubbo Error known_proto = Ok ds -> s ∈ byAddOrder ds -> sc_gvk s = Telemetry_gvk ->
  sc_validateConfig s = as_validator Error ValidateTelemetry.
Proof.
  destruct Dubbo_builds as (ds' & E & Ea). intros E' Hs Hk. rewrite E in E'. injection E' as <-. rewrite Ea in Hs.
  apply list_elem_of_fmap in Hs as (b & -> & Hb).
  repeat (apply elem_of_cons in Hb as [->|Hb]; [try (by vm_compute in Hk); done|]). by apply not_elem_of_nil in Hb.
Qed.

(** Validators that nothing calls: the schemas of authorization, peer and request
    authentication and of circuit breakers accept every configuration, whatever
    their validators say. *)
Theorem unchecked_security_policies ds kind cfg :
  Dubbo Error known_proto = Ok ds ->
  kind ∈ [mkGVK "security.dubbo.apache.org" "v1alpha3" "AuthorizationPolicy";
          mkGVK "security.dubbo.apache.org" "v1alpha3" "PeerAuthentication";
          mkGVK "security.dubbo.apache.org" "v1alpha3" "RequestAuthentication";
          mkGVK "networking.dubbo.apache.org" "v1alpha3" "CircuitBreakerPolicy"] ->
  exists s, FindByGroupKind ds kind = Some s /\ sc_gvk s = kind /\ sc_validateConfig s cfg = None.
Proof.
  destruct Dubbo_builds as (ds' & E & Ea). intros E' Hk. rewrite E in E'. injection E' as <-.
  unfold FindByGroupKind. rewrite Ea.
  repeat (apply elem_of_cons in Hk as [->|Hk]; [eexists; split; [reflexivity|split; reflexivity]|]).
  by apply not_elem_of_nil in Hk.
Qed.

(** For instance a denying policy without rules, which denies nothing. *)
Example empty_deny_is_admitted ds meta :
  Dubbo Error known_proto = Ok ds ->
  let cfg := mkConfig meta (Some (ApiAuthorizationPolicy (mkAuthorizationPolicy None DENY []))) None None in
  ValidateAuthorizationPolicy cfg <> [] /\
  exists s, FindByGroupKind ds (mkGVK "security.dubbo.apache.org" "v1alpha3" "AuthorizationPolicy") = Some s /\
    sc_validateConfig s cfg = None.
Proof.
  intros E. split; [done|].
  destruct (unchecked_security_policies ds (mkGVK "security.dubbo.apache.org" "v1alpha3" "AuthorizationPolicy")
    (mkConfig meta (Some (ApiAuthorizationPolicy (mkAuthorizationPolicy None DENY []))) None None) E) as (s & Hs & _ & Hv);
    [by left|eauto].
Qed.

Lemma ValidateTelemetry_system cfg :
  ValidateTelemetry cfg = [] -> cfg_Namespace cfg = DubboSystemNamespace -> mesh_level cfg = true.
Proof.
  unfold ValidateTelemetry, mesh_level. rewrite validateFunc_nil. intros [Hv _] Hn.
  destruct (cfg_Spec cfg) as [[| | | | | | |t|]|]; try done. rewrite Hn in Hv.
  apply app_nil in Hv as [_ Hv]. apply app_nil in Hv as [Hv _]. apply when_nil in Hv.
  rewrite String.eqb_refl in Hv. simpl in Hv. apply bool_decide_eq_false in Hv. apply bool_decide_eq_true.
  by apply eq_None_not_Some.
Qed.

End wiring.

(** ** A cluster behind the webhook

    The API server asks the webhook about a resource and writes it later, if the webhook
    allowed it and nothing else refuses it; deletions are not asked about.  The webhook
    lists what its informers have seen, which follows the cluster. *)
Section cluster.
Context `{RangeOrder} `{Parsers} `{Libraries} (Error : errors -> string) (known_proto : string -> bool).
Context {Raw J : Type} `{Decoders Raw J}.
Context (ds : Schemas ApiSpec) (domain : string).
Hypothesis schemas_are_Dubbo : Dubbo Error known_proto = Ok ds.

Notation cluster := (gmap config_key (Config ApiSpec)).
Definition fresh (st : cluster) (store : GroupVersionKind -> string -> list (Config ApiSpec)) : Prop :=
  forall k ns cfg, cfg ∈ store k ns <-> exists name, st !! (k, ns, name) = Some cfg.

(** [waiting]: what was allowed and is not written yet, with what the webhook saw of the
    cluster then; [reviews]: what it saw when it allowed what is written.
    [one_at_a_time]: so far every review saw the cluster as it was, with no
    write outstanding. *)
Record api_state : Type := mkApi {
  cl : cluster; view : cluster; waiting : list (Config ApiSpec * cluster); reviews : gmap config_key cluster; one_at_a_time : Prop
}.
Definition api_start : api_state := mkApi ∅ ∅ [] ∅ True.

Inductive api_step : api_state -> api_state -> Prop :=
  | api_review st store req obj s out :
      fresh (view st) store -> rq_Operation req = Create \/ rq_Operation req = Update ->
      unmarshal_kind (rq_Object req) = Some obj -> FindByGroupKind ds (dk_GVK obj) = Some s ->
      ConvertObject s obj domain = Some out ->
      rp_Allowed (validate (mkWebhook ds (Some store) domain) req) = true ->
      api_step st (mkApi (cl st) (view st) (waiting st ++ [(out, view st)]) (reviews st)
                     (one_at_a_time st /\ waiting st = [] /\ view st = cl st))
  | api_write st i out v : waiting st !! i = Some (out, v) ->
      api_step st (mkApi (<[key_of out := out]> (cl st)) (view st) (delete i (waiting st)) (<[key_of out := v]> (reviews st)) (one_at_a_time st))
  | api_refuse st i : api_step st (mkApi (cl st) (view st) (delete i (waiting st)) (reviews st) (one_at_a_time st))
  | api_delete st key : api_step st (mkApi (delete key (cl st)) (view st) (waiting st) (reviews st) (one_at_a_time st))
  | api_seen st : api_step st (mkApi (cl st) (cl st) (waiting st) (reviews st) (one_at_a_time st)).

(** What the webhook has checked when it allows a write. *)
Lemma allowed_inv store req obj s out :
  rq_Operation req = Create \/ rq_Operation req = Update ->
  unmarshal_kind (rq_Object req) = Some obj -> FindByGroupKind ds (dk_GVK obj) = Some s ->
  ConvertObject s obj domain = Some out ->
  rp_Allowed (validate (mkWebhook ds (Some store) domain) req) = true ->
  sc_validateConfig s out = None /\ validateMeshlevelUniqueness (mkWebhook ds (Some store) domain) out = None.
Proof.
  intros Hop Hk Hs Hc. unfold validate. rewrite Hk. cbn [wh_schemas wh_domainSuffix]. rewrite Hs, Hc.
  assert (negb (String.eqb (rq_Operation req) Create) && negb (String.eqb (rq_Operation req) Update) = false) as ->
    by (by destruct Hop as [-> | ->]).
  destruct (sc_validateConfig s out); [done|]. by destruct (validateMeshlevelUniqueness _ out).
Qed.

Lemma Convert_gvk s obj out : ConvertObject s obj domain = Some out -> cfg_GVK out = sc_gvk s.
Proof. unfold ConvertObject. destruct (FromJSON _ _); [|done]. by intros [= <-]. Qed.

Notation mesh_key name := (Telemetry_gvk, DubboSystemNamespace, name).

(** Resources under their keys, where those of the system namespace select nothing *)
Record mesh_only (m : cluster) : Prop := {
  mo_own key cfg : m !! key = Some cfg -> key_of cfg = key;
  mo_mesh name cfg : m !! mesh_key name = Some cfg -> mesh_level cfg = true
}.

(** What was checked of a resource against what the webhook saw *)
Definition admitted (out : Config ApiSpec) (v : cluster) : Prop :=
  forall name, key_of out = mesh_key name -> mesh_level out = true /\ forall name', is_Some (v !! mesh_key name') -> name' = name.

Record api_ok (st : api_state) : Prop := {
  ao_cl : mesh_only (cl st);
  ao_view : mesh_only (view st);
  ao_waiting out v : (out, v) ∈ waiting st -> admitted out v;
  ao_reviews key cfg : cl st !! key = Some cfg -> exists v, reviews st !! key = Some v /\ admitted cfg v;
  ao_one : one_at_a_time st ->
    (forall name name', is_Some (cl st !! mesh_key name) -> is_Some (cl st !! mesh_key name') -> name = name') /\
    (length (waiting st) <= 1)%nat /\ forall out v, (out, v) ∈ waiting st -> admitted out (cl st)
}.

Lemma unique_among store out existing :
  validateMeshlevelUniqueness (mkWebhook ds (Some store) domain) out = None ->
  cfg_GVK out = Telemetry_gvk -> cfg_Namespace out = DubboSystemNamespace -> mesh_level out = true ->
  existing ∈ store Telemetry_gvk DubboSystemNamespace -> mesh_level existing = true -> cfg_Name existing = cfg_Name out.
Proof.
  unfold validateMeshlevelUniqueness. cbn [wh_store]. intros Hu Hk Hn Hm Hin He. rewrite Hk, Hn, Hm in Hu.
  rewrite bool_decide_true, String.eqb_refl in Hu by done. simpl in Hu.
  destruct (List.find _ _) eqn:E; [done|]. apply list_elem_of_In in Hin. pose proof (List.find_none _ _ E _ Hin) as Hx.
  simpl in Hx. rewrite He, andb_true_r, negb_false_iff in Hx. by apply String.eqb_eq.
Qed.

Lemma mesh_only_insert m out v : mesh_only m -> admitted out v -> mesh_only (<[key_of out := out]> m).
Proof.
  intros [Ho Hm] Ha. split.
  - intros key cfg [[<- <-]|[_ ?]]%lookup_insert_Some; [done|by apply Ho].
  - intros name cfg [[E <-]|[_ ?]]%lookup_insert_Some; [by destruct (Ha name E)|by eapply Hm].
Qed.

Lemma mesh_only_delete m key : mesh_only m -> mesh_only (delete key m).
Proof. intros [Ho Hm]. split; [intros k cfg [_ ?]%lookup_delete_Some; by apply Ho|intros name cfg [_ ?]%lookup_delete_Some; by eapply Hm]. Qed.

(** What the webhook allows was checked against what it lists. *)
Lemma review_admits m store req obj s out :
  mesh_only m -> fresh m store -> rq_Operation req = Create \/ rq_Operation req = Update ->
  unmarshal_kind (rq_Object req) = Some obj -> FindByGroupKind ds (dk_GVK obj) = Some s -> ConvertObject s obj domain = Some out ->
  rp_Allowed (validate (mkWebhook ds (Some store) domain) req) = true -> admitted out m.
Proof.
  intros [Ho Hm] Hf Hop Hk Hs Hc Ha. destruct (allowed_inv store req obj s out Hop Hk Hs Hc Ha) as [Hv Hu].
  intros name E. pose proof E as [= Eg En Enm]. subst name.
  assert (Hmesh : mesh_level out = true).
  { apply (ValidateTelemetry_system out); [|done]. apply (as_validator_None Error).
    rewrite <- (telemetry_schema Error known_proto ds s); [done|done| |by rewrite <- (Convert_gvk s obj out)].
    unfold FindByGroupKind in Hs. apply find_some in Hs as [Hs _]. by apply list_elem_of_In. }
  split; [done|]. intros name' [cfg Hl]. pose proof (Ho _ _ Hl) as [= _ _ <-].
  apply (unique_among store out cfg Hu Eg En Hmesh); [|by eapply Hm]. apply Hf. eauto.
Qed.

Lemma elem_of_list_delete {A} (l : list A) i x : x ∈ delete i l -> x ∈ l.
Proof. intros Hx. eapply elem_of_submseteq; [exact Hx|]. apply sublist_submseteq, sublist_delete. Qed.

Lemma length_list_delete {A} (l : list A) i : (length (delete i l) <= length l)%nat.
Proof. apply sublist_length, sublist_delete. Qed.

Lemma admitted_write_ok st i out v : api_ok st -> waiting st !! i = Some (out, v) ->
  api_ok (mkApi (<[key_of out := out]> (cl st)) (view st) (delete i (waiting st)) (<[key_of out := v]> (reviews st)) (one_at_a_time st)).
Proof.
  intros [K1 K2 K3 K4 K5] Hi. pose proof (list_elem_of_lookup_2 _ _ _ Hi) as Hin. split; cbn [cl view waiting reviews one_at_a_time].
  - by eapply mesh_only_insert; [|apply K3].
  - done.
  - intros out' v' Hin'. eapply K3, elem_of_list_delete, Hin'.
  - intros key cfg [[<- <-]|[Hne Hl]]%lookup_insert_Some; [exists v; by rewrite lookup_insert_eq; auto|].
    rewrite lookup_insert_ne by done. by apply K4.
  - intros Hone. destruct (K5 Hone) as (Hu & Hlen & Ha). specialize (Ha out v Hin). split; [|split].
    + intros name name' [c [[E _]|[_ E]]%lookup_insert_Some] [c' [[E' _]|[_ E']]%lookup_insert_Some]; [congruence| | |by eauto].
      * destruct (Ha name E) as [_ Hx]. symmetry. apply Hx. eauto.
      * destruct (Ha name' E') as [_ Hx]. apply Hx. eauto.
    + etransitivity; [apply length_list_delete|done].
    + destruct (waiting st) as [|x [|]]; destruct i; simpl in *; try lia; try done. intros ? ? ?%elem_of_nil. done.
Qed.

Lemma api_step_ok st st' : api_ok st -> api_step st st' -> api_ok st'.
Proof.
  intros Hok Hst. destruct Hst as [st store req obj s out Hf Hop Hk Hs Hc Ha|st i out v Hi|st i|st key|st].
  - pose proof (review_admits _ _ _ _ _ _ (ao_view _ Hok) Hf Hop Hk Hs Hc Ha) as Had. destruct Hok as [K1 K2 K3 K4 K5].
    split; cbn [cl view waiting reviews one_at_a_time]; [done|done| |done|].
    + intros out' v' [Hin|[= -> ->]%list_elem_of_singleton]%elem_of_app; [by apply K3|done].
    + intros (Hone & Hw & Hv). rewrite Hw. destruct (K5 Hone) as (Hu & _ & _). split; [done|]. split; [simpl; lia|].
      intros out' v' [= -> ->]%list_elem_of_singleton. by rewrite <-Hv.
  - by apply admitted_write_ok.
  - destruct Hok as [K1 K2 K3 K4 K5]. split; cbn [cl view waiting reviews one_at_a_time]; [done|done| |done|].
    + intros out v Hin. eapply K3, elem_of_list_delete, Hin.
    + intros Hone. destruct (K5 Hone) as (Hu & Hlen & Ha). split; [done|]. split; [etransitivity; [apply length_list_delete|done]|].
      intros out v Hin. eapply Ha, elem_of_list_delete, Hin.
  - destruct Hok as [K1 K2 K3 K4 K5]. split; cbn [cl view waiting reviews one_at_a_time]; [by apply mesh_only_delete|done|done| |].
    + intros k cfg [_ ?]%lookup_delete_Some. by apply K4.
    + intros Hone. destruct (K5 Hone) as (Hu & Hlen & Ha). split; [|split; [done|]].
      * intros name name' [c [_ ?]%lookup_delete_Some] [c' [_ ?]%lookup_delete_Some]. by apply Hu.
      * intros out v Hin name E. destruct (Ha out v Hin name E) as [? Hx]. split; [done|]. intros name' [c [_ ?]%lookup_delete_Some]. by apply Hx.
  - by destruct Hok as [K1 K2 K3 K4 K5].
Qed.

Lemma api_ok_reachable st : rtc api_step api_start st -> api_ok st.
Proof.
  intros Hr. assert (He : mesh_only ∅) by (split; [intros ? ? Hx|intros ? ? Hx]; by rewrite lookup_empty in Hx).
  assert (K0 : api_ok api_start).
  { split; cbn [api_start cl view waiting reviews one_at_a_time]; [done|done|by intros ? ? ?%elem_of_nil|by intros ? ? Hx; rewrite lookup_empty in Hx|].
    intros _. split; [intros ? ? [? Hx]; by rewrite lookup_empty in Hx|]. split; [simpl; lia|by intros ? ? ?%elem_of_nil]. }
  induction Hr as [|a b c Hab _ IH]; [done|]. apply IH. by eapply api_step_ok.
Qed.

(** C11 Behind the webhook a Telemetry of the system namespace selects nothing, and there is
    at most one as long as reviews and writes are one at a time.  Resources are reviewed,
    against what the informers of the webhook have seen, and written or refused later;
    deletions are not reviewed; informers catch up at any time.  In every such run, where
    requests may overlap and listings may be old, each Telemetry that is in the system
    namespace is of the mesh, and of two of them neither was seen by the review of the
    other; and if every review saw the cluster as it was with no allowed write
    outstanding, there is at most one. *)
Theorem one_mesh_telemetry st name name' cfg cfg' :
  rtc api_step api_start st ->
  cl st !! mesh_key name = Some cfg -> cl st !! mesh_key name' = Some cfg' ->
  mesh_level cfg = true /\
  (name <> name' -> exists v v', reviews st !! mesh_key name = Some v /\ reviews st !! mesh_key name' = Some v' /\
     v !! mesh_key name' = None /\ v' !! mesh_key name = None) /\
  (one_at_a_time st -> name = name').
Proof.
  intros Hr Hl Hl'. pose proof (api_ok_reachable st Hr) as [K1 K2 K3 K4 K5]. split; [exact (mo_mesh _ K1 _ _ Hl)|]. split.
  - intros Hne. destruct (K4 _ _ Hl) as (v & Hv & Ha), (K4 _ _ Hl') as (v' & Hv' & Ha'). exists v, v'. do 2 (split; [done|]).
    destruct (Ha name (mo_own _ K1 _ _ Hl)) as [_ Hx], (Ha' name' (mo_own _ K1 _ _ Hl')) as [_ Hx'].
    split; apply eq_None_not_Some; intros Hs; [apply Hne; symmetry; by apply Hx|apply Hne; by apply Hx'].
  - intros Hone. destruct (K5 Hone) as (Hu & _). apply Hu; eauto.
Qed.

End cluster.

(** ** A store that validates

    Any run of creations, updates, patches and deletions of a memory store whose
    schemas are the ones above. *)
Section stored.
Context `{RangeOrder} `{Parsers} `{Libraries} (Error : errors -> string) (known_proto : string -> bool).
Context (Time_String : Time -> string).

Inductive store_step : memory.store ApiSpec -> memory.store ApiSpec -> Prop :=
  | step_create tnow st cfg : store_step st (fst (memory.Create Time_String tnow st cfg))
  | step_update tnow st cfg : store_step st (fst (memory.Update Time_String tnow st cfg))
  | step_patch tnow st orig f : store_step st (fst (memory.Patch Time_String tnow st orig f))
  | step_delete st kind name ns rv : store_step st (fst (memory.Delete st kind name ns rv)).

(** A validator looks at the name, the namespace and the spec, not at what a
    store stamps. *)
Definition same_content (a b : Config ApiSpec) : Prop :=
  cfg_Name a = cfg_Name b /\ cfg_Namespace a = cfg_Namespace b /\ cfg_Spec a = cfg_Spec b.
Definition by_content (s : Schema ApiSpec) : Prop :=
  forall a b, same_content a b -> sc_validateConfig s a = sc_validateConfig s b.

Lemma Dubbo_by_content s : s ∈ map BuildNoValidate (Dubbo_builders Error) -> by_content s.
Proof.
  intros (b & -> & Hb)%list_elem_of_fmap c d (En & Ens & Es).
  repeat (apply elem_of_cons in Hb as [->|Hb];
    [cbn -[as_validator]; unfold as_validator; (done || (
       unfold ValidateFaultInjectionPolicy, ValidateServiceEntry, ValidateTelemetry, ValidateWorkloadEntry, validateFunc, ValidateMetadata;
       by rewrite En, Ens, Es))|]).
  by apply not_elem_of_nil in Hb.
Qed.

Definition valid_in (schemas : Schemas ApiSpec) (k : GroupVersionKind) (c : Config ApiSpec) : Prop :=
  exists s, FindByGroupVersionKind schemas k = Some s /\ sc_validateConfig s c = None.

Record store_valid (ds : Schemas ApiSpec) (st : memory.store ApiSpec) : Prop := {
  sv_schemas : memory.schemas st = ds;
  sv_checks : memory.skipValidation st = false;
  sv_valid k n ns c : memory.Get st k n ns = Some c -> valid_in ds k c
}.

Lemma put_valid ds st k ns m :
  store_valid ds st -> (forall n c, m !! n = Some c -> valid_in ds k c) -> store_valid ds (memory.put st k ns m).
Proof.
  intros [Hs Hc Hv] Hm. split; [done|done|]. intros k' n ns' c. rewrite Get_put.
  destruct (decide _) as [[<- _]|]; [apply Hm|apply Hv].
Qed.

Lemma insert_valid ds st k ns m n c :
  store_valid ds st -> (forall n c, m !! n = Some c -> valid_in ds k c) -> valid_in ds k c ->
  store_valid ds (memory.put st k ns (<[n := c]> m)).
Proof.
  intros Hst Hm Hc. apply put_valid; [done|]. intros n' c' [[_ <-]|[_ Hn]]%lookup_insert_Some; [done|by eapply Hm].
Qed.

Lemma stored_in ds st k d ns m :
  store_valid ds st -> memory.data st !! k = Some d -> d !! ns = Some m -> forall n c, m !! n = Some c -> valid_in ds k c.
Proof. intros Hst Hd Hm n c Hn. apply (sv_valid _ _ Hst k n ns). by rewrite <- (namespace_Get st k d ns m Hd Hm). Qed.

Lemma check_valid ds st k c c' :
  store_valid ds st -> (forall s, s ∈ byAddOrder ds -> by_content s) -> memory.check st k c = None -> same_content c' c ->
  valid_in ds k c'.
Proof.
  intros [Hs Hc _] Hby. unfold memory.check. rewrite Hs, Hc. destruct (FindByGroupVersionKind ds k) as [s|] eqn:E; [|done].
  simpl. intros Hv Hsame. exists s. split; [done|]. rewrite (Hby s) with (b := c); [done| |done].
  apply find_some in E as [E _]. by apply list_elem_of_In.
Qed.

Lemma stamp_content tnow c : same_content (memory.stamp Time_String tnow c) c.
Proof. unfold memory.stamp. destruct (String.eqb _ ""); destruct (IsZero _); done. Qed.
Lemma restamp_content tnow c : same_content (memory.restamp Time_String tnow c) c.
Proof. unfold memory.restamp. by destruct (negb _). Qed.

Lemma store_step_valid ds st st' :
  (forall s, s ∈ byAddOrder ds -> by_content s) -> store_valid ds st -> store_step st st' -> store_valid ds st'.
Proof.
  intros Hby Hst Hstep. destruct Hstep as [tnow st cfg|tnow st cfg|tnow st orig f|st kind name ns rv].
  - unfold memory.Create. destruct (memory.check st _ cfg) eqn:Ec; [done|].
    assert (Hv : valid_in ds (cfg_GVK cfg) (memory.stamp Time_String tnow cfg))
      by (eapply check_valid; [done..|apply stamp_content]).
    destruct (memory.data st !! cfg_GVK cfg) as [d|] eqn:Ed; [|done].
    destruct (d !! cfg_Namespace cfg) as [m|] eqn:Em; simpl.
    + destruct (m !! cfg_Name cfg); [done|]. apply insert_valid; [done| |done]. by eapply stored_in.
    + assert (He : store_valid ds (memory.put st (cfg_GVK cfg) (cfg_Namespace cfg) ∅))
        by (apply put_valid; [done|]; intros ? ?; by rewrite lookup_empty).
      rewrite lookup_empty. apply insert_valid; [done| |done]. intros ? ?. by rewrite lookup_empty.
  - unfold memory.Update. destruct (memory.check st _ cfg) eqn:Ec; [done|].
    destruct (memory.data st !! cfg_GVK cfg) as [d|] eqn:Ed; [|done].
    destruct (d !! cfg_Namespace cfg) as [m|] eqn:Em; [|done]. destruct (m !! cfg_Name cfg); [|done].
    destruct (memory.hasConflict _ _); [done|]. apply insert_valid; [done|by eapply stored_in|].
    eapply check_valid; [done..|apply restamp_content].
  - unfold memory.Patch. destruct (FindByGroupVersionKind _ _) as [s|] eqn:Ef; [|done].
    rewrite (sv_checks _ _ Hst). cbn [negb]. destruct (sc_validateConfig s _) eqn:Ev; [done|].
    destruct (memory.data st !! cfg_GVK orig) as [d|] eqn:Ed; [|done].
    destruct (d !! cfg_Namespace orig) as [m|] eqn:Em; [|done]. apply insert_valid; [done|by eapply stored_in|].
    eapply (check_valid ds st _ (fst (f orig))); [done..| |done]. unfold memory.check.
    by rewrite Ef, (sv_checks _ _ Hst).
  - unfold memory.Delete. destruct (memory.data st !! kind) as [d|] eqn:Ed; [|done].
    destruct (d !! ns) as [m|] eqn:Em; [|done]. destruct (m !! name) as [?|]; [|done]. apply put_valid; [done|].
    intros n x [_ Hn]%lookup_delete_Some. by eapply stored_in.
Qed.

Lemma store_run_valid ds st :
  Dubbo Error known_proto = Ok ds -> rtc store_step (memory.Make ds) st -> store_valid ds st.
Proof.
  intros Hds Hr. destruct (Dubbo_builds Error known_proto) as (ds' & E & Ea). rewrite Hds in E. injection E as <-.
  assert (Hby : forall s, s ∈ byAddOrder ds -> by_content s) by (intros s; rewrite Ea; apply Dubbo_by_content).
  assert (Hnew : store_valid ds (memory.Make ds)).
  { split; [done|done|]. intros k n ns c. unfold memory.Get, memory.Make, memory.newStore. cbn [memory.data].
    destruct (fold_left _ _ _ !! k) as [d|] eqn:Ek; [|done].
    apply newStore_empty in Ek as ->; [|intros ? ?; by rewrite lookup_empty]. by rewrite lookup_empty. }
  induction Hr as [|a b c Hab _ IH]; [done|]. apply IH. by eapply store_step_valid.
Qed.

Lemma valid_of_kind ds k c f :
  Dubbo Error known_proto = Ok ds -> valid_in ds k c ->
  (forall s, s ∈ map BuildNoValidate (Dubbo_builders Error) -> sc_gvk s = k -> sc_validateConfig s = as_validator Error f) ->
  f c = [].
Proof.
  intros Hds (s & Hs & Hv) Hf. destruct (Dubbo_builds Error known_proto) as (ds' & E & Ea). rewrite Hds in E. injection E as <-.
  unfold FindByGroupVersionKind in Hs. apply find_some in Hs as [Hin Hk]. apply bool_decide_eq_true in Hk.
  apply (as_validator_None Error). rewrite <- (Hf s); [done| |done]. rewrite <- Ea. by apply list_elem_of_In.
Qed.

(** The schema of a kind among the builders. *)
Ltac pick_schema :=
  intros s Hs Hk; apply list_elem_of_fmap in Hs as (b & -> & Hb);
  repeat (apply elem_of_cons in Hb as [->|Hb]; [try (by vm_compute in Hk); done|]); by apply not_elem_of_nil in Hb.

(** C17 Whatever sequence of creations, updates, patches and deletions a store of
    the mesh's schemas goes through, every ServiceEntry, WorkloadEntry and
    FaultInjectionPolicy it holds is well formed, and every Telemetry of the
    system namespace selects nothing: the store never keeps what its validators
    reject, the revision and the times it adds notwithstanding. *)
Theorem store_keeps_only_valid ds st k n ns c :
  Dubbo Error known_proto = Ok ds -> rtc store_step (memory.Make ds) st -> memory.Get st k n ns = Some c ->
  (k = mkGVK "networking.dubbo.apache.org" "v1alpha3" "ServiceEntry" ->
     exists e, cfg_Spec c = Some (ApiServiceEntry e) /\ entry_ok e /\ metadata_ok c) /\
  (k = mkGVK "networking.dubbo.apache.org" "v1alpha3" "WorkloadEntry" ->
     exists w, cfg_Spec c = Some (ApiWorkloadEntry w) /\ workload_ok w /\ metadata_ok c) /\
  (k = mkGVK "networking.dubbo.apache.org" "v1alpha3" "FaultInjectionPolicy" ->
     exists f, cfg_Spec c = Some (ApiFaultInjectionPolicy f) /\ fault_ok f /\ metadata_ok c) /\
  (k = Telemetry_gvk -> cfg_Namespace c = DubboSystemNamespace -> mesh_level c = true).
Proof.
  intros Hds Hr Hg. pose proof (sv_valid _ _ (store_run_valid ds st Hds Hr) k n ns c Hg) as Hv. split_and!.
  - intros ->. apply ValidateServiceEntry_nil, (valid_of_kind ds _ c _ Hds Hv). pick_schema.
  - intros ->. apply ValidateWorkloadEntry_nil, (valid_of_kind ds _ c _ Hds Hv). pick_schema.
  - intros ->. apply ValidateFaultInjectionPolicy_nil, (valid_of_kind ds _ c _ Hds Hv). pick_schema.
  - intros ->. apply ValidateTelemetry_system, (valid_of_kind ds _ c _ Hds Hv). pick_schema.
Qed.
End stored.

Lemma validate_adapted {Raw J : Type} `{Decoders Raw J} wh (request : AdmissionRequest Raw) :
  validate wh (adapt_request request) = validate wh request.
Proof. done. Qed.

(** C40 A review that carries a request is answered with a review of its own
    version, with the identifier of the request and the verdict of the webhook on
    it; a review without a request makes the handler panic. *)
Theorem review_is_answered {Raw J : Type} `{Decoders Raw J} wh n (ar : AdmissionReview (Raw := Raw)) (v1 : bool) :
  rv_APIVersion ar = (if v1 then admissionAPIV1 else admissionAPIV1beta1) ->
  let version := if v1 then KubeV1 (Raw := Raw) else KubeV1beta1 (Raw := Raw) in
  serve wh (Some (inr (S n))) "application/json" (Some (version ar))
  = match rv_Request ar with
    | None => Panic "invalid memory address or nil pointer dereference"
    | Some request =>
        Ok (HttpOK (Some (version (mkAdmissionReview (rv_APIVersion ar) None
          (Some (with_UID (rq_UID request) (validate wh request)))))))
    end.
Proof.
  intros Hv. destruct ar as [api req resp]. cbn in Hv. subst api.
  destruct v1, req as [request|]; cbn -[validate]; by rewrite ?validate_adapted.
Qed.

(** *** Witnesses *)

Definition print_errors (e : errors) : string := match e with [] => "" | Errorf f _ :: _ => f end.
Definition sample_dubbo : Schemas ApiSpec :=
  from_ok NewSchemasBuilder (@Dubbo key_order sample_parsers sample_libraries print_errors (fun _ => true)).
Lemma sample_dubbo_ok :
  @Dubbo key_order sample_parsers sample_libraries print_errors (fun _ => true) = Ok sample_dubbo.
Proof.
  unfold sample_dubbo. by destruct (@Dubbo_builds key_order sample_parsers sample_libraries print_errors (fun _ => true))
    as (ds & -> & _).
Qed.
Lemma sample_dubbo_order :
  byAddOrder sample_dubbo = map BuildNoValidate (@Dubbo_builders key_order sample_parsers sample_libraries print_errors).
Proof.
  destruct (@Dubbo_builds key_order sample_parsers sample_libraries print_errors (fun _ => true)) as (ds & E & Ea).
  by rewrite sample_dubbo_ok in E; injection E as <-.
Qed.

(** Objects named by their raw form, all Telemetry resources of the system
    namespace that say nothing. *)
Definition sample_decoders : Decoders string unit := {|
  unmarshal_kind name := Some (mkDubboKind unit Telemetry_gvk name DubboSystemNamespace None None "" 0 tt None);
  unmarshal_fields _ := Some ["apiVersion"; "kind"; "metadata"; "spec"];
  FromJSON _ _ := Some (ApiTelemetry (mkTelemetry None [] [] []));
  StatusJSONFromMap _ _ := None
|}.
Definition sample_request (name : string) : AdmissionRequest string :=
  mkAdmissionRequest string "uid" "Telemetry" "telemetries" "" "" None None "admin" name DubboSystemNamespace Create name
    None None None.
Definition sample_telemetry (name : string) : Config ApiSpec :=
  mkConfig (Meta.mk Telemetry_gvk "" name DubboSystemNamespace "cluster.local" None None "" 0 [] 0)
    (Some (ApiTelemetry (mkTelemetry None [] [] []))) None None.

Lemma sample_telemetry_schema :
  exists s, FindByGroupKind sample_dubbo Telemetry_gvk = Some s /\ sc_gvk s = Telemetry_gvk /\
    sc_validateConfig s = as_validator print_errors (@ValidateTelemetry key_order sample_parsers).
Proof. unfold FindByGroupKind. rewrite sample_dubbo_order. eexists. split; [reflexivity|]. split; reflexivity. Qed.

(** Whether a webhook that lists [l] allows the creation of [name]. *)
Lemma sample_verdict (l : list (Config ApiSpec)) name :
  @ValidateTelemetry key_order sample_parsers (sample_telemetry name) = [] ->
  rp_Allowed (@validate string unit sample_decoders (mkWebhook sample_dubbo (Some (fun _ _ => l)) "cluster.local") (sample_request name))
  = negb (existsb (fun c => negb (String.eqb (cfg_Name c) name) && mesh_level c) l).
Proof.
  intros Hv. destruct sample_telemetry_schema as (s & Hs & Hk & Hf). unfold validate. cbn [rq_Operation sample_request].
  cbn -[FindByGroupKind sc_validateConfig mesh_level List.find existsb]. rewrite Hs. unfold ConvertObject. rewrite Hk.
  cbn -[FindByGroupKind sc_validateConfig mesh_level List.find existsb].
  change (mkConfig _ _ _ _) with (sample_telemetry name). rewrite Hf. unfold as_validator. rewrite Hv.
  unfold validateMeshlevelUniqueness. cbn -[List.find existsb].
  rewrite bool_decide_true by done. cbn -[List.find existsb].
  induction l as [|c l IH]; [done|]. cbn [List.find existsb].
  destruct (negb (String.eqb (cfg_Name c) name) && mesh_level c); [done|]. exact IH.
Qed.

(** After a review and the write that follows it *)
Definition sample_after (name : string) : api_state :=
  mkApi {[key_of (sample_telemetry name) := sample_telemetry name]} ∅ [] {[key_of (sample_telemetry name) := ∅]}
    (one_at_a_time api_start /\ waiting api_start = [] /\ view api_start = cl api_start).

Lemma sample_reviewed st name : view st = ∅ -> @ValidateTelemetry key_order sample_parsers (sample_telemetry name) = [] ->
  @api_step string unit sample_decoders sample_dubbo "cluster.local" st
    (mkApi (cl st) (view st) (waiting st ++ [(sample_telemetry name, view st)]) (reviews st)
       (one_at_a_time st /\ waiting st = [] /\ view st = cl st)).
Proof.
  intros Hv Ht. destruct sample_telemetry_schema as (s & Hs & Hk & _).
  apply (api_review _ _ _ (fun _ _ => []) (sample_request name)
    (mkDubboKind unit Telemetry_gvk name DubboSystemNamespace None None "" 0 tt None) s (sample_telemetry name)).
  - rewrite Hv. intros k ns cfg. split; [by intros ?%not_elem_of_nil|]. intros [n Hn]. by rewrite lookup_empty in Hn.
  - by left.
  - done.
  - done.
  - unfold ConvertObject. by rewrite Hk.
  - by rewrite sample_verdict.
Qed.

Lemma one_mesh_telemetry_witness : mesh_level (sample_telemetry "mesh") = true.
Proof.
  destruct (@one_mesh_telemetry key_order sample_parsers sample_libraries print_errors (fun _ => true) string unit
    sample_decoders sample_dubbo "cluster.local" sample_dubbo_ok (sample_after "mesh") "mesh" "mesh"
    (sample_telemetry "mesh") (sample_telemetry "mesh")) as [Hm _].
  - eapply rtc_l; [apply (sample_reviewed api_start "mesh" eq_refl); by vm_compute|].
    eapply rtc_l; [apply (api_write _ _ _ 0 (sample_telemetry "mesh") ∅); reflexivity|]. apply rtc_refl.
  - apply lookup_insert_eq.
  - apply lookup_insert_eq.
  - exact Hm.
Defined.

(** Of two creations that the webhook answers before either shows in its listing, both are
    allowed, and the system namespace has two Telemetries of the mesh. *)
Example concurrent_creations_admitted :
  exists st, rtc (@api_step string unit sample_decoders sample_dubbo "cluster.local") api_start st /\
    is_Some (cl st !! key_of (sample_telemetry "first")) /\ is_Some (cl st !! key_of (sample_telemetry "second")).
Proof.
  eexists. split; [|split].
  - eapply rtc_l; [apply (sample_reviewed api_start "first" eq_refl); by vm_compute|].
    eapply rtc_l; [apply (sample_reviewed _ "second"); [reflexivity|by vm_compute]|].
    eapply rtc_l; [apply (api_write _ _ _ 0 (sample_telemetry "first") ∅); reflexivity|].
    eapply rtc_l; [apply (api_write _ _ _ 0 (sample_telemetry "second") ∅); reflexivity|]. apply rtc_refl.
  - cbn [cl]. rewrite lookup_insert_ne by done. rewrite lookup_insert_eq. eauto.
  - cbn [cl]. rewrite lookup_insert_eq. eauto.
Qed.

Definition sample_entry_config : Config ApiSpec := sample_spec "ServiceEntry" "ext" "app" (ApiServiceEntry sample_external).
Definition sample_stored : memory.store ApiSpec :=
  fst (memory.Create (fun _ => "rev") 7 (memory.Make sample_dubbo) sample_entry_config).

Lemma sample_entry_accepted :
  memory.check (memory.Make sample_dubbo) (cfg_GVK sample_entry_config) sample_entry_config = None.
Proof.
  unfold memory.check, FindByGroupVersionKind. cbn [memory.schemas memory.Make memory.newStore]. rewrite sample_dubbo_order.
  assert (Hv : @ValidateServiceEntry key_order sample_parsers sample_entry_config = []) by (by vm_compute).
  change (as_validator print_errors (@ValidateServiceEntry key_order sample_parsers) sample_entry_config = None).
  unfold as_validator. by rewrite Hv.
Qed.

Lemma sample_stored_get :
  memory.Get sample_stored (cfg_GVK sample_entry_config) "ext" "app"
  = Some (memory.stamp (fun _ => "rev") 7 sample_entry_config).
Proof.
  unfold sample_stored, memory.Create. rewrite sample_entry_accepted.
  assert (Hd : memory.data (memory.Make sample_dubbo) !! cfg_GVK sample_entry_config = Some ∅).
  { unfold memory.Make, memory.newStore. cbn [memory.data]. unfold Schemas_All. rewrite sample_dubbo_order.
    destruct (fold_left _ _ _ !! _) as [m|] eqn:E.
    - apply newStore_empty in E as ->; [done|]. intros ? ?. by rewrite lookup_empty.
    - assert (is_Some (fold_left (fun d x => <[sc_gvk x := ∅]> d)
        (map BuildNoValidate (@Dubbo_builders key_order sample_parsers sample_libraries print_errors))
        (∅ : gmap GroupVersionKind (gmap string (gmap string (Config ApiSpec)))) !! cfg_GVK sample_entry_config)) as [? Hx];
        [|by rewrite E in Hx]. apply newStore_data. right. by do 5 right; left. }
  rewrite Hd. rewrite lookup_empty. cbn [default]. rewrite lookup_empty. cbn [fst]. rewrite Get_put.
  rewrite decide_True by done. apply lookup_insert_eq.
Qed.

Lemma store_keeps_only_valid_witness :
  exists e, cfg_Spec (memory.stamp (fun _ => "rev") 7 sample_entry_config) = Some (ApiServiceEntry e) /\
    @entry_ok sample_parsers e.
Proof.
  destruct (@store_keeps_only_valid key_order sample_parsers sample_libraries print_errors (fun _ => true) (fun _ => "rev")
    sample_dubbo sample_stored (cfg_GVK sample_entry_config) "ext" "app" _ sample_dubbo_ok
    (rtc_once _ _ (step_create _ 7 (memory.Make sample_dubbo) sample_entry_config)) sample_stored_get) as [Hs _].
  destruct (Hs eq_refl) as (e & He & Ho & _). exists e. split; [exact He|exact Ho].
Defined.

Definition sample_review : AdmissionReview (Raw := string) :=
  mkAdmissionReview admissionAPIV1 (Some (sample_request "mesh")) None.
Lemma review_is_answered_witness :
  exists r, @serve string unit sample_decoders (mkWebhook sample_dubbo None "cluster.local") (Some (inr 10%nat)) "application/json"
    (Some (KubeV1 sample_review)) = Ok (HttpOK (Some (KubeV1 r))) /\ (rp_UID <$> rv_Response r) = Some "uid".
Proof.
  eexists. split; [exact (@review_is_answered string unit sample_decoders _ 9 sample_review true eq_refl)|done].
Defined.
