(* ===== verification/SubjectAltNames.v ===== *)
(** * Subject alternative names

    [dubbod/security/pkg/pki/util/san.go]: the identities of a certificate in its
    SAN extension, and the part of [encoding/asn1] that writes and reads it: a
    sequence of values with a tag, a length and contents.  Bytes are the
    characters of a string; [netip.ParseAddr] is a parameter. *)

From S2P Require Import Prelude GoStrings GoNet Spiffe.

(** ** [encoding/asn1] *)

Definition byte (n : Z) : ascii := Ascii.ascii_of_N (Z.to_N n).
Definition code (c : ascii) : Z := Z.of_N (Ascii.N_of_ascii c).
Notation len s := (Z.of_nat (String.length s)).

(** The bytes of a number, the most significant first; eight hold any length. *)
Fixpoint base256 (fuel : nat) (n : Z) (acc : string) : string :=
  match fuel with
  | O => acc
  | S fuel => if n =? 0 then acc else base256 fuel (n / 256) (String (byte (n mod 256)) acc)
  end.
Definition appendLength (n : Z) : string := base256 8 n "".

(** [appendTagAndLength] for a tag below 31, then the contents. *)
Definition ClassUniversal : Z := 0.
Definition ClassContextSpecific : Z := 2.
Definition TagSequence : Z := 16.
Definition tlv (class tag : Z) (isCompound : bool) (contents : string) : string :=
  let first := Z.lor (Z.lor (Z.shiftl class 6) (if isCompound then 32 else 0)) tag in
  String (byte first) (
    (if len contents <? 128 then String (byte (len contents)) ""
     else let l := appendLength (len contents) in String (byte (Z.lor 128 (len l))) l) +:+ contents).

Record RawValue : Type := mkRawValue { raw_Class : Z; raw_Tag : Z; raw_IsCompound : bool; raw_Bytes : string }.

Definition two31 : Z := 2147483648.

(** [parseBase128Int]: at most five bytes, minimal, and a value of 31 bits. *)
Fixpoint parseBase128Int (fuel : nat) (shifted : bool) (ret : Z) (bytes : string) : option (Z * string) :=
  match fuel with
  | O => None
  | S fuel =>
      match bytes with
      | EmptyString => None
      | String c rest =>
          let b := code c in
          if negb shifted && (b =? 128) then None else
          let ret := Z.lor (Z.shiftl ret 7) (Z.land b 127) in
          if Z.land b 128 =? 0 then (if two31 - 1 <? ret then None else Some (ret, rest))
          else parseBase128Int fuel true ret rest
      end
  end.

(** The bytes of a long length. *)
Fixpoint parseLength (numBytes : nat) (length : Z) (bytes : string) : option (Z * string) :=
  match numBytes with
  | O => Some (length, bytes)
  | S numBytes =>
      match bytes with
      | EmptyString => None
      | String c rest =>
          if Z.shiftl 1 23 <=? length then None else
          let length := Z.lor (Z.shiftl length 8) (code c) in
          if length =? 0 then None else parseLength numBytes length rest
      end
  end.

(** [parseTagAndLength]: the class, whether it is compound, the tag and the length. *)
Definition parseTagAndLength (bytes : string) : option (Z * bool * Z * Z * string) :=
  match bytes with
  | EmptyString => None
  | String c rest =>
      let b := code c in
      let class := Z.shiftr b 6 in
      let compound := Z.land b 32 =? 32 in
      match (if Z.land b 31 =? 31 then
               match parseBase128Int 5 false 0 rest with
               | Some (tag, rest) => if tag <? 31 then None else Some (tag, rest)
               | None => None
               end
             else Some (Z.land b 31, rest)) with
      | None => None
      | Some (tag, rest) =>
          match rest with
          | EmptyString => None
          | String c rest =>
              let b := code c in
              if Z.land b 128 =? 0 then Some (class, compound, tag, Z.land b 127, rest)
              else
                let numBytes := Z.land b 127 in
                if numBytes =? 0 then None else
                match parseLength (Z.to_nat numBytes) 0 rest with
                | None => None
                | Some (length, rest) => if length <? 128 then None else Some (class, compound, tag, length, rest)
                end
          end
      end
  end.

(** [asn1.Unmarshal] into a [RawValue]: the value and what follows it. *)
Definition Unmarshal (bytes : string) : option (RawValue * string) :=
  match parseTagAndLength bytes with
  | None => None
  | Some (class, compound, tag, length, rest) =>
      if len rest <? length then None
      else Some (mkRawValue class tag compound (str_take (Z.to_nat length) rest), str_drop (Z.to_nat length) rest)
  end.

(** ** Identities *)

Inductive IdentityType : Type := TypeDNS | TypeIP | TypeURI.
Record SanIdentity : Type := mkSanIdentity { id_Type : IdentityType; id_Value : string }.

#[global] Instance IdentityType_eq_dec : EqDecision IdentityType.
Proof. solve_decision. Defined.

Definition oidTagMap (t : IdentityType) : Z := match t with TypeDNS => 2 | TypeURI => 6 | TypeIP => 7 end.
(** A tag that is not there gives the zero of the type. *)
Definition identityTypeMap (tag : Z) : IdentityType :=
  if tag =? 2 then TypeDNS else if tag =? 6 then TypeURI else if tag =? 7 then TypeIP else TypeDNS.

Definition OidSubjectAlternativeName : list Z := [2; 5; 29; 17].
Record Extension : Type := mkExtension { ext_Id : list Z; ext_Critical : bool; ext_Value : string }.

Definition BuildSANExtension (ids : list SanIdentity) : Extension :=
  mkExtension OidSubjectAlternativeName true
    (tlv ClassUniversal TagSequence true
       (String.concat "" (map (fun i => tlv ClassContextSpecific (oidTagMap (id_Type i)) false (id_Value i)) ids))).

(** [netip.ParseAddr] with the bytes of the address, four when they fit. *)
Definition host_identity (ParseAddr : string -> option string) (host : string) : SanIdentity :=
  match ParseAddr host with
  | Some ip => mkSanIdentity TypeIP ip
  | None => if HasPrefix host URIPrefix then mkSanIdentity TypeURI host else mkSanIdentity TypeDNS host
  end.
Definition BuildSubjectAltNameExtension (ParseAddr : string -> option string) (hosts : string) : Extension :=
  BuildSANExtension (map (host_identity ParseAddr) (Split hosts ",")).

(** The loop over the values of the sequence; a value takes at least two bytes. *)
Fixpoint extract_ids (fuel : nat) (bytes : string) : option (list SanIdentity) :=
  match fuel with
  | O => None
  | S fuel =>
      match bytes with
      | EmptyString => Some []
      | _ =>
          match Unmarshal bytes with
          | None => None
          | Some (v, rest) =>
              match extract_ids fuel rest with
              | None => None
              | Some ids => Some (mkSanIdentity (identityTypeMap (raw_Tag v)) (raw_Bytes v) :: ids)
              end
          end
      end
  end.

Definition ExtractIDsFromSAN (sanExt : Extension) : option (list SanIdentity) :=
  if negb (bool_decide (ext_Id sanExt = OidSubjectAlternativeName)) then None else
  match Unmarshal (ext_Value sanExt) with
  | None => None
  | Some (v, rest) =>
      if negb (String.length rest =? 0)%nat then None
      else if negb (raw_IsCompound v) || negb (raw_Tag v =? TagSequence) || negb (raw_Class v =? ClassUniversal) then None
      else extract_ids (S (String.length (raw_Bytes v))) (raw_Bytes v)
  end.

Definition ExtractSANExtension (exts : list Extension) : option Extension :=
  List.find (fun e => bool_decide (ext_Id e = OidSubjectAlternativeName)) exts.

Definition ExtractIDs (exts : list Extension) : option (list string) :=
  match ExtractSANExtension exts with
  | None => None
  | Some ext => map id_Value <$> ExtractIDsFromSAN ext
  end.

(** ** Lemmas *)

Lemma code_byte n : 0 <= n < 256 -> code (byte n) = n.
Proof. intros Hn. unfold code, byte. rewrite Ascii.N_ascii_embedding by lia. lia. Qed.

Lemma code_range c : 0 <= code c < 256.
Proof. unfold code. pose proof (Ascii.N_ascii_bounded c). lia. Qed.

Lemma lor_add a b k : 0 <= b < 2 ^ k -> 0 <= k -> Z.lor (Z.shiftl a k) b = a * 2 ^ k + b.
Proof.
  intros Hb Hk. rewrite <- Z.shiftl_mul_pow2 by done. rewrite <- Z.add_lor_land.
  assert (Z.land (Z.shiftl a k) b = 0) as ->; [|lia]. apply Z.bits_inj'. intros i Hi. rewrite Z.land_spec, Z.bits_0.
  destruct (Z.lt_ge_cases i k).
  - rewrite Z.shiftl_spec by done. by rewrite (Z.testbit_neg_r a (i - k)) by lia.
  - destruct (Z.eq_dec b 0) as [->|]; [by rewrite Z.bits_0, andb_false_r|].
    rewrite (Z.bits_above_log2 b i); [by rewrite andb_false_r|lia|].
    apply Z.lt_le_trans with k; [|done]. apply Z.log2_lt_pow2; lia.
Qed.

(** Reading the bytes of a length gives it back. *)
Lemma parseLength_base256 fuel n acc rest :
  0 < n < two31 -> n < 256 ^ Z.of_nat fuel ->
  parseLength (String.length (base256 fuel n acc)) 0 (base256 fuel n acc +:+ rest)
  = parseLength (String.length acc) n (acc +:+ rest).
Proof.
  revert n acc. induction fuel as [|fuel IH]; intros n acc Hn Hf; [simpl in Hf; lia|].
  cbn [base256]. destruct (Z.eqb_spec n 0); [lia|].
  assert (Hm : 0 <= n mod 256 < 256) by (apply Z.mod_pos_bound; lia).
  assert (Hdiv : n = n / 256 * 256 + n mod 256) by (rewrite (Z.div_mod n 256) at 1; lia).
  assert (Hstep : forall m, 0 <= m < Z.shiftl 1 23 -> m = n / 256 ->
    parseLength (S (String.length acc)) m (String (byte (n mod 256)) (acc +:+ rest)) = parseLength (String.length acc) n (acc +:+ rest)).
  { intros m Hm' ->. cbn [parseLength]. destruct (Z.leb_spec (Z.shiftl 1 23) (n / 256)); [lia|].
    rewrite code_byte, lor_add by lia. change (2 ^ 8) with 256. rewrite <- Hdiv. by destruct (Z.eqb_spec n 0). }
  destruct (Z.eq_dec (n / 256) 0) as [E|E].
  - rewrite E. assert (base256 fuel 0 (String (byte (n mod 256)) acc) = String (byte (n mod 256)) acc) as -> by (by destruct fuel).
    apply (Hstep 0); [split; [done|by vm_compute]|done].
  - rewrite IH.
    + apply (Hstep (n / 256)); [|done]. split; [apply Z.div_pos; lia|]. change (Z.shiftl 1 23) with 8388608.
      apply Z.div_lt_upper_bound; unfold two31 in *; lia.
    + split; [pose proof (Z.div_pos n 256); lia|]. apply Z.le_lt_trans with n; [apply Z.div_le_upper_bound; lia|lia].
    + apply Z.div_lt_upper_bound; [lia|]. rewrite Nat2Z.inj_succ, Z.pow_succ_r in Hf by lia. lia.
Qed.

Lemma base256_length fuel n acc :
  0 < n < 256 ^ Z.of_nat fuel ->
  (String.length acc < String.length (base256 fuel n acc) <= String.length acc + fuel)%nat.
Proof.
  revert n acc. induction fuel as [|fuel IH]; intros n acc Hn; [simpl in Hn; lia|].
  cbn [base256]. destruct (Z.eqb_spec n 0); [lia|]. destruct (Z.eq_dec (n / 256) 0) as [E|E].
  - rewrite E. assert (base256 fuel 0 (String (byte (n mod 256)) acc) = String (byte (n mod 256)) acc) as -> by (by destruct fuel).
    simpl. lia.
  - specialize (IH (n / 256) (String (byte (n mod 256)) acc)). simpl in IH.
    assert (0 < n / 256 < 256 ^ Z.of_nat fuel) as Hd; [|specialize (IH Hd); lia].
    split; [pose proof (Z.div_pos n 256); lia|]. apply Z.div_lt_upper_bound; [lia|].
    rewrite Nat2Z.inj_succ, Z.pow_succ_r in Hn by lia. lia.
Qed.

Lemma len_app a b : len (a +:+ b) = len a + len b.
Proof. rewrite str_length_app. lia. Qed.

(** The length bytes of contents of less than two gigabytes. *)
Lemma long_length n :
  128 <= n < two31 ->
  exists k, len (appendLength n) = k /\ 1 <= k <= 8 /\
    forall rest, parseLength (Z.to_nat k) 0 (appendLength n +:+ rest) = Some (n, rest).
Proof.
  intros Hn. assert (Hf : 0 < n < 256 ^ Z.of_nat 8) by (change (256 ^ Z.of_nat 8) with 18446744073709551616; unfold two31 in *; lia).
  pose proof (base256_length 8 n "" Hf) as Hl. change (String.length "") with 0%nat in Hl. exists (len (appendLength n)).
  unfold appendLength. split; [done|]. split; [lia|]. intros rest.
  rewrite Nat2Z.id, parseLength_base256; [done|lia|by destruct Hf].
Qed.

Lemma Unmarshal_tlv class tag compound contents rest :
  In class [ClassUniversal; ClassContextSpecific] -> In tag [2; 6; 7; TagSequence] -> len contents < two31 ->
  Unmarshal (tlv class tag compound contents +:+ rest) = Some (mkRawValue class tag compound contents, rest).
Proof.
  intros Hc Ht Hl. unfold Unmarshal, tlv. cbv zeta. set (first := Z.lor _ tag).
  assert (Hfirst : 0 <= first < 256 /\ Z.shiftr first 6 = class /\ (Z.land first 32 =? 32) = compound /\
    Z.land first 31 = tag /\ (tag =? 31) = false).
  { unfold first. simpl in Hc, Ht. destruct Hc as [<-|[<-|[]]], Ht as [<-|[<-|[<-|[<-|[]]]]], compound; by vm_compute. }
  destruct Hfirst as (Hr & Hs & Hcp & Htag & H31).
  assert (Hp : parseTagAndLength (String (byte first)
    ((if len contents <? 128 then String (byte (len contents)) ""
      else let l := appendLength (len contents) in String (byte (Z.lor 128 (len l))) l) +:+ contents) +:+ rest)
    = Some (class, compound, tag, len contents, contents +:+ rest)).
  { cbn [parseTagAndLength String.append]. rewrite code_byte by done. rewrite Hs, Hcp, Htag, H31.
    destruct (Z.ltb_spec (len contents) 128) as [Hlt|Hge].
    - cbn [String.append]. rewrite code_byte by lia.
      assert (Hb : Z.land (len contents) 128 = 0 /\ Z.land (len contents) 127 = len contents).
      { assert (Hsmall : forall z, 0 <= z < 128 -> Z.land z 128 = 0 /\ Z.land z 127 = z).
        { intros z Hz. split; [|change 127 with (Z.ones 7); rewrite Z.land_ones by lia; apply Z.mod_small; lia].
          apply Z.bits_inj'. intros i Hi. rewrite Z.land_spec, Z.bits_0. change 128 with (2 ^ 7). rewrite Z.pow2_bits_eqb by lia.
          destruct (Z.eqb_spec 7 i) as [<-|]; [|by rewrite andb_false_r].
          destruct (Z.eq_dec z 0) as [->|]; [done|]. rewrite Z.bits_above_log2; [done|lia|].
          apply Z.log2_lt_pow2; [lia|]. change (2 ^ 7) with 128. lia. }
        apply Hsmall. lia. }
      destruct Hb as [-> ->]. done.
    - destruct (long_length (len contents)) as (k & Ek & Hk & Hpl); [lia|]. rewrite Ek. cbn [String.append].
      assert (Hb : 0 <= Z.lor 128 k < 256 /\ Z.land (Z.lor 128 k) 128 = 128 /\ Z.land (Z.lor 128 k) 127 = k).
      { assert (k = 1 \/ k = 2 \/ k = 3 \/ k = 4 \/ k = 5 \/ k = 6 \/ k = 7 \/ k = 8) as Hks by lia.
        clear Ek Hpl. destruct Hks as [->|[->|[->|[->|[->|[->|[->| ->]]]]]]]; by vm_compute. }
      destruct Hb as (Hb1 & Hb2 & Hb3). rewrite code_byte by done. rewrite Hb2, Hb3. cbn [Z.eqb].
      destruct (Z.eqb_spec k 0); [lia|]. rewrite str_app_assoc, Hpl. destruct (Z.ltb_spec (len contents) 128); [lia|done]. }
  cbv zeta in Hp. rewrite Hp. rewrite len_app. destruct (Z.ltb_spec (len contents + len rest) (len contents)); [lia|].
  by rewrite Nat2Z.id, str_take_app, str_drop_app.
Qed.

Lemma concat_cons (a : string) l : String.concat "" (a :: l) = a +:+ String.concat "" l.
Proof. destruct l; simpl; [by rewrite str_app_nil_r|done]. Qed.

Lemma tlv_length class tag compound contents :
  (String.length contents + 2 <= String.length (tlv class tag compound contents))%nat.
Proof. unfold tlv. simpl. rewrite str_length_app. destruct (_ <? _); simpl; lia. Qed.

(** Each value takes two bytes at least, so the fuel of the loop is enough. *)
Lemma extract_ids_values (ids : list SanIdentity) fuel :
  let bytes := String.concat "" (map (fun i => tlv ClassContextSpecific (oidTagMap (id_Type i)) false (id_Value i)) ids) in
  len bytes < two31 -> (String.length bytes < fuel)%nat -> extract_ids fuel bytes = Some ids.
Proof.
  revert fuel. induction ids as [|i ids IH]; intros fuel bytes Hl Hf; unfold bytes in *; clear bytes.
  { destruct fuel; [simpl in Hf; lia|done]. }
  cbn [map] in *. rewrite concat_cons in *. destruct fuel as [|fuel]; [lia|].
  set (rest := String.concat "" _) in *. pose proof (tlv_length ClassContextSpecific (oidTagMap (id_Type i)) false (id_Value i)) as Ht.
  rewrite str_length_app in Hl, Hf.
  cbn [extract_ids]. destruct (tlv _ _ _ _ +:+ rest) eqn:E.
  { apply (f_equal String.length) in E. rewrite str_length_app in E. simpl in E. lia. }
  rewrite <- E, Unmarshal_tlv by (destruct i as [[] ?]; simpl in *; tauto || lia).
  rewrite IH by lia. destruct i as [[] ?]; done.
Qed.

Lemma ExtractIDsFromSAN_BuildSANExtension ids :
  len (ext_Value (BuildSANExtension ids)) < two31 -> ExtractIDsFromSAN (BuildSANExtension ids) = Some ids.
Proof.
  unfold ExtractIDsFromSAN, BuildSANExtension. cbn [ext_Value ext_Id]. intros Hl. rewrite bool_decide_true by done.
  set (bytes := String.concat "" _) in *. pose proof (tlv_length ClassUniversal TagSequence true bytes).
  rewrite <- (str_app_nil_r (tlv _ _ _ _)), Unmarshal_tlv by (simpl; tauto || lia).
  change (extract_ids (S (String.length bytes)) bytes = Some ids).
  apply extract_ids_values; unfold bytes in *; lia.
Qed.

(** Text joined with a separator splits into the parts that do not hold it. *)
Lemma split_join c l : forall n,
  l <> [] -> forallb (no_char c) l = true -> (List.length l <= S n)%nat ->
  split_fuel n (str_join l (String c "")) (String c "") = l.
Proof.
  induction l as [|a l IH]; intros n Hne Hc Hn; [done|]. simpl in Hc. breflect.
  destruct l as [|b l]; [by apply split_fuel_single|].
  destruct n as [|n]; [simpl in Hn; lia|]. change (str_join (a :: b :: l) (String c "")) with (a +:+ String c (str_join (b :: l) (String c ""))).
  rewrite split_fuel_cons by done. f_equal. apply IH; [done|done|simpl in *; lia].
Qed.

Lemma str_join_length c l : (List.length l <= S (String.length (str_join l (String c ""))))%nat.
Proof.
  induction l as [|a [|b l] IH]; [simpl; lia..|].
  change (str_join (a :: b :: l) (String c "")) with (a +:+ String c (str_join (b :: l) (String c ""))).
  rewrite str_length_app. cbn [List.length String.length] in *. lia.
Qed.

Lemma Split_join c l : l <> [] -> forallb (no_char c) l = true -> Split (str_join l (String c "")) (String c "") = l.
Proof. intros. apply split_join; [done..|apply str_join_length]. Qed.

(** The kind of a host never changes its text, unless it is an address. *)
Lemma host_identity_value ParseAddr h : ParseAddr h = None -> id_Value (host_identity ParseAddr h) = h.
Proof. unfold host_identity. intros ->. by destruct (HasPrefix _ _). Qed.

Lemma san_ids ParseAddr ids :
  ids <> [] -> (forall id, In id ids -> no_char "," id = true /\ ParseAddr id = None) ->
  len (ext_Value (BuildSubjectAltNameExtension ParseAddr (str_join ids ","))) < two31 ->
  ExtractIDs [BuildSubjectAltNameExtension ParseAddr (str_join ids ",")] = Some ids.
Proof.
  intros Hne Hids Hl. unfold BuildSubjectAltNameExtension in *.
  rewrite Split_join in * by (done || (apply forallb_forall; intros; by apply Hids)).
  set (l := map _ ids) in *. unfold ExtractIDs, ExtractSANExtension. cbn [List.find].
  rewrite bool_decide_true by done. rewrite ExtractIDsFromSAN_BuildSANExtension by done.
  unfold l. simpl. f_equal. rewrite map_map. rewrite <- (map_id ids) at 2. apply map_ext_in.
  intros a Ha. by apply host_identity_value, Hids.
Qed.

(** ** Properties *)

(** C37 The identities put in a certificate are the identities read from it:
    the SAN extension built for a list of names, joined by commas as the signer
    joins them, is read back as exactly these names in order, when no name
    contains a comma or is an address and the extension stays below the two
    gigabytes the reader accepts. *)
Theorem san_roundtrip ParseAddr ids :
  let ext := BuildSubjectAltNameExtension ParseAddr (str_join ids ",") in
  ids <> [] -> (forall id, In id ids -> no_char "," id = true /\ ParseAddr id = None) -> len (ext_Value ext) < two31 ->
  ExtractIDs [ext] = Some ids.
Proof.
  intros ext. apply san_ids.
Qed.

Lemma san_roundtrip_witness :
  ExtractIDs [BuildSubjectAltNameExtension (fun _ => None) (str_join ["spiffe://cluster.local/ns/a/sa/b"; "b.a.svc"] ",")]
  = Some ["spiffe://cluster.local/ns/a/sa/b"; "b.a.svc"].
Proof.
  apply (san_roundtrip (fun _ => None)); [done| |by vm_compute].
  intros id Hid. simpl in Hid. destruct Hid as [<-|[<-|[]]]; split; by vm_compute.
Defined.

(** An identity with a comma becomes several identities of the certificate. *)
Example comma_splits_identity :
  ExtractIDs [BuildSubjectAltNameExtension (fun _ => None) (str_join ["spiffe://td/ns/a/sa/x,spiffe://td/ns/b/sa/y"] ",")]
  = Some ["spiffe://td/ns/a/sa/x"; "spiffe://td/ns/b/sa/y"].
Proof. by vm_compute. Qed.

(** An address is written as its bytes and read back as raw bytes, not as text. *)
Example address_reads_as_bytes :
  ExtractIDs [BuildSubjectAltNameExtension (fun h => if String.eqb h "10.0.0.1" then Some (String (byte 10) (String (byte 0) (String (byte 0) (String (byte 1) "")))) else None) "10.0.0.1"]
  = Some [String (byte 10) (String (byte 0) (String (byte 0) (String (byte 1) "")))].
Proof. by vm_compute. Qed.

(** Bytes after the sequence, a value that runs over its end, and another
    extension are errors. *)
Example malformed_extensions :
  let e v := mkExtension OidSubjectAlternativeName true v in
  let dns := tlv ClassContextSpecific 2 false "a" in
  ExtractIDsFromSAN (e (tlv ClassUniversal TagSequence true dns +:+ "x")) = None /\
  ExtractIDsFromSAN (e (tlv ClassUniversal TagSequence true (str_take 2 dns))) = None /\
  ExtractIDsFromSAN (e dns) = None /\
  ExtractIDsFromSAN (mkExtension [2; 5; 29; 15] true (tlv ClassUniversal TagSequence true dns)) = None.
Proof. by vm_compute. Qed.
