(* ===== verification/PkiUtil.v ===== *)
(** * Keys, certificates and bundles of the certificate authority

    [dubbod/security/pkg/pki/util]: [crypto.go], [generate_cert.go],
    [generate_csr.go], [dual_use.go] and [keycertbundle.go].  The cryptography and
    the PEM and DER codecs of the standard library are the fields of [Crypto];
    what a call sees of the clock, of random numbers and of files is a [World]. *)

From S2P Require Import Prelude GoStrings GoNet Spiffe SecretCache SubjectAltNames.

(** ** Keys and certificates *)

Inductive Curve : Type := P256 | P384 | OtherCurve.

(** A key pair is known by a number. *)
Inductive PrivateKey : Type :=
  | RSAPrivateKey (bits id : Z) | ECDSAPrivateKey (c : Curve) (id : Z) | Ed25519PrivateKey (id : Z) | OtherPrivateKey (id : Z).
Inductive PublicKey : Type :=
  | RSAPublicKey (bits id : Z) | ECDSAPublicKey (c : Curve) (id : Z) | Ed25519PublicKey (id : Z).

Record Name : Type := mkName { Organization : list string; CommonName : string }.

Definition KeyUsageDigitalSignature : Z := 1.
Definition KeyUsageKeyEncipherment : Z := 4.
Definition KeyUsageCertSign : Z := 32.
Definition ExtKeyUsageServerAuth : Z := 1.
Definition ExtKeyUsageClientAuth : Z := 2.

(** The fields of an [x509.Certificate] that are set or read. *)
Record Certificate : Type := mkCertificate {
  SerialNumber : Z; Subject : Name; Issuer : Name; NotBefore : Time; NotAfter : Time; KeyUsage : Z; ExtKeyUsage : list Z;
  IsCA : bool; BasicConstraintsValid : bool; ExtraExtensions : list Extension; DNSNames : list string;
  Extensions : list Extension; cert_PublicKey : option PublicKey
}.
Record CertificateRequest : Type := mkCSR {
  csr_Subject : Name; csr_PublicKey : option PublicKey; csr_ExtraExtensions : list Extension; csr_Extensions : list Extension;
  csr_URIs : list string; csr_EmailAddresses : list string; csr_IPAddresses : list string; csr_DNSNames : list string
}.

#[global] Instance Curve_eq_dec : EqDecision Curve.
Proof. solve_decision. Defined.
#[global] Instance PrivateKey_eq_dec : EqDecision PrivateKey.
Proof. solve_decision. Defined.
#[global] Instance PublicKey_eq_dec : EqDecision PublicKey.
Proof. solve_decision. Defined.
#[global] Instance Name_eq_dec : EqDecision Name.
Proof. solve_decision. Defined.
#[global] Instance Extension_eq_dec : EqDecision Extension.
Proof. solve_decision. Defined.
#[global] Instance Certificate_eq_dec : EqDecision Certificate.
Proof. solve_decision. Defined.

Record Block : Type := mkBlock { block_Type : string; block_Bytes : string }.

(** The functions of [encoding/pem], [crypto/x509], [crypto/tls] and [net/netip]
    the package calls.  [VerifyCert] is [Certificate.Verify] with the pools of two PEM
    texts, roots and intermediates, at a time. *)
Record Crypto : Type := mkCrypto {
  pem_Decode : string -> option (Block * string);
  EncodeToMemory : Block -> string;
  ParseCertificate : string -> res Certificate;
  ParseCertificateRequest : string -> res CertificateRequest;
  CheckSignature : CertificateRequest -> bool;
  ParseECPrivateKey : string -> res PrivateKey;
  ParsePKCS1PrivateKey : string -> res PrivateKey;
  ParsePKCS8PrivateKey : string -> res PrivateKey;
  MarshalECPrivateKey : PrivateKey -> res string;
  MarshalPKCS1PrivateKey : PrivateKey -> string;
  MarshalPKCS8PrivateKey : PrivateKey -> res string;
  CreateCert : Certificate -> option Certificate -> option PublicKey -> option PrivateKey -> res string;
  CreateCertificateRequest : CertificateRequest -> option PrivateKey -> res string;
  VerifyCert : Certificate -> string -> string -> Time -> bool;
  X509KeyPair : string -> string -> bool;
  ParseRevocationList : string -> res string;
  CheckSignatureFrom : string -> Certificate -> bool;
  Subject_String : Name -> string;
  ParseAddr : string -> option string
}.

Inductive KeyAlg : Type := GenRSA (bits : Z) | GenEC (c : Curve).
Inductive FileRead : Type := FileContent (bytes : string) | FileNotExist | FileError (msg : string).

Record World : Type := mkWorld {
  Now : Time;
  rand_Int : res Z;                        (** below 2^128 *)
  GenerateKey : KeyAlg -> res PrivateKey;
  ReadFile : string -> FileRead
}.

Definition read (w : World) (path : string) : res string :=
  match ReadFile w path with
  | FileContent b => Ok b
  | FileNotExist => Err (mk_error Unknown ("open " +:+ path +:+ ": no such file or directory"))
  | FileError msg => Err (mk_error Unknown msg)
  end.

Notation errorf msg := (Err (mk_error Unknown msg)).
(** The error of a call under the message of its caller. *)
Definition wrap_err {A} (msg : string) (r : res A) : res A :=
  match r with Err e => errorf (msg +:+ " (" +:+ err_msg e +:+ ")") | _ => r end.
Definition constant_err {A} (msg : string) (r : res A) : res A := match r with Err _ => errorf msg | _ => r end.

Definition publicKey (priv : PrivateKey) : option PublicKey :=
  match priv with
  | RSAPrivateKey bits id => Some (RSAPublicKey bits id)
  | ECDSAPrivateKey c id => Some (ECDSAPublicKey c id)
  | Ed25519PrivateKey id => Some (Ed25519PublicKey id)
  | OtherPrivateKey _ => None
  end.

Record CertOptions : Type := mkCertOptions {
  Host : string; opt_NotBefore : Time; TTL : Z; SignerCert : option Certificate; SignerPriv : option PrivateKey;
  SignerPrivPem : string; Org : string; RSAKeySize : Z; opt_IsCA : bool; IsSelfSigned : bool; IsClient : bool; IsServer : bool;
  IsDualUse : bool; PKCS8Key : bool; ECSigAlg : string; ECCCurve : string; opt_DNSNames : string
}.
Definition EcdsaSigAlg : string := "ECDSA".
Definition P256Curve : string := "P256".
Definition P384Curve : string := "P384".
Definition MinimumRsaKeySize : Z := 2048.
Definition zero_options : CertOptions := mkCertOptions "" 0 0 None None "" "" 0 false false false false false false "" "" "".

Definition blockTypeECPrivateKey : string := "EC PRIVATE KEY".
Definition blockTypeRSAPrivateKey : string := "RSA PRIVATE KEY".
Definition blockTypePKCS8PrivateKey : string := "PRIVATE KEY".

(** [strings.SplitN(host, ",", 2)[0]] is the text before the first comma. *)
Definition DualUseCommonName (host : string) : res string :=
  let first := match cut_at host "," with Some (b, _) => b | None => host end in
  if (64 <? String.length first)%nat then errorf ("certificate CN upper bound exceeded: " +:+ first) else Ok first.

Section util.
Context (cr : Crypto).

(** ** [crypto.go] *)

Definition ParsePemEncodedCertificate (certBytes : string) : res Certificate :=
  match pem_Decode cr certBytes with
  | None => errorf "invalid PEM encoded certificate"
  | Some (cb, _) => constant_err "failed to parse X.509 certificate" (ParseCertificate cr (block_Bytes cb))
  end.

Definition ParsePemEncodedCSR (csrBytes : string) : res CertificateRequest :=
  match pem_Decode cr csrBytes with
  | None => errorf "certificate signing request is not properly encoded"
  | Some (b, _) =>
      constant_err "failed to parse X.509 certificate signing request" (ParseCertificateRequest cr (block_Bytes b))
  end.

Definition ParsePemEncodedKey (keyBytes : string) : res PrivateKey :=
  match pem_Decode cr keyBytes with
  | None => errorf "invalid PEM-encoded key"
  | Some (kb, _) =>
      if String.eqb (block_Type kb) blockTypeECPrivateKey then
        wrap_err "failed to parse the ECDSA private key" (ParseECPrivateKey cr (block_Bytes kb))
      else if String.eqb (block_Type kb) blockTypeRSAPrivateKey then
        wrap_err "failed to parse the RSA private key" (ParsePKCS1PrivateKey cr (block_Bytes kb))
      else if String.eqb (block_Type kb) blockTypePKCS8PrivateKey then
        wrap_err "failed to parse the PKCS8 private key" (ParsePKCS8PrivateKey cr (block_Bytes kb))
      else errorf ("unsupported PEM block type for a private key: " +:+ block_Type kb)
  end.

Definition GetRSAKeySize (k : PrivateKey) : res Z :=
  match k with RSAPrivateKey bits _ => Ok bits | _ => errorf "key type is not RSA" end.

(** The key is behind a pointer. *)
Definition GetEllipticCurve (k : option (option PrivateKey)) : res Curve :=
  match k with
  | None => Panic "invalid memory address or nil pointer dereference"
  | Some (Some (ECDSAPrivateKey P384 _)) => Ok P384
  | Some (Some (ECDSAPrivateKey _ _)) => Ok P256
  | Some _ => errorf "private key is not ECDSA based"
  end.

(** ** [generate_cert.go] and [generate_csr.go] *)

Definition ClockSkewGracePeriod : Z := 120 * 1000000000.

Definition genSerialNum (w : World) : res Z := wrap_err "serial number generation failure" (rand_Int w).

Definition common_name (host : string) : string := from_ok "" (DualUseCommonName host).

Definition genCertTemplateFromCSR (w : World) (csr : CertificateRequest) (subjectIDs : list string) (ttl : Z) (isCA : bool)
    : res Certificate :=
  let subjectIDsInString := str_join subjectIDs "," in
  let keyUsage := if isCA then KeyUsageCertSign else Z.lor KeyUsageDigitalSignature KeyUsageKeyEncipherment in
  let extKeyUsages := if isCA then [] else [ExtKeyUsageServerAuth; ExtKeyUsageClientAuth] in
  let exts := [BuildSubjectAltNameExtension (ParseAddr cr) subjectIDsInString] in
  let cn := if negb (String.eqb (CommonName (csr_Subject csr)) "") then common_name subjectIDsInString else "" in
  serialNum ← genSerialNum w;
  Ok (mkCertificate serialNum (mkName [] cn) (mkName [] "") (Now w - ClockSkewGracePeriod) (Now w + ttl) keyUsage extKeyUsages
        isCA true exts [] [] None).

Definition genCertTemplateFromOptions (w : World) (options : CertOptions) : res Certificate :=
  let keyUsage := if opt_IsCA options then KeyUsageCertSign else Z.lor KeyUsageDigitalSignature KeyUsageKeyEncipherment in
  let extKeyUsages := (if IsServer options then [ExtKeyUsageServerAuth] else []) ++
                      (if IsClient options then [ExtKeyUsageClientAuth] else []) in
  let notBefore := if opt_NotBefore options =? time_zero then Now w else opt_NotBefore options in
  serialNum ← genSerialNum w;
  let h := Host options in
  let exts := if String.eqb h "" then [] else [BuildSubjectAltNameExtension (ParseAddr cr) h] in
  let cn := if negb (String.eqb h "") && IsDualUse options then common_name h else "" in
  let dnsNames := Split (opt_DNSNames options) "," in
  let dnsNames := match dnsNames with "" :: _ => [] | _ => dnsNames end in
  Ok (mkCertificate serialNum (mkName [Org options] cn) (mkName [] "") notBefore (notBefore + TTL options) keyUsage extKeyUsages
        (opt_IsCA options) true exts dnsNames [] None).

Definition encodePem (isCSR : bool) (csrOrCert : string) (priv : PrivateKey) (pkcs8 : bool) : res (string * string) :=
  let pem := EncodeToMemory cr (mkBlock (if isCSR then "CERTIFICATE REQUEST" else "CERTIFICATE") csrOrCert) in
  if pkcs8 then
    encodedKey ← MarshalPKCS8PrivateKey cr priv;
    Ok (pem, EncodeToMemory cr (mkBlock blockTypePKCS8PrivateKey encodedKey))
  else
    match priv with
    | RSAPrivateKey _ _ => Ok (pem, EncodeToMemory cr (mkBlock blockTypeRSAPrivateKey (MarshalPKCS1PrivateKey cr priv)))
    | ECDSAPrivateKey _ _ =>
        encodedKey ← MarshalECPrivateKey cr priv;
        Ok (pem, EncodeToMemory cr (mkBlock blockTypeECPrivateKey encodedKey))
    | _ => Ok (pem, "")
    end.

Definition genCert (w : World) (options : CertOptions) (priv : PrivateKey) : res (string * string) :=
  template ← wrap_err "cert generation fails at cert template creation" (genCertTemplateFromOptions w options);
  let signerCert := if IsSelfSigned options then Some template else SignerCert options in
  let signerKey := if IsSelfSigned options then Some priv else SignerPriv options in
  certBytes ← wrap_err "cert generation fails at X509 cert creation"
                (CreateCert cr template signerCert (publicKey priv) signerKey);
  encodePem false certBytes priv (PKCS8Key options).

(** The key both generators make for the options; the messages differ. *)
Definition generate_key (w : World) (options : CertOptions) (ec_msg rsa_msg unsupported : string) : res PrivateKey :=
  if negb (String.eqb (ECSigAlg options) "") then
    if String.eqb (ECSigAlg options) EcdsaSigAlg then
      wrap_err ec_msg (GenerateKey w (GenEC (if String.eqb (ECCCurve options) P384Curve then P384 else P256)))
    else errorf unsupported
  else if RSAKeySize options <? MinimumRsaKeySize then errorf "requested key size does not meet the minimum required size"
  else wrap_err rsa_msg (GenerateKey w (GenRSA (RSAKeySize options))).

Definition GenCertKeyFromOptions (w : World) (options : CertOptions) : res (string * string) :=
  priv ← generate_key w options "cert generation fails at EC key generation" "cert generation fails at RSA key generation"
           "cert generation fails due to unsupported EC signature algorithm";
  genCert w options priv.

Definition GenRootCertFromExistingKey (w : World) (options : CertOptions) : res (string * string) :=
  if negb (IsSelfSigned options) || String.eqb (SignerPrivPem options) "" then
    errorf "skip cert generation. Citadel is not in self-signed mode or CA private key is not available"
  else
    template ← wrap_err "cert generation fails at cert template creation" (genCertTemplateFromOptions w options);
    caPrivateKey ← wrap_err "unrecogniazed CA private key, skip root cert rotation" (ParsePemEncodedKey (SignerPrivPem options));
    certBytes ← wrap_err "cert generation fails at X509 cert creation"
                  (CreateCert cr template (Some template) (publicKey caPrivateKey) (Some caPrivateKey));
    Ok (EncodeToMemory cr (mkBlock "CERTIFICATE" certBytes), SignerPrivPem options).

Definition with_Org (o : CertOptions) (org : string) : CertOptions :=
  mkCertOptions (Host o) (opt_NotBefore o) (TTL o) (SignerCert o) (SignerPriv o) (SignerPrivPem o) org (RSAKeySize o) (opt_IsCA o)
    (IsSelfSigned o) (IsClient o) (IsServer o) (IsDualUse o) (PKCS8Key o) (ECSigAlg o) (ECCCurve o) (opt_DNSNames o).

Definition GetCertOptionsFromExistingCert (certBytes : string) : res CertOptions :=
  cert ← ParsePemEncodedCertificate certBytes;
  Ok (match Organization (Subject cert) with org :: _ => with_Org zero_options org | [] => zero_options end).

Definition MergeCertOptions (defaultOpts deltaOpts : CertOptions) : CertOptions :=
  if String.eqb (Org deltaOpts) "" then defaultOpts else with_Org defaultOpts (Org deltaOpts).

Definition GenCertFromCSR (w : World) (csr : CertificateRequest) (signingCert : Certificate) (pub : option PublicKey)
    (signingKey : option PrivateKey) (subjectIDs : list string) (ttl : Z) (isCA : bool) : res string :=
  tmpl ← genCertTemplateFromCSR w csr subjectIDs ttl isCA;
  CreateCert cr tmpl (Some signingCert) pub signingKey.

Definition LoadSignerCredsFromFiles (w : World) (signerCertFile signerPrivFile : string) : res (Certificate * PrivateKey) :=
  signerCertBytes ← wrap_err "certificate file reading failure" (read w signerCertFile);
  signerPrivBytes ← wrap_err "private key file reading failure" (read w signerPrivFile);
  cert ← wrap_err "pem encoded cert parsing failure" (ParsePemEncodedCertificate signerCertBytes);
  key ← wrap_err "pem encoded key parsing failure" (ParsePemEncodedKey signerPrivBytes);
  Ok (cert, key).

Definition GenCSRTemplate (options : CertOptions) : CertificateRequest :=
  let h := Host options in
  if String.eqb h "" then mkCSR (mkName [Org options] "") None [] [] [] [] [] []
  else mkCSR (mkName [Org options] (if IsDualUse options then common_name h else "")) None
         [BuildSubjectAltNameExtension (ParseAddr cr) h] [] [] [] [] [].

Definition GenCSR (w : World) (options : CertOptions) : res (string * string) :=
  priv ← generate_key w options "EC key generation failed" "RSA key generation failed"
           "csr cert generation fails due to unsupported EC signature algorithm";
  csrBytes ← wrap_err "CSR creation failed" (CreateCertificateRequest cr (GenCSRTemplate options) (Some priv));
  encodePem true csrBytes priv (PKCS8Key options).

Definition AppendRootCerts (w : World) (pemCert rootCertFile : string) : res string :=
  if String.eqb rootCertFile "" then Ok pemCert else
  match ReadFile w rootCertFile with
  | FileContent certBytes => Ok (AppendCertByte pemCert certBytes)
  | FileNotExist => Ok (AppendCertByte pemCert "")
  | FileError msg => errorf ("failed to read root certificates (" +:+ msg +:+ ")")
  end.

(** ** [keycertbundle.go] *)

(** [privKey] is a pointer to an interface; both may be nil. *)
Record KeyCertBundle : Type := mkBundle {
  certBytes : string; cert : option Certificate; privKeyBytes : string; privKey : option (option PrivateKey);
  certChainBytes : string; rootCertBytes : string; crlBytes : string
}.
Definition empty_bundle : KeyCertBundle := mkBundle "" None "" None "" "" "".

Definition ok_opt {A} (r : res A) : option A := match r with Ok a => Some a | _ => None end.

Definition setAllFromPem (b : KeyCertBundle) (certB privKeyB certChainB rootCertB crlB : string) : KeyCertBundle :=
  mkBundle certB (ok_opt (ParsePemEncodedCertificate certB)) privKeyB (Some (ok_opt (ParsePemEncodedKey privKeyB)))
    certChainB rootCertB (if String.eqb crlB "" then crlBytes b else crlB).

(** The certificates, or the revocation lists, of a PEM text. *)
Fixpoint pem_all {A} (parse : string -> res A) (msg : string) (fuel : nat) (bytes : string) : res (list A) :=
  match fuel with
  | O => Ok []
  | S fuel =>
      match pem_Decode cr bytes with
      | None => Ok []
      | Some (b, remaining) =>
          match parse (block_Bytes b) with
          | Err e => errorf (msg +:+ ": " +:+ err_msg e)
          | Panic why => Panic why
          | Ok a => (cons a) <$> pem_all parse msg fuel remaining
          end
      end
  end.

(** The signers without a list they signed. *)
Definition missing_crls (signers : list Certificate) (crls : list string) : gmap string Certificate :=
  let missing : gmap string Certificate := fold_left (fun m s => <[Subject_String cr (Subject s) := s]> m) signers ∅ in
  fold_left (fun m crl => filter (fun kv => CheckSignatureFrom cr crl kv.2 = false) m) crls missing.

Definition Verify (w : World) (certB privKeyB certChainB rootCertB crl : string) : res unit :=
  cert ← wrap_err "failed to parse cert PEM" (ParsePemEncodedCertificate certB);
  if negb (VerifyCert cr cert rootCertB certChainB (Now w)) then
    errorf "cannot verify the cert with the provided root chain and cert pool"
  else
  _ ← wrap_err "failed to parse private key PEM" (ParsePemEncodedKey privKeyB);
  if negb (X509KeyPair cr certB privKeyB) then errorf "the cert does not match the key" else
  if String.eqb crl "" then Ok tt else
  signers ← pem_all (ParseCertificate cr) "failed to parse cert chain" (S (String.length certChainB)) certChainB;
  parsedCRLs ← pem_all (ParseRevocationList cr) "failed to parse CRL PEM" (S (String.length crl)) crl;
  if bool_decide (missing_crls signers parsedCRLs = ∅) then Ok tt else errorf "missing CRL signed by certificates".

Definition VerifyAndSetAll (w : World) (b : KeyCertBundle) (certB privKeyB certChainB rootCertB crlB : string) : res KeyCertBundle :=
  _ ← Verify w certB privKeyB certChainB rootCertB crlB;
  Ok (setAllFromPem b certB privKeyB certChainB rootCertB crlB).

Definition NewKeyCertBundleFromPem (certB privKeyB certChainB rootCertB crlB : string) : KeyCertBundle :=
  setAllFromPem empty_bundle certB privKeyB certChainB rootCertB crlB.
Definition NewVerifiedKeyCertBundleFromPem (w : World) (certB privKeyB certChainB rootCertB crlB : string) : res KeyCertBundle :=
  VerifyAndSetAll w empty_bundle certB privKeyB certChainB rootCertB crlB.

Fixpoint read_all (w : World) (files : list string) : res string :=
  match files with
  | [] => Ok ""
  | f :: fs => b ← read w f; rest ← read_all w fs; Ok (b +:+ rest)
  end.
Definition gerCRLBytesFromFile (w : World) (crlFile : string) : res string :=
  if String.eqb crlFile "" then Ok "" else read w crlFile.

Definition UpdateVerifiedKeyCertBundleFromFile (w : World) (b : KeyCertBundle) (certFile privKeyFile : string)
    (certChainFiles : list string) (rootCertFile crlFile : string) : res KeyCertBundle :=
  certB ← read w certFile;
  privKeyB ← read w privKeyFile;
  certChainB ← read_all w certChainFiles;
  rootCertB ← read w rootCertFile;
  crlB ← gerCRLBytesFromFile w crlFile;
  VerifyAndSetAll w b certB privKeyB certChainB rootCertB crlB.

Definition NewVerifiedKeyCertBundleFromFile (w : World) (certFile privKeyFile : string) (certChainFiles : list string)
    (rootCertFile crlFile : string) : res KeyCertBundle :=
  certB ← read w certFile;
  privKeyB ← read w privKeyFile;
  certChainB ← read_all w certChainFiles;
  rootCertB ← read w rootCertFile;
  crlB ← gerCRLBytesFromFile w crlFile;
  NewVerifiedKeyCertBundleFromPem w certB privKeyB certChainB rootCertB crlB.

Definition NewKeyCertBundleWithRootCertFromFile (w : World) (rootCertFile : string) : res KeyCertBundle :=
  rootCertB ← (if String.eqb rootCertFile "" then Ok "" else read w rootCertFile);
  Ok (mkBundle "" None "" None "" rootCertB "").

(** The configuration of the certificate of a bundle; the certificate and the
    organization of its issuer are read without a check. *)
Definition bundle_CertOptions (b : KeyCertBundle) : res CertOptions :=
  match cert b with
  | None => Panic "invalid memory address or nil pointer dereference"
  | Some c =>
      match ExtractIDs (Extensions c) with
      | None => errorf "failed to extract id"
      | Some [id] =>
          match Organization (Issuer c) with
          | [] => Panic "index out of range"
          | org :: _ =>
              let opts size alg := mkCertOptions id 0 (Sub (NotAfter c) (NotBefore c)) None None "" org size (IsCA c) false false false
                (String.eqb id (CommonName (Subject c))) false alg "" "" in
              match privKey b with
              | None => Panic "invalid memory address or nil pointer dereference"
              | Some (Some (RSAPrivateKey bits _)) => Ok (opts bits "")
              | Some (Some (ECDSAPrivateKey _ _)) => Ok (opts 0 EcdsaSigAlg)
              | Some _ => errorf "unknown private key type"
              end
          end
      | Some _ => errorf "expect single id from the cert"
      end
  end.

Definition extractCertExpiryTimestamp (certType certPem : string) : res Time :=
  cert ← wrap_err ("failed to parse the " +:+ certType) (ParsePemEncodedCertificate certPem);
  Ok (NotAfter cert).
Definition ExtractRootCertExpiryTimestamp (b : KeyCertBundle) : res Time := extractCertExpiryTimestamp "root cert" (rootCertBytes b).
Definition ExtractCACertExpiryTimestamp (b : KeyCertBundle) : res Time := extractCertExpiryTimestamp "CA cert" (certChainBytes b).

Definition TimeBeforeCertExpires (certB : string) (now : Time) : res Z :=
  if String.eqb certB "" then errorf "no certificate found" else
  expiry ← wrap_err "failed to extract cert expiration timestamp" (extractCertExpiryTimestamp "cert" certB);
  Ok (Sub expiry now).

(** ** Lemmas *)

Lemma wrap_err_ok {A} msg (r : res A) a : wrap_err msg r = Ok a -> r = Ok a.
Proof. by destruct r. Qed.
Lemma constant_err_ok {A} msg (r : res A) a : constant_err msg r = Ok a -> r = Ok a.
Proof. by destruct r. Qed.

(** A bundle that is set was verified: its certificate and its key parse and match,
    and the certificate is verified from the roots at this time. *)
Lemma VerifyAndSetAll_ok w b certB privKeyB certChainB rootCertB crlB b' :
  VerifyAndSetAll w b certB privKeyB certChainB rootCertB crlB = Ok b' ->
  exists c k, cert b' = Some c /\ privKey b' = Some (Some k) /\ ParsePemEncodedCertificate (certBytes b') = Ok c /\
    ParsePemEncodedKey (privKeyBytes b') = Ok k /\ X509KeyPair cr certB privKeyB = true /\
    VerifyCert cr c rootCertB certChainB (Now w) = true /\
    certBytes b' = certB /\ privKeyBytes b' = privKeyB /\ certChainBytes b' = certChainB /\ rootCertBytes b' = rootCertB.
Proof.
  unfold VerifyAndSetAll. rewrite res_bind_ok. intros (? & Hv & [= <-]). unfold Verify in Hv.
  apply res_bind_ok in Hv as (c & Hc%wrap_err_ok & Hv). destruct (VerifyCert _ _ _ _ _) eqn:Ev; [|done]. cbn [negb] in Hv.
  apply res_bind_ok in Hv as (k & Hk%wrap_err_ok & Hv). destruct (X509KeyPair _ _ _) eqn:Ek; [|done].
  exists c, k. unfold setAllFromPem. simpl. rewrite Hc, Hk. by repeat split.
Qed.

(** The files of a plugged CA and its update read the same. *)
Lemma NewVerified_is_update w certFile privKeyFile certChainFiles rootCertFile crlFile :
  NewVerifiedKeyCertBundleFromFile w certFile privKeyFile certChainFiles rootCertFile crlFile
  = UpdateVerifiedKeyCertBundleFromFile w empty_bundle certFile privKeyFile certChainFiles rootCertFile crlFile.
Proof. reflexivity. Qed.

(** An update without a revocation list keeps the one of the bundle, and a failed
    update keeps all of it. *)
Lemma update_keeps_crl w b certB privKeyB certChainB rootCertB b' :
  VerifyAndSetAll w b certB privKeyB certChainB rootCertB "" = Ok b' -> crlBytes b' = crlBytes b.
Proof. unfold VerifyAndSetAll. rewrite res_bind_ok. by intros (? & _ & [= <-]). Qed.

End util.
