(* ===== verification/CertAuthority.v ===== *)
(** * The certificate authority

    [dubbod/security/pkg/pki/ca/ca.go] and [selfsignedcarootcertrotator.go] (the
    authority and where its key comes from), [pki/error/error.go],
    [server/ca/server.go] (the certificate service) and
    [server/ca/authenticate/cert_authenticator.go] (callers with a client
    certificate). *)

From S2P Require Import Prelude GoStrings GoNet Spiffe SecretCache SubjectAltNames PkiUtil.
From Stdlib Require Import SpecFloat.

(** ** Errors *)

Inductive ErrType : Type := CANotReady | CSRError | TTLError | CertGenError | CAIllegalConfig | CAInitFail.
Record CAError : Type := mkCAError { ce_t : ErrType; ce_err : gerror }.

Definition ErrorType (e : CAError) : string :=
  match ce_t e with
  | CANotReady => "CA_NOT_READY" | CSRError => "CSR_ERROR" | TTLError => "TTL_ERROR" | CertGenError => "CERT_GEN_ERROR"
  | _ => "UNKNOWN"
  end.
Definition HTTPErrorCode (e : CAError) : grpc_code :=
  match ce_t e with CANotReady | CertGenError => Internal | CSRError | TTLError => InvalidArgument | _ => Internal end.

(** What signing may end with besides a certificate. *)
Inductive SignError : Type := SignCA (e : CAError) | SignOther (e : gerror) | SignPanic (why : string).
Definition newError {A} (t : ErrType) (e : gerror) : SignError + A := inl (SignCA (mkCAError t e)).
Definition of_res {A} (t : ErrType) (r : res A) : SignError + A :=
  match r with Ok a => inr a | Err e => newError t e | Panic why => inl (SignPanic why) end.
Definition then_ {A B} (m : SignError + A) (f : A -> SignError + B) : SignError + B :=
  match m with inl e => inl e | inr a => f a end.
Notation "'try' x := m 'in' k" := (then_ m (fun x => k)) (at level 200, x name, right associativity).

(** [Duration.Seconds] *)
Definition Seconds (d : Z) : spec_float :=
  SFadd 53 1024 (float64 (Z.quot d 1000000000)) (SFdiv 53 1024 (float64 (Z.rem d 1000000000)) (float64 1000000000)).

(** ** The authority *)

Record CertOpts : Type := mkCertOpts { SubjectIDs : list string; co_TTL : Z; ForCA : bool; co_CertSigner : string }.

Record RotatorConfig : Type := mkRotatorConfig {
  caStorageNamespace : string; rot_org : string; rot_rootCertFile : string; secretName : string; CheckInterval : Z; caCertTTL : Z;
  dualUse : bool; enableJitter : bool
}.
Record Rotator : Type := mkRotator { rot_config : RotatorConfig; backOffTime : Z }.

Inductive caTypes : Type := selfSignedCA | pluggedCertCA.
Record DubboCAOptions : Type := mkCAOptions {
  CAType : caTypes; DefaultCertTTL : Z; MaxCertTTL : Z; CARSAKeySize : Z; opt_KeyCertBundle : option KeyCertBundle;
  opt_RotatorConfig : option RotatorConfig
}.
Record DubboCA : Type := mkCA {
  defaultCertTTL : Z; maxCertTTL : Z; caRSAKeySize : Z; keyCertBundle : KeyCertBundle; rootCertRotator : option Rotator
}.

(** [NewSelfSignedCARootCertRotator]: the jitter is a random number below the interval,
    in whole seconds. *)
Definition NewSelfSignedCARootCertRotator (Int63n : Z -> Z) (config : RotatorConfig) : Rotator :=
  mkRotator config (if enableJitter config then whole_seconds (Int63n (CheckInterval config)) * 1000000000 else 0).

Section ca.
Context (cr : Crypto).

Definition minTTL (w : World) (b : KeyCertBundle) (defaultTTL : Z) : res Z :=
  if String.eqb (certChainBytes b) "" then Ok defaultTTL else
  certChainExpiration ← wrap_err "failed to get cert chain TTL" (TimeBeforeCertExpires cr (certChainBytes b) (Now w));
  if certChainExpiration <=? 0 then errorf "cert chain has expired"
  else Ok (if certChainExpiration <? defaultTTL then certChainExpiration else defaultTTL).

(** [NewDubboCA] also returns the authority with the error; its callers drop it. *)
Definition NewDubboCA (w : World) (Int63n : Z -> Z) (opts : DubboCAOptions) (b : KeyCertBundle) : res DubboCA :=
  let rotator :=
    match CAType opts, opt_RotatorConfig opts with
    | selfSignedCA, Some config => if 0 <? CheckInterval config then Some (NewSelfSignedCARootCertRotator Int63n config) else None
    | _, _ => None
    end in
  ttl ← wrap_err "failed to get default cert TTL" (minTTL w b (DefaultCertTTL opts));
  Ok (mkCA ttl (MaxCertTTL opts) (CARSAKeySize opts) b rotator).

Definition sign (w : World) (ca : DubboCA) (csrPEM : string) (subjectIDs : list string) (requestedLifetime : Z)
    (checkLifetime forCA : bool) : SignError + string :=
  match cert (keyCertBundle ca) with
  | None => newError CANotReady (mk_error Unknown "Dubbo CA is not ready")
  | Some signingCert =>
      try csr := of_res CSRError (ParsePemEncodedCSR cr csrPEM) in
      if negb (CheckSignature cr csr) then newError CSRError (mk_error Unknown "x509: signature verification failed") else
      let lifetime := if SFleb (Seconds requestedLifetime) (float64 0) then defaultCertTTL ca else requestedLifetime in
      if checkLifetime && SFltb (Seconds (maxCertTTL ca)) (Seconds requestedLifetime) then
        newError TTLError (mk_error Unknown "requested TTL is greater than the max allowed TTL")
      else
      match privKey (keyCertBundle ca) with
      | None => inl (SignPanic "invalid memory address or nil pointer dereference")
      | Some signingKey =>
          try certB := of_res CertGenError
                         (GenCertFromCSR cr w csr signingCert (csr_PublicKey csr) signingKey subjectIDs lifetime forCA) in
          inr (EncodeToMemory cr (mkBlock "CERTIFICATE" certB))
      end
  end.

Definition signWithCertChain (w : World) (ca : DubboCA) (csrPEM : string) (subjectIDs : list string) (requestedLifetime : Z)
    (lifetimeCheck forCA : bool) : SignError + string :=
  try cert := sign w ca csrPEM subjectIDs requestedLifetime lifetimeCheck forCA in
  inr (cert +:+ certChainBytes (keyCertBundle ca)).

Definition Sign (w : World) (ca : DubboCA) (csrPEM : string) (o : CertOpts) : SignError + string :=
  sign w ca csrPEM (SubjectIDs o) (co_TTL o) true (ForCA o).
Definition SignWithCertChain (w : World) (ca : DubboCA) (csrPEM : string) (o : CertOpts) : SignError + list string :=
  try cert := signWithCertChain w ca csrPEM (SubjectIDs o) (co_TTL o) true (ForCA o) in inr [cert].

Definition rsaKeySize : Z := 2048.
(** [GenKeyCert]: a key of the kind the authority has, and a certificate for it. *)
Definition GenKeyCert (w : World) (ca : DubboCA) (hostnames : list string) (certTTL : Z) (checkLifetime : bool)
    : SignError + (string * string) :=
  let options alg curve := mkCertOptions "" 0 0 None None "" "" rsaKeySize false false false false false false alg curve "" in
  try opts := match GetEllipticCurve (privKey (keyCertBundle ca)) with
              | Panic why => inl (SignPanic why)
              | Ok P384 => inr (options EcdsaSigAlg P384Curve)
              | Ok _ => inr (options EcdsaSigAlg P256Curve)
              | Err _ => inr (options "" "")
              end in
  try csr := match GenCSR cr w opts with Ok p => inr p | Err e => inl (SignOther e) | Panic why => inl (SignPanic why) end in
  try certPEM := signWithCertChain w ca csr.1 hostnames certTTL checkLifetime false in
  inr (certPEM, csr.2).

(** ** The authority's own key *)

Definition CACertFile : string := "ca-cert.pem".
Definition CAPrivateKeyFile : string := "ca-key.pem".
Definition CertChainFile : string := "cert-chain.pem".
Definition PrivateKeyFile : string := "key.pem".
Definition RootCertFile : string := "root-cert.pem".
Definition CACertsSecret : string := "cacerts".
Definition CASecret : string := "dubbo-ca-secret".
Definition DubboGenerated : string := "dubbo-generated".

(** The secrets of the namespace, by name, and their data. *)
Notation Secrets := (gmap string (gmap string string)).
Definition data_of (d : gmap string string) (k : string) : string := default "" (d !! k).

Definition BuildSecret (scrtName certChain privateKey rootCert caCert caPrivateKey : string) : gmap string string :=
  let data : gmap string string :=
    {[ CertChainFile := certChain; PrivateKeyFile := privateKey; RootCertFile := rootCert; CACertFile := caCert;
       CAPrivateKeyFile := caPrivateKey ]} in
  if String.eqb scrtName CACertsSecret then <[DubboGenerated := ""]> data else data.

Inductive ApiError : Type := NotFound | AlreadyExists | MethodNotSupported | OtherApiError (msg : string).
Definition IsNotFound (e : ApiError) : bool := match e with NotFound => true | _ => false end.

(** What the API server does in one attempt: an answer instead of the secret, an answer
    instead of the creation, and what other replicas write in between. *)
Record Api : Type := mkApi {
  get_fault : string -> option ApiError; create_fault : option ApiError; others : Secrets -> Secrets
}.
Definition api_Get (api : Api) (st : Secrets) (name : string) : ApiError + gmap string string :=
  match get_fault api name with
  | Some e => inl e
  | None => match st !! name with Some d => inr d | None => inl NotFound end
  end.
Definition api_Create (api : Api) (st : Secrets) (name : string) (d : gmap string string) : Secrets * option ApiError :=
  match create_fault api with
  | Some e => (st, Some e)
  | None => match st !! name with Some _ => (st, Some AlreadyExists) | None => (<[name := d]> st, None) end
  end.

Definition api_err (e : gerror) : ApiError := OtherApiError (err_msg e).
Definition api_res {A} (r : res A) : ApiError + A :=
  match r with Ok a => inr a | Err e => inl (api_err e) | Panic why => inl (OtherApiError why) end.

(** [loadSelfSignedCaSecret]: the bundle of a secret; the bundle the options had
    stays when the secret is not read. *)
Definition loadSelfSignedCaSecret (w : World) (api : Api) (st : Secrets) (caCertName rootCertFile : string)
    : ApiError + KeyCertBundle :=
  match api_Get api st caCertName with
  | inl e => inl e
  | inr d =>
      match AppendRootCerts w (data_of d CACertFile) rootCertFile with
      | Err e => inl (OtherApiError ("failed to append root certificates (" +:+ err_msg e +:+ ")"))
      | Panic why => inl (OtherApiError why)
      | Ok rootCerts =>
          match NewVerifiedKeyCertBundleFromPem cr w (data_of d CACertFile) (data_of d CAPrivateKeyFile) "" rootCerts "" with
          | Err e => inl (OtherApiError ("failed to create CA KeyCertBundle (" +:+ err_msg e +:+ ")"))
          | Panic why => inl (OtherApiError why)
          | Ok b => inr b
          end
      end
  end.

(** The arguments of [NewSelfSignedDubboCAOptions] *)
Record SelfSigned : Type := mkSelfSigned {
  ss_caCertTTL : Z; rootCertCheckInverval : Z; ss_defaultCertTTL : Z; ss_maxCertTTL : Z; ss_org : string; useCacertsSecretName : bool;
  ss_dualUse : bool; ss_namespace : string; ss_rootCertFile : string; ss_enableJitter : bool; ss_caRSAKeySize : Z
}.

(** A new key and certificate, and the secret that keeps them. *)
Definition create_secret (w : World) (api : Api) (cfg : SelfSigned) (caCertName : string) (st : Secrets)
    : Secrets * (ApiError + KeyCertBundle) :=
  let options := mkCertOptions "" 0 (ss_caCertTTL cfg) None None "" (ss_org cfg) (ss_caRSAKeySize cfg) true true false false
                   (ss_dualUse cfg) false "" "" "" in
  match api_res (GenCertKeyFromOptions cr w options) with
  | inl e => (st, inl e)
  | inr (pemCert, pemKey) =>
      match api_res (rootCerts ← AppendRootCerts w pemCert (ss_rootCertFile cfg);
                     NewVerifiedKeyCertBundleFromPem cr w pemCert pemKey "" rootCerts "") with
      | inl e => (st, inl e)
      | inr b =>
          let secret := BuildSecret caCertName "" "" pemCert pemCert pemKey in
          match api_Create api (others api st) caCertName secret with
          | (st', None) => (st', inr b)
          | (st', Some MethodNotSupported) => (st', inr b)
          | (st', Some e) => (st', inl e)
          end
      end
  end.

(** One attempt of [NewSelfSignedDubboCAOptions]: the name of the secret, and the
    bundle or the error that has the attempt repeated. *)
Definition self_signed_attempt (w : World) (api : Api) (cfg : SelfSigned) (st : Secrets)
    : Secrets * string * (ApiError + KeyCertBundle) :=
  match loadSelfSignedCaSecret w api st CASecret (ss_rootCertFile cfg) with
  | inr b => (st, CASecret, inr b)
  | inl e =>
      if negb (IsNotFound e) then (st, CASecret, inl e) else
      if useCacertsSecretName cfg then
        match loadSelfSignedCaSecret w api st CACertsSecret (ss_rootCertFile cfg) with
        | inr b => (st, CACertsSecret, inr b)
        | inl e => if IsNotFound e then let '(st, r) := create_secret w api cfg CACertsSecret st in (st, CACertsSecret, r)
                   else (st, CACertsSecret, inl e)
        end
      else let '(st, r) := create_secret w api cfg CASecret st in (st, CASecret, r)
  end.

(** [RetryWithContext]: an attempt for each element, until one succeeds or the context
    ends.  Other replicas write between the attempts. *)
Fixpoint retry_attempts (attempts : list (World * Api)) (cfg : SelfSigned) (st : Secrets)
    : Secrets * string * (ApiError + KeyCertBundle) :=
  match attempts with
  | [] => (st, "", inl (OtherApiError "context deadline exceeded"))
  | (w, api) :: attempts =>
      let '(st, name, r) := self_signed_attempt w api cfg st in
      match r, attempts with
      | inl e, _ :: _ => retry_attempts attempts cfg (others api st)
      | _, _ => (st, name, r)
      end
  end.

(** The options, and the error with which no bundle is used. *)
Definition NewSelfSignedDubboCAOptions (attempts : list (World * Api)) (cfg : SelfSigned) (st : Secrets)
    : Secrets * DubboCAOptions * option ApiError :=
  let '(st, caCertName, r) := retry_attempts attempts cfg st in
  let rotator := mkRotatorConfig (ss_namespace cfg) (ss_org cfg) (ss_rootCertFile cfg) caCertName (rootCertCheckInverval cfg)
                   (ss_caCertTTL cfg) (ss_dualUse cfg) (ss_enableJitter cfg) in
  let opts b := mkCAOptions selfSignedCA (ss_defaultCertTTL cfg) (ss_maxCertTTL cfg) 0 b (Some rotator) in
  match r with
  | inr b => (st, opts (Some b), None)
  | inl e => (st, opts None, Some e)
  end.

Record SigningCAFileBundle : Type := mkFileBundle {
  fb_RootCertFile : string; CertChainFiles : list string; SigningCertFile : string; SigningKeyFile : string; CRLFile : string
}.
Definition NewPluggedCertDubboCAOptions (w : World) (f : SigningCAFileBundle) (defaultTTL maxTTL rsaSize : Z) : res DubboCAOptions :=
  b ← wrap_err "failed to create CA KeyCertBundle"
        (NewVerifiedKeyCertBundleFromFile cr w (SigningCertFile f) (SigningKeyFile f) (CertChainFiles f) (fb_RootCertFile f) (CRLFile f));
  text ← read w (SigningCertFile f);
  c ← ParsePemEncodedCertificate cr text;
  if IsCA c then Ok (mkCAOptions pluggedCertCA defaultTTL maxTTL rsaSize (Some b) None)
  else errorf "certificate is not authorized to sign other certificates".

Definition NewSelfSignedDebugDubboCAOptions (w : World) (rootCertFile : string) (caTTL defaultTTL maxTTL : Z) (org : string)
    (rsaSize : Z) : res DubboCAOptions :=
  let options := mkCertOptions "" 0 caTTL None None "" org rsaSize true true false false true false "" "" "" in
  pems ← wrap_err "unable to generate CA cert and key for self-signed CA" (GenCertKeyFromOptions cr w options);
  rootCerts ← wrap_err "failed to append root certificates" (AppendRootCerts w pems.1 rootCertFile);
  b ← wrap_err "failed to create CA KeyCertBundle" (NewVerifiedKeyCertBundleFromPem cr w pems.1 pems.2 "" rootCerts "");
  Ok (mkCAOptions selfSignedCA defaultTTL maxTTL rsaSize (Some b) None).

End ca.

(** ** The certificate service *)

(** Where a caller was authenticated, and as whom. *)
Record Caller : Type := mkCaller { AuthSource : Z; Identities : list string }.
Definition AuthSourceClientCertificate : Z := 0.

(** What the gRPC connection, or the HTTP request, tells of its peer: the kind of its
    credentials and, for TLS, the verified chains. *)
Record AuthInfo : Type := mkAuthInfo { AuthType : string; TLSInfo : option (list (list Certificate)) }.
Record AuthContext : Type := mkAuthContext {
  GrpcContext : option (option (option AuthInfo));       (** a context, its peer, its credentials *)
  HttpRequest : option (option (list (list Certificate))) (** a request, its verified chains *)
}.

Definition caller_of (c : Certificate) : res (option Caller) :=
  match ExtractIDs (Extensions c) with
  | None => errorf "failed to extract identities from SAN extension"
  | Some ids => Ok (Some (mkCaller AuthSourceClientCertificate ids))
  end.

Definition authenticateGrpc (w : World) (peer : option (option AuthInfo)) : res (option Caller) :=
  match peer with
  | None | Some None => errorf "no client certificate is presented"
  | Some (Some info) =>
      if negb (String.eqb (AuthType info) "tls") then errorf "unsupported auth type" else
      match TLSInfo info with
      | None => errorf "no verified TLS information is available"
      | Some ((leaf :: chain) :: _) =>
          if existsb (fun c => (Now w <? NotBefore c) || negb (Now w <? NotAfter c)) (leaf :: chain) then
            errorf "client certificate chain is outside its validity period"
          else caller_of leaf
      | Some _ => errorf "no verified chain is found"
      end
  end.

Definition authenticateHTTP (chains : option (list (list Certificate))) : res (option Caller) :=
  match chains with
  | None => errorf "no client certificate is presented"
  | Some ((leaf :: _) :: _) => caller_of leaf
  | Some _ => errorf "no verified chain is found"
  end.

Definition cert_Authenticate (w : World) (ctx : AuthContext) : res (option Caller) :=
  match GrpcContext ctx with
  | Some peer => authenticateGrpc w peer
  | None => match HttpRequest ctx with Some chains => authenticateHTTP chains | None => Ok None end
  end.

(** The interface of the authority to its service. *)
Class CertificateAuthority : Type := {
  ca_Sign : string -> CertOpts -> SignError + string;
  ca_SignWithCertChain : string -> CertOpts -> SignError + list string;
  ca_KeyCertBundle : KeyCertBundle
}.
Definition DubboCA_authority (cr : Crypto) (w : World) (ca : DubboCA) : CertificateAuthority :=
  {| ca_Sign := Sign cr w ca; ca_SignWithCertChain := SignWithCertChain cr w ca; ca_KeyCertBundle := keyCertBundle ca |}.

Record CertRequest : Type := mkCertRequest { Csr : string; ValidityDuration : Z; Metadata : gmap string string }.

Section server.
Context (cr : Crypto) `{CertificateAuthority} (Authenticators : list (AuthContext -> res (option Caller))).

Fixpoint authenticate_with (auths : list (AuthContext -> res (option Caller))) (ctx : AuthContext) : res Caller :=
  match auths with
  | [] => Err (mk_error Unauthenticated "authentication failure")
  | a :: auths =>
      match a ctx with
      | Panic why => Panic why
      | Ok (Some caller) => if (0 <? List.length (Identities caller))%nat then Ok caller else authenticate_with auths ctx
      | _ => authenticate_with auths ctx
      end
  end.
Definition authenticate (ctx : AuthContext) : res Caller :=
  if (List.length Authenticators =? 0)%nat then Err (mk_error Unauthenticated "CA authentication is not configured")
  else authenticate_with Authenticators ctx.

Definition pem_bytes (s : string) : option (string * string) :=
  match pem_Decode cr s with Some (b, rest) => Some (block_Bytes b, rest) | None => None end.

Definition sign_failure {A} (e : SignError) : res A :=
  match e with
  | SignCA e => Err (mk_error (HTTPErrorCode e) ("CSR signing error (" +:+ err_msg (ce_err e) +:+ ")"))
  | SignOther e => Err (mk_error Internal ("CSR signing error (" +:+ err_msg e +:+ ")"))
  | SignPanic why => Panic why
  end.

Definition CreateCertificate (ctx : AuthContext) (request : CertRequest) : res (list string) :=
  match authenticate ctx with
  | Panic why => Panic why
  | Err _ => Err (mk_error Unauthenticated "request authenticate failure")
  | Ok caller =>
      let certSigner := default "" (Metadata request !! "CertSigner") in
      let chain := certChainBytes ca_KeyCertBundle in
      let root := rootCertBytes ca_KeyCertBundle in
      let opts := mkCertOpts (Identities caller) (wrap_s64 (ValidityDuration request * 1000000000)) false certSigner in
      let signed :=
        if String.eqb certSigner "" then
          match ca_Sign (Csr request) opts with
          | inl e => inl e
          | inr cert => inr (cert :: (if String.eqb chain "" then [] else [chain]))
          end
        else ca_SignWithCertChain (Csr request) opts in
      match signed with
      | inl e => sign_failure e
      | inr respCertChain =>
          Ok (flat_map (fun pem => map (fun c => c +:+ newline) (PemCertBytestoString pem_bytes pem)) respCertChain ++
              (if String.eqb root "" then [] else [root]))
      end
  end.

End server.

(** ** Whole seconds as floating point numbers *)

Notation giga := 1000000000.

Lemma shift_pos_mul k p : Z.pos (Zpower.shift_pos k p) = Z.pos p * 2 ^ Z.pos k.
Proof. rewrite Zpower.shift_pos_correct, Zpower.Zpower_pos_nat, Zpower.Zpower_nat_Z, Z.mul_comm. do 2 f_equal. lia. Qed.

Lemma digits_log2 p : Z.pos (digits2_pos p) = Z.log2 (Z.pos p) + 1.
Proof.
  assert (H : forall p, digits2_pos p = Pos.size p) by (intro q; induction q; simpl; congruence).
  rewrite H. destruct p; simpl; lia.
Qed.

(** An integer below 2^53 is a floating point number with a mantissa of 53 bits. *)
Lemma binary_round_small s p :
  Z.pos p < 2 ^ 53 ->
  exists m, binary_round 53 1024 s p 0 = S754_finite s m (Z.log2 (Z.pos p) - 52) /\
    Z.pos m = Z.pos p * 2 ^ (52 - Z.log2 (Z.pos p)).
Proof.
  intros Hp. pose proof (Z.log2_nonneg (Z.pos p)) as H0.
  assert (Hl : Z.log2 (Z.pos p) < 53) by (apply Z.log2_lt_pow2; lia).
  set (l := Z.log2 (Z.pos p)) in *.
  assert (Haux : forall m, Z.log2 (Z.pos m) = 52 -> binary_round_aux 53 1024 s (Z.pos m) (l - 52) loc_Exact = S754_finite s m (l - 52)).
  { intros m Hm. unfold binary_round_aux, shr_fexp. cbn [Zdigits2]. 
    assert (Hf : fexp 53 1024 (Z.pos (digits2_pos m) + (l - 52)) - (l - 52) = 0).
    { rewrite digits_log2, Hm. unfold fexp, emin. lia. }
    rewrite Hf. cbn [shr shr_record_of_loc shr_m loc_of_shr_record round_nearest_even Zdigits2]. rewrite Hf. cbn [shr shr_record_of_loc shr_m].
    destruct (Zle_bool (l - 52) (1024 - 53)) eqn:E; [done|]. apply Z.leb_gt in E. lia. }
  unfold binary_round, shl_align. rewrite digits_log2. fold l.
  replace (fexp 53 1024 (l + 1 + 0) - 0) with (l - 52) by (unfold fexp, emin; lia).
  replace (fexp 53 1024 (l + 1 + 0)) with (l - 52) by (unfold fexp, emin; lia).
  destruct (l - 52) as [|q|q] eqn:E; [|lia|].
  - exists p. rewrite <- (Haux p) by (fold l; lia). split; [f_equal; lia|]. replace (52 - l) with 0 by lia. lia.
  - exists (Zpower.shift_pos q p). rewrite <- (Haux (Zpower.shift_pos q p)); [split|].
    + f_equal.
    + rewrite shift_pos_mul. do 2 f_equal. lia.
    + rewrite shift_pos_mul, Z.log2_mul_pow2 by lia. fold l. lia.
Qed.

Lemma Seconds_whole s : - 2 ^ 53 < s < 2 ^ 53 -> Seconds (s * giga) = float64 s.
Proof.
  intros Hs. unfold Seconds. rewrite Z.quot_mul, Z.rem_mul by lia.
  change (SFdiv 53 1024 (float64 0) (float64 giga)) with (S754_zero false).
  unfold float64. destruct s as [|p|p]; cbn [binary_normalize]; [done|..];
    [destruct (binary_round_small false p) as (m & -> & _)|destruct (binary_round_small true p) as (m & -> & _)]; done || lia.
Qed.

(** On whole seconds the comparison of floating point numbers is the comparison of integers. *)
Lemma float64_ltb a b : 0 <= a < 2 ^ 53 -> - 2 ^ 53 < b < 2 ^ 53 -> SFltb (float64 a) (float64 b) = (a <? b).
Proof.
  intros Ha Hb. unfold float64. destruct b as [|q|q]; cbn [binary_normalize].
  - destruct a as [|p|p]; [done| |lia]. cbn [binary_normalize].
    destruct (binary_round_small false p) as (m & -> & _); [lia|done].
  - destruct (binary_round_small false q) as (mq & -> & Hq); [lia|]. destruct a as [|p|p]; [done| |lia]. cbn [binary_normalize].
    destruct (binary_round_small false p) as (mp & -> & Hp); [lia|]. unfold SFltb, SFcompare.
    destruct (Z.compare_spec (Z.log2 (Z.pos p) - 52) (Z.log2 (Z.pos q) - 52)) as [E|E|E].
    + assert (Hl : Z.log2 (Z.pos p) = Z.log2 (Z.pos q)) by lia. rewrite Hl in Hp.
      assert (0 < 2 ^ (52 - Z.log2 (Z.pos q))).
      { apply Z.pow_pos_nonneg; [lia|]. assert (Z.log2 (Z.pos q) < 53) by (apply Z.log2_lt_pow2; lia). lia. }
      change (Pos.compare_cont Eq mp mq) with (Z.pos mp ?= Z.pos mq). rewrite Hp, Hq.
      destruct (Z.compare_spec (Z.pos p * 2 ^ (52 - Z.log2 (Z.pos q))) (Z.pos q * 2 ^ (52 - Z.log2 (Z.pos q))));
        destruct (Z.ltb_spec (Z.pos p) (Z.pos q)); (done || nia).
    + destruct (Z.ltb_spec (Z.pos p) (Z.pos q)) as [|Hge]; [done|]. pose proof (Z.log2_le_mono (Z.pos q) (Z.pos p)). lia.
    + destruct (Z.ltb_spec (Z.pos p) (Z.pos q)) as [Hlt|]; [|done]. pose proof (Z.log2_le_mono (Z.pos p) (Z.pos q)). lia.
  - destruct (binary_round_small true q) as (mq & -> & _); [lia|]. destruct a as [|p|p]; [done| |lia]. cbn [binary_normalize].
    destruct (binary_round_small false p) as (m & -> & _); [lia|done].
Qed.

Lemma float64_leb_zero a : - 2 ^ 53 < a < 2 ^ 53 -> SFleb (float64 a) (float64 0) = (a <=? 0).
Proof.
  intros Ha. unfold float64. destruct a as [|p|p]; [done|..]; cbn [binary_normalize];
    [destruct (binary_round_small false p) as (m & -> & _)|destruct (binary_round_small true p) as (m & -> & _)]; done || lia.
Qed.

(** ** What the library promises *)

Definition floor_second (t : Time) : Time := t - t mod giga.

(** PEM text is read back from what precedes other text; a certificate that is created
    has the fields of its template, its times in whole seconds, the given key, and the
    SAN extension given as an extra one. *)
Class CryptoLaws (cr : Crypto) : Prop := {
  pem_text : forall b, exists body, EncodeToMemory cr b = String "-" body +:+ newline;
  pem_roundtrip : forall b rest,
    block_Type b = "CERTIFICATE" -> pem_Decode cr (EncodeToMemory cr b +:+ rest) = Some (b, rest);
  x509_nonempty : forall t p pub k der, CreateCert cr t p pub k = Ok der -> der <> "";
  x509_created : forall t p pub k der c,
    BasicConstraintsValid t = true -> CreateCert cr t p pub k = Ok der -> ParseCertificate cr der = Ok c ->
    IsCA c = IsCA t /\ NotBefore c = floor_second (NotBefore t) /\ NotAfter c = floor_second (NotAfter t) /\
    KeyUsage c = KeyUsage t /\ cert_PublicKey c = pub /\
    forall e, ExtractSANExtension (ExtraExtensions t) = Some e -> ExtractSANExtension (Extensions c) = Some e
}.

(** ** Lemmas *)

Lemma then_inr {A B} (m : SignError + A) (f : A -> SignError + B) b : then_ m f = inr b -> exists a, m = inr a /\ f a = inr b.
Proof. destruct m; simpl; naive_solver. Qed.
Lemma of_res_inr {A} t (r : res A) a : of_res t r = inr a -> r = Ok a.
Proof. destruct r; simpl; by intros [=->]. Qed.

(** The lifetime given to a request. *)
Definition granted (ca : DubboCA) (requested : Z) : Z :=
  if SFleb (Seconds requested) (float64 0) then defaultCertTTL ca else requested.

(** What a signed certificate was made from. *)
Lemma sign_inr cr w ca csrPEM ids requested check forCA pem :
  sign cr w ca csrPEM ids requested check forCA = inr pem ->
  exists csr signer key tmpl der,
    ParsePemEncodedCSR cr csrPEM = Ok csr /\ CheckSignature cr csr = true /\
    (check = true -> SFltb (Seconds (maxCertTTL ca)) (Seconds requested) = false) /\
    genCertTemplateFromCSR cr w csr ids (granted ca requested) forCA = Ok tmpl /\
    CreateCert cr tmpl (Some signer) (csr_PublicKey csr) key = Ok der /\
    cert (keyCertBundle ca) = Some signer /\ privKey (keyCertBundle ca) = Some key /\
    pem = EncodeToMemory cr (mkBlock "CERTIFICATE" der).
Proof.
  unfold sign. destruct (cert _) as [signer|]; [|done]. intros E. apply then_inr in E as (csr & Hcsr%of_res_inr & E).
  destruct (CheckSignature cr csr) eqn:Hsig; [|done]. cbn [negb] in E. destruct (check && _) eqn:Hc; [done|].
  destruct (privKey _) as [key|]; [|done]. apply then_inr in E as (der & Hd%of_res_inr & [= <-]).
  unfold GenCertFromCSR in Hd. apply res_bind_ok in Hd as (tmpl & Ht & Hd).
  exists csr, signer, key, tmpl, der. repeat split; try done. intros ->. by simpl in Hc.
Qed.

(** The template of a request: no authority unless asked for, the lifetime and the
    identities as given. *)
Lemma template_fields cr w csr ids ttl forCA tmpl :
  genCertTemplateFromCSR cr w csr ids ttl forCA = Ok tmpl ->
  IsCA tmpl = forCA /\ BasicConstraintsValid tmpl = true /\ NotBefore tmpl = Now w - ClockSkewGracePeriod /\
  NotAfter tmpl = Now w + ttl /\
  ExtractSANExtension (ExtraExtensions tmpl) = Some (BuildSubjectAltNameExtension (ParseAddr cr) (str_join ids ",")) /\
  KeyUsage tmpl = (if forCA then KeyUsageCertSign else Z.lor KeyUsageDigitalSignature KeyUsageKeyEncipherment).
Proof.
  unfold genCertTemplateFromCSR. rewrite res_bind_ok. intros (n & _ & [= <-]). cbn [IsCA BasicConstraintsValid NotBefore NotAfter ExtraExtensions KeyUsage].
  by repeat split.
Qed.

Lemma trim_pem cr `{!CryptoLaws cr} b : trim_newlines (EncodeToMemory cr b) +:+ newline = EncodeToMemory cr b.
Proof. destruct (pem_text b) as (body & ->). unfold trim_newlines. by rewrite TrimSuffix_app. Qed.

(** The first certificate of a text that begins with an encoded one. *)
Lemma PemCertBytestoString_head cr `{!CryptoLaws cr} b rest :
  block_Type b = "CERTIFICATE" -> block_Bytes b <> "" ->
  exists l, map (fun c => c +:+ newline) (PemCertBytestoString (pem_bytes cr) (EncodeToMemory cr b +:+ rest))
            = EncodeToMemory cr b :: l.
Proof.
  intros Ht Hb. unfold PemCertBytestoString. cbn [pem_certs]. unfold pem_bytes at 1. rewrite pem_roundtrip by done.
  destruct (String.length (block_Bytes b) =? 0)%nat eqn:E; [destruct (block_Bytes b); done|].
  destruct (String.length rest =? 0)%nat eqn:E2.
  - destruct rest; [|done]. rewrite str_app_nil_r. eexists. cbn [map]. by rewrite trim_pem.
  - rewrite str_length_app. replace (String.length (EncodeToMemory cr b) + String.length rest - String.length rest)%nat
      with (String.length (EncodeToMemory cr b)) by lia.
    rewrite str_take_app. eexists. cbn [map]. by rewrite trim_pem.
Qed.

Lemma authenticate_with_ok auths ctx caller :
  authenticate_with auths ctx = Ok caller -> exists a, In a auths /\ a ctx = Ok (Some caller) /\ Identities caller <> [].
Proof.
  induction auths as [|a auths IH]; simpl; [done|]. destruct (a ctx) as [[c|]|e|why] eqn:E; [|naive_solver..].
  destruct (0 <? List.length (Identities c))%nat eqn:El; [|naive_solver]. intros [= ->]. exists a. repeat split; [by left|done|].
  intros En. by rewrite En in El.
Qed.

(** What the service answers with when it answers with certificates. *)
Lemma CreateCertificate_ok cr `{!CryptoLaws cr} w ca auths ctx request resp :
  @CreateCertificate cr (DubboCA_authority cr w ca) auths ctx request = Ok resp ->
  exists caller pem rest, authenticate auths ctx = Ok caller /\ resp = pem :: rest /\
    sign cr w ca (Csr request) (Identities caller) (wrap_s64 (ValidityDuration request * giga)) true false = inr pem.
Proof.
  unfold CreateCertificate. destruct (authenticate auths ctx) as [caller| |]; [|done..]. cbv zeta.
  cbn [ca_Sign ca_SignWithCertChain ca_KeyCertBundle DubboCA_authority]. unfold Sign, SignWithCertChain, signWithCertChain.
  cbn [SubjectIDs co_TTL ForCA].
  destruct (sign cr w ca _ _ _ true false) as [e|pem] eqn:Es.
  { destruct (String.eqb _ ""); simpl; by destruct e. }
  pose proof (sign_inr _ _ _ _ _ _ _ _ _ Es) as (csr & signer & key & tmpl & der & _ & _ & _ & _ & Hd & _ & _ & Hp).
  pose proof (x509_nonempty _ _ _ _ _ Hd) as Hne.
  assert (Hhead : forall rest, exists l, map (fun c => c +:+ newline) (PemCertBytestoString (pem_bytes cr) (pem +:+ rest)) = pem :: l).
  { intros rest. rewrite Hp. by apply PemCertBytestoString_head. }
  destruct (String.eqb (default "" _) ""); cbn [then_ flat_map]; intros [= <-].
  - destruct (Hhead "") as (l & Hl). rewrite str_app_nil_r in Hl. rewrite Hl. exists caller, pem. eexists. by repeat split.
  - destruct (Hhead (certChainBytes (keyCertBundle ca))) as (l & Hl). rewrite Hl. exists caller, pem. eexists. by repeat split.
Qed.

(** ** Properties of the service *)

(** The lifetime given to a whole number of seconds that fits a duration *)
Lemma granted_seconds ca seconds : Z.abs seconds * giga < two63 ->
  granted ca (wrap_s64 (seconds * giga)) = if seconds <=? 0 then defaultCertTTL ca else seconds * giga.
Proof.
  intros Hs. assert (Hr : - 2 ^ 53 < seconds < 2 ^ 53) by (unfold two63 in *; change (2 ^ 53) with 9007199254740992; lia).
  rewrite wrap_s64_id by (unfold in_s64, two63 in *; lia). unfold granted. rewrite Seconds_whole by lia. by rewrite float64_leb_zero by lia.
Qed.

(** C5 A certificate is bound to its caller.  When the service answers a request,
    one of the authenticators accepted the caller with some identities, the request
    is signed with the key it asks a certificate for, and the first element of the
    answer is a certificate that, as far as it parses, is for that key, is no
    authority and may not sign certificates, and whose validity has begun.  It has not
    ended either, and ends with the second that is the requested lifetime from now, or
    the default one if none is requested, where the requested number of seconds fits a
    duration and the default lifetime is a second or more.  The certificate
    names exactly the identities of the caller, where no identity has a comma or is
    an address and the encoding of the names is shorter than 2^31 bytes. *)
Theorem issued_certificate_bound cr `{!CryptoLaws cr} w ca auths ctx request resp :
  @CreateCertificate cr (DubboCA_authority cr w ca) auths ctx request = Ok resp ->
  exists a caller csr der rest,
    In a auths /\ a ctx = Ok (Some caller) /\ Identities caller <> [] /\
    ParsePemEncodedCSR cr (Csr request) = Ok csr /\ CheckSignature cr csr = true /\
    resp = EncodeToMemory cr (mkBlock "CERTIFICATE" der) :: rest /\
    forall c, ParseCertificate cr der = Ok c ->
      cert_PublicKey c = csr_PublicKey csr /\ IsCA c = false /\ Z.land (KeyUsage c) KeyUsageCertSign = 0 /\ NotBefore c < Now w /\
      (Z.abs (ValidityDuration request) * giga < two63 -> giga <= defaultCertTTL ca ->
       Now w < NotAfter c /\
       NotAfter c = floor_second (Now w + (if ValidityDuration request <=? 0 then defaultCertTTL ca else ValidityDuration request * giga))) /\
      (Forall (fun id => no_char "," id = true /\ ParseAddr cr id = None) (Identities caller) ->
       len (ext_Value (BuildSubjectAltNameExtension (ParseAddr cr) (str_join (Identities caller) ","))) < two31 ->
       ExtractIDs (Extensions c) = Some (Identities caller)).
Proof.
  intros (caller & pem & rest & Ha & -> & Hs)%CreateCertificate_ok; [|done].
  apply sign_inr in Hs as (csr & signer & key & tmpl & der & Hcsr & Hsig & _ & Ht & Hd & _ & _ & ->).
  apply template_fields in Ht as (Hca & Hbc & Hnb & Hna & Hsan & Hku). unfold authenticate in Ha.
  destruct (_ =? 0)%nat; [done|]. apply authenticate_with_ok in Ha as (a & Hin & Hac & Hne).
  exists a, caller, csr, der, rest. do 6 (split; [done|]). intros c Hc.
  destruct (x509_created _ _ _ _ _ _ Hbc Hd Hc) as (H1 & H2 & H3 & H4 & H5 & H6).
  split; [done|]. split; [congruence|]. split; [by rewrite H4, Hku|]. split.
  { rewrite H2, Hnb. unfold floor_second, ClockSkewGracePeriod. pose proof (Z.mod_pos_bound (Now w - 120 * giga) giga). lia. }
  split.
  { intros Hr Hdef. rewrite granted_seconds in Hna by done. rewrite H3, Hna. split; [|done]. unfold floor_second.
    set (ttl := if _ <=? 0 then _ else _). assert (giga <= ttl) by (unfold ttl; destruct (Z.leb_spec (ValidityDuration request) 0); lia).
    pose proof (Z.mod_pos_bound (Now w + ttl) giga). lia. }
  intros Hids Hl. rewrite Forall_forall in Hids.
  pose proof (san_ids (ParseAddr cr) (Identities caller) Hne) as Hsi. unfold ExtractIDs in *. rewrite (H6 _ Hsan).
  cbn [ExtractSANExtension List.find] in Hsi. rewrite bool_decide_true in Hsi by done. apply Hsi; [|done].
  intros id Hid. apply Hids. by apply list_elem_of_In.
Qed.

(** C36 The lifetime of a certificate is bounded: for a request of a number of seconds
    that fits a duration and an authority whose maximum is a whole number of seconds,
    the certificate ends at most the default lifetime after now if no lifetime is
    requested, and at most the requested lifetime, which is at most the maximum,
    otherwise; a request above the maximum is refused. *)
Theorem granted_lifetime_bounded cr `{!CryptoLaws cr} w ca csrPEM ids seconds forCA m :
  Z.abs seconds * giga < two63 -> maxCertTTL ca = m * giga -> 0 <= m * giga < two63 ->
  match sign cr w ca csrPEM ids (wrap_s64 (seconds * giga)) true forCA with
  | inr pem => seconds <= m /\ exists der, pem = EncodeToMemory cr (mkBlock "CERTIFICATE" der) /\
      forall c, ParseCertificate cr der = Ok c ->
        NotAfter c <= Now w + (if seconds <=? 0 then defaultCertTTL ca else seconds * giga)
  | inl (SignCA e) => ce_t e = TTLError -> m < seconds
  | inl _ => True
  end.
Proof.
  intros Hs Hm Hmb. pose proof (granted_seconds ca seconds Hs) as Hg. rewrite wrap_s64_id in * by (unfold in_s64, two63 in *; lia).
  assert (Hrange : - 2 ^ 53 < seconds < 2 ^ 53 /\ 0 <= m < 2 ^ 53) by (unfold two63 in *; change (2 ^ 53) with 9007199254740992; lia).
  assert (Hlt : SFltb (Seconds (maxCertTTL ca)) (Seconds (seconds * giga)) = (m <? seconds)).
  { rewrite Hm, !Seconds_whole by lia. apply float64_ltb; lia. }
  destruct (sign _ _ _ _ _ _ _ _) as [[e| |]|pem] eqn:E; [|done..|].
  - intros He. unfold sign, newError in E. destruct (cert _); [|by simplify_eq/=].
    destruct (ParsePemEncodedCSR _ _) as [csr| |]; cbn [then_ of_res newError] in E; [|by simplify_eq/=..].
    destruct (CheckSignature _ _); [|by simplify_eq/=]. rewrite Hlt in E. cbn [negb andb] in E.
    destruct (Z.ltb_spec m seconds); [done|]. destruct (privKey _); [|done].
    destruct (GenCertFromCSR _ _ _ _ _ _ _ _ _); by simplify_eq/=.
  - apply sign_inr in E as (csr & signer & key & tmpl & der & _ & _ & Hc & Ht & Hd & _ & _ & ->).
    specialize (Hc eq_refl). rewrite Hlt in Hc. apply Z.ltb_ge in Hc. split; [done|]. exists der. split; [done|]. intros c Hp.
    apply template_fields in Ht as (_ & Hbc & _ & Hna & _). destruct (x509_created _ _ _ _ _ _ Hbc Hd Hp) as (_ & _ & H3 & _).
    rewrite H3, Hna, Hg. unfold floor_second. pose proof (Z.mod_pos_bound (Now w + (if seconds <=? 0 then defaultCertTTL ca else seconds * giga)) giga). lia.
Qed.

(** The identities read from a certificate that the service issued are again the
    identities of the caller that presents it, as long as it is valid. *)
Lemma presented_certificate_accepted w leaf chain ids :
  ExtractIDs (Extensions leaf) = Some ids -> Forall (fun c => NotBefore c <= Now w < NotAfter c) (leaf :: chain) ->
  authenticateGrpc w (Some (Some (mkAuthInfo "tls" (Some [leaf :: chain])))) = Ok (Some (mkCaller AuthSourceClientCertificate ids)).
Proof.
  intros Hids Hv. unfold authenticateGrpc. cbn [AuthType TLSInfo negb]. rewrite String.eqb_refl. cbn [negb].
  destruct (existsb _ _) eqn:E; [|unfold caller_of; by rewrite Hids].
  apply existsb_exists in E as (c & Hin & Hb). rewrite Forall_forall in Hv. destruct (Hv c) as [? ?]; [by apply list_elem_of_In|].
  apply orb_true_iff in Hb as [?%Z.ltb_lt|Hb]; [lia|]. apply negb_true_iff, Z.ltb_ge in Hb. lia.
Qed.

(** ** Properties of the authority's key *)

Lemma api_res_inr {A} (r : res A) a : api_res r = inr a -> r = Ok a.
Proof. destruct r; simpl; by intros [=->]. Qed.

Lemma NewVerified_ok cr w certB privKeyB rootCertB b :
  NewVerifiedKeyCertBundleFromPem cr w certB privKeyB "" rootCertB "" = Ok b ->
  b = setAllFromPem cr empty_bundle certB privKeyB "" rootCertB "" /\ Verify cr w certB privKeyB "" rootCertB "" = Ok tt.
Proof. unfold NewVerifiedKeyCertBundleFromPem, VerifyAndSetAll. rewrite res_bind_ok. by intros ([] & ? & [= <-]). Qed.

Lemma load_ok cr w api st name rootFile b :
  loadSelfSignedCaSecret cr w api st name rootFile = inr b ->
  exists d roots, api_Get api st name = inr d /\ AppendRootCerts w (data_of d CACertFile) rootFile = Ok roots /\
    b = setAllFromPem cr empty_bundle (data_of d CACertFile) (data_of d CAPrivateKeyFile) "" roots "".
Proof.
  unfold loadSelfSignedCaSecret. destruct (api_Get _ _ _) as [|d]; [done|]. destruct (AppendRootCerts _ _ _) as [roots| |] eqn:Er; [|done..].
  destruct (NewVerifiedKeyCertBundleFromPem _ _ _ _ _ _ _) as [b'| |] eqn:Eb; [|done..]. intros [= ->].
  apply NewVerified_ok in Eb as [-> _]. by exists d, roots.
Qed.

Lemma api_Get_inr api st name d : api_Get api st name = inr d -> st !! name = Some d.
Proof. unfold api_Get. destruct (get_fault _ _); [done|]. destruct (st !! name); by intros [= ->]. Qed.

Lemma BuildSecret_data name chain key root c k :
  data_of (BuildSecret name chain key root c k) CACertFile = c /\ data_of (BuildSecret name chain key root c k) CAPrivateKeyFile = k.
Proof. unfold data_of, BuildSecret. by destruct (String.eqb name CACertsSecret); simplify_map_eq. Qed.

(** A secret that is created holds the bundle. *)
Lemma create_secret_ok cr w api cfg name st st' b :
  create_secret cr w api cfg name st = (st', inr b) ->
  exists c k roots, AppendRootCerts w c (ss_rootCertFile cfg) = Ok roots /\
    b = setAllFromPem cr empty_bundle c k "" roots "" /\
    (create_fault api <> Some MethodNotSupported ->
     others api st !! name = None /\ st' = <[name := BuildSecret name "" "" c c k]> (others api st)).
Proof.
  unfold create_secret. destruct (api_res (GenCertKeyFromOptions _ _ _)) as [|[c k]]; [done|].
  destruct (api_res (rootCerts ← _; _)) as [|b'] eqn:Eb; [done|]. apply api_res_inr, res_bind_ok in Eb as (roots & Er & Eb).
  apply NewVerified_ok in Eb as [-> _]. unfold api_Create. intros E. exists c, k, roots. split; [done|].
  destruct (create_fault api) as [[]|]; simplify_eq; try done.
  destruct (others api st !! name) eqn:El; simplify_eq. done.
Qed.

(** The bundle of an attempt is the one its secret holds. *)
Definition holds (st : gmap string (gmap string string)) (name : string) (b : KeyCertBundle) : Prop :=
  exists d, st !! name = Some d /\ data_of d CACertFile = certBytes b /\ data_of d CAPrivateKeyFile = privKeyBytes b.

Lemma load_holds cr w api st name rootFile b :
  loadSelfSignedCaSecret cr w api st name rootFile = inr b -> holds st name b.
Proof. intros (d & roots & Hg%api_Get_inr & _ & ->)%load_ok. by exists d. Qed.

Lemma create_holds cr w api cfg name st st' b :
  create_fault api <> Some MethodNotSupported -> create_secret cr w api cfg name st = (st', inr b) -> holds st' name b.
Proof.
  intros Hf (c & k & roots & _ & -> & Hs)%create_secret_ok. destruct (Hs Hf) as [_ ->]. eexists. rewrite lookup_insert_eq.
  split; [done|]. apply BuildSecret_data.
Qed.

Lemma attempt_holds cr w api cfg st st' name b :
  create_fault api <> Some MethodNotSupported -> self_signed_attempt cr w api cfg st = (st', name, inr b) -> holds st' name b.
Proof.
  intros Hf. unfold self_signed_attempt. destruct (loadSelfSignedCaSecret cr w api st CASecret _) as [e|b'] eqn:E1.
  - destruct (negb (IsNotFound e)); [done|]. destruct (useCacertsSecretName cfg).
    + destruct (loadSelfSignedCaSecret cr w api st CACertsSecret _) as [e2|b'] eqn:E2.
      * destruct (IsNotFound e2); [|done]. destruct (create_secret _ _ _ _ _ _) as [st2 r] eqn:Ec. intros [= -> <- ->].
        by eapply create_holds.
      * intros [= <- <- ->]. by eapply load_holds.
    + destruct (create_secret _ _ _ _ _ _) as [st2 r] eqn:Ec. intros [= -> <- ->]. by eapply create_holds.
  - intros [= <- <- ->]. by eapply load_holds.
Qed.

Lemma retry_holds cr attempts cfg st st' name b :
  Forall (fun a => create_fault (snd a) <> Some MethodNotSupported) attempts ->
  retry_attempts cr attempts cfg st = (st', name, inr b) -> holds st' name b.
Proof.
  intros Hf. revert st. induction Hf as [|[w api] attempts Ha Hf IH]; intros st; [done|]. cbn [retry_attempts].
  destruct (self_signed_attempt cr w api cfg st) as [[st1 name1] [e|b1]] eqn:E.
  - destruct attempts; [done|]. apply IH.
  - assert (Hh : holds st1 name1 b1) by (by eapply attempt_holds). destruct attempts; by intros [= <- <- <-].
Qed.

(** C18 The key the authority signs with is the key the cluster keeps: however often
    starting is tried again, whatever reads and writes fail and whatever other
    replicas write in between, an authority that starts has the certificate and the
    private key of the secret it names, unless the server does not let secrets be
    created; replicas that end with the same secret therefore share the authority. *)
Theorem authority_is_the_stored_one cr attempts cfg st st' opts :
  Forall (fun a => create_fault (snd a) <> Some MethodNotSupported) attempts ->
  NewSelfSignedDubboCAOptions cr attempts cfg st = (st', opts, None) ->
  exists b config, opt_KeyCertBundle opts = Some b /\ opt_RotatorConfig opts = Some config /\ holds st' (secretName config) b.
Proof.
  intros Hf. unfold NewSelfSignedDubboCAOptions. destruct (retry_attempts cr attempts cfg st) as [[st1 name] [e|b]] eqn:E; [done|].
  intros [= <- <-]. do 2 eexists. do 2 (split; [done|]). by eapply retry_holds.
Qed.

Definition healthy : Api := mkApi (fun _ => None) None id.

Lemma load_again cr w api st name rootFile d roots :
  api_Get api st name = inr d -> AppendRootCerts w (data_of d CACertFile) rootFile = Ok roots ->
  Verify cr w (data_of d CACertFile) (data_of d CAPrivateKeyFile) "" roots "" = Ok tt ->
  loadSelfSignedCaSecret cr w api st name rootFile
  = inr (setAllFromPem cr empty_bundle (data_of d CACertFile) (data_of d CAPrivateKeyFile) "" roots "").
Proof.
  intros Hg Hr Hv. unfold loadSelfSignedCaSecret. rewrite Hg, Hr. unfold NewVerifiedKeyCertBundleFromPem, VerifyAndSetAll.
  by rewrite Hv.
Qed.

Lemma AppendRootCerts_same w w' c f : ReadFile w f = ReadFile w' f -> AppendRootCerts w c f = AppendRootCerts w' c f.
Proof. unfold AppendRootCerts. by intros ->. Qed.

Section restart.
Context (cr : Crypto) (w w' : World) (cfg : SelfSigned) (st : gmap string (gmap string string)) (b : KeyCertBundle).
Notation load := (loadSelfSignedCaSecret cr).
Context (Hread : ReadFile w' (ss_rootCertFile cfg) = ReadFile w (ss_rootCertFile cfg)).
Context (Hv : Verify cr w' (certBytes b) (privKeyBytes b) "" (rootCertBytes b) "" = Ok tt).

Lemma load_restart n : load w healthy st n (ss_rootCertFile cfg) = inr b -> load w' healthy st n (ss_rootCertFile cfg) = inr b.
Proof using Hread Hv.
  intros (d & roots & Hg & Hr & E)%load_ok. rewrite E in Hv |- *. rewrite <- (AppendRootCerts_same w' w) in Hr by done. by apply load_again.
Qed.

Lemma load_absent n e : load w healthy st n (ss_rootCertFile cfg) = inl e -> IsNotFound e = true -> st !! n = None.
Proof using.
  unfold loadSelfSignedCaSecret, api_Get. cbn [get_fault healthy]. destruct (st !! n); [|done].
  destruct (AppendRootCerts _ _ _); [destruct (NewVerifiedKeyCertBundleFromPem _ _ _ _ _ _ _)|..]; intros [= <-]; done.
Qed.

Lemma absent_load s n : (s : gmap string (gmap string string)) !! n = None -> load w' healthy s n (ss_rootCertFile cfg) = inl NotFound.
Proof using. intros Hs. unfold loadSelfSignedCaSecret, api_Get. cbn [get_fault healthy]. by rewrite Hs. Qed.

Lemma create_restart n st2 :
  create_secret cr w healthy cfg n st = (st2, inr b) ->
  (forall m, m <> n -> st2 !! m = st !! m) /\ load w' healthy st2 n (ss_rootCertFile cfg) = inr b.
Proof using Hread Hv.
  intros (c & k & roots & Hr & E & Hs)%create_secret_ok. rewrite E in Hv |- *. destruct (Hs ltac:(done)) as [_ ->]. cbn [others healthy id].
  rewrite <- (AppendRootCerts_same w' w) in Hr by done. destruct (BuildSecret_data n "" "" c c k) as [Hc Hk].
  split; [intros m Hm; by rewrite lookup_insert_ne|].
  pose proof (load_again cr w' healthy (<[n:=BuildSecret n "" "" c c k]> st) n (ss_rootCertFile cfg) (BuildSecret n "" "" c c k) roots) as HL.
  rewrite Hc, Hk in HL. apply HL; [|done..]. unfold api_Get. cbn [get_fault healthy]. by rewrite lookup_insert_eq.
Qed.

Lemma attempt_restart st' name :
  self_signed_attempt cr w healthy cfg st = (st', name, inr b) -> self_signed_attempt cr w' healthy cfg st' = (st', name, inr b).
Proof using Hread Hv.
  unfold self_signed_attempt at 1. destruct (load w healthy st CASecret _) as [e|b'] eqn:L1.
  2: { intros [= <- <- ->]. unfold self_signed_attempt. by rewrite (load_restart _ L1). }
  destruct (IsNotFound e) eqn:N1; [|done]. cbn [negb]. pose proof (load_absent _ _ L1 N1) as Hn1. unfold self_signed_attempt.
  destruct (useCacertsSecretName cfg).
  - destruct (load w healthy st CACertsSecret _) as [e2|b'] eqn:L2.
    2: { intros [= <- <- ->]. rewrite (absent_load _ _ Hn1). cbn [IsNotFound negb]. by rewrite (load_restart _ L2). }
    destruct (IsNotFound e2); [|done]. destruct (create_secret _ _ _ _ _ _) as [st2 r] eqn:Ec. intros [= -> <- ->].
    destruct (create_restart _ _ Ec) as (Hother & Hl). rewrite absent_load; [|rewrite Hother; done]. cbn [IsNotFound negb]. by rewrite Hl.
  - destruct (create_secret _ _ _ _ _ _) as [st2 r] eqn:Ec. intros [= -> <- ->]. destruct (create_restart _ _ Ec) as (_ & Hl). by rewrite Hl.
Qed.
End restart.

(** The authority survives a restart: an authority that started on a healthy API
    server, with a key it found or made, starts again with the same certificate, key
    and roots from the secrets it left, as long as its certificate still verifies and
    the file of additional roots is the same. *)
Theorem authority_survives_restart cr w w' cfg st st' opts b :
  NewSelfSignedDubboCAOptions cr [(w, healthy)] cfg st = (st', opts, None) -> opt_KeyCertBundle opts = Some b ->
  ReadFile w' (ss_rootCertFile cfg) = ReadFile w (ss_rootCertFile cfg) ->
  Verify cr w' (certBytes b) (privKeyBytes b) "" (rootCertBytes b) "" = Ok tt ->
  NewSelfSignedDubboCAOptions cr [(w', healthy)] cfg st' = (st', opts, None).
Proof.
  unfold NewSelfSignedDubboCAOptions. cbn [retry_attempts]. intros E Hb Hread Hv.
  destruct (self_signed_attempt cr w healthy cfg st) as [[st1 name] [e|b1]] eqn:E1; [done|]. injection E as -> <-.
  injection Hb as ->. by rewrite (attempt_restart cr w w' cfg st b Hread Hv st' name E1).
Qed.

(** ** A concrete library *)

Module Demo.

Fixpoint unary (n : nat) : string := match n with O => "" | S n => String "x" (unary n) end.
Fixpoint count (s : string) : nat * string :=
  match s with String "x" s => let '(n, r) := count s in (S n, r) | _ => (0%nat, s) end.
Definition write_field (a : string) : string := unary (String.length a) +:+ String "." a.
Definition read_field (s : string) : option (string * string) :=
  let '(n, r) := count s in
  match r with String "." r => if (String.length r <? n)%nat then None else Some (str_take n r, str_drop n r) | _ => None end.

Definition Encode (b : Block) : string := String "-" (write_field (block_Type b) +:+ write_field (block_Bytes b)) +:+ newline.
Definition Decode (s : string) : option (Block * string) :=
  match s with
  | String "-" s =>
      '(t, s) ← read_field s; '(b, s) ← read_field s;
      match s with String _ rest => Some (mkBlock t b, rest) | EmptyString => None end
  | _ => None
  end.

Lemma read_write a rest : read_field (write_field a +:+ rest) = Some (a, rest).
Proof.
  unfold read_field, write_field. rewrite str_app_assoc.
  assert (Hc : forall n r, count (unary n +:+ String "." r) = (n, String "." r)) by (induction n as [|n IH]; intros r; simpl; [done|by rewrite IH]).
  cbn [String.append]. rewrite Hc, str_length_app.
  destruct (Nat.ltb_spec (String.length a + String.length rest) (String.length a)); [lia|]. by rewrite str_take_app, str_drop_app.
Qed.

Lemma Decode_Encode b rest : Decode (Encode b +:+ rest) = Some (b, rest).
Proof.
  unfold Decode, Encode. cbn [String.append]. rewrite !str_app_assoc, read_write. cbn [mbind option_bind].
  rewrite read_write. cbn [mbind option_bind newline String.append]. by destruct b.
Qed.

Definition id0 : string := "spiffe://cluster.local/ns/a/sa/b".
Definition now0 : Time := 63900000000 * giga.
Definition key0 : PrivateKey := RSAPrivateKey 2048 1.
Definition w0 : World := mkWorld now0 (Ok 7) (fun _ => Ok key0) (fun _ => FileNotExist).
Definition csr0 : CertificateRequest := mkCSR (mkName [] "") (Some (RSAPublicKey 2048 2)) [] [] [] [] [] [].

(** The certificate of the authority, and the one of an hour for the workload. *)
Definition root_tmpl : Certificate :=
  mkCertificate 7 (mkName ["org"] "") (mkName [] "") now0 (now0 + 86400 * giga) KeyUsageCertSign [] true true [] [] [] None.
Definition root0 : Certificate :=
  mkCertificate 7 (mkName ["org"] "") (mkName ["org"] "") now0 (now0 + 86400 * giga) KeyUsageCertSign [] true true [] [] [] (publicKey key0).
Definition leaf (nb na : Time) (issued : bool) : Certificate :=
  let san := [BuildSubjectAltNameExtension (fun _ => None) id0] in
  mkCertificate 7 (mkName [] "") (mkName (if issued then ["org"] else []) "") nb na 5 [1; 2] false true
    (if issued then [] else san) [] (if issued then san else []) (if issued then Some (RSAPublicKey 2048 2) else None).
Definition leaf_tmpl : Certificate := leaf (now0 - ClockSkewGracePeriod) (now0 + 3600 * giga) false.
Definition leaf0 : Certificate := leaf (now0 - ClockSkewGracePeriod) (now0 + 3600 * giga) true.

Definition crypto : Crypto := mkCrypto Decode Encode
  (fun der => if String.eqb der "L" then Ok leaf0 else if String.eqb der "R" then Ok root0 else errorf "not a certificate")
  (fun der => if String.eqb der "Q" then Ok csr0 else errorf "not a request") (fun _ => true)
  (fun _ => errorf "") (fun der => if String.eqb der "K" then Ok key0 else errorf "not a key") (fun _ => errorf "")
  (fun _ => errorf "") (fun _ => "K") (fun _ => errorf "")
  (fun t _ pub _ => if bool_decide (t = leaf_tmpl /\ pub = Some (RSAPublicKey 2048 2)) then Ok "L"
                    else if bool_decide (t = root_tmpl /\ pub = publicKey key0) then Ok "R" else errorf "unknown template")
  (fun _ _ => errorf "") (fun _ _ _ _ => true) (fun _ _ => true) (fun _ => errorf "") (fun _ _ => false) (fun _ => "") (fun _ => None).

#[global] Instance crypto_laws : CryptoLaws crypto.
Proof.
  split.
  - intros b. by eexists.
  - intros b rest _. apply Decode_Encode.
  - intros t p pub k der. cbn [CreateCert crypto]. case_bool_decide; [by intros [= <-]|]. case_bool_decide; by intros [= <-].
  - intros t p pub k der c _. cbn [CreateCert ParseCertificate crypto]. case_bool_decide as E1; [destruct E1 as [-> ->]|].
    + intros [= <-]. cbn [String.eqb Ascii.eqb Bool.eqb]. intros [= <-]. repeat split. by intros e.
    + case_bool_decide as E2; [destruct E2 as [-> ->]|done]. intros [= <-]. cbn [String.eqb Ascii.eqb Bool.eqb]. intros [= <-]. by repeat split.
Qed.

Definition root_pem : string := Encode (mkBlock "CERTIFICATE" "R").
Definition key_pem : string := Encode (mkBlock blockTypeRSAPrivateKey "K").
Definition csr_pem : string := Encode (mkBlock "CERTIFICATE REQUEST" "Q").
Definition ca0 : DubboCA :=
  mkCA (86400 * giga) (7776000 * giga) 2048 (NewKeyCertBundleFromPem crypto root_pem key_pem "" root_pem "") None.
Definition cfg0 : SelfSigned := mkSelfSigned (86400 * giga) (3600 * giga) (86400 * giga) (7776000 * giga) "org" true false "dubbo-system" "" false 2048.
Definition always : AuthContext -> res (option Caller) := fun _ => Ok (Some (mkCaller 1 [id0])).
Definition ctx0 : AuthContext := mkAuthContext None None.

Definition st0 : gmap string (gmap string string) := {[ CACertsSecret := BuildSecret CACertsSecret "" "" root_pem root_pem key_pem ]}.
Definition bundle0 : KeyCertBundle := setAllFromPem crypto empty_bundle root_pem key_pem "" root_pem "".

Definition opts0 : DubboCAOptions :=
  mkCAOptions selfSignedCA (86400 * giga) (7776000 * giga) 0 (Some bundle0)
    (Some (mkRotatorConfig "dubbo-system" "org" "" CACertsSecret (3600 * giga) (86400 * giga) false false)).

(** The first start, in an empty namespace, makes the secret. *)
Lemma first_start : NewSelfSignedDubboCAOptions crypto [(w0, healthy)] cfg0 ∅ = (st0, opts0, None).
Proof. vm_cast_no_check (eq_refl (st0, opts0, @None ApiError)). Qed.

End Demo.

(** The answer of the service to a workload that asks for an hour. *)
Example issues_for_an_hour :
  @CreateCertificate Demo.crypto (DubboCA_authority Demo.crypto Demo.w0 Demo.ca0) [Demo.always] Demo.ctx0
    (mkCertRequest Demo.csr_pem 3600 ∅)
  = Ok [Demo.Encode (mkBlock "CERTIFICATE" "L"); Demo.root_pem].
Proof. by vm_compute. Qed.

Lemma issued_certificate_bound_witness :
  exists resp, @CreateCertificate Demo.crypto (DubboCA_authority Demo.crypto Demo.w0 Demo.ca0) [Demo.always] Demo.ctx0
    (mkCertRequest Demo.csr_pem 3600 ∅) = Ok resp /\
  exists der rest, resp = EncodeToMemory Demo.crypto (mkBlock "CERTIFICATE" der) :: rest.
Proof.
  exists [Demo.Encode (mkBlock "CERTIFICATE" "L"); Demo.root_pem]. split; [by vm_compute|].
  destruct (issued_certificate_bound Demo.crypto Demo.w0 Demo.ca0 [Demo.always] Demo.ctx0 (mkCertRequest Demo.csr_pem 3600 ∅)
    [Demo.Encode (mkBlock "CERTIFICATE" "L"); Demo.root_pem] ltac:(by vm_compute)) as (a & caller & csr & der & rest & _ & _ & _ & _ & _ & E & _).
  by exists der, rest.
Defined.

Lemma granted_lifetime_bounded_witness :
  exists der, sign Demo.crypto Demo.w0 Demo.ca0 Demo.csr_pem [Demo.id0] (3600 * giga) true false
              = inr (EncodeToMemory Demo.crypto (mkBlock "CERTIFICATE" der)) /\
    forall c, ParseCertificate Demo.crypto der = Ok c -> NotAfter c <= Demo.now0 + 3600 * giga.
Proof.
  pose proof (granted_lifetime_bounded Demo.crypto Demo.w0 Demo.ca0 Demo.csr_pem [Demo.id0] 3600 false 7776000
    ltac:(by vm_compute) eq_refl ltac:(by vm_compute)) as HG.
  change (wrap_s64 (3600 * giga)) with (3600 * giga) in HG.
  replace (sign Demo.crypto Demo.w0 Demo.ca0 Demo.csr_pem [Demo.id0] (3600 * giga) true false)
    with (inr (A := SignError) (EncodeToMemory Demo.crypto (mkBlock "CERTIFICATE" "L"))) in * by (symmetry; by vm_compute).
  destruct HG as (_ & der & E & Hc). exists der. by rewrite E.
Defined.

Lemma authority_is_the_stored_one_witness :
  exists b config, opt_KeyCertBundle Demo.opts0 = Some b /\ opt_RotatorConfig Demo.opts0 = Some config /\ holds Demo.st0 (secretName config) b.
Proof.
  apply (authority_is_the_stored_one Demo.crypto [(Demo.w0, healthy)] Demo.cfg0 ∅); [by repeat constructor|apply Demo.first_start].
Defined.

Lemma authority_survives_restart_witness :
  NewSelfSignedDubboCAOptions Demo.crypto [(Demo.w0, healthy)] Demo.cfg0 Demo.st0 = (Demo.st0, Demo.opts0, None).
Proof.
  apply (authority_survives_restart Demo.crypto Demo.w0 Demo.w0 Demo.cfg0 ∅ _ _ Demo.bundle0); [apply Demo.first_start|done|done|by vm_compute].
Defined.

(** ** Findings *)

(** A duration that does not fit wraps around: the caller that asks for 584 years gets a
    certificate for 0.29 seconds instead of the error of a lifetime above the maximum. *)
Example overflowing_request_granted :
  wrap_s64 (18446744074 * giga) = 290448384 /\
  granted Demo.ca0 (wrap_s64 (18446744074 * giga)) = 290448384 /\
  SFltb (Seconds (maxCertTTL Demo.ca0)) (Seconds (wrap_s64 (18446744074 * giga))) = false.
Proof. by vm_compute. Qed.

(** A self-signed authority has no chain, so that its default lifetime is not bounded by
    its own certificate: workload certificates outlive it. *)
Theorem self_signed_ttl_unbounded cr w Int63n opts b ca :
  certChainBytes b = "" -> NewDubboCA cr w Int63n opts b = Ok ca -> defaultCertTTL ca = DefaultCertTTL opts.
Proof. intros Hc. unfold NewDubboCA, minTTL. rewrite Hc. cbn. by intros [= <-]. Qed.

(** With a chain the default lifetime ends with it, as it was when the authority started. *)
Lemma chain_bounds_default_ttl cr w Int63n opts b ca :
  certChainBytes b <> "" -> NewDubboCA cr w Int63n opts b = Ok ca ->
  exists remaining, TimeBeforeCertExpires cr (certChainBytes b) (Now w) = Ok remaining /\ 0 < remaining /\
    defaultCertTTL ca = Z.min remaining (DefaultCertTTL opts).
Proof.
  intros Hc. unfold NewDubboCA, minTTL. destruct (String.eqb_spec (certChainBytes b) ""); [done|].
  rewrite res_bind_ok. intros (ttl & Ht%wrap_err_ok & [= <-]). apply res_bind_ok in Ht as (remaining & Hr%wrap_err_ok & Ht).
  exists remaining. destruct (Z.leb_spec remaining 0); [done|]. split; [done|]. split; [lia|]. simpl.
  destruct (Z.ltb_spec remaining (DefaultCertTTL opts)); injection Ht as <-; lia.
Qed.

(** The HTTP path accepts a chain of certificates that have expired, the gRPC path does not. *)
Example http_accepts_expired_chain :
  let late := mkWorld (Demo.now0 + 7200 * giga) (Ok 0) (fun _ => Ok Demo.key0) (fun _ => FileNotExist) in
  cert_Authenticate late (mkAuthContext None (Some (Some [[Demo.leaf0]]))) = Ok (Some (mkCaller AuthSourceClientCertificate [Demo.id0])) /\
  is_ok (cert_Authenticate late (mkAuthContext (Some (Some (Some (mkAuthInfo "tls" (Some [[Demo.leaf0]]))))) None)) = false.
Proof. by vm_compute. Qed.
