(* ===== verification/GatewayControllers.v ===== *)
(** * Controllers of the Gateway API

    [config/kube/gateway]: references to secrets of other namespaces
    ([referencegrants.go]), classes and gateways with their status
    ([gatewayclass_collection.go], [gatewayclass_status.go],
    [gateways_collection.go], [gatewayclass_controller.go]), the read-only store of
    gateways and routes ([controller.go]), and the controller that deploys gateways
    ([deployment_controller.go]); [model/kstatus].  Templates, YAML, JSON, URLs and
    the API server are parameters. *)

From S2P Require Import Prelude GoStrings GoSlices GoSort GoNet Hosts ConfigModel ServiceRegistries Telemetry.

(** ** Kinds *)

Definition KubernetesGateway_gvk : GroupVersionKind := mkGVK "gateway.networking.k8s.io" "v1" "Gateway".
Definition HTTPRoute_gvk : GroupVersionKind := mkGVK "gateway.networking.k8s.io" "v1" "HTTPRoute".
Definition Secret_gvk : GroupVersionKind := mkGVK "" "v1" "Secret".

(** The kinds of [collections.All], in order. *)
Definition All_gvks : list GroupVersionKind := [
  mkGVK "security.dubbo.apache.org" "v1alpha3" "AuthorizationPolicy";
  mkGVK "gateway.networking.k8s.io" "v1" "BackendTLSPolicy";
  mkGVK "networking.dubbo.apache.org" "v1alpha3" "CircuitBreakerPolicy";
  mkGVK "" "v1" "ConfigMap";
  mkGVK "apiextensions.k8s.io" "v1" "CustomResourceDefinition";
  mkGVK "apps" "v1" "DaemonSet";
  mkGVK "apps" "v1" "Deployment";
  mkGVK "discovery.k8s.io" "v1" "EndpointSlice";
  mkGVK "" "v1" "Endpoints";
  mkGVK "networking.dubbo.apache.org" "v1alpha3" "FaultInjectionPolicy";
  mkGVK "gateway.networking.k8s.io" "v1" "GatewayClass";
  HTTPRoute_gvk;
  KubernetesGateway_gvk;
  mkGVK "coordination.k8s.io" "v1" "Lease";
  mkGVK "" "v1alpha1" "MeshConfig";
  mkGVK "admissionregistration.k8s.io" "v1" "MutatingWebhookConfiguration";
  mkGVK "" "v1" "Namespace";
  mkGVK "" "v1" "Node";
  mkGVK "security.dubbo.apache.org" "v1alpha3" "PeerAuthentication";
  mkGVK "" "v1" "Pod";
  mkGVK "policy" "v1" "PodDisruptionBudget";
  mkGVK "gateway.networking.k8s.io" "v1beta1" "ReferenceGrant";
  mkGVK "security.dubbo.apache.org" "v1alpha3" "RequestAuthentication";
  Secret_gvk;
  mkGVK "" "v1" "Service";
  mkGVK "" "v1" "ServiceAccount";
  mkGVK "networking.dubbo.apache.org" "v1alpha3" "ServiceEntry";
  mkGVK "apps" "v1" "StatefulSet";
  mkGVK "telemetry.dubbo.apache.org" "v1alpha3" "Telemetry";
  mkGVK "admissionregistration.k8s.io" "v1" "ValidatingWebhookConfiguration";
  mkGVK "networking.dubbo.apache.org" "v1alpha3" "WorkloadEntry" ].

Definition normalizeReference (group kind : string) : GroupVersionKind :=
  match List.find (fun g => String.eqb (Group g) group && String.eqb (Kind g) kind) All_gvks with
  | Some g => g
  | None => mkGVK group "" kind
  end.

(** ** Reference grants *)

Record Reference : Type := mkReference { ref_Kind : GroupVersionKind; ref_Namespace : string }.
Record ReferenceGrant : Type := mkReferenceGrant {
  Source : string * string; From : Reference; To : Reference; AllowAll : bool; AllowedName : string
}.
#[global] Instance Reference_eq_dec : EqDecision Reference.
Proof. solve_decision. Defined.

(** The objects of the API: who may refer, and to what; a missing name is any name. *)
Record GrantFrom : Type := mkGrantFrom { from_Group : string; from_Kind : string; from_Namespace : string }.
Record GrantTo : Type := mkGrantTo { to_Group : string; to_Kind : string; to_Name : option string }.
Record GrantObject : Type := mkGrantObject {
  go_Name : string; go_Namespace : string; go_From : list GrantFrom; go_To : list GrantTo
}.

Definition grant_of (obj : GrantObject) (fromRef : Reference) (to : GrantTo) : ReferenceGrant :=
  mkReferenceGrant (go_Namespace obj, go_Name obj) fromRef
    (mkReference (normalizeReference (to_Group to) (to_Kind to)) (go_Namespace obj))
    (match to_Name to with None => true | Some _ => false end) (default "" (to_Name to)).

(** The transformation of [ReferenceGrantsCollection] *)
Definition ReferenceGrantsCollection (obj : GrantObject) : list ReferenceGrant :=
  flat_map (fun from =>
    let fromKind := normalizeReference (from_Group from) (from_Kind from) in
    if negb (bool_decide (fromKind = KubernetesGateway_gvk)) && negb (bool_decide (fromKind = HTTPRoute_gvk)) then []
    else flat_map (fun to =>
           if negb (bool_decide (normalizeReference (to_Group to) (to_Kind to) = Secret_gvk)) then []
           else [grant_of obj (mkReference fromKind (from_Namespace from)) to]) (go_To obj))
    (go_From obj).

Definition kubernetesSecretPrefix : string := "kubernetes://".
Definition kubernetesGatewaySecretPrefix : string := "kubernetes-gateway://".

(** The name and the namespace of the secret a resource name stands for. *)
Definition parseSecretResourceName (resourceName defaultNamespace : string) : option (string * string) :=
  let both parts :=
    match parts with
    | [ns; name] => if String.eqb ns "" || String.eqb name "" then None else Some (name, ns)
    | _ => None
    end in
  let one_or_both parts :=
    match parts with
    | [name] => if String.eqb name "" then None else Some (name, defaultNamespace)
    | _ => both parts
    end in
  if HasPrefix resourceName kubernetesGatewaySecretPrefix then
    both (Split (TrimPrefix resourceName kubernetesGatewaySecretPrefix) "/")
  else if HasPrefix resourceName kubernetesSecretPrefix then
    one_or_both (Split (TrimPrefix resourceName kubernetesSecretPrefix) "/")
  else one_or_both (Split resourceName "/").

(** [SecretAllowed]: the index is by the pair of what is referred to and by whom. *)
Definition SecretAllowed (grants : list ReferenceGrant) (kind : GroupVersionKind) (resourceName namespace : string) : bool :=
  match parseSecretResourceName resourceName namespace with
  | None => false
  | Some (name, targetNamespace) =>
      let from := mkReference kind namespace in
      let to := mkReference Secret_gvk targetNamespace in
      existsb (fun g => AllowAll g || String.eqb (AllowedName g) name)
        (List.filter (fun g => bool_decide (To g = to) && bool_decide (From g = from)) grants)
  end.

(** ** Conditions *)

Record Condition : Type := mkCondition {
  c_Type : string; c_Status : string; c_ObservedGeneration : Z; c_LastTransitionTime : Time; c_Reason : string; c_Message : string
}.
#[global] Instance Condition_eq_dec : EqDecision Condition.
Proof. solve_decision. Defined.

Definition StatusTrue : string := "True".

(** The first condition of the type is written through the pointer that was found. *)
Fixpoint replace_condition (conditions : list Condition) (condition : Condition) : list Condition :=
  match conditions with
  | [] => []
  | c :: l => if String.eqb (c_Type c) (c_Type condition) then condition :: l else c :: replace_condition l condition
  end.
Definition with_time (c : Condition) (t : Time) : Condition :=
  mkCondition (c_Type c) (c_Status c) (c_ObservedGeneration c) t (c_Reason c) (c_Message c).

Definition UpdateConditionIfChanged (conditions : list Condition) (condition : Condition) : list Condition :=
  match List.find (fun c => String.eqb (c_Type c) (c_Type condition)) conditions with
  | None => conditions ++ [condition]
  | Some existing =>
      if String.eqb (c_Status existing) (c_Status condition) then
        if String.eqb (c_Message existing) (c_Message condition) && (c_ObservedGeneration existing =? c_ObservedGeneration condition)
        then conditions
        else replace_condition conditions (with_time condition (c_LastTransitionTime existing))
      else replace_condition conditions condition
  end.

Definition boolToConditionStatus (b : bool) : string := if b then "True" else "False".
Definition setGatewayConditions (existing : list Condition) (gen : Z) (accepted programmed : bool) (now : Time) : list Condition :=
  let msg := "Handled by Dubbo controller" in
  UpdateConditionIfChanged
    (UpdateConditionIfChanged existing (mkCondition "Accepted" (boolToConditionStatus accepted) gen now "Accepted" msg))
    (mkCondition "Programmed" (boolToConditionStatus programmed) gen now "Programmed" msg).

Definition GetClassStatus (existing : list Condition) (gen : Z) (now : Time) : list Condition :=
  UpdateConditionIfChanged existing (mkCondition "Accepted" StatusTrue gen now "Accepted" "Handled by Dubbo controller").

(** ** Classes and gateways *)

(** The settings of [features] and of the controller. *)
Record Settings : Type := mkSettings {
  ManagedGatewayController : string; GatewayAPIDefaultGatewayClass : string; GatewayReplicas : Z; GatewayImage : string;
  set_revision : string; set_systemNamespace : string; set_clusterID : string; set_DomainSuffix : option string
}.

Record classInfo : Type := mkClassInfo {
  ci_controller : string; controllerLabel : string; ci_description : string; ci_templates : string; defaultServiceType : string;
  disableRouteGeneration : bool; supportsListenerSet : bool; disableNameSuffix : bool; addressType : string
}.
Definition ManagedGatewayControllerLabel : string := "dubbo.apache.org-gateway-controller".

Definition builtinClasses (s : Settings) (class : string) : option string :=
  if String.eqb class (GatewayAPIDefaultGatewayClass s) then Some (ManagedGatewayController s) else None.
Definition classInfos (s : Settings) (controller : string) : option classInfo :=
  if String.eqb controller (ManagedGatewayController s) then
    Some (mkClassInfo (ManagedGatewayController s) ManagedGatewayControllerLabel "The default Dubbo GatewayClass" "gateway"
            "LoadBalancer" false true false "Hostname")
  else None.

Record GatewayClassObject : Type := mkGatewayClass {
  gc_Name : string; gc_ControllerName : string; gc_Generation : Z; gc_Conditions : list Condition
}.
Record Listener : Type := mkListener { l_Name : string; l_Protocol : string; l_Port : Z }.
Record GatewayObject : Type := mkGateway {
  g_Meta : GatewayMeta; g_ResourceVersion : string; g_CreationTimestamp : Time; g_OwnerReferences : list OwnerReference;
  g_UID : string; g_Generation : Z; g_GatewayClassName : string; g_Listeners : list Listener; g_Addresses : list (option string);
  g_Conditions : list Condition
}.

Section collections.
Context (s : Settings).

(** What [GatewayClassesCollection] makes of a class: its status, its controller. *)
Definition GatewayClassesCollection (obj : GatewayClassObject) (now : Time) : option (list Condition * string) :=
  match classInfos s (gc_ControllerName obj) with
  | None => None
  | Some _ => Some (GetClassStatus (gc_Conditions obj) (gc_Generation obj) now, gc_ControllerName obj)
  end.

(** The controller of a class: the one of the collection, or a built-in one. *)
Definition fetchClass (classes : gmap string string) (class : string) : option string :=
  match classes !! class with
  | Some controller => Some controller
  | None => builtinClasses s class
  end.

Definition convertGatewayToConfig (gw : GatewayObject) : Config GatewayObject :=
  mkConfig (Meta.mk KubernetesGateway_gvk (g_UID gw) (gw_Name (g_Meta gw)) (gw_Namespace (g_Meta gw)) "" (gw_Labels (g_Meta gw))
              (gw_Annotations (g_Meta gw)) (g_ResourceVersion gw) (g_CreationTimestamp gw) (g_OwnerReferences gw) (g_Generation gw))
    (Some gw) (Some gw) None.

(** What [GatewaysCollection] makes of a gateway: its status and its configuration. *)
Definition GatewaysCollection (classes : gmap string string) (obj : GatewayObject) (now : Time)
    : option (list Condition) * option (Config GatewayObject) :=
  match fetchClass classes (g_GatewayClassName obj) with
  | None => (None, None)
  | Some controller =>
      match classInfos s controller with
      | None => (None, None)
      | Some info =>
          let status := setGatewayConditions (g_Conditions obj) (g_Generation obj) true true now in
          if disableRouteGeneration info then (Some status, None) else (Some status, Some (convertGatewayToConfig obj))
      end
  end.

(** [reconcileClass]: nothing, or the class that is created and what the server says. *)
Inductive CreateResult : Type := Created | Conflict | CreateError (e : gerror).
Definition reconcileClass (existing : gset string) (create : string * string * string -> CreateResult) (class : string)
    : option (string * string * string) * option gerror :=
  if bool_decide (class ∈ existing) then (None, None) else
  match classInfos s (default "" (builtinClasses s class)) with
  | None => (None, None)
  | Some info =>
      let gc := (class, ci_controller info, ci_description info) in
      (Some gc, match create gc with
                | Created => None
                | Conflict => Some (mk_error Unknown "conflict")
                | CreateError e => Some e
                end)
  end.

End collections.

(** ** The store of gateways and routes *)

Section store.
Context {V : Type}.

(** A collection of configurations by key, [namespace/name] or the name alone. *)
Definition config_key (c : Config V) : string :=
  if String.eqb (Meta.Namespace (cfg_Meta c)) "" then Meta.Name (cfg_Meta c)
  else Meta.Namespace (cfg_Meta c) +:+ "/" +:+ Meta.Name (cfg_Meta c).

Definition store_Get (data : gmap GroupVersionKind (gmap string (Config V))) (typ : GroupVersionKind) (name namespace : string)
    : option (Config V) :=
  match data !! typ with
  | None => None
  | Some coll => if String.eqb namespace "" then coll !! name else coll !! (namespace +:+ "/" +:+ name)
  end.
Definition store_List (data : gmap GroupVersionKind (gmap string (Config V))) (typ : GroupVersionKind) (namespace : string)
    : list (Config V) :=
  match data !! typ with
  | None => []
  | Some coll =>
      let all := (map_to_list coll).*2 in
      if String.eqb namespace "" then all else List.filter (fun c => String.eqb (Meta.Namespace (cfg_Meta c)) namespace) all
  end.

Definition errUnsupportedOp : gerror := mk_error Unknown "unsupported operation: the gateway config store is a read-only view".
Definition store_write : res string := Err errUnsupportedOp.
End store.

(** ** Deployment of gateways *)

Definition serviceTypeAnnotation : string := "gateway.dubbo.apache.org/service-type".
Definition serviceTargetPortAnnotation : string := "gateway.dubbo.apache.org/target-port".
Definition serviceNodePortAnnotation : string := "gateway.dubbo.apache.org/node-port".
Definition replicasAnnotation : string := "gateway.dubbo.apache.org/replicas".
Definition defaultGatewayReplicas : Z := 2.
Definition InherentGatewayInboundPort : Z := 15080.
Definition managedLabel : string := "gateway.dubbo.apache.org/managed".
Definition gatewayNameLabel : string := "gateway.networking.k8s.io/gateway-name".

Definition raw_annotation (gw : GatewayObject) (name : string) : string :=
  default "" (nmap_get (gw_Annotations (g_Meta gw)) !! name).

(** [int32(n)] *)
Definition int32 (n : Z) : Z := (n + 2147483648) mod 4294967296 - 2147483648.

Definition positiveIntAnnotation (gw : GatewayObject) (name : string) : option Z :=
  let v := raw_annotation gw name in
  if String.eqb v "" then None
  else if negb (Atoi_ok v) || (Atoi_value v <=? 0) then None else Some (Atoi_value v).

Definition gatewayServiceTargetPort (gw : GatewayObject) : IntOrString :=
  IntVal (match positiveIntAnnotation gw serviceTargetPortAnnotation with Some p => int32 p | None => InherentGatewayInboundPort end).
Definition gatewayServiceNodePort (gw : GatewayObject) : Z :=
  match positiveIntAnnotation gw serviceNodePortAnnotation with Some p => int32 p | None => 0 end.

Definition installedGatewayReplicas (s : Settings) : Z :=
  if GatewayReplicas s <? 1 then defaultGatewayReplicas else int32 (GatewayReplicas s).
Definition gatewayReplicasWithDefault (gw : GatewayObject) (fallback : Z) : Z :=
  let v := raw_annotation gw replicasAnnotation in
  if String.eqb v "" then fallback
  else if negb (Atoi_ok v) || (Atoi_value v <? 0) then fallback else int32 (Atoi_value v).
Definition gatewayReplicas (s : Settings) (gw : GatewayObject) : Z := gatewayReplicasWithDefault gw (installedGatewayReplicas s).

Definition IsManaged (gw : GatewayObject) : bool :=
  match g_Addresses gw with
  | [] => true
  | [None] => true
  | [Some t] => String.eqb t "IPAddress"
  | _ => false
  end.

Definition getDefaultName (name class : string) (disableNameSuffix : bool) : string :=
  if disableNameSuffix then name else name +:+ "-" +:+ class.

Definition serviceTypeForGateway (gw : GatewayObject) (fallback : string) : string :=
  let value := raw_annotation gw serviceTypeAnnotation in
  if existsb (String.eqb value) ["ClusterIP"; "NodePort"; "LoadBalancer"] then value else fallback.

Record GatewayPort : Type := mkGatewayPort {
  p_Name : string; p_Port : Z; p_TargetPort : IntOrString; p_AppProtocol : string; p_NodePort : Z
}.
Fixpoint service_ports (targetPort : IntOrString) (nodePort : Z) (i : Z) (ls : list Listener) : list GatewayPort :=
  match ls with
  | [] => []
  | l :: ls =>
      let rest := service_ports targetPort nodePort (i + 1) ls in
      if negb (String.eqb (l_Protocol l) "HTTP") then rest
      else
        let lower := protocol.ToLower (l_Protocol l) in
        let name := if String.eqb (l_Name l) "" then lower +:+ "-" +:+ Itoa i else l_Name l in
        mkGatewayPort name (l_Port l) targetPort lower (if 0 <? nodePort then nodePort else 0) :: rest
  end.
Definition extractServicePorts (gw : GatewayObject) : list GatewayPort :=
  service_ports (gatewayServiceTargetPort gw) (gatewayServiceNodePort gw) 0 (g_Listeners gw).

Definition ServerListenerNamePrefix : string := "xds.dubbo.apache.org/grpc/lds/inbound/".
(** [IntOrString.IntValue] *)
Definition IntValue (p : IntOrString) : Z := match p with IntVal n => n | StrVal s => Atoi_value s end.
Definition gatewayListenerNames (ports : list GatewayPort) : list string :=
  sort_strings (map (fun p =>
    let targetPort := IntValue (p_TargetPort p) in
    let targetPort := if targetPort <=? 0 then p_Port p else targetPort in
    ServerListenerNamePrefix +:+ "0.0.0.0:" +:+ Itoa targetPort) ports).

Definition DefaultClusterLocalDomain : string := "cluster.local".
Definition domainSuffix (s : Settings) : string :=
  match set_DomainSuffix s with Some d => if String.eqb d "" then DefaultClusterLocalDomain else d | None => DefaultClusterLocalDomain end.

Record gatewayBootstrapConfig : Type := mkBootstrap {
  XDSAddress : string; ListenerNames : list string; ClusterID : string; DNSDomain : string
}.

(** An object of a rendered document, and what is kept of one in the cluster. *)
Record Unstructured : Type := mkUnstructured {
  u_GVK : GroupVersionKind; u_Name : string; u_Namespace : string; u_Labels : gmap string string; u_ResourceVersion : string;
  u_Rest : string
}.
Record GVR : Type := mkGVR { r_Group : string; r_Version : string; r_Resource : string }.
#[global] Instance GVR_eq_dec : EqDecision GVR.
Proof. solve_decision. Defined.
#[global] Instance GVR_countable : Countable GVR.
Proof.
  apply (inj_countable' (fun g => (r_Group g, r_Version g, r_Resource g)) (fun '(a, b, c) => mkGVR a b c)). by intros [].
Defined.
Notation ResourceKey := (GVR * (string * string))%type.
Record Stored : Type := mkStored { o_Labels : gmap string string; o_ResourceVersion : string }.
#[global] Instance Stored_eq_dec : EqDecision Stored.
Proof. solve_decision. Defined.

(** The resources the controller has clients for. *)
Definition clients : list GVR :=
  [mkGVR "" "v1" "services"; mkGVR "apps" "v1" "deployments"; mkGVR "" "v1" "serviceaccounts"; mkGVR "" "v1" "configmaps"].

Definition canManage (cache : gmap ResourceKey Stored) (gvr : GVR) (name namespace : string) : bool * string :=
  if negb (existsb (fun g => bool_decide (g = gvr)) clients) then (true, "") else
  match cache !! (gvr, (namespace, name)) with
  | None => (true, "")
  | Some obj => (bool_decide (is_Some (o_Labels obj !! managedLabel)), o_ResourceVersion obj)
  end.

Definition isManagedGatewayResource (labels : gmap string string) : bool := bool_decide (is_Some (labels !! managedLabel)).
Definition isManagedGatewayResourceFor (labels : gmap string string) (gatewayName : string) : bool :=
  isManagedGatewayResource labels && String.eqb (default "" (labels !! gatewayNameLabel)) gatewayName.

(** The input of the template. *)
Record TemplateInput : Type := mkTemplateInput {
  ti_Gateway : GatewayObject; ti_GatewayClass : string; DeploymentName : string; ti_ServiceAccount : string; ti_Ports : list GatewayPort;
  ti_ServiceType : string; ti_Replicas : Z; ti_Revision : string; ti_ControllerLabel : string; BootstrapConfig : string;
  BootstrapConfigHash : string; ti_GatewayImage : string; ti_SystemNamespace : string; ti_ClusterID : string; ti_DomainSuffix : string;
  ti_Observability : gatewayObservabilityConfig
}.

(** [splitYAML]: the separator is a line of three dashes. *)
Definition newline_char : ascii := Ascii.ascii_of_nat 10.
Definition splitYAML (yamlText : string) : list string :=
  List.filter (fun p => negb (String.eqb p ""))
    (map TrimSpace (Split yamlText (String newline_char ("---" +:+ String newline_char "")))).

Section deployment.
(** [url.Parse] (the scheme and the host name), [json.MarshalIndent], the hash in
    hexadecimal, the templates, [yaml.Unmarshal]. *)
Context (url_Parse : string -> option (string * string)) (MarshalIndent : gatewayBootstrapConfig -> res string)
  (sha256_hex : string -> string) (Templates : option (gmap string (TemplateInput -> res string)))
  (yaml_Unmarshal : string -> res Unstructured).
(** What [Telemetry] takes from its libraries, and the Telemetry objects of the cluster. *)
Context (zero_action : tag_action) (FormatFloat : SpecFloat.spec_float -> string) (marshal_map : gmap string string -> string)
  (telemetries : list (option (string * string * Time * Telemetry.Telemetry))).
Context (s : Settings).

Definition observabilityConfigForGateway (gw : GatewayMeta) : gatewayObservabilityConfig :=
  resolveGatewayObservability zero_action FormatFloat marshal_map gw (set_systemNamespace s) (ResourcesFromClient telemetries).

Definition build_bootstrap (xdsAddress : string) (listenerNames : list string) (clusterID dnsDomain : string) : res (string * string) :=
  if String.eqb xdsAddress "" then Err (mk_error Unknown "gateway bootstrap xDS address is empty") else
  match url_Parse xdsAddress with
  | Some (scheme, hostname) =>
      if negb (String.eqb scheme "https") || String.eqb hostname "" then
        Err (mk_error Unknown "gateway ADS address must be an https URL with workload credentials")
      else
        let clusterID := if String.eqb clusterID "" then "Kubernetes" else clusterID in
        let dnsDomain := if String.eqb dnsDomain "" then DefaultClusterLocalDomain else dnsDomain in
        rendered ← MarshalIndent (mkBootstrap xdsAddress listenerNames clusterID dnsDomain);
        let rendered := rendered +:+ String newline_char "" in
        Ok (rendered, sha256_hex rendered)
  | None => Err (mk_error Unknown "gateway ADS address must be an https URL with workload credentials")
  end.
Definition buildGatewayBootstrapConfig (ports : list GatewayPort) : res (string * string) :=
  let systemNamespace := if String.eqb (set_systemNamespace s) "" then DubboSystemNamespace else set_systemNamespace s in
  build_bootstrap ("https://dubbod." +:+ systemNamespace +:+ ".svc:26012") (gatewayListenerNames ports)
    (set_clusterID s) (domainSuffix s).

Definition render (templateName : string) (mi : TemplateInput) : res (list string) :=
  match Templates with
  | None => Err (mk_error Unknown "templates map is nil")
  | Some templates =>
      match templates !! templateName with
      | None => Err (mk_error Unknown ("no template defined: " +:+ templateName))
      | Some tmpl =>
          match tmpl mi with
          | Err e => Err (mk_error Unknown ("template execution failed: " +:+ err_msg e))
          | Panic why => Panic why
          | Ok result => if String.eqb result "" then Err (mk_error Unknown "template rendered empty output") else Ok (splitYAML result)
          end
      end
  end.

Definition gvr_of (k : GroupVersionKind) : GVR := mkGVR (Group k) (Version k) (protocol.ToLower (Kind k) +:+ "s").

(** The object [apply] sends, or nothing for one that is managed by others. *)
Definition prepare (cache : gmap ResourceKey Stored) (controller yml : string) : res (option (ResourceKey * Unstructured)) :=
  match yaml_Unmarshal yml with
  | Err e => Err (mk_error Unknown ("failed to unmarshal YAML: " +:+ err_msg e))
  | Panic why => Panic why
  | Ok us =>
      let labels := <[managedLabel := ReplaceAll controller "/" "-"]> (u_Labels us) in
      let gvr := gvr_of (u_GVK us) in
      let '(can, resourceVersion) := canManage cache gvr (u_Name us) (u_Namespace us) in
      if negb can then Ok None
      else Ok (Some ((gvr, (u_Namespace us, u_Name us)),
                     mkUnstructured (u_GVK us) (u_Name us) (u_Namespace us) labels resourceVersion (u_Rest us)))
  end.

(** The API server: [patch] sends an object and says whether it was accepted. *)
Context {API : Type} (patch : API -> ResourceKey -> Unstructured -> API * option gerror).

Definition apply_one (cache : gmap ResourceKey Stored) (controller yml : string) (a : API) : API * res unit :=
  match prepare cache controller yml with
  | Err e => (a, Err e)
  | Panic why => (a, Panic why)
  | Ok None => (a, Ok tt)
  | Ok (Some (key, us)) =>
      match patch a key us with
      | (a, None) => (a, Ok tt)
      | (a, Some e) => (a, Err (mk_error Unknown ("patch: " +:+ err_msg e)))
      end
  end.
Fixpoint apply_all (cache : gmap ResourceKey Stored) (controller : string) (rendered : list string) (a : API) : API * res unit :=
  match rendered with
  | [] => (a, Ok tt)
  | t :: rendered =>
      match apply_one cache controller t a with
      | (a, Ok _) => apply_all cache controller rendered a
      | (a, Err e) => (a, Err (mk_error Unknown ("apply failed: " +:+ err_msg e)))
      | (a, Panic why) => (a, Panic why)
      end
  end.

Definition configureGateway (cache : gmap ResourceKey Stored) (gw : GatewayObject) (gi : classInfo) (a : API) : API * res unit :=
  if String.eqb (ci_templates gi) "" then (a, Ok tt) else
  if negb (IsManaged gw) then (a, Ok tt) else
  let defaultName := getDefaultName (gw_Name (g_Meta gw)) (g_GatewayClassName gw) (disableNameSuffix gi) in
  let serviceType := serviceTypeForGateway gw (defaultServiceType gi) in
  let ports := extractServicePorts gw in
  if (List.length ports =? 0)%nat then (a, Ok tt) else
  match buildGatewayBootstrapConfig ports with
  | Err e => (a, Err e)
  | Panic why => (a, Panic why)
  | Ok (config, hash) =>
      let input := mkTemplateInput gw (g_GatewayClassName gw) defaultName defaultName ports serviceType (gatewayReplicas s gw)
                     (set_revision s) (controllerLabel gi) config hash (GatewayImage s) (set_systemNamespace s) (set_clusterID s)
                     (domainSuffix s) (observabilityConfigForGateway (g_Meta gw)) in
      match render (ci_templates gi) input with
      | Err _ => (a, Ok tt)
      | Panic why => (a, Panic why)
      | Ok rendered => apply_all cache (ci_controller gi) rendered a
      end
  end.

(** [Reconcile]: [classes] are the controllers of the classes of the cluster, [mine] the
    answer of the watcher of revisions. *)
Definition Reconcile (gateways : gmap (string * string) GatewayObject) (classes : gmap string string) (mine : GatewayMeta -> bool)
    (cache : gmap ResourceKey Stored) (req : string * string) (a : API) : API * res unit :=
  match gateways !! req with
  | None => (a, Ok tt)
  | Some gw =>
      let controller := default "" (fetchClass s classes (g_GatewayClassName gw)) in
      match classInfos s controller with
      | None => (a, Ok tt)
      | Some ci => if negb (mine (g_Meta gw)) then (a, Ok tt) else configureGateway cache gw ci a
      end
  end.

End deployment.

(** ** Properties of references *)

(** What a grant of the API says, without the collection and its index. *)
Definition granted_by (obj : GrantObject) (kind : GroupVersionKind) (namespace name targetNamespace : string) : Prop :=
  go_Namespace obj = targetNamespace /\
  (exists from, In from (go_From obj) /\ normalizeReference (from_Group from) (from_Kind from) = kind /\ from_Namespace from = namespace) /\
  (exists to, In to (go_To obj) /\ normalizeReference (to_Group to) (to_Kind to) = Secret_gvk /\
     match to_Name to with None => True | Some n => n = name end).

Lemma in_grants obj g :
  In g (ReferenceGrantsCollection obj) <->
  exists from to, In from (go_From obj) /\ In to (go_To obj) /\
    In (normalizeReference (from_Group from) (from_Kind from)) [KubernetesGateway_gvk; HTTPRoute_gvk] /\
    normalizeReference (to_Group to) (to_Kind to) = Secret_gvk /\
    g = grant_of obj (mkReference (normalizeReference (from_Group from) (from_Kind from)) (from_Namespace from)) to.
Proof.
  unfold ReferenceGrantsCollection. rewrite in_flat_map. split.
  - intros (from & Hf & Hg). cbv zeta in Hg. set (k := normalizeReference _ _) in *.
    assert (Hk : In k [KubernetesGateway_gvk; HTTPRoute_gvk]).
    { case_bool_decide; [by left|]. case_bool_decide; [by right; left|done]. }
    destruct (negb _ && _) eqn:E; [done|]. apply in_flat_map in Hg as (to & Ht & Hg).
    case_bool_decide as Et; [|done]. destruct Hg as [<-|[]]. by exists from, to.
  - intros (from & to & Hf & Ht & Hk & Es & ->). exists from. split; [done|]. cbv zeta. set (k := normalizeReference _ _) in *.
    replace (negb (bool_decide (k = KubernetesGateway_gvk)) && negb (bool_decide (k = HTTPRoute_gvk))) with false.
    2: { destruct Hk as [<-|[<-|[]]]; by repeat case_bool_decide. }
    apply in_flat_map. exists to. split; [done|]. rewrite bool_decide_true by done. by left.
Qed.

(** C20 A gateway or a route may refer to a Secret exactly when a ReferenceGrant says
    so: the name of the secret is well formed, and an object in the namespace of
    that secret lists the namespace and the kind of the one that refers, which is
    a Gateway or an HTTPRoute, and secrets, of any name or of this one; what is
    granted to other namespaces, kinds or names gives nothing. *)
Theorem secret_reference_granted objs kind resourceName namespace :
  SecretAllowed (flat_map ReferenceGrantsCollection objs) kind resourceName namespace = true <->
  In kind [KubernetesGateway_gvk; HTTPRoute_gvk] /\
  exists name targetNamespace, parseSecretResourceName resourceName namespace = Some (name, targetNamespace) /\
    exists obj, In obj objs /\ granted_by obj kind namespace name targetNamespace.
Proof.
  unfold SecretAllowed. destruct (parseSecretResourceName _ _) as [[name ns]|]; [|naive_solver].
  rewrite existsb_exists. split.
  - intros (g & Hg & Ha). apply filter_In in Hg as [Hg Hp]. apply andb_true_iff in Hp as [Hto%bool_decide_eq_true Hfrom%bool_decide_eq_true].
    apply in_flat_map in Hg as (obj & Ho & Hg). apply in_grants in Hg as (from & to & Hf & Ht & Hk & Es & ->). simpl in Hto, Hfrom, Ha.
    injection Hto as Hns. injection Hfrom as Hkind Hfns. rewrite Hkind in Hk. split; [done|]. exists name, ns. split; [done|].
    exists obj. split; [done|]. split; [done|]. split; [by exists from|]. exists to. split; [done|]. split; [done|].
    destruct (to_Name to) as [n|]; [|done]. by apply String.eqb_eq.
  - intros (Hk & name' & ns' & [= <- <-] & obj & Ho & Hns & (from & Hf & Hkind & Hfns) & (to & Ht & Es & Hn)).
    exists (grant_of obj (mkReference kind namespace) to). split.
    + apply filter_In. split.
      * apply in_flat_map. exists obj. split; [done|]. apply in_grants. exists from, to. rewrite Hkind, Hfns. by repeat split.
      * unfold grant_of. simpl. rewrite Es, Hns. by rewrite !bool_decide_true.
    + unfold grant_of. simpl. destruct (to_Name to) as [n|]; [|done]. subst n. apply String.eqb_refl.
Qed.

Lemma Split_two c a b : no_char c a = true -> no_char c b = true -> Split (a +:+ String c b) (String c "") = [a; b].
Proof.
  intros Ha Hb. unfold Split. rewrite str_length_app. cbn [String.length]. rewrite Nat.add_succ_r.
  by rewrite split_fuel_cons, split_fuel_single.
Qed.

(** Without a grant in its own namespace a secret is never referred to, not even from that
    namespace. *)
Corollary ungranted_secret_refused objs kind name targetNamespace namespace :
  no_char "/" name = true -> no_char "/" targetNamespace = true -> name <> "" -> targetNamespace <> "" ->
  (forall obj, In obj objs -> go_Namespace obj <> targetNamespace) ->
  SecretAllowed (flat_map ReferenceGrantsCollection objs) kind (kubernetesGatewaySecretPrefix +:+ targetNamespace +:+ "/" +:+ name) namespace = false.
Proof.
  intros Hn Ht Hne Hte Hno. apply not_true_iff_false. intros Ha.
  unfold SecretAllowed, parseSecretResourceName in Ha.
  assert (Hp : HasPrefix (kubernetesGatewaySecretPrefix +:+ targetNamespace +:+ "/" +:+ name) kubernetesGatewaySecretPrefix = true) by apply prefix_app.
  rewrite Hp, TrimPrefix_app in Ha. change ("/" +:+ name) with (String "/" name) in Ha.
  rewrite (Split_two "/" targetNamespace name) in Ha by done.
  destruct (String.eqb_spec targetNamespace ""); [done|]. destruct (String.eqb_spec name ""); [done|]. cbn [orb] in Ha.
  apply existsb_exists in Ha as (g & Hg & _). apply filter_In in Hg as [Hg Hp2]. apply andb_true_iff in Hp2 as [Hto%bool_decide_eq_true _].
  apply in_flat_map in Hg as (obj & Ho & Hg). apply in_grants in Hg as (from & to & _ & _ & _ & _ & ->). injection Hto as _ Hns.
  by apply (Hno obj).
Qed.

(** ** Properties of status *)

Lemma find_replace l c c' :
  c_Type c' = c_Type c -> List.find (fun x => String.eqb (c_Type x) (c_Type c)) l <> None ->
  List.find (fun x => String.eqb (c_Type x) (c_Type c)) (replace_condition l c') = Some c'.
Proof.
  intros Ht. induction l as [|x l IH]; [done|]. cbn [List.find replace_condition]. rewrite Ht.
  destruct (String.eqb (c_Type x) (c_Type c)) eqn:E; cbn [List.find].
  - intros _. by rewrite Ht, String.eqb_refl.
  - rewrite E. apply IH.
Qed.

(** Conditions of other types stay as they were. *)
Lemma find_other l c t : c_Type c <> t ->
  List.find (fun x => String.eqb (c_Type x) t) (UpdateConditionIfChanged l c) = List.find (fun x => String.eqb (c_Type x) t) l.
Proof.
  intros Ht. assert (Hr : forall l c', c_Type c' = c_Type c ->
    List.find (fun x => String.eqb (c_Type x) t) (replace_condition l c') = List.find (fun x => String.eqb (c_Type x) t) l).
  { intros l' c' E. induction l' as [|x l' IH]; [done|]. cbn [replace_condition]. rewrite E.
    destruct (String.eqb_spec (c_Type x) (c_Type c)) as [Ex|]; cbn [List.find].
    - rewrite E, Ex. by destruct (String.eqb_spec (c_Type c) t).
    - by destruct (String.eqb _ _). }
  unfold UpdateConditionIfChanged. destruct (List.find _ l) as [e|] eqn:F.
  - destruct (String.eqb (c_Status e) _); [destruct (_ && _); [done|]|]; by apply Hr.
  - clear F. induction l as [|x l IH]; cbn [app List.find]; [by destruct (String.eqb_spec (c_Type c) t)|]. by destruct (String.eqb _ _).
Qed.

(** What a condition that was updated says. *)
Lemma find_updated l c : exists t,
  List.find (fun x => String.eqb (c_Type x) (c_Type c)) (UpdateConditionIfChanged l c) = Some (with_time c t) \/
  (exists e, List.find (fun x => String.eqb (c_Type x) (c_Type c)) (UpdateConditionIfChanged l c) = Some e /\
     c_Status e = c_Status c /\ c_Message e = c_Message c /\ c_ObservedGeneration e = c_ObservedGeneration c).
Proof.
  unfold UpdateConditionIfChanged. destruct (List.find _ l) as [e|] eqn:F.
  - destruct (String.eqb_spec (c_Status e) (c_Status c)) as [Es|].
    + destruct (String.eqb_spec (c_Message e) (c_Message c)) as [Em|];
        [destruct (Z.eqb_spec (c_ObservedGeneration e) (c_ObservedGeneration c)) as [Eg|]|]; cbn [andb].
      * exists 0. right. by exists e.
      * exists (c_LastTransitionTime e). left. apply find_replace; [done|by rewrite F].
      * exists (c_LastTransitionTime e). left. apply find_replace; [done|by rewrite F].
    + exists (c_LastTransitionTime c). left. destruct c. apply find_replace; [done|by rewrite F].
  - exists (c_LastTransitionTime c). left. revert F. induction l as [|x l IH]; cbn [app List.find].
    + rewrite String.eqb_refl. by destruct c.
    + destruct (String.eqb _ _); [done|apply IH].
Qed.

(** Updating again, at another time, changes nothing. *)
Lemma update_again l c l' c' :
  (forall t, List.find (fun x => String.eqb (c_Type x) (c_Type c)) l' =
     List.find (fun x => String.eqb (c_Type x) (c_Type c)) (UpdateConditionIfChanged l c) -> c' = with_time c t ->
   UpdateConditionIfChanged l' c' = l').
Proof.
  intros t Hl ->. unfold UpdateConditionIfChanged at 1. cbn [c_Type c_Status c_Message c_ObservedGeneration with_time]. rewrite Hl.
  destruct (find_updated l c) as (t' & [->|(e & -> & Hs & Hm & Hg)]); cbn [c_Type c_Status c_Message c_ObservedGeneration with_time].
  - by rewrite !String.eqb_refl, Z.eqb_refl.
  - by rewrite Hs, Hm, Hg, !String.eqb_refl, Z.eqb_refl.
Qed.

(** The status of a gateway settles: writing the conditions of a gateway again,
    at whatever later time, changes nothing as long as its generation and the
    verdict are the same, so that the controller does not answer its own status
    updates with further ones; and the conditions of other controllers stay. *)
Theorem gateway_status_settles existing gen accepted programmed now later :
  let st := setGatewayConditions existing gen accepted programmed now in
  setGatewayConditions st gen accepted programmed later = st /\
  forall t, t <> "Accepted" -> t <> "Programmed" ->
    List.find (fun c => String.eqb (c_Type c) t) st = List.find (fun c => String.eqb (c_Type c) t) existing.
Proof.
  intros st. unfold setGatewayConditions in st.
  pose (acc n := mkCondition "Accepted" (boolToConditionStatus accepted) gen n "Accepted" "Handled by Dubbo controller").
  pose (prog n := mkCondition "Programmed" (boolToConditionStatus programmed) gen n "Programmed" "Handled by Dubbo controller").
  pose (l1 := UpdateConditionIfChanged existing (acc now)). change st with (UpdateConditionIfChanged l1 (prog now)). clear st. split.
  - change (UpdateConditionIfChanged (UpdateConditionIfChanged (UpdateConditionIfChanged l1 (prog now)) (acc later)) (prog later)
            = UpdateConditionIfChanged l1 (prog now)).
    rewrite (update_again existing (acc now) _ (acc later) later); [|by rewrite find_other|done].
    by apply (update_again l1 (prog now) _ (prog later) later).
  - intros t Ha Hp. unfold l1. rewrite !find_other; [done|simpl; congruence..].
Qed.

(** The status of a class settles too. *)
Lemma class_status_settles existing gen now later :
  GetClassStatus (GetClassStatus existing gen now) gen later = GetClassStatus existing gen now.
Proof. unfold GetClassStatus. by eapply (update_again existing _ _ _ later). Qed.

(** ** Properties of deployments *)

(** The API server as documented: an object that is sent changes at most the object of its
    name, nothing if it is refused, and with a resource version it is accepted only
    for the version it names. *)
Class ApplyServer {API : Type} (get : API -> ResourceKey -> option Stored) (patch : API -> ResourceKey -> Unstructured -> API * option gerror)
    : Prop := {
  patch_frame : forall a k us k', k' <> k -> get (patch a k us).1 k' = get a k';
  patch_refused : forall a k us e, (patch a k us).2 = Some e -> get (patch a k us).1 k = get a k;
  patch_version : forall a k us, (patch a k us).2 = None -> u_ResourceVersion us <> "" ->
    exists o, get a k = Some o /\ o_ResourceVersion o = u_ResourceVersion us
}.

Section deployments.
Context {API : Type} (get : API -> ResourceKey -> option Stored) (patch : API -> ResourceKey -> Unstructured -> API * option gerror).
Context `{!ApplyServer get patch} (cache : gmap ResourceKey Stored).
Context (Hversions : forall k o, cache !! k = Some o -> o_ResourceVersion o <> "").
Context (yaml_Unmarshal : string -> res Unstructured).

(** The controller may write this object: it does not know it, or it knows it as managed
    and in the version the server has. *)
Definition may_write (a : API) (k : ResourceKey) : Prop :=
  ~ In (fst k) clients \/ cache !! k = None \/
  exists o cur, cache !! k = Some o /\ is_Some (o_Labels o !! managedLabel) /\ get a k = Some cur /\ o_ResourceVersion cur = o_ResourceVersion o.

Lemma apply_one_writes controller yml a k :
  get (apply_one yaml_Unmarshal patch cache controller yml a).1 k <> get a k -> may_write a k.
Proof using All.
  unfold apply_one, prepare. destruct (yaml_Unmarshal yml) as [us| |]; [|done..].
  destruct (canManage cache _ _ _) as [can rv] eqn:Ec. destruct can; [|done]. cbn [negb].
  set (key := (gvr_of (u_GVK us), (u_Namespace us, u_Name us))). set (sent := mkUnstructured _ _ _ _ _ _).
  destruct (decide (k = key)) as [->|Hk].
  2: { destruct (patch a key sent) as [a' [e|]] eqn:Ep; intros Hd; destruct Hd; change a' with (a', None : option gerror).1;
       pose proof (patch_frame a key sent k Hk) as Hf; rewrite Ep in Hf; done. }
  destruct (patch a key sent) as [a' [e|]] eqn:Ep; intros Hd.
  { destruct Hd. pose proof (patch_refused a key sent e) as Hr. rewrite Ep in Hr. by apply Hr. }
  unfold canManage in Ec. destruct (existsb _ clients) eqn:Eg; cbn [negb] in Ec.
  - change (gvr_of (u_GVK us), (u_Namespace us, u_Name us)) with key in Ec. destruct (cache !! key) as [o|] eqn:Eo; [|by right; left].
    right. right. injection Ec as Hm Hrv. apply bool_decide_eq_true in Hm.
    destruct (patch_version a key sent) as (cur & Hg & Hv); [by rewrite Ep|unfold sent; simpl; rewrite <- Hrv; by eapply Hversions|].
    exists o, cur. unfold sent in Hv. simpl in Hv. split; [done|]. split; [done|]. split; [done|]. congruence.
  - left. intros Hin. apply not_true_iff_false in Eg. apply Eg, existsb_exists. exists (fst key). split; [done|].
    by apply bool_decide_eq_true.
Qed.

Lemma apply_all_writes controller rendered a k :
  get (apply_all yaml_Unmarshal patch cache controller rendered a).1 k <> get a k -> may_write a k.
Proof using All.
  revert a. induction rendered as [|t rendered IH]; intros a; [done|]. cbn [apply_all].
  pose proof (apply_one_writes controller t a k) as H1. destruct (apply_one _ _ _ _ _ _) as [a1 [u|e|why]]; cbn [fst] in *; [|done..].
  intros Hd. destruct (decide (get a1 k = get a k)) as [E|E]; [|by apply H1].
  rewrite <- E in Hd. specialize (IH a1 Hd). destruct IH as [?|[?|(o & cur & ? & ? & Hg & ?)]]; [by left|by right; left|].
  right. right. exists o, cur. by rewrite <- E.
Qed.

End deployments.

(** C21 Objects of others are left alone: whatever a reconciliation of a gateway renders
    and in whatever order it is applied, a Service, Deployment, ServiceAccount or
    ConfigMap of the cluster that it changes is one the controller did not know, or
    one it knew as managed by a gateway controller and that has not changed since. *)
Theorem unmanaged_objects_untouched {API} (get : API -> ResourceKey -> option Stored) patch `{!ApplyServer get patch}
    url_Parse MarshalIndent sha256_hex Templates yaml_Unmarshal zero_action FormatFloat marshal_map telemetries s gateways classes
    mine cache req a k :
  (forall k o, cache !! k = Some o -> o_ResourceVersion o <> "") -> In (fst k) clients ->
  get (Reconcile url_Parse MarshalIndent sha256_hex Templates yaml_Unmarshal zero_action FormatFloat marshal_map telemetries s patch
         gateways classes mine cache req a).1 k <> get a k ->
  cache !! k = None \/
  exists o cur, cache !! k = Some o /\ is_Some (o_Labels o !! managedLabel) /\ get a k = Some cur /\
    o_ResourceVersion cur = o_ResourceVersion o.
Proof.
  intros Hv Hin. unfold Reconcile. destruct (gateways !! req) as [gw|]; [|done]. destruct (classInfos s _) as [ci|]; [|done].
  destruct (mine (g_Meta gw)); [|done]. cbn [negb]. unfold configureGateway. destruct (String.eqb _ ""); [done|].
  destruct (IsManaged gw); [|done]. cbn [negb]. destruct (_ =? 0)%nat; [done|].
  destruct (buildGatewayBootstrapConfig _ _ _ _ _) as [[config hash]| |]; [|done..].
  destruct (render _ _ _) as [rendered| |]; [|done..]. intros Hd.
  destruct (apply_all_writes get patch cache Hv yaml_Unmarshal _ _ _ _ Hd) as [?|?]; [done|done].
Qed.

(** A server that keeps labels and counts versions by their length. *)
Definition demo_get (a : gmap ResourceKey Stored) (k : ResourceKey) : option Stored := a !! k.
Definition demo_patch (a : gmap ResourceKey Stored) (k : ResourceKey) (us : Unstructured) : gmap ResourceKey Stored * option gerror :=
  match a !! k with
  | Some o => if negb (String.eqb (u_ResourceVersion us) "") && negb (String.eqb (u_ResourceVersion us) (o_ResourceVersion o))
              then (a, Some (mk_error Unknown "conflict")) else (<[k := mkStored (u_Labels us) (o_ResourceVersion o +:+ "i")]> a, None)
  | None => if String.eqb (u_ResourceVersion us) "" then (<[k := mkStored (u_Labels us) "i"]> a, None) else (a, Some (mk_error Unknown "not found"))
  end.
#[global] Instance demo_server : ApplyServer demo_get demo_patch.
Proof.
  split; unfold demo_get, demo_patch.
  - intros a k us k' Hk. destruct (a !! k); destruct (String.eqb (u_ResourceVersion us) ""); cbn [negb andb];
      [|destruct (String.eqb _ _); cbn [negb]| |]; simpl; by rewrite ?lookup_insert_ne.
  - intros a k us e. destruct (a !! k) eqn:Ek; destruct (String.eqb (u_ResourceVersion us) ""); cbn [negb andb];
      [|destruct (String.eqb _ _); cbn [negb]| |]; simpl; intros; simplify_eq; congruence.
  - intros a k us Hn Hv. destruct (String.eqb_spec (u_ResourceVersion us) ""); [done|]. cbn [negb andb] in Hn.
    destruct (a !! k) as [o|]; [|done]. exists o. split; [done|].
    destruct (String.eqb_spec (u_ResourceVersion us) (o_ResourceVersion o)); [done|]. done.
Qed.

Definition demo_settings : Settings := mkSettings "dubbo.apache.org/gateway-controller" "dubbo" 2 "image" "" "dubbo-system" "" None.
Definition demo_gateway (annotations : gmap string string) (ls : list Listener) : GatewayObject :=
  mkGateway (mkGatewayMeta "gw" "ns" None (Some annotations)) "1" 0 [] "" 1 "dubbo" ls [] [].
Definition demo_object : Unstructured := mkUnstructured (mkGVK "" "v1" "Service") "gw-dubbo" "ns" ∅ "" "".
Definition demo_key : ResourceKey := (mkGVR "" "v1" "services", ("ns", "gw-dubbo")).
Definition demo_reconcile (cache a : gmap ResourceKey Stored) : gmap ResourceKey Stored * res unit :=
  Reconcile (fun _ => Some ("https", "dubbod")) (fun _ => Ok "{}") (fun _ => "hash") (Some {[ "gateway" := fun _ => Ok "doc" ]})
    (fun _ => Ok demo_object) REMOVE (fun _ => "") (fun _ => "") [] demo_settings demo_patch
    {[ ("ns", "gw") := demo_gateway ∅ [mkListener "http" "HTTP" 80] ]} ∅ (fun _ => true) cache ("ns", "gw") a.

(** A Service the controller knows as its own is updated, one of others is not. *)
Example known_service_updated :
  let own := {[ demo_key := mkStored {[ managedLabel := "x" ]} "i" ]} in
  let foreign := {[ demo_key := mkStored ∅ "i" ]} in
  demo_get (demo_reconcile own own).1 demo_key = Some (mkStored {[ managedLabel := "dubbo.apache.org-gateway-controller" ]} "ii") /\
  demo_get (demo_reconcile foreign foreign).1 demo_key = Some (mkStored ∅ "i").
Proof. by vm_compute. Qed.

Lemma unmanaged_objects_untouched_witness :
  let own := {[ demo_key := mkStored {[ managedLabel := "x" ]} "i" ]} in
  exists o cur, own !! demo_key = Some o /\ is_Some (o_Labels o !! managedLabel) /\ demo_get own demo_key = Some cur /\
    o_ResourceVersion cur = o_ResourceVersion o.
Proof.
  intros own. unfold own.
  destruct (unmanaged_objects_untouched demo_get demo_patch (fun _ => Some ("https", "dubbod")) (fun _ => Ok "{}") (fun _ => "hash")
    (Some {[ "gateway" := fun _ => Ok "doc" ]}) (fun _ => Ok demo_object) REMOVE (fun _ => "") (fun _ => "") [] demo_settings
    {[ ("ns", "gw") := demo_gateway ∅ [mkListener "http" "HTTP" 80] ]} ∅ (fun _ => true)
    {[ demo_key := mkStored {[ managedLabel := "x" ]} "i" ]} ("ns", "gw") {[ demo_key := mkStored {[ managedLabel := "x" ]} "i" ]} demo_key)
    as [Hn|Ho].
  - intros k o Hk. apply lookup_singleton_Some in Hk as [<- <-]. done.
  - by left.
  - by vm_compute.
  - by rewrite lookup_singleton_eq in Hn.
  - exact Ho.
Defined.

(** A grant for one secret, from one namespace. *)
Example grant_for_one_secret :
  let grant := mkGrantObject "g" "certs" [mkGrantFrom "gateway.networking.k8s.io" "Gateway" "ingress"] [mkGrantTo "" "Secret" (Some "tls-cert")] in
  let allowed kind name ns := SecretAllowed (flat_map ReferenceGrantsCollection [grant]) kind name ns in
  allowed KubernetesGateway_gvk "kubernetes-gateway://certs/tls-cert" "ingress" = true /\
  allowed KubernetesGateway_gvk "kubernetes-gateway://certs/other-cert" "ingress" = false /\
  allowed KubernetesGateway_gvk "kubernetes-gateway://certs/tls-cert" "other" = false /\
  allowed HTTPRoute_gvk "kubernetes-gateway://certs/tls-cert" "ingress" = false.
Proof. by vm_compute. Qed.

(** ** Findings *)

(** The names of deployments join the gateway and its class by a dash, so that gateways of a
    namespace can share one; the label of the manager does not tell them apart. *)
Theorem deployment_names_collide :
  getDefaultName "a" "b-c" false = getDefaultName "a-b" "c" false /\
  isManagedGatewayResource (<[gatewayNameLabel := "a"]> {[ managedLabel := "x" ]}) = true /\
  isManagedGatewayResourceFor (<[gatewayNameLabel := "a"]> {[ managedLabel := "x" ]}) "a-b" = false.
Proof. by vm_compute. Qed.

(** Listeners of one port, as for several host names, become several Service ports of the
    same number, and a node port that is asked for is given to all of them. *)
Theorem shared_listener_port_duplicated :
  let gw := demo_gateway {[ serviceNodePortAnnotation := "30080" ]} [mkListener "a" "HTTP" 80; mkListener "b" "HTTP" 80] in
  map p_Port (extractServicePorts gw) = [80; 80] /\ map p_NodePort (extractServicePorts gw) = [30080; 30080].
Proof. by vm_compute. Qed.

(** A number of replicas above the range of 32 bits wraps around: 2^32 gives none, 2^31 a
    negative number, which the API server rejects. *)
Theorem replicas_overflow :
  gatewayReplicas demo_settings (demo_gateway {[ replicasAnnotation := "4294967296" ]} []) = 0 /\
  gatewayReplicas demo_settings (demo_gateway {[ replicasAnnotation := "2147483648" ]} []) = - 2147483648.
Proof. by vm_compute. Qed.

(** Below that range the number of replicas is the one asked for, and the default keeps a
    gateway serving while one replica is away. *)
Lemma replicas_bounds s gw :
  GatewayReplicas s < 2147483648 ->
  (raw_annotation gw replicasAnnotation = "" \/ Atoi_ok (raw_annotation gw replicasAnnotation) = false -> 1 <= gatewayReplicas s gw) /\
  (Atoi_ok (raw_annotation gw replicasAnnotation) = true -> 0 <= Atoi_value (raw_annotation gw replicasAnnotation) < 2147483648 ->
   gatewayReplicas s gw = Atoi_value (raw_annotation gw replicasAnnotation)).
Proof.
  intros Hr. unfold gatewayReplicas, gatewayReplicasWithDefault, installedGatewayReplicas.
  assert (Hi : forall z, 0 <= z < 2147483648 -> int32 z = z) by (intros z Hz; unfold int32; rewrite Z.mod_small; lia).
  assert (Hd : 1 <= (if GatewayReplicas s <? 1 then defaultGatewayReplicas else int32 (GatewayReplicas s))).
  { destruct (Z.ltb_spec (GatewayReplicas s) 1); [done|]. rewrite Hi; lia. }
  split.
  - intros [->|E]; [done|]. destruct (String.eqb _ ""); [done|]. by rewrite E.
  - intros E Hz. destruct (String.eqb_spec (raw_annotation gw replicasAnnotation) "") as [E0|]; [by rewrite E0 in E|]. rewrite E.
    cbn [negb orb]. destruct (Z.ltb_spec (Atoi_value (raw_annotation gw replicasAnnotation)) 0); [lia|]. by rewrite Hi.
Qed.

(** An object the controller does not know yet is taken over, whoever made it. *)
Example unknown_object_taken_over :
  demo_get (demo_reconcile ∅ {[ demo_key := mkStored ∅ "i" ]}).1 demo_key
  = Some (mkStored {[ managedLabel := "dubbo.apache.org-gateway-controller" ]} "ii").
Proof. by vm_compute. Qed.
