(* ===== verification/RegistrationAuthority.v ===== *)
(** * Certificates signed by the cluster, and those of the server itself

    [security/pki/ra] (the registration authority that has requests signed by the
    certificates API of Kubernetes), [security/k8s/chiron/utils.go] (a signing
    request and its life), [security/pki/util/verify_cert.go],
    [security/util/certutil.go], [dubbod/discovery/pkg/keycertbundle] (the bundle of
    the server and its watchers) and the rotation of that bundle in
    [bootstrap/cert_controller.go]. *)

From S2P Require Import Prelude GoStrings GoSort GoNet Hosts Spiffe SecretCache SubjectAltNames PkiUtil CertAuthority.
From Stdlib Require Import SpecFloat.

(** ** [verify_cert.go] *)

Record VerifyFields : Type := mkVerifyFields {
  vf_NotBefore : Time; vf_TTL : Z; vf_ExtKeyUsage : list Z; vf_KeyUsage : Z; vf_IsCA : bool; vf_Org : string; vf_CommonName : string;
  vf_Host : string
}.

Definition sortExtKeyUsage (l : list Z) : list Z := merge_sort Z.le l.

Section verify.
(** [Certificate.Verify] for any usage with the pools of two PEM texts, for a DNS name
    unless it is empty; with intermediates given as certificates; and whether a PEM
    text has a certificate for a pool. *)
Context (cr : Crypto) (VerifyFor : Certificate -> string -> string -> string -> Time -> bool)
  (VerifyWith : Certificate -> string -> list Certificate -> Time -> bool) (HasCerts : string -> bool).

Definition key_matches (priv : PrivateKey) (pub : option PublicKey) : res unit :=
  match priv, pub with
  | RSAPrivateKey _ _, Some (RSAPublicKey _ _) =>
      if bool_decide (publicKey priv = pub) then Ok tt else errorf "the generated private RSA key and cert doesn't match"
  | ECDSAPrivateKey _ _, Some (ECDSAPublicKey _ _) =>
      if bool_decide (publicKey priv = pub) then Ok tt else errorf "the generated private EC key and cert doesn't match"
  | _, _ => errorf "algorithms for private key and cert do not match"
  end.

Definition fields_match (f : VerifyFields) (c : Certificate) : res unit :=
  if negb (vf_NotBefore f =? time_zero) && negb (vf_NotBefore f =? NotBefore c) then errorf "unexpected value for 'NotBefore' field" else
  if negb (vf_TTL f =? 0) && negb (vf_TTL f =? Sub (NotAfter c) (NotBefore c)) then errorf "unexpected value for 'NotAfter' - 'NotBefore'" else
  if negb (bool_decide (sortExtKeyUsage (vf_ExtKeyUsage f) = sortExtKeyUsage (ExtKeyUsage c))) then
    errorf "unexpected value for 'ExtKeyUsage' field" else
  if negb (vf_KeyUsage f =? KeyUsage c) then errorf "unexpected value for 'KeyUsage' field" else
  if negb (Bool.eqb (vf_IsCA f) (IsCA c)) then errorf "unexpected value for 'IsCA' field" else
  if negb (String.eqb (vf_Org f) "") && negb (bool_decide ([vf_Org f] = Organization (Issuer c))) then
    errorf "unexpected value for 'Organization' field" else
  if negb (String.eqb (vf_CommonName f) (CommonName (Subject c))) then errorf "unexpected value for 'CommonName' field" else Ok tt.

Definition VerifyCertificate (w : World) (privPem : option string) (certChainPem : string) (rootCertPem : option string)
    (expectedFields : option VerifyFields) : res unit :=
  if match rootCertPem with Some r => negb (HasCerts r) | None => false end then errorf "failed to parse root certificate" else
  if negb (HasCerts certChainPem) then errorf "failed to parse certificate chain" else
  cert ← ParsePemEncodedCertificate cr certChainPem;
  let host := match expectedFields with Some f => vf_Host f | None => "" end in
  let san := if HasPrefix host "spiffe" then "" else host in
  if negb (VerifyFor cert (default "" rootCertPem) certChainPem san (Now w)) then errorf "failed to verify certificate" else
  _ ← match privPem with
      | None => Ok tt
      | Some pem => priv ← ParsePemEncodedKey cr pem; key_matches priv (cert_PublicKey cert)
      end;
  _ ← (if HasPrefix host "spiffe" then
         match ExtractIDs (Extensions cert) with
         | None => errorf "failed to extract identities from SAN extension"
         | Some ids => if existsb (fun id => host.HasSuffix id host) ids then Ok tt
                       else errorf "the certificate doesn't have the expected SAN"
         end
       else Ok tt);
  match expectedFields with Some f => fields_match f cert | None => Ok tt end.

Definition chain_of (certBytes : string) : res (list Certificate * string) :=
  ParsePemEncodedCertificateChain (pem_bytes cr) (ParseCertificate cr) certBytes.

Definition FindRootCertFromCertificateChainBytes (certBytes : string) : res string :=
  match chain_of certBytes with
  | Err e => errorf ("error parsing root certificate: " +:+ err_msg e)
  | Panic why => Panic why
  | Ok (chain, root) =>
      match List.last (map Some chain) None with
      | Some c => if IsCA c then Ok root else errorf "found root cert is not a ca type cert"
      | None => Panic "index out of range"
      end
  end.

Definition IsCertExpired (w : World) (filepath : string) : res bool :=
  certPEMBlock ← wrap_err "failed to read the cert" (PkiUtil.read w filepath);
  c ← wrap_err "failed to parse the cert" (ParsePemEncodedCertificate cr certPEMBlock);
  Ok (NotAfter c <? Now w).

(** [CertUtilImpl.GetWaitTime] *)
Definition GetWaitTime (gracePeriodPercentage : Z) (certB : string) (now : Time) : res Z :=
  c ← ParsePemEncodedCertificate cr certB;
  let timeToExpire := Sub (NotAfter c) now in
  if timeToExpire <? 0 then errorf "certificate already expired" else
  let gracePeriod := truncate (SFmul 53 1024 (float64 (Sub (NotAfter c) (NotBefore c)))
                                 (SFdiv 53 1024 (float64 gracePeriodPercentage) (float64 100))) in
  let waitTime := timeToExpire - gracePeriod in
  if waitTime <? 0 then errorf "got a certificate that should be renewed now" else Ok waitTime.

(** ** [chiron]: a signing request of the cluster *)

Record CSRSpec : Type := mkCSRSpec { Request : string; Usages : list string; SignerName : string; ExpirationSeconds : option Z }.

(** What is done to the API server. *)
Inductive action : Type := Submit (spec : CSRSpec) | Approve (name message : string) | DeleteCSR (name : string).

(** What the API server answers: the name of a request that is created, the requests of a
    name, and the objects of a watch until the timeout, where [None] is what a closed
    channel gives. *)
Record CsrApi : Type := mkCsrApi {
  csr_Create : CSRSpec -> res string;
  csr_UpdateApproval : string -> res unit;
  csr_List : string -> option (list (option string));
  csr_Watch : string -> res (list (option (option string)))
}.
(** The conversion of seconds to 32 bits, machine dependent beyond its range. *)
Context (float_int32 : Z -> Z).

Fixpoint watch_events (csr : string) (events : list (option (option string))) : res string :=
  match events with
  | [] => errorf ("timeout when watching CSR " +:+ csr)
  | None :: _ => Panic "interface conversion: interface is nil"
  | Some (Some cert) :: _ => Ok cert
  | Some None :: events => watch_events csr events
  end.
Definition readSignedCsr (api : CsrApi) (csr : string) : res string :=
  match csr_List api csr with
  | Some (Some cert :: _) => Ok cert
  | _ => match csr_Watch api csr with
         | Ok events => watch_events csr events
         | Err _ => errorf ("failed to watch CSR " +:+ csr)
         | Panic why => Panic why
         end
  end.

Definition readCACert (w : World) (caCertPath : string) : res string :=
  caCert ← wrap_err "failed to read CA cert" (PkiUtil.read w caCertPath);
  match pem_Decode cr caCert with
  | None => errorf "could not decode pem"
  | Some (b, _) =>
      if negb (String.eqb (block_Type b) "CERTIFICATE") then errorf "ca certificate contains wrong type"
      else _ ← wrap_err "ca certificate parsing returns an error" (ParseCertificate cr (block_Bytes b)); Ok caCert
  end.

Definition readSignedCertificate (w : World) (api : CsrApi) (csr caCertPath : string) (appendCaCert : bool) : res (string * option string) :=
  certPEM ← readSignedCsr api csr;
  if String.eqb certPEM "" then errorf "no certificate returned for the CSR" else
  match chain_of certPEM with
  | Err _ => errorf "decoding certificate failed"
  | Panic why => Panic why
  | Ok (certsParsed, _) =>
      if negb appendCaCert || String.eqb caCertPath "" then Ok (certPEM, None) else
      caCert ← wrap_err "error when retrieving CA cert" (readCACert w caCertPath);
      if negb (HasCerts caCert) then errorf "failed to append CA certificate" else
      match certsParsed with
      | [] => Panic "index out of range"
      | leaf :: rest => if VerifyWith leaf caCert rest (Now w) then Ok (certPEM +:+ caCert, Some caCert)
                        else errorf "failed to verify the certificate chain"
      end
  end.

(** The request is deleted when the function returns, also when it panics. *)
Definition SignCSRK8s (w : World) (api : CsrApi) (csrData signerName : string) (usages : list string) (dnsName caFilePath : string)
    (approveCsr appendCaCert : bool) (requestedLifetime : Z) : list action * res (string * option string) :=
  let spec := mkCSRSpec csrData usages signerName
                (if requestedLifetime =? 0 then None else Some (float_int32 (whole_seconds requestedLifetime))) in
  match csr_Create api spec with
  | Err e => ([Submit spec], errorf ("failed to create CSR: " +:+ err_msg e))
  | Panic why => ([Submit spec], Panic why)
  | Ok name =>
      let message := "CSR (" +:+ name +:+ ") for the certificate (" +:+ dnsName +:+ ") is approved" in
      let approval := if approveCsr then [Approve name message] else [] in
      let result :=
        match (if approveCsr then csr_UpdateApproval api name else Ok tt) with
        | Err e => errorf ("failed to approve CSR request: " +:+ err_msg e)
        | Panic why => Panic why
        | Ok _ => readSignedCertificate w api name caFilePath appendCaCert
        end in
      ([Submit spec] ++ approval ++ [DeleteCSR name], result)
  end.

Definition GenKeyCertK8sCA (w : World) (api : CsrApi) (dnsName caFilePath signerName : string) (approveCsr : bool) (requestedLifetime : Z)
    : list action * res (string * string * option string) :=
  let options := mkCertOptions dnsName 0 0 None None "" "" 2048 false false false false false false "" "" "" in
  match GenCSR cr w options with
  | Err e => ([], Err e)
  | Panic why => ([], Panic why)
  | Ok (csrPEM, keyPEM) =>
      if String.eqb signerName "" then ([], errorf "signerName is required for Kubernetes CA") else
      let '(l, r) := SignCSRK8s w api csrPEM signerName ["digital signature"; "key encipherment"; "server auth"] dnsName caFilePath
                       approveCsr true requestedLifetime in
      (l, '(chain, ca) ← r; Ok (chain, keyPEM, ca))
  end.

(** ** The registration authority *)

Record RAOptions : Type := mkRAOptions {
  ra_DefaultCertTTL : Z; ra_MaxCertTTL : Z; ra_CaCertFile : string; ra_CaSigner : string; ra_CertSignerDomain : string
}.
Record KubernetesRA : Type := mkRA {
  ra_keyCertBundle : KeyCertBundle; raOpts : RAOptions; caCertificatesFromMeshConfig : gmap string string; certSignerDomain : string
}.

Definition NewKubernetesRA (w : World) (opts : RAOptions) : SignError + KubernetesRA :=
  match NewKeyCertBundleWithRootCertFromFile w (ra_CaCertFile opts) with
  | Ok b => inr (mkRA b opts ∅ (ra_CertSignerDomain opts))
  | Err _ => newError CAInitFail (mk_error Unknown "error processing Certificate Bundle for Kubernetes RA")
  | Panic why => inl (SignPanic why)
  end.

Definition ExtCAK8s : string := "DUBBOD_RA_KUBERNETES_API".
Definition NewDubboRA (w : World) (ExternalCAType : string) (opts : RAOptions) : SignError + KubernetesRA :=
  if String.eqb ExternalCAType ExtCAK8s then
    match NewKubernetesRA w opts with
    | inl (SignPanic why) => inl (SignPanic why)
    | inl _ => inl (SignOther (mk_error Unknown "failed to create an K8s CA"))
    | inr r => inr r
    end
  else inl (SignOther (mk_error Unknown ("invalid CA Name " +:+ ExternalCAType))).

(** [asn1.Marshal] of the RDN sequence of a name *)
Context (marshal_rdn : Name -> res string).

Definition compareCSRs (orgCSR genCSR : CertificateRequest) : bool :=
  match marshal_rdn (csr_Subject orgCSR), marshal_rdn (csr_Subject genCSR) with
  | Ok a, Ok b =>
      String.eqb a b && (List.length (csr_URIs orgCSR) <=? 1)%nat &&
      (List.length (csr_EmailAddresses orgCSR) =? List.length (csr_EmailAddresses genCSR))%nat &&
      (List.length (csr_IPAddresses orgCSR) =? List.length (csr_IPAddresses genCSR))%nat &&
      (List.length (csr_DNSNames orgCSR) =? List.length (csr_DNSNames genCSR))%nat &&
      forallb (fun e => bool_decide (ext_Id e = OidSubjectAlternativeName)) (csr_Extensions orgCSR) &&
      (List.length (csr_ExtraExtensions orgCSR) =? 0)%nat
  | _, _ => false
  end.

Definition with_org (csr : CertificateRequest) : CertificateRequest :=
  match Organization (csr_Subject csr) with
  | [] => mkCSR (mkName [""] (CommonName (csr_Subject csr))) (csr_PublicKey csr) (csr_ExtraExtensions csr) (csr_Extensions csr)
            (csr_URIs csr) (csr_EmailAddresses csr) (csr_IPAddresses csr) (csr_DNSNames csr)
  | _ => csr
  end.

Definition ValidateCSR (csrPEM : string) (subjectIDs : list string) : bool :=
  match ParsePemEncodedCSR cr csrPEM with
  | Ok csr =>
      CheckSignature cr csr &&
      match ExtractIDs (csr_Extensions csr) with
      | None => false
      | Some csrIDs =>
          forallb (fun id => existsb (String.eqb id) subjectIDs) csrIDs &&
          compareCSRs (with_org csr)
            (GenCSRTemplate cr (mkCertOptions (str_join csrIDs ",") 0 0 None None "" "" 0 false false false false false false "" "" ""))
      end
  | _ => false
  end.

Definition preSign (opts : RAOptions) (csrPEM : string) (subjectIDs : list string) (requestedLifetime : Z) (forCA : bool) : SignError + Z :=
  if forCA then newError CSRError (mk_error Unknown "unable to generate CA certifificates") else
  if negb (ValidateCSR csrPEM subjectIDs) then newError CSRError (mk_error Unknown "unable to validate SAN Identities in CSR") else
  let lifetime := if SFleb (Seconds requestedLifetime) (float64 0) then ra_DefaultCertTTL opts else requestedLifetime in
  if SFltb (Seconds (ra_MaxCertTTL opts)) (Seconds requestedLifetime) then
    newError TTLError (mk_error Unknown "requested TTL is greater than the max allowed TTL")
  else inr lifetime.

Definition kubernetesSign (w : World) (api : CsrApi) (r : KubernetesRA) (csrPEM caCertFile signer : string) (requestedLifetime : Z)
    : list action * (SignError + string) :=
  if String.eqb (certSignerDomain r) "" && negb (String.eqb signer "") then
    ([], newError CertGenError (mk_error Unknown "certSignerDomain is required for signer"))
  else
    let signer := if negb (String.eqb (certSignerDomain r) "") && negb (String.eqb signer "")
                  then certSignerDomain r +:+ "/" +:+ signer else ra_CaSigner (raOpts r) in
    let '(l, res) := SignCSRK8s w api csrPEM signer ["digital signature"; "key encipherment"; "server auth"; "client auth"] ""
                       caCertFile true false requestedLifetime in
    (l, try chain := of_res CertGenError res in inr (fst chain)).

(** [Sign]: the lifetime [preSign] computes is dropped. *)
Definition ra_Sign (w : World) (api : CsrApi) (r : KubernetesRA) (csrPEM : string) (o : CertOpts) : list action * (SignError + string) :=
  match preSign (raOpts r) csrPEM (SubjectIDs o) (co_TTL o) (ForCA o) with
  | inl e => ([], inl e)
  | inr _ => kubernetesSign w api r csrPEM (ra_CaCertFile (raOpts r)) (co_CertSigner o) (co_TTL o)
  end.

Definition GetRootCertFromMeshConfig `{RangeOrder} (r : KubernetesRA) (signerName : string) : res string :=
  if (size (caCertificatesFromMeshConfig r) =? 0)%nat then errorf "no caCertificates defined in mesh config" else
  match List.find (fun kv => existsb (String.eqb signerName) (Split (fst kv) ",")) (range (caCertificatesFromMeshConfig r)) with
  | Some (_, c) => Ok c
  | None => errorf ("failed to find root cert for signer: " +:+ signerName +:+ " in mesh config")
  end.

Definition SetCACertificatesFromMeshConfig (r : KubernetesRA) (caCertificates : list (string * list string)) : KubernetesRA :=
  mkRA (ra_keyCertBundle r) (raOpts r)
    (fold_left (fun m '(pem, certSigners) =>
       if (List.length certSigners =? 0)%nat || String.eqb pem "" then m else <[str_join certSigners "," := pem]> m)
       caCertificates (caCertificatesFromMeshConfig r))
    (certSignerDomain r).

(** The roots of an answer whose authority has no root of its own. *)
Definition response_roots `{RangeOrder} (w : World) (r : KubernetesRA) (signer cert : string) : SignError + list string :=
  if negb (String.eqb (rootCertBytes (ra_keyCertBundle r)) "") then inr [] else
  let fromChain := ok_opt (FindRootCertFromCertificateChainBytes cert) in
  let fromMesh := ok_opt (GetRootCertFromMeshConfig r (certSignerDomain r +:+ "/" +:+ signer)) in
  match (match fromMesh with Some m => Some m | None => fromChain end) with
  | None => newError CSRError (mk_error Unknown "failed to find root cert from either signed cert-chain or mesh config")
  | Some possible =>
      match VerifyCertificate w None cert (Some possible) None with
      | Ok _ => inr (if bool_decide (Some possible = fromChain) then [] else [possible])
      | Err e => newError CSRError (mk_error Unknown ("root cert from signed cert-chain is invalid (" +:+ err_msg e +:+ ")"))
      | Panic why => inl (SignPanic why)
      end
  end.
Definition ra_SignWithCertChain `{RangeOrder} (w : World) (api : CsrApi) (r : KubernetesRA) (csrPEM : string) (o : CertOpts)
    : list action * (SignError + list string) :=
  let '(l, signed) := ra_Sign w api r csrPEM o in
  (l, try cert := signed in
      let cert := cert +:+ certChainBytes (ra_keyCertBundle r) in
      try roots := response_roots w r (co_CertSigner o) cert in inr (cert :: roots)).

(** The registration authority behind the certificate service. *)
Definition RA_authority `{RangeOrder} (w : World) (api : CsrApi) (r : KubernetesRA) : CertificateAuthority :=
  {| ca_Sign csr o := snd (ra_Sign w api r csr o); ca_SignWithCertChain csr o := snd (ra_SignWithCertChain w api r csr o);
     ca_KeyCertBundle := ra_keyCertBundle r |}.

End verify.

(** ** The bundle of the server and its watchers *)

Record ServerBundle : Type := mkServerBundle { CertPem : string; KeyPem : string; CABundle : string; CRL : string }.
(** A watcher is a channel of one place; [true] when it is full. *)
Record Watcher : Type := mkWatcher { bundle : ServerBundle; watcherID : Z; watchers : gmap Z bool }.
Definition NewWatcher : Watcher := mkWatcher (mkServerBundle "" "" "" "") 0 ∅.

Definition AddWatcher (w : Watcher) : Z * Watcher :=
  (watcherID w, mkWatcher (bundle w) ((watcherID w + 1 + 2147483648) mod 4294967296 - 2147483648) (<[watcherID w := false]> (watchers w))).
Definition RemoveWatcher (w : Watcher) (id : Z) : Watcher := mkWatcher (bundle w) (watcherID w) (delete id (watchers w)).

Definition or_old (new old : string) : string := if String.eqb new "" then old else new.
Definition notify_all (w : Watcher) (b : ServerBundle) : Watcher := mkWatcher b (watcherID w) ((fun _ => true) <$> watchers w).
Definition SetAndNotify (w : Watcher) (key cert caBundle : string) : Watcher :=
  notify_all w (mkServerBundle (or_old cert (CertPem (bundle w))) (or_old key (KeyPem (bundle w))) (or_old caBundle (CABundle (bundle w)))
                  (CRL (bundle w))).
Definition SetAndNotifyCACRL (w : Watcher) (crl : string) : Watcher :=
  notify_all w (mkServerBundle (CertPem (bundle w)) (KeyPem (bundle w)) (CABundle (bundle w)) (or_old crl (CRL (bundle w)))).
Definition SetFromFilesAndNotify (w : Watcher) (wd : World) (keyFile certFile rootCert : string) : res Watcher :=
  cert ← PkiUtil.read wd certFile; key ← PkiUtil.read wd keyFile; caBundle ← PkiUtil.read wd rootCert;
  Ok (SetAndNotify w key cert caBundle).

(** [watchRootCertAndGenKeyCert]: one round, with the roots it saw last. *)
Definition watch_root_round (gen : res (string * string)) (last newRootCert : string) (w : Watcher) : string * Watcher :=
  if String.eqb last newRootCert then (last, w) else
  match gen with
  | Ok (certChain, keyPEM) => (newRootCert, SetAndNotify w keyPEM certChain newRootCert)
  | _ => (newRootCert, w)
  end.
Definition updateRootCertAndGenKeyCert (gen : res (string * string)) (root : string) (w : Watcher) : res Watcher :=
  '(certChain, keyPEM) ← gen; Ok (SetAndNotify w keyPEM certChain root).

(** The handler of the mesh configuration that [initDNSCertsK8SRA] adds; the error of the
    generation is only logged. *)
Definition mesh_roots_handler (newCaBundle : option string) (gen : res (string * string)) (w : Watcher) : Watcher :=
  match newCaBundle with
  | Some ca =>
      if String.eqb ca (CABundle (bundle w)) then w
      else let '(chain, key) := from_ok ("", "") gen in SetAndNotify w key chain ca
  | None => w
  end.

(** [RotateDNSCertForK8sCA]: the pause before a round, where the error of [GetWaitTime] is dropped, and the round. *)
Definition rotation_wait (cr : Crypto) (certPem : string) (now : Time) : Z := from_ok 0 (GetWaitTime cr 50 certPem now).
Definition rotation_round (gen : res (string * string * option string)) (w : Watcher) : Watcher :=
  match gen with
  | Ok (certChain, keyPEM, _) => SetAndNotify w keyPEM certChain (CABundle (bundle w))
  | _ => w
  end.

(** The first certificate of the server, from a signer of the cluster. *)
Definition initDNSCertsK8SRA (gen : res (string * string * option string)) (roots : res string) (w : Watcher) : res Watcher :=
  '(certChain, keyPEM, _) ← wrap_err "failed generating key and cert by kubernetes" gen; caBundle ← roots;
  Ok (SetAndNotify w keyPEM certChain caBundle).

(** And from the authority of the server: which file has the signing key and which the
    root, whether a file is there, and whether the marker of a generated authority
    is. The result says whether the roots of the authority are watched. *)
Definition initDNSCertsDubbod (UseCacertsForSelfSignedCA : bool) (wd : World) (gen : res (string * string)) (caRoot : string)
    (fileBundle : res (string * string)) (Stat : string -> bool) (generated : bool) (w : Watcher) : res (bool * Watcher) :=
  '(certChain, keyPEM) ← wrap_err "failed generating dubbod key cert" gen;
  '(SigningKeyFile, RootCertFile) ← wrap_err "unable to determine signing file format" fileBundle;
  let detectedSigningCABundle := Stat SigningKeyFile in
  let dubboGenerated := detectedSigningCABundle && generated in
  if negb detectedSigningCABundle || UseCacertsForSelfSignedCA && dubboGenerated
  then Ok (true, SetAndNotify w keyPEM certChain caRoot)
  else caBundle ← wrap_err "failed reading" (PkiUtil.read wd RootCertFile); Ok (false, SetAndNotify w keyPEM certChain caBundle).

(** ** Properties *)

(** A signing request does not stay behind: whatever the API server answers, when
    a request was created it is the last thing that is done that it is deleted, after
    the approval of that request and of no other, also when the certificate does
    not come, does not verify, or the code panics; and the certificate that is
    returned was read from that request. *)
Theorem signing_request_removed cr VerifyWith HasCerts float_int32 w api csrData signerName usages dnsName caFilePath approve append_ lifetime :
  let '(l, r) := SignCSRK8s cr VerifyWith HasCerts float_int32 w api csrData signerName usages dnsName caFilePath approve append_ lifetime in
  exists spec, Request spec = csrData /\ SignerName spec = signerName /\ Usages spec = usages /\
    match csr_Create api spec with
    | Ok name => exists approvals, l = Submit spec :: approvals ++ [DeleteCSR name] /\
        Forall (fun a => exists m, a = Approve name m) approvals /\
        (forall chain ca, r = Ok (chain, ca) -> exists cert, readSignedCsr api name = Ok cert /\ chain = cert +:+ default "" ca)
    | _ => l = [Submit spec] /\ is_ok r = false
    end.
Proof.
  unfold SignCSRK8s. set (spec := mkCSRSpec _ _ _ _). destruct (csr_Create api spec) as [name|e|why] eqn:Ec; exists spec;
    do 3 (split; [done|]); rewrite Ec; [|done..].
  eexists. split; [done|]. split; [destruct approve; repeat constructor; by eexists|]. intros chain ca.
  destruct (if approve then csr_UpdateApproval api name else Ok tt) as [[]| |]; [|done..]. unfold readSignedCertificate.
  rewrite res_bind_ok. intros (cert & Hr & E). exists cert. split; [done|]. destruct (String.eqb cert ""); [done|].
  destruct (chain_of cr cert) as [[parsed root]| |]; [|done..].
  destruct (negb append_ || String.eqb caFilePath ""); [injection E as <- <-; simpl; by rewrite str_app_nil_r|].
  apply res_bind_ok in E as (caCert & _ & E). destruct (HasCerts caCert); [|done]. cbn [negb] in E. destruct parsed; [done|].
  destruct (VerifyWith _ _ _ _); [|done]. by injection E as <- <-.
Qed.

(** What a request that is accepted asks for. *)
Lemma ValidateCSR_spec cr marshal_rdn csrPEM subjectIDs :
  ValidateCSR cr marshal_rdn csrPEM subjectIDs = true ->
  exists csr ids, ParsePemEncodedCSR cr csrPEM = Ok csr /\ CheckSignature cr csr = true /\ ExtractIDs (csr_Extensions csr) = Some ids /\
    Forall (fun id => id ∈ subjectIDs) ids /\ Forall (fun e => ext_Id e = OidSubjectAlternativeName) (csr_Extensions csr) /\
    (List.length (csr_URIs csr) <= 1)%nat /\ csr_DNSNames csr = [] /\ csr_IPAddresses csr = [] /\ csr_EmailAddresses csr = [].
Proof.
  unfold ValidateCSR. destruct (ParsePemEncodedCSR cr csrPEM) as [csr| |]; [|done..]. rewrite andb_true_iff. intros [Hs H2].
  destruct (ExtractIDs _) as [ids|] eqn:Ei; [|done]. apply andb_true_iff in H2 as [Hids Hc]. exists csr, ids.
  do 3 (split; [done|]). split.
  { rewrite forallb_forall in Hids. apply Forall_forall. intros id Hid. apply list_elem_of_In in Hid.
    apply Hids, existsb_exists in Hid as (x & Hx & ->%String.eqb_eq). by apply list_elem_of_In. }
  assert (E : csr_URIs (with_org csr) = csr_URIs csr /\ csr_DNSNames (with_org csr) = csr_DNSNames csr /\
    csr_IPAddresses (with_org csr) = csr_IPAddresses csr /\ csr_EmailAddresses (with_org csr) = csr_EmailAddresses csr /\
    csr_Extensions (with_org csr) = csr_Extensions csr) by (unfold with_org; by destruct (Organization (csr_Subject csr))).
  destruct E as (E1 & E2 & E3 & E4 & E5). unfold compareCSRs in Hc.
  set (gen := GenCSRTemplate cr _) in Hc. assert (Hgen : csr_DNSNames gen = [] /\ csr_IPAddresses gen = [] /\ csr_EmailAddresses gen = []).
  { unfold gen, GenCSRTemplate. by destruct (String.eqb _ ""). }
  destruct Hgen as (G1 & G2 & G3). destruct (marshal_rdn _); [|done..]. destruct (marshal_rdn _); [|done..].
  rewrite E1, E2, E3, E4, E5, G1, G2, G3 in Hc. rewrite !andb_true_iff in Hc. destruct Hc as ((((((_ & Hu) & He) & Hi) & Hd) & Hx) & _).
  rewrite forallb_forall in Hx. split; [apply Forall_forall; intros e He'; apply list_elem_of_In in He'; by apply Hx, bool_decide_eq_true in He'|].
  apply Nat.leb_le in Hu. apply Nat.eqb_eq in He, Hi, Hd. split; [done|].
  by destruct (csr_DNSNames csr), (csr_IPAddresses csr), (csr_EmailAddresses csr).
Qed.

(** The seconds of a whole number of seconds *)
Lemma whole_seconds_whole s : - 2 ^ 53 < s < 2 ^ 53 -> whole_seconds (s * giga) = s.
Proof.
  intros Hs. change (truncate (Seconds (s * giga)) = s). rewrite Seconds_whole by done. unfold float64.
  assert (Ht : forall p m, Z.pos p < 2 ^ 53 -> Z.pos m = Z.pos p * 2 ^ (52 - Z.log2 (Z.pos p)) -> Z.shiftl (Z.pos m) (Z.log2 (Z.pos p) - 52) = Z.pos p).
  { intros p m Hp ->. assert (Hl : Z.log2 (Z.pos p) < 53) by (apply Z.log2_lt_pow2; lia).
    rewrite <-Z.shiftl_mul_pow2, Z.shiftl_shiftl by lia.
    replace (52 - Z.log2 (Z.pos p) + (Z.log2 (Z.pos p) - 52)) with 0 by lia. apply Z.shiftl_0_r. }
  destruct s as [|p|p]; cbn [binary_normalize]; [done|..];
    [destruct (binary_round_small false p) as (m & -> & Hm)|destruct (binary_round_small true p) as (m & -> & Hm)];
    try lia; cbn [truncate]; rewrite (Ht p m); lia.
Qed.

(** What is submitted *)
Definition submitted_spec (float_int32 : Z -> Z) (r : KubernetesRA) (csrPEM : string) (o : CertOpts) : CSRSpec :=
  mkCSRSpec csrPEM ["digital signature"; "key encipherment"; "server auth"; "client auth"]
    (if negb (String.eqb (certSignerDomain r) "") && negb (String.eqb (co_CertSigner o) "")
     then certSignerDomain r +:+ "/" +:+ co_CertSigner o else ra_CaSigner (raOpts r))
    (if co_TTL o =? 0 then None else Some (float_int32 (whole_seconds (co_TTL o)))).

Lemma kubernetesSign_submits cr VerifyWith HasCerts float_int32 w api r csrPEM o spec :
  In (Submit spec) (fst (kubernetesSign cr VerifyWith HasCerts float_int32 w api r csrPEM (ra_CaCertFile (raOpts r)) (co_CertSigner o) (co_TTL o))) ->
  spec = submitted_spec float_int32 r csrPEM o /\ (certSignerDomain r = "" -> co_CertSigner o = "").
Proof.
  unfold kubernetesSign. destruct (String.eqb (certSignerDomain r) "" && _) eqn:E; [done|]. unfold SignCSRK8s. intros Hin. split.
  - unfold submitted_spec. destruct (csr_Create api _); simpl in Hin; [|naive_solver..]. destruct Hin as [[= <-]|Hin]; [done|].
    naive_solver.
  - intros Hd. rewrite Hd in E. simpl in E. apply negb_false_iff, String.eqb_eq in E. done.
Qed.

(** C22 The registration authority has nothing signed that its caller may not be: when
    it submits a request to the cluster, the request carries a valid signature,
    names only identities of the caller, in the one extension that is allowed and
    as at most one URI without DNS names, addresses or mail addresses, is not for an
    authority, goes to the configured signer or to one of the configured domain, and
    asks for no usage that signs certificates.  The lifetime the submitted request
    asks for is the one of the caller, which does not exceed the maximum, where both are
    whole seconds that fit in 32 bits; for a caller without a lifetime it asks for none
    and leaves it to the signer. *)
Theorem ra_signs_for_caller_only cr VerifyWith HasCerts (float_int32 : Z -> Z) marshal_rdn w api r csrPEM o spec :
  (forall z, - 2 ^ 31 <= z < 2 ^ 31 -> float_int32 z = z) ->
  In (Submit spec) (fst (ra_Sign cr VerifyWith HasCerts float_int32 marshal_rdn w api r csrPEM o)) ->
  Request spec = csrPEM /\ Usages spec = ["digital signature"; "key encipherment"; "server auth"; "client auth"] /\ ForCA o = false /\
  (if String.eqb (co_CertSigner o) "" then SignerName spec = ra_CaSigner (raOpts r)
   else certSignerDomain r <> "" /\ SignerName spec = certSignerDomain r +:+ "/" +:+ co_CertSigner o) /\
  (forall lifetime maximum, co_TTL o = lifetime * giga -> ra_MaxCertTTL (raOpts r) = maximum * giga ->
     - 2 ^ 31 <= lifetime < 2 ^ 31 -> 0 <= maximum < 2 ^ 31 ->
     lifetime <= maximum /\ ExpirationSeconds spec = if lifetime =? 0 then None else Some lifetime) /\
  exists csr ids, ParsePemEncodedCSR cr csrPEM = Ok csr /\ CheckSignature cr csr = true /\ ExtractIDs (csr_Extensions csr) = Some ids /\
    Forall (fun id => id ∈ SubjectIDs o) ids /\ Forall (fun e => ext_Id e = OidSubjectAlternativeName) (csr_Extensions csr) /\
    (List.length (csr_URIs csr) <= 1)%nat /\ csr_DNSNames csr = [] /\ csr_IPAddresses csr = [] /\ csr_EmailAddresses csr = [].
Proof.
  intros Hi32. unfold ra_Sign, preSign. destruct (ForCA o); [done|]. destruct (ValidateCSR _ _ _ _) eqn:Ev; [|done]. cbn [negb].
  destruct (SFltb _ _) eqn:Et; [done|]. intros [-> Hdom]%kubernetesSign_submits. do 3 (split; [done|]). split; [|split].
  - unfold submitted_spec. cbn [SignerName]. destruct (String.eqb_spec (co_CertSigner o) "") as [->|Hs]; [by rewrite andb_false_r|].
    destruct (String.eqb_spec (certSignerDomain r) "") as [Hd|]; [by destruct Hs; apply Hdom|done].
  - intros lifetime maximum Hl Hm Hr Hr'. rewrite Hl, Hm in Et. rewrite !Seconds_whole, float64_ltb in Et by lia. apply Z.ltb_ge in Et.
    split; [done|]. unfold submitted_spec. cbn [ExpirationSeconds]. rewrite Hl, whole_seconds_whole, Hi32 by lia.
    by destruct (Z.eqb_spec lifetime 0), (Z.eqb_spec (lifetime * giga) 0); try lia.
  - by apply ValidateCSR_spec in Ev.
Qed.

(** A watcher reads the bundle once it is registered (as [inherentXDSWorkloadController.Run] does), and
    again after each notification it has taken. *)
Record client : Type := mkClient { reading : bool; seen : ServerBundle }.
Inductive watch_step : Watcher * gmap Z client -> Watcher * gmap Z client -> Prop :=
  | w_add w cs b : watch_step (w, cs) (snd (AddWatcher w), <[fst (AddWatcher w) := mkClient true b]> cs)
  | w_remove w cs id : watch_step (w, cs) (RemoveWatcher w id, delete id cs)
  | w_set w cs key cert ca : watch_step (w, cs) (SetAndNotify w key cert ca, cs)
  | w_crl w cs crl : watch_step (w, cs) (SetAndNotifyCACRL w crl, cs)
  | w_receive w cs id c : watchers w !! id = Some true -> cs !! id = Some c ->
      watch_step (w, cs) (mkWatcher (bundle w) (watcherID w) (<[id := false]> (watchers w)), <[id := mkClient true (seen c)]> cs)
  | w_read w cs id c : cs !! id = Some c -> reading c = true ->
      watch_step (w, cs) (w, <[id := mkClient false (bundle w)]> cs).

Definition up_to_date (s : Watcher * gmap Z client) : Prop :=
  forall id full c, watchers (fst s) !! id = Some full -> snd s !! id = Some c ->
    full = true \/ reading c = true \/ seen c = bundle (fst s).

Lemma watch_step_up_to_date s s' : watch_step s s' -> up_to_date s -> up_to_date s'.
Proof.
  intros Hs Hu. destruct Hs as [w cs b|w cs id0|w cs key crt ca|w cs crl|w cs id0 c0 Hw Hc|w cs id0 c0 Hc Hr]; intros id full c; simpl.
  - destruct (decide (id = watcherID w)) as [->|]; [rewrite !lookup_insert_eq|rewrite !lookup_insert_ne by done; apply Hu].
    intros [= <-] [= <-]. by right; left.
  - destruct (decide (id = id0)) as [->|]; [by rewrite lookup_delete_eq|rewrite !lookup_delete_ne by done; apply Hu].
  - rewrite lookup_fmap. intros Hf _. destruct (watchers w !! id); simplify_eq/=. by left.
  - rewrite lookup_fmap. intros Hf _. destruct (watchers w !! id); simplify_eq/=. by left.
  - destruct (decide (id = id0)) as [->|]; [rewrite !lookup_insert_eq|rewrite !lookup_insert_ne by done; apply Hu].
    intros _ [= <-]. by right; left.
  - destruct (decide (id = id0)) as [->|]; [rewrite lookup_insert_eq|rewrite lookup_insert_ne by done; apply Hu].
    intros _ [= <-]. by right; right.
Qed.

(** No change of the server's bundle is missed: however watchers are added and
    removed and the bundle is set, also while a watcher is about to read it, a
    watcher that has no notification left and is not reading has seen the current
    bundle, although its channel holds one notification only. *)
Theorem bundle_change_never_missed s id full c :
  rtc watch_step (NewWatcher, ∅) s -> watchers (fst s) !! id = Some full -> snd s !! id = Some c ->
  full = false -> reading c = false -> seen c = bundle (fst s).
Proof.
  intros Hr Hw Hc Hf Hd. assert (Hu : up_to_date s).
  { remember (NewWatcher, ∅) as s0 eqn:E. assert (H0 : up_to_date s0) by (subst; intros ? ? ?; simpl; by rewrite lookup_empty).
    clear E Hw Hc. induction Hr as [|s1 s2 s3 Hs _ IH]; [done|]. apply IH. by eapply watch_step_up_to_date. }
  destruct (Hu id full c Hw Hc) as [?|[?|?]]; congruence.
Qed.

Lemma bundle_change_never_missed_witness :
  let b := bundle (SetAndNotify NewWatcher "key" "cert" "ca") in seen (mkClient false b) = b.
Proof.
  intros b. apply (bundle_change_never_missed (mkWatcher b 1 {[ 0 := false ]}, {[ 0 := mkClient false b ]}) 0 false); [|done..].
  eapply rtc_l; [apply (w_add _ _ b)|]. eapply rtc_l; [apply (w_set _ _ "key" "cert" "ca")|].
  eapply rtc_l; [apply (w_receive _ _ 0 (mkClient true b)); done|].
  eapply rtc_l; [apply (w_read _ _ 0 (mkClient true b)); done|].
  assert (E : forall x y : Watcher * gmap Z client, x = y -> rtc watch_step x y) by (intros x y ->; constructor). apply E. by vm_compute.
Defined.

(** ** A run of the registration authority *)

Module RaDemo.
Definition csr1 : CertificateRequest :=
  mkCSR (mkName [] "") (Some (RSAPublicKey 2048 2)) [] [BuildSubjectAltNameExtension (fun _ => None) Demo.id0] [Demo.id0] [] [] [].
Definition crypto1 : Crypto := mkCrypto Demo.Decode Demo.Encode
  (fun _ => errorf "") (fun der => if String.eqb der "Q" then Ok csr1 else errorf "not a request") (fun _ => true)
  (fun _ => errorf "") (fun _ => errorf "") (fun _ => errorf "") (fun _ => errorf "") (fun _ => "K") (fun _ => errorf "")
  (fun _ _ _ _ => errorf "") (fun _ _ => errorf "") (fun _ _ _ _ => true) (fun _ _ => true) (fun _ => errorf "") (fun _ _ => false)
  (fun _ => "") (fun _ => None).
Definition api1 : CsrApi :=
  mkCsrApi (fun _ => Ok "csr-workload-1") (fun _ => Ok tt) (fun _ => Some [None]) (fun _ => Ok [Some None; Some (Some "CERT")]).
Definition ra1 : KubernetesRA := mkRA (mkBundle "" None "" None "" "root" "") (mkRAOptions (3600 * giga) (86400 * giga) "" "signer" "") ∅ "".
Definition opts1 : CertOpts := mkCertOpts [Demo.id0] (600 * giga) false "".
Definition rdn1 (n : Name) : res string := Ok (str_join (Organization n) ",").
Definition pem1 : string := Demo.Encode (mkBlock "CERTIFICATE REQUEST" "Q").
Definition spec1 : CSRSpec :=
  mkCSRSpec pem1 ["digital signature"; "key encipherment"; "server auth"; "client auth"] "signer" (Some 600).
End RaDemo.

Lemma ra_signs_for_caller_only_witness :
  Request RaDemo.spec1 = RaDemo.pem1 /\ ExpirationSeconds RaDemo.spec1 = Some 600 /\
  exists csr ids, ParsePemEncodedCSR RaDemo.crypto1 RaDemo.pem1 = Ok csr /\ ExtractIDs (csr_Extensions csr) = Some ids /\
    Forall (fun id => id ∈ [Demo.id0]) ids.
Proof.
  destruct (ra_signs_for_caller_only RaDemo.crypto1 (fun _ _ _ _ => true) (fun _ => true) (fun z => z) RaDemo.rdn1 Demo.w0 RaDemo.api1
              RaDemo.ra1 RaDemo.pem1 RaDemo.opts1 RaDemo.spec1) as (H1 & _ & _ & _ & Ht & csr & ids & H2 & _ & H3 & H4 & _).
  - reflexivity.
  - left. vm_compute. reflexivity.
  - split; [exact H1|]. split; [|exists csr, ids; split; [exact H2|]; split; [exact H3|exact H4]].
    destruct (Ht 600 86400) as [_ E]; [reflexivity|reflexivity|lia|lia|exact E].
Defined.

(** ** What the code leaves undone *)

(** A request without a lifetime is sent to the cluster without one: the default
    lifetime [preSign] computes is not used. *)
Lemma default_lifetime_not_applied cr VerifyWith HasCerts float_int32 marshal_rdn w api r csrPEM o spec :
  co_TTL o = 0 -> In (Submit spec) (fst (ra_Sign cr VerifyWith HasCerts float_int32 marshal_rdn w api r csrPEM o)) ->
  ExpirationSeconds spec = None.
Proof.
  intros Ht. unfold ra_Sign. destruct (preSign _ _ _ _ _ _ _); [done|]. intros [-> _]%kubernetesSign_submits.
  unfold submitted_spec. by rewrite Ht.
Qed.

(** When the certificate cannot be generated for new roots, the roots count as seen:
    later rounds do not try again. *)
Lemma failed_regeneration_not_retried e gen last newRoot w :
  let '(last', w') := watch_root_round (Err e) last newRoot w in last <> newRoot -> watch_root_round gen last' newRoot w' = (newRoot, w).
Proof.
  unfold watch_root_round. destruct (String.eqb last newRoot) eqn:E; intros Hne; [by apply String.eqb_eq in E|].
  by rewrite String.eqb_refl.
Qed.

(** The handler of the mesh configuration installs the new roots beside the old
    certificate when no certificate was generated. *)
Lemma new_roots_with_old_certificate ca e w : ca <> "" -> CABundle (bundle w) <> ca ->
  bundle (mesh_roots_handler (Some ca) (Err e) w) = mkServerBundle (CertPem (bundle w)) (KeyPem (bundle w)) ca (CRL (bundle w)).
Proof.
  intros Hca Hne. unfold mesh_roots_handler. destruct (String.eqb_spec ca (CABundle (bundle w))); [congruence|].
  simpl. unfold or_old. simpl. destruct (String.eqb_spec ca ""); [done|]. reflexivity.
Qed.

(** A signer that leaves the mesh configuration keeps its root. *)
Lemma removed_signer_keeps_root r caCertificates signers pem :
  caCertificatesFromMeshConfig r !! signers = Some pem -> Forall (fun c => str_join (snd c) "," <> signers) caCertificates ->
  caCertificatesFromMeshConfig (SetCACertificatesFromMeshConfig r caCertificates) !! signers = Some pem.
Proof.
  simpl. generalize (caCertificatesFromMeshConfig r) as m. induction caCertificates as [|[p s] l IH]; intros m Hm Hl; [done|].
  apply Forall_cons in Hl as [Hs Hl]. simpl in Hs. simpl. apply IH; [|done]. case_match; [done|]. by rewrite lookup_insert_ne.
Qed.

(** The rotation of the server's certificate does not wait while the certificate in
    use is due or expired, also when the last attempt has just failed. *)
Lemma rotation_does_not_wait cr certPem now c :
  ParsePemEncodedCertificate cr certPem = Ok c -> Sub (NotAfter c) now < 0 -> rotation_wait cr certPem now = 0.
Proof.
  intros Hp Hs. unfold rotation_wait, GetWaitTime. rewrite Hp. cbn [mbind res_bind]. by rewrite (proj2 (Z.ltb_lt _ _) Hs).
Qed.

(** A watch the API server ends early is a panic, not an error. *)
Lemma closed_watch_panics csr events : Forall (fun e => e = Some None) events ->
  watch_events csr (events ++ [None]) = Panic "interface conversion: interface is nil".
Proof. induction 1 as [|e l -> _ IH]; [done|exact IH]. Qed.
